(* ===== verification/_CoqProject ===== *)
-Q . S2P
Prelude.v
GoFloat.v
GoStrings.v
GoTime.v
Scheduler.v
SchedulerTopo.v
SchedulerCPM.v
SchedulerExact.v
MonteCarlo.v
MonteCarloTheorems.v
MonteCarloHistory.v
Anchor.v
Resources.v
Overallocation.v
Leveling.v
LevelingOrder.v
Money.v
Evm.v
Budget.v
GoSha256.v
GoDecimal.v
GoJson.v
GoJsonV2.v
SqliteLike.v
Wbs.v
WbsTheorems.v
WbsRoundTrip.v
EscrowCrypto.v
Passwords.v
SystemDb.v
Accounts.v
Escrow.v
RecoveryCode.v
Succession.v
Access.v
Credentials.v
AccountsDemo.v
TxLogic.v
AccountsMachine.v
RolesSpec.v
Roles.v
RolesRefine.v
RolesKeys.v
RolesTheorems.v
SuccessionTheorems.v
AccountsHistory.v
CredentialsTheorems.v
CredentialsHistory.v
ProjectDb.v
AuditChain.v
AuditTheorems.v
AuditHistory.v
Charts.v
Projects.v
Documents.v
Baselines.v
Scenarios.v
CostControl.v
CostAttachments.v
Dora.v
Agile.v
Stakeholders.v
DeletionLog.v
ChartsTheorems.v
ProjectKeeps.v
PlanTheorems.v
CostTheorems.v
WbsStore.v
WbsStoreTheorems.v
WbsInvariant.v
ProjectFrames.v
WriteLock.v
ProjectMachine.v
WbsHistory.v
PlanHistory.v
AgileHistory.v
StakeholderHistory.v
CostInvariant.v
CostSearch.v
CostHistory.v
