(* ===== verification/Prelude.v ===== *)
(** * GoPMgr: a verification development

    GoPMgr is a desktop project manager in Go: a scheduling kernel, exact money,
    an audited project file per project and a machine-wide account database with
    an administrator key escrow.  This library translates the core of
    src/internal/ into executable definitions and proves what makes them correct.
    A file of the library is named after what it models; this one, the root,
    holds the notations, the tactics and the lemmas on lists, maps and integers
    the others share.

    ** The parts of the program and their files

    Go itself.  [GoFloat]: float64 as IEEE-754 binary64, package math.
    [GoStrings]: byte strings, packages strings, strconv, utf8, encoding/base64 and
    the integer verbs of fmt.Sscanf.  [GoTime]: package time
    in UTC.  [GoSha256]: crypto/sha256 and encoding/hex.  [GoDecimal]: the
    decimal text of a float64, read and printed.  [GoJson]: encoding/json.
    [GoJsonV2]: encoding/json/v2 and its token reader jsontext.  [SqliteLike]: LIKE
    of the vendored SQLite (third_party/go-sqlcipher/sqlite3.c, patternCompare).

    The kernel (src/internal/kernel/).  [Scheduler]: scheduler.go, the task
    record, topoSort and every pass of CalculateCPM on binary64;
    [SchedulerTopo], [SchedulerCPM], [SchedulerExact]: their theorems.  [Anchor]:
    anchor.go.  [Resources], [Overallocation], [Leveling], [LevelingOrder]:
    resources.go, with the detector's frozen reference
    (overallocation_legacy_ref_test.go).  [Evm]: evm.go and baseline.go.
    [MonteCarlo], [MonteCarloTheorems], [MonteCarloHistory]:
    montecarlo.go, its goroutines and channels included.

    Money.  [Money]: money/money.go.  [Budget]: budget/budget.go.

    The account store (src/internal/users/, auth/, crypto/).  [EscrowCrypto]:
    crypto/escrow.go and subkey.go.  [Passwords]: auth/password.go,
    crypto/encrypt.go and keywrap.go.  [SystemDb]: the tables of system.db with
    their keys, cascades and triggers, inWriteTx, and the SQL statements.  [Accounts]: account_status.go, super_admin.go, roles and
    history.  [Escrow]: escrow_enroll.go, escrow_rotation.go,
    escrow_new_key.go.  [RecoveryCode]: escrow_recovery.go.  [Succession]:
    succession.go.  [Access]: store.go, escrow_access.go, access_notice.go.
    [Credentials]: credentials.go, password_change.go, recovery.go,
    recovery_rotation.go, dek.go.  [RolesSpec] is an abstract machine of roles;
    [TxLogic], [AccountsMachine], [Roles], [RolesRefine], [RolesKeys],
    [RolesTheorems] show that the store implements it; [SuccessionTheorems]
    treats takeovers, [CredentialsTheorems] passwords and
    recovery; [AccountsDemo], [AccountsHistory], [CredentialsHistory] hold the
    concrete runs.

    The work breakdown structure (src/internal/wbs/).  [Wbs]: model.go, parse.go
    and revision.go, and the normalisation of db/wbs_store.go; [WbsTheorems]:
    validation against the definition of a well-formed tree; [WbsRoundTrip]:
    parsing what was marshalled.

    The project file (src/internal/db/).  [ProjectDb]: the rows of its tables,
    a record per struct of db/*.go, the state of one file, the environment of its
    statements and its transactions.  [AuditChain]: audit.go
    and audit_checkpoints.go; [AuditTheorems], [AuditHistory].  [Charts]:
    charts.go; [ChartsTheorems].  [WbsStore]: wbs_store.go; [WbsStoreTheorems]
    gives the effect of each of its operations and the order in which receipts are
    pruned, [WbsInvariant] the invariant of its tables and what a
    save changes.  [Projects]: project.go and the currency codes of
    cost_control.go.  [Documents]: documents.go.  [Baselines]: baselines.go.
    [Scenarios]: scenarios.go.  [CostControl]: cost_control.go.
    [CostAttachments]: cost_control_attachments.go.  [Stakeholders]:
    stakeholders.go.  [Agile]: agile/agile.go and store.go, and ComputeDORA of
    desktop/app_agile.go; [Dora]: agile/dora.go.  The effects of their
    operations are in [PlanTheorems] and [CostTheorems].  [ProjectKeeps] gives the preorders
    that computations keep, [ProjectFrames] the tables each operation can touch,
    [WriteLock] what an operation does while another transaction stays open.
    [ProjectMachine] is the step relation of all these operations on one file.
    [WbsHistory], [PlanHistory] (documents, baselines, scenarios),
    [AgileHistory], [StakeholderHistory] and [CostHistory] hold the theorems
    about its histories; [CostInvariant] and [CostSearch] prove the invariants
    and the searches the last one needs.

    Beside the project files.  [DeletionLog]: deletionlog/log.go and the end of
    DeleteProject of desktop/app_projects.go, with the theorems about both.

    ** How state and effects correspond to the code

    A Go map is a [gmap]; where the code ranges over a map the model takes the
    order as an argument ([RangeOrder], [arrange]) and the determinism theorems
    quantify over it.  A nil dereference, an index out of range, or a length that
    make refuses ([can_make]: negative, or too large) is [None]; the slices that
    leveling and the simulation make are taken to be allocated.  An int64 is a [Z] with its wrap-around ([wrap64]) or its
    range check written out.  A pair of a value and an error is a [result].

    An operation of the account store runs in the monad [Tx] on a context with
    the database, the clock and the random source; a statement of an audited
    project file in [DbTx].  The classes [Env] and [DbEnv] supply what the
    machine does: the clock, the random bytes (which may fail), which statements
    fail, and what becomes of a commit, which may report an error and yet be
    durable.  The theorems about steps and reachable states quantify over every
    environment, so every failure at every statement is covered.  What other
    processes do between the reads of an operation and its transaction is the
    argument [others].

    A statement of a project file whose WHERE clause selects by a key is a lookup
    in the table's map; one without an ORDER BY returns its rows in any order,
    which the environment chooses.  A loop over rows may be cut short
    ([dtx_rows], [dtx_rows_unchecked] where the code does not ask rows.Err).
    A transaction that returns without a commit or a rollback keeps the write
    lock ([Session]), which is how the deferred functions that do not see an
    inner error are modelled; an UPDATE fails while another transaction has that
    lock, also one that changes nothing and only takes it ([sql_lock_project],
    [sql_lock_copy]).  A history of a project file starts from an empty
    migrated file and takes any number of operations, each in an environment of
    its own, that is under any faults.  The step relation has two
    premises.  A file holds one project: the desktop application creates a file
    for each, and a step that would add the row of a second one is left out
    ([one_project]).  Between the reads of an operation and its own transaction no
    other connection writes to the file (BranchScenarioChart reads before it
    begins; the saves of the work breakdown read inside their transaction).

    The deletion log is a state of its own ([LogWorld]) with the files that exist;
    [LogEnv] supplies the clock, the random bytes, how each commit ends and which
    paths the operating system does not remove.

    ** What the theorems show

    - Scheduling: CalculateCPM always returns and succeeds exactly on acyclic
      graphs; without ALAP tasks its dates respect every typed, lagged link; late dates,
      float and criticality solve the backward recurrences; on whole days all of it is
      exact integer arithmetic; the order is independent of map iteration.  The
      ALAP pass is shown to break links.
    - Calendars and resources: date tables of working days, the sweep detector
      against its reference, leveling that places every task and keeps links.
    - Simulation: no scheduler of the goroutines can block or lose a result, and
      the result depends on nothing but tasks and iterations.
    - Money: the parser on every spelling and the printer, single rounding, exact
      totals in any order; the cost rollup with its categories and earned value
      built on them.
    - Accounts: every operation of the store, under every failure, is at most
      one transition of the role machine; the invariants of reachable databases;
      takeover only when due, always possible when due; the protection of the
      former super administrator; the append-only history.
    - Credentials: sign-in returns one incarnation of an account; password
      changes and recovery keep the data key; hashes and wraps round-trip.
    - Audit: reachable chains verify, appends extend them, tampering that keeps
      the terminal hash exhibits a SHA-256 collision; what verification misses.
    - Work breakdown: Validate accepts exactly the well-formed trees, on any
      graph of pointers; parsing inverts marshalling.  A save advances its scope
      by one revision with its event and receipt or leaves the file as it was; a
      retry of a save, after any history within the receipt limit and whatever
      its first report was, is answered from its receipt; of two saves from one
      revision one is refused; the writers of charts spare scopes; the store
      reopens on every file it left; every operation extends the audit chains.
    - Documents, baselines, scenarios: a saved document has its next version and
      its events; an approved one has a signed checkpoint of an approved version;
      at most one scenario of a project is active; no baseline ever changes, and
      one goes only with its chart or when no scenario names it; promoting a copy
      leaves the copy and its source.  A fault in the loop over deactivated
      scenarios leaves the transaction open, and then no operation changes the
      file any more.
    - Cost control: the ledger, the attachments and the approved baselines only
      grow; in every reachable file entries satisfy the checks, attachments stay
      within their bounds and have the digest of their bytes, an approved baseline
      has the project's currency and its own version; an approval records the sums
      of the rows it received, which are all the planned rows unless the rows stop
      arriving; a search is plain containment; totals are exact per item and unit.
    - Agile pack and stakeholders: a project has one board, which keeps its
      built-in columns; a column goes only when no card is in it; the metrics are
      the counts, medians and rates of the deployments in the window, except that
      the query, which compares times as text, can lose those of the window's first
      second; a saved stakeholder is read back as it was returned.
    - Deletions: the log refines a list of deletions that are closed once; no entry
      disappears or changes after its outcome; a project's files are removed only
      after the request is in the log.

    ** Bounds and fuel

    Fuel bounds loops whose recursion is not structural, and each bound is shown
    to be enough: topoSort has one round per task plus one; the leveling loop
    one round per pending task; the base64 and JSON readers are bounded by the
    length of their input (twice the length plus two for JSON, twice the number of
    tokens plus one for JSON v2); Validate visits at most MaxNodes + 1 nodes and
    the traversal of a tree descends at most MaxLevels levels, as the code's own
    limits do; the exponent of a printed float needs less than 3000 rounds; the
    store keeps 256 receipts of a scope, as the code does; EnsureDefaultBoard
    calls itself once (EnsureDefaultBoard_rounds: two rounds are as good as more);
    the daily trend has one round for each day of the window; a simulation's
    pool takes three steps per iteration (RunMonteCarlo_deterministic shows that
    every run ends); sign-in retries [signInAttempts] = 3 times, as the code
    does; the calendar walks are bounded by the code's own limits
    (maxNonWorkdayRun, 100000 working days).

    ** Parameters and hypotheses

    HPKE with its X-Wing keys, HKDF, HMAC, AES-GCM and Argon2id are the operations
    of the class [Primitives]; [PrimitiveLaws] states that opening inverts
    sealing under the same key and data, that a generated key has a public half,
    and the lengths of outputs.  gonum's distributions are the class [Distuv],
    functions of their parameters and of the state of the random source.  The
    calendar's IsWorkday is an argument.  AccountsDemo and MonteCarloHistory
    instantiate all of them.

    Caveats: signed zeros are distinguished, NaN payloads are not; operations are
    not fused (Go allows that on some architectures); sort.Float64s puts NaNs
    first and leaves equal samples, +0 and -0 among them, in their order.

    ** What is not modelled

    SQL parsing, the SQLite file format and encryption at rest (sqlcipher,
    db/encryption.go, backup.go, repair.go): files and a C library.  The schema,
    its migrations and the opening of a file (db/sqlite.go, read_only.go,
    settings.go): the tables are those of a migrated file, so the reads that fall
    back to older columns are modelled on their migrated branch only.  Cancelled
    contexts and deadlines.  Sigma records and resource calendars (db/sigma.go,
    resource_calendars.go), whose stores write a row as the modelled ones do.
    Paths are those of Unix ([CostAttachments], [DeletionLog]); the quantity totals
    are stated for item names without NUL, and the searches for texts that are valid
    UTF-8 without NUL ([searchable]).  Holidays (a third-party table), analytics imports (third-party
    readers), six sigma tollgates: beside the schedule, money and accounts that
    this library is about.  How DeleteProject reads what it records from the
    project, and the other desktop glue, document and chart rendering,
    PDF, printing, fonts, signing, time-stamping, updates and logging produce
    files or call the operating system.  The table of components lists each with
    its reason. *)

From stdpp Require Export base list gmap strings sorting fin_maps.
From Stdlib Require Export ZArith Lia.

Declare Scope gopm_scope.
Delimit Scope gopm_scope with gopm.

Create HintDb gopm.

(** ** Results of fallible Go functions

    [Ok v] is the pair [(v, nil)], [Err e] a pair whose error is [e]. *)

Inductive result (E A : Type) : Type :=
| Ok (a : A)
| Err (e : E).

Arguments Ok {E A} a.
Arguments Err {E A} e.

Definition rbind {E A B : Type} (r : result E A) (f : A -> result E B) : result E B :=
  match r with
  | Ok a => f a
  | Err e => Err e
  end.

Definition is_ok {E A : Type} (r : result E A) : bool :=
  match r with
  | Ok _ => true
  | Err _ => false
  end.

(** [x <-! r ;; k] is [x, err := r; if err != nil { return err }; k]. *)
Notation "x <-! r ;; k" := (rbind r (fun x => k))
  (at level 100, r at next level, right associativity) : gopm_scope.

(** [must! r ;; k] is the same for a call that returns only an error. *)
Notation "'must!' r ;; k" := (rbind r (fun _ => k))
  (at level 100, r at next level, right associativity) : gopm_scope.

Open Scope gopm_scope.

(** ** Machine integers

    Go's [int] is 64 bits wide on every platform the program is built for. *)

Definition min_int64 : Z := (- 2 ^ 63)%Z.
Definition max_int64 : Z := (2 ^ 63 - 1)%Z.
Definition max_uint64 : Z := (2 ^ 64 - 1)%Z.

Definition in_int64 (z : Z) : bool := (min_int64 <=? z)%Z && (z <=? max_int64)%Z.

(** Two's-complement wrap-around of an [int64] operation. *)
Definition wrap64 (z : Z) : Z := ((z + 2 ^ 63) mod 2 ^ 64 - 2 ^ 63)%Z.

(** [make([]T, n)] for elements of [size] bytes, as the runtime's makeslice has it:
    a negative length or more bytes than the address space of a 64-bit platform
    holds panics. *)
Definition maxAlloc : Z := (2 ^ 48)%Z.
Definition can_make (size n : Z) : bool := (0 <=? n)%Z && (n * size <=? maxAlloc)%Z.

(** Wrap-around of a [uint64] operation. *)
Definition wrapu64 (z : Z) : Z := (z mod 2 ^ 64)%Z.

(** ** Map iteration

    Go's [range] over a map visits every entry once, in an unspecified order
    that may differ from one loop to the next.  An instance of [RangeOrder]
    fixes, for every loop of the program ([site]), some order; the theorems
    hold for every instance.  [arrange] is the order of the rows of a query
    without ORDER BY. *)

Class RangeOrder := {
  range : forall {A : Type}, nat -> gmap string A -> list (string * A);
  range_perm : forall {A : Type} (site : nat) (m : gmap string A),
    range site m ≡ₚ map_to_list m;
  arrange : forall {A : Type}, nat -> list A -> list A;
  arrange_perm : forall {A : Type} (site : nat) (l : list A), arrange site l ≡ₚ l
}.

(** The order the witnesses compute with. *)
Definition key_order : RangeOrder :=
  {| range := fun A _ m => map_to_list m;
     range_perm := fun A _ m => Permutation_refl _;
     arrange := fun A _ l => l;
     arrange_perm := fun A _ l => Permutation_refl _ |}.

(** Another one: every loop backwards. *)
Definition reverse_order : RangeOrder :=
  {| range := fun A _ m => reverse (map_to_list m);
     range_perm := fun A _ m => reverse_Permutation _;
     arrange := fun A _ l => reverse l;
     arrange_perm := fun A _ l => reverse_Permutation _ |}.

(** ** Reads of a map of numbers

    [m[k]] of a missing key is the zero value. *)

Definition zget (m : gmap string Z) (k : string) : Z := default 0%Z (m !! k).

(** ** [sort.Strings] *)

Definition sort_strings (l : list string) : list string := merge_sort String.le l.

(** Records ordered by a string key, as the comparison closures of
    [sort.Slice] order them. *)
Definition key_le {A : Type} (f : A -> string) (x y : A) : Prop := String.le (f x) (f y).

#[export] Instance key_le_dec {A : Type} (f : A -> string) x y : Decision (key_le f x y).
Proof. unfold key_le. apply _. Defined.

Definition sort_by_key {A : Type} (f : A -> string) (l : list A) : list A :=
  merge_sort (key_le f) l.

(** ** Record update

    [record_set eta proj v r] is the record [r] with field [proj] set to [v];
    [eta] rebuilds a record from its own projections. *)
Ltac record_set eta proj v r :=
  let e := eval cbv beta delta [eta] in (eta r) in
  lazymatch eval pattern (proj r) in e with
  | ?F _ => let u := eval cbv beta in (F v) in exact u
  end.

(** ** Tactics *)

(** Split every [match] and [if] of the goal, or of [H], on its scrutinee. *)
Ltac case_goal :=
  repeat match goal with
  | |- context [match ?x with _ => _ end] => destruct x eqn:?; simplify_eq/=
  end.

Ltac case_hyp H :=
  repeat match type of H with
  | context [match ?x with _ => _ end] => destruct x eqn:?; simplify_eq/=
  end.

(** Decide a closed decidable proposition by computation. *)
Ltac by_decide := refine (bool_decide_unpack _ _); vm_compute; exact I.

(** ** Sorting lemmas *)

Lemma sort_strings_perm l : sort_strings l ≡ₚ l.
Proof. apply merge_sort_Permutation. Qed.

Lemma sort_strings_sorted l : StronglySorted String.le (sort_strings l).
Proof. apply (StronglySorted_merge_sort _). Qed.

Lemma elem_of_sort_strings x l : x ∈ sort_strings l <-> x ∈ l.
Proof. by rewrite (sort_strings_perm l). Qed.

(** Sorting forgets the order of its input: this is what makes the program's
    output independent of map iteration. *)
Lemma sort_strings_unique l1 l2 : l1 ≡ₚ l2 -> sort_strings l1 = sort_strings l2.
Proof.
  intros H. apply (StronglySorted_unique String.le); [apply sort_strings_sorted..|].
  by rewrite !sort_strings_perm.
Qed.

#[export] Instance key_le_total {A : Type} (f : A -> string) : Total (key_le f).
Proof. intros x y. unfold key_le. apply (total String.le). Qed.

#[export] Instance key_le_trans {A : Type} (f : A -> string) : Transitive (key_le f).
Proof. intros x y z. unfold key_le. apply (transitivity (R := String.le)). Qed.

Lemma sort_by_key_perm {A : Type} (f : A -> string) l : sort_by_key f l ≡ₚ l.
Proof. apply merge_sort_Permutation. Qed.

Lemma sort_by_key_sorted {A : Type} (f : A -> string) l :
  StronglySorted (key_le f) (sort_by_key f l).
Proof. apply (StronglySorted_merge_sort _). Qed.

(** With distinct keys the sorted list depends on the elements only. *)
Lemma sort_by_key_unique {A : Type} (f : A -> string) l1 l2 :
  NoDup (f <$> l1) -> l1 ≡ₚ l2 -> sort_by_key f l1 = sort_by_key f l2.
Proof.
  intros Hnd Hp. eapply StronglySorted_unique_strong; [|apply sort_by_key_sorted..|].
  - intros x1 x2 H1 H2 H12 H21. rewrite sort_by_key_perm in H1.
    rewrite sort_by_key_perm, <- Hp in H2.
    assert (He : f x1 = f x2) by (by apply (anti_symm String.le)).
    apply list_elem_of_lookup in H1 as [i Hi]. apply list_elem_of_lookup in H2 as [j Hj].
    assert (i = j) as ->.
    { eapply NoDup_lookup; [exact Hnd|by rewrite list_lookup_fmap, Hi|].
      by rewrite list_lookup_fmap, Hj, He. }
    congruence.
  - by rewrite !sort_by_key_perm.
Qed.

(** ** Filters that keep everything or nothing *)

Lemma filter_keep {A : Type} (P : A -> Prop) `{forall x, Decision (P x)} (l : list A) :
  (forall x, x ∈ l -> P x) -> filter P l = l.
Proof.
  induction l as [|x l IH]; intros Hl; [done|].
  rewrite filter_cons_True by (apply Hl, elem_of_cons; by left). f_equal.
  apply IH. intros y Hy. apply Hl, elem_of_cons. by right.
Qed.

Lemma filter_drop {A : Type} (P : A -> Prop) `{forall x, Decision (P x)} (l : list A) :
  (forall x, x ∈ l -> ~ P x) -> filter P l = [].
Proof.
  induction l as [|x l IH]; intros Hl; [done|].
  rewrite filter_cons_False by (apply Hl, elem_of_cons; by left).
  apply IH. intros y Hy. apply Hl, elem_of_cons. by right.
Qed.

(** ** Range lemmas *)

Lemma elem_of_range `{RangeOrder} {A} site (m : gmap string A) k v :
  (k, v) ∈ range site m <-> m !! k = Some v.
Proof. by rewrite (range_perm site m), elem_of_map_to_list. Qed.

Lemma range_length `{RangeOrder} {A} site (m : gmap string A) :
  length (range site m) = size m.
Proof. by rewrite (range_perm site m), length_map_to_list. Qed.

Lemma range_keys_NoDup `{RangeOrder} {A} site (m : gmap string A) :
  NoDup (range site m).*1.
Proof. rewrite (range_perm site m). apply NoDup_fst_map_to_list. Qed.

Lemma range_NoDup `{RangeOrder} {A} site (m : gmap string A) :
  NoDup (range site m).
Proof. rewrite (range_perm site m). apply NoDup_map_to_list. Qed.

Lemma elem_of_range_keys `{RangeOrder} {A} site (m : gmap string A) k :
  k ∈ (range site m).*1 <-> is_Some (m !! k).
Proof.
  rewrite list_elem_of_fmap. split.
  - intros ([k' v] & -> & Hin). apply elem_of_range in Hin. by exists v.
  - intros [v Hv]. exists (k, v). split; [done|]. by apply elem_of_range.
Qed.

#[export] Hint Resolve range_keys_NoDup range_NoDup : gopm.

(** ** Map-read lemmas *)

Lemma zget_insert_eq m k z : zget (<[k:=z]> m) k = z.
Proof. unfold zget. by rewrite lookup_insert_eq. Qed.

Lemma zget_insert_ne m k k' z : k <> k' -> zget (<[k:=z]> m) k' = zget m k'.
Proof. intros Hne. unfold zget. by rewrite lookup_insert_ne. Qed.

(** ** Machine-integer lemmas *)

Lemma in_int64_spec z : in_int64 z = true <-> (- 2 ^ 63 <= z < 2 ^ 63)%Z.
Proof. unfold in_int64, min_int64, max_int64. lia. Qed.

Lemma wrap64_id z : (- 2 ^ 63 <= z < 2 ^ 63)%Z -> wrap64 z = z.
Proof. intros H. unfold wrap64. rewrite Z.mod_small; lia. Qed.

Lemma wrap64_range z : (- 2 ^ 63 <= wrap64 z < 2 ^ 63)%Z.
Proof. unfold wrap64. pose proof (Z.mod_pos_bound (z + 2 ^ 63) (2 ^ 64) ltac:(lia)). lia. Qed.

Lemma wrap64_cases z : (- 2 ^ 63 <= z < 2 ^ 64)%Z ->
  (wrap64 z = z /\ z < 2 ^ 63 \/ wrap64 z = z - 2 ^ 64 /\ 2 ^ 63 <= z)%Z.
Proof.
  intros H. destruct (Z.lt_ge_cases z (2 ^ 63)); [left; split; [apply wrap64_id; lia|done]|].
  right. split; [|done]. unfold wrap64.
  rewrite (Z.mod_eq (z + 2 ^ 63) (2 ^ 64)) by lia.
  replace ((z + 2 ^ 63) / 2 ^ 64)%Z with 1%Z; [lia|]. apply (Z.div_unique_pos _ _ _ (z - 2 ^ 63)%Z); lia.
Qed.

(** ** Folds that may stop *)

Fixpoint foldlM {A B : Type} (f : A -> B -> option A) (a : A) (l : list B) : option A :=
  match l with
  | [] => Some a
  | x :: l' => f a x ≫= fun a' => foldlM f a' l'
  end.

Lemma foldlM_Some {A B : Type} (f : A -> B -> option A) (P : A -> Prop) (l : list B) : forall a,
  P a -> (forall a x, P a -> x ∈ l -> exists a', f a x = Some a' /\ P a') -> is_Some (foldlM f a l).
Proof.
  induction l as [|x l IH]; intros a Ha Hf; cbn [foldlM]; [by eexists|].
  destruct (Hf a x Ha) as (a' & -> & Ha'); [by apply elem_of_cons; left|]. apply IH; [done|].
  intros b y Hb Hy. apply Hf; [done|]. by apply elem_of_cons; right.
Qed.

Lemma foldlM_elem {A B : Type} (f : A -> B -> option A) (l : list B) : forall a r x,
  foldlM f a l = Some r -> x ∈ l -> exists b, is_Some (f b x).
Proof.
  induction l as [|y l IH]; intros a r x Hf Hx; [by apply not_elem_of_nil in Hx|]. cbn [foldlM] in Hf.
  apply bind_Some in Hf as (a' & Ha & Hf). apply elem_of_cons in Hx as [->|Hx]; [exists a; by eexists|by eapply IH].
Qed.

(** ** Sums of integers *)

Definition sum_Z (l : list Z) : Z := foldr Z.add 0%Z l.

Lemma sum_Z_cons x l : sum_Z (x :: l) = (x + sum_Z l)%Z.
Proof. done. Qed.

Lemma sum_Z_app l1 l2 : sum_Z (l1 ++ l2) = (sum_Z l1 + sum_Z l2)%Z.
Proof. unfold sum_Z. induction l1 as [|x l1 IH]; simpl; lia. Qed.

Lemma sum_Z_perm l1 l2 : l1 ≡ₚ l2 -> sum_Z l1 = sum_Z l2.
Proof. unfold sum_Z. induction 1; simpl; lia. Qed.

Lemma sum_Z_nonneg {A} (f : A -> Z) l :
  (forall x, x ∈ l -> (0 <= f x)%Z) -> (0 <= sum_Z (f <$> l))%Z.
Proof.
  induction l as [|x l IH]; intros Hf; [done|]. rewrite fmap_cons, sum_Z_cons.
  assert (0 <= f x)%Z by (apply Hf; constructor).
  assert (0 <= sum_Z (f <$> l))%Z by (apply IH; intros; apply Hf; by constructor). lia.
Qed.
