(* ===== verification/GoFloat.v ===== *)
(** * Go's float64

    IEEE-754 binary64 as the executable specification [SpecFloat] defines it
    (53-bit significand, exponents up to 1024, round to nearest even), the
    parts of package math the program calls, and two groups of lemmas: the
    comparison [<] is a strict order on the values that are not NaN, and
    arithmetic on integers below 2^53 is exact. *)

From S2P Require Import Prelude.
From Corelib Require Export SpecFloat.

Local Open Scope Z_scope.

(** ** Representation and arithmetic *)

Definition f64 : Type := spec_float.

#[export] Instance spec_float_eq_dec : EqDecision spec_float.
Proof. solve_decision. Defined.

Definition fadd (x y : f64) : f64 := SFadd 53 1024 x y.
Definition fsub (x y : f64) : f64 := SFsub 53 1024 x y.
Definition fmul (x y : f64) : f64 := SFmul 53 1024 x y.
Definition fdiv (x y : f64) : f64 := SFdiv 53 1024 x y.

(** [x < y], [x <= y] and [x == y]; all three are false on a NaN. *)
Definition flt (x y : f64) : bool := SFltb x y.
Definition fle (x y : f64) : bool := SFleb x y.
Definition feq (x y : f64) : bool := SFeqb x y.

(** [float64(n)]: the nearest binary64 value. *)
Definition f_of_Z (n : Z) : f64 := binary_normalize 53 1024 n 0 false.

Definition fzero : f64 := S754_zero false.
Definition fone : f64 := f_of_Z 1.

(** The literal [1e-9]: division is correctly rounded, as literals are. *)
Definition f_1em9 : f64 := fdiv fone (f_of_Z 1000000000).

Notation "x ⊕ y" := (fadd x y) (at level 50, left associativity) : gopm_scope.
Notation "x ⊖ y" := (fsub x y) (at level 50, left associativity) : gopm_scope.
Notation "x ⊗ y" := (fmul x y) (at level 40, left associativity) : gopm_scope.
Notation "x ⊘ y" := (fdiv x y) (at level 40, left associativity) : gopm_scope.
Notation "x <. y" := (flt x y) (at level 60, no associativity) : gopm_scope.
Notation "x <=. y" := (fle x y) (at level 60, no associativity) : gopm_scope.
Notation "x ==. y" := (feq x y) (at level 60, no associativity) : gopm_scope.

Open Scope gopm_scope.

(** ** Package math *)

Definition is_nan (x : f64) : bool :=
  match x with S754_nan => true | _ => false end.

(** [math.IsInf(x, 0)]. *)
Definition is_inf (x : f64) : bool :=
  match x with S754_infinity _ => true | _ => false end.

(** Rebuild a float from an integer, keeping the sign of a zero. *)
Definition f_of_signed (s : bool) (n : Z) : f64 :=
  if n =? 0 then S754_zero s else f_of_Z (cond_Zopp s n).

(** [math.Ceil], [math.Floor] and [math.Round] (half away from zero). *)
Definition fceil (x : f64) : f64 :=
  match x with
  | S754_finite s m e =>
      if 0 <=? e then x
      else f_of_signed s
             (if s then Zpos m / 2 ^ (- e) else (Zpos m + 2 ^ (- e) - 1) / 2 ^ (- e))
  | _ => x
  end.

Definition ffloor (x : f64) : f64 :=
  match x with
  | S754_finite s m e =>
      if 0 <=? e then x
      else f_of_signed s
             (if s then (Zpos m + 2 ^ (- e) - 1) / 2 ^ (- e) else Zpos m / 2 ^ (- e))
  | _ => x
  end.

Definition fround (x : f64) : f64 :=
  match x with
  | S754_finite s m e =>
      if 0 <=? e then x
      else f_of_signed s ((2 * Zpos m + 2 ^ (- e)) / 2 ^ (- e + 1))
  | _ => x
  end.

(** [math.Min]: a NaN wins, -0 is below +0. *)
Definition fmin (x y : f64) : f64 :=
  match x, y with
  | S754_infinity true, _ | _, S754_infinity true => S754_infinity true
  | S754_nan, _ | _, S754_nan => S754_nan
  | S754_zero sx, S754_zero sy => S754_zero (sx || sy)
  | _, _ => if x <. y then x else y
  end.

(** Truncation towards zero of a finite value. *)
Definition f_trunc (x : f64) : option Z :=
  match x with
  | S754_finite s m e =>
      Some (cond_Zopp s (if 0 <=? e then Zpos m * 2 ^ e else Zpos m / 2 ^ (- e)))
  | S754_zero _ => Some 0
  | _ => None
  end.

(** [int(x)].  Go leaves an out-of-range conversion to the implementation;
    this is the amd64 one ("integer indefinite").  No theorem depends on it. *)
Definition f_to_int (x : f64) : Z :=
  match f_trunc x with
  | Some n => if in_int64 n then n else min_int64
  | None => min_int64
  end.

(** ** The comparison is an order

    [fkey] sends every float that is not NaN to a triple of integers compared
    lexicographically, so order facts about floats become linear arithmetic. *)

Definition fkey (x : f64) : Z * Z * Z :=
  match x with
  | S754_nan => (0, 0, 0)
  | S754_infinity false => (2, 0, 0)
  | S754_infinity true => (-2, 0, 0)
  | S754_zero _ => (0, 0, 0)
  | S754_finite false m e => (1, e, Zpos m)
  | S754_finite true m e => (-1, - e, Zneg m)
  end.

Definition key_lt (a b : Z * Z * Z) : Prop :=
  let '(a1, a2, a3) := a in
  let '(b1, b2, b3) := b in
  a1 < b1 \/ (a1 = b1 /\ (a2 < b2 \/ (a2 = b2 /\ a3 < b3))).

Lemma pos_compare_cont_eq m1 m2 : Pos.compare_cont Eq m1 m2 = Pos.compare m1 m2.
Proof. done. Qed.

Lemma flt_key x y :
  x <. y = true <-> is_nan x = false /\ is_nan y = false /\ key_lt (fkey x) (fkey y).
Proof.
  unfold flt, SFltb.
  destruct x as [[]|[]| |[] mx ex], y as [[]|[]| |[] my ey]; simpl;
    rewrite ?pos_compare_cont_eq;
    try (destruct (Z.compare_spec ex ey); [destruct (Pos.compare_spec mx my)|..]; simpl);
    split; try done; try (intros (? & ? & ?)); repeat split; try done; lia.
Qed.

(** Turn float comparisons in the context and goal into key comparisons. *)
Ltac fkeys :=
  repeat match goal with
  | H : flt ?x ?y = true |- _ => apply flt_key in H as (? & ? & H)
  | H : flt ?x ?y = false |- _ =>
      assert (~ (is_nan x = false /\ is_nan y = false /\ key_lt (fkey x) (fkey y)))
        by (rewrite <- flt_key, H; discriminate); clear H
  | |- flt ?x ?y = true => apply flt_key
  | |- flt ?x ?y = false => apply not_true_iff_false; rewrite flt_key
  end;
  repeat match goal with
  | x : f64 |- _ => lazymatch goal with
      | _ : context [fkey x] |- _ => destruct (fkey x) as [[? ?] ?]
      | |- context [fkey x] => destruct (fkey x) as [[? ?] ?]
      end
  | x : spec_float |- _ => lazymatch goal with
      | _ : context [fkey x] |- _ => destruct (fkey x) as [[? ?] ?]
      | |- context [fkey x] => destruct (fkey x) as [[? ?] ?]
      end
  end; simpl in *.

Lemma flt_irrefl x : x <. x = false.
Proof. fkeys. intuition lia. Qed.

Lemma flt_trans x y z : x <. y = true -> y <. z = true -> x <. z = true.
Proof. intros. fkeys. intuition lia. Qed.

Lemma flt_asym x y : x <. y = true -> y <. x = false.
Proof. intros. fkeys. intuition lia. Qed.

Lemma flt_not_nan x y : x <. y = true -> is_nan x = false /\ is_nan y = false.
Proof. intros. fkeys. done. Qed.

(** Negated [<] composes through a value that is not NaN. *)
Lemma fnlt_trans x y z :
  is_nan y = false -> y <. x = false -> z <. y = false -> z <. x = false.
Proof. intros. fkeys. intuition lia. Qed.


Lemma fle_flt x y : x <=. y = true -> is_nan x = false /\ is_nan y = false /\ y <. x = false.
Proof.
  unfold fle, SFleb, flt, SFltb.
  destruct x as [[]|[]| |[] mx ex], y as [[]|[]| |[] my ey]; simpl; try done;
    rewrite (pos_compare_cont_eq mx my), (pos_compare_cont_eq my mx),
      (Z.compare_antisym ex ey), (Pos.compare_antisym mx my);
    destruct (Z.compare ex ey), (Pos.compare mx my); done.
Qed.

(** *** Running maximum and minimum

    The loops of the scheduler that keep the largest or smallest candidate. *)

Definition fmax_step (a c : f64) : f64 := if a <. c then c else a.
Definition fmin_step (a c : f64) : f64 := if c <. a then c else a.

Lemma fmax_fold (l : list f64) : forall a, is_nan a = false ->
  let r := foldl fmax_step a l in
  is_nan r = false /\ r <. a = false /\ (forall c, c ∈ l -> r <. c = false) /\ (r = a \/ r ∈ l).
Proof.
  induction l as [|c l IH]; intros a Ha; simpl.
  - split_and!; [done|apply flt_irrefl| |by left]. intros c Hc. by apply elem_of_nil in Hc.
  - assert (Hs : is_nan (fmax_step a c) = false /\ fmax_step a c <. a = false
                 /\ fmax_step a c <. c = false).
    { unfold fmax_step. destruct (a <. c) eqn:E; [|by rewrite flt_irrefl].
      split_and!; [by apply flt_not_nan in E as [_ ?]|by apply flt_asym|apply flt_irrefl]. }
    destruct Hs as (Hn & Hsa & Hsc).
    destruct (IH _ Hn) as (Hr & Hrs & Hrl & Hin). split_and!; [done| | |].
    + by apply (fnlt_trans _ (fmax_step a c)).
    + intros d Hd. apply elem_of_cons in Hd as [->|Hd]; [|by apply Hrl]. by apply (fnlt_trans _ (fmax_step a c)).
    + destruct Hin as [->|Hin]; [|right; by constructor].
      unfold fmax_step. destruct (a <. c); [right; constructor|by left].
Qed.

Lemma fmin_fold (l : list f64) : forall a, is_nan a = false ->
  let r := foldl fmin_step a l in
  is_nan r = false /\ a <. r = false /\ (forall c, c ∈ l -> c <. r = false) /\ (r = a \/ r ∈ l).
Proof.
  induction l as [|c l IH]; intros a Ha; simpl.
  - split_and!; [done|apply flt_irrefl| |by left]. intros c Hc. by apply elem_of_nil in Hc.
  - assert (Hs : is_nan (fmin_step a c) = false /\ a <. fmin_step a c = false
                 /\ c <. fmin_step a c = false).
    { unfold fmin_step. destruct (c <. a) eqn:E; [|by rewrite flt_irrefl].
      split_and!; [by apply flt_not_nan in E as [? _]|by apply flt_asym|apply flt_irrefl]. }
    destruct Hs as (Hn & Hsa & Hsc).
    destruct (IH _ Hn) as (Hr & Hrs & Hrl & Hin). split_and!; [done| | |].
    + by apply (fnlt_trans _ (fmin_step a c)).
    + intros d Hd. apply elem_of_cons in Hd as [->|Hd]; [|by apply Hrl]. by apply (fnlt_trans _ (fmin_step a c)).
    + destruct Hin as [->|Hin]; [|right; by constructor].
      unfold fmin_step. destruct (c <. a); [right; constructor|by left].
Qed.

(** ** Integers below 2^53 are exact

    [iint z] bounds the integers the lemmas apply to.  The proofs go through
    the normal form [S754_finite s (z * 2^(53-d)) (d-53)], [d] the number of
    binary digits of [z]. *)

Definition iint (z : Z) : Prop := - 2 ^ 53 < z < 2 ^ 53.

(** [p] shifted left by [n] bits. *)
Definition shlp (n : nat) (p : positive) : positive := Nat.iter n xO p.

Lemma shlp_val n p : Zpos (shlp n p) = Zpos p * 2 ^ Z.of_nat n.
Proof.
  induction n as [|n IH]; [simpl; lia|].
  change (shlp (S n) p) with (xO (shlp n p)).
  rewrite Pos2Z.inj_xO, IH, Nat2Z.inj_succ, Z.pow_succ_r by lia. lia.
Qed.

Lemma shlp_add a b p : shlp a (shlp b p) = shlp (a + b) p.
Proof. unfold shlp. by rewrite Nat.iter_add. Qed.

Lemma shlp_digits n p :
  Zpos (digits2_pos (shlp n p)) = Zpos (digits2_pos p) + Z.of_nat n.
Proof.
  induction n as [|n IH]; [simpl; lia|].
  change (shlp (S n) p) with (xO (shlp n p)). simpl digits2_pos. lia.
Qed.

Lemma pos_iter_shlp d p : Pos.iter xO p d = shlp (Pos.to_nat d) p.
Proof. unfold shlp. rewrite Pos2Nat.inj_iter. done. Qed.

Lemma digits_bounds p :
  2 ^ (Zpos (digits2_pos p) - 1) <= Zpos p < 2 ^ Zpos (digits2_pos p).
Proof.
  induction p as [p IH|p IH|]; simpl digits2_pos; [..|lia];
    rewrite Pos2Z.inj_succ; set (d := Zpos (digits2_pos p)) in *;
    replace (Z.succ d - 1) with (Z.succ (d - 1)) by lia;
    rewrite !Z.pow_succ_r by lia; lia.
Qed.

Lemma digits_le_53 p : Zpos p < 2 ^ 53 -> Zpos (digits2_pos p) <= 53.
Proof.
  intros H. pose proof (digits_bounds p) as [Hl _].
  destruct (Z.le_gt_cases (Zpos (digits2_pos p)) 53) as [|Hgt]; [done|exfalso].
  assert (2 ^ 53 <= 2 ^ (Zpos (digits2_pos p) - 1)) by (apply Z.pow_le_mono_r; lia). lia.
Qed.

Lemma shl_align_shlp p e e' :
  shl_align p e e' = if e' <? e then (shlp (Z.to_nat (e - e')) p, e') else (p, e).
Proof.
  unfold shl_align. destruct (e' - e) as [|q|q] eqn:E;
    destruct (Z.ltb_spec e' e); try lia; [done..|].
  rewrite pos_iter_shlp. do 2 f_equal. lia.
Qed.

Lemma iter_pos_nat {A} (f : A -> A) n x : iter_pos f n x = Nat.iter (Pos.to_nat n) f x.
Proof.
  revert x; induction n as [n IH|n IH|]; intros x; simpl iter_pos; [..|done].
  - rewrite !IH, <- Nat.iter_add, Pos2Nat.inj_xI.
    replace (S (2 * Pos.to_nat n))%nat with (Pos.to_nat n + Pos.to_nat n + 1)%nat by lia.
    by rewrite (Nat.iter_add (_ + _) 1).
  - rewrite !IH, <- Nat.iter_add, Pos2Nat.inj_xO. f_equal. lia.
Qed.

Lemma shr_1_iter n p :
  Nat.iter n shr_1 (Build_shr_record (Zpos (shlp n p)) false false)
  = Build_shr_record (Zpos p) false false.
Proof.
  induction n as [|n IH]; [done|].
  rewrite Nat.iter_succ_r. exact IH.
Qed.

Lemma fexp_int p e :
  1 <= Zpos (digits2_pos p) + e <= 53 -> fexp 53 1024 (Zpos (digits2_pos p) + e) = Zpos (digits2_pos p) + e - 53.
Proof. intros H. unfold fexp, emin. lia. Qed.

Lemma shr_fexp_norm m e :
  Zpos (digits2_pos m) = 53 -> -53 < e <= 0 ->
  shr_fexp 53 1024 (Zpos m) e loc_Exact = (Build_shr_record (Zpos m) false false, e).
Proof.
  intros Hd He. unfold shr_fexp. simpl Zdigits2.
  rewrite fexp_int by lia. rewrite Hd.
  replace (53 + e - 53 - e) with 0 by lia. done.
Qed.

(** Rounding an exactly representable integer [z], given as [z*2^n] times
    [2^-n], yields its normal form, whatever [n]. *)
Lemma binary_round_int s z n :
  Zpos z < 2 ^ 53 ->
  binary_round 53 1024 s (shlp n z) (- Z.of_nat n)
  = S754_finite s (shlp (Z.to_nat (53 - Zpos (digits2_pos z))) z) (Zpos (digits2_pos z) - 53).
Proof.
  intros Hz. pose proof (digits_le_53 z Hz) as Hd.
  set (d := Zpos (digits2_pos z)) in *.
  assert (Hd1 : 1 <= d) by lia.
  set (N := shlp (Z.to_nat (53 - d)) z).
  assert (HN : Zpos (digits2_pos N) = 53) by (unfold N; rewrite shlp_digits; lia).
  unfold binary_round. rewrite shlp_digits.
  assert (Hf : fexp 53 1024 (d + Z.of_nat n + - Z.of_nat n) = d - 53)
    by (unfold fexp, emin; lia).
  fold d. rewrite Hf, shl_align_shlp.
  enough (Haux : forall n', (Z.of_nat n' >= 53 - d) ->
    binary_round_aux 53 1024 s (Zpos (shlp n' z)) (- Z.of_nat n') loc_Exact
    = S754_finite s N (d - 53)).
  { destruct (Z.ltb_spec (d - 53) (- Z.of_nat n)) as [Hlt|Hge].
    - rewrite shlp_add.
      replace (Z.to_nat (- Z.of_nat n - (d - 53)) + n)%nat with (Z.to_nat (53 - d)) by lia.
      replace (d - 53) with (- Z.of_nat (Z.to_nat (53 - d))) at 1 by lia.
      apply Haux. lia.
    - apply Haux. lia. }
  intros n' Hn'. unfold binary_round_aux.
  assert (Hshr : shr_fexp 53 1024 (Zpos (shlp n' z)) (- Z.of_nat n') loc_Exact
                 = (Build_shr_record (Zpos N) false false, d - 53)).
  { unfold shr_fexp. simpl Zdigits2. rewrite shlp_digits. fold d.
    replace (fexp 53 1024 (d + Z.of_nat n' + - Z.of_nat n')) with (d - 53)
      by (unfold fexp, emin; lia).
    set (k := Z.to_nat (Z.of_nat n' - (53 - d))).
    assert (Hsh : shlp n' z = shlp k N)
      by (unfold N, k; rewrite shlp_add; f_equal; lia).
    replace (d - 53 - - Z.of_nat n') with (Z.of_nat k) by lia.
    rewrite Hsh. unfold shr. destruct (Z.of_nat k) as [|q|q] eqn:Ek; [|..|lia].
    - assert (Hk : k = 0%nat) by lia. rewrite Hk. simpl. f_equal. unfold k in Hk. lia.
    - rewrite iter_pos_nat. replace (Pos.to_nat q) with k by lia. simpl shr_record_of_loc.
      rewrite shr_1_iter. f_equal. lia. }
  rewrite Hshr. simpl loc_of_shr_record. simpl round_nearest_even.
  simpl shr_m. rewrite shr_fexp_norm by (done || lia). simpl shr_m.
  destruct (Z.leb_spec (d - 53) (1024 - 53)); [done|lia].
Qed.

(** The normal form of an integer. *)
Definition canon (z : Z) : f64 :=
  match z with
  | Z0 => S754_zero false
  | Zpos p => S754_finite false (shlp (Z.to_nat (53 - Zpos (digits2_pos p))) p) (Zpos (digits2_pos p) - 53)
  | Zneg p => S754_finite true (shlp (Z.to_nat (53 - Zpos (digits2_pos p))) p) (Zpos (digits2_pos p) - 53)
  end.

Lemma binary_normalize_int z n :
  iint z -> binary_normalize 53 1024 (z * 2 ^ Z.of_nat n) (- Z.of_nat n) false = canon z.
Proof.
  unfold iint. intros Hz. destruct z as [|p|p]; [done|..]; simpl canon.
  - rewrite <- (shlp_val n p). simpl binary_normalize. apply binary_round_int. lia.
  - replace (Zneg p * 2 ^ Z.of_nat n) with (- (Zpos p * 2 ^ Z.of_nat n)) by lia.
    rewrite <- (shlp_val n p). simpl binary_normalize. apply binary_round_int. lia.
Qed.

Lemma f_of_Z_canon z : iint z -> f_of_Z z = canon z.
Proof.
  intros Hz. rewrite <- (binary_normalize_int z 0 Hz).
  unfold f_of_Z. f_equal. simpl. lia.
Qed.

(** Every normal form is its integer over a power of two at most 2^52. *)
Lemma canon_finite z :
  z <> 0 -> iint z ->
  exists n p,
    canon z = S754_finite (z <? 0) p (- Z.of_nat n) /\
    cond_Zopp (z <? 0) (Zpos p) = z * 2 ^ Z.of_nat n.
Proof.
  unfold iint. intros Hz Hb. destruct z as [|q|q]; [done|..];
    (exists (Z.to_nat (53 - Zpos (digits2_pos q))), (shlp (Z.to_nat (53 - Zpos (digits2_pos q))) q);
     pose proof (digits_le_53 q ltac:(lia)); split;
     [simpl; f_equal; lia | rewrite shlp_val; simpl cond_Zopp; lia]).
Qed.

Lemma shl_align_fst p n k :
  (n <= k)%nat ->
  Zpos (fst (shl_align p (- Z.of_nat n) (- Z.of_nat k))) = Zpos p * 2 ^ Z.of_nat (k - n).
Proof.
  intros H. rewrite shl_align_shlp.
  destruct (Z.ltb_spec (- Z.of_nat k) (- Z.of_nat n)).
  - simpl. rewrite shlp_val. do 2 f_equal. lia.
  - replace (k - n)%nat with 0%nat by lia. simpl. lia.
Qed.

Lemma cond_Zopp_mul s p k : cond_Zopp s (p * k) = cond_Zopp s p * k.
Proof. destruct s; simpl; lia. Qed.

Lemma align_value z p n k :
  (n <= k)%nat ->
  cond_Zopp (z <? 0) (Zpos p) = z * 2 ^ Z.of_nat n ->
  cond_Zopp (z <? 0) (Zpos (fst (shl_align p (- Z.of_nat n) (- Z.of_nat k)))) = z * 2 ^ Z.of_nat k.
Proof.
  intros Hk Hp. rewrite shl_align_fst, cond_Zopp_mul, Hp by done.
  rewrite <- Z.mul_assoc, <- Z.pow_add_r by lia. do 2 f_equal. lia.
Qed.

Lemma canon_opp_finite z s p e :
  canon z = S754_finite s p e -> canon (- z) = S754_finite (negb s) p e.
Proof. destruct z; simpl; [done|..]; by intros [= <- <- <-]. Qed.

Lemma fadd_of_Z a b :
  iint a -> iint b -> iint (a + b) -> f_of_Z a ⊕ f_of_Z b = f_of_Z (a + b).
Proof.
  intros Ha Hb Hab. rewrite !f_of_Z_canon by done.
  destruct (decide (a = 0)) as [->|Ha0]; [by destruct b|].
  destruct (decide (b = 0)) as [->|Hb0]; [rewrite Z.add_0_r; by destruct a|].
  destruct (canon_finite a Ha0 Ha) as (n & p & Hcp & Hp).
  destruct (canon_finite b Hb0 Hb) as (k & q & Hcq & Hq).
  rewrite Hcp, Hcq. unfold fadd, SFadd. cbv zeta.
  replace (Z.min (- Z.of_nat n) (- Z.of_nat k)) with (- Z.of_nat (Nat.max n k)) by lia.
  rewrite (align_value a), (align_value b) by (done || lia).
  rewrite <- Z.mul_add_distr_r. by apply binary_normalize_int.
Qed.

Lemma fsub_of_Z a b :
  iint a -> iint b -> iint (a - b) -> f_of_Z a ⊖ f_of_Z b = f_of_Z (a - b).
Proof.
  intros Ha Hb Hab. rewrite !f_of_Z_canon by done.
  destruct (decide (b = 0)) as [->|Hb0]; [rewrite Z.sub_0_r; by destruct a|].
  destruct (canon_finite b Hb0 Hb) as (k & q & Hcq & Hq).
  destruct (decide (a = 0)) as [->|Ha0].
  { rewrite Hcq. simpl. symmetry. by apply canon_opp_finite. }
  destruct (canon_finite a Ha0 Ha) as (n & p & Hcp & Hp).
  rewrite Hcp, Hcq. unfold fsub, SFsub. cbv zeta.
  replace (Z.min (- Z.of_nat n) (- Z.of_nat k)) with (- Z.of_nat (Nat.max n k)) by lia.
  rewrite (align_value a), (align_value b) by (done || lia).
  rewrite <- Z.mul_sub_distr_r. by apply binary_normalize_int.
Qed.

(** Comparison of positive normal forms: digits first, then significands. *)
Lemma canon_pos_lt p q :
  Zpos p < 2 ^ 53 -> Zpos q < 2 ^ 53 ->
  (Zpos p < Zpos q <->
   Zpos (digits2_pos p) - 53 < Zpos (digits2_pos q) - 53 \/
   Zpos (digits2_pos p) - 53 = Zpos (digits2_pos q) - 53 /\
   Zpos (shlp (Z.to_nat (53 - Zpos (digits2_pos p))) p)
   < Zpos (shlp (Z.to_nat (53 - Zpos (digits2_pos q))) q)).
Proof.
  intros Hp Hq. pose proof (digits_bounds p). pose proof (digits_bounds q).
  destruct (Z.lt_total (Zpos (digits2_pos p)) (Zpos (digits2_pos q))) as [Hlt|[Heq|Hgt]].
  - assert (2 ^ Zpos (digits2_pos p) <= 2 ^ (Zpos (digits2_pos q) - 1))
      by (apply Z.pow_le_mono_r; lia). lia.
  - rewrite !shlp_val, Heq.
    assert (0 < 2 ^ Z.of_nat (Z.to_nat (53 - Zpos (digits2_pos q)))) by (apply Z.pow_pos_nonneg; lia).
    nia.
  - assert (2 ^ Zpos (digits2_pos q) <= 2 ^ (Zpos (digits2_pos p) - 1))
      by (apply Z.pow_le_mono_r; lia). lia.
Qed.

Lemma flt_of_Z a b : iint a -> iint b -> f_of_Z a <. f_of_Z b = (a <? b).
Proof.
  unfold iint. intros Ha Hb. rewrite !f_of_Z_canon by done.
  apply eq_true_iff_eq. rewrite flt_key, Z.ltb_lt.
  destruct a as [|p|p], b as [|q|q]; unfold canon, fkey, key_lt;
    try (split; [intros; lia || done|repeat split; lia]).
  - rewrite (canon_pos_lt p q) by lia. intuition lia.
  - transitivity (Zpos q < Zpos p); [|lia]. rewrite (canon_pos_lt q p) by lia.
    intuition lia.
Qed.

Lemma feq_of_Z a b : iint a -> iint b -> f_of_Z a ==. f_of_Z b = (a =? b).
Proof.
  intros Ha Hb. pose proof (flt_of_Z a b Ha Hb) as H1. pose proof (flt_of_Z b a Hb Ha) as H2.
  assert (Hn : forall z, iint z -> is_nan (f_of_Z z) = false)
    by (intros z Hz; rewrite f_of_Z_canon by done; by destruct z).
  revert H1 H2. unfold flt, SFltb, feq, SFeqb.
  assert (Hc : SFcompare (f_of_Z b) (f_of_Z a) = option_map CompOpp (SFcompare (f_of_Z a) (f_of_Z b))).
  { destruct (f_of_Z a) as [[]|[]| |[] mx ex], (f_of_Z b) as [[]|[]| |[] my ey]; simpl; try done;
      rewrite (pos_compare_cont_eq mx my), (pos_compare_cont_eq my mx),
        (Z.compare_antisym ex ey), (Pos.compare_antisym mx my);
      destruct (Z.compare ex ey), (Pos.compare mx my); done. }
  rewrite Hc. specialize (Hn a Ha) as Hna. specialize (Hn b Hb) as Hnb.
  assert (exists c, SFcompare (f_of_Z a) (f_of_Z b) = Some c) as [c ->].
  { destruct (f_of_Z a) as [[]|[]| |[] ? ?], (f_of_Z b) as [[]|[]| |[] ? ?]; simpl in *; eauto; done. }
  destruct c; simpl; intros; lia.
Qed.

Lemma f_of_Z_not_nan z : iint z -> is_nan (f_of_Z z) = false.
Proof. intros Hz. rewrite f_of_Z_canon by done. by destruct z. Qed.

(** Truncation, ceiling and rounding leave an integer alone. *)
Lemma f_trunc_of_Z z : iint z -> f_trunc (f_of_Z z) = Some z.
Proof.
  intros Hz. rewrite f_of_Z_canon by done.
  destruct (decide (z = 0)) as [->|H0]; [done|].
  destruct (canon_finite z H0 Hz) as (n & p & -> & Hp). unfold f_trunc. f_equal.
  assert (Hpow : 0 < 2 ^ Z.of_nat n) by (apply Z.pow_pos_nonneg; lia).
  assert (Hpv : Zpos p = Z.abs z * 2 ^ Z.of_nat n)
    by (destruct (Z.ltb_spec z 0); simpl in Hp; lia).
  rewrite Z.opp_involutive, Hpv.
  destruct (Z.leb_spec 0 (- Z.of_nat n)).
  - replace n with 0%nat in * by lia. simpl. destruct (Z.ltb_spec z 0); simpl; lia.
  - rewrite Z.div_mul by lia. destruct (Z.ltb_spec z 0); simpl; lia.
Qed.

Lemma f_to_int_range x : min_int64 <= f_to_int x <= max_int64.
Proof.
  unfold f_to_int. destruct (f_trunc x) as [n|]; [|unfold min_int64, max_int64; lia].
  destruct (in_int64 n) eqn:E; [apply in_int64_spec in E|]; unfold min_int64, max_int64; lia.
Qed.

Lemma f_to_int_of_Z z : iint z -> f_to_int (f_of_Z z) = z.
Proof.
  intros Hz. unfold f_to_int. rewrite f_trunc_of_Z by done.
  unfold iint in Hz. assert (in_int64 z = true) as -> by (apply in_int64_spec; lia). done.
Qed.

Lemma f_round_of_Z_aux z (g : bool -> Z -> Z -> Z) x :
  iint z -> x = f_of_Z z ->
  (forall s a d, 0 < d -> g s (a * d) d = a) ->
  match x with
  | S754_finite s m e =>
      if 0 <=? e then x else f_of_signed s (g s (Zpos m) (2 ^ (- e)))
  | _ => x
  end = f_of_Z z.
Proof.
  intros Hz -> Hg.
  destruct (decide (z = 0)) as [->|H0]; [done|].
  pose proof (f_of_Z_canon z Hz) as Hc.
  destruct (canon_finite z H0 Hz) as (n & p & Hcan & Hp).
  rewrite Hcan in Hc. rewrite Hc.
  destruct (Z.leb_spec 0 (- Z.of_nat n)); [done|].
  assert (Hpow : 0 < 2 ^ Z.of_nat n) by (apply Z.pow_pos_nonneg; lia).
  assert (Hpv : Zpos p = Z.abs z * 2 ^ Z.of_nat n)
    by (destruct (Z.ltb_spec z 0); simpl in Hp; lia).
  rewrite Z.opp_involutive, Hpv, Hg by done. unfold f_of_signed.
  destruct (Z.eqb_spec (Z.abs z) 0); [lia|].
  rewrite <- Hc. f_equal. destruct (Z.ltb_spec z 0); simpl; lia.
Qed.

Lemma div_ceil_exact a d : 0 < d -> (a * d + d - 1) / d = a.
Proof. intros. symmetry. apply (Z.div_unique _ _ _ (d - 1)); lia. Qed.

Lemma fceil_of_Z z : iint z -> fceil (f_of_Z z) = f_of_Z z.
Proof.
  intros Hz. apply (f_round_of_Z_aux z (fun s m d => if s then m / d else (m + d - 1) / d)); [done..|].
  intros [] a d Hd; [by apply Z.div_mul; lia|by apply div_ceil_exact].
Qed.

Lemma ffloor_of_Z z : iint z -> ffloor (f_of_Z z) = f_of_Z z.
Proof.
  intros Hz. apply (f_round_of_Z_aux z (fun s m d => if s then (m + d - 1) / d else m / d)); [done..|].
  intros [] a d Hd; [by apply div_ceil_exact|by apply Z.div_mul; lia].
Qed.

Lemma fround_of_Z z : iint z -> fround (f_of_Z z) = f_of_Z z.
Proof.
  intros Hz.
  etrans; [|apply (f_round_of_Z_aux z (fun _ m d => (2 * m + d) / (2 * d)) (f_of_Z z) Hz eq_refl)].
  - unfold fround. destruct (f_of_Z z) as [| | |s m e]; try done.
    destruct (Z.leb_spec 0 e); [done|].
    replace (2 ^ (- e + 1)) with (2 * 2 ^ (- e)); [reflexivity|].
    rewrite Z.pow_add_r by lia. lia.
  - intros _ a d Hd. symmetry. apply (Z.div_unique _ _ _ d); lia.
Qed.

Create Rewrite HintDb f_int.
#[export] Hint Rewrite f_to_int_of_Z fceil_of_Z ffloor_of_Z fround_of_Z
  flt_of_Z feq_of_Z fadd_of_Z fsub_of_Z using (unfold iint in *; lia) : f_int.

(** ** Rounding a long significand

    A significand of more than 53 bits is cut to 53 and rounded to one of its
    two neighbours. *)

Lemma digits_unique p k : 2 ^ (k - 1) <= Zpos p < 2 ^ k -> 1 <= k -> Zpos (digits2_pos p) = k.
Proof.
  intros [Hl Hu] Hk. pose proof (digits_bounds p) as [Hl' Hu'].
  set (d := Zpos (digits2_pos p)) in *. destruct (Z.lt_trichotomy d k) as [Hlt|[->|Hgt]]; [|done|].
  - assert (2 ^ d <= 2 ^ (k - 1)) by (apply Z.pow_le_mono_r; lia). lia.
  - assert (2 ^ k <= 2 ^ (d - 1)) by (apply Z.pow_le_mono_r; lia). lia.
Qed.

Lemma shr_1_half r : 0 <= shr_m r -> shr_m (shr_1 r) = shr_m r / 2.
Proof.
  destruct r as [m a b]. simpl. intros Hm. destruct m as [|[p|p|]|p]; simpl; try done.
  - rewrite Pos2Z.inj_xI. apply (Z.div_unique _ _ _ 1); lia.
  - rewrite Pos2Z.inj_xO. apply (Z.div_unique _ _ _ 0); lia.
Qed.

Lemma shr_iter n r : 0 <= shr_m r -> shr_m (Nat.iter n shr_1 r) = shr_m r / 2 ^ Z.of_nat n.
Proof.
  intros Hr. induction n as [|n IH]; [simpl; by rewrite Z.div_1_r|].
  change (Nat.iter (S n) shr_1 r) with (shr_1 (Nat.iter n shr_1 r)).
  rewrite shr_1_half by (rewrite IH; apply Z.div_pos; lia).
  rewrite IH, Z.div_div by lia. f_equal. rewrite Nat2Z.inj_succ, Z.pow_succ_r by lia. lia.
Qed.

Lemma round_nearest_even_near m l : round_nearest_even m l = m \/ round_nearest_even m l = m + 1.
Proof. destruct l as [|[]]; simpl; auto. destruct (Z.even m); auto. Qed.

Lemma shr_fexp_long m e n :
  Zpos (digits2_pos m) = 53 + Z.of_nat n -> (0 < n)%nat -> -1021 <= 53 + Z.of_nat n + e ->
  exists r, shr_fexp 53 1024 (Zpos m) e loc_Exact = (r, e + Z.of_nat n)
            /\ shr_m r = Zpos m / 2 ^ Z.of_nat n.
Proof.
  intros Hd Hn He. unfold shr_fexp. simpl Zdigits2. rewrite Hd.
  replace (fexp 53 1024 (53 + Z.of_nat n + e) - e) with (Z.of_nat n) by (unfold fexp, emin; lia).
  unfold shr. destruct (Z.of_nat n) as [|q|q] eqn:E; [lia| |lia].
  eexists. split; [reflexivity|]. rewrite iter_pos_nat.
  replace (Pos.to_nat q) with n by lia. rewrite shr_iter by done. by rewrite E.
Qed.

Lemma binary_round_long s m e n :
  Zpos (digits2_pos m) = 53 + Z.of_nat n -> (0 < n)%nat ->
  -1021 <= 53 + Z.of_nat n + e -> e + Z.of_nat n < 900 ->
  exists M E, binary_round 53 1024 s m e = S754_finite s M E /\ E <= e + Z.of_nat n + 1
    /\ e + Z.of_nat n <= E /\ 2 ^ 52 <= Zpos M
    /\ (Zpos M * 2 ^ (E - e) = Zpos m / 2 ^ Z.of_nat n * 2 ^ Z.of_nat n
        \/ Zpos M * 2 ^ (E - e) = (Zpos m / 2 ^ Z.of_nat n + 1) * 2 ^ Z.of_nat n).
Proof.
  intros Hd Hn He Hmax. unfold binary_round. rewrite Hd.
  rewrite shl_align_shlp. replace (_ <? e) with false by (unfold fexp, emin; lia).
  unfold binary_round_aux.
  destruct (shr_fexp_long m e n Hd Hn He) as (r & -> & Hr).
  set (q := Zpos m / 2 ^ Z.of_nat n) in *.
  assert (Hq : 2 ^ 52 <= q < 2 ^ 53).
  { pose proof (digits_bounds m) as [Hl Hu]. rewrite Hd in Hl, Hu.
    replace (53 + Z.of_nat n - 1) with (52 + Z.of_nat n) in Hl by lia.
    rewrite Z.pow_add_r in Hl, Hu by lia. subst q.
    split; [apply Z.div_le_lower_bound; lia|apply Z.div_lt_upper_bound; lia]. }
  rewrite Hr. set (R := round_nearest_even q (loc_of_shr_record r)).
  assert (HR : R = q \/ R = q + 1) by apply round_nearest_even_near.
  assert (Hpos : 2 ^ 52 <= R <= 2 ^ 53) by (destruct HR; lia). clearbody R.
  destruct R as [|p|p]; [lia| |lia].
  destruct (Z.eq_dec (Zpos p) (2 ^ 53)) as [Hp|Hp].
  - assert (p = 9007199254740992%positive) as -> by lia.
    exists 4503599627370496%positive, (e + Z.of_nat n + 1). unfold shr_fexp.
    change (Zdigits2 9007199254740992) with 54.
    replace (fexp 53 1024 (54 + (e + Z.of_nat n)) - (e + Z.of_nat n)) with 1 by (unfold fexp, emin; lia).
    change (shr (shr_record_of_loc 9007199254740992 loc_Exact) (e + Z.of_nat n) 1)
      with (Build_shr_record 4503599627370496 false false, e + Z.of_nat n + 1).
    cbn [shr_m]. destruct (Z.leb_spec (e + Z.of_nat n + 1) (1024 - 53)); [|lia].
    split; [done|]. split; [lia|]. split; [lia|]. split; [lia|].
    replace (e + Z.of_nat n + 1 - e) with (1 + Z.of_nat n) by lia. rewrite Z.pow_add_r by lia.
    destruct HR; [left|right]; lia.
  - assert (Hdp : Zpos (digits2_pos p) = 53) by (apply digits_unique; lia).
    unfold shr_fexp. simpl Zdigits2. rewrite Hdp.
    replace (fexp 53 1024 (53 + (e + Z.of_nat n)) - (e + Z.of_nat n)) with 0 by (unfold fexp, emin; lia).
    cbn [shr shr_m shr_record_of_loc]. destruct (Z.leb_spec (e + Z.of_nat n) (1024 - 53)); [|lia].
    exists p, (e + Z.of_nat n). split; [done|]. split; [lia|]. split; [lia|]. split; [lia|].
    replace (e + Z.of_nat n - e) with (Z.of_nat n) by lia.
    destruct HR as [HR|HR]; [left|right]; by rewrite HR.
Qed.

(** ** The scheduler's tolerance

    Taking 1e-9 off a whole day and rounding up gives the day back. *)

Lemma f_1em9_value : f_1em9 = S754_finite false 4835703278458517 (-82).
Proof. vm_compute. reflexivity. Qed.

Lemma ceil_quotient n M k : 0 < k -> (n - 1) * k < M <= n * k -> (M + k - 1) / k = n.
Proof.
  intros Hk HM. symmetry. apply (Z.div_unique_pos _ _ _ (M + k - 1 - n * k)); lia.
Qed.

Lemma fceil_minus_1em9 n : 0 <= n < 2 ^ 52 -> f_to_int (fceil (f_of_Z n ⊖ f_1em9)) = n.
Proof.
  intros Hn. destruct (Z.eq_dec n 0) as [->|Hn0]; [vm_compute; reflexivity|].
  assert (Hi : iint n) by (unfold iint; lia).
  rewrite f_1em9_value, f_of_Z_canon by done.
  destruct (canon_finite n Hn0 Hi) as (k & p & Hc & Hp). rewrite Hc.
  replace (n <? 0) with false in * by lia. simpl in Hp.
  assert (Hk : (k <= 52)%nat).
  { destruct n as [|q|q]; [lia| |lia]. simpl in Hc. injection Hc as _ He.
    assert (1 <= Zpos (digits2_pos q)) by lia. lia. }
  unfold fsub, SFsub. cbv zeta. replace (Z.min (- Z.of_nat k) (-82)) with (- Z.of_nat 82) by lia.
  rewrite (shl_align_fst p k 82) by lia.
  change (shl_align 4835703278458517 (-82) (- Z.of_nat 82)) with (4835703278458517%positive, -82).
  cbn [fst cond_Zopp].
  assert (Hpk : Zpos p * 2 ^ Z.of_nat (82 - k) = n * 2 ^ 82).
  { rewrite Hp, <- Z.mul_assoc, <- Z.pow_add_r by lia. do 2 f_equal. lia. }
  rewrite Hpk. change (- Z.of_nat 82) with (-82). set (D := n * 2 ^ 82 - 4835703278458517).
  assert (HD : 2 ^ 81 < D < 2 ^ 134) by (subst D; lia).
  destruct D as [|m|m] eqn:ED; [lia| |lia]. simpl binary_normalize.
  pose proof (digits_bounds m) as [Hdl Hdu].
  set (d := Zpos (digits2_pos m)) in *.
  assert (Hd82 : 82 <= d).
  { destruct (Z.le_gt_cases 82 d) as [|Hlt]; [done|].
    assert (2 ^ d <= 2 ^ 81) by (apply Z.pow_le_mono_r; lia). lia. }
  assert (Hd134 : d <= 134).
  { destruct (Z.le_gt_cases d 134) as [|Hgt]; [done|].
    assert (2 ^ 134 <= 2 ^ (d - 1)) by (apply Z.pow_le_mono_r; lia). lia. }
  set (c := Z.to_nat (d - 53)). assert (Hcd : Z.of_nat c = d - 53) by (subst c; lia). clearbody c.
  destruct (binary_round_long false m (-82) c) as (M & E & -> & HE1 & HE2 & HM52 & HM); [lia..|].
  assert (Hc81 : Z.of_nat c <= 81) by lia.
  assert (Hv : (n - 1) * 2 ^ 82 < Zpos M * 2 ^ (E - -82) <= n * 2 ^ 82).
  { pose proof (Z.mul_div_le (Zpos m) (2 ^ Z.of_nat c) ltac:(lia)).
    pose proof (Z.mul_succ_div_gt (Zpos m) (2 ^ Z.of_nat c) ltac:(lia)).
    assert (H82 : n * 2 ^ 82 = n * 2 ^ (82 - Z.of_nat c) * 2 ^ Z.of_nat c)
      by (rewrite <- Z.mul_assoc, <- Z.pow_add_r by lia; do 2 f_equal; lia).
    assert (Hcp : 2 ^ Z.of_nat c <= 2 ^ 81) by (apply Z.pow_le_mono_r; lia).
    set (q := Zpos m / 2 ^ Z.of_nat c) in *. set (u := 2 ^ Z.of_nat c) in *.
    assert (Hu : 0 < u) by (subst u; lia).
    assert (Hq : q < n * 2 ^ (82 - Z.of_nat c)) by (apply (Z.mul_lt_mono_pos_r u); [done|]; lia).
    assert (q * u <= D) by lia. assert (D < q * u + u) by lia.
    assert ((q + 1) * u <= n * 2 ^ 82) by (rewrite H82; apply Z.mul_le_mono_nonneg_r; lia).
    subst D. destruct HM as [-> | ->]; lia. }
  assert (HE0 : E < 0).
  { destruct (Z.lt_ge_cases E 0) as [|HEge]; [done|exfalso].
    assert (E = 0) as -> by lia. change (0 - -82) with 82 in Hv. lia. }
  unfold fceil. destruct (Z.leb_spec 0 E); [lia|].
  assert (Hs : 2 ^ 82 = 2 ^ (- E) * 2 ^ (E - -82)) by (rewrite <- Z.pow_add_r by lia; f_equal; lia).
  rewrite (ceil_quotient n (Zpos M) (2 ^ (- E))).
  - unfold f_of_signed. rewrite (proj2 (Z.eqb_neq n 0)) by done. simpl. by apply f_to_int_of_Z.
  - lia.
  - rewrite Hs in Hv. assert (0 < 2 ^ (E - -82)) by lia. nia.
Qed.

#[export] Hint Rewrite fceil_minus_1em9 using lia : f_int.

(** ** Products

    The product of two exact integers is exact; a product with a fraction below
    one, rounded, does not exceed the integer. *)

Lemma SFmul_round s1 m1 e1 s2 m2 e2 :
  fexp 53 1024 (Zpos (digits2_pos (m1 * m2)) + (e1 + e2)) <? e1 + e2 = false ->
  S754_finite s1 m1 e1 ⊗ S754_finite s2 m2 e2
  = binary_round 53 1024 (xorb s1 s2) (m1 * m2) (e1 + e2).
Proof.
  intros H. unfold fmul, SFmul, binary_round. rewrite shl_align_shlp, H. done.
Qed.

Definition normal53 (m : positive) : Prop := Zpos (digits2_pos m) = 53.

Lemma product_digits m1 m2 : normal53 m1 -> normal53 m2 ->
  Zpos (digits2_pos (m1 * m2)) = 105 \/ Zpos (digits2_pos (m1 * m2)) = 106.
Proof.
  intros H1 H2. unfold normal53 in *.
  pose proof (digits_bounds m1) as [L1 U1]. pose proof (digits_bounds m2) as [L2 U2].
  rewrite H1 in *. rewrite H2 in *.
  assert (Hb : 2 ^ 104 <= Zpos (m1 * m2) < 2 ^ 106) by (rewrite Pos2Z.inj_mul; nia).
  destruct (Z.lt_ge_cases (Zpos (m1 * m2)) (2 ^ 105)); [left|right]; apply digits_unique; lia.
Qed.

Lemma canon_normal k : 0 < k -> iint k ->
  exists p n, f_of_Z k = S754_finite false p (- Z.of_nat n) /\ normal53 p
              /\ Zpos p = k * 2 ^ Z.of_nat n /\ (n <= 52)%nat.
Proof.
  intros Hk Hi. rewrite f_of_Z_canon by done. destruct k as [|z|z]; [lia| |lia].
  pose proof (digits_le_53 z ltac:(unfold iint in Hi; lia)) as Hd.
  exists (shlp (Z.to_nat (53 - Zpos (digits2_pos z))) z), (Z.to_nat (53 - Zpos (digits2_pos z))).
  unfold canon, normal53. rewrite shlp_digits, shlp_val.
  split; [f_equal; lia|]. split; [lia|]. split; [done|]. lia.
Qed.

(** [q < 1] with a full significand. *)
Lemma fmul_fraction m e k :
  normal53 m -> -100 < e -> Zpos m < 2 ^ (- e) -> e < 0 -> 0 < k < 2 ^ 20 ->
  exists M E, S754_finite false m e ⊗ f_of_Z k = S754_finite false M E
              /\ E < 0 /\ Zpos M <= k * 2 ^ (- E).
Proof.
  intros Hm He Hq He0 Hk.
  destruct (canon_normal k) as (p & n & Hp & Hpn & Hpv & Hn); [lia|unfold iint; lia|].
  rewrite Hp. pose proof (product_digits m p Hm Hpn) as Hd.
  set (c := Z.to_nat (Zpos (digits2_pos (m * p)) - 53)).
  assert (Hc : Zpos (digits2_pos (m * p)) = 53 + Z.of_nat c) by (subst c; lia).
  assert (Hc' : (52 <= c <= 53)%nat) by lia. clearbody c.
  set (e' := e + - Z.of_nat n) in *.
  assert (HP : Zpos (m * p) < k * 2 ^ (- e')).
  { rewrite Pos2Z.inj_mul, Hpv. replace (- e') with (- e + Z.of_nat n) by (subst e'; lia).
    rewrite Z.pow_add_r by lia. nia. }
  pose proof (digits_bounds (m * p)) as [HL HU]. rewrite Hc in HL, HU.
  assert (Hsmall : Z.of_nat c + e' < -32).
  { destruct (Z.lt_ge_cases (Z.of_nat c + e') (-32)) as [|Hge]; [done|exfalso].
    assert (2 ^ 20 * 2 ^ (- e') <= 2 ^ (53 + Z.of_nat c - 1)).
    { rewrite <- Z.pow_add_r by lia. apply Z.pow_le_mono_r; lia. }
    assert (k * 2 ^ (- e') < 2 ^ 20 * 2 ^ (- e')) by (apply Z.mul_lt_mono_pos_r; lia). lia. }
  rewrite SFmul_round.
  2:{ fold e'. apply Z.ltb_ge. rewrite Hc. unfold fexp, emin. lia. }
  fold e'. destruct (binary_round_long false (m * p) e' c Hc) as (M & E & HR & HE1 & HE2 & _ & HM); [lia..|].
  exists M, E. split; [exact HR|]. split; [lia|].
  set (q := Zpos (m * p) / 2 ^ Z.of_nat c) in *.
  assert (Hdiv : k * 2 ^ (- e') = k * 2 ^ (- e' - Z.of_nat c) * 2 ^ Z.of_nat c)
    by (rewrite <- Z.mul_assoc, <- Z.pow_add_r by lia; do 2 f_equal; lia).
  assert (Hqk : q < k * 2 ^ (- e' - Z.of_nat c)).
  { apply Z.div_lt_upper_bound; [lia|]. rewrite Z.mul_comm, <- Hdiv. lia. }
  assert (Hpow : 0 < 2 ^ Z.of_nat c) by lia.
  assert (Hle : Zpos M * 2 ^ (E - e') <= k * 2 ^ (- e')) by (rewrite Hdiv; destruct HM as [-> | ->]; nia).
  assert (Hs : 2 ^ (- e') = 2 ^ (- E) * 2 ^ (E - e')) by (rewrite <- Z.pow_add_r by lia; f_equal; lia).
  rewrite Hs, Z.mul_assoc in Hle. apply Z.mul_le_mono_pos_r in Hle; [done|lia].
Qed.

Lemma fmul_one k : 0 <= k -> iint k -> fone ⊗ f_of_Z k = f_of_Z k.
Proof.
  intros H0 Hi. destruct (Z.eq_dec k 0) as [->|Hk]; [done|].
  rewrite !f_of_Z_canon by done. destruct k as [|z|z]; [done| |lia].
  assert (Hz : Zpos z < 2 ^ 53) by (unfold iint in Hi; lia).
  pose proof (digits_le_53 z Hz) as Hd. set (d := Zpos (digits2_pos z)) in *.
  change fone with (S754_finite false (shlp 52 1) (-52)). unfold canon. fold d.
  set (j := Z.to_nat (53 - d)).
  assert (Hprod : (shlp 52 1 * shlp j z)%positive = shlp (52 + j) z).
  { apply Pos2Z.inj. rewrite Pos2Z.inj_mul, !shlp_val, Nat2Z.inj_add, Z.pow_add_r by lia. lia. }
  rewrite SFmul_round.
  - rewrite Hprod. replace (-52 + (d - 53)) with (- Z.of_nat (52 + j)) by lia.
    apply binary_round_int. done.
  - rewrite Hprod, shlp_digits. fold d. apply Z.ltb_ge. unfold fexp, emin. lia.
Qed.

(** Rounding a fraction between 0 and [k] to an integer stays there. *)
Lemma f_to_int_signed z : 0 <= z -> iint z -> f_to_int (f_of_signed false z) = z.
Proof.
  intros H0 Hi. unfold f_of_signed. destruct (Z.eqb_spec z 0) as [->|]; [done|].
  simpl. by apply f_to_int_of_Z.
Qed.

Definition floor_ceil_within (x : f64) (k : Z) : Prop :=
  0 <= f_to_int (ffloor x) <= k /\ 0 <= f_to_int (fceil x) <= k.

Lemma fraction_within M E k : E < 0 -> Zpos M <= k * 2 ^ (- E) -> k < 2 ^ 20 ->
  floor_ceil_within (S754_finite false M E) k.
Proof.
  intros HE HM Hk. assert (Hp : 0 < 2 ^ (- E)) by lia.
  assert (Hf : 0 <= Zpos M / 2 ^ (- E) <= k).
  { split; [apply Z.div_pos; lia|]. apply Z.div_le_upper_bound; lia. }
  assert (Hc : 0 <= (Zpos M + 2 ^ (- E) - 1) / 2 ^ (- E) <= k).
  { split; [apply Z.div_pos; lia|]. apply Z.lt_succ_r. apply Z.div_lt_upper_bound; lia. }
  unfold floor_ceil_within, ffloor, fceil. destruct (Z.leb_spec 0 E); [lia|].
  rewrite !f_to_int_signed by (unfold iint; lia). done.
Qed.

Lemma integer_within k z : 0 <= z <= k -> k < 2 ^ 20 -> floor_ceil_within (f_of_Z z) k.
Proof.
  intros Hz Hk. unfold floor_ceil_within.
  rewrite ffloor_of_Z, fceil_of_Z, f_to_int_of_Z by (unfold iint; lia). lia.
Qed.

(** A fraction of at most one, as the program writes them. *)
Definition unit_fraction (q : f64) : bool :=
  match q with
  | S754_zero false => true
  | S754_finite false m e =>
      (Zpos (digits2_pos m) =? 53) && (-100 <? e) && (e <? 0) && (Zpos m <=? 2 ^ (- e))
  | _ => false
  end.

Lemma fmul_within q k : unit_fraction q = true -> 0 <= k < 2 ^ 20 ->
  floor_ceil_within (q ⊗ f_of_Z k) k.
Proof.
  intros Hq Hk. destruct (Z.eq_dec k 0) as [->|Hk0].
  { destruct q as [[|]| | |[|] m e]; try done; unfold floor_ceil_within; vm_compute; intuition discriminate. }
  destruct q as [[|]| | |[|] m e]; try done.
  - destruct (canon_normal k) as (p & n & -> & _); [lia|unfold iint; lia|].
    change (S754_zero false ⊗ S754_finite false p (- Z.of_nat n)) with (f_of_Z 0).
    apply integer_within; lia.
  - unfold unit_fraction in Hq. rewrite !andb_true_iff in Hq. destruct Hq as [[[H1 H2] H3] H4].
    apply Z.eqb_eq in H1. apply Z.ltb_lt in H2, H3. apply Z.leb_le in H4.
    destruct (Z.eq_dec (Zpos m) (2 ^ (- e))) as [He|He].
    + assert (S754_finite false m e = fone) as ->.
      { assert (- e = 52).
        { pose proof (digits_bounds m) as [HL HU]. rewrite H1, He in HL, HU.
          apply Z.pow_le_mono_r_iff in HL; [|lia..]. apply Z.pow_lt_mono_r_iff in HU; lia. }
        assert (e = -52) as -> by lia. change (2 ^ (- -52)) with (Zpos 4503599627370496) in He.
        injection He as ->. done. }
      rewrite fmul_one by (unfold iint; lia). apply integer_within; lia.
    + destruct (fmul_fraction m e k) as (M & E & -> & HE & HM); [done|lia..|].
      apply fraction_within; lia.
Qed.
