(* ===== verification/GoStrings.v ===== *)
(** * Go strings

    A Go string is a sequence of bytes; so is [string], one [ascii] per byte.
    Packages strings, strconv and unicode/utf8, as far as the program uses
    them: TrimSpace, Split on a dot, HasPrefix, ParseUint and FormatUint in
    base ten, ValidString.
    The second part is encoding/base64 and the integer verbs of fmt.Sscanf. *)

From S2P Require Import Prelude.
From Stdlib Require Export Ascii.

Local Open Scope Z_scope.

(** ** Bytes *)

Definition byte_val (c : ascii) : Z := Z.of_N (N_of_ascii c).
Definition byte_of (z : Z) : ascii := ascii_of_N (Z.to_N z).
Definition bytes_of (s : string) : list ascii := String.list_ascii_of_string s.
Definition string_of (l : list ascii) : string := String.string_of_list_ascii l.

(** ** strings.TrimSpace

    The length of the white-space rune (unicode.White_Space, UTF-8 encoded) at
    the front of a byte list, 0 if there is none; [rev_space_len] does the same
    for the last rune of a reversed list. *)

Definition is_e2_80_space (b : Z) : bool :=
  ((128 <=? b) && (b <=? 138)) || (b =? 168) || (b =? 169) || (b =? 175).

Definition is_ascii_space (b : Z) : bool := ((9 <=? b) && (b <=? 13)) || (b =? 32).

Definition space_len (l : list ascii) : nat :=
  match byte_val <$> l with
  | [] => 0%nat
  | a :: rest =>
      if is_ascii_space a then 1%nat
      else match rest with
      | b :: rest' =>
          if (a =? 194) && ((b =? 133) || (b =? 160)) then 2%nat
          else match rest' with
          | c :: _ =>
              if ((a =? 225) && (b =? 154) && (c =? 128))
                 || ((a =? 226) && (b =? 128) && is_e2_80_space c)
                 || ((a =? 226) && (b =? 129) && (c =? 159))
                 || ((a =? 227) && (b =? 128) && (c =? 128)) then 3%nat else 0%nat
          | [] => 0%nat
          end
      | [] => 0%nat
      end
  end.

Definition rev_space_len (l : list ascii) : nat :=
  match byte_val <$> l with
  | [] => 0%nat
  | c :: rest =>
      if is_ascii_space c then 1%nat
      else match rest with
      | b :: rest' =>
          if (b =? 194) && ((c =? 133) || (c =? 160)) then 2%nat
          else match rest' with
          | a :: _ =>
              if ((a =? 225) && (b =? 154) && (c =? 128))
                 || ((a =? 226) && (b =? 128) && is_e2_80_space c)
                 || ((a =? 226) && (b =? 129) && (c =? 159))
                 || ((a =? 227) && (b =? 128) && (c =? 128)) then 3%nat else 0%nat
          | [] => 0%nat
          end
      | [] => 0%nat
      end
  end.

Fixpoint trim_while (len : list ascii -> nat) (fuel : nat) (l : list ascii) : list ascii :=
  match fuel with
  | O => l
  | S fuel' => match len l with O => l | n => trim_while len fuel' (drop n l) end
  end.

Definition TrimSpace (s : string) : string :=
  let l := trim_while space_len (String.length s) (bytes_of s) in
  string_of (reverse (trim_while rev_space_len (length l) (reverse l))).

(** ** strings.HasPrefix, strings.Split *)

Definition HasPrefix (s p : string) : bool := String.prefix p s.

(** [s[n:]]. *)
Definition string_drop (n : nat) (s : string) : string := string_of (drop n (bytes_of s)).

Fixpoint split_bytes (sep : ascii) (l : list ascii) : list (list ascii) :=
  match l with
  | [] => [[]]
  | c :: l' =>
      if Ascii.eqb c sep then [] :: split_bytes sep l'
      else match split_bytes sep l' with
           | w :: ws => (c :: w) :: ws
           | [] => [[c]]
           end
  end.

Definition Split_dot (s : string) : list (list ascii) := split_bytes "." (bytes_of s).

(** ** strconv *)

Definition digit_val (c : ascii) : option Z :=
  let b := byte_val c in
  if (48 <=? b) && (b <=? 57) then Some (b - 48) else None.

Definition digit_byte (d : Z) : ascii := byte_of (48 + d).

(** The value of a digit list, [None] at the first byte that is not a digit or
    once the value leaves uint64. *)
Fixpoint parse_digits (acc : Z) (l : list ascii) : option Z :=
  match l with
  | [] => Some acc
  | c :: l' =>
      match digit_val c with
      | None => None
      | Some d =>
          let acc' := acc * 10 + d in
          if max_uint64 <? acc' then None else parse_digits acc' l'
      end
  end.

(** [strconv.ParseUint(s, 10, 64)]; [None] is a syntax or range error. *)
Definition ParseUint (l : list ascii) : option Z :=
  match l with [] => None | _ => parse_digits 0 l end.

Fixpoint format_loop (fuel : nat) (z : Z) (acc : list ascii) : list ascii :=
  match fuel with
  | O => acc
  | S fuel' =>
      let acc' := digit_byte (z mod 10) :: acc in
      if z / 10 =? 0 then acc' else format_loop fuel' (z / 10) acc'
  end.

(** [strconv.FormatUint(z, 10)]: a uint64 has at most 20 digits. *)
Definition FormatUint (z : Z) : list ascii := format_loop 20 z [].

(** [strconv.FormatInt(z, 10)]. *)
Definition FormatInt (z : Z) : list ascii :=
  if z <? 0 then "-"%char :: FormatUint (- z) else FormatUint z.

(** ** Lemmas *)

Lemma bytes_of_string_of l : bytes_of (string_of l) = l.
Proof. apply String.list_ascii_of_string_of_list_ascii. Qed.

Lemma string_of_bytes_of s : string_of (bytes_of s) = s.
Proof. apply String.string_of_list_ascii_of_string. Qed.

Lemma bytes_of_app s t : bytes_of (s +:+ t) = (bytes_of s ++ bytes_of t)%list.
Proof. induction s as [|c s IH]; [done|]. change (c :: bytes_of (s +:+ t) = c :: (bytes_of s ++ bytes_of t)). by rewrite IH. Qed.

Lemma length_bytes_of s : length (bytes_of s) = String.length s.
Proof. induction s as [|c s IH]; [done|]. simpl. by rewrite <- IH. Qed.

Lemma byte_val_range c : 0 <= byte_val c < 256.
Proof. unfold byte_val. pose proof (N_ascii_bounded c). lia. Qed.

Lemma byte_val_of z : 0 <= z < 256 -> byte_val (byte_of z) = z.
Proof. intros Hz. unfold byte_val, byte_of. rewrite N_ascii_embedding; lia. Qed.

Lemma byte_of_val c : byte_of (byte_val c) = c.
Proof. unfold byte_val, byte_of. rewrite N2Z.id. apply ascii_N_embedding. Qed.

Lemma byte_val_inj c d : byte_val c = byte_val d -> c = d.
Proof. intros H. rewrite <- (byte_of_val c), <- (byte_of_val d). by rewrite H. Qed.

Lemma digit_val_byte d : 0 <= d <= 9 -> digit_val (digit_byte d) = Some d.
Proof.
  intros Hd. unfold digit_val, digit_byte. rewrite byte_val_of by lia.
  replace ((48 <=? 48 + d) && (48 + d <=? 57)) with true by lia. f_equal; lia.
Qed.

Lemma digit_val_inv c d : digit_val c = Some d -> 0 <= d <= 9 /\ c = digit_byte d.
Proof.
  unfold digit_val. destruct ((48 <=? byte_val c) && (byte_val c <=? 57)) eqn:E; [|done].
  intros [= <-]. split; [lia|]. unfold digit_byte. rewrite <- (byte_of_val c) at 1. f_equal. lia.
Qed.

Lemma parse_digits_app l1 l2 acc :
  parse_digits acc (l1 ++ l2) = match parse_digits acc l1 with
                                | Some v => parse_digits v l2 | None => None end.
Proof.
  revert acc. induction l1 as [|c l1 IH]; intros acc; simpl; [done|].
  destruct (digit_val c); [|done]. case_match; [done|apply IH].
Qed.

Lemma parse_digits_bound l acc v :
  0 <= acc <= max_uint64 -> parse_digits acc l = Some v -> acc <= v <= max_uint64 /\ 0 <= v.
Proof.
  revert acc. induction l as [|c l IH]; intros acc Ha; simpl; [intros [= <-]; lia|].
  destruct (digit_val c) as [d|] eqn:Ed; [|done]. apply digit_val_inv in Ed as [Hd _].
  case_match eqn:Eo; [done|]. intros Hv. apply IH in Hv; lia.
Qed.

Lemma ParseUint_bound l v : ParseUint l = Some v -> 0 <= v <= max_uint64.
Proof.
  unfold ParseUint. destruct l as [|c l]; [done|]. intros Hv.
  apply parse_digits_bound in Hv; unfold max_uint64 in *; lia.
Qed.

(** Formatting peels the last digit. *)
Lemma format_loop_acc fuel : forall z acc, format_loop fuel z acc = format_loop fuel z [] ++ acc.
Proof.
  induction fuel as [|fuel IH]; intros z acc; simpl; [done|].
  destruct (z / 10 =? 0); [done|]. rewrite IH, (IH _ [_]), <- app_assoc. done.
Qed.

Lemma format_loop_step fuel z :
  10 <= z -> format_loop (S fuel) z [] = format_loop fuel (z / 10) [] ++ [digit_byte (z mod 10)].
Proof.
  intros Hz. simpl. destruct (Z.eqb_spec (z / 10) 0) as [E|E].
  - pose proof (Z.div_le_lower_bound z 10 1 ltac:(lia) ltac:(lia)). lia.
  - apply format_loop_acc.
Qed.

Lemma format_loop_small fuel z : 0 <= z < 10 -> format_loop (S fuel) z [] = [digit_byte z].
Proof. intros Hz. simpl. rewrite Z.div_small, Z.mod_small by lia. done. Qed.

Lemma format_loop_parse fuel z :
  0 <= z < 10 ^ Z.of_nat fuel -> z <= max_uint64 -> (0 < fuel)%nat ->
  parse_digits 0 (format_loop fuel z []) = Some z.
Proof.
  revert z. induction fuel as [|fuel IH]; intros z Hz Hmax Hf; [lia|].
  destruct (Z.lt_ge_cases z 10) as [Hlt|Hge].
  - rewrite format_loop_small by lia. simpl. rewrite digit_val_byte by lia.
    rewrite (proj2 (Z.ltb_ge _ _)) by lia. f_equal; lia.
  - rewrite format_loop_step by done. rewrite parse_digits_app.
    rewrite Nat2Z.inj_succ, Z.pow_succ_r in Hz by lia.
    assert (Hd : 0 <= z / 10 < 10 ^ Z.of_nat fuel) by (split; [apply Z.div_pos; lia|apply Z.div_lt_upper_bound; lia]).
    destruct fuel as [|fuel]; [simpl in *; lia|].
    rewrite IH by (done || lia || (pose proof (Z.div_le_upper_bound z 10 z); lia)). simpl.
    pose proof (Z.mod_pos_bound z 10 ltac:(lia)). rewrite digit_val_byte by lia.
    pose proof (Z.div_mod z 10 ltac:(lia)).
    rewrite (proj2 (Z.ltb_ge _ _)) by lia. f_equal; lia.
Qed.

Lemma format_loop_nonempty fuel z : (0 < fuel)%nat -> format_loop fuel z [] <> [].
Proof.
  destruct fuel as [|fuel]; [lia|]. intros _. simpl. destruct (z / 10 =? 0); [done|].
  rewrite format_loop_acc. by destruct (format_loop fuel (z / 10) []).
Qed.

(** Parsing undoes formatting. *)
Lemma ParseUint_FormatUint z : 0 <= z <= max_uint64 -> ParseUint (FormatUint z) = Some z.
Proof.
  intros Hz. unfold ParseUint, FormatUint.
  assert (Hp : parse_digits 0 (format_loop 20 z []) = Some z)
    by (apply format_loop_parse; unfold max_uint64 in *; simpl; lia).
  destruct (format_loop 20 z []) as [|c l] eqn:E; [|done].
  by apply (format_loop_nonempty 20 z) in E; [|lia].
Qed.

(** Formatting undoes parsing of a digit list without leading zeroes. *)
Definition no_leading_zero (l : list ascii) : Prop :=
  match l with c :: _ :: _ => c <> "0"%char | _ => True end.

Lemma parse_digits_pos l v c :
  head l = Some c -> c <> "0"%char -> parse_digits 0 l = Some v -> 1 <= v.
Proof.
  destruct l as [|c' l]; [done|]. intros [= ->] Hc. simpl.
  destruct (digit_val c) as [d|] eqn:Ed; [|done]. apply digit_val_inv in Ed as [Hd ->].
  case_match; [done|]. intros Hv.
  assert (d <> 0) by (intros ->; by apply Hc).
  apply parse_digits_bound in Hv; lia.
Qed.

Lemma parse_digits_format l v fuel :
  l <> [] -> no_leading_zero l -> parse_digits 0 l = Some v ->
  v < 10 ^ Z.of_nat fuel -> (0 < fuel)%nat -> format_loop fuel v [] = l.
Proof.
  revert v fuel. induction l as [|c l IH] using rev_ind; intros v fuel Hne Hz Hp Hv Hf; [done|].
  rewrite parse_digits_app in Hp.
  destruct (parse_digits 0 l) as [w|] eqn:Ew; [|done]. simpl in Hp.
  destruct (digit_val c) as [d|] eqn:Ed; [|done]. apply digit_val_inv in Ed as [Hd ->].
  case_match; [done|]. injection Hp as <-.
  destruct fuel as [|fuel]; [lia|].
  destruct l as [|c l].
  - injection Ew as <-. by rewrite format_loop_small by lia.
  - assert (Hz' : c <> "0"%char) by (destruct l; exact Hz).
    pose proof (parse_digits_pos (c :: l) w c eq_refl Hz' Ew).
    rewrite format_loop_step by lia.
    rewrite Nat2Z.inj_succ, Z.pow_succ_r in Hv by lia.
    replace (w * 10 + d) with (d + w * 10) by lia.
    rewrite Z.div_add, Z.mod_add, Z.div_small, Z.mod_small by lia.
    destruct fuel as [|fuel]; [simpl in Hv; lia|].
    rewrite IH; [done|done|by destruct l|done|lia|lia].
Qed.

Lemma FormatUint_ParseUint l v :
  no_leading_zero l -> ParseUint l = Some v -> FormatUint v = l.
Proof.
  intros Hz Hp. pose proof (ParseUint_bound _ _ Hp). destruct l as [|c l]; [done|].
  apply parse_digits_format; [done|done|exact Hp| |lia]. unfold max_uint64 in *. simpl. lia.
Qed.

(** ** Digits, splitting and trimming *)

Definition is_digit (c : ascii) : bool := (48 <=? byte_val c) && (byte_val c <=? 57).

Lemma digit_val_is_digit c d : digit_val c = Some d -> is_digit c = true.
Proof. unfold digit_val, is_digit. by case_match. Qed.

Lemma is_digit_byte d : 0 <= d <= 9 -> is_digit (digit_byte d) = true.
Proof. intros Hd. by apply (digit_val_is_digit _ d), digit_val_byte. Qed.

Lemma format_loop_digits fuel : forall z acc,
  0 <= z -> Forall (fun c => is_digit c = true) acc ->
  Forall (fun c => is_digit c = true) (format_loop fuel z acc).
Proof.
  induction fuel as [|fuel IH]; intros z acc Hz Ha; simpl; [done|].
  pose proof (Z.mod_pos_bound z 10 ltac:(lia)).
  assert (Hd : is_digit (digit_byte (z mod 10)) = true) by (apply is_digit_byte; lia).
  destruct (z / 10 =? 0); [by constructor|].
  apply IH; [apply Z.div_pos; lia|by constructor].
Qed.

Lemma FormatUint_digits z : 0 <= z -> Forall (fun c => is_digit c = true) (FormatUint z).
Proof. intros Hz. apply format_loop_digits; [done|constructor]. Qed.

Lemma FormatUint_nonempty z : FormatUint z <> [].
Proof. apply format_loop_nonempty. lia. Qed.

Lemma parse_digits_digits l : forall acc v,
  parse_digits acc l = Some v -> Forall (fun c => is_digit c = true) l.
Proof.
  induction l as [|c l IH]; intros acc v; simpl; [constructor|].
  destruct (digit_val c) as [d|] eqn:Ed; [|done]. case_match; [done|].
  intros Hv. constructor; [by eapply digit_val_is_digit|by eapply IH].
Qed.

Lemma ParseUint_digits l v : ParseUint l = Some v -> Forall (fun c => is_digit c = true) l.
Proof. destruct l as [|c l]; [done|]. apply parse_digits_digits. Qed.

(** A formatted number has no leading zero. *)
Lemma format_loop_no_zero fuel z :
  0 < z < 10 ^ Z.of_nat fuel -> head (format_loop fuel z []) <> Some "0"%char.
Proof.
  revert z. induction fuel as [|fuel IH]; intros z Hz; [simpl in Hz; lia|].
  destruct (Z.lt_ge_cases z 10) as [Hlt|Hge].
  - rewrite format_loop_small by lia. simpl. intros [= Hd].
    assert (Hv : digit_val (digit_byte z) = Some 0) by (by rewrite Hd).
    rewrite digit_val_byte in Hv by lia. injection Hv. lia.
  - rewrite format_loop_step by done.
    rewrite Nat2Z.inj_succ, Z.pow_succ_r in Hz by lia.
    assert (Hd : 0 < z / 10 < 10 ^ Z.of_nat fuel)
      by (split; [apply Z.div_str_pos; lia|apply Z.div_lt_upper_bound; lia]).
    specialize (IH _ Hd). destruct fuel as [|fuel]; [simpl in *; lia|].
    pose proof (format_loop_nonempty (S fuel) (z / 10) ltac:(lia)).
    by destruct (format_loop (S fuel) (z / 10) []).
Qed.

Lemma FormatUint_no_leading_zero z : 0 <= z <= max_uint64 -> no_leading_zero (FormatUint z).
Proof.
  intros Hz. destruct (Z.eq_dec z 0) as [->|Hne]; [done|].
  pose proof (format_loop_no_zero 20 z) as H.
  assert (Hb : 0 < z < 10 ^ Z.of_nat 20) by (unfold max_uint64 in *; simpl; lia).
  specialize (H Hb). unfold FormatUint. destruct (format_loop 20 z []) as [|c [|c' l]]; [done..|].
  simpl in *. congruence.
Qed.

Lemma split_bytes_no_sep sep l : Forall (fun c => c <> sep) l -> split_bytes sep l = [l].
Proof.
  induction l as [|c l IH]; intros Hl; simpl; [done|].
  inversion Hl; subst. rewrite (proj2 (Ascii.eqb_neq c sep)) by done. by rewrite IH.
Qed.

Lemma split_bytes_app sep l r :
  Forall (fun c => c <> sep) l -> split_bytes sep (l ++ sep :: r) = l :: split_bytes sep r.
Proof.
  induction l as [|c l IH]; intros Hl; simpl; [by rewrite Ascii.eqb_refl|].
  inversion Hl; subst. rewrite (proj2 (Ascii.eqb_neq c sep)) by done. by rewrite IH.
Qed.

Lemma split_bytes_cons sep l : exists w ws, split_bytes sep l = w :: ws.
Proof.
  induction l as [|c l (w & ws & IH)]; simpl; [eauto|].
  case_match; [eauto|]. rewrite IH. eauto.
Qed.

(** Splitting keeps every byte: the parts joined with the separator are the
    input. *)
Fixpoint join_bytes (sep : ascii) (ws : list (list ascii)) : list ascii :=
  match ws with
  | [] => []
  | [w] => w
  | w :: ws' => w ++ sep :: join_bytes sep ws'
  end.

Lemma join_split sep l : join_bytes sep (split_bytes sep l) = l.
Proof.
  induction l as [|c l IH]; simpl; [done|].
  destruct (split_bytes_cons sep l) as (w & ws & E). rewrite E in *.
  destruct (Ascii.eqb_spec c sep) as [->|Hne].
  - simpl. by f_equal.
  - rewrite <- IH. by destruct ws.
Qed.

(** A string that starts and ends with a printing ASCII byte is its own
    trimming. *)
Definition plain (c : ascii) : Prop := 33 <= byte_val c <= 126.

Lemma is_digit_plain c : is_digit c = true -> plain c.
Proof. unfold is_digit, plain. lia. Qed.

Lemma space_len_plain c l : plain c -> space_len (c :: l) = 0%nat.
Proof.
  unfold plain, space_len, is_ascii_space. intros Hc. simpl.
  replace ((_ && _) || _) with false by lia.
  destruct l as [|b l]; [done|]. simpl. replace (byte_val c =? 194) with false by lia.
  simpl. destruct l as [|d l]; [done|]. simpl.
  by replace (byte_val c =? 225) with false by lia;
     replace (byte_val c =? 226) with false by lia;
     replace (byte_val c =? 227) with false by lia.
Qed.

Lemma rev_space_len_plain c l : plain c -> rev_space_len (c :: l) = 0%nat.
Proof.
  unfold plain, rev_space_len, is_ascii_space, is_e2_80_space. intros Hc. simpl.
  replace ((_ && _) || _) with false by lia.
  destruct l as [|b l]; [done|]. simpl. replace (byte_val c =? 133) with false by lia.
  replace (byte_val c =? 160) with false by lia. rewrite andb_false_r.
  destruct l as [|d l]; [done|]. simpl.
  replace (byte_val c =? 128) with false by lia.
  replace (byte_val c =? 159) with false by lia.
  replace (byte_val c =? 168) with false by lia.
  replace (byte_val c =? 169) with false by lia.
  replace (byte_val c =? 175) with false by lia.
  replace (128 <=? byte_val c) with false by lia.
  by rewrite !andb_false_r.
Qed.

Lemma trim_while_zero len fuel l : len l = 0%nat -> trim_while len fuel l = l.
Proof. intros H. destruct fuel as [|fuel]; simpl; [done|]. by rewrite H. Qed.

Lemma TrimSpace_plain l c c' :
  head l = Some c -> last l = Some c' -> plain c -> plain c' ->
  TrimSpace (string_of l) = string_of l.
Proof.
  intros Hh Hl Hc Hc'. unfold TrimSpace. rewrite bytes_of_string_of.
  destruct l as [|x l]; [done|]. injection Hh as ->.
  rewrite (trim_while_zero space_len) by (by apply space_len_plain).
  apply last_Some in Hl as [l' Hl]. rewrite Hl, reverse_snoc.
  rewrite (trim_while_zero rev_space_len) by (by apply rev_space_len_plain).
  by rewrite <- reverse_snoc, reverse_involutive.
Qed.

Lemma bytes_of_cons c s : bytes_of (String c s) = c :: bytes_of s.
Proof. done. Qed.

Lemma HasPrefix_char c l :
  HasPrefix (string_of l) (String c EmptyString) =
  match l with x :: _ => Ascii.eqb c x | [] => false end.
Proof.
  unfold HasPrefix. destruct l as [|x l]; simpl; [done|].
  destruct (ascii_dec c x) as [->|Hne].
  - rewrite Ascii.eqb_refl. by destruct (string_of l).
  - by rewrite (proj2 (Ascii.eqb_neq c x)).
Qed.

Lemma string_drop_1 c l : string_drop 1 (string_of (c :: l)) = string_of l.
Proof. unfold string_drop. by rewrite bytes_of_string_of. Qed.

(** ** More of packages strings and unicode/utf8 *)

Definition is_cont (c : ascii) : bool := (128 <=? byte_val c) && (byte_val c <=? 191).

(** The length of the rune at the front of a byte list: the width of a valid
    encoding, 1 for a byte that starts none. *)
Definition rune_len (l : list ascii) : nat :=
  match l with
  | a :: b :: rest =>
      let x := byte_val a in
      let y := byte_val b in
      if (194 <=? x) && (x <=? 223) && is_cont b then 2%nat
      else match rest with
      | c :: rest' =>
          if ((x =? 224) && (160 <=? y) && (y <=? 191)
              || ((225 <=? x) && (x <=? 236) || (238 <=? x) && (x <=? 239)) && is_cont b
              || (x =? 237) && (128 <=? y) && (y <=? 159)) && is_cont c then 3%nat
          else match rest' with
          | d :: _ =>
              if ((x =? 240) && (144 <=? y) && (y <=? 191)
                  || (241 <=? x) && (x <=? 243) && is_cont b
                  || (x =? 244) && (128 <=? y) && (y <=? 143)) && is_cont c && is_cont d
              then 4%nat else 1%nat
          | [] => 1%nat
          end
      | [] => 1%nat
      end
  | _ => 1%nat
  end.

Fixpoint rune_count (fuel : nat) (l : list ascii) : nat :=
  match fuel, l with
  | S fuel', _ :: _ => S (rune_count fuel' (drop (rune_len l) l))
  | _, _ => 0%nat
  end.

(** [utf8.RuneCountInString]. *)
Definition RuneCountInString (s : string) : Z :=
  Z.of_nat (rune_count (String.length s) (bytes_of s)).

(** ASCII case: SQLite's lower(), and the ASCII part of [strings.ToLower]. *)
Definition lower_byte (c : ascii) : ascii :=
  if (65 <=? byte_val c) && (byte_val c <=? 90) then byte_of (byte_val c + 32) else c.

Definition sqlite_lower (s : string) : string := string_of (lower_byte <$> bytes_of s).

(** Case folding: ASCII letters, and the two other runes that fold to one,
    U+017F (s) and U+212A (k).  Non-ASCII letters stay as they are: the program
    folds names only to compare them with ASCII ones. *)
Fixpoint fold_bytes (l : list ascii) : list ascii :=
  match l with
  | a :: ((b :: rest) as t) =>
      if (byte_val a =? 197) && (byte_val b =? 191) then "s"%char :: fold_bytes rest
      else match rest with
      | c :: rest' =>
          if (byte_val a =? 226) && (byte_val b =? 132) && (byte_val c =? 170)
          then "k"%char :: fold_bytes rest' else lower_byte a :: fold_bytes t
      | [] => lower_byte a :: fold_bytes t
      end
  | [a] => [lower_byte a]
  | [] => []
  end.

Definition EqualFold (s t : string) : bool :=
  bool_decide (fold_bytes (bytes_of s) = fold_bytes (bytes_of t)).

(** [strings.ToLower], for comparison with ASCII words: ASCII letters, and the two
    other runes whose lower case is ASCII, U+0130 (i) and U+212A (k). *)
Fixpoint lower_bytes (l : list ascii) : list ascii :=
  match l with
  | a :: ((b :: rest) as t) =>
      if (byte_val a =? 196) && (byte_val b =? 176) then "i"%char :: lower_bytes rest
      else match rest with
      | c :: rest' =>
          if (byte_val a =? 226) && (byte_val b =? 132) && (byte_val c =? 170)
          then "k"%char :: lower_bytes rest' else lower_byte a :: lower_bytes t
      | [] => lower_byte a :: lower_bytes t
      end
  | [a] => [lower_byte a]
  | [] => []
  end.

Definition ToLower (s : string) : string := string_of (lower_bytes (bytes_of s)).

(** [strings.ToUpper], for comparison with ASCII words: ASCII letters, and the two
    other runes whose upper case is ASCII, U+0131 (I) and U+017F (S). *)
Definition upper_byte (c : ascii) : ascii :=
  if (97 <=? byte_val c) && (byte_val c <=? 122) then byte_of (byte_val c - 32) else c.

Fixpoint upper_bytes (l : list ascii) : list ascii :=
  match l with
  | a :: ((b :: rest) as t) =>
      if (byte_val a =? 196) && (byte_val b =? 177) then "I"%char :: upper_bytes rest
      else if (byte_val a =? 197) && (byte_val b =? 191) then "S"%char :: upper_bytes rest
      else upper_byte a :: upper_bytes t
  | [a] => [upper_byte a]
  | [] => []
  end.

Definition ToUpper (s : string) : string := string_of (upper_bytes (bytes_of s)).

(** [strconv.Itoa], and [strings.Join]. *)
Definition Itoa (z : Z) : string := string_of (FormatInt z).
Definition Join (ss : list string) (sep : string) : string := String.concat sep ss.

(** [hex.EncodeToString]. *)
Definition hex_byte (n : Z) : ascii := byte_of (if n <? 10 then 48 + n else 87 + n).
Definition hex_encode (s : string) : string :=
  string_of (flat_map (fun c => [hex_byte (byte_val c / 16); hex_byte (byte_val c mod 16)]) (bytes_of s)).

(** ** Base64 *)

Definition b64_digit (n : Z) : ascii :=
  byte_of (if n <? 26 then 65 + n else if n <? 52 then 71 + n else if n <? 62 then n - 4
           else if n =? 62 then 43 else 47).

Definition b64_value (c : ascii) : option Z :=
  let b := byte_val c in
  if (65 <=? b) && (b <=? 90) then Some (b - 65)
  else if (97 <=? b) && (b <=? 122) then Some (b - 71)
  else if (48 <=? b) && (b <=? 57) then Some (b + 4)
  else if b =? 43 then Some 62
  else if b =? 47 then Some 63
  else None.

Definition pad_char : ascii := "="%char.

(** [EncodeToString]: [pad] tells StdEncoding from RawStdEncoding. *)
Fixpoint b64_encode (pad : bool) (l : list ascii) : list ascii :=
  match l with
  | [] => []
  | [a] =>
      let v := byte_val a * 2 ^ 16 in
      [b64_digit (v / 2 ^ 18 mod 64); b64_digit (v / 2 ^ 12 mod 64)]
      ++ (if pad then [pad_char; pad_char] else [])
  | [a; b] =>
      let v := byte_val a * 2 ^ 16 + byte_val b * 2 ^ 8 in
      [b64_digit (v / 2 ^ 18 mod 64); b64_digit (v / 2 ^ 12 mod 64); b64_digit (v / 2 ^ 6 mod 64)]
      ++ (if pad then [pad_char] else [])
  | a :: b :: c :: l' =>
      let v := byte_val a * 2 ^ 16 + byte_val b * 2 ^ 8 + byte_val c in
      [b64_digit (v / 2 ^ 18 mod 64); b64_digit (v / 2 ^ 12 mod 64); b64_digit (v / 2 ^ 6 mod 64);
       b64_digit (v mod 64)]
      ++ b64_encode pad l'
  end.

(** The bytes of a quantum of two to four digits; trailing bits are dropped. *)
Definition quantum_bytes (q : list Z) : list ascii :=
  let v := nth 0 q 0 * 2 ^ 18 + nth 1 q 0 * 2 ^ 12 + nth 2 q 0 * 2 ^ 6 + nth 3 q 0 in
  take (length q - 1) [byte_of (v / 2 ^ 16 mod 256); byte_of (v / 2 ^ 8 mod 256); byte_of (v mod 256)].

Definition is_newline (c : ascii) : bool := (byte_val c =? 10) || (byte_val c =? 13).

Fixpoint skip_newlines (l : list ascii) : list ascii :=
  match l with
  | c :: l' => if is_newline c then skip_newlines l' else l
  | [] => []
  end.

(** The rest of the input after the first padding character of a quantum of
    [n] digits is exactly the missing padding, up to newlines. *)
Definition padding_ok (n : nat) (l : list ascii) : bool :=
  match n with
  | 2%nat =>
      match skip_newlines l with
      | c :: l' => Ascii.eqb c pad_char
                   && match skip_newlines l' with [] => true | _ => false end
      | [] => false
      end
  | 3%nat => match skip_newlines l with [] => true | _ => false end
  | _ => false
  end.

(** [DecodeString], the digits of the current quantum in [q]. *)
Fixpoint b64_decode (pad : bool) (q : list Z) (l : list ascii) : option (list ascii) :=
  match l with
  | [] =>
      match q with
      | [] => Some []
      | [_] => None
      | _ => if pad then None else Some (quantum_bytes q)
      end
  | c :: l' =>
      match b64_value c with
      | Some v =>
          if (length q =? 3)%nat
          then rest ← b64_decode pad [] l'; Some (quantum_bytes (q ++ [v]) ++ rest)
          else b64_decode pad (q ++ [v]) l'
      | None =>
          if is_newline c then b64_decode pad q l'
          else if pad && Ascii.eqb c pad_char && padding_ok (length q) l'
          then Some (quantum_bytes q) else None
      end
  end.

Definition StdEncode (s : string) : string := string_of (b64_encode true (bytes_of s)).
Definition StdDecode (s : string) : option string :=
  string_of <$> b64_decode true [] (bytes_of s).
Definition RawStdEncode (s : string) : string := string_of (b64_encode false (bytes_of s)).
Definition RawStdDecode (s : string) : option string :=
  string_of <$> b64_decode false [] (bytes_of s).

(** ** fmt.Sscanf

    The value of a verb and the input after it; [None] is an error.  A line
    feed before the number is one. *)

Fixpoint skip_space (fuel : nat) (l : list ascii) : option (list ascii) :=
  match fuel with
  | O => Some l
  | S fuel' =>
      match l with
      | [] => Some []
      | c :: rest =>
          if byte_val c =? 10 then None
          else match space_len l with
               | O => Some l
               | S n => skip_space fuel' (drop n rest)
               end
      end
  end.

Fixpoint take_digits (l : list ascii) : list ascii * list ascii :=
  match l with
  | c :: l' => if is_digit c then let '(d, r) := take_digits l' in (c :: d, r) else ([], l)
  | [] => ([], [])
  end.

(** %d into an unsigned integer of [bits] bits. *)
Definition scan_uint (bits : Z) (l : list ascii) : option (Z * list ascii) :=
  l1 ← skip_space (length l) l;
  let '(d, rest) := take_digits l1 in
  v ← ParseUint d;
  if v <? 2 ^ bits then Some (v, rest) else None.

(** %d into an int. *)
Definition scan_int (l : list ascii) : option (Z * list ascii) :=
  l1 ← skip_space (length l) l;
  let '(neg, l2) := match l1 with
                    | c :: r => if byte_val c =? 45 then (true, r)
                                else if byte_val c =? 43 then (false, r) else (false, l1)
                    | [] => (false, [])
                    end in
  let '(d, rest) := take_digits l2 in
  v ← ParseUint d;
  let z := if neg then - v else v in
  if in_int64 z then Some (z, rest) else None.

(** A literal part of the format. *)
Fixpoint scan_literal (lit l : list ascii) : option (list ascii) :=
  match lit, l with
  | [], _ => Some l
  | c :: lit', x :: l' => if Ascii.eqb c x then scan_literal lit' l' else None
  | _ :: _, [] => None
  end.

(** ** Encoding and decoding *)

Lemma b64_value_digit n : 0 <= n < 64 -> b64_value (b64_digit n) = Some n.
Proof.
  intros Hn. assert (Hin : In n (seqZ 0 64)) by (apply list_elem_of_In, elem_of_seqZ; lia).
  revert n Hin Hn. apply (List.Forall_forall (fun n => 0 <= n < 64 -> _)).
  repeat constructor; intros _; reflexivity.
Qed.

Lemma b64_digit_plain n : 0 <= n < 64 -> plain (b64_digit n).
Proof.
  intros Hn. unfold b64_digit, plain.
  repeat case_match; rewrite byte_val_of by lia; lia.
Qed.

Lemma mod64 z : 0 <= z mod 64 < 64.
Proof. apply Z.mod_pos_bound. lia. Qed.

Lemma b64_decode_digit pad q n l :
  0 <= n < 64 -> (length q < 3)%nat ->
  b64_decode pad q (b64_digit n :: l) = b64_decode pad (q ++ [n]) l.
Proof.
  intros Hn Hq. cbn [b64_decode]. rewrite b64_value_digit by done.
  destruct (Nat.eqb_spec (length q) 3); [lia|done].
Qed.

Lemma b64_decode_fourth pad q n l :
  0 <= n < 64 -> length q = 3%nat ->
  b64_decode pad q (b64_digit n :: l)
  = (rest ← b64_decode pad [] l; Some (quantum_bytes (q ++ [n]) ++ rest)).
Proof. intros Hn Hq. cbn [b64_decode]. by rewrite b64_value_digit, Hq by done. Qed.

Lemma byte_of_eq z c : z = byte_val c -> byte_of z = c.
Proof. intros ->. apply byte_of_val. Qed.

(** The four digits of a 24-bit value give it back. *)
Lemma digits_value v :
  0 <= v < 2 ^ 24 ->
  v / 2 ^ 18 mod 64 * 2 ^ 18 + v / 2 ^ 12 mod 64 * 2 ^ 12 + v / 2 ^ 6 mod 64 * 2 ^ 6 + v mod 64 = v.
Proof. intros Hv. Z.to_euclidean_division_equations. lia. Qed.

Lemma value_bytes a b c :
  let v := byte_val a * 2 ^ 16 + byte_val b * 2 ^ 8 + byte_val c in
  0 <= v < 2 ^ 24
  /\ [byte_of (v / 2 ^ 16 mod 256); byte_of (v / 2 ^ 8 mod 256); byte_of (v mod 256)] = [a; b; c].
Proof.
  pose proof (byte_val_range a). pose proof (byte_val_range b). pose proof (byte_val_range c).
  intros v. subst v. split; [lia|].
  rewrite (byte_of_eq _ a), (byte_of_eq _ b), (byte_of_eq _ c); [done|..];
    Z.to_euclidean_division_equations; lia.
Qed.

(** A value of one or two bytes has its low digits zero. *)
Lemma digits_value_1 a :
  let v := byte_val a * 2 ^ 16 in
  v / 2 ^ 18 mod 64 * 2 ^ 18 + v / 2 ^ 12 mod 64 * 2 ^ 12 = v.
Proof.
  pose proof (byte_val_range a). intros v. subst v. Z.to_euclidean_division_equations. lia.
Qed.

Lemma digits_value_2 a b :
  let v := byte_val a * 2 ^ 16 + byte_val b * 2 ^ 8 in
  v / 2 ^ 18 mod 64 * 2 ^ 18 + v / 2 ^ 12 mod 64 * 2 ^ 12 + v / 2 ^ 6 mod 64 * 2 ^ 6 = v.
Proof.
  pose proof (byte_val_range a). pose proof (byte_val_range b). intros v. subst v.
  Z.to_euclidean_division_equations. lia.
Qed.

Lemma quantum_bytes_3 a b c :
  let v := byte_val a * 2 ^ 16 + byte_val b * 2 ^ 8 + byte_val c in
  quantum_bytes [v / 2 ^ 18 mod 64; v / 2 ^ 12 mod 64; v / 2 ^ 6 mod 64; v mod 64] = [a; b; c].
Proof.
  intros v. destruct (value_bytes a b c) as [Hv Hb]. unfold quantum_bytes. cbn [nth length Nat.sub].
  rewrite digits_value by exact Hv. exact Hb.
Qed.

Lemma quantum_bytes_2 a b :
  let v := byte_val a * 2 ^ 16 + byte_val b * 2 ^ 8 in
  quantum_bytes [v / 2 ^ 18 mod 64; v / 2 ^ 12 mod 64; v / 2 ^ 6 mod 64] = [a; b].
Proof.
  intros v. destruct (value_bytes a b zero) as [_ Hb]. unfold quantum_bytes.
  cbn [nth length Nat.sub]. rewrite !Z.add_0_r. subst v. rewrite digits_value_2.
  change (byte_val zero) with 0 in Hb. rewrite Z.add_0_r in Hb. injection Hb as H1 H2 _.
  simpl. congruence.
Qed.

Lemma quantum_bytes_1 a :
  let v := byte_val a * 2 ^ 16 in quantum_bytes [v / 2 ^ 18 mod 64; v / 2 ^ 12 mod 64] = [a].
Proof.
  intros v. destruct (value_bytes a zero zero) as [_ Hb]. unfold quantum_bytes.
  cbn [nth length Nat.sub]. rewrite !Z.mul_0_l, !Z.add_0_r. subst v. rewrite digits_value_1.
  change (byte_val zero) with 0 in Hb. rewrite Z.mul_0_l, !Z.add_0_r in Hb. injection Hb as H1 _ _.
  simpl. congruence.
Qed.

Lemma list_ind3 {A} (P : list A -> Prop) :
  P [] -> (forall a, P [a]) -> (forall a b, P [a; b]) ->
  (forall a b c l, P l -> P (a :: b :: c :: l)) -> forall l, P l.
Proof.
  intros H0 H1 H2 H3 l.
  enough (Hg : P l /\ (forall a, P (a :: l)) /\ (forall a b, P (a :: b :: l))) by apply Hg.
  induction l as [|c l (I0 & I1 & I2)]; [by auto|]. split_and!; [apply I1|intros a; apply I2|].
  intros a b. apply H3, I0.
Qed.

Lemma b64_decode_encode pad l : b64_decode pad [] (b64_encode pad l) = Some l.
Proof.
  induction l as [|a|a b|a b c l IH] using list_ind3; [by destruct pad|..];
    cbn [b64_encode]; cbv zeta; rewrite <- ?app_comm_cons;
    do 2 (rewrite b64_decode_digit by (apply mod64 || (simpl; lia))); cbn [app].
  - destruct pad; cbn [b64_decode]; [|by rewrite quantum_bytes_1].
    cbn -[quantum_bytes Z.div Z.modulo Z.mul Z.pow]. by rewrite quantum_bytes_1.
  - rewrite b64_decode_digit by (apply mod64 || (simpl; lia)). cbn [app].
    destruct pad; cbn [b64_decode]; [|by rewrite quantum_bytes_2].
    cbn -[quantum_bytes Z.div Z.modulo Z.mul Z.pow Z.add]. by rewrite quantum_bytes_2.
  - rewrite b64_decode_digit by (apply mod64 || (simpl; lia)). cbn [app].
    rewrite b64_decode_fourth by (apply mod64 || done). rewrite IH. cbn [app].
    rewrite quantum_bytes_3. done.
Qed.

Lemma StdDecode_StdEncode s : StdDecode (StdEncode s) = Some s.
Proof.
  unfold StdDecode, StdEncode. rewrite bytes_of_string_of, b64_decode_encode. simpl.
  by rewrite string_of_bytes_of.
Qed.

Lemma RawStdDecode_RawStdEncode s : RawStdDecode (RawStdEncode s) = Some s.
Proof.
  unfold RawStdDecode, RawStdEncode. rewrite bytes_of_string_of, b64_decode_encode. simpl.
  by rewrite string_of_bytes_of.
Qed.

(** Every character of an encoding is a digit of the alphabet or padding. *)
Lemma b64_encode_plain pad l : Forall (fun c => plain c /\ c <> "$"%char) (b64_encode pad l).
Proof.
  assert (Hd : forall n, 0 <= n < 64 -> plain (b64_digit n) /\ b64_digit n <> "$"%char).
  { intros n Hn. split; [by apply b64_digit_plain|]. intros Heq.
    pose proof (b64_value_digit n Hn) as Hv. by rewrite Heq in Hv. }
  assert (Hp : plain pad_char /\ pad_char <> "$"%char) by by split.
  induction l as [|a|a b|a b c l IH] using list_ind3; cbn [b64_encode]; cbv zeta;
    repeat (constructor; [apply Hd, mod64|]); try apply IH; destruct pad; repeat constructor; apply Hp.
Qed.
