(* ===== verification/GoTime.v ===== *)
(** * Go times

    [time.Time] in UTC as nanoseconds since 1970-01-01; the proleptic Gregorian
    calendar of package time; [Format] and [Parse] for the one layout the
    kernel uses, 2006-01-02. *)

From S2P Require Import Prelude GoStrings.

Local Open Scope Z_scope.

Definition Time : Type := Z.

Definition day_ns : Z := 86400 * 10 ^ 9.

(** [t.AddDate(0, 0, n)]: a UTC day has no transition. *)
Definition AddDays (t : Time) (n : Z) : Time := t + n * day_ns.

(** [a.Before(b)]. *)
Definition Before (a b : Time) : bool := a <? b.

(** Midnight of a day number, and the day number of an instant. *)
Definition midnight (day : Z) : Time := day * day_ns.
Definition day_number (t : Time) : Z := t / day_ns.

(** The zero [time.Time], 1 January of year 1. *)
Definition zero_time : Time := - 62135596800 * 10 ^ 9.

(** ** The calendar

    The day of a 400-year era (0 is 1 March) as year of the era, month and day,
    then the year shifted to start in January. *)

Definition days_per_era : Z := 146097.

Definition civil_of_doe (doe : Z) : Z * Z * Z :=
  let yoe := (doe - doe / 1460 + doe / 36524 - doe / 146096) / 365 in
  let doy := doe - (365 * yoe + yoe / 4 - yoe / 100) in
  let mp := (5 * doy + 2) / 153 in
  let d := doy - (153 * mp + 2) / 5 + 1 in
  let m := if mp <? 10 then mp + 3 else mp - 9 in
  (if m <=? 2 then yoe + 1 else yoe, m, d).

(** Year, month and day of a day number. *)
Definition civil_from_days (day : Z) : Z * Z * Z :=
  let z := day + 719468 in
  let '(y, m, d) := civil_of_doe (z mod days_per_era) in
  (y + 400 * (z / days_per_era), m, d).

Definition days_from_civil (y m d : Z) : Z :=
  let y := if m <=? 2 then y - 1 else y in
  let yoe := y mod 400 in
  let mp := if 2 <? m then m - 3 else m + 9 in
  let doy := (153 * mp + 2) / 5 + d - 1 in
  let doe := yoe * 365 + yoe / 4 - yoe / 100 + doy in
  y / 400 * days_per_era + doe - 719468.

Definition is_leap (y : Z) : bool :=
  (y mod 4 =? 0) && (negb (y mod 100 =? 0) || (y mod 400 =? 0)).

(** [daysIn(m, y)]. *)
Definition daysIn (m y : Z) : Z :=
  if m =? 2 then (if is_leap y then 29 else 28)
  else if (m =? 4) || (m =? 6) || (m =? 9) || (m =? 11) then 30 else 31.

(** ** Format and Parse *)

(** [appendInt(b, x, width)]: zero-padded decimal. *)
Definition appendInt (x : Z) (width : nat) : list ascii :=
  let digits := FormatUint (Z.abs x) in
  (if x <? 0 then ["-"%char] else [])
  ++ replicate (width - length digits) "0"%char ++ digits.

(** [t.Format("2006-01-02")]. *)
Definition FormatDate (t : Time) : string :=
  let '(y, m, d) := civil_from_days (day_number t) in
  string_of (appendInt y 4 ++ "-"%char :: appendInt m 2 ++ "-"%char :: appendInt d 2).

(** [time.Parse("2006-01-02", s)]: four, two and two digits, in range. *)
Definition ParseDate (s : string) : option Time :=
  match bytes_of s with
  | [y1; y2; y3; y4; h1; m1; m2; h2; d1; d2] =>
      match parse_digits 0 [y1; y2; y3; y4], parse_digits 0 [m1; m2], parse_digits 0 [d1; d2] with
      | Some y, Some m, Some d =>
          if Ascii.eqb h1 "-" && Ascii.eqb h2 "-"
             && (1 <=? m) && (m <=? 12) && (1 <=? d) && (d <=? daysIn m y)
          then Some (midnight (days_from_civil y m d)) else None
      | _, _, _ => None
      end
  | _ => None
  end.

Example parse_leap : ParseDate "2024-02-29" = Some (midnight 19782).
Proof. vm_compute. reflexivity. Qed.
Example parse_no_leap : ParseDate "2023-02-29" = None.
Proof. vm_compute. reflexivity. Qed.
Example format_leap : FormatDate (midnight 19782) = "2024-02-29"%string.
Proof. vm_compute. reflexivity. Qed.

Fixpoint drop_zeroes (l : list ascii) : list ascii :=
  match l with
  | c :: r => if Ascii.eqb c "0" then drop_zeroes r else l
  | [] => []
  end.

(** [time.RFC3339Nano] in UTC: the fraction without its trailing zeros, and no
    point when nothing is left. *)
Definition RFC3339Nano (t : Time) : string :=
  let ns := t mod day_ns in
  let secs := ns / 10 ^ 9 in
  let fraction := reverse (drop_zeroes (reverse (appendInt (ns mod 10 ^ 9) 9))) in
  string_of (bytes_of (FormatDate t) ++ "T"%char
    :: appendInt (secs / 3600) 2 ++ ":"%char :: appendInt (secs / 60 mod 60) 2
    ++ ":"%char :: appendInt (secs mod 60) 2
    ++ (match fraction with [] => [] | _ => "."%char :: fraction end) ++ ["Z"%char]).

Example RFC3339Nano_examples :
  RFC3339Nano 1780000000500000000 = "2026-05-28T20:26:40.5Z"%string
  /\ RFC3339Nano 1780000000000000000 = "2026-05-28T20:26:40Z"%string.
Proof. split; vm_compute; reflexivity. Qed.

(** ** Checks over a finite range *)

Fixpoint check_from (f : Z -> bool) (start : Z) (n : nat) : bool :=
  match n with
  | O => true
  | S n' => f start && check_from f (start + 1) n'
  end.

Lemma check_from_spec f n : forall start,
  check_from f start n = true -> forall z, start <= z < start + Z.of_nat n -> f z = true.
Proof.
  induction n as [|n IH]; intros start H z Hz; [lia|]. simpl in H.
  apply andb_true_iff in H as [Hs Hr].
  destruct (Z.eq_dec z start) as [->|Hne]; [done|]. apply (IH (start + 1)); [done|lia].
Qed.

(** ** One era

    A year of the era starts at [year_start]; the code's quotient finds it, as
    a check of the year's two ends and monotonicity show. *)

Definition year_start (y : Z) : Z := 365 * y + y / 4 - y / 100 + y / 400.

Definition year_of_doe (doe : Z) : Z := (doe - doe / 1460 + doe / 36524 - doe / 146096) / 365.

Definition year_ok (y : Z) : bool :=
  let last := Z.min (year_start (y + 1) - 1) 146095 in
  (year_of_doe (year_start y) =? y) && (year_of_doe last =? y)
  && (year_start (y + 1) - year_start y =? (if is_leap (y + 1) then 366 else 365)).

Lemma all_years_ok : check_from year_ok 0 400 = true.
Proof. vm_compute. reflexivity. Qed.

Lemma year_exists n doe : 0 <= doe < year_start (Z.of_nat n) ->
  exists y, 0 <= y < Z.of_nat n /\ year_start y <= doe < year_start (y + 1).
Proof.
  induction n as [|n IH]; intros H; [change (year_start (Z.of_nat 0)) with 0 in H; lia|].
  rewrite Nat2Z.inj_succ, <- Z.add_1_r in *.
  destruct (Z.lt_ge_cases doe (year_start (Z.of_nat n))) as [Hlt|Hge].
  - destruct IH as (y & Hy & Hd); [lia|]. exists y. split; [lia|done].
  - exists (Z.of_nat n). split; [lia|lia].
Qed.

Lemma year_start_nonneg y : 0 <= y -> 0 <= year_start y.
Proof.
  intros Hy. unfold year_start. pose proof (Z.div_le_compat_l y 4 100 Hy ltac:(lia)).
  pose proof (Z.div_pos y 400 Hy ltac:(lia)). lia.
Qed.

Lemma year_of_doe_mono a b : 0 <= a <= b -> b < 146096 -> year_of_doe a <= year_of_doe b.
Proof.
  intros Hab Hb. unfold year_of_doe. apply Z.div_le_mono; [lia|].
  rewrite (Z.div_small a 146096), (Z.div_small b 146096) by lia.
  pose proof (Z.div_le_mono a b 36524 ltac:(lia) ltac:(lia)).
  assert (b / 1460 - a / 1460 <= b - a).
  { pose proof (Z.div_mod a 1460 ltac:(lia)). pose proof (Z.div_mod b 1460 ltac:(lia)).
    pose proof (Z.mod_pos_bound a 1460 ltac:(lia)). pose proof (Z.mod_pos_bound b 1460 ltac:(lia)).
    lia. }
  lia.
Qed.

Lemma year_of_doe_spec doe : 0 <= doe < days_per_era ->
  let y := year_of_doe doe in
  0 <= y < 400 /\ 0 <= doe - year_start y < (if is_leap (y + 1) then 366 else 365).
Proof.
  intros H. cbn zeta. destruct (Z.eq_dec doe 146096) as [->|Hne]; [vm_compute; repeat split; congruence|].
  unfold days_per_era in H. destruct (year_exists 400 doe) as (y & Hy & Hd);
    [change (year_start (Z.of_nat 400)) with 146097; lia|].
  pose proof (check_from_spec year_ok 400 0 all_years_ok y ltac:(lia)) as Hok. unfold year_ok in Hok.
  rewrite !andb_true_iff, !Z.eqb_eq in Hok. destruct Hok as [[H1 H2] H3].
  pose proof (year_start_nonneg y ltac:(lia)).
  pose proof (year_of_doe_mono (year_start y) doe ltac:(lia) ltac:(lia)).
  pose proof (year_of_doe_mono doe (Z.min (year_start (y + 1) - 1) 146095) ltac:(lia) ltac:(lia)).
  assert (year_of_doe doe = y) as -> by lia. rewrite <- H3. lia.
Qed.

(** Month and day of a day of the shifted year. *)
Definition month_day (doy : Z) : Z * Z :=
  let mp := (5 * doy + 2) / 153 in
  (if mp <? 10 then mp + 3 else mp - 9, doy - (153 * mp + 2) / 5 + 1).

Definition doy_of (m d : Z) : Z := (153 * (if 2 <? m then m - 3 else m + 9) + 2) / 5 + d - 1.

Definition doy_ok (doy : Z) : bool :=
  let '(m, d) := month_day doy in
  (doy_of m d =? doy) && (1 <=? m) && (m <=? 12) && (1 <=? d)
  && (if m =? 2 then d <=? (if doy =? 365 then 29 else 28) else d <=? daysIn m 1).

Lemma all_doy_ok : check_from doy_ok 0 366 = true.
Proof. vm_compute. reflexivity. Qed.

Lemma civil_of_doe_spec doe : 0 <= doe < days_per_era ->
  let '(y, m, d) := civil_of_doe doe in
  let y' := if m <=? 2 then y - 1 else y in
  y' * 365 + y' / 4 - y' / 100 + doy_of m d = doe /\ 0 <= y' < 400
  /\ 1 <= m <= 12 /\ 1 <= d <= daysIn m y.
Proof.
  intros H. destruct (year_of_doe_spec doe H) as [Hy Hdoy].
  unfold civil_of_doe. fold (year_of_doe doe). set (yoe := year_of_doe doe) in *. cbn zeta.
  replace (doe - (365 * yoe + yoe / 4 - yoe / 100)) with (doe - year_start yoe)
    by (unfold year_start; rewrite (Z.div_small yoe 400) by lia; lia).
  set (doy := doe - year_start yoe) in *.
  pose proof (check_from_spec doy_ok 366 0 all_doy_ok doy ltac:(case_match; lia)) as Hok.
  unfold doy_ok, month_day in Hok.
  set (mp := (5 * doy + 2) / 153) in *. set (m := if mp <? 10 then mp + 3 else mp - 9) in *.
  set (d := doy - (153 * mp + 2) / 5 + 1) in *.
  replace (if m <=? 2 then (if m <=? 2 then yoe + 1 else yoe) - 1
           else (if m <=? 2 then yoe + 1 else yoe)) with yoe by (destruct (m <=? 2); lia).
  assert (Hs : doe = yoe * 365 + yoe / 4 - yoe / 100 + doy)
    by (subst doy; unfold year_start; rewrite (Z.div_small yoe 400) by lia; lia).
  clearbody m d doy yoe. rewrite !andb_true_iff in Hok. destruct Hok as [[[[H1 H2] H3] H4] H5].
  split; [lia|]. split; [lia|]. split; [lia|]. split; [lia|].
  unfold daysIn in *. destruct (m =? 2) eqn:Em.
  - replace (m <=? 2) with true by lia.
    destruct (is_leap (yoe + 1)); destruct (doy =? 365) eqn:Ed; lia.
  - lia.
Qed.

Lemma is_leap_era y k : is_leap (y + 400 * k) = is_leap y.
Proof.
  unfold is_leap. replace (y + 400 * k) with (y + (100 * k) * 4) at 1 by lia.
  replace (y + 400 * k) with (y + (4 * k) * 100) at 1 by lia.
  replace (y + 400 * k) with (y + k * 400) by lia. by rewrite !Z.mod_add by lia.
Qed.

(** Every day number has a valid civil date and comes back from it. *)
Lemma civil_from_days_valid day :
  let '(y, m, d) := civil_from_days day in
  days_from_civil y m d = day /\ 1 <= m <= 12 /\ 1 <= d <= daysIn m y.
Proof.
  unfold civil_from_days. set (z := day + 719468).
  pose proof (Z.mod_pos_bound z days_per_era ltac:(done)) as Hb.
  pose proof (civil_of_doe_spec _ Hb) as Hok.
  destruct (civil_of_doe (z mod days_per_era)) as [[y m] d].
  set (k := z / days_per_era). cbn zeta in Hok. destruct Hok as (Hdoe & Hy & Hm & Hd).
  assert (Hdays : daysIn m (y + 400 * k) = daysIn m y) by (unfold daysIn; by rewrite is_leap_era).
  split; [|rewrite Hdays; done].
  pose proof (Z.div_mod z days_per_era ltac:(done)) as Hz. fold k in Hz.
  unfold days_from_civil. unfold doy_of in Hdoe.
  set (y' := if m <=? 2 then y - 1 else y) in *.
  replace (if m <=? 2 then y + 400 * k - 1 else y + 400 * k) with (y' + k * 400)
    by (subst y'; case_match; lia).
  rewrite Z.mod_add, Z.div_add, Z.mod_small, Z.div_small by lia. lia.
Qed.

(** ** Printed numbers *)

Lemma parse_leading_zeroes n l : parse_digits 0 (replicate n "0"%char ++ l) = parse_digits 0 l.
Proof. induction n as [|n IH]; [done|]. exact IH. Qed.

Lemma format_loop_length fuel : forall z n,
  0 <= z < 10 ^ Z.of_nat (S n) -> (length (format_loop fuel z []) <= S n)%nat.
Proof.
  induction fuel as [|fuel IH]; intros z n Hz; [simpl; lia|].
  destruct (Z.lt_ge_cases z 10) as [Hlt|Hge]; [rewrite format_loop_small by lia; simpl; lia|].
  rewrite format_loop_step, length_app by done. simpl.
  destruct n as [|n]; [simpl in Hz; lia|].
  rewrite Nat2Z.inj_succ, Z.pow_succ_r in Hz by lia.
  pose proof (IH (z / 10) n) as Hn.
  assert (0 <= z / 10 < 10 ^ Z.of_nat (S n))
    by (split; [apply Z.div_pos; lia|apply Z.div_lt_upper_bound; lia]).
  specialize (Hn ltac:(done)). lia.
Qed.

(** A padded number has its width and reads back. *)
Lemma appendInt_spec z n :
  0 <= z < 10 ^ Z.of_nat (S n) -> z <= max_uint64 ->
  length (appendInt z (S n)) = S n /\ parse_digits 0 (appendInt z (S n)) = Some z.
Proof.
  intros Hz Hmax. unfold appendInt. rewrite (proj2 (Z.ltb_ge z 0)), Z.abs_eq by lia. simpl app.
  pose proof (format_loop_length 20 z n Hz) as Hl. fold (FormatUint z) in Hl. split.
  - rewrite length_app, length_replicate. lia.
  - rewrite parse_leading_zeroes. pose proof (ParseUint_FormatUint z ltac:(lia)) as Hp.
    unfold ParseUint in Hp. by destruct (FormatUint z).
Qed.

Lemma append_two z : 0 <= z < 100 ->
  exists a b, appendInt z 2 = [a; b] /\ parse_digits 0 [a; b] = Some z.
Proof.
  intros Hz. destruct (appendInt_spec z 1) as [Hl Hp]; [done|unfold max_uint64; lia|].
  destruct (appendInt z 2) as [|a [|b [|]]]; try done. eauto.
Qed.

Lemma append_four z : 0 <= z < 10000 ->
  exists a b c d, appendInt z 4 = [a; b; c; d] /\ parse_digits 0 [a; b; c; d] = Some z.
Proof.
  intros Hz. destruct (appendInt_spec z 3) as [Hl Hp]; [done|unfold max_uint64; lia|].
  destruct (appendInt z 4) as [|a [|b [|c [|d [|]]]]]; try done. eauto 10.
Qed.

(** Parsing the printed date of an instant gives the midnight of its day, for
    the years the layout can spell. *)
Lemma ParseDate_FormatDate t :
  0 <= (civil_from_days (day_number t)).1.1 < 10000 ->
  ParseDate (FormatDate t) = Some (midnight (day_number t)).
Proof.
  unfold FormatDate. pose proof (civil_from_days_valid (day_number t)) as Hv.
  destruct (civil_from_days (day_number t)) as [[y m] d]. simpl. intros Hy.
  destruct Hv as (Hday & Hm & Hd).
  assert (Hd31 : daysIn m y <= 31) by (unfold daysIn; repeat case_match; lia).
  destruct (append_four y Hy) as (y1 & y2 & y3 & y4 & Ey & Py).
  destruct (append_two m ltac:(lia)) as (m1 & m2 & Em & Pm).
  destruct (append_two d ltac:(lia)) as (d1 & d2 & Ed & Pd).
  rewrite Ey, Em, Ed. unfold ParseDate. rewrite bytes_of_string_of. cbn [app].
  rewrite Py, Pm, Pd, Hday. rewrite Ascii.eqb_refl.
  replace (_ && (d <=? daysIn m y)) with true by lia. done.
Qed.

Lemma AddDays_add t a b : AddDays (AddDays t a) b = AddDays t (a + b).
Proof. unfold AddDays. lia. Qed.

Lemma AddDays_0 t : AddDays t 0 = t.
Proof. unfold AddDays. lia. Qed.

Lemma day_number_AddDays t n : day_number (AddDays t n) = day_number t + n.
Proof. unfold day_number, AddDays. by apply Z.div_add. Qed.

Lemma day_number_midnight d : day_number (midnight d) = d.
Proof. unfold day_number, midnight. by apply Z.div_mul. Qed.

Lemma AddDays_midnight d n : AddDays (midnight d) n = midnight (d + n).
Proof. unfold AddDays, midnight. lia. Qed.

Lemma Before_midnight a b : Before (midnight a) (midnight b) = (a <? b).
Proof. unfold Before, midnight, day_ns. lia. Qed.

(** ** The order of printed times

    Times are stored as text and compared as text.  Two texts of the same second
    may be out of order; those of different seconds never are. *)

Fixpoint lex (l l' : list ascii) : comparison :=
  match l, l' with
  | [], [] => Eq
  | [], _ :: _ => Lt
  | _ :: _, [] => Gt
  | c :: l, c' :: l' => match Ascii.compare c c' with Eq => lex l l' | o => o end
  end.

Lemma compare_lex l l' : String.compare (string_of l) (string_of l') = lex l l'.
Proof.
  revert l'. induction l as [|c l IH]; intros [|c' l']; try done. cbn. unfold string_of in IH. by rewrite IH.
Qed.

Lemma lex_app p q x y : length p = length q ->
  lex (p ++ x) (q ++ y) = match lex p q with Eq => lex x y | o => o end.
Proof.
  revert q. induction p as [|c p IH]; intros [|c' q]; try done. intros [= Hl]. cbn.
  destruct (Ascii.compare c c'); [by apply IH|done|done].
Qed.

Lemma digit_compare c c' d d' : digit_val c = Some d -> digit_val c' = Some d' ->
  Ascii.compare c c' = (d ?= d').
Proof.
  unfold digit_val, byte_val, Ascii.compare.
  repeat (case_match; try done). intros [= <-] [= <-].
  destruct (N.compare_spec (N_of_ascii c) (N_of_ascii c')) as [E|E|E]; symmetry.
  - rewrite E. apply Z.compare_refl.
  - apply Z.compare_lt_iff. lia.
  - apply Z.compare_gt_iff. lia.
Qed.

Lemma parse_digits_lt l l' a a' z z' : length l = length l' -> a < a' ->
  parse_digits a l = Some z -> parse_digits a' l' = Some z' -> z < z'.
Proof.
  revert l' a a'. induction l as [|c l IH]; intros [|c' l'] a a'; try done.
  - intros _ Ha [= <-] [= <-]. done.
  - intros [= Hl] Ha. cbn [parse_digits].
    destruct (digit_val c) as [d|] eqn:Ed, (digit_val c') as [d'|] eqn:Ed'; try done.
    destruct (_ <? _); [done|]. destruct (_ <? _); [done|]. apply IH; [done|].
    unfold digit_val in Ed, Ed'. repeat (case_match; try done). simplify_eq. lia.
Qed.

Lemma lex_digits l l' a z z' : length l = length l' ->
  parse_digits a l = Some z -> parse_digits a l' = Some z' -> lex l l' = (z ?= z').
Proof.
  revert l' a. induction l as [|c l IH]; intros [|c' l'] a; try done.
  - intros _ [= <-] [= <-]. cbn. by rewrite Z.compare_refl.
  - intros [= Hl]. cbn [parse_digits lex].
    destruct (digit_val c) as [d|] eqn:Ed, (digit_val c') as [d'|] eqn:Ed'; try done.
    destruct (max_uint64 <? _) eqn:M1; [done|]. destruct (max_uint64 <? a * 10 + d') eqn:M2; [done|]. intros H1 H2.
    rewrite (digit_compare _ _ _ _ Ed Ed'). destruct (Z.compare_spec d d') as [->|E|E].
    + by eapply IH.
    + symmetry. apply Z.compare_lt_iff. eapply (parse_digits_lt l l'); [done| |exact H1|exact H2]. lia.
    + symmetry. apply Z.compare_gt_iff. eapply (parse_digits_lt l' l); [done| |exact H2|exact H1]. lia.
Qed.

(** Printed numbers of one width compare like the numbers. *)
Lemma lex_appendInt n z z' : 0 <= z < 10 ^ Z.of_nat (S n) -> 0 <= z' < 10 ^ Z.of_nat (S n) -> (n < 19)%nat ->
  length (appendInt z (S n)) = length (appendInt z' (S n))
  /\ lex (appendInt z (S n)) (appendInt z' (S n)) = (z ?= z').
Proof.
  intros H H' Hn. assert (Hmax : 10 ^ Z.of_nat (S n) <= 10 ^ 19) by (apply Z.pow_le_mono_r; lia).
  destruct (appendInt_spec z n) as [L P]; [done|unfold max_uint64; lia|].
  destruct (appendInt_spec z' n) as [L' P']; [done|unfold max_uint64; lia|].
  split; [congruence|]. eapply lex_digits; [congruence|done|done].
Qed.

Ltac div_lia := Z.to_euclidean_division_equations; lia.

(** The calendar in the order of its days. *)

Lemma days_from_civil_flat y m d :
  days_from_civil y m d = year_start (if m <=? 2 then y - 1 else y) + doy_of m d - 719468.
Proof.
  unfold days_from_civil, doy_of, year_start, days_per_era. set (z := if m <=? 2 then y - 1 else y). cbn zeta.
  change (if m <=? 2 then y - 1 else y) with z. clearbody z.
  generalize ((153 * (if 2 <? m then m - 3 else m + 9) + 2) / 5). intros p.
  pose proof (Z.div_mod z 400 ltac:(done)) as E. pose proof (Z.mod_pos_bound z 400 ltac:(done)) as Hr.
  set (r := z mod 400) in *. set (q := z / 400) in *. clearbody q r.
  replace (z / 4) with (100 * q + r / 4) by div_lia.
  replace (z / 100) with (4 * q + r / 100) by div_lia. lia.
Qed.

(** Decide the comparisons of numbers that are written out. *)
Ltac closed_tests :=
  repeat match goal with
  | |- context [?b] =>
      match type of b with bool => idtac end;
      match b with Z.leb _ _ => idtac | Z.ltb _ _ => idtac | Z.eqb _ _ => idtac end;
      first [change b with true|change b with false]
  end; cbn [orb andb negb].

Definition month_first (k : Z) : Z := days_from_civil (k / 12) (k mod 12 + 1) 1.

Lemma month_first_next k : month_first (k + 1) = month_first k + daysIn (k mod 12 + 1) (k / 12).
Proof.
  unfold month_first. rewrite !days_from_civil_flat.
  assert (Hm : k mod 12 = 11 /\ (k + 1) mod 12 = 0 /\ (k + 1) / 12 = k / 12 + 1
    \/ 0 <= k mod 12 < 11 /\ (k + 1) mod 12 = k mod 12 + 1 /\ (k + 1) / 12 = k / 12) by div_lia.
  set (y := k / 12) in *. set (m := k mod 12) in *.
  destruct Hm as [(E1 & -> & ->)|(E1 & -> & ->)]; [rewrite E1|]; clearbody y m.
  - unfold year_start, doy_of, daysIn, is_leap. closed_tests. div_lia.
  - assert (Hc : m = 0 \/ m = 1 \/ m = 2 \/ m = 3 \/ m = 4 \/ m = 5 \/ m = 6 \/ m = 7 \/ m = 8 \/ m = 9 \/ m = 10)
      by lia.
    unfold year_start, doy_of, daysIn, is_leap.
    repeat destruct Hc as [->|Hc]; try subst m; closed_tests; try div_lia.
    destruct (Z.eqb_spec (y mod 4) 0), (Z.eqb_spec (y mod 100) 0), (Z.eqb_spec (y mod 400) 0); cbn [andb orb negb];
      div_lia.
Qed.

Lemma month_first_mono k k' : k <= k' -> month_first k <= month_first k'.
Proof.
  intros H. replace k' with (k + Z.of_nat (Z.to_nat (k' - k))) by lia. generalize (Z.to_nat (k' - k)) as n.
  intros n. induction n as [|n IH]; [by rewrite Z.add_0_r|].
  rewrite Nat2Z.inj_succ, <- Z.add_1_r, Z.add_assoc, month_first_next.
  assert (0 <= daysIn ((k + Z.of_nat n) mod 12 + 1) ((k + Z.of_nat n) / 12)) by (unfold daysIn; repeat case_match; lia).
  lia.
Qed.

(** Later days have later dates. *)
Lemma civil_order a b : a < b ->
  let '(y, m, d) := civil_from_days a in
  let '(y', m', d') := civil_from_days b in
  y < y' \/ (y = y' /\ (m < m' \/ (m = m' /\ d < d'))).
Proof.
  intros H. pose proof (civil_from_days_valid a) as Ha. pose proof (civil_from_days_valid b) as Hb.
  destruct (civil_from_days a) as [[y m] d], (civil_from_days b) as [[y' m'] d'].
  destruct Ha as (Ea & Hm & Hd), Hb as (Eb & Hm' & Hd').
  assert (Hf : forall y m d, 1 <= m <= 12 -> days_from_civil y m d = month_first (12 * y + (m - 1)) + (d - 1)).
  { intros y0 m0 d0 H0. unfold month_first. replace ((12 * y0 + (m0 - 1)) / 12) with y0 by div_lia.
    replace ((12 * y0 + (m0 - 1)) mod 12 + 1) with m0 by div_lia. rewrite !days_from_civil_flat. unfold doy_of. lia. }
  rewrite Hf in Ea, Eb by done. destruct (Z.lt_trichotomy (12 * y + (m - 1)) (12 * y' + (m' - 1))) as [E|[E|E]].
  - lia.
  - rewrite E in Ea. lia.
  - exfalso. pose proof (month_first_mono (12 * y' + (m' - 1) + 1) (12 * y + (m - 1)) ltac:(lia)) as Hle.
    rewrite month_first_next in Hle.
    replace ((12 * y' + (m' - 1)) / 12) with y' in Hle by div_lia.
    replace ((12 * y' + (m' - 1)) mod 12 + 1) with m' in Hle by div_lia. lia.
Qed.

(** The years a layout can spell with four digits. *)
Definition four_digit_year (t : Time) : Prop := 0 <= (civil_from_days (day_number t)).1.1 < 10000.

Lemma lex_field n z z' c x x' : 0 <= z < 10 ^ Z.of_nat (S n) -> 0 <= z' < 10 ^ Z.of_nat (S n) -> (n < 19)%nat ->
  lex (appendInt z (S n) ++ c :: x) (appendInt z' (S n) ++ c :: x')
  = match z ?= z' with Eq => lex x x' | o => o end.
Proof.
  intros H H' Hn. destruct (lex_appendInt n z z' H H' Hn) as [L ->%eq_sym]. rewrite lex_app by done.
  destruct (lex _ _); [|done|done]. cbn. unfold Ascii.compare. by rewrite N.compare_refl.
Qed.

(** Up to the second. *)
Definition clock_head (t : Time) : list ascii :=
  let '(y, m, d) := civil_from_days (day_number t) in
  let secs := t mod day_ns / 10 ^ 9 in
  appendInt y 4 ++ "-"%char :: appendInt m 2 ++ "-"%char :: appendInt d 2 ++ "T"%char
    :: appendInt (secs / 3600) 2 ++ ":"%char :: appendInt (secs / 60 mod 60) 2
    ++ ":"%char :: appendInt (secs mod 60) 2.

Definition clock_tail (t : Time) : list ascii :=
  (match reverse (drop_zeroes (reverse (appendInt (t mod day_ns mod 10 ^ 9) 9))) with
   | [] => []
   | fraction => "."%char :: fraction
   end) ++ ["Z"%char].

Lemma RFC3339Nano_parts t : RFC3339Nano t = string_of (clock_head t ++ clock_tail t).
Proof.
  unfold RFC3339Nano, clock_head, clock_tail, FormatDate.
  destruct (civil_from_days (day_number t)) as [[y m] d]. rewrite bytes_of_string_of. f_equal. cbn zeta.
  repeat (rewrite <- ?app_assoc; cbn [app]). destruct (reverse _); by repeat (rewrite <- ?app_assoc; cbn [app]).
Qed.

Lemma RFC3339Nano_second a b : four_digit_year a -> four_digit_year b -> a / 10 ^ 9 < b / 10 ^ 9 ->
  String.compare (RFC3339Nano a) (RFC3339Nano b) = Lt.
Proof.
  intros Ha Hb Hlt. rewrite !RFC3339Nano_parts, compare_lex. unfold four_digit_year in *.
  assert (Hd : day_number a < day_number b \/ day_number a = day_number b
    /\ a mod day_ns / 10 ^ 9 < b mod day_ns / 10 ^ 9) by (unfold day_number, day_ns in *; div_lia).
  assert (Hs : forall t, 0 <= t mod day_ns / 10 ^ 9 < 86400) by (intros t; unfold day_ns; div_lia).
  pose proof (Hs a) as Sa. pose proof (Hs b) as Sb. clear Hs.
  assert (Ho : day_number a < day_number b -> let '(y, m, d) := civil_from_days (day_number a) in
    let '(y', m', d') := civil_from_days (day_number b) in
    y < y' \/ (y = y' /\ (m < m' \/ (m = m' /\ d < d')))) by apply civil_order.
  pose proof (civil_from_days_valid (day_number a)) as Va. pose proof (civil_from_days_valid (day_number b)) as Vb.
  unfold clock_head. set (sa := a mod day_ns / 10 ^ 9) in *. set (sb := b mod day_ns / 10 ^ 9) in *.
  clearbody sa sb.
  assert (Hc : civil_from_days (day_number a) = civil_from_days (day_number b) /\ sa < sb
    \/ (let '(y, m, d) := civil_from_days (day_number a) in
        let '(y', m', d') := civil_from_days (day_number b) in
        y < y' \/ (y = y' /\ (m < m' \/ (m = m' /\ d < d'))))).
  { destruct Hd as [Hd|[E Hd]]; [right; by apply Ho|left]. by rewrite E. }
  clear Ho Hd Hlt. destruct (civil_from_days (day_number a)) as [[y m] d].
  destruct (civil_from_days (day_number b)) as [[y' m'] d']. cbn [fst snd] in *.
  destruct Va as (_ & Hm & Hd), Vb as (_ & Hm' & Hd').
  assert (forall m y, daysIn m y <= 31) as H31 by (intros; unfold daysIn; repeat case_match; lia).
  pose proof (H31 m y). pose proof (H31 m' y').
  repeat (rewrite <- ?app_assoc; cbn [app]).
  rewrite !lex_field by (cbn; div_lia).
  destruct (lex_appendInt 1 (sa mod 60) (sb mod 60)) as [L E]; [cbn; div_lia..|].
  rewrite lex_app, E by done.
  destruct Hc as [[Hc Hsec]|Hc].
  - injection Hc as -> -> ->. rewrite !Z.compare_refl.
    destruct (Z.compare_spec (sa / 3600) (sb / 3600)); [|done|exfalso; div_lia].
    destruct (Z.compare_spec (sa / 60 mod 60) (sb / 60 mod 60)); [|done|exfalso; div_lia].
    destruct (Z.compare_spec (sa mod 60) (sb mod 60)); [exfalso; div_lia|done|exfalso; div_lia].
  - destruct (Z.compare_spec y y'); [|done|exfalso; lia].
    destruct (Z.compare_spec m m'); [|done|exfalso; lia].
    destruct (Z.compare_spec d d'); [exfalso; lia|done|exfalso; lia].
Qed.
