(* ===== verification/Scheduler.v ===== *)
(** * kernel/scheduler.go: tasks, links, topological order, critical path

    The task record with the fields of [kernel.Task], [effectiveLinks],
    [topoSort] (Kahn's algorithm with fuel) and [CalculateCPM] as the
    composition of its passes.  A Go [map[string]*Task] is a [gmap string
    Task]; two keys never share one task.  A read [tasks[id]] of a missing key
    gives a nil pointer, whose dereference panics: [None]. *)

From S2P Require Import Prelude GoFloat.

Local Open Scope Z_scope.

(** ** Links *)

Definition LinkType : Type := string.
Definition FinishToStart : LinkType := "FS".
Definition StartToStart : LinkType := "SS".
Definition FinishToFinish : LinkType := "FF".
Definition StartToFinish : LinkType := "SF".

Record Link := mkLink {
  Pred : string;
  LType : LinkType;
  Lag : f64
}.

#[export] Instance Link_eq_dec : EqDecision Link.
Proof. solve_decision. Defined.

(** ** Constraints *)

Definition ConstraintType : Type := string.
Definition AsSoonAsPossible : ConstraintType := "ASAP".
Definition AsLateAsPossible : ConstraintType := "ALAP".
Definition StartNoEarlierThan : ConstraintType := "SNET".
Definition FinishNoLaterThan : ConstraintType := "FNLT".
Definition MustFinishOn : ConstraintType := "MFO".

(** ** Tasks *)

Record WorkSegment := mkSegment {
  seg_Start : f64;
  seg_End : f64
}.

Record DurationEstimate := mkEstimate {
  Optimistic : f64;
  MostLikely : f64;
  Pessimistic : f64;
  Distribution : string
}.

Record Assignment := mkAssignment {
  Resource : string;
  Units : f64;
  CalendarID : string;
  SkillTags : list string;
  MaxUnits : f64
}.

Record Task := mkTask {
  ID : string;
  Title : string;
  Duration : f64;
  Precedents : list string;
  Links : list Link;
  Estimate : DurationEstimate;
  Constraint : ConstraintType;
  ConstraintDate : string;
  ConstraintDay : f64;
  ConstraintArmed : bool;
  ConstraintViolated : bool;
  PercentComplete : f64;
  Milestone : bool;
  ActualStart : string;
  ActualFinish : string;
  BudgetedCost : f64;
  BudgetedCostMinorUnits : Z;
  ActualCost : f64;
  ActualCostMinorUnits : Z;
  Assignments : list Assignment;
  Overallocated : bool;
  WorkDays : list Z;
  PlannedWorkSegments : list WorkSegment;
  ES : f64;
  EF : f64;
  LS : f64;
  LF : f64;
  Float : f64;
  IsCritical : bool;
  StartDate : string;
  FinishDate : string
}.

(** A task rebuilt from its own fields, and the field updates the kernel
    makes, [set_F t v] being [t.F = v]. *)
Definition task_eta (t : Task) : Task :=
  mkTask (ID t) (Title t) (Duration t) (Precedents t) (Links t) (Estimate t)
    (Constraint t) (ConstraintDate t) (ConstraintDay t) (ConstraintArmed t)
    (ConstraintViolated t) (PercentComplete t) (Milestone t) (ActualStart t)
    (ActualFinish t) (BudgetedCost t) (BudgetedCostMinorUnits t) (ActualCost t)
    (ActualCostMinorUnits t) (Assignments t) (Overallocated t) (WorkDays t)
    (PlannedWorkSegments t) (ES t) (EF t) (LS t) (LF t) (Float t) (IsCritical t)
    (StartDate t) (FinishDate t).

Definition set_Duration (t : Task) (v : f64) : Task := ltac:(record_set task_eta Duration v t).
Definition set_ConstraintDay (t : Task) (v : f64) : Task := ltac:(record_set task_eta ConstraintDay v t).
Definition set_ConstraintArmed (t : Task) (v : bool) : Task := ltac:(record_set task_eta ConstraintArmed v t).
Definition set_ConstraintViolated (t : Task) (v : bool) : Task := ltac:(record_set task_eta ConstraintViolated v t).
Definition set_PercentComplete (t : Task) (v : f64) : Task := ltac:(record_set task_eta PercentComplete v t).
Definition set_Overallocated (t : Task) (v : bool) : Task := ltac:(record_set task_eta Overallocated v t).
Definition set_WorkDays (t : Task) (v : list Z) : Task := ltac:(record_set task_eta WorkDays v t).
Definition set_ES (t : Task) (v : f64) : Task := ltac:(record_set task_eta ES v t).
Definition set_EF (t : Task) (v : f64) : Task := ltac:(record_set task_eta EF v t).
Definition set_LS (t : Task) (v : f64) : Task := ltac:(record_set task_eta LS v t).
Definition set_LF (t : Task) (v : f64) : Task := ltac:(record_set task_eta LF v t).
Definition set_Float (t : Task) (v : f64) : Task := ltac:(record_set task_eta Float v t).
Definition set_IsCritical (t : Task) (v : bool) : Task := ltac:(record_set task_eta IsCritical v t).
Definition set_StartDate (t : Task) (v : string) : Task := ltac:(record_set task_eta StartDate v t).
Definition set_FinishDate (t : Task) (v : string) : Task := ltac:(record_set task_eta FinishDate v t).

(** ** effectiveLinks *)

Definition known_link_type (ty : LinkType) : bool :=
  bool_decide (ty ∈ [FinishToStart; StartToStart; FinishToFinish; StartToFinish]).

Definition normalise_link (l : Link) : Link :=
  if known_link_type (LType l) then l else mkLink (Pred l) FinishToStart (Lag l).

Definition effectiveLinks (t : Task) : list Link :=
  let links := normalise_link <$> Links t in
  let seen : gset string := list_to_set (Pred <$> Links t) in
  links ++ ((fun pID => mkLink pID FinishToStart fzero) <$>
              filter (fun pID => pID ∉ seen) (Precedents t)).

Definition EffectiveLinks (t : Task) : list Link := effectiveLinks t.

(** The links whose predecessor is a task of the map; the others dangle and
    every pass skips them. *)
Definition link_exists {A : Type} (tasks : gmap string A) (l : Link) : bool :=
  bool_decide (is_Some (tasks !! Pred l)).

(** ** topoSort *)

Section Topo.
Context `{RangeOrder}.

(** [indegree[t.ID]++] for every link of [t] that does not dangle. *)
Definition count_links {A : Type} (tasks : gmap string A) (indegree : gmap string Z) (t : Task)
    : gmap string Z :=
  foldl (fun ind l =>
           if link_exists tasks l then <[ID t := zget ind (ID t) + 1]> ind else ind)
        indegree (effectiveLinks t).

Definition topo_indegree (tasks : gmap string Task) : gmap string Z :=
  let zeros := foldl (fun ind kt => <[kt.1 := 0]> ind) ∅ (range 0 tasks) in
  foldl (fun ind kt => count_links tasks ind kt.2) zeros (range 1 tasks).

(** [out[l.Pred] = append(out[l.Pred], t.ID)]. *)
Definition topo_out (tasks : gmap string Task) : gmap string (list string) :=
  foldl (fun out kt =>
    foldl (fun out l =>
             if link_exists tasks l
             then <[Pred l := (out !!! Pred l) ++ [ID kt.2]]> out else out)
          out (effectiveLinks kt.2))
    ∅ (range 2 tasks).

(** One iteration of the loop over the successors of the task just placed. *)
Definition topo_relax (st : list string * gmap string Z) (sID : string)
    : list string * gmap string Z :=
  let '(ready, indegree) := st in
  let n := zget indegree sID - 1 in
  (if n =? 0 then sort_strings (ready ++ [sID]) else ready, <[sID := n]> indegree).

Fixpoint topo_loop (fuel : nat) (out : gmap string (list string))
    (ready : list string) (indegree : gmap string Z) (order : list string)
    : option (list string) :=
  match fuel with
  | O => None
  | S fuel' =>
      match ready with
      | [] => Some order
      | id :: ready' =>
          let '(ready'', indegree') :=
            foldl topo_relax (ready', indegree) (sort_strings (out !!! id)) in
          topo_loop fuel' out ready'' indegree' (order ++ [id])
      end
  end.

(** [None]: the second result is false, the graph has a cycle. *)
Definition topoSort (tasks : gmap string Task) : option (list string) :=
  let indegree := topo_indegree tasks in
  let out := topo_out tasks in
  let ready := sort_strings (filter (fun k => zget indegree k = 0) (range 3 indegree).*1) in
  match topo_loop (S (size indegree)) out ready indegree [] with
  | Some order => if Nat.eqb (length order) (size tasks) then Some order else None
  | None => None
  end.

End Topo.

(** ** CalculateCPM: forward pass *)

Definition forward_candidate (p t : Task) (l : Link) : f64 :=
  if String.eqb (LType l) StartToStart then ES p ⊕ Lag l
  else if String.eqb (LType l) FinishToFinish then EF p ⊕ Lag l ⊖ Duration t
  else if String.eqb (LType l) StartToFinish then ES p ⊕ Lag l ⊖ Duration t
  else EF p ⊕ Lag l.

(** The larger of [0] and the candidates of the links into [t]. *)
Definition forward_start (tasks : gmap string Task) (t : Task) : f64 :=
  foldl (fun es l =>
           match tasks !! Pred l with
           | None => es
           | Some p =>
               let candidate := forward_candidate p t l in
               if es <. candidate then candidate else es
           end)
        fzero (effectiveLinks t).

(** SNET and MFO; the flag is [ConstraintViolated]. *)
Definition forward_constraint (t : Task) (es : f64) : f64 * bool :=
  if ConstraintArmed t then
    if String.eqb (Constraint t) StartNoEarlierThan then
      (if es <. ConstraintDay t then ConstraintDay t else es, false)
    else if String.eqb (Constraint t) MustFinishOn then
      let target := ConstraintDay t ⊖ Duration t in
      if es <=. target then (target, false) else (es, true)
    else (es, false)
  else (es, false).

Definition forward_task (tasks : gmap string Task) (t : Task) : Task :=
  let '(es, violated) := forward_constraint t (forward_start tasks t) in
  let t := set_ConstraintViolated t violated in
  let t := set_ES t es in
  set_EF t (ES t ⊕ Duration t).

(** Visit the tasks of [order], each update reading the current map. *)
Definition visit (upd : gmap string Task -> Task -> Task)
    (tasks : gmap string Task) (id : string) : option (gmap string Task) :=
  match tasks !! id with
  | None => None
  | Some t => Some (<[id := upd tasks t]> tasks)
  end.

Fixpoint visit_all (upd : gmap string Task -> Task -> Task) (order : list string)
    (tasks : gmap string Task) : option (gmap string Task) :=
  match order with
  | [] => Some tasks
  | id :: order' =>
      match visit upd tasks id with
      | None => None
      | Some tasks' => visit_all upd order' tasks'
      end
  end.

Definition forward_pass (order : list string) (tasks : gmap string Task) : option (gmap string Task) :=
  visit_all forward_task order tasks.

(** ** CalculateCPM: project finish and backward pass *)

(** [succ] is the key of the task the pointer points to. *)
Record succLink := mkSuccLink {
  succ : string;
  typ : LinkType;
  lag : f64
}.

Section Backward.
Context `{RangeOrder}.

Definition project_finish (tasks : gmap string Task) : f64 :=
  foldl (fun projectEF kt => if projectEF <. EF kt.2 then EF kt.2 else projectEF)
        fzero (range 4 tasks).

Definition cpm_successors (tasks : gmap string Task) : gmap string (list succLink) :=
  foldl (fun successors kt =>
    foldl (fun successors l =>
             if link_exists tasks l
             then <[Pred l := (successors !!! Pred l) ++ [mkSuccLink kt.1 (LType l) (Lag l)]]> successors
             else successors)
          successors (effectiveLinks kt.2))
    ∅ (range 5 tasks).

End Backward.

Definition backward_candidate (s t : Task) (sl : succLink) : f64 :=
  if String.eqb (typ sl) StartToStart then LS s ⊖ lag sl ⊕ Duration t
  else if String.eqb (typ sl) FinishToFinish then LF s ⊖ lag sl
  else if String.eqb (typ sl) StartToFinish then LF s ⊖ lag sl ⊕ Duration t
  else LS s ⊖ lag sl.

Definition backward_finish (projectEF : f64) (sls : list succLink)
    (tasks : gmap string Task) (t : Task) : f64 :=
  foldl (fun lf sl =>
           match tasks !! succ sl with
           | None => lf
           | Some s =>
               let candidate := backward_candidate s t sl in
               if candidate <. lf then candidate else lf
           end)
        projectEF sls.

(** MFO and FNLT. *)
Definition backward_constraint (t : Task) (lf : f64) : f64 * bool :=
  if ConstraintArmed t then
    if String.eqb (Constraint t) MustFinishOn then
      (ConstraintDay t, ConstraintViolated t || (lf <. ConstraintDay t ⊖ f_1em9))
    else if String.eqb (Constraint t) FinishNoLaterThan then
      (if ConstraintDay t <. lf then ConstraintDay t else lf,
       ConstraintViolated t || (ConstraintDay t ⊕ f_1em9 <. EF t))
    else (lf, ConstraintViolated t)
  else (lf, ConstraintViolated t).

Definition backward_task (projectEF : f64) (successors : gmap string (list succLink))
    (tasks : gmap string Task) (t : Task) : Task :=
  let lf := backward_finish projectEF (successors !!! ID t) tasks t in
  let '(lf, violated) := backward_constraint t lf in
  let t := set_ConstraintViolated t violated in
  let t := set_LF t lf in
  let t := set_LS t (LF t ⊖ Duration t) in
  let t := set_Float t (LS t ⊖ ES t) in
  set_IsCritical t (Float t <. f_1em9).

Definition backward_pass (projectEF : f64) (successors : gmap string (list succLink))
    (order : list string) (tasks : gmap string Task) : option (gmap string Task) :=
  visit_all (backward_task projectEF successors) (reverse order) tasks.

(** ** CalculateCPM: progress clamp and ALAP post-pass

    Each loop changes every task from that task alone, so its order is
    irrelevant. *)

Definition clamp_progress (t : Task) : Task :=
  if PercentComplete t <. fzero then set_PercentComplete t fzero
  else if f_of_Z 100 <. PercentComplete t then set_PercentComplete t (f_of_Z 100)
  else t.

Definition alap_task (t : Task) : Task :=
  if String.eqb (Constraint t) AsLateAsPossible then
    let t := set_EF (set_ES t (LS t)) (LF t) in
    set_IsCritical (set_Float t fzero) true
  else t.

(** The result is the returned bool and the mutated map; [None] is a panic. *)
Definition CalculateCPM `{RangeOrder} (tasks : gmap string Task)
    : option (bool * gmap string Task) :=
  match topoSort tasks with
  | None => Some (false, tasks)
  | Some order =>
      match forward_pass order tasks with
      | None => None
      | Some tasks1 =>
          match backward_pass (project_finish tasks1) (cpm_successors tasks1) order tasks1 with
          | None => None
          | Some tasks2 => Some (true, alap_task <$> (clamp_progress <$> tasks2))
          end
      end
  end.

(** The documented precondition: the map is keyed by [Task.ID]. *)
Definition well_keyed (tasks : gmap string Task) : Prop :=
  map_Forall (fun k t => ID t = k) tasks.

#[export] Instance well_keyed_dec (tasks : gmap string Task) : Decision (well_keyed tasks).
Proof. unfold well_keyed. apply _. Defined.

(** Build the map a caller passes from its tasks. *)
Definition task_map (l : list Task) : gmap string Task :=
  list_to_map ((fun t => (ID t, t)) <$> l).

(** A bare task: name, whole days, typed links. *)
Definition new_task (id : string) (days : Z) (links : list Link) : Task :=
  mkTask id "" (f_of_Z days) [] links (mkEstimate fzero fzero fzero "") "" "" fzero false false
    fzero false "" "" fzero 0 fzero 0 [] false [] [] fzero fzero fzero fzero fzero false "" "".
