(* ===== verification/SchedulerTopo.v ===== *)
(** * Correctness of topoSort (kernel/scheduler.go)

    On a map keyed by [Task.ID], [topoSort] succeeds exactly on acyclic
    graphs, its order lists every task once and after its predecessors, and
    neither depends on Go's map iteration order. *)

From S2P Require Import Prelude GoFloat Scheduler.

Local Open Scope Z_scope.

(** ** The dependency graph *)

(** [depends tasks p s]: some link of [s] names the existing task [p]. *)
Definition depends (tasks : gmap string Task) (p s : string) : Prop :=
  exists t l, tasks !! s = Some t /\ l ∈ effectiveLinks t /\ Pred l = p /\ is_Some (tasks !! p).

Definition acyclic (tasks : gmap string Task) : Prop :=
  forall id, ~ tc (depends tasks) id id.

(** Every entry of [order] comes after all the tasks it depends on. *)
Definition preds_first (tasks : gmap string Task) (order : list string) : Prop :=
  forall a id b p, order = a ++ id :: b -> depends tasks p id -> p ∈ a.

(** ** Counting *)

Definition occ (x : string) (l : list string) : Z := Z.of_nat (length (filter (fun y => y = x) l)).

(** The links of [t] whose predecessor exists and is not in [order]. *)
Definition open_links (tasks : gmap string Task) (order : list string) (t : Task) : list Link :=
  filter (fun l => is_Some (tasks !! Pred l) /\ Pred l ∉ order) (effectiveLinks t).

Definition links_from (p : string) (t : Task) : list Link :=
  filter (fun l => Pred l = p) (effectiveLinks t).

Lemma occ_nonneg x l : 0 <= occ x l.
Proof. unfold occ. lia. Qed.

Lemma occ_app x l1 l2 : occ x (l1 ++ l2) = occ x l1 + occ x l2.
Proof. unfold occ. rewrite filter_app, length_app. lia. Qed.

Lemma occ_one x y : occ x [y] = if decide (y = x) then 1 else 0.
Proof. unfold occ. rewrite filter_cons, filter_nil. by case_decide. Qed.

Lemma occ_pos x l : 0 < occ x l <-> x ∈ l.
Proof.
  unfold occ. split.
  - intros Hl. destruct (filter (fun y => y = x) l) as [|y ys] eqn:E; [simpl in Hl; lia|].
    assert (Hy : y ∈ filter (fun y => y = x) l) by (rewrite E; constructor).
    by apply list_elem_of_filter in Hy as [-> ?].
  - intros Hx. assert (Hf : x ∈ filter (fun y => y = x) l) by (by apply list_elem_of_filter).
    destruct (filter (fun y => y = x) l); [by apply elem_of_nil in Hf|simpl; lia].
Qed.

Lemma occ_perm x l1 l2 : l1 ≡ₚ l2 -> occ x l1 = occ x l2.
Proof. intros Hp. unfold occ. by rewrite Hp. Qed.

Lemma open_links_snoc tasks order id t :
  is_Some (tasks !! id) -> id ∉ order ->
  Z.of_nat (length (open_links tasks (order ++ [id]) t))
  = Z.of_nat (length (open_links tasks order t)) - Z.of_nat (length (links_from id t)).
Proof.
  intros Hid Hnin. unfold open_links, links_from.
  induction (effectiveLinks t) as [|l ls IH]; [done|].
  rewrite !filter_cons.
  repeat case_decide; simpl; try lia; exfalso;
    rewrite ?elem_of_app, ?list_elem_of_singleton in *; naive_solver.
Qed.

Lemma links_from_le_open tasks order id t :
  is_Some (tasks !! id) -> id ∉ order ->
  Z.of_nat (length (links_from id t)) <= Z.of_nat (length (open_links tasks order t)).
Proof. intros Hid Hnin. pose proof (open_links_snoc tasks order id t Hid Hnin). lia. Qed.

Lemma open_links_nil tasks order t :
  Z.of_nat (length (open_links tasks order t)) = 0 ->
  forall l, l ∈ effectiveLinks t -> is_Some (tasks !! Pred l) -> Pred l ∈ order.
Proof.
  intros Hlen l Hl Hex. destruct (decide (Pred l ∈ order)) as [|Hnin]; [done|exfalso].
  assert (Hin : l ∈ open_links tasks order t) by (by apply list_elem_of_filter).
  destruct (open_links tasks order t); [by apply elem_of_nil in Hin|simpl in Hlen; lia].
Qed.

(** ** The maps built before the loop *)

Section Maps.
Context `{RangeOrder} (tasks : gmap string Task) (Hkeyed : well_keyed tasks).

Lemma link_exists_true (l : Link) : link_exists tasks l = true <-> is_Some (tasks !! Pred l).
Proof. unfold link_exists. apply bool_decide_eq_true. Qed.

Lemma count_links_lookup ind t k :
  is_Some (ind !! ID t) ->
  count_links tasks ind t !! k
  = if decide (k = ID t)
    then (fun z => z + Z.of_nat (length (open_links tasks [] t))) <$> ind !! k
    else ind !! k.
Proof.
  unfold count_links, open_links. revert ind.
  induction (effectiveLinks t) as [|l ls IH]; intros ind Hind; simpl.
  - case_decide; [|done].
    destruct (ind !! k); simpl; [f_equal; lia|done].
  - rewrite filter_cons. destruct (link_exists tasks l) eqn:El.
    + rewrite (decide_True (P := is_Some (tasks !! Pred l) /\ Pred l ∉ []))
        by (split; [by apply link_exists_true|set_solver]).
      rewrite IH by (rewrite lookup_insert_eq; eauto).
      destruct Hind as [z Hz]. case_decide; [|by rewrite lookup_insert_ne by congruence].
      subst k. unfold zget. rewrite lookup_insert_eq, Hz. simpl. f_equal. lia.
    + rewrite (decide_False (P := is_Some (tasks !! Pred l) /\ Pred l ∉ [])); [by apply IH|].
      intros [Hs _].
      apply link_exists_true in Hs. congruence.
Qed.

Lemma zeros_lookup (l : list (string * Task)) (acc : gmap string Z) k :
  foldl (fun ind kt => <[kt.1 := 0]> ind) acc l !! k
  = if decide (k ∈ l.*1) then Some 0 else acc !! k.
Proof.
  revert acc. induction l as [|[k' t] l IH]; intros acc.
  - case_decide as Hd; [by apply elem_of_nil in Hd|done].
  - simpl foldl. rewrite IH. simpl fmap.
    destruct (decide (k = k')) as [->|Hne].
    + rewrite lookup_insert_eq, (decide_True (P := k' ∈ k' :: _)) by constructor.
      by case_decide.
    + rewrite lookup_insert_ne by congruence.
      repeat case_decide; set_solver.
Qed.

Lemma list_find_key_None (l : list (string * Task)) k :
  k ∉ l.*1 -> list_find (fun kt => kt.1 = k) l = None.
Proof.
  intros Hk. apply list_find_None, Forall_forall. intros kt Hin <-.
  apply Hk, list_elem_of_fmap. by exists kt.
Qed.

Lemma count_all_lookup (l : list (string * Task)) (acc : gmap string Z) k :
  NoDup l.*1 ->
  (forall k' t, (k', t) ∈ l -> ID t = k' /\ is_Some (acc !! k')) ->
  foldl (fun ind kt => count_links tasks ind kt.2) acc l !! k
  = match list_find (fun kt => kt.1 = k) l with
    | Some (_, (_, t)) => (fun z => z + Z.of_nat (length (open_links tasks [] t))) <$> acc !! k
    | None => acc !! k
    end.
Proof.
  revert acc. induction l as [|[k' t] l IH]; intros acc Hnd Hin; simpl; [done|].
  apply NoDup_cons in Hnd as [Hk' Hnd].
  destruct (Hin k' t) as [HID Hacc]; [constructor|].
  assert (Hlk : forall j, count_links tasks acc t !! j
    = if decide (j = k') then (fun z => z + Z.of_nat (length (open_links tasks [] t))) <$> acc !! j
      else acc !! j) by (intros j; rewrite count_links_lookup, HID; [done|by rewrite HID]).
  rewrite IH; [|done|].
  - rewrite Hlk. destruct (decide (k' = k)) as [->|Hne].
    + rewrite decide_True by done.
      by rewrite list_find_key_None.
    + rewrite (decide_False (P := k = k')) by done.
      destruct (list_find (fun kt : string * Task => kt.1 = k) l) as [[? [? ?]]|]; simpl; done.
  - intros j u Hj. destruct (Hin j u) as [? ?]; [by constructor|]. split; [done|].
    rewrite Hlk. case_decide; [|done]. by apply fmap_is_Some.
Qed.

Lemma list_find_range site k :
  list_find (fun kt : string * Task => kt.1 = k) (range site tasks) = None /\ tasks !! k = None
  \/ exists i t, list_find (fun kt : string * Task => kt.1 = k) (range site tasks) = Some (i, (k, t))
                 /\ tasks !! k = Some t.
Proof.
  destruct (list_find _ _) as [[i [k' t]]|] eqn:E.
  - right. apply list_find_Some in E as (Hl & Hk & _). simpl in Hk. subst k'.
    exists i, t. split; [done|]. apply (elem_of_range site). by eapply list_elem_of_lookup_2.
  - left. split; [done|]. apply list_find_None in E. destruct (tasks !! k) as [t|] eqn:Ek; [|done].
    exfalso. rewrite Forall_forall in E. apply (E (k, t)); [|done]. by apply elem_of_range.
Qed.

(** The initial indegrees count the links that do not dangle. *)
Lemma topo_indegree_lookup k :
  topo_indegree tasks !! k
  = (fun t => Z.of_nat (length (open_links tasks [] t))) <$> tasks !! k.
Proof.
  unfold topo_indegree. rewrite count_all_lookup; [|auto with gopm|].
  - rewrite zeros_lookup. destruct (list_find_range 1 k) as [[-> Hk]|(i & t & -> & Hk)];
      rewrite Hk; case_decide as Hd; rewrite elem_of_range_keys, Hk in Hd; simpl; try done.
    exfalso. eauto.
  - intros k' t Hin. apply elem_of_range in Hin. split; [by apply Hkeyed|].
    rewrite zeros_lookup, decide_True; [eauto|]. apply elem_of_range_keys. eauto.
Qed.

Lemma out_links_occ (ls : list Link) s (out : gmap string (list string)) id p :
  is_Some (tasks !! p) ->
  occ id (foldl (fun out l => if link_exists tasks l
             then <[Pred l := (out !!! Pred l) ++ [s]]> out else out) out ls !!! p)
  = occ id (out !!! p) + if decide (s = id) then Z.of_nat (length (filter (fun l => Pred l = p) ls)) else 0.
Proof.
  intros Hp. revert out. induction ls as [|l ls IH]; intros out; simpl.
  - case_decide; simpl; lia.
  - rewrite IH, filter_cons. destruct (link_exists tasks l) eqn:El.
    + destruct (decide (Pred l = p)) as [->|Hne].
      * rewrite lookup_total_insert_eq, occ_app, occ_one. case_decide; simpl; lia.
      * rewrite lookup_total_insert_ne by done. done.
    + rewrite (decide_False (P := Pred l = p)); [done|]. intros <-. by apply link_exists_true in Hp; rewrite Hp in El.
Qed.

Lemma topo_out_fold_occ (l : list (string * Task)) (out : gmap string (list string)) id p :
  is_Some (tasks !! p) -> NoDup l.*1 -> (forall k t, (k, t) ∈ l -> ID t = k) ->
  occ id (foldl (fun out kt => foldl (fun out l => if link_exists tasks l
             then <[Pred l := (out !!! Pred l) ++ [ID kt.2]]> out else out)
             out (effectiveLinks kt.2)) out l !!! p)
  = occ id (out !!! p) + match list_find (fun kt => kt.1 = id) l with
                         | Some (_, (_, t)) => Z.of_nat (length (links_from p t))
                         | None => 0
                         end.
Proof.
  intros Hp. revert out. induction l as [|[k t] l IH]; intros out Hnd Hin; simpl; [lia|].
  apply NoDup_cons in Hnd as [Hk Hnd].
  rewrite IH by (done || (intros; apply Hin; by constructor)).
  rewrite out_links_occ by done.
  rewrite (Hin k t) by constructor. unfold links_from.
  destruct (decide (k = id)) as [->|Hne].
  - rewrite list_find_key_None by done. simpl. lia.
  - destruct (list_find _ l) as [[? [? ?]]|]; simpl; lia.
Qed.

(** [out[p]] holds each successor once per link from [p]. *)
Lemma topo_out_occ id p :
  is_Some (tasks !! p) ->
  occ id (topo_out tasks !!! p)
  = match tasks !! id with Some t => Z.of_nat (length (links_from p t)) | None => 0 end.
Proof.
  intros Hp. unfold topo_out. rewrite topo_out_fold_occ; [|done|auto with gopm|].
  - rewrite lookup_total_empty. destruct (list_find_range 2 id) as [[-> ->]|(i & t & -> & ->)]; done.
  - intros k t Hin. apply elem_of_range in Hin. by apply Hkeyed.
Qed.

End Maps.

(** ** One relaxation step *)

(** Folding [topo_relax] over [l] subtracts occurrences and makes ready
    exactly the tasks whose count reaches zero. *)
Lemma topo_relax_fold (l ready : list string) (ind : gmap string Z) :
  (forall k, occ k l <= zget ind k) ->
  exists new,
    let st := foldl topo_relax (ready, ind) l in
    st.1 ≡ₚ ready ++ new /\ NoDup new /\
    (forall k, zget st.2 k = zget ind k - occ k l) /\
    (forall k, k ∈ new <-> k ∈ l /\ zget st.2 k = 0).
Proof.
  induction l as [|x l IH] using rev_ind; intros Hle.
  - exists []. simpl. split_and!; [by rewrite app_nil_r|constructor| |set_solver].
    intros k. unfold occ. simpl. lia.
  - destruct IH as (new & Hperm & Hnd & Hind & Hnew).
    { intros k. specialize (Hle k). rewrite occ_app in Hle. pose proof (occ_nonneg k [x]). lia. }
    pose proof (Hle x) as Hx. rewrite occ_app, occ_one, decide_True in Hx by done.
    rewrite foldl_app. destruct (foldl topo_relax (ready, ind) l) as [r i]. simpl in *.
    assert (Hx0 : x ∉ new) by (intros Hin; apply Hnew in Hin as [_ ?]; rewrite Hind in *; lia).
    assert (Hind' : forall k, zget (<[x:=zget i x - 1]> i) k = zget ind k - occ k (l ++ [x])).
    { intros k. rewrite occ_app, occ_one. destruct (decide (x = k)) as [->|Hne].
      - rewrite zget_insert_eq, Hind. lia.
      - rewrite zget_insert_ne, Hind by done. lia. }
    assert (Hnew' : forall k, k ∈ new <-> k ∈ l /\ zget i k = 0) by done.
    destruct (Z.eqb_spec (zget i x - 1) 0) as [E|E].
    + exists (new ++ [x]). split_and!; [| |done|].
      * rewrite sort_strings_perm, Hperm. by rewrite app_assoc.
      * apply NoDup_app. split_and!; [done|set_solver|apply NoDup_singleton].
      * intros k. rewrite elem_of_app, list_elem_of_singleton, elem_of_app, list_elem_of_singleton, Hnew'.
        destruct (decide (k = x)) as [->|Hne].
        -- rewrite zget_insert_eq. naive_solver.
        -- rewrite zget_insert_ne by done. naive_solver.
    + exists new. split_and!; [done|done|done|].
      intros k. rewrite elem_of_app, list_elem_of_singleton, Hnew'.
      destruct (decide (k = x)) as [->|Hne].
      * rewrite zget_insert_eq. split; [|naive_solver].
        intros Hin. destruct Hx0. by apply Hnew'.
      * rewrite zget_insert_ne by done. naive_solver.
Qed.

(** ** The loop invariant *)

Section Loop.
Context `{RangeOrder} (tasks : gmap string Task) (Hkeyed : well_keyed tasks).

Record topo_inv (order ready : list string) (ind : gmap string Z) : Prop := {
  inv_nodup : NoDup (order ++ ready);
  inv_dom : forall k, k ∈ order ++ ready -> is_Some (tasks !! k);
  inv_count : forall k, zget ind k = match tasks !! k with
    | Some t => Z.of_nat (length (open_links tasks order t))
    | None => 0
    end;
  inv_zero : forall k, is_Some (tasks !! k) -> k ∈ order ++ ready <-> zget ind k = 0;
  inv_first : preds_first tasks order
}.

Lemma preds_first_snoc order id t :
  tasks !! id = Some t -> preds_first tasks order ->
  (forall l, l ∈ effectiveLinks t -> is_Some (tasks !! Pred l) -> Pred l ∈ order) ->
  preds_first tasks (order ++ [id]).
Proof.
  intros Hid Hpf Hl a x b p Heq Hdep.
  destruct b as [|y b _] using rev_ind.
  - apply app_inj_tail in Heq as [<- <-].
    destruct Hdep as (t' & l & Ht' & Hin & <- & Hex). simplify_eq. eauto.
  - rewrite app_comm_cons, app_assoc in Heq. apply app_inj_tail in Heq as [-> _]. eauto.
Qed.

Lemma topo_step order ready ind id :
  topo_inv order (id :: ready) ind ->
  let st := foldl topo_relax (ready, ind) (sort_strings (topo_out tasks !!! id)) in
  topo_inv (order ++ [id]) st.1 st.2.
Proof.
  intros [Hnd Hdom Hcnt Hzero Hpf].
  assert (Hid : is_Some (tasks !! id)) by (apply Hdom; set_solver).
  assert (Hnin : id ∉ order) by (intros ?; apply NoDup_app in Hnd as (_ & Hd & _); apply (Hd id); set_solver).
  set (L := sort_strings (topo_out tasks !!! id)).
  assert (HL : forall k, occ k L = match tasks !! k with
      | Some t => Z.of_nat (length (links_from id t)) | None => 0 end).
  { intros k. unfold L. rewrite (occ_perm _ _ _ (sort_strings_perm _)).
    by apply topo_out_occ. }
  destruct (topo_relax_fold L ready ind) as (new & Hperm & Hnd' & Hind & Hnew).
  { intros k. rewrite HL, Hcnt. destruct (tasks !! k) as [t|]; [|lia].
    by apply links_from_le_open. }
  fold L. destruct (foldl topo_relax (ready, ind) L) as [r i]. simpl in *.
  assert (Hmem : forall k, k ∈ (order ++ [id]) ++ r <-> k ∈ order ++ id :: ready \/ k ∈ new)
    by (intros k; rewrite Hperm; set_solver).
  assert (Hnew_pos : forall k, k ∈ new -> 0 < zget ind k).
  { intros k Hk. apply Hnew in Hk as [Hk H0]. apply occ_pos in Hk. rewrite Hind in H0. lia. }
  assert (Hcnt' : forall k, zget i k = match tasks !! k with
      | Some t => Z.of_nat (length (open_links tasks (order ++ [id]) t)) | None => 0 end).
  { intros k. rewrite Hind, Hcnt, HL. destruct (tasks !! k) as [t|]; [|lia].
    by rewrite open_links_snoc. }
  assert (Hin_tasks : forall k, k ∈ new -> is_Some (tasks !! k)).
  { intros k Hk. apply Hnew_pos in Hk. rewrite Hcnt in Hk. destruct (tasks !! k); [eauto|lia]. }
  split; [..|done| |].
  - rewrite Hperm, <- app_assoc. simpl.
    change (id :: ready ++ new) with ((id :: ready) ++ new). rewrite app_assoc.
    apply NoDup_app. split_and!; [done| |done].
    intros k Hk Hk'. specialize (Hnew_pos k Hk').
    apply (Hzero k) in Hk; [lia|by apply Hin_tasks].
  - intros k Hk. apply Hmem in Hk as [Hk|Hk]; [by apply Hdom|by apply Hin_tasks].
  - intros k Hk. rewrite Hmem, (Hzero k Hk), Hnew, Hind.
    pose proof (occ_nonneg k L). pose proof (occ_pos k L).
    assert (H2 : 0 <= zget i k) by (rewrite Hcnt'; destruct (tasks !! k); lia).
    assert (0 <= zget ind k) by (rewrite Hcnt; destruct (tasks !! k); lia).
    rewrite (Hind k) in H2. destruct (decide (k ∈ L)); [intuition lia|].
    assert (occ k L = 0) by (destruct (decide (0 < occ k L)); [tauto|lia]). intuition lia.
  - destruct Hid as [t Ht]. eapply preds_first_snoc; [done..|].
    apply open_links_nil. pose proof (Hcnt id) as E. rewrite Ht in E. rewrite <- E.
    apply Hzero; [eauto|set_solver].
Qed.

Lemma NoDup_dom_length (order : list string) :
  NoDup order -> (forall k, k ∈ order -> is_Some (tasks !! k)) -> (length order <= size tasks)%nat.
Proof.
  intros Hnd Hdom. rewrite <- size_dom, <- (size_list_to_set (C := gset string) order Hnd).
  apply subseteq_size. intros k Hk. apply elem_of_dom, Hdom. set_solver.
Qed.

(** The fuel is enough: the loop stops with an empty ready list. *)
Lemma topo_loop_total fuel order ready ind :
  topo_inv order ready ind -> (size tasks < length order + fuel)%nat ->
  exists order' ind', topo_loop fuel (topo_out tasks) ready ind order = Some order'
    /\ topo_inv order' [] ind'.
Proof.
  revert order ready ind. induction fuel as [|fuel IH]; intros order ready ind Hinv Hfuel.
  - exfalso. destruct Hinv as [Hnd Hdom _ _ _]. apply NoDup_app in Hnd as (Hnd & _ & _).
    pose proof (NoDup_dom_length order Hnd ltac:(intros k Hk; apply Hdom; set_solver)). lia.
  - destruct ready as [|id ready]; simpl; [by eauto|].
    pose proof (topo_step _ _ _ _ Hinv) as Hstep. simpl in Hstep.
    destruct (foldl topo_relax (ready, ind) (sort_strings (topo_out tasks !!! id))) as [r i].
    apply IH; [done|]. rewrite length_app. simpl. lia.
Qed.

Lemma topo_indegree_size : size (topo_indegree tasks) = size tasks.
Proof.
  rewrite <- !size_dom. f_equal. apply set_eq. intros k.
  rewrite !elem_of_dom, topo_indegree_lookup by done. by rewrite fmap_is_Some.
Qed.

Lemma topo_init :
  topo_inv [] (sort_strings (filter (fun k => zget (topo_indegree tasks) k = 0)
                               (range 3 (topo_indegree tasks)).*1)) (topo_indegree tasks).
Proof.
  set (ind := topo_indegree tasks).
  assert (Hk : forall k, k ∈ sort_strings (filter (fun k => zget ind k = 0) (range 3 ind).*1)
            <-> zget ind k = 0 /\ is_Some (tasks !! k)).
  { intros k. rewrite elem_of_sort_strings, list_elem_of_filter, elem_of_range_keys.
    unfold ind at 2. rewrite topo_indegree_lookup by done. by rewrite fmap_is_Some. }
  split; simpl.
  - rewrite sort_strings_perm. apply NoDup_filter. auto with gopm.
  - intros k Hin. by apply Hk in Hin as [_ ?].
  - intros k. unfold ind, zget. rewrite topo_indegree_lookup by done.
    by destruct (tasks !! k).
  - intros k Hs. rewrite Hk. tauto.
  - intros [|? ?] id b p Heq; discriminate Heq.
Qed.

(** What the loop computes, before the length check. *)
Lemma topo_run :
  exists order ind,
    topo_loop (S (size (topo_indegree tasks))) (topo_out tasks)
      (sort_strings (filter (fun k => zget (topo_indegree tasks) k = 0)
                       (range 3 (topo_indegree tasks)).*1)) (topo_indegree tasks) [] = Some order
    /\ topo_inv order [] ind
    /\ topoSort tasks = if Nat.eqb (length order) (size tasks) then Some order else None.
Proof.
  destruct (topo_loop_total (S (size (topo_indegree tasks))) _ _ _ topo_init)
    as (order & ind & Hrun & Hinv); [rewrite topo_indegree_size; simpl; lia|].
  exists order, ind. split_and!; [done|done|]. unfold topoSort. by rewrite Hrun.
Qed.

End Loop.

(** ** Theorems *)

Section Theorems.
Context `{RangeOrder} (tasks : gmap string Task) (Hkeyed : well_keyed tasks).

Lemma topoSort_inv order :
  topoSort tasks = Some order ->
  NoDup order /\ (forall k, k ∈ order <-> is_Some (tasks !! k)) /\ preds_first tasks order.
Proof.
  destruct (topo_run tasks Hkeyed) as (order' & ind & _ & [Hnd Hdom _ _ Hpf] & ->).
  destruct (Nat.eqb_spec (length order') (size tasks)) as [Hlen|]; [|done]. intros [= <-].
  rewrite app_nil_r in *. split_and!; [done| |done].
  intros k. split; [by apply Hdom|]. intros Hk.
  assert (Hsub : (list_to_set order' : gset string) = dom tasks).
  { apply set_subseteq_size_eq; [intros j; rewrite elem_of_list_to_set, elem_of_dom; apply Hdom|].
    rewrite size_dom, size_list_to_set by done. lia. }
  apply (elem_of_list_to_set (C := gset string)). rewrite Hsub. by apply elem_of_dom.
Qed.

(** An order with predecessors first rules cycles out. *)
Lemma preds_first_acyclic order :
  NoDup order -> (forall k, is_Some (tasks !! k) -> k ∈ order) ->
  preds_first tasks order -> acyclic tasks.
Proof.
  intros Hnd Hall Hpf.
  assert (Hbefore : forall x y, tc (depends tasks) x y ->
            forall a b, order = a ++ y :: b -> x ∈ a).
  { induction 1 as [x y Hxy|x z y Hxz _ IH]; intros a b Heq; [by eapply Hpf|].
    specialize (IH a b Heq). apply list_elem_of_split in IH as (a1 & a2 & ->).
    assert (x ∈ a1) by (eapply (Hpf a1 z (a2 ++ y :: b)); [by rewrite Heq, <- app_assoc|done]).
    set_solver. }
  intros x Hx.
  assert (Hex : is_Some (tasks !! x)).
  { assert (Hend : forall u v, tc (depends tasks) u v -> is_Some (tasks !! v)).
    { induction 1 as [u v (t & _ & Ht & _)|u w v _ _ IH]; eauto. }
    eauto. }
  destruct (list_elem_of_split order x (Hall x Hex)) as (a & b & Heq).
  specialize (Hbefore x x Hx a b Heq). subst order.
  apply NoDup_app in Hnd as (_ & Hd & _). apply (Hd x Hbefore). constructor.
Qed.

(** If the loop stops early, every task left waits for another one left. *)
Lemma stuck_not_acyclic order ind :
  topo_inv tasks order [] ind -> length order <> size tasks -> ~ acyclic tasks.
Proof.
  intros [Hnd Hdom Hcnt Hzero _] Hlen Hacyc. rewrite app_nil_r in *.
  set (R := fun s p => depends tasks p s /\ p ∉ order).
  assert (Hwait : forall s, is_Some (tasks !! s) -> s ∉ order -> exists p, R s p).
  { intros s [t Ht] Hs. specialize (Hcnt s). rewrite Ht in Hcnt.
    destruct (open_links tasks order t) as [|l ls] eqn:E.
    - exfalso. apply Hs, Hzero; [eauto|]. by rewrite Hcnt.
    - assert (Hl : l ∈ open_links tasks order t) by (rewrite E; constructor).
      apply list_elem_of_filter in Hl as [[? ?] ?]. exists (Pred l). split; [|done].
      by exists t, l. }
  assert (Hirr : forall x, ~ tc R x x).
  { intros x Hx. apply (Hacyc x).
    assert (Hflip : forall u v, tc R u v -> tc (depends tasks) v u).
    { induction 1 as [u v [? _]|u w v [? _] _ IH]; [by constructor|].
      eapply tc_r; [exact IH|done]. }
    by apply Hflip. }
  assert (Hsn : forall x, sn R x).
  { intros x. apply (tc_finite_sn x Hirr). exists (elements (dom tasks)).
    - intros y Hy. apply elem_of_elements, elem_of_dom.
      assert (Hend : forall u v, tc R u v -> is_Some (tasks !! v)).
      { induction 1 as [u v [(t & l & _ & _ & _ & Hp) _]|]; eauto. }
      eauto. }
  assert (Hall : forall x, is_Some (tasks !! x) -> x ∈ order).
  { intros x. induction (Hsn x) as [x _ IH]. intros Hx.
    destruct (decide (x ∈ order)) as [|Hno]; [done|].
    destruct (Hwait x Hx Hno) as [p Hp]. destruct Hp as [Hd Hp']. exfalso. apply Hp'.
    apply IH; [by split|]. by destruct Hd as (t & l & _ & _ & _ & ?). }
  apply Hlen. rewrite <- size_dom, <- (size_list_to_set (C := gset string) order Hnd).
  f_equal. apply set_eq. intros k. rewrite elem_of_list_to_set, elem_of_dom.
  split; [apply Hdom|apply Hall].
Qed.

Lemma topoSort_acyclic : is_Some (topoSort tasks) <-> acyclic tasks.
Proof.
  split.
  - intros [order Ho]. apply topoSort_inv in Ho as (Hnd & Hall & Hpf).
    eapply preds_first_acyclic; [done| |done]. intros k. apply Hall.
  - intros Hac. destruct (topo_run tasks Hkeyed) as (order & ind & _ & Hinv & ->).
    destruct (Nat.eqb_spec (length order) (size tasks)); [eauto|].
    exfalso. by eapply stuck_not_acyclic.
Qed.

End Theorems.

(** ** Independence from map iteration *)

Lemma occ_eq_perm l1 : forall l2, (forall x, occ x l1 = occ x l2) -> l1 ≡ₚ l2.
Proof.
  induction l1 as [|y l1 IH]; intros l2 Hocc.
  - destruct l2 as [|z l2]; [done|]. specialize (Hocc z).
    assert (0 < occ z (z :: l2)) by (apply occ_pos; constructor). unfold occ in *. simpl in *. lia.
  - assert (Hy : y ∈ l2) by (apply occ_pos; rewrite <- Hocc; apply occ_pos; constructor).
    apply list_elem_of_split in Hy as (a & b & ->).
    rewrite <- Permutation_middle. constructor. apply IH. intros x.
    specialize (Hocc x). change (y :: l1) with ([y] ++ l1) in Hocc.
    change (y :: b) with ([y] ++ b) in Hocc. rewrite !occ_app in *. lia.
Qed.

Lemma topo_out_missing `{RangeOrder} (tasks : gmap string Task) p :
  tasks !! p = None -> topo_out tasks !!! p = [].
Proof.
  intros Hp. unfold topo_out.
  assert (Hgen : forall (l : list (string * Task)) (out : gmap string (list string)),
    out !!! p = [] ->
    foldl (fun out kt => foldl (fun out l => if link_exists tasks l
             then <[Pred l := (out !!! Pred l) ++ [ID kt.2]]> out else out)
             out (effectiveLinks kt.2)) out l !!! p = []).
  { induction l as [|[k t] l IH]; intros out Hout; [done|]. simpl. apply IH. clear IH.
    revert out Hout. induction (effectiveLinks t) as [|lk ls IH]; intros out Hout; [done|].
    simpl. apply IH. destruct (link_exists tasks lk) eqn:El; [|done].
    apply link_exists_true in El as [u Hu].
    rewrite lookup_total_insert_ne; [done|]. intros Heq. congruence. }
  apply Hgen. by rewrite lookup_total_empty.
Qed.

Lemma topo_loop_out_ext (out1 out2 : gmap string (list string)) fuel :
  (forall id, sort_strings (out1 !!! id) = sort_strings (out2 !!! id)) ->
  forall ready ind order,
    topo_loop fuel out1 ready ind order = topo_loop fuel out2 ready ind order.
Proof.
  intros Hout. induction fuel as [|fuel IH]; intros ready ind order; [done|].
  destruct ready as [|id ready]; [done|]. simpl. rewrite Hout.
  destruct (foldl topo_relax (ready, ind) (sort_strings (out2 !!! id))). apply IH.
Qed.

Lemma topoSort_range_ext (R1 R2 : RangeOrder) (tasks : gmap string Task) :
  well_keyed tasks -> @topoSort R1 tasks = @topoSort R2 tasks.
Proof.
  intros Hk.
  assert (Hind : @topo_indegree R1 tasks = @topo_indegree R2 tasks)
    by (apply map_eq; intros k; by rewrite !topo_indegree_lookup).
  unfold topoSort. rewrite Hind.
  rewrite (topo_loop_out_ext (@topo_out R1 tasks) (@topo_out R2 tasks)).
  - rewrite (sort_strings_unique _ (filter (fun k => zget (@topo_indegree R2 tasks) k = 0)
      (@range R2 _ 3 (@topo_indegree R2 tasks)).*1)); [done|].
    by rewrite (@range_perm R1), (@range_perm R2).
  - intros id. apply sort_strings_unique, occ_eq_perm. intros x.
    destruct (tasks !! id) as [t|] eqn:Hid.
    + rewrite !topo_out_occ; by eauto.
    + by rewrite !topo_out_missing.
Qed.

(** * Properties *)

(** When topoSort succeeds, its order lists every task exactly once, and
    every task after all the tasks its links name. *)
Theorem topoSort_order_correct `{RangeOrder} (tasks : gmap string Task) order :
  well_keyed tasks -> topoSort tasks = Some order ->
  NoDup order /\ (forall k, k ∈ order <-> is_Some (tasks !! k)) /\ preds_first tasks order.
Proof. intros Hk. by apply topoSort_inv. Qed.

(** Kahn's loop never runs out of the fuel it is given: topoSort returns an
    order on every acyclic graph, and reports a cycle on every other. *)
Theorem topoSort_complete `{RangeOrder} (tasks : gmap string Task) :
  well_keyed tasks -> is_Some (topoSort tasks) <-> acyclic tasks.
Proof. apply topoSort_acyclic. Qed.

(** topoSort is deterministic: the order does not depend on the order in
    which Go happens to iterate its maps. *)
Theorem topoSort_deterministic (R1 R2 : RangeOrder) (tasks : gmap string Task) :
  well_keyed tasks -> @topoSort R1 tasks = @topoSort R2 tasks.
Proof. apply topoSort_range_ext. Qed.

(** ** Witnesses *)

(** Design, then build with a two-day lag, then ship; docs in parallel. *)
Definition demo_tasks : gmap string Task :=
  task_map [ new_task "design" 3 [];
             new_task "build" 5 [mkLink "design" "FS" (f_of_Z 2)];
             new_task "docs" 4 [mkLink "design" "SS" fone];
             new_task "ship" 1 [mkLink "build" "FS" fzero; mkLink "docs" "FF" fzero] ].

Lemma demo_keyed : well_keyed demo_tasks.
Proof. by_decide. Qed.

Lemma topoSort_order_correct_witness :
  preds_first demo_tasks ["design"; "build"; "docs"; "ship"].
Proof.
  apply (@topoSort_order_correct key_order demo_tasks); [exact demo_keyed|].
  vm_compute. reflexivity.
Defined.

Lemma topoSort_complete_witness : acyclic demo_tasks.
Proof.
  apply (@topoSort_complete key_order demo_tasks demo_keyed). vm_compute. eexists. reflexivity.
Defined.

Lemma topoSort_deterministic_witness :
  @topoSort key_order demo_tasks = @topoSort reverse_order demo_tasks.
Proof. apply topoSort_deterministic. exact demo_keyed. Defined.
