(* ===== verification/SchedulerCPM.v ===== *)
(** * What CalculateCPM computes (kernel/scheduler.go)

    The passes visit every task once, after the tasks they read, so the dates
    of the returned map solve the recurrences of the method over that same
    map.  From the recurrences follow the statements a planner relies on: no
    link is violated, no task finishes late, criticality is float below the
    tolerance. *)

From S2P Require Import Prelude GoFloat Scheduler SchedulerTopo.

Local Open Scope Z_scope.

(** ** Visiting in dependency order solves the recurrence *)

Lemma visit_all_spec (upd : gmap string Task -> Task -> Task) (deps : Task -> list string)
    (order : list string) (m : gmap string Task) :
  NoDup order -> (forall id, id ∈ order -> is_Some (m !! id)) ->
  (forall m1 m2 t, (forall k, k ∈ deps t -> m1 !! k = m2 !! k) -> upd m1 t = upd m2 t) ->
  (forall a id b t, order = a ++ id :: b -> m !! id = Some t -> forall k, k ∈ deps t -> k ∉ id :: b) ->
  exists m', visit_all upd order m = Some m'
    /\ (forall k, k ∉ order -> m' !! k = m !! k)
    /\ (forall id t, id ∈ order -> m !! id = Some t -> m' !! id = Some (upd m' t)).
Proof.
  intros Hnd Hdom Hloc. revert m Hdom. induction order as [|id order IH]; intros m Hdom Hdeps; simpl.
  - exists m. split_and!; [done|done|]. intros ? ? Hin. by apply elem_of_nil in Hin.
  - apply NoDup_cons in Hnd as [Hid Hnd].
    destruct (Hdom id) as [t Ht]; [constructor|]. unfold visit. rewrite Ht.
    set (m1 := <[id:=upd m t]> m).
    destruct (IH Hnd m1) as (m' & Hrun & Hout & Hin).
    { intros k Hk. unfold m1. rewrite lookup_insert_ne by set_solver. apply Hdom. by constructor. }
    { intros a k b u -> Hu j Hj. unfold m1 in Hu. rewrite lookup_insert_ne in Hu by set_solver.
      by apply (Hdeps (id :: a) k b u). }
    exists m'. split_and!; [done| |].
    + intros k Hk. rewrite Hout by set_solver. unfold m1. by rewrite lookup_insert_ne by set_solver.
    + intros k u Hk Hu. apply elem_of_cons in Hk as [->|Hk].
      * rewrite Hu in Ht. simplify_eq. rewrite Hout by done. unfold m1. rewrite lookup_insert_eq.
        f_equal. apply Hloc. intros j Hj.
        assert (Hj' : j ∉ id :: order) by (by apply (Hdeps [] id order t)).
        rewrite Hout by set_solver. unfold m1. by rewrite lookup_insert_ne by set_solver.
      * apply Hin; [done|]. unfold m1. by rewrite lookup_insert_ne by set_solver.
Qed.

(** ** The fields each step leaves alone *)

(** The inputs of the method: what a task asks for, as against its dates. *)
Definition same_input (t u : Task) : Prop :=
  ID t = ID u /\ Duration t = Duration u /\ effectiveLinks t = effectiveLinks u /\
  Constraint t = Constraint u /\ ConstraintDay t = ConstraintDay u /\
  ConstraintArmed t = ConstraintArmed u.

Lemma forward_task_input m t : same_input (forward_task m t) t.
Proof. unfold forward_task. by destruct (forward_constraint t _). Qed.

Lemma backward_task_input pf ss m t : same_input (backward_task pf ss m t) t.
Proof. unfold backward_task. by destruct (backward_constraint t _). Qed.

Lemma backward_task_early pf ss m t :
  ES (backward_task pf ss m t) = ES t /\ EF (backward_task pf ss m t) = EF t.
Proof. unfold backward_task. by destruct (backward_constraint t _). Qed.

Lemma backward_task_fields pf ss m t :
  let u := backward_task pf ss m t in
  LF u = (backward_constraint t (backward_finish pf (ss !!! ID t) m t)).1 /\
  LS u = LF u ⊖ Duration t /\ Float u = LS u ⊖ ES t /\ IsCritical u = (Float u <. f_1em9).
Proof. simpl. unfold backward_task. by destruct (backward_constraint t _). Qed.

Lemma clamp_progress_fields t :
  same_input (clamp_progress t) t /\ ES (clamp_progress t) = ES t /\ EF (clamp_progress t) = EF t
  /\ LS (clamp_progress t) = LS t /\ LF (clamp_progress t) = LF t /\ Float (clamp_progress t) = Float t
  /\ IsCritical (clamp_progress t) = IsCritical t.
Proof. unfold clamp_progress. by repeat case_match. Qed.

Lemma alap_task_input t : same_input (alap_task t) t.
Proof. unfold alap_task. by case_match. Qed.

Lemma alap_task_other t : Constraint t <> AsLateAsPossible -> alap_task t = t.
Proof. intros Hne. unfold alap_task. by destruct (String.eqb_spec (Constraint t) AsLateAsPossible). Qed.

Lemma same_input_trans t u v : same_input t u -> same_input u v -> same_input t v.
Proof. unfold same_input. intuition congruence. Qed.

(** ** Successor links *)

Section Successors.
Context `{RangeOrder} (tasks : gmap string Task).

Lemma succ_links_elem (k : string) (ls : list Link) (acc : gmap string (list succLink)) p sl :
  sl ∈ foldl (fun successors l => if link_exists tasks l
             then <[Pred l := (successors !!! Pred l) ++ [mkSuccLink k (LType l) (Lag l)]]> successors
             else successors) acc ls !!! p
  <-> sl ∈ acc !!! p \/ exists l, l ∈ ls /\ Pred l = p /\ is_Some (tasks !! p)
                               /\ sl = mkSuccLink k (LType l) (Lag l).
Proof.
  revert acc. induction ls as [|l ls IH]; intros acc; simpl.
  - split; [by left|]. intros [?|(l & Hl & _)]; [done|by apply elem_of_nil in Hl].
  - rewrite IH. setoid_rewrite elem_of_cons. destruct (link_exists tasks l) eqn:El.
    + apply link_exists_true in El. destruct (decide (Pred l = p)) as [<-|Hne].
      * rewrite lookup_total_insert_eq, elem_of_app, list_elem_of_singleton. naive_solver.
      * rewrite lookup_total_insert_ne by done. naive_solver.
    + assert (Hn : ~ is_Some (tasks !! Pred l)) by (rewrite <- link_exists_true, El; done).
      naive_solver.
Qed.

(** [successors[p]] is exactly the existing links that leave [p]. *)
Lemma cpm_successors_elem p sl :
  sl ∈ cpm_successors tasks !!! p
  <-> exists t l, tasks !! succ sl = Some t /\ l ∈ effectiveLinks t /\ Pred l = p
        /\ is_Some (tasks !! p) /\ typ sl = LType l /\ lag sl = Lag l.
Proof.
  unfold cpm_successors.
  assert (Hgen : forall (l : list (string * Task)) (acc : gmap string (list succLink)),
    sl ∈ foldl (fun successors kt => foldl (fun successors l => if link_exists tasks l
             then <[Pred l := (successors !!! Pred l) ++ [mkSuccLink kt.1 (LType l) (Lag l)]]> successors
             else successors) successors (effectiveLinks kt.2)) acc l !!! p
    <-> sl ∈ acc !!! p \/ exists kt l', kt ∈ l /\ l' ∈ effectiveLinks kt.2 /\ Pred l' = p
          /\ is_Some (tasks !! p) /\ sl = mkSuccLink kt.1 (LType l') (Lag l')).
  { induction l as [|kt l IH]; intros acc; simpl.
    - split; [by left|]. intros [?|(kt & ? & Hkt & _)]; [done|by apply elem_of_nil in Hkt].
    - rewrite IH, succ_links_elem. setoid_rewrite elem_of_cons. naive_solver. }
  rewrite Hgen, lookup_total_empty. split.
  - intros [Hn|([k t] & l & Hin & ? & ? & ? & ->)]; [by apply elem_of_nil in Hn|].
    apply elem_of_range in Hin. by exists t, l.
  - intros (t & l & Ht & ? & ? & ? & Htyp & Hlag). right. exists (succ sl, t), l.
    split_and!; [by apply elem_of_range|done..|]. destruct sl. simpl in *. by subst.
Qed.

End Successors.

(** ** The two passes *)

Section Passes.
Context `{RangeOrder} (tasks : gmap string Task) (Hkeyed : well_keyed tasks)
  (order : list string) (Htopo : topoSort tasks = Some order).

Lemma order_facts :
  NoDup order /\ (forall k, k ∈ order <-> is_Some (tasks !! k)) /\ preds_first tasks order.
Proof. by apply topoSort_inv. Qed.

Lemma forward_start_local m1 m2 t :
  (forall k, k ∈ Pred <$> effectiveLinks t -> m1 !! k = m2 !! k) ->
  forward_start m1 t = forward_start m2 t.
Proof.
  unfold forward_start. generalize fzero.
  induction (effectiveLinks t) as [|l ls IH]; intros es Heq; simpl; [done|].
  rewrite (Heq (Pred l)) by (simpl; constructor). apply IH. intros k Hk. apply Heq. by constructor.
Qed.

Lemma forward_task_local m1 m2 t :
  (forall k, k ∈ Pred <$> effectiveLinks t -> m1 !! k = m2 !! k) ->
  forward_task m1 t = forward_task m2 t.
Proof. intros Heq. unfold forward_task. by rewrite (forward_start_local m1 m2 t Heq). Qed.

Lemma forward_pass_spec :
  exists m1, forward_pass order tasks = Some m1
    /\ forall k, m1 !! k = (forward_task m1) <$> tasks !! k.
Proof.
  destruct order_facts as (Hnd & Hall & Hpf).
  destruct (visit_all_spec forward_task (fun t => Pred <$> effectiveLinks t) order tasks)
    as (m1 & Hrun & Hout & Hin); [done|by intros; apply Hall|apply forward_task_local| |].
  - intros a id b t Heq Ht k Hk Hbad.
    apply list_elem_of_fmap in Hk as (l & -> & Hl).
    assert (Hex : is_Some (tasks !! Pred l))
      by (apply Hall; rewrite Heq; apply elem_of_app; by right).
    assert (Ha : Pred l ∈ a) by (eapply Hpf; [done|]; by exists t, l).
    rewrite Heq in Hnd. apply NoDup_app in Hnd as (_ & Hd & _). by apply (Hd _ Ha).
  - exists m1. split; [done|]. intros k. destruct (tasks !! k) as [t|] eqn:Ek.
    + apply Hin; [apply Hall; eauto|done].
    + rewrite Hout; [done|]. rewrite Hall, Ek. by intros [? ?].
Qed.

Lemma backward_task_local pf ss m1 m2 t :
  (forall k, k ∈ succ <$> (ss !!! ID t : list succLink) -> m1 !! k = m2 !! k) ->
  backward_task pf ss m1 t = backward_task pf ss m2 t.
Proof.
  intros Heq. unfold backward_task.
  assert (Hf : backward_finish pf (ss !!! ID t) m1 t = backward_finish pf (ss !!! ID t) m2 t); [|by rewrite Hf].
  unfold backward_finish. revert pf. induction (ss !!! ID t) as [|sl sls IH]; intros pf; simpl; [done|].
  rewrite (Heq (succ sl)) by (simpl; constructor). apply IH. intros k Hk. apply Heq. by constructor.
Qed.

Lemma effectiveLinks_depends m1 p k t l :
  (forall k, m1 !! k = (forward_task m1) <$> tasks !! k) ->
  m1 !! k = Some t -> l ∈ effectiveLinks t -> Pred l = p -> is_Some (m1 !! p) ->
  depends tasks p k.
Proof.
  intros Hm1 Hk Hl Hp Hex. rewrite Hm1 in Hk, Hex.
  destruct (tasks !! k) as [t0|] eqn:E; [|done]. simplify_eq/=.
  exists t0, l. split_and!; [done| |done|by apply fmap_is_Some in Hex].
  by destruct (forward_task_input m1 t0) as (_ & _ & <- & _).
Qed.

Lemma backward_pass_spec m1 pf :
  (forall k, m1 !! k = (forward_task m1) <$> tasks !! k) ->
  exists m2, backward_pass pf (cpm_successors m1) order m1 = Some m2
    /\ forall k, m2 !! k = (backward_task pf (cpm_successors m1) m2) <$> m1 !! k.
Proof.
  intros Hm1. destruct order_facts as (Hnd & Hall & Hpf).
  assert (Hsome : forall k, is_Some (m1 !! k) <-> is_Some (tasks !! k))
    by (intros k; rewrite Hm1; apply fmap_is_Some).
  destruct (visit_all_spec (backward_task pf (cpm_successors m1))
      (fun t => succ <$> (cpm_successors m1 !!! ID t)) (reverse order) m1)
    as (m2 & Hrun & Hout & Hin);
    [by rewrite reverse_Permutation|intros id Hid; rewrite elem_of_reverse in Hid; by apply Hsome, Hall
    |apply backward_task_local| |].
  - intros a id b t Heq Ht k Hk Hbad.
    apply list_elem_of_fmap in Hk as (sl & -> & Hsl).
    apply cpm_successors_elem in Hsl as (u & l & Hu & Hl & Hp & Hex & _).
    assert (HID : ID t = id).
    { rewrite Hm1 in Ht. destruct (tasks !! id) as [t0|] eqn:E; [|done]. simplify_eq/=.
      destruct (forward_task_input m1 t0) as (-> & _). by apply Hkeyed. }
    rewrite HID in *.
    assert (Hdep : depends tasks id (succ sl)) by (eapply effectiveLinks_depends; eauto).
    assert (Horder : order = reverse b ++ id :: reverse a).
    { rewrite <- (reverse_involutive order), Heq, reverse_app, reverse_cons, <- app_assoc. done. }
    apply elem_of_cons in Hbad as [Hbad|Hbad].
    + rewrite Hbad in Hdep. assert (Hin : id ∈ reverse b) by (by eapply Hpf).
      rewrite Horder in Hnd. apply NoDup_app in Hnd as (_ & Hd & _). apply (Hd id Hin). constructor.
    + rewrite <- elem_of_reverse in Hbad. apply list_elem_of_split in Hbad as (b1 & b2 & Hb).
      assert (Hin : id ∈ b1) by (eapply (Hpf b1 (succ sl)); [|done]; by rewrite Horder, Hb, <- app_assoc).
      rewrite Horder in Hnd. apply NoDup_app in Hnd as (_ & Hd & _). apply (Hd id); [|constructor].
      rewrite Hb. set_solver.
  - exists m2. split; [done|]. intros k. destruct (m1 !! k) as [t|] eqn:Ek.
    + apply Hin; [rewrite elem_of_reverse; apply Hall, Hsome; eauto|done].
    + rewrite Hout; [done|]. rewrite elem_of_reverse, Hall, <- Hsome, Ek. by intros [? ?].
Qed.

End Passes.

(** ** The running maxima and minima of the passes *)

(** The candidates the links into [t] offer, dangling links skipped. *)
Definition forward_candidates (m : gmap string Task) (t : Task) : list f64 :=
  omap (fun l => (fun p => forward_candidate p t l) <$> m !! Pred l) (effectiveLinks t).

Definition backward_candidates (sls : list succLink) (m : gmap string Task) (t : Task) : list f64 :=
  omap (fun sl => (fun s => backward_candidate s t sl) <$> m !! succ sl) sls.

Lemma forward_start_fold m t :
  forward_start m t = foldl fmax_step fzero (forward_candidates m t).
Proof.
  unfold forward_start, forward_candidates. generalize fzero.
  induction (effectiveLinks t) as [|l ls IH]; intros es; [done|]. simpl.
  rewrite IH. by destruct (m !! Pred l).
Qed.

Lemma backward_finish_fold pf sls m t :
  backward_finish pf sls m t = foldl fmin_step pf (backward_candidates sls m t).
Proof.
  unfold backward_finish, backward_candidates. revert pf.
  induction sls as [|sl sls IH]; intros lf; [done|]. simpl.
  rewrite IH. by destruct (m !! succ sl).
Qed.

Lemma project_finish_fold `{RangeOrder} m :
  project_finish m = foldl fmax_step fzero ((fun kt => EF kt.2) <$> range 4 m).
Proof.
  unfold project_finish. generalize fzero.
  induction (range 4 m) as [|kt l IH]; intros a; [done|]. simpl. by rewrite IH.
Qed.

(** The project finish is the largest early finish, at least zero. *)
Definition is_project_finish (m : gmap string Task) (pf : f64) : Prop :=
  is_nan pf = false /\ pf <. fzero = false /\
  (forall k t, m !! k = Some t -> pf <. EF t = false) /\
  (pf = fzero \/ exists k t, m !! k = Some t /\ EF t = pf).

Lemma project_finish_spec `{RangeOrder} m : is_project_finish m (project_finish m).
Proof.
  rewrite project_finish_fold.
  destruct (fmax_fold ((fun kt => EF kt.2) <$> range 4 m) fzero eq_refl) as (Hn & Hz & Hge & Hin).
  split_and!; [done|done| |].
  - intros k t Hk. apply Hge, list_elem_of_fmap. exists (k, t). split; [done|].
    by apply elem_of_range.
  - destruct Hin as [->|Hin]; [by left|right].
    apply list_elem_of_fmap in Hin as ([k t] & Heq & Hin). exists k, t.
    split; [by apply elem_of_range in Hin|done].
Qed.

Lemma forward_candidates_elem m t c :
  c ∈ forward_candidates m t
  <-> exists l p, l ∈ effectiveLinks t /\ m !! Pred l = Some p /\ c = forward_candidate p t l.
Proof.
  unfold forward_candidates. rewrite list_elem_of_omap. split.
  - intros (l & Hl & Hc). apply fmap_Some in Hc as (p & Hp & ->). by exists l, p.
  - intros (l & p & Hl & Hp & ->). exists l. by rewrite Hp.
Qed.

Lemma backward_candidates_elem sls m t c :
  c ∈ backward_candidates sls m t
  <-> exists sl s, sl ∈ sls /\ m !! succ sl = Some s /\ c = backward_candidate s t sl.
Proof.
  unfold backward_candidates. rewrite list_elem_of_omap. split.
  - intros (l & Hl & Hc). apply fmap_Some in Hc as (p & Hp & ->). by exists l, p.
  - intros (l & p & Hl & Hp & ->). exists l. by rewrite Hp.
Qed.

Lemma forward_start_spec m t :
  is_nan (forward_start m t) = false /\ forward_start m t <. fzero = false /\
  (forall l p, l ∈ effectiveLinks t -> m !! Pred l = Some p ->
     forward_start m t <. forward_candidate p t l = false).
Proof.
  rewrite forward_start_fold.
  destruct (fmax_fold (forward_candidates m t) fzero eq_refl) as (Hn & Hz & Hge & _).
  split_and!; [done|done|]. intros l p Hl Hp. apply Hge, forward_candidates_elem. by exists l, p.
Qed.

Lemma forward_constraint_spec t es :
  is_nan es = false ->
  is_nan (forward_constraint t es).1 = false /\ (forward_constraint t es).1 <. es = false.
Proof.
  intros Hes. unfold forward_constraint.
  repeat case_match; simpl; try (by rewrite flt_irrefl).
  - split; [by eapply flt_not_nan|by apply flt_asym].
  - match goal with E : (_ <=. _) = true |- _ => by apply fle_flt in E as (? & ? & ?) end.
Qed.

(** ** The returned map *)

Definition no_alap (tasks : gmap string Task) : Prop :=
  map_Forall (fun _ t => Constraint t <> AsLateAsPossible) tasks.

#[export] Instance no_alap_dec (tasks : gmap string Task) : Decision (no_alap tasks).
Proof. unfold no_alap. apply _. Defined.

Section Result.
Context `{RangeOrder} (tasks tasks' : gmap string Task) (Hkeyed : well_keyed tasks)
  (Hrun : CalculateCPM tasks = Some (true, tasks')).

(** The maps after the forward and the backward pass. *)
Lemma cpm_passes :
  exists order m1 m2,
    topoSort tasks = Some order
    /\ (forall k, m1 !! k = (forward_task m1) <$> tasks !! k)
    /\ (forall k, m2 !! k = (backward_task (project_finish m1) (cpm_successors m1) m2) <$> m1 !! k)
    /\ tasks' = alap_task <$> (clamp_progress <$> m2).
Proof.
  revert Hrun. unfold CalculateCPM. destruct (topoSort tasks) as [order|] eqn:Ho; [|done].
  destruct (forward_pass_spec tasks Hkeyed order Ho) as (m1 & -> & Hm1).
  destruct (backward_pass_spec tasks Hkeyed order Ho m1 (project_finish m1) Hm1) as (m2 & -> & Hm2).
  intros [= <-]. by exists order, m1, m2.
Qed.

(** What a task of the returned map has been through. *)
Lemma cpm_task :
  exists m1 m2,
    (forall k, m1 !! k = (forward_task m1) <$> tasks !! k)
    /\ (forall k, m2 !! k = (backward_task (project_finish m1) (cpm_successors m1) m2) <$> m1 !! k)
    /\ (forall k, tasks' !! k = (fun t => alap_task (clamp_progress t)) <$> m2 !! k).
Proof.
  destruct cpm_passes as (_ & m1 & m2 & _ & Hm1 & Hm2 & ->).
  exists m1, m2. split_and!; [done|done|]. intros k. by rewrite !lookup_fmap, <- option_fmap_compose.
Qed.

End Result.

(** Keys and inputs are those of the argument map. *)
Lemma cpm_inputs `{RangeOrder} (tasks tasks' : gmap string Task) k :
  well_keyed tasks -> CalculateCPM tasks = Some (true, tasks') ->
  match tasks' !! k, tasks !! k with
  | Some t', Some t => same_input t' t
  | None, None => True
  | _, _ => False
  end.
Proof.
  intros Hk Hrun. destruct (cpm_task tasks tasks' Hk Hrun) as (m1 & m2 & Hm1 & Hm2 & ->).
  rewrite Hm2, Hm1. destruct (tasks !! k) as [t|]; [|done]. simpl.
  eapply same_input_trans; [apply alap_task_input|].
  eapply same_input_trans; [apply clamp_progress_fields|].
  eapply same_input_trans; [apply backward_task_input|apply forward_task_input].
Qed.

(** The dates the forward pass reads of its predecessors. *)
Lemma forward_start_ext m m' t t' :
  Duration t = Duration t' -> effectiveLinks t = effectiveLinks t' ->
  (forall k, (fun p => (ES p, EF p)) <$> m !! k = (fun p => (ES p, EF p)) <$> m' !! k) ->
  forward_start m t = forward_start m' t'.
Proof.
  intros Hd Hl Hm. rewrite !forward_start_fold. f_equal. unfold forward_candidates. rewrite Hl. clear Hl.
  induction (effectiveLinks t') as [|l ls IH]; [done|]. simpl.
  specialize (Hm (Pred l)). destruct (m !! Pred l) as [p|], (m' !! Pred l) as [p'|]; simplify_eq/=; rewrite IH; [|done].
  f_equal. unfold forward_candidate. repeat case_match; congruence.
Qed.

Lemma backward_finish_ext pf sls m m' t t' :
  Duration t = Duration t' ->
  (forall k, (fun p => (LS p, LF p)) <$> m !! k = (fun p => (LS p, LF p)) <$> m' !! k) ->
  backward_finish pf sls m t = backward_finish pf sls m' t'.
Proof.
  intros Hd Hm. rewrite !backward_finish_fold. f_equal. unfold backward_candidates.
  induction sls as [|sl ls IH]; [done|]. simpl.
  specialize (Hm (succ sl)). destruct (m !! succ sl) as [p|], (m' !! succ sl) as [p'|]; simplify_eq/=; rewrite IH; [|done].
  f_equal. unfold backward_candidate. repeat case_match; congruence.
Qed.

(** ** Without ALAP tasks the recurrences hold over the returned map *)

Section Recurrences.
Context `{RangeOrder} (tasks tasks' : gmap string Task) (Hkeyed : well_keyed tasks)
  (Hrun : CalculateCPM tasks = Some (true, tasks')) (Hna : no_alap tasks).

(** [t'] is task [t] after both passes and the clamp, over [m1] and [m2]. *)
Lemma cpm_final :
  exists m1 m2,
    (forall k, m1 !! k = (forward_task m1) <$> tasks !! k)
    /\ (forall k, m2 !! k = (backward_task (project_finish m1) (cpm_successors m1) m2) <$> m1 !! k)
    /\ (forall k, tasks' !! k = clamp_progress <$> m2 !! k)
    /\ (forall k, (fun p => (ES p, EF p)) <$> m1 !! k = (fun p => (ES p, EF p)) <$> tasks' !! k)
    /\ (forall k, (fun p => (LS p, LF p)) <$> m2 !! k = (fun p => (LS p, LF p)) <$> tasks' !! k).
Proof.
  destruct (cpm_task tasks tasks' Hkeyed Hrun) as (m1 & m2 & Hm1 & Hm2 & Hm').
  exists m1, m2. split; [done|]. split; [done|].
  assert (Hfin : forall k, tasks' !! k = clamp_progress <$> m2 !! k).
  { intros k. rewrite Hm', Hm2, Hm1. destruct (tasks !! k) as [t|] eqn:E; [|done]. simpl. f_equal.
    apply alap_task_other. specialize (Hna _ _ E).
    destruct (clamp_progress_fields (backward_task (project_finish m1) (cpm_successors m1) m2 (forward_task m1 t)))
      as ((_ & _ & _ & -> & _) & _).
    destruct (backward_task_input (project_finish m1) (cpm_successors m1) m2 (forward_task m1 t))
      as (_ & _ & _ & -> & _).
    by destruct (forward_task_input m1 t) as (_ & _ & _ & -> & _). }
  split_and!; [done|..]; intros k; rewrite Hfin.
  - rewrite Hm2. destruct (m1 !! k) as [t|]; [|done]. simpl.
    destruct (clamp_progress_fields (backward_task (project_finish m1) (cpm_successors m1) m2 t))
      as (_ & -> & -> & _).
    by destruct (backward_task_early (project_finish m1) (cpm_successors m1) m2 t) as [-> ->].
  - destruct (m2 !! k) as [t|]; [|done]. simpl.
    by destruct (clamp_progress_fields t) as (_ & _ & _ & -> & -> & _).
Qed.

Lemma cpm_early_equation k t' :
  tasks' !! k = Some t' ->
  ES t' = (forward_constraint t' (forward_start tasks' t')).1 /\ EF t' = ES t' ⊕ Duration t'.
Proof.
  intros Hk. destruct cpm_final as (m1 & m2 & Hm1 & Hm2 & Hfin & Hearly & _).
  pose proof (Hearly k) as He. rewrite Hk, Hm1 in He.
  rewrite Hfin, Hm2, Hm1 in Hk. destruct (tasks !! k) as [t|] eqn:E; [|done]. simpl in He, Hk.
  injection Hk as Hk.
  assert (Hin : same_input t' t).
  { rewrite <- Hk. eapply same_input_trans; [apply clamp_progress_fields|].
    eapply same_input_trans; [apply backward_task_input|apply forward_task_input]. }
  destruct Hin as (_ & Hd & Hl & Hc & Hcd & Hca).
  assert (Hfs : forward_start tasks' t' = forward_start m1 t)
    by (symmetry; apply forward_start_ext; [done|done|apply Hearly]).
  assert (Hfc : forward_constraint t' (forward_start tasks' t') = forward_constraint t (forward_start m1 t))
    by (unfold forward_constraint; by rewrite Hfs, Hd, Hc, Hcd, Hca).
  assert (HES : ES (forward_task m1 t) = (forward_constraint t (forward_start m1 t)).1
          /\ EF (forward_task m1 t) = ES (forward_task m1 t) ⊕ Duration t)
    by (unfold forward_task; by destruct (forward_constraint t _)).
  injection He as <- <-. rewrite Hfc, Hd. exact HES.
Qed.

(** Any fields read of a task can be compared through the passes. *)
Lemma project_finish_transfer (m m' : gmap string Task) pf :
  (forall k, EF <$> m !! k = EF <$> m' !! k) -> is_project_finish m pf -> is_project_finish m' pf.
Proof.
  intros Hm (Hn & Hz & Hge & Hin). split_and!; [done|done| |].
  - intros k t Hk. specialize (Hm k). rewrite Hk in Hm. destruct (m !! k) as [u|] eqn:E; [|done].
    simpl in Hm. injection Hm as <-. eauto.
  - destruct Hin as [|(k & t & Hk & Ht)]; [by left|right].
    specialize (Hm k). rewrite Hk in Hm. destruct (m' !! k) as [u|] eqn:E; [|done].
    simpl in Hm. injection Hm as Hm. exists k, u. split; [done|]. congruence.
Qed.

(** [sls] lists the links of the map that leave task [k]. *)
Definition leaving (m : gmap string Task) (k : string) (sls : list succLink) : Prop :=
  forall sl, sl ∈ sls <-> exists s l, m !! succ sl = Some s /\ l ∈ effectiveLinks s /\ Pred l = k
                                    /\ typ sl = LType l /\ lag sl = Lag l.

Lemma cpm_late_equation :
  exists pf, is_project_finish tasks' pf /\
  forall k t', tasks' !! k = Some t' ->
    exists sls, leaving tasks' k sls
      /\ LF t' = (backward_constraint t' (backward_finish pf sls tasks' t')).1
      /\ LS t' = LF t' ⊖ Duration t' /\ Float t' = LS t' ⊖ ES t'
      /\ IsCritical t' = (Float t' <. f_1em9).
Proof.
  destruct cpm_final as (m1 & m2 & Hm1 & Hm2 & Hfin & Hearly & Hlate).
  exists (project_finish m1). split.
  { apply (project_finish_transfer m1); [|apply project_finish_spec]. intros k.
    specialize (Hearly k). destruct (m1 !! k), (tasks' !! k); simplify_eq/=; congruence. }
  set (pf := project_finish m1) in *. intros k t' Hk. exists (cpm_successors m1 !!! k).
  assert (HL : forall j u, tasks' !! j = Some u -> exists v, m1 !! j = Some v /\ same_input u v).
  { intros j u Hj. rewrite Hfin, Hm2 in Hj. destruct (m1 !! j) as [v|]; [|done]. simplify_eq/=.
    exists v. split; [done|]. eapply same_input_trans; [apply clamp_progress_fields|].
    apply backward_task_input. }
  assert (HL' : forall j v, m1 !! j = Some v -> exists u, tasks' !! j = Some u /\ same_input u v).
  { intros j v Hj. pose proof (Hearly j) as He. rewrite Hj in He.
    destruct (tasks' !! j) as [u|] eqn:Eu; [|done]. exists u. split; [done|].
    destruct (HL j u Eu) as (v' & Hv' & Hs). congruence. }
  destruct (HL k t' Hk) as (t1 & Ht1 & (HID & Hd & Hl & Hc & Hcd & Hca)).
  assert (HIDk : ID t1 = k).
  { rewrite Hm1 in Ht1. destruct (tasks !! k) as [t0|] eqn:E; [|done]. simplify_eq/=.
    destruct (forward_task_input m1 t0) as (-> & _). by apply Hkeyed. }
  split.
  - intros sl. rewrite cpm_successors_elem. split.
    + intros (v & l & Hv & Hl' & Hp & _ & Htyp & Hlag). destruct (HL' _ _ Hv) as (u & Hu & Hs).
      exists u, l. destruct Hs as (_ & _ & -> & _). done.
    + intros (u & l & Hu & Hl' & Hp & Htyp & Hlag). destruct (HL _ _ Hu) as (v & Hv & Hs).
      destruct Hs as (_ & _ & Hlv & _). exists v, l. rewrite <- Hlv. split_and!; eauto.
  - pose proof Hk as Hk'. rewrite Hfin, Hm2, Ht1 in Hk'. simpl in Hk'. injection Hk' as Hk'.
    set (t2 := backward_task pf (cpm_successors m1) m2 t1) in *.
    destruct (clamp_progress_fields t2) as (_ & HES & HEF & HLS & HLF & HFl & HIC).
    rewrite Hk' in *. rewrite HLS, HLF, HFl, HIC, HES.
    destruct (backward_task_fields pf (cpm_successors m1) m2 t1) as (HuLF & HuLS & HuF & HuC).
    destruct (backward_task_early pf (cpm_successors m1) m2 t1) as [HuES _]. fold t2 in HuLF, HuLS, HuF, HuC, HuES.
    assert (Hbf : backward_finish pf (cpm_successors m1 !!! k) tasks' t'
                  = backward_finish pf (cpm_successors m1 !!! k) m2 t1)
      by (apply backward_finish_ext; [done|intros j; by rewrite Hlate]).
    assert (Hbc : forall lf, (backward_constraint t' lf).1 = (backward_constraint t1 lf).1).
    { intros lf. unfold backward_constraint. rewrite Hc, Hca, Hcd.
      destruct (ConstraintArmed t1), (String.eqb (Constraint t1) MustFinishOn),
        (String.eqb (Constraint t1) FinishNoLaterThan); done. }
    rewrite Hbf, Hd, Hbc, HuES, <- HIDk. split_and!; [by rewrite HuLF|done|done|done].
Qed.

End Recurrences.

Lemma backward_constraint_spec t lf :
  is_nan lf = false -> ConstraintArmed t && String.eqb (Constraint t) MustFinishOn = false ->
  is_nan (backward_constraint t lf).1 = false /\ lf <. (backward_constraint t lf).1 = false.
Proof.
  intros Hlf Hm. unfold backward_constraint. destruct (ConstraintArmed t); simpl in *; [|by rewrite flt_irrefl].
  rewrite Hm. case_match; simpl; [|by rewrite flt_irrefl].
  destruct (ConstraintDay t <. lf) eqn:E; [|by rewrite flt_irrefl].
  split; [by apply flt_not_nan in E as [? _]|by apply flt_asym].
Qed.

(** The starts of the result dominate zero and every candidate. *)
Lemma CalculateCPM_links `{RangeOrder} (tasks tasks' : gmap string Task) k t l p :
  well_keyed tasks -> no_alap tasks -> CalculateCPM tasks = Some (true, tasks') ->
  tasks' !! k = Some t -> l ∈ effectiveLinks t -> tasks' !! Pred l = Some p ->
  ES t <. fzero = false /\ ES t <. forward_candidate p t l = false.
Proof.
  intros Hk Hna Hrun Ht Hl Hp.
  destruct (cpm_early_equation tasks tasks' Hk Hrun Hna k t Ht) as [HES _].
  destruct (forward_start_spec tasks' t) as (Hn & Hz & Hge).
  destruct (forward_constraint_spec t _ Hn) as [Hn' Hc]. rewrite <- HES in Hn', Hc.
  split; (eapply (fnlt_trans _ (forward_start tasks' t)); [done| |done]); eauto.
Qed.

(** On a map keyed by task ID the method neither panics nor loses a task. *)
Lemma CalculateCPM_keeps_tasks `{RangeOrder} (tasks : gmap string Task) :
  well_keyed tasks ->
  exists ok tasks', CalculateCPM tasks = Some (ok, tasks')
    /\ forall k, is_Some (tasks' !! k) <-> is_Some (tasks !! k).
Proof.
  intros Hk. unfold CalculateCPM. destruct (topoSort tasks) as [order|] eqn:Ho.
  - destruct (forward_pass_spec tasks Hk order Ho) as (m1 & -> & Hm1).
    destruct (backward_pass_spec tasks Hk order Ho m1 (project_finish m1) Hm1) as (m2 & -> & Hm2).
    eexists _, _. split; [done|]. intros k. by rewrite !lookup_fmap, !fmap_is_Some, Hm2, fmap_is_Some, Hm1, fmap_is_Some.
  - by eexists _, _.
Qed.

(** * Properties *)

(** C37. CalculateCPM is total on a map keyed by task ID: it never dereferences
    a missing task, and it reports success exactly when the dependency graph has
    no cycle. *)
Theorem CalculateCPM_total `{RangeOrder} (tasks : gmap string Task) :
  well_keyed tasks ->
  exists ok tasks', CalculateCPM tasks = Some (ok, tasks') /\ (ok = true <-> acyclic tasks).
Proof.
  intros Hk. pose proof (topoSort_acyclic tasks Hk) as Hac. unfold CalculateCPM.
  destruct (topoSort tasks) as [order|] eqn:Ho.
  - destruct (forward_pass_spec tasks Hk order Ho) as (m1 & -> & Hm1).
    destruct (backward_pass_spec tasks Hk order Ho m1 (project_finish m1) Hm1) as (m2 & -> & _).
    eexists _, _. split; [done|]. rewrite <- Hac. split; eauto.
  - eexists _, _. split; [done|]. rewrite <- Hac. split; [done|]. by intros [? ?].
Qed.

(** The start a link demands of its successor: after the finish of the predecessor
    (FS, and any unknown type), after its start (SS), or early enough before for the
    finish to come after its finish (FF) or its start (SF), plus the lag. *)
Definition demanded (p t : Task) (ty : string) (lag : f64) : f64 :=
  if String.eqb ty "SS" then ES p ⊕ lag
  else if String.eqb ty "FF" then (EF p ⊕ lag) ⊖ Duration t
  else if String.eqb ty "SF" then (ES p ⊕ lag) ⊖ Duration t
  else EF p ⊕ lag.

(** A link of the task, or a plain precedence no link of the task restates. *)
Definition linked (t : Task) (l : Link) : Prop :=
  l ∈ Links t \/ Pred l ∈ Precedents t /\ Pred l ∉ Pred <$> Links t /\ l = mkLink (Pred l) "FS" fzero.

Lemma linked_effective t l : linked t l -> exists l', l' ∈ effectiveLinks t /\ Pred l' = Pred l
  /\ forall p, forward_candidate p t l' = demanded p t (LType l) (Lag l).
Proof.
  unfold effectiveLinks. intros [Hl|(Hp & Hn & ->)].
  - exists (normalise_link l). split; [apply elem_of_app; left; by apply list_elem_of_fmap_2|].
    unfold normalise_link, known_link_type, forward_candidate, demanded. case_bool_decide as Hk; split; try done.
    intros p. cbn [LType Lag Pred]. rewrite !elem_of_cons in Hk.
    destruct (String.eqb_spec (LType l) "SS"), (String.eqb_spec (LType l) "FF"), (String.eqb_spec (LType l) "SF");
      try done; destruct Hk; tauto.
  - exists (mkLink (Pred l) FinishToStart fzero). split; [|done]. apply elem_of_app. right.
    apply list_elem_of_fmap. exists (Pred l). split; [done|]. apply list_elem_of_filter. split; [|done].
    by rewrite elem_of_list_to_set.
Qed.

(** C1. Precedence holds: in a schedule CalculateCPM reports as good, with no
    ALAP task, no task starts before the project start or before the date any of
    its links (FS, SS, FF or SF, with lag or lead) and plain precedences demands of
    it, whatever the other constraints say, and it finishes its duration later. *)
Theorem CalculateCPM_links_hold `{RangeOrder} (tasks tasks' : gmap string Task) k t l p :
  well_keyed tasks -> no_alap tasks -> CalculateCPM tasks = Some (true, tasks') ->
  tasks' !! k = Some t -> linked t l -> tasks' !! Pred l = Some p ->
  ES t <. fzero = false /\ ES t <. demanded p t (LType l) (Lag l) = false /\ EF t = ES t ⊕ Duration t.
Proof.
  intros Hk Hna Hrun Ht (l' & Hl & Ep & <-)%linked_effective Hp. rewrite <- Ep in Hp.
  destruct (CalculateCPM_links tasks tasks' k t l' p Hk Hna Hrun Ht Hl Hp) as [? ?].
  split_and!; [done|done|]. by apply (cpm_early_equation tasks tasks' Hk Hrun Hna k).
Qed.

(** Late dates are feasible: with no ALAP task, the late finish of a task
    that is not pinned by MFO never exceeds the project finish nor what any
    successor link allows, and a task is critical exactly when its float, late
    start minus early start, is under the tolerance. *)
Theorem CalculateCPM_late_dates `{RangeOrder} (tasks tasks' : gmap string Task) :
  well_keyed tasks -> no_alap tasks -> CalculateCPM tasks = Some (true, tasks') ->
  exists pf, is_project_finish tasks' pf /\
    forall k t, tasks' !! k = Some t ->
      LS t = LF t ⊖ Duration t /\ Float t = LS t ⊖ ES t /\ IsCritical t = (Float t <. f_1em9) /\
      (ConstraintArmed t && String.eqb (Constraint t) MustFinishOn = false ->
         pf <. LF t = false /\
         forall ks s l, tasks' !! ks = Some s -> l ∈ effectiveLinks s -> Pred l = k ->
           backward_candidate s t (mkSuccLink ks (LType l) (Lag l)) <. LF t = false).
Proof.
  intros Hk Hna Hrun.
  destruct (cpm_late_equation tasks tasks' Hk Hrun Hna) as (pf & Hpf & Heq).
  exists pf. split; [done|]. intros k t Ht.
  destruct (Heq k t Ht) as (sls & Hsls & HLF & HLS & HF & HC).
  split_and!; [done|done|done|]. intros Hm.
  destruct Hpf as (Hn & _).
  destruct (fmin_fold (backward_candidates sls tasks' t) pf Hn) as (Hbn & Hbp & Hbc & _).
  rewrite <- backward_finish_fold in Hbn, Hbp, Hbc.
  destruct (backward_constraint_spec t _ Hbn Hm) as [Hcn Hcl]. rewrite <- HLF in Hcn, Hcl.
  assert (Hstep : forall x, x <. backward_finish pf sls tasks' t = false -> x <. LF t = false)
    by (intros x Hx; by apply (fnlt_trans _ (backward_finish pf sls tasks' t))).
  split; [by apply Hstep|]. intros ks s l Hs Hl Hp. apply Hstep, Hbc, backward_candidates_elem.
  exists (mkSuccLink ks (LType l) (Lag l)), s. split_and!; [|done|done].
  apply Hsls. by exists s, l.
Qed.

(** Reporting fields: percent complete comes out within 0..100, and an
    ALAP task sits at its late dates with zero float, flagged critical. *)
Theorem CalculateCPM_reporting `{RangeOrder} (tasks tasks' : gmap string Task) k t :
  well_keyed tasks -> CalculateCPM tasks = Some (true, tasks') -> tasks' !! k = Some t ->
  PercentComplete t <. fzero = false /\ f_of_Z 100 <. PercentComplete t = false /\
  (Constraint t = AsLateAsPossible ->
     ES t = LS t /\ EF t = LF t /\ Float t = fzero /\ IsCritical t = true).
Proof.
  intros Hk Hrun Ht.
  destruct (cpm_task tasks tasks' Hk Hrun) as (m1 & m2 & _ & _ & Hm').
  rewrite Hm' in Ht. destruct (m2 !! k) as [t2|]; [|done]. simpl in Ht. injection Ht as <-.
  assert (Hp : PercentComplete (alap_task (clamp_progress t2)) = PercentComplete (clamp_progress t2))
    by (unfold alap_task; by case_match).
  rewrite Hp. split_and!.
  - unfold clamp_progress. repeat case_match; simpl; done.
  - unfold clamp_progress. repeat case_match; simpl; done.
  - destruct (alap_task_input (clamp_progress t2)) as (_ & _ & _ & -> & _). intros Hc.
    unfold alap_task. rewrite Hc. done.
Qed.

(** ** The ALAP post-pass and precedence

    A is ALAP with a successor B that itself has float.  The post-pass moves A
    to its late dates and leaves B at its early ones. *)

Definition alap_demo : gmap string Task :=
  task_map [ mkTask "A" "" fone [] [] (mkEstimate fzero fzero fzero "") "ALAP" "" fzero false false
               fzero false "" "" fzero 0 fzero 0 [] false [] [] fzero fzero fzero fzero fzero false "" "";
             new_task "B" 1 [mkLink "A" "FS" fzero];
             new_task "C" 10 [] ].

(** The returned schedule of this project, for every map iteration order
    tried, starts B on day 1 although its predecessor A finishes on day 9, and
    reports no constraint violation: the ALAP post-pass breaks precedence. *)
Theorem CalculateCPM_alap_breaks_link :
  match @CalculateCPM key_order alap_demo with
  | Some (true, m) =>
      match m !! "A", m !! "B" with
      | Some a, Some b =>
          EF a = f_of_Z 9 /\ ES b = fone /\ ES b <. EF a = true
          /\ ConstraintViolated a = false /\ ConstraintViolated b = false
      | _, _ => False
      end
  | _ => False
  end.
Proof. vm_compute. repeat split. Qed.

(** ** Witnesses *)

Definition demo_result : gmap string Task :=
  match @CalculateCPM key_order demo_tasks with Some (_, m) => m | None => ∅ end.

Definition demo_task (k : string) : Task := default (new_task "" 0 []) (demo_result !! k).

Lemma demo_no_alap : no_alap demo_tasks.
Proof. by_decide. Qed.

Lemma CalculateCPM_total_witness :
  exists ok tasks', @CalculateCPM key_order demo_tasks = Some (ok, tasks')
                    /\ (ok = true <-> acyclic demo_tasks).
Proof. apply (@CalculateCPM_total key_order demo_tasks). exact demo_keyed. Defined.

Lemma CalculateCPM_links_hold_witness :
  ES (demo_task "build") <. EF (demo_task "design") ⊕ f_of_Z 2 = false.
Proof.
  apply (@CalculateCPM_links_hold key_order demo_tasks demo_result "build" (demo_task "build")
           (mkLink "design" "FS" (f_of_Z 2)) (demo_task "design") demo_keyed demo_no_alap);
    [vm_compute; reflexivity..| |vm_compute; reflexivity].
  left. by_decide.
Defined.

Lemma CalculateCPM_late_dates_witness :
  exists pf, is_project_finish demo_result pf /\ pf <. LF (demo_task "docs") = false.
Proof.
  destruct (@CalculateCPM_late_dates key_order demo_tasks demo_result demo_keyed demo_no_alap)
    as (pf & Hpf & Hall); [vm_compute; reflexivity|].
  exists pf. split; [exact Hpf|].
  apply (Hall "docs" (demo_task "docs")); vm_compute; reflexivity.
Defined.

Lemma CalculateCPM_reporting_witness :
  f_of_Z 100 <. PercentComplete (demo_task "ship") = false.
Proof.
  apply (@CalculateCPM_reporting key_order demo_tasks demo_result "ship" (demo_task "ship") demo_keyed);
    vm_compute; reflexivity.
Defined.
