(* ===== verification/SchedulerExact.v ===== *)
(** * Whole-day schedules are exact (kernel/scheduler.go)

    Durations and lags are binary64 numbers, but planners enter whole days.
    On whole days, as long as the total work stays below 2^50, no operation of
    CalculateCPM rounds: the returned floats are the integers of the textbook
    method on Z, float is never negative and a critical task exists. *)

From S2P Require Import Prelude GoFloat Scheduler SchedulerTopo SchedulerCPM.

Local Open Scope Z_scope.

(** ** Whole-day data *)

(** The integer a whole float stands for. *)
Definition zval (x : f64) : Z := default 0 (f_trunc x).

Definition whole (x : f64) : Prop := x = f_of_Z (zval x).

(** Everything that can move a finish: the duration and the sizes of the lags. *)
Definition task_work (t : Task) : Z :=
  zval (Duration t) + sum_Z ((fun l => Z.abs (zval (Lag l))) <$> effectiveLinks t).

Definition total_work (tasks : gmap string Task) : Z :=
  sum_Z ((fun kt => task_work kt.2) <$> map_to_list tasks).

Definition whole_task (t : Task) : Prop :=
  whole (Duration t) /\ 0 <= zval (Duration t) /\ Forall (fun l => whole (Lag l)) (effectiveLinks t).

Record whole_days (tasks : gmap string Task) : Prop := {
  wd_task : map_Forall (fun _ t => whole_task t /\ ConstraintArmed t = false
                                   /\ Constraint t <> AsLateAsPossible) tasks;
  wd_total : total_work tasks < 2 ^ 50
}.

#[export] Instance whole_dec x : Decision (whole x).
Proof. unfold whole. apply _. Defined.

#[export] Instance whole_task_dec t : Decision (whole_task t).
Proof. unfold whole_task. apply _. Defined.

(** ** The method on integers *)

Definition zES (t : Task) : Z := zval (ES t).
Definition zEF (t : Task) : Z := zval (EF t).
Definition zLS (t : Task) : Z := zval (LS t).
Definition zLF (t : Task) : Z := zval (LF t).
Definition zdur (t : Task) : Z := zval (Duration t).

Definition z_forward_candidate (p t : Task) (l : Link) : Z :=
  if String.eqb (LType l) StartToStart then zES p + zval (Lag l)
  else if String.eqb (LType l) FinishToFinish then zEF p + zval (Lag l) - zdur t
  else if String.eqb (LType l) StartToFinish then zES p + zval (Lag l) - zdur t
  else zEF p + zval (Lag l).

Definition z_backward_candidate (s t : Task) (l : Link) : Z :=
  if String.eqb (LType l) StartToStart then zLS s - zval (Lag l) + zdur t
  else if String.eqb (LType l) FinishToFinish then zLF s - zval (Lag l)
  else if String.eqb (LType l) StartToFinish then zLF s - zval (Lag l) + zdur t
  else zLS s - zval (Lag l).

(** ** Arithmetic of whole floats *)

Lemma zval_of_Z z : iint z -> zval (f_of_Z z) = z.
Proof. intros Hz. unfold zval. by rewrite f_trunc_of_Z. Qed.

Lemma whole_of_Z z : iint z -> whole (f_of_Z z).
Proof. intros Hz. unfold whole. by rewrite zval_of_Z. Qed.

Lemma whole_eq x z : iint z -> x = f_of_Z z -> zval x = z /\ whole x.
Proof. intros Hz ->. split; [by apply zval_of_Z|by apply whole_of_Z]. Qed.

(** Results bounded by 2^52 stay exact; the bound is what [lia] needs. *)
Definition small (z : Z) : Prop := - 2 ^ 52 <= z <= 2 ^ 52.

Lemma whole_add x y :
  whole x -> whole y -> small (zval x) -> small (zval y) -> small (zval x + zval y) ->
  whole (x ⊕ y) /\ zval (x ⊕ y) = zval x + zval y.
Proof.
  unfold small, whole. set (a := zval x). set (b := zval y). intros Hx Hy ? ? ?.
  assert (E : x ⊕ y = f_of_Z (a + b)) by (rewrite Hx, Hy; apply fadd_of_Z; unfold iint; lia).
  apply and_comm, whole_eq; [unfold iint; lia|done].
Qed.

Lemma whole_sub x y :
  whole x -> whole y -> small (zval x) -> small (zval y) -> small (zval x - zval y) ->
  whole (x ⊖ y) /\ zval (x ⊖ y) = zval x - zval y.
Proof.
  unfold small, whole. set (a := zval x). set (b := zval y). intros Hx Hy ? ? ?.
  assert (E : x ⊖ y = f_of_Z (a - b)) by (rewrite Hx, Hy; apply fsub_of_Z; unfold iint; lia).
  apply and_comm, whole_eq; [unfold iint; lia|done].
Qed.

Lemma whole_lt x y :
  whole x -> whole y -> small (zval x) -> small (zval y) -> (x <. y) = (zval x <? zval y).
Proof.
  unfold small, whole. set (a := zval x). set (b := zval y). intros Hx Hy ? ?.
  rewrite Hx, Hy. apply flt_of_Z; unfold iint; lia.
Qed.

Lemma whole_zero : whole fzero /\ zval fzero = 0.
Proof. done. Qed.

(** 1e-9 separates zero from the positive integers. *)
Lemma whole_critical x : whole x -> 0 <= zval x -> small (zval x) -> (x <. f_1em9) = (zval x =? 0).
Proof.
  unfold small, whole. set (a := zval x). intros Hx H0 Hs. rewrite Hx.
  destruct (Z.eqb_spec a 0) as [->|E]; [vm_compute; reflexivity|].
  apply (fnlt_trans _ fone); [vm_compute; reflexivity..|].
  change fone with (f_of_Z 1). rewrite flt_of_Z by (unfold iint; lia). lia.
Qed.

Lemma sum_Z_elem {A} (f : A -> Z) l x :
  (forall y, y ∈ l -> 0 <= f y) -> x ∈ l -> f x <= sum_Z (f <$> l).
Proof.
  intros Hf Hx. apply list_elem_of_split in Hx as (a & b & ->).
  rewrite fmap_app, sum_Z_app, fmap_cons, sum_Z_cons.
  assert (0 <= sum_Z (f <$> a)) by (apply sum_Z_nonneg; set_solver).
  assert (0 <= sum_Z (f <$> b)) by (apply sum_Z_nonneg; set_solver). lia.
Qed.

Lemma lag_le_work t l :
  whole_task t -> l ∈ effectiveLinks t ->
  zdur t + Z.abs (zval (Lag l)) <= task_work t.
Proof.
  intros _ Hl. unfold task_work, zdur.
  pose proof (sum_Z_elem (fun l => Z.abs (zval (Lag l))) (effectiveLinks t) l ltac:(lia) Hl).
  simpl in *. lia.
Qed.

Lemma task_work_nonneg t : whole_task t -> 0 <= zdur t <= task_work t.
Proof.
  intros (_ & Hd & _). unfold task_work, zdur.
  pose proof (sum_Z_nonneg (fun l => Z.abs (zval (Lag l))) (effectiveLinks t) ltac:(lia)). lia.
Qed.

(** ** Candidates of whole dates *)

Ltac link_cases :=
  repeat match goal with
  | |- context [String.eqb ?a ?b] => destruct (String.eqb a b)
  end.

Lemma forward_candidate_whole p t l B :
  whole (ES p) -> whole (EF p) -> whole (Lag l) -> whole (Duration t) ->
  0 <= zES p <= zEF p -> zEF p <= B -> 0 <= zdur t ->
  B + zdur t + Z.abs (zval (Lag l)) <= 2 ^ 50 ->
  whole (forward_candidate p t l) /\ zval (forward_candidate p t l) = z_forward_candidate p t l
  /\ - 2 ^ 50 <= z_forward_candidate p t l <= B + Z.abs (zval (Lag l)).
Proof.
  unfold zES, zEF, zdur. intros HS HF HL HD ? ? ? ?.
  unfold forward_candidate, z_forward_candidate, zES, zEF, zdur.
  destruct (whole_add (ES p) (Lag l)) as [HwS HzS]; [done|done|unfold small; lia..|].
  destruct (whole_add (EF p) (Lag l)) as [HwF HzF]; [done|done|unfold small; lia..|].
  destruct (whole_sub (ES p ⊕ Lag l) (Duration t)) as [HwSd HzSd]; [done|done|unfold small; lia..|].
  destruct (whole_sub (EF p ⊕ Lag l) (Duration t)) as [HwFd HzFd]; [done|done|unfold small; lia..|].
  link_cases; (split_and!; [done|lia|lia|lia]).
Qed.

Lemma backward_candidate_whole s t l ks :
  whole (LS s) -> whole (LF s) -> whole (Lag l) -> whole (Duration t) ->
  0 <= zLS s <= 2 ^ 50 -> 0 <= zLF s <= 2 ^ 50 -> 0 <= zdur t <= 2 ^ 50 ->
  Z.abs (zval (Lag l)) <= 2 ^ 50 ->
  let c := backward_candidate s t (mkSuccLink ks (LType l) (Lag l)) in
  whole c /\ zval c = z_backward_candidate s t l /\ small (z_backward_candidate s t l).
Proof.
  unfold zLS, zLF, zdur, small. intros HS HF HL HD ? ? ? ?.
  unfold backward_candidate, z_backward_candidate, zLS, zLF, zdur. simpl typ. simpl lag.
  destruct (whole_sub (LS s) (Lag l)) as [HwS HzS]; [done|done|unfold small; lia..|].
  destruct (whole_sub (LF s) (Lag l)) as [HwF HzF]; [done|done|unfold small; lia..|].
  destruct (whole_add (LS s ⊖ Lag l) (Duration t)) as [HwSd HzSd]; [done|done|unfold small; lia..|].
  destruct (whole_add (LF s ⊖ Lag l) (Duration t)) as [HwFd HzFd]; [done|done|unfold small; lia..|].
  simpl. link_cases; (split_and!; [done|lia|lia|lia]).
Qed.

(** Late dates that respect the successor's leave room for the task. *)
Lemma backward_above_early s t l :
  z_forward_candidate t s l <= zES s -> zEF t = zES t + zdur t ->
  zEF s = zES s + zdur s -> zLF s = zLS s + zdur s -> zEF s <= zLF s ->
  zEF t <= z_backward_candidate s t l.
Proof.
  unfold z_forward_candidate, z_backward_candidate. link_cases; lia.
Qed.

(** ** The specification: the critical path method on integers *)

Record z_cpm (m : gmap string Task) (zpf : Z) : Prop := {
  zc_early : forall k t, m !! k = Some t ->
    0 <= zES t
    /\ (forall l p, l ∈ effectiveLinks t -> m !! Pred l = Some p -> z_forward_candidate p t l <= zES t)
    /\ (zES t = 0 \/ exists l p, l ∈ effectiveLinks t /\ m !! Pred l = Some p
                              /\ zES t = z_forward_candidate p t l)
    /\ zEF t = zES t + zdur t;
  zc_finish : (forall k t, m !! k = Some t -> zEF t <= zpf)
    /\ (zpf = 0 \/ exists k t, m !! k = Some t /\ zEF t = zpf);
  zc_late : forall k t, m !! k = Some t ->
    zLF t <= zpf
    /\ (forall ks s l, m !! ks = Some s -> l ∈ effectiveLinks s -> Pred l = k ->
          zLF t <= z_backward_candidate s t l)
    /\ (zLF t = zpf \/ exists ks s l, m !! ks = Some s /\ l ∈ effectiveLinks s /\ Pred l = k
                                   /\ zLF t = z_backward_candidate s t l)
    /\ zLS t = zLF t - zdur t;
  zc_float : forall k t, m !! k = Some t ->
    zval (Float t) = zLS t - zES t /\ IsCritical t = (zval (Float t) =? 0)
}.

Definition whole_dates (t : Task) : Prop :=
  whole (ES t) /\ whole (EF t) /\ whole (LS t) /\ whole (LF t) /\ whole (Float t).

(** ** The passes on whole days *)

Section Exact.
Context `{RangeOrder} (tasks tasks' : gmap string Task) (Hkeyed : well_keyed tasks)
  (Hrun : CalculateCPM tasks = Some (true, tasks')) (Hwd : whole_days tasks).

Lemma whole_no_alap : no_alap tasks.
Proof. intros k t Hk. by destruct (wd_task _ Hwd k t Hk) as (_ & _ & ?). Qed.

Lemma result_task k t' :
  tasks' !! k = Some t' ->
  whole_task t' /\ ConstraintArmed t' = false
  /\ exists t, tasks !! k = Some t /\ effectiveLinks t' = effectiveLinks t /\ task_work t' = task_work t.
Proof.
  intros Hk. pose proof (cpm_inputs tasks tasks' k Hkeyed Hrun) as Hin. rewrite Hk in Hin.
  destruct (tasks !! k) as [t|] eqn:E; [|done].
  destruct (wd_task _ Hwd k t E) as (Hw & Harm & _).
  destruct Hin as (_ & Hd & Hl & _ & _ & Ha). split_and!.
  - unfold whole_task. by rewrite Hd, Hl.
  - by rewrite Ha.
  - exists t. unfold task_work. by rewrite Hd, Hl.
Qed.

Lemma result_exists k : is_Some (tasks' !! k) <-> is_Some (tasks !! k).
Proof.
  pose proof (cpm_inputs tasks tasks' k Hkeyed Hrun) as Hin.
  destruct (tasks' !! k), (tasks !! k); try done; split; eauto.
Qed.

(** Work of the tasks of a list of keys. *)
Definition key_work (k : string) : Z := from_option task_work 0 (tasks !! k).

Lemma key_work_nonneg k : 0 <= key_work k.
Proof.
  unfold key_work. destruct (tasks !! k) as [t|] eqn:E; simpl; [|done].
  destruct (wd_task _ Hwd k t E) as (Hw & _). pose proof (task_work_nonneg t Hw). lia.
Qed.

Lemma order_work order :
  NoDup order -> (forall k, k ∈ order <-> is_Some (tasks !! k)) ->
  sum_Z (key_work <$> order) = total_work tasks.
Proof.
  intros Hnd Hall. unfold total_work.
  assert (Hp : order ≡ₚ (map_to_list tasks).*1).
  { apply NoDup_Permutation; [done|apply NoDup_fst_map_to_list|]. intros k. rewrite Hall.
    rewrite list_elem_of_fmap. split.
    - intros [t Ht]. exists (k, t). by rewrite elem_of_map_to_list.
    - intros ([k' t] & -> & Ht). apply elem_of_map_to_list in Ht. eauto. }
  rewrite (sum_Z_perm _ _ (fmap_Permutation key_work _ _ Hp)), <- list_fmap_compose.
  f_equal. apply list_fmap_ext. intros i [k t] Hi.
  apply list_elem_of_lookup_2, elem_of_map_to_list in Hi. unfold key_work. simpl. by rewrite Hi.
Qed.

Lemma work_app a b : 0 <= sum_Z (key_work <$> a) /\
  sum_Z (key_work <$> (a ++ b)) = sum_Z (key_work <$> a) + sum_Z (key_work <$> b).
Proof.
  rewrite fmap_app, sum_Z_app. split; [|done]. apply sum_Z_nonneg. intros; apply key_work_nonneg.
Qed.

Section Order.
Context (order : list string) (Hnd : NoDup order)
  (Hall : forall k, k ∈ order <-> is_Some (tasks !! k)) (Hpf : preds_first tasks order).

(** Early dates after a prefix of the order. *)
Definition early_ok (B : Z) (t : Task) : Prop :=
  whole (ES t) /\ whole (EF t) /\ 0 <= zES t /\ zEF t = zES t + zdur t /\ zEF t <= B.

Lemma early_candidate (pre : list string) k t' l p B :
  (forall j u, j ∈ pre -> tasks' !! j = Some u -> early_ok B u) ->
  (forall q, depends tasks q k -> q ∈ pre) ->
  0 <= B -> B + key_work k <= 2 ^ 50 ->
  tasks' !! k = Some t' -> l ∈ effectiveLinks t' -> tasks' !! Pred l = Some p ->
  whole (forward_candidate p t' l) /\ zval (forward_candidate p t' l) = z_forward_candidate p t' l
  /\ - 2 ^ 50 <= z_forward_candidate p t' l <= B + Z.abs (zval (Lag l))
  /\ zdur t' + Z.abs (zval (Lag l)) <= key_work k.
Proof.
  intros Hpre Hdep HB Hb Hk Hl Hp.
  destruct (result_task k t' Hk) as (Hw & _ & t & Ht & Hlt & Hwt).
  destruct (result_task _ p Hp) as (Hwp & _).
  assert (Hq : Pred l ∈ pre).
  { apply Hdep. exists t, l. split_and!; [done|by rewrite <- Hlt|done|]. apply result_exists. eauto. }
  destruct (Hpre _ p Hq Hp) as (HS & HF & H0 & HEF & HEB).
  pose proof (lag_le_work t' l Hw Hl) as Hlw. pose proof (task_work_nonneg p Hwp).
  assert (Hkw : key_work k = task_work t') by (unfold key_work; rewrite Ht; simpl; by rewrite Hwt).
  destruct Hw as (HwD & HD0 & HwL). rewrite Forall_forall in HwL. fold (zdur t') in HD0.
  destruct (forward_candidate_whole p t' l B) as (Hcw & Hcz & Hcb); [done|done|by apply HwL|done|lia..|].
  split_and!; [done|done|lia|lia|lia].
Qed.

Lemma early_prefix (pre rest : list string) :
  order = pre ++ rest -> sum_Z (key_work <$> order) < 2 ^ 50 ->
  forall k t', k ∈ pre -> tasks' !! k = Some t' -> early_ok (sum_Z (key_work <$> pre)) t'.
Proof.
  revert rest. induction pre as [|x pre IH] using rev_ind; intros rest Horder Htot k t' Hk Ht'.
  { by apply elem_of_nil in Hk. }
  rewrite <- app_assoc in Horder. specialize (IH _ Horder Htot).
  pose proof (work_app pre [x]) as [HB0 HBx]. pose proof (work_app pre ([x] ++ rest)) as [_ HBo].
  pose proof (work_app [x] rest) as [_ HBr]. pose proof (work_app rest []) as [HR _].
  rewrite Horder, HBo, HBr in Htot. rewrite HBx.
  assert (Hx : sum_Z (key_work <$> [x]) = key_work x) by (unfold sum_Z; simpl; lia).
  pose proof (key_work_nonneg x). rewrite Hx in *. set (B := sum_Z (key_work <$> pre)) in *.
  apply elem_of_app in Hk as [Hk|Hk].
  { destruct (IH k t' Hk Ht') as (? & ? & ? & ? & ?). unfold early_ok. split_and!; [done..|lia|lia|lia]. }
  apply list_elem_of_singleton in Hk as ->.
  destruct (cpm_early_equation tasks tasks' Hkeyed Hrun whole_no_alap x t' Ht') as [HES HEF].
  destruct (result_task x t' Ht') as (Hw & Harm & t & Ht & _ & Hwt).
  pose proof (task_work_nonneg t' Hw) as Htw.
  assert (Hkw : key_work x = task_work t') by (unfold key_work; rewrite Ht; simpl; by rewrite Hwt).
  unfold forward_constraint in HES. rewrite Harm in HES. simpl in HES.
  rewrite forward_start_fold in HES.
  destruct (fmax_fold (forward_candidates tasks' t') fzero eq_refl) as (_ & Hz & _ & Hin).
  rewrite <- HES in Hz, Hin.
  assert (HESw : whole (ES t') /\ 0 <= zES t' /\ zES t' + zdur t' <= B + key_work x).
  { unfold zES. destruct Hin as [Hin|Hin]; [rewrite Hin; change (zval fzero) with 0; split_and!; [done|lia|lia]|].
    apply forward_candidates_elem in Hin as (l & p & Hl & Hp & Heq).
    destruct (early_candidate pre x t' l p B IH) as (Hcw & Hcz & Hcb & Hlw);
      [intros q Hq; by eapply Hpf|done|lia|done..|].
    rewrite Heq in Hz |- *.
    rewrite whole_lt, Hcz in Hz by (rewrite ?Hcz; try done; unfold small; simpl; lia).
    change (zval fzero) with 0 in Hz. rewrite Hcz. split_and!; [done|lia|lia]. }
  destruct HESw as (HwS & H0s & Hb). destruct Hw as (HwD & HD0 & _).
  destruct (whole_add (ES t') (Duration t')) as [HwF HzF]; [done|done|unfold small, zES, zdur in *; lia..|].
  rewrite <- HEF in HwF, HzF. unfold early_ok, zEF. rewrite HzF. fold (zES t') (zdur t').
  split_and!; [done|done|lia|lia|lia].
Qed.

(** All early dates are whole and bounded by the total work. *)
Lemma early_all k t' : tasks' !! k = Some t' -> early_ok (total_work tasks) t'.
Proof.
  intros Hk. rewrite <- (order_work order Hnd Hall).
  apply (early_prefix order [] ltac:(by rewrite app_nil_r)) with k; [|by apply Hall, result_exists; eauto|done].
  rewrite (order_work order Hnd Hall). apply (wd_total _ Hwd).
Qed.

Lemma link_respected k t' l p :
  tasks' !! k = Some t' -> l ∈ effectiveLinks t' -> tasks' !! Pred l = Some p ->
  z_forward_candidate p t' l <= zES t'
  /\ whole (forward_candidate p t' l) /\ zval (forward_candidate p t' l) = z_forward_candidate p t' l
  /\ Z.abs (zval (Lag l)) <= 2 ^ 50.
Proof.
  intros Hk Hl Hp. pose proof (wd_total _ Hwd) as Htot.
  destruct (early_all k t' Hk) as (HwS & _ & H0 & HEF & HB).
  destruct (result_task k t' Hk) as (Hw & Harm & t & Ht & _ & Hwt).
  destruct (result_task _ p Hp) as (Hwp & _).
  pose proof (task_work_nonneg t' Hw). pose proof (task_work_nonneg p Hwp).
  destruct (list_elem_of_split order k) as (pre & rest & Ho); [apply Hall, result_exists; eauto|].
  pose proof (early_prefix pre (k :: rest) Ho ltac:(rewrite (order_work order Hnd Hall); lia)) as Hpre.
  pose proof (work_app pre (k :: rest)) as [HB0 HBo]. pose proof (work_app [k] rest) as [_ HBr].
  pose proof (work_app rest []) as [HR _]. change (k :: rest) with ([k] ++ rest) in HBo.
  change (k :: rest) with ([k] ++ rest) in Ho.
  rewrite <- Ho, (order_work order Hnd Hall), HBr in HBo.
  assert (Hx : sum_Z (key_work <$> [k]) = key_work k) by (unfold sum_Z; simpl; lia).
  destruct (early_candidate pre k t' l p _ Hpre) as (Hcw & Hcz & Hcb & Hlw');
    [intros q Hq; by eapply Hpf|done|lia|done..|].
  destruct (CalculateCPM_links tasks tasks' k t' l p Hkeyed whole_no_alap Hrun Hk Hl Hp) as [_ Hlt].
  rewrite whole_lt, Hcz in Hlt by (rewrite ?Hcz; try done; unfold small, zES, zEF in *; lia).
  split_and!; [unfold zES in *; lia|done|done|lia].
Qed.
(** *** The backward pass *)

(** Late dates over a suffix of the order, [zpf] the project finish. *)
Definition late_ok (zpf : Z) (t : Task) : Prop :=
  whole (LS t) /\ whole (LF t) /\ zEF t <= zLF t <= zpf /\ zLS t = zLF t - zdur t.

Lemma depends_after a k b s : order = a ++ k :: b -> depends tasks k s -> s ∈ b.
Proof.
  intros Ho Hd. assert (Hs : s ∈ order) by (apply Hall; destruct Hd as (t & _ & ? & _); eauto).
  rewrite Ho in Hs. apply elem_of_app in Hs as [Hs|Hs].
  - exfalso. apply list_elem_of_split in Hs as (a1 & a2 & ->).
    assert (Hk : k ∈ a1) by (eapply (Hpf a1 s (a2 ++ k :: b)); [by rewrite Ho, <- app_assoc|done]).
    rewrite Ho in Hnd. apply NoDup_app in Hnd as (_ & Hdis & _).
    apply (Hdis k); [set_solver|constructor].
  - apply elem_of_cons in Hs as [->|Hs]; [|done]. exfalso.
    assert (Hk : k ∈ a) by (by eapply Hpf).
    rewrite Ho in Hnd. apply NoDup_app in Hnd as (_ & Hdis & _). apply (Hdis k Hk). constructor.
Qed.

Lemma project_finish_whole pf :
  is_project_finish tasks' pf ->
  whole pf /\ 0 <= zval pf < 2 ^ 50 /\ (forall k t, tasks' !! k = Some t -> zEF t <= zval pf)
  /\ (zval pf = 0 \/ exists k t, tasks' !! k = Some t /\ zEF t = zval pf).
Proof.
  intros (_ & Hz & Hge & Hin). pose proof (wd_total _ Hwd) as Htot.
  assert (Hw : whole pf /\ 0 <= zval pf < 2 ^ 50).
  { destruct Hin as [->|(k & t & Hk & <-)]; [change (zval fzero) with 0; split; [done|lia]|].
    destruct (early_all k t Hk) as (_ & HwF & H0 & HEF & HB).
    destruct (result_task k t Hk) as (Hw & _). pose proof (task_work_nonneg t Hw).
    unfold zEF in *. split; [done|lia]. }
  destruct Hw as [Hw Hb]. split_and!; [done|lia|lia| |].
  - intros k t Hk. specialize (Hge k t Hk). destruct (early_all k t Hk) as (_ & HwF & H0 & HEF & HB).
    destruct (result_task k t Hk) as (Hwt & _). pose proof (task_work_nonneg t Hwt).
    rewrite whole_lt in Hge by (done || unfold small, zEF in *; lia). unfold zEF. lia.
  - destruct Hin as [->|(k & t & Hk & <-)]; [by left|right; by exists k, t].
Qed.

Lemma late_candidate k t' sl s l zpf :
  tasks' !! k = Some t' -> tasks' !! succ sl = Some s -> l ∈ effectiveLinks s -> Pred l = k ->
  typ sl = LType l -> lag sl = Lag l -> late_ok zpf s -> zpf < 2 ^ 50 ->
  whole (backward_candidate s t' sl) /\ zval (backward_candidate s t' sl) = z_backward_candidate s t' l
  /\ small (z_backward_candidate s t' l) /\ zEF t' <= z_backward_candidate s t' l.
Proof.
  intros Hk Hs Hl <- Htyp Hlag (HLS & HLF & Hb & Hsd) Hzpf.
  pose proof (wd_total _ Hwd) as Htot.
  destruct (early_all _ t' Hk) as (_ & _ & H0 & HEF & HB).
  destruct (early_all _ s Hs) as (_ & _ & Hs0 & HsEF & HsB).
  destruct (result_task _ t' Hk) as (Hw & _). destruct (result_task _ s Hs) as (Hws & _).
  pose proof (task_work_nonneg t' Hw). pose proof (task_work_nonneg s Hws).
  destruct (link_respected _ s l t' Hs Hl Hk) as (Hresp & _ & _ & Hlagb).
  destruct Hw as (HwD & HD0 & _). destruct Hws as (HwDs & HD0s & HwLs).
  rewrite Forall_forall in HwLs.
  replace sl with (mkSuccLink (succ sl) (LType l) (Lag l)) by (destruct sl; simpl in *; congruence).
  destruct (backward_candidate_whole s t' l (succ sl)) as (Hcw & Hcz & Hcs);
    [done|done|by apply HwLs|done|lia|lia|lia|done|].
  split_and!; [done|done|apply Hcs|].
  apply backward_above_early; [done|done|done|lia|lia].
Qed.

Lemma late_suffix pf suf pre :
  is_project_finish tasks' pf ->
  (forall k t', tasks' !! k = Some t' ->
     exists sls, leaving tasks' k sls
       /\ LF t' = (backward_constraint t' (backward_finish pf sls tasks' t')).1
       /\ LS t' = LF t' ⊖ Duration t' /\ Float t' = LS t' ⊖ ES t'
       /\ IsCritical t' = (Float t' <. f_1em9)) ->
  order = pre ++ suf ->
  forall k t', k ∈ suf -> tasks' !! k = Some t' -> late_ok (zval pf) t'.
Proof.
  intros Hpfin Heq. destruct (project_finish_whole pf Hpfin) as (Hpw & Hpb & Hpge & _).
  revert pre. induction suf as [|x suf IH]; intros pre Ho k t' Hk Ht'; [by apply elem_of_nil in Hk|].
  specialize (IH (pre ++ [x]) ltac:(by rewrite <- app_assoc)).
  apply elem_of_cons in Hk as [->|Hk]; [|by apply (IH k)].
  destruct (Heq x t' Ht') as (sls & Hsls & HLF & HLS & _).
  destruct (result_task x t' Ht') as (Hw & Harm & _).
  destruct (early_all x t' Ht') as (_ & _ & H0 & HEF & HB).
  pose proof (task_work_nonneg t' Hw) as Htw.
  unfold backward_constraint in HLF. rewrite Harm in HLF. simpl in HLF. rewrite backward_finish_fold in HLF.
  assert (Hcand : forall c, c ∈ backward_candidates sls tasks' t' ->
            whole c /\ small (zval c) /\ zEF t' <= zval c).
  { intros c Hc. apply backward_candidates_elem in Hc as (sl & s & Hsl & Hs & ->).
    apply Hsls in Hsl as (s' & l & Hs' & Hl & <- & Htyp & Hlag).
    rewrite Hs in Hs'. injection Hs' as <-.
    assert (Hin : succ sl ∈ suf).
    { eapply depends_after; [done|]. destruct (result_task _ s Hs) as (_ & _ & u & Hu & Hlu & _).
      exists u, l. split_and!; [done|by rewrite <- Hlu|done|]. apply result_exists. eauto. }
    destruct (late_candidate (Pred l) t' sl s l (zval pf)) as (? & -> & ? & ?); try done; [|lia].
    by apply (IH (succ sl)). }
  destruct (fmin_fold (backward_candidates sls tasks' t') pf (proj1 Hpfin)) as (_ & Hle & _ & Hin).
  rewrite <- HLF in Hle, Hin.
  assert (HLFw : whole (LF t') /\ small (zLF t') /\ zEF t' <= zLF t').
  { unfold zLF. destruct Hin as [Hin|Hin]; [rewrite Hin|by apply Hcand].
    unfold small. split_and!; [done|lia|lia|by eapply Hpge]. }
  destruct HLFw as (HwF & Hsm & HEL). rewrite whole_lt in Hle by (done || unfold small in *; lia).
  destruct Hw as (HwD & HD0 & _). unfold zEF, zLF, zES, zdur in *.
  assert (zval (Duration t') < 2 ^ 50) by (pose proof (wd_total _ Hwd); lia).
  destruct (whole_sub (LF t') (Duration t')) as [HwS HzS]; [done|done|unfold small in *; lia..|].
  rewrite <- HLS in HwS, HzS. unfold late_ok, zEF, zLF, zLS, zdur. split_and!; [done|done|lia|lia|lia].
Qed.

(** Early dates solve the integer recurrence. *)
Lemma early_recurrence k t :
  tasks' !! k = Some t ->
  0 <= zES t
  /\ (forall l p, l ∈ effectiveLinks t -> tasks' !! Pred l = Some p -> z_forward_candidate p t l <= zES t)
  /\ (zES t = 0 \/ exists l p, l ∈ effectiveLinks t /\ tasks' !! Pred l = Some p
                            /\ zES t = z_forward_candidate p t l)
  /\ zEF t = zES t + zdur t.
Proof.
  intros Hk. destruct (early_all k t Hk) as (_ & _ & H0 & HEF & _).
  split_and!; [done| | |done].
  - intros l p Hl Hp. by apply (link_respected k t l p Hk Hl Hp).
  - destruct (cpm_early_equation tasks tasks' Hkeyed Hrun whole_no_alap k t Hk) as [HES _].
    destruct (result_task k t Hk) as (_ & Harm & _).
    unfold forward_constraint in HES. rewrite Harm, forward_start_fold in HES. simpl in HES.
    destruct (fmax_fold (forward_candidates tasks' t) fzero eq_refl) as (_ & _ & _ & Hin).
    rewrite <- HES in Hin. unfold zES. destruct Hin as [->|Hin]; [by left|right].
    apply forward_candidates_elem in Hin as (l & p & Hl & Hp & ->). exists l, p.
    split_and!; [done|done|]. by destruct (link_respected k t l p Hk Hl Hp) as (_ & _ & -> & _).
Qed.

Lemma late_recurrence pf k t sls :
  (forall j u, tasks' !! j = Some u -> late_ok (zval pf) u) ->
  is_project_finish tasks' pf -> tasks' !! k = Some t -> leaving tasks' k sls ->
  LF t = (backward_constraint t (backward_finish pf sls tasks' t)).1 ->
  (forall ks s l, tasks' !! ks = Some s -> l ∈ effectiveLinks s -> Pred l = k ->
     zLF t <= z_backward_candidate s t l)
  /\ (zLF t = zval pf \/ exists ks s l, tasks' !! ks = Some s /\ l ∈ effectiveLinks s /\ Pred l = k
                                     /\ zLF t = z_backward_candidate s t l).
Proof.
  intros Hlate Hpfin Hk Hsls HLF.
  destruct (project_finish_whole pf Hpfin) as (Hpw & Hpb & _ & _).
  destruct (result_task k t Hk) as (Hw & Harm & _).
  unfold backward_constraint in HLF. rewrite Harm, backward_finish_fold in HLF. simpl in HLF.
  destruct (fmin_fold (backward_candidates sls tasks' t) pf (proj1 Hpfin)) as (_ & _ & Hle & Hin).
  rewrite <- HLF in Hle, Hin.
  destruct (Hlate k t Hk) as (_ & HwF & Hb & _).
  destruct (early_all k t Hk) as (_ & _ & H0 & HEF & _). pose proof (task_work_nonneg t Hw).
  split.
  - intros ks s l Hs Hl Hp. set (sl := mkSuccLink ks (LType l) (Lag l)).
    destruct (late_candidate k t sl s l (zval pf)) as (Hcw & Hcz & Hcs & _); try done; [by eapply Hlate|lia|].
    assert (Hc : backward_candidate s t sl ∈ backward_candidates sls tasks' t).
    { apply backward_candidates_elem. exists sl, s. split_and!; [|done|done]. apply Hsls. by exists s, l. }
    apply Hle in Hc. rewrite whole_lt, Hcz in Hc; [unfold zLF; lia|done|done|by rewrite Hcz|].
    unfold small, zLF in *. lia.
  - unfold zLF. destruct Hin as [->|Hin]; [by left|right].
    apply backward_candidates_elem in Hin as (sl & s & Hsl & Hs & ->).
    apply Hsls in Hsl as (s' & l & Hs' & Hl & Hp & Htyp & Hlag).
    rewrite Hs in Hs'. injection Hs' as <-. exists (succ sl), s, l. split_and!; [done..|].
    destruct (late_candidate k t sl s l (zval pf)) as (_ & -> & _); try done; [by eapply Hlate|lia].
Qed.

Lemma whole_result :
  exists zpf, z_cpm tasks' zpf /\
    forall k t, tasks' !! k = Some t -> whole_dates t /\ zEF t <= zLF t.
Proof.
  destruct (cpm_late_equation tasks tasks' Hkeyed Hrun whole_no_alap) as (pf & Hpfin & Heq).
  destruct (project_finish_whole pf Hpfin) as (Hpw & Hpb & Hpge & Hpin).
  pose proof (late_suffix pf order [] Hpfin Heq eq_refl) as Hsuf.
  assert (Hlate : forall k t, tasks' !! k = Some t -> late_ok (zval pf) t)
    by (intros k t Hk; apply (Hsuf k); [apply Hall, result_exists; eauto|done]).
  assert (Hfloat : forall k t, tasks' !! k = Some t ->
            whole (Float t) /\ zval (Float t) = zLS t - zES t
            /\ IsCritical t = (zval (Float t) =? 0)).
  { intros k t Hk. destruct (Heq k t Hk) as (_ & _ & _ & _ & HF & HC).
    destruct (Hlate k t Hk) as (HwS & _ & Hb & HSd). destruct (early_all k t Hk) as (HwE & _ & H0 & HEF & HB).
    destruct (result_task k t Hk) as (Hw & _). pose proof (task_work_nonneg t Hw).
    unfold zLS, zES, zEF, zLF in *.
    destruct (whole_sub (LS t) (ES t)) as [HwF HzF]; [done|done|unfold small; lia..|].
    rewrite <- HF in HwF, HzF. split_and!; [done|lia|].
    rewrite HC. apply whole_critical; [done|lia|unfold small; lia]. }
  exists (zval pf). split; [split|].
  - apply early_recurrence.
  - done.
  - intros k t Hk. destruct (Heq k t Hk) as (sls & Hsls & HLF & _).
    destruct (Hlate k t Hk) as (_ & _ & Hb & HSd).
    destruct (late_recurrence pf k t sls Hlate Hpfin Hk Hsls HLF). split_and!; [lia|done|done|done].
  - intros k t Hk. by destruct (Hfloat k t Hk) as [_ ?].
  - intros k t Hk. destruct (Hlate k t Hk) as (HwS & HwF & Hb & _).
    destruct (early_all k t Hk) as (HwE & HwEF & _). destruct (Hfloat k t Hk) as (HwFl & _).
    unfold whole_dates, zEF, zLF in *. split_and!; [done..|lia].
Qed.

End Order.

Lemma whole_days_result :
  exists zpf, z_cpm tasks' zpf /\
    forall k t, tasks' !! k = Some t -> whole_dates t /\ zEF t <= zLF t.
Proof.
  destruct (cpm_passes tasks tasks' Hkeyed Hrun) as (order & _ & _ & Ho & _).
  destruct (topoSort_inv tasks Hkeyed order Ho) as (Hnd & Hall & Hpf).
  by apply (whole_result order).
Qed.

End Exact.

Lemma whole_days_duration `{RangeOrder} k t (tasks tasks' : gmap string Task) :
  well_keyed tasks -> whole_days tasks -> CalculateCPM tasks = Some (true, tasks') ->
  tasks' !! k = Some t -> 0 <= zdur t.
Proof.
  intros Hk Hwd Hrun Ht. destruct (result_task tasks tasks' Hk Hrun Hwd k t Ht) as ((_ & ? & _) & _). done.
Qed.

(** * Properties *)

(** C12. On whole-day projects without armed date constraints and ALAP tasks (durations
    and lags whole, total work below 2^50) CalculateCPM refines the critical path method
    on integers: every date it returns is a whole number, and these numbers
    solve the max/min recurrences on Z exactly, with no rounding. *)
Theorem CalculateCPM_whole_days_exact `{RangeOrder} (tasks tasks' : gmap string Task) :
  well_keyed tasks -> whole_days tasks -> CalculateCPM tasks = Some (true, tasks') ->
  exists zpf, z_cpm tasks' zpf /\ map_Forall (fun _ t => whole_dates t) tasks'.
Proof.
  intros Hk Hwd Hrun. destruct (whole_days_result tasks tasks' Hk Hrun Hwd) as (zpf & Hz & Hall).
  exists zpf. split; [done|]. intros k t Ht. by apply Hall in Ht as [? _].
Qed.

(** On such projects no float is negative, a task is critical exactly when
    its float is zero, and a non-empty project has a critical task that ends
    with the project. *)
Theorem CalculateCPM_critical_path_exists `{RangeOrder} (tasks tasks' : gmap string Task) :
  well_keyed tasks -> whole_days tasks -> tasks <> ∅ -> CalculateCPM tasks = Some (true, tasks') ->
  map_Forall (fun _ t => 0 <= zval (Float t) /\ (IsCritical t = true <-> zval (Float t) = 0)) tasks'
  /\ exists k t, tasks' !! k = Some t /\ IsCritical t = true
      /\ map_Forall (fun _ u => zEF u <= zEF t) tasks'.
Proof.
  intros Hk Hwd Hne Hrun. destruct (whole_days_result tasks tasks' Hk Hrun Hwd) as (zpf & [He Hf Hl Hfl] & Hall).
  assert (Hfloat : forall k t, tasks' !! k = Some t -> zval (Float t) = zLF t - zEF t /\ zEF t <= zLF t).
  { intros k t Ht. destruct (Hfl k t Ht) as [-> _]. destruct (He k t Ht) as (_ & _ & _ & ->).
    destruct (Hl k t Ht) as (_ & _ & _ & ->). destruct (Hall k t Ht) as [_ Hle].
    destruct (He k t Ht) as (_ & _ & _ & HEF). lia. }
  split.
  - intros k t Ht. destruct (Hfloat k t Ht) as [Hz ?]. destruct (Hfl k t Ht) as [_ ->].
    rewrite Z.eqb_eq. split; [lia|done].
  - destruct Hf as [Hmax Hatt].
    assert (exists k t, tasks' !! k = Some t /\ zEF t = zpf) as (k & t & Ht & HEF).
    { destruct Hatt as [->|]; [|done]. destruct (map_choose tasks Hne) as (k & t0 & Ht0).
      pose proof (cpm_inputs tasks tasks' k Hk Hrun) as Hin. rewrite Ht0 in Hin.
      destruct (tasks' !! k) as [t|] eqn:Ht; [|done]. exists k, t. split; [done|].
      specialize (Hmax k t Ht). destruct (He k t Ht) as (H0 & _ & _ & HEF).
      pose proof (whole_days_duration k t tasks tasks' Hk Hwd Hrun Ht). lia. }
    exists k, t. split_and!; [done| |].
    + destruct (Hfl k t Ht) as [_ ->]. destruct (Hfloat k t Ht) as [-> Hle].
      destruct (Hl k t Ht) as (Hp & _). lia.
    + intros j u Hu. rewrite HEF. by apply (Hmax j).
Qed.

(** ** Witnesses *)

Lemma demo_whole : whole_days demo_tasks.
Proof. split; [|vm_compute; reflexivity]. by_decide. Qed.

Lemma CalculateCPM_whole_days_exact_witness :
  exists zpf, z_cpm demo_result zpf /\ map_Forall (fun _ t => whole_dates t) demo_result.
Proof.
  apply (@CalculateCPM_whole_days_exact key_order demo_tasks demo_result demo_keyed demo_whole).
  vm_compute. reflexivity.
Defined.

Lemma CalculateCPM_critical_path_exists_witness :
  exists k t, demo_result !! k = Some t /\ IsCritical t = true
              /\ map_Forall (fun _ u => zEF u <= zEF t) demo_result.
Proof.
  apply (@CalculateCPM_critical_path_exists key_order demo_tasks demo_result demo_keyed demo_whole).
  - intros Heq. apply (f_equal (fun m => size m)) in Heq. vm_compute in Heq. discriminate.
  - vm_compute. reflexivity.
Defined.

