(* ===== verification/MonteCarlo.v ===== *)
(** * kernel/montecarlo.go: probabilistic scheduling

    The inputs' validation, one sampled iteration, the goroutines that run the
    iterations and the channels between them as a step relation, and the
    statistics of the results.  The distributions of gonum's distuv are the
    parameter [Distuv]: functions of their arguments and of the state of the
    random source. *)

From S2P Require Import Prelude GoFloat GoStrings Scheduler.

Local Open Scope Z_scope.

(** ** Distributions and estimates *)

Definition MonteCarloTriangular : string := "triangular".
Definition MonteCarloBetaPERT : string := "beta-pert".
Definition MonteCarloNormal : string := "normal".

Definition monteCarloSeedA : Z := 5786358540715648305.
Definition monteCarloSeedB : Z := 7738717353179630915.
Definition maxMonteCarloIterations : Z := 100000.
Definition maxMonteCarloWorkers : Z := 128.

(** [DurationEstimate.Empty]. *)
Definition Empty (e : DurationEstimate) : bool :=
  (Optimistic e ==. fzero) && (MostLikely e ==. fzero) && (Pessimistic e ==. fzero)
  && String.eqb (Distribution e) "".

Definition normalizedDistribution (name : string) : string :=
  let normalized := ToLower (TrimSpace name) in
  if String.eqb normalized "" then MonteCarloTriangular else normalized.

(** ** Validation *)

Inductive MonteCarloError : Type :=
| ErrIterationsPositive
| ErrIterationsMaximum (iterations : Z)
| ErrTaskNil (id : string)
| ErrTaskIDEmpty (key : string)
| ErrTaskKeyMismatch (key id : string)
| ErrNegativeDuration (id : string)
| ErrUnsupportedDistribution (id name : string)
| ErrNegativeEstimate (id : string)
| ErrEstimateOrder (id : string)
| ErrGraphCycle.

Definition validateDurationEstimate (t : Task) : result MonteCarloError unit :=
  let e := Estimate t in
  if Empty e then Ok ()
  else if negb (bool_decide (normalizedDistribution (Distribution e)
                             ∈ [MonteCarloTriangular; MonteCarloBetaPERT; MonteCarloNormal]))
  then Err (ErrUnsupportedDistribution (ID t) (Distribution e))
  else if (Optimistic e <. fzero) || (MostLikely e <. fzero) || (Pessimistic e <. fzero)
  then Err (ErrNegativeEstimate (ID t))
  else if (MostLikely e <. Optimistic e) || (Pessimistic e <. MostLikely e)
  then Err (ErrEstimateOrder (ID t))
  else Ok ().

(** One entry of the map; [None] is a nil task. *)
Definition validate_entry (id : string) (task : option Task) : result MonteCarloError unit :=
  match task with
  | None => Err (ErrTaskNil id)
  | Some t =>
      if String.eqb (ID t) "" then Err (ErrTaskIDEmpty id)
      else if negb (String.eqb (ID t) id) then Err (ErrTaskKeyMismatch id (ID t))
      else if Duration t <. fzero then Err (ErrNegativeDuration (ID t))
      else validateDurationEstimate t
  end.

Fixpoint validate_entries (l : list (string * option Task)) (ids : list string)
    : result MonteCarloError (list string) :=
  match l with
  | [] => Ok ids
  | (id, task) :: l' =>
      match validate_entry id task with
      | Ok _ => validate_entries l' (ids ++ [id])
      | Err e => Err e
      end
  end.

(** The tasks behind the pointers that are not nil. *)
Definition live_tasks (tasks : gmap string (option Task)) : gmap string Task := omap id tasks.

Definition validateMonteCarloInputs `{RangeOrder} (tasks : gmap string (option Task))
    (iterations : Z) : result MonteCarloError (list string) :=
  if iterations <=? 0 then Err ErrIterationsPositive
  else if maxMonteCarloIterations <? iterations then Err (ErrIterationsMaximum iterations)
  else
    ids <-! validate_entries (range 21 tasks) [] ;;
    match topoSort (live_tasks tasks) with
    | None => Err ErrGraphCycle
    | Some _ => Ok (sort_strings ids)
    end.

(** ** Sampling *)

(** [rand.PCG]: the source is its 128 bits of state. *)
Record PCG : Type := mkPCG { pcg_hi : Z; pcg_lo : Z }.

(** [Rand] of the distributions: the variate and the source after the draw. *)
Class Distuv := {
  Beta_Rand : f64 -> f64 -> PCG -> f64 * PCG;
  Normal_Rand : f64 -> f64 -> PCG -> f64 * PCG;
  Triangle_Rand : f64 -> f64 -> f64 -> PCG -> f64 * PCG
}.

Definition iteration_source (iteration : Z) : PCG :=
  mkPCG (wrapu64 (monteCarloSeedA + wrapu64 (iteration * 11400714819323198485)))
    (Z.lxor monteCarloSeedB iteration).

Definition clamp (value low high : f64) : f64 :=
  if value <. low then low else if high <. value then high else value.

Section sampling.
Context `{RangeOrder} `{Distuv}.

Definition sampleDuration (t : Task) (src : PCG) : f64 * PCG :=
  let e := Estimate t in
  if Empty e then (Duration t, src)
  else if Optimistic e ==. Pessimistic e then (Optimistic e, src)
  else
    let d := normalizedDistribution (Distribution e) in
    if String.eqb d MonteCarloBetaPERT then
      let scale := Pessimistic e ⊖ Optimistic e in
      let alpha := fone ⊕ f_of_Z 4 ⊗ ((MostLikely e ⊖ Optimistic e) ⊘ scale) in
      let beta := fone ⊕ f_of_Z 4 ⊗ ((Pessimistic e ⊖ MostLikely e) ⊘ scale) in
      let (sample, src') := Beta_Rand alpha beta src in
      (Optimistic e ⊕ sample ⊗ scale, src')
    else if String.eqb d MonteCarloNormal then
      let sigma := (Pessimistic e ⊖ Optimistic e) ⊘ f_of_Z 6 in
      let (sample, src') := Normal_Rand (MostLikely e) sigma src in
      (clamp sample (Optimistic e) (Pessimistic e), src')
    else Triangle_Rand (Optimistic e) (Pessimistic e) (MostLikely e) src.

(** The sampling loop: the tasks copied with a sampled duration, the durations,
    and the source as the loop leaves it. *)
Definition sample_task (tasks : gmap string Task)
    (st : gmap string Task * gmap string f64 * PCG) (id : string)
    : gmap string Task * gmap string f64 * PCG :=
  let '(sampled, durations, src) := st in
  match tasks !! id with
  | None => st
  | Some original =>
      let (d, src') := sampleDuration original src in
      (<[id := set_Duration original d]> sampled, <[id := d]> durations, src')
  end.

Record monteCarloIteration : Type := mkIteration {
  it_finish : f64;
  it_critical : gmap string bool;
  it_durations : gmap string f64
}.

(** [None]: a nil dereference. *)
Definition runMonteCarloIteration (tasks : gmap string Task) (taskIDs : list string)
    (iteration : Z) : option monteCarloIteration :=
  let '(sampled, durations, _) :=
    foldl (sample_task tasks) (∅, ∅, iteration_source iteration) taskIDs in
  match CalculateCPM sampled with
  | None => None
  | Some (_, sampled) =>
      let get id := sampled !! id in
      if forallb (fun id => bool_decide (is_Some (get id))) taskIDs then
        Some (mkIteration
          (foldl (fun finish id => match get id with
                                   | Some t => if finish <. EF t then EF t else finish
                                   | None => finish
                                   end) fzero taskIDs)
          (foldl (fun critical id => match get id with
                                     | Some t => <[id := IsCritical t]> critical
                                     | None => critical
                                     end) ∅ taskIDs)
          durations)
      else None
  end.

End sampling.

(** ** Goroutines and channels

    The iterations run on [workers] goroutines.  The feeding goroutine sends the
    iteration numbers on the unbuffered channel [jobs]: a send needs a worker
    that is waiting.  A worker sends its result on [results], which holds
    [workers] values; RunMonteCarlo receives.  A state holds the next number to
    send, the iterations the workers are busy with, the contents of [results]
    and the iterations received, in order. *)

Record Pool : Type := mkPool {
  next_job : Z;
  busy : list Z;
  buffer : list Z;
  received : list Z
}.

Definition pool_start : Pool := mkPool 0 [] [] [].

Section pool.
Variables iterations workers : Z.

Definition feed_steps (p : Pool) : list Pool :=
  if (next_job p <? iterations) && (Z.of_nat (length (busy p)) <? workers)
  then [mkPool (next_job p + 1) (busy p ++ [next_job p]) (buffer p) (received p)] else [].

(** Any busy worker may be the next to send. *)
Definition send_steps (p : Pool) : list Pool :=
  if Z.of_nat (length (buffer p)) <? workers then
    omap (fun k => (fun job => mkPool (next_job p) (delete k (busy p)) (buffer p ++ [job]) (received p))
                     <$> busy p !! k) (seq 0 (length (busy p)))
  else [].

Definition receive_steps (p : Pool) : list Pool :=
  match buffer p with
  | job :: rest => [mkPool (next_job p) (busy p) rest (received p ++ [job])]
  | [] => []
  end.

Definition pool_steps (p : Pool) : list Pool := feed_steps p ++ send_steps p ++ receive_steps p.

Definition pool_done (p : Pool) : bool := Z.of_nat (length (received p)) =? iterations.

(** Run until every result is in; the scheduler picks the [k]-th step.  [None]:
    no step is possible (deadlock), or the fuel is short. *)
Fixpoint run_pool (fuel : nat) (schedule : nat -> nat) (k : nat) (p : Pool) : option Pool :=
  if pool_done p then Some p
  else match fuel with
       | O => None
       | S fuel' =>
           let steps := pool_steps p in
           match steps !! (schedule k mod length steps)%nat with
           | Some p' => run_pool fuel' schedule (S k) p'
           | None => None
           end
       end.

End pool.

(** ** Statistics *)

(** The order of [sort.Float64s]: NaNs first. *)
Definition float_less (x y : f64) : bool := (is_nan x && negb (is_nan y)) || (x <. y).

Definition float_le (x y : f64) : Prop := float_less y x = false.

#[export] Instance float_le_dec x y : Decision (float_le x y).
Proof. unfold float_le. apply _. Defined.

Definition Float64s (l : list f64) : list f64 := merge_sort float_le l.

Definition index {A} (l : list A) (i : Z) : option A := if i <? 0 then None else l !! Z.to_nat i.

(** [None]: an index out of range. *)
Definition percentile (values : list f64) (q : f64) : option f64 :=
  match values with
  | [] => Some fzero
  | _ =>
      let sorted := Float64s values in
      let n := Z.of_nat (length values) in
      if n =? 1 then index sorted 0
      else
        let position := q ⊗ f_of_Z (n - 1) in
        let lower := f_to_int (ffloor position) in
        let upper := f_to_int (fceil position) in
        if lower =? upper then index sorted lower
        else
          let weight := position ⊖ f_of_Z lower in
          match index sorted lower, index sorted upper with
          | Some x, Some y => Some (x ⊗ (fone ⊖ weight) ⊕ y ⊗ weight)
          | _, _ => None
          end
  end.

Definition q50 : f64 := fone ⊘ f_of_Z 2.
Definition q80 : f64 := f_of_Z 4 ⊘ f_of_Z 5.
Definition q90 : f64 := f_of_Z 9 ⊘ f_of_Z 10.

Record ProbabilityPoint : Type := mkPoint { Day : f64; Probability : f64 }.

Definition cdf_probability (i : Z) : f64 := f_of_Z i ⊘ f_of_Z 20.

Definition finishCDF (finishes : list f64) : option (list ProbabilityPoint) :=
  match finishes with
  | [] => Some []
  | _ => mapM (fun i => (fun d => mkPoint d (cdf_probability i)) <$> percentile finishes (cdf_probability i))
           (seqZ 0 21)
  end.

Record TornadoDriver : Type := mkDriver {
  TaskID : string;
  CriticalFrequency : f64;
  P50Duration : f64;
  P80Duration : f64;
  P90Duration : f64;
  DurationSpread : f64;
  Score : f64
}.

Definition driver_less (a b : TornadoDriver) : bool :=
  if negb (Score a ==. Score b) then Score b <. Score a
  else if negb (CriticalFrequency a ==. CriticalFrequency b)
  then CriticalFrequency b <. CriticalFrequency a
  else if negb (DurationSpread a ==. DurationSpread b) then DurationSpread b <. DurationSpread a
  else String.ltb (TaskID a) (TaskID b).

Definition driver_le (a b : TornadoDriver) : Prop := driver_less b a = false.

#[export] Instance driver_le_dec a b : Decision (driver_le a b).
Proof. unfold driver_le. apply _. Defined.

Definition maxDrivers : nat := 10.

Definition tornadoDrivers (taskIDs : list string) (frequencies : gmap string f64)
    (durations : gmap string (f64 * f64 * f64)) : list TornadoDriver :=
  let driver id :=
    let '(p50, p80, p90) := default (fzero, fzero, fzero) (durations !! id) in
    let frequency := default fzero (frequencies !! id) in
    let spread := p90 ⊖ p50 in
    mkDriver id frequency p50 p80 p90 spread (frequency ⊗ spread) in
  take maxDrivers (merge_sort driver_le (driver <$> taskIDs)).

(** ** RunMonteCarlo *)

Record SimResult : Type := mkSim {
  sim_Valid : bool;
  sim_Error : option MonteCarloError;
  sim_Iterations : Z;
  sim_Workers : Z;
  P50 : f64;
  P80 : f64;
  P90 : f64;
  FinishCDF : list ProbabilityPoint;
  CriticalPathFrequency : gmap string f64;
  DurationPercentiles : gmap string (f64 * f64 * f64);
  TornadoDrivers : list TornadoDriver
}.

(** The clamps on the worker count; [cpus] is runtime.NumCPU(). *)
Definition effective_workers (cpus workers iterations : Z) : Z :=
  let w := if workers <=? 0 then cpus else workers in
  let w := if w <? 1 then 1 else w in
  let w := if (iterations <? w) && (0 <? iterations) then iterations else w in
  if maxMonteCarloWorkers <? w then maxMonteCarloWorkers else w.

Definition empty_sim (iterations workers : Z) (e : option MonteCarloError) : SimResult :=
  mkSim (match e with None => true | Some _ => false end) e iterations workers fzero fzero fzero
    [] ∅ ∅ [].

Section run.
Context `{RangeOrder} `{Distuv}.

(** The collecting loop: finishes, critical counts, duration samples. *)
Definition collect_critical (counts : gmap string Z) (it : monteCarloIteration) : gmap string Z :=
  foldl (fun counts kc => if (kc.2 : bool) then <[kc.1 := zget counts kc.1 + 1]> counts else counts)
    counts (range 22 (it_critical it)).

Definition collect_durations (samples : gmap string (list f64)) (it : monteCarloIteration)
    : gmap string (list f64) :=
  foldl (fun samples kd => <[kd.1 := default [] (samples !! kd.1) ++ [kd.2]]> samples)
    samples (range 23 (it_durations it)).

Definition start_samples (taskIDs : list string) : gmap string (list f64) :=
  foldl (fun m id => <[id := []]> m) ∅ taskIDs.

Definition three_percentiles (l : list f64) : option (f64 * f64 * f64) :=
  match percentile l q50, percentile l q80, percentile l q90 with
  | Some a, Some b, Some c => Some (a, b, c)
  | _, _, _ => None
  end.

(** The statistics of the iterations in the order they were received. *)
Definition summarise (taskIDs : list string) (iterations workers : Z)
    (iters : list monteCarloIteration) : option SimResult :=
  let finishes := it_finish <$> iters in
  let counts := foldl collect_critical ∅ iters in
  let samples := foldl collect_durations (start_samples taskIDs) iters in
  match three_percentiles finishes, finishCDF finishes,
        mapM (fun id => (fun p => (id, p)) <$> three_percentiles (default [] (samples !! id))) taskIDs with
  | Some (p50, p80, p90), Some cdf, Some percentiles =>
      let frequencies := list_to_map
        ((fun id => (id, f_of_Z (zget counts id) ⊘ f_of_Z iterations)) <$> taskIDs) in
      let durations := list_to_map percentiles in
      Some (mkSim true None iterations workers p50 p80 p90 cdf frequencies durations
              (tornadoDrivers taskIDs frequencies durations))
  | _, _, _ => None
  end.

(** [None]: a panic or a deadlock. *)
Definition RunMonteCarlo (schedule : nat -> nat) (cpus : Z)
    (tasks : gmap string (option Task)) (iterations workers : Z) : option SimResult :=
  let w := effective_workers cpus workers iterations in
  match validateMonteCarloInputs tasks iterations with
  | Err e => Some (empty_sim iterations w (Some e))
  | Ok [] => Some (empty_sim iterations w None)
  | Ok taskIDs =>
      match run_pool iterations w (Z.to_nat (3 * iterations)) schedule 0 pool_start with
      | None => None
      | Some p =>
          match mapM (runMonteCarloIteration (live_tasks tasks) taskIDs) (received p) with
          | None => None
          | Some iters => summarise taskIDs iterations w iters
          end
      end
  end.

End run.
