(* ===== verification/MonteCarloTheorems.v ===== *)
(** * What a simulation promises

    Its validation, and that its result depends on the tasks and the number of
    iterations only: not on the scheduler, the number of workers or the
    processors, and no schedule blocks or panics.
    The first part is the pool of goroutines as a transition system. *)

From S2P Require Import Prelude GoFloat GoStrings Scheduler MonteCarlo SchedulerTopo SchedulerCPM.

Local Open Scope Z_scope.

Section pool.
Variables iterations workers : Z.
Hypothesis Hworkers : 1 <= workers.
Hypothesis Hiterations : 0 <= iterations.

(** Every iteration sent is at a worker, in the channel or received, once. *)
Record pool_inv (p : Pool) : Prop := {
  inv_jobs : busy p ++ buffer p ++ received p ≡ₚ seqZ 0 (next_job p);
  inv_next : 0 <= next_job p <= iterations;
  inv_busy : Z.of_nat (length (busy p)) <= workers;
  inv_buffer : Z.of_nat (length (buffer p)) <= workers
}.

Lemma pool_start_inv : pool_inv pool_start.
Proof. split; simpl; try lia; done. Qed.

(** The steps left: a job is sent to a worker, to the channel, to the collector. *)
Definition pool_measure (p : Pool) : Z :=
  3 * (iterations - next_job p) + 2 * Z.of_nat (length (busy p)) + Z.of_nat (length (buffer p)).

Definition pool_step (p p' : Pool) : Prop := p' ∈ pool_steps iterations workers p.

Lemma pool_step_cases p p' :
  pool_step p p' ->
  (next_job p < iterations /\ Z.of_nat (length (busy p)) < workers
   /\ p' = mkPool (next_job p + 1) (busy p ++ [next_job p]) (buffer p) (received p))
  \/ (exists k job, busy p !! k = Some job /\ Z.of_nat (length (buffer p)) < workers
      /\ p' = mkPool (next_job p) (delete k (busy p)) (buffer p ++ [job]) (received p))
  \/ (exists job rest, buffer p = job :: rest
      /\ p' = mkPool (next_job p) (busy p) rest (received p ++ [job])).
Proof.
  unfold pool_step, pool_steps. rewrite !elem_of_app. intros [H|[H|H]].
  - left. unfold feed_steps in H.
    destruct (Z.ltb_spec (next_job p) iterations); [|by apply elem_of_nil in H].
    destruct (Z.ltb_spec (Z.of_nat (length (busy p))) workers); [|by apply elem_of_nil in H].
    by apply list_elem_of_singleton in H as ->.
  - right; left. unfold send_steps in H.
    destruct (Z.ltb_spec (Z.of_nat (length (buffer p))) workers); [|by apply elem_of_nil in H].
    apply list_elem_of_omap in H as (k & _ & Hk). apply fmap_Some in Hk as (job & Hj & ->).
    by exists k, job.
  - right; right. unfold receive_steps in H. destruct (buffer p) as [|job rest]; [by apply elem_of_nil in H|].
    apply list_elem_of_singleton in H as ->. by exists job, rest.
Qed.

Lemma pool_step_inv p p' : pool_inv p -> pool_step p p' -> pool_inv p'.
Proof.
  intros [Hj Hn Hb Hc] Hs.
  destruct (pool_step_cases p p' Hs) as [(H1 & H2 & ->)|[(k & job & Hk & H2 & ->)|(job & rest & E & ->)]];
    split; cbn [busy buffer received next_job]; try lia.
  - rewrite seqZ_app by lia. change (seqZ (0 + next_job p) 1) with [next_job p].
    rewrite <- Hj, <- !app_assoc. apply Permutation_app_head.
    rewrite (app_assoc (buffer p)). apply Permutation_app_comm.
  - rewrite length_app. simpl. lia.
  - rewrite <- Hj. transitivity ((job :: delete k (busy p)) ++ buffer p ++ received p).
    + cbn [app]. rewrite <- app_assoc, !(app_assoc (delete k (busy p))). symmetry.
      apply Permutation_middle.
    + apply Permutation_app_tail. symmetry. by apply delete_Permutation.
  - rewrite length_delete by (by eexists). lia.
  - rewrite length_app. simpl. lia.
  - rewrite <- Hj, E. apply Permutation_app_head. rewrite app_assoc. simpl.
    rewrite Permutation_app_comm. done.
  - rewrite E in Hc. simpl in Hc. lia.
Qed.

Lemma pool_step_measure p p' : pool_step p p' -> pool_measure p' = pool_measure p - 1.
Proof.
  intros Hs. unfold pool_measure.
  destruct (pool_step_cases p p' Hs) as [(H1 & H2 & ->)|[(k & job & Hk & H2 & ->)|(job & rest & E & ->)]]; simpl.
  - rewrite length_app. simpl. lia.
  - rewrite length_app, length_delete by (by eexists). apply lookup_lt_Some in Hk. simpl. lia.
  - rewrite E. simpl. lia.
Qed.

(** A run that has not received everything can go on: no deadlock. *)
Lemma pool_progress p : pool_inv p -> pool_done iterations p = false ->
  pool_steps iterations workers p <> [].
Proof.
  intros [Hj Hn Hb Hc] Hd Hnil. unfold pool_done in Hd. apply Z.eqb_neq in Hd.
  unfold pool_steps in Hnil. apply app_nil in Hnil as [Hf Hnil]. apply app_nil in Hnil as [Hs Hr].
  assert (Eb : buffer p = []) by (unfold receive_steps in Hr; by destruct (buffer p)).
  assert (Ew : busy p = []).
  { unfold send_steps in Hs. rewrite Eb in Hs. cbn [length] in Hs.
    destruct (Z.ltb_spec (Z.of_nat 0) workers); [|lia].
    destruct (busy p) as [|job l]; [done|]. by simpl in Hs. }
  apply Permutation_length in Hj. rewrite Eb, Ew in Hj. simpl in Hj. rewrite length_seqZ in Hj.
  unfold feed_steps in Hf. rewrite Ew in Hf. cbn [length] in Hf.
  destruct (Z.ltb_spec (next_job p) iterations); [|lia].
  destruct (Z.ltb_spec (Z.of_nat 0) workers); [done|lia].
Qed.

Lemma pool_measure_nonneg p : pool_inv p -> 0 <= pool_measure p.
Proof. intros [? ? ? ?]. unfold pool_measure. lia. Qed.

Lemma pool_done_received p : pool_inv p -> pool_done iterations p = true ->
  received p ≡ₚ seqZ 0 iterations.
Proof.
  intros [Hj Hn Hb Hc] Hd. unfold pool_done in Hd. apply Z.eqb_eq in Hd.
  pose proof (Permutation_length Hj) as Hl. rewrite !length_app, length_seqZ in Hl.
  destruct (busy p), (buffer p); simpl in *; try lia.
  by assert (next_job p = iterations) as <- by lia.
Qed.

(** Whatever the scheduler picks, as many steps as the measure says finish. *)
Lemma run_pool_done schedule fuel : forall k p,
  pool_inv p -> pool_measure p <= Z.of_nat fuel ->
  exists p', run_pool iterations workers fuel schedule k p = Some p' /\ received p' ≡ₚ seqZ 0 iterations.
Proof.
  induction fuel as [|fuel IH]; intros k p Hp Hm; cbn [run_pool];
    destruct (pool_done iterations p) eqn:Hd; try (exists p; split; [done|by apply pool_done_received]).
  - exfalso. pose proof (pool_progress p Hp Hd) as Hs.
    destruct (pool_steps iterations workers p) as [|p' l] eqn:E; [done|].
    assert (Hst : pool_step p p') by (unfold pool_step; rewrite E; constructor).
    pose proof (pool_measure_nonneg p' (pool_step_inv _ _ Hp Hst)).
    rewrite (pool_step_measure _ _ Hst) in *. lia.
  - pose proof (pool_progress p Hp Hd) as Hs.
    destruct (pool_steps iterations workers p !! _) as [p'|] eqn:E.
    + assert (Hst : pool_step p p') by (by eapply list_elem_of_lookup_2).
      apply IH; [by eapply pool_step_inv|]. rewrite (pool_step_measure _ _ Hst). lia.
    + exfalso. apply lookup_ge_None in E.
      destruct (pool_steps iterations workers p) as [|p' l]; [done|].
      pose proof (Nat.mod_upper_bound (schedule k) (length (p' :: l)) ltac:(done)). lia.
Qed.

End pool.

(** Every schedule delivers every iteration once within [3 * iterations] steps. *)
Lemma run_pool_total iterations workers schedule :
  1 <= workers -> 0 <= iterations ->
  exists p, run_pool iterations workers (Z.to_nat (3 * iterations)) schedule 0 pool_start = Some p
            /\ received p ≡ₚ seqZ 0 iterations.
Proof.
  intros Hw Hi. apply run_pool_done; [done|done|by apply pool_start_inv|].
  unfold pool_measure. simpl. lia.
Qed.

Lemma effective_workers_pos cpus workers iterations : 1 <= effective_workers cpus workers iterations.
Proof. unfold effective_workers, maxMonteCarloWorkers. repeat case_match; lia. Qed.

(** ** Percentiles *)

Lemma flt_nan_l x y : is_nan x = true -> x <. y = false.
Proof. intros Hx. destruct (x <. y) eqn:E; [|done]. apply flt_not_nan in E as [? _]. congruence. Qed.

Lemma flt_nan_r x y : is_nan y = true -> x <. y = false.
Proof. intros Hy. destruct (x <. y) eqn:E; [|done]. apply flt_not_nan in E as [_ ?]. congruence. Qed.

Lemma float_less_asym x y : float_less x y = true -> float_less y x = false.
Proof.
  unfold float_less. destruct (is_nan x) eqn:Ex, (is_nan y) eqn:Ey; cbn [andb orb negb]; intros H;
    first [done|by apply flt_asym|by apply flt_nan_r|exfalso; apply flt_not_nan in H as []; congruence].
Qed.

#[export] Instance float_le_total : Total float_le.
Proof.
  intros x y. unfold float_le. destruct (float_less x y) eqn:E; [left; by apply float_less_asym|by right].
Qed.

#[export] Instance float_le_trans : Transitive float_le.
Proof.
  intros x y z. unfold float_le, float_less.
  destruct (is_nan x) eqn:Ex, (is_nan y) eqn:Ey, (is_nan z) eqn:Ez; cbn [andb orb negb]; try done;
    rewrite ?(flt_nan_r _ x), ?(flt_nan_l x) by done; try done.
  intros H1 H2. exact (fnlt_trans x y z Ey H1 H2).
Qed.

Lemma Float64s_perm l : Float64s l ≡ₚ l.
Proof. apply merge_sort_Permutation. Qed.

Lemma index_Some {A} (l : list A) i : 0 <= i < Z.of_nat (length l) -> is_Some (index l i).
Proof.
  intros Hi. unfold index. destruct (Z.ltb_spec i 0); [lia|]. apply lookup_lt_is_Some. lia.
Qed.

(** No index of [percentile] is out of range. *)
Lemma percentile_total l q : unit_fraction q = true -> Z.of_nat (length l) <= 2 ^ 20 ->
  is_Some (percentile l q).
Proof.
  intros Hq Hl. destruct l as [|x l]; [by eexists|]. unfold percentile.
  set (L := x :: l) in *. assert (Hlen : 1 <= Z.of_nat (length L)) by (subst L; simpl; lia).
  assert (Hs : length (Float64s L) = length L) by (by rewrite Float64s_perm).
  destruct (Z.eqb_spec (Z.of_nat (length L)) 1); [apply index_Some; lia|].
  destruct (fmul_within q (Z.of_nat (length L) - 1) Hq) as [Hf Hc]; [lia|].
  destruct (_ =? _); [apply index_Some; lia|].
  destruct (index_Some (Float64s L) (f_to_int (ffloor (q ⊗ f_of_Z (Z.of_nat (length L) - 1))))) as [a ->]; [lia|].
  destruct (index_Some (Float64s L) (f_to_int (fceil (q ⊗ f_of_Z (Z.of_nat (length L) - 1))))) as [b ->]; [lia|].
  by eexists.
Qed.

(** Floats other than -0 are told apart by the order. *)
Definition no_minus_zero (x : f64) : Prop := x <> S754_zero true.

Lemma float_le_antisym x y :
  no_minus_zero x -> no_minus_zero y -> float_le x y -> float_le y x -> x = y.
Proof.
  unfold no_minus_zero, float_le, float_less. intros Hx Hy.
  destruct (is_nan x) eqn:Ex, (is_nan y) eqn:Ey; cbn [andb orb negb]; try done.
  - by destruct x, y.
  - intros H1 H2.
    assert (K1 : ~ key_lt (fkey y) (fkey x)) by (intros K; by rewrite (proj2 (flt_key y x)) in H1).
    assert (K2 : ~ key_lt (fkey x) (fkey y)) by (intros K; by rewrite (proj2 (flt_key x y)) in H2).
    clear H1 H2. destruct x as [[]|[]| |[] m e], y as [[]|[]| |[] m' e']; simpl in *;
      try done; try (exfalso; lia); f_equal; lia.
Qed.

Lemma Float64s_unique l1 l2 :
  Forall no_minus_zero l1 -> l1 ≡ₚ l2 -> Float64s l1 = Float64s l2.
Proof.
  intros Hl Hp. rewrite Forall_forall in Hl.
  apply (StronglySorted_unique_strong float_le); [|apply (StronglySorted_merge_sort _)..|].
  - intros x y Hx Hy. rewrite Float64s_perm in Hx. rewrite Float64s_perm, <- Hp in Hy.
    by apply float_le_antisym; apply Hl.
  - by rewrite !Float64s_perm.
Qed.

Lemma percentile_perm l1 l2 q :
  Forall no_minus_zero l1 -> l1 ≡ₚ l2 -> percentile l1 q = percentile l2 q.
Proof.
  intros Hl Hp. unfold percentile. rewrite (Float64s_unique l1 l2 Hl Hp), (Permutation_length Hp).
  destruct l1 as [|x l1]; [by apply Permutation_nil in Hp as ->|].
  destruct l2 as [|y l2]; [by apply Permutation_length in Hp|]. done.
Qed.

Lemma finishCDF_perm l1 l2 : Forall no_minus_zero l1 -> l1 ≡ₚ l2 -> finishCDF l1 = finishCDF l2.
Proof.
  intros Hl Hp. unfold finishCDF.
  destruct l1 as [|x l1]; [by apply Permutation_nil in Hp as ->|].
  destruct l2 as [|y l2]; [by apply Permutation_length in Hp|].
  induction (seqZ 0 21) as [|i js IH]; [done|]. cbn [mapM].
  by rewrite IH, (percentile_perm _ _ _ Hl Hp).
Qed.

Lemma three_percentiles_perm l1 l2 :
  Forall no_minus_zero l1 -> l1 ≡ₚ l2 -> three_percentiles l1 = three_percentiles l2.
Proof. intros Hl Hp. unfold three_percentiles. by rewrite !(percentile_perm l1 l2 _ Hl Hp). Qed.

Lemma three_percentiles_total l : Z.of_nat (length l) <= 2 ^ 20 -> is_Some (three_percentiles l).
Proof.
  intros Hl. unfold three_percentiles.
  destruct (percentile_total l q50) as [a ->]; [by vm_compute|done|].
  destruct (percentile_total l q80) as [b ->]; [by vm_compute|done|].
  destruct (percentile_total l q90) as [c ->]; [by vm_compute|done|]. by eexists.
Qed.

Lemma cdf_probabilities_ok : forallb (fun i => unit_fraction (cdf_probability i)) (seqZ 0 21) = true.
Proof. vm_compute. reflexivity. Qed.

Lemma finishCDF_total l : Z.of_nat (length l) <= 2 ^ 20 -> is_Some (finishCDF l).
Proof.
  intros Hl. unfold finishCDF. destruct l as [|x l]; [by eexists|].
  apply mapM_is_Some_2. pose proof cdf_probabilities_ok as Hok.
  rewrite forallb_forall in Hok. apply Forall_forall. intros i Hi.
  apply fmap_is_Some. apply percentile_total; [|done]. apply Hok. by apply list_elem_of_In.
Qed.

(** ** The collecting loop *)

Section collecting.
Context `{RangeOrder}.

Lemma range_at_key {A} site (m : gmap string A) k :
  filter (fun kv : string * A => kv.1 = k) (range site m) = option_list ((fun v => (k, v)) <$> m !! k).
Proof.
  destruct (m !! k) as [v|] eqn:E; simpl.
  - apply Permutation_singleton_r. rewrite (range_perm site m).
    rewrite <- (map_to_list_delete m k v E), filter_cons_True by done.
    rewrite filter_drop; [done|]. intros [k' v'] Hin Hk. simpl in Hk. subst k'.
    apply elem_of_map_to_list in Hin. by rewrite lookup_delete_eq in Hin.
  - apply filter_drop. intros [k' v'] Hin Hk. simpl in Hk. subst k'. apply elem_of_range in Hin. congruence.
Qed.

Lemma collect_durations_at it id samples :
  default [] (collect_durations samples it !! id)
  = default [] (samples !! id) ++ option_list (it_durations it !! id).
Proof.
  unfold collect_durations.
  assert (Hg : forall l (m : gmap string (list f64)), default [] (foldl (fun samples kd =>
                 <[kd.1 := default [] (samples !! kd.1) ++ [kd.2]]> samples) m l !! id)
               = default [] (m !! id) ++ (snd <$> filter (fun kd : string * f64 => kd.1 = id) l)).
  { induction l as [|[k d] l IH]; intros m; simpl; [by rewrite app_nil_r|]. rewrite IH.
    destruct (decide (k = id)) as [->|Hne].
    - rewrite lookup_insert_eq, filter_cons_True by done. simpl. by rewrite <- app_assoc.
    - by rewrite lookup_insert_ne, filter_cons_False by done. }
  rewrite Hg, range_at_key. by destruct (it_durations it !! id).
Qed.

Lemma collect_durations_all iters id : forall samples,
  default [] (foldl collect_durations samples iters !! id)
  = default [] (samples !! id) ++ omap (fun it => it_durations it !! id) iters.
Proof.
  induction iters as [|it iters IH]; intros samples; simpl; [by rewrite app_nil_r|].
  rewrite IH, collect_durations_at, <- app_assoc. by destruct (it_durations it !! id).
Qed.

Lemma start_samples_at ids id : default [] (start_samples ids !! id) = [].
Proof.
  unfold start_samples.
  assert (Hg : forall m : gmap string (list f64), default [] (m !! id) = [] ->
    default [] (foldl (fun m id => <[id := []]> m) m ids !! id) = []).
  { induction ids as [|k ids IH]; intros m Hm; [done|]. apply IH.
    destruct (decide (k = id)) as [->|]; [by rewrite lookup_insert_eq|by rewrite lookup_insert_ne]. }
  by apply Hg.
Qed.

Definition critical_in (id : string) (it : monteCarloIteration) : bool :=
  bool_decide (it_critical it !! id = Some true).

Lemma collect_critical_at it id counts :
  zget (collect_critical counts it) id = zget counts id + (if critical_in id it then 1 else 0).
Proof.
  unfold collect_critical.
  assert (Hg : forall l (m : gmap string Z), zget (foldl (fun counts kc =>
                 if (kc.2 : bool) then <[kc.1 := zget counts kc.1 + 1]> counts else counts) m l) id
               = zget m id + sum_Z ((fun kc : string * bool => if kc.2 then 1 else 0)
                                      <$> filter (fun kc => kc.1 = id) l)).
  { induction l as [|[k b] l IH]; intros m; simpl; [lia|]. rewrite IH.
    destruct (decide (k = id)) as [->|Hne].
    - rewrite filter_cons_True by done. rewrite fmap_cons, sum_Z_cons. simpl.
      destruct b; [rewrite zget_insert_eq|]; lia.
    - rewrite filter_cons_False by done. destruct b; [rewrite zget_insert_ne by done|]; lia. }
  rewrite Hg, range_at_key. unfold critical_in.
  by destruct (it_critical it !! id) as [[]|].
Qed.

Lemma collect_critical_all iters id : forall counts,
  zget (foldl collect_critical counts iters) id
  = zget counts id + Z.of_nat (length (filter (fun it => critical_in id it = true) iters)).
Proof.
  induction iters as [|it iters IH]; intros counts; simpl; [lia|].
  rewrite IH, collect_critical_at. destruct (critical_in id it) eqn:E.
  - rewrite filter_cons_True by done. simpl. lia.
  - rewrite filter_cons_False by congruence. lia.
Qed.

End collecting.

(** ** One iteration *)

Section iteration.
Context `{RangeOrder} `{Distuv}.
Variable tasks : gmap string Task.
Hypothesis Hkeyed : well_keyed tasks.

Definition sampled_as (k : string) (sampled : gmap string Task) (durations : gmap string f64) : Prop :=
  exists t src, tasks !! k = Some t
    /\ sampled !! k = Some (set_Duration t (sampleDuration t src).1)
    /\ durations !! k = Some (sampleDuration t src).1.

Lemma sample_tasks_spec ids : forall s d src s' d' src',
  NoDup ids -> (forall k, k ∈ ids -> is_Some (tasks !! k)) ->
  foldl (sample_task tasks) (s, d, src) ids = (s', d', src') ->
  (forall k, k ∈ ids -> sampled_as k s' d')
  /\ (forall k, k ∉ ids -> s' !! k = s !! k /\ d' !! k = d !! k).
Proof.
  induction ids as [|id ids IH]; intros s d src s' d' src' Hnd Hin Hr; simpl in Hr.
  { injection Hr as <- <- <-. split; [|done]. intros k Hk. by apply elem_of_nil in Hk. }
  apply NoDup_cons in Hnd as [Hid Hnd]. destruct (Hin id) as [t Ht]; [constructor|].
  rewrite Ht in Hr. destruct (sampleDuration t src) as [x src1] eqn:Ex.
  destruct (IH _ _ _ _ _ _ Hnd ltac:(intros; apply Hin; by constructor) Hr) as [H1 H2]. split.
  - intros k Hk. apply elem_of_cons in Hk as [->|Hk]; [|by apply H1].
    destruct (H2 id Hid) as [E1 E2]. exists t, src. rewrite Ex.
    by rewrite E1, E2, !lookup_insert_eq.
  - intros k Hk. apply not_elem_of_cons in Hk as [Hne Hk]. destruct (H2 k Hk) as [-> ->].
    by rewrite !lookup_insert_ne.
Qed.

(** What the collector reads of an iteration. *)
Definition iteration_shape (ids : list string) (it : monteCarloIteration) : Prop :=
  no_minus_zero (it_finish it)
  /\ forall k d, it_durations it !! k = Some d ->
       exists t src, tasks !! k = Some t /\ d = (sampleDuration t src).1.

(** A running maximum from +0 is never -0. *)
Lemma finish_plain (get : string -> option Task) ids : forall a,
  a = fzero \/ fzero <. a = true ->
  no_minus_zero (foldl (fun finish id => match get id with
                                         | Some t => if finish <. EF t then EF t else finish
                                         | None => finish
                                         end) a ids).
Proof.
  induction ids as [|id ids IH]; intros a Ha; simpl.
  - destruct Ha as [->|Ha]; [done|]. intros ->. by vm_compute in Ha.
  - apply IH. destruct (get id) as [t|]; [|done]. destruct (a <. EF t) eqn:E; [|done]. right.
    destruct Ha as [->|Ha]; [done|]. by eapply flt_trans.
Qed.

Lemma sampled_keyed ids s d src' i :
  NoDup ids -> (forall k, k ∈ ids -> is_Some (tasks !! k)) ->
  foldl (sample_task tasks) (∅, ∅, iteration_source i) ids = (s, d, src') ->
  well_keyed s.
Proof.
  intros Hnd Hin Hr k u Hu. destruct (sample_tasks_spec _ _ _ _ _ _ _ Hnd Hin Hr) as [H1 H2].
  destruct (decide (k ∈ ids)) as [Hk|Hk].
  - destruct (H1 k Hk) as (t & src & Ht & Hs & _). rewrite Hs in Hu. injection Hu as <-.
    by apply Hkeyed in Ht.
  - destruct (H2 k Hk) as [E _]. by rewrite E, lookup_empty in Hu.
Qed.

Lemma iteration_total ids i :
  NoDup ids -> (forall k, k ∈ ids -> is_Some (tasks !! k)) ->
  exists it, runMonteCarloIteration tasks ids i = Some it /\ iteration_shape ids it.
Proof.
  intros Hnd Hin. unfold runMonteCarloIteration.
  destruct (foldl (sample_task tasks) (∅, ∅, iteration_source i) ids) as [[s d] src'] eqn:Hr.
  destruct (sample_tasks_spec _ _ _ _ _ _ _ Hnd Hin Hr) as [H1 H2].
  destruct (CalculateCPM_keeps_tasks s (sampled_keyed _ _ _ _ _ Hnd Hin Hr)) as (ok & s' & -> & Hdom).
  assert (Hall : forallb (fun id => bool_decide (is_Some (s' !! id))) ids = true).
  { apply forallb_forall. intros k Hk%list_elem_of_In. apply bool_decide_eq_true_2, Hdom.
    destruct (H1 k Hk) as (t & src & _ & Hs & _). by rewrite Hs. }
  rewrite Hall. eexists. split; [done|]. split.
  - apply finish_plain. by left.
  - simpl. intros k x Hx. destruct (decide (k ∈ ids)) as [Hk|Hk].
    + destruct (H1 k Hk) as (t & src & Ht & _ & Hd). rewrite Hd in Hx. injection Hx as <-. by exists t, src.
    + destruct (H2 k Hk) as [_ E]. by rewrite E, lookup_empty in Hx.
Qed.

End iteration.

(** ** The summary *)

Definition with_workers (w : Z) (r : SimResult) : SimResult :=
  mkSim (sim_Valid r) (sim_Error r) (sim_Iterations r) w (P50 r) (P80 r) (P90 r) (FinishCDF r)
    (CriticalPathFrequency r) (DurationPercentiles r) (TornadoDrivers r).

Definition plain_iteration (it : monteCarloIteration) : Prop :=
  no_minus_zero (it_finish it) /\ map_Forall (fun _ d => no_minus_zero d) (it_durations it).

Lemma mapM_ext {A B} (f g : A -> option B) l : (forall x, x ∈ l -> f x = g x) -> mapM f l = mapM g l.
Proof.
  induction l as [|x l IH]; intros Hf; [done|]. cbn [mapM].
  rewrite (Hf x) by constructor. rewrite IH; [done|]. intros y Hy. apply Hf. by constructor.
Qed.

Section summary.
Context `{RangeOrder}.

Definition samples_of (iters : list monteCarloIteration) (id : string) : list f64 :=
  omap (fun it => it_durations it !! id) iters.

Lemma samples_plain iters id : Forall plain_iteration iters -> Forall no_minus_zero (samples_of iters id).
Proof.
  intros Hp. apply Forall_forall. intros d Hd. apply list_elem_of_omap in Hd as (it & Hit & Hd).
  rewrite Forall_forall in Hp. destruct (Hp it Hit) as [_ Hm]. by apply (Hm id).
Qed.

Lemma finishes_plain iters : Forall plain_iteration iters -> Forall no_minus_zero (it_finish <$> iters).
Proof. intros Hp. apply Forall_fmap. eapply Forall_impl; [exact Hp|]. by intros it [? _]. Qed.

Lemma samples_length iters id : (length (samples_of iters id) <= length iters)%nat.
Proof.
  unfold samples_of. induction iters as [|it iters IH]; [done|]. csimpl.
  destruct (it_durations it !! id); csimpl; lia.
Qed.

Lemma collected_samples ids iters id :
  default [] (foldl collect_durations (start_samples ids) iters !! id) = samples_of iters id.
Proof. by rewrite collect_durations_all, start_samples_at. Qed.

(** The summary depends on which iterations were received, not on their order. *)
Lemma summarise_perm ids n w iters1 iters2 :
  Forall plain_iteration iters1 -> iters1 ≡ₚ iters2 ->
  summarise ids n w iters1 = summarise ids n w iters2.
Proof.
  intros Hp Hperm. unfold summarise.
  assert (Hfin : it_finish <$> iters1 ≡ₚ it_finish <$> iters2) by (by rewrite Hperm).
  pose proof (finishes_plain iters1 Hp) as Hfp.
  rewrite (three_percentiles_perm _ _ Hfp Hfin), (finishCDF_perm _ _ Hfp Hfin).
  assert (Hs : forall id, three_percentiles (default [] (foldl collect_durations (start_samples ids) iters1 !! id))
    = three_percentiles (default [] (foldl collect_durations (start_samples ids) iters2 !! id))).
  { intros id. rewrite !collected_samples. apply three_percentiles_perm; [by apply samples_plain|].
    unfold samples_of. by rewrite Hperm. }
  rewrite (mapM_ext _ (fun id => (fun p => (id, p)) <$> three_percentiles
    (default [] (foldl collect_durations (start_samples ids) iters2 !! id)))) by (intros; by rewrite Hs).
  assert (Hc : forall id, zget (foldl collect_critical ∅ iters1) id = zget (foldl collect_critical ∅ iters2) id).
  { intros id. rewrite !collect_critical_all. do 2 f_equal. apply Permutation_length. by rewrite Hperm. }
  assert (Hf : ((fun id => (id, f_of_Z (zget (foldl collect_critical ∅ iters1) id) ⊘ f_of_Z n)) <$> ids)
             = ((fun id => (id, f_of_Z (zget (foldl collect_critical ∅ iters2) id) ⊘ f_of_Z n)) <$> ids)).
  { apply list_fmap_ext. intros i id _. by rewrite Hc. }
  by rewrite Hf.
Qed.

Lemma summarise_total ids n w iters : Z.of_nat (length iters) <= 2 ^ 20 ->
  is_Some (summarise ids n w iters).
Proof.
  intros Hl. unfold summarise.
  destruct (three_percentiles_total (it_finish <$> iters)) as [[[a b] c] ->]; [by rewrite length_fmap|].
  destruct (finishCDF_total (it_finish <$> iters)) as [cdf ->]; [by rewrite length_fmap|].
  destruct (mapM_is_Some_2 (fun id => (fun p => (id, p)) <$> three_percentiles
    (default [] (foldl collect_durations (start_samples ids) iters !! id))) ids) as [ps ->]; [|by eexists].
  apply Forall_forall. intros id _. apply fmap_is_Some, three_percentiles_total.
  rewrite collected_samples. pose proof (samples_length iters id). lia.
Qed.

Lemma summarise_workers ids n w1 w2 iters :
  summarise ids n w2 iters = with_workers w2 <$> summarise ids n w1 iters.
Proof. unfold summarise. repeat case_match; done. Qed.

End summary.

(** ** Validation *)

Definition estimate_ok (e : DurationEstimate) : Prop :=
  Empty e = true
  \/ normalizedDistribution (Distribution e) ∈ [MonteCarloTriangular; MonteCarloBetaPERT; MonteCarloNormal]
     /\ Optimistic e <. fzero = false /\ MostLikely e <. fzero = false /\ Pessimistic e <. fzero = false
     /\ MostLikely e <. Optimistic e = false /\ Pessimistic e <. MostLikely e = false.

Definition entry_ok (id : string) (task : option Task) : Prop :=
  exists t, task = Some t /\ ID t = id /\ id <> ""%string /\ Duration t <. fzero = false
    /\ estimate_ok (Estimate t).

Lemma validateDurationEstimate_spec t :
  validateDurationEstimate t = Ok () <-> estimate_ok (Estimate t).
Proof.
  unfold validateDurationEstimate, estimate_ok.
  destruct (Empty (Estimate t)); [split; auto|].
  destruct (bool_decide _) eqn:Ed; cbn [negb].
  2:{ apply bool_decide_eq_false in Ed. split; [done|]. by intros [?|[? _]]. }
  apply bool_decide_eq_true in Ed.
  destruct (Optimistic _ <. _), (MostLikely _ <. fzero), (Pessimistic _ <. fzero),
    (MostLikely _ <. Optimistic _), (Pessimistic _ <. MostLikely _); cbn [orb];
    split; try done; try (intros [?|?]; intuition congruence); intros _; right; done.
Qed.

Lemma validate_entry_spec id task : validate_entry id task = Ok () <-> entry_ok id task.
Proof.
  unfold validate_entry, entry_ok. destruct task as [t|]; [|split; [done|by intros (? & ? & _)]].
  destruct (String.eqb_spec (ID t) "") as [He|He].
  { split; [done|]. intros (t' & [= <-] & Hid & Hne & _). congruence. }
  destruct (String.eqb_spec (ID t) id) as [Hid|Hid]; cbn [negb].
  2:{ split; [done|]. intros (t' & [= <-] & ? & _). done. }
  destruct (Duration t <. fzero) eqn:Ed.
  { split; [done|]. intros (t' & [= <-] & _ & _ & ? & _). congruence. }
  rewrite validateDurationEstimate_spec. split.
  - intros H. exists t. by subst id.
  - by intros (t' & [= <-] & _ & _ & _ & ?).
Qed.

Lemma validate_entries_spec l : forall ids0 ids,
  validate_entries l ids0 = Ok ids
  <-> Forall (fun kt => entry_ok kt.1 kt.2) l /\ ids = ids0 ++ l.*1.
Proof.
  induction l as [|[id task] l IH]; intros ids0 ids; simpl.
  - rewrite app_nil_r. split; [by intros [= ->]|by intros [_ ->]].
  - destruct (validate_entry id task) as [[]|e] eqn:E.
    + apply validate_entry_spec in E. rewrite IH, Forall_cons, <- app_assoc. simpl. tauto.
    + rewrite Forall_cons. simpl. rewrite <- validate_entry_spec. split; [done|]. intros [[? _] _]. congruence.
Qed.

Section validation.
Context `{RangeOrder}.

Lemma live_tasks_lookup tasks k t : live_tasks tasks !! k = Some t <-> tasks !! k = Some (Some t).
Proof.
  unfold live_tasks. rewrite lookup_omap. destruct (tasks !! k) as [[t'|]|]; simpl; naive_solver.
Qed.

Lemma entries_keyed tasks : map_Forall entry_ok tasks -> well_keyed (live_tasks tasks).
Proof.
  intros Hf k t Ht. apply live_tasks_lookup in Ht. by destruct (Hf _ _ Ht) as (t' & [= <-] & ? & _).
Qed.

Lemma validate_spec tasks iterations ids :
  validateMonteCarloInputs tasks iterations = Ok ids
  <-> 0 < iterations <= maxMonteCarloIterations /\ map_Forall entry_ok tasks
      /\ acyclic (live_tasks tasks) /\ ids = sort_strings (map_to_list tasks).*1.
Proof.
  unfold validateMonteCarloInputs.
  destruct (Z.leb_spec iterations 0); [split; [done|lia]|].
  destruct (Z.ltb_spec maxMonteCarloIterations iterations); [split; [done|lia]|].
  assert (Hent : Forall (fun kt => entry_ok kt.1 kt.2) (range 21 tasks) <-> map_Forall entry_ok tasks).
  { rewrite (range_perm 21 tasks), map_Forall_to_list.
    split; intros Hf; (eapply Forall_impl; [exact Hf|]); by intros []. }
  destruct (validate_entries (range 21 tasks) []) as [ids'|e] eqn:Ev; cbn [rbind].
  - apply validate_entries_spec in Ev as [Hf ->]. apply Hent in Hf.
    pose proof (topoSort_acyclic _ (entries_keyed tasks Hf)) as Hac.
    assert (Hk : sort_strings ([] ++ (range 21 tasks).*1) = sort_strings (map_to_list tasks).*1)
      by (apply sort_strings_unique; simpl; by rewrite (range_perm 21 tasks)).
    destruct (topoSort (live_tasks tasks)) as [order|].
    + rewrite Hk. split; [intros [= <-]; split_and!; try done; apply Hac; by eexists|].
      by intros (_ & _ & _ & ->).
    + split; [done|]. intros (_ & _ & Ha & _). apply Hac in Ha as [? ?]. done.
  - split; [done|]. intros (_ & Hf & _). apply Hent in Hf.
    assert (Hok : validate_entries (range 21 tasks) [] = Ok ([] ++ (range 21 tasks).*1))
      by (by apply validate_entries_spec). congruence.
Qed.

(** Inputs are accepted exactly when there are 1 to 100,000 iterations,
    every entry is a task under its own non-empty id with a duration and an
    estimate in order, and the graph has no cycle; the ids come back sorted,
    whatever order the map was read in.  Then a distribution is only ever asked
    for a proper interval around its mode. *)
Theorem validateMonteCarloInputs_spec tasks iterations :
  (forall ids, validateMonteCarloInputs tasks iterations = Ok ids
     <-> 0 < iterations <= maxMonteCarloIterations /\ map_Forall entry_ok tasks
         /\ acyclic (live_tasks tasks) /\ ids = sort_strings (map_to_list tasks).*1)
  /\ forall ids k t, validateMonteCarloInputs tasks iterations = Ok ids ->
     tasks !! k = Some (Some t) -> Empty (Estimate t) = false ->
     Optimistic (Estimate t) ==. Pessimistic (Estimate t) = false ->
     is_nan (Optimistic (Estimate t)) = false -> is_nan (MostLikely (Estimate t)) = false ->
     is_nan (Pessimistic (Estimate t)) = false ->
     Optimistic (Estimate t) <. Pessimistic (Estimate t) = true
     /\ MostLikely (Estimate t) <. Optimistic (Estimate t) = false
     /\ Pessimistic (Estimate t) <. MostLikely (Estimate t) = false.
Proof.
  split; [intros ids; apply validate_spec|].
  intros ids k t Hv Ht He Hne N1 N2 N3. apply validate_spec in Hv as (_ & Hf & _).
  destruct (Hf k _ Ht) as (t' & [= <-] & _ & _ & _ & [Hemp|(_ & _ & _ & _ & H1 & H2)]); [congruence|].
  split_and!; [|done|done].
  destruct (Optimistic (Estimate t) <. Pessimistic (Estimate t)) eqn:E; [done|exfalso].
  assert (E2 : Pessimistic (Estimate t) <. Optimistic (Estimate t) = false)
    by (by eapply (fnlt_trans _ (MostLikely (Estimate t)))).
  clear - E E2 Hne N1 N3. apply not_true_iff_false in E, E2, Hne. rewrite flt_key in E, E2. apply Hne.
  destruct (Optimistic (Estimate t)) as [[]|[]| |[] m e], (Pessimistic (Estimate t)) as [[]|[]| |[] m' e'];
    simpl in *; try done; try (exfalso; intuition lia); unfold feq, SFeqb, SFcompare; simpl;
    try (assert (e = e') as -> by lia; assert (m = m') as -> by lia; rewrite Z.compare_refl; simpl;
         change (Pos.compare_cont Eq m' m') with (Pos.compare m' m'); by rewrite Pos.compare_refl).
Qed.

End validation.

(** ** The simulation *)

Section simulation.
Context `{RangeOrder} `{Distuv}.

(** No distribution answers -0, and no fixed duration is -0. *)
Definition plain_samples (tasks : gmap string (option Task)) : Prop :=
  forall k t src, tasks !! k = Some (Some t) -> no_minus_zero (sampleDuration t src).1.

(** C5. A simulation returns: no schedule of its goroutines blocks, loses an
    iteration, runs past its steps or panics, whatever the inputs.  And its
    result depends on the tasks and the number of iterations only: the
    scheduler, the processors and the number of workers asked for show in the
    Workers field alone. *)
Theorem RunMonteCarlo_deterministic tasks iterations :
  plain_samples tasks ->
  exists r, forall schedule cpus workers,
    RunMonteCarlo schedule cpus tasks iterations workers
    = Some (with_workers (effective_workers cpus workers iterations) r).
Proof.
  intros Hplain. unfold RunMonteCarlo.
  destruct (validateMonteCarloInputs tasks iterations) as [ids|e] eqn:Ev;
    [|by exists (empty_sim iterations 0 (Some e))].
  destruct ids as [|id0 ids0]; [by exists (empty_sim iterations 0 None)|].
  set (ids := id0 :: ids0) in *. apply validate_spec in Ev as (Hn & Hf & _ & Hids).
  assert (Hnd : NoDup ids) by (rewrite Hids, sort_strings_perm; apply NoDup_fst_map_to_list).
  assert (Hin : forall k, k ∈ ids -> is_Some (live_tasks tasks !! k)).
  { intros k Hk. rewrite Hids, elem_of_sort_strings in Hk.
    apply list_elem_of_fmap in Hk as ([k' task] & -> & Hk). apply elem_of_map_to_list in Hk.
    destruct (Hf _ _ Hk) as (t & -> & _). exists t. by apply live_tasks_lookup. }
  set (f := runMonteCarloIteration (live_tasks tasks) ids).
  set (g := fun i => default (mkIteration fzero ∅ ∅) (f i)).
  assert (Hfg : forall i, f i = Some (g i) /\ plain_iteration (g i)).
  { intros i. destruct (iteration_total _ (entries_keyed tasks Hf) ids i Hnd Hin) as (it & Hit & H1 & H2).
    unfold g, f. rewrite Hit. split; [done|]. split; [done|]. intros k d Hd.
    destruct (H2 k d Hd) as (t & src & Ht & ->). by eapply Hplain, live_tasks_lookup. }
  assert (Hmap : forall l, mapM f l = Some (g <$> l)).
  { intros l. induction l as [|i l IH]; [done|]. cbn [mapM]. rewrite (proj1 (Hfg i)), IH. done. }
  assert (Hpl : forall l, Forall plain_iteration (g <$> l)).
  { intros l. apply Forall_fmap, Forall_forall. intros i _. apply Hfg. }
  destruct (summarise_total ids iterations 0 (g <$> seqZ 0 iterations)) as [r Hr].
  { rewrite length_fmap, length_seqZ. unfold maxMonteCarloIterations in Hn. lia. }
  exists r. intros schedule cpus workers.
  destruct (run_pool_total iterations (effective_workers cpus workers iterations) schedule) as (p & -> & Hp);
    [apply effective_workers_pos|lia|].
  rewrite Hmap, (summarise_perm _ _ _ _ (g <$> seqZ 0 iterations)) by (done || by rewrite Hp).
  by rewrite (summarise_workers _ _ 0), Hr.
Qed.

End simulation.
