(* ===== verification/MonteCarloHistory.v ===== *)
(** * Simulations of a concrete project

    A toy distribution that answers the mode, three linked tasks, and the
    instances of the theorems on them. *)

From S2P Require Import Prelude GoFloat GoStrings Scheduler SchedulerTopo SchedulerCPM.
From S2P Require Import MonteCarlo MonteCarloTheorems.

Local Open Scope Z_scope.

Definition next_source (src : PCG) : PCG := mkPCG (pcg_hi src) (wrapu64 (pcg_lo src + 1)).

(** The middle of the interval, or one more when the source is odd. *)
Definition toy_distuv : Distuv :=
  {| Beta_Rand := fun _ _ src => (q50, next_source src);
     Normal_Rand := fun mu _ src => (mu, next_source src);
     Triangle_Rand := fun low high mode src =>
       (if Z.even (pcg_lo src) then f_of_Z 2 else f_of_Z 3, next_source src) |}.

Definition demo_task (id : string) (days : Z) (pred : list string) (e : DurationEstimate) : Task :=
  mkTask id "" (f_of_Z days) pred [] e "" "" fzero false false
    fzero false "" "" fzero 0 fzero 0 [] false [] [] fzero fzero fzero fzero fzero false "" "".

Definition risky : DurationEstimate :=
  mkEstimate (f_of_Z 1) (f_of_Z 2) (f_of_Z 4) " Triangular ".

Definition certain : DurationEstimate := mkEstimate fzero fzero fzero "".

Definition demo_tasks : gmap string (option Task) :=
  <["a" := Some (demo_task "a" 2 [] certain)]>
  (<["b" := Some (demo_task "b" 5 ["a"] risky)]>
  (<["c" := Some (demo_task "c" 4 ["a"] certain)]> ∅))%string.

#[local] Existing Instance key_order.
#[local] Existing Instance toy_distuv.

Definition one_by_one (k : nat) : nat := 0.
Definition last_first (k : nat) : nat := (k * k + 2)%nat.

Example two_schedules :
  RunMonteCarlo one_by_one 8 demo_tasks 6 3 = RunMonteCarlo last_first 8 demo_tasks 6 3
  /\ run_pool 6 3 18 one_by_one 0 pool_start <> run_pool 6 3 18 last_first 0 pool_start
  /\ option_map (fun r => (sim_Valid r, P50 r ==. f_of_Z 6, length (TornadoDrivers r)))
       (RunMonteCarlo one_by_one 8 demo_tasks 6 3) = Some (true, true, 3%nat).
Proof. split_and!; [by vm_compute|intros H; by vm_compute in H|by vm_compute]. Qed.

Lemma demo_plain : plain_samples demo_tasks.
Proof.
  intros k t src Ht. unfold demo_tasks in Ht.
  apply lookup_insert_Some in Ht as [[_ [= <-]]|[_ Ht]]; [intros E; by vm_compute in E|].
  apply lookup_insert_Some in Ht as [[_ [= <-]]|[_ Ht]].
  { intros E. change (sampleDuration _ src).1 with (if Z.even (pcg_lo src) then f_of_Z 2 else f_of_Z 3) in E.
    destruct (Z.even (pcg_lo src)); by vm_compute in E. }
  apply lookup_insert_Some in Ht as [[_ [= <-]]|[_ Ht]]; [intros E; by vm_compute in E|].
  by rewrite lookup_empty in Ht.
Qed.

Lemma RunMonteCarlo_deterministic_witness :
  exists r, forall schedule cpus workers,
    RunMonteCarlo schedule cpus demo_tasks 6 workers
    = Some (with_workers (effective_workers cpus workers 6) r).
Proof. apply (RunMonteCarlo_deterministic demo_tasks 6). exact demo_plain. Defined.

Lemma demo_validated : validateMonteCarloInputs demo_tasks 6 = Ok ["a"; "b"; "c"]%string.
Proof. by vm_compute. Qed.

Lemma validateMonteCarloInputs_spec_witness :
  0 < 6 <= maxMonteCarloIterations
  /\ f_of_Z 1 <. f_of_Z 4 = true.
Proof.
  destruct (validateMonteCarloInputs_spec demo_tasks 6) as [H1 H2]. split.
  - apply (H1 ["a"; "b"; "c"]%string). exact demo_validated.
  - assert (Hb : demo_tasks !! "b"%string = Some (Some (demo_task "b" 5 ["a"%string] risky))) by (by vm_compute).
    exact (proj1 (H2 _ _ _ demo_validated Hb eq_refl eq_refl eq_refl eq_refl eq_refl)).
Defined.
