(* ===== verification/Anchor.v ===== *)
(** * kernel/anchor.go: day offsets and calendar dates

    [AnchorSchedule], [DayOffset] and [ApplyConstraintDates] over an injected
    work calendar; a nil [WorkdayFunc] is [None].  A read past the end of the
    date table, and a table that cannot be made, panic: [None]. *)

From S2P Require Import Prelude GoFloat GoStrings GoTime Scheduler.

Local Open Scope Z_scope.

Definition WorkdayFunc : Type := Time -> bool.

Definition maxNonWorkdayRun : nat := 366.

(** [if isWorkday == nil { every day }]. *)
Definition resolve_workday (isWorkday : option WorkdayFunc) : WorkdayFunc :=
  default (fun _ => true) isWorkday.

(** [for !isWorkday(d) && run < maxNonWorkdayRun]: [room] is what is left of
    the run. *)
Fixpoint skip_nonworking (isWorkday : WorkdayFunc) (room : nat) (d : Time) : Time :=
  match room with
  | O => d
  | S room' => if isWorkday d then d else skip_nonworking isWorkday room' (AddDays d 1)
  end.

Definition first_workday (isWorkday : WorkdayFunc) (d : Time) : Time :=
  skip_nonworking isWorkday maxNonWorkdayRun d.

Definition next_workday (isWorkday : WorkdayFunc) (d : Time) : Time :=
  first_workday isWorkday (AddDays d 1).

(** [n] dates, the first one given. *)
Fixpoint workdays_from (isWorkday : WorkdayFunc) (n : nat) (d : Time) : list Time :=
  match n with
  | O => []
  | S n' => d :: workdays_from isWorkday n' (next_workday isWorkday d)
  end.

(** ** Offsets of a task *)

Definition startOffset (t : Task) : Z :=
  let s := f_to_int (fround (ES t)) in
  if s <? 0 then 0 else s.

Definition finishOffset (t : Task) : Z :=
  let s := startOffset t in
  let f := wrap64 (f_to_int (fceil (EF t)) - 1) in
  if f <? s then s else f.

(** ** AnchorSchedule *)

Definition max_step (maxOffset : Z) (e : string * Task) : Z :=
  if maxOffset <? finishOffset e.2 then finishOffset e.2 else maxOffset.

(** Range site 9. *)
Definition max_offset `{RangeOrder} (tasks : gmap string Task) : Z :=
  foldl max_step 0 (range 9 tasks).

Definition date_at (dates : list Time) (i : Z) : option Time :=
  if i <? 0 then None else dates !! Z.to_nat i.

Definition anchor_task (dates : list Time) (t : Task) : option Task :=
  match date_at dates (startOffset t), date_at dates (finishOffset t) with
  | Some s, Some f => Some (set_FinishDate (set_StartDate t (FormatDate s)) (FormatDate f))
  | _, _ => None
  end.

(** The loop that writes the dates of each task. *)
Fixpoint anchor_all (dates : list Time) (l : list (string * Task)) (tasks : gmap string Task)
    : option (gmap string Task) :=
  match l with
  | [] => Some tasks
  | (k, t) :: l' =>
      match anchor_task dates t with
      | None => None
      | Some t' => anchor_all dates l' (<[k := t']> tasks)
      end
  end.

(** The bytes of a [time.Time]. *)
Definition time_size : Z := 24.

(** Range site 10 for the writing loop. *)
Definition AnchorSchedule `{RangeOrder} (tasks : gmap string Task) (projectStart : Time)
    (isWorkday : option WorkdayFunc) : option (gmap string Task) :=
  if (size tasks =? 0)%nat then Some tasks
  else
    let isWorkday := resolve_workday isWorkday in
    let maxOffset := max_offset tasks in
    let n := wrap64 (maxOffset + 1) in
    if can_make time_size n then
      let dates := workdays_from isWorkday (Z.to_nat n) (first_workday isWorkday projectStart) in
      anchor_all dates (range 10 tasks) tasks
    else None.

(** ** DayOffset *)

Fixpoint offset_loop (isWorkday : WorkdayFunc) (fuel : nat) (date d : Time) (offset : Z)
    : option f64 :=
  match fuel with
  | O => None
  | S fuel' =>
      if negb (Before d date) then Some (f_of_Z offset)
      else offset_loop isWorkday fuel' date (next_workday isWorkday d) (offset + 1)
  end.

(** [None] is [(0, false)]. *)
Definition DayOffset (projectStart date : Time) (isWorkday : option WorkdayFunc) : option f64 :=
  let isWorkday := resolve_workday isWorkday in
  offset_loop isWorkday (Z.to_nat 100000) date (first_workday isWorkday projectStart) 0.

(** ** ApplyConstraintDates *)

Definition dated_constraint (c : ConstraintType) : bool :=
  String.eqb c StartNoEarlierThan || String.eqb c FinishNoLaterThan || String.eqb c MustFinishOn.

Definition constrain_task (projectStart : Time) (isWorkday : option WorkdayFunc) (t : Task) : Task :=
  let t := set_ConstraintArmed t false in
  if negb (dated_constraint (Constraint t)) then t
  else match ParseDate (ConstraintDate t) with
       | None => t
       | Some date =>
           match DayOffset projectStart date isWorkday with
           | None => t
           | Some day =>
               let day := if String.eqb (Constraint t) FinishNoLaterThan
                             || String.eqb (Constraint t) MustFinishOn
                          then day ⊕ fone else day in
               set_ConstraintArmed (set_ConstraintDay t day) true
           end
       end.

(** Each task is updated on its own, so the order of the loop is immaterial. *)
Definition ApplyConstraintDates (tasks : gmap string Task) (projectStart : Time)
    (isWorkday : option WorkdayFunc) : gmap string Task :=
  constrain_task projectStart isWorkday <$> tasks.

(** ** The date table *)

Lemma workdays_from_length isW n d : length (workdays_from isW n d) = n.
Proof. revert d. induction n as [|n IH]; intros d; simpl; [done|]. by rewrite IH. Qed.

Definition workday_at (isW : WorkdayFunc) (start : Time) (i : nat) : Time :=
  Nat.iter i (next_workday isW) (first_workday isW start).

Lemma iter_swap {A : Type} (f : A -> A) i x : Nat.iter i f (f x) = f (Nat.iter i f x).
Proof. induction i as [|i IH]; simpl; [done|]. by rewrite IH. Qed.

Lemma workdays_from_lookup isW n i : forall d,
  (i < n)%nat -> workdays_from isW n d !! i = Some (Nat.iter i (next_workday isW) d).
Proof.
  revert i. induction n as [|n IH]; intros i d Hi; [lia|].
  destruct i as [|i]; [done|]. simpl. rewrite IH by lia. by rewrite iter_swap.
Qed.

Lemma max_step_ge l : forall m, m <= foldl max_step m l.
Proof.
  induction l as [|e l IH]; intros m; simpl; [lia|].
  specialize (IH (max_step m e)). unfold max_step in *. case_match; lia.
Qed.

Lemma max_step_elem l : forall m e, e ∈ l -> finishOffset e.2 <= foldl max_step m l.
Proof.
  induction l as [|x l IH]; intros m e He; [by apply not_elem_of_nil in He|].
  apply elem_of_cons in He as [->|He]; simpl; [|by apply IH].
  pose proof (max_step_ge l (max_step m x)). unfold max_step in *. case_match; lia.
Qed.

Lemma startOffset_nonneg t : 0 <= startOffset t.
Proof. unfold startOffset. case_match; lia. Qed.

Lemma finishOffset_ge t : startOffset t <= finishOffset t.
Proof. unfold finishOffset. case_match; lia. Qed.

Lemma finishOffset_range t : finishOffset t < 2 ^ 63.
Proof.
  unfold finishOffset. pose proof (wrap64_range (f_to_int (fceil (EF t)) - 1)).
  unfold startOffset. pose proof (f_to_int_range (fround (ES t))). unfold min_int64, max_int64 in *.
  repeat case_match; lia.
Qed.

Lemma max_offset_ge `{RangeOrder} tasks k t :
  tasks !! k = Some t -> finishOffset t <= max_offset tasks.
Proof.
  intros Hk. apply (elem_of_range 9) in Hk. unfold max_offset. by apply (max_step_elem _ 0 (k, t)).
Qed.

(** The dates a task gets. *)
Definition anchored (isW : WorkdayFunc) (start : Time) (t : Task) : Task :=
  set_FinishDate
    (set_StartDate t (FormatDate (workday_at isW start (Z.to_nat (startOffset t)))))
    (FormatDate (workday_at isW start (Z.to_nat (finishOffset t)))).

Lemma anchor_task_some isW start n t :
  finishOffset t < n ->
  anchor_task (workdays_from isW (Z.to_nat n) (first_workday isW start)) t
  = Some (anchored isW start t).
Proof.
  intros Hn. pose proof (startOffset_nonneg t). pose proof (finishOffset_ge t).
  unfold anchor_task, date_at. rewrite !(proj2 (Z.ltb_ge _ 0)) by lia.
  by rewrite !workdays_from_lookup by lia.
Qed.

Lemma anchor_all_lookup dates (f : Task -> Task) l : forall tasks,
  NoDup l.*1 -> Forall (fun e => anchor_task dates e.2 = Some (f e.2)) l ->
  exists tasks', anchor_all dates l tasks = Some tasks'
    /\ (forall k t, (k, t) ∈ l -> tasks' !! k = Some (f t))
    /\ (forall k, k ∉ l.*1 -> tasks' !! k = tasks !! k).
Proof.
  induction l as [|[k t] l IH]; intros tasks Hnd Hf; simpl.
  - exists tasks. split_and!; [done|set_solver|done].
  - apply NoDup_cons in Hnd as [Hk Hnd]. apply Forall_cons in Hf as [Ht Hf]. simpl in Ht.
    rewrite Ht. destruct (IH (<[k := f t]> tasks) Hnd Hf) as (tasks' & -> & Hin & Hout).
    exists tasks'. split_and!; [done| |].
    + intros k' t' He. apply elem_of_cons in He as [[= -> ->]|He]; [|by apply Hin].
      rewrite Hout by done. by rewrite lookup_insert_eq.
    + intros k' Hn. apply not_elem_of_cons in Hn as [Hne Hn].
      rewrite Hout by done. by rewrite lookup_insert_ne.
Qed.

(** The offsets a date table can hold: 2^48 bytes of times. *)
Definition table_offsets : Z := maxAlloc / time_size.

Definition offset_fits (t : Task) : Prop := finishOffset t < table_offsets.

#[export] Instance offset_fits_dec t : Decision (offset_fits t).
Proof. unfold offset_fits. apply _. Defined.

Lemma max_step_lt b l : forall m, m < b -> (forall e, e ∈ l -> finishOffset e.2 < b) -> foldl max_step m l < b.
Proof.
  induction l as [|e l IH]; intros m Hm Hl; [done|]. cbn [foldl]. apply IH.
  - unfold max_step. specialize (Hl e ltac:(apply elem_of_cons; by left)). case_match; lia.
  - intros e' He'. apply Hl. by apply elem_of_cons; right.
Qed.

(** The table is made exactly when every offset fits. *)
Lemma table_made `{RangeOrder} tasks :
  can_make time_size (wrap64 (max_offset tasks + 1)) = bool_decide (map_Forall (fun _ t => offset_fits t) tasks).
Proof.
  pose proof (max_step_ge (range 9 tasks) 0) as H0. fold (max_offset tasks) in H0.
  assert (H1 : max_offset tasks < 2 ^ 63).
  { apply max_step_lt; [lia|]. intros e _. apply finishOffset_range. }
  unfold can_make, offset_fits, table_offsets, maxAlloc, time_size. case_bool_decide as Hall.
  - assert (max_offset tasks < 2 ^ 48 / 24).
    { apply max_step_lt; [done|]. intros [k t] He. apply elem_of_range in He. by apply (Hall k t). }
    assert (2 ^ 48 / 24 = 11728124029610) as E by done. rewrite E in *. rewrite wrap64_id by lia. lia.
  - apply andb_false_iff. destruct (wrap64_cases (max_offset tasks + 1)) as [[-> _]|[-> ?]]; [lia| |left; lia].
    right. apply Z.leb_gt. destruct (Z.lt_ge_cases (max_offset tasks) (2 ^ 48 / 24)) as [Hlt|].
    + exfalso. apply Hall. intros k t Ht. pose proof (max_offset_ge tasks k t Ht). lia.
    + assert (2 ^ 48 / 24 = 11728124029610) as E by done. rewrite E in *. lia.
Qed.

(** The schedule is anchored task by task. *)
Lemma AnchorSchedule_anchored `{RangeOrder} tasks start isW :
  AnchorSchedule tasks start isW
  = if bool_decide (map_Forall (fun _ t => offset_fits t) tasks)
    then Some (anchored (resolve_workday isW) start <$> tasks) else None.
Proof.
  unfold AnchorSchedule. destruct (Nat.eqb_spec (size tasks) 0) as [Hs|_].
  - apply map_size_empty_inv in Hs as ->. rewrite bool_decide_eq_true_2 by apply map_Forall_empty.
    by rewrite fmap_empty.
  - rewrite table_made. case_bool_decide as Hall; [|done].
    assert (Hw : wrap64 (max_offset tasks + 1) = max_offset tasks + 1).
    { apply wrap64_id. pose proof (max_step_ge (range 9 tasks) 0). unfold max_offset in *.
      assert (foldl max_step 0 (range 9 tasks) < table_offsets).
      { apply max_step_lt; [done|]. intros [k t] He. apply elem_of_range in He. by apply (Hall k t). }
      assert (table_offsets = 11728124029610) as E by done. rewrite E in *. lia. }
    rewrite Hw. set (w := resolve_workday isW).
    destruct (anchor_all_lookup (workdays_from w (Z.to_nat (max_offset tasks + 1)) (first_workday w start))
      (anchored w start) (range 10 tasks) tasks) as (tasks' & -> & Hin & Hout).
    + auto with gopm.
    + apply Forall_forall. intros [k t] Hk. apply elem_of_range in Hk. simpl.
      apply anchor_task_some. pose proof (max_offset_ge tasks k t Hk). lia.
    + f_equal. apply map_eq. intros k. rewrite lookup_fmap.
      destruct (tasks !! k) as [t|] eqn:Hk; simpl.
      * apply Hin. by apply elem_of_range.
      * rewrite Hout; [done|]. rewrite elem_of_range_keys, Hk. by intros [? ?].
Qed.

(** ** The working days of a calendar

    A calendar never rejects more than [maxNonWorkdayRun] days in a row. *)

Definition calendar_ok (isW : WorkdayFunc) : Prop :=
  forall d, exists k : nat, (k <= maxNonWorkdayRun)%nat /\ isW (AddDays d (Z.of_nat k)) = true.

Lemma AddDays_lt d a b : AddDays d a < AddDays d b <-> a < b.
Proof. unfold AddDays, day_ns. lia. Qed.

Lemma skip_nonworking_spec isW room : forall d,
  exists n : nat, (n <= room)%nat /\ skip_nonworking isW room d = AddDays d (Z.of_nat n)
    /\ (forall j : nat, (j < n)%nat -> isW (AddDays d (Z.of_nat j)) = false)
    /\ ((exists k : nat, (k <= room)%nat /\ isW (AddDays d (Z.of_nat k)) = true) ->
        isW (AddDays d (Z.of_nat n)) = true).
Proof.
  induction room as [|room IH]; intros d; simpl.
  - exists 0%nat. rewrite AddDays_0. split_and!; [lia|done|lia|].
    intros (k & Hk & Hw). assert (k = 0%nat) as -> by lia. by rewrite AddDays_0 in Hw.
  - destruct (isW d) eqn:Hd.
    + exists 0%nat. rewrite AddDays_0. split_and!; [lia|done|lia|done].
    + destruct (IH (AddDays d 1)) as (n & Hn & -> & Hno & Hyes). exists (S n).
      rewrite AddDays_add. replace (1 + Z.of_nat n) with (Z.of_nat (S n)) by lia.
      split_and!; [lia|done| |].
      * intros [|j] Hj; [by rewrite AddDays_0|].
        specialize (Hno j ltac:(lia)). rewrite AddDays_add in Hno.
        by replace (Z.of_nat (S j)) with (1 + Z.of_nat j) by lia.
      * intros (k & Hk & Hw). destruct k as [|k]; [rewrite AddDays_0 in Hw; congruence|].
        replace (Z.of_nat (S n)) with (1 + Z.of_nat n) by lia. rewrite <- AddDays_add.
        apply Hyes. exists k. split; [lia|]. rewrite AddDays_add.
        by replace (1 + Z.of_nat k) with (Z.of_nat (S k)) by lia.
Qed.

Section Working.
Context (isW : WorkdayFunc) (Hcal : calendar_ok isW) (start : Time).

Lemma first_workday_spec d :
  exists n : nat, first_workday isW d = AddDays d (Z.of_nat n)
    /\ isW (AddDays d (Z.of_nat n)) = true
    /\ (forall j : nat, (j < n)%nat -> isW (AddDays d (Z.of_nat j)) = false).
Proof.
  destruct (skip_nonworking_spec isW maxNonWorkdayRun d) as (n & _ & He & Hno & Hyes).
  exists n. split_and!; [done|by apply Hyes|done].
Qed.

(** The day count of the i-th working day. *)
Lemma workday_at_spec i :
  exists n : Z, Z.of_nat i <= n /\ workday_at isW start i = AddDays start n
    /\ isW (AddDays start n) = true
    /\ (forall n', 0 <= n' < n -> isW (AddDays start n') = true ->
        exists j, (j < i)%nat /\ workday_at isW start j = AddDays start n').
Proof.
  induction i as [|i (n & Hi & He & Hw & Hall)].
  - destruct (first_workday_spec start) as (n & He & Hw & Hno). exists (Z.of_nat n).
    split_and!; [lia|done|done|]. intros n' Hn' Hw'.
    specialize (Hno (Z.to_nat n') ltac:(lia)). rewrite Z2Nat.id in Hno by lia. congruence.
  - destruct (first_workday_spec (AddDays start (n + 1))) as (m & Hm & Hw' & Hno).
    exists (n + 1 + Z.of_nat m). split_and!; [lia| | |].
    + change (workday_at isW start (S i)) with (next_workday isW (workday_at isW start i)).
      unfold next_workday. by rewrite He, AddDays_add, Hm, AddDays_add.
    + by rewrite <- AddDays_add.
    + intros n' Hn' Hwn. destruct (Z.lt_ge_cases n' n) as [Hlt|Hge].
      { destruct (Hall n' ltac:(lia) Hwn) as (j & Hj & Hej). exists j. split; [lia|done]. }
      destruct (Z.eq_dec n' n) as [->|Hne]; [exists i; split; [lia|done]|].
      specialize (Hno (Z.to_nat (n' - (n + 1))) ltac:(lia)).
      rewrite Z2Nat.id, AddDays_add in Hno by lia.
      replace (n + 1 + (n' - (n + 1))) with n' in Hno by lia. congruence.
Qed.

Lemma workday_at_lt_succ i : workday_at isW start i < workday_at isW start (S i).
Proof.
  destruct (workday_at_spec i) as (n & _ & He & _).
  change (workday_at isW start (S i)) with (next_workday isW (workday_at isW start i)).
  unfold next_workday. destruct (first_workday_spec (AddDays (workday_at isW start i) 1)) as (m & -> & _).
  rewrite He, !AddDays_add. apply AddDays_lt. lia.
Qed.

Lemma workday_at_lt i j : (i < j)%nat -> workday_at isW start i < workday_at isW start j.
Proof.
  induction 1 as [|j _ IH]; [apply workday_at_lt_succ|].
  pose proof (workday_at_lt_succ j). lia.
Qed.

Lemma workday_at_complete n :
  0 <= n -> isW (AddDays start n) = true -> exists i, workday_at isW start i = AddDays start n.
Proof.
  intros Hn Hw. destruct (workday_at_spec (S (Z.to_nat n))) as (m & Hm & _ & _ & Hall).
  destruct (Hall n ltac:(lia) Hw) as (j & _ & Hj). by exists j.
Qed.
End Working.

(** The working days counted by the offsets: in order, none skipped. *)
Definition enumerates_workdays (isW : WorkdayFunc) (start : Time) (day : nat -> Time) : Prop :=
  (forall i, isW (day i) = true)
  /\ (forall i j, (i < j)%nat -> day i < day j)
  /\ (forall n, 0 <= n -> isW (AddDays start n) = true -> exists i, day i = AddDays start n).

Lemma workday_at_enumerates isW start :
  calendar_ok isW -> enumerates_workdays isW start (workday_at isW start).
Proof.
  intros Hcal. split_and!.
  - intros i. by destruct (workday_at_spec isW Hcal start i) as (n & _ & -> & ? & _).
  - intros. by apply workday_at_lt.
  - intros. by apply workday_at_complete.
Qed.

(** C40. For a calendar that never rejects more than maxNonWorkdayRun days in a row,
    AnchorSchedule panics exactly when the finish offset of some task is too large
    for a table of dates (2^48 bytes); otherwise it returns without reading past its
    table, changes only the two dates, and writes the start and finish offsets of a
    task as the dates of the working days they count, on or after the project start,
    in order and with none skipped; no task finishes before it starts. *)
Theorem AnchorSchedule_dates `{RangeOrder} tasks start isWorkday :
  calendar_ok (resolve_workday isWorkday) ->
  exists day, enumerates_workdays (resolve_workday isWorkday) start day
    /\ AnchorSchedule tasks start isWorkday
       = (if bool_decide (map_Forall (fun _ t => finishOffset t < 2 ^ 48 / 24) tasks) then
            Some ((fun t => set_FinishDate
                    (set_StartDate t (FormatDate (day (Z.to_nat (startOffset t)))))
                    (FormatDate (day (Z.to_nat (finishOffset t))))) <$> tasks)
          else None)
    /\ (forall t, day (Z.to_nat (startOffset t)) <= day (Z.to_nat (finishOffset t))).
Proof.
  intros Hcal. exists (workday_at (resolve_workday isWorkday) start).
  split; [by apply workday_at_enumerates|]. split; [apply AnchorSchedule_anchored|].
  intros t. pose proof (finishOffset_ge t). pose proof (startOffset_nonneg t).
  destruct (Z.eq_dec (startOffset t) (finishOffset t)) as [->|Hne]; [lia|].
  apply Z.lt_le_incl. apply workday_at_lt; [done|lia].
Qed.

(** ** DayOffset *)

Lemma offset_loop_least isW date fuel : forall d offset i,
  (i < fuel)%nat -> date <= Nat.iter i (next_workday isW) d ->
  (forall j, (j < i)%nat -> Nat.iter j (next_workday isW) d < date) ->
  offset_loop isW fuel date d offset = Some (f_of_Z (offset + Z.of_nat i)).
Proof.
  induction fuel as [|fuel IH]; intros d offset i Hi Hge Hlt; [lia|]. simpl. unfold Before.
  destruct i as [|i].
  - simpl in Hge. rewrite (proj2 (Z.ltb_ge _ _)) by done. simpl. by rewrite Z.add_0_r.
  - pose proof (Hlt 0%nat ltac:(lia)) as H0. simpl in H0.
    rewrite (proj2 (Z.ltb_lt _ _)) by done. simpl.
    rewrite (IH (next_workday isW d) (offset + 1) i); [f_equal; f_equal; lia|lia| |].
    + rewrite iter_swap. exact Hge.
    + intros j Hj. rewrite iter_swap. exact (Hlt (S j) ltac:(lia)).
Qed.

Lemma offset_loop_none isW date fuel : forall d offset,
  (forall j, (j < fuel)%nat -> Nat.iter j (next_workday isW) d < date) ->
  offset_loop isW fuel date d offset = None.
Proof.
  induction fuel as [|fuel IH]; intros d offset Hlt; [done|]. simpl. unfold Before.
  pose proof (Hlt 0%nat ltac:(lia)) as H0. simpl in H0.
  rewrite (proj2 (Z.ltb_lt _ _)) by done. simpl. apply IH. intros j Hj.
  rewrite iter_swap. exact (Hlt (S j) ltac:(lia)).
Qed.

Lemma DayOffset_least isWorkday start date i :
  let w := resolve_workday isWorkday in
  Z.of_nat i < 100000 -> date <= workday_at w start i ->
  (forall j, (j < i)%nat -> workday_at w start j < date) ->
  DayOffset start date isWorkday = Some (f_of_Z (Z.of_nat i)).
Proof.
  intros w Hi Hge Hlt. unfold DayOffset.
  rewrite (offset_loop_least _ _ _ _ _ i); [done|lia|exact Hge|exact Hlt].
Qed.

(** DayOffset inverts the date table: the date of working day i maps back to
    i, any other date maps to the first working day not before it (so a date
    before the project maps to 0), and only a date more than 100000 working days
    out has no offset. *)
Theorem DayOffset_inverse isWorkday start :
  calendar_ok (resolve_workday isWorkday) ->
  let day := workday_at (resolve_workday isWorkday) start in
  (forall i, Z.of_nat i < 100000 ->
     DayOffset start (day i) isWorkday = Some (f_of_Z (Z.of_nat i))
     /\ (forall date, date <= day i -> (forall j, (j < i)%nat -> day j < date) ->
         DayOffset start date isWorkday = Some (f_of_Z (Z.of_nat i))))
  /\ (forall date, DayOffset start date isWorkday = None <->
        (forall i, Z.of_nat i < 100000 -> day i < date)).
Proof.
  intros Hcal day. split.
  - intros i Hi. split; [|by intros; apply DayOffset_least].
    apply DayOffset_least; [done|subst day; lia|]. intros j Hj. by apply workday_at_lt.
  - intros date. split.
    + intros Hn i Hi. destruct (Z.lt_ge_cases (day i) date) as [|Hge]; [done|exfalso].
      assert (Hleast : forall k, (forall j, (j < k)%nat -> day j < date) \/
        exists m, (m < k)%nat /\ date <= day m /\ (forall j, (j < m)%nat -> day j < date)).
      { induction k as [|k [IH|(m & Hm & ?)]]; [left; lia| |right; exists m; split; [lia|done]].
        destruct (Z.lt_ge_cases (day k) date) as [Hlt|Hle].
        - left. intros j Hj. destruct (decide (j = k)) as [->|]; [done|]. apply IH. lia.
        - right. exists k. split; [lia|done]. }
      destruct (Hleast (S i)) as [Hall|(m & Hm & Hdm & Hmin)].
      * specialize (Hall i ltac:(lia)). lia.
      * rewrite (DayOffset_least isWorkday start date m ltac:(lia) Hdm Hmin) in Hn. done.
    + intros Hall. apply offset_loop_none. intros j Hj. apply Hall. lia.
Qed.

(** ** Finish constraints *)

Lemma finishOffset_whole t s e :
  iint s -> iint e -> 0 <= s < e -> ES t = f_of_Z s -> EF t = f_of_Z e -> finishOffset t = e - 1.
Proof.
  intros Hs He Hse HES HEF. unfold finishOffset, startOffset.
  rewrite HES, HEF, fround_of_Z, fceil_of_Z, !f_to_int_of_Z by done.
  unfold iint in *. rewrite (proj2 (Z.ltb_ge s 0)) by lia.
  rewrite wrap64_id by lia. destruct (Z.ltb_spec (e - 1) s); lia.
Qed.

(** Finish constraints count the exclusive finish: when FNLT or MFO names a
    working day, an armed whole-day task has EF at most the constraint day
    exactly when the finish date AnchorSchedule gives it is not after that
    date. *)
Theorem finish_constraint_is_finish_date isWorkday start t s e i :
  let w := resolve_workday isWorkday in
  let day := workday_at w start in
  calendar_ok w -> Z.of_nat i < 100000 -> ParseDate (ConstraintDate t) = Some (day i) ->
  Constraint t = FinishNoLaterThan \/ Constraint t = MustFinishOn ->
  iint s -> iint e -> 0 <= s < e -> ES t = f_of_Z s -> EF t = f_of_Z e ->
  let t' := constrain_task start isWorkday t in
  ConstraintArmed t' = true
  /\ (ConstraintDay t' <. EF t' = false <-> day (Z.to_nat (finishOffset t')) <= day i).
Proof.
  intros w day Hcal Hi Hp Hc Hs He Hse HES HEF.
  assert (Hd : DayOffset start (day i) isWorkday = Some (f_of_Z (Z.of_nat i))).
  { apply DayOffset_least; [done|subst day; fold w; lia|]. intros j Hj. by apply workday_at_lt. }
  assert (Hcon : constrain_task start isWorkday t
    = set_ConstraintArmed (set_ConstraintDay (set_ConstraintArmed t false)
        (f_of_Z (Z.of_nat i) ⊕ fone)) true).
  { unfold constrain_task. change (Constraint (set_ConstraintArmed t false)) with (Constraint t).
    change (ConstraintDate (set_ConstraintArmed t false)) with (ConstraintDate t).
    rewrite Hp, Hd. by destruct Hc as [-> | ->]. }
  rewrite Hcon. cbn zeta. split; [done|].
  rewrite (finishOffset_whole _ s e) by done. cbn [ConstraintDay EF set_ConstraintArmed set_ConstraintDay].
  rewrite HEF. unfold fone. unfold iint in *.
  rewrite fadd_of_Z, flt_of_Z by (unfold iint; lia). rewrite Z.ltb_ge. split.
  - intros Hle. destruct (decide (Z.to_nat (e - 1) = i)) as [->|]; [lia|].
    apply Z.lt_le_incl, workday_at_lt; [done|lia].
  - intros Hle. destruct (Z.lt_ge_cases (Z.of_nat i + 1) e) as [Hlt|]; [|lia].
    assert (day i < day (Z.to_nat (e - 1))) by (apply workday_at_lt; [done|lia]). lia.
Qed.

(** ** A Monday-to-Friday calendar *)

Definition weekdays : WorkdayFunc := fun t =>
  let wd := (day_number t + 4) mod 7 in (1 <=? wd) && (wd <=? 5).

Lemma weekdays_ok : calendar_ok weekdays.
Proof.
  intros d. unfold weekdays.
  assert (Hk : exists k : nat, (k <= 2)%nat /\
    let wd := (day_number d + 4 + Z.of_nat k) mod 7 in (1 <=? wd) && (wd <=? 5) = true).
  { pose proof (Z.mod_pos_bound (day_number d + 4) 7 ltac:(lia)) as Hb.
    destruct (Z.eq_dec ((day_number d + 4) mod 7) 6) as [E|E];
      [exists 2%nat|destruct (Z.eq_dec ((day_number d + 4) mod 7) 0) as [E0|E0];
        [exists 1%nat|exists 0%nat]]; (split; [lia|]); cbn zeta.
    - rewrite <- Zplus_mod_idemp_l, E. done.
    - rewrite <- Zplus_mod_idemp_l, E0. done.
    - rewrite Z.add_0_r. lia. }
  destruct Hk as (k & Hk & Hw). exists k. split; [unfold maxNonWorkdayRun; lia|].
  rewrite day_number_AddDays. by replace (day_number d + Z.of_nat k + 4) with (day_number d + 4 + Z.of_nat k) by lia.
Qed.

(** Thursday 2026-06-04. *)
Definition thursday : Time := midnight 20608.

Definition dated_task (es ef : Z) (c : ConstraintType) (date : string) : Task :=
  let t := new_task "T" (ef - es) [] in
  mkTask "T" "" (Duration t) [] [] (Estimate t) c date fzero false false fzero false "" ""
    fzero 0 fzero 0 [] false [] [] (f_of_Z es) (f_of_Z ef) fzero fzero fzero false "" "".

Lemma AnchorSchedule_dates_witness :
  calendar_ok (resolve_workday (Some weekdays))
  /\ exists day, enumerates_workdays weekdays thursday day
     /\ AnchorSchedule (H := key_order) (task_map [dated_task 0 3 "" ""]) thursday (Some weekdays)
        = Some ((fun t => set_FinishDate
                   (set_StartDate t (FormatDate (day (Z.to_nat (startOffset t)))))
                   (FormatDate (day (Z.to_nat (finishOffset t)))))
                <$> task_map [dated_task 0 3 "" ""]).
Proof.
  split; [exact weekdays_ok|].
  destruct (AnchorSchedule_dates (H := key_order) (task_map [dated_task 0 3 "" ""]) thursday
              (Some weekdays) weekdays_ok) as (day & H1 & H2 & _).
  exists day. split; [exact H1|exact H2].
Defined.

Lemma DayOffset_inverse_witness :
  calendar_ok (resolve_workday (Some weekdays))
  /\ DayOffset thursday (workday_at weekdays thursday 2) (Some weekdays) = Some (f_of_Z 2).
Proof.
  split; [exact weekdays_ok|].
  exact (proj1 (proj1 (DayOffset_inverse (Some weekdays) thursday weekdays_ok) 2%nat ltac:(lia))).
Defined.

(** A three-day task, Thursday to Monday, that must finish by Monday. *)
Lemma finish_constraint_is_finish_date_witness :
  let t := dated_task 0 3 FinishNoLaterThan "2026-06-08" in
  let t' := constrain_task thursday (Some weekdays) t in
  ConstraintArmed t' = true
  /\ (ConstraintDay t' <. EF t' = false
      <-> workday_at weekdays thursday (Z.to_nat (finishOffset t')) <= workday_at weekdays thursday 2).
Proof.
  assert (Hp : ParseDate "2026-06-08" = Some (workday_at weekdays thursday 2)) by (vm_compute; reflexivity).
  apply (finish_constraint_is_finish_date (Some weekdays) thursday
           (dated_task 0 3 FinishNoLaterThan "2026-06-08") 0 3 2 weekdays_ok);
    [lia|exact Hp|left; reflexivity|unfold iint; lia|unfold iint; lia|lia|reflexivity|reflexivity].
Defined.

(** Finish-no-later-than does not hold on a non-working date: with the date on
    a Saturday a task that finishes the Monday after is armed, anchored past the
    date, and within its constraint day. *)
Theorem FNLT_weekend_finishes_later :
  let t := constrain_task thursday (Some weekdays) (dated_task 0 3 FinishNoLaterThan "2026-06-06") in
  ConstraintArmed t = true
  /\ ConstraintDay t ⊕ f_1em9 <. EF t = false
  /\ FinishDate (anchored weekdays thursday t) = "2026-06-08"%string.
Proof. vm_compute. repeat split. Qed.
