(* ===== verification/Resources.v ===== *)
(** * kernel/resources.go: capacity, occupancy, usage, overallocation

    The capacity plan, the days a task occupies, the usage profiles and the
    overallocation detector with its participant index (a sweep over day
    events), next to the scan it replaced, kept in
    kernel/overallocation_legacy_ref_test.go.  [None] is a panic: an index out of
    range or a slice that cannot be made. *)

From S2P Require Import Prelude GoFloat Scheduler.
From stdpp Require Export list_numbers.

Local Open Scope Z_scope.

(** ** Assignments and capacity *)

Definition effectiveUnits (a : Assignment) : f64 :=
  let units := if Units a <=. fzero then fone else Units a in
  if (fzero <. MaxUnits a) && (MaxUnits a <. units) then MaxUnits a else units.

Record ResourceCalendar := mkCalendar {
  cal_ID : string;
  cal_Resource : string;
  cal_DefaultCapacity : f64;
  Overrides : gmap Z f64;
  WeeklyCapacity : gmap Z f64;
  Notes : gmap Z string;
  cal_SkillTags : list string;
  Metadata : gmap string string
}.

Record ResourceCapacityPlan := mkPlan {
  DefaultCapacity : f64;
  Capacities : gmap string f64;
  Calendars : gmap string ResourceCalendar
}.

Definition capacityPlanFromMap (capacities : gmap string f64) : ResourceCapacityPlan :=
  mkPlan fone capacities ∅.

Definition baseCapacity (p : ResourceCapacityPlan) (resource : string) : f64 :=
  let defaultCapacity := if DefaultCapacity p <=. fzero then fone else DefaultCapacity p in
  match Capacities p !! resource with
  | Some c => if fzero <. c then c else defaultCapacity
  | None => defaultCapacity
  end.

(** A non-negative entry of a day-indexed map replaces the capacity. *)
Definition override_capacity (m : gmap Z f64) (key : Z) (capacity : f64) : f64 :=
  match m !! key with
  | Some c => if fzero <=. c then c else capacity
  | None => capacity
  end.

Definition weekday_of (day : Z) : Z :=
  let weekday := Z.rem day 7 in if weekday <? 0 then weekday + 7 else weekday.

Definition capacityFromCalendar (cal : ResourceCalendar) (fallback : f64) (day : Z) : f64 :=
  let capacity := if fzero <. cal_DefaultCapacity cal then cal_DefaultCapacity cal else fallback in
  let capacity := override_capacity (WeeklyCapacity cal) (weekday_of day) capacity in
  override_capacity (Overrides cal) day capacity.

Definition capacityFor (p : ResourceCapacityPlan) (resource : string) (day : Z) : f64 :=
  let capacity := baseCapacity p resource in
  match Calendars p !! resource with
  | Some cal => capacityFromCalendar cal capacity day
  | None => capacity
  end.

Definition capacityForAssignment (p : ResourceCapacityPlan) (a : Assignment) (day : Z) : f64 :=
  let capacity := baseCapacity p (Resource a) in
  let fallback := capacityFor p (Resource a) day in
  if String.eqb (CalendarID a) EmptyString then fallback
  else match Calendars p !! CalendarID a with
       | Some cal => capacityFromCalendar cal capacity day
       | None => fallback
       end.

(** ** Occupied days *)

(** [None] is [occupies = false]. *)
Definition taskSpan (t : Task) : option (Z * Z) :=
  if Duration t <=. fzero then None
  else
    let first := f_to_int (fround (ES t)) in
    let last := wrap64 (f_to_int (fceil (EF t)) - 1) in
    Some (first, if last <? first then first else last).

(** The bytes of an [int] and of a [float64]. *)
Definition word_size : Z := 8.

(** [None]: the slice cannot be made, or the loop over the days of a span that ends at
    the largest int appends until memory is exhausted. *)
Definition occupiedDays (t : Task) : option (list Z) :=
  match WorkDays t with
  | [] => match taskSpan t with
          | None => Some []
          | Some (first, last) =>
              if can_make word_size (wrap64 (wrap64 (last - first) + 1)) && (last <? max_int64)
              then Some (seqZ first (last - first + 1)) else None
          end
  | days => Some days
  end.

(** ** Usage *)

Definition horizon_step (horizon : Z) (e : string * Task) : Z :=
  match taskSpan e.2 with
  | Some (_, last) => if horizon <? wrap64 (last + 1) then wrap64 (last + 1) else horizon
  | None => horizon
  end.

(** Range site 11. *)
Definition usage_horizon `{RangeOrder} (tasks : gmap string Task) : Z :=
  foldl horizon_step 0 (range 11 tasks).

(** [profile[d] += units] for the days inside the profile. *)
Definition add_day (units : f64) (profile : list f64) (d : Z) : list f64 :=
  if (0 <=? d) && (d <? Z.of_nat (length profile))
  then alter (fun x => x ⊕ units) (Z.to_nat d) profile else profile.

(** [make([]float64, horizon)] for the first assignment of a resource. *)
Definition add_assignment (horizon : Z) (od : list Z)
    (usage : gmap string (list f64)) (a : Assignment) : option (gmap string (list f64)) :=
  if String.eqb (Resource a) EmptyString then Some usage
  else
    profile ← match usage !! Resource a with
              | Some profile => Some profile
              | None => if can_make word_size horizon then Some (replicate (Z.to_nat horizon) fzero) else None
              end;
    Some (<[Resource a := foldl (add_day (effectiveUnits a)) profile od]> usage).

Definition add_task (horizon : Z) (usage : gmap string (list f64)) (e : string * Task)
    : option (gmap string (list f64)) :=
  match occupiedDays e.2 with
  | None => None
  | Some [] => Some usage
  | Some od => foldlM (add_assignment horizon od) usage (Assignments e.2)
  end.

(** Range site 12; [None] is a panic. *)
Definition ResourceUsage `{RangeOrder} (tasks : gmap string Task) : option (gmap string (list f64)) :=
  foldlM (add_task (usage_horizon tasks)) ∅ (range 12 tasks).

(** ** Capacity profiles *)

Fixpoint dedup_names (seen : gset string) (resources : list string) : list string :=
  match resources with
  | [] => []
  | r :: rest =>
      if String.eqb r EmptyString || bool_decide (r ∈ seen) then dedup_names seen rest
      else r :: dedup_names ({[r]} ∪ seen) rest
  end.

Definition ResourceCapacityProfiles (plan : ResourceCapacityPlan) (resources : list string)
    (horizon : Z) : option (gmap string (list f64)) :=
  if (horizon <=? 0) || (length resources =? 0)%nat then Some ∅
  else
    let ordered := sort_strings (dedup_names ∅ resources) in
    foldlM (fun profiles r =>
              if can_make word_size horizon
              then Some (<[r := capacityFor plan r <$> seqZ 0 horizon]> profiles) else None) ∅ ordered.

(** ** Entries *)

Record Overallocation := mkOverallocation {
  o_Resource : string;
  Day : Z;
  Demand : f64;
  Capacity : f64;
  TaskIDs : list string
}.

(** A map entry: key and task. *)
Notation entry := (string * Task)%type (only parsing).

(** Ordered by printed ID, then key. *)
Definition entry_le (x y : entry) : Prop :=
  if decide (ID x.2 = ID y.2) then String.le x.1 y.1 else String.le (ID x.2) (ID y.2).

#[export] Instance entry_le_dec x y : Decision (entry_le x y).
Proof. unfold entry_le. destruct (decide (ID x.2 = ID y.2)); apply _. Defined.

(** Range site 13. *)
Definition overallocationEntries `{RangeOrder} (tasks : gmap string Task) : list entry :=
  merge_sort entry_le (range 13 tasks).

(** ** Membership runs *)

(** A half-open run of days; [run_entry] is an index into the entries. *)
Record overallocationRun := mkRun {
  run_start : Z;
  run_end : Z;
  run_entry : nat
}.

(** Merging sorted days: the last run is kept at the front of the reversed
    list. *)
Definition merge_day (runs : list (Z * Z)) (d : Z) : list (Z * Z) :=
  match runs with
  | (s, e) :: runs' => if d <=? e then (s, Z.max e (d + 1)) :: runs' else (d, d + 1) :: runs
  | [] => [(d, d + 1)]
  end.

Definition occupiedRuns (t : Task) (limit : Z) : list (Z * Z) :=
  match WorkDays t with
  | [] =>
      match taskSpan t with
      | None => []
      | Some (first, last) =>
          let start := Z.max first 0 in
          let end_ := Z.min (wrap64 (last + 1)) limit in
          if end_ <=? start then [] else [(start, end_)]
      end
  | workDays =>
      let days := merge_sort Z.le (filter (fun d => 0 <= d < limit) workDays) in
      reverse (foldl merge_day [] days)
  end.

(** The distinct resources of an entry that have a usage profile. *)
Definition entry_resources (usage : gmap string (list f64)) (t : Task) : list string :=
  foldl (fun resources a =>
           match usage !! Resource a with
           | Some _ => if bool_decide (Resource a ∈ resources) then resources
                       else resources ++ [Resource a]
           | None => resources
           end) [] (Assignments t).

Definition profile_length (usage : gmap string (list f64)) (r : string) : Z :=
  Z.of_nat (length (default [] (usage !! r))).

Definition add_runs (usage : gmap string (list f64)) (i : nat) (t : Task)
    (runs : gmap string (list overallocationRun)) (r : string) : gmap string (list overallocationRun) :=
  match occupiedRuns t (profile_length usage r) with
  | [] => runs
  | rs => <[r := default [] (runs !! r) ++ ((fun '(s, e) => mkRun s e i) <$> rs)]> runs
  end.

Definition overallocationMembershipRuns (entries : list entry) (usage : gmap string (list f64))
    : gmap string (list overallocationRun) :=
  foldl (fun runs '(i, e) => foldl (add_runs usage i e.2) runs (entry_resources usage e.2)) ∅
    (imap pair entries).

(** ** The sweep *)

Record overallocationEvent := mkEvent {
  ev_day : Z;
  ev_entry : nat;
  ev_enter : bool
}.

(** [slices.SortFunc] by day is not stable: any function that sorts by day
    stands for it. *)
Class EventSort := {
  sort_events : list overallocationEvent -> list overallocationEvent;
  sort_events_perm : forall l, sort_events l ≡ₚ l;
  sort_events_sorted : forall l, StronglySorted (fun a b => ev_day a <= ev_day b) (sort_events l)
}.

(** The tracker: [pos] holds an index into [active], or -1. *)
Record overallocationMembers := mkMembers {
  events : list overallocationEvent;
  next : nat;
  active : list nat;
  pos : list Z
}.

Definition newOverallocationMembers (entries : nat) : overallocationMembers :=
  mkMembers [] 0 [] (replicate entries (-1)).

(** A write [l[i] = x]; [None] out of range. *)
Definition set_at {A : Type} (l : list A) (i : nat) (x : A) : option (list A) :=
  match l !! i with
  | Some _ => Some (<[i := x]> l)
  | None => None
  end.

Fixpoint clear_active (active : list nat) (pos : list Z) : option (list Z) :=
  match active with
  | [] => Some pos
  | e :: active' =>
      match set_at pos e (-1) with
      | Some pos' => clear_active active' pos'
      | None => None
      end
  end.

Definition run_events (r : overallocationRun) : list overallocationEvent :=
  [mkEvent (run_start r) (run_entry r) true; mkEvent (run_end r) (run_entry r) false].

Definition members_start `{EventSort} (m : overallocationMembers) (runs : list overallocationRun)
    : option overallocationMembers :=
  match clear_active (active m) (pos m) with
  | Some pos' => Some (mkMembers (sort_events (runs ≫= run_events)) 0 [] pos')
  | None => None
  end.

(** One membership change. *)
Definition apply_event (active : list nat) (pos : list Z) (ev : overallocationEvent)
    : option (list nat * list Z) :=
  if ev_enter ev then
    match set_at pos (ev_entry ev) (Z.of_nat (length active)) with
    | Some pos' => Some (active ++ [ev_entry ev], pos')
    | None => None
    end
  else
    match pos !! ev_entry ev, last active with
    | Some i, Some lst =>
        if i <? 0 then None
        else match set_at active (Z.to_nat i) lst with
             | None => None
             | Some active' =>
                 match set_at pos lst i with
                 | None => None
                 | Some pos' =>
                     match set_at pos' (ev_entry ev) (-1) with
                     | None => None
                     | Some pos'' => Some (take (length active' - 1) active', pos'')
                     end
                 end
             end
    | _, _ => None
    end.

Fixpoint advance_loop (fuel : nat) (day : Z) (m : overallocationMembers)
    : option overallocationMembers :=
  match fuel with
  | O => Some m
  | S fuel' =>
      match events m !! next m with
      | Some ev =>
          if ev_day ev <=? day then
            match apply_event (active m) (pos m) ev with
            | Some (a, p) => advance_loop fuel' day (mkMembers (events m) (S (next m)) a p)
            | None => None
            end
          else Some m
      | None => Some m
      end
  end.

(** Each event is applied once. *)
Definition advanceTo (m : overallocationMembers) (day : Z) : option overallocationMembers :=
  advance_loop (length (events m) - next m) day m.

Definition members_sorted (m : overallocationMembers) : list nat := merge_sort Nat.le (active m).

(** ** Detection *)

Definition over_capacity (plan : ResourceCapacityPlan) (r : string) (day : Z) (demand : f64) : bool :=
  negb (demand <=. capacityFor plan r day ⊕ f_1em9).

Definition clear_flags (tasks : gmap string Task) : gmap string Task :=
  (fun t => set_Overallocated t false) <$> tasks.

Definition flag_task (tasks : gmap string Task) (key : string) : gmap string Task :=
  alter (fun t => set_Overallocated t true) key tasks.

(** The records found so far and the tasks with their flags. *)
Definition detection : Type := list Overallocation * gmap string Task.

Definition record_breach (plan : ResourceCapacityPlan) (r : string) (day : Z) (demand : f64)
    (participants : list entry) (st : detection) : detection :=
  (st.1 ++ [mkOverallocation r day demand (capacityFor plan r day) ((fun e : entry => ID e.2) <$> participants)],
   foldl flag_task st.2 participants.*1).

(** The days of one resource. *)
Fixpoint scan_days (plan : ResourceCapacityPlan) (entries : list entry) (r : string)
    (profile : list f64) (day : Z) (m : overallocationMembers) (st : detection)
    : option (overallocationMembers * detection) :=
  match profile with
  | [] => Some (m, st)
  | demand :: profile' =>
      match advanceTo m day with
      | None => None
      | Some m =>
          if over_capacity plan r day demand then
            match mapM (fun i => entries !! i) (members_sorted m) with
            | None => None
            | Some participants =>
                scan_days plan entries r profile' (day + 1) m
                  (record_breach plan r day demand participants st)
            end
          else scan_days plan entries r profile' (day + 1) m st
      end
  end.

Fixpoint scan_resources `{EventSort} (plan : ResourceCapacityPlan) (entries : list entry)
    (usage : gmap string (list f64)) (runs : gmap string (list overallocationRun))
    (resources : list string) (m : overallocationMembers) (st : detection) : option detection :=
  match resources with
  | [] => Some st
  | r :: resources' =>
      match members_start m (default [] (runs !! r)) with
      | None => None
      | Some m =>
          match scan_days plan entries r (default [] (usage !! r)) 0 m st with
          | None => None
          | Some (m, st) => scan_resources plan entries usage runs resources' m st
          end
      end
  end.

(** Range site 14 lists the resources. *)
Definition DetectOverallocationsWithPlan `{RangeOrder} `{EventSort} (tasks : gmap string Task)
    (plan : ResourceCapacityPlan) : option detection :=
  let tasks := clear_flags tasks in
  usage ← ResourceUsage tasks;
  let entries := overallocationEntries tasks in
  let runs := overallocationMembershipRuns entries usage in
  let resources := sort_strings (range 14 usage).*1 in
  scan_resources plan entries usage runs resources
    (newOverallocationMembers (length entries)) ([], tasks).

Definition DetectOverallocations `{RangeOrder} `{EventSort} (tasks : gmap string Task)
    (capacities : gmap string f64) : option detection :=
  DetectOverallocationsWithPlan tasks (capacityPlanFromMap capacities).

(** ** The frozen reference: one scan of every task per breach *)

Definition legacyOccupiesDay (t : Task) (day : Z) : bool :=
  match WorkDays t with
  | [] => match taskSpan t with
          | Some (first, last) => (first <=? day) && (day <=? last)
          | None => false
          end
  | days => bool_decide (day ∈ days)
  end.

Definition legacy_participates (r : string) (day : Z) (t : Task) : bool :=
  legacyOccupiesDay t day && existsb (fun a => String.eqb (Resource a) r) (Assignments t).

(** Range site 15; the ties [sort.Slice] leaves open are broken by key. *)
Definition legacyTasksOnDay `{RangeOrder} (tasks : gmap string Task) (r : string) (day : Z) : list entry :=
  merge_sort entry_le (filter (fun e => legacy_participates r day e.2 = true) (range 15 tasks)).

Fixpoint legacy_days `{RangeOrder} (plan : ResourceCapacityPlan) (tasks : gmap string Task) (r : string)
    (profile : list f64) (day : Z) (st : detection) : detection :=
  match profile with
  | [] => st
  | demand :: profile' =>
      legacy_days plan tasks r profile' (day + 1)
        (if over_capacity plan r day demand
         then record_breach plan r day demand (legacyTasksOnDay tasks r day) st else st)
  end.

Definition legacyDetectOverallocationsWithPlan `{RangeOrder} (tasks : gmap string Task)
    (plan : ResourceCapacityPlan) : option detection :=
  let tasks := clear_flags tasks in
  usage ← ResourceUsage tasks;
  Some (foldl (fun st r => legacy_days plan tasks r (default [] (usage !! r)) 0 st)
          ([], tasks) (sort_strings (range 14 usage).*1)).
