(* ===== verification/Overallocation.v ===== *)
(** * The overallocation detector against its frozen reference

    The sweep over day events finds, for every resource and day, the
    participants a scan of every task finds; so the detector of
    kernel/resources.go and the reference of
    kernel/overallocation_legacy_ref_test.go return the same records and
    flags. *)

From S2P Require Import Prelude GoFloat Scheduler Resources.

Local Open Scope Z_scope.

(** ** Separated runs

    Sorted, non-empty, disjoint and non-adjacent, all after [lo]. *)
Fixpoint separated (lo : Z) (rs : list (Z * Z)) : Prop :=
  match rs with
  | [] => True
  | (s, e) :: rs' => lo < s /\ s < e /\ separated e rs'
  end.

Definition covers (rs : list (Z * Z)) (d : Z) : Prop := exists s e, (s, e) ∈ rs /\ s <= d < e.

Lemma separated_weaken lo lo' rs : lo' <= lo -> separated lo rs -> separated lo' rs.
Proof. destruct rs as [|[s e] rs]; simpl; [done|]. intros ? (? & ? & ?). split_and!; [lia|done..]. Qed.

Lemma separated_after lo rs s e : separated lo rs -> (s, e) ∈ rs -> lo < s < e.
Proof.
  revert lo. induction rs as [|[s' e'] rs IH]; intros lo Hs Hin; [by apply not_elem_of_nil in Hin|].
  destruct Hs as (H1 & H2 & H3). apply elem_of_cons in Hin as [[= -> ->]|Hin]; [lia|].
  apply (IH e') in Hin; [lia|done].
Qed.

Lemma covers_cons s e rs d : covers ((s, e) :: rs) d <-> s <= d < e \/ covers rs d.
Proof.
  split.
  - intros (s' & e' & Hin & Hd). apply elem_of_cons in Hin as [[= -> ->]|Hin]; [by left|].
    right. by exists s', e'.
  - intros [Hd|(s' & e' & Hin & Hd)]; [exists s, e|exists s', e']; (split; [|done]);
      apply elem_of_cons; auto.
Qed.

(** Merging sorted days, last run first. *)
Definition rev_separated (rs : list (Z * Z)) : Prop := separated (-1) (reverse rs).

Lemma separated_app lo rs s e :
  separated lo (rs ++ [(s, e)]) <->
  separated lo rs /\ lo < s < e /\ (forall s' e', (s', e') ∈ rs -> e' < s).
Proof.
  revert lo. induction rs as [|[s0 e0] rs IH]; intros lo; simpl.
  - split; [intros (? & ? & _); split_and!; [done|lia|lia|]|intros (_ & ? & _); lia].
    intros s' e' Hin. by apply not_elem_of_nil in Hin.
  - rewrite IH. split.
    + intros (H1 & H2 & H3 & H4 & H5). split_and!; try done; try lia.
      intros s' e' Hin. apply elem_of_cons in Hin as [[= -> ->]|Hin]; [lia|by eapply H5].
    + intros ((H1 & H2 & H3) & H4 & H5).
      pose proof (H5 s0 e0 ltac:(apply elem_of_cons; by left)).
      split_and!; try done; try lia.
      intros s' e' Hin. apply (H5 s' e'). apply elem_of_cons. by right.
Qed.

Lemma covers_reverse rs d : covers (reverse rs) d <-> covers rs d.
Proof. unfold covers. by setoid_rewrite elem_of_reverse. Qed.

Lemma merge_day_spec rs d :
  rev_separated rs -> 0 <= d -> (forall s e, (s, e) ∈ rs -> e <= d + 1) ->
  rev_separated (merge_day rs d)
  /\ (forall s e, (s, e) ∈ merge_day rs d -> e <= d + 1)
  /\ (forall x, covers (merge_day rs d) x <-> covers rs x \/ x = d).
Proof.
  intros Hs Hd Hle. unfold rev_separated, merge_day in *. destruct rs as [|[s e] rs].
  - split_and!.
    + change (separated (-1) [(d, d + 1)]). simpl. lia.
    + intros s e Hin. apply list_elem_of_singleton in Hin as [= -> ->]. lia.
    + intros x. rewrite covers_cons.
      assert (~ covers [] x) by (intros (? & ? & Hin & _); by apply not_elem_of_nil in Hin).
      split; [intros [?|?]; [right; lia|done]|intros [?| ->]; [done|left; lia]].
  - rewrite reverse_cons in Hs. apply separated_app in Hs as (Hs & Hse & Hall).
    pose proof (Hle s e ltac:(apply elem_of_cons; by left)) as He.
    destruct (Z.leb_spec d e) as [Hde|Hde].
    + split_and!.
      * rewrite reverse_cons. apply separated_app. split_and!; [done|lia|lia|].
        intros s' e' Hin. by eapply Hall.
      * intros s' e' Hin. apply elem_of_cons in Hin as [[= -> ->]|Hin]; [lia|].
        apply (Hle s' e'). apply elem_of_cons. by right.
      * intros x. rewrite !covers_cons.
        assert (s <= x < Z.max e (d + 1) <-> s <= x < e \/ x = d) by lia. tauto.
    + split_and!.
      * rewrite reverse_cons, reverse_cons. apply separated_app. split_and!; [apply separated_app; done|lia|lia|].
        intros s' e' Hin. rewrite elem_of_app, list_elem_of_singleton in Hin.
        destruct Hin as [Hin|[= -> ->]]; [|lia]. pose proof (Hall s' e' Hin). lia.
      * intros s' e' Hin. apply elem_of_cons in Hin as [[= -> ->]|Hin]; [lia|]. by apply (Hle s' e').
      * intros x. rewrite (covers_cons d (d + 1)).
        assert (d <= x < d + 1 <-> x = d) by lia. tauto.
Qed.

Lemma merge_days_spec l : forall rs,
  StronglySorted Z.le l -> Forall (fun d => 0 <= d) l -> rev_separated rs ->
  (forall s e d, (s, e) ∈ rs -> d ∈ l -> e <= d + 1) ->
  rev_separated (foldl merge_day rs l)
  /\ (forall x, covers (foldl merge_day rs l) x <-> covers rs x \/ x ∈ l).
Proof.
  induction l as [|d l IH]; intros rs Hsort Hpos Hs Hle.
  - split; [done|]. intros x. assert (x ∉ []) by apply not_elem_of_nil. tauto.
  - apply StronglySorted_inv in Hsort as [Hsort Hd]. apply Forall_cons in Hpos as [Hd0 Hpos].
    rewrite Forall_forall in Hd.
    destruct (merge_day_spec rs d Hs Hd0) as (Hs' & He' & Hc').
    { intros s e Hin. apply (Hle s e d Hin). apply elem_of_cons. by left. }
    destruct (IH (merge_day rs d) Hsort Hpos Hs') as [H1 H2].
    { intros s e d' Hin Hd'. pose proof (He' s e Hin). pose proof (Hd d' Hd'). lia. }
    split; [exact H1|]. intros x. cbn [foldl]. rewrite H2, Hc', elem_of_cons. tauto.
Qed.

(** The span of a task leaves room for the exclusive end of its last day. *)
Definition span_ok (t : Task) : Prop :=
  WorkDays t = [] -> match taskSpan t with Some (_, last) => last < max_int64 | None => True end.

(** A span whose days, and whose profile, a slice can hold: 2^48 bytes. *)
Definition span_fits (t : Task) : Prop :=
  match taskSpan t with
  | Some (first, last) => last - first < 2 ^ 45 /\ last < 2 ^ 45
  | None => True
  end.

#[export] Instance span_fits_dec t : Decision (span_fits t).
Proof. unfold span_fits. destruct (taskSpan t) as [[]|]; apply _. Defined.

Lemma taskSpan_range t first last :
  taskSpan t = Some (first, last) -> min_int64 <= last <= max_int64 /\ first <= last.
Proof.
  unfold taskSpan. destruct (Duration t <=. fzero); [done|]. intros [= <- <-].
  pose proof (f_to_int_range (fround (ES t))).
  pose proof (wrap64_range (f_to_int (fceil (EF t)) - 1)).
  unfold min_int64, max_int64 in *. case_match; lia.
Qed.

Lemma occupiedRuns_spec t limit :
  span_ok t ->
  separated (-1) (occupiedRuns t limit)
  /\ (forall d, 0 <= d < limit -> (covers (occupiedRuns t limit) d <-> legacyOccupiesDay t d = true)).
Proof.
  intros Hok. unfold occupiedRuns, legacyOccupiesDay, span_ok in *.
  assert (Hnil : forall d, ~ covers [] d) by (intros d (? & ? & Hin & _); by apply not_elem_of_nil in Hin).
  destruct (WorkDays t) as [|w ws] eqn:Ew.
  - specialize (Hok eq_refl). destruct (taskSpan t) as [[first last]|] eqn:Es.
    + apply taskSpan_range in Es as [Hlast Hfl].
      rewrite wrap64_id by (unfold min_int64, max_int64 in *; lia).
      destruct (Z.leb_spec (Z.min (last + 1) limit) (Z.max first 0)).
      * split; [done|]. intros d Hd. split; [intros Hc; by apply Hnil in Hc|lia].
      * split; [simpl; split_and!; [lia|lia|done]|]. intros d Hd. rewrite covers_cons.
        specialize (Hnil d). split; [intros [?|?]; [lia|done]|intros ?; left; lia].
    + split; [done|]. intros d Hd. split; [intros Hc; by apply Hnil in Hc|done].
  - set (l := merge_sort Z.le (filter (fun d => 0 <= d < limit) (w :: ws))).
    assert (Hl : forall d, d ∈ l <-> (0 <= d < limit) /\ d ∈ w :: ws).
    { intros d. subst l. rewrite merge_sort_Permutation. by rewrite list_elem_of_filter. }
    destruct (merge_days_spec l []) as [H1 H2].
    + apply (StronglySorted_merge_sort _).
    + apply Forall_forall. intros d Hd. apply Hl in Hd. lia.
    + done.
    + intros s e d Hin. by apply not_elem_of_nil in Hin.
    + split; [exact H1|]. intros d Hd. rewrite covers_reverse, H2, Hl, bool_decide_eq_true.
      specialize (Hnil d). tauto.
Qed.

(** ** Which entry runs where *)

Lemma entry_resources_spec usage t :
  NoDup (entry_resources usage t)
  /\ (forall r, r ∈ entry_resources usage t <->
        is_Some (usage !! r) /\ existsb (fun a => String.eqb (Resource a) r) (Assignments t) = true).
Proof.
  unfold entry_resources.
  assert (H : forall l acc, NoDup acc ->
    let out := foldl (fun resources a =>
           match usage !! Resource a with
           | Some _ => if bool_decide (Resource a ∈ resources) then resources
                       else resources ++ [Resource a]
           | None => resources
           end) acc l in
    NoDup out /\ (forall r, r ∈ out <-> r ∈ acc \/
      (is_Some (usage !! r) /\ existsb (fun a => String.eqb (Resource a) r) l = true))).
  { induction l as [|a l IH]; intros acc Hnd; simpl.
    - split; [done|]. intros r. split; [by left|intros [?|[_ ?]]; done].
    - set (acc' := match usage !! Resource a with Some _ => _ | None => _ end).
      assert (Hacc : NoDup acc' /\ forall r, r ∈ acc' <-> r ∈ acc \/ (is_Some (usage !! r) /\ Resource a = r)).
      { subst acc'. destruct (usage !! Resource a) as [p|] eqn:Hu.
        - case_bool_decide as Hin.
          + split; [done|]. intros r. split; [by left|intros [?|[_ <-]]; done].
          + split; [apply NoDup_app; split_and!; [done|intros x Hx Hx'; apply list_elem_of_singleton in Hx' as ->; done|apply NoDup_singleton]|].
            intros r. rewrite elem_of_app, list_elem_of_singleton. split.
            * intros [?| ->]; [by left|right; split; [by exists p|done]].
            * intros [?|[_ <-]]; [by left|by right].
        - split; [done|]. intros r. split; [by left|]. intros [?|[[p Hp] <-]]; [done|congruence]. }
      destruct Hacc as [Hnd' Hacc]. destruct (IH acc' Hnd') as [H1 H2]. split; [exact H1|].
      intros r. rewrite H2, Hacc, orb_true_iff, String.eqb_eq. tauto. }
  destruct (H (Assignments t) [] (NoDup_nil_2)) as [H1 H2]. split; [exact H1|].
  intros r. rewrite H2. assert (r ∉ []) by apply not_elem_of_nil. tauto.
Qed.

(** ** Events of one entry *)

Fixpoint run_evs (i : nat) (rs : list (Z * Z)) : list overallocationEvent :=
  match rs with
  | [] => []
  | (s, e) :: rs' => mkEvent s i true :: mkEvent e i false :: run_evs i rs'
  end.

(** Whether the last change seen put the entry in. *)
Definition on_after (l : list overallocationEvent) : bool :=
  match last l with Some ev => ev_enter ev | None => false end.

Lemma on_after_snoc l ev : on_after (l ++ [ev]) = ev_enter ev.
Proof. unfold on_after. by rewrite last_snoc. Qed.

Lemma on_after_two x y l : ev_enter y = false -> on_after (x :: y :: l) = on_after l.
Proof. intros Hy. unfold on_after. destruct l as [|z l]; [by simpl; rewrite Hy|done]. Qed.

(** The changes of an entry alternate, starting with an entrance. *)
Lemma run_evs_toggle i rs : forall A ev B,
  run_evs i rs = A ++ ev :: B -> ev_entry ev = i /\ ev_enter ev = negb (on_after A).
Proof.
  induction rs as [|[s e] rs IH]; intros A ev B H; simpl in H; [by destruct A|].
  destruct A as [|x [|y A]].
  - injection H as <- _. done.
  - injection H as <- <- _. done.
  - injection H as <- <- H. rewrite on_after_two by done. by eapply IH.
Qed.

(** After the changes up to a day the entry is in exactly when a run covers
    that day. *)
Lemma run_evs_on i rs d : forall lo A B,
  separated lo rs -> run_evs i rs = A ++ B ->
  Forall (fun ev => ev_day ev <= d) A -> Forall (fun ev => d < ev_day ev) B ->
  (on_after A = true <-> covers rs d).
Proof.
  induction rs as [|[s e] rs IH]; intros lo A B Hs H HA HB; simpl in H.
  - destruct A; [|done]. split; [done|]. intros (? & ? & Hin & _). by apply not_elem_of_nil in Hin.
  - destruct Hs as (Hlo & Hse & Hs). rewrite covers_cons.
    assert (Hlater : d < e -> ~ covers rs d).
    { intros Hd (s' & e' & Hin & Hd'). apply (separated_after e) in Hin; [lia|done]. }
    destruct A as [|x [|y A]].
    + destruct B as [|b B]; [done|]. injection H as <- _. apply Forall_cons in HB as [Hb _].
      simpl in Hb. split; [done|]. intros [?|Hc]; [lia|]. exfalso. apply Hlater; [lia|done].
    + injection H as <- H. destruct B as [|b B]; [done|]. injection H as <- _.
      apply Forall_cons in HB as [Hb _]. apply Forall_cons in HA as [Ha _]. simpl in Ha, Hb.
      split; [intros _; left; lia|done].
    + injection H as <- <- H. apply Forall_cons in HA as [_ HA]. apply Forall_cons in HA as [Hy HA].
      simpl in Hy. rewrite on_after_two by done. rewrite (IH e A B Hs H HA HB).
      split; [by right|]. intros [?|?]; [lia|done].
Qed.

Lemma run_evs_sorted i rs : forall lo,
  separated lo rs ->
  StronglySorted (fun a b => ev_day a < ev_day b) (run_evs i rs)
  /\ Forall (fun ev => lo < ev_day ev) (run_evs i rs).
Proof.
  induction rs as [|[s e] rs IH]; intros lo Hs; simpl; [split; constructor|].
  destruct Hs as (Hlo & Hse & Hs). destruct (IH e Hs) as [H1 H2].
  assert (Hlo' : Forall (fun ev => lo < ev_day ev) (run_evs i rs))
    by (eapply Forall_impl; [exact H2|]; simpl; lia).
  assert (Hs' : Forall (fun ev => s < ev_day ev) (run_evs i rs))
    by (eapply Forall_impl; [exact H2|]; simpl; lia).
  split; [|by repeat (constructor; [simpl; lia|])].
  constructor; [constructor; [done|]|constructor; [simpl; lia|]]; done.
Qed.

(** ** The tracker *)

Definition tracker_ok (n : nat) (a : list nat) (p : list Z) : Prop :=
  NoDup a /\ length p = n /\ Forall (fun i => (i < n)%nat) a
  /\ (forall i k, a !! k = Some i -> p !! i = Some (Z.of_nat k))
  /\ (forall i, (i < n)%nat -> i ∉ a -> p !! i = Some (-1)).

Lemma set_at_some {A : Type} (l : list A) i x : (i < length l)%nat -> set_at l i x = Some (<[i := x]> l).
Proof. intros Hi. unfold set_at. destruct (lookup_lt_is_Some_2 l i Hi) as [y ->]. done. Qed.

Lemma apply_enter n a p i d :
  tracker_ok n a p -> (i < n)%nat -> i ∉ a ->
  exists p', apply_event a p (mkEvent d i true) = Some (a ++ [i], p') /\ tracker_ok n (a ++ [i]) p'.
Proof.
  intros (Hnd & Hp & Ha & Hpos & Hno) Hi Hni. unfold apply_event. simpl.
  rewrite set_at_some by lia. eexists. split; [done|]. split_and!.
  - apply NoDup_app. split_and!; [done| |apply NoDup_singleton].
    intros x Hx Hx'. apply list_elem_of_singleton in Hx' as ->. done.
  - by rewrite length_insert.
  - apply Forall_app. split; [done|]. by constructor.
  - intros j k Hk. apply lookup_app_Some in Hk as [Hk|[Hge Hk]].
    + assert (j <> i) by (intros ->; apply Hni; by eapply list_elem_of_lookup_2).
      rewrite list_lookup_insert_ne by done. by apply Hpos.
    + apply list_lookup_singleton_Some in Hk as [Hk <-].
      rewrite list_lookup_insert_eq by lia. f_equal. lia.
  - intros j Hj Hnj. apply not_elem_of_app in Hnj as [Hnj Hne].
    rewrite list_lookup_insert_ne by (intros <-; by apply Hne, list_elem_of_singleton). by apply Hno.
Qed.

Lemma take_insert_last (a : list nat) k lst :
  last a = Some lst -> (k < length a)%nat ->
  forall j x, take (length a - 1) (<[k := lst]> a) !! j = Some x <->
    (j < length a - 1)%nat /\ (if decide (j = k) then x = lst else a !! j = Some x).
Proof.
  intros Hl Hk j x. rewrite lookup_take_Some. case_decide as Hjk.
  - subst j. rewrite list_lookup_insert_eq by done. split; [intros [[= ->] ?]|intros [? ->]]; done.
  - rewrite list_lookup_insert_ne by done. tauto.
Qed.

Lemma apply_leave n a p i d :
  tracker_ok n a p -> i ∈ a ->
  exists a' p', apply_event a p (mkEvent d i false) = Some (a', p') /\ tracker_ok n a' p'
    /\ (forall j, j ∈ a' <-> j ∈ a /\ j <> i).
Proof.
  intros (Hnd & Hp & Ha & Hpos & Hno) Hi. unfold apply_event. simpl.
  apply list_elem_of_lookup in Hi as [k Hk]. rewrite (Hpos i k Hk).
  destruct (last a) as [lst|] eqn:Hl; [|apply last_None in Hl as ->; done].
  pose proof (lookup_lt_Some _ _ _ Hk) as Hklt. rewrite Forall_forall in Ha.
  assert (Hlast : a !! (length a - 1)%nat = Some lst)
    by (rewrite last_lookup in Hl; by replace (length a - 1)%nat with (pred (length a)) by lia).
  assert (Hlstn : (lst < n)%nat) by (apply Ha; by eapply list_elem_of_lookup_2).
  assert (Hin : (i < n)%nat) by (apply Ha; by eapply list_elem_of_lookup_2).
  rewrite (proj2 (Z.ltb_ge _ 0)) by lia. rewrite Nat2Z.id.
  rewrite !set_at_some by (rewrite ?length_insert; lia). rewrite length_insert.
  eexists _, _. split; [done|].
  pose proof (take_insert_last a k lst Hl Hklt) as Hlook.
  assert (Hmem : forall j, j ∈ take (length a - 1) (<[k := lst]> a) <-> j ∈ a /\ j <> i).
  { intros j. rewrite list_elem_of_lookup. split.
    - intros [x Hx]. apply Hlook in Hx as [Hx Hj]. case_decide as Hxk.
      + subst x j. split; [by eapply list_elem_of_lookup_2|]. intros ->.
        pose proof (NoDup_lookup _ _ _ _ Hnd Hk Hlast). lia.
      + split; [by eapply list_elem_of_lookup_2|]. intros ->.
        by pose proof (NoDup_lookup _ _ _ _ Hnd Hk Hj).
    - intros [Hj Hne]. apply list_elem_of_lookup in Hj as [x Hx].
      pose proof (lookup_lt_Some _ _ _ Hx).
      destruct (decide (x = length a - 1)%nat) as [->|Hxl].
      + exists k. apply Hlook. rewrite decide_True by done.
        assert (j = lst) as -> by congruence. split; [|done].
        destruct (decide (k = length a - 1)%nat) as [->|]; [congruence|lia].
      + exists x. apply Hlook. split; [lia|]. destruct (decide (x = k)) as [->|]; [congruence|done]. }
  assert (Hndt : NoDup (take (length a - 1) (<[k := lst]> a))).
  { apply NoDup_alt. intros x y j Hx Hy. apply Hlook in Hx as [Hx Hxj]. apply Hlook in Hy as [Hy Hyj].
    destruct (decide (x = k)) as [->|Hxk], (decide (y = k)) as [->|Hyk]; [done| | |].
    - subst j. pose proof (NoDup_lookup _ _ _ _ Hnd Hyj Hlast). lia.
    - subst j. pose proof (NoDup_lookup _ _ _ _ Hnd Hxj Hlast). lia.
    - by pose proof (NoDup_lookup _ _ _ _ Hnd Hxj Hyj). }
  split; [|exact Hmem]. split_and!.
  - exact Hndt.
  - by rewrite !length_insert.
  - apply Forall_forall. intros j Hj. apply Hmem in Hj as [Hj _]. by apply Ha.
  - intros j x Hx. assert (Hj : j ∈ a /\ j <> i) by (apply Hmem; by eapply list_elem_of_lookup_2).
    destruct Hj as [Hj Hji].
    rewrite list_lookup_insert_ne by (intros E; by apply Hji). apply Hlook in Hx as [Hx Hxj]. case_decide as Hxk.
    + subst j x. rewrite list_lookup_insert_eq by lia. done.
    + assert (j <> lst) by (intros ->; pose proof (NoDup_lookup _ _ _ _ Hnd Hxj Hlast); lia).
      rewrite list_lookup_insert_ne by done. by apply Hpos.
  - intros j Hj Hnj. destruct (decide (j = i)) as [->|Hne].
    + by rewrite list_lookup_insert_eq by (rewrite length_insert; lia).
    + assert (Hnj' : j ∉ a) by (intros Hja; apply Hnj, Hmem; done).
      rewrite list_lookup_insert_ne by done.
      rewrite list_lookup_insert_ne by (intros <-; apply Hnj'; by eapply list_elem_of_lookup_2).
      by apply Hno.
Qed.

(** ** The sweep *)

Lemma strict_day_inj l x y :
  StronglySorted (fun a b => ev_day a < ev_day b) l -> x ∈ l -> y ∈ l -> ev_day x = ev_day y -> x = y.
Proof.
  intros Hs. induction Hs as [|z l Hs IH Hz]; intros Hx Hy Hd; [by apply not_elem_of_nil in Hx|].
  rewrite Forall_forall in Hz. rewrite elem_of_cons in Hx, Hy.
  destruct Hx as [->|Hx], Hy as [->|Hy]; [done| | |by apply IH].
  - specialize (Hz y Hy). lia.
  - specialize (Hz x Hx). lia.
Qed.

Section Sweep.
Context `{EventSort} (n : nat) (idx : nat -> list (Z * Z)).
Context (Hsep : forall i, (i < n)%nat -> separated (-1) (idx i)).

Definition entry_runs (i : nat) : list overallocationRun := (fun '(s, e) => mkRun s e i) <$> idx i.
Definition all_runs : list overallocationRun := concat (entry_runs <$> seq 0 n).
Definition all_events : list overallocationEvent := sort_events (all_runs ≫= run_events).

Lemma entry_runs_events i : entry_runs i ≫= run_events = run_evs i (idx i).
Proof.
  unfold entry_runs. induction (idx i) as [|[s e] rs IH]; [done|].
  rewrite fmap_cons, bind_cons, IH. done.
Qed.

Lemma run_evs_entry i rs : Forall (fun ev => ev_entry ev = i) (run_evs i rs).
Proof. induction rs as [|[s e] rs IH]; simpl; [constructor|]. by repeat constructor. Qed.

Lemma filter_entry js i :
  NoDup js ->
  filter (fun ev => ev_entry ev = i) (concat (entry_runs <$> js) ≫= run_events)
  = if decide (i ∈ js) then run_evs i (idx i) else [].
Proof.
  induction js as [|j js IH]; intros Hnd; [done|]. apply NoDup_cons in Hnd as [Hj Hnd].
  rewrite fmap_cons. simpl concat. rewrite bind_app, entry_runs_events, filter_app, IH by done.
  pose proof (run_evs_entry j (idx j)) as Hall. rewrite Forall_forall in Hall.
  destruct (decide (i = j)) as [->|Hne].
  - rewrite (decide_True (P := j ∈ j :: js)) by (apply elem_of_cons; by left).
    rewrite (decide_False (P := j ∈ js)) by done.
    rewrite app_nil_r. by apply filter_keep.
  - rewrite filter_drop by (intros x Hx Hi; apply Hne; by rewrite <- Hi, (Hall x Hx)).
    simpl. destruct (decide (i ∈ js)) as [Hi|Hi].
    + by rewrite (decide_True (P := i ∈ j :: js)) by (apply elem_of_cons; by right).
    + rewrite decide_False; [done|]. rewrite elem_of_cons. tauto.
Qed.

Lemma StronglySorted_filter_days P `{forall x, Decision (P x)} l :
  StronglySorted (fun a b => ev_day a <= ev_day b) l ->
  StronglySorted (fun a b => ev_day a <= ev_day b) (filter P l).
Proof.
  induction 1 as [|x l Hs IH Hx]; [constructor|]. rewrite filter_cons. case_decide; [|done].
  constructor; [done|]. rewrite Forall_forall in *. intros y Hy.
  apply list_elem_of_filter in Hy as [_ Hy]. by apply Hx.
Qed.

(** Whatever the order of equal days, an entry's changes come in its own
    order. *)
Lemma events_of_entry i : (i < n)%nat ->
  filter (fun ev => ev_entry ev = i) all_events = run_evs i (idx i).
Proof.
  intros Hi. destruct (run_evs_sorted i (idx i) (-1) (Hsep i Hi)) as [Hst _].
  assert (Hp : filter (fun ev => ev_entry ev = i) all_events ≡ₚ run_evs i (idx i)).
  { unfold all_events. rewrite sort_events_perm. unfold all_runs.
    rewrite filter_entry by apply NoDup_seq. rewrite decide_True by (apply elem_of_seq; lia). done. }
  apply (StronglySorted_unique_strong (fun a b => ev_day a <= ev_day b)).
  - intros x y Hx Hy Hxy Hyx. rewrite Hp in Hx. by apply (strict_day_inj (run_evs i (idx i))); [..|lia].
  - apply StronglySorted_filter_days, sort_events_sorted.
  - clear -Hst. induction Hst as [|x l Hs IH Hx]; constructor; [done|].
    eapply Forall_impl; [exact Hx|]. simpl. lia.
  - exact Hp.
Qed.

Lemma events_in_range ev : ev ∈ all_events -> (ev_entry ev < n)%nat.
Proof.
  unfold all_events. rewrite sort_events_perm. intros Hin.
  apply list_elem_of_bind in Hin as (r & Hev & Hr).
  unfold all_runs in Hr. apply list_elem_of_In, in_concat in Hr as (l & Hl & Hr).
  apply list_elem_of_In in Hl, Hr.
  apply list_elem_of_fmap in Hl as (i & -> & Hi). apply elem_of_seq in Hi.
  unfold entry_runs in Hr. apply list_elem_of_fmap in Hr as ([s e] & -> & _).
  simpl in Hev. apply elem_of_cons in Hev as [->|Hev]; [simpl; lia|].
  apply elem_of_cons in Hev as [->|Hev]; [simpl; lia|by apply not_elem_of_nil in Hev].
Qed.

(** The members after the changes [P]. *)
Definition sweep_inv (P : list overallocationEvent) (a : list nat) (p : list Z) : Prop :=
  tracker_ok n a p
  /\ (forall i, (i < n)%nat -> (i ∈ a <-> on_after (filter (fun ev => ev_entry ev = i) P) = true)).

Lemma sweep_step P ev S a p :
  all_events = P ++ ev :: S -> sweep_inv P a p ->
  exists a' p', apply_event a p ev = Some (a', p') /\ sweep_inv (P ++ [ev]) a' p'.
Proof.
  intros HE [Htr Hmem].
  assert (Hi : (ev_entry ev < n)%nat)
    by (apply events_in_range; rewrite HE; apply elem_of_app; right; apply elem_of_cons; by left).
  pose proof (events_of_entry (ev_entry ev) Hi) as Hf.
  rewrite HE, filter_app, filter_cons_True in Hf by done. symmetry in Hf.
  apply run_evs_toggle in Hf as [_ Hen].
  assert (Hfilter : forall i, filter (fun e => ev_entry e = i) (P ++ [ev])
    = filter (fun e => ev_entry e = i) P ++ (if decide (ev_entry ev = i) then [ev] else [])).
  { intros i. rewrite filter_app, filter_cons, filter_nil. done. }
  pose proof (Hmem (ev_entry ev) Hi) as Hme.
  destruct ev as [d i b]. simpl in *. destruct b.
  - destruct (apply_enter n a p i d Htr Hi) as (p' & Hap & Htr').
    { rewrite Hme. intros Hon. by rewrite Hon in Hen. }
    eexists _, p'. split; [exact Hap|]. split; [exact Htr'|]. intros j Hj.
    rewrite Hfilter, elem_of_app, list_elem_of_singleton. case_decide as Hij.
    + subst j. rewrite on_after_snoc. split; [done|by right].
    + rewrite app_nil_r, (Hmem j Hj). split; [by intros [?| ->]|by left].
  - destruct (apply_leave n a p i d Htr) as (a' & p' & Hap & Htr' & Ha').
    { rewrite Hme. by destruct (on_after _). }
    exists a', p'. split; [exact Hap|]. split; [exact Htr'|]. intros j Hj.
    rewrite Hfilter, Ha'. case_decide as Hij.
    + subst j. rewrite on_after_snoc. simpl. split; [by intros [_ ?]|done].
    + rewrite app_nil_r, (Hmem j Hj). split; [by intros [? _]|]. intros ?. split; [done|by apply not_eq_sym].
Qed.

(** [advanceTo] applies the changes up to the day, and no other. *)
Lemma advance_loop_spec day S : forall P a p,
  all_events = P ++ S -> sweep_inv P a p -> Forall (fun ev => ev_day ev <= day) P ->
  exists P' S' a' p', advance_loop (length S) day (mkMembers all_events (length P) a p)
      = Some (mkMembers all_events (length P') a' p')
    /\ all_events = P' ++ S' /\ sweep_inv P' a' p'
    /\ Forall (fun ev => ev_day ev <= day) P' /\ Forall (fun ev => day < ev_day ev) S'.
Proof.
  induction S as [|ev S IH]; intros P a p HE Hinv HP; simpl.
  - exists P, [], a, p. split_and!; try done.
  - assert (Hl : all_events !! length P = Some ev) by (rewrite HE, lookup_app_r, Nat.sub_diag by lia; done).
    rewrite Hl.
    destruct (Z.leb_spec (ev_day ev) day) as [Hle|Hgt].
    + destruct (sweep_step P ev S a p HE Hinv) as (a' & p' & -> & Hinv').
      replace (Datatypes.S (length P)) with (length (P ++ [ev])) by (rewrite length_app; simpl; lia).
      apply IH; [by rewrite <- app_assoc|done|]. apply Forall_app. split; [done|]. by constructor.
    + exists P, (ev :: S), a, p. split_and!; try done.
      pose proof (sort_events_sorted (all_runs ≫= run_events)) as Hs. fold all_events in Hs.
      rewrite HE in Hs. apply StronglySorted_app in Hs as (_ & _ & Hs).
      apply StronglySorted_inv in Hs as [_ Hs]. constructor; [done|].
      eapply Forall_impl; [exact Hs|]. simpl. lia.
Qed.

(** The tracker between two days of one resource. *)
Definition tracks (day : Z) (m : overallocationMembers) : Prop :=
  exists P S, m = mkMembers all_events (length P) (active m) (pos m)
    /\ all_events = P ++ S /\ sweep_inv P (active m) (pos m)
    /\ Forall (fun ev => ev_day ev <= day) P.

Lemma advanceTo_tracks day m :
  tracks (day - 1) m ->
  exists m', advanceTo m day = Some m' /\ tracks day m'
    /\ (forall i, (i < n)%nat -> (i ∈ active m' <-> covers (idx i) day)).
Proof.
  intros (P & S & Hm & HE & Hinv & HP). rewrite Hm. unfold advanceTo. simpl.
  replace (length all_events - length P)%nat with (length S) by (rewrite HE, length_app; lia).
  destruct (advance_loop_spec day S P (active m) (pos m) HE Hinv) as (P' & S' & a' & p' & -> & HE' & Hinv' & HP' & HS').
  { eapply Forall_impl; [exact HP|]. simpl. lia. }
  eexists. split; [done|]. split; [exists P', S'; done|].
  intros i Hi. destruct Hinv' as [_ Hmem]. simpl. rewrite (Hmem i Hi).
  pose proof (events_of_entry i Hi) as Hf. rewrite HE', filter_app in Hf.
  eapply (run_evs_on i (idx i) day (-1)); [by apply Hsep|symmetry; exact Hf|..];
    apply Forall_forall; intros ev Hev; apply list_elem_of_filter in Hev as [_ Hev].
  - rewrite Forall_forall in HP'. by apply HP'.
  - rewrite Forall_forall in HS'. by apply HS'.
Qed.
End Sweep.

(** ** Starting a resource *)

Lemma clear_active_spec n a : forall p,
  length p = n -> Forall (fun i => (i < n)%nat) a ->
  (forall i, (i < n)%nat -> i ∉ a -> p !! i = Some (-1)) ->
  exists p', clear_active a p = Some p' /\ tracker_ok n [] p'.
Proof.
  induction a as [|i a IH]; intros p Hp Ha Hno; simpl.
  - exists p. split; [done|]. split_and!; try done; constructor.
  - apply Forall_cons in Ha as [Hi Ha]. rewrite set_at_some by lia. apply IH; [by rewrite length_insert|done|].
    intros j Hj Hnj. destruct (decide (i = j)) as [->|Hne]; [by rewrite list_lookup_insert_eq by lia|].
    rewrite list_lookup_insert_ne by done. apply Hno; [done|]. rewrite elem_of_cons. naive_solver.
Qed.

Lemma members_start_tracks `{EventSort} n idx m :
  tracker_ok n (active m) (pos m) ->
  exists m', members_start m (all_runs n idx) = Some m' /\ tracks n idx (-1) m'.
Proof.
  intros (_ & Hp & Ha & _ & Hno). destruct (clear_active_spec n (active m) (pos m) Hp Ha Hno) as (p' & Hc & Hok).
  unfold members_start. rewrite Hc. eexists. split; [done|]. exists [], (all_events n idx).
  split_and!; [done|done| |constructor]. split; [done|]. intros i Hi. simpl.
  split; [intros Hin; by apply not_elem_of_nil in Hin|done].
Qed.

Lemma tracks_ok `{EventSort} n idx day m : tracks n idx day m -> tracker_ok n (active m) (pos m).
Proof. by intros (P & S & _ & _ & [? _] & _). Qed.

Lemma new_members_ok n : tracker_ok n (active (newOverallocationMembers n)) (pos (newOverallocationMembers n)).
Proof.
  split_and!; simpl; [constructor|by rewrite length_replicate|constructor|done|].
  intros i Hi _. by rewrite lookup_replicate_2.
Qed.

(** ** The runs of a resource *)

Lemma add_runs_lookup usage i t rs r : forall runs,
  NoDup rs ->
  default [] (foldl (add_runs usage i t) runs rs !! r)
  = default [] (runs !! r)
    ++ (if bool_decide (r ∈ rs)
        then (fun '(s, e) => mkRun s e i) <$> occupiedRuns t (profile_length usage r) else []).
Proof.
  induction rs as [|r' rs IH]; intros runs Hnd.
  - simpl. by rewrite app_nil_r.
  - apply NoDup_cons in Hnd as [Hr' Hnd]. cbn [foldl]. rewrite IH by done.
    assert (Hstep : default [] (add_runs usage i t runs r' !! r)
      = default [] (runs !! r)
        ++ (if bool_decide (r = r')
            then (fun '(s, e) => mkRun s e i) <$> occupiedRuns t (profile_length usage r) else [])).
    { unfold add_runs. destruct (decide (r = r')) as [Hr|Hr].
      - rewrite bool_decide_eq_true_2 by done. subst r'. destruct (occupiedRuns t (profile_length usage r)) as [|x l]; [by rewrite app_nil_r|].
        by rewrite lookup_insert_eq.
      - rewrite bool_decide_eq_false_2, app_nil_r by done.
        destruct (occupiedRuns t (profile_length usage r')); [done|]. by rewrite lookup_insert_ne. }
    rewrite Hstep, <- app_assoc. f_equal. destruct (decide (r = r')) as [->|Hr].
    + rewrite (bool_decide_eq_true_2 (r' = r')), (bool_decide_eq_false_2 (r' ∈ rs)) by done.
      rewrite bool_decide_eq_true_2 by (apply elem_of_cons; by left). by rewrite app_nil_r.
    + rewrite (bool_decide_eq_false_2 (r = r')) by done. simpl.
      rewrite (bool_decide_ext (r ∈ r' :: rs) (r ∈ rs)) by (rewrite elem_of_cons; tauto). done.
Qed.

(** The runs of entry [i] on resource [r]. *)
Definition idx_runs (entries : list entry) (usage : gmap string (list f64)) (r : string) (i : nat)
    : list (Z * Z) :=
  match entries !! i with
  | Some e => if bool_decide (r ∈ entry_resources usage e.2)
              then occupiedRuns e.2 (profile_length usage r) else []
  | None => []
  end.

Lemma runs_fold_lookup usage r l : forall runs,
  default [] (foldl (fun runs '(i, e) => foldl (add_runs usage i e.2) runs (entry_resources usage e.2))
                runs (l : list (nat * entry)) !! r)
  = default [] (runs !! r)
    ++ concat ((fun '(i, e) => if bool_decide (r ∈ entry_resources usage e.2)
                   then (fun '(s, e) => mkRun s e i) <$> occupiedRuns e.2 (profile_length usage r)
                   else []) <$> l).
Proof.
  induction l as [|[i e] l IH]; intros runs; [simpl; by rewrite app_nil_r|].
  cbn [foldl]. rewrite IH, fmap_cons. simpl concat. rewrite app_assoc. f_equal.
  apply add_runs_lookup. apply entry_resources_spec.
Qed.

Lemma membership_runs_lookup entries usage r :
  default [] (overallocationMembershipRuns entries usage !! r)
  = all_runs (length entries) (idx_runs entries usage r).
Proof.
  unfold overallocationMembershipRuns. rewrite runs_fold_lookup, lookup_empty. unfold all_runs.
  cbn [default from_option app]. f_equal.
  apply list_eq. intros i. rewrite !list_lookup_fmap, list_lookup_imap.
  destruct (entries !! i) as [e|] eqn:Hi; simpl.
  - rewrite lookup_seq_lt by (by eapply lookup_lt_Some). cbn [fmap option_fmap option_map Nat.add].
    unfold entry_runs, idx_runs. rewrite Hi. by destruct (bool_decide _).
  - rewrite lookup_seq_ge by (by apply lookup_ge_None). done.
Qed.

(** A task that may take part on a day of the profile. *)
Lemma idx_runs_covers entries usage r i e d :
  entries !! i = Some e -> span_ok e.2 -> is_Some (usage !! r) ->
  0 <= d < profile_length usage r ->
  separated (-1) (idx_runs entries usage r i)
  /\ (covers (idx_runs entries usage r i) d <-> legacy_participates r d e.2 = true).
Proof.
  intros Hi Hok Hu Hd. unfold idx_runs, legacy_participates. rewrite Hi.
  destruct (occupiedRuns_spec e.2 (profile_length usage r) Hok) as [Hs Hc].
  destruct (entry_resources_spec usage e.2) as [_ Hr]. rewrite andb_true_iff.
  case_bool_decide as Hin.
  - split; [done|]. rewrite (Hc d Hd). apply Hr in Hin as [_ ->]. tauto.
  - split; [done|]. split; [intros (? & ? & Hx & _); by apply not_elem_of_nil in Hx|].
    intros [_ Hx]. exfalso. by apply Hin, Hr.
Qed.

(** ** The order of the entries *)

#[export] Instance entry_le_total : Total entry_le.
Proof.
  intros x y. unfold entry_le. destruct (decide (ID x.2 = ID y.2)) as [E|E].
  - rewrite decide_True by done. apply (total String.le).
  - rewrite decide_False by congruence. apply (total String.le).
Qed.

#[export] Instance entry_le_trans : Transitive entry_le.
Proof.
  intros x y z. unfold entry_le. intros Hxy Hyz.
  destruct (decide (ID x.2 = ID y.2)) as [E1|E1], (decide (ID y.2 = ID z.2)) as [E2|E2].
  - rewrite decide_True by congruence. by etrans.
  - rewrite decide_False by congruence. by rewrite E1.
  - rewrite decide_False by congruence. by rewrite <- E2.
  - destruct (decide (ID x.2 = ID z.2)) as [E3|E3]; [|by etrans].
    exfalso. apply E1. apply (anti_symm String.le); [done|by rewrite E3].
Qed.

(** Sorting entries with distinct keys has one result. *)
Lemma sorted_entries_unique (l1 l2 : list entry) :
  NoDup l1.*1 -> l1 ≡ₚ l2 -> StronglySorted entry_le l1 -> StronglySorted entry_le l2 -> l1 = l2.
Proof.
  intros Hnd Hp H1 H2. apply (StronglySorted_unique_strong entry_le); [|done..].
  intros x y Hx Hy Hxy Hyx. rewrite <- Hp in Hy. unfold entry_le in *.
  assert (Hid : ID x.2 = ID y.2).
  { destruct (decide (ID x.2 = ID y.2)) as [|Hne]; [done|].
    rewrite decide_False in Hyx by congruence. by apply (anti_symm String.le). }
  rewrite decide_True in Hxy by done. rewrite decide_True in Hyx by done.
  assert (Hk : x.1 = y.1) by (by apply (anti_symm String.le)).
  apply list_elem_of_lookup in Hx as [i Hi]. apply list_elem_of_lookup in Hy as [j Hj].
  assert (i = j) as ->.
  { eapply NoDup_lookup; [exact Hnd|by rewrite list_lookup_fmap, Hi|by rewrite list_lookup_fmap, Hj, Hk]. }
  congruence.
Qed.

Lemma StronglySorted_filter_entries P `{forall x : entry, Decision (P x)} (l : list entry) :
  StronglySorted entry_le l -> StronglySorted entry_le (filter P l).
Proof.
  induction 1 as [|x l Hs IH Hx]; [constructor|]. rewrite filter_cons. case_decide; [|done].
  constructor; [done|]. rewrite Forall_forall in *. intros y Hy.
  apply list_elem_of_filter in Hy as [_ Hy]. by apply Hx.
Qed.

Lemma NoDup_filter_keys P `{forall x : entry, Decision (P x)} (l : list entry) :
  NoDup l.*1 -> NoDup (filter P l).*1.
Proof.
  induction l as [|x l IH]; intros Hnd; [constructor|]. apply NoDup_cons in Hnd as [Hx Hnd].
  rewrite filter_cons. case_decide; [|by apply IH]. apply NoDup_cons. split; [|by apply IH].
  intros Hin. apply Hx. apply list_elem_of_fmap in Hin as (y & -> & Hy).
  apply list_elem_of_filter in Hy as [_ Hy]. apply list_elem_of_fmap. by exists y.
Qed.

(** The scan lists the participating entries in entry order. *)
Lemma legacyTasksOnDay_entries `{RangeOrder} tasks r day :
  legacyTasksOnDay tasks r day
  = filter (fun e => legacy_participates r day e.2 = true) (overallocationEntries tasks).
Proof.
  unfold legacyTasksOnDay, overallocationEntries. apply sorted_entries_unique.
  - rewrite merge_sort_Permutation. apply NoDup_filter_keys. auto with gopm.
  - rewrite !merge_sort_Permutation. by rewrite (range_perm 15), (range_perm 13).
  - apply (StronglySorted_merge_sort _).
  - apply StronglySorted_filter_entries, (StronglySorted_merge_sort _).
Qed.

(** ** Members as participants *)

Lemma Forall2_filter {A B : Type} (R : A -> B -> Prop) (P : A -> Prop) (Q : B -> Prop)
    `{forall x, Decision (P x)} `{forall y, Decision (Q y)} (l : list A) (k : list B) :
  Forall2 (fun x y => R x y /\ (P x <-> Q y)) l k -> Forall2 R (filter P l) (filter Q k).
Proof.
  induction 1 as [|x y l k [HR HPQ] _ IH]; [constructor|]. rewrite !filter_cons.
  destruct (decide (P x)), (decide (Q y)); [by constructor|tauto|tauto|done].
Qed.

Lemma sorted_members_participants (entries : list entry) (Q : entry -> Prop)
    `{forall e, Decision (Q e)} (act : list nat) :
  NoDup act -> Forall (fun i => (i < length entries)%nat) act ->
  (forall i e, entries !! i = Some e -> (i ∈ act <-> Q e)) ->
  mapM (fun i => entries !! i) (merge_sort Nat.le act) = Some (filter Q entries).
Proof.
  intros Hnd Hlt Hact.
  assert (Hs : merge_sort Nat.le act = filter (fun i => i ∈ act) (seq 0 (length entries))).
  { apply (StronglySorted_unique Nat.le).
    - apply (StronglySorted_merge_sort _).
    - generalize 0%nat. intros k. generalize (length entries). intros n. revert k.
      induction n as [|n IH]; intros k; simpl; [constructor|]. rewrite filter_cons.
      case_decide; [|apply IH]. constructor; [apply IH|]. apply Forall_forall. intros x Hx.
      apply list_elem_of_filter in Hx as [_ Hx]. apply elem_of_seq in Hx. lia.
    - rewrite merge_sort_Permutation. apply NoDup_Permutation; [done|apply NoDup_filter, NoDup_seq|].
      intros i. rewrite list_elem_of_filter, elem_of_seq. rewrite Forall_forall in Hlt.
      split; [intros Hi; split; [done|]; specialize (Hlt i Hi); lia|tauto]. }
  rewrite Hs. apply mapM_Some. apply Forall2_filter.
  apply Forall2_same_length_lookup. split; [by rewrite length_seq|].
  intros i x e Hx He. apply lookup_seq in Hx as [-> Hi]. simpl. split; [done|by apply Hact].
Qed.

(** ** Detection *)

Section Detect.
Context `{RangeOrder} `{EventSort} (tasks : gmap string Task) (plan : ResourceCapacityPlan).
Context (Hspan : map_Forall (fun _ t => span_ok t) tasks).
Context (usage : gmap string (list f64)).

Let entries := overallocationEntries tasks.
Let n := length entries.

Lemma entries_span_ok i e : entries !! i = Some e -> span_ok e.2.
Proof.
  intros Hi. apply list_elem_of_lookup_2 in Hi. subst entries. unfold overallocationEntries in Hi.
  rewrite merge_sort_Permutation in Hi. destruct e as [k t]. apply elem_of_range in Hi.
  by apply (Hspan k t).
Qed.

Lemma idx_runs_separated r i : (i < n)%nat -> separated (-1) (idx_runs entries usage r i).
Proof.
  intros Hi. unfold idx_runs. destruct (entries !! i) as [e|] eqn:He; [|done].
  case_bool_decide; [|done]. apply occupiedRuns_spec. by eapply entries_span_ok.
Qed.

Lemma scan_days_legacy r profile : forall day m st,
  usage !! r = Some (take (Z.to_nat day) (default [] (usage !! r)) ++ profile) ->
  Z.of_nat (length (take (Z.to_nat day) (default [] (usage !! r)))) = day ->
  tracks n (idx_runs entries usage r) (day - 1) m ->
  exists m', scan_days plan entries r profile day m st
      = Some (m', legacy_days plan tasks r profile day st)
    /\ tracker_ok n (active m') (pos m').
Proof.
  induction profile as [|demand profile IH]; intros day m st Hu Hlen Hm; simpl.
  - exists m. split; [done|]. by eapply tracks_ok.
  - destruct (advanceTo_tracks n (idx_runs entries usage r) (idx_runs_separated r) day m Hm)
      as (m' & -> & Hm' & Hact).
    assert (Hnext : usage !! r = Some (take (Z.to_nat (day + 1)) (default [] (usage !! r)) ++ profile)
      /\ Z.of_nat (length (take (Z.to_nat (day + 1)) (default [] (usage !! r)))) = day + 1).
    { set (full := default [] (usage !! r)) in *. set (pre := take (Z.to_nat day) full) in *.
      assert (Hf : full = pre ++ demand :: profile) by (subst full; by rewrite Hu).
      assert (Hpre : length (pre ++ [demand]) = Z.to_nat (day + 1))
        by (rewrite length_app; simpl; lia).
      assert (Ht : take (Z.to_nat (day + 1)) full = pre ++ [demand]).
      { rewrite Hf, <- Hpre. rewrite (app_assoc pre [demand] profile : pre ++ demand :: profile = _).
        apply take_app_length. }
      rewrite Ht, <- app_assoc. split; [exact Hu|]. rewrite Hpre. lia. }
    destruct Hnext as [Hu' Hlen'].
    assert (Hm1 : tracks n (idx_runs entries usage r) (day + 1 - 1) m')
      by (by replace (day + 1 - 1) with day by lia).
    destruct (over_capacity plan r day demand); [|by apply IH].
    assert (Hparts : mapM (fun i => entries !! i) (members_sorted m') = Some (legacyTasksOnDay tasks r day)).
    { rewrite legacyTasksOnDay_entries. unfold members_sorted. fold entries.
      pose proof (tracks_ok _ _ _ _ Hm') as (Hnd & _ & Hlt & _).
      apply sorted_members_participants; [done|done|]. intros i e Hi.
      pose proof (lookup_lt_Some _ _ _ Hi) as Hin. rewrite (Hact i Hin).
      apply idx_runs_covers; [done|by eapply entries_span_ok|by eexists|].
      unfold profile_length. rewrite Hu at 1. simpl. rewrite length_app. simpl. lia. }
    rewrite Hparts. by apply IH.
Qed.

Lemma scan_resources_legacy resources : forall m st,
  Forall (fun r => is_Some (usage !! r)) resources -> tracker_ok n (active m) (pos m) ->
  scan_resources plan entries usage (overallocationMembershipRuns entries usage) resources m st
  = Some (foldl (fun st r => legacy_days plan tasks r (default [] (usage !! r)) 0 st) st resources).
Proof.
  induction resources as [|r resources IH]; intros m st Hr Hm; [done|]. cbn [scan_resources foldl].
  apply Forall_cons in Hr as [[profile Hp] Hr]. rewrite membership_runs_lookup.
  change (length entries) with n.
  destruct (members_start_tracks n (idx_runs entries usage r) m Hm) as (m' & -> & Hm').
  destruct (scan_days_legacy r (default [] (usage !! r)) 0 m' st) as (m'' & -> & Hm'');
    [by rewrite Hp|done|done|]. by apply IH.
Qed.
End Detect.

Lemma clear_flags_lookup tasks k :
  clear_flags tasks !! k = (fun t => set_Overallocated t false) <$> tasks !! k.
Proof. apply lookup_fmap. Qed.

(** ** Allocations *)

Lemma occupiedDays_ok t : is_Some (occupiedDays t) -> span_ok t.
Proof.
  unfold occupiedDays, span_ok. intros Hs Hw. rewrite Hw in Hs. destruct (taskSpan t) as [[first last]|]; [|done].
  destruct (last <? max_int64) eqn:E; [lia|]. rewrite andb_false_r in Hs. by destruct Hs.
Qed.

Lemma occupiedDays_fits t : span_fits t -> is_Some (occupiedDays t).
Proof.
  unfold occupiedDays, span_fits. intros Hf. destruct (WorkDays t); [|by eexists].
  destruct (taskSpan t) as [[first last]|] eqn:Es; [|by eexists]. apply taskSpan_range in Es as [_ Hle].
  rewrite (wrap64_id (last - first)) by lia. rewrite wrap64_id by lia.
  unfold can_make, word_size, maxAlloc, max_int64.
  rewrite (proj2 (Z.leb_le 0 _)), (proj2 (Z.leb_le _ (2 ^ 48))), (proj2 (Z.ltb_lt _ _)) by lia. by eexists.
Qed.

(** The profiles were made, so every span was. *)
Lemma ResourceUsage_spans `{RangeOrder} tasks usage :
  ResourceUsage tasks = Some usage -> map_Forall (fun _ t => span_ok t) tasks.
Proof.
  intros Hu k t Ht. apply occupiedDays_ok. apply (elem_of_range 12) in Ht.
  destruct (foldlM_elem _ _ _ _ (k, t) Hu Ht) as [b [u Hb]]. unfold add_task in Hb. cbn [snd] in Hb.
  destruct (occupiedDays t); [by eexists|done].
Qed.

Lemma horizon_fold_fits l : forall h, 0 <= h <= 2 ^ 45 -> Forall (fun e : entry => span_fits e.2) l ->
  0 <= foldl horizon_step h l <= 2 ^ 45.
Proof.
  induction l as [|e l IH]; intros h Hh Hl; [done|]. apply Forall_cons in Hl as [He Hl]. cbn [foldl].
  apply IH; [|done]. unfold horizon_step. unfold span_fits in He.
  destruct (taskSpan e.2) as [[first last]|] eqn:Es; [|done]. apply taskSpan_range in Es as [Hr _].
  unfold min_int64 in Hr. rewrite wrap64_id by lia. destruct (Z.ltb_spec h (last + 1)); lia.
Qed.

Lemma usage_horizon_fits `{RangeOrder} tasks :
  map_Forall (fun _ t => span_fits t) tasks -> 0 <= usage_horizon tasks <= 2 ^ 45.
Proof.
  intros Hf. apply horizon_fold_fits; [lia|]. apply Forall_forall. intros [k t] He. apply elem_of_range in He.
  by apply (Hf k t).
Qed.

Lemma ResourceUsage_fits `{RangeOrder} tasks :
  map_Forall (fun _ t => span_fits t) tasks -> is_Some (ResourceUsage tasks).
Proof.
  intros Hf. pose proof (usage_horizon_fits tasks Hf) as Hh.
  assert (Hmake : can_make word_size (usage_horizon tasks) = true)
    by (unfold can_make, word_size, maxAlloc; lia).
  apply (foldlM_Some _ (fun _ => True)); [done|]. intros usage [k t] _ He. apply elem_of_range in He.
  unfold add_task. cbn [snd]. destruct (occupiedDays_fits t (Hf k t He)) as [od ->]. cut (is_Some (
    match od with [] => Some usage | _ => foldlM (add_assignment (usage_horizon tasks) od) usage (Assignments t) end)).
  { intros [u Hu]. exists u. split; [|done]. by destruct od. }
  destruct od as [|d od]; [by eexists|]. apply (foldlM_Some _ (fun _ => True)); [done|]. intros u a _ _.
  unfold add_assignment. destruct (String.eqb _ _); [by eexists|].
  destruct (u !! Resource a); [by eexists|]. rewrite Hmake. by eexists.
Qed.

Lemma clear_flags_fits tasks :
  map_Forall (fun _ t => span_fits t) tasks -> map_Forall (fun _ t => span_fits t) (clear_flags tasks).
Proof.
  intros Hs k t Ht. unfold clear_flags in Ht. rewrite lookup_fmap in Ht.
  destruct (tasks !! k) as [t'|] eqn:E; [|done]. injection Ht as <-. exact (Hs k t' E).
Qed.

(** The scan of the detector never stops. *)
Lemma detector_scans `{RangeOrder} `{EventSort} tasks plan usage :
  ResourceUsage (clear_flags tasks) = Some usage ->
  DetectOverallocationsWithPlan tasks plan
  = Some (foldl (fun st r => legacy_days plan (clear_flags tasks) r (default [] (usage !! r)) 0 st)
            ([], clear_flags tasks) (sort_strings (range 14 usage).*1)).
Proof.
  intros Hu. unfold DetectOverallocationsWithPlan. rewrite Hu. cbn [mbind option_bind].
  apply scan_resources_legacy.
  - by eapply ResourceUsage_spans.
  - apply Forall_forall. intros r Hr. rewrite elem_of_sort_strings in Hr.
    by apply elem_of_range_keys in Hr.
  - apply new_members_ok.
Qed.

(** C22. The detector with its participant index does exactly what the frozen reference
    does that scans every task at every breach: it returns the same records and
    flags, or panics where the reference panics, which is only when a slice of days
    or a profile cannot be made; spans and last days below 2^45 always return.  This
    for every task map, capacity plan, iteration order and (even unstable) sort of
    the day events. *)
Theorem DetectOverallocations_matches_reference `{RangeOrder} `{EventSort} tasks plan :
  DetectOverallocationsWithPlan tasks plan = legacyDetectOverallocationsWithPlan tasks plan
  /\ (DetectOverallocationsWithPlan tasks plan = None <-> ResourceUsage (clear_flags tasks) = None)
  /\ (map_Forall (fun _ t => span_fits t) tasks -> is_Some (DetectOverallocationsWithPlan tasks plan)).
Proof.
  destruct (ResourceUsage (clear_flags tasks)) as [usage|] eqn:Hu.
  - rewrite (detector_scans tasks plan usage Hu). unfold legacyDetectOverallocationsWithPlan. rewrite Hu.
    split_and!; [done|done|by eexists].
  - unfold DetectOverallocationsWithPlan, legacyDetectOverallocationsWithPlan. rewrite Hu.
    split_and!; [done|done|]. intros Hf%clear_flags_fits%ResourceUsage_fits. rewrite Hu in Hf. by destruct Hf.
Qed.

(** ** What the records say *)

(** A resource, a day and the demand on it. *)
Definition resource_day : Type := string * Z * f64.

Fixpoint profile_days (r : string) (day : Z) (profile : list f64) : list resource_day :=
  match profile with
  | [] => []
  | x :: profile' => (r, day, x) :: profile_days r (day + 1) profile'
  end.

Definition is_breach (plan : ResourceCapacityPlan) (b : resource_day) : bool :=
  over_capacity plan b.1.1 b.1.2 b.2.

(** Whether a record for a resource-day names a task. *)
Definition names_task (t : Task) (b : resource_day) : bool := legacy_participates b.1.1 b.1.2 t.

(** The resource-days over capacity, by resource and then day. *)
Definition breaches (plan : ResourceCapacityPlan) (usage : gmap string (list f64))
    (resources : list string) : list resource_day :=
  filter (fun b => is_breach plan b = true)
    (resources ≫= fun r => profile_days r 0 (default [] (usage !! r))).

Definition record_step `{RangeOrder} (plan : ResourceCapacityPlan) (tasks : gmap string Task)
    (st : detection) (b : resource_day) : detection :=
  let '(r, day, x) := b in record_breach plan r day x (legacyTasksOnDay tasks r day) st.

Lemma legacy_days_fold `{RangeOrder} plan tasks r profile : forall day st,
  legacy_days plan tasks r profile day st
  = foldl (record_step plan tasks) st
      (filter (fun b => is_breach plan b = true) (profile_days r day profile)).
Proof.
  induction profile as [|x profile IH]; intros day st; [done|]. cbn [legacy_days profile_days].
  rewrite IH. destruct (over_capacity plan r day x) eqn:E.
  - by rewrite filter_cons_True.
  - rewrite filter_cons_False; [done|]. unfold is_breach. simpl. by rewrite E.
Qed.

Lemma legacy_fold `{RangeOrder} plan tasks usage resources : forall st,
  foldl (fun st r => legacy_days plan tasks r (default [] (usage !! r)) 0 st) st resources
  = foldl (record_step plan tasks) st (breaches plan usage resources).
Proof.
  induction resources as [|r resources IH]; intros st; [done|]. cbn [foldl].
  rewrite IH, legacy_days_fold. unfold breaches. by rewrite bind_cons, filter_app, foldl_app.
Qed.

Definition breach_record `{RangeOrder} (plan : ResourceCapacityPlan) (tasks : gmap string Task)
    (b : resource_day) : Overallocation :=
  let '(r, day, x) := b in
  mkOverallocation r day x (capacityFor plan r day)
    ((fun e : entry => ID e.2) <$> legacyTasksOnDay tasks r day).

Definition flagged_keys `{RangeOrder} (tasks : gmap string Task) (bs : list resource_day) : list string :=
  bs ≫= fun '(r, day, _) => (legacyTasksOnDay tasks r day).*1.

Lemma record_fold `{RangeOrder} plan tasks bs : forall st,
  foldl (record_step plan tasks) st bs
  = (st.1 ++ (breach_record plan tasks <$> bs), foldl flag_task st.2 (flagged_keys tasks bs)).
Proof.
  induction bs as [|[[r day] x] bs IH]; intros [out ts]; [simpl; by rewrite app_nil_r|].
  cbn [foldl]. rewrite IH. cbn [record_step record_breach fst snd]. rewrite fmap_cons, <- app_assoc.
  unfold flagged_keys. by rewrite bind_cons, foldl_app.
Qed.

Lemma flag_fold_lookup keys : forall tasks k,
  foldl flag_task tasks keys !! k
  = (fun t => if bool_decide (k ∈ keys) then set_Overallocated t true else t) <$> tasks !! k.
Proof.
  induction keys as [|k' keys IH]; intros tasks k; [simpl; by destruct (tasks !! k)|].
  cbn [foldl]. rewrite IH. unfold flag_task. destruct (decide (k' = k)) as [->|Hne].
  - rewrite lookup_alter_eq. destruct (tasks !! k) as [t|]; [|done]. simpl. f_equal.
    rewrite (bool_decide_eq_true_2 (k ∈ k :: keys)) by (apply elem_of_cons; by left).
    by destruct (bool_decide _).
  - rewrite lookup_alter_ne by done. destruct (tasks !! k) as [t|]; [|done]. simpl. f_equal.
    rewrite (bool_decide_ext (k ∈ k' :: keys) (k ∈ keys)); [done|].
    rewrite elem_of_cons. naive_solver.
Qed.

Lemma elem_of_legacyTasksOnDay `{RangeOrder} tasks r day k t :
  (k, t) ∈ legacyTasksOnDay tasks r day
  <-> tasks !! k = Some t /\ legacy_participates r day t = true.
Proof.
  unfold legacyTasksOnDay. rewrite merge_sort_Permutation, list_elem_of_filter, elem_of_range. tauto.
Qed.

Lemma elem_of_flagged `{RangeOrder} tasks bs k :
  k ∈ flagged_keys tasks bs
  <-> exists r day x t, (r, day, x) ∈ bs /\ tasks !! k = Some t /\ legacy_participates r day t = true.
Proof.
  unfold flagged_keys. rewrite list_elem_of_bind. split.
  - intros ([[r day] x] & Hk & Hb). apply list_elem_of_fmap in Hk as ([k' t] & -> & Hk).
    apply elem_of_legacyTasksOnDay in Hk as [Hk Hp]. by exists r, day, x, t.
  - intros (r & day & x & t & Hb & Hk & Hp). exists (r, day, x). split; [|done].
    apply list_elem_of_fmap. exists (k, t). split; [done|]. by apply elem_of_legacyTasksOnDay.
Qed.

(** Detection reports one record per resource and day whose demand is not
    within capacity plus 1e-9, ordered by resource and then day, naming every
    task that is assigned to the resource and occupies the day; and it leaves
    Overallocated set on exactly the tasks some record names, changing nothing
    else. *)
Theorem DetectOverallocations_records `{RangeOrder} `{EventSort} tasks plan :
  map_Forall (fun _ t => span_fits t) tasks ->
  exists usage records tasks' (found : list resource_day),
    ResourceUsage (clear_flags tasks) = Some usage
    /\ DetectOverallocationsWithPlan tasks plan = Some (records, tasks')
    /\ found = breaches plan usage (sort_strings (range 14 usage).*1)
    /\ records = breach_record plan (clear_flags tasks) <$> found
    /\ (forall k, tasks' !! k
        = (fun t => set_Overallocated t (bool_decide
             (Exists (fun b => names_task t b = true) found))) <$> tasks !! k).
Proof.
  intros Hspan. set (cleared := clear_flags tasks).
  destruct (ResourceUsage_fits cleared (clear_flags_fits _ Hspan)) as [usage Hu].
  set (found := breaches plan usage (sort_strings (range 14 usage).*1)).
  assert (Hd : DetectOverallocationsWithPlan tasks plan
    = Some (breach_record plan cleared <$> found, foldl flag_task cleared (flagged_keys cleared found))).
  { rewrite (detector_scans tasks plan usage Hu). by rewrite legacy_fold, record_fold. }
  eexists usage, _, _, found. split_and!; [exact Hu|exact Hd|done|done|].
  intros k. rewrite flag_fold_lookup. subst cleared. rewrite clear_flags_lookup.
  destruct (tasks !! k) as [t|] eqn:Hk; [|done]. simpl. f_equal.
  rewrite (bool_decide_ext (k ∈ flagged_keys (clear_flags tasks) found)
    (Exists (fun b => names_task t b = true) found)).
  { by destruct (bool_decide _). }
  rewrite elem_of_flagged, Exists_exists. split.
  - intros (r & day & x & t' & Hb & Hk' & Hp). exists (r, day, x). split; [done|].
    rewrite clear_flags_lookup, Hk in Hk'. injection Hk' as <-. exact Hp.
  - intros ([[r day] x] & Hb & Hp). exists r, day, x, (set_Overallocated t false).
    split_and!; [done| |exact Hp]. by rewrite clear_flags_lookup, Hk.
Qed.

(** ** A concrete schedule *)

Definition day_le (a b : overallocationEvent) : Prop := ev_day a <= ev_day b.

#[export] Instance day_le_dec a b : Decision (day_le a b).
Proof. unfold day_le. apply _. Defined.

#[export] Instance day_le_total : Total day_le.
Proof. intros a b. unfold day_le. lia. Qed.

#[export] Instance day_le_trans : Transitive day_le.
Proof. intros a b c. unfold day_le. lia. Qed.

(** A sort of the events, and one that starts from the reversed list. *)
Definition stable_sort : EventSort :=
  {| sort_events := merge_sort day_le;
     sort_events_perm := merge_sort_Permutation day_le;
     sort_events_sorted := fun l => StronglySorted_merge_sort day_le l |}.

Definition booked_task (id r : string) (units es ef : Z) : Task :=
  let t := new_task id (ef - es) [] in
  mkTask id "" (Duration t) [] [] (Estimate t) "" "" fzero false false fzero false "" ""
    fzero 0 fzero 0 [mkAssignment r (f_of_Z units) "" [] fzero] false [] []
    (f_of_Z es) (f_of_Z ef) fzero fzero fzero false "" "".

Definition booked_demo : gmap string Task :=
  task_map [booked_task "A" "ana" 1 0 3; booked_task "B" "ana" 1 2 4; booked_task "C" "bo" 1 0 2].

Lemma booked_demo_spans : map_Forall (fun _ t => span_fits t) booked_demo.
Proof. by_decide. Qed.

Lemma DetectOverallocations_matches_reference_witness :
  is_Some (DetectOverallocationsWithPlan (H := key_order) (H0 := stable_sort) booked_demo (capacityPlanFromMap ∅))
  /\ DetectOverallocationsWithPlan (H := key_order) (H0 := stable_sort) booked_demo (capacityPlanFromMap ∅)
     = legacyDetectOverallocationsWithPlan (H := reverse_order) booked_demo (capacityPlanFromMap ∅).
Proof.
  destruct (@DetectOverallocations_matches_reference key_order stable_sort booked_demo (capacityPlanFromMap ∅))
    as (E & _ & F).
  split; [exact (F booked_demo_spans)|]. rewrite E. vm_compute. reflexivity.
Defined.

(** A span beyond the address space panics in both. *)
Example endless_panics :
  let tasks := task_map [booked_task "A" "ana" 1 0 (2 ^ 46)] in
  DetectOverallocationsWithPlan (H := key_order) (H0 := stable_sort) tasks (capacityPlanFromMap ∅) = None
  /\ legacyDetectOverallocationsWithPlan (H := key_order) tasks (capacityPlanFromMap ∅) = None.
Proof. split; vm_compute; reflexivity. Qed.

Lemma DetectOverallocations_records_witness :
  exists records tasks',
    DetectOverallocationsWithPlan (H := key_order) (H0 := stable_sort) booked_demo (capacityPlanFromMap ∅)
    = Some (records, tasks')
    /\ records = [mkOverallocation "ana" 2 (f_of_Z 2) fone ["A"; "B"]].
Proof.
  destruct (@DetectOverallocations_records key_order stable_sort booked_demo
              (capacityPlanFromMap ∅) booked_demo_spans) as (usage & records & tasks' & found & Hu & Hd & Hf & Hr & _).
  exists records, tasks'. split; [exact Hd|]. rewrite Hr, Hf.
  assert (Hc : Some usage = ResourceUsage (H := key_order) (clear_flags booked_demo)) by (symmetry; exact Hu).
  vm_compute in Hc. injection Hc as ->. vm_compute. reflexivity.
Defined.
