(* ===== verification/Leveling.v ===== *)
(** * kernel/resources.go: serial resource leveling

    [LevelResourcesWithOptions]: the critical-path pass, then the ready queue
    that places one task at a time, contiguously or split over the days with
    capacity.  [None] is a panic: a nil task, a negative slice length or a
    negative profile index.  Day numbers are exact integers; they stay inside
    int as long as start, horizon and duration together do. *)

From S2P Require Import Prelude GoFloat Scheduler Resources.

Local Open Scope Z_scope.

Definition DefaultLevelingHorizon : Z := 10000.

Inductive LevelingError : Type :=
| ErrSchedulingCycle
| ErrLevelingHorizonExceeded.

Definition LevelingStrategy : Type := string.
Definition LeastTotalFloat : LevelingStrategy := "ltf".
Definition EarliestDeadline : LevelingStrategy := "edf".

Record LevelingOptions := mkOptions {
  Horizon : Z;
  Strategy : LevelingStrategy;
  PriorityCritical : bool;
  AllowSplitting : bool
}.

Record LevelingResult := mkResult {
  UnplacedTaskIDs : list string;
  SplitTaskIDs : list string
}.

(** The result, the error and the mutated tasks. *)
Definition outcome : Type := LevelingResult * option LevelingError * gmap string Task.

Definition effective_horizon (opts : LevelingOptions) : Z :=
  if Horizon opts <=? 0 then DefaultLevelingHorizon else Horizon opts.

(** ** The ready queue *)

(** The base strategy: by latest finish or latest start, ties by ID. *)
Definition by_key (key : Task -> f64) (a b : Task) : bool :=
  if negb (key a ==. key b) then key a <. key b
  else bool_decide (String.le (ID a) (ID b)) && negb (String.eqb (ID a) (ID b)).

Definition higherPriority (opts : LevelingOptions) (a b : Task) : bool :=
  if PriorityCritical opts && negb (Bool.eqb (IsCritical a) (IsCritical b)) then IsCritical a
  else if String.eqb (Strategy opts) EarliestDeadline then by_key LF a b
  else by_key LS a b.

Definition link_ready (tasks : gmap string Task) (levelled : gset string) (l : Link) : bool :=
  match tasks !! Pred l with
  | Some _ => bool_decide (Pred l ∈ levelled)
  | None => true
  end.

Definition task_ready (tasks : gmap string Task) (levelled : gset string) (t : Task) : bool :=
  forallb (link_ready tasks levelled) (effectiveLinks t).

(** The scan for the ready task of highest priority: its index, ID and task. *)
Fixpoint pick_loop (opts : LevelingOptions) (tasks : gmap string Task) (levelled : gset string)
    (i : nat) (pending : list string) (pick : option (nat * string * Task))
    : option (option (nat * string * Task)) :=
  match pending with
  | [] => Some pick
  | id :: pending' =>
      match tasks !! id with
      | None => None
      | Some t =>
          pick_loop opts tasks levelled (S i) pending'
            (if negb (task_ready tasks levelled t) then pick
             else match pick with
                  | None => Some (i, id, t)
                  | Some (_, _, b) => if higherPriority opts t b then Some (i, id, t) else pick
                  end)
      end
  end.

(** [append(pending[:pick], pending[pick+1:]...)]. *)
Definition remove_at (i : nat) (l : list string) : list string := take i l ++ drop (S i) l.

(** ** Capacity *)

Definition booking : Type := gmap string (list f64).

Definition demand (profile : list f64) (day : Z) : f64 :=
  if day <? Z.of_nat (length profile) then nth (Z.to_nat day) profile fzero else fzero.

Definition assignment_fits (plan : ResourceCapacityPlan) (booked : booking) (d : Z) (a : Assignment)
    : bool :=
  String.eqb (Resource a) EmptyString
  || negb (capacityForAssignment plan a d ⊕ f_1em9
           <. demand (default [] (booked !! Resource a)) d ⊕ effectiveUnits a).

Definition dayHasCapacity (plan : ResourceCapacityPlan) (booked : booking) (t : Task) (d : Z) : bool :=
  forallb (assignment_fits plan booked d) (Assignments t).

Definition task_days (t : Task) : Z := f_to_int (fceil (Duration t)).

Definition contiguousDays (start days : Z) : list Z := seqZ start days.

Definition fits (plan : ResourceCapacityPlan) (booked : booking) (t : Task) (start : Z) : bool :=
  forallb (dayHasCapacity plan booked t) (contiguousDays start (task_days t)).

(** The first start that fits, among [fuel] successive days. *)
Fixpoint contiguous_start (plan : ResourceCapacityPlan) (booked : booking) (t : Task)
    (fuel : nat) (start : Z) : option Z :=
  match fuel with
  | O => None
  | S fuel' => if fits plan booked t start then Some start
               else contiguous_start plan booked t fuel' (start + 1)
  end.

(** [need] days with capacity, among [fuel] successive days. *)
Fixpoint splitDays (plan : ResourceCapacityPlan) (booked : booking) (t : Task)
    (fuel : nat) (d : Z) (need : nat) : option (list Z) :=
  match need with
  | O => Some []
  | S need' =>
      match fuel with
      | O => None
      | S fuel' =>
          if dayHasCapacity plan booked t d
          then cons d <$> splitDays plan booked t fuel' (d + 1) need'
          else splitDays plan booked t fuel' (d + 1) need
      end
  end.

(** ** Booking *)

(** The profile grown to [maxDay] days. *)
Definition grow (profile : list f64) (maxDay : Z) : list f64 :=
  profile ++ replicate (Z.to_nat maxDay - length profile) fzero.

Definition book_assignment (workDays : list Z) (booked : booking) (a : Assignment) : booking :=
  if String.eqb (Resource a) EmptyString then booked
  else
    let maxDay := default 0 (last workDays) + 1 in
    let profile := grow (default [] (booked !! Resource a)) maxDay in
    <[Resource a := foldl (add_day (effectiveUnits a)) profile workDays]> booked.

Definition bookProfileDays (t : Task) (workDays : list Z) (booked : booking) : booking :=
  match workDays with
  | [] => booked
  | _ => foldl (book_assignment workDays) booked (Assignments t)
  end.

(** ** Placing one task *)

Definition link_candidate (p : Task) (l : Link) (duration : f64) : f64 :=
  if String.eqb (LType l) StartToStart then ES p ⊕ Lag l
  else if String.eqb (LType l) FinishToFinish then (EF p ⊕ Lag l) ⊖ duration
  else if String.eqb (LType l) StartToFinish then (ES p ⊕ Lag l) ⊖ duration
  else EF p ⊕ Lag l.

(** The earliest start the levelled predecessors allow. *)
Definition earliest_step (tasks : gmap string Task) (t : Task) (earliest : f64) (l : Link) : f64 :=
  match tasks !! Pred l with
  | None => earliest
  | Some p => let candidate := link_candidate p l (Duration t) in
              if earliest <. candidate then candidate else earliest
  end.

Definition earliest_start (tasks : gmap string Task) (t : Task) : f64 :=
  let earliest := foldl (earliest_step tasks t) (ES t) (effectiveLinks t) in
  if earliest <. fzero then fzero else earliest.

Definition start_floor (tasks : gmap string Task) (t : Task) : Z :=
  f_to_int (fceil (earliest_start tasks t ⊖ f_1em9)).

(** Where a task went. *)
Inductive placement : Type :=
| Split (workDays : list Z)
| Contiguous (start : Z)
| Unplaced (start : Z)
| Free (start : Z).

Definition last_day (workDays : list Z) : Z := default 0 (last workDays).

(** The choice between the earliest contiguous and the earliest split
    placement; a placement that was not found finishes at infinity. *)
Definition choose_placement (contig : option Z) (split : option (list Z)) (days startFloor : Z)
    : placement :=
  match split, contig with
  | Some wd, Some s => if last_day wd + 1 <? s + days then Split wd else Contiguous s
  | Some wd, None => Split wd
  | None, Some s => Contiguous s
  | None, None => Unplaced startFloor
  end.

Definition has_named_assignment (t : Task) : bool :=
  existsb (fun a => negb (String.eqb (Resource a) EmptyString)) (Assignments t).

Definition find_placement (plan : ResourceCapacityPlan) (opts : LevelingOptions) (booked : booking)
    (t : Task) (startFloor : Z) : option placement :=
  if (fzero <. Duration t) && negb (length (Assignments t) =? 0)%nat then
    let days := task_days t in
    if (days <? 0) || ((startFloor <? 0) && has_named_assignment t && (0 <? days)) then None
    else
      let fuel := Z.to_nat (effective_horizon opts + 1) in
      let contig := contiguous_start plan booked t fuel startFloor in
      let split := if AllowSplitting opts
                   then splitDays plan booked t fuel startFloor (Z.to_nat days) else None in
      Some (choose_placement contig split days startFloor)
  else Some (Free startFloor).

(** The new dates and working days of the task. *)
Definition placed_task (t : Task) (p : placement) : Task :=
  let t := set_WorkDays t [] in
  match p with
  | Split wd =>
      set_ES (set_EF (set_WorkDays t wd) (f_of_Z (last_day wd + 1))) (f_of_Z (default 0 (head wd)))
  | Contiguous s | Unplaced s => set_ES (set_EF t (f_of_Z s ⊕ Duration t)) (f_of_Z s)
  | Free s => let t := set_ES t (f_of_Z s) in set_EF t (ES t ⊕ Duration t)
  end.

Definition placed_days (t : Task) (p : placement) : list Z :=
  match p with
  | Split wd => wd
  | Contiguous s | Unplaced s => contiguousDays s (task_days t)
  | Free _ => []
  end.

(** The state of the loop. *)
Record leveling := mkLeveling {
  l_tasks : gmap string Task;
  l_levelled : gset string;
  l_booked : booking;
  l_unplaced : list string;
  l_split : list string;
  l_pending : list string
}.

Definition place (st : leveling) (i : nat) (id : string) (t : Task) (p : placement) : leveling :=
  mkLeveling (<[id := placed_task t p]> (l_tasks st)) ({[id]} ∪ l_levelled st)
    (bookProfileDays t (placed_days t p) (l_booked st))
    (match p with Unplaced _ => l_unplaced st ++ [id] | _ => l_unplaced st end)
    (match p with Split _ => l_split st ++ [id] | _ => l_split st end)
    (remove_at i (l_pending st)).

(** One round of the loop: [inl st] continues, [inr st] is the defensive return
    when no task is ready. *)
Definition level_step (plan : ResourceCapacityPlan) (opts : LevelingOptions) (st : leveling)
    : option (leveling + leveling) :=
  match pick_loop opts (l_tasks st) (l_levelled st) 0 (l_pending st) None with
  | None => None
  | Some None => Some (inr st)
  | Some (Some (i, id, t)) =>
      match find_placement plan opts (l_booked st) t (start_floor (l_tasks st) t) with
      | None => None
      | Some p => Some (inl (place st i id t p))
      end
  end.

Definition finish (st : leveling) : outcome :=
  (mkResult (sort_strings (l_unplaced st)) (sort_strings (l_split st)),
   match l_unplaced st with [] => None | _ => Some ErrLevelingHorizonExceeded end,
   l_tasks st).

Definition empty_result : LevelingResult := mkResult [] [].

Fixpoint level_loop (fuel : nat) (plan : ResourceCapacityPlan) (opts : LevelingOptions)
    (st : leveling) : option outcome :=
  match l_pending st with
  | [] => Some (finish st)
  | _ =>
      match fuel with
      | O => None
      | S fuel' =>
          match level_step plan opts st with
          | None => None
          | Some (inr st) => Some (empty_result, Some ErrSchedulingCycle, l_tasks st)
          | Some (inl st) => level_loop fuel' plan opts st
          end
      end
  end.

(** Each round removes one pending task: their number is fuel enough. *)
Definition LevelResourcesWithOptions `{RangeOrder} (tasks : gmap string Task)
    (plan : ResourceCapacityPlan) (opts : LevelingOptions) : option outcome :=
  match CalculateCPM tasks with
  | None => None
  | Some (false, tasks) => Some (empty_result, Some ErrSchedulingCycle, tasks)
  | Some (true, tasks) =>
      let order := default [] (topoSort tasks) in
      level_loop (length order) plan opts (mkLeveling tasks ∅ ∅ [] [] order)
  end.
