(* ===== verification/LevelingOrder.v ===== *)
(** * Leveling: the queue never sticks and the links hold

    The loop of [LevelResourcesWithOptions] always finds a ready task, places
    every task once and stops; on whole-day projects the dates it returns
    respect every link and never precede the critical-path dates. *)

From S2P Require Import Prelude GoFloat Scheduler SchedulerTopo SchedulerCPM SchedulerExact.
From S2P Require Import Resources Overallocation Leveling.

Local Open Scope Z_scope.

(** ** What placing keeps *)

Definition same_static (t u : Task) : Prop :=
  ID t = ID u /\ Duration t = Duration u /\ effectiveLinks t = effectiveLinks u
  /\ Assignments t = Assignments u.

Lemma same_static_refl t : same_static t t.
Proof. done. Qed.

Lemma placed_task_static t p : same_static (placed_task t p) t.
Proof. by destruct p. Qed.

(** ** The scan *)

Lemma pick_loop_spec opts tasks levelled pending : forall i pick,
  Forall (fun id => is_Some (tasks !! id)) pending ->
  exists res, pick_loop opts tasks levelled i pending pick = Some res
  /\ match res with
     | None => pick = None /\ forall id t, id ∈ pending -> tasks !! id = Some t ->
                 task_ready tasks levelled t = false
     | Some (j, id, t) => pick = Some (j, id, t) \/
         exists k, j = (i + k)%nat /\ pending !! k = Some id /\ tasks !! id = Some t
                   /\ task_ready tasks levelled t = true
     end.
Proof.
  induction pending as [|id pending IH]; intros i pick Hall; simpl.
  - exists pick. split; [done|]. destruct pick as [[[j id] t]|]; [by left|].
    split; [done|]. intros id t Hin. by apply not_elem_of_nil in Hin.
  - apply Forall_cons in Hall as [[t Ht] Hall]. rewrite Ht.
    destruct (task_ready tasks levelled t) eqn:Er; simpl.
    + set (pick' := match pick with None => _ | Some _ => _ end).
      destruct (IH (S i) pick' Hall) as (res & -> & Hres). exists res. split; [done|].
      assert (Hpick' : pick' = pick \/ pick' = Some (i, id, t))
        by (subst pick'; destruct pick as [[[? ?] b]|]; [destruct (higherPriority opts t b)|]; auto).
      destruct res as [[[j id'] t']|].
      * destruct Hres as [Hp|(k & -> & Hk & Hk')].
        -- destruct Hpick' as [E|E]; rewrite E in Hp; [by left|]. injection Hp as <- <- <-.
           right. exists 0%nat. split_and!; [lia|done|done|done].
        -- right. exists (S k). split_and!; [lia|done|apply Hk'|apply Hk'].
      * destruct Hres as [Hp _]. destruct pick as [[[? ?] b]|]; subst pick';
          [destruct (higherPriority opts t b)|]; done.
    + destruct (IH (S i) pick Hall) as (res & -> & Hres). exists res. split; [done|].
      destruct res as [[[j id'] t']|].
      * destruct Hres as [Hp|(k & -> & Hk & Hk')]; [by left|].
        right. exists (S k). split_and!; [lia|done|apply Hk'|apply Hk'].
      * destruct Hres as [Hp Hno]. split; [done|]. intros id' t' Hin Ht'.
        apply elem_of_cons in Hin as [->|Hin]; [congruence|by eapply Hno].
Qed.

Lemma remove_at_filter l i id :
  NoDup l -> l !! i = Some id -> remove_at i l = filter (fun x => x <> id) l.
Proof.
  intros Hnd Hi. unfold remove_at. rewrite <- (take_drop_middle l i id Hi) in Hnd |- * at 3.
  apply NoDup_app in Hnd as (_ & Hdis & Hnd). apply NoDup_cons in Hnd as [Hid _].
  rewrite filter_app, filter_cons_False by (intros Hc; by apply Hc).
  f_equal; symmetry; apply filter_keep.
  - intros x Hx ->. apply (Hdis id Hx), elem_of_cons. by left.
  - intros x Hx ->. done.
Qed.

Section Run.
Context (T0 : gmap string Task) (order : list string) (plan : ResourceCapacityPlan)
  (opts : LevelingOptions).
Context (Hnd : NoDup order) (Hall : forall k, k ∈ order <-> is_Some (T0 !! k))
  (Hpf : preds_first T0 order).

Record lev_inv (st : leveling) : Prop := {
  li_static : forall k, match l_tasks st !! k, T0 !! k with
                        | Some t, Some t0 => same_static t t0
                        | None, None => True
                        | _, _ => False
                        end;
  li_pending : l_pending st = filter (fun k => k ∉ l_levelled st) order;
  li_fresh : forall k, k ∉ l_levelled st -> l_tasks st !! k = T0 !! k;
  li_dom : forall k, k ∈ l_levelled st -> k ∈ order;
  li_preds : forall k t l, k ∈ l_levelled st -> T0 !! k = Some t -> l ∈ effectiveLinks t ->
               is_Some (T0 !! Pred l) -> Pred l ∈ l_levelled st
}.

Lemma static_lookup st k : lev_inv st -> is_Some (l_tasks st !! k) <-> is_Some (T0 !! k).
Proof.
  intros Hi. pose proof (li_static st Hi k) as H.
  destruct (l_tasks st !! k), (T0 !! k); try done; split; eauto.
Qed.

Lemma static_task st k t :
  lev_inv st -> l_tasks st !! k = Some t -> exists t0, T0 !! k = Some t0 /\ same_static t t0.
Proof.
  intros Hi Hk. pose proof (li_static st Hi k) as H. rewrite Hk in H.
  destruct (T0 !! k) as [t0|]; [by exists t0|done].
Qed.

(** The task of the first pending entry is ready, so the scan picks one. *)
Lemma level_pick st :
  lev_inv st -> l_pending st <> [] ->
  exists i id t, pick_loop opts (l_tasks st) (l_levelled st) 0 (l_pending st) None = Some (Some (i, id, t))
    /\ l_pending st !! i = Some id /\ l_tasks st !! id = Some t
    /\ task_ready (l_tasks st) (l_levelled st) t = true.
Proof.
  intros Hi Hne. destruct (pick_loop_spec opts (l_tasks st) (l_levelled st) (l_pending st) 0 None)
    as (res & -> & Hres).
  { apply Forall_forall. intros id Hid. apply static_lookup; [done|]. apply Hall.
    rewrite (li_pending st Hi) in Hid. by apply list_elem_of_filter in Hid as [_ ?]. }
  destruct res as [[[i id] t]|].
  - destruct Hres as [?|(k & -> & Hk & Ht & Hr)]; [done|]. by exists k, id, t.
  - exfalso. destruct Hres as [_ Hno].
    destruct (l_pending st) as [|x pending] eqn:Ep; [done|]. pose proof (li_pending st Hi) as Hp.
    rewrite Ep in Hp.
    assert (Hx : x ∈ order /\ x ∉ l_levelled st).
    { assert (Hin : x ∈ x :: pending) by (apply elem_of_cons; by left). rewrite Hp in Hin.
      apply list_elem_of_filter in Hin. tauto. }
    destruct Hx as [Hx Hxl]. pose proof Hx as Hx'. apply Hall in Hx' as [t0 Ht0].
    assert (Ht : l_tasks st !! x = Some t0) by (by rewrite (li_fresh st Hi x Hxl)).
    specialize (Hno x t0 ltac:(apply elem_of_cons; by left) Ht).
    assert (Hready : task_ready (l_tasks st) (l_levelled st) t0 = true); [|congruence].
    apply forallb_forall. intros l Hl. apply list_elem_of_In in Hl. unfold link_ready.
    destruct (l_tasks st !! Pred l) as [p|] eqn:Hp'; [|done]. apply bool_decide_eq_true.
    destruct (decide (Pred l ∈ l_levelled st)) as [|Hnl]; [done|exfalso].
    (* the first pending task would come after its predecessor *)
    apply list_elem_of_split in Hx as (a & b & Ho).
    assert (Hpa : Pred l ∈ a).
    { eapply Hpf; [exact Ho|]. exists t0, l. split_and!; [done|done|done|].
      apply (static_lookup st); [done|eauto]. }
    rewrite Ho, filter_app in Hp.
    assert (Hpf' : Pred l ∈ filter (fun k => k ∉ l_levelled st) a) by (by apply list_elem_of_filter).
    destruct (filter (fun k => k ∉ l_levelled st) a) as [|y fa] eqn:Efa; [by apply not_elem_of_nil in Hpf'|].
    injection Hp as <- _.
    assert (Hxa : x ∈ a).
    { assert (Hin : x ∈ filter (fun k => k ∉ l_levelled st) a) by (rewrite Efa; apply elem_of_cons; by left).
      apply list_elem_of_filter in Hin. tauto. }
    rewrite Ho in Hnd. apply NoDup_app in Hnd as (_ & Hdis & _).
    apply (Hdis x Hxa), elem_of_cons. by left.
Qed.

Lemma task_ready_link st t l :
  task_ready (l_tasks st) (l_levelled st) t = true -> l ∈ effectiveLinks t ->
  is_Some (l_tasks st !! Pred l) -> Pred l ∈ l_levelled st.
Proof.
  intros Hr Hl [p Hp]. unfold task_ready in Hr. rewrite forallb_forall in Hr.
  apply list_elem_of_In in Hl. specialize (Hr l Hl). unfold link_ready in Hr. rewrite Hp in Hr.
  by apply bool_decide_eq_true in Hr.
Qed.

Lemma place_inv st i id t p :
  lev_inv st -> l_pending st !! i = Some id -> l_tasks st !! id = Some t ->
  task_ready (l_tasks st) (l_levelled st) t = true -> lev_inv (place st i id t p).
Proof.
  intros Hi Hid Ht Hr. destruct (static_task st id t Hi Ht) as (t0 & Ht0 & Hs).
  split; simpl.
  - intros k. destruct (decide (id = k)) as [<-|Hne].
    + rewrite lookup_insert_eq, Ht0. pose proof (placed_task_static t p) as (? & ? & ? & ?).
      destruct Hs as (? & ? & ? & ?). unfold same_static. split_and!; congruence.
    + rewrite lookup_insert_ne by done. apply (li_static st Hi).
  - rewrite (remove_at_filter _ _ id); [|rewrite (li_pending st Hi); by apply NoDup_filter|done].
    rewrite (li_pending st Hi), list_filter_filter. apply list_filter_iff. intros x.
    rewrite not_elem_of_union, not_elem_of_singleton. tauto.
  - intros k Hk. apply not_elem_of_union in Hk as [Hk Hkl]. rewrite not_elem_of_singleton in Hk.
    rewrite lookup_insert_ne by done. by apply (li_fresh st Hi).
  - intros k Hk. apply elem_of_union in Hk as [Hk|Hk]; [|by apply (li_dom st Hi)].
    apply elem_of_singleton in Hk as ->. apply Hall. eauto.
  - intros k u l Hk Hu Hl Hp. apply elem_of_union. right.
    apply elem_of_union in Hk as [Hk|Hk]; [|by eapply (li_preds st Hi)].
    apply elem_of_singleton in Hk as ->. rewrite Ht0 in Hu. injection Hu as <-.
    destruct Hs as (_ & _ & Hlinks & _).
    eapply task_ready_link; [exact Hr|by rewrite Hlinks|by apply (static_lookup st)].
Qed.

(** A property kept by every placement holds at the end, and the loop ends only
    by finishing. *)
Lemma level_loop_rule (Q : leveling -> Prop) :
  (forall st i id t p, lev_inv st -> Q st ->
     l_pending st !! i = Some id -> l_tasks st !! id = Some t ->
     task_ready (l_tasks st) (l_levelled st) t = true ->
     find_placement plan opts (l_booked st) t (start_floor (l_tasks st) t) = Some p ->
     Q (place st i id t p)) ->
  forall fuel st out, lev_inv st -> Q st -> level_loop fuel plan opts st = Some out ->
  exists st', lev_inv st' /\ Q st' /\ l_pending st' = [] /\ out = finish st'.
Proof.
  intros HQ fuel. induction fuel as [|fuel IH]; intros st out Hi Hq Hl; simpl in Hl.
  - destruct (l_pending st) eqn:Ep; [|done]. injection Hl as <-. by exists st.
  - destruct (l_pending st) as [|x pending] eqn:Ep; [injection Hl as <-; by exists st|].
    destruct (level_pick st Hi ltac:(by rewrite Ep)) as (i & id & t & Hpick & Hid & Ht & Hr).
    unfold level_step in Hl. rewrite Hpick in Hl.
    destruct (find_placement _ _ _ _ _) as [p|] eqn:Hp; [|done].
    eapply IH; [| |exact Hl]; [by apply place_inv|by eapply HQ].
Qed.

(** With placements that never panic, the loop runs to the end on fuel for one
    round per pending task. *)
Lemma level_loop_total (Q : leveling -> Prop) :
  (forall st i id t, lev_inv st -> Q st ->
     l_pending st !! i = Some id -> l_tasks st !! id = Some t ->
     task_ready (l_tasks st) (l_levelled st) t = true ->
     exists p, find_placement plan opts (l_booked st) t (start_floor (l_tasks st) t) = Some p
               /\ Q (place st i id t p)) ->
  forall fuel st, lev_inv st -> Q st -> (length (l_pending st) <= fuel)%nat ->
  is_Some (level_loop fuel plan opts st).
Proof.
  intros HQ fuel. induction fuel as [|fuel IH]; intros st Hi Hq Hf; simpl.
  - destruct (l_pending st); [eauto|simpl in Hf; lia].
  - destruct (l_pending st) as [|x pending] eqn:Ep; [eauto|].
    destruct (level_pick st Hi ltac:(by rewrite Ep)) as (i & id & t & Hpick & Hid & Ht & Hr).
    unfold level_step. rewrite Ep in Hpick. rewrite Ep, Hpick.
    destruct (HQ st i id t Hi Hq Hid Ht Hr) as (p & -> & Hq').
    apply IH; [by apply place_inv|done|]. simpl. rewrite Ep in *. unfold remove_at.
    pose proof (lookup_lt_Some _ _ _ Hid). rewrite length_app, length_take, length_drop.
    simpl in *. lia.
Qed.
End Run.

Lemma order_start_inv T0 order :
  NoDup order -> (forall k, k ∈ order <-> is_Some (T0 !! k)) ->
  lev_inv T0 order (mkLeveling T0 ∅ ∅ [] [] order).
Proof.
  intros Hnd Hall. split; simpl.
  - intros k. by destruct (T0 !! k).
  - symmetry. apply filter_keep. intros x _. apply not_elem_of_empty.
  - done.
  - intros k Hk. by apply elem_of_empty in Hk.
  - intros k t l Hk. by apply elem_of_empty in Hk.
Qed.

(** ** From the critical-path pass to the queue *)

Section AfterCPM.
Context `{RangeOrder} (tasks T0 : gmap string Task) (Hkeyed : well_keyed tasks)
  (Hrun : CalculateCPM tasks = Some (true, T0)).

Lemma cpm_depends p s : depends T0 p s <-> depends tasks p s.
Proof.
  unfold depends. pose proof (cpm_inputs tasks T0 s Hkeyed Hrun) as Hs.
  pose proof (cpm_inputs tasks T0 p Hkeyed Hrun) as Hp.
  assert (Hdom : is_Some (T0 !! p) <-> is_Some (tasks !! p))
    by (destruct (T0 !! p), (tasks !! p); try done; split; eauto).
  split; intros (t & l & Ht & Hl & Hpl & Hsome); rewrite Ht in Hs.
  - destruct (tasks !! s) as [u|]; [|done]. destruct Hs as (_ & _ & Hlinks & _).
    exists u, l. rewrite <- Hlinks. by rewrite <- Hdom.
  - destruct (T0 !! s) as [u|]; [|done]. destruct Hs as (_ & _ & Hlinks & _).
    exists u, l. rewrite Hlinks. by rewrite Hdom.
Qed.

Lemma cpm_keyed : well_keyed T0.
Proof.
  intros k t Hk. pose proof (cpm_inputs tasks T0 k Hkeyed Hrun) as Hin. rewrite Hk in Hin.
  destruct (tasks !! k) as [u|] eqn:E; [|done]. destruct Hin as (-> & _). by apply Hkeyed.
Qed.

(** The second sort finds an order, as the comment says. *)
Lemma cpm_resort : exists order, topoSort T0 = Some order /\ NoDup order
  /\ (forall k, k ∈ order <-> is_Some (T0 !! k)) /\ preds_first T0 order.
Proof.
  assert (Ha : acyclic T0).
  { intros id Htc. assert (Hac : acyclic tasks).
    { apply topoSort_acyclic; [done|]. unfold CalculateCPM in Hrun.
      destruct (topoSort tasks) as [o|] eqn:E; [eauto|done]. }
    assert (Hmono : forall x y, tc (depends T0) x y -> tc (depends tasks) x y).
    { intros x y Hxy. induction Hxy as [x y Hxy|x y z Hxy _ IH].
      - apply tc_once. by apply cpm_depends.
      - eapply tc_l; [by apply cpm_depends|exact IH]. }
    by apply (Hac id), Hmono. }
  apply (topoSort_acyclic T0 cpm_keyed) in Ha as [order Ho]. exists order. split; [done|].
  apply (topoSort_inv T0 cpm_keyed order Ho).
Qed.
End AfterCPM.

Lemma finish_no_cycle st : (finish st).1.2 <> Some ErrSchedulingCycle.
Proof. unfold finish. simpl. by destruct (l_unplaced st). Qed.

(** Leveling reports a scheduling cycle exactly on cyclic projects: once the
    critical-path pass has succeeded some pending task is always ready, so the
    defensive return in the queue loop is never taken, for any capacity plan and
    options. *)
Theorem LevelResources_cycle_iff `{RangeOrder} tasks plan opts res err tasks' :
  well_keyed tasks ->
  LevelResourcesWithOptions tasks plan opts = Some (res, err, tasks') ->
  err = Some ErrSchedulingCycle <-> ~ acyclic tasks.
Proof.
  intros Hk. unfold LevelResourcesWithOptions.
  destruct (CalculateCPM tasks) as [[[|] T0]|] eqn:Hcpm; [| |done].
  - destruct (cpm_resort tasks T0 Hk Hcpm) as (order & -> & Hnd & Hall & Hpf). intros Hl.
    destruct (level_loop_rule T0 order plan opts Hnd Hall Hpf (fun _ => True) ltac:(done)
      _ _ _ (order_start_inv T0 order Hnd Hall) I Hl) as (st & _ & _ & _ & Hout).
    pose proof (finish_no_cycle st) as Hf. rewrite <- Hout in Hf. split; [done|].
    intros Hn. exfalso. apply Hn, topoSort_acyclic; [done|]. unfold CalculateCPM in Hcpm.
    destruct (topoSort tasks) as [o|] eqn:E; [eauto|done].
  - intros [= _ <- _]. split; [|done]. intros _ Ha. apply (topoSort_acyclic tasks Hk) in Ha as [o Ho].
    unfold CalculateCPM in Hcpm. rewrite Ho in Hcpm.
    repeat case_match; done.
Qed.

(** ** Placements on whole days *)

Lemma fceil_whole x : whole x -> small (zval x) -> f_to_int (fceil x) = zval x.
Proof.
  unfold whole, small. set (z := zval x). intros Hx Hz.
  rewrite Hx, fceil_of_Z by (unfold iint; lia). apply f_to_int_of_Z. unfold iint. lia.
Qed.

Lemma contiguous_start_spec plan booked t fuel : forall start s,
  contiguous_start plan booked t fuel start = Some s ->
  start <= s < start + Z.of_nat fuel /\ fits plan booked t s = true.
Proof.
  induction fuel as [|fuel IH]; intros start s; simpl; [done|].
  destruct (fits plan booked t start) eqn:E.
  - intros [= <-]. split; [lia|done].
  - intros Hs. apply IH in Hs as [Hs Hf]. split; [lia|done].
Qed.

Lemma splitDays_spec plan booked t fuel : forall d need wd,
  splitDays plan booked t fuel d need = Some wd ->
  length wd = need /\ StronglySorted Z.lt wd /\ Forall (fun x => d <= x < d + Z.of_nat fuel) wd
  /\ Forall (fun x => dayHasCapacity plan booked t x = true) wd.
Proof.
  induction fuel as [|fuel IH]; intros d need wd; simpl; (destruct need as [|need]; [intros [= <-]; by repeat constructor|]).
  - done.
  - destruct (dayHasCapacity plan booked t d) eqn:E.
    + destruct (splitDays plan booked t fuel (d + 1) need) as [wd'|] eqn:E'; [|done]. intros [= <-].
      apply IH in E' as (Hlen & Hs & Hr & Hc). split_and!.
      * simpl. by rewrite Hlen.
      * constructor; [done|]. eapply Forall_impl; [exact Hr|]. simpl. lia.
      * constructor; [lia|]. eapply Forall_impl; [exact Hr|]. simpl. lia.
      * by constructor.
    + intros Hw. apply IH in Hw as (Hlen & Hs & Hr & Hc). split_and!; [done|done| |done].
      eapply Forall_impl; [exact Hr|]. simpl. lia.
Qed.

(** Increasing days end at least their number after the first. *)
Lemma sorted_days_span wd : StronglySorted Z.lt wd -> wd <> [] ->
  default 0 (head wd) + Z.of_nat (length wd) <= last_day wd + 1.
Proof.
  induction 1 as [|x wd Hs IH Hx]; [done|]. intros _. unfold last_day in *.
  destruct wd as [|y wd]; [simpl; lia|]. specialize (IH ltac:(done)).
  rewrite last_cons_cons. apply Forall_cons in Hx as [Hx _]. simpl in *. lia.
Qed.

Lemma last_day_elem wd : wd <> [] -> last_day wd ∈ wd.
Proof.
  intros Hne. unfold last_day. destruct (last wd) as [x|] eqn:E; [|by apply last_None in E].
  apply last_Some in E as [l ->]. simpl. apply elem_of_app. right. by apply list_elem_of_singleton.
Qed.

Lemma link_candidate_forward p t l : link_candidate p l (Duration t) = forward_candidate p t l.
Proof. unfold link_candidate, forward_candidate. done. Qed.

(** The earliest start over the links seen so far. *)
Lemma earliest_fold_whole tasks t B links : forall e,
  whole e -> 0 <= zval e <= 2 ^ 50 ->
  (forall l p, l ∈ links -> tasks !! Pred l = Some p ->
     whole (forward_candidate p t l) /\ zval (forward_candidate p t l) = z_forward_candidate p t l
     /\ - 2 ^ 50 <= z_forward_candidate p t l <= B) -> B <= 2 ^ 50 ->
  let e' := foldl (earliest_step tasks t) e links in
  whole e' /\ zval e <= zval e' <= Z.max (zval e) B
  /\ (forall l p, l ∈ links -> tasks !! Pred l = Some p -> z_forward_candidate p t l <= zval e').
Proof.
  induction links as [|l links IH]; intros e He Hz Hl HB; cbn zeta; cbn [foldl].
  - split_and!; [done|lia|lia|]. intros l p Hin. by apply not_elem_of_nil in Hin.
  - assert (Hstep : whole (earliest_step tasks t e l)
      /\ zval e <= zval (earliest_step tasks t e l) <= Z.max (zval e) B
      /\ forall p, tasks !! Pred l = Some p -> z_forward_candidate p t l <= zval (earliest_step tasks t e l)).
    { unfold earliest_step. destruct (tasks !! Pred l) as [p|] eqn:Hp.
      - destruct (Hl l p ltac:(apply elem_of_cons; by left) Hp) as (Hw & Hv & Hb).
        rewrite link_candidate_forward. rewrite whole_lt by (rewrite ?Hv; try done; unfold small; lia).
        rewrite Hv. destruct (Z.ltb_spec (zval e) (z_forward_candidate p t l)).
        + rewrite Hv. split_and!; [done|lia|lia|]. intros q [= <-]. lia.
        + split_and!; [done|lia|lia|]. intros q [= <-]. lia.
      - split_and!; [done|lia|lia|done]. }
    destruct Hstep as (Hw & Hb & Hp).
    destruct (IH (earliest_step tasks t e l)) as (Hw' & Hb' & Hall); [done|lia| |done|].
    { intros l' p Hin. apply Hl. apply elem_of_cons. by right. }
    split_and!; [done|lia|lia|]. intros l' p Hin Hp'. apply elem_of_cons in Hin as [->|Hin].
    + specialize (Hp p Hp'). lia.
    + by apply Hall.
Qed.

(** The dates of a placement. *)
Definition placement_ok (startFloor horizon days : Z) (p : placement) : Prop :=
  match p with
  | Split wd => wd <> [] /\ StronglySorted Z.lt wd /\ Z.of_nat (length wd) = days
                /\ Forall (fun x => startFloor <= x <= startFloor + horizon) wd
  | Contiguous s => startFloor <= s <= startFloor + horizon
  | Unplaced s | Free s => s = startFloor
  end.

Lemma find_placement_whole plan opts booked t sf :
  whole (Duration t) -> 0 <= zdur t <= 2 ^ 50 -> 0 <= sf ->
  exists p, find_placement plan opts booked t sf = Some p
    /\ placement_ok sf (effective_horizon opts) (zdur t) p.
Proof.
  intros Hw Hd Hsf. unfold find_placement.
  assert (Hh : 0 < effective_horizon opts)
    by (unfold effective_horizon, DefaultLevelingHorizon; case_match; lia).
  assert (Hpos : (fzero <. Duration t) = (0 <? zdur t)).
  { rewrite whole_lt; [done|done|done|unfold small; change (zval fzero) with 0; lia|unfold small, zdur in *; lia]. }
  assert (Hdays : task_days t = zdur t)
    by (unfold task_days; rewrite fceil_whole; [done|done|unfold small, zdur in *; lia]).
  rewrite Hpos, Hdays. destruct ((0 <? zdur t) && _) eqn:E; [|eexists; by split].
  rewrite (proj2 (Z.ltb_ge (zdur t) 0)), (proj2 (Z.ltb_ge sf 0)) by lia. simpl.
  eexists. split; [done|]. unfold choose_placement.
  set (fuel := Z.to_nat (effective_horizon opts + 1)).
  assert (Hsplit : forall wd, (if AllowSplitting opts
    then splitDays plan booked t fuel sf (Z.to_nat (zdur t)) else None) = Some wd ->
    placement_ok sf (effective_horizon opts) (zdur t) (Split wd)).
  { intros wd Es. destruct (AllowSplitting opts); [|done].
    apply splitDays_spec in Es as (Hlen & Hs & Hr & _). simpl.
    split_and!; [intros ->; simpl in Hlen; lia|done|lia|].
    eapply Forall_impl; [exact Hr|]. simpl. lia. }
  destruct (contiguous_start plan booked t fuel sf) as [s|] eqn:Ec.
  - apply contiguous_start_spec in Ec as [Ec _].
    assert (Hs : placement_ok sf (effective_horizon opts) (zdur t) (Contiguous s)) by (simpl; lia).
    destruct (if AllowSplitting opts then _ else None) as [wd|]; [|done].
    case_match; [by apply Hsplit|done].
  - destruct (if AllowSplitting opts then _ else None) as [wd|]; [by apply Hsplit|done].
Qed.

(** What a placement does to the dates of a whole-day task. *)
Lemma placed_task_whole t p sf h :
  whole (Duration t) -> 0 <= zdur t -> 0 <= sf -> 0 <= h -> sf + h + zdur t + 1 < 2 ^ 50 ->
  placement_ok sf h (zdur t) p ->
  whole (ES (placed_task t p)) /\ whole (EF (placed_task t p))
  /\ sf <= zES (placed_task t p)
  /\ zES (placed_task t p) + zdur t <= zEF (placed_task t p) <= sf + h + zdur t + 1
  /\ (WorkDays (placed_task t p) = [] -> zEF (placed_task t p) = zES (placed_task t p) + zdur t).
Proof.
  intros Hw Hd Hsf Hh Hb Hp.
  assert (Hplain : forall s, sf <= s <= sf + h ->
    whole (f_of_Z s) /\ zval (f_of_Z s) = s
    /\ whole (f_of_Z s ⊕ Duration t) /\ zval (f_of_Z s ⊕ Duration t) = s + zdur t).
  { intros s Hs. assert (Hi : iint s) by (unfold iint; lia).
    pose proof (zval_of_Z s Hi) as Hz. pose proof (whole_of_Z s Hi) as Hws.
    destruct (whole_add (f_of_Z s) (Duration t)) as [? ?]; [done|done|unfold small, zdur in *; rewrite ?Hz; lia..|].
    split_and!; [done|done|done|]. unfold zdur. lia. }
  destruct p as [wd|s|s|s]; simpl in Hp; unfold zES, zEF; cbn.
  - destruct Hp as (Hne & Hs & Hlen & Hr). rewrite Forall_forall in Hr.
    pose proof (sorted_days_span wd Hs Hne) as Hspan.
    pose proof (Hr _ (last_day_elem wd Hne)) as Hlast.
    destruct wd as [|x wd]; [done|]. cbn [head] in *. cbn [default from_option] in *. change (id x) with x in *.
    pose proof (Hr x ltac:(apply elem_of_cons; by left)) as Hx.
    rewrite !zval_of_Z by (unfold iint; lia).
    split_and!; try (apply whole_of_Z; unfold iint; lia); [lia|lia|lia|done].
  - destruct (Hplain s ltac:(lia)) as (? & ? & ? & ?). split_and!; try done; lia.
  - destruct (Hplain s ltac:(lia)) as (? & ? & ? & ?). split_and!; try done; lia.
  - destruct (Hplain s ltac:(lia)) as (? & ? & ? & ?). split_and!; try done; lia.
Qed.

(** ** Links after leveling *)

Section Whole.
Context (T0 : gmap string Task) (order : list string) (plan : ResourceCapacityPlan)
  (opts : LevelingOptions).
Context (Hnd : NoDup order) (Hall : forall k, k ∈ order <-> is_Some (T0 !! k))
  (Hpf : preds_first T0 order).

(** The room one task may take: its work, the horizon and a day. *)
Definition leveling_cost (k : string) : Z :=
  from_option task_work 0 (T0 !! k) + effective_horizon opts + 1.

Context (W : Z) (HW : 0 <= W).
Context (Htask : forall k t, T0 !! k = Some t -> whole_task t /\ whole (ES t) /\ 0 <= zES t <= W).
Context (Hbound : W + sum_Z (leveling_cost <$> order) < 2 ^ 50).

Lemma horizon_pos : 0 < effective_horizon opts.
Proof. unfold effective_horizon, DefaultLevelingHorizon. case_match; lia. Qed.

Lemma leveling_cost_nonneg k : 0 <= leveling_cost k.
Proof.
  pose proof horizon_pos. unfold leveling_cost. destruct (T0 !! k) as [t|] eqn:E; simpl; [|lia].
  destruct (Htask k t E) as (Hw & _). pose proof (task_work_nonneg t Hw). lia.
Qed.

(** Everything levelled so far finishes by here. *)
Definition levelled_bound (lv : gset string) : Z :=
  W + sum_Z (leveling_cost <$> filter (fun k => k ∈ lv) order).

Lemma levelled_bound_add lv id : id ∈ order -> id ∉ lv ->
  levelled_bound ({[id]} ∪ lv) = levelled_bound lv + leveling_cost id
  /\ W <= levelled_bound lv /\ levelled_bound ({[id]} ∪ lv) < 2 ^ 50.
Proof.
  intros Hid Hlv. unfold levelled_bound.
  assert (Hp : filter (fun k => k ∈ {[id]} ∪ lv) order ≡ₚ id :: filter (fun k => k ∈ lv) order).
  { apply NoDup_Permutation; [by apply NoDup_filter| |].
    - apply NoDup_cons. split; [rewrite list_elem_of_filter; tauto|by apply NoDup_filter].
    - intros x. rewrite elem_of_cons, !list_elem_of_filter, elem_of_union, elem_of_singleton.
      naive_solver. }
  pose proof (sum_Z_perm _ _ (fmap_Permutation leveling_cost _ _ Hp)) as Hs.
  rewrite fmap_cons, sum_Z_cons in Hs.
  assert (H0 : 0 <= sum_Z (leveling_cost <$> filter (fun k => k ∈ lv) order))
    by (apply sum_Z_nonneg; intros; apply leveling_cost_nonneg).
  assert (Hle : sum_Z (leveling_cost <$> filter (fun k => k ∈ {[id]} ∪ lv) order)
                <= sum_Z (leveling_cost <$> order)).
  { assert (Hsplit : order ≡ₚ filter (fun k => k ∈ {[id]} ∪ lv) order
                              ++ filter (fun k => k ∉ {[id]} ∪ lv) order).
    { apply NoDup_Permutation; [done| |].
      - apply NoDup_app. split_and!; [by apply NoDup_filter| |by apply NoDup_filter].
        intros x. rewrite !list_elem_of_filter. tauto.
      - intros x. rewrite elem_of_app, !list_elem_of_filter. destruct (decide (x ∈ {[id]} ∪ lv)); tauto. }
    rewrite (sum_Z_perm _ _ (fmap_Permutation leveling_cost _ _ Hsplit)), fmap_app, sum_Z_app.
    assert (0 <= sum_Z (leveling_cost <$> filter (fun k => k ∉ {[id]} ∪ lv) order))
      by (apply sum_Z_nonneg; intros; apply leveling_cost_nonneg). lia. }
  split_and!; lia.
Qed.

(** The dates of a levelled task. *)
Definition levelled_dates (tasks : gmap string Task) (B : Z) (k : string) (t : Task) : Prop :=
  whole (ES t) /\ whole (EF t) /\ (forall t0, T0 !! k = Some t0 -> zES t0 <= zES t) /\ 0 <= zES t
  /\ zES t + zdur t <= zEF t <= B
  /\ (WorkDays t = [] -> zEF t = zES t + zdur t)
  /\ (forall l p, l ∈ effectiveLinks t -> tasks !! Pred l = Some p -> z_forward_candidate p t l <= zES t).

Definition dates_inv (st : leveling) : Prop :=
  forall k t, k ∈ l_levelled st -> l_tasks st !! k = Some t ->
    levelled_dates (l_tasks st) (levelled_bound (l_levelled st)) k t.

(** The start floor of a ready task. *)
Lemma start_floor_whole st id t :
  lev_inv T0 order st -> dates_inv st -> id ∈ order -> id ∉ l_levelled st ->
  l_tasks st !! id = Some t -> task_ready (l_tasks st) (l_levelled st) t = true ->
  whole_task t /\ T0 !! id = Some t /\ zES t <= start_floor (l_tasks st) t
  /\ 0 <= start_floor (l_tasks st) t
  /\ start_floor (l_tasks st) t + zdur t <= levelled_bound (l_levelled st) + task_work t
  /\ (forall l p, l ∈ effectiveLinks t -> l_tasks st !! Pred l = Some p ->
        z_forward_candidate p t l <= start_floor (l_tasks st) t).
Proof.
  intros Hi Hq Hid Hlv Ht Hr. pose proof Ht as Ht0. rewrite (li_fresh T0 order st Hi id Hlv) in Ht0.
  destruct (Htask id t Ht0) as (Hw & HwS & HS). pose proof (task_work_nonneg t Hw) as Htw.
  destruct (levelled_bound_add (l_levelled st) id Hid Hlv) as (HB & HWB & Hlt).
  set (B := levelled_bound (l_levelled st)) in *.
  assert (Hcost : leveling_cost id = task_work t + effective_horizon opts + 1)
    by (unfold leveling_cost; by rewrite Ht0).
  pose proof horizon_pos.
  assert (Hcand : forall l p, l ∈ effectiveLinks t -> l_tasks st !! Pred l = Some p ->
     whole (forward_candidate p t l) /\ zval (forward_candidate p t l) = z_forward_candidate p t l
     /\ - 2 ^ 50 <= z_forward_candidate p t l <= B + task_work t - zdur t).
  { intros l p Hl Hp.
    assert (Hpl : Pred l ∈ l_levelled st) by (eapply task_ready_link; [exact Hr|done|eauto]).
    destruct (Hq _ p Hpl Hp) as (HpS & HpF & _ & Hp0 & HpB & _).
    destruct (static_task T0 order st _ p Hi Hp) as (p0 & Hp0' & (_ & Hpd & _)).
    destruct (Htask _ p0 Hp0') as ((_ & Hpdur & _) & _).
    assert (0 <= zdur p) by (unfold zdur; by rewrite Hpd).
    pose proof (lag_le_work t l Hw Hl). destruct Hw as (HwD & HD0 & HwL).
    rewrite Forall_forall in HwL. fold (zdur t) in HD0.
    destruct (forward_candidate_whole p t l B) as (? & ? & ?); [done|done|by apply HwL|done|lia..|].
    split_and!; [done|done|lia|lia]. }
  destruct (earliest_fold_whole (l_tasks st) t (B + task_work t - zdur t) (effectiveLinks t) (ES t))
    as (Hwe & Hze & Hle); [done|unfold zES in HS; lia|exact Hcand|lia|].
  set (e := foldl (earliest_step (l_tasks st) t) (ES t) (effectiveLinks t)) in *.
  assert (Hes : earliest_start (l_tasks st) t = e).
  { unfold earliest_start. fold e. rewrite whole_lt; [|done|done|unfold small, zES in *; lia|done].
    change (zval fzero) with 0. by rewrite (proj2 (Z.ltb_ge _ 0)) by (unfold zES in *; lia). }
  assert (Hsf : start_floor (l_tasks st) t = zval e).
  { unfold start_floor. rewrite Hes.
    transitivity (f_to_int (fceil (f_of_Z (zval e) ⊖ f_1em9))); [unfold whole in Hwe; by rewrite <- Hwe|].
    apply fceil_minus_1em9. unfold zES in *. lia. }
  rewrite Hsf. unfold zES in *. split_and!; [done|done|lia|lia|lia|exact Hle].
Qed.

Lemma pending_fresh st i id :
  lev_inv T0 order st -> l_pending st !! i = Some id -> id ∈ order /\ id ∉ l_levelled st.
Proof.
  intros Hi Hid. apply list_elem_of_lookup_2 in Hid. rewrite (li_pending T0 order st Hi) in Hid.
  apply list_elem_of_filter in Hid. tauto.
Qed.

Lemma find_placement_dates st i id t :
  lev_inv T0 order st -> dates_inv st -> l_pending st !! i = Some id ->
  l_tasks st !! id = Some t -> task_ready (l_tasks st) (l_levelled st) t = true ->
  exists p, find_placement plan opts (l_booked st) t (start_floor (l_tasks st) t) = Some p
    /\ dates_inv (place st i id t p).
Proof.
  intros Hi Hq Hid Ht Hr. destruct (pending_fresh st i id Hi Hid) as [Hio Hil].
  destruct (start_floor_whole st id t Hi Hq Hio Hil Ht Hr) as (Hw & Ht0 & HS & H0 & Hb & Hlinks).
  destruct (levelled_bound_add (l_levelled st) id Hio Hil) as (HB & HWB & Hlt).
  assert (Hcost : leveling_cost id = task_work t + effective_horizon opts + 1)
    by (unfold leveling_cost; by rewrite Ht0).
  pose proof horizon_pos. pose proof (task_work_nonneg t Hw) as Htw. pose proof Hw as (HwD & _ & _).
  destruct (find_placement_whole plan opts (l_booked st) t (start_floor (l_tasks st) t))
    as (p & Hp & Hpok); [done|lia|done|].
  exists p. split; [exact Hp|].
  destruct (placed_task_whole t p (start_floor (l_tasks st) t) (effective_horizon opts) HwD ltac:(lia) H0 ltac:(lia) ltac:(lia) Hpok)
    as (HwS & HwF & HSf & HF & Hcontig).
  assert (Hother : forall u l, u <> id -> u ∈ l_levelled st -> forall t0, T0 !! u = Some t0 ->
    l ∈ effectiveLinks t0 -> is_Some (T0 !! Pred l) -> Pred l <> id).
  { intros u l _ Hu t0 Hu0 Hl Hpr E. apply Hil. rewrite <- E. by eapply (li_preds T0 order st Hi). }
  intros k u Hk Hu. simpl in Hk, Hu |- *. rewrite HB.
  destruct (decide (id = k)) as [<-|Hne].
  - rewrite lookup_insert_eq in Hu. injection Hu as <-.
    destruct (placed_task_static t p) as (_ & Hpd & Hpl & _).
    assert (Hzd : zdur (placed_task t p) = zdur t) by (unfold zdur; by rewrite Hpd).
    unfold levelled_dates. rewrite Hzd. split_and!; try done; try lia.
    + intros t0 Ht0'. rewrite Ht0 in Ht0'. injection Ht0' as <-. lia.
    + intros l q Hl Hq'. rewrite Hpl in Hl.
      assert (Hql : Pred l <> id).
      { intros E. rewrite E in Hq'. apply Hil. rewrite <- E.
        eapply task_ready_link; [exact Hr|done|rewrite E; eauto]. }
      rewrite lookup_insert_ne in Hq' by done. specialize (Hlinks l q Hl Hq').
      assert (Hc : z_forward_candidate q (placed_task t p) l = z_forward_candidate q t l)
        by (unfold z_forward_candidate; by rewrite Hzd). lia.
  - rewrite lookup_insert_ne in Hu by done.
    apply elem_of_union in Hk as [Hk|Hk]; [apply elem_of_singleton in Hk; congruence|].
    destruct (Hq k u Hk Hu) as (? & ? & ? & ? & ? & ? & Hl).
    pose proof (leveling_cost_nonneg id).
    unfold levelled_dates. split_and!; try done; try lia.
    intros l q Hlu Hq'. destruct (static_task T0 order st k u Hi Hu) as (u0 & Hu0 & (_ & _ & Hlk & _)).
    destruct (decide (Pred l = id)) as [E|E].
    + exfalso. apply (Hother k l ltac:(by apply not_eq_sym) Hk u0 Hu0); [by rewrite <- Hlk| |done].
      rewrite E. eauto.
    + rewrite lookup_insert_ne in Hq' by (by apply not_eq_sym). by apply Hl.
Qed.
End Whole.

Section WholeDays.
Context `{RangeOrder} (tasks T0 : gmap string Task) (Hkeyed : well_keyed tasks)
  (Hwd : whole_days tasks) (Hrun : CalculateCPM tasks = Some (true, T0)).

Lemma cpm_whole_tasks k t :
  T0 !! k = Some t -> whole_task t /\ whole (ES t) /\ 0 <= zES t <= total_work tasks.
Proof.
  intros Hk. destruct (cpm_passes tasks T0 Hkeyed Hrun) as (order & _ & _ & Ho & _).
  apply (topoSort_inv tasks Hkeyed) in Ho as (Hnd & Hall & Hpf).
  destruct (early_all tasks T0 Hkeyed Hrun Hwd order Hnd Hall Hpf k t Hk) as (HS & _ & H0 & HEF & HB).
  destruct (result_task tasks T0 Hkeyed Hrun Hwd k t Hk) as (Hw & _).
  pose proof (task_work_nonneg t Hw). split_and!; [done|done|lia|lia].
Qed.

Lemma leveling_cost_sum opts order :
  NoDup order -> (forall k, k ∈ order <-> is_Some (T0 !! k)) ->
  sum_Z (leveling_cost T0 opts <$> order)
  = total_work tasks + Z.of_nat (size tasks) * (effective_horizon opts + 1).
Proof.
  intros Hnd Hall.
  assert (Hall' : forall k, k ∈ order <-> is_Some (tasks !! k))
    by (intros k; rewrite Hall; apply (result_exists tasks T0 Hkeyed Hrun)).
  rewrite <- (order_work tasks order Hnd Hall').
  assert (Hlen : length order = size tasks).
  { rewrite <- (length_map_to_list tasks), <- (length_fmap fst (map_to_list tasks)).
    apply Permutation_length, NoDup_Permutation; [done|apply NoDup_fst_map_to_list|].
    intros k. rewrite Hall', list_elem_of_fmap. split.
    - intros [t Ht]. exists (k, t). by rewrite elem_of_map_to_list.
    - intros ([k' t] & -> & Ht). apply elem_of_map_to_list in Ht. eauto. }
  rewrite <- Hlen. clear Hlen Hnd. assert (Hsub : forall k, k ∈ order -> is_Some (T0 !! k)) by (intros; by apply Hall).
  clear Hall Hall'. induction order as [|k order IH]; [unfold sum_Z; simpl; lia|].
  rewrite !fmap_cons, !sum_Z_cons. rewrite IH by (intros j Hj; apply Hsub, elem_of_cons; by right).
  destruct (Hsub k ltac:(apply elem_of_cons; by left)) as [t Ht].
  destruct (result_task tasks T0 Hkeyed Hrun Hwd k t Ht) as (_ & _ & u & Hu & _ & Hwu).
  assert (Hc : leveling_cost T0 opts k = key_work tasks k + effective_horizon opts + 1)
    by (unfold leveling_cost, key_work; rewrite Ht, Hu; simpl; lia).
  rewrite Hc. simpl length. lia.
Qed.
End WholeDays.

(** The project fits the exact range with room for every task to slip by the
    whole horizon. *)
Definition leveling_room (tasks : gmap string Task) (opts : LevelingOptions) : Prop :=
  2 * total_work tasks + Z.of_nat (size tasks) * (effective_horizon opts + 1) < 2 ^ 50.

#[export] Instance leveling_room_dec tasks opts : Decision (leveling_room tasks opts).
Proof. unfold leveling_room. apply _. Defined.


(** ** Concrete runs *)

Definition leveling_demo : gmap string Task :=
  task_map [booked_task "A" "ana" 1 0 3; booked_task "B" "ana" 1 0 2; booked_task "C" "ana" 1 0 1].

Definition default_options : LevelingOptions := mkOptions 0 "" false false.

Lemma leveling_demo_keyed : well_keyed leveling_demo.
Proof. by_decide. Qed.

Lemma leveling_demo_whole : whole_days leveling_demo.
Proof. split; [|vm_compute; reflexivity]. by_decide. Qed.

Definition leveling_demo_cpm : gmap string Task :=
  match CalculateCPM (H := key_order) leveling_demo with Some (_, ts) => ts | None => ∅ end.


Definition cyclic_demo : gmap string Task :=
  task_map [new_task "A" 1 [mkLink "B" FinishToStart fzero]; new_task "B" 1 [mkLink "A" FinishToStart fzero]].

Lemma LevelResources_cycle_iff_witness :
  LevelResourcesWithOptions (H := key_order) cyclic_demo (capacityPlanFromMap ∅) default_options
  = Some (empty_result, Some ErrSchedulingCycle, cyclic_demo) /\ ~ acyclic cyclic_demo.
Proof.
  assert (Hk : well_keyed cyclic_demo) by by_decide.
  assert (Hl : LevelResourcesWithOptions (H := key_order) cyclic_demo (capacityPlanFromMap ∅) default_options
    = Some (empty_result, Some ErrSchedulingCycle, cyclic_demo)) by (vm_compute; reflexivity).
  split; [exact Hl|].
  exact (proj1 (LevelResources_cycle_iff (H := key_order) cyclic_demo (capacityPlanFromMap ∅)
    default_options _ _ _ Hk Hl) eq_refl).
Defined.

(** Two assignments of one task to the same person. *)
Definition doubled_demo : gmap string Task :=
  let t := new_task "A" 2 [] in
  task_map [mkTask "A" "" (Duration t) [] [] (Estimate t) "" "" fzero false false fzero false "" ""
    fzero 0 fzero 0 [mkAssignment "ana" fone "" [] fzero; mkAssignment "ana" fone "" [] fzero]
    false [] [] fzero fzero fzero fzero fzero false "" ""].

(** Leveling can report success on a schedule that is overallocated: a task
    with two assignments to one resource is checked one assignment at a time,
    each within capacity, but books both, and the detector then finds the days
    over capacity. *)
Theorem LevelResources_misses_repeated_assignment :
  exists res tasks' records flagged,
    LevelResourcesWithOptions (H := key_order) doubled_demo (capacityPlanFromMap ∅) default_options
    = Some (res, None, tasks')
    /\ DetectOverallocationsWithPlan (H := key_order) (H0 := stable_sort) tasks' (capacityPlanFromMap ∅)
       = Some (records, flagged)
    /\ (fun r => (Day r, Demand r, Capacity r)) <$> records
       = [(0, f_of_Z 2, fone); (1, f_of_Z 2, fone)].
Proof. do 4 eexists. split; [vm_compute; reflexivity|]. split; vm_compute; reflexivity. Qed.
