(* ===== verification/Money.v ===== *)
(** * Exact money: package money (internal/money/money.go)

    Amounts are int64 minor units.  The file models the decimal parser and
    printer, the accumulator and the rational arithmetic that rounds once at
    the boundary; [big.Int] is [Z] and [big.Rat] a reduced fraction. *)

From S2P Require Import Prelude GoFloat GoStrings.
From Stdlib Require Import SpecFloat.

Local Open Scope Z_scope.

(** ** Data *)

Definition MinorUnitsPerMajor : Z := 100.

Record Amount : Type := mkAmount { MinorUnits : Z }.

(** The errors of the package, one per message. *)
Inductive MoneyError : Type :=
| AmountRequired
| SurroundingWhitespace
| NotADecimal
| LeadingZeroes
| NotANumber
| ErrOverflow
| NegativeZero.

#[export] Instance Amount_eq_dec : EqDecision Amount.
Proof. solve_decision. Defined.

#[export] Instance MoneyError_eq_dec : EqDecision MoneyError.
Proof. solve_decision. Defined.

(** ** The decimal parser *)

(** The shape test on the dot-separated parts. *)
Definition bad_shape (parts : list (list ascii)) : bool :=
  let p0 := nth 0 parts [] in
  let p1 := nth 1 parts [] in
  (2 <? length parts)%nat || (length p0 =? 0)%nat
  || ((length parts =? 2)%nat && ((length p1 =? 0)%nat || (2 <? length p1)%nat)).

Definition leading_zero (l : list ascii) : bool :=
  match l with
  | c :: _ :: _ => Ascii.eqb c "0"
  | _ => false
  end.

(** The fraction part, a single digit completed with a zero. *)
Definition fraction_digits (f : list ascii) : list ascii :=
  if (length f =? 1)%nat then f ++ ["0"%char] else f.

(** The uint64 arithmetic at the end of [ParseDecimal]. *)
Definition combine_minor (negative : bool) (whole frac : Z) : result MoneyError Amount :=
  let limit := if negative then max_int64 + 1 else max_int64 in
  if (limit - frac) / MinorUnitsPerMajor <? whole then Err ErrOverflow
  else
    let minor := wrapu64 (wrapu64 (whole * MinorUnitsPerMajor) + frac) in
    if (minor =? 0) && negative then Err NegativeZero
    else if negative then
      if minor =? max_int64 + 1 then Ok (mkAmount min_int64)
      else Ok (mkAmount (wrap64 (- wrap64 minor)))
    else Ok (mkAmount (wrap64 minor)).

(** The checks and conversions on the parts of an amount without its sign. *)
Definition parse_parts (negative : bool) (parts : list (list ascii))
    : result MoneyError Amount :=
  if bad_shape parts then Err NotADecimal
  else if leading_zero (nth 0 parts []) then Err LeadingZeroes
  else match ParseUint (nth 0 parts []) with
       | None => Err NotANumber
       | Some whole =>
           match (if (length parts =? 2)%nat
                  then ParseUint (fraction_digits (nth 1 parts []))
                  else Some 0) with
           | None => Err NotANumber
           | Some frac => combine_minor negative whole frac
           end
       end.

Definition ParseDecimal (v : string) : result MoneyError Amount :=
  if String.eqb v EmptyString then Err AmountRequired
  else if negb (String.eqb (TrimSpace v) v) then Err SurroundingWhitespace
  else
    let negative := HasPrefix v "-" in
    let v := if negative then string_drop 1 v else v in
    parse_parts negative (Split_dot v).

(** ** The printer *)

(** [%02d] of a value below 100. *)
Definition pad2 (z : Z) : list ascii :=
  if z <? 10 then "0"%char :: FormatUint z else FormatUint z.

Definition Decimal (a : Amount) : string :=
  let n := MinorUnits a in
  string_of
    (if n <? 0
     then "-"%char :: FormatInt (- (Z.quot n MinorUnitsPerMajor))
            ++ "."%char :: pad2 (- (Z.rem n MinorUnitsPerMajor))
     else FormatInt (Z.quot n MinorUnitsPerMajor)
            ++ "."%char :: pad2 (Z.rem n MinorUnitsPerMajor)).

(** [strings.EqualFold(s, "JPY")]: J, P and Y fold only with their own lower
    case. *)
Definition EqualFold_JPY (s : string) : bool :=
  match bytes_of s with
  | [j; p; y] =>
      (Ascii.eqb j "J" || Ascii.eqb j "j") && (Ascii.eqb p "P" || Ascii.eqb p "p")
      && (Ascii.eqb y "Y" || Ascii.eqb y "y")
  | _ => false
  end.

Definition WholeUnitCurrency (code : string) : bool := EqualFold_JPY (TrimSpace code).

Definition DecimalFor (a : Amount) (currency : string) : string :=
  if WholeUnitCurrency currency && (Z.rem (MinorUnits a) MinorUnitsPerMajor =? 0)
  then string_of (FormatInt (Z.quot (MinorUnits a) MinorUnitsPerMajor))
  else Decimal a.

(** ** Float adapters *)

Definition FromMajorFloat (v : f64) : Amount :=
  if is_nan v || is_inf v then mkAmount 0
  else
    let scaled := fround (v ⊗ f_of_Z MinorUnitsPerMajor) in
    if f_of_Z max_int64 <=. scaled then mkAmount max_int64
    else if scaled <=. f_of_Z min_int64 then mkAmount min_int64
    else mkAmount (f_to_int scaled).

Definition MajorFloat (a : Amount) : f64 :=
  f_of_Z (MinorUnits a) ⊘ f_of_Z MinorUnitsPerMajor.

(** ** Accumulator *)

Record Accumulator : Type := mkAccumulator { total : Z }.

Definition zero_Accumulator : Accumulator := mkAccumulator 0.

Definition Accumulator_Add (a : Accumulator) (amount : Amount) : Accumulator :=
  mkAccumulator (total a + MinorUnits amount).

Definition Accumulator_Sub (a : Accumulator) (amount : Amount) : Accumulator :=
  mkAccumulator (total a - MinorUnits amount).

Definition amountFromBigInt (value : Z) : result MoneyError Amount :=
  if in_int64 value then Ok (mkAmount value) else Err ErrOverflow.

Definition Accumulator_Amount (a : Accumulator) : result MoneyError Amount :=
  amountFromBigInt (total a).

Definition Amount_Add (a b : Amount) : result MoneyError Amount :=
  Accumulator_Amount (Accumulator_Add (Accumulator_Add zero_Accumulator a) b).

Definition Amount_Sub (a b : Amount) : result MoneyError Amount :=
  Accumulator_Amount (Accumulator_Sub (Accumulator_Add zero_Accumulator a) b).

Definition Positive (a : Amount) : bool := 0 <? MinorUnits a.

(** ** Rationals *)

Record Rat : Type := mkRat { Num : Z; Denom : Z }.

(** [big.NewRat(a, b)] for [b <> 0]: lowest terms, positive denominator. *)
Definition NewRat (a b : Z) : Rat :=
  let g := Z.gcd a b * Z.sgn b in
  mkRat (a / g) (b / g).

Definition Rat_Mul (x y : Rat) : Rat := NewRat (Num x * Num y) (Denom x * Denom y).

(** [SetFloat64]: the exact value of a finite float, [None] otherwise. *)
Definition SetFloat64 (x : f64) : option Rat :=
  match x with
  | S754_zero _ => Some (mkRat 0 1)
  | S754_finite s m e =>
      Some (if 0 <=? e then NewRat (cond_Zopp s (Zpos m) * 2 ^ e) 1
            else NewRat (cond_Zopp s (Zpos m)) (2 ^ (- e)))
  | _ => None
  end.

(** Round half away from zero. *)
Definition roundedRat (r : Rat) : Z :=
  let n := Num r in
  let d := Denom r in
  let q := Z.quot n d in
  let rem := Z.rem n d in
  if rem =? 0 then q
  else if d <=? Z.abs rem * 2 then
    if 0 <=? Num r then q + 1 else q - 1
  else q.

Definition saturatingInt64 (q : Z) : Z :=
  if in_int64 q then q else if q <? 0 then min_int64 else max_int64.

Definition roundRat (r : Rat) : Z := saturatingInt64 (roundedRat r).

Definition RateTimesQuantity (rate : Amount) (quantity : f64) : Amount :=
  if (MinorUnits rate =? 0) || (quantity <=. fzero) || is_nan quantity || is_inf quantity
  then mkAmount 0
  else match SetFloat64 quantity with
       | None => mkAmount 0
       | Some q => mkAmount (roundRat (Rat_Mul (NewRat (MinorUnits rate) 1) q))
       end.

Definition ScaleByRatioChecked (amount : Amount) (numerator denominator : Z)
    : result MoneyError Amount :=
  if (MinorUnits amount =? 0) || (numerator =? 0) || (denominator =? 0) then Ok (mkAmount 0)
  else amountFromBigInt
         (roundedRat (Rat_Mul (NewRat (MinorUnits amount) 1) (NewRat numerator denominator))).

(** ** Parsing and printing *)

Definition sign_bytes (negative : bool) : list ascii := if negative then ["-"%char] else [].
Definition signed (negative : bool) (z : Z) : Z := if negative then - z else z.

Lemma quot_rem_signed neg w f :
  0 <= w -> 0 <= f < 100 ->
  Z.quot (signed neg (w * 100 + f)) 100 = signed neg w
  /\ Z.rem (signed neg (w * 100 + f)) 100 = signed neg f.
Proof.
  intros Hw Hf. assert (Hq : Z.quot (w * 100 + f) 100 = w).
  { rewrite Z.quot_div_nonneg by lia. rewrite Z.add_comm, Z.div_add, Z.div_small; lia. }
  assert (Hr : Z.rem (w * 100 + f) 100 = f).
  { rewrite Z.rem_mod_nonneg by lia. rewrite Z.add_comm, Z.mod_add, Z.mod_small; lia. }
  destruct neg; unfold signed; [|done].
  rewrite Z.quot_opp_l, Z.rem_opp_l by lia. by rewrite Hq, Hr.
Qed.

(** The spelling of an amount from its sign, its whole part and its fraction. *)
Lemma Decimal_shape neg w f :
  0 <= w -> 0 <= f < 100 -> (neg = true -> 0 < w * 100 + f) ->
  bytes_of (Decimal (mkAmount (signed neg (w * 100 + f))))
  = sign_bytes neg ++ FormatUint w ++ "."%char :: pad2 f.
Proof.
  intros Hw Hf Hneg. unfold Decimal. rewrite bytes_of_string_of. simpl.
  unfold MinorUnitsPerMajor. destruct (quot_rem_signed neg w f Hw Hf) as [-> ->].
  unfold FormatInt, signed. destruct neg; simpl.
  - specialize (Hneg eq_refl). rewrite (proj2 (Z.ltb_lt _ _)) by lia.
    rewrite !Z.opp_involutive. by rewrite (proj2 (Z.ltb_ge w 0)) by lia.
  - by rewrite !(proj2 (Z.ltb_ge _ 0)) by lia.
Qed.

Lemma combine_minor_spec neg w f :
  0 <= w <= max_uint64 -> 0 <= f < 100 -> (neg = true -> 0 < w * 100 + f) ->
  combine_minor neg w f = amountFromBigInt (signed neg (w * 100 + f)).
Proof.
  intros Hw Hf Hneg. unfold combine_minor, amountFromBigInt, MinorUnitsPerMajor.
  set (limit := if neg then max_int64 + 1 else max_int64).
  assert (Hl : max_int64 <= limit <= max_int64 + 1) by (subst limit; destruct neg; lia).
  unfold max_int64, max_uint64 in *.
  destruct (Z.ltb_spec ((limit - f) / 100) w) as [Hover|Hfit].
  - assert (limit < w * 100 + f).
    { destruct (Z.le_gt_cases w ((limit - f) / 100)); [lia|].
      pose proof (Z.mul_succ_div_gt (limit - f) 100 ltac:(lia)). lia. }
    replace (in_int64 _) with false; [done|].
    symmetry. apply not_true_iff_false. rewrite in_int64_spec.
    unfold signed. subst limit. destruct neg; lia.
  - assert (w * 100 + f <= limit).
    { pose proof (Z.mul_div_le (limit - f) 100 ltac:(lia)). lia. }
    unfold wrapu64. rewrite (Z.mod_small (w * 100)), Z.mod_small by lia.
    rewrite (proj2 (in_int64_spec _)) by (unfold signed; subst limit; destruct neg; lia).
    unfold signed. destruct neg; subst limit.
    + specialize (Hneg eq_refl). rewrite (proj2 (Z.eqb_neq _ 0)) by lia. simpl.
      destruct (Z.eqb_spec (w * 100 + f) (2 ^ 63 - 1 + 1)) as [E|E];
        [unfold min_int64; repeat f_equal; lia|].
      by rewrite (wrap64_id (w * 100 + f)), wrap64_id by lia.
    + rewrite andb_false_r. by rewrite wrap64_id by lia.
Qed.

Lemma pad2_length f : 0 <= f < 100 -> length (pad2 f) = 2%nat.
Proof.
  intros Hf. unfold pad2, FormatUint. case_match.
  - rewrite format_loop_small by lia. done.
  - rewrite format_loop_step by lia. rewrite format_loop_small by (split; [apply Z.div_pos|apply Z.div_lt_upper_bound]; lia). done.
Qed.

Lemma ParseUint_pad2 f : 0 <= f < 100 -> ParseUint (pad2 f) = Some f.
Proof.
  intros Hf. unfold pad2. case_match.
  - unfold FormatUint. rewrite format_loop_small by lia. simpl.
    rewrite digit_val_byte by lia. change (byte_val "0") with 48. simpl.
    rewrite (proj2 (Z.ltb_ge _ _)) by (unfold max_uint64; lia). f_equal; lia.
  - apply ParseUint_FormatUint. unfold max_uint64. lia.
Qed.

Lemma digit_not_dot c : is_digit c = true -> c <> "."%char.
Proof. intros Hd ->. done. Qed.

Lemma digit_not_minus c : is_digit c = true -> c <> "-"%char.
Proof. intros Hd ->. done. Qed.

Lemma digits_no_dot l : Forall (fun c => is_digit c = true) l -> Forall (fun c => c <> "."%char) l.
Proof. intros Hl. eapply Forall_impl; [exact Hl|]. apply digit_not_dot. Qed.

Lemma pad2_digits f : 0 <= f < 100 -> Forall (fun c => is_digit c = true) (pad2 f).
Proof. intros Hf. eapply ParseUint_digits, ParseUint_pad2, Hf. Qed.

(** Strings that begin with a digit after the sign and end with one reach
    [parse_parts]. *)
Lemma ParseDecimal_bytes neg l c c' :
  head l = Some c -> last l = Some c' -> is_digit c = true -> is_digit c' = true ->
  ParseDecimal (string_of (sign_bytes neg ++ l)) = parse_parts neg (split_bytes "." l).
Proof.
  intros Hh Hl Hc Hc'. destruct l as [|x l]; [done|]. injection Hh as ->.
  unfold ParseDecimal.
  assert (Hne : string_of (sign_bytes neg ++ c :: l) <> EmptyString) by (by destruct neg).
  rewrite (proj2 (String.eqb_neq _ _) Hne).
  rewrite (TrimSpace_plain _ (if neg then "-"%char else c) c').
  - rewrite String.eqb_refl. cbn [negb]. rewrite HasPrefix_char. destruct neg; cbn [sign_bytes app].
    + rewrite Ascii.eqb_refl, string_drop_1. unfold Split_dot. by rewrite bytes_of_string_of.
    + rewrite (proj2 (Ascii.eqb_neq "-" c)) by (intros <-; done).
      unfold Split_dot. by rewrite bytes_of_string_of.
  - by destruct neg.
  - destruct neg; [|exact Hl]. simpl. rewrite <- Hl. done.
  - destruct neg; [|by apply is_digit_plain]. split; vm_compute; discriminate.
  - by apply is_digit_plain.
Qed.

Lemma leading_zero_spec l : leading_zero l = false <-> no_leading_zero l.
Proof.
  destruct l as [|c [|c' l]]; [done..|]. simpl. apply Ascii.eqb_neq.
Qed.

Lemma digits_head l : l <> [] -> Forall (fun c => is_digit c = true) l ->
  exists c, head l = Some c /\ is_digit c = true.
Proof. intros Hne Hl. destruct l as [|c l]; [done|]. inversion Hl; subst. by exists c. Qed.

Lemma digits_last l : l <> [] -> Forall (fun c => is_digit c = true) l ->
  exists c, last l = Some c /\ is_digit c = true.
Proof.
  intros Hne Hl. destruct (last l) as [c|] eqn:E; [|by apply last_None in E].
  exists c. split; [done|]. rewrite Forall_forall in Hl. apply Hl.
  apply last_Some in E as [l' ->]. set_solver.
Qed.

Lemma parse_parts_one neg w :
  w <> [] -> no_leading_zero w ->
  parse_parts neg [w] = match ParseUint w with
                        | Some whole => combine_minor neg whole 0
                        | None => Err NotANumber end.
Proof.
  intros Hne Hz. apply leading_zero_spec in Hz. unfold parse_parts, bad_shape. simpl.
  rewrite Hz. by destruct w.
Qed.

Lemma parse_parts_two neg w f :
  w <> [] -> no_leading_zero w -> (1 <= length f <= 2)%nat ->
  parse_parts neg [w; f] = match ParseUint w with
                           | Some whole => match ParseUint (fraction_digits f) with
                                           | Some frac => combine_minor neg whole frac
                                           | None => Err NotANumber end
                           | None => Err NotANumber end.
Proof.
  intros Hne Hz Hf. apply leading_zero_spec in Hz. unfold parse_parts, bad_shape. simpl.
  rewrite Hz. destruct w; [done|]. by destruct f as [|? [|? [|]]]; simpl in *; [lia|..|lia].
Qed.

(** The number [whole.fraction], its fraction optional. *)
Lemma ParseDecimal_number neg w (frac : option Z) :
  0 <= w <= max_uint64 -> (forall f, frac = Some f -> 0 <= f < 100) ->
  (neg = true -> 0 < w * 100 + default 0 frac) ->
  ParseDecimal (string_of (sign_bytes neg ++ FormatUint w
                           ++ match frac with Some f => "."%char :: pad2 f | None => [] end))
  = amountFromBigInt (signed neg (w * 100 + default 0 frac)).
Proof.
  intros Hw Hfrac Hneg.
  pose proof (FormatUint_digits w ltac:(lia)) as Hd.
  pose proof (FormatUint_nonempty w) as Hne.
  destruct (digits_head _ Hne Hd) as (c & Hc & Hcd).
  assert (Hlast : exists c', last (FormatUint w ++ match frac with Some f => "."%char :: pad2 f | None => [] end) = Some c' /\ is_digit c' = true).
  { destruct frac as [f|]; [|rewrite app_nil_r; by apply digits_last].
    specialize (Hfrac f eq_refl).
    destruct (digits_last (pad2 f)) as (c' & Hc' & Hcd');
      [intros E; pose proof (pad2_length f Hfrac); by rewrite E in *|by apply pad2_digits|].
    exists c'. split; [|done]. rewrite last_app, last_cons, Hc'. done. }
  destruct Hlast as (c' & Hl & Hcd').
  assert (Hh : forall r, head (FormatUint w ++ r) = Some c) by (by destruct (FormatUint w)).
  rewrite (ParseDecimal_bytes neg _ c c' (Hh _) Hl Hcd Hcd').
  destruct frac as [f|]; simpl in *.
  - specialize (Hfrac f eq_refl).
    rewrite split_bytes_app by (by apply digits_no_dot).
    rewrite split_bytes_no_sep by (by apply digits_no_dot, pad2_digits).
    rewrite parse_parts_two; [|done|by apply FormatUint_no_leading_zero|rewrite pad2_length by done; lia].
    rewrite ParseUint_FormatUint by done. unfold fraction_digits.
    rewrite pad2_length by done. simpl. rewrite ParseUint_pad2 by done.
    by apply combine_minor_spec.
  - rewrite app_nil_r, split_bytes_no_sep by (by apply digits_no_dot).
    rewrite parse_parts_one; [|done|by apply FormatUint_no_leading_zero].
    rewrite ParseUint_FormatUint by done.
    apply combine_minor_spec; [done|lia|done].
Qed.
(** Every integer is a signed pair of whole part and fraction. *)
Lemma minor_split z :
  exists neg w f, z = signed neg (w * 100 + f) /\ w = Z.abs z / 100 /\ 0 <= w /\ 0 <= f < 100
    /\ (neg = true -> 0 < w * 100 + f).
Proof.
  exists (z <? 0), (Z.abs z / 100), (Z.abs z mod 100).
  pose proof (Z.div_mod (Z.abs z) 100 ltac:(lia)).
  pose proof (Z.mod_pos_bound (Z.abs z) 100 ltac:(lia)).
  pose proof (Z.div_pos (Z.abs z) 100 ltac:(lia) ltac:(lia)).
  unfold signed. destruct (Z.ltb_spec z 0); repeat split; try lia.
Qed.

Lemma string_of_inj_bytes s l : bytes_of s = l -> s = string_of l.
Proof. intros <-. by rewrite string_of_bytes_of. Qed.

Lemma string_of_app l1 l2 : string_of (l1 ++ l2) = (string_of l1 ++ string_of l2)%string.
Proof.
  unfold string_of. induction l1 as [|c l1 IH]; [done|]. cbn [app String.string_of_list_ascii].
  by rewrite IH.
Qed.

(** The parts of a string the parser accepts. *)
Lemma parse_parts_inv neg parts a :
  parse_parts neg parts = Ok a ->
  exists w whole frac,
    ((parts = [w] /\ frac = 0) \/
     exists f, parts = [w; f] /\ (1 <= length f <= 2)%nat
               /\ ParseUint (fraction_digits f) = Some frac)
    /\ ParseUint w = Some whole /\ no_leading_zero w /\ combine_minor neg whole frac = Ok a.
Proof.
  unfold parse_parts. destruct (bad_shape parts) eqn:Eb; [done|].
  destruct (leading_zero _) eqn:El; [done|]. apply leading_zero_spec in El.
  unfold bad_shape in Eb.
  destruct (ParseUint (nth 0 parts [])) as [whole|] eqn:Ew; [|done].
  destruct parts as [|w [|f [|]]]; simpl in *; [done|..|done].
  - intros Hc. exists w, whole, 0. eauto 10.
  - destruct (ParseUint (fraction_digits f)) as [frac|] eqn:Ef; [|done].
    intros Hc. exists w, whole, frac. split; [|done]. right. exists f. split; [done|].
    split; [|done].
    destruct f as [|? [|? [|]]]; simpl in *;
      rewrite ?orb_true_r in Eb; try done; lia.
Qed.

(** A parsed fraction has two digits when completed, and prints as they are. *)
Lemma fraction_inv f frac :
  (1 <= length f <= 2)%nat -> ParseUint (fraction_digits f) = Some frac ->
  0 <= frac < 100 /\ pad2 frac = fraction_digits f.
Proof.
  intros Hf. unfold fraction_digits.
  set (g := if (length f =? 1)%nat then f ++ ["0"%char] else f).
  assert (Hg : length g = 2%nat).
  { subst g. destruct f as [|? [|? [|]]]; simpl in *; lia. }
  clearbody g. destruct g as [|c1 [|c2 [|]]]; simpl in Hg; [lia..| |lia].
  intros Hp. pose proof Hp as Hp'. simpl in Hp.
  destruct (digit_val c1) as [d1|] eqn:E1; [|done]. apply digit_val_inv in E1 as [Hd1 ->].
  case_match; [done|].
  destruct (digit_val c2) as [d2|] eqn:E2; [|done]. apply digit_val_inv in E2 as [Hd2 ->].
  case_match; [done|]. injection Hp as <-. split; [lia|].
  unfold pad2. destruct (Z.ltb_spec ((0 * 10 + d1) * 10 + d2) 10).
  - assert (d1 = 0) as -> by lia. unfold FormatUint. by rewrite format_loop_small by lia.
  - apply FormatUint_ParseUint; [|done]. simpl. intros E.
    assert (Hv : digit_val (digit_byte d1) = Some 0) by (by rewrite E).
    rewrite digit_val_byte in Hv by lia. injection Hv. lia.
Qed.

Lemma combine_minor_inv neg w f a :
  0 <= w <= max_uint64 -> 0 <= f < 100 -> combine_minor neg w f = Ok a ->
  (neg = true -> 0 < w * 100 + f) /\ in_int64 (MinorUnits a) = true
  /\ a = mkAmount (signed neg (w * 100 + f)).
Proof.
  intros Hw Hf Hc.
  assert (Hneg : neg = true -> 0 < w * 100 + f).
  { intros ->. destruct (Z.lt_ge_cases 0 (w * 100 + f)) as [?|Hz]; [done|].
    assert (w = 0) as -> by lia. assert (f = 0) as -> by lia. done. }
  split; [done|]. rewrite combine_minor_spec in Hc by done.
  unfold amountFromBigInt in Hc. case_match eqn:Hi; [|done]. by injection Hc as <-.
Qed.

Lemma HasPrefix_sign v :
  v = string_of (sign_bytes (HasPrefix v "-")
                 ++ bytes_of (if HasPrefix v "-" then string_drop 1 v else v)).
Proof.
  rewrite <- (string_of_bytes_of v). rewrite HasPrefix_char.
  destruct (bytes_of v) as [|c l] eqn:E; [done|].
  destruct (Ascii.eqb_spec "-" c) as [<-|Hne].
  - by rewrite string_drop_1, bytes_of_string_of.
  - by rewrite bytes_of_string_of.
Qed.

(** ** Spellings *)

(** The value of decimal digits. *)
Definition digits_value (l : list ascii) : Z := foldl (fun v c => 10 * v + (byte_val c - 48)) 0 l.

(** Digits without a leading zero, and at most two digits of a fraction. *)
Definition decimal_digits (w f : list ascii) : Prop :=
  w <> [] /\ Forall (fun c => is_digit c = true) w /\ no_leading_zero w
  /\ Forall (fun c => is_digit c = true) f /\ (length f <= 2)%nat.

#[export] Instance decimal_digits_dec w f : Decision (decimal_digits w f).
Proof. unfold decimal_digits, no_leading_zero. repeat apply and_dec; try apply _. destruct w as [|? [|? ?]]; apply _. Defined.

Definition spelling (negative : bool) (w f : list ascii) : string :=
  string_of (sign_bytes negative ++ w ++ match f with [] => [] | _ => "."%char :: f end).

(** The minor units of a spelling without its sign. *)
Definition minor_value (w f : list ascii) : Z :=
  100 * digits_value w + match f with [_] => 10 * digits_value f | _ => digits_value f end.

Lemma foldl_digits_ge l : forall acc, Forall (fun c => is_digit c = true) l -> 0 <= acc ->
  acc <= foldl (fun v c => 10 * v + (byte_val c - 48)) acc l.
Proof.
  induction l as [|c l IH]; intros acc Hl Ha; [done|]. apply Forall_cons in Hl as [Hc Hl].
  unfold is_digit in Hc. cbn [foldl]. specialize (IH (10 * acc + (byte_val c - 48)) Hl). lia.
Qed.

Lemma parse_digits_value l : forall acc, Forall (fun c => is_digit c = true) l -> 0 <= acc <= max_uint64 ->
  parse_digits acc l = let v := foldl (fun v c => 10 * v + (byte_val c - 48)) acc l in
                       if v <=? max_uint64 then Some v else None.
Proof.
  induction l as [|c l IH]; intros acc Hl Ha; cbv zeta; [by rewrite (proj2 (Z.leb_le _ _)) by (cbn; lia)|].
  apply Forall_cons in Hl as [Hc Hl]. cbn [parse_digits foldl]. unfold digit_val. unfold is_digit in Hc. rewrite Hc.
  cbv zeta. replace (acc * 10 + (byte_val c - 48)) with (10 * acc + (byte_val c - 48)) by lia.
  destruct (Z.ltb_spec max_uint64 (10 * acc + (byte_val c - 48))) as [Hm|Hm].
  - rewrite (proj2 (Z.leb_gt _ _)); [done|].
    pose proof (foldl_digits_ge l (10 * acc + (byte_val c - 48)) Hl ltac:(lia)). lia.
  - rewrite IH by (done || lia). done.
Qed.

Lemma ParseUint_value l : l <> [] -> Forall (fun c => is_digit c = true) l ->
  ParseUint l = if digits_value l <=? max_uint64 then Some (digits_value l) else None.
Proof.
  intros Hne Hl. unfold ParseUint. destruct l as [|c l]; [done|]. apply parse_digits_value; [done|].
  unfold max_uint64. lia.
Qed.

Lemma spelled_value_nonneg l : Forall (fun c => is_digit c = true) l -> 0 <= digits_value l.
Proof. intros Hl. by apply (foldl_digits_ge l 0). Qed.

(** A fraction of one digit counts tens. *)
Lemma fraction_value f : f <> [] -> (length f <= 2)%nat -> Forall (fun c => is_digit c = true) f ->
  let v := match f with [_] => 10 * digits_value f | _ => digits_value f end in
  0 <= v < 100 /\ ParseUint (fraction_digits f) = Some v.
Proof.
  intros Hne Hlen Hf. destruct f as [|c [|d [|? ?]]]; [done| | |cbn in Hlen; lia]; cbv zeta.
  - apply Forall_cons in Hf as [Hc _]. unfold fraction_digits. cbn [length Nat.eqb app].
    rewrite ParseUint_value by (done || by repeat constructor). unfold is_digit in Hc. unfold digits_value. cbn [foldl].
    change (byte_val "0") with 48. split; [lia|]. unfold max_uint64. rewrite (proj2 (Z.leb_le _ _)) by lia. f_equal. lia.
  - unfold fraction_digits. cbn [length Nat.eqb]. rewrite ParseUint_value by done.
    apply Forall_cons in Hf as [Hc [Hd _]%Forall_cons]. unfold is_digit in Hc, Hd. unfold digits_value. cbn [foldl].
    split; [lia|]. unfold max_uint64. rewrite (proj2 (Z.leb_le _ _)) by lia. done.
Qed.

(** The bounds of a combination, for a whole part that strconv accepts. *)
Lemma combine_minor_value neg w f : 0 <= w <= max_uint64 -> 0 <= f < 100 ->
  combine_minor neg w f
  = if neg && (w * 100 + f =? 0) then Err NegativeZero else amountFromBigInt (signed neg (w * 100 + f)).
Proof.
  intros Hw Hf. destruct neg; [|by apply combine_minor_spec]. destruct (Z.eqb_spec (w * 100 + f) 0) as [E|E].
  - assert (w = 0) as -> by lia. assert (f = 0) as -> by lia. done.
  - apply combine_minor_spec; [done|done|lia].
Qed.

Lemma ParseDecimal_spelling neg w f : decimal_digits w f ->
  ParseDecimal (spelling neg w f)
  = if max_uint64 <? digits_value w then Err NotANumber
    else if neg && (minor_value w f =? 0) then Err NegativeZero
    else amountFromBigInt (signed neg (minor_value w f)).
Proof.
  intros (Hne & Hw & Hz & Hf & Hlen). destruct (digits_head w Hne Hw) as (c & Hc & Hcd).
  assert (Hlast : exists c', last (w ++ match f with [] => [] | _ => "."%char :: f end) = Some c' /\ is_digit c' = true).
  { destruct f as [|d f]; [rewrite app_nil_r; by apply digits_last|].
    destruct (digits_last (d :: f)) as (c' & Hc' & Hd'); [done|done|]. exists c'. split; [|done].
    rewrite last_app, last_cons, Hc'. done. }
  destruct Hlast as (c' & Hl & Hcd').
  assert (Hh : head (w ++ match f with [] => [] | _ => "."%char :: f end) = Some c) by (by destruct w).
  unfold spelling. rewrite (ParseDecimal_bytes neg _ c c' Hh Hl Hcd Hcd').
  pose proof (spelled_value_nonneg w Hw) as Hv. unfold minor_value. rewrite Z.ltb_antisym.
  destruct f as [|d f].
  - rewrite app_nil_r, split_bytes_no_sep by (by apply digits_no_dot).
    rewrite parse_parts_one, ParseUint_value by done. destruct (Z.leb_spec (digits_value w) max_uint64); [|done].
    rewrite combine_minor_value by (done || lia). cbn [negb].
    change (digits_value []) with 0. by rewrite (Z.mul_comm 100).
  - destruct (fraction_value (d :: f)) as [Hfv Hpf]; [done..|].
    rewrite split_bytes_app, split_bytes_no_sep by (by apply digits_no_dot).
    rewrite parse_parts_two, ParseUint_value, Hpf by (done || (cbn [length] in *; lia)).
    destruct (Z.leb_spec (digits_value w) max_uint64); [|done].
    rewrite combine_minor_value by (done || lia). cbn [negb]. by rewrite (Z.mul_comm 100).
Qed.

(** Strings that are no spelling are refused before the value matters. *)
Lemma ParseDecimal_other v :
  (exists neg w f, decimal_digits w f /\ v = spelling neg w f)
  \/ exists e, ParseDecimal v = Err e /\ e <> ErrOverflow /\ e <> NegativeZero.
Proof.
  unfold ParseDecimal. destruct (String.eqb v EmptyString); [right; by eexists|].
  destruct (negb _); [right; by eexists|]. cbv zeta. pose proof (HasPrefix_sign v) as Hv.
  set (neg := HasPrefix v "-") in *. set (body := if neg then string_drop 1 v else v) in *.
  pose proof (join_split "." (bytes_of body)) as Hj. unfold Split_dot. unfold parse_parts.
  destruct (bad_shape _) eqn:Eb; [right; by eexists|]. destruct (leading_zero _) eqn:El; [right; by eexists|].
  apply leading_zero_spec in El.
  destruct (split_bytes "." (bytes_of body)) as [|w [|f [|? ?]]]; [done| | |done]; cbn [nth length Nat.eqb] in *.
  - destruct (ParseUint w) as [x|] eqn:Ew; [left|right; by eexists]. exists neg, w, []. pose proof (ParseUint_digits _ _ Ew).
    split; [split_and!; [by intros ->|done|done|constructor|cbn; lia]|]. rewrite Hv, <- Hj. cbn. unfold spelling. by rewrite app_nil_r.
  - destruct (ParseUint w) as [x|] eqn:Ew; [|right; by eexists]. destruct (ParseUint (fraction_digits f)) as [y|] eqn:Ef;
      [left|right; by eexists]. exists neg, w, f. pose proof (ParseUint_digits _ _ Ew). apply ParseUint_digits in Ef.
    unfold bad_shape in Eb. cbn [nth length Nat.eqb Nat.ltb] in Eb.
    destruct f as [|a [|b [|? ?]]]; cbn in Eb; rewrite ?orb_true_r in Eb; try done.
    all: split; [split_and!; [by intros ->|done|done| |cbn; lia]|rewrite Hv, <- Hj; done].
    + cbn in Ef. by apply Forall_cons in Ef as [? _]; repeat constructor.
    + exact Ef.
Qed.

(** C38. The parser reads back every amount the program prints.  A spelling, digits
    without a leading zero after an optional sign and at most two digits of a
    fraction, is read as its exact number of minor units when that fits int64, the
    lower bound included; the others are refused, a negative zero, a whole part that
    leaves uint64 by strconv's error, and every other amount that leaves int64 as an
    overflow.  No other string is read, nor refused with these errors of the value. *)
Theorem ParseDecimal_Decimal :
  (forall a, in_int64 (MinorUnits a) = true -> ParseDecimal (Decimal a) = Ok a)
  /\ (forall (neg : bool) w f, decimal_digits w f ->
        let n := if neg then - minor_value w f else minor_value w f in
        ParseDecimal (spelling neg w f)
        = if 2 ^ 64 <=? digits_value w then Err NotANumber
          else if neg && (n =? 0) then Err NegativeZero
          else if (- 2 ^ 63 <=? n) && (n <? 2 ^ 63) then Ok (mkAmount n) else Err ErrOverflow)
  /\ forall v, (exists neg w f, decimal_digits w f /\ v = spelling neg w f)
       \/ exists e, ParseDecimal v = Err e /\ e <> ErrOverflow /\ e <> NegativeZero.
Proof.
  split_and!; [|intros neg w f H n|exact ParseDecimal_other].
  - intros [z] Hin. pose proof Hin as Hr. apply in_int64_spec in Hr. cbn [MinorUnits] in *.
    destruct (minor_split z) as (neg & w & f & -> & Ew & Hw & Hf & Hneg).
    rewrite (string_of_inj_bytes _ _ (Decimal_shape neg w f Hw Hf Hneg)), (ParseDecimal_number neg w (Some f));
      [|unfold max_uint64, signed in *; destruct neg; lia|by intros ? [= <-]|done].
    unfold amountFromBigInt. change (default 0 (Some f)) with f. by rewrite Hin.
  - rewrite ParseDecimal_spelling by done. unfold max_uint64, n, signed.
    replace (2 ^ 64 - 1 <? digits_value w) with (2 ^ 64 <=? digits_value w) by lia.
    destruct (2 ^ 64 <=? digits_value w); [done|]. unfold amountFromBigInt.
    assert (E : in_int64 (if neg then - minor_value w f else minor_value w f)
      = (- 2 ^ 63 <=? (if neg then - minor_value w f else minor_value w f))
        && ((if neg then - minor_value w f else minor_value w f) <? 2 ^ 63)).
    { apply Bool.eq_iff_eq_true. rewrite in_int64_spec. destruct neg; lia. }
    rewrite E. destruct neg; [|done]. by replace (- minor_value w f =? 0) with (minor_value w f =? 0) by lia.
Qed.

Lemma ParseDecimal_Decimal_witness :
  ParseDecimal (Decimal (mkAmount (-150))) = Ok (mkAmount (-150))
  /\ ParseDecimal "-92233720368547758.08" = Ok (mkAmount (- 2 ^ 63))
  /\ ParseDecimal "92233720368547758.08" = Err ErrOverflow
  /\ ParseDecimal "18446744073709551616.5" = Err NotANumber.
Proof.
  destruct ParseDecimal_Decimal as (Hp & Hs & _). split; [apply Hp; reflexivity|]. split; [|split].
  - refine (Hs true (bytes_of "92233720368547758") (bytes_of "08") _). by_decide.
  - refine (Hs false (bytes_of "92233720368547758") (bytes_of "08") _). by_decide.
  - refine (Hs false (bytes_of "18446744073709551616") (bytes_of "5") _). by_decide.
Defined.

(** The parser accepts one spelling per precision: a string it accepts is the
    canonical spelling of the amount it returns, or that spelling less its last
    zero, or less its whole fraction [.00]; the amount always fits int64. *)
Theorem ParseDecimal_canonical v a :
  ParseDecimal v = Ok a ->
  in_int64 (MinorUnits a) = true
  /\ (Decimal a = v \/ Decimal a = (v ++ "0")%string \/ Decimal a = (v ++ ".00")%string).
Proof.
  unfold ParseDecimal. destruct (String.eqb v EmptyString); [done|].
  destruct (negb _); [done|]. intros Hp. pose proof (HasPrefix_sign v) as Hv.
  set (neg := HasPrefix v "-") in *.
  set (body := if neg then string_drop 1 v else v) in *.
  apply parse_parts_inv in Hp as (w & whole & frac & Hparts & Hw & Hz & Hc).
  pose proof (join_split "." (bytes_of body)) as Hj. unfold Split_dot in Hparts.
  pose proof (ParseUint_bound _ _ Hw) as Hwb.
  pose proof (FormatUint_ParseUint _ _ Hz Hw) as Hfmt.
  assert (Hprint : 0 <= frac < 100 -> in_int64 (MinorUnits a) = true
    /\ Decimal a = string_of (sign_bytes neg ++ w ++ "."%char :: pad2 frac)).
  { intros Hf. apply combine_minor_inv in Hc as (Hneg & Hin & ->); [|done..].
    split; [done|]. rewrite <- Hfmt. apply string_of_inj_bytes, Decimal_shape; [lia|done..]. }
  destruct Hparts as [[Hs ->]|(f & Hs & Hlen & Hf)]; rewrite Hs in Hj; simpl in Hj.
  - destruct (Hprint ltac:(lia)) as [Hin ->]. split; [done|]. right; right.
    rewrite Hv, <- Hj, app_assoc, string_of_app. done.
  - destruct (fraction_inv f frac Hlen Hf) as [Hfr Hpad].
    destruct (Hprint Hfr) as [Hin ->]. split; [done|]. rewrite Hpad. unfold fraction_digits.
    rewrite Hv, <- Hj. destruct (length f =? 1)%nat; [right; left|by left].
    rewrite <- (string_of_bytes_of "0"), <- string_of_app. by rewrite <- !app_assoc.
Qed.

Lemma ParseDecimal_canonical_witness :
  ParseDecimal "12.5" = Ok (mkAmount 1250) /\ in_int64 1250 = true.
Proof.
  split; [vm_compute; reflexivity|].
  apply (ParseDecimal_canonical "12.5" (mkAmount 1250)). vm_compute. reflexivity.
Defined.

(** The spelling for a reporting currency, whole-unit or not, also reads back
    as the same amount. *)
Theorem ParseDecimal_DecimalFor a currency :
  in_int64 (MinorUnits a) = true -> ParseDecimal (DecimalFor a currency) = Ok a.
Proof.
  intros Hin. pose proof Hin as Hr. apply in_int64_spec in Hr. destruct a as [z]. simpl in *.
  unfold DecimalFor. simpl. unfold MinorUnitsPerMajor.
  destruct (_ && _) eqn:E.
  - destruct (minor_split z) as (neg & w & f & -> & Ew & Hw & Hf & Hneg).
    destruct (quot_rem_signed neg w f Hw Hf) as [Hq Hrem]. rewrite Hq.
    assert (f = 0) as -> by (rewrite Hrem in E; unfold signed in E; destruct neg; lia).
    assert (Hs : FormatInt (signed neg w) = sign_bytes neg ++ FormatUint w ++ []).
    { rewrite app_nil_r. unfold FormatInt, signed. destruct neg; simpl.
      - specialize (Hneg eq_refl). rewrite (proj2 (Z.ltb_lt _ _)) by lia.
        by rewrite Z.opp_involutive.
      - by rewrite (proj2 (Z.ltb_ge _ _)) by lia. }
    rewrite Hs, (ParseDecimal_number neg w None); simpl.
    + unfold amountFromBigInt. by rewrite Hin.
    + unfold max_uint64. unfold signed in Hr. destruct neg; lia.
    + done.
    + exact Hneg.
  - destruct (minor_split z) as (neg & w & f & -> & Ew & Hw & Hf & Hneg).
    rewrite (string_of_inj_bytes _ _ (Decimal_shape neg w f Hw Hf Hneg)).
    rewrite (ParseDecimal_number neg w (Some f)); simpl; [|unfold max_uint64; unfold signed in Hr; destruct neg; lia|by intros ? [= <-]|done].
    unfold amountFromBigInt. by rewrite Hin.
Qed.

Lemma ParseDecimal_DecimalFor_witness :
  DecimalFor (mkAmount 150000) " jpy" = "1500"%string
  /\ ParseDecimal (DecimalFor (mkAmount 150000) " jpy") = Ok (mkAmount 150000).
Proof.
  split; [vm_compute; reflexivity|]. apply ParseDecimal_DecimalFor. reflexivity.
Defined.
(** ** Exact arithmetic, rounded once *)

(** [q] is the integer nearest to [n / d], ties going away from zero. *)
Definition nearest (n d q : Z) : Prop :=
  2 * Z.abs (q * d - n) <= d /\ (2 * Z.abs (q * d - n) = d -> Z.abs n < Z.abs (q * d)).

Lemma nearest_not_less n d q1 q2 : 0 < d -> nearest n d q1 -> nearest n d q2 -> ~ q1 < q2.
Proof.
  intros Hd [Ha1 Ht1] [Ha2 Ht2] Hlt.
  assert (Hge : d <= q2 * d - q1 * d) by nia.
  destruct (Z.le_gt_cases 0 q1); [assert (0 <= q1 * d) by nia|assert (q2 * d <= 0) by nia]; lia.
Qed.

Lemma nearest_unique n d q1 q2 : 0 < d -> nearest n d q1 -> nearest n d q2 -> q1 = q2.
Proof.
  intros Hd H1 H2. pose proof (nearest_not_less n d q1 q2 Hd H1 H2).
  pose proof (nearest_not_less n d q2 q1 Hd H2 H1). lia.
Qed.

(** Only the value of the fraction matters. *)
Lemma nearest_value n d a b q :
  0 < d -> 0 < b -> n * b = a * d -> nearest n d q -> nearest a b q.
Proof.
  intros Hd Hb He [Hn Ht].
  assert (Hk : Z.abs (q * d - n) * b = Z.abs (q * b - a) * d).
  { rewrite <- (Z.abs_eq b) at 1 by lia. rewrite <- (Z.abs_eq d) at 2 by lia.
    rewrite <- !Z.abs_mul. f_equal. lia. }
  assert (Hm : Z.abs n * b = Z.abs a * d).
  { rewrite <- (Z.abs_eq b) at 1 by lia. rewrite <- (Z.abs_eq d) at 1 by lia.
    rewrite <- !Z.abs_mul. by f_equal. }
  rewrite Z.abs_mul, (Z.abs_eq d) in Ht by lia.
  split; [nia|]. intros Heq. rewrite Z.abs_mul, (Z.abs_eq b) by lia.
  assert (Ht' : 2 * Z.abs (q * d - n) = d) by nia. specialize (Ht Ht'). nia.
Qed.

Lemma roundedRat_nearest r : 0 < Denom r -> nearest (Num r) (Denom r) (roundedRat r).
Proof.
  destruct r as [n d]. simpl. intros Hd. unfold roundedRat. simpl.
  pose proof (Z.quot_rem n d ltac:(lia)) as Hqr.
  pose proof (Z.rem_bound_abs n d ltac:(lia)) as Hb.
  pose proof (Z.rem_sign_nz n d ltac:(lia)) as Hs.
  set (q := Z.quot n d) in *. set (m := Z.rem n d) in *. clearbody q m.
  destruct (Z.eqb_spec m 0) as [->|Hm]; [split; nia|].
  specialize (Hs Hm).
  destruct (Z.leb_spec d (Z.abs m * 2)); [destruct (Z.leb_spec 0 n)|].
  - assert (0 < m) by lia. replace ((q + 1) * d - n) with (d - m) by lia.
    split; [lia|]. intros. assert (n < (q + 1) * d) by lia. lia.
  - assert (m < 0) by lia. replace ((q - 1) * d - n) with (- d - m) by lia.
    split; [lia|]. intros. assert ((q - 1) * d < n) by lia. lia.
  - replace (q * d - n) with (- m) by lia. split; lia.
Qed.

(** Reduction keeps the value. *)
Lemma NewRat_value a b :
  b <> 0 -> 0 < Denom (NewRat a b) /\ Num (NewRat a b) * b = a * Denom (NewRat a b).
Proof.
  intros Hb. unfold NewRat. simpl.
  pose proof (Z.gcd_nonneg a b). assert (Hg : Z.gcd a b <> 0) by (intros H0; by apply Z.gcd_eq_0_r in H0).
  destruct (Z.gcd_divide_l a b) as [x Hx]. destruct (Z.gcd_divide_r a b) as [y Hy].
  set (g := Z.gcd a b) in *. clearbody g.
  assert (Hsg : Z.sgn b * Z.sgn b = 1) by (destruct b; done).
  assert (Hk : g * Z.sgn b <> 0) by nia.
  assert (Ha' : a / (g * Z.sgn b) = x * Z.sgn b).
  { rewrite Hx at 1. replace (x * g) with (x * Z.sgn b * (g * Z.sgn b)) by nia. by apply Z.div_mul. }
  assert (Hb' : b / (g * Z.sgn b) = y * Z.sgn b).
  { rewrite Hy at 1. replace (y * g) with (y * Z.sgn b * (g * Z.sgn b)) by nia. by apply Z.div_mul. }
  rewrite Ha', Hb'. split; [|nia].
  pose proof (Z.sgn_abs b). nia.
Qed.

Lemma Rat_Mul_value x y :
  0 < Denom x -> 0 < Denom y ->
  0 < Denom (Rat_Mul x y)
  /\ Num (Rat_Mul x y) * (Denom x * Denom y) = Num x * Num y * Denom (Rat_Mul x y).
Proof. intros Hx Hy. apply NewRat_value. nia. Qed.

(** Rounding a product of two fractions rounds the product of their values. *)
Lemma round_product x y a b c d :
  0 < Denom x -> 0 < Denom y -> 0 < b -> 0 < d ->
  Num x * b = a * Denom x -> Num y * d = c * Denom y ->
  nearest (a * c) (b * d) (roundedRat (Rat_Mul x y)).
Proof.
  intros Hx Hy Hb Hd Hxa Hyc. destruct (Rat_Mul_value x y Hx Hy) as [Hpos Hval].
  apply (nearest_value (Num (Rat_Mul x y)) (Denom (Rat_Mul x y))); [done|nia| |by apply roundedRat_nearest].
  apply (Z.mul_reg_r _ _ (Denom x * Denom y)); [nia|].
  transitivity (Num (Rat_Mul x y) * (Denom x * Denom y) * (b * d)); [ring|]. rewrite Hval.
  transitivity ((Num x * b) * (Num y * d) * Denom (Rat_Mul x y)); [ring|].
  rewrite Hxa, Hyc. ring.
Qed.

(** The exact ratio, rounded once. *)
Lemma scale_ratio_nearest a num den :
  den <> 0 -> exists q,
    nearest (MinorUnits a * num * Z.sgn den) (Z.abs den) q
    /\ ScaleByRatioChecked a num den = amountFromBigInt q.
Proof.
  intros Hden. unfold ScaleByRatioChecked. destruct (_ || _) eqn:Ez.
  - exists 0. split; [|done].
    replace (MinorUnits a * num * Z.sgn den) with 0 by nia. split; lia.
  - destruct (NewRat_value (MinorUnits a) 1 ltac:(lia)) as [H1 V1].
    destruct (NewRat_value num den Hden) as [H2 V2].
    eexists. split; [|reflexivity].
    rewrite <- Z.mul_assoc, <- (Z.mul_1_l (Z.abs den)).
    apply round_product; [done..|lia|lia|done|]. pose proof (Z.sgn_abs den). nia.
Qed.

(** ScaleByRatioChecked computes amount times numerator over denominator in
    exact arithmetic and rounds it once, to the unique nearest minor unit with
    ties away from zero; the call fails with ErrOverflow exactly when that
    integer leaves int64, and a zero denominator gives zero. *)
Theorem ScaleByRatioChecked_spec a num den :
  (den = 0 -> ScaleByRatioChecked a num den = Ok (mkAmount 0))
  /\ (den <> 0 -> exists q,
       nearest (MinorUnits a * num * Z.sgn den) (Z.abs den) q
       /\ (forall q', nearest (MinorUnits a * num * Z.sgn den) (Z.abs den) q' -> q' = q)
       /\ ScaleByRatioChecked a num den
          = if in_int64 q then Ok (mkAmount q) else Err ErrOverflow).
Proof.
  split; [intros ->; unfold ScaleByRatioChecked; by rewrite !orb_true_r|]. intros Hden.
  destruct (scale_ratio_nearest a num den Hden) as (q & Hq & Hr).
  exists q. split; [done|]. split; [|exact Hr].
  intros q' Hq'. eapply nearest_unique; [|done..]. lia.
Qed.

(** The value of a positive finite float, as a fraction. *)
Definition float_num (m : positive) (e : Z) : Z := if 0 <=? e then Zpos m * 2 ^ e else Zpos m.
Definition float_den (e : Z) : Z := if 0 <=? e then 1 else 2 ^ (- e).

Lemma rate_finite_nearest rate m e :
  exists q, nearest (MinorUnits rate * float_num m e) (float_den e) q
            /\ MinorUnits (RateTimesQuantity rate (S754_finite false m e))
               = Z.max min_int64 (Z.min max_int64 q).
Proof.
  unfold RateTimesQuantity. simpl. rewrite !orb_false_r.
  assert (Hden : 0 < float_den e) by (unfold float_den; case_match; lia).
  destruct (Z.eqb_spec (MinorUnits rate) 0) as [->|Hne].
  - exists 0. split; [split; lia|done].
  - destruct (NewRat_value (MinorUnits rate) 1 ltac:(lia)) as [H1 V1].
    set (y := if 0 <=? e then _ else _).
    assert (Hy : 0 < Denom y /\ Num y * float_den e = float_num m e * Denom y).
    { subst y. unfold float_den, float_num. case_match; apply NewRat_value; lia. }
    exists (roundedRat (Rat_Mul (NewRat (MinorUnits rate) 1) y)). split.
    + rewrite <- (Z.mul_1_l (float_den e)). destruct Hy. by apply round_product.
    + unfold roundRat, saturatingInt64. simpl. unfold in_int64, min_int64, max_int64.
      repeat case_match; lia.
Qed.

Lemma rate_not_positive rate quantity :
  (forall m e, quantity <> S754_finite false m e) -> RateTimesQuantity rate quantity = mkAmount 0.
Proof.
  intros Hq. destruct quantity as [s|s| |s m e]; try (destruct s); unfold RateTimesQuantity; simpl;
    rewrite ?orb_true_r; try done.
  by destruct (Hq m e).
Qed.

(** A non-negative rate costs a non-negative amount. *)
Lemma nearest_sign n d q : 0 < d -> nearest n d q -> (0 <= n -> 0 <= q) /\ (n <= 0 -> q <= 0).
Proof.
  intros Hd [Hn Ht]. split; intros Hs.
  - destruct (Z.le_gt_cases 0 q) as [|Hq]; [done|]. assert (q * d <= - d) by nia. lia.
  - destruct (Z.le_gt_cases q 0) as [|Hq]; [done|]. assert (d <= q * d) by nia. lia.
Qed.

Lemma rate_nonneg rate quantity :
  0 <= MinorUnits rate -> 0 <= MinorUnits (RateTimesQuantity rate quantity).
Proof.
  intros Hr.
  destruct quantity as [s|s| |[] m e]; try (rewrite rate_not_positive; [done|congruence]).
  destruct (rate_finite_nearest rate m e) as (q & Hq & ->).
  assert (Hd : 0 < float_den e) by (unfold float_den; case_match; lia).
  assert (Hn : 0 < float_num m e) by (unfold float_num; case_match; lia).
  apply nearest_sign in Hq as [Hq _]; [|done]. specialize (Hq ltac:(nia)).
  unfold min_int64, max_int64. lia.
Qed.

(** RateTimesQuantity multiplies the rate by the exact binary value of the
    quantity and rounds once, half away from zero, clamping to the int64 bounds
    by sign; a quantity that is not a positive finite number gives zero. *)
Theorem RateTimesQuantity_spec rate quantity :
  match quantity with
  | S754_finite false m e =>
      exists q, nearest (MinorUnits rate * float_num m e) (float_den e) q
                /\ MinorUnits (RateTimesQuantity rate quantity)
                   = Z.max min_int64 (Z.min max_int64 q)
  | _ => RateTimesQuantity rate quantity = mkAmount 0
  end.
Proof.
  destruct quantity as [s|s| |[] m e]; try (by apply rate_not_positive).
  apply rate_finite_nearest.
Qed.

(** A run of an accumulator: [true] entries are subtracted. *)
Definition accumulate (l : list (bool * Amount)) : Accumulator :=
  foldl (fun acc '(sub, a) => if sub : bool then Accumulator_Sub acc a else Accumulator_Add acc a)
    zero_Accumulator l.

Definition exact_total (l : list (bool * Amount)) : Z :=
  foldr (fun '(sub, a) z => (if sub : bool then - MinorUnits a else MinorUnits a) + z) 0 l.

Lemma accumulate_total l : forall acc,
  total (foldl (fun acc '(sub, a) => if sub : bool then Accumulator_Sub acc a
                                     else Accumulator_Add acc a) acc l)
  = total acc + exact_total l.
Proof.
  induction l as [|[sub a] l IH]; intros acc; simpl; [lia|].
  rewrite IH. destruct sub; simpl; lia.
Qed.

Lemma exact_total_perm l1 l2 : l1 ≡ₚ l2 -> exact_total l1 = exact_total l2.
Proof. induction 1 as [|[s a] ? ? ? IH|[s a] [s' a'] ?|]; simpl in *; lia. Qed.

(** A total accumulated by additions and subtractions is the exact sum of its
    terms when that fits int64 and ErrOverflow otherwise, whatever the order of
    the terms and whatever the partial sums; Add and Sub are its two-term
    cases. *)
Theorem Accumulator_exact l1 l2 a b :
  l1 ≡ₚ l2 ->
  Accumulator_Amount (accumulate l1) = Accumulator_Amount (accumulate l2)
  /\ Accumulator_Amount (accumulate l1)
     = (if in_int64 (exact_total l1) then Ok (mkAmount (exact_total l1)) else Err ErrOverflow)
  /\ Amount_Add a b = Accumulator_Amount (accumulate [(false, a); (false, b)])
  /\ Amount_Sub a b = Accumulator_Amount (accumulate [(false, a); (true, b)]).
Proof.
  intros Hp.
  assert (H : forall l, Accumulator_Amount (accumulate l) = amountFromBigInt (exact_total l)).
  { intros l. unfold Accumulator_Amount, accumulate. by rewrite accumulate_total. }
  rewrite !(H l1), !(H l2). by rewrite (exact_total_perm l1 l2 Hp).
Qed.

Definition demo_terms : list (bool * Amount) :=
  [(false, mkAmount max_int64); (false, mkAmount 1); (true, mkAmount 5)].

Lemma Accumulator_exact_witness :
  Accumulator_Amount (accumulate demo_terms) = Ok (mkAmount (max_int64 - 4))
  /\ Accumulator_Amount (accumulate demo_terms) = Accumulator_Amount (accumulate (reverse demo_terms)).
Proof.
  split; [vm_compute; reflexivity|].
  apply (Accumulator_exact demo_terms (reverse demo_terms) (mkAmount 0) (mkAmount 0)).
  symmetry. apply reverse_Permutation.
Defined.
