(* ===== verification/Evm.v ===== *)
(** * kernel/evm.go and kernel/baseline.go: earned value and baseline variance

    [ComputeEVM] over a scheduled task map, in minor units with the float
    copies the code keeps beside them, and [CompareSchedules]. *)

From S2P Require Import Prelude GoFloat Scheduler Money.

Local Open Scope Z_scope.

(** ** Data *)

Record TaskEV : Type := mkTaskEV {
  TaskID : string;
  ev_Title : string;
  t_BAC : f64;
  t_PV : f64;
  t_EV : f64;
  t_AC : f64;
  t_BACMinorUnits : Z;
  t_PVMinorUnits : Z;
  t_EVMinorUnits : Z;
  t_ACMinorUnits : Z
}.

Record EVMetrics : Type := mkEVMetrics {
  AsOfDay : f64;
  BAC : f64;
  PV : f64;
  EV : f64;
  AC : f64;
  BACMinorUnits : Z;
  PVMinorUnits : Z;
  EVMinorUnits : Z;
  ACMinorUnits : Z;
  SV : f64;
  CV : f64;
  SPI : f64;
  CPI : f64;
  EAC : f64;
  ETC : f64;
  VAC : f64;
  SVMinorUnits : Z;
  CVMinorUnits : Z;
  EACMinorUnits : Z;
  ETCMinorUnits : Z;
  VACMinorUnits : Z;
  Tasks : list TaskEV
}.

(** Every error of [ComputeEVM] wraps money.ErrOverflow under a label. *)
Inductive EVMError : Type := EVMOverflow (label : string).

#[export] Instance EVMError_eq_dec : EqDecision EVMError.
Proof. solve_decision. Defined.

(** ** Task amounts *)

Definition taskBudgetAmount (t : Task) : Amount :=
  if negb (BudgetedCostMinorUnits t =? 0) || (BudgetedCost t ==. fzero)
  then mkAmount (BudgetedCostMinorUnits t)
  else FromMajorFloat (BudgetedCost t).

Definition taskActualAmount (t : Task) : Amount :=
  if negb (ActualCostMinorUnits t =? 0) || (ActualCost t ==. fzero)
  then mkAmount (ActualCostMinorUnits t)
  else FromMajorFloat (ActualCost t).

(** ** Planned fraction *)

Definition bad_segment (first : bool) (previousEnd : f64) (s : WorkSegment) : bool :=
  is_nan (seg_Start s) || is_inf (seg_Start s) || is_nan (seg_End s) || is_inf (seg_End s)
  || (seg_Start s <. fzero) || (seg_End s <=. seg_Start s)
  || (negb first && (seg_Start s <. previousEnd)).

(** The loop over the segments: [Some (completed, total)], or [None] at an
    invalid segment. *)
Fixpoint split_loop (segments : list WorkSegment) (first : bool)
    (elapsed completed total previousEnd : f64) : option (f64 * f64) :=
  match segments with
  | [] => Some (completed, total)
  | s :: rest =>
      if bad_segment first previousEnd s then None
      else
        let width := seg_End s ⊖ seg_Start s in
        let total := total ⊕ width in
        let completed :=
          if seg_Start s <. elapsed
          then completed ⊕ (fmin elapsed (seg_End s) ⊖ seg_Start s) else completed in
        split_loop rest false elapsed completed total (seg_End s)
  end.

(** [None] is [ok = false]. *)
Definition splitPlannedFraction (segments : list WorkSegment) (elapsed : f64) : option f64 :=
  match segments with
  | [] => None
  | _ =>
      match split_loop segments true elapsed fzero fzero fzero with
      | None => None
      | Some (completed, total) =>
          if total <=. fzero then None
          else if completed <=. fzero then Some fzero
          else if total <=. completed then Some fone
          else Some (completed ⊘ total)
      end
  end.

Definition plannedFraction (t : Task) (asOfDay : f64) : f64 :=
  if Duration t <=. fzero then
    if ES t <=. asOfDay then fone else fzero
  else match splitPlannedFraction (PlannedWorkSegments t) (asOfDay ⊖ ES t) with
       | Some f => f
       | None =>
           let f := (asOfDay ⊖ ES t) ⊘ Duration t in
           if f <. fzero then fzero else if fone <. f then fone else f
       end.

(** ** ComputeEVM *)

Definition task_pv (asOfDay : f64) (t : Task) : Amount :=
  RateTimesQuantity (taskBudgetAmount t) (plannedFraction t asOfDay).

Definition task_ev (t : Task) : Amount :=
  RateTimesQuantity (taskBudgetAmount t) (PercentComplete t ⊘ f_of_Z 100).

(** The row of one task. *)
Definition task_row (asOfDay : f64) (t : Task) : TaskEV :=
  let bac := taskBudgetAmount t in
  let ac := taskActualAmount t in
  let pv := task_pv asOfDay t in
  let ev := task_ev t in
  mkTaskEV (ID t) (Title t) (MajorFloat bac) (MajorFloat pv) (MajorFloat ev) (MajorFloat ac)
    (MinorUnits bac) (MinorUnits pv) (MinorUnits ev) (MinorUnits ac).

(** [sort.Slice] by TaskID; the ids of a map keyed by ID are distinct, so an
    unstable sort has one result. *)
Definition sort_rows (rows : list TaskEV) : list TaskEV := sort_by_key TaskID rows.

(** The four totals and the rows, as the loop over the map leaves them. *)
Record evm_state : Type := mkEvmState {
  bacTotal : Accumulator;
  pvTotal : Accumulator;
  evTotal : Accumulator;
  acTotal : Accumulator;
  rows : list TaskEV
}.

Definition evm_init : evm_state :=
  mkEvmState zero_Accumulator zero_Accumulator zero_Accumulator zero_Accumulator [].

Definition evm_add (asOfDay : f64) (st : evm_state) (t : Task) : evm_state :=
  mkEvmState (Accumulator_Add (bacTotal st) (taskBudgetAmount t))
    (Accumulator_Add (pvTotal st) (task_pv asOfDay t))
    (Accumulator_Add (evTotal st) (task_ev t))
    (Accumulator_Add (acTotal st) (taskActualAmount t))
    (rows st ++ [task_row asOfDay t]).

Definition accumulatedMinorUnits (label : string) (total : Accumulator) : result EVMError Z :=
  match Accumulator_Amount total with
  | Ok a => Ok (MinorUnits a)
  | Err _ => Err (EVMOverflow label)
  end.

Definition subtractMinorUnits (label : string) (left right : Z) : result EVMError Z :=
  match Amount_Sub (mkAmount left) (mkAmount right) with
  | Ok a => Ok (MinorUnits a)
  | Err _ => Err (EVMOverflow label)
  end.

(** Estimate at completion: BAC scaled by AC / EV, or BAC. *)
Definition eac_minor (bac ac ev : Z) : result EVMError Z :=
  if (0 <? ev) && (0 <? ac) then
    match ScaleByRatioChecked (mkAmount bac) ac ev with
    | Ok a => Ok (MinorUnits a)
    | Err _ => Err (EVMOverflow "EAC")
    end
  else Ok bac.

Definition major (z : Z) : f64 := MajorFloat (mkAmount z).

(** A performance index: [ev / denominator], 0 without a denominator. *)
Definition perf_index (ev denominator : Z) : f64 :=
  if 0 <? denominator then f_of_Z ev ⊘ f_of_Z denominator else fzero.

Definition evm_metrics (asOfDay : f64) (st : evm_state) : result EVMError EVMetrics :=
  bac <-! accumulatedMinorUnits "BAC" (bacTotal st) ;;
  pv <-! accumulatedMinorUnits "PV" (pvTotal st) ;;
  ev <-! accumulatedMinorUnits "EV" (evTotal st) ;;
  ac <-! accumulatedMinorUnits "AC" (acTotal st) ;;
  sv <-! subtractMinorUnits "SV" ev pv ;;
  cv <-! subtractMinorUnits "CV" ev ac ;;
  eac <-! eac_minor bac ac ev ;;
  etc <-! subtractMinorUnits "ETC" eac ac ;;
  vac <-! subtractMinorUnits "VAC" bac eac ;;
  Ok (mkEVMetrics asOfDay (major bac) (major pv) (major ev) (major ac) bac pv ev ac
        (major sv) (major cv) (perf_index ev pv) (perf_index ev ac)
        (major eac) (major etc) (major vac) sv cv eac etc vac (sort_rows (rows st))).

(** Range site 6. *)
Definition ComputeEVM `{RangeOrder} (tasks : gmap string Task) (asOfDay : f64)
    : result EVMError EVMetrics :=
  evm_metrics asOfDay (foldl (evm_add asOfDay) evm_init (range 6 tasks).*2).

(** ** CompareSchedules *)

Record ScheduleVariance : Type := mkVariance {
  v_TaskID : string;
  BaselineStart : string;
  BaselineFinish : string;
  StartVarDays : f64;
  FinishVarDays : f64
}.

(** The body of the loop over the current schedule. *)
Definition compare_step (baseline : gmap string Task)
    (out : gmap string ScheduleVariance) (e : string * Task) : gmap string ScheduleVariance :=
  let '(id, cur) := e in
  match baseline !! id with
  | None => out
  | Some base =>
      <[id := mkVariance id (StartDate base) (FinishDate base)
                (ES cur ⊖ ES base) (EF cur ⊖ EF base)]> out
  end.

(** Range site 7. *)
Definition CompareSchedules `{RangeOrder} (current baseline : gmap string Task)
    : gmap string ScheduleVariance :=
  foldl (compare_step baseline) ∅ (range 7 current).

(** ** The totals *)

Lemma evm_add_fold asOf l : forall st,
  let st' := foldl (evm_add asOf) st l in
  total (bacTotal st') = total (bacTotal st) + sum_Z ((fun t => MinorUnits (taskBudgetAmount t)) <$> l)
  /\ total (pvTotal st') = total (pvTotal st) + sum_Z ((fun t => MinorUnits (task_pv asOf t)) <$> l)
  /\ total (evTotal st') = total (evTotal st) + sum_Z ((fun t => MinorUnits (task_ev t)) <$> l)
  /\ total (acTotal st') = total (acTotal st) + sum_Z ((fun t => MinorUnits (taskActualAmount t)) <$> l)
  /\ rows st' = rows st ++ (task_row asOf <$> l).
Proof.
  induction l as [|t l IH]; intros st; cbn zeta.
  - cbn. rewrite app_nil_r. repeat split; lia.
  - rewrite !fmap_cons, !sum_Z_cons. change (foldl (evm_add asOf) st (t :: l)) with (foldl (evm_add asOf) (evm_add asOf st t) l).
    destruct (IH (evm_add asOf st t)) as (-> & -> & -> & -> & ->).
    cbn [evm_add bacTotal pvTotal evTotal acTotal rows Accumulator_Add total].
    rewrite <- app_assoc. repeat split; lia.
Qed.

Lemma accumulatedMinorUnits_spec label acc :
  accumulatedMinorUnits label acc
  = if in_int64 (total acc) then Ok (total acc) else Err (EVMOverflow label).
Proof.
  unfold accumulatedMinorUnits, Accumulator_Amount, amountFromBigInt. by destruct (in_int64 _).
Qed.

Lemma subtractMinorUnits_spec label l r :
  subtractMinorUnits label l r
  = if in_int64 (l - r) then Ok (l - r) else Err (EVMOverflow label).
Proof.
  unfold subtractMinorUnits, Amount_Sub, Accumulator_Amount, amountFromBigInt. simpl.
  by destruct (in_int64 _).
Qed.

(** ** Estimate at completion *)

Lemma eac_minor_spec bac ac ev eac :
  eac_minor bac ac ev = Ok eac ->
  if (0 <? ev) && (0 <? ac) then nearest (bac * ac) ev eac /\ in_int64 eac = true
  else eac = bac.
Proof.
  unfold eac_minor. destruct (_ && _) eqn:E; [|by intros [= <-]].
  assert (Hev : ev <> 0) by lia.
  destruct (scale_ratio_nearest (mkAmount bac) ac ev Hev) as (q & Hq & ->).
  simpl in Hq. replace (Z.sgn ev) with 1 in Hq by lia.
  rewrite Z.mul_1_r, Z.abs_eq in Hq by lia.
  unfold amountFromBigInt. destruct (in_int64 q) eqn:Hi; [|done]. by intros [= <-].
Qed.

(** EAC is never on the other side of zero from BAC. *)
Lemma eac_sign bac ac ev eac :
  eac_minor bac ac ev = Ok eac ->
  (0 <= bac -> 0 <= eac) /\ (bac <= 0 -> eac <= 0).
Proof.
  intros He. apply eac_minor_spec in He. destruct (_ && _) eqn:E; [|by subst].
  destruct He as [Hn _]. apply nearest_sign in Hn as [H1 H2]; [|lia].
  split; intros; [apply H1|apply H2]; nia.
Qed.

Lemma eac_in_int64 bac ac ev eac :
  in_int64 bac = true -> eac_minor bac ac ev = Ok eac -> in_int64 eac = true.
Proof.
  intros Hb He. apply eac_minor_spec in He. destruct (_ && _); [by destruct He|by subst].
Qed.

Lemma bind_checked {A : Type} (z : Z) (e : EVMError) (k : Z -> result EVMError A) :
  rbind (if in_int64 z then Ok z else Err e) k = if in_int64 z then k z else Err e.
Proof. by destruct (in_int64 z). Qed.

(** What a successful run returned, in terms of the four exact totals. *)
Definition metrics_of_totals (bac pv ev ac : Z) (m : EVMetrics) : Prop :=
  BACMinorUnits m = bac /\ PVMinorUnits m = pv /\ EVMinorUnits m = ev /\ ACMinorUnits m = ac
  /\ SVMinorUnits m = ev - pv /\ CVMinorUnits m = ev - ac
  /\ (if (0 <? ev) && (0 <? ac) then nearest (bac * ac) ev (EACMinorUnits m)
      else EACMinorUnits m = bac)
  /\ ETCMinorUnits m = EACMinorUnits m - ac /\ VACMinorUnits m = bac - EACMinorUnits m
  /\ Forall (fun z => in_int64 z = true)
       [bac; pv; ev; ac; ev - pv; ev - ac; EACMinorUnits m; ETCMinorUnits m; VACMinorUnits m].

Lemma evm_metrics_ok asOf st m :
  evm_metrics asOf st = Ok m ->
  metrics_of_totals (total (bacTotal st)) (total (pvTotal st)) (total (evTotal st))
    (total (acTotal st)) m
  /\ Tasks m = sort_rows (rows st) /\ AsOfDay m = asOf.
Proof.
  unfold evm_metrics. rewrite !accumulatedMinorUnits_spec.
  do 4 (rewrite bind_checked; destruct (in_int64 _) eqn:? at 1; [|done]).
  rewrite !subtractMinorUnits_spec.
  do 2 (rewrite bind_checked; destruct (in_int64 _) eqn:? at 1; [|done]).
  destruct (eac_minor _ _ _) as [eac|] eqn:He; [|done]. simpl.
  rewrite !subtractMinorUnits_spec.
  do 2 (rewrite bind_checked; destruct (in_int64 _) eqn:? at 1; [|done]).
  intros [= <-]. unfold metrics_of_totals. simpl.
  assert (in_int64 eac = true) by (eapply eac_in_int64; [|exact He]; done).
  apply eac_minor_spec in He.
  split_and!; try done; [destruct (_ && _); [by destruct He|done]|by rewrite !Forall_cons].
Qed.

(** The error of a run is the first total or difference that leaves int64; the
    last difference never does. *)
Lemma evm_metrics_no_vac asOf st : evm_metrics asOf st <> Err (EVMOverflow "VAC").
Proof.
  unfold evm_metrics. rewrite !accumulatedMinorUnits_spec.
  do 4 (rewrite bind_checked; destruct (in_int64 _) eqn:? at 1; [|done]).
  rewrite !subtractMinorUnits_spec.
  do 2 (rewrite bind_checked; destruct (in_int64 _) eqn:? at 1; [|done]).
  destruct (eac_minor _ _ _) as [eac|e] eqn:He; simpl.
  - rewrite !subtractMinorUnits_spec, bind_checked.
    destruct (in_int64 (eac - _)); [|done]. rewrite bind_checked.
    assert (Hin : in_int64 eac = true) by (eapply eac_in_int64; [|exact He]; done).
    apply eac_sign in He.
    replace (in_int64 (total (bacTotal st) - eac)) with true; [done|]. symmetry.
    rewrite in_int64_spec in *. lia.
  - unfold eac_minor in He. destruct (_ && _); [|done].
    destruct (ScaleByRatioChecked _ _ _); [done|]. by injection He as <-.
Qed.

(** The tasks of a map, in key order. *)
Definition task_list (tasks : gmap string Task) : list Task := (map_to_list tasks).*2.

Definition sum_of (f : Task -> Amount) (tasks : gmap string Task) : Z :=
  sum_Z ((fun t => MinorUnits (f t)) <$> task_list tasks).

Lemma range_tasks_perm `{RangeOrder} site (tasks : gmap string Task) :
  (range site tasks).*2 ≡ₚ task_list tasks.
Proof. unfold task_list. by rewrite (range_perm site tasks). Qed.

Lemma evm_state_totals `{RangeOrder} tasks asOf :
  let st := foldl (evm_add asOf) evm_init (range 6 tasks).*2 in
  total (bacTotal st) = sum_of taskBudgetAmount tasks
  /\ total (pvTotal st) = sum_of (task_pv asOf) tasks
  /\ total (evTotal st) = sum_of task_ev tasks
  /\ total (acTotal st) = sum_of taskActualAmount tasks
  /\ rows st ≡ₚ task_row asOf <$> task_list tasks.
Proof.
  cbn zeta. pose proof (evm_add_fold asOf (range 6 tasks).*2 evm_init) as (-> & -> & -> & -> & ->).
  unfold sum_of. cbn [evm_init bacTotal pvTotal evTotal acTotal rows zero_Accumulator total app].
  pose proof (range_tasks_perm 6 tasks) as Hp.
  repeat split; try (rewrite Z.add_0_l; apply sum_Z_perm, fmap_Permutation, Hp).
  by apply fmap_Permutation.
Qed.

(** A successful ComputeEVM reports the exact sums of the tasks' budget,
    planned, earned and actual amounts; SV = EV - PV, CV = EV - AC,
    ETC = EAC - AC and VAC = BAC - EAC hold without rounding, EAC is
    BAC * AC / EV rounded once to the nearest minor unit (BAC itself when
    nothing is earned or spent), every figure fits int64, and there is one row
    per task. *)
Theorem ComputeEVM_identities `{RangeOrder} tasks asOf m :
  ComputeEVM tasks asOf = Ok m ->
  metrics_of_totals (sum_of taskBudgetAmount tasks) (sum_of (task_pv asOf) tasks)
    (sum_of task_ev tasks) (sum_of taskActualAmount tasks) m
  /\ Tasks m ≡ₚ task_row asOf <$> task_list tasks.
Proof.
  unfold ComputeEVM. intros Hm. apply evm_metrics_ok in Hm as (Hm & HT & _).
  destruct (evm_state_totals tasks asOf) as (Hb & Hp & He & Ha & Hr).
  rewrite Hb, Hp, He, Ha in Hm. split; [done|]. rewrite HT. unfold sort_rows.
  by rewrite sort_by_key_perm.
Qed.

(** The overflow guard on VAC is dead code, as its comment claims without a
    test: no task map, status day or iteration order makes ComputeEVM fail
    there. *)
Theorem ComputeEVM_VAC_never_overflows `{RangeOrder} tasks asOf :
  ComputeEVM tasks asOf <> Err (EVMOverflow "VAC").
Proof. apply evm_metrics_no_vac. Qed.

(** Runs that agree on the totals and, up to order, on the rows agree. *)
Lemma evm_metrics_ext asOf st1 st2 :
  total (bacTotal st1) = total (bacTotal st2) -> total (pvTotal st1) = total (pvTotal st2) ->
  total (evTotal st1) = total (evTotal st2) -> total (acTotal st1) = total (acTotal st2) ->
  sort_rows (rows st1) = sort_rows (rows st2) ->
  evm_metrics asOf st1 = evm_metrics asOf st2.
Proof.
  intros Hb Hp He Ha Hr. unfold evm_metrics. rewrite !accumulatedMinorUnits_spec.
  by rewrite Hb, Hp, He, Ha, Hr.
Qed.

Lemma task_rows_NoDup tasks asOf :
  well_keyed tasks -> NoDup (TaskID <$> (task_row asOf <$> task_list tasks)).
Proof.
  intros Hk. rewrite <- list_fmap_compose. unfold task_list. rewrite <- list_fmap_compose.
  rewrite (list_fmap_ext _ fst).
  - apply NoDup_fst_map_to_list.
  - intros i [k t] Hi. simpl. apply (Hk k t). apply elem_of_map_to_list.
    by eapply list_elem_of_lookup_2.
Qed.

(** The result of ComputeEVM, error included, does not depend on the order in
    which Go iterates over the task map. *)
Theorem ComputeEVM_deterministic (R1 R2 : RangeOrder) tasks asOf :
  well_keyed tasks -> @ComputeEVM R1 tasks asOf = @ComputeEVM R2 tasks asOf.
Proof.
  intros Hk. unfold ComputeEVM.
  destruct (@evm_state_totals R1 tasks asOf) as (Hb1 & Hp1 & He1 & Ha1 & Hr1).
  destruct (@evm_state_totals R2 tasks asOf) as (Hb2 & Hp2 & He2 & Ha2 & Hr2).
  apply evm_metrics_ext; [congruence..|]. apply sort_by_key_unique.
  - rewrite Hr1. by apply task_rows_NoDup.
  - by rewrite Hr1, Hr2.
Qed.

Definition evm_demo_task (id : string) (bac ac pct es dur : Z) : Task :=
  let t := new_task id 0 [] in
  mkTask id "" (f_of_Z dur) [] [] (Estimate t) "" "" fzero false false (f_of_Z pct) false "" ""
    fzero bac fzero ac [] false [] [] (f_of_Z es) (f_of_Z (es + dur)) fzero fzero fzero false "" "".

(** Two tasks on day 3: one half done, one not started. *)
Definition evm_demo : gmap string Task :=
  <["A" := evm_demo_task "A" 100000 30000 50 0 4]>
  (<["B" := evm_demo_task "B" 50000 0 0 4 5]> ∅).

Definition evm_demo_metrics : EVMetrics :=
  match ComputeEVM (H := key_order) evm_demo (f_of_Z 3) with
  | Ok m => m
  | Err _ => mkEVMetrics fzero fzero fzero fzero fzero 0 0 0 0 fzero fzero fzero fzero
               fzero fzero fzero 0 0 0 0 0 []
  end.

Lemma ComputeEVM_identities_witness :
  EACMinorUnits evm_demo_metrics = 90000 /\ nearest (150000 * 30000) 50000 90000
  /\ sum_of taskBudgetAmount evm_demo = 150000 /\ CVMinorUnits evm_demo_metrics = 20000.
Proof.
  pose proof (ComputeEVM_identities (H := key_order) evm_demo (f_of_Z 3) evm_demo_metrics) as H.
  assert (Hok : ComputeEVM (H := key_order) evm_demo (f_of_Z 3) = Ok evm_demo_metrics)
    by (vm_compute; reflexivity).
  destruct (H Hok) as [(Hb & Hp & He & Ha & _ & Hc & Hn & _) _].
  split; [vm_compute; reflexivity|]. split; [exact Hn|].
  split; [exact (eq_sym Hb)|exact Hc].
Defined.

Lemma ComputeEVM_deterministic_witness :
  well_keyed evm_demo
  /\ ComputeEVM (H := key_order) evm_demo (f_of_Z 3)
     = ComputeEVM (H := reverse_order) evm_demo (f_of_Z 3).
Proof.
  assert (Hk : well_keyed evm_demo) by by_decide.
  split; [exact Hk|]. exact (ComputeEVM_deterministic key_order reverse_order evm_demo (f_of_Z 3) Hk).
Defined.

(** ** Baseline comparison *)

Lemma compare_fold_lookup baseline l : forall out id,
  NoDup l.*1 ->
  foldl (compare_step baseline) out l !! id
  = match list_find (fun e => e.1 = id) l with
    | Some (_, (_, cur)) =>
        match baseline !! id with
        | Some base => Some (mkVariance id (StartDate base) (FinishDate base)
                               (ES cur ⊖ ES base) (EF cur ⊖ EF base))
        | None => out !! id
        end
    | None => out !! id
    end.
Proof.
  induction l as [|[k t] l IH]; intros out id Hnd; [done|].
  apply NoDup_cons in Hnd as [Hk Hnd]. cbn [foldl list_find fst]. rewrite IH by done.
  destruct (decide (k = id)) as [->|Hne].
  - assert (Hn : list_find (fun e : string * Task => e.1 = id) l = None).
    { apply list_find_None, Forall_forall. intros [k' t'] Hin Heq. simpl in Heq. subst k'.
      apply Hk. apply list_elem_of_fmap. by exists (id, t'). }
    rewrite Hn. unfold compare_step. destruct (baseline !! id); [|done].
    by rewrite lookup_insert_eq.
  - assert (Hs : compare_step baseline out (k, t) !! id = out !! id).
    { unfold compare_step. destruct (baseline !! k); [|done]. by rewrite lookup_insert_ne. }
    rewrite Hs. by destruct (list_find _ l) as [[i [k' t']]|].
Qed.

(** CompareSchedules reports a task exactly when both schedules hold it, with
    the baseline dates and the differences of its early dates, in whatever order
    the current schedule is iterated. *)
Theorem CompareSchedules_lookup `{RangeOrder} current baseline id :
  CompareSchedules current baseline !! id
  = match current !! id, baseline !! id with
    | Some cur, Some base =>
        Some (mkVariance id (StartDate base) (FinishDate base)
                (ES cur ⊖ ES base) (EF cur ⊖ EF base))
    | _, _ => None
    end.
Proof.
  unfold CompareSchedules. rewrite compare_fold_lookup by auto with gopm.
  destruct (list_find _ (range 7 current)) as [[i [k cur]]|] eqn:E.
  - apply list_find_Some in E as (Hi & Hk & _). simpl in Hk. subst k.
    apply list_elem_of_lookup_2, elem_of_range in Hi. rewrite Hi. by destruct (baseline !! id).
  - apply list_find_None in E. rewrite Forall_forall in E.
    destruct (current !! id) as [cur|] eqn:Ec; [|by rewrite lookup_empty].
    apply (elem_of_range 7) in Ec. by apply E in Ec.
Qed.
