(* ===== verification/Budget.v ===== *)
(** * budget/budget.go: the cost rollup

    [Compute] over the project's budget, its stakeholders and its work items.
    Of [db.Project], [db.Stakeholder] and [agile.WorkItem] the records carry
    the fields the rollup reads. *)

From S2P Require Import Prelude GoFloat GoStrings Money.

Local Open Scope Z_scope.

(** ** Inputs and result *)

Record Project : Type := mkProject {
  p_Budget : f64;
  p_BudgetMinorUnits : Z
}.

Record Stakeholder : Type := mkStakeholder {
  s_Name : string;
  s_Category : string;
  HourlyRate : f64;
  HourlyRateMinorUnits : Z;
  s_ContractValue : f64;
  s_ContractValueMinorUnits : Z
}.

Record WorkItem : Type := mkWorkItem {
  Assignee : string;
  Points : f64
}.

Record Summary : Type := mkSummary {
  Budget : f64;
  ContractValue : f64;
  LabourEstimate : f64;
  Committed : f64;
  Remaining : f64;
  BudgetMinorUnits : Z;
  ContractValueMinorUnits : Z;
  LabourEstimateMinorUnits : Z;
  CommittedMinorUnits : Z;
  RemainingMinorUnits : Z;
  ByCategoryMinorUnits : gmap string Z;
  ByCategory : gmap string f64
}.

(** An error names the figure that left int64. *)
Inductive BudgetError : Type :=
| TotalOverflow (label : string)
| CategoryOverflow (category : string).

(** ** Helpers *)

Definition lower_byte (c : ascii) : ascii :=
  let b := byte_val c in
  if (65 <=? b) && (b <=? 90) then byte_of (b + (97 - 65)) else c.

Definition lower (s : string) : string := string_of (lower_byte <$> bytes_of s).

Definition amountFromProject (p : Project) : Amount :=
  if negb (p_BudgetMinorUnits p =? 0) || (p_Budget p ==. fzero)
  then mkAmount (p_BudgetMinorUnits p) else FromMajorFloat (p_Budget p).

Definition amountFromHourlyRate (s : Stakeholder) : Amount :=
  if negb (HourlyRateMinorUnits s =? 0) || (HourlyRate s ==. fzero)
  then mkAmount (HourlyRateMinorUnits s) else FromMajorFloat (HourlyRate s).

Definition amountFromContractValue (s : Stakeholder) : Amount :=
  if negb (s_ContractValueMinorUnits s =? 0) || (s_ContractValue s ==. fzero)
  then mkAmount (s_ContractValueMinorUnits s) else FromMajorFloat (s_ContractValue s).

Definition addCategory (totals : gmap string Accumulator) (cat : string) (amount : Amount)
    : gmap string Accumulator :=
  <[cat := Accumulator_Add (default zero_Accumulator (totals !! cat)) amount]> totals.

Definition accumulatedAmount (e : BudgetError) (total : Accumulator) : result BudgetError Amount :=
  match Accumulator_Amount total with
  | Ok a => Ok a
  | Err _ => Err e
  end.

(** ** The loops *)

Record rollup : Type := mkRollup {
  contracts : Accumulator;
  labour : Accumulator;
  byCategory : gmap string Accumulator
}.

Definition empty_rollup : rollup := mkRollup zero_Accumulator zero_Accumulator ∅.

(** Vendor contracts. *)
Definition add_contract (r : rollup) (s : Stakeholder) : rollup :=
  let contract := amountFromContractValue s in
  if Positive contract
  then mkRollup (Accumulator_Add (contracts r) contract) (labour r)
         (addCategory (byCategory r) (s_Category s) contract)
  else r.

(** The rate and category indexes, filled together. *)
Definition index_rate (m : gmap string Amount * gmap string string) (s : Stakeholder)
    : gmap string Amount * gmap string string :=
  let rate := amountFromHourlyRate s in
  if Positive rate
  then (<[lower (s_Name s) := rate]> m.1, <[lower (s_Name s) := s_Category s]> m.2)
  else m.

(** Labour of one work item. *)
Definition add_labour (rateByName : gmap string Amount) (catByName : gmap string string)
    (r : rollup) (wi : WorkItem) : rollup :=
  if String.eqb (Assignee wi) EmptyString || (Points wi <=. fzero) then r
  else match rateByName !! lower (Assignee wi) with
       | None => r
       | Some rate =>
           let cost := RateTimesQuantity rate (Points wi) in
           let cat := default EmptyString (catByName !! lower (Assignee wi)) in
           mkRollup (contracts r) (Accumulator_Add (labour r) cost)
             (if String.eqb cat EmptyString then byCategory r
              else addCategory (byCategory r) cat cost)
       end.

Definition compute_rollup (stakeholders : list Stakeholder) (workItems : list WorkItem) : rollup :=
  let r := foldl add_contract empty_rollup stakeholders in
  let '(rateByName, catByName) := foldl index_rate (∅, ∅) stakeholders in
  foldl (add_labour rateByName catByName) r workItems.

(** The loop that fills the category maps of the summary; its first error
    aborts the call. *)
Fixpoint fill_categories (l : list (string * Accumulator)) (minor : gmap string Z)
    (float : gmap string f64) : result BudgetError (gmap string Z * gmap string f64) :=
  match l with
  | [] => Ok (minor, float)
  | (cat, total) :: l' =>
      amount <-! accumulatedAmount (CategoryOverflow cat) total ;;
      fill_categories l' (<[cat := MinorUnits amount]> minor) (<[cat := MajorFloat amount]> float)
  end.

(** The wrapped error of [Add] and [Sub]. *)
Definition checked (label : string) (r : result MoneyError Amount) : result BudgetError Amount :=
  match r with
  | Ok a => Ok a
  | Err _ => Err (TotalOverflow label)
  end.

(** Range site 8. *)
Definition Compute `{RangeOrder} (project : Project) (stakeholders : list Stakeholder)
    (workItems : list WorkItem) : result BudgetError Summary :=
  let budget := amountFromProject project in
  let r := compute_rollup stakeholders workItems in
  contractValue <-! accumulatedAmount (TotalOverflow "contract value") (contracts r) ;;
  labourEstimate <-! accumulatedAmount (TotalOverflow "labour estimate") (labour r) ;;
  committed <-! checked "committed cost" (Amount_Add contractValue labourEstimate) ;;
  remaining <-! checked "budget remaining" (Amount_Sub budget committed) ;;
  cats <-! fill_categories (range 8 (byCategory r)) ∅ ∅ ;;
  Ok (mkSummary (MajorFloat budget) (MajorFloat contractValue) (MajorFloat labourEstimate)
        (MajorFloat committed) (MajorFloat remaining)
        (MinorUnits budget) (MinorUnits contractValue) (MinorUnits labourEstimate)
        (MinorUnits committed) (MinorUnits remaining) cats.1 cats.2).

(** ** Sums over the category map *)

Definition sum_categories (m : gmap string Z) : Z := map_fold (fun _ z acc => z + acc) 0 m.

Definition totals (m : gmap string Accumulator) : gmap string Z := total <$> m.

Lemma sum_categories_insert m c z :
  m !! c = None -> sum_categories (<[c := z]> m) = z + sum_categories m.
Proof. intros Hc. unfold sum_categories. apply map_fold_insert_L; [intros; lia|done]. Qed.

Lemma sum_categories_lookup m c z :
  m !! c = Some z -> sum_categories m = z + sum_categories (delete c m).
Proof.
  intros Hc. rewrite <- (insert_delete_id m c z Hc) at 1.
  apply sum_categories_insert, lookup_delete_eq.
Qed.

Lemma sum_categories_nonneg m : map_Forall (fun _ z => 0 <= z) m -> 0 <= sum_categories m.
Proof.
  induction m as [|c z m Hc IH] using map_ind; intros Hm; [done|].
  rewrite sum_categories_insert by done. apply map_Forall_insert in Hm as [Hz Hm]; [|done].
  specialize (IH Hm). lia.
Qed.

Lemma sum_categories_bound m c z :
  map_Forall (fun _ z => 0 <= z) m -> m !! c = Some z -> z <= sum_categories m.
Proof.
  intros Hm Hc. rewrite (sum_categories_lookup m c z Hc).
  pose proof (sum_categories_nonneg (delete c m) (map_Forall_delete _ _ _ Hm)). lia.
Qed.

Lemma addCategory_totals m c a :
  totals (addCategory m c a)
  = <[c := default 0 (totals m !! c) + MinorUnits a]> (totals m).
Proof.
  unfold totals, addCategory. rewrite fmap_insert, lookup_fmap. by destruct (m !! c).
Qed.

Lemma addCategory_sum m c a :
  sum_categories (totals (addCategory m c a)) = sum_categories (totals m) + MinorUnits a.
Proof.
  rewrite addCategory_totals. destruct (totals m !! c) as [z|] eqn:Hc; simpl.
  - rewrite (sum_categories_lookup _ c z Hc). rewrite <- insert_delete_eq.
    rewrite sum_categories_insert by apply lookup_delete_eq. lia.
  - rewrite sum_categories_insert by done. lia.
Qed.

Lemma addCategory_nonneg m c a :
  0 <= MinorUnits a -> map_Forall (fun _ z => 0 <= z) (totals m) ->
  map_Forall (fun _ z => 0 <= z) (totals (addCategory m c a)).
Proof.
  intros Ha Hm. rewrite addCategory_totals. apply map_Forall_insert_2; [|done].
  destruct (totals m !! c) as [z|] eqn:Hc; simpl; [|lia]. specialize (Hm c z Hc). simpl in Hm. lia.
Qed.

(** ** What the loops compute *)

(** The contract a stakeholder contributes. *)
Definition contract_cost (s : Stakeholder) : Z := Z.max 0 (MinorUnits (amountFromContractValue s)).

Definition rates (ss : list Stakeholder) : gmap string Amount := (foldl index_rate (∅, ∅) ss).1.
Definition categories (ss : list Stakeholder) : gmap string string := (foldl index_rate (∅, ∅) ss).2.

Definition item_counts (wi : WorkItem) : bool :=
  negb (String.eqb (Assignee wi) EmptyString || (Points wi <=. fzero)).

(** Rate of the assignee times points, 0 for an item that is not costed. *)
Definition item_cost (ss : list Stakeholder) (wi : WorkItem) : Z :=
  if item_counts wi then
    match rates ss !! lower (Assignee wi) with
    | Some rate => MinorUnits (RateTimesQuantity rate (Points wi))
    | None => 0
    end
  else 0.

(** The part of it no category takes. *)
Definition uncategorised_cost (ss : list Stakeholder) (wi : WorkItem) : Z :=
  if String.eqb (default EmptyString (categories ss !! lower (Assignee wi))) EmptyString
  then item_cost ss wi else 0.

Definition rollup_inv (r : rollup) (c l u : Z) : Prop :=
  total (contracts r) = c /\ total (labour r) = l
  /\ map_Forall (fun _ z => 0 <= z) (totals (byCategory r))
  /\ sum_categories (totals (byCategory r)) = c + l - u.

Lemma contracts_loop ss : forall r c l u,
  rollup_inv r c l u ->
  rollup_inv (foldl add_contract r ss) (c + sum_Z (contract_cost <$> ss)) l u.
Proof.
  induction ss as [|s ss IH]; intros r c l u Hr.
  - by rewrite Z.add_0_r.
  - cbn [foldl fmap list_fmap]. change (sum_Z (contract_cost s :: ?l)) with (contract_cost s + sum_Z l).
    rewrite Z.add_assoc. apply IH. destruct Hr as (Hc & Hl & Hm & Hs).
    unfold add_contract, contract_cost, Positive.
    destruct (Z.ltb_spec 0 (MinorUnits (amountFromContractValue s))).
    + split_and!; simpl; [lia|done|apply addCategory_nonneg; [lia|done]|].
      rewrite addCategory_sum. lia.
    + split_and!; [lia|done..|lia].
Qed.

Lemma rates_positive ss : map_Forall (fun _ a => 0 < MinorUnits a) (rates ss).
Proof.
  unfold rates.
  assert (H : forall m, map_Forall (fun _ a => 0 < MinorUnits a) m.1 ->
    map_Forall (fun _ a => 0 < MinorUnits a) (foldl index_rate m ss).1); [|by apply H].
  induction ss as [|s ss IH]; intros m Hm; [done|]. apply IH. unfold index_rate, Positive.
  destruct (Z.ltb_spec 0 (MinorUnits (amountFromHourlyRate s))); [|done].
  by apply map_Forall_insert_2.
Qed.

Lemma item_cost_nonneg ss wi : 0 <= item_cost ss wi.
Proof.
  unfold item_cost. destruct (item_counts wi); [|done].
  destruct (rates ss !! _) as [rate|] eqn:Hr; [|done].
  apply rate_nonneg. apply rates_positive in Hr. lia.
Qed.

Lemma add_labour_inv ss r wi c l u :
  rollup_inv r c l u ->
  rollup_inv (add_labour (rates ss) (categories ss) r wi) c (l + item_cost ss wi)
    (u + uncategorised_cost ss wi).
Proof.
  intros (Hc & Hl & Hm & Hs). pose proof (item_cost_nonneg ss wi) as Hn.
  unfold add_labour, uncategorised_cost. unfold item_cost, item_counts in *.
  destruct (String.eqb (Assignee wi) EmptyString || (Points wi <=. fzero)); simpl in *.
  - destruct (String.eqb _ _); split_and!; try done; lia.
  - destruct (rates ss !! lower (Assignee wi)) as [rate|]; simpl.
    + destruct (String.eqb _ _); split_and!; simpl; try done; try lia.
      * by apply addCategory_nonneg.
      * rewrite addCategory_sum. lia.
    + destruct (String.eqb _ _); split_and!; try done; lia.
Qed.

Lemma labour_loop ss wis : forall r c l u,
  rollup_inv r c l u ->
  rollup_inv (foldl (add_labour (rates ss) (categories ss)) r wis) c
    (l + sum_Z (item_cost ss <$> wis)) (u + sum_Z (uncategorised_cost ss <$> wis)).
Proof.
  induction wis as [|wi wis IH]; intros r c l u Hr.
  - by rewrite !Z.add_0_r.
  - rewrite !fmap_cons. change (sum_Z (?x :: ?l)) with (x + sum_Z l).
    rewrite !Z.add_assoc. apply IH. by apply add_labour_inv.
Qed.

Lemma compute_rollup_inv ss wis :
  rollup_inv (compute_rollup ss wis) (sum_Z (contract_cost <$> ss)) (sum_Z (item_cost ss <$> wis))
    (sum_Z (uncategorised_cost ss <$> wis)).
Proof.
  assert (H0 : rollup_inv empty_rollup 0 0 0) by done.
  apply (contracts_loop ss), (labour_loop ss wis) in H0. rewrite !Z.add_0_l in H0.
  unfold compute_rollup. unfold rates, categories in H0.
  by destruct (foldl index_rate (∅, ∅) ss).
Qed.

Lemma uncategorised_bound ss wis :
  0 <= sum_Z (uncategorised_cost ss <$> wis) <= sum_Z (item_cost ss <$> wis).
Proof.
  induction wis as [|wi wis IH]; [done|]. rewrite !fmap_cons.
  change (sum_Z (?x :: ?l)) with (x + sum_Z l).
  pose proof (item_cost_nonneg ss wi). unfold uncategorised_cost at 1 3. case_match; lia.
Qed.

(** ** The category maps *)

Lemma fill_categories_ok l : forall minor float,
  NoDup l.*1 -> Forall (fun e => in_int64 (total e.2) = true) l ->
  fill_categories l minor float
  = Ok (list_to_map (prod_map id total <$> l) ∪ minor,
        list_to_map (prod_map id (fun a => MajorFloat (mkAmount (total a))) <$> l) ∪ float).
Proof.
  induction l as [|[c a] l IH]; intros minor float Hnd Hl; simpl.
  - by rewrite !(left_id_L ∅ (∪)).
  - apply Forall_cons in Hl as [Ha Hl]. apply NoDup_cons in Hnd as [Hc Hnd].
    unfold accumulatedAmount, Accumulator_Amount, amountFromBigInt. simpl in Ha. rewrite Ha. simpl.
    rewrite IH by done.
    assert (Hn : forall B (f : Accumulator -> B), (list_to_map (prod_map id f <$> l) : gmap string B) !! c = None)
      by (intros B f; apply not_elem_of_list_to_map_1; rewrite <- list_fmap_compose; exact Hc).
    by rewrite <- !insert_union_r, !insert_union_l by apply Hn.
Qed.

Lemma range_figures `{RangeOrder} {B} (f : Accumulator -> B) (m : gmap string Accumulator) :
  list_to_map (prod_map id f <$> range 8 m) = f <$> m.
Proof.
  rewrite list_to_map_fmap. f_equal.
  rewrite <- (list_to_map_to_list m) at 2. apply list_to_map_proper; [auto with gopm|apply range_perm].
Qed.

(** ** The outcome of a run *)

(** The first figure that leaves int64, in the order the code checks them. *)
Definition first_overflow (contract labour budget : Z) : option BudgetError :=
  if negb (in_int64 contract) then Some (TotalOverflow "contract value")
  else if negb (in_int64 labour) then Some (TotalOverflow "labour estimate")
  else if negb (in_int64 (contract + labour)) then Some (TotalOverflow "committed cost")
  else if negb (in_int64 (budget - (contract + labour))) then Some (TotalOverflow "budget remaining")
  else None.

Lemma checked_add label c l :
  checked label (Amount_Add (mkAmount c) (mkAmount l))
  = if in_int64 (c + l) then Ok (mkAmount (c + l)) else Err (TotalOverflow label).
Proof.
  unfold Amount_Add, Accumulator_Amount, amountFromBigInt. simpl. by destruct (in_int64 _).
Qed.

Lemma checked_sub label c l :
  checked label (Amount_Sub c (mkAmount l))
  = if in_int64 (MinorUnits c - l) then Ok (mkAmount (MinorUnits c - l))
    else Err (TotalOverflow label).
Proof.
  unfold Amount_Sub, Accumulator_Amount, amountFromBigInt. simpl. by destruct (in_int64 _).
Qed.

Lemma accumulatedAmount_spec e acc :
  accumulatedAmount e acc = if in_int64 (total acc) then Ok (mkAmount (total acc)) else Err e.
Proof. unfold accumulatedAmount, Accumulator_Amount, amountFromBigInt. by destruct (in_int64 _). Qed.

(** Once the committed cost fits, every category fits. *)
Lemma categories_fit `{RangeOrder} r c l u :
  rollup_inv r c l u -> 0 <= u -> in_int64 (c + l) = true ->
  Forall (fun e => in_int64 (total e.2) = true) (range 8 (byCategory r)).
Proof.
  intros (_ & _ & Hm & Hs) Hu Hin. apply Forall_forall. intros [k a] Hk.
  apply elem_of_range in Hk. simpl.
  assert (Ht : totals (byCategory r) !! k = Some (total a))
    by (unfold totals; by rewrite lookup_fmap, Hk).
  pose proof (Hm k _ Ht) as Hn. pose proof (sum_categories_bound _ k _ Hm Ht).
  simpl in Hn. rewrite in_int64_spec in *. lia.
Qed.

Lemma Compute_outcome `{RangeOrder} p ss wis :
  let c := sum_Z (contract_cost <$> ss) in
  let l := sum_Z (item_cost ss <$> wis) in
  let b := amountFromProject p in
  Compute p ss wis
  = match first_overflow c l (MinorUnits b) with
    | Some e => Err e
    | None =>
        Ok (mkSummary (MajorFloat b) (MajorFloat (mkAmount c)) (MajorFloat (mkAmount l))
              (MajorFloat (mkAmount (c + l))) (MajorFloat (mkAmount (MinorUnits b - (c + l))))
              (MinorUnits b) c l (c + l) (MinorUnits b - (c + l))
              (totals (byCategory (compute_rollup ss wis)))
              ((fun z => MajorFloat (mkAmount z)) <$> totals (byCategory (compute_rollup ss wis))))
    end.
Proof.
  cbn zeta. pose proof (compute_rollup_inv ss wis) as Hr. pose proof (uncategorised_bound ss wis) as Hu.
  unfold Compute, first_overflow. rewrite !accumulatedAmount_spec.
  pose proof Hr as (-> & -> & _ & _).
  set (c := sum_Z (contract_cost <$> ss)) in *. set (l := sum_Z (item_cost ss <$> wis)) in *.
  destruct (in_int64 c); [|done]. simpl. destruct (in_int64 l); [|done]. simpl.
  rewrite checked_add. destruct (in_int64 (c + l)) eqn:Hcl; [|done]. simpl.
  rewrite checked_sub. destruct (in_int64 (_ - _)); [|done]. simpl.
  rewrite fill_categories_ok; [|auto with gopm|by eapply categories_fit; [exact Hr|lia|]].
  simpl. rewrite !range_figures, !(right_id_L ∅ (∪)). unfold totals. by rewrite <- map_fmap_compose.
Qed.

(** The last stakeholder with a positive rate whose name folds to the key. *)
Fixpoint last_rated (key : string) (ss : list Stakeholder) : option Stakeholder :=
  match ss with
  | [] => None
  | s :: ss' =>
      match last_rated key ss' with
      | Some s' => Some s'
      | None => if Positive (amountFromHourlyRate s) && String.eqb (lower (s_Name s)) key
                then Some s else None
      end
  end.

Lemma index_rate_lookup ss key : forall m,
  let m' := foldl index_rate m ss in
  m'.1 !! key = match last_rated key ss with
                | Some s => Some (amountFromHourlyRate s) | None => m.1 !! key end
  /\ m'.2 !! key = match last_rated key ss with
                   | Some s => Some (s_Category s) | None => m.2 !! key end.
Proof.
  induction ss as [|s ss IH]; intros m; [done|]. cbn [foldl last_rated].
  destruct (IH (index_rate m s)) as [-> ->].
  destruct (last_rated key ss); [done|]. unfold index_rate.
  destruct (Positive _); [|done]. simpl.
  destruct (String.eqb_spec (lower (s_Name s)) key) as [->|Hne].
  - by rewrite !lookup_insert_eq.
  - by rewrite !lookup_insert_ne.
Qed.

(** ** What is committed, and under which category *)

(** An amount in minor units; a record that has none gives it in major units. *)
Definition given (minor : Z) (major : f64) : Z :=
  if (minor =? 0) && negb (major ==. fzero) then MinorUnits (FromMajorFloat major) else minor.

Definition rate_of (s : Stakeholder) : Z := given (HourlyRateMinorUnits s) (HourlyRate s).

(** A positive contract, under the category of the stakeholder. *)
Definition contract_of (s : Stakeholder) : option (string * Z) :=
  let z := given (s_ContractValueMinorUnits s) (s_ContractValue s) in
  if 0 <? z then Some (s_Category s, z) else None.

(** The last of the stakeholders with a positive rate who has the name of the
    assignee, ASCII letters in either case. *)
Definition assigned (ss : list Stakeholder) (wi : WorkItem) : option Stakeholder :=
  last (filter (fun s => 0 < rate_of s /\ sqlite_lower (s_Name s) = sqlite_lower (Assignee wi)) ss).

(** The labour of an item with an assignee and positive points, under the category
    of the stakeholder it is assigned to. *)
Definition labour_of (ss : list Stakeholder) (wi : WorkItem) : option (string * Z) :=
  if String.eqb (Assignee wi) "" || (Points wi <=. fzero) then None
  else (fun s => (s_Category s, MinorUnits (RateTimesQuantity (mkAmount (rate_of s)) (Points wi)))) <$> assigned ss wi.

Lemma amounts_given s p :
  amountFromHourlyRate s = mkAmount (rate_of s)
  /\ amountFromContractValue s = mkAmount (given (s_ContractValueMinorUnits s) (s_ContractValue s))
  /\ amountFromProject p = mkAmount (given (p_BudgetMinorUnits p) (p_Budget p)).
Proof.
  unfold amountFromHourlyRate, amountFromContractValue, amountFromProject, rate_of, given.
  split_and!; destruct (_ =? 0), (_ ==. fzero); cbn [negb andb orb]; try done; by destruct (FromMajorFloat _).
Qed.

Lemma lower_fold s t : lower s = lower t <-> sqlite_lower s = sqlite_lower t.
Proof. done. Qed.

Lemma last_rated_assigned ss wi : last_rated (lower (Assignee wi)) ss = assigned ss wi.
Proof.
  unfold assigned. induction ss as [|s ss IH]; [done|]. cbn [last_rated]. rewrite IH, filter_cons.
  rewrite (proj1 (amounts_given s (mkProject fzero 0))). unfold Positive. cbn [MinorUnits].
  destruct (decide (0 < rate_of s /\ sqlite_lower (s_Name s) = sqlite_lower (Assignee wi))) as [[H1 H2]|Hn].
  - rewrite last_cons. rewrite (proj2 (Z.ltb_lt _ _) H1). apply lower_fold in H2. rewrite H2, String.eqb_refl. done.
  - destruct (last (filter _ ss)); [done|]. destruct (Z.ltb_spec 0 (rate_of s)); [|done].
    destruct (String.eqb_spec (lower (s_Name s)) (lower (Assignee wi))) as [E|]; [|done].
    destruct Hn. split; [done|by apply lower_fold].
Qed.

(** Parts under their keys, one after the other. *)
Definition file_parts (m : gmap string Z) (l : list (string * Z)) : gmap string Z :=
  foldl (fun m kv => <[kv.1 := default 0 (m !! kv.1) + kv.2]> m) m l.

Lemma file_parts_lookup l k : forall m,
  file_parts m l !! k = match filter (fun kv => kv.1 = k) l with
                        | [] => m !! k
                        | ps => Some (default 0 (m !! k) + sum_Z (snd <$> ps))
                        end.
Proof.
  induction l as [|[k' z] l IH]; intros m; [done|]. cbn [file_parts foldl fst snd]. fold (file_parts (<[k' := default 0 (m !! k') + z]> m) l).
  rewrite IH, filter_cons. cbn [fst]. destruct (decide (k' = k)) as [->|Hne].
  - rewrite lookup_insert_eq, fmap_cons, sum_Z_cons. cbn [snd default from_option].
    destruct (filter _ l); [cbn; f_equal; lia|f_equal; cbn; lia].
  - by rewrite lookup_insert_ne.
Qed.

Lemma contracts_filed ss : forall r,
  totals (byCategory (foldl add_contract r ss)) = file_parts (totals (byCategory r)) (omap contract_of ss).
Proof.
  induction ss as [|s ss IH]; intros r; [done|]. cbn [foldl omap list_omap]. rewrite IH. unfold add_contract, contract_of, Positive.
  rewrite (proj1 (proj2 (amounts_given s (mkProject fzero 0)))). cbn [MinorUnits].
  destruct (0 <? given _ _); [|done]. cbn [byCategory]. by rewrite addCategory_totals.
Qed.

Lemma rate_lookup ss wi : rates ss !! lower (Assignee wi) = (fun s => mkAmount (rate_of s)) <$> assigned ss wi
  /\ categories ss !! lower (Assignee wi) = s_Category <$> assigned ss wi.
Proof.
  unfold rates, categories. destruct (index_rate_lookup ss (lower (Assignee wi)) (∅, ∅)) as [-> ->].
  rewrite last_rated_assigned. destruct (assigned ss wi) as [s|]; [|done].
  by rewrite (proj1 (amounts_given s (mkProject fzero 0))).
Qed.

Lemma labour_filed ss wis : forall r,
  totals (byCategory (foldl (add_labour (rates ss) (categories ss)) r wis))
  = file_parts (totals (byCategory r)) (filter (fun kv => kv.1 <> ""%string) (omap (labour_of ss) wis)).
Proof.
  induction wis as [|wi wis IH]; intros r; [done|]. cbn [foldl omap list_omap]. rewrite IH. unfold add_labour, labour_of.
  destruct (rate_lookup ss wi) as [-> ->]. destruct (String.eqb (Assignee wi) "" || _); [done|].
  destruct (assigned ss wi) as [s|]; [|done]. cbn [fmap option_fmap option_map default from_option id byCategory].
  rewrite filter_cons. cbn [fst]. destruct (String.eqb_spec (s_Category s) "") as [E|E].
  - by rewrite decide_False by (intros []; done).
  - rewrite decide_True by done. by rewrite addCategory_totals.
Qed.

Lemma rollup_filed ss wis : totals (byCategory (compute_rollup ss wis))
  = file_parts ∅ (omap contract_of ss ++ filter (fun kv => kv.1 <> ""%string) (omap (labour_of ss) wis)).
Proof.
  pose proof (labour_filed ss wis (foldl add_contract empty_rollup ss)) as H. rewrite contracts_filed in H.
  unfold compute_rollup. unfold rates, categories in H. destruct (foldl index_rate (∅, ∅) ss). cbn [fst snd] in H.
  rewrite H. unfold file_parts. by rewrite foldl_app.
Qed.

Lemma sum_contracts ss : sum_Z (contract_cost <$> ss) = sum_Z (snd <$> omap contract_of ss).
Proof.
  induction ss as [|s ss IH]; [done|]. rewrite fmap_cons, sum_Z_cons, IH. cbn [omap list_omap]. unfold contract_cost, contract_of.
  rewrite (proj1 (proj2 (amounts_given s (mkProject fzero 0)))). cbn [MinorUnits].
  destruct (Z.ltb_spec 0 (given (s_ContractValueMinorUnits s) (s_ContractValue s))).
  - rewrite fmap_cons, sum_Z_cons. cbn [snd]. lia.
  - lia.
Qed.

Lemma item_cost_of ss wi : item_cost ss wi = default 0 (snd <$> labour_of ss wi).
Proof.
  unfold item_cost, item_counts, labour_of. destruct (rate_lookup ss wi) as [-> _].
  destruct (String.eqb (Assignee wi) "" || _); [done|]. by destruct (assigned ss wi).
Qed.

Lemma sum_labour ss wis : sum_Z (item_cost ss <$> wis) = sum_Z (snd <$> omap (labour_of ss) wis).
Proof.
  induction wis as [|wi wis IH]; [done|]. rewrite fmap_cons, sum_Z_cons, IH, item_cost_of. cbn [omap list_omap].
  destruct (labour_of ss wi) as [[k z]|]; [|done]. by rewrite fmap_cons, sum_Z_cons.
Qed.

(** C39. A successful rollup reports exact figures.  Contracts are the positive
    contract values; labour, item by item, the points times the rate of the last
    stakeholder with a rate who has the name of the assignee; committed is their sum,
    and remaining the budget less committed, negative when over.  A category has the
    contracts of its stakeholders and the labour of the items assigned to them, and is
    in the breakdown when there is one; labour of people without a category is in
    none.  The floats are the same figures in major units. *)
Theorem Compute_figures `{RangeOrder} p ss wis sum :
  Compute p ss wis = Ok sum ->
  let contracts := omap contract_of ss in
  let labour := omap (labour_of ss) wis in
  ContractValueMinorUnits sum = sum_Z (snd <$> contracts)
  /\ LabourEstimateMinorUnits sum = sum_Z (snd <$> labour)
  /\ CommittedMinorUnits sum = ContractValueMinorUnits sum + LabourEstimateMinorUnits sum
  /\ BudgetMinorUnits sum = given (p_BudgetMinorUnits p) (p_Budget p)
  /\ RemainingMinorUnits sum = BudgetMinorUnits sum - CommittedMinorUnits sum
  /\ (forall k, ByCategoryMinorUnits sum !! k
        = match filter (fun part => part.1 = k) (contracts ++ filter (fun part => part.1 <> ""%string) labour) with
          | [] => None
          | parts => Some (sum_Z (snd <$> parts))
          end)
  /\ map_Forall (fun _ z => 0 <= z <= CommittedMinorUnits sum) (ByCategoryMinorUnits sum)
  /\ (let major z := MajorFloat (mkAmount z) in
      Budget sum = major (BudgetMinorUnits sum) /\ ContractValue sum = major (ContractValueMinorUnits sum)
      /\ LabourEstimate sum = major (LabourEstimateMinorUnits sum) /\ Committed sum = major (CommittedMinorUnits sum)
      /\ Remaining sum = major (RemainingMinorUnits sum) /\ ByCategory sum = major <$> ByCategoryMinorUnits sum).
Proof.
  intros Hs contracts labour. pose proof (Compute_outcome p ss wis) as Ho. cbv zeta in Ho. rewrite Hs in Ho.
  rewrite (proj2 (proj2 (amounts_given (mkStakeholder "" "" fzero 0 fzero 0) p))) in Ho.
  destruct (first_overflow _ _ _); [done|]. injection Ho as ->. subst contracts labour.
  rewrite <- sum_contracts, <- sum_labour.
  destruct (compute_rollup_inv ss wis) as (_ & _ & Hm & Hsum).
  pose proof (uncategorised_bound ss wis). cbn [ContractValueMinorUnits LabourEstimateMinorUnits CommittedMinorUnits
    BudgetMinorUnits RemainingMinorUnits ByCategoryMinorUnits Budget ContractValue LabourEstimate Committed Remaining
    ByCategory MinorUnits].
  split_and!; try done.
  - intros k. rewrite rollup_filed, file_parts_lookup, lookup_empty. by destruct (filter _ _).
  - intros k z Hk. split; [by apply (Hm k)|]. pose proof (sum_categories_bound _ k z Hm Hk). lia.
Qed.

(** The rollup fails exactly when one of its four figures leaves int64, with
    the first of them in the order of the checks; the guard on a category's total
    never fires, as its comment claims without a test. *)
Theorem Compute_errors `{RangeOrder} p ss wis :
  let failure := first_overflow (sum_Z (contract_cost <$> ss)) (sum_Z (item_cost ss <$> wis))
                   (MinorUnits (amountFromProject p)) in
  (forall e, Compute p ss wis = Err e <-> failure = Some e)
  /\ (forall cat, Compute p ss wis <> Err (CategoryOverflow cat)).
Proof.
  cbn zeta. rewrite Compute_outcome.
  destruct (first_overflow _ _ _) as [e'|] eqn:E; split.
  - intros e. split; congruence.
  - intros cat [= ->]. unfold first_overflow in E. repeat case_match; done.
  - intros e. split; congruence.
  - done.
Qed.

(** A work item is costed at the rate of the last stakeholder with a positive
    rate whose name equals its assignee up to ASCII case, and at nothing when it
    has no assignee, no positive points or no such stakeholder. *)
Theorem item_cost_rate ss wi :
  item_cost ss wi
  = if item_counts wi then
      match last_rated (lower (Assignee wi)) ss with
      | Some s => MinorUnits (RateTimesQuantity (amountFromHourlyRate s) (Points wi))
      | None => 0
      end
    else 0.
Proof.
  unfold item_cost, rates. destruct (item_counts wi); [|done].
  destruct (index_rate_lookup ss (lower (Assignee wi)) (∅, ∅)) as [-> _].
  by destruct (last_rated _ ss).
Qed.

Definition demo_project : Project := mkProject fzero 1000000.
Definition demo_people : list Stakeholder :=
  [mkStakeholder "Ada" "team" fzero 9500 fzero 0;
   mkStakeholder "Crane Co" "vendor" fzero 0 fzero 250000].
Definition demo_items : list WorkItem :=
  [mkWorkItem "ADA" (f_of_Z 8); mkWorkItem "" (f_of_Z 3); mkWorkItem "ada" fone].

Definition demo_summary : option Summary :=
  match Compute (H := key_order) demo_project demo_people demo_items with
  | Ok s => Some s
  | Err _ => None
  end.

Lemma Compute_figures_witness :
  exists s, demo_summary = Some s /\ CommittedMinorUnits s = 335500 /\ RemainingMinorUnits s = 664500
            /\ ByCategoryMinorUnits s !! "team"%string = Some 85500
            /\ ByCategoryMinorUnits s !! "vendor"%string = Some 250000.
Proof.
  destruct (Compute (H := key_order) demo_project demo_people demo_items) as [s|e] eqn:E;
    [|vm_compute in E; discriminate].
  exists s. destruct (Compute_figures (H := key_order) demo_project demo_people demo_items s E)
    as (Hv & Hl & Hc & Hb & Hr & Hk & _).
  split; [unfold demo_summary; rewrite E; reflexivity|].
  split; [rewrite Hc, Hv, Hl; vm_compute; reflexivity|].
  split; [rewrite Hr, Hb, Hc, Hv, Hl; vm_compute; reflexivity|].
  split; rewrite Hk; vm_compute; reflexivity.
Defined.
