(* ===== verification/GoSha256.v ===== *)
(** * crypto/sha256 as the program uses it

    [Sum256] of FIPS 180-4 on byte strings, with the words of the hash as
    integers below 2^32, and the hexadecimal form in which the program stores a
    digest. *)

From S2P Require Import Prelude GoStrings.

Local Open Scope Z_scope.

Definition word (x : Z) : Z := x mod 2 ^ 32.
Definition rotr (n x : Z) : Z := Z.lor (Z.shiftr x n) (word (Z.shiftl x (32 - n))).

Definition big_sigma (i j k x : Z) : Z := Z.lxor (Z.lxor (rotr i x) (rotr j x)) (rotr k x).
Definition small_sigma (i j k x : Z) : Z :=
  Z.lxor (Z.lxor (rotr i x) (rotr j x)) (Z.shiftr x k).
Definition choose (x y z : Z) : Z := Z.lxor (Z.land x y) (Z.land (2 ^ 32 - 1 - x) z).
Definition majority (x y z : Z) : Z :=
  Z.lxor (Z.lxor (Z.land x y) (Z.land x z)) (Z.land y z).

Definition round_constants : list Z :=
  [1116352408; 1899447441; 3049323471; 3921009573; 961987163; 1508970993; 2453635748; 2870763221;
   3624381080; 310598401; 607225278; 1426881987; 1925078388; 2162078206; 2614888103; 3248222580;
   3835390401; 4022224774; 264347078; 604807628; 770255983; 1249150122; 1555081692; 1996064986;
   2554220882; 2821834349; 2952996808; 3210313671; 3336571891; 3584528711; 113926993; 338241895;
   666307205; 773529912; 1294757372; 1396182291; 1695183700; 1986661051; 2177026350; 2456956037;
   2730485921; 2820302411; 3259730800; 3345764771; 3516065817; 3600352804; 4094571909; 275423344;
   430227734; 506948616; 659060556; 883997877; 958139571; 1322822218; 1537002063; 1747873779;
   1955562222; 2024104815; 2227730452; 2361852424; 2428436474; 2756734187; 3204031479; 3329325298].

Record hash_state : Type := mkHash {
  ha : Z; hb : Z; hc : Z; hd : Z; he : Z; hf : Z; hg : Z; hh : Z
}.

Definition initial_hash : hash_state :=
  mkHash 1779033703 3144134277 1013904242 2773480762 1359893119 2600822924 528734635 1541459225.

Definition sha_round (s : hash_state) (kw : Z * Z) : hash_state :=
  let t1 := hh s + big_sigma 6 11 25 (he s) + choose (he s) (hf s) (hg s) + kw.1 + kw.2 in
  let t2 := big_sigma 2 13 22 (ha s) + majority (ha s) (hb s) (hc s) in
  mkHash (word (t1 + t2)) (ha s) (hb s) (hc s) (word (hd s + t1)) (he s) (hf s) (hg s).

(** The message schedule, newest word first. *)
Fixpoint extend_schedule (n : nat) (w : list Z) : list Z :=
  match n with
  | O => w
  | S n' =>
      extend_schedule n'
        (word (small_sigma 17 19 10 (nth 1 w 0) + nth 6 w 0
               + small_sigma 7 18 3 (nth 14 w 0) + nth 15 w 0) :: w)
  end.

Definition be_word (b : list ascii) : Z := fold_left (fun acc c => acc * 256 + byte_val c) b 0.

Fixpoint chunks {A} (fuel size : nat) (l : list A) : list (list A) :=
  match fuel, l with
  | S fuel', _ :: _ => take size l :: chunks fuel' size (drop size l)
  | _, _ => []
  end.

Definition sha_block (s : hash_state) (block : list ascii) : hash_state :=
  let w := rev (extend_schedule 48 (rev (be_word <$> chunks 16 4 block))) in
  let r := fold_left sha_round (combine round_constants w) s in
  mkHash (word (ha s + ha r)) (word (hb s + hb r)) (word (hc s + hc r)) (word (hd s + hd r))
         (word (he s + he r)) (word (hf s + hf r)) (word (hg s + hg r)) (word (hh s + hh r)).

Fixpoint be_bytes (n : nat) (z : Z) : list ascii :=
  match n with
  | O => []
  | S n' => be_bytes n' (z / 256) ++ [byte_of (z mod 256)]
  end.

(** The message, a one bit, zeroes up to 56 modulo 64 bytes, the length in bits. *)
Definition pad_message (m : list ascii) : list ascii :=
  let n := Z.of_nat (length m) in
  m ++ byte_of 128 :: replicate (Z.to_nat ((55 - n) mod 64)) (byte_of 0) ++ be_bytes 8 (8 * n).

Definition digest (s : hash_state) : list ascii :=
  flat_map (be_bytes 4) [ha s; hb s; hc s; hd s; he s; hf s; hg s; hh s].

(** [sha256.Sum256]. *)
Definition Sum256 (m : string) : string :=
  let p := pad_message (bytes_of m) in
  string_of (digest (fold_left sha_block (chunks (length p) 64 p) initial_hash)).

(** [hex.EncodeToString(sum[:])]. *)
Definition HexSum256 (m : string) : string := hex_encode (Sum256 m).

Example sum_empty :
  HexSum256 "" = "e3b0c44298fc1c149afbf4c8996fb92427ae41e4649b934ca495991b7852b855"%string.
Proof. vm_compute. reflexivity. Qed.
Example sum_abc :
  HexSum256 "abc" = "ba7816bf8f01cfea414140de5dae2223b00361a396177a9cb410ff61f20015ad"%string.
Proof. vm_compute. reflexivity. Qed.
Example sum_two_blocks :
  HexSum256 "abcdbcdecdefdefgefghfghighijhijkijkljklmklmnlmnomnopnopq"
  = "248d6a61d20638b8e5c026930c3e6039a33ce45964ff2167f6ecedd419db06c1"%string.
Proof. vm_compute. reflexivity. Qed.

(** ** Lengths *)

Lemma length_be_bytes n : forall z, length (be_bytes n z) = n.
Proof. induction n as [|n IH]; intros z; [done|]. simpl. rewrite length_app, IH. simpl. lia. Qed.

Lemma length_Sum256 m : length (bytes_of (Sum256 m)) = 32%nat.
Proof.
  unfold Sum256. rewrite bytes_of_string_of. unfold digest. cbn [flat_map].
  by rewrite !length_app, !length_be_bytes.
Qed.

(** ** Hexadecimal is injective *)

Lemma hex_byte_inj n m : 0 <= n < 16 -> 0 <= m < 16 -> hex_byte n = hex_byte m -> n = m.
Proof.
  intros Hn Hm H. apply (f_equal byte_val) in H. unfold hex_byte in H.
  destruct (n <? 10) eqn:En, (m <? 10) eqn:Em; rewrite !byte_val_of in H by lia; lia.
Qed.

Lemma byte_halves c :
  0 <= byte_val c / 16 < 16 /\ 0 <= byte_val c mod 16 < 16
  /\ byte_val c = 16 * (byte_val c / 16) + byte_val c mod 16.
Proof. pose proof (byte_val_range c). Z.to_euclidean_division_equations. lia. Qed.

Lemma hex_encode_inj s t : hex_encode s = hex_encode t -> s = t.
Proof.
  unfold hex_encode. intros H. apply (f_equal bytes_of) in H. rewrite !bytes_of_string_of in H.
  rewrite <- (string_of_bytes_of s), <- (string_of_bytes_of t). f_equal.
  revert H. generalize (bytes_of t). induction (bytes_of s) as [|c l IH]; intros [|d k] H; try done.
  simpl in H. injection H as H1 H2 H3.
  destruct (byte_halves c) as (? & ? & ?), (byte_halves d) as (? & ? & ?).
  apply hex_byte_inj in H1; [|lia..]. apply hex_byte_inj in H2; [|lia..].
  f_equal; [|by apply IH]. apply byte_val_inj. lia.
Qed.

Lemma length_hex_encode s : String.length (hex_encode s) = (2 * String.length s)%nat.
Proof.
  unfold hex_encode. rewrite <- length_bytes_of, bytes_of_string_of.
  induction s as [|c s IH]; [done|]. simpl in *. rewrite IH. lia.
Qed.

Lemma length_HexSum256 m : String.length (HexSum256 m) = 64%nat.
Proof.
  unfold HexSum256. rewrite length_hex_encode, <- length_bytes_of, length_Sum256. done.
Qed.

Lemma HexSum256_nonempty m : HexSum256 m <> EmptyString.
Proof. intros H. pose proof (length_HexSum256 m) as Hl. by rewrite H in Hl. Qed.
