(* ===== verification/GoDecimal.v ===== *)
(** * Decimal literals of float64 (package strconv)

    The number grammar of JSON, the binary64 value nearest to a decimal literal,
    and the shortest decimal that reads back, as [strconv.ParseFloat] and
    [strconv.FormatFloat] compute them.  What is printed is shown to read back
    as the same float. *)

From S2P Require Import Prelude GoFloat GoStrings.
From Stdlib Require Import Floats.SpecFloat.

Local Open Scope Z_scope.

(** ** Correct rounding

    The number [num / den] is at least [2 ^ j]. *)
Definition pow2_le (num den j : Z) : bool :=
  den * 2 ^ Z.max 0 j <=? num * 2 ^ Z.max 0 (- j).

(** The [D] with [2 ^ (D - 1) <= num / den < 2 ^ D]. *)
Definition binade (num den : Z) : Z :=
  let k := Z.log2 num - Z.log2 den in if pow2_le num den k then k + 1 else k.

(** The integer nearest to [a / b], ties to even. *)
Definition round_div (a b : Z) : Z :=
  let q := a / b in
  match 2 * (a mod b) ?= b with
  | Lt => q
  | Gt => q + 1
  | Eq => if Z.even q then q else q + 1
  end.

(** The binary64 value nearest to [num / den]. *)
Definition round_ratio (neg : bool) (num den : Z) : f64 :=
  if num =? 0 then S754_zero neg
  else
    let e := fexp 53 1024 (binade num den) in
    let m := round_div (num * 2 ^ Z.max 0 (- e)) (den * 2 ^ Z.max 0 e) in
    let '(m, e) := if m =? 2 ^ 53 then (2 ^ 52, e + 1) else (m, e) in
    match m with
    | Zpos p => if e <=? 971 then S754_finite neg p e else S754_infinity neg
    | _ => S754_zero neg
    end.

(** The binary64 value nearest to [m * 10^q]. *)
Definition round_decimal (neg : bool) (m q : Z) : f64 :=
  round_ratio neg (m * 10 ^ Z.max 0 q) (10 ^ Z.max 0 (- q)).

(** ** Literals *)

Fixpoint span_digits (l : list ascii) : list ascii * list ascii :=
  match l with
  | c :: r =>
      if is_digit c then let (ds, rest) := span_digits r in (c :: ds, rest) else ([], l)
  | [] => ([], [])
  end.

Definition digits_value (l : list ascii) : Z :=
  fold_left (fun acc c => 10 * acc + (byte_val c - 48)) l 0.

(** The exponent part, when there is one: its value and what follows. *)
Definition read_exponent (l : list ascii) : option (Z * list ascii) :=
  match l with
  | c :: r =>
      if Ascii.eqb c "e" || Ascii.eqb c "E" then
        let (neg, r') := match r with
                         | s :: r'' => if Ascii.eqb s "-" then (true, r'')
                                       else if Ascii.eqb s "+" then (false, r'') else (false, r)
                         | [] => (false, r)
                         end in
        match span_digits r' with
        | ([], _) => None
        | (ds, rest) => Some (cond_Zopp neg (digits_value ds), rest)
        end
      else Some (0, l)
  | [] => Some (0, l)
  end.

(** A number literal: what it denotes in float64, infinity when out of range. *)
Definition read_number (l : list ascii) : option (f64 * list ascii) :=
  let (neg, l1) := match l with
                   | c :: r => if Ascii.eqb c "-" then (true, r) else (false, l)
                   | [] => (false, l)
                   end in
  match span_digits l1 with
  | ([], _) => None
  | (d :: ds, l2) =>
      if Ascii.eqb d "0" && negb (match ds with [] => true | _ => false end) then None
      else
        let frac := match l2 with
                    | c :: r => if Ascii.eqb c "." then
                                  match span_digits r with
                                  | ([], _) => None
                                  | (fs, rest) => Some (fs, rest)
                                  end
                                else Some ([], l2)
                    | [] => Some ([], l2)
                    end in
        match frac with
        | None => None
        | Some (fs, l3) =>
            match read_exponent l3 with
            | None => None
            | Some (e, l4) =>
                Some (round_decimal neg (digits_value ((d :: ds) ++ fs))
                        (e - Z.of_nat (length fs)), l4)
            end
        end
  end.

(** *** The shortest decimal that reads back *)

(** Whether [m * 2^e < 10^k]. *)
Definition below_pow10 (m e k : Z) : bool :=
  m * 2 ^ Z.max 0 e * 10 ^ Z.max 0 (- k) <? 10 ^ Z.max 0 k * 2 ^ Z.max 0 (- e).

(** From an estimate of the exponent down to a [k] with [10^k <= m * 2^e] and up
    to the last one. *)
Fixpoint lower_exponent (fuel : nat) (m e k : Z) : Z :=
  match fuel with
  | O => k
  | S fuel' => if below_pow10 m e k then lower_exponent fuel' m e (k - 1) else k
  end.

Fixpoint raise_exponent (fuel : nat) (m e k : Z) : Z :=
  match fuel with
  | O => k
  | S fuel' => if below_pow10 m e (k + 1) then k else raise_exponent fuel' m e (k + 1)
  end.

(** The decimal exponent [k] with [10^k <= m * 2^e < 10^(k+1)]. *)
Definition decimal_exponent (m e : Z) : Z :=
  raise_exponent 3000 m e (lower_exponent 3000 m e ((e + Z.log2 m) * 30103 / 100000)).

(** Of the two decimals with [p] digits around [m * 2^e], the nearer one that
    reads back, as digits and exponent. *)
Definition with_digits (m : positive) (e : Z) (p : nat) : option (Z * Z) :=
  let q := decimal_exponent (Zpos m) e - Z.of_nat p + 1 in
  let num := Zpos m * 2 ^ Z.max 0 e * 10 ^ Z.max 0 (- q) in
  let den := 2 ^ Z.max 0 (- e) * 10 ^ Z.max 0 q in
  let lo := num / den in
  let reads d := bool_decide (round_decimal false d q = S754_finite false m e) in
  let lo_nearer := 2 * (num - lo * den) <? den in
  let pick d d' := if reads d then Some (d, q) else if reads d' then Some (d', q) else None in
  if lo_nearer then pick lo (lo + 1) else pick (lo + 1) lo.

Fixpoint shortest_from (n p : nat) (m : positive) (e : Z) : Z * Z :=
  match n with
  | O => (Zpos m, 0)
  | S n' => match with_digits m e p with
            | Some dq => dq
            | None => shortest_from n' (S p) m e
            end
  end.

Fixpoint strip_zeroes (fuel : nat) (d q : Z) : Z * Z :=
  match fuel with
  | O => (d, q)
  | S fuel' => if (d mod 10 =? 0) && negb (d =? 0) then strip_zeroes fuel' (d / 10) (q + 1) else (d, q)
  end.

(** Seventeen digits always read back. *)
Definition shortest (m : positive) (e : Z) : Z * Z :=
  let (d, q) := shortest_from 17 1 m e in strip_zeroes 17 d q.

Definition zeroes (n : Z) : list ascii := replicate (Z.to_nat n) "0"%char.

Definition format_fixed (ds : list ascii) (point : Z) : list ascii :=
  let n := Z.of_nat (length ds) in
  if point <=? 0 then "0"%char :: "."%char :: zeroes (- point) ++ ds
  else if n <=? point then ds ++ zeroes (point - n)
  else take (Z.to_nat point) ds ++ "."%char :: drop (Z.to_nat point) ds.

Definition format_exponent (ds : list ascii) (x : Z) : list ascii :=
  match ds with
  | [] => []
  | d :: r =>
      (d :: match r with [] => [] | _ => "."%char :: r end)
      ++ "e"%char :: (if x <? 0 then "-"%char else "+"%char) :: FormatUint (Z.abs x)
  end.

(** [json.Marshal] of a float64 that is finite: plain decimal between 1e-6 and
    1e21, exponent form outside. *)
Definition format_number (x : f64) : list ascii :=
  match x with
  | S754_finite s m e =>
      let (d, q) := shortest m e in
      let ds := FormatUint d in
      let point := Z.of_nat (length ds) + q in
      (if s then ["-"%char] else [])
      ++ (if (S754_finite false m e <. round_decimal false 1 (-6))
             || negb (S754_finite false m e <. round_decimal false 1 21)
          then format_exponent ds (point - 1) else format_fixed ds point)
  | S754_zero true => bytes_of "-0"
  | _ => bytes_of "0"
  end.

(** ** The rounding is a function of the quotient *)

Lemma pow2_le_shift num den j s : 0 <= s -> 0 <= j + s ->
  pow2_le num den j = (den * 2 ^ (j + s) <=? num * 2 ^ s).
Proof.
  intros Hs Hj. unfold pow2_le. destruct (Z.le_gt_cases 0 j) as [H|H].
  - rewrite Z.max_r, Z.max_l, Z.pow_add_r, Z.mul_assoc by lia.
    pose proof (Z.pow_pos_nonneg 2 s ltac:(lia) Hs). apply eq_true_iff_eq. rewrite !Z.leb_le. nia.
  - rewrite Z.max_l, Z.max_r by lia. replace s with (j + s + - j) at 2 by lia.
    rewrite (Z.pow_add_r 2 (j + s) (- j)), Z.pow_0_r, Z.mul_1_r by lia.
    pose proof (Z.pow_pos_nonneg 2 (j + s) ltac:(lia) Hj). apply eq_true_iff_eq. rewrite !Z.leb_le.
    generalize dependent (2 ^ (j + s)). generalize (2 ^ (- j)). intros a b Hb. nia.
Qed.

Lemma pow2_le_mono num den j k : 0 < den -> j <= k -> pow2_le num den k = true -> pow2_le num den j = true.
Proof.
  intros Hd Hjk. set (s := Z.abs j + Z.abs k).
  rewrite !(pow2_le_shift _ _ _ s), !Z.leb_le by (subst s; lia). intros H.
  etrans; [|exact H]. apply Z.mul_le_mono_nonneg_l; [lia|]. apply Z.pow_le_mono_r; lia.
Qed.

Lemma pow2_le_scale c num den j : 0 < c -> pow2_le (c * num) (c * den) j = pow2_le num den j.
Proof.
  intros Hc. unfold pow2_le. rewrite <- !Z.mul_assoc. apply eq_true_iff_eq. rewrite !Z.leb_le. nia.
Qed.

Lemma binade_spec num den : 0 < num -> 0 < den ->
  pow2_le num den (binade num den - 1) = true /\ pow2_le num den (binade num den) = false.
Proof.
  intros Hn Hd. set (k := Z.log2 num - Z.log2 den).
  pose proof (Z.log2_spec num Hn) as [Hn1 Hn2]. pose proof (Z.log2_spec den Hd) as [Hd1 Hd2].
  pose proof (Z.log2_nonneg num). pose proof (Z.log2_nonneg den).
  set (s := Z.log2 den + 1).
  assert (Hlow : pow2_le num den (k - 1) = true).
  { rewrite (pow2_le_shift _ _ _ s), Z.leb_le by (subst k s; lia). subst k s.
    replace (Z.log2 num - Z.log2 den - 1 + (Z.log2 den + 1)) with (Z.log2 num) by lia.
    rewrite Z.pow_succ_r in Hd2 by lia. rewrite Z.pow_add_r, Z.pow_1_r by lia.
    transitivity (den * num); [by apply Z.mul_le_mono_nonneg_l; lia|].
    rewrite Z.mul_comm. apply Z.mul_le_mono_nonneg_l; lia. }
  assert (Hhigh : pow2_le num den (k + 1) = false).
  { rewrite (pow2_le_shift _ _ _ s), Z.leb_gt by (subst k s; lia). subst k s.
    replace (Z.log2 num - Z.log2 den + 1 + (Z.log2 den + 1)) with (Z.succ (Z.log2 num) + 1) by lia.
    rewrite !Z.pow_add_r, Z.pow_1_r by lia.
    rewrite (Z.mul_comm den), <- Z.mul_assoc.
    apply (Z.lt_le_trans _ (2 ^ Z.succ (Z.log2 num) * (2 ^ Z.log2 den * 2)));
      [apply Z.mul_lt_mono_pos_r; [|done]; pose proof (Z.pow_pos_nonneg 2 (Z.log2 den)); lia|].
    apply Z.mul_le_mono_nonneg_l; [apply Z.pow_nonneg; lia|]. lia. }
  unfold binade. fold k. destruct (pow2_le num den k) eqn:E.
  - by rewrite Z.add_simpl_r.
  - done.
Qed.

Lemma binade_unique num den D : 0 < num -> 0 < den ->
  pow2_le num den (D - 1) = true -> pow2_le num den D = false -> binade num den = D.
Proof.
  intros Hn Hd H1 H2. destruct (binade_spec num den Hn Hd) as [H3 H4].
  destruct (Z.lt_trichotomy (binade num den) D) as [Hlt|[He|Hgt]]; [|done|].
  - apply (pow2_le_mono _ _ (binade num den)) in H1; [congruence|lia..].
  - apply (pow2_le_mono _ _ D) in H3; [congruence|lia..].
Qed.

Lemma binade_scale c num den : 0 < c -> 0 < num -> 0 < den ->
  binade (c * num) (c * den) = binade num den.
Proof.
  intros Hc Hn Hd. destruct (binade_spec num den Hn Hd).
  apply binade_unique; rewrite ?pow2_le_scale by done; nia || done.
Qed.

Lemma round_div_scale c a b : 0 < c -> 0 < b -> round_div (c * a) (c * b) = round_div a b.
Proof.
  intros Hc Hb. unfold round_div.
  rewrite Z.div_mul_cancel_l, Z.mul_mod_distr_l by lia.
  replace (2 * (c * (a mod b))) with (c * (2 * (a mod b))) by lia.
  by rewrite <- Zmult_compare_compat_l by lia.
Qed.

Lemma round_ratio_scale neg c num den : 0 < c -> 0 < num -> 0 < den ->
  round_ratio neg (c * num) (c * den) = round_ratio neg num den.
Proof.
  intros Hc Hn Hd. unfold round_ratio.
  destruct (Z.eqb_spec (c * num) 0); [nia|]. destruct (Z.eqb_spec num 0); [lia|].
  rewrite binade_scale by done. set (e := fexp 53 1024 (binade num den)).
  pose proof (Z.pow_pos_nonneg 2 (Z.max 0 e) ltac:(lia) ltac:(lia)).
  by rewrite <- !Z.mul_assoc, round_div_scale by nia.
Qed.

(** Trailing zeroes of the digits do not matter. *)
Lemma round_decimal_shift neg d q : 0 < d ->
  round_decimal neg (10 * d) q = round_decimal neg d (q + 1).
Proof.
  intros Hd. unfold round_decimal. destruct (Z.le_gt_cases 0 q) as [H|H].
  - replace (Z.max 0 q) with q by lia. replace (Z.max 0 (q + 1)) with (q + 1) by lia.
    replace (Z.max 0 (- q)) with 0 by lia. replace (Z.max 0 (- (q + 1))) with 0 by lia.
    rewrite Z.pow_add_r by lia. f_equal. lia.
  - replace (Z.max 0 q) with 0 by lia. replace (Z.max 0 (q + 1)) with 0 by lia.
    replace (Z.max 0 (- q)) with (- q) by lia.
    replace (Z.max 0 (- (q + 1))) with (- (q + 1)) by lia.
    rewrite <- (round_ratio_scale neg 10 (d * 10 ^ 0)) by (try apply Z.pow_pos_nonneg; lia).
    f_equal; [lia|]. rewrite <- Z.pow_succ_r by lia. f_equal. lia.
Qed.

Lemma round_decimal_shift_many neg d q n : 0 < d -> 0 <= n ->
  round_decimal neg (d * 10 ^ n) q = round_decimal neg d (q + n).
Proof.
  intros Hd Hn. revert q. pattern n. apply natlike_ind; [| |done].
  - intros q. by rewrite Z.pow_0_r, Z.mul_1_r, Z.add_0_r.
  - intros k Hk IH q. rewrite Z.pow_succ_r by done.
    replace (d * (10 * 10 ^ k)) with (10 * (d * 10 ^ k)) by lia.
    rewrite round_decimal_shift by (pose proof (Z.pow_pos_nonneg 10 k); nia).
    rewrite IH. f_equal. lia.
Qed.

Lemma round_ratio_negative num den m e :
  round_ratio false num den = S754_finite false m e ->
  round_ratio true num den = S754_finite true m e.
Proof.
  unfold round_ratio. destruct (num =? 0); [done|].
  destruct (_ =? 2 ^ 53); repeat case_match; congruence.
Qed.

(** ** A quotient near a float rounds to it *)

Lemma round_div_near a b c : 0 < b -> 2 * Z.abs (a - c * b) < b -> round_div a b = c.
Proof.
  intros Hb H. unfold round_div. pose proof (Z.div_mod a b ltac:(lia)) as Ha.
  pose proof (Z.mod_pos_bound a b Hb) as Hr. set (q := a / b) in *. set (r := a mod b) in *.
  assert (Hc : c = q \/ c = q + 1) by nia.
  destruct Hc as [-> | ->]; destruct (Z.compare_spec (2 * r) b); nia.
Qed.

Lemma pow2_le_scaled num den e j : e <= j ->
  pow2_le num den j = (den * 2 ^ Z.max 0 e * 2 ^ (j - e) <=? num * 2 ^ Z.max 0 (- e)).
Proof.
  intros Hj. rewrite (pow2_le_shift _ _ _ (Z.max 0 (- e))) by lia.
  rewrite <- Z.mul_assoc, <- Z.pow_add_r by lia. do 3 f_equal. lia.
Qed.

Lemma bounded_spec m e : bounded 53 1024 m e = true ->
  Z.max (Zpos (digits2_pos m) + e - 53) (-1074) = e /\ e <= 971.
Proof.
  unfold bounded, canonical_mantissa, fexp, emin. intros H. apply andb_prop in H as [H1 H2].
  apply Z.eqb_eq in H1. apply Z.leb_le in H2. lia.
Qed.

Section near.
Context (num den : Z) (m : positive) (e : Z).
Context (Hnum : 0 < num) (Hden : 0 < den) (Hb : bounded 53 1024 m e = true).
Let N := num * 2 ^ Z.max 0 (- e).
Let D := den * 2 ^ Z.max 0 e.
Context (Hnear : 2 * Z.abs (N - Zpos m * D) < D).
Context (Hlow : Zpos m = 2 ^ 52 -> 4 * (Zpos m * D - N) < D).

Lemma near_D_pos : 0 < D.
Proof. unfold D. apply Z.mul_pos_pos; [done|]. apply Z.pow_pos_nonneg; lia. Qed.

Lemma near_finish : round_div N D = Zpos m -> fexp 53 1024 (binade num den) = e ->
  round_ratio false num den = S754_finite false m e.
Proof.
  intros Hr He. unfold round_ratio. destruct (Z.eqb_spec num 0); [lia|]. rewrite He.
  fold N D. rewrite Hr. apply bounded_spec in Hb as [Hc Hmax].
  pose proof (digits_bounds m) as [_ Hd].
  assert (Zpos m < 2 ^ 53) by (eapply Z.lt_le_trans; [exact Hd|apply Z.pow_le_mono_r; lia]).
  destruct (Z.eqb_spec (Zpos m) (2 ^ 53)); [lia|]. destruct (Z.leb_spec e 971); [done|lia].
Qed.

Lemma near_below : Zpos m = 2 ^ 52 -> -1074 < e -> N < Zpos m * D ->
  binade num den = 52 + e -> round_ratio false num den = S754_finite false m e.
Proof.
  intros Hm He HN HD. pose proof near_D_pos as HDp. specialize (Hlow Hm). apply bounded_spec in Hb as [_ Hmax].
  unfold round_ratio. destruct (Z.eqb_spec num 0); [lia|]. rewrite HD.
  replace (fexp 53 1024 (52 + e)) with (e - 1) by (unfold fexp, emin; lia).
  assert (Hr : round_div (num * 2 ^ Z.max 0 (- (e - 1))) (den * 2 ^ Z.max 0 (e - 1)) = 2 ^ 53).
  { unfold N, D in *. destruct (Z.le_gt_cases e 0) as [H0|H0].
    - replace (Z.max 0 (- (e - 1))) with (Z.max 0 (- e) + 1) by lia.
      replace (Z.max 0 (e - 1)) with (Z.max 0 e) by lia. rewrite Z.pow_add_r, Z.pow_1_r by lia.
      apply round_div_near; lia.
    - replace (Z.max 0 (- (e - 1))) with (Z.max 0 (- e)) by lia.
      replace (Z.max 0 e) with (Z.max 0 (e - 1) + 1) in * by lia.
      rewrite Z.pow_add_r, Z.pow_1_r in * by lia. apply round_div_near; lia. }
  rewrite Hr, Z.eqb_refl, <- Hm. replace (e - 1 + 1) with e by lia.
  destruct (Z.leb_spec e 971); [done|lia].
Qed.

Lemma round_ratio_near : round_ratio false num den = S754_finite false m e.
Proof.
  pose proof near_D_pos as HDp. pose proof (bounded_spec _ _ Hb) as [Hc Hmax].
  pose proof (digits_bounds m) as [Hd1 Hd2].
  assert (Hd : 1 <= Zpos (digits2_pos m)) by lia. set (d := Zpos (digits2_pos m)) in *.
  pose proof (binade_spec num den Hnum Hden) as [Hbin _].
  assert (Hrd : round_div N D = Zpos m) by (by apply round_div_near).
  assert (Hpow : 2 ^ d = 2 * 2 ^ (d - 1)).
  { replace d with (Z.succ (d - 1)) at 1 by lia. apply Z.pow_succ_r. lia. }
  assert (Htop : pow2_le num den (d + e) = false).
  { rewrite (pow2_le_scaled _ _ e), Z.leb_gt by lia. fold N D. rewrite Z.add_simpl_r.
    clear - Hnear Hd2 HDp. generalize dependent (2 ^ d). intros x Hx.
    assert ((Zpos m + 1) * D <= x * D) by (apply Z.mul_le_mono_nonneg_r; lia). lia. }
  destruct (pow2_le num den (d + e - 1)) eqn:Hbot.
  { apply near_finish; [done|]. rewrite (binade_unique _ _ (d + e)) by done.
    clear - Hc. unfold fexp, emin. lia. }
  assert (Hlt : binade num den <= d + e - 1).
  { destruct (Z.le_gt_cases (binade num den) (d + e - 1)); [done|].
    apply (pow2_le_mono _ _ (d + e - 1)) in Hbin; [congruence|lia..]. }
  destruct (decide (d = 53 /\ -1074 < e)) as [[-> He]|Hn].
  2: { apply near_finish; [done|]. clear - Hc Hlt Hn Hd. unfold fexp, emin. lia. }
  rewrite (pow2_le_scaled _ _ e), Z.leb_gt in Hbot by lia. fold N D in Hbot.
  replace (53 + e - 1 - e) with 52 in Hbot by lia. change (53 - 1) with 52 in Hd1.
  assert (Hm : Zpos m = 2 ^ 52).
  { clear - Hbot Hnear Hd1 HDp. destruct (Z.le_gt_cases (Zpos m) (2 ^ 52)); [lia|].
    assert ((2 ^ 52 + 1) * D <= Zpos m * D) by (apply Z.mul_le_mono_nonneg_r; lia). lia. }
  apply near_below; [done|done|nia|]. specialize (Hlow Hm). apply binade_unique; [done|done| |].
  - rewrite (pow2_le_scaled _ _ e), Z.leb_le by lia. fold N D.
    replace (52 + e - 1 - e) with 51 by lia. nia.
  - rewrite (pow2_le_scaled _ _ e), Z.leb_gt by lia. fold N D.
    replace (52 + e - e) with 52 by lia. nia.
Qed.

End near.

(** ** Seventeen digits read back *)

(** The quotient of [m * 2^e] by [10^q], as [with_digits] takes it. *)
Definition scaled_num (m : positive) (e q : Z) : Z :=
  Zpos m * 2 ^ Z.max 0 e * 10 ^ Z.max 0 (- q).
Definition scaled_den (e q : Z) : Z := 2 ^ Z.max 0 (- e) * 10 ^ Z.max 0 q.

Lemma scaled_den_pos e q : 0 < scaled_den e q.
Proof. unfold scaled_den. apply Z.mul_pos_pos; apply Z.pow_pos_nonneg; lia. Qed.

Lemma scaled_num_pos m e q : 0 < scaled_num m e q.
Proof. unfold scaled_num. repeat apply Z.mul_pos_pos; [done|apply Z.pow_pos_nonneg; lia..]. Qed.

(** [10^(q+n) <= m * 2^e] in both scalings. *)
Lemma below_pow10_scaled m e q n : 0 <= n ->
  below_pow10 (Zpos m) e (q + n) = (scaled_num m e q <? 10 ^ n * scaled_den e q).
Proof.
  intros Hn. unfold below_pow10, scaled_num, scaled_den.
  set (A := Zpos m * 2 ^ Z.max 0 e). set (B := 2 ^ Z.max 0 (- e)).
  assert (HB : 0 < B) by (apply Z.pow_pos_nonneg; lia).
  apply eq_true_iff_eq. rewrite !Z.ltb_lt.
  destruct (Z.le_gt_cases 0 q) as [Hq|Hq]; [|destruct (Z.le_gt_cases 0 (q + n)) as [Hk|Hk]].
  - replace (Z.max 0 (q + n)) with (q + n) by lia. replace (Z.max 0 (- (q + n))) with 0 by lia.
    replace (Z.max 0 q) with q by lia. replace (Z.max 0 (- q)) with 0 by lia.
    rewrite Z.pow_add_r by lia. nia.
  - replace (Z.max 0 (q + n)) with (q + n) by lia. replace (Z.max 0 (- (q + n))) with 0 by lia.
    replace (Z.max 0 q) with 0 by lia. replace (Z.max 0 (- q)) with (- q) by lia.
    assert (Hp : 10 ^ n = 10 ^ (q + n) * 10 ^ (- q)) by (rewrite <- Z.pow_add_r by lia; f_equal; lia).
    rewrite Hp.
    pose proof (Z.pow_pos_nonneg 10 (- q) ltac:(lia) ltac:(lia)). rewrite Z.pow_0_r.
    generalize dependent (10 ^ (- q)). generalize (10 ^ (q + n)). intros x y Hy. nia.
  - replace (Z.max 0 (q + n)) with 0 by lia. replace (Z.max 0 (- (q + n))) with (- (q + n)) by lia.
    replace (Z.max 0 q) with 0 by lia. replace (Z.max 0 (- q)) with (n + - (q + n)) by lia.
    rewrite (Z.pow_add_r 10 n (- (q + n))) by lia.
    pose proof (Z.pow_pos_nonneg 10 n ltac:(lia) ltac:(lia)). rewrite Z.pow_0_r.
    generalize dependent (10 ^ n). generalize (10 ^ (- (q + n))). intros x y Hy. nia.
Qed.

Lemma pow2_split E e : e <= E ->
  2 ^ (E - e) * 2 ^ Z.max 0 e * 2 ^ Z.max 0 (- E) = 2 ^ Z.max 0 (- e) * 2 ^ Z.max 0 E.
Proof. intros H. rewrite <- !Z.pow_add_r by lia. f_equal. lia. Qed.

Lemma not_below_estimate m e E k : e <= E -> 2 ^ (E - e) <= Zpos m ->
  10 ^ Z.max 0 k * 2 ^ Z.max 0 (- E) <= 2 ^ Z.max 0 E * 10 ^ Z.max 0 (- k) ->
  below_pow10 (Zpos m) e k = false.
Proof.
  intros HE Hm H. unfold below_pow10. apply Z.ltb_ge.
  pose proof (pow2_split E e HE) as Hs.
  pose proof (Z.pow_pos_nonneg 2 (Z.max 0 (- E)) ltac:(lia) ltac:(lia)) as Hp.
  pose proof (Z.pow_nonneg 2 (Z.max 0 e) ltac:(lia)). pose proof (Z.pow_nonneg 2 (Z.max 0 (- e)) ltac:(lia)).
  pose proof (Z.pow_nonneg 10 (Z.max 0 (- k)) ltac:(lia)).
  generalize dependent (2 ^ Z.max 0 (- E)). generalize dependent (2 ^ Z.max 0 E).
  generalize dependent (10 ^ Z.max 0 k). generalize dependent (10 ^ Z.max 0 (- k)).
  generalize dependent (2 ^ Z.max 0 e). generalize dependent (2 ^ Z.max 0 (- e)).
  generalize dependent (2 ^ (E - e)). intros p Hm a Ha b Hb x Hx y u v Huv Hs Hv.
  apply (Z.mul_le_mono_pos_r _ _ v); [done|].
  transitivity (a * (u * x)); [nia|].
  transitivity (p * b * v * x); [nia|]. assert (p * b * v * x <= Zpos m * b * v * x); [|lia].
  repeat apply Z.mul_le_mono_nonneg_r; lia.
Qed.

Lemma below_estimate m e E k : e <= E + 1 -> Zpos m < 2 ^ (E + 1 - e) ->
  2 ^ Z.max 0 (E + 1) * 10 ^ Z.max 0 (- k) <= 10 ^ Z.max 0 k * 2 ^ Z.max 0 (- (E + 1)) ->
  below_pow10 (Zpos m) e k = true.
Proof.
  intros HE Hm H. unfold below_pow10. apply Z.ltb_lt.
  pose proof (pow2_split (E + 1) e HE) as Hs.
  pose proof (Z.pow_pos_nonneg 2 (Z.max 0 (- (E + 1))) ltac:(lia) ltac:(lia)) as Hp.
  pose proof (Z.pow_pos_nonneg 2 (Z.max 0 e) ltac:(lia) ltac:(lia)).
  pose proof (Z.pow_nonneg 2 (Z.max 0 (- e)) ltac:(lia)).
  pose proof (Z.pow_pos_nonneg 10 (Z.max 0 (- k)) ltac:(lia) ltac:(lia)).
  generalize dependent (2 ^ Z.max 0 (- (E + 1))). generalize dependent (2 ^ Z.max 0 (E + 1)).
  generalize dependent (10 ^ Z.max 0 k). generalize dependent (10 ^ Z.max 0 (- k)).
  generalize dependent (2 ^ Z.max 0 e). generalize dependent (2 ^ Z.max 0 (- e)).
  generalize dependent (2 ^ (E + 1 - e)). intros p Hm a Ha b Hb x Hx y u v Huv Hs Hv.
  apply (Z.mul_lt_mono_pos_r v); [done|].
  apply (Z.lt_le_trans _ (p * b * v * x)); [|nia].
  assert (Zpos m * b * v * x < p * b * v * x); [|lia].
  repeat apply Z.mul_lt_mono_pos_r; lia.
Qed.

Lemma pow2_le_pow10 n : 0 <= n -> 2 ^ n <= 10 ^ n.
Proof. intros Hn. apply Z.pow_le_mono_l. lia. Qed.

Lemma lower_exponent_spec m e j n : below_pow10 m e j = false ->
  forall k, k - Z.of_nat n <= j <= k ->
  below_pow10 m e (lower_exponent n m e k) = false /\ j <= lower_exponent n m e k.
Proof.
  intros Hj. induction n as [|n IH]; intros k Hk; simpl.
  - replace j with k in Hj by lia. by split; [|lia].
  - destruct (below_pow10 m e k) eqn:E; [|by split; [|lia]].
    apply IH. destruct (Z.eq_dec j k) as [->|]; [congruence|lia].
Qed.

Lemma raise_exponent_spec m e n : forall k, below_pow10 m e k = false ->
  below_pow10 m e (k + Z.of_nat n) = true ->
  below_pow10 m e (raise_exponent n m e k) = false
  /\ below_pow10 m e (raise_exponent n m e k + 1) = true.
Proof.
  induction n as [|n IH]; intros k Hk Hn; simpl.
  - rewrite Z.add_0_r in Hn. congruence.
  - destruct (below_pow10 m e (k + 1)) eqn:E; [done|]. apply IH; [done|].
    by replace (k + 1 + Z.of_nat n) with (k + Z.of_nat (S n)) by lia.
Qed.

Lemma decimal_exponent_spec m e : bounded 53 1024 m e = true ->
  below_pow10 (Zpos m) e (decimal_exponent (Zpos m) e) = false
  /\ below_pow10 (Zpos m) e (decimal_exponent (Zpos m) e + 1) = true.
Proof.
  intros Hb. pose proof (bounded_spec _ _ Hb) as [Hc Hmax].
  pose proof (digits_bounds m) as [Hd1 Hd2]. pose proof (Z.log2_spec (Zpos m) ltac:(lia)) as [Hl1 Hl2].
  pose proof (Z.log2_nonneg (Zpos m)) as Hl0.
  assert (Hl : Z.log2 (Zpos m) <= 52).
  { apply Z.lt_succ_r, Z.log2_lt_pow2; [lia|]. eapply Z.lt_le_trans; [exact Hd2|].
    apply Z.pow_le_mono_r; lia. }
  assert (He : -1074 <= e) by lia.
  unfold decimal_exponent. set (E := e + Z.log2 (Zpos m)) in *. set (k := E * 30103 / 100000).
  assert (Hk : -330 < k < 330) by (subst k E; Z.to_euclidean_division_equations; lia).
  destruct (lower_exponent_spec (Zpos m) e (-1074) 3000) with (k := k) as [H1 H2]; [|lia|].
  { apply (not_below_estimate m e E); [subst E; lia|subst E; by replace (_ - e) with (Z.log2 (Zpos m)) by lia|].
    change (Z.max 0 (-1074)) with 0. change (Z.max 0 (- (-1074))) with 1074.
    transitivity (10 ^ 1074).
    - rewrite Z.pow_0_r, Z.mul_1_l. etrans; [|apply pow2_le_pow10; done]. apply Z.pow_le_mono_r; lia.
    - pose proof (Z.pow_pos_nonneg 2 (Z.max 0 E) ltac:(lia) ltac:(lia)).
      pose proof (Z.pow_nonneg 10 1074 ltac:(lia)). generalize dependent (10 ^ 1074). intros x Hx. nia. }
  apply raise_exponent_spec; [done|]. set (k' := lower_exponent _ _ _ _) in *.
  apply (below_estimate m e E); [subst E; lia|subst E; by replace (_ + 1 - e) with (Z.succ (Z.log2 (Zpos m))) by lia|].
  replace (Z.max 0 (- (k' + Z.of_nat 3000))) with 0 by lia. rewrite Z.pow_0_r, Z.mul_1_r.
  replace (Z.max 0 (k' + Z.of_nat 3000)) with (k' + Z.of_nat 3000) by lia.
  transitivity (10 ^ (k' + Z.of_nat 3000)).
  - etrans; [|apply pow2_le_pow10; lia]. apply Z.pow_le_mono_r; lia.
  - pose proof (Z.pow_pos_nonneg 2 (Z.max 0 (- (E + 1))) ltac:(lia) ltac:(lia)).
    pose proof (Z.pow_nonneg 10 (k' + Z.of_nat 3000) ltac:(lia)).
    generalize dependent (10 ^ (k' + Z.of_nat 3000)). intros x Hx. nia.
Qed.

(** What [with_digits] returns reads back and has at most [p] digits. *)
Definition reads_back (m : positive) (e d q : Z) : Prop :=
  0 < d <= 10 ^ 17 /\ round_decimal false d q = S754_finite false m e.

Section digits.
Context (m : positive) (e : Z) (Hb : bounded 53 1024 m e = true).

(** The integer part of the quotient has exactly [p] digits. *)
Lemma quotient_digits p : (1 <= p)%nat ->
  let q := decimal_exponent (Zpos m) e - Z.of_nat p + 1 in
  10 ^ (Z.of_nat p - 1) * scaled_den e q <= scaled_num m e q < 10 ^ Z.of_nat p * scaled_den e q.
Proof.
  intros Hp q. destruct (decimal_exponent_spec m e Hb) as [H1 H2].
  replace (decimal_exponent (Zpos m) e + 1) with (q + Z.of_nat p) in H2 by (subst q; lia).
  replace (decimal_exponent (Zpos m) e) with (q + (Z.of_nat p - 1)) in H1 by (subst q; lia).
  rewrite below_pow10_scaled in H1, H2 by lia.
  apply Z.ltb_ge in H1. apply Z.ltb_lt in H2. done.
Qed.

Lemma with_digits_reads p d q : (1 <= p <= 17)%nat ->
  with_digits m e p = Some (d, q) -> reads_back m e d q.
Proof.
  intros Hp. pose proof (quotient_digits p ltac:(lia)) as [Hl Hu]. revert Hl Hu.
  unfold with_digits. set (q' := decimal_exponent (Zpos m) e - Z.of_nat p + 1). intros Hl Hu.
  fold (scaled_num m e q') (scaled_den e q'). pose proof (scaled_den_pos e q') as Hd.
  set (N := scaled_num m e q') in *. set (D := scaled_den e q') in *.
  assert (H1 : 1 <= N / D).
  { apply Z.div_le_lower_bound; [done|]. pose proof (Z.pow_pos_nonneg 10 (Z.of_nat p - 1)). nia. }
  assert (H2 : N / D + 1 <= 10 ^ 17).
  { assert (N / D < 10 ^ Z.of_nat p) by (apply Z.div_lt_upper_bound; lia).
    assert (10 ^ Z.of_nat p <= 10 ^ 17) by (apply Z.pow_le_mono_r; lia). lia. }
  intros H. unfold reads_back.
  repeat case_match; simplify_eq; repeat case_bool_decide; simplify_eq; (split; [lia|done]).
Qed.

Lemma with_digits_17 : is_Some (with_digits m e 17).
Proof.
  pose proof (quotient_digits 17 ltac:(lia)) as [Hl _]. revert Hl. unfold with_digits.
  change (Z.of_nat 17 - 1) with 16. set (q := decimal_exponent (Zpos m) e - Z.of_nat 17 + 1). intros Hl.
  fold (scaled_num m e q) (scaled_den e q). pose proof (scaled_den_pos e q) as Hd.
  set (lo := scaled_num m e q / scaled_den e q).
  assert (Hlo : scaled_num m e q = lo * scaled_den e q + scaled_num m e q mod scaled_den e q)
    by (subst lo; rewrite Z.mul_comm; apply Z.div_mod; lia).
  pose proof (Z.mod_pos_bound (scaled_num m e q) (scaled_den e q) Hd) as Hr.
  pose proof (bounded_spec _ _ Hb) as [Hc _]. pose proof (digits_bounds m) as [_ Hm].
  assert (Hm53 : Zpos m < 2 ^ 53) by (eapply Z.lt_le_trans; [exact Hm|apply Z.pow_le_mono_r; lia]).
  assert (Hnear : forall d, 0 < d -> 2 * Z.abs (d * scaled_den e q - scaled_num m e q) <= scaled_den e q ->
    round_decimal false d q = S754_finite false m e).
  { intros d Hd0 Hn. unfold round_decimal.
    assert (HN : d * 10 ^ Z.max 0 q * 2 ^ Z.max 0 (- e) = d * scaled_den e q) by (unfold scaled_den; lia).
    assert (HD : Zpos m * (10 ^ Z.max 0 (- q) * 2 ^ Z.max 0 e) = scaled_num m e q) by (unfold scaled_num; lia).
    assert (0 < d * 10 ^ Z.max 0 q) by (apply Z.mul_pos_pos; [done|apply Z.pow_pos_nonneg; lia]).
    assert (0 < 10 ^ Z.max 0 (- q) * 2 ^ Z.max 0 e) by (apply Z.mul_pos_pos; apply Z.pow_pos_nonneg; lia).
    apply round_ratio_near; [done|apply Z.pow_pos_nonneg; lia|done| |]; rewrite HN, HD.
    - clear - Hn HD Hm53 Hl. set (Y := 10 ^ Z.max 0 (- q) * 2 ^ Z.max 0 e) in *.
      assert (Zpos m * Y <= 2 ^ 53 * Y) by (apply Z.mul_le_mono_nonneg_r; lia).
      change (10 ^ 16) with 10000000000000000 in Hl. change (2 ^ 53) with 9007199254740992 in *. lia.
    - intros Hm52. clear - Hn HD Hm52 Hl. set (Y := 10 ^ Z.max 0 (- q) * 2 ^ Z.max 0 e) in *.
      rewrite Hm52 in HD. change (2 ^ 52) with 4503599627370496 in HD. lia. }
  assert (Hpos : 0 < lo) by nia.
  destruct (2 * (scaled_num m e q - lo * scaled_den e q) <? scaled_den e q) eqn:E.
  - rewrite bool_decide_true by (apply Hnear; lia). done.
  - rewrite bool_decide_true by (apply Hnear; lia). done.
Qed.

Lemma shortest_from_reads n : forall p d q, (1 <= p)%nat -> (p + n = 18)%nat -> (1 <= n)%nat ->
  shortest_from n p m e = (d, q) -> reads_back m e d q.
Proof.
  induction n as [|n IH]; intros p d q Hp Hn Hn1 H; [lia|]. simpl in H.
  destruct (with_digits m e p) as [[d' q']|] eqn:E.
  - injection H as -> ->. apply (with_digits_reads p); [lia|done].
  - destruct n as [|n]; [|by apply (IH (S p)); [lia..|]].
    replace p with 17%nat in E by lia. destruct with_digits_17 as [x Hx]. congruence.
Qed.

Lemma strip_zeroes_reads n : forall d q d' q',
  reads_back m e d q -> strip_zeroes n d q = (d', q') -> reads_back m e d' q'.
Proof.
  induction n as [|n IH]; intros d q d' q' Hr H; simpl in H; [congruence|].
  destruct ((d mod 10 =? 0) && negb (d =? 0)) eqn:E; [|congruence].
  apply (IH _ _ _ _) in H; [done|]. destruct Hr as [Hd Hr].
  apply andb_prop in E as [E%Z.eqb_eq _].
  assert (Hd10 : d = 10 * (d / 10)) by (rewrite (Z.div_mod d 10) at 1 by lia; lia).
  split; [lia|]. rewrite <- Hr. rewrite Hd10 at 2. rewrite round_decimal_shift; [done|lia].
Qed.

Lemma shortest_reads d q : shortest m e = (d, q) -> reads_back m e d q.
Proof.
  unfold shortest. destruct (shortest_from 17 1 m e) as [d' q'] eqn:E.
  apply strip_zeroes_reads. apply (shortest_from_reads 17 1); [lia..|done].
Qed.

End digits.

(** ** What is printed is read back *)

Definition all_digits (l : list ascii) : Prop := Forall (fun c => is_digit c = true) l.

(** A byte that ends a number: in JSON a comma, a bracket, white space. *)
Definition ends_number (c : ascii) : bool :=
  negb (is_digit c || Ascii.eqb c "." || Ascii.eqb c "e" || Ascii.eqb c "E").

(** The end of the text, or such a byte. *)
Definition number_end (t : list ascii) : bool :=
  match t with [] => true | c :: _ => ends_number c end.

(** No digit comes next. *)
Definition no_digit (t : list ascii) : bool :=
  match t with [] => true | c :: _ => negb (is_digit c) end.

Lemma span_digits_app l t : all_digits l -> no_digit t = true -> span_digits (l ++ t) = (l, t).
Proof.
  intros Hl Ht. induction Hl as [|x l Hx _ IH]; simpl; [|by rewrite Hx, IH].
  destruct t as [|c t]; [done|]. simpl in *. by destruct (is_digit c).
Qed.

Lemma digits_fold l : forall a,
  fold_left (fun acc c => 10 * acc + (byte_val c - 48)) l a
  = a * 10 ^ Z.of_nat (length l) + digits_value l.
Proof.
  unfold digits_value. induction l as [|c l IH]; intros a; cbn [fold_left length]; [lia|].
  rewrite IH, (IH (10 * 0 + _)), Nat2Z.inj_succ, Z.pow_succ_r by lia. lia.
Qed.

Lemma digits_value_app l1 l2 :
  digits_value (l1 ++ l2) = digits_value l1 * 10 ^ Z.of_nat (length l2) + digits_value l2.
Proof. unfold digits_value at 1. rewrite fold_left_app. apply digits_fold. Qed.

Lemma digits_value_zeroes n : digits_value (zeroes n) = 0.
Proof.
  unfold zeroes. induction (Z.to_nat n) as [|k IH]; [done|].
  change (replicate (S k) "0"%char) with (["0"%char] ++ replicate k "0"%char).
  rewrite digits_value_app, IH. done.
Qed.

Lemma zeroes_digits n : all_digits (zeroes n).
Proof. unfold zeroes. by apply Forall_replicate. Qed.

Lemma length_zeroes n : 0 <= n -> Z.of_nat (length (zeroes n)) = n.
Proof. intros Hn. unfold zeroes. rewrite length_replicate. lia. Qed.

Lemma digits_value_format n : 0 <= n <= max_uint64 -> digits_value (FormatUint n) = n.
Proof.
  intros Hn. pose proof (ParseUint_FormatUint n Hn) as Hp. unfold ParseUint in Hp.
  destruct (FormatUint n) as [|c l] eqn:E; [done|]. rewrite <- E in *. clear E.
  cut (forall l acc v, parse_digits acc l = Some v ->
         fold_left (fun a c => 10 * a + (byte_val c - 48)) l acc = v); [intros H; by apply H|].
  clear. induction l as [|c l IH]; intros acc v H; simpl in *; [congruence|].
  unfold digit_val in H. destruct (_ && _); [|done]. cbv zeta in H. case_match; [done|].
  rewrite <- (IH _ _ H). f_equal. lia.
Qed.

Lemma digit_not c : is_digit c = true -> Ascii.eqb c "-" = false /\ Ascii.eqb c "+" = false.
Proof. intros H. split; apply Ascii.eqb_neq; intros ->; done. Qed.

(** Neither a digit nor a point comes next. *)
Definition no_fraction (t : list ascii) : bool :=
  match t with [] => true | c :: _ => negb (is_digit c || Ascii.eqb c ".") end.

Lemma no_fraction_digit t : no_fraction t = true -> no_digit t = true.
Proof. destruct t as [|c t]; [done|]. simpl. by destruct (is_digit c). Qed.

Lemma number_end_spec t : number_end t = true -> no_fraction t = true /\ read_exponent t = Some (0, t).
Proof.
  destruct t as [|c t]; [done|]. simpl. unfold ends_number.
  by destruct (is_digit c), (Ascii.eqb c "."), (Ascii.eqb c "e"), (Ascii.eqb c "E").
Qed.

(** [ex] is read as the exponent [x], and cannot be taken for digits. *)
Definition exponent_text (ex : list ascii) (x : Z) : Prop :=
  forall t, number_end t = true ->
  read_exponent (ex ++ t) = Some (x, t) /\ no_fraction (ex ++ t) = true.

Lemma exponent_none : exponent_text [] 0.
Proof. intros t Ht. apply number_end_spec in Ht. cbn [app]. tauto. Qed.

Lemma exponent_some x : Z.abs x <= max_uint64 ->
  exponent_text ("e"%char :: (if x <? 0 then "-"%char else "+"%char) :: FormatUint (Z.abs x)) x.
Proof.
  intros Hx t Ht. apply number_end_spec in Ht as [Ht%no_fraction_digit _]. split; [|done].
  pose proof (FormatUint_digits (Z.abs x) ltac:(lia)) as Hd.
  pose proof (digits_value_format (Z.abs x) ltac:(lia)) as Hv.
  pose proof (FormatUint_nonempty (Z.abs x)) as Hne.
  assert (Hs : span_digits (FormatUint (Z.abs x) ++ t) = (FormatUint (Z.abs x), t))
    by (by apply span_digits_app).
  destruct (Z.ltb_spec x 0); simpl; rewrite Hs; destruct (FormatUint (Z.abs x)) eqn:E; try done;
    rewrite Hv; simpl; do 2 f_equal; lia.
Qed.

(** A literal from its parts: sign, integer digits, fraction, exponent. *)
Lemma read_number_parts (s : bool) d ds (fs ex : list ascii) x t :
  all_digits (d :: ds) -> (d = "0"%char -> ds = []) -> all_digits fs -> exponent_text ex x ->
  number_end t = true ->
  read_number ((if s then ["-"%char] else []) ++ (d :: ds)
               ++ (match fs with [] => [] | _ => "."%char :: fs end) ++ ex ++ t)
  = Some (round_decimal s (digits_value ((d :: ds) ++ fs)) (x - Z.of_nat (length fs)), t).
Proof.
  intros Hd Hz Hf Hex Ht. destruct (Hex t Ht) as (He & Hy).
  set (tail := (match fs with [] => [] | _ => "."%char :: fs end) ++ ex ++ t).
  assert (Hs : span_digits ((d :: ds) ++ tail) = (d :: ds, tail)).
  { subst tail. apply span_digits_app; [done|]. destruct fs; [by apply no_fraction_digit|done]. }
  assert (Hneg : read_number ((if s then ["-"%char] else []) ++ (d :: ds) ++ tail)
          = read_number ((if s then ["-"%char] else []) ++ (d :: ds) ++ tail)) by done.
  unfold read_number at 2 in Hneg. rewrite Hneg. clear Hneg.
  assert (Hsign : match (if s then ["-"%char] else []) ++ (d :: ds) ++ tail with
                  | c0 :: r0 => if Ascii.eqb c0 "-" then (true, r0)
                                else (false, (if s then ["-"%char] else []) ++ (d :: ds) ++ tail)
                  | [] => (false, (if s then ["-"%char] else []) ++ (d :: ds) ++ tail)
                  end = (s, (d :: ds) ++ tail)).
  { destruct s; [done|]. apply Forall_cons in Hd as [Hd _]. cbn [app]. by rewrite (proj1 (digit_not d Hd)). }
  rewrite Hsign, Hs. cbn iota beta.
  assert (Hlead : Ascii.eqb d "0" && negb (match ds with [] => true | _ => false end) = false).
  { destruct (Ascii.eqb_spec d "0"); [|done]. by rewrite Hz. }
  rewrite Hlead. subst tail. destruct fs as [|f fs].
  - cbn [app length]. rewrite !app_nil_r.
    assert (Hfrac : match ex ++ t with
                    | [] => Some ([], ex ++ t)
                    | c :: r => if Ascii.eqb c "." then match span_digits r with
                                                        | ([], _) => None
                                                        | (fs, rest) => Some (fs, rest)
                                                        end else Some ([], ex ++ t)
                    end = Some ([], ex ++ t)).
    { destruct (ex ++ t) as [|c r]; [done|]. simpl in Hy. destruct (Ascii.eqb c "."); [|done].
      by rewrite orb_true_r in Hy. }
    rewrite Hfrac, He. cbn [length]. by rewrite !app_nil_r.
  - cbn [app]. change (Ascii.eqb "." ".") with true. cbn iota.
    assert (Hsf : span_digits (f :: fs ++ ex ++ t) = (f :: fs, ex ++ t)).
    { apply (span_digits_app (f :: fs)); [done|by apply no_fraction_digit]. }
    by rewrite Hsf, He.
Qed.

Lemma format_loop_max fuel : forall z acc, (length (format_loop fuel z acc) <= fuel + length acc)%nat.
Proof.
  induction fuel as [|fuel IH]; intros z acc; simpl; [lia|].
  case_match; [simpl; lia|]. etrans; [apply IH|]. simpl. lia.
Qed.

Lemma FormatUint_max z : (length (FormatUint z) <= 20)%nat.
Proof. etrans; [apply format_loop_max|]. done. Qed.

(** [d * 10^q] written with its digits and the position of the point. *)
Section printed.
Context (s : bool) (d q : Z) (Hd : 0 < d <= 10 ^ 17) (t : list ascii).
Context (Ht : number_end t = true).
Let ds := FormatUint d.
Let sign := if s then ["-"%char] else [].

Lemma printed_digits : exists y ys, ds = y :: ys /\ all_digits (y :: ys) /\ (y = "0"%char -> ys = [])
  /\ digits_value (y :: ys) = d.
Proof.
  assert (Hm : 0 <= d <= max_uint64) by (unfold max_uint64; lia).
  pose proof (FormatUint_digits d ltac:(lia)) as H1. pose proof (FormatUint_nonempty d) as H2.
  pose proof (FormatUint_no_leading_zero d Hm) as H3. pose proof (digits_value_format d Hm) as H4.
  subst ds. destruct (FormatUint d) as [|y ys]; [done|]. exists y, ys. split_and!; try done.
  intros ->. by destruct ys.
Qed.

Lemma format_fixed_reads : let point := Z.of_nat (length ds) + q in
  read_number (sign ++ format_fixed ds point ++ t) = Some (round_decimal s d q, t).
Proof.
  intros point. assert (Hpt : point = Z.of_nat (length ds) + q) by done. clearbody point.
  destruct printed_digits as (y & ys & E & Hds & Hz & Hv). unfold format_fixed.
  pose proof exponent_none as He. subst sign.
  destruct (Z.leb_spec point 0) as [Hp|Hp]; [|destruct (Z.leb_spec (Z.of_nat (length ds)) point) as [Hn|Hn]].
  - set (fs := zeroes (- point) ++ ds).
    assert (Hfs : all_digits fs) by (apply Forall_app; split; [apply zeroes_digits|by rewrite E]).
    assert (Hne : match fs with [] => [] | _ => "."%char :: fs end = "."%char :: fs).
    { subst fs. rewrite E. by destruct (zeroes (- point)). }
    rewrite <- Hne.
    pose proof (read_number_parts s "0" [] fs [] 0 t) as H. simpl app at 4 in H.
    etrans; [apply H; [by repeat constructor|done..]|].
    replace (digits_value (["0"%char] ++ fs)) with d.
    2: { subst fs. rewrite !digits_value_app, digits_value_zeroes, E, Hv. by vm_compute (digits_value ["0"%char]). }
    do 3 f_equal. subst fs. rewrite length_app, Nat2Z.inj_add, length_zeroes by lia. lia.
  - rewrite E in *. destruct (decide (y = "0"%char)) as [->|Hy0].
    { rewrite Hz in * by done. exfalso. vm_compute in Hv. lia. }
    pose proof (read_number_parts s y (ys ++ zeroes (point - Z.of_nat (length (y :: ys)))) [] [] 0 t) as H.
    cbn [app] in H |- *. rewrite <- app_assoc in H |- *. cbn [app] in H |- *.
    etrans; [apply H; try done|].
    + apply Forall_cons in Hds as [H1 H2]. constructor; [done|]. apply Forall_app. split; [done|apply zeroes_digits].
    + constructor.
    + rewrite app_nil_r.
      change (y :: ys ++ zeroes (point - Z.of_nat (length (y :: ys))))
        with ((y :: ys) ++ zeroes (point - Z.of_nat (length (y :: ys)))).
      rewrite digits_value_app, digits_value_zeroes, Hv, length_zeroes, Z.add_0_r by lia.
      rewrite round_decimal_shift_many by lia. do 3 f_equal. simpl length in *. lia.
  - rewrite E in *. destruct (Z.to_nat point) as [|k] eqn:Ek; [lia|]. cbn [take drop app].
    set (fs := drop k ys).
    assert (Hlen : (length fs = length ys - k)%nat) by apply length_drop.
    assert (Hne : match fs with [] => [] | _ => "."%char :: fs end = "."%char :: fs).
    { destruct fs; [simpl in *; lia|done]. }
    rewrite <- app_assoc. cbn [app]. change ("."%char :: fs ++ t) with (("."%char :: fs) ++ t).
    rewrite <- Hne. apply Forall_cons in Hds as [H1 H2].
    etrans; [apply (read_number_parts s y (take k ys) fs [] 0 t); try done|].
    + constructor; [done|by apply Forall_take].
    + intros Hy. rewrite Hz by done. by destruct k.
    + by apply Forall_drop.
    + cbn [app]. subst fs. rewrite take_drop, Hv. do 3 f_equal. simpl length in *. lia.
Qed.

Lemma format_exponent_reads : Z.abs q <= 10 ^ 6 ->
  read_number (sign ++ format_exponent ds (Z.of_nat (length ds) + q - 1) ++ t)
  = Some (round_decimal s d q, t).
Proof.
  intros Hq. destruct printed_digits as (y & ys & E & Hds & Hz & Hv). rewrite E in *. unfold format_exponent.
  set (x := Z.of_nat (length (y :: ys)) + q - 1).
  assert (Hlen : (length ds <= 20)%nat) by (subst ds; apply FormatUint_max).
  rewrite E in Hlen. apply Forall_cons in Hds as [H1 H2].
  assert (Hx : exponent_text ("e"%char :: (if x <? 0 then "-"%char else "+"%char) :: FormatUint (Z.abs x)) x).
  { apply exponent_some. subst x. unfold max_uint64. lia. }
  set (ex := "e"%char :: (if x <? 0 then "-"%char else "+"%char) :: FormatUint (Z.abs x)) in *.
  replace ((y :: match ys with [] => [] | _ :: _ => "."%char :: ys end) ++ ex)
    with ((y :: []) ++ (match ys with [] => [] | _ :: _ => "."%char :: ys end) ++ ex) by done.
  rewrite <- !app_assoc.
  etrans; [apply (read_number_parts s y [] ys ex x t); try done; by constructor|].
  cbn [app]. rewrite Hv. do 3 f_equal. subst x. simpl length. lia.
Qed.

End printed.

(** The exponent of what is printed is small. *)
Lemma strip_zeroes_exponent n : forall d q d' q',
  strip_zeroes n d q = (d', q') -> q <= q' <= q + Z.of_nat n.
Proof.
  induction n as [|n IH]; intros d q d' q' H; simpl in H; [injection H; lia|].
  destruct ((d mod 10 =? 0) && negb (d =? 0)); [|injection H; lia]. apply IH in H. lia.
Qed.

Lemma decimal_exponent_range m e : bounded 53 1024 m e = true ->
  -1100 <= decimal_exponent (Zpos m) e <= 1100.
Proof.
  intros Hb. destruct (decimal_exponent_spec m e Hb) as [H1 H2].
  pose proof (bounded_spec _ _ Hb) as [Hc Hmax]. pose proof (digits_bounds m) as [_ Hm].
  assert (Hm53 : Zpos m < 2 ^ 53) by (eapply Z.lt_le_trans; [exact Hm|apply Z.pow_le_mono_r; lia]).
  set (k := decimal_exponent (Zpos m) e) in *. unfold below_pow10 in H1, H2.
  apply Z.ltb_ge in H1. apply Z.ltb_lt in H2. split.
  - destruct (Z.le_gt_cases (-1100) k) as [|Hk]; [done|exfalso].
    replace (Z.max 0 (k + 1)) with 0 in H2 by lia. replace (Z.max 0 (- (k + 1))) with (- (k + 1)) in H2 by lia.
    assert (2 ^ Z.max 0 (- e) <= 10 ^ (- (k + 1))).
    { etrans; [|apply pow2_le_pow10; lia]. apply Z.pow_le_mono_r; lia. }
    pose proof (Z.pow_pos_nonneg 2 (Z.max 0 e) ltac:(lia) ltac:(lia)).
    rewrite Z.pow_0_r, Z.mul_1_l in H2. assert (1 <= Zpos m * 2 ^ Z.max 0 e) by lia.
    clear - H H0 H2 H3. generalize dependent (10 ^ (- (k + 1))). intros x. nia.
  - destruct (Z.le_gt_cases k 1100) as [|Hk]; [done|exfalso].
    replace (Z.max 0 k) with k in H1 by lia. replace (Z.max 0 (- k)) with 0 in H1 by lia.
    assert (Zpos m * 2 ^ Z.max 0 e < 10 ^ k).
    { eapply Z.lt_le_trans; [apply Z.mul_lt_mono_pos_r; [apply Z.pow_pos_nonneg; lia|exact Hm53]|].
      rewrite <- Z.pow_add_r by lia. etrans; [|apply pow2_le_pow10; lia]. apply Z.pow_le_mono_r; lia. }
    pose proof (Z.pow_pos_nonneg 2 (Z.max 0 (- e)) ltac:(lia) ltac:(lia)).
    rewrite Z.pow_0_r, Z.mul_1_r in H1. clear - H H0 H1. generalize dependent (10 ^ k). intros x. nia.
Qed.

Lemma shortest_exponent m e d q : bounded 53 1024 m e = true -> shortest m e = (d, q) -> Z.abs q <= 10 ^ 6.
Proof.
  intros Hb. pose proof (decimal_exponent_range m e Hb) as Hk. unfold shortest.
  destruct (shortest_from 17 1 m e) as [d' q'] eqn:E. intros H%strip_zeroes_exponent.
  cut (Z.abs q' <= 10 ^ 5); [lia|].
  assert (Hf : forall n p, (p + n = 18)%nat -> shortest_from n p m e = (d', q') -> Z.abs q' <= 10 ^ 5); [|by apply (Hf 17%nat 1%nat)].
  clear - Hk. induction n as [|n IH]; intros p Hp Hs; simpl in Hs; [injection Hs; lia|].
  destruct (with_digits m e p) as [[d1 q1]|] eqn:E1; [|by apply (IH (S p)); [lia|]].
  injection Hs as -> ->. unfold with_digits in E1. repeat case_match; simplify_eq; lia.
Qed.

(** The float64 values that are finite: what a literal can denote. *)
Definition finite (x : f64) : bool := valid_binary 53 1024 x && negb (is_nan x) && negb (is_inf x).

Lemma format_number_reads x t : finite x = true -> number_end t = true ->
  read_number (format_number x ++ t) = Some (x, t).
Proof.
  intros Hx Hc. unfold finite in Hx. destruct x as [s|s| |s m e]; try done.
  - pose proof (read_number_parts s "0" [] [] [] 0 t) as H. specialize (H ltac:(by repeat constructor)).
    destruct s; (etrans; [apply H; [done|constructor|apply exponent_none|done]|done]).
  - assert (Hb : bounded 53 1024 m e = true) by (simpl in Hx; by rewrite !andb_true_r in Hx).
    cbn [format_number]. destruct (shortest m e) as [d q] eqn:E.
    pose proof (shortest_reads m e Hb d q E) as [Hd Hr].
    assert (Hs : round_decimal s d q = S754_finite s m e) by (destruct s; [by apply round_ratio_negative|done]).
    rewrite <- app_assoc, <- Hs. destruct (_ || _).
    + apply format_exponent_reads; [done..|]. by apply (shortest_exponent m e d).
    + by apply format_fixed_reads.
Qed.

(** ** A literal denotes a float64 *)

Lemma round_div_bounds a b lo hi : 0 < b -> lo * b <= a -> a < hi * b -> lo <= round_div a b <= hi.
Proof.
  intros Hb H1 H2. unfold round_div.
  assert (lo <= a / b) by (apply Z.div_le_lower_bound; lia).
  assert (a / b < hi) by (apply Z.div_lt_upper_bound; lia).
  repeat case_match; lia.
Qed.

Lemma bounded_intro m e : Zpos m < 2 ^ 53 -> -1074 <= e <= 971 ->
  (e = -1074 \/ 2 ^ 52 <= Zpos m) -> bounded 53 1024 m e = true.
Proof.
  intros Hm He Hlow. pose proof (digits_le_53 m Hm) as Hd. unfold bounded, canonical_mantissa, fexp, emin.
  assert (Hd' : e = -1074 \/ Zpos (digits2_pos m) = 53).
  { destruct Hlow as [|Hlow]; [by left|right]. by apply digits_unique. }
  apply andb_true_intro. split; [apply Z.eqb_eq; lia|apply Z.leb_le; lia].
Qed.

Lemma round_ratio_valid s num den : 0 <= num -> 0 < den ->
  valid_binary 53 1024 (round_ratio s num den) = true /\ is_nan (round_ratio s num den) = false.
Proof.
  intros Hn0 Hd. unfold round_ratio. destruct (Z.eqb_spec num 0); [done|].
  assert (Hn : 0 < num) by lia. destruct (binade_spec num den Hn Hd) as [H1 H2].
  set (B := binade num den) in *. set (e := fexp 53 1024 B).
  assert (He : e = Z.max (B - 53) (-1074)) by (unfold e, fexp, emin; lia).
  set (N := num * 2 ^ Z.max 0 (- e)). set (D := den * 2 ^ Z.max 0 e).
  assert (HD : 0 < D) by (apply Z.mul_pos_pos; [done|apply Z.pow_pos_nonneg; lia]).
  assert (HN : 0 < N) by (apply Z.mul_pos_pos; [done|apply Z.pow_pos_nonneg; lia]).
  assert (Hhi : N < 2 ^ 53 * D).
  { assert (Hp : pow2_le num den (53 + e) = false).
    { destruct (pow2_le num den (53 + e)) eqn:E; [|done].
      apply (pow2_le_mono _ _ B) in E; [congruence|done|lia]. }
    rewrite (pow2_le_scaled _ _ e), Z.leb_gt in Hp by lia. fold N D in Hp.
    replace (53 + e - e) with 53 in Hp by lia. lia. }
  assert (Hlo : e = -1074 \/ 2 ^ 52 * D <= N).
  { destruct (Z.eq_dec e (-1074)); [by left|right].
    rewrite (pow2_le_scaled _ _ e), Z.leb_le in H1 by lia. fold N D in H1.
    replace (B - 1 - e) with 52 in H1 by lia. lia. }
  pose proof (round_div_bounds N D 0 (2 ^ 53) HD ltac:(lia) Hhi) as [Hm0 Hm1].
  assert (Hm2 : e = -1074 \/ 2 ^ 52 <= round_div N D).
  { destruct Hlo as [|Hlo]; [by left|right]. by apply (round_div_bounds N D _ (2 ^ 53)). }
  generalize dependent (round_div N D). intros m Hm0 Hm1 Hm2.
  destruct (Z.eqb_spec m (2 ^ 53)) as [->|Hne].
  - change (2 ^ 52) with (Zpos 4503599627370496). destruct (Z.leb_spec (e + 1) 971); [|done].
    split; [|done]. apply bounded_intro; [done|lia|by right].
  - destruct m as [|p|p]; [done| |done]. destruct (Z.leb_spec e 971); [|done].
    split; [|done]. apply bounded_intro; [lia|lia|done].
Qed.

Lemma digits_value_nonneg l : all_digits l -> 0 <= digits_value l.
Proof.
  intros Hl. unfold digits_value. assert (Hg : forall a, 0 <= a ->
    0 <= fold_left (fun acc c => 10 * acc + (byte_val c - 48)) l a); [|by apply Hg].
  induction Hl as [|c l Hc _ IH]; intros a Ha; [done|]. simpl. apply IH. unfold is_digit in Hc. lia.
Qed.

Lemma span_digits_digits l : all_digits (span_digits l).1.
Proof.
  induction l as [|c l IH]; simpl; [constructor|]. destruct (is_digit c) eqn:E; [|constructor].
  destruct (span_digits l) as [ds rest]. simpl in *. by constructor.
Qed.

Lemma read_number_valid l x r : read_number l = Some (x, r) -> is_inf x = false -> finite x = true.
Proof.
  intros H Hi. unfold read_number in H. destruct (match l with [] => _ | _ => _ end) as [s l1].
  pose proof (span_digits_digits l1) as Hd. destruct (span_digits l1) as [[|d ds] l2]; [done|].
  destruct (_ && _); [done|]. destruct (match l2 with [] => _ | _ => _ end) as [[fs l3]|] eqn:Ef; [|done].
  destruct (read_exponent l3) as [[e l4]|]; [|done]. injection H as <- _.
  assert (Hf : all_digits fs).
  { destruct l2 as [|c l2]; [injection Ef as <- <-; constructor|].
    destruct (Ascii.eqb c "."); [|injection Ef as <- <-; constructor].
    pose proof (span_digits_digits l2) as Hl2. destruct (span_digits l2) as [[|y ys] t]; [done|].
    by injection Ef as <- <-. }
  unfold finite, round_decimal. set (v := digits_value _).
  assert (Hv : 0 <= v) by (by apply digits_value_nonneg, (Forall_app_2 _ (d :: ds))).
  destruct (round_ratio_valid s (v * 10 ^ Z.max 0 (e - Z.of_nat (length fs)))
              (10 ^ Z.max 0 (- (e - Z.of_nat (length fs))))) as [H1 H2].
  - apply Z.mul_nonneg_nonneg; [done|apply Z.pow_nonneg; lia].
  - apply Z.pow_pos_nonneg; lia.
  - unfold round_decimal in Hi. fold v in Hi. by rewrite H1, H2, Hi.
Qed.
