(* ===== verification/GoJson.v ===== *)
(** * encoding/json as the program uses it

    Strings as [json.Marshal] quotes them (with its HTML escapes), objects of a
    struct of strings and integers, and the reading of an arbitrary value into
    an [any] and its printing: numbers are binary64 values printed with the
    fewest digits that read back, members are sorted by name and the last of
    several with one name wins. *)

From S2P Require Import Prelude GoFloat GoStrings GoDecimal.
From Stdlib Require Import Floats.SpecFloat.

Local Open Scope Z_scope.

Definition ch_quote : ascii := byte_of 34.
Definition ch_backslash : ascii := byte_of 92.

(** ** Strings *)

Definition hex4 (n : Z) : list ascii :=
  [hex_byte (n / 4096 mod 16); hex_byte (n / 256 mod 16); hex_byte (n / 16 mod 16);
   hex_byte (n mod 16)].

Definition unicode_escape (n : Z) : list ascii := ch_backslash :: "u"%char :: hex4 n.

Definition escape_ascii (c : ascii) : list ascii :=
  let x := byte_val c in
  if (x =? 34) || (x =? 92) then [ch_backslash; c]
  else if x =? 8 then [ch_backslash; "b"%char]
  else if x =? 9 then [ch_backslash; "t"%char]
  else if x =? 10 then [ch_backslash; "n"%char]
  else if x =? 12 then [ch_backslash; "f"%char]
  else if x =? 13 then [ch_backslash; "r"%char]
  else if (x <? 32) || (x =? 60) || (x =? 62) || (x =? 38) then unicode_escape x
  else [c].

(** U+2028 and U+2029. *)
Definition line_separator (l : list ascii) : option Z :=
  match byte_val <$> l with
  | [226; 128; 168] => Some 8232
  | [226; 128; 169] => Some 8233
  | _ => None
  end.

(** The rune at the front of [c :: l], of [n] bytes [r]. *)
Definition quote_rune (c : ascii) (r : list ascii) : list ascii :=
  if byte_val c <? 128 then escape_ascii c
  else if (length r =? 1)%nat then unicode_escape 65533
  else match line_separator r with
       | Some n => unicode_escape n
       | None => r
       end.

Fixpoint quote_body (fuel : nat) (l : list ascii) : list ascii :=
  match fuel, l with
  | S fuel', c :: _ =>
      let n := rune_len l in
      quote_rune c (take n l) ++ quote_body fuel' (drop n l)
  | _, _ => []
  end.

Definition quote (s : string) : list ascii :=
  let l := bytes_of s in ch_quote :: quote_body (length l) l ++ [ch_quote].

Definition hex_digit_val (c : ascii) : option Z :=
  let x := byte_val c in
  if (48 <=? x) && (x <=? 57) then Some (x - 48)
  else if (97 <=? x) && (x <=? 102) then Some (x - 87)
  else if (65 <=? x) && (x <=? 70) then Some (x - 55)
  else None.

(** Four hexadecimal digits. *)
Definition read_hex4 (l : list ascii) : option (Z * list ascii) :=
  match l with
  | a :: b :: c :: d :: r =>
      match hex_digit_val a, hex_digit_val b, hex_digit_val c, hex_digit_val d with
      | Some w, Some x, Some y, Some z => Some (4096 * w + 256 * x + 16 * y + z, r)
      | _, _, _, _ => None
      end
  | _ => None
  end.

(** [utf8.EncodeRune] of a rune that is not a surrogate. *)
Definition encode_rune (n : Z) : list ascii :=
  if n <? 128 then [byte_of n]
  else if n <? 2048 then [byte_of (192 + n / 64); byte_of (128 + n mod 64)]
  else if n <? 65536 then
    [byte_of (224 + n / 4096); byte_of (128 + n / 64 mod 64); byte_of (128 + n mod 64)]
  else [byte_of (240 + n / 262144); byte_of (128 + n / 4096 mod 64);
        byte_of (128 + n / 64 mod 64); byte_of (128 + n mod 64)].

Definition rune_error : list ascii := encode_rune 65533.

(** The rune after [\u], a surrogate pair counting as one; a lone surrogate is
    replaced. *)
Definition read_escape (l : list ascii) : option (list ascii * list ascii) :=
  match read_hex4 l with
  | None => None
  | Some (n, r) =>
      if (55296 <=? n) && (n <? 57344) then
        match (if n <? 56320 then
                 match r with
                 | b :: u :: r' =>
                     if Ascii.eqb b ch_backslash && Ascii.eqb u "u" then read_hex4 r' else None
                 | _ => None
                 end
               else None) with
        | Some (m, r'') =>
            if (56320 <=? m) && (m <? 57344)
            then Some (encode_rune (65536 + (n - 55296) * 1024 + (m - 56320)), r'')
            else Some (rune_error, r)
        | None => Some (rune_error, r)
        end
      else Some (encode_rune n, r)
  end.

(** The byte after a backslash, other than [u]. *)
Definition simple_escape (c : ascii) : option ascii :=
  let x := byte_val c in
  if (x =? 34) || (x =? 92) || (x =? 47) then Some c
  else if Ascii.eqb c "b" then Some (byte_of 8)
  else if Ascii.eqb c "t" then Some (byte_of 9)
  else if Ascii.eqb c "n" then Some (byte_of 10)
  else if Ascii.eqb c "f" then Some (byte_of 12)
  else if Ascii.eqb c "r" then Some (byte_of 13)
  else None.

Definition prepend (p : list ascii) (r : option (list ascii * list ascii)) :=
  match r with
  | Some (s, rest) => Some (p ++ s, rest)
  | None => None
  end.

(** The contents of a string literal up to its closing quote, and what follows. *)
Fixpoint unquote_body (fuel : nat) (l : list ascii) : option (list ascii * list ascii) :=
  match fuel, l with
  | S fuel', c :: r =>
      if Ascii.eqb c ch_quote then Some ([], r)
      else if Ascii.eqb c ch_backslash then
        match r with
        | e :: r' =>
            if Ascii.eqb e "u" then
              match read_escape r' with
              | Some (p, r'') => prepend p (unquote_body fuel' r'')
              | None => None
              end
            else match simple_escape e with
                 | Some b => prepend [b] (unquote_body fuel' r')
                 | None => None
                 end
        | [] => None
        end
      else if byte_val c <? 32 then None
      else prepend [c] (unquote_body fuel' r)
  | _, _ => None
  end.

(** Bytes that are not UTF-8 are replaced, each by U+FFFD. *)
Fixpoint sanitize (fuel : nat) (l : list ascii) : list ascii :=
  match fuel, l with
  | S fuel', c :: _ =>
      let n := rune_len l in
      (if (n =? 1)%nat && (128 <=? byte_val c) then rune_error else take n l)
      ++ sanitize fuel' (drop n l)
  | _, _ => []
  end.

(** [utf8.ValidString]. *)
Fixpoint valid_bytes (fuel : nat) (l : list ascii) : bool :=
  match fuel, l with
  | S fuel', c :: _ =>
      let n := rune_len l in
      ((byte_val c <? 128) || negb (n =? 1)%nat) && valid_bytes fuel' (drop n l)
  | _, [] => true
  | O, _ => false
  end.

Definition ValidString (s : string) : bool :=
  let l := bytes_of s in valid_bytes (length l) l.

(** ** Values *)

Inductive json : Type :=
| JNull
| JBool (b : bool)
| JNumber (x : f64)
| JString (s : string)
| JArray (l : list json)
| JObject (l : list (string * json)).

(** [m[k] = v] on a map kept sorted by name. *)
Fixpoint put_member (k : string) (v : json) (l : list (string * json)) : list (string * json) :=
  match l with
  | [] => [(k, v)]
  | (k', v') :: r =>
      if String.eqb k k' then (k, v) :: r
      else if bool_decide (String.le k k') then (k, v) :: l
      else (k', v') :: put_member k v r
  end.

Definition sep_list (l : list (list ascii)) : list ascii :=
  match l with
  | [] => []
  | x :: r => x ++ flat_map (fun y => ","%char :: y) r
  end.

Fixpoint print_json (v : json) : list ascii :=
  match v with
  | JNull => bytes_of "null"
  | JBool b => bytes_of (if b then "true" else "false")
  | JNumber x => format_number x
  | JString s => quote s
  | JArray l => "["%char :: sep_list (map print_json l) ++ ["]"%char]
  | JObject l =>
      "{"%char :: sep_list (map (fun kv => quote kv.1 ++ ":"%char :: print_json kv.2) l)
      ++ ["}"%char]
  end.

Definition is_json_space (c : ascii) : bool :=
  let x := byte_val c in (x =? 32) || (x =? 9) || (x =? 10) || (x =? 13).

Fixpoint skip_ws (l : list ascii) : list ascii :=
  match l with
  | c :: r => if is_json_space c then skip_ws r else l
  | [] => []
  end.

Definition strip_prefix (p l : list ascii) : option (list ascii) :=
  if bool_decide (take (length p) l = p) then Some (drop (length p) l) else None.

(** A string literal as a Go string. *)
Definition read_string (l : list ascii) : option (string * list ascii) :=
  match unquote_body (length l) l with
  | Some (s, r) => Some (string_of (sanitize (length s) s), r)
  | None => None
  end.

(** Values may be nested 10,000 deep. *)
Definition max_nesting : nat := Z.to_nat 10000.

(** [read_value] reads one value, [read_items] the rest of an array and
    [read_members] the rest of an object; each step consumes a byte, so a fuel
    above twice the length is enough.  [typed]: a number outside float64 is an
    error. *)
Fixpoint read_value (typed : bool) (fuel depth : nat) (l : list ascii) {struct fuel}
    : option (json * list ascii) :=
  match fuel with
  | O => None
  | S fuel' =>
      match skip_ws l with
      | [] => None
      | c :: r =>
          if Ascii.eqb c "{" then
            match depth with
            | O => None
            | S depth' =>
                match skip_ws r with
                | d :: r' => if Ascii.eqb d "}" then Some (JObject [], r')
                             else read_members typed fuel' depth' [] (d :: r')
                | [] => None
                end
            end
          else if Ascii.eqb c "[" then
            match depth with
            | O => None
            | S depth' =>
                match skip_ws r with
                | d :: r' => if Ascii.eqb d "]" then Some (JArray [], r')
                             else read_items typed fuel' depth' [] (d :: r')
                | [] => None
                end
            end
          else if Ascii.eqb c ch_quote then
            match read_string r with Some (s, r') => Some (JString s, r') | None => None end
          else match strip_prefix (bytes_of "null") (c :: r) with
          | Some r' => Some (JNull, r')
          | None => match strip_prefix (bytes_of "true") (c :: r) with
          | Some r' => Some (JBool true, r')
          | None => match strip_prefix (bytes_of "false") (c :: r) with
          | Some r' => Some (JBool false, r')
          | None =>
              match read_number (c :: r) with
              | Some (x, r') => if typed && is_inf x then None else Some (JNumber x, r')
              | None => None
              end
          end end end
      end
  end
with read_items (typed : bool) (fuel depth : nat) (acc : list json) (l : list ascii) {struct fuel}
    : option (json * list ascii) :=
  match fuel with
  | O => None
  | S fuel' =>
      match read_value typed fuel' depth l with
      | None => None
      | Some (v, r) =>
          match skip_ws r with
          | d :: r' => if Ascii.eqb d "," then read_items typed fuel' depth (v :: acc) r'
                       else if Ascii.eqb d "]" then Some (JArray (rev (v :: acc)), r')
                       else None
          | [] => None
          end
      end
  end
with read_members (typed : bool) (fuel depth : nat) (acc : list (string * json)) (l : list ascii)
    {struct fuel} : option (json * list ascii) :=
  match fuel with
  | O => None
  | S fuel' =>
      match skip_ws l with
      | [] => None
      | c :: r =>
          if Ascii.eqb c ch_quote then
            match read_string r with
            | None => None
            | Some (k, r1) =>
                match skip_ws r1 with
                | [] => None
                | d :: r2 =>
                    if Ascii.eqb d ":" then
                      match read_value typed fuel' depth r2 with
                      | None => None
                      | Some (v, r3) =>
                          match skip_ws r3 with
                          | e :: r4 =>
                              if Ascii.eqb e "," then read_members typed fuel' depth (put_member k v acc) r4
                              else if Ascii.eqb e "}" then Some (JObject (put_member k v acc), r4)
                              else None
                          | [] => None
                          end
                      end
                    else None
                end
            end
          else None
      end
  end.

(** One value and nothing after it. *)
Definition read_json (typed : bool) (raw : string) : option json :=
  let l := bytes_of raw in
  match read_value typed (2 * length l + 2) max_nesting l with
  | Some (v, r) => match skip_ws r with [] => Some v | _ => None end
  | None => None
  end.

(** [json.Unmarshal] into an [any]. *)
Definition Unmarshal (raw : string) : option json := read_json true raw.

(** [json.Unmarshal] into a [map[string]json.RawMessage]: the members, whose
    values stay unread. *)
Definition UnmarshalMembers (raw : string) : option (list (string * json)) :=
  match read_json false raw with
  | Some (JObject l) => Some l
  | Some JNull => Some []
  | _ => None
  end.

Definition Marshal (v : json) : string := string_of (print_json v).

(** ** Objects of a struct

    The fields of a struct in order: strings, integers, booleans and finite
    floats. *)

Inductive field : Type :=
| FString (s : string)
| FInt (n : Z)
| FBool (b : bool)
| FFloat (x : f64).

Definition print_field (f : field) : list ascii :=
  match f with
  | FString s => quote s
  | FInt n => FormatInt n
  | FBool b => bytes_of (if b then "true" else "false")
  | FFloat x => format_number x
  end.

Definition print_member (kv : string * field) : list ascii :=
  quote kv.1 ++ ":"%char :: print_field kv.2.

Definition print_struct (l : list (string * field)) : list ascii :=
  "{"%char :: sep_list (print_member <$> l) ++ ["}"%char].

(** A slice of structs. *)
Definition print_structs (l : list (list (string * field))) : list ascii :=
  "["%char :: sep_list (print_struct <$> l) ++ ["]"%char].

Example number_examples :
  map (fun s => option_map Marshal (Unmarshal s))
    ["0.000001"; "1E-7"; "1e21"; "-0"; "0.1"; "1e23"; "5e-324"; "9007199254740993"; "1e400"; "01"]%string
  = [Some "0.000001"; Some "1e-7"; Some "1e+21"; Some "-0"; Some "0.1"; Some "1e+23"; Some "5e-324";
     Some "9007199254740992"; None; None]%string.
Proof. vm_compute. reflexivity. Qed.

(** ** A quoted string reads back *)

Lemma rune_len_bounds c l : (1 <= rune_len (c :: l) <= length (c :: l))%nat.
Proof. unfold rune_len. destruct l as [|b [|d [|e l]]]; repeat case_match; simpl; lia. Qed.

Lemma is_cont_high c : is_cont c = true -> 128 <= byte_val c.
Proof. unfold is_cont. lia. Qed.

Lemma rune_bytes_high c l : (1 < rune_len (c :: l))%nat ->
  Forall (fun b => 128 <= byte_val b) (take (rune_len (c :: l)) (c :: l)).
Proof.
  unfold rune_len. destruct l as [|b [|d [|e l]]]; simpl; try lia;
    repeat case_match; simpl; try lia; intros _;
    repeat match goal with H : (_ && _)%bool = true |- _ => apply andb_prop in H as [? ?] end;
    repeat constructor; try (by apply is_cont_high);
    repeat match goal with H : (_ || _)%bool = true |- _ => apply orb_prop in H as [H|H] end;
    repeat match goal with H : (_ && _)%bool = true |- _ => apply andb_prop in H as [? ?] end;
    try (by apply is_cont_high); lia.
Qed.

Lemma hex_digit_val_byte n : 0 <= n < 16 -> hex_digit_val (hex_byte n) = Some n.
Proof.
  intros Hn. unfold hex_digit_val, hex_byte.
  destruct (n <? 10) eqn:En; rewrite byte_val_of by lia; cbv zeta.
  - replace ((48 <=? 48 + n) && (48 + n <=? 57)) with true by lia. f_equal. lia.
  - replace ((48 <=? 87 + n) && (87 + n <=? 57)) with false by lia.
    replace ((97 <=? 87 + n) && (87 + n <=? 102)) with true by lia. f_equal. lia.
Qed.

Lemma read_hex4_hex4 n l : 0 <= n < 65536 -> read_hex4 (hex4 n ++ l) = Some (n, l).
Proof.
  intros Hn. unfold read_hex4, hex4. simpl.
  rewrite !hex_digit_val_byte by (Z.to_euclidean_division_equations; lia).
  f_equal. f_equal. Z.to_euclidean_division_equations; lia.
Qed.

Lemma unquote_body_mono n : forall m l x, (n <= m)%nat ->
  unquote_body n l = Some x -> unquote_body m l = Some x.
Proof.
  induction n as [|n IH]; intros [|m] l x Hle H; try done; [lia|].
  assert (Hp : forall p k y, prepend p (unquote_body n k) = Some y ->
                             prepend p (unquote_body m k) = Some y).
  { intros p k y Hk. destruct (unquote_body n k) as [z|] eqn:E; [|done].
    by rewrite (IH m k z) by (done || lia). }
  destruct l as [|c r]; [done|]. simpl in *.
  destruct (Ascii.eqb c ch_quote); [done|]. destruct (Ascii.eqb c ch_backslash).
  - destruct r as [|e r']; [done|]. destruct (Ascii.eqb e "u").
    + destruct (read_escape r') as [[p r'']|]; [|done]. by apply Hp.
    + destruct (simple_escape e); [|done]. by apply Hp.
  - destruct (byte_val c <? 32); [done|]. by apply Hp.
Qed.

Lemma unquote_body_more n fuel l x :
  unquote_body fuel l = Some x -> unquote_body (n + fuel) l = Some x.
Proof. apply unquote_body_mono. lia. Qed.

(** [out] is read as the bytes [r], whatever follows. *)
Definition reads_as (out r : list ascii) : Prop :=
  forall fuel k s rest, unquote_body fuel k = Some (s, rest) ->
    unquote_body (length out + fuel) (out ++ k) = Some (r ++ s, rest).

Lemma reads_as_app o1 r1 o2 r2 : reads_as o1 r1 -> reads_as o2 r2 -> reads_as (o1 ++ o2) (r1 ++ r2).
Proof.
  intros H1 H2 fuel k s rest Hk. rewrite length_app, <- !app_assoc, <- Nat.add_assoc. by apply H1, H2.
Qed.

Lemma reads_as_nil : reads_as [] [].
Proof. by intros fuel k s rest Hk. Qed.

Lemma reads_as_self c : c <> ch_quote -> c <> ch_backslash -> 32 <= byte_val c -> reads_as [c] [c].
Proof.
  intros H1 H2 H3 fuel k s rest Hk. simpl.
  apply Ascii.eqb_neq in H1, H2. rewrite H1, H2.
  destruct (byte_val c <? 32) eqn:E; [lia|]. by rewrite Hk.
Qed.

Lemma unquote_body_escape fuel e r :
  unquote_body (S fuel) (ch_backslash :: e :: r)
  = if Ascii.eqb e "u" then
      match read_escape r with
      | Some (p, r'') => prepend p (unquote_body fuel r'')
      | None => None
      end
    else match simple_escape e with
         | Some b => prepend [b] (unquote_body fuel r)
         | None => None
         end.
Proof. reflexivity. Qed.

Lemma reads_as_simple e c : e <> "u"%char -> simple_escape e = Some c -> reads_as [ch_backslash; e] [c].
Proof.
  intros Hu He fuel k s rest Hk.
  change (unquote_body (S (1 + fuel)) (ch_backslash :: e :: k) = Some ([c] ++ s, rest)).
  apply Ascii.eqb_neq in Hu.
  by rewrite unquote_body_escape, Hu, He, (unquote_body_more 1 fuel _ _ Hk).
Qed.

Lemma reads_as_unicode n : 0 <= n < 55296 \/ 57344 <= n < 65536 ->
  reads_as (unicode_escape n) (encode_rune n).
Proof.
  intros Hn fuel k s rest Hk.
  change (unquote_body (S (5 + fuel)) (ch_backslash :: "u"%char :: hex4 n ++ k)
          = Some (encode_rune n ++ s, rest)).
  rewrite unquote_body_escape. change (Ascii.eqb "u" "u") with true. cbv iota.
  unfold read_escape. rewrite read_hex4_hex4 by lia.
  destruct ((55296 <=? n) && (n <? 57344)) eqn:E; [lia|].
  by rewrite (unquote_body_more 5 fuel _ _ Hk).
Qed.

Lemma byte_val_is c n : byte_val c =? n = true -> c = byte_of n.
Proof. intros H. apply Z.eqb_eq in H. by rewrite <- H, byte_of_val. Qed.

Lemma escape_ascii_reads c : byte_val c < 128 -> reads_as (escape_ascii c) [c].
Proof.
  intros Hc. pose proof (byte_val_range c). unfold escape_ascii.
  repeat match goal with
  | |- context [byte_val c =? ?n] => 
      let E := fresh "E" in destruct (byte_val c =? n) eqn:E;
      [apply byte_val_is in E; subst c; cbn [orb];
       first [by apply reads_as_simple
             |match goal with |- reads_as (unicode_escape ?m) _ =>
                exact (reads_as_unicode m ltac:(vm_compute; auto with zarith)) end]|]
  end.
  cbn [orb]. case_match.
  - assert (He : encode_rune (byte_val c) = [c]).
    { unfold encode_rune. destruct (byte_val c <? 128) eqn:Ec; [|lia]. by rewrite byte_of_val. }
    rewrite <- He. apply reads_as_unicode. lia.
  - apply reads_as_self; [intros ->; vm_compute in E; done|intros ->; vm_compute in E0; done|lia].
Qed.

Lemma high_bytes_read r : Forall (fun b => 128 <= byte_val b) r -> reads_as r r.
Proof.
  induction 1 as [|c r Hc _ IH]; [apply reads_as_nil|].
  apply (reads_as_app [c] [c] r r); [|done].
  apply reads_as_self; [intros ->; vm_compute in Hc; done|intros ->; vm_compute in Hc; done|lia].
Qed.

Lemma line_separator_rune r n : line_separator r = Some n -> r = encode_rune n /\ (n = 8232 \/ n = 8233).
Proof.
  intros H.
  assert (Hr : r = byte_of <$> (byte_val <$> r)).
  { rewrite <- list_fmap_compose. symmetry. rewrite <- (list_fmap_id r) at 2.
    apply list_fmap_ext. intros. apply byte_of_val. }
  rewrite Hr. unfold line_separator in H. revert H. generalize (byte_val <$> r). intros l H.
  repeat (case_match; try done); simplify_eq; (split; [by vm_compute|auto]).
Qed.

Lemma quote_rune_reads c r :
  (byte_val c < 128 -> r = [c]) -> (128 <= byte_val c -> length r <> 1%nat) ->
  (length r <> 1%nat -> Forall (fun b => 128 <= byte_val b) r) ->
  reads_as (quote_rune c r) r.
Proof.
  intros H1 H2 H3. unfold quote_rune. destruct (byte_val c <? 128) eqn:Ec.
  - rewrite H1 by lia. apply escape_ascii_reads. lia.
  - destruct (length r =? 1)%nat eqn:El; [apply Nat.eqb_eq in El; specialize (H2 ltac:(lia)); lia|].
    apply Nat.eqb_neq in El. destruct (line_separator r) as [n|] eqn:En.
    + apply line_separator_rune in En as [-> Hn]. apply reads_as_unicode. lia.
    + by apply high_bytes_read, H3.
Qed.

Lemma rune_len_ascii c l : byte_val c < 128 -> rune_len (c :: l) = 1%nat.
Proof. intros Hc. unfold rune_len. destruct l as [|b [|d [|e l]]]; repeat case_match; lia. Qed.

Lemma quote_body_reads n : forall l, (length l <= n)%nat -> valid_bytes n l = true ->
  reads_as (quote_body n l) l.
Proof.
  induction n as [|n IH]; intros [|c l] Hl Hv; try done; try apply reads_as_nil.
  cbn [quote_body valid_bytes] in *. apply andb_prop in Hv as [Hv Hv'].
  pose proof (rune_len_bounds c l) as Hb.
  cut (reads_as (quote_rune c (take (rune_len (c :: l)) (c :: l))
                 ++ quote_body n (drop (rune_len (c :: l)) (c :: l)))
         (take (rune_len (c :: l)) (c :: l) ++ drop (rune_len (c :: l)) (c :: l)));
    [by rewrite take_drop|].
  apply reads_as_app.
  - apply quote_rune_reads; intros Hc.
    + by rewrite rune_len_ascii.
    + rewrite length_take. destruct (rune_len (c :: l) =? 1)%nat eqn:E; [lia|].
      apply Nat.eqb_neq in E. lia.
    + apply rune_bytes_high. rewrite length_take in Hc. lia.
  - apply IH; [|done]. rewrite length_drop. simpl in *. lia.
Qed.

(** The literal of a valid string determines the string and where it ends. *)
Lemma unquote_quote s rest : ValidString s = true ->
  exists fuel, unquote_body fuel (drop 1 (quote s) ++ rest) = Some (bytes_of s, rest).
Proof.
  intros Hv. pose proof (quote_body_reads _ _ (le_n _) Hv) as Hq.
  exists (length (quote_body (length (bytes_of s)) (bytes_of s)) + 1)%nat.
  change (drop 1 (quote s)) with (quote_body (length (bytes_of s)) (bytes_of s) ++ [ch_quote]).
  rewrite <- app_assoc, (Hq 1%nat _ [] rest); [|done]. by rewrite app_nil_r.
Qed.

Lemma unquote_body_det n m l x y : unquote_body n l = Some x -> unquote_body m l = Some y -> x = y.
Proof.
  intros Hx Hy. apply (unquote_body_mono n (n `max` m) l x) in Hx; [|lia].
  apply (unquote_body_mono m (n `max` m) l y) in Hy; [|lia]. congruence.
Qed.

Lemma quote_inj s t r1 r2 : ValidString s = true -> ValidString t = true ->
  quote s ++ r1 = quote t ++ r2 -> s = t /\ r1 = r2.
Proof.
  intros Hs Ht H. destruct (unquote_quote s r1 Hs) as [n Hn], (unquote_quote t r2 Ht) as [m Hm].
  apply (f_equal (drop 1)) in H.
  assert (Hd : forall u k, drop 1 (quote u ++ k) = drop 1 (quote u) ++ k) by done.
  rewrite !Hd in H. rewrite H in Hn. pose proof (unquote_body_det _ _ _ _ _ Hn Hm) as E.
  injection E as E1 E2. split; [|done].
  by rewrite <- (string_of_bytes_of s), <- (string_of_bytes_of t), E1.
Qed.

(** ** The encoding of a struct is injective *)

Lemma digits_prefix l1 : forall l2 d1 d2 r1 r2,
  Forall (fun c => is_digit c = true) l1 -> Forall (fun c => is_digit c = true) l2 ->
  is_digit d1 = false -> is_digit d2 = false ->
  l1 ++ d1 :: r1 = l2 ++ d2 :: r2 -> l1 = l2 /\ d1 :: r1 = d2 :: r2.
Proof.
  induction l1 as [|c l1 IH]; intros [|c' l2] d1 d2 r1 r2 H1 H2 Hd1 Hd2 H; simpl in H.
  - done.
  - injection H as -> _. apply Forall_cons in H2 as [H2 _]. congruence.
  - injection H as -> _. apply Forall_cons in H1 as [H1 _]. congruence.
  - injection H as -> H. apply Forall_cons in H1 as [_ H1]. apply Forall_cons in H2 as [_ H2].
    by destruct (IH l2 d1 d2 r1 r2 H1 H2 Hd1 Hd2 H) as [-> ->].
Qed.

Lemma FormatInt_prefix n m d1 d2 r1 r2 :
  in_int64 n = true -> in_int64 m = true -> is_digit d1 = false -> is_digit d2 = false ->
  FormatInt n ++ d1 :: r1 = FormatInt m ++ d2 :: r2 -> n = m /\ d1 :: r1 = d2 :: r2.
Proof.
  intros Hn%in_int64_spec Hm%in_int64_spec Hd1 Hd2 H.
  assert (Hu : forall a b, 0 <= a <= 2 ^ 63 -> 0 <= b <= 2 ^ 63 ->
    FormatUint a ++ d1 :: r1 = FormatUint b ++ d2 :: r2 -> a = b /\ d1 :: r1 = d2 :: r2).
  { intros a b Ha Hb Hab.
    destruct (digits_prefix _ _ _ _ _ _ (FormatUint_digits a ltac:(lia))
                (FormatUint_digits b ltac:(lia)) Hd1 Hd2 Hab) as [He ->]. split; [|done].
    pose proof (ParseUint_FormatUint a ltac:(unfold max_uint64; lia)) as Ea.
    pose proof (ParseUint_FormatUint b ltac:(unfold max_uint64; lia)) as Eb. congruence. }
  assert (Hhead : forall a k k', 0 <= a -> "-"%char :: k = FormatUint a ++ k' -> False).
  { intros a k k' Ha Hk. pose proof (FormatUint_nonempty a). pose proof (FormatUint_digits a Ha) as Hf.
    destruct (FormatUint a) as [|c l]; [done|]. injection Hk as <- _.
    by apply Forall_cons in Hf as [Hf _]. }
  unfold FormatInt in H. destruct (n <? 0) eqn:En, (m <? 0) eqn:Em; simpl in H.
  - injection H as H. apply Hu in H as [H ->]; [|lia..]. split; [lia|done].
  - by apply Hhead in H; [|lia].
  - symmetry in H. by apply Hhead in H; [|lia].
  - by apply Hu in H; [|lia..].
Qed.

(** Strings and integers whose text determines them; floats are left out. *)
Definition field_ok (f : field) : Prop :=
  match f with
  | FString s => ValidString s = true
  | FInt n => in_int64 n = true
  | FBool _ => True
  | FFloat _ => False
  end.

Inductive field_kind : Type := KString | KInt | KBool | KFloat.

Definition kind_of (f : field) : field_kind :=
  match f with FString _ => KString | FInt _ => KInt | FBool _ => KBool | FFloat _ => KFloat end.

(** The names of the fields and their types. *)
Definition shape (l : list (string * field)) : list (string * field_kind) :=
  (fun kv => (kv.1, kind_of kv.2)) <$> l.

Definition struct_ok (l : list (string * field)) : Prop := Forall (fun kv => field_ok kv.2) l.

Lemma print_member_inj k f g d1 d2 r1 r2 :
  field_ok f -> field_ok g -> kind_of f = kind_of g -> is_digit d1 = false -> is_digit d2 = false ->
  print_member (k, f) ++ d1 :: r1 = print_member (k, g) ++ d2 :: r2 -> f = g /\ d1 :: r1 = d2 :: r2.
Proof.
  intros Hf Hg Hk Hd1 Hd2 H. unfold print_member in H. cbn [fst snd] in H.
  rewrite <- !app_assoc in H. apply app_inv_head in H. simpl in H. injection H as H.
  destruct f as [s|n|a|x], g as [t|m|b|y]; try done; cbn [print_field] in H.
  - by apply quote_inj in H as [-> ->].
  - by apply FormatInt_prefix in H as [-> ->].
  - destruct a, b; simplify_eq/=; done.
Qed.

Lemma cons_tail_inj (c : ascii) l1 l2 : c :: l1 = c :: l2 -> l1 = l2.
Proof. congruence. Qed.

Definition members_tail (l : list (string * field)) : list ascii :=
  flat_map (fun y => ","%char :: y) (print_member <$> l) ++ ["}"%char].

Lemma members_tail_cons kv l : members_tail (kv :: l) = ","%char :: print_member kv ++ members_tail l.
Proof. unfold members_tail. simpl. by rewrite <- !app_assoc. Qed.

Lemma members_tail_head l : exists d r, members_tail l = d :: r /\ is_digit d = false.
Proof.
  destruct l as [|kv l]; [by exists "}"%char, []|]. rewrite members_tail_cons.
  by exists ","%char, (print_member kv ++ members_tail l).
Qed.

Lemma member_then_tail_inj k f g l1 l2 : field_ok f -> field_ok g -> kind_of f = kind_of g ->
  print_member (k, f) ++ members_tail l1 = print_member (k, g) ++ members_tail l2 ->
  f = g /\ members_tail l1 = members_tail l2.
Proof.
  intros Hf Hg Hk H. destruct (members_tail_head l1) as (d1 & r1 & E1 & Hd1).
  destruct (members_tail_head l2) as (d2 & r2 & E2 & Hd2). rewrite E1, E2 in *.
  by apply print_member_inj in H.
Qed.

Lemma members_tail_inj l1 : forall l2, shape l1 = shape l2 -> struct_ok l1 -> struct_ok l2 ->
  members_tail l1 = members_tail l2 -> l1 = l2.
Proof.
  induction l1 as [|[k f] l1 IH]; intros [|[k' g] l2] Hs H1 H2 H; try done.
  injection Hs as -> Hk Hs. apply Forall_cons in H1 as [Hf H1]. apply Forall_cons in H2 as [Hg H2].
  rewrite !members_tail_cons in H. apply cons_tail_inj in H.
  apply member_then_tail_inj in H as [-> H]; [|done..]. f_equal. by apply IH.
Qed.

Lemma print_struct_inj l1 l2 : shape l1 = shape l2 -> struct_ok l1 -> struct_ok l2 ->
  print_struct l1 = print_struct l2 -> l1 = l2.
Proof.
  destruct l1 as [|[k f] l1], l2 as [|[k' g] l2]; intros Hs H1 H2 H; try done.
  injection Hs as -> Hk Hs. apply Forall_cons in H1 as [Hf H1]. apply Forall_cons in H2 as [Hg H2].
  assert (Hp : forall k f l, print_struct ((k, f) :: l) = "{"%char :: print_member (k, f) ++ members_tail l).
  { intros. unfold print_struct. simpl. by rewrite <- app_assoc. }
  rewrite !Hp in H. apply cons_tail_inj in H.
  apply member_then_tail_inj in H as [-> H]; [|done..]. f_equal. by apply members_tail_inj.
Qed.
