(* ===== verification/GoJsonV2.v ===== *)
(** * encoding/json/v2 and encoding/json/jsontext as the program uses them

    The tokens of a JSON text as [jsontext.Decoder.ReadToken] returns them (strict
    UTF-8, no unpaired surrogates, no repeated names in an object), the value
    they make up, and the text [json.Marshal] writes for a value.  Numbers stay
    literals: the types of the program say how they are read. *)

From S2P Require Import Prelude GoFloat GoStrings GoDecimal GoJson.

Local Open Scope Z_scope.

(** ** Strings

    Without the escapes for HTML: only quotes, backslashes and control
    characters are escaped. *)

Definition escape2 (c : ascii) : list ascii :=
  let x := byte_val c in
  if (x =? 34) || (x =? 92) then [ch_backslash; c]
  else if x =? 8 then [ch_backslash; "b"%char]
  else if x =? 9 then [ch_backslash; "t"%char]
  else if x =? 10 then [ch_backslash; "n"%char]
  else if x =? 12 then [ch_backslash; "f"%char]
  else if x =? 13 then [ch_backslash; "r"%char]
  else if x <? 32 then unicode_escape x
  else [c].

Definition quote2 (s : string) : list ascii :=
  ch_quote :: flat_map escape2 (bytes_of s) ++ [ch_quote].

(** The rune after [\u]; a surrogate must be the first of a pair. *)
Definition read_escape2 (l : list ascii) : option (list ascii * list ascii) :=
  match read_hex4 l with
  | None => None
  | Some (n, r) =>
      if (55296 <=? n) && (n <? 57344) then
        if n <? 56320 then
          match r with
          | b :: u :: r' =>
              if Ascii.eqb b ch_backslash && Ascii.eqb u "u" then
                match read_hex4 r' with
                | Some (m, r'') =>
                    if (56320 <=? m) && (m <? 57344)
                    then Some (encode_rune (65536 + (n - 55296) * 1024 + (m - 56320)), r'')
                    else None
                | None => None
                end
              else None
          | _ => None
          end
        else None
      else Some (encode_rune n, r)
  end.

(** The contents of a literal up to its closing quote, and what follows. *)
Fixpoint unquote2_body (fuel : nat) (l : list ascii) : option (list ascii * list ascii) :=
  match fuel, l with
  | S fuel', c :: r =>
      if Ascii.eqb c ch_quote then Some ([], r)
      else if Ascii.eqb c ch_backslash then
        match r with
        | e :: r' =>
            if Ascii.eqb e "u" then
              match read_escape2 r' with
              | Some (p, r'') => prepend p (unquote2_body fuel' r'')
              | None => None
              end
            else match simple_escape e with
                 | Some b => prepend [b] (unquote2_body fuel' r')
                 | None => None
                 end
        | [] => None
        end
      else if byte_val c <? 32 then None
      else prepend [c] (unquote2_body fuel' r)
  | _, _ => None
  end.

(** A literal after its opening quote.  Escapes give whole runes, so the result
    is UTF-8 exactly when the bytes of the literal are. *)
Definition read_string2 (l : list ascii) : option (string * list ascii) :=
  match unquote2_body (length l) l with
  | Some (s, r) => if valid_bytes (length s) s then Some (string_of s, r) else None
  | None => None
  end.

(** ** Tokens *)

Inductive token : Type :=
| TBeginObject
| TEndObject
| TBeginArray
| TEndArray
| TNull
| TBool (b : bool)
| TString (s : string)
| TNumber (raw : list ascii).

(** An open container: the names an object has so far and whether a value must
    follow; whether an array is still empty. *)
Inductive frame : Type :=
| InObject (names : list string) (named : bool)
| InArray (first : bool).

Record Decoder : Type := mkDecoder { input : list ascii; frames : list frame }.

Definition StackDepth (d : Decoder) : nat := length (frames d).

Inductive read_result : Type :=
| ReadEOF
| ReadError
| ReadOK (t : token) (d : Decoder).

Definition value_done (fs : list frame) : list frame :=
  match fs with
  | InObject names _ :: r => InObject names false :: r
  | InArray _ :: r => InArray false :: r
  | [] => []
  end.

Definition read_scalar (l : list ascii) : option (token * list ascii) :=
  match l with
  | c :: r =>
      if Ascii.eqb c ch_quote then
        match read_string2 r with Some (s, r') => Some (TString s, r') | None => None end
      else match strip_prefix (bytes_of "null") l with
      | Some r' => Some (TNull, r')
      | None => match strip_prefix (bytes_of "true") l with
      | Some r' => Some (TBool true, r')
      | None => match strip_prefix (bytes_of "false") l with
      | Some r' => Some (TBool false, r')
      | None =>
          match read_number l with
          | Some (_, r') => Some (TNumber (take (length l - length r') l), r')
          | None => None
          end
      end end end
  | [] => None
  end.

(** The first token of a value, at its first byte. *)
Definition read_start (fs : list frame) (l : list ascii) : read_result :=
  match l with
  | [] => ReadError
  | c :: r =>
      if Ascii.eqb c "{" then
        if (length fs <? max_nesting)%nat
        then ReadOK TBeginObject (mkDecoder r (InObject [] false :: value_done fs)) else ReadError
      else if Ascii.eqb c "[" then
        if (length fs <? max_nesting)%nat
        then ReadOK TBeginArray (mkDecoder r (InArray true :: value_done fs)) else ReadError
      else match read_scalar l with
           | Some (t, r') => ReadOK t (mkDecoder r' (value_done fs))
           | None => ReadError
           end
  end.

(** The name of the next member, at its first byte. *)
Definition read_name (names : list string) (fs : list frame) (l : list ascii) : read_result :=
  match l with
  | q :: r =>
      if Ascii.eqb q ch_quote then
        match read_string2 r with
        | Some (s, r') =>
            if bool_decide (s ∈ names) then ReadError
            else ReadOK (TString s) (mkDecoder r' (InObject (s :: names) true :: fs))
        | None => ReadError
        end
      else ReadError
  | [] => ReadError
  end.

Definition ReadToken (d : Decoder) : read_result :=
  let l := skip_ws (input d) in
  match frames d, l with
  | [], [] => ReadEOF
  | _, [] => ReadError
  | [], _ => read_start [] l
  | InObject names true :: _, c :: r =>
      if Ascii.eqb c ":" then read_start (frames d) (skip_ws r) else ReadError
  | InObject names false :: fs, c :: r =>
      if Ascii.eqb c "}" then ReadOK TEndObject (mkDecoder r fs)
      else match names with
           | [] => read_name names fs l
           | _ => if Ascii.eqb c "," then read_name names fs (skip_ws r) else ReadError
           end
  | InArray first :: fs, c :: r =>
      if Ascii.eqb c "]" then ReadOK TEndArray (mkDecoder r fs)
      else if first then read_start (frames d) l
      else if Ascii.eqb c "," then read_start (frames d) (skip_ws r) else ReadError
  end.

(** The tokens successive calls return, each with the depth after it, and
    whether they end at the end of the text.  Every token takes at least a byte. *)
Fixpoint read_tokens (fuel : nat) (d : Decoder) : list (token * nat) * bool :=
  match fuel with
  | O => ([], false)
  | S fuel' =>
      match ReadToken d with
      | ReadEOF => ([], true)
      | ReadError => ([], false)
      | ReadOK t d' => let (ts, ok) := read_tokens fuel' d' in ((t, StackDepth d') :: ts, ok)
      end
  end.

Definition tokens_of (l : list ascii) : list (token * nat) * bool :=
  read_tokens (S (length l)) (mkDecoder l []).

(** ** Values *)

Inductive value : Type :=
| VNull
| VBool (b : bool)
| VString (s : string)
| VNumber (raw : list ascii)
| VArray (l : list value)
| VObject (l : list (string * value)).

(** The value at the front of a token list; a fuel of twice its length plus one
    is enough. *)
Fixpoint parse_value (fuel : nat) (ts : list token) {struct fuel} : option (value * list token) :=
  match fuel with
  | O => None
  | S fuel' =>
      match ts with
      | TNull :: r => Some (VNull, r)
      | TBool b :: r => Some (VBool b, r)
      | TString s :: r => Some (VString s, r)
      | TNumber x :: r => Some (VNumber x, r)
      | TBeginArray :: r => parse_items fuel' [] r
      | TBeginObject :: r => parse_members fuel' [] r
      | _ => None
      end
  end
with parse_items (fuel : nat) (acc : list value) (ts : list token) {struct fuel}
    : option (value * list token) :=
  match fuel with
  | O => None
  | S fuel' =>
      match ts with
      | TEndArray :: r => Some (VArray (rev acc), r)
      | _ => match parse_value fuel' ts with
             | Some (v, r) => parse_items fuel' (v :: acc) r
             | None => None
             end
      end
  end
with parse_members (fuel : nat) (acc : list (string * value)) (ts : list token) {struct fuel}
    : option (value * list token) :=
  match fuel with
  | O => None
  | S fuel' =>
      match ts with
      | TEndObject :: r => Some (VObject (rev acc), r)
      | TString k :: r =>
          match parse_value fuel' r with
          | Some (v, r') => parse_members fuel' ((k, v) :: acc) r'
          | None => None
          end
      | _ => None
      end
  end.

(** One value and nothing after it. *)
Definition read_value2 (l : list ascii) : option value :=
  match tokens_of l with
  | (ts, true) =>
      match parse_value (2 * length ts + 1) ts.*1 with
      | Some (v, []) => Some v
      | _ => None
      end
  | (_, false) => None
  end.

Fixpoint print_value (v : value) : list ascii :=
  match v with
  | VNull => bytes_of "null"
  | VBool b => bytes_of (if b then "true" else "false")
  | VString s => quote2 s
  | VNumber raw => raw
  | VArray l => "["%char :: sep_list (map print_value l) ++ ["]"%char]
  | VObject l =>
      "{"%char :: sep_list (map (fun kv => quote2 kv.1 ++ ":"%char :: print_value kv.2) l)
      ++ ["}"%char]
  end.

(** ** A printed string is read back *)

Lemma unquote2_mono n : forall m l x, (n <= m)%nat ->
  unquote2_body n l = Some x -> unquote2_body m l = Some x.
Proof.
  induction n as [|n IH]; intros [|m] l x Hle H; try done; [lia|].
  assert (Hp : forall p k y, prepend p (unquote2_body n k) = Some y ->
                             prepend p (unquote2_body m k) = Some y).
  { intros p k y Hk. destruct (unquote2_body n k) as [z|] eqn:E; [|done].
    by rewrite (IH m k z) by (done || lia). }
  destruct l as [|c r]; [done|]. cbn [unquote2_body] in *.
  destruct (Ascii.eqb c ch_quote); [done|]. destruct (Ascii.eqb c ch_backslash).
  - destruct r as [|e r']; [done|]. destruct (Ascii.eqb e "u").
    + destruct (read_escape2 r') as [[p r'']|]; [|done]. by apply Hp.
    + destruct (simple_escape e); [|done]. by apply Hp.
  - destruct (byte_val c <? 32); [done|]. by apply Hp.
Qed.

Definition reads_as2 (out r : list ascii) : Prop :=
  forall fuel k s rest, unquote2_body fuel k = Some (s, rest) ->
    unquote2_body (length out + fuel) (out ++ k) = Some (r ++ s, rest).

Lemma unquote2_escape fuel e r :
  unquote2_body (S fuel) (ch_backslash :: e :: r)
  = if Ascii.eqb e "u" then
      match read_escape2 r with
      | Some (p, r'') => prepend p (unquote2_body fuel r'')
      | None => None
      end
    else match simple_escape e with
         | Some b => prepend [b] (unquote2_body fuel r)
         | None => None
         end.
Proof. reflexivity. Qed.

Lemma reads_as2_simple e c : e <> "u"%char -> simple_escape e = Some c -> reads_as2 [ch_backslash; e] [c].
Proof.
  intros Hu He fuel k s rest Hk.
  change (unquote2_body (S (1 + fuel)) (ch_backslash :: e :: k) = Some ([c] ++ s, rest)).
  apply Ascii.eqb_neq in Hu. rewrite unquote2_escape, Hu, He.
  by rewrite (unquote2_mono fuel (1 + fuel) _ _ ltac:(lia) Hk).
Qed.

Lemma reads_as2_unicode n : 0 <= n < 55296 -> reads_as2 (unicode_escape n) (encode_rune n).
Proof.
  intros Hn fuel k s rest Hk.
  change (unquote2_body (S (5 + fuel)) (ch_backslash :: "u"%char :: hex4 n ++ k)
          = Some (encode_rune n ++ s, rest)).
  rewrite unquote2_escape. change (Ascii.eqb "u" "u") with true. cbv iota.
  unfold read_escape2. rewrite read_hex4_hex4 by lia.
  destruct ((55296 <=? n) && (n <? 57344)) eqn:E; [lia|].
  by rewrite (unquote2_mono fuel (5 + fuel) _ _ ltac:(lia) Hk).
Qed.

Lemma escape2_reads c : reads_as2 (escape2 c) [c].
Proof.
  pose proof (byte_val_range c). unfold escape2.
  repeat match goal with
  | |- context [byte_val c =? ?n] =>
      let E := fresh "E" in destruct (byte_val c =? n) eqn:E;
      [apply byte_val_is in E; subst c; cbn [orb]; by apply reads_as2_simple|]
  end.
  cbn [orb]. case_match.
  - assert (He : encode_rune (byte_val c) = [c]).
    { unfold encode_rune. destruct (byte_val c <? 128) eqn:Ec; [|lia]. by rewrite byte_of_val. }
    rewrite <- He. apply reads_as2_unicode. lia.
  - intros fuel k s rest Hk. simpl.
    destruct (Ascii.eqb_spec c ch_quote) as [->|]; [by vm_compute in E|].
    destruct (Ascii.eqb_spec c ch_backslash) as [->|]; [by vm_compute in E0|].
    destruct (byte_val c <? 32) eqn:E32; [lia|]. by rewrite Hk.
Qed.

Lemma quote2_app s rest :
  quote2 s ++ rest = ch_quote :: flat_map escape2 (bytes_of s) ++ ch_quote :: rest.
Proof. unfold quote2. cbn [app]. by rewrite <- app_assoc. Qed.

Lemma read_string2_quote2 s rest : ValidString s = true ->
  read_string2 (flat_map escape2 (bytes_of s) ++ ch_quote :: rest) = Some (s, rest).
Proof.
  intros Hv.
  assert (H : forall l, unquote2_body (length (flat_map escape2 l) + 1) (flat_map escape2 l ++ ch_quote :: rest)
              = Some (l, rest)).
  { induction l as [|c l IH]; [done|]. simpl. rewrite length_app, <- app_assoc, <- Nat.add_assoc.
    exact (escape2_reads c _ _ _ _ IH). }
  unfold read_string2. specialize (H (bytes_of s)).
  apply (unquote2_mono _ (length (flat_map escape2 (bytes_of s) ++ ch_quote :: rest))) in H;
    [|rewrite length_app; simpl; lia].
  rewrite H. unfold ValidString in Hv. by rewrite Hv, string_of_bytes_of.
Qed.

(** ** The tokens of a printed value *)

(** Induction on values, their items and their members. *)
Section value_ind'.
Context (P : value -> Prop).
Context (Hnull : P VNull) (Hbool : forall b, P (VBool b)) (Hstring : forall s, P (VString s)).
Context (Hnumber : forall raw, P (VNumber raw)).
Context (Harray : forall l, Forall P l -> P (VArray l)).
Context (Hobject : forall l, Forall (fun kv => P kv.2) l -> P (VObject l)).

Fixpoint value_ind' (v : value) : P v :=
  match v with
  | VNull => Hnull
  | VBool b => Hbool b
  | VString s => Hstring s
  | VNumber raw => Hnumber raw
  | VArray l => Harray l ((fix go l := match l return Forall P l with
                                       | [] => Forall_nil_2 P
                                       | x :: r => Forall_cons_2 P x r (value_ind' x) (go r)
                                       end) l)
  | VObject l => Hobject l ((fix go l := match l return Forall (fun kv => P kv.2) l with
                                         | [] => Forall_nil_2 _
                                         | x :: r => Forall_cons_2 _ x r (value_ind' x.2) (go r)
                                         end) l)
  end.
End value_ind'.

(** A literal that is read as a number, whatever follows. *)
Definition number_literal (raw : list ascii) : Prop :=
  (exists c t, raw = c :: t /\ (is_digit c = true \/ c = "-"%char))
  /\ forall t, number_end t = true -> exists x, read_number (raw ++ t) = Some (x, t).

(** Values that can be written: valid strings, distinct names, number literals,
    and at most [depth] levels of containers. *)
Fixpoint printable (depth : nat) (v : value) : Prop :=
  match v with
  | VString s => ValidString s = true
  | VNumber raw => number_literal raw
  | VArray l => match depth with
                | O => False
                | S d => (fix all l := match l with [] => True | x :: r => printable d x /\ all r end) l
                end
  | VObject l => match depth with
                 | O => False
                 | S d => NoDup l.*1 /\ Forall (fun k => ValidString k = true) l.*1
                          /\ (fix all l := match l with
                                           | [] => True
                                           | x :: r => printable d x.2 /\ all r
                                           end) l
                 end
  | _ => True
  end.

Lemma printable_array d l : printable (S d) (VArray l) <-> Forall (printable d) l.
Proof.
  simpl. induction l as [|x l IH]; [by split|]. rewrite Forall_cons, IH. done.
Qed.

Lemma printable_object d l : printable (S d) (VObject l) <->
  NoDup l.*1 /\ Forall (fun k => ValidString k = true) l.*1 /\ Forall (fun kv => printable d kv.2) l.
Proof.
  simpl. do 2 (apply and_iff_compat_l). induction l as [|x l IH]; [by split|]. rewrite Forall_cons, IH. done.
Qed.

(** The tokens of a value in an enclosing depth. *)
Fixpoint value_tokens (depth : nat) (v : value) : list (token * nat) :=
  match v with
  | VNull => [(TNull, depth)]
  | VBool b => [(TBool b, depth)]
  | VString s => [(TString s, depth)]
  | VNumber raw => [(TNumber raw, depth)]
  | VArray l => (TBeginArray, S depth) :: flat_map (value_tokens (S depth)) l ++ [(TEndArray, depth)]
  | VObject l =>
      (TBeginObject, S depth)
      :: flat_map (fun kv => (TString kv.1, S depth) :: value_tokens (S depth) kv.2) l
      ++ [(TEndObject, depth)]
  end.

(** What [ReadToken] expects before a value in a state. *)
Definition delimiter (fs : list frame) : option (list ascii) :=
  match fs with
  | [] | InArray true :: _ => Some []
  | InArray false :: _ => Some [","%char]
  | InObject _ true :: _ => Some [":"%char]
  | InObject _ false :: _ => None
  end.

Definition prepend_tokens (ts : list (token * nat)) (r : list (token * nat) * bool) :=
  (ts ++ r.1, r.2).

Lemma prepend_app a b r : prepend_tokens (a ++ b) r = prepend_tokens a (prepend_tokens b r).
Proof. unfold prepend_tokens. simpl. by rewrite app_assoc. Qed.

Lemma prepend_cons t ts r : prepend_tokens (t :: ts) r = prepend_tokens [t] (prepend_tokens ts r).
Proof. done. Qed.

Lemma read_tokens_step fuel d t d' : ReadToken d = ReadOK t d' ->
  read_tokens (S fuel) d = prepend_tokens [(t, StackDepth d')] (read_tokens fuel d').
Proof. intros H. simpl. rewrite H. by destruct (read_tokens fuel d'). Qed.

(** A value starts with a byte that is not white space and not a delimiter. *)
Definition starts_value (c : ascii) : bool :=
  negb (is_json_space c || Ascii.eqb c "]" || Ascii.eqb c "}" || Ascii.eqb c "," || Ascii.eqb c ":").

Lemma print_value_start depth v : printable depth v ->
  exists c t, print_value v = c :: t /\ starts_value c = true.
Proof.
  destruct v as [|b|s|raw|l|l]; simpl; unfold quote2; intros Hp; try (by eexists _, _).
  - by destruct b; eexists _, _.
  - assert (Hn : number_literal raw) by (by destruct depth). destruct Hn as [(c & t & -> & Hc) _]. exists c, t. split; [done|].
    destruct Hc as [Hc| ->]; [|done]. unfold starts_value, is_json_space.
    unfold is_digit in Hc. destruct (Ascii.eqb_spec c "]"); [by subst|].
    destruct (Ascii.eqb_spec c "}"); [by subst|]. destruct (Ascii.eqb_spec c ","); [by subst|].
    destruct (Ascii.eqb_spec c ":"); [by subst|]. lia.
Qed.

Lemma skip_ws_start c t : starts_value c = true -> skip_ws (c :: t) = c :: t.
Proof. unfold starts_value. simpl. destruct (is_json_space c); done. Qed.

(** After the delimiter, [ReadToken] reads the start of the value. *)
Lemma ReadToken_value fs pre c t : delimiter fs = Some pre -> starts_value c = true ->
  ReadToken (mkDecoder (pre ++ c :: t) fs) = read_start fs (c :: t).
Proof.
  intros Hd Hc. pose proof (skip_ws_start c t Hc) as Hs. unfold starts_value in Hc.
  destruct (Ascii.eqb c "]") eqn:E; [by rewrite !orb_true_r in Hc|].
  destruct fs as [|[names []|[]] fs]; simpl in Hd; simplify_eq; unfold ReadToken; cbn [input frames app].
  - by rewrite Hs.
  - change (skip_ws (":"%char :: c :: t)) with (":"%char :: c :: t). cbv iota.
    change (Ascii.eqb ":" ":") with true. cbv iota. by rewrite Hs.
  - rewrite Hs. by rewrite E.
  - change (skip_ws (","%char :: c :: t)) with (","%char :: c :: t). cbv iota.
    change (Ascii.eqb "," "]") with false. change (Ascii.eqb "," ",") with true. cbv iota. by rewrite Hs.
Qed.

Lemma length_value_done fs : length (value_done fs) = length fs.
Proof. by destruct fs as [|[] ?]. Qed.

Lemma strip_prefix_ne p0 p c t : c <> p0 -> strip_prefix (p0 :: p) (c :: t) = None.
Proof.
  intros Hc. unfold strip_prefix. rewrite bool_decide_false; [done|]. intros H. simpl in H. congruence.
Qed.

Definition number_ends (v : value) (rest : list ascii) : Prop :=
  match v with
  | VNumber _ => number_end rest = true
  | _ => True
  end.

Definition scalar_token (v : value) : option token :=
  match v with
  | VNull => Some TNull
  | VBool b => Some (TBool b)
  | VString s => Some (TString s)
  | VNumber raw => Some (TNumber raw)
  | _ => None
  end.

Lemma read_scalar_print depth v t rest : scalar_token v = Some t -> printable depth v ->
  number_ends v rest -> read_scalar (print_value v ++ rest) = Some (t, rest).
Proof.
  destruct v as [|b|s|raw|l|l]; cbn [scalar_token print_value number_ends]; intros Ht Hp Hn; simplify_eq;
    [done|by destruct b| |].
  - assert (Hs : ValidString s = true) by (by destruct depth).
    rewrite quote2_app. unfold read_scalar. change (Ascii.eqb ch_quote ch_quote) with true. cbv iota.
    by rewrite read_string2_quote2.
  - assert (Hl : number_literal raw) by (by destruct depth).
    destruct Hl as [(c & r & -> & Hc) Hread]. destruct (Hread rest Hn) as [x Hx].
    assert (Hnot : forall a, is_digit a = false -> a <> "-"%char -> c <> a).
    { intros a Ha1 Ha2 ->. destruct Hc; congruence. }
    cbn [app] in *. unfold read_scalar.
    destruct (Ascii.eqb_spec c ch_quote) as [E|_]; [by apply Hnot in E|].
    change (bytes_of "null") with ("n"%char :: bytes_of "ull").
    change (bytes_of "true") with ("t"%char :: bytes_of "rue").
    change (bytes_of "false") with ("f"%char :: bytes_of "alse").
    rewrite !strip_prefix_ne by (by apply Hnot). rewrite Hx.
    do 3 f_equal. change (c :: r ++ rest) with ((c :: r) ++ rest).
    rewrite length_app, Nat.add_sub. apply take_app_length.
Qed.

Lemma scalar_not_container depth v c t tok : scalar_token v = Some tok -> printable depth v ->
  print_value v = c :: t -> Ascii.eqb c "{" = false /\ Ascii.eqb c "[" = false.
Proof.
  destruct v as [|b|s|raw|l|l]; simpl; intros Ht Hp Hv; simplify_eq; try done.
  - destruct b; by injection Hv as <- _.
  - unfold quote2 in Hv. by injection Hv as <- _.
  - assert (Hl : number_literal (c :: t)) by (by destruct depth).
    destruct Hl as [(c' & r & Heq & Hc) _]. simplify_eq.
    destruct (Ascii.eqb_spec c' "{"), (Ascii.eqb_spec c' "["); subst; destruct Hc; done.
Qed.

Lemma scalar_tokens v t depth : scalar_token v = Some t -> value_tokens depth v = [(t, depth)].
Proof. by destruct v; intros; simplify_eq/=. Qed.

(** Reading a printed value gives its tokens. *)
Definition reads_value (depth : nat) (v : value) : Prop :=
  forall fs pre rest fuel, (length fs + depth <= max_nesting)%nat -> delimiter fs = Some pre ->
  number_ends v rest ->
  read_tokens (length (value_tokens (length fs) v) + fuel) (mkDecoder (pre ++ print_value v ++ rest) fs)
  = prepend_tokens (value_tokens (length fs) v) (read_tokens fuel (mkDecoder rest (value_done fs))).

Lemma scalar_reads depth v t : scalar_token v = Some t -> printable depth v -> reads_value depth v.
Proof.
  intros Ht Hp fs pre rest fuel Hd Hpre Hn.
  destruct (print_value_start depth v Hp) as (c & r & Hv & Hc).
  destruct (scalar_not_container depth v c r t Ht Hp Hv) as [H1 H2].
  pose proof (read_scalar_print depth v t rest Ht Hp Hn) as Hs.
  rewrite (scalar_tokens v t _ Ht). rewrite Hv in *. cbn [app length] in *.
  change (1 + fuel)%nat with (S fuel). rewrite (read_tokens_step fuel _ t (mkDecoder rest (value_done fs))).
  - unfold StackDepth. cbn [frames]. by rewrite length_value_done.
  - rewrite ReadToken_value by done. unfold read_start. by rewrite H1, H2, Hs.
Qed.

(** Several texts after a first one or in front. *)
Definition sep_more (first : bool) (l : list (list ascii)) : list ascii :=
  if first then sep_list l else flat_map (fun y => ","%char :: y) l.

Lemma sep_more_cons first x l :
  sep_more first (x :: l) = (if first then [] else [","%char]) ++ x ++ sep_more false l.
Proof. by destruct first. Qed.

Lemma sep_more_ends l close rest : ends_number close = true ->
  number_end (sep_more false l ++ close :: rest) = true.
Proof. intros Hc. by destruct l. Qed.

Lemma items_read depth l : Forall (reads_value depth) l ->
  forall first fs rest fuel, (S (length fs) + depth <= max_nesting)%nat ->
  let ts := flat_map (value_tokens (S (length fs))) l ++ [(TEndArray, length fs)] in
  read_tokens (length ts + fuel)
    (mkDecoder (sep_more first (map print_value l) ++ "]"%char :: rest) (InArray first :: fs))
  = prepend_tokens ts (read_tokens fuel (mkDecoder rest fs)).
Proof.
  induction 1 as [|v l Hv _ IH]; intros first fs rest fuel Hd ts.
  - subst ts. by destruct first; apply (read_tokens_step fuel _ TEndArray (mkDecoder rest fs)).
  - subst ts. cbn [map flat_map]. rewrite sep_more_cons, <- !app_assoc.
    rewrite length_app, <- Nat.add_assoc.
    change (S (length fs)) with (length (InArray first :: fs)).
    rewrite Hv; [| |by destruct first|].
    + rewrite prepend_app. f_equal. cbn [value_done]. by apply (IH false).
    + done.
    + destruct v; try done. apply sep_more_ends. done.
Qed.

Definition member_text (kv : string * value) : list ascii :=
  quote2 kv.1 ++ ":"%char :: print_value kv.2.

Definition member_tokens (depth : nat) (kv : string * value) : list (token * nat) :=
  (TString kv.1, depth) :: value_tokens depth kv.2.

Definition is_nil {A} (l : list A) : bool := match l with [] => true | _ => false end.

Lemma name_read names fs k rest : ValidString k = true -> k ∉ names ->
  ReadToken (mkDecoder ((if is_nil names then [] else [","%char]) ++ quote2 k ++ rest) (InObject names false :: fs))
  = ReadOK (TString k) (mkDecoder rest (InObject (k :: names) true :: fs)).
Proof.
  intros Hk Hn.
  assert (Hname : read_name names fs (quote2 k ++ rest)
                  = ReadOK (TString k) (mkDecoder rest (InObject (k :: names) true :: fs))).
  { rewrite quote2_app. cbn [read_name]. change (Ascii.eqb ch_quote ch_quote) with true.
    cbv iota. rewrite read_string2_quote2 by done. by rewrite bool_decide_false. }
  rewrite quote2_app in *. destruct names as [|x names]; exact Hname.
Qed.

Lemma members_read depth l : Forall (fun kv => reads_value depth kv.2) l ->
  forall names fs rest fuel, (S (length fs) + depth <= max_nesting)%nat ->
  NoDup l.*1 -> Forall (fun k => ValidString k = true) l.*1 -> (forall k, k ∈ l.*1 -> k ∉ names) ->
  let ts := flat_map (member_tokens (S (length fs))) l ++ [(TEndObject, length fs)] in
  read_tokens (length ts + fuel)
    (mkDecoder (sep_more (is_nil names) (map member_text l) ++ "}"%char :: rest) (InObject names false :: fs))
  = prepend_tokens ts (read_tokens fuel (mkDecoder rest fs)).
Proof.
  induction 1 as [|[k v] l Hv _ IH]; intros names fs rest fuel Hd Hnd Hvs Hne ts.
  - subst ts. by destruct names; apply (read_tokens_step fuel _ TEndObject (mkDecoder rest fs)).
  - subst ts. rewrite fmap_cons in Hnd, Hvs, Hne. apply NoDup_cons in Hnd as [Hk Hnd].
    apply Forall_cons in Hvs as [Hks Hvs]. cbn [map flat_map fst snd] in *.
    rewrite sep_more_cons. unfold member_text at 1, member_tokens at 1 3. cbn [fst snd].
    rewrite <- !app_assoc. cbn [app length].
    change (S (length (value_tokens (S (length fs)) v ++
      flat_map (member_tokens (S (length fs))) l ++ [(TEndObject, length fs)])) + fuel)%nat
      with (S (length (value_tokens (S (length fs)) v ++
      flat_map (member_tokens (S (length fs))) l ++ [(TEndObject, length fs)]) + fuel)).
    rewrite (read_tokens_step _ _ (TString k)
      (mkDecoder (":"%char :: print_value v ++ sep_more false (map member_text l) ++ "}"%char :: rest)
         (InObject (k :: names) true :: fs))).
    2: { apply name_read; [done|]. apply Hne, elem_of_cons. by left. }
    unfold StackDepth. cbn [frames length].
    rewrite (prepend_cons _ (value_tokens (S (length fs)) v ++ _)). f_equal. rewrite length_app, <- Nat.add_assoc, prepend_app.
    change (S (length fs)) with (length (InObject (k :: names) true :: fs)) at 1 4.
    change (":"%char :: print_value v ++ ?x) with ([":"%char] ++ print_value v ++ x).
    rewrite (Hv _ [":"%char]); [| |done|].
    + f_equal. cbn [value_done]. apply (IH (k :: names)); [done|done|done|].
      intros k' Hk'. rewrite not_elem_of_cons. split; [by intros ->|].
      apply Hne, elem_of_cons. by right.
    + done.
    + destruct v; try done. by apply sep_more_ends.
Qed.

Lemma value_reads v : forall depth, printable depth v -> reads_value depth v.
Proof.
  induction v as [|b|s|raw|l IH|l IH] using value_ind'; intros depth Hp;
    try (by eapply scalar_reads).
  - destruct depth as [|d]; [done|]. apply printable_array in Hp as Hl.
    intros fs pre rest fuel Hd Hpre _. cbn [print_value value_tokens].
    cbn [app length]. rewrite Nat.add_succ_l, (read_tokens_step _ _ TBeginArray
      (mkDecoder (sep_list (map print_value l) ++ "]"%char :: rest) (InArray true :: value_done fs))).
    2: { rewrite <- app_assoc. rewrite ReadToken_value by done. unfold read_start.
         change (Ascii.eqb "[" "{") with false. change (Ascii.eqb "[" "[") with true. cbv iota.
         destruct (Nat.ltb_spec (length fs) max_nesting); [done|lia]. }
    unfold StackDepth. cbn [frames length]. rewrite length_value_done.
    rewrite (prepend_cons _ (flat_map _ _ ++ _)). f_equal.
    rewrite <- (length_value_done fs).
    apply (items_read d l) with (first := true); [|rewrite length_value_done; lia].
    apply Forall_forall. intros x Hx. rewrite Forall_forall in IH, Hl. by apply IH, Hl.
  - destruct depth as [|d]; [done|]. apply printable_object in Hp as (Hnd & Hvs & Hl).
    intros fs pre rest fuel Hd Hpre _. cbn [print_value value_tokens].
    cbn [app length]. rewrite Nat.add_succ_l, (read_tokens_step _ _ TBeginObject
      (mkDecoder (sep_list (map member_text l) ++ "}"%char :: rest) (InObject [] false :: value_done fs))).
    2: { rewrite <- app_assoc. rewrite ReadToken_value by done. unfold read_start.
         change (Ascii.eqb "{" "{") with true. cbv iota.
         destruct (Nat.ltb_spec (length fs) max_nesting); [done|lia]. }
    unfold StackDepth. cbn [frames length]. rewrite length_value_done.
    rewrite (prepend_cons _ (flat_map _ _ ++ _)). f_equal.
    rewrite <- (length_value_done fs).
    apply (members_read d l) with (names := []); [|rewrite length_value_done; lia|done|done|set_solver].
    apply Forall_forall. intros x Hx. rewrite Forall_forall in IH, Hl. by apply IH, Hl.
Qed.

(** ** The value of a printed value *)

Fixpoint tokens (v : value) : list token :=
  match v with
  | VNull => [TNull]
  | VBool b => [TBool b]
  | VString s => [TString s]
  | VNumber raw => [TNumber raw]
  | VArray l => TBeginArray :: flat_map tokens l ++ [TEndArray]
  | VObject l => TBeginObject :: flat_map (fun kv => TString kv.1 :: tokens kv.2) l ++ [TEndObject]
  end.

Lemma value_tokens_fst v : forall depth, (value_tokens depth v).*1 = tokens v.
Proof.
  induction v as [|b|s|raw|l IH|l IH] using value_ind'; intros depth; try done.
  - cbn [value_tokens tokens]. rewrite fmap_cons, fmap_app. do 2 f_equal.
    induction IH as [|x l Hx _ IHl]; [done|]. cbn [flat_map]. by rewrite fmap_app, Hx, IHl.
  - cbn [value_tokens tokens]. rewrite fmap_cons, fmap_app. do 2 f_equal.
    induction IH as [|x l Hx _ IHl]; [done|]. cbn [flat_map].
    by rewrite fmap_app, fmap_cons, Hx, IHl.
Qed.

Lemma tokens_pos v : (1 <= length (tokens v))%nat.
Proof. destruct v; simpl; lia. Qed.

Definition parses (v : value) : Prop :=
  forall rest fuel, (2 * length (tokens v) <= fuel)%nat -> parse_value fuel (tokens v ++ rest) = Some (v, rest).

Lemma tokens_not_end v : exists t r, tokens v = t :: r /\ t <> TEndArray.
Proof. by destruct v; eexists _, _. Qed.

Lemma parse_items_value fuel acc v rest : 
  parse_items (S fuel) acc (tokens v ++ rest)
  = match parse_value fuel (tokens v ++ rest) with
    | Some (v', r) => parse_items fuel (v' :: acc) r
    | None => None
    end.
Proof.
  destruct (tokens_not_end v) as (t & r & -> & Ht). cbn [app]. by destruct t.
Qed.

Lemma items_parse l : Forall parses l -> forall acc rest fuel,
  (2 * length (flat_map tokens l) + 1 <= fuel)%nat ->
  parse_items fuel acc (flat_map tokens l ++ TEndArray :: rest) = Some (VArray (rev acc ++ l), rest).
Proof.
  induction 1 as [|v l Hv _ IH]; intros acc rest [|fuel] Hf; try lia.
  - by rewrite app_nil_r.
  - cbn [flat_map] in *. rewrite length_app in Hf. pose proof (tokens_pos v).
    rewrite <- app_assoc, parse_items_value, Hv, IH by lia. cbn [rev]. by rewrite <- app_assoc.
Qed.

Lemma members_parse l : Forall (fun kv => parses kv.2) l -> forall acc rest fuel,
  (2 * length (flat_map (fun kv => TString kv.1 :: tokens kv.2) l) + 1 <= fuel)%nat ->
  parse_members fuel acc (flat_map (fun kv => TString kv.1 :: tokens kv.2) l ++ TEndObject :: rest)
  = Some (VObject (rev acc ++ l), rest).
Proof.
  induction 1 as [|[k v] l Hv _ IH]; intros acc rest [|fuel] Hf; try lia.
  - by rewrite app_nil_r.
  - cbn [flat_map fst snd app length] in *. rewrite length_app in Hf. pose proof (tokens_pos v).
    cbn [parse_members]. rewrite <- app_assoc, Hv, IH by lia. cbn [rev]. by rewrite <- app_assoc.
Qed.

Lemma value_parses v : parses v.
Proof.
  induction v as [|b|s|raw|l IH|l IH] using value_ind'; intros rest [|fuel] Hf; try (simpl in Hf; lia); try done.
  - cbn [tokens app parse_value] in *. cbn [length] in Hf. rewrite length_app in Hf.
    rewrite <- app_assoc. cbn [app]. rewrite items_parse; [done|done|]. cbn [length] in Hf. lia.
  - cbn [tokens app parse_value] in *. cbn [length] in Hf. rewrite length_app in Hf.
    rewrite <- app_assoc. cbn [app]. rewrite members_parse; [done|done|]. cbn [length] in Hf. lia.
Qed.

(** Every token takes a byte, so the fuel of [tokens_of] is enough. *)
Lemma print_value_tokens depth v : forall d, printable d v ->
  (length (value_tokens depth v) <= length (print_value v))%nat.
Proof.
  revert depth. induction v as [|b|s|raw|l IH|l IH] using value_ind'; intros depth d Hp.
  - simpl; lia.
  - destruct b; simpl; lia.
  - unfold print_value, quote2. simpl. lia.
  - assert (Hl : number_literal raw) by (by destruct d). destruct Hl as [(c & t & -> & _) _]. simpl. lia.
  - destruct d as [|d]; [done|]. apply printable_array in Hp. cbn [value_tokens print_value length].
    rewrite !length_app. cbn [length].
    cut (forall first, (length (flat_map (value_tokens (S depth)) l) <= length (sep_more first (map print_value l)))%nat);
      [intros H; specialize (H true); simpl in H; lia|].
    induction IH as [|x l Hx _ IHl]; intros first; [simpl; lia|]. apply Forall_cons in Hp as [Hp1 Hp2].
    cbn [map flat_map]. rewrite sep_more_cons, !length_app. specialize (Hx (S depth) d Hp1).
    specialize (IHl Hp2 false). lia.
  - destruct d as [|d]; [done|]. apply printable_object in Hp as (_ & _ & Hp). cbn [value_tokens print_value length].
    rewrite !length_app. cbn [length]. change (fun kv : string * value => quote2 kv.1 ++ ":"%char :: print_value kv.2) with member_text.
    cut (forall first, (length (flat_map (fun kv => (TString kv.1, S depth) :: value_tokens (S depth) kv.2) l)
                        <= length (sep_more first (map member_text l)))%nat);
      [intros H; specialize (H true); simpl in H; lia|].
    induction IH as [|x l Hx _ IHl]; intros first; [simpl; lia|]. apply Forall_cons in Hp as [Hp1 Hp2].
    cbn [map flat_map]. rewrite sep_more_cons, !length_app. cbn [length]. specialize (Hx (S depth) d Hp1).
    specialize (IHl Hp2 false). unfold member_text at 1. rewrite length_app. cbn [length]. lia.
Qed.

Lemma tokens_of_print v depth : printable depth v -> (depth <= max_nesting)%nat ->
  scalar_token v = None -> tokens_of (print_value v) = (value_tokens 0 v, true).
Proof.
  intros Hp Hd Hs. pose proof (print_value_tokens 0 v depth Hp) as Hlen. unfold tokens_of.
  pose proof (value_reads v depth Hp [] [] [] (S (length (print_value v) - length (value_tokens 0 v)))) as H.
  cbn [app length value_done] in H. rewrite app_nil_r in H.
  replace (S (length (print_value v))) with
    (length (value_tokens 0 v) + S (length (print_value v) - length (value_tokens 0 v)))%nat by lia.
  rewrite H; [|done|done|by destruct v]. unfold prepend_tokens. cbn. by rewrite app_nil_r.
Qed.

Lemma read_value2_print v depth : printable depth v -> (depth <= max_nesting)%nat ->
  scalar_token v = None -> read_value2 (print_value v) = Some v.
Proof.
  intros Hp Hd Hs. unfold read_value2. rewrite (tokens_of_print v depth) by done.
  rewrite value_tokens_fst. pose proof (value_parses v [] (2 * length (value_tokens 0 v) + 1)%nat) as H.
  rewrite app_nil_r in H. rewrite H; [done|]. rewrite <- (value_tokens_fst v 0), length_fmap. lia.
Qed.
