(* ===== verification/SqliteLike.v ===== *)
(** * LIKE of the vendored SQLite (third_party/go-sqlcipher/sqlite3.c)

    [patternCompare] with the escape character \ over the bytes of C strings: both
    texts end at their first NUL, characters are decoded by [sqlite3Utf8Read].  The
    last section shows what a pattern between two wildcards, all of whose own
    wildcards are escaped, finds: the texts that hold it. *)

From S2P Require Import Prelude GoStrings GoJson.

Local Open Scope Z_scope.

(** ** Characters *)

(** A C string: the bytes before the first NUL. *)
Fixpoint c_string (l : list Z) : list Z :=
  match l with
  | [] => []
  | b :: r => if b =? 0 then [] else b :: c_string r
  end.

(** The table [sqlite3Utf8Trans1], for the bytes from 192 on. *)
Definition sqlite3Utf8Trans1 (b : Z) : Z :=
  if b <? 224 then b - 192
  else if b <? 240 then b - 224
  else if b <? 248 then b - 240
  else if b <? 252 then b - 248
  else if b <? 254 then b - 252
  else 0.

(** The bytes that continue a character, into 32 bits. *)
Fixpoint continue_char (c : Z) (l : list Z) : Z * list Z :=
  match l with
  | b :: r =>
      if Z.land b 192 =? 128 then continue_char ((Z.shiftl c 6 + Z.land b 63) mod 2 ^ 32) r else (c, l)
  | [] => (c, [])
  end.

(** The next character and what follows it; 0 at the end of the text. *)
Definition sqlite3Utf8Read (l : list Z) : Z * list Z :=
  match l with
  | [] => (0, [])
  | b :: r =>
      if b <? 192 then (b, r)
      else
        let '(c, r') := continue_char (sqlite3Utf8Trans1 b) r in
        (if (c <? 128) || (Z.land c 4294965248 =? 55296) || (Z.land c 4294967294 =? 65534) then 65533 else c, r')
  end.

Definition sqlite3Toupper (c : Z) : Z := if (97 <=? c) && (c <=? 122) then c - 32 else c.
Definition sqlite3Tolower (c : Z) : Z := if (65 <=? c) && (c <=? 90) then c + 32 else c.

(** ** The comparison *)

Inductive comparison_result : Type :=
| SQLITE_MATCH
| SQLITE_NOMATCH
| SQLITE_NOWILDCARDMATCH.

Definition matchAll : Z := 37.
Definition matchOne : Z := 95.
Definition escape_char : Z := 92.

(** The wildcards after a first [%]: the character behind them, the pattern after
    it and the text they leave; [None] when the text ends before. *)
Fixpoint skip_wildcards (fuel : nat) (p s : list Z) : option (Z * list Z * list Z) :=
  match fuel with
  | O => None
  | S n =>
      let '(c, p') := sqlite3Utf8Read p in
      if c =? matchAll then skip_wildcards n p' s
      else if c =? matchOne then
        let '(c2, s') := sqlite3Utf8Read s in
        if c2 =? 0 then None else skip_wildcards n p' s'
      else Some (c, p', s)
  end.

(** The loop around [strcspn]: every byte of the text that is one of two. *)
Fixpoint search_byte (upper lower : Z) (compare : list Z -> comparison_result) (s : list Z) : comparison_result :=
  match s with
  | [] => SQLITE_NOWILDCARDMATCH
  | b :: s' =>
      if (b =? upper) || (b =? lower) then
        match compare s' with
        | SQLITE_NOMATCH => search_byte upper lower compare s'
        | bMatch => bMatch
        end
      else search_byte upper lower compare s'
  end.

(** The loop over the characters of the text. *)
Fixpoint search_char (fuel : nat) (c : Z) (compare : list Z -> comparison_result) (s : list Z) : comparison_result :=
  match fuel with
  | O => SQLITE_NOWILDCARDMATCH
  | S n =>
      let '(c2, s') := sqlite3Utf8Read s in
      if c2 =? 0 then SQLITE_NOWILDCARDMATCH
      else if negb (c2 =? c) then search_char n c compare s'
      else match compare s' with
           | SQLITE_NOMATCH => search_char n c compare s'
           | bMatch => bMatch
           end
  end.

(** One step of pattern and fuel at a time; a pattern is shorter after each. *)
Fixpoint patternCompare (fuel : nat) (p s : list Z) : comparison_result :=
  match fuel with
  | O => SQLITE_NOMATCH
  | S n =>
      let '(c, p1) := sqlite3Utf8Read p in
      if c =? 0 then match s with [] => SQLITE_MATCH | _ => SQLITE_NOMATCH end
      else if c =? matchAll then
        match skip_wildcards n p1 s with
        | None => SQLITE_NOWILDCARDMATCH
        | Some (c, p2, s2) =>
            if c =? 0 then SQLITE_MATCH
            else
              let '(c, p3) := if c =? escape_char then sqlite3Utf8Read p2 else (c, p2) in
              if c =? 0 then SQLITE_NOWILDCARDMATCH
              else if c <=? 128 then
                search_byte (sqlite3Toupper c) (sqlite3Tolower c) (patternCompare n p3) s2
              else search_char (S (length s2)) c (patternCompare n p3) s2
        end
      else
        let escaped := c =? escape_char in
        let '(c, p2) := if escaped then sqlite3Utf8Read p1 else (c, p1) in
        if c =? 0 then SQLITE_NOMATCH
        else
          let '(c2, s1) := sqlite3Utf8Read s in
          if (c =? c2)
             || (sqlite3Tolower c =? sqlite3Tolower c2) && (c <? 128) && (c2 <? 128)
             || (c =? matchOne) && negb escaped && negb (c2 =? 0)
          then patternCompare n p2 s1
          else SQLITE_NOMATCH
  end.

(** [text LIKE pattern ESCAPE '\']. *)
Definition Like (text pattern : string) : bool :=
  let p := c_string (byte_val <$> bytes_of pattern) in
  match patternCompare (S (length p)) p (c_string (byte_val <$> bytes_of text)) with
  | SQLITE_MATCH => true
  | _ => false
  end.

(** Wildcards and their escapes; a text ends at a NUL; a stray byte, U+0080 and the
    bytes inside U+2010 are not told apart by the search for a byte. *)
Example Like_examples :
  Like "Steel 500" "%L_5%" = true /\ Like "Steel 500" "%\_5%" = false /\ Like "50%" "%0\%" = true
  /\ Like "abc" "a_c" = true /\ Like "abc" "a__c" = false /\ Like "a%" "a\" = false
  /\ Like (string_of ("a"%char :: byte_of 0 :: bytes_of "xyz")) "%xyz%" = false
  /\ Like (string_of (byte_of <$> [226; 128; 144])) (string_of (byte_of <$> [37; 194; 128; 37])) = true
  /\ Like (string_of (byte_of <$> [226; 128; 144])) (string_of (byte_of <$> [37; 226; 128; 145; 37])) = false.
Proof. vm_compute. done. Qed.

(** ** Texts as characters *)

(** The characters of a text, a rune as package utf8 delimits it each. *)
Fixpoint runes (fuel : nat) (l : list ascii) : list (list ascii) :=
  match fuel, l with
  | S fuel', _ :: _ => take (rune_len l) l :: runes fuel' (drop (rune_len l) l)
  | _, _ => []
  end.

(** Valid UTF-8 without NUL and without the two code points, U+FFFE and U+FFFF, that
    SQLite takes for U+FFFD. *)
Definition searchable (s : string) : Prop :=
  ValidString s = true
  /\ Forall (fun r => byte_val <$> r ∉ [[0]; [239; 191; 190]; [239; 191; 191]])
       (runes (String.length s) (bytes_of s)).

#[export] Instance searchable_dec s : Decision (searchable s).
Proof. unfold searchable. apply _. Defined.

Definition cont (b : Z) : Prop := 128 <= b <= 191.

(** The encodings of the characters that are searched. *)
Definition plain_rune (r : list Z) : Prop :=
  match r with
  | [a] => 1 <= a < 128
  | [a; b] => 194 <= a <= 223 /\ cont b
  | [a; b; c] => 224 <= a <= 239 /\ cont b /\ cont c /\ (a = 224 -> 160 <= b) /\ (a = 237 -> b <= 159)
      /\ ~ (a = 239 /\ b = 191 /\ 190 <= c)
  | [a; b; c; d] => 240 <= a <= 244 /\ cont b /\ cont c /\ cont d /\ (a = 240 -> 144 <= b) /\ (a = 244 -> b <= 143)
  | _ => False
  end.

Definition code (r : list Z) : Z :=
  match r with
  | [a] => a
  | [a; b] => (a - 192) * 64 + (b - 128)
  | [a; b; c] => ((a - 224) * 64 + (b - 128)) * 64 + (c - 128)
  | [a; b; c; d] => (((a - 240) * 64 + (b - 128)) * 64 + (c - 128)) * 64 + (d - 128)
  | _ => 0
  end.

Ltac rune r := destruct r as [|? [|? [|? [|? [|? ?]]]]]; cbn [plain_rune] in *; unfold cont in *; try done.

Lemma rune_plain c l : (byte_val c <? 128) || negb (rune_len (c :: l) =? 1)%nat = true ->
  byte_val <$> take (rune_len (c :: l)) (c :: l) ∉ [[0]; [239; 191; 190]; [239; 191; 191]] ->
  plain_rune (byte_val <$> take (rune_len (c :: l)) (c :: l)).
Proof.
  rewrite !not_elem_of_cons. pose proof (byte_val_range c). unfold rune_len.
  destruct l as [|b [|d [|e l]]]; repeat case_match;
    cbn [take fmap list_fmap plain_rune]; unfold is_cont, cont in *; intros Hc (N0 & N1 & N2 & _);
    cbn [Nat.eqb negb] in Hc; try lia.
  all: try (assert (byte_val c <> 0) by congruence; lia).
  all: split_and!; try lia.
  all: intros (E1 & E2 & E3); rewrite E1, E2 in *;
    match goal with d : ascii |- _ => assert (byte_val d = 190 \/ byte_val d = 191) as [E|E] by lia; rewrite E in *; done end.
Qed.

Lemma searchable_plain fuel l : (length l <= fuel)%nat -> valid_bytes fuel l = true ->
  Forall (fun r => byte_val <$> r ∉ [[0]; [239; 191; 190]; [239; 191; 191]]) (runes fuel l) ->
  exists R, Forall plain_rune R /\ byte_val <$> l = concat R.
Proof.
  revert l. induction fuel as [|n IH]; intros [|c l] Hl Hv HF; cbn in Hl; try lia; try by exists [].
  cbn [valid_bytes runes] in Hv, HF. apply andb_prop in Hv as [Hc Hv]. apply Forall_cons in HF as [Hr HF].
  pose proof (rune_len_bounds c l) as Hb.
  destruct (IH (drop (rune_len (c :: l)) (c :: l))) as (R & HR & E); [rewrite length_drop; cbn [length]; lia|done|done|].
  exists ((byte_val <$> take (rune_len (c :: l)) (c :: l)) :: R). split.
  - constructor; [|done]. by apply rune_plain.
  - cbn [concat]. by rewrite <- E, <- fmap_app, take_drop.
Qed.

(** ** Reading a character *)

Definition no_cont (l : list Z) : Prop := match l with b :: _ => 0 <= b < 256 /\ ~ cont b | [] => True end.

Lemma plain_no_cont R : Forall plain_rune R -> no_cont (concat R).
Proof. intros [|r R' Hr _]; [done|]. rune r; cbn; unfold cont; lia. Qed.

Lemma all_bytes (P : Z -> bool) : forallb P (seqZ 0 256) = true -> forall b, 0 <= b < 256 -> P b = true.
Proof. intros H b Hb. rewrite forallb_forall in H. apply H, list_elem_of_In, elem_of_seqZ. lia. Qed.

Lemma continuation_byte b : 0 <= b < 256 -> (Z.land b 192 =? 128) = (128 <=? b) && (b <=? 191).
Proof.
  intros Hb. apply eqb_prop, (all_bytes (fun b => Bool.eqb (Z.land b 192 =? 128) ((128 <=? b) && (b <=? 191))));
    [by vm_compute|done].
Qed.

Lemma continuation_bits b : cont b -> Z.land b 63 = b - 128.
Proof.
  unfold cont. intros Hb.
  pose proof (all_bytes (fun b => (Z.land b 63 =? b - 128) || (b <? 128) || (191 <? b)) ltac:(by vm_compute) b). lia.
Qed.

Lemma continue_cont c b l : cont b -> 0 <= c < 2 ^ 20 -> continue_char c (b :: l) = continue_char (c * 64 + (b - 128)) l.
Proof.
  intros Hb Hc. cbn [continue_char]. rewrite continuation_byte, continuation_bits by (unfold cont in Hb; lia || done).
  unfold cont in Hb. replace ((128 <=? b) && (b <=? 191)) with true by lia.
  rewrite Z.shiftl_mul_pow2 by lia. rewrite Z.mod_small by lia. done.
Qed.

Lemma continue_done c l : no_cont l -> continue_char c l = (c, l).
Proof.
  destruct l as [|b l]; [done|]. intros [Hb Hn]. cbn [continue_char]. rewrite continuation_byte by done.
  unfold cont in Hn. by replace ((128 <=? b) && (b <=? 191)) with false by lia.
Qed.

(** The high bits of a 32-bit word. *)
Lemma land_high c k : 0 <= c < 2 ^ 32 -> 0 <= k <= 32 -> Z.land c (2 ^ 32 - 2 ^ k) = c / 2 ^ k * 2 ^ k.
Proof.
  intros Hc Hk. replace (2 ^ 32 - 2 ^ k) with (Z.shiftl (Z.ones (32 - k)) k).
  2: { rewrite Z.shiftl_mul_pow2, Z.ones_equiv by lia. replace (2 ^ 32) with (2 ^ (32 - k) * 2 ^ k); [lia|].
       rewrite <- Z.pow_add_r by lia. f_equal. lia. }
  rewrite <- Z.shiftr_div_pow2, <- Z.shiftl_mul_pow2 by lia. apply Z.bits_inj'. intros n Hn.
  rewrite Z.land_spec, !Z.shiftl_spec by lia. destruct (decide (n < k)) as [H|H].
  { rewrite !(Z.testbit_neg_r _ (n - k)) by lia. apply andb_false_r. }
  rewrite Z.shiftr_spec by lia. replace (n - k + k) with n by lia.
  destruct (decide (n < 32)) as [Hs|Hs].
  - rewrite Z.ones_spec_low by lia. apply andb_true_r.
  - rewrite Z.ones_spec_high by lia. rewrite andb_false_r. symmetry.
    apply Z.bits_above_log2; [lia|]. destruct (decide (c = 0)) as [->|]; [cbn; lia|].
    apply Z.log2_lt_pow2; [lia|]. pose proof (Z.pow_le_mono_r 2 32 n). lia.
Qed.

Lemma no_replacement r : plain_rune r -> (length r <> 1)%nat ->
  (code r <? 128) || (Z.land (code r) 4294965248 =? 55296) || (Z.land (code r) 4294967294 =? 65534) = false.
Proof.
  intros Hr Hl. assert (Hc : 128 <= code r < 2 ^ 32 /\ ~ (55296 <= code r < 57344) /\ ~ (65534 <= code r < 65536))
    by (rune r; cbn [code length] in *; lia).
  change 4294965248 with (2 ^ 32 - 2 ^ 11). change 4294967294 with (2 ^ 32 - 2 ^ 1).
  rewrite !land_high by lia. Z.to_euclidean_division_equations. lia.
Qed.

Lemma Read_plain r l : plain_rune r -> no_cont l -> sqlite3Utf8Read (r ++ l) = (code r, l).
Proof.
  intros Hr Hl. destruct (decide (length r = 1%nat)) as [E|E].
  - destruct r as [|a [|? ?]]; try done. cbn in *. by replace (a <? 192) with true by lia.
  - pose proof (no_replacement r Hr E) as Hn.
    cut (exists a t, r = a :: t /\ 192 <= a /\ continue_char (sqlite3Utf8Trans1 a) (t ++ l) = (code r, l)).
    { intros (a & t & -> & Ha & Ec). cbn [app sqlite3Utf8Read]. replace (a <? 192) with false by lia.
      by rewrite Ec, Hn. }
    destruct r as [|a t]; [done|]. exists a, t. unfold sqlite3Utf8Trans1.
    destruct t as [|b [|c [|d [|? ?]]]]; cbn [plain_rune length] in *; try done; (split_and!; [done|lia|]); cbn [app code].
    + replace (a <? 224) with true by lia. rewrite continue_cont, continue_done by (done || naive_solver lia). done.
    + replace (a <? 224) with false by lia. replace (a <? 240) with true by lia. unfold cont in Hr.
      rewrite !continue_cont, continue_done by (done || unfold cont; lia). done.
    + replace (a <? 224) with false by lia. replace (a <? 240) with false by lia. replace (a <? 248) with true by lia.
      unfold cont in Hr. rewrite !continue_cont, continue_done by (done || unfold cont; lia). done.
Qed.

(** ** Escaped texts between wildcards *)

(** A rune in either case. *)
Definition fold_rune (r : list Z) : list Z := sqlite3Tolower <$> r.

(** The text [R] starts with [Q], or holds it, in either case. *)
Fixpoint starts_with (Q R : list (list Z)) : bool :=
  match Q, R with
  | [], _ => true
  | q :: Q', r :: R' => bool_decide (fold_rune r = fold_rune q) && starts_with Q' R'
  | _ :: _, [] => false
  end.

Fixpoint occurs (Q R : list (list Z)) : bool :=
  starts_with Q R || match R with [] => false | _ :: R' => occurs Q R' end.

Definition escape_rune (r : list Z) : list (list Z) :=
  if bool_decide (r ∈ [[92]; [37]; [95]]) then [[92]; r] else [r].

Lemma escape_rune_plain Q : Forall plain_rune Q -> Forall plain_rune (flat_map escape_rune Q).
Proof.
  induction 1 as [|q Q Hq _ IH]; [constructor|]. cbn. apply Forall_app. split; [|done].
  unfold escape_rune. case_bool_decide; repeat constructor; done || (cbn; lia).
Qed.

Lemma fold_multibyte r : plain_rune r -> (length r <> 1)%nat -> fold_rune r = r.
Proof.
  intros Hr Hl. unfold fold_rune. rewrite <- (list_fmap_id r) at 2. apply list_fmap_ext. intros i b Hb.
  apply list_elem_of_lookup_2 in Hb. unfold sqlite3Tolower.
  replace ((65 <=? b) && (b <=? 90)) with false; [done|].
  rune r; cbn [length] in *; rewrite ?elem_of_cons, elem_of_nil in Hb; lia.
Qed.

Lemma multibyte_code r : plain_rune r -> (length r <> 1)%nat -> 128 <= code r.
Proof. intros Hr Hl. rune r; cbn [code length] in *; lia. Qed.

Lemma multibyte_code_inj q r : plain_rune q -> plain_rune r -> (length q <> 1)%nat -> (length r <> 1)%nat ->
  code q = code r -> q = r.
Proof.
  intros Hq Hr Lq Lr E. assert (length q = length r) by (rune q; rune r; cbn [code length] in *; lia).
  rune q; rune r; cbn [code length] in *; repeat (f_equal; try lia).
Qed.

Lemma code_fold q r : plain_rune q -> plain_rune r ->
  (code q =? code r) || (sqlite3Tolower (code q) =? sqlite3Tolower (code r)) && (code q <? 128) && (code r <? 128)
  = bool_decide (fold_rune r = fold_rune q).
Proof.
  intros Hq Hr. apply Bool.eq_iff_eq_true. rewrite bool_decide_eq_true, orb_true_iff, !andb_true_iff, !Z.eqb_eq, !Z.ltb_lt.
  destruct (decide (length q = 1%nat)) as [Lq|Lq], (decide (length r = 1%nat)) as [Lr|Lr].
  - destruct q as [|a [|? ?]], r as [|b [|? ?]]; try done. cbn [code plain_rune] in *.
    unfold fold_rune. cbn [fmap list_fmap]. split; [intros [->|[[E _] _]]; [done|by rewrite E]|intros [= E]; right; lia].
  - pose proof (multibyte_code r Hr Lr). destruct q as [|a [|? ?]]; try done. cbn [code plain_rune] in *.
    split; [lia|]. intros E%(f_equal length). unfold fold_rune in E. rewrite !length_fmap in E. done.
  - pose proof (multibyte_code q Hq Lq). destruct r as [|a [|? ?]]; try done. cbn [code plain_rune] in *.
    split; [lia|]. intros E%(f_equal length). unfold fold_rune in E. rewrite !length_fmap in E. done.
  - rewrite !fold_multibyte by done. pose proof (multibyte_code r Hr Lr). split; [|intros ->; by left].
    intros [E|E]; [|lia]. symmetry. by apply multibyte_code_inj.
Qed.

Lemma code_multibyte q r : plain_rune q -> plain_rune r -> 128 < code q ->
  (code r =? code q) = bool_decide (fold_rune r = fold_rune q).
Proof.
  intros Hq Hr Hc. rewrite <- code_fold by done. rewrite (Z.eqb_sym (code q)).
  replace (code q <? 128) with false by lia. by rewrite andb_false_r, orb_false_r.
Qed.

(** ** The pattern of an escaped text *)

Lemma code_nonzero r : plain_rune r -> code r <> 0.
Proof.
  intros Hr. destruct (decide (length r = 1%nat)) as [L|L].
  - destruct r as [|a [|? ?]]; try done. cbn in *. lia.
  - pose proof (multibyte_code r Hr L). lia.
Qed.

(** At the end of the text no character of a pattern matches. *)
Lemma end_of_text c b : c <> 0 ->
  (c =? 0) || (sqlite3Tolower c =? sqlite3Tolower 0) && (c <? 128) && (0 <? 128) || b && negb (0 =? 0) = false.
Proof.
  intros Hc. change (negb (0 =? 0)) with false. rewrite andb_false_r, orb_false_r. change (sqlite3Tolower 0) with 0.
  unfold sqlite3Tolower. case_match; lia.
Qed.

Lemma plain_percent : plain_rune [37].
Proof. cbn. lia. Qed.

Lemma Read_concat r R : plain_rune r -> Forall plain_rune R -> sqlite3Utf8Read (concat (r :: R)) = (code r, concat R).
Proof. intros Hr HR. apply Read_plain; [done|by apply plain_no_cont]. Qed.

Lemma concat_nil R : Forall plain_rune R -> concat R = [] -> R = [].
Proof. intros [|r R' Hr _]; [done|]. by rune r. Qed.

(** The pattern behind the first character that was found. *)
Definition tail_pattern (Q : list (list Z)) : list (list Z) := flat_map escape_rune Q ++ [[37]].

Lemma tail_pattern_cons q Q : tail_pattern (q :: Q) = escape_rune q ++ tail_pattern Q.
Proof. unfold tail_pattern. cbn [flat_map]. by rewrite <- app_assoc. Qed.

Lemma tail_pattern_plain Q : Forall plain_rune Q -> Forall plain_rune (tail_pattern Q).
Proof. intros HQ. apply Forall_app. split; [by apply escape_rune_plain|]. constructor; [exact plain_percent|constructor]. Qed.

Lemma special_code q : plain_rune q -> (q ∈ [[92]; [37]; [95]] <-> code q = 92 \/ code q = 37 \/ code q = 95).
Proof.
  intros Hq. rewrite !elem_of_cons, elem_of_nil. destruct (decide (length q = 1%nat)) as [L|L].
  - destruct q as [|a [|? ?]]; try done. cbn. naive_solver.
  - pose proof (multibyte_code q Hq L). split; [|lia]. by intros [->|[->|[->|[]]]].
Qed.

Lemma literals_match Q R n : Forall plain_rune Q -> Forall plain_rune R -> (length (tail_pattern Q) < n)%nat ->
  patternCompare n (concat (tail_pattern Q)) (concat R) = if starts_with Q R then SQLITE_MATCH else SQLITE_NOMATCH.
Proof.
  intros HQ. revert R n. induction HQ as [|q Q Hq HQ IH]; intros R n HR Hn.
  - destruct n as [|[|n]]; [cbn in Hn; lia..|]. by destruct R.
  - pose proof (tail_pattern_plain _ HQ) as HT. destruct n as [|n]; [lia|].
    rewrite tail_pattern_cons in *. unfold escape_rune in *. pose proof (special_code q Hq) as Hs.
    pose proof (code_nonzero q Hq) as Hz. cbn [patternCompare].
    case_bool_decide as Hx; cbn [app length] in *.
    + assert (H92 : plain_rune [92]) by (cbn; lia).
      rewrite (Read_concat [92]) by (done || by constructor). cbn [code Z.eqb matchAll escape_char Pos.eqb].
      rewrite Read_concat by done. replace (code q =? 0) with false by lia.
      destruct R as [|r R].
      * cbn [concat sqlite3Utf8Read starts_with]. by rewrite end_of_text.
      * apply Forall_cons in HR as [Hr HR]. rewrite Read_concat by done. cbn [starts_with negb].
        rewrite andb_false_r, orb_false_r, code_fold by done. case_bool_decide; [|done]. by rewrite IH by (done || lia).
    + assert (Hne : code q <> 92 /\ code q <> 37 /\ code q <> 95) by tauto.
      rewrite Read_concat by done. unfold matchAll, escape_char, matchOne.
      replace (code q =? 0) with false by lia. replace (code q =? 37) with false by lia.
      replace (code q =? 92) with false by lia. replace (code q =? 95) with false by lia.
      cbn [andb]. replace (code q =? 0) with false by lia.
      destruct R as [|r R].
      * cbn [concat sqlite3Utf8Read starts_with]. by rewrite (end_of_text _ false).
      * apply Forall_cons in HR as [Hr HR]. rewrite Read_concat by done. cbn [starts_with].
        rewrite orb_false_r, code_fold by done. case_bool_decide; [|done]. by rewrite IH by (done || lia).
Qed.

Section search.

Context (q : list Z) (Q : list (list Z)) (k : list Z -> comparison_result) (Hq : plain_rune q).
Context (Hk : forall R, Forall plain_rune R -> k (concat R) = if starts_with Q R then SQLITE_MATCH else SQLITE_NOMATCH).

Lemma search_char_occurs R n : 128 < code q -> Forall plain_rune R -> (length (concat R) < n)%nat ->
  search_char n (code q) k (concat R) = if occurs (q :: Q) R then SQLITE_MATCH else SQLITE_NOWILDCARDMATCH.
Proof.
  intros Hc HR. revert n. induction HR as [|r R Hr HR IH]; intros n Hn; (destruct n as [|n]; [cbn in Hn; lia|]).
  - done.
  - cbn [search_char]. rewrite Read_concat by done. pose proof (code_nonzero r Hr).
    replace (code r =? 0) with false by lia. rewrite code_multibyte by done. cbn [occurs starts_with].
    assert (Hlen : (length (concat R) < n)%nat) by (cbn in Hn; rewrite length_app in Hn; rune r; cbn in Hn; lia).
    case_bool_decide; cbn [negb andb orb]; [|by apply IH]. rewrite Hk by done.
    destruct (starts_with Q R); [done|]. by apply IH.
Qed.

Lemma search_byte_skip u l t s : u < 128 -> l < 128 -> Forall (fun b => 128 <= b) t ->
  search_byte u l k (t ++ s) = search_byte u l k s.
Proof.
  intros Hu Hl. induction 1 as [|b t Hb _ IH]; [done|]. cbn [app search_byte].
  by replace ((b =? u) || (b =? l)) with false by lia.
Qed.

Lemma multibyte_high r : plain_rune r -> (length r <> 1)%nat -> Forall (fun b => 128 <= b) r.
Proof. intros Hr Hl. rune r; cbn [length] in Hl; repeat constructor; lia. Qed.

Lemma search_byte_occurs R : code q < 128 -> Forall plain_rune R ->
  search_byte (sqlite3Toupper (code q)) (sqlite3Tolower (code q)) k (concat R)
  = if occurs (q :: Q) R then SQLITE_MATCH else SQLITE_NOWILDCARDMATCH.
Proof.
  intros Hc. assert (Lq : length q = 1%nat) by (destruct (decide (length q = 1%nat)); [done|pose proof (multibyte_code q Hq); lia]).
  destruct q as [|a [|? ?]] eqn:Eq; try done. cbn [code plain_rune] in *.
  induction 1 as [|r R Hr HR IH]; [done|]. cbn [concat occurs starts_with].
  destruct (decide (length r = 1%nat)) as [Lr|Lr].
  - destruct r as [|b [|? ?]]; try done. cbn [app search_byte plain_rune] in *.
    replace ((b =? sqlite3Toupper a) || (b =? sqlite3Tolower a)) with (bool_decide (fold_rune [b] = fold_rune [a])).
    { case_bool_decide; cbn [andb orb]; [|done]. rewrite Hk by done. by destruct (starts_with Q R). }
    apply Bool.eq_iff_eq_true. rewrite bool_decide_eq_true, orb_true_iff, !Z.eqb_eq. unfold fold_rune. cbn [fmap list_fmap].
    unfold sqlite3Toupper, sqlite3Tolower. split; [intros [=]|intros; f_equal]; repeat case_match; lia.
  - rewrite search_byte_skip; [|unfold sqlite3Toupper, sqlite3Tolower; repeat case_match; lia..|by apply multibyte_high].
    rewrite bool_decide_false; [done|]. intros E%(f_equal length). unfold fold_rune in E. by rewrite !length_fmap in E.
Qed.

End search.

Lemma length_concat_plain R : Forall plain_rune R -> (length R <= length (concat R))%nat.
Proof. induction 1 as [|r R Hr _ IH]; [done|]. cbn. rewrite length_app. rune r; cbn; lia. Qed.

Lemma code_128 q : plain_rune q -> code q = 128 -> q = [194; 128].
Proof. intros Hq E. rune q; cbn [code] in E; repeat (f_equal; try lia). Qed.

(** A pattern of a text between two wildcards finds the texts that hold it. *)
Lemma needle_occurs Q R : Forall plain_rune Q -> Forall plain_rune R -> head Q <> Some [194; 128] ->
  let p := concat ([37] :: tail_pattern Q) in
  patternCompare (S (length p)) p (concat R) = if occurs Q R then SQLITE_MATCH else SQLITE_NOWILDCARDMATCH.
Proof.
  intros HQ HR H80 p. pose proof (tail_pattern_plain Q HQ) as HT. unfold p. cbn [patternCompare].
  rewrite (Read_concat [37]) by (done || exact plain_percent). cbn [code Z.eqb matchAll Pos.eqb].
  pose proof (length_concat_plain _ HT) as Hlen. cbn [concat app length] in *.
  set (n := length (concat (tail_pattern Q))) in *. clearbody n p.
  destruct HQ as [|q Q Hq HQ]; [destruct n; [cbn in Hlen; lia|by destruct R]|].
  rewrite tail_pattern_cons in *. unfold escape_rune in *.
  pose proof (tail_pattern_plain Q HQ) as HT'. pose proof (special_code q Hq) as Hs. pose proof (code_nonzero q Hq) as Hz.
  assert (Hk : forall m R, (length (tail_pattern Q) < m)%nat -> Forall plain_rune R ->
    patternCompare m (concat (tail_pattern Q)) (concat R) = if starts_with Q R then SQLITE_MATCH else SQLITE_NOMATCH)
    by (intros; by apply literals_match).
  assert (Hsearch : (if code q <=? 128 then search_byte (sqlite3Toupper (code q)) (sqlite3Tolower (code q))
      (patternCompare (S n) (concat (tail_pattern Q))) (concat R)
    else search_char (S (length (concat R))) (code q) (patternCompare (S n) (concat (tail_pattern Q))) (concat R))
    = if occurs (q :: Q) R then SQLITE_MATCH else SQLITE_NOWILDCARDMATCH).
  { assert (Hshort : (length (tail_pattern Q) < S n)%nat) by (rewrite length_app in Hlen; lia).
    assert (code q <> 128) by (intros E; by apply code_128 in E as ->).
    destruct (Z.leb_spec (code q) 128).
    - apply search_byte_occurs; [done|by intros; apply Hk|lia|done].
    - apply search_char_occurs; [done|by intros; apply Hk|lia|done|lia]. }
  cbn [skip_wildcards]. case_bool_decide as Hx; cbn [app length] in *.
  - assert (H92 : plain_rune [92]) by (cbn; lia). apply Forall_cons in HT as [_ HT].
    rewrite (Read_concat [92]) by done. cbn [code Z.eqb matchAll matchOne escape_char Pos.eqb].
    rewrite Read_concat by done. by replace (code q =? 0) with false by lia.
  - assert (Hne : code q <> 92 /\ code q <> 37 /\ code q <> 95) by tauto.
    rewrite Read_concat by done. unfold matchAll, matchOne, escape_char.
    replace (code q =? 37) with false by lia. replace (code q =? 95) with false by lia.
    replace (code q =? 0) with false by lia. replace (code q =? 92) with false by lia.
    by replace (code q =? 0) with false by lia.
Qed.

(** ** Characters found are bytes found *)

Lemma fold_head_length q r x y t u : plain_rune q -> plain_rune r -> q = x :: t -> r = y :: u ->
  sqlite3Tolower x = sqlite3Tolower y -> length q = length r.
Proof.
  intros Hq Hr -> -> E. assert (E' : x = y \/ x < 128 /\ y < 128).
  { revert E. unfold sqlite3Tolower. repeat case_match; lia. }
  clear E. destruct t as [|? [|? [|? [|? ?]]]], u as [|? [|? [|? [|? ?]]]]; cbn in *; try done; lia.
Qed.

Lemma starts_with_bytes Q R : Forall plain_rune Q -> Forall plain_rune R -> starts_with Q R = true
  <-> exists m b, concat R = m ++ b /\ fold_rune m = fold_rune (concat Q).
Proof.
  intros HQ. revert R. induction HQ as [|q Q Hq HQ IH]; intros R HR.
  { split; [|done]. intros _. by exists [], (concat R). }
  destruct HR as [|r R Hr HR]; cbn [starts_with concat].
  - split; [done|]. intros (m & b & E & Hm). symmetry in E. apply app_eq_nil in E as [-> _].
    unfold fold_rune in Hm. by rune q.
  - rewrite andb_true_iff, bool_decide_eq_true, IH by done. unfold fold_rune. split.
    + intros (E & m & b & -> & Hm). exists (r ++ m), b. by rewrite app_assoc, !fmap_app, E, Hm.
    + intros (m & b & E & Hm). rewrite fmap_app in Hm. apply fmap_app_inv in Hm as (m1 & m2 & H1 & H2 & ->).
      rewrite <- app_assoc in E. assert (Hl : length r = length m1).
      { apply (f_equal length) in H1 as Hlen. rewrite !length_fmap in Hlen. rewrite <- Hlen.
        destruct q as [|x t]; [done|]. destruct m1 as [|y u]; [done|]. destruct r as [|z v]; [done|].
        injection E as -> _. injection H1 as H1 _. symmetry. by eapply fold_head_length. }
      apply app_inj_1 in E as [-> E]; [|done]. split; [done|]. by exists m2, b.
Qed.

Lemma plain_tail y t : plain_rune (y :: t) -> Forall cont t.
Proof. intros H. destruct t as [|? [|? [|? [|? ?]]]]; cbn in H; try done; rewrite ?Forall_cons, Forall_nil; tauto. Qed.

Lemma concat_boundary R a x l : Forall plain_rune R -> concat R = a ++ x :: l -> ~ cont x ->
  exists A B, R = A ++ B /\ concat B = x :: l.
Proof.
  intros HR. revert a. induction HR as [|r R Hr HR IH]; intros a E Hx; [by destruct a|].
  destruct a as [|y a]; [by exists [], (r :: R)|]. cbn [concat] in E.
  apply app_eq_inv in E as [(k & -> & E)|(k & E & E')].
  - (* the rune ends before the boundary *) destruct k as [|z k].
    + cbn in E. exists [y :: a], R. by rewrite <- E, app_nil_r in *.
    + exfalso. cbn in E. injection E as -> _. apply Hx.
      apply plain_tail, Forall_app in Hr as [_ [Hz _]%Forall_cons]. done.
  - destruct (IH k) as (A & B & -> & EB); [done|done|]. exists (r :: A), B. by rewrite EB.
Qed.

Lemma occurs_bytes Q R : Forall plain_rune Q -> Forall plain_rune R -> occurs Q R = true
  <-> exists a m b, concat R = a ++ m ++ b /\ fold_rune m = fold_rune (concat Q).
Proof.
  intros HQ HR. transitivity (exists A B, R = A ++ B /\ starts_with Q B = true).
  - clear HR. induction R as [|r R IH]; cbn [occurs].
    + rewrite orb_false_r. split; [intros H; by exists [], []|]. intros (A & B & E & H).
      symmetry in E. by apply app_eq_nil in E as [_ ->].
    + rewrite orb_true_iff, IH. split.
      * intros [H|(A & B & -> & H)]; [by exists [], (r :: R)|by exists (r :: A), B].
      * intros (A & B & E & H). destruct A as [|x A]; [left; by rewrite E|right].
        injection E as -> ->. by exists A, B.
  - split.
    + intros (A & B & -> & (m & b & E & Hm)%starts_with_bytes); [|done|by apply Forall_app in HR as [_ ?]].
      exists (concat A), m, b. by rewrite concat_app, E.
    + intros (a & m & b & E & Hm). destruct HQ as [|q Q Hq HQ]; [by exists [], R|].
      destruct m as [|x m]; [unfold fold_rune in Hm; by rune q|].
      destruct (concat_boundary R a x (m ++ b)) as (A & B & -> & EB); [done|done| |].
      { clear -Hm Hq. cbn [concat] in Hm. unfold cont, fold_rune, sqlite3Tolower in *. rune q; injection Hm as Hm _;
          revert Hm; repeat case_match; lia. }
      exists A, B. split; [done|]. apply starts_with_bytes; [by constructor|by apply Forall_app in HR as [_ ?]|].
      by exists (x :: m), b.
Qed.

(** ** Texts of searches *)

(** The query does not start with U+0080, which SQLite searches as the byte 128. *)
Definition no_control_head (q : string) : Prop := byte_val <$> take 2 (bytes_of q) <> [194; 128].

#[export] Instance no_control_head_dec q : Decision (no_control_head q).
Proof. unfold no_control_head. apply _. Defined.

(** [text] holds [q], ASCII letters in either case. *)
Definition contains (q text : string) : Prop := exists a m b,
  bytes_of text = a ++ m ++ b /\ lower_byte <$> m = lower_byte <$> bytes_of q.

Lemma contains_lower q text : contains q text
  <-> Exists (fun i => lower_byte <$> bytes_of q `prefix_of` drop i (lower_byte <$> bytes_of text))
        (seq 0 (S (length (bytes_of text)))).
Proof.
  rewrite Exists_exists. unfold contains. split.
  - intros (a & m & b & -> & <-). exists (length a). rewrite elem_of_seq, !fmap_app, length_app. split; [lia|].
    rewrite drop_app_length' by (by rewrite length_fmap). by exists (lower_byte <$> b).
  - intros (i & _ & (r & E)). exists (take i (bytes_of text)).
    rewrite <- fmap_drop in E. apply fmap_app_inv in E as (m & b & Em & _ & E). exists m, b.
    by rewrite <- E, take_drop.
Qed.

#[export] Instance contains_dec q text : Decision (contains q text).
Proof.
  refine (cast_if (decide (Exists (fun i => lower_byte <$> bytes_of q `prefix_of` drop i (lower_byte <$> bytes_of text))
    (seq 0 (S (length (bytes_of text)))))));
    abstract (by rewrite contains_lower).
Defined.

Lemma lower_byte_val c : byte_val (lower_byte c) = sqlite3Tolower (byte_val c).
Proof.
  unfold lower_byte, sqlite3Tolower. destruct ((65 <=? byte_val c) && (byte_val c <=? 90)) eqn:E; [|done].
  rewrite byte_val_of; lia.
Qed.

Lemma lower_bytes_val l m : lower_byte <$> l = lower_byte <$> m
  <-> fold_rune (byte_val <$> l) = fold_rune (byte_val <$> m).
Proof.
  unfold fold_rune. rewrite <- !list_fmap_compose. 
  rewrite !(list_fmap_ext (sqlite3Tolower ∘ byte_val) (byte_val ∘ lower_byte)) by (intros; symmetry; apply lower_byte_val).
  rewrite !list_fmap_compose. split; [by intros ->|]. apply list_fmap_eq_inj. intros x y. apply byte_val_inj.
Qed.

Lemma c_string_plain R : Forall plain_rune R -> c_string (concat R) = concat R.
Proof.
  assert (H : forall l m, Forall (fun b => b <> 0) l -> c_string (l ++ m) = l ++ c_string m).
  { induction 1 as [|b l Hb _ IH]; [done|]. cbn. replace (b =? 0) with false by lia. by rewrite IH. }
  induction 1 as [|r R Hr _ IH]; [done|]. cbn. rewrite H, IH; [done|].
  rune r; repeat constructor; lia.
Qed.
