(* ===== verification/Wbs.v ===== *)
(** * The work breakdown structure (wbs/model.go, wbs/parse.go, wbs/revision.go)

    The aggregate of a scope: a tree of nodes reached through pointers, with links
    from its leaves to activities and costs.  [Validate] walks the pointers and
    must cope with any graph; [Parse] reads a strict JSON payload; revisions are
    canonical decimal uint64 strings. *)

From S2P Require Import Prelude GoFloat GoStrings GoDecimal GoJson GoJsonV2.

Local Open Scope Z_scope.

Inductive WbsError : Type :=
| ErrInvalid
| ErrUnsupportedSchema
| ErrLimit
| ErrRevision
| ErrRevisionOverflow
| ErrRevisionConflict
| ErrIdentityMismatch.

#[export] Instance WbsError_eq_dec : EqDecision WbsError.
Proof. solve_decision. Defined.

Definition CurrentSchema : Z := 2.
Definition MaxPayloadBytes : Z := 8 * 2 ^ 20.
Definition MaxNodes : Z := 10000.
Definition MaxLevels : Z := 64.
Definition MaxTextBytes : Z := 64 * 2 ^ 10.
Definition MaxIdentifierBytes : Z := 256.
Definition MaxAssociations : Z := 50000.

(** ** The model *)

Record Dictionary : Type := mkDictionary {
  Description : string;
  ScopeIn : string;
  ScopeOut : string;
  AcceptanceCriteria : string
}.

#[export] Instance Dictionary_eq_dec : EqDecision Dictionary.
Proof. solve_decision. Defined.

(** The fields of a [Node] other than its children. *)
Record NodeFields : Type := mkFields {
  n_ID : string;
  n_Title : string;
  n_Number : string;
  n_Note : string;
  n_Owner : string;
  n_Effort : f64;
  n_Classification : string;
  n_Dictionary : option Dictionary
}.

Record ActivityLink : Type := mkActivityLink {
  al_NodeID : string;
  al_ScheduleChartID : string;
  al_ActivityID : string
}.

Record CostLink : Type := mkCostLink {
  cl_NodeID : string;
  cl_CostEntryID : string
}.

(** [R] is the type of the pointers to nodes. *)
Record Aggregate (R : Type) : Type := mkAggregate {
  SchemaVersion : Z;
  Revision : string;
  Root : R;
  ActivityLinks : list ActivityLink;
  CostLinks : list CostLink
}.

Arguments mkAggregate {R}.
Arguments SchemaVersion {R}.
Arguments Revision {R}.
Arguments Root {R}.
Arguments ActivityLinks {R}.
Arguments CostLinks {R}.

(** A freshly built tree, as [json.Unmarshal] makes it: no pointer is shared. *)
Inductive Node : Type :=
| mkNode (fields : NodeFields) (children : list Node).

Definition node_fields (n : Node) : NodeFields := let (f, _) := n in f.
Definition node_children (n : Node) : list Node := let (_, cs) := n in cs.

(** What a pointer points to; [None] is nil. *)
Definition Deref (R : Type) : Type := R -> option (NodeFields * list R).

Definition tree_deref : Deref (option Node) := fun r =>
  match r with
  | Some (mkNode f cs) => Some (f, Some <$> cs)
  | None => None
  end.

(** Pointers into a heap, where nodes may be shared or form cycles. *)
Definition heap_deref (heap : gmap positive (NodeFields * list (option positive)))
    : Deref (option positive) := fun r => r ≫= (heap !!.).

(** ** Encoding *)

(** Tag [omitempty] drops a member whose value encodes as null, an empty string,
    an empty array or an empty object; a number never does. *)
Definition is_empty_value (v : value) : bool :=
  match v with
  | VNull | VArray [] | VObject [] => true
  | VString s => String.eqb s ""
  | _ => false
  end.

Definition omitempty (k : string) (v : value) : list (string * value) :=
  if is_empty_value v then [] else [(k, v)].

Definition encode_dictionary (d : option Dictionary) : value :=
  match d with
  | None => VNull
  | Some d =>
      VObject (omitempty "description" (VString (Description d))
               ++ omitempty "scope_in" (VString (ScopeIn d))
               ++ omitempty "scope_out" (VString (ScopeOut d))
               ++ omitempty "acceptance_criteria" (VString (AcceptanceCriteria d)))
  end.

Definition encode_node_fields (f : NodeFields) : list (string * value) :=
  ("id"%string, VString (n_ID f)) :: ("title"%string, VString (n_Title f))
  :: omitempty "number" (VString (n_Number f))
  ++ omitempty "note" (VString (n_Note f))
  ++ omitempty "owner" (VString (n_Owner f))
  ++ ("effort"%string, VNumber (format_number (n_Effort f)))
  :: omitempty "classification" (VString (n_Classification f))
  ++ omitempty "dictionary" (encode_dictionary (n_Dictionary f)).

Fixpoint encode_node (n : Node) : value :=
  let (f, cs) := n in
  VObject (encode_node_fields f ++ omitempty "children" (VArray (map encode_node cs))).

Definition encode_activity (l : ActivityLink) : value :=
  VObject [("node_id", VString (al_NodeID l)); ("schedule_chart_id", VString (al_ScheduleChartID l));
           ("activity_id", VString (al_ActivityID l))]%string.

Definition encode_cost (l : CostLink) : value :=
  VObject [("node_id", VString (cl_NodeID l)); ("cost_entry_id", VString (cl_CostEntryID l))]%string.

Definition encode_aggregate (a : Aggregate (option Node)) : value :=
  VObject (("schema_version"%string, VNumber (FormatInt (SchemaVersion a)))
    :: ("revision"%string, VString (Revision a))
    :: ("root"%string, match Root a with Some n => encode_node n | None => VNull end)
    :: omitempty "activity_links" (VArray (map encode_activity (ActivityLinks a)))
    ++ omitempty "cost_links" (VArray (map encode_cost (CostLinks a)))).

(** [json.Marshal] of an aggregate with valid text and finite efforts. *)
Definition Marshal (a : Aggregate (option Node)) : string :=
  string_of (print_value (encode_aggregate a)).

(** ** Revisions *)

Definition revisionValue (s : string) : result WbsError Z :=
  match ParseUint (bytes_of s) with
  | Some v => if String.eqb (string_of (FormatUint v)) s then Ok v else Err ErrRevision
  | None => Err ErrRevision
  end.

Definition NextRevision (current : string) : result WbsError string :=
  v <-! revisionValue current ;;
  if v =? max_uint64 then Err ErrRevisionOverflow else Ok (string_of (FormatUint (v + 1))).

(** ** Validation *)

Definition byte_len (s : string) : Z := Z.of_nat (String.length s).

Definition identifier (s : string) : result WbsError unit :=
  if MaxIdentifierBytes <? byte_len s then Err ErrLimit
  else if String.eqb (TrimSpace s) "" || negb (ValidString s) then Err ErrInvalid
  else Ok ().

Definition text (s : string) : result WbsError unit :=
  if MaxTextBytes <? byte_len s then Err ErrLimit
  else if negb (ValidString s) then Err ErrInvalid
  else Ok ().

Fixpoint texts (l : list string) : result WbsError unit :=
  match l with
  | [] => Ok ()
  | s :: r => must! text s ;; texts r
  end.

Definition dictionary_texts (d : option Dictionary) : list string :=
  match d with
  | None => []
  | Some d => [Description d; ScopeIn d; ScopeOut d; AcceptanceCriteria d]
  end.

Definition node_texts (f : NodeFields) : list string :=
  [n_Title f; n_Number f; n_Note f; n_Owner f; n_Classification f].

(** The map [nodes] from an ID to its node. *)
Notation Nodes R := (gmap string (NodeFields * list R)).

Section validate.
Context {R : Type} (deref : Deref R).

Definition map_len {A} (m : gmap string A) : Z := Z.of_nat (size m).
Definition list_len {A} (l : list A) : Z := Z.of_nat (length l).

(** The checks of one node before its children are pushed. *)
Definition check_node (nodes : Nodes R) (f : NodeFields) : result WbsError unit :=
  must! identifier (n_ID f) ;;
  if bool_decide (is_Some (nodes !! n_ID f)) then Err ErrInvalid
  else
    must! texts (node_texts f) ;;
    must! texts (dictionary_texts (n_Dictionary f)) ;;
    if is_nan (n_Effort f) || is_inf (n_Effort f) then Err ErrInvalid else Ok ().

(** The loop over the stack of visits, its top first.  Every round adds a node,
    and there are at most [MaxNodes]. *)
Fixpoint validate_loop (fuel : nat) (nodes : Nodes R) (stack : list (R * Z))
    : option (result WbsError (Nodes R)) :=
  match stack with
  | [] => Some (Ok nodes)
  | (r, level) :: rest =>
      match fuel with
      | O => None
      | S fuel' =>
          if (MaxLevels <? level) || (MaxNodes <=? map_len nodes) then Some (Err ErrLimit)
          else match deref r with
          | None => Some (Err ErrInvalid)
          | Some (f, children) =>
              match check_node nodes f with
              | Err e => Some (Err e)
              | Ok _ =>
                  let nodes := <[n_ID f := (f, children)]> nodes in
                  if (MaxNodes - map_len nodes <? list_len children)
                     || (MaxNodes - map_len nodes - list_len children <? list_len rest)
                  then Some (Err ErrLimit)
                  else validate_loop fuel' nodes (((fun c => (c, level + 1)) <$> children) ++ rest)
              end
          end
      end
  end.

Definition validate_fuel : nat := Z.to_nat (MaxNodes + 1).

Definition leaf (nodes : Nodes R) (id : string) : result WbsError unit :=
  must! identifier id ;;
  match nodes !! id with
  | Some (_, []) => Ok ()
  | _ => Err ErrInvalid
  end.

Fixpoint check_activities (nodes : Nodes R) (activities : list (string * string))
    (l : list ActivityLink) : result WbsError unit :=
  match l with
  | [] => Ok ()
  | link :: r =>
      must! leaf nodes (al_NodeID link) ;;
      must! identifier (al_ScheduleChartID link) ;;
      must! identifier (al_ActivityID link) ;;
      let key := (al_ScheduleChartID link, al_ActivityID link) in
      if bool_decide (key ∈ activities) then Err ErrInvalid
      else check_activities nodes (key :: activities) r
  end.

Fixpoint check_costs (nodes : Nodes R) (costs : list string) (l : list CostLink)
    : result WbsError unit :=
  match l with
  | [] => Ok ()
  | link :: r =>
      must! leaf nodes (cl_NodeID link) ;;
      must! identifier (cl_CostEntryID link) ;;
      if bool_decide (cl_CostEntryID link ∈ costs) then Err ErrInvalid
      else check_costs nodes (cl_CostEntryID link :: costs) r
  end.

(** The tree the encoder traverses; a validated hierarchy is at most [MaxLevels]
    deep. *)
Fixpoint tree_of (fuel : nat) (r : R) : option Node :=
  match fuel with
  | O => None
  | S fuel' =>
      match deref r with
      | None => None
      | Some (f, children) => mkNode f <$> mapM (tree_of fuel') children
      end
  end.

Definition with_root (a : Aggregate R) (n : option Node) : Aggregate (option Node) :=
  mkAggregate (SchemaVersion a) (Revision a) n (ActivityLinks a) (CostLinks a).

(** [encodedSize], through a writer that fails once the payload is too long. *)
Definition encodedSize (a : Aggregate R) : result WbsError unit :=
  if MaxPayloadBytes <? byte_len (Marshal (with_root a (tree_of (Z.to_nat MaxLevels) (Root a))))
  then Err ErrLimit else Ok ().

Definition Validate (a : Aggregate R) : result WbsError unit :=
  if negb (SchemaVersion a =? CurrentSchema) then Err ErrUnsupportedSchema
  else
    must! revisionValue (Revision a) ;;
    match deref (Root a) with
    | None => Err ErrInvalid
    | Some _ =>
        if (MaxAssociations <? list_len (ActivityLinks a))
           || (MaxAssociations - list_len (ActivityLinks a) <? list_len (CostLinks a))
        then Err ErrLimit
        else
          match validate_loop validate_fuel ∅ [(Root a, 1)] with
          | None => Err ErrLimit   (* never: see [validate_loop_total] *)
          | Some r =>
              nodes <-! r ;;
              must! check_activities nodes [] (ActivityLinks a) ;;
              must! check_costs nodes [] (CostLinks a) ;;
              encodedSize a
          end
    end.

End validate.


(** ** Decoding

    [json.Unmarshal] with [RejectUnknownMembers] into zero values.  [preflight] has
    refused nulls, so none is decoded. *)

Definition decode_string (v : value) : option string :=
  match v with VString s => Some s | _ => None end.

(** An int takes an integer literal in range. *)
Definition decode_int (v : value) : option Z :=
  match v with
  | VNumber (c :: r) =>
      if Ascii.eqb c "-" then
        match ParseUint r with
        | Some n => if n <=? 2 ^ 63 then Some (- n) else None
        | None => None
        end
      else match ParseUint (c :: r) with
           | Some n => if n <? 2 ^ 63 then Some n else None
           | None => None
           end
  | _ => None
  end.

Definition decode_float (v : value) : option f64 :=
  match v with
  | VNumber raw =>
      match read_number raw with
      | Some (x, []) => if is_inf x then None else Some x
      | _ => None
      end
  | _ => None
  end.

(** Set one member after the other; a member that cannot be set is an error. *)
Fixpoint decode_members {A} (set : A -> string -> value -> option A) (a : A)
    (l : list (string * value)) : option A :=
  match l with
  | [] => Some a
  | (k, v) :: r =>
      match set a k v with
      | Some a' => decode_members set a' r
      | None => None
      end
  end.

Fixpoint decode_list {A} (f : value -> option A) (l : list value) : option (list A) :=
  match l with
  | [] => Some []
  | v :: r =>
      match f v, decode_list f r with
      | Some a, Some l' => Some (a :: l')
      | _, _ => None
      end
  end.

Definition decode_array {A} (f : value -> option A) (v : value) : option (list A) :=
  match v with VArray l => decode_list f l | _ => None end.

Definition empty_dictionary : Dictionary := mkDictionary "" "" "" "".

Definition set_dictionary (d : Dictionary) (k : string) (v : value) : option Dictionary :=
  s ← decode_string v;
  if String.eqb k "description"
  then Some (mkDictionary s (ScopeIn d) (ScopeOut d) (AcceptanceCriteria d))
  else if String.eqb k "scope_in"
  then Some (mkDictionary (Description d) s (ScopeOut d) (AcceptanceCriteria d))
  else if String.eqb k "scope_out"
  then Some (mkDictionary (Description d) (ScopeIn d) s (AcceptanceCriteria d))
  else if String.eqb k "acceptance_criteria"
  then Some (mkDictionary (Description d) (ScopeIn d) (ScopeOut d) s)
  else None.

Definition decode_dictionary (v : value) : option Dictionary :=
  match v with VObject l => decode_members set_dictionary empty_dictionary l | _ => None end.

Definition empty_fields : NodeFields := mkFields "" "" "" "" "" fzero "" None.

Definition set_field (f : NodeFields) (k : string) (v : value) : option NodeFields :=
  let 'mkFields id title number note owner effort class dict := f in
  if String.eqb k "id"
  then s ← decode_string v; Some (mkFields s title number note owner effort class dict)
  else if String.eqb k "title"
  then s ← decode_string v; Some (mkFields id s number note owner effort class dict)
  else if String.eqb k "number"
  then s ← decode_string v; Some (mkFields id title s note owner effort class dict)
  else if String.eqb k "note"
  then s ← decode_string v; Some (mkFields id title number s owner effort class dict)
  else if String.eqb k "owner"
  then s ← decode_string v; Some (mkFields id title number note s effort class dict)
  else if String.eqb k "effort"
  then x ← decode_float v; Some (mkFields id title number note owner x class dict)
  else if String.eqb k "classification"
  then s ← decode_string v; Some (mkFields id title number note owner effort s dict)
  else if String.eqb k "dictionary"
  then d ← decode_dictionary v; Some (mkFields id title number note owner effort class (Some d))
  else None.

(** [children] is decoded by [kids], every other member sets a field. *)
Definition set_node (kids : value -> option (list Node)) (n : Node) (k : string) (v : value)
    : option Node :=
  let (f, cs) := n in
  if String.eqb k "children" then mkNode f <$> kids v
  else (fun f' => mkNode f' cs) <$> set_field f k v.

Fixpoint decode_node (v : value) : option Node :=
  match v with
  | VObject l =>
      decode_members
        (set_node (fun x => match x with VArray cs => decode_list decode_node cs | _ => None end))
        (mkNode empty_fields []) l
  | _ => None
  end.

Definition set_activity (l : ActivityLink) (k : string) (v : value) : option ActivityLink :=
  s ← decode_string v;
  if String.eqb k "node_id" then Some (mkActivityLink s (al_ScheduleChartID l) (al_ActivityID l))
  else if String.eqb k "schedule_chart_id"
  then Some (mkActivityLink (al_NodeID l) s (al_ActivityID l))
  else if String.eqb k "activity_id"
  then Some (mkActivityLink (al_NodeID l) (al_ScheduleChartID l) s)
  else None.

Definition decode_activity (v : value) : option ActivityLink :=
  match v with VObject l => decode_members set_activity (mkActivityLink "" "" "") l | _ => None end.

Definition set_cost (l : CostLink) (k : string) (v : value) : option CostLink :=
  s ← decode_string v;
  if String.eqb k "node_id" then Some (mkCostLink s (cl_CostEntryID l))
  else if String.eqb k "cost_entry_id" then Some (mkCostLink (cl_NodeID l) s)
  else None.

Definition decode_cost (v : value) : option CostLink :=
  match v with VObject l => decode_members set_cost (mkCostLink "" "") l | _ => None end.

Definition set_aggregate (a : Aggregate (option Node)) (k : string) (v : value)
    : option (Aggregate (option Node)) :=
  let 'mkAggregate version revision root activities costs := a in
  if String.eqb k "schema_version"
  then n ← decode_int v; Some (mkAggregate n revision root activities costs)
  else if String.eqb k "revision"
  then s ← decode_string v; Some (mkAggregate version s root activities costs)
  else if String.eqb k "root"
  then n ← decode_node v; Some (mkAggregate version revision (Some n) activities costs)
  else if String.eqb k "activity_links"
  then l ← decode_array decode_activity v; Some (mkAggregate version revision root l costs)
  else if String.eqb k "cost_links"
  then l ← decode_array decode_cost v; Some (mkAggregate version revision root activities l)
  else None.

Definition decode_aggregate (v : value) : option (Aggregate (option Node)) :=
  match v with
  | VObject l => decode_members set_aggregate (mkAggregate 0 "" None [] []) l
  | _ => None
  end.

(** ** Parsing *)

Definition is_begin_object (t : token) : bool := match t with TBeginObject => true | _ => false end.

(** The loop over the tokens; [ok]: the text ends after the last one. *)
Fixpoint preflight_loop (first : bool) (objects : Z) (ts : list (token * nat)) (ok : bool)
    : result WbsError unit :=
  match ts with
  | [] => Err ErrInvalid
  | (t, depth) :: rest =>
      if first && negb (is_begin_object t) then Err ErrInvalid
      else if 2 * MaxLevels + 2 <? Z.of_nat depth then Err ErrLimit
      else if match t with TNull => true | _ => false end then Err ErrInvalid
      else if match t with TString s => MaxTextBytes <? byte_len s | _ => false end
      then Err ErrLimit
      else
        let objects := if is_begin_object t then objects + 1 else objects in
        if is_begin_object t && (1 + 2 * MaxNodes + MaxAssociations <? objects) then Err ErrLimit
        else if (depth =? 0)%nat then
          match rest, ok with
          | [], true => Ok ()
          | _, _ => Err ErrInvalid
          end
        else preflight_loop false objects rest ok
  end.

Definition preflight (raw : string) : result WbsError unit :=
  let (ts, ok) := tokens_of (bytes_of raw) in preflight_loop true 0 ts ok.

Definition Unmarshal2 (raw : string) : option (Aggregate (option Node)) :=
  v ← read_value2 (bytes_of raw); decode_aggregate v.

Definition Parse (raw : string) : result WbsError (Aggregate (option Node)) :=
  if MaxPayloadBytes <? byte_len raw then Err ErrLimit
  else
    must! preflight raw ;;
    match Unmarshal2 raw with
    | None => Err ErrInvalid
    | Some a => must! Validate tree_deref a ;; Ok a
    end.

(** ** Normalization (normalizeWBSNode of db/wbs_store.go)

    Empty dictionaries are dropped before a scope is stored. *)

Definition normalize_dictionary (d : option Dictionary) : option Dictionary :=
  match d with
  | Some d => if bool_decide (d = empty_dictionary) then None else Some d
  | None => None
  end.

Definition normalize_fields (f : NodeFields) : NodeFields :=
  mkFields (n_ID f) (n_Title f) (n_Number f) (n_Note f) (n_Owner f) (n_Effort f) (n_Classification f)
    (normalize_dictionary (n_Dictionary f)).

Fixpoint normalizeWBSNode (n : Node) : Node :=
  let (f, cs) := n in mkNode (normalize_fields f) (map normalizeWBSNode cs).

Definition normalize (a : Aggregate (option Node)) : Aggregate (option Node) :=
  with_root a (normalizeWBSNode <$> Root a).

(** ** Write contexts *)

Record Identity : Type := mkIdentity {
  CopyID : string;
  ProjectID : string;
  ChartID : string;
  LifetimeID : string
}.

#[export] Instance Identity_eq_dec : EqDecision Identity.
Proof. solve_decision. Defined.

Fixpoint identifiers (l : list string) : result WbsError unit :=
  match l with
  | [] => Ok ()
  | s :: r => must! identifier s ;; identifiers r
  end.

Definition identity_strings (i : Identity) : list string :=
  [CopyID i; ProjectID i; ChartID i; LifetimeID i].

Definition CheckWriteContext (current requested : Identity) (revision expected : string)
    : result WbsError unit :=
  must! identifiers (identity_strings current ++ identity_strings requested) ;;
  must! revisionValue revision ;;
  must! revisionValue expected ;;
  if negb (bool_decide (current = requested)) then Err ErrIdentityMismatch
  else if negb (String.eqb revision expected) then Err ErrRevisionConflict
  else Ok ().

(** ** The cases of the tests *)

Definition qs (s : string) : string := string_of (quote2 s).

(** The test file writes JSON with double quotes; here they are built. *)
Definition minimal_payload : string :=
  ("{" ++ qs "schema_version" ++ ":2," ++ qs "revision" ++ ":" ++ qs "0" ++ ","
   ++ qs "root" ++ ":{" ++ qs "id" ++ ":" ++ qs "r" ++ "}}")%string.

Definition minimal_aggregate : Aggregate (option Node) :=
  mkAggregate 2 "0" (Some (mkNode (mkFields "r" "" "" "" "" fzero "" None) [])) [] [].

Example Parse_minimal : Parse minimal_payload = Ok minimal_aggregate.
Proof. vm_compute. reflexivity. Qed.
