(* ===== verification/WbsTheorems.v ===== *)
(** * What validation of a work breakdown structure accepts

    Whatever pointers a scope is made of (shared, cyclic, nil), [Validate] returns;
    it accepts exactly the scopes whose root unfolds to a finite tree within the
    limits, with distinct identifiers and links from leaves. *)

From S2P Require Import Prelude GoFloat GoStrings GoDecimal GoJson GoJsonV2 Wbs.

Local Open Scope Z_scope.

(** ** Trees *)

Section node_ind'.
Context (P : Node -> Prop) (H : forall f cs, Forall P cs -> P (mkNode f cs)).

Fixpoint node_ind' (n : Node) : P n :=
  match n with
  | mkNode f cs => H f cs ((fix go l := match l return Forall P l with
                                        | [] => Forall_nil_2 P
                                        | x :: r => Forall_cons_2 P x r (node_ind' x) (go r)
                                        end) cs)
  end.
End node_ind'.

(** The nodes of a tree, parents first. *)
Fixpoint node_all (n : Node) : list Node := let (f, cs) := n in n :: flat_map node_all cs.

Fixpoint node_depth (n : Node) : Z :=
  let (_, cs) := n in 1 + foldr Z.max 0 (map node_depth cs).

Definition forest_all (ts : list Node) : list Node := flat_map node_all ts.

Definition node_id (n : Node) : string := n_ID (node_fields n).

(** The fields of a node and whether it is a leaf. *)
Definition entry (n : Node) : NodeFields * bool := (node_fields n, is_nil (node_children n)).

Definition node_ok (f : NodeFields) : Prop :=
  identifier (n_ID f) = Ok () /\ texts (node_texts f) = Ok ()
  /\ texts (dictionary_texts (n_Dictionary f)) = Ok ()
  /\ is_nan (n_Effort f) = false /\ is_inf (n_Effort f) = false.

Lemma foldr_max_nonneg l : 0 <= foldr Z.max 0 l.
Proof. induction l; simpl; lia. Qed.

Lemma node_depth_pos n : 1 <= node_depth n.
Proof. destruct n as [f cs]. simpl. pose proof (foldr_max_nonneg (map node_depth cs)). lia. Qed.

Lemma node_depth_le f cs k : 0 <= k ->
  node_depth (mkNode f cs) <= 1 + k <-> Forall (fun c => node_depth c <= k) cs.
Proof.
  intros Hk. simpl. induction cs as [|c cs IH]; simpl; [by split; [constructor|lia]|].
  rewrite Forall_cons, <- IH. lia.
Qed.

Section unfolding.
Context {R : Type} (deref : Deref R).

(** The pointer [r] leads to the tree [n]. *)
Fixpoint unfolds (n : Node) (r : R) : Prop :=
  let (f, cs) := n in
  exists rs, deref r = Some (f, rs)
  /\ (fix all cs rs := match cs, rs with
                       | [], [] => True
                       | c :: cs', r :: rs' => unfolds c r /\ all cs' rs'
                       | _, _ => False
                       end) cs rs.

Lemma unfolds_node f cs r : unfolds (mkNode f cs) r <->
  exists rs, deref r = Some (f, rs) /\ Forall2 unfolds cs rs.
Proof.
  simpl. split; intros (rs & Hr & H); exists rs; (split; [done|]); clear Hr; revert rs H.
  - induction cs as [|c cs IH]; intros [|r' rs] H; try done.
    destruct H as [H1 H2]. constructor; [done|by apply IH].
  - induction cs as [|c cs IH]; intros [|r' rs] H; inversion H; simplify_eq; [done|].
    split; [done|by apply IH].
Qed.

Lemma tree_of_unfolds n : forall r fuel, unfolds n r -> node_depth n <= Z.of_nat fuel ->
  tree_of deref fuel r = Some n.
Proof.
  induction n as [f cs IH] using node_ind'. intros r fuel Hu Hd.
  pose proof (node_depth_pos (mkNode f cs)). destruct fuel as [|fuel]; [lia|].
  replace (Z.of_nat (S fuel)) with (1 + Z.of_nat fuel) in Hd by lia.
  apply node_depth_le in Hd; [|lia]. apply unfolds_node in Hu as (rs & Hr & Hf). simpl. rewrite Hr.
  assert (Hm : mapM (tree_of deref fuel) rs = Some cs).
  { apply mapM_Some. clear Hr H. revert rs Hf. induction cs as [|c cs IHc]; intros rs Hf; inversion Hf; simplify_eq; [constructor|].
    apply Forall_cons in IH as [IH1 IH2]. apply Forall_cons in Hd as [Hd1 Hd2].
    constructor; [by apply IH1|by apply IHc]. }
  by rewrite Hm.
Qed.

(** ** The loop *)

Lemma rbind_Ok_unit {E B} (x : result E unit) (k : unit -> result E B) b :
  rbind x k = Ok b <-> x = Ok () /\ k () = Ok b.
Proof. destruct x as [[]|e]; simpl; naive_solver. Qed.

(** The map knows exactly the entries. *)
Definition knows (nodes : Nodes R) (es : list (NodeFields * bool)) : Prop :=
  forall id f b, (f, b) ∈ es /\ n_ID f = id <-> exists rs, nodes !! id = Some (f, rs) /\ is_nil rs = b.

Lemma knows_insert nodes es f rs : knows nodes es -> nodes !! n_ID f = None ->
  knows (<[n_ID f := (f, rs)]> nodes) ((f, is_nil rs) :: es).
Proof.
  intros Hk Hn id f' b. rewrite elem_of_cons. split.
  - intros [[Heq|Hin] <-].
    + simplify_eq. exists rs. by rewrite lookup_insert_eq.
    + destruct (proj1 (Hk (n_ID f') f' b)) as (rs' & Hl & Hb); [done|].
      exists rs'. rewrite lookup_insert_ne; [done|]. intros E. rewrite E in Hn. congruence.
  - intros (rs' & Hl & Hb). destruct (decide (n_ID f = id)) as [<-|Hne].
    + rewrite lookup_insert_eq in Hl. simplify_eq. split; [by left|done].
    + rewrite lookup_insert_ne in Hl by done. destruct (proj2 (Hk id f' b)) as [Hin Hid]; [by exists rs'|].
      split; [by right|done].
Qed.

(** The forests that a stack must unfold to for the loop to accept it. *)
Definition acceptable (nodes : Nodes R) (stack : list (R * Z)) (ts : list Node) : Prop :=
  Forall2 (fun t v => unfolds t v.1 /\ v.2 - 1 + node_depth t <= MaxLevels) ts stack
  /\ Forall (fun n => node_ok (node_fields n)) (forest_all ts)
  /\ NoDup (node_id <$> forest_all ts)
  /\ Forall (fun n => nodes !! node_id n = None) (forest_all ts)
  /\ map_len nodes + list_len (forest_all ts) <= MaxNodes.

Lemma Forall2_with_l {A B} (P : A -> Prop) (Q : A -> B -> Prop) l k :
  Forall P l -> Forall2 Q l k -> Forall2 (fun x y => Q x y /\ P x) l k.
Proof.
  intros Hp Hq. induction Hq as [|x y l k Hxy Hq IH]; [constructor|].
  apply Forall_cons in Hp as [Hx Hl]. constructor; [done|by apply IH].
Qed.

Lemma check_node_Ok (nodes : Nodes R) f :
  check_node nodes f = Ok () <-> node_ok f /\ nodes !! n_ID f = None.
Proof.
  unfold check_node, node_ok. rewrite (rbind_Ok_unit (identifier _)).
  case_bool_decide as Hs;
    [split; [by intros []|intros [_ H]; rewrite H in Hs; by destruct Hs]|].
  apply eq_None_not_Some in Hs. rewrite !rbind_Ok_unit.
  destruct (is_nan (n_Effort f)), (is_inf (n_Effort f)); cbn [orb]; naive_solver.
Qed.

Lemma forest_all_app ts1 ts2 : forest_all (ts1 ++ ts2) = forest_all ts1 ++ forest_all ts2.
Proof. apply flat_map_app. Qed.

Lemma forest_all_cons f cs ts :
  forest_all (mkNode f cs :: ts) = mkNode f cs :: forest_all (cs ++ ts).
Proof. rewrite forest_all_app. done. Qed.

Lemma forest_length ts : list_len ts <= list_len (forest_all ts).
Proof.
  unfold list_len. induction ts as [|[f cs] ts IH]; [done|].
  rewrite forest_all_cons, forest_all_app. simpl. rewrite length_app. lia.
Qed.

Lemma map_len_insert (nodes : Nodes R) id p : nodes !! id = None ->
  map_len (<[id := p]> nodes) = map_len nodes + 1.
Proof. intros H. unfold map_len. rewrite map_size_insert_None by done. lia. Qed.

Lemma acceptable_cons (nodes : Nodes R) r level rest ts :
  acceptable nodes ((r, level) :: rest) ts <->
  exists f rs cs ts', ts = mkNode f cs :: ts' /\ deref r = Some (f, rs) /\ length cs = length rs
    /\ level <= MaxLevels /\ check_node nodes f = Ok ()
    /\ map_len nodes + 1 <= MaxNodes
    /\ acceptable (<[n_ID f := (f, rs)]> nodes) (((fun c => (c, level + 1)) <$> rs) ++ rest) (cs ++ ts').
Proof.
  unfold acceptable. split.
  - intros (Hf & Hok & Hnd & Hne & Hlen).
    apply Forall2_cons_inv_r in Hf as ([f cs] & ts' & [Hu Hd] & Hf' & ->). cbn [fst snd] in Hu, Hd.
    apply unfolds_node in Hu as (rs & Hr & Hcs').
    rewrite forest_all_cons in *. rewrite fmap_cons in Hnd.
    apply NoDup_cons in Hnd as [Hni Hnd]. apply Forall_cons in Hok as [Hok1 Hok].
    apply Forall_cons in Hne as [Hne1 Hne]. cbn [node_fields node_id] in *.
    unfold list_len in Hlen. cbn [length] in Hlen.
    assert (Hlev : level <= MaxLevels) by (pose proof (node_depth_pos (mkNode f cs)); lia).
    exists f, rs, cs, ts'.
    split_and!; try done; [by eapply Forall2_length|by apply check_node_Ok|lia| | |].
    + apply Forall2_app; [|done]. rewrite Forall2_fmap_r.
      assert (Hd' : Forall (fun c => node_depth c <= MaxLevels - level) cs)
        by (apply (node_depth_le f); lia).
      eapply Forall2_impl; [by apply Forall2_with_l|]. intros c r' [H1 H2]. cbn in *. split; [done|lia].
    + apply Forall_forall. intros n Hn. rewrite Forall_forall in Hne.
      rewrite lookup_insert_ne; [by apply Hne|]. intros E. apply Hni. apply list_elem_of_fmap. by exists n.
    + rewrite map_len_insert by done. unfold list_len. lia.
  - intros (f & rs & cs & ts' & -> & Hr & Hl & Hlev & Hc & Hcnt & Hf & Hok & Hnd & Hne & Hlen).
    apply check_node_Ok in Hc as [Hc Hn]. rewrite forest_all_cons.
    apply Forall2_app_inv in Hf as [Hf1 Hf2]; [|by rewrite length_fmap].
    rewrite Forall2_fmap_r in Hf1. rewrite map_len_insert in Hlen by done. split_and!.
    + constructor; [|done]. cbn [fst snd]. split.
      * apply unfolds_node. exists rs. split; [done|]. eapply Forall2_impl; [exact Hf1|]. by intros ?? [? _].
      * cut (node_depth (mkNode f cs) <= 1 + (MaxLevels - level)); [lia|]. apply node_depth_le; [lia|].
        eapply Forall2_Forall_l; [exact Hf1|]. apply Forall_true. cbn. intros ?? [_ ?]. lia.
    + by constructor.
    + rewrite fmap_cons. apply NoDup_cons. split; [|done]. intros (n & E & Hin)%list_elem_of_fmap.
      rewrite Forall_forall in Hne. specialize (Hne n Hin). cbn in E. rewrite <- E in Hne.
      by rewrite lookup_insert_eq in Hne.
    + constructor; [done|]. eapply Forall_impl; [exact Hne|]. intros n H. by apply lookup_insert_None in H as [].
    + unfold list_len in *. cbn [length]. lia.
Qed.

Lemma acceptable_lengths (nodes : Nodes R) stack ts : acceptable nodes stack ts ->
  map_len nodes + list_len stack <= MaxNodes.
Proof.
  intros (Hf & _ & _ & _ & Hlen). apply Forall2_length in Hf. pose proof (forest_length ts).
  unfold list_len in *. lia.
Qed.

Lemma is_nil_length {A B} (l : list A) (k : list B) : length l = length k -> is_nil l = is_nil k.
Proof. by destruct l, k. Qed.

(** What the loop answers, and that the fuel suffices. *)
Definition loop_verdict nodes stack es (out : option (result WbsError (Nodes R))) : Prop :=
  match out with
  | None => False
  | Some (Err _) => forall ts, ~ acceptable nodes stack ts
  | Some (Ok res) => exists ts, acceptable nodes stack ts /\ knows res (map entry (forest_all ts) ++ es)
  end.

Lemma loop_spec fuel : forall nodes stack es, knows nodes es -> map_len nodes <= MaxNodes ->
  MaxNodes - map_len nodes < Z.of_nat fuel ->
  loop_verdict nodes stack es (validate_loop deref fuel nodes stack).
Proof.
  induction fuel as [|fuel IH]; intros nodes [|[r level] rest] es Hk Hle Hfuel; cbn [validate_loop].
  1,3: exists []; split; [|done]; unfold acceptable; split_and!; try constructor;
       unfold list_len; cbn; lia.
  1: lia.
  destruct ((MaxLevels <? level) || (MaxNodes <=? map_len nodes)) eqn:Hlim; [|destruct (deref r) as [[f rs]|] eqn:Hr].
  - intros ts (f & rs & cs & ts' & _ & _ & _ & Hl & _ & Hm & _)%acceptable_cons. lia.
  - destruct (check_node nodes f) as [[]|e] eqn:Hc.
    + apply check_node_Ok in Hc as Hc'. destruct Hc' as [Hok Hn].
      set (nodes' := <[n_ID f := (f, rs)]> nodes) in *.
      assert (Hlen : map_len nodes' = map_len nodes + 1) by by apply map_len_insert.
      destruct ((MaxNodes - map_len nodes' <? list_len rs)
        || (MaxNodes - map_len nodes' - list_len rs <? list_len rest)) eqn:Hlim2.
      * intros ts (f' & rs' & cs & ts' & _ & Hr' & _ & _ & _ & _ & Ha)%acceptable_cons. simplify_eq.
        apply acceptable_lengths in Ha. fold nodes' in Ha. unfold list_len in *.
        rewrite length_app, length_fmap in Ha. lia.
      * specialize (IH nodes' (((fun c => (c, level + 1)) <$> rs) ++ rest) ((f, is_nil rs) :: es)).
        unfold loop_verdict in *. destruct (validate_loop _ _ _ _) as [[res|e]|] eqn:Hv.
        -- destruct IH as (ts & Ha & Hres); [by apply knows_insert|lia|lia|].
           pose proof Ha as (Hf & _). apply Forall2_app_inv_r in Hf as (cs & ts' & Hf1 & Hf2 & ->).
           apply Forall2_length in Hf1 as Hl. rewrite length_fmap in Hl.
           exists (mkNode f cs :: ts'). split; [apply acceptable_cons; exists f, rs, cs, ts'; split_and!; done || lia|].
           intros id f' b. rewrite <- (Hres id f' b), forest_all_cons, map_cons.
           replace (entry (mkNode f cs)) with (f, is_nil rs)
             by (unfold entry; cbn; by rewrite (is_nil_length cs rs Hl)).
           rewrite elem_of_app, elem_of_cons, elem_of_app, elem_of_cons. tauto.
        -- intros ts (f' & rs' & cs & ts' & _ & Hr' & _ & _ & _ & _ & Ha)%acceptable_cons. simplify_eq.
           eapply IH; [by apply knows_insert|lia|lia|exact Ha].
        -- apply IH; [by apply knows_insert|lia|lia].
    + intros ts (f' & rs' & cs & ts' & _ & Hr' & _ & _ & Hc' & _)%acceptable_cons. simplify_eq. congruence.
  - intros ts (f & rs & cs & ts' & _ & Hr' & _)%acceptable_cons. congruence.
Qed.

(** ** Links *)

Definition leaf_of (t : Node) (id : string) : Prop :=
  exists n, n ∈ node_all t /\ node_id n = id /\ node_children n = [].

Definition activity_key (l : ActivityLink) : string * string := (al_ScheduleChartID l, al_ActivityID l).

Definition activity_ok (t : Node) (l : ActivityLink) : Prop :=
  leaf_of t (al_NodeID l) /\ identifier (al_ScheduleChartID l) = Ok () /\ identifier (al_ActivityID l) = Ok ().

Definition cost_ok (t : Node) (l : CostLink) : Prop :=
  leaf_of t (cl_NodeID l) /\ identifier (cl_CostEntryID l) = Ok ().

Section links.
Context (nodes : Nodes R) (t : Node)
  (Hok : Forall (fun n => node_ok (node_fields n)) (node_all t))
  (Hk : knows nodes (map entry (node_all t))).

Lemma leaf_Ok id : leaf nodes id = Ok () <-> leaf_of t id.
Proof.
  unfold leaf. rewrite rbind_Ok_unit. rewrite Forall_forall in Hok. split.
  - intros [Hid Hl]. destruct (nodes !! id) as [[f [|]]|] eqn:E; try done.
    destruct (proj2 (Hk id f true)) as [Hin Hf]; [by exists []|].
    apply list_elem_of_fmap in Hin as (n & En & Hn). unfold entry in En. simplify_eq.
    exists n. split_and!; [done|done|]. by destruct (node_children n).
  - intros (n & Hn & <- & Hc). split; [by destruct (Hok n Hn)|].
    destruct (proj1 (Hk (node_id n) (node_fields n) true)) as (rs & -> & Hrs).
    { split; [|done]. apply list_elem_of_fmap. exists n. unfold entry. by rewrite Hc. }
    by destruct rs.
Qed.

(** A loop that checks every link and refuses a key twice. *)
Lemma check_loop {L K : Type} (check : list K -> list L -> result WbsError unit) (ok : L -> Prop)
    (key : L -> K) :
  (forall seen, check seen [] = Ok ()) ->
  (forall seen l r, check seen (l :: r) = Ok () <->
     ok l /\ key l ∉ seen /\ check (key l :: seen) r = Ok ()) ->
  forall l seen, check seen l = Ok () <->
    Forall ok l /\ NoDup (key <$> l) /\ Forall (fun x => key x ∉ seen) l.
Proof.
  intros Hnil Hcons l. induction l as [|x l IH]; intros seen.
  { rewrite Hnil. split; [|done]. intros _. by split_and!; constructor. }
  rewrite Hcons, IH, fmap_cons, NoDup_cons, !Forall_cons. split.
  - intros (H1 & H2 & H3 & H4 & H5). split_and!; try done.
    + intros (y & E & Hy)%list_elem_of_fmap. rewrite Forall_forall in H5.
      specialize (H5 y Hy). rewrite <- E in H5. set_solver.
    + eapply Forall_impl; [exact H5|]. set_solver.
  - intros ([H1 H2] & [H3 H4] & H5 & H6). split_and!; try done.
    apply Forall_forall. intros y Hy. rewrite Forall_forall in H6. specialize (H6 y Hy).
    apply not_elem_of_cons. split; [|done]. intros E. apply H3. rewrite <- E. by apply list_elem_of_fmap_2.
Qed.

Lemma check_activities_Ok l : check_activities nodes [] l = Ok () <->
  Forall (activity_ok t) l /\ NoDup (activity_key <$> l).
Proof.
  rewrite (check_loop (check_activities nodes) (activity_ok t) activity_key); [|done|].
  - split; [by intros (? & ? & _)|]. intros [? ?]. split_and!; try done.
    apply Forall_forall. intros ? _. apply not_elem_of_nil.
  - intros seen x r. cbn [check_activities]. rewrite !rbind_Ok_unit, leaf_Ok. unfold activity_ok.
    fold (activity_key x). case_bool_decide; naive_solver.
Qed.

Lemma check_costs_Ok l : check_costs nodes [] l = Ok () <->
  Forall (cost_ok t) l /\ NoDup (cl_CostEntryID <$> l).
Proof.
  rewrite (check_loop (check_costs nodes) (cost_ok t) cl_CostEntryID); [|done|].
  - split; [by intros (? & ? & _)|]. intros [? ?]. split_and!; try done.
    apply Forall_forall. intros ? _. apply not_elem_of_nil.
  - intros seen x r. cbn [check_costs]. rewrite !rbind_Ok_unit, leaf_Ok. unfold cost_ok.
    case_bool_decide; naive_solver.
Qed.
End links.

(** ** Validation *)

(** The number a revision stands for, in canonical decimal. *)
Definition is_revision (s : string) (v : Z) : Prop :=
  0 <= v <= max_uint64 /\ s = string_of (FormatUint v).

(** A tree within the limits. *)
Definition tree_ok (t : Node) : Prop :=
  node_depth t <= MaxLevels /\ list_len (node_all t) <= MaxNodes
  /\ Forall (fun n => node_ok (node_fields n)) (node_all t) /\ NoDup (node_id <$> node_all t).

Definition links_ok (t : Node) (activities : list ActivityLink) (costs : list CostLink) : Prop :=
  list_len activities + list_len costs <= MaxAssociations
  /\ Forall (activity_ok t) activities /\ NoDup (activity_key <$> activities)
  /\ Forall (cost_ok t) costs /\ NoDup (cl_CostEntryID <$> costs).

(** What [Validate] promises of an aggregate. *)
Definition well_formed (a : Aggregate R) : Prop :=
  SchemaVersion a = CurrentSchema /\ (exists v, is_revision (Revision a) v)
  /\ exists t, unfolds t (Root a) /\ tree_ok t /\ links_ok t (ActivityLinks a) (CostLinks a)
     /\ byte_len (Marshal (with_root a (Some t))) <= MaxPayloadBytes.

Lemma knows_nil : knows ∅ [].
Proof.
  intros id f b. rewrite elem_of_nil, lookup_empty. split; [by intros []|by intros (? & ? & _)].
Qed.

Lemma acceptable_root r ts : acceptable ∅ [(r, 1)] ts <->
  exists t, ts = [t] /\ unfolds t r /\ tree_ok t.
Proof.
  unfold acceptable, tree_ok. split.
  - intros (Hf & Hok & Hnd & _ & Hlen). apply Forall2_cons_inv_r in Hf as (t & ts' & [Hu Hd] & Hf & ->).
    apply Forall2_nil_inv_r in Hf as ->. exists t. unfold forest_all in *. cbn [flat_map fst snd] in *.
    rewrite app_nil_r in *. unfold map_len in Hlen. rewrite map_size_empty in Hlen. split_and!; done || lia.
  - intros (t & -> & Hu & Hd & Hlen & Hok & Hnd). unfold forest_all. cbn [flat_map]. rewrite app_nil_r.
    split_and!; try done.
    + constructor; [|constructor]. cbn. split; [done|lia].
    + apply Forall_forall. intros. apply lookup_empty.
Qed.

Lemma revisionValue_Ok s v : revisionValue s = Ok v <-> is_revision s v.
Proof.
  unfold revisionValue, is_revision. split.
  - destruct (ParseUint (bytes_of s)) as [w|] eqn:E; [|done].
    destruct (String.eqb_spec (string_of (FormatUint w)) s) as [H|]; [|done]. intros [= ->].
    split; [by eapply ParseUint_bound|done].
  - intros [Hv ->]. rewrite bytes_of_string_of, ParseUint_FormatUint by done. by rewrite String.eqb_refl.
Qed.

Lemma unfolds_root t r : unfolds t r -> is_Some (deref r).
Proof. destruct t as [f cs]. intros (rs & Hr & _)%unfolds_node. by rewrite Hr. Qed.

Lemma Validate_Ok a : Validate deref a = Ok () <-> well_formed a.
Proof.
  unfold Validate, well_formed. destruct (Z.eqb_spec (SchemaVersion a) CurrentSchema) as [Hs|Hs]; cbn [negb];
    [|by split; [|intros []]].
  destruct (revisionValue (Revision a)) as [v|e] eqn:Hv; cbn [rbind]; cycle 1.
  { split; [done|]. intros (_ & [w Hw] & _). apply revisionValue_Ok in Hw. congruence. }
  apply revisionValue_Ok in Hv.
  destruct (deref (Root a)) as [p|] eqn:Hr; cycle 1.
  { split; [done|]. intros (_ & _ & t & [x Hx]%unfolds_root & _). congruence. }
  destruct ((MaxAssociations <? list_len (ActivityLinks a))
            || (MaxAssociations - list_len (ActivityLinks a) <? list_len (CostLinks a))) eqn:Hlinks.
  { split; [done|]. intros (_ & _ & t & _ & _ & (Hl & _) & _). unfold list_len in *. lia. }
  pose proof (loop_spec validate_fuel ∅ [(Root a, 1)] [] knows_nil) as Hloop.
  unfold loop_verdict in Hloop.
  destruct (validate_loop deref validate_fuel ∅ [(Root a, 1)]) as [[nodes|e]|]; cbn [rbind].
  - destruct Hloop as (ts & Hts & Hk); [done|done|].
    apply acceptable_root in Hts as (t & -> & Hu & Ht). unfold forest_all in Hk. cbn [flat_map] in Hk.
    rewrite !app_nil_r in Hk. rewrite !rbind_Ok_unit. pose proof Ht as (Hd & _ & Hok & _).
    rewrite (check_activities_Ok nodes t Hok Hk), (check_costs_Ok nodes t Hok Hk).
    unfold encodedSize. rewrite (tree_of_unfolds t) by done.
    split.
    + intros ([Ha1 Ha2] & [Hc1 Hc2] & He). split_and!; [done|by exists v|]. exists t.
      unfold links_ok. destruct (Z.ltb_spec MaxPayloadBytes (byte_len (Marshal (with_root a (Some t)))));
        [done|]. split_and!; done || lia.
    + intros (_ & _ & t' & Hu' & Ht' & Hl & Hsize). destruct Ht' as [Hd' _].
      pose proof (tree_of_unfolds t' (Root a) (Z.to_nat MaxLevels) Hu' Hd') as E1.
      rewrite (tree_of_unfolds t (Root a) (Z.to_nat MaxLevels) Hu Hd) in E1. simplify_eq. 
      unfold links_ok in Hl. split_and!; try tauto. by rewrite (proj2 (Z.ltb_ge _ _) Hsize).
  - split; [done|]. intros (_ & _ & t & Hu & Ht & _). exfalso. eapply Hloop; [done|done|].
    apply acceptable_root. by exists t.
  - exfalso. by apply Hloop.
Qed.
End unfolding.
