(* ===== verification/WbsRoundTrip.v ===== *)
(** * A marshalled scope parses back to itself

    Decoding inverts encoding up to empty dictionaries, which are not written; a
    scope that [Validate] accepts is printed as strict JSON within the limits of
    [preflight], so that [Parse] of [Marshal] gives it back. *)

From S2P Require Import Prelude GoFloat GoStrings GoDecimal GoJson GoJsonV2 Wbs WbsTheorems.

Local Open Scope Z_scope.

(** ** Members that may be left out *)

Lemma decode_omit {A} (set : A -> string -> value -> option A) a a' k v r :
  set a k v = Some a' -> (is_empty_value v = true -> a' = a) ->
  decode_members set a (omitempty k v ++ r) = decode_members set a' r.
Proof.
  intros Hs He. unfold omitempty. destruct (is_empty_value v); simpl; [by rewrite He|by rewrite Hs].
Qed.

Lemma decode_omit_string {A} (set : A -> string -> value -> option A) (put : A -> string -> A) a k s r :
  (forall s, set a k (VString s) = Some (put a s)) -> put a "" = a ->
  decode_members set a (omitempty k (VString s) ++ r) = decode_members set (put a s) r.
Proof.
  intros Hs He. apply decode_omit; [apply Hs|]. simpl. by intros ->%String.eqb_eq.
Qed.

Lemma omitted_keys k v : (omitempty k v).*1 `sublist_of` [k].
Proof. unfold omitempty. destruct (is_empty_value v); simpl; [apply sublist_nil_l|done]. Qed.

Lemma omitted_values (P : value -> Prop) k v : P v -> Forall (fun kv => P kv.2) (omitempty k v).
Proof. intros H. unfold omitempty. destruct (is_empty_value v); by repeat constructor. Qed.

(** ** Decoding inverts encoding *)

Lemma decode_dictionary_encode d : decode_dictionary (encode_dictionary (Some d)) = Some d.
Proof.
  unfold decode_dictionary, encode_dictionary, empty_dictionary.
  rewrite (decode_omit_string _ (fun d s => mkDictionary s (ScopeIn d) (ScopeOut d) (AcceptanceCriteria d)));
    [|done..].
  rewrite (decode_omit_string _ (fun d s => mkDictionary (Description d) s (ScopeOut d) (AcceptanceCriteria d)));
    [|done..].
  rewrite (decode_omit_string _ (fun d s => mkDictionary (Description d) (ScopeIn d) s (AcceptanceCriteria d)));
    [|done..].
  rewrite <- (app_nil_r (omitempty _ _)).
  rewrite (decode_omit_string _ (fun d s => mkDictionary (Description d) (ScopeIn d) (ScopeOut d) s));
    [|done..].
  by destruct d.
Qed.

Lemma encode_dictionary_empty d :
  is_empty_value (encode_dictionary d) = true <-> normalize_dictionary d = None.
Proof.
  destruct d as [[a b c d]|]; [|done]. unfold normalize_dictionary, encode_dictionary, omitempty.
  cbn [is_empty_value Description ScopeIn ScopeOut AcceptanceCriteria].
  destruct (String.eqb_spec a ""), (String.eqb_spec b ""), (String.eqb_spec c ""), (String.eqb_spec d "");
    subst; cbn [app is_empty_value]; case_bool_decide as E; unfold empty_dictionary in E; simplify_eq; try done.
Qed.

Lemma decode_float_format x : finite x = true -> decode_float (VNumber (format_number x)) = Some x.
Proof.
  intros Hx. unfold decode_float. pose proof (format_number_reads x [] Hx eq_refl) as H.
  rewrite app_nil_r in H. rewrite H. unfold finite in Hx. destruct (is_inf x); [|done].
  by rewrite andb_false_r in Hx.
Qed.

Lemma decode_fields_encode f : finite (n_Effort f) = true ->
  decode_members set_field empty_fields (encode_node_fields f) = Some (normalize_fields f).
Proof.
  intros Hx. destruct f as [id title number note owner effort class dict].
  unfold encode_node_fields, empty_fields. cbn [n_ID n_Title n_Number n_Note n_Owner n_Effort n_Classification n_Dictionary] in *.
  cbn [decode_members]. cbn [set_field decode_string mbind option_bind String.eqb Ascii.eqb Bool.eqb].
  rewrite (decode_omit_string _ (fun f s => mkFields (n_ID f) (n_Title f) s (n_Note f) (n_Owner f)
    (n_Effort f) (n_Classification f) (n_Dictionary f))); [|done..].
  rewrite (decode_omit_string _ (fun f s => mkFields (n_ID f) (n_Title f) (n_Number f) s (n_Owner f)
    (n_Effort f) (n_Classification f) (n_Dictionary f))); [|done..].
  rewrite (decode_omit_string _ (fun f s => mkFields (n_ID f) (n_Title f) (n_Number f) (n_Note f) s
    (n_Effort f) (n_Classification f) (n_Dictionary f))); [|done..].
  cbn [decode_members n_ID n_Title n_Number n_Note n_Owner n_Effort n_Classification n_Dictionary].
  cbn [set_field String.eqb Ascii.eqb Bool.eqb]. rewrite decode_float_format by done.
  cbn [mbind option_bind].
  rewrite (decode_omit_string _ (fun f s => mkFields (n_ID f) (n_Title f) (n_Number f) (n_Note f) (n_Owner f)
    (n_Effort f) s (n_Dictionary f))); [|done..].
  cbn [n_ID n_Title n_Number n_Note n_Owner n_Effort n_Classification n_Dictionary].
  unfold normalize_fields. cbn [n_ID n_Title n_Number n_Note n_Owner n_Effort n_Classification n_Dictionary].
  unfold omitempty. pose proof (encode_dictionary_empty dict) as Hd.
  destruct (is_empty_value (encode_dictionary dict)); [by rewrite (proj1 Hd)|].
  destruct dict as [d|]; [|by destruct Hd as [_ Hd]; specialize (Hd eq_refl)].
  cbn [decode_members set_field String.eqb Ascii.eqb Bool.eqb]. rewrite decode_dictionary_encode.
  cbn [mbind option_bind normalize_dictionary] in *. case_bool_decide; [|done].
  destruct Hd as [_ Hd]. by specialize (Hd eq_refl).
Qed.

Lemma decode_set_node kids f cs l : Forall (fun kv => kv.1 <> "children"%string) l ->
  decode_members (set_node kids) (mkNode f cs) l
  = (fun f' => mkNode f' cs) <$> decode_members set_field f l.
Proof.
  intros H. revert f. induction H as [|[k v] l Hk _ IH]; intros f; [done|]. cbn [decode_members set_node fst] in *.
  destruct (String.eqb_spec k "children"); [done|]. destruct (set_field f k v) as [f'|]; [|done]. apply IH.
Qed.

Lemma decode_members_app {A} (set : A -> string -> value -> option A) a l r :
  decode_members set a (l ++ r)
  = match decode_members set a l with Some a' => decode_members set a' r | None => None end.
Proof.
  revert a. induction l as [|[k v] l IH]; intros a; [done|]. simpl. destruct (set a k v); [apply IH|done].
Qed.

Definition field_keys : list string :=
  ["id"; "title"; "number"; "note"; "owner"; "effort"; "classification"; "dictionary"]%string.

Lemma encode_node_fields_keys f : (encode_node_fields f).*1 `sublist_of` field_keys.
Proof.
  unfold encode_node_fields, field_keys. rewrite !fmap_cons, !fmap_app, !fmap_cons, !fmap_app.
  do 2 apply sublist_skip.
  repeat (apply (sublist_app _ [_]); [apply omitted_keys|]). apply sublist_skip.
  apply (sublist_app _ [_]); apply omitted_keys.
Qed.

Lemma node_keys f : NoDup ((encode_node_fields f).*1 ++ ["children"%string]).
Proof.
  eapply sublist_NoDup; [|apply sublist_app; [apply encode_node_fields_keys|done]]. compute_done.
Qed.

Lemma decode_list_map {A} (f : value -> option A) {B} (g : B -> value) (h : B -> A) l :
  Forall (fun x => f (g x) = Some (h x)) l -> decode_list f (map g l) = Some (map h l).
Proof. induction 1 as [|x l Hx _ IH]; [done|]. simpl. by rewrite Hx, IH. Qed.

(** The efforts are float64 values other than infinities and NaN. *)
Definition efforts_finite (t : Node) : Prop :=
  Forall (fun n => finite (n_Effort (node_fields n)) = true) (node_all t).

Lemma efforts_finite_children f cs : efforts_finite (mkNode f cs) <->
  finite (n_Effort f) = true /\ Forall efforts_finite cs.
Proof.
  unfold efforts_finite. cbn [node_all]. rewrite Forall_cons. apply and_iff_compat_l.
  induction cs as [|c cs IH]; cbn [flat_map]; [by split; constructor|].
  by rewrite Forall_app, Forall_cons, IH.
Qed.

Lemma decode_node_encode n : efforts_finite n -> decode_node (encode_node n) = Some (normalizeWBSNode n).
Proof.
  induction n as [f cs IH] using node_ind'. intros [Hf Hcs]%efforts_finite_children.
  cbn [encode_node decode_node normalizeWBSNode].
  rewrite decode_members_app, decode_set_node, decode_fields_encode; [|done|].
  2: { apply Forall_forall. intros [k v] Hin E. cbn in E. subst.
       pose proof (node_keys f) as Hnd. apply NoDup_app in Hnd as (_ & Hne & _).
       eapply Hne; [by apply list_elem_of_fmap_2' with (x := ("children"%string, v))|by apply elem_of_cons; left]. }
  cbn [fmap option_fmap option_map]. rewrite <- (app_nil_r (omitempty _ _)).
  rewrite (decode_omit _ _ (mkNode (normalize_fields f) (map normalizeWBSNode cs))); [done| |].
  - cbn [set_node]. change (String.eqb "children" "children") with true. cbv iota.
    rewrite (decode_list_map decode_node encode_node normalizeWBSNode); [done|].
    apply Forall_forall. intros c Hc. rewrite Forall_forall in IH, Hcs. by apply IH, Hcs.
  - by destruct cs.
Qed.

Lemma decode_activity_encode l : decode_activity (encode_activity l) = Some l.
Proof. by destruct l. Qed.

Lemma decode_cost_encode l : decode_cost (encode_cost l) = Some l.
Proof. by destruct l. Qed.

Lemma decode_array_encode {L} (dec : value -> option L) enc l : (forall x, dec (enc x) = Some x) ->
  decode_array dec (VArray (map enc l)) = Some l.
Proof.
  intros H. cbn [decode_array]. rewrite (decode_list_map dec enc id), map_id; [done|].
  by apply Forall_forall.
Qed.

Lemma decode_aggregate_encode a n : Root a = Some n -> efforts_finite n -> SchemaVersion a = CurrentSchema ->
  decode_aggregate (encode_aggregate a) = Some (normalize a).
Proof.
  intros Hr Hn Hs. destruct a as [version revision root activities costs].
  unfold encode_aggregate, decode_aggregate, normalize, with_root.
  cbn [SchemaVersion Revision Root ActivityLinks CostLinks] in *. subst.
  cbn [decode_members]. cbn [set_aggregate String.eqb Ascii.eqb Bool.eqb decode_string mbind option_bind].
  change (decode_int (VNumber (FormatInt CurrentSchema))) with (Some CurrentSchema).
  cbn [set_aggregate String.eqb Ascii.eqb Bool.eqb decode_string mbind option_bind].
  rewrite decode_node_encode by done. cbn [mbind option_bind].
  rewrite (decode_omit _ _ (mkAggregate CurrentSchema revision (Some (normalizeWBSNode n)) activities [])).
  - rewrite <- (app_nil_r (omitempty _ _)).
    rewrite (decode_omit _ _ (mkAggregate CurrentSchema revision (Some (normalizeWBSNode n)) activities costs)); [done| |].
    + cbn [set_aggregate String.eqb Ascii.eqb Bool.eqb]. by rewrite decode_array_encode by apply decode_cost_encode.
    + by destruct costs.
  - cbn [set_aggregate String.eqb Ascii.eqb Bool.eqb]. by rewrite decode_array_encode by apply decode_activity_encode.
  - by destruct activities.
Qed.

(** ** What [preflight] lets through *)

(** No null, and no long string. *)
Fixpoint clean (v : value) : bool :=
  match v with
  | VNull => false
  | VString s => byte_len s <=? MaxTextBytes
  | VArray l => forallb clean l
  | VObject l => forallb (fun kv => (byte_len kv.1 <=? MaxTextBytes) && clean kv.2) l
  | _ => true
  end.

Definition sum (l : list Z) : Z := foldr Z.add 0 l.

(** How many objects a value has. *)
Fixpoint objects (v : value) : Z :=
  match v with
  | VArray l => sum (map objects l)
  | VObject l => 1 + sum (map (fun kv => objects kv.2) l)
  | _ => 0
  end.

Definition MaxObjects : Z := 1 + 2 * MaxNodes + MaxAssociations.

Lemma sum_nonneg {A} (f : A -> Z) l : Forall (fun x => 0 <= f x) l -> 0 <= sum (map f l).
Proof. induction 1; simpl; lia. Qed.

Lemma objects_nonneg v : 0 <= objects v.
Proof.
  induction v using value_ind'; simpl; try lia; [by apply sum_nonneg|].
  pose proof (sum_nonneg _ l H). lia.
Qed.

(** The tokens of a value inside a container are passed over. *)
Definition passes (v : value) : Prop := forall d depth n rest, printable d v ->
  clean v = true -> (1 <= depth)%nat -> Z.of_nat depth + Z.of_nat d <= 2 * MaxLevels + 2 ->
  n + objects v <= MaxObjects ->
  preflight_loop false n (value_tokens depth v ++ rest) true
  = preflight_loop false (n + objects v) rest true.

Lemma preflight_step (n : Z) t depth rest : (1 <= depth)%nat -> Z.of_nat depth <= 2 * MaxLevels + 2 ->
  t <> TNull -> (forall s, t = TString s -> byte_len s <= MaxTextBytes) ->
  (is_begin_object t = true -> n + 1 <= MaxObjects) ->
  preflight_loop false n ((t, depth) :: rest) true
  = preflight_loop false (if is_begin_object t then n + 1 else n) rest true.
Proof.
  intros H1 Hd Hn Hs Ho. cbn [preflight_loop andb].
  rewrite (proj2 (Z.ltb_ge _ _)) by done. destruct depth as [|depth]; [lia|]. cbn [Nat.eqb].
  fold MaxObjects.
  destruct t; try done; cbn [is_begin_object andb] in *.
  - rewrite (proj2 (Z.ltb_ge _ _)) by auto. done.
  - rewrite (proj2 (Z.ltb_ge _ _)) by auto. done.
Qed.

Lemma passes_all {A} (f : A -> value) (pre : A -> nat -> list (token * nat)) (l : list A) d depth :
  Forall (fun x => passes (f x)) l -> Forall (fun x => printable d (f x)) l ->
  forallb (fun x => clean (f x)) l = true -> (1 <= depth)%nat ->
  Z.of_nat depth + Z.of_nat d <= 2 * MaxLevels + 2 ->
  Forall (fun x => forall n rest, preflight_loop false n (pre x depth ++ rest) true
                                  = preflight_loop false n rest true) l ->
  forall n rest, n + sum (map (fun x => objects (f x)) l) <= MaxObjects ->
  preflight_loop false n (flat_map (fun x => pre x depth ++ value_tokens depth (f x)) l ++ rest) true
  = preflight_loop false (n + sum (map (fun x => objects (f x)) l)) rest true.
Proof.
  intros Hp Hd Hc H1 Hle Hpre. induction Hp as [|x l Hx _ IH]; intros n rest Hn; cbn [flat_map map sum foldr] in *.
  { by rewrite Z.add_0_r. }
  apply Forall_cons in Hd as [Hd1 Hd2]. apply Forall_cons in Hpre as [Hpre1 Hpre2].
  apply andb_prop in Hc as [Hc1 Hc2]. rewrite <- !app_assoc, Hpre1.
  assert (0 <= sum (map (fun x => objects (f x)) l))
    by (apply sum_nonneg, Forall_forall; intros; apply objects_nonneg).
  unfold sum in *. rewrite (Hx d); [|done..|lia]. rewrite IH by (done || lia). f_equal. lia.
Qed.

Lemma value_passes v : passes v.
Proof.
  induction v as [|b|s|raw|l IH|l IH] using value_ind'; intros d depth n rest Hp Hc H1 Hle Hn.
  - done.
  - cbn [value_tokens app objects]. rewrite preflight_step by (done || lia). by rewrite Z.add_0_r.
  - cbn [value_tokens app objects clean] in *. rewrite preflight_step; [by rewrite Z.add_0_r|done|lia|done| |done].
    intros s' [= <-]. lia.
  - cbn [value_tokens app objects]. rewrite preflight_step by (done || lia). by rewrite Z.add_0_r.
  - destruct d as [|d]; [done|]. apply printable_array in Hp. cbn [value_tokens app objects clean] in *.
    rewrite preflight_step by (done || lia). cbn [is_begin_object].
    rewrite <- app_assoc. cbn [app].
    rewrite (passes_all (fun v => v) (fun _ _ => []) l d (S depth)); try (done || lia).
    + rewrite preflight_step by (done || lia). done.
    + by apply Forall_forall.
  - destruct d as [|d]; [done|]. apply printable_object in Hp as (_ & _ & Hp). cbn [value_tokens app objects clean] in *.
    assert (0 <= sum (map (fun kv : string * value => objects kv.2) l))
      by (apply sum_nonneg, Forall_forall; intros; apply objects_nonneg).
    rewrite preflight_step by (done || lia). cbn [is_begin_object].
    rewrite <- app_assoc. cbn [app].
    rewrite List.forallb_forall in Hc.
    rewrite (passes_all snd (fun kv depth => [(TString kv.1, depth)]) l d (S depth)); try (done || lia).
    + rewrite preflight_step by (done || lia). cbn [is_begin_object]. f_equal. lia.
    + apply List.forallb_forall. intros x Hx. specialize (Hc x Hx). by apply andb_prop in Hc as [_ Hc].
    + apply Forall_forall. intros x Hx n' rest'. cbn [app]. rewrite preflight_step; try (done || lia).
      intros s [= <-]. apply list_elem_of_In in Hx. specialize (Hc x Hx). lia.
Qed.

Lemma preflight_print l d : printable d (VObject l) -> Z.of_nat d <= 2 * MaxLevels + 2 ->
  clean (VObject l) = true -> objects (VObject l) <= MaxObjects ->
  preflight (string_of (print_value (VObject l))) = Ok ().
Proof.
  intros Hp Hd Hc Ho. unfold preflight. rewrite bytes_of_string_of.
  rewrite (tokens_of_print _ d) by (done || unfold MaxLevels, max_nesting in *; lia).
  destruct d as [|d]; [done|]. apply printable_object in Hp as (_ & _ & Hp).
  cbn [value_tokens clean objects] in *.
  transitivity (preflight_loop false 1
    (flat_map (fun kv => (TString kv.1, 1%nat) :: value_tokens 1 kv.2) l ++ [(TEndObject, O)]) true); [done|].
  rewrite List.forallb_forall in Hc.
  rewrite (passes_all snd (fun kv depth => [(TString kv.1, depth)]) l d 1); try (done || lia).
  - apply Forall_forall. intros. apply value_passes.
  - apply List.forallb_forall. intros x Hx. specialize (Hc x Hx). by apply andb_prop in Hc as [_ Hc].
  - apply Forall_forall. intros x Hx n' rest'. cbn [app]. rewrite preflight_step; try (done || lia).
    intros s [= <-]. apply list_elem_of_In in Hx. specialize (Hc x Hx). lia.
Qed.

(** ** An accepted scope is printed within the limits *)

Definition good_text (s : string) : Prop := ValidString s = true /\ byte_len s <= MaxTextBytes.

(** Printed in at most [d] levels, without nulls and long strings. *)
Definition good (d : nat) (v : value) : Prop := printable d v /\ clean v = true.

Lemma identifier_good s : identifier s = Ok () -> good_text s.
Proof.
  unfold identifier, good_text. destruct (Z.ltb_spec MaxIdentifierBytes (byte_len s)); [done|].
  destruct (ValidString s); [|by rewrite orb_true_r]. intros _. split; [done|].
  unfold MaxIdentifierBytes, MaxTextBytes in *. lia.
Qed.

Lemma text_good s : text s = Ok () <-> good_text s.
Proof.
  unfold text, good_text. destruct (Z.ltb_spec MaxTextBytes (byte_len s)); [naive_solver lia|].
  destruct (ValidString s); naive_solver.
Qed.

Lemma texts_good l : texts l = Ok () <-> Forall good_text l.
Proof.
  induction l as [|s l IH]; [by split|]. cbn [texts]. by rewrite rbind_Ok_unit, text_good, IH, Forall_cons.
Qed.

Lemma good_string d s : good_text s -> good d (VString s).
Proof. intros [Hv Hl]. split; [by destruct d|]. cbn [clean]. lia. Qed.

Lemma read_number_start l x : read_number l = Some x ->
  exists c t, l = c :: t /\ (is_digit c = true \/ c = "-"%char).
Proof.
  destruct l as [|c l]; [done|]. intros H. exists c, l. split; [done|].
  unfold read_number in H. destruct (Ascii.eqb_spec c "-"); [by right|]. left.
  cbn [span_digits] in H. by destruct (is_digit c).
Qed.

Lemma number_literal_format x : finite x = true -> number_literal (format_number x).
Proof.
  intros Hx. split.
  - eapply (read_number_start _ (x, [])). rewrite <- (app_nil_r (format_number x)).
    by apply format_number_reads.
  - intros t Ht. exists x. by apply format_number_reads.
Qed.

Lemma good_number d x : finite x = true -> good d (VNumber (format_number x)).
Proof. intros Hx. split; [|done]. pose proof (number_literal_format x Hx). by destruct d. Qed.

Lemma good_array d l : Forall (good d) l -> good (S d) (VArray l).
Proof.
  intros H. split; [apply printable_array|cbn [clean]; apply List.forallb_forall].
  - eapply Forall_impl; [exact H|]. by intros ? [].
  - intros x Hx%list_elem_of_In. rewrite Forall_forall in H. by apply H.
Qed.

Definition good_keys (ks : list string) : Prop :=
  NoDup ks /\ Forall (fun k => ValidString k = true /\ byte_len k <= MaxTextBytes) ks.

Lemma good_keys_sublist ks ks' : ks `sublist_of` ks' -> good_keys ks' -> good_keys ks.
Proof.
  intros Hs [Hn Hv]. split; [by eapply sublist_NoDup|]. apply Forall_forall. intros k Hk.
  rewrite Forall_forall in Hv. apply Hv. by eapply elem_of_sublist.
Qed.

Lemma good_object d l : good_keys l.*1 -> Forall (fun kv => good d kv.2) l -> good (S d) (VObject l).
Proof.
  intros [Hn Hv] H. split.
  - apply printable_object. split_and!; [done| |].
    + eapply Forall_impl; [exact Hv|]. by intros ? [].
    + eapply Forall_impl; [exact H|]. by intros ? [].
  - cbn [clean]. apply List.forallb_forall. intros x Hx%list_elem_of_In. pose proof (proj1 (Forall_forall _ _) H x Hx) as [_ Hc].
    rewrite Hc, andb_true_r. apply Z.leb_le.
    apply (proj1 (Forall_forall _ _) Hv x.1). by apply list_elem_of_fmap_2.
Qed.

(** Keys as they stand in the code. *)
Ltac good_keys := split; [compute_done|repeat (apply Forall_cons; split; [split; [done|unfold byte_len, MaxTextBytes; simpl; lia]|]); constructor].

Lemma good_dictionary d dict : Forall good_text (dictionary_texts (Some dict)) ->
  good (S d) (encode_dictionary (Some dict)).
Proof.
  cbn [dictionary_texts]. rewrite !Forall_cons. intros (H1 & H2 & H3 & H4 & _). apply good_object.
  - eapply (good_keys_sublist _ ["description"; "scope_in"; "scope_out"; "acceptance_criteria"]%string);
      [|good_keys].
    rewrite !fmap_app. repeat (apply (sublist_app _ [_]); [apply omitted_keys|]). apply omitted_keys.
  - rewrite !Forall_app. split_and!; apply omitted_values; by apply good_string.
Qed.

Lemma good_fields d f : node_ok f -> finite (n_Effort f) = true ->
  Forall (fun kv => good (S d) kv.2) (encode_node_fields f).
Proof.
  intros (Hid & Ht & Hd & _) Hx. apply identifier_good in Hid. apply texts_good in Ht, Hd.
  unfold node_texts in Ht. rewrite !Forall_cons in Ht. destruct Ht as (H1 & H2 & H3 & H4 & H5 & _).
  unfold encode_node_fields.
  repeat first [ apply Forall_cons; split; [first [by apply good_string | by apply good_number]|]
               | apply Forall_app; split; [apply omitted_values; by apply good_string|] ].
  unfold omitempty. destruct (n_Dictionary f) as [dict|]; [|constructor].
  case_match; repeat constructor; by apply good_dictionary.
Qed.

Lemma node_all_ok (P : NodeFields -> Prop) f cs :
  Forall (fun n => P (node_fields n)) (node_all (mkNode f cs)) <->
  P f /\ Forall (fun c => Forall (fun n => P (node_fields n)) (node_all c)) cs.
Proof.
  cbn [node_all]. rewrite Forall_cons. apply and_iff_compat_l.
  induction cs as [|c cs IH]; cbn [flat_map]; [by split; constructor|].
  by rewrite Forall_app, Forall_cons, IH.
Qed.

Lemma good_node n : forall k, node_depth n <= Z.of_nat k ->
  Forall (fun n => node_ok (node_fields n)) (node_all n) -> efforts_finite n -> good (2 * k) (encode_node n).
Proof.
  induction n as [f cs IH] using node_ind'. intros k Hk Hok Hx.
  pose proof (node_depth_pos (mkNode f cs)). destruct k as [|k]; [lia|].
  replace (Z.of_nat (S k)) with (1 + Z.of_nat k) in Hk by lia. apply node_depth_le in Hk; [|lia].
  apply node_all_ok in Hok as [Hf Hok]. apply efforts_finite_children in Hx as [Hx1 Hx2].
  replace (2 * S k)%nat with (S (S (2 * k))) by lia. cbn [encode_node]. apply good_object.
  - eapply (good_keys_sublist _ (field_keys ++ ["children"%string])); [|good_keys].
    rewrite fmap_app. apply sublist_app; [apply encode_node_fields_keys|apply omitted_keys].
  - apply Forall_app. split; [by apply good_fields|]. apply omitted_values, good_array.
    rewrite Forall_forall in Hk, Hok, Hx2, IH.
    apply Forall_forall. intros v (c & -> & Hc)%list_elem_of_fmap. by apply IH; auto.
Qed.

Lemma sum_app l r : sum (l ++ r) = sum l + sum r.
Proof. induction l; simpl in *; lia. Qed.

Definition members_objects (l : list (string * value)) : Z := sum (map (fun kv => objects kv.2) l).

Lemma members_objects_app l r : members_objects (l ++ r) = members_objects l + members_objects r.
Proof. unfold members_objects. by rewrite map_app, sum_app. Qed.

Lemma members_objects_omit k v : members_objects (omitempty k v) <= objects v.
Proof.
  pose proof (objects_nonneg v). unfold omitempty, members_objects. case_match; simpl; lia.
Qed.

Lemma members_objects_strings k s : members_objects (omitempty k (VString s)) = 0.
Proof. unfold omitempty, members_objects. by case_match. Qed.

Lemma fields_objects f : members_objects (encode_node_fields f) <= 1.
Proof.
  unfold encode_node_fields. change (?x :: ?y :: ?l) with ([x; y] ++ l).
  rewrite !members_objects_app, !members_objects_strings.
  change (members_objects (?x :: ?l)) with (members_objects [x] + members_objects l).
  rewrite !members_objects_app, !members_objects_strings. pose proof (members_objects_omit "dictionary" (encode_dictionary (n_Dictionary f))).
  assert (objects (encode_dictionary (n_Dictionary f)) <= 1).
  { destruct (n_Dictionary f) as [d|]; [|done]. unfold encode_dictionary. cbn [objects].
    change (sum (map (fun kv : string * value => objects kv.2) ?l)) with (members_objects l).
    rewrite !members_objects_app, !members_objects_strings. done. }
  unfold members_objects at 1 2. cbn. lia.
Qed.

Lemma node_objects n : objects (encode_node n) <= 2 * list_len (node_all n).
Proof.
  induction n as [f cs IH] using node_ind'. cbn [encode_node objects node_all].
  change (sum (map (fun kv : string * value => objects kv.2) ?l)) with (members_objects l).
  rewrite members_objects_app. pose proof (fields_objects f).
  pose proof (members_objects_omit "children" (VArray (map encode_node cs))) as Hc. cbn [objects] in Hc.
  assert (sum (map objects (map encode_node cs)) <= 2 * list_len (flat_map node_all cs)).
  { clear -IH. unfold list_len. induction IH as [|c cs Hc _ IH]; [done|]. cbn [map flat_map sum foldr].
    unfold sum in IH. rewrite length_app. unfold list_len in Hc. lia. }
  unfold list_len in *. cbn [length]. lia.
Qed.

(** ASCII text is UTF-8. *)
Lemma ascii_valid l : Forall (fun c => byte_val c < 128) l -> ValidString (string_of l) = true.
Proof.
  intros H. unfold ValidString. rewrite bytes_of_string_of.
  induction H as [|c l Hc _ IH]; [done|]. cbn [length valid_bytes].
  rewrite rune_len_ascii by done. rewrite (proj2 (Z.ltb_lt _ _) Hc). exact IH.
Qed.

Lemma revision_good s v : is_revision s v -> good_text s.
Proof.
  intros [Hv ->]. split.
  - apply ascii_valid. eapply Forall_impl; [apply FormatUint_digits; lia|]. unfold is_digit. intros; lia.
  - unfold byte_len. rewrite <- length_bytes_of, bytes_of_string_of. pose proof (FormatUint_max v).
    unfold MaxTextBytes. lia.
Qed.

(** A scope whose parts are in order, whatever its encoded size. *)
Definition in_order (a : Aggregate (option Node)) (t : Node) : Prop :=
  SchemaVersion a = CurrentSchema /\ (exists v, is_revision (Revision a) v) /\ Root a = Some t
  /\ tree_ok t /\ links_ok t (ActivityLinks a) (CostLinks a).

Lemma tree_unfolds t r : unfolds tree_deref t r <-> r = Some t.
Proof.
  revert r. induction t as [f cs IH] using node_ind'. intros r. rewrite unfolds_node. split.
  - intros (rs & Hr & Hf). destruct r as [[f' cs']|]; [|done]. cbn [tree_deref] in Hr. simplify_eq.
    do 2 f_equal. revert cs' Hf. induction IH as [|c cs Hc _ IH]; intros cs' Hf; inversion Hf as [|? ? ? l Hu Hl E1 E2].
    + by destruct cs'.
    + destruct cs' as [|c' cs']; [done|]. injection E2 as E2 E3. subst. apply Hc in Hu as [= ->]. f_equal. by apply IH.
  - intros ->. exists (Some <$> cs). split; [done|]. apply Forall2_fmap_r.
    induction IH as [|c cs Hc _ IH]; constructor; [by apply Hc|done].
Qed.

Lemma with_own_root {a : Aggregate (option Node)} {t} : Root a = Some t -> with_root a (Some t) = a.
Proof. destruct a; simpl. by intros ->. Qed.

Lemma Validate_in_order a : Validate tree_deref a = Ok () <->
  exists t, in_order a t /\ byte_len (Marshal a) <= MaxPayloadBytes.
Proof.
  rewrite Validate_Ok. unfold well_formed, in_order. split.
  - intros (Hs & Hv & t & Hu%tree_unfolds & Ht & Hl & Hb). rewrite (with_own_root Hu) in Hb. by exists t.
  - intros (t & (Hs & Hv & Hr & Ht & Hl) & Hb). split_and!; [done..|]. exists t.
    rewrite (with_own_root Hr). split_and!; try done. by apply tree_unfolds.
Qed.

Lemma leaf_good t id : tree_ok t -> leaf_of t id -> good_text id.
Proof.
  intros (_ & _ & Hok & _) (n & Hn & <- & _). rewrite Forall_forall in Hok.
  by destruct (Hok n Hn) as [Hid%identifier_good _].
Qed.

Lemma good_activity t d l : tree_ok t -> activity_ok t l -> good (S d) (encode_activity l).
Proof.
  intros Ht (Hn & Hc & Ha). apply (leaf_good t) in Hn; [|done]. apply identifier_good in Hc, Ha.
  apply good_object; [good_keys|]. repeat constructor; by apply good_string.
Qed.

Lemma good_cost t d l : tree_ok t -> cost_ok t l -> good (S d) (encode_cost l).
Proof.
  intros Ht (Hn & Hc). apply (leaf_good t) in Hn; [|done]. apply identifier_good in Hc.
  apply good_object; [good_keys|]. repeat constructor; by apply good_string.
Qed.

Definition print_depth : nat := S (2 * Z.to_nat MaxLevels).

Lemma good_links {L} (enc : L -> value) (ok : L -> Prop) d l :
  (forall x, ok x -> good (S d) (enc x)) -> Forall ok l -> good (S (S d)) (VArray (map enc l)).
Proof.
  intros Henc H. apply good_array. apply Forall_forall. intros v (x & -> & Hx)%list_elem_of_fmap.
  rewrite Forall_forall in H. by apply Henc, H.
Qed.

Lemma good_aggregate a t : in_order a t -> efforts_finite t -> good print_depth (encode_aggregate a).
Proof.
  intros (Hs & [v Hv] & Hr & Ht & Hl) Hx. pose proof Hl as (_ & Ha & _ & Hc & _).
  unfold print_depth. replace (2 * Z.to_nat MaxLevels)%nat with (S (S 126)) by done.
  unfold encode_aggregate. rewrite Hr, Hs. apply good_object.
  - eapply (good_keys_sublist _ ["schema_version"; "revision"; "root"; "activity_links"; "cost_links"]%string);
      [|good_keys].
    rewrite !fmap_cons, fmap_app. do 3 apply sublist_skip. apply (sublist_app _ [_]); apply omitted_keys.
  - repeat (apply Forall_cons; split); [| | |apply Forall_app; split; apply omitted_values].
    + apply (good_number _ (S754_finite false (2 ^ 52) (-51))). done.
    + apply good_string. by eapply revision_good.
    + destruct Ht as (Hd & _ & Hok & _). by apply (good_node t 64).
    + eapply good_links; [|exact Ha]. intros. by eapply good_activity.
    + eapply good_links; [|exact Hc]. intros. by eapply good_cost.
Qed.

Lemma sum_ones {L} (enc : L -> value) l : (forall x, objects (enc x) = 1) -> sum (map objects (map enc l)) = list_len l.
Proof.
  intros H. unfold list_len. induction l as [|x l IH]; [done|]. cbn [map sum foldr length]. unfold sum in IH.
  rewrite H. lia.
Qed.

Lemma aggregate_objects a t : in_order a t -> objects (encode_aggregate a) <= MaxObjects.
Proof.
  intros (Hs & _ & Hr & Ht & Hl). unfold encode_aggregate. rewrite Hr. cbn [objects map sum foldr].
  change (foldr Z.add 0 (map (fun kv : string * value => objects kv.2) ?l)) with (members_objects l).
  rewrite members_objects_app.
  pose proof (members_objects_omit "activity_links" (VArray (map encode_activity (ActivityLinks a)))) as H1.
  pose proof (members_objects_omit "cost_links" (VArray (map encode_cost (CostLinks a)))) as H2.
  cbn [objects] in H1, H2. rewrite sum_ones in H1 by done. rewrite sum_ones in H2 by done. cbn [snd objects].
  pose proof (node_objects t). destruct Ht as (_ & Hn & _). destruct Hl as (Hl & _).
  unfold MaxObjects. lia.
Qed.

(** ** The round trip *)

Lemma Unmarshal2_Marshal a t : in_order a t -> efforts_finite t -> Unmarshal2 (Marshal a) = Some (normalize a).
Proof.
  intros Ha Hx. pose proof (good_aggregate a t Ha Hx) as [Hp _]. destruct Ha as (Hs & _ & Hr & _).
  unfold Unmarshal2, Marshal. rewrite bytes_of_string_of.
  rewrite (read_value2_print _ print_depth) by (done || (unfold print_depth, max_nesting, MaxLevels; lia)).
  by apply (decode_aggregate_encode a t).
Qed.

Lemma preflight_Marshal a t : in_order a t -> efforts_finite t -> preflight (Marshal a) = Ok ().
Proof.
  intros Ha Hx. pose proof (good_aggregate a t Ha Hx) as [Hp Hc]. pose proof (aggregate_objects a t Ha) as Ho.
  by apply (preflight_print _ print_depth).
Qed.

(** ** Normalization *)

Lemma encode_dictionary_normalize d k :
  omitempty k (encode_dictionary (normalize_dictionary d)) = omitempty k (encode_dictionary d).
Proof.
  destruct d as [d|]; [|done]. unfold normalize_dictionary. by case_bool_decide; subst.
Qed.

Lemma encode_normalize n : encode_node (normalizeWBSNode n) = encode_node n.
Proof.
  induction n as [f cs IH] using node_ind'. cbn [normalizeWBSNode encode_node].
  unfold encode_node_fields, normalize_fields. cbn [n_ID n_Title n_Number n_Note n_Owner n_Effort n_Classification n_Dictionary].
  rewrite encode_dictionary_normalize, map_map. do 4 f_equal. apply map_ext_in.
  intros c Hc%list_elem_of_In. rewrite Forall_forall in IH. by apply IH.
Qed.

Lemma Marshal_normalize a : Marshal (normalize a) = Marshal a.
Proof.
  unfold Marshal, encode_aggregate, normalize, with_root. cbn [SchemaVersion Revision Root ActivityLinks CostLinks].
  destruct (Root a); cbn [fmap option_fmap option_map]; by rewrite ?encode_normalize.
Qed.

Lemma node_all_normalize n : node_all (normalizeWBSNode n) = map normalizeWBSNode (node_all n).
Proof.
  induction n as [f cs IH] using node_ind'. cbn [normalizeWBSNode node_all map]. f_equal.
  induction IH as [|c cs Hc _ IH]; [done|]. cbn [map flat_map]. by rewrite map_app, Hc, IH.
Qed.

Lemma node_depth_normalize n : node_depth (normalizeWBSNode n) = node_depth n.
Proof.
  induction n as [f cs IH] using node_ind'. cbn [normalizeWBSNode node_depth]. rewrite map_map. do 2 f_equal.
  apply map_ext_in. intros c Hc%list_elem_of_In. rewrite Forall_forall in IH. by apply IH.
Qed.

Lemma normalize_node_fields n : node_fields (normalizeWBSNode n) = normalize_fields (node_fields n).
Proof. by destruct n. Qed.

Lemma node_ok_normalize f : node_ok f -> node_ok (normalize_fields f).
Proof.
  intros (H1 & H2 & H3 & H4). unfold node_ok, normalize_fields. cbn [n_ID n_Effort n_Dictionary].
  split_and!; try done; [|apply H4..]. destruct (n_Dictionary f) as [d|]; [|done].
  unfold normalize_dictionary. by case_bool_decide.
Qed.

Lemma tree_ok_normalize t : tree_ok t -> tree_ok (normalizeWBSNode t).
Proof.
  intros (Hd & Hl & Hok & Hn). unfold tree_ok, list_len in *.
  rewrite node_depth_normalize, node_all_normalize, length_map. split_and!; try done.
  - apply List.Forall_map. eapply Forall_impl; [exact Hok|]. intros n Hn'. rewrite normalize_node_fields.
    by apply node_ok_normalize.
  - replace (node_id <$> map normalizeWBSNode (node_all t)) with (node_id <$> node_all t); [done|].
    rewrite <- list_fmap_compose. apply list_fmap_ext. intros _ [f cs] _. done.
Qed.

Lemma leaf_of_normalize t id : leaf_of t id -> leaf_of (normalizeWBSNode t) id.
Proof.
  intros (n & Hn & <- & Hc). exists (normalizeWBSNode n). rewrite node_all_normalize. split_and!.
  - by apply list_elem_of_fmap_2.
  - by destruct n.
  - destruct n as [f cs]. cbn in *. by subst.
Qed.

Lemma in_order_normalize a t : in_order a t -> in_order (normalize a) (normalizeWBSNode t).
Proof.
  intros (Hs & Hv & Hr & Ht & Hl & Ha & Hna & Hc & Hnc). unfold in_order, normalize, with_root.
  cbn [SchemaVersion Revision Root ActivityLinks CostLinks]. rewrite Hr.
  split_and!; try done; [by apply tree_ok_normalize|]. split_and!; try done.
  - eapply Forall_impl; [exact Ha|]. intros l (H1 & H2). split; [by apply leaf_of_normalize|done].
  - eapply Forall_impl; [exact Hc|]. intros l (H1 & H2). split; [by apply leaf_of_normalize|done].
Qed.

Lemma Validate_normalize a : Validate tree_deref a = Ok () -> Validate tree_deref (normalize a) = Ok ().
Proof.
  rewrite !Validate_in_order. intros (t & Ha & Hb). exists (normalizeWBSNode t).
  rewrite Marshal_normalize. split; [by apply in_order_normalize|done].
Qed.

(** What [Parse] does with the encoding of a scope in order. *)
Lemma Parse_encoding a t : in_order a t -> efforts_finite t ->
  Parse (Marshal a) = if MaxPayloadBytes <? byte_len (Marshal a) then Err ErrLimit else Ok (normalize a).
Proof.
  intros Ha Hx. unfold Parse. destruct (Z.ltb_spec MaxPayloadBytes (byte_len (Marshal a))) as [|Hb]; [done|].
  rewrite (preflight_Marshal a t), (Unmarshal2_Marshal a t) by done. cbn [rbind].
  rewrite Validate_normalize; [done|]. apply Validate_in_order. by exists t.
Qed.

(** ** What [Parse] returns *)

Lemma decode_float_finite v x : decode_float v = Some x -> finite x = true.
Proof.
  unfold decode_float. destruct v as [| | |raw| |]; try done.
  destruct (read_number raw) as [[y r]|] eqn:E; [|done]. destruct r; [|done].
  destruct (is_inf y) eqn:Ei; [done|]. intros [= <-]. by eapply read_number_valid.
Qed.

Lemma set_field_finite f k v f' : finite (n_Effort f) = true -> set_field f k v = Some f' ->
  finite (n_Effort f') = true.
Proof.
  intros Hf. destruct f as [id title number note owner effort class dict]. cbn [n_Effort] in Hf.
  unfold set_field. intros H. repeat case_match; simplify_option_eq; try done.
  by eapply decode_float_finite.
Qed.

Lemma decode_members_inv {A} (P : A -> Prop) (set : A -> string -> value -> option A) l :
  Forall (fun kv => forall a a', P a -> set a kv.1 kv.2 = Some a' -> P a') l ->
  forall a a', P a -> decode_members set a l = Some a' -> P a'.
Proof.
  induction 1 as [|[k v] l Hkv _ IH]; intros a a' Ha H; cbn [decode_members fst snd] in *; [by simplify_eq|].
  destruct (set a k v) as [b|] eqn:E; [|done]. eapply IH; [|done]. by eapply Hkv.
Qed.

Lemma decode_list_inv {A} (P : A -> Prop) (f : value -> option A) l :
  Forall (fun v => forall a, f v = Some a -> P a) l -> forall r, decode_list f l = Some r -> Forall P r.
Proof.
  induction 1 as [|v l Hv _ IH]; intros r H; cbn [decode_list] in H; [by simplify_eq|].
  destruct (f v) as [a|] eqn:E; [|done]. destruct (decode_list f l) as [r'|] eqn:E'; [|done]. simplify_eq.
  constructor; [by apply Hv|by apply IH].
Qed.

Lemma decode_node_finite v : (forall n, decode_node v = Some n -> efforts_finite n)
  /\ (forall l ns, v = VArray l -> decode_list decode_node l = Some ns -> Forall efforts_finite ns).
Proof.
  induction v as [|b|s|raw|l IH|l IH] using value_ind'; (split; [intros n Hn|intros l' ns E Hl]); try done.
  - injection E as <-. eapply decode_list_inv; [|exact Hl]. eapply Forall_impl; [exact IH|]. by intros ? [].
  - cbn [decode_node] in Hn. eapply (decode_members_inv efforts_finite); [| |exact Hn].
    + eapply Forall_impl; [exact IH|]. intros [k v] [_ Hv] [f cs] n' [Hf Hcs]%efforts_finite_children H.
      cbn [set_node fst snd] in *. destruct (String.eqb k "children").
      * destruct v; try done. destruct (decode_list decode_node l0) as [ns|] eqn:E; [|done].
        injection H as <-. apply efforts_finite_children. split; [done|]. by eapply Hv.
      * destruct (set_field f k v) as [f'|] eqn:E; [|done]. injection H as <-.
        apply efforts_finite_children. split; [by eapply set_field_finite|done].
    + by repeat constructor.
Qed.

Lemma decode_aggregate_finite v a t : decode_aggregate v = Some a -> Root a = Some t -> efforts_finite t.
Proof.
  destruct v as [| | | | |l]; try done. cbn [decode_aggregate]. intros H. revert t.
  eapply (decode_members_inv (fun a => forall t, Root a = Some t -> efforts_finite t)); [| |exact H]; [|done].
  apply Forall_forall. intros [k v] _ [vs rev root acts costs] a' Ha Hset t Ht.
  cbn [fst snd Root] in *. unfold set_aggregate in Hset.
  repeat case_match; simplify_option_eq; eauto. by eapply decode_node_finite.
Qed.

(** [Parse] returns only accepted scopes, with finite efforts. *)
Lemma Parse_Ok raw a : Parse raw = Ok a -> Validate tree_deref a = Ok ()
  /\ exists t, Root a = Some t /\ efforts_finite t.
Proof.
  unfold Parse. destruct (_ <? _); [done|]. rewrite rbind_Ok_unit. intros [_ H].
  unfold Unmarshal2 in H. destruct (read_value2 (bytes_of raw)) as [v|]; [|done]. cbn [mbind option_bind] in H.
  destruct (decode_aggregate v) as [b|] eqn:E; [|done]. apply rbind_Ok_unit in H as [Hv [= ->]].
  split; [done|]. apply Validate_in_order in Hv as (t & (_ & _ & Hr & _) & _). exists t.
  split; [done|]. by eapply decode_aggregate_finite.
Qed.

(** ** A scope for the witnesses *)

Definition demo_dictionary : Dictionary := mkDictionary "" "" "" "signed off".

Definition demo_leaf : Node :=
  mkNode (mkFields "w1" "Dig" "1.1" "" "ann" (S754_finite true (3 * 2 ^ 51) (-52)) "" (Some demo_dictionary)) [].

Definition demo_root : Node :=
  mkNode (mkFields "w0" "House" "1" "" "" fzero "" (Some empty_dictionary)) [demo_leaf].

Definition demo_scope : Aggregate (option Node) :=
  mkAggregate 2 "7" (Some demo_root) [mkActivityLink "w1" "cpm-1" "a1"] [mkCostLink "w1" "c1"].

(** The same scope in a heap, and one whose leaf points back to the root. *)
Definition demo_heap (back : bool) : gmap positive (NodeFields * list (option positive)) :=
  {[ 1%positive := (node_fields demo_root, [Some 2%positive]);
     2%positive := (node_fields demo_leaf, if back then [Some 1%positive] else []) ]}.

Definition demo_heap_scope : Aggregate (option positive) :=
  mkAggregate 2 "7" (Some 1%positive) [mkActivityLink "w1" "cpm-1" "a1"] [mkCostLink "w1" "c1"].

Example heap_scope_valid : Validate (heap_deref (demo_heap false)) demo_heap_scope = Ok ().
Proof. vm_compute. reflexivity. Qed.

Example heap_scope_cyclic : Validate (heap_deref (demo_heap true)) demo_heap_scope = Err ErrInvalid.
Proof. vm_compute. reflexivity. Qed.

(** C28. Whatever pointers an aggregate is made of (a heap with shared, nil or
    cyclic pointers included), Validate accepts it exactly when its schema is the
    current one, its revision is a canonical decimal uint64, its root unfolds to a
    finite tree of at most 64 levels and 10,000 nodes with distinct identifiers,
    valid bounded text and finite efforts, its links are at most 50,000, from
    leaves and distinct, and the payload is at most 8 MiB. *)
Theorem Validate_spec {R} (deref : Deref R) (a : Aggregate R) :
  Validate deref a = Ok () <-> well_formed deref a.
Proof. apply Validate_Ok. Qed.

(** C33. A scope that Validate accepts, with finite efforts, is parsed back from the
    text Marshal writes, with empty dictionaries dropped. *)
Theorem Parse_Marshal (a : Aggregate (option Node)) (t : Node) :
  Validate tree_deref a = Ok () -> Root a = Some t -> efforts_finite t ->
  Parse (Marshal a) = Ok (normalize a).
Proof.
  intros (t' & Ha & Hb)%Validate_in_order Hr Hx. assert (t' = t) as -> by (destruct Ha as (_ & _ & E & _); congruence).
  rewrite (Parse_encoding a t) by done. by rewrite (proj2 (Z.ltb_ge _ _) Hb).
Qed.

Lemma Parse_Marshal_witness : Parse (Marshal demo_scope) = Ok (normalize demo_scope)
  /\ normalize demo_scope <> demo_scope.
Proof.
  split.
  - apply (Parse_Marshal demo_scope demo_root); [vm_compute; reflexivity|reflexivity|vm_compute; repeat constructor].
  - intros E. vm_compute in E. discriminate E.
Defined.
