(* ===== verification/EscrowCrypto.v ===== *)
(** * Administrator escrow cryptography (crypto/escrow.go, crypto/subkey.go)

    The sealing, wrapping, pinning and attestation functions of the escrow, over
    the primitives of Go's crypto packages and golang.org/x/crypto.  Byte slices are strings of bytes.
    Every protected value is bound to its purpose and owner by [bindFields],
    whose encoding is shown to be unambiguous. *)

From S2P Require Import Prelude GoStrings.

Local Open Scope Z_scope.

(** ** The primitives

    crypto/hpke with DHKEM(X25519), crypto/aes in GCM mode, crypto/hkdf and
    crypto/hmac with SHA-256, argon2.  Randomised operations take their random
    bytes; [argon2_IDKey] takes password, salt, time, memory, threads and length. *)

Class Primitives := {
  (** [GenerateKey] and [Bytes]; [NewPrivateKey], [PublicKey] and [Bytes]. *)
  kem_generate : string -> option string;
  kem_public : string -> option string;
  (** [NewPublicKey] then [hpke.Seal]; [NewPrivateKey] then [hpke.Open]. *)
  hpke_Seal : string -> string -> string -> string -> option string;
  hpke_Open : string -> string -> string -> option string;
  hkdf_Key : string -> string -> string;
  gcm_Seal : string -> string -> string -> string -> string;
  gcm_Open : string -> string -> string -> string -> option string;
  hmac_Sum : string -> string -> string;
  argon2_IDKey : string -> string -> Z -> Z -> Z -> Z -> string
}.

(** What their documentation promises of them. *)
Class PrimitiveLaws (P : Primitives) := {
  kem_generate_public seed priv :
    kem_generate seed = Some priv -> is_Some (kem_public priv);
  hpke_Open_Seal seed priv pub info text sealed :
    kem_public priv = Some pub -> hpke_Seal seed pub info text = Some sealed ->
    hpke_Open priv info sealed = Some text;
  gcm_Open_Seal key nonce ad text :
    gcm_Open key nonce (gcm_Seal key nonce ad text) ad = Some text;
  (** [Overhead()] is 16 bytes. *)
  gcm_Seal_length key nonce ad text :
    (String.length text + 16 <= String.length (gcm_Seal key nonce ad text))%nat;
  argon2_IDKey_length password salt time memory threads n :
    0 <= n -> String.length (argon2_IDKey password salt time memory threads n) = Z.to_nat n
}.

Inductive CryptoError : Type :=
| ErrBadDEK
| ErrEscrowOpen
| ErrKey           (* a malformed key, an empty secret, a primitive's own error *)
| ErrCiphertext    (* too short, or refused by GCM *)
| ErrNotBase64.

#[export] Instance CryptoError_eq_dec : EqDecision CryptoError.
Proof. solve_decision. Defined.

(** ** Lengths and encodings *)

Definition DEKSize : nat := 32.
Definition nonceSize : nat := 12.
Definition EscrowRecoveryCodeSize : nat := 20.

(** [binary.BigEndian.AppendUint32]. *)
Definition be32 (n : Z) : list ascii :=
  [byte_of (n / 2 ^ 24 mod 256); byte_of (n / 2 ^ 16 mod 256); byte_of (n / 2 ^ 8 mod 256);
   byte_of (n mod 256)].

Definition appendField (out : list ascii) (field : string) : list ascii :=
  out ++ be32 (Z.of_nat (String.length field) mod 2 ^ 32) ++ bytes_of field.

Definition bindFields (label : string) (fields : list string) : string :=
  string_of (foldl appendField (appendField [] label) fields).

(** Purpose labels. *)
Definition escrowDEKLabel : string := "gopmgr/escrow/dek/v1".
Definition escrowGrantLabel : string := "gopmgr/escrow/grant/v1".
Definition escrowPersonalKeyLabel : string := "gopmgr/escrow/personal-key/v1".
Definition escrowPinLabel : string := "gopmgr/escrow/pin/v1".
Definition escrowAttestKeyLabel : string := "gopmgr/escrow/attest-key/v1".
Definition escrowAttestLabel : string := "gopmgr/escrow/attest/v1".
Definition escrowRecoveryLabel : string := "gopmgr/escrow/recovery/v1".

Section escrow.
Context `{Primitives}.

Definition from_option_err {A} (e : CryptoError) (x : option A) : result CryptoError A :=
  match x with
  | Some a => Ok a
  | None => Err e
  end.

Definition DeriveSubkey (dek context : string) : result CryptoError string :=
  if negb (String.length dek =? DEKSize)%nat then Err ErrBadDEK
  else if String.eqb context EmptyString then Err ErrKey
  else Ok (hmac_Sum dek context).

(** A fresh key pair from the random bytes [seed]. *)
Definition GenerateEscrowKeyPair (seed : string) : result CryptoError (string * string) :=
  priv <-! from_option_err ErrKey (kem_generate seed) ;;
  pub <-! from_option_err ErrKey (kem_public priv) ;;
  Ok (priv, pub).

Definition EscrowPublicKey (privateKey : string) : result CryptoError string :=
  from_option_err ErrKey (kem_public privateKey).

Definition sealTo (seed publicKey info plaintext : string) : result CryptoError string :=
  from_option_err ErrKey (hpke_Seal seed publicKey info plaintext).

Definition openWith (privateKey info sealed : string) : result CryptoError string :=
  must! from_option_err ErrKey (kem_public privateKey) ;;
  from_option_err ErrEscrowOpen (hpke_Open privateKey info sealed).

Definition SealDEK (seed escrowPublicKey escrowKeyID username dek : string)
    : result CryptoError string :=
  if negb (String.length dek =? DEKSize)%nat then Err ErrBadDEK
  else sealTo seed escrowPublicKey (bindFields escrowDEKLabel [escrowKeyID; username]) dek.

Definition OpenDEK (escrowPrivateKey escrowKeyID username sealed : string)
    : result CryptoError string :=
  dek <-! openWith escrowPrivateKey (bindFields escrowDEKLabel [escrowKeyID; username]) sealed ;;
  if negb (String.length dek =? DEKSize)%nat then Err ErrBadDEK else Ok dek.

Definition SealGrant (seed adminPublicKey escrowKeyID admin escrowPrivateKey : string)
    : result CryptoError string :=
  sealTo seed adminPublicKey (bindFields escrowGrantLabel [escrowKeyID; admin]) escrowPrivateKey.

Definition OpenGrant (adminPrivateKey escrowKeyID admin sealed : string)
    : result CryptoError string :=
  openWith adminPrivateKey (bindFields escrowGrantLabel [escrowKeyID; admin]) sealed.

(** The nonce is the random bytes; the result is the nonce and the ciphertext. *)
Definition WrapPersonalKey (nonce dek username privateKey : string) : result CryptoError string :=
  key <-! DeriveSubkey dek escrowPersonalKeyLabel ;;
  Ok (nonce +:+ gcm_Seal key nonce (bindFields escrowPersonalKeyLabel [username]) privateKey)%string.

(** [wrapped[:NonceSize]] and [wrapped[NonceSize:]]. *)
Definition split_nonce (wrapped : string) : option (string * string) :=
  if (String.length wrapped <? nonceSize)%nat then None
  else Some (string_of (take nonceSize (bytes_of wrapped)), string_drop nonceSize wrapped).

Definition open_wrapped (key ad wrapped : string) : result CryptoError string :=
  match split_nonce wrapped with
  | None => Err ErrEscrowOpen
  | Some (nonce, ciphertext) => from_option_err ErrEscrowOpen (gcm_Open key nonce ciphertext ad)
  end.

Definition UnwrapPersonalKey (dek username wrapped : string) : result CryptoError string :=
  key <-! DeriveSubkey dek escrowPersonalKeyLabel ;;
  open_wrapped key (bindFields escrowPersonalKeyLabel [username]) wrapped.

Definition recoveryKey (code escrowKeyID : string) : result CryptoError string :=
  if negb (String.length code =? EscrowRecoveryCodeSize)%nat then Err ErrKey
  else Ok (hkdf_Key code (bindFields escrowRecoveryLabel [escrowKeyID])).

Definition WrapEscrowRecovery (nonce code escrowKeyID escrowPrivateKey : string)
    : result CryptoError string :=
  key <-! recoveryKey code escrowKeyID ;;
  Ok (nonce +:+ gcm_Seal key nonce (bindFields escrowRecoveryLabel [escrowKeyID]) escrowPrivateKey)%string.

Definition OpenEscrowRecovery (code escrowKeyID wrapped : string) : result CryptoError string :=
  key <-! recoveryKey code escrowKeyID ;;
  open_wrapped key (bindFields escrowRecoveryLabel [escrowKeyID]) wrapped.

Definition EscrowPin (dek username escrowKeyID escrowPublicKey : string)
    : result CryptoError string :=
  key <-! DeriveSubkey dek escrowPinLabel ;;
  Ok (hmac_Sum key (bindFields escrowPinLabel [username; escrowKeyID; escrowPublicKey])).

Definition VerifyEscrowPin (dek username escrowKeyID escrowPublicKey pin : string)
    : result CryptoError bool :=
  want <-! EscrowPin dek username escrowKeyID escrowPublicKey ;;
  Ok (String.eqb want pin).

Definition Attestation (escrowPrivateKey username personalPublicKey : string)
    : result CryptoError string :=
  if String.eqb escrowPrivateKey EmptyString then Err ErrKey
  else Ok (hmac_Sum (hmac_Sum escrowPrivateKey escrowAttestKeyLabel)
                    (bindFields escrowAttestLabel [username; personalPublicKey])).

Definition VerifyAttestation (escrowPrivateKey username personalPublicKey attestation : string)
    : result CryptoError bool :=
  want <-! Attestation escrowPrivateKey username personalPublicKey ;;
  Ok (String.eqb want attestation).

End escrow.

(** ** The bound fields are unambiguous *)

(** The encoding of a list of fields. *)
Fixpoint encode_fields (fields : list string) : list ascii :=
  match fields with
  | [] => []
  | f :: fs => be32 (Z.of_nat (String.length f) mod 2 ^ 32) ++ bytes_of f ++ encode_fields fs
  end.

Definition short_field (f : string) : Prop := Z.of_nat (String.length f) < 2 ^ 32.

Lemma bindFields_encode label fields :
  bindFields label fields = string_of (encode_fields (label :: fields)).
Proof.
  unfold bindFields. f_equal. change (encode_fields (label :: fields)) with
    ([] ++ encode_fields ([label] ++ fields)).
  assert (Hg : forall fs out, foldl appendField out fs = out ++ encode_fields fs).
  { induction fs as [|f fs IH]; intros out; simpl; [by rewrite app_nil_r|].
    rewrite IH. unfold appendField. by rewrite <- !app_assoc. }
  change (foldl appendField (appendField [] label) fields) with
    (foldl appendField [] ([label] ++ fields)). apply Hg.
Qed.

Lemma bytes_of_inj s1 s2 : bytes_of s1 = bytes_of s2 -> s1 = s2.
Proof. intros H. rewrite <- (string_of_bytes_of s1), <- (string_of_bytes_of s2). by rewrite H. Qed.

Lemma string_of_inj l1 l2 : string_of l1 = string_of l2 -> l1 = l2.
Proof. intros H. rewrite <- (bytes_of_string_of l1), <- (bytes_of_string_of l2). by rewrite H. Qed.

Lemma be32_inj n m : 0 <= n < 2 ^ 32 -> 0 <= m < 2 ^ 32 -> be32 n = be32 m -> n = m.
Proof.
  intros Hn Hm Heq. unfold be32 in Heq.
  assert (Hb : forall a b, byte_of (a mod 256) = byte_of (b mod 256) -> a mod 256 = b mod 256).
  { intros a b Hab. apply (f_equal byte_val) in Hab.
    rewrite !byte_val_of in Hab by (apply Z.mod_pos_bound; lia). done. }
  injection Heq as H1 H2 H3 H4.
  apply Hb in H1. apply Hb in H2. apply Hb in H3. apply Hb in H4.
  assert (Hd : forall z, 0 <= z < 2 ^ 32 -> z = (z / 2 ^ 24 mod 256) * 2 ^ 24
    + (z / 2 ^ 16 mod 256) * 2 ^ 16 + (z / 2 ^ 8 mod 256) * 2 ^ 8 + z mod 256).
  { intros z Hz. Z.to_euclidean_division_equations. lia. }
  rewrite (Hd n Hn), (Hd m Hm). congruence.
Qed.

Lemma encode_fields_inj fs1 : forall fs2,
  Forall short_field fs1 -> Forall short_field fs2 ->
  encode_fields fs1 = encode_fields fs2 -> fs1 = fs2.
Proof.
  induction fs1 as [|f1 fs1 IH]; intros [|f2 fs2] H1 H2 Heq; try done.
  apply Forall_cons in H1 as [Hf1 H1]. apply Forall_cons in H2 as [Hf2 H2].
  unfold short_field in *. cbn [encode_fields] in Heq. rewrite !app_assoc in Heq.
  rewrite <- !app_assoc in Heq. apply app_inj_1 in Heq as [Hlen Hrest]; [|done].
  rewrite !Z.mod_small in Hlen by lia.
  apply be32_inj in Hlen; [|lia..]. apply Nat2Z.inj in Hlen.
  apply app_inj_1 in Hrest as [Hf Hrest]; [|by rewrite !length_bytes_of].
  apply bytes_of_inj in Hf. f_equal; [done|]. by apply IH.
Qed.

(** The bound data of two seals differ as soon as their purposes or any of
    their fields do: bindFields never encodes two inputs alike, as long as no
    field reaches 4 GiB. *)
Theorem bindFields_injective label1 label2 fields1 fields2 :
  Forall short_field (label1 :: fields1) -> Forall short_field (label2 :: fields2) ->
  bindFields label1 fields1 = bindFields label2 fields2 ->
  label1 = label2 /\ fields1 = fields2.
Proof.
  intros H1 H2 Heq. rewrite !bindFields_encode in Heq.
  apply string_of_inj in Heq. apply encode_fields_inj in Heq; [|done..].
  by injection Heq as -> ->.
Qed.

Lemma bindFields_injective_witness :
  escrowDEKLabel = escrowDEKLabel /\ ["k"; "alice"]%string = ["k"; "alice"]%string.
Proof.
  apply (bindFields_injective escrowDEKLabel escrowDEKLabel ["k"; "alice"]%string ["k"; "alice"]%string);
    [repeat constructor..|reflexivity].
Defined.

(** ** What is sealed opens again *)

Section laws.
Context `{PrimitiveLaws}.

Lemma from_option_err_Ok {A} e (x : option A) a : from_option_err e x = Ok a <-> x = Some a.
Proof. unfold from_option_err. destruct x; split; intros; simplify_eq; done. Qed.

Lemma GenerateEscrowKeyPair_public seed priv pub :
  GenerateEscrowKeyPair seed = Ok (priv, pub) -> EscrowPublicKey priv = Ok pub.
Proof.
  unfold GenerateEscrowKeyPair, EscrowPublicKey.
  destruct (kem_generate seed) as [p|]; simpl; [|done].
  destruct (kem_public p) as [q|] eqn:Hq; simpl; [|done].
  intros Hg. injection Hg as <- <-. by rewrite Hq.
Qed.

Lemma openWith_sealTo seed priv pub info text sealed :
  EscrowPublicKey priv = Ok pub -> sealTo seed pub info text = Ok sealed ->
  openWith priv info sealed = Ok text.
Proof.
  unfold EscrowPublicKey, sealTo, openWith. rewrite !from_option_err_Ok. intros Hp Hs.
  rewrite Hp. simpl. by rewrite (hpke_Open_Seal _ _ _ _ _ _ Hp Hs).
Qed.

Lemma OpenDEK_SealDEK seed priv pub id u dek sealed :
  EscrowPublicKey priv = Ok pub -> SealDEK seed pub id u dek = Ok sealed ->
  OpenDEK priv id u sealed = Ok dek.
Proof.
  unfold SealDEK, OpenDEK. intros Hp.
  destruct (negb (String.length dek =? DEKSize)%nat) eqn:Hlen; [done|]. intros Hs.
  rewrite (openWith_sealTo _ _ _ _ _ _ Hp Hs). simpl. by rewrite Hlen.
Qed.

Lemma OpenGrant_SealGrant seed priv pub id u key sealed :
  EscrowPublicKey priv = Ok pub -> SealGrant seed pub id u key = Ok sealed ->
  OpenGrant priv id u sealed = Ok key.
Proof. apply openWith_sealTo. Qed.

Lemma split_nonce_app nonce text :
  String.length nonce = nonceSize -> split_nonce (nonce +:+ text)%string = Some (nonce, text).
Proof.
  intros Hn. unfold split_nonce, string_drop.
  assert (Hb : bytes_of (nonce +:+ text)%string = bytes_of nonce ++ bytes_of text).
  { apply bytes_of_app. }
  assert (Hl : (String.length (nonce +:+ text)%string <? nonceSize)%nat = false).
  { rewrite <- length_bytes_of, Hb, length_app, !length_bytes_of. apply Nat.ltb_ge. lia. }
  rewrite Hl, Hb, <- Hn, <- length_bytes_of, take_app_length, drop_app_length.
  by rewrite !string_of_bytes_of.
Qed.

Lemma open_wrapped_seal key nonce ad text :
  String.length nonce = nonceSize ->
  open_wrapped key ad (nonce +:+ gcm_Seal key nonce ad text)%string = Ok text.
Proof.
  intros Hn. unfold open_wrapped. rewrite split_nonce_app by done.
  by rewrite gcm_Open_Seal.
Qed.

Lemma UnwrapPersonalKey_WrapPersonalKey nonce dek u key wrapped :
  String.length nonce = nonceSize -> WrapPersonalKey nonce dek u key = Ok wrapped ->
  UnwrapPersonalKey dek u wrapped = Ok key.
Proof.
  unfold WrapPersonalKey, UnwrapPersonalKey. intros Hn.
  destruct (DeriveSubkey dek _) as [k|]; simpl; [|done]. intros Hw. injection Hw as <-.
  by apply open_wrapped_seal.
Qed.

Lemma OpenEscrowRecovery_WrapEscrowRecovery nonce code id key wrapped :
  String.length nonce = nonceSize -> WrapEscrowRecovery nonce code id key = Ok wrapped ->
  OpenEscrowRecovery code id wrapped = Ok key.
Proof.
  unfold WrapEscrowRecovery, OpenEscrowRecovery. intros Hn.
  destruct (recoveryKey code id) as [k|]; simpl; [|done]. intros Hw. injection Hw as <-.
  by apply open_wrapped_seal.
Qed.

Lemma VerifyEscrowPin_EscrowPin dek u id pub pin :
  EscrowPin dek u id pub = Ok pin -> VerifyEscrowPin dek u id pub pin = Ok true.
Proof. unfold VerifyEscrowPin. intros ->. simpl. by rewrite String.eqb_refl. Qed.

Lemma VerifyAttestation_Attestation key u pub a :
  Attestation key u pub = Ok a -> VerifyAttestation key u pub a = Ok true.
Proof. unfold VerifyAttestation. intros ->. simpl. by rewrite String.eqb_refl. Qed.

End laws.
