(* ===== verification/Passwords.v ===== *)
(** * Passwords and the wrapping of data keys (auth/password.go, crypto/encrypt.go, crypto/keywrap.go)

    Argon2id hashes in the PHC string format, AES-256-GCM under a password, and
    the wrap of a data-encryption key.  The random bytes a function draws are
    its arguments; the callers in the account store draw them. *)

From S2P Require Import Prelude GoStrings EscrowCrypto.

Local Open Scope string_scope.
Local Open Scope Z_scope.

Inductive AuthError : Type :=
| ErrInvalidHash
| ErrMismatch
| ErrEmptyPassword.

#[export] Instance AuthError_eq_dec : EqDecision AuthError.
Proof. solve_decision. Defined.

(** ** Password hashes *)

Definition pwTime : Z := 3.
Definition pwMemory : Z := 64 * 1024.
Definition pwThreads : Z := 4.
Definition pwKeyLen : Z := 32.
Definition pwSaltLen : nat := 16.
Definition maxArgon2Threads : Z := 2 ^ 8 - 1.
Definition maxArgon2KeyLen : Z := 2 ^ 32 - 1.
(** argon2.Version *)
Definition argon2_Version : Z := 19.

Definition Split_dollar (s : string) : list (list ascii) := split_bytes "$" (bytes_of s).

(** [fmt.Sscanf(part, "m=%d,t=%d,p=%d", ...)] into three uint32. *)
Definition scan_params (part : list ascii) : option (Z * Z * Z) :=
  l ← scan_literal (bytes_of "m=") part;
  '(memory, l) ← scan_uint 32 l;
  l ← scan_literal (bytes_of ",t=") l;
  '(time, l) ← scan_uint 32 l;
  l ← scan_literal (bytes_of ",p=") l;
  '(threads, _) ← scan_uint 32 l;
  Some (memory, time, threads).

(** [fmt.Sscanf(part, "v=%d", &version)] *)
Definition scan_version (part : list ascii) : option Z :=
  l ← scan_literal (bytes_of "v=") part;
  '(version, _) ← scan_int l;
  Some version.

Section passwords.
Context `{Primitives}.

Definition HashPassword (salt password : string) : result AuthError string :=
  if String.eqb password EmptyString then Err ErrEmptyPassword
  else
    let key := argon2_IDKey password salt pwTime pwMemory pwThreads pwKeyLen in
    Ok ("$argon2id$v=" +:+ Itoa argon2_Version +:+ "$m=" +:+ Itoa pwMemory +:+ ",t=" +:+ Itoa pwTime
        +:+ ",p=" +:+ Itoa pwThreads +:+ "$" +:+ RawStdEncode salt +:+ "$" +:+ RawStdEncode key).

(** What VerifyPassword reads in a stored hash: parameters, salt and key. *)
Definition parse_hash (encoded : string) : option (Z * Z * Z * string * string) :=
  match Split_dollar encoded with
  | [_; alg; version; params; salt64; want64] =>
      if negb (bool_decide (alg = bytes_of "argon2id")) then None else
      v ← scan_version version;
      if negb (v =? argon2_Version) then None else
      '(memory, time, threads) ← scan_params params;
      salt ← RawStdDecode (string_of salt64);
      want ← RawStdDecode (string_of want64);
      if (memory =? 0) || (time =? 0) || (threads =? 0) || (maxArgon2Threads <? threads) then None
      else if (String.length salt =? 0)%nat || (String.length want =? 0)%nat
              || (maxArgon2KeyLen <? Z.of_nat (String.length want)) then None
      else Some (memory, time, threads, salt, want)
  | _ => None
  end.

Definition VerifyPassword (password encoded : string) : result AuthError unit :=
  match parse_hash encoded with
  | None => Err ErrInvalidHash
  | Some (memory, time, threads, salt, want) =>
      let got := argon2_IDKey password salt time memory threads (Z.of_nat (String.length want)) in
      if String.eqb got want then Ok () else Err ErrMismatch
  end.

Definition NeedsRehash (encoded : string) : bool :=
  match Split_dollar encoded with
  | [_; alg; _; params; _; _] =>
      if negb (bool_decide (alg = bytes_of "argon2id")) then true
      else match scan_params params with
           | None => true
           | Some (memory, time, threads) =>
               (memory <? pwMemory) || (time <? pwTime) || (threads <? pwThreads)
           end
  | _ => true
  end.

(** ** Encryption under a password *)

Definition argonTime : Z := 1.
Definition argonMemory : Z := 64 * 1024.
Definition argonThreads : Z := 4.
Definition argonKeyLen : Z := 32.
Definition saltLen : nat := 16.

Definition buffer_key (password salt : string) : string :=
  argon2_IDKey password salt argonTime argonMemory argonThreads argonKeyLen.

(** Salt, nonce and sealed text; AES-256 and GCM accept every 32-byte key. *)
Definition EncryptBuffer (salt nonce data password : string) : result CryptoError string :=
  if String.eqb password EmptyString then Err ErrKey
  else Ok (salt +:+ nonce +:+ gcm_Seal (buffer_key password salt) nonce EmptyString data).

Definition DecryptBuffer (blob password : string) : result CryptoError string :=
  if String.eqb password EmptyString then Err ErrKey
  else if (String.length blob <? saltLen + 12 + 16)%nat then Err ErrCiphertext
  else
    let salt := string_of (take saltLen (bytes_of blob)) in
    match split_nonce (string_drop saltLen blob) with
    | None => Err ErrCiphertext
    | Some (nonce, ciphertext) =>
        from_option_err ErrCiphertext (gcm_Open (buffer_key password salt) nonce ciphertext EmptyString)
    end.

Definition WrapKey (salt nonce dek secret : string) : result CryptoError string :=
  if negb (String.length dek =? DEKSize)%nat then Err ErrBadDEK
  else
    blob <-! EncryptBuffer salt nonce dek secret ;;
    Ok (StdEncode blob).

Definition UnwrapKey (wrapped secret : string) : result CryptoError string :=
  match StdDecode wrapped with
  | None => Err ErrNotBase64
  | Some blob =>
      dek <-! DecryptBuffer blob secret ;;
      if negb (String.length dek =? DEKSize)%nat then Err ErrBadDEK else Ok dek
  end.

(** [fmt.Sprintf("%X", dek)]. *)
Definition upper_hex_digit (n : Z) : ascii := byte_of (if n <? 10 then 48 + n else 55 + n).

Definition KeyspecHex (dek : string) : result CryptoError string :=
  if negb (String.length dek =? DEKSize)%nat then Err ErrBadDEK
  else Ok (string_of (flat_map (fun c => [upper_hex_digit (byte_val c / 16);
                                          upper_hex_digit (byte_val c mod 16)]) (bytes_of dek))).

End passwords.

(** ** What is hashed verifies, what is wrapped unwraps *)

Section laws.
Context `{PrimitiveLaws}.

Lemma RawStdEncode_no_dollar s : Forall (fun c => c <> "$"%char) (bytes_of (RawStdEncode s)).
Proof.
  unfold RawStdEncode. rewrite bytes_of_string_of.
  eapply Forall_impl; [apply b64_encode_plain|]. by intros c [_ Hc].
Qed.

Lemma Split_dollar_hash s t :
  Split_dollar ("$argon2id$v=" +:+ Itoa argon2_Version +:+ "$m=" +:+ Itoa pwMemory +:+ ",t="
    +:+ Itoa pwTime +:+ ",p=" +:+ Itoa pwThreads +:+ "$" +:+ RawStdEncode s +:+ "$" +:+ RawStdEncode t)
  = [[]; bytes_of "argon2id"; bytes_of "v=19"; bytes_of "m=65536,t=3,p=4";
     bytes_of (RawStdEncode s); bytes_of (RawStdEncode t)].
Proof.
  unfold Split_dollar. rewrite !bytes_of_app.
  change (split_bytes "$" ([] ++ "$"%char :: bytes_of "argon2id" ++ "$"%char :: bytes_of "v=19"
    ++ "$"%char :: bytes_of "m=65536,t=3,p=4" ++ "$"%char :: bytes_of (RawStdEncode s)
    ++ "$"%char :: bytes_of (RawStdEncode t))
    = [[]; bytes_of "argon2id"; bytes_of "v=19"; bytes_of "m=65536,t=3,p=4";
       bytes_of (RawStdEncode s); bytes_of (RawStdEncode t)]).
  rewrite !split_bytes_app by first [apply RawStdEncode_no_dollar | by repeat constructor].
  by rewrite split_bytes_no_sep by apply RawStdEncode_no_dollar.
Qed.

Lemma HashPassword_Ok salt password encoded :
  HashPassword salt password = Ok encoded ->
  password <> EmptyString
  /\ Split_dollar encoded
     = [[]; bytes_of "argon2id"; bytes_of "v=19"; bytes_of "m=65536,t=3,p=4";
        bytes_of (RawStdEncode salt);
        bytes_of (RawStdEncode (argon2_IDKey password salt pwTime pwMemory pwThreads pwKeyLen))].
Proof.
  unfold HashPassword. destruct (String.eqb_spec password EmptyString); [done|].
  intros He. injection He as <-. split; [done|]. apply Split_dollar_hash.
Qed.

Lemma parse_hash_HashPassword salt password encoded :
  HashPassword salt password = Ok encoded -> String.length salt = pwSaltLen ->
  parse_hash encoded = Some (pwMemory, pwTime, pwThreads, salt,
                             argon2_IDKey password salt pwTime pwMemory pwThreads pwKeyLen).
Proof.
  intros [_ Hs]%HashPassword_Ok Hl. unfold parse_hash. rewrite Hs.
  set (key := argon2_IDKey _ _ _ _ _ _).
  assert (Hk : String.length key = 32%nat) by (unfold key; rewrite argon2_IDKey_length; done).
  change (scan_version (bytes_of "v=19")) with (Some argon2_Version).
  change (scan_params (bytes_of "m=65536,t=3,p=4")) with (Some (pwMemory, pwTime, pwThreads)).
  rewrite bool_decide_true by done. cbn -[RawStdDecode RawStdEncode bytes_of string_of].
  rewrite !string_of_bytes_of, !RawStdDecode_RawStdEncode. cbn -[String.length Z.of_nat].
  rewrite Hl, Hk. reflexivity.
Qed.

Lemma VerifyPassword_hashed salt password typed encoded :
  HashPassword salt password = Ok encoded -> String.length salt = pwSaltLen ->
  VerifyPassword typed encoded
  = if String.eqb (argon2_IDKey typed salt pwTime pwMemory pwThreads pwKeyLen)
                  (argon2_IDKey password salt pwTime pwMemory pwThreads pwKeyLen)
    then Ok () else Err ErrMismatch.
Proof.
  intros He Hl. unfold VerifyPassword. rewrite (parse_hash_HashPassword _ _ _ He Hl).
  by rewrite argon2_IDKey_length by done.
Qed.

Lemma VerifyPassword_own salt password encoded :
  HashPassword salt password = Ok encoded -> String.length salt = pwSaltLen ->
  VerifyPassword password encoded = Ok ().
Proof. intros He Hl. rewrite (VerifyPassword_hashed _ _ _ _ He Hl). by rewrite String.eqb_refl. Qed.

(** A password verifies against its own hash; another one verifies exactly
    when Argon2id derives the same key from it, and is a mismatch otherwise,
    never a malformed hash.  A new hash needs no rehash. *)
Theorem VerifyPassword_HashPassword salt password typed encoded :
  HashPassword salt password = Ok encoded -> String.length salt = pwSaltLen ->
  VerifyPassword password encoded = Ok ()
  /\ NeedsRehash encoded = false
  /\ VerifyPassword typed encoded
     = if String.eqb (argon2_IDKey typed salt pwTime pwMemory pwThreads pwKeyLen)
                     (argon2_IDKey password salt pwTime pwMemory pwThreads pwKeyLen)
       then Ok () else Err ErrMismatch.
Proof.
  intros He Hl. split_and!; [by eapply VerifyPassword_own| |by eapply VerifyPassword_hashed].
  unfold NeedsRehash. destruct (HashPassword_Ok _ _ _ He) as [_ ->].
  rewrite bool_decide_true by done. reflexivity.
Qed.

Lemma take_drop_app_string s t :
  string_of (take (String.length s) (bytes_of (s +:+ t))) = s
  /\ string_drop (String.length s) (s +:+ t) = t.
Proof.
  unfold string_drop. rewrite bytes_of_app, <- length_bytes_of, take_app_length, drop_app_length.
  by rewrite !string_of_bytes_of.
Qed.

Lemma length_append s t : String.length (s +:+ t) = (String.length s + String.length t)%nat.
Proof. by rewrite <- !length_bytes_of, bytes_of_app, length_app. Qed.

Lemma DecryptBuffer_EncryptBuffer salt nonce data password blob :
  String.length salt = saltLen -> String.length nonce = nonceSize ->
  EncryptBuffer salt nonce data password = Ok blob -> DecryptBuffer blob password = Ok data.
Proof.
  intros Hs Hn. unfold EncryptBuffer, DecryptBuffer.
  destruct (String.eqb password EmptyString); [done|]. intros Hb. injection Hb as <-.
  set (text := gcm_Seal _ _ _ _).
  assert (Ht : (16 <= String.length text)%nat)
    by (unfold text; pose proof (gcm_Seal_length (buffer_key password salt) nonce EmptyString data); lia).
  destruct (Nat.ltb_spec (String.length (salt +:+ nonce +:+ text)) (saltLen + 12 + 16)) as [Hlt|_].
  { rewrite !length_append, Hs, Hn in Hlt. unfold saltLen, nonceSize in Hlt. lia. }
  destruct (take_drop_app_string salt (nonce +:+ text)) as [Htk Hdr]. rewrite Hs in Htk, Hdr.
  rewrite Htk, Hdr, split_nonce_app by done. subst text. by rewrite gcm_Open_Seal.
Qed.

Lemma UnwrapKey_own salt nonce dek secret wrapped :
  String.length salt = saltLen -> String.length nonce = nonceSize ->
  WrapKey salt nonce dek secret = Ok wrapped -> UnwrapKey wrapped secret = Ok dek.
Proof.
  intros Hs Hn. unfold WrapKey, UnwrapKey.
  destruct (String.length dek =? DEKSize)%nat eqn:Hd; [|done]. simpl.
  destruct (EncryptBuffer salt nonce dek secret) as [blob|] eqn:He; simpl; [|done].
  intros Hw. injection Hw as <-. rewrite StdDecode_StdEncode.
  rewrite (DecryptBuffer_EncryptBuffer _ _ _ _ _ Hs Hn He). simpl. by rewrite Hd.
Qed.

Lemma UnwrapKey_length wrapped secret dek :
  UnwrapKey wrapped secret = Ok dek -> String.length dek = DEKSize.
Proof.
  unfold UnwrapKey. destruct (StdDecode wrapped); [|done].
  destruct (DecryptBuffer _ secret) as [x|]; simpl; [|done].
  destruct (Nat.eqb_spec (String.length x) DEKSize); simpl; [|done]. congruence.
Qed.

(** Nothing unwraps from an empty column, nothing verifies against one. *)
Lemma UnwrapKey_nonempty wrapped secret dek : UnwrapKey wrapped secret = Ok dek -> wrapped <> EmptyString.
Proof.
  intros Hu ->. unfold UnwrapKey, DecryptBuffer in Hu. simpl in Hu.
  by destruct (String.eqb secret EmptyString).
Qed.

Lemma VerifyPassword_nonempty password encoded :
  VerifyPassword password encoded = Ok () -> encoded <> EmptyString.
Proof. by intros Hv ->. Qed.

(** A wrapped data key unwraps under its secret to the same key, whatever
    salt and nonce were drawn; only 32-byte keys are wrapped, under a secret that
    is not empty, and whatever unwraps has 32 bytes. *)
Theorem UnwrapKey_WrapKey salt nonce dek secret wrapped :
  String.length salt = saltLen -> String.length nonce = nonceSize ->
  WrapKey salt nonce dek secret = Ok wrapped ->
  UnwrapKey wrapped secret = Ok dek /\ String.length dek = DEKSize /\ secret <> EmptyString
  /\ forall w s k, UnwrapKey w s = Ok k -> String.length k = DEKSize.
Proof.
  intros Hs Hn Hw. pose proof (UnwrapKey_own _ _ _ _ _ Hs Hn Hw) as Hu.
  split_and!; [done|by eapply UnwrapKey_length| |apply UnwrapKey_length].
  intros ->. unfold WrapKey in Hw. by destruct (negb _).
Qed.

End laws.
