(* ===== verification/SystemDb.v ===== *)
(** * system.db and its transactions (users/*.go)

    The tables of the machine-wide database with their keys, foreign keys,
    cascades and triggers; SQL statements as partial functions on it; the
    transaction monad with the clock, the random source and the failures of the
    environment; inWriteTx with its commit and rollback.
    The SQL statements of the account operations are at the end of the file. *)

From S2P Require Import Prelude GoStrings GoTime EscrowCrypto Passwords.

Local Open Scope Z_scope.

(** ** Time columns

    A TEXT column holding an RFC 3339 time: empty, a time that parses, or text
    that does not. *)

Inductive Stamp : Type :=
| Blank
| At (t : Time)
| Garbled.

#[export] Instance Stamp_eq_dec : EqDecision Stamp.
Proof. solve_decision. Defined.

(** [time.Parse(time.RFC3339Nano, column)]. *)
Definition parse_stamp (s : Stamp) : option Time :=
  match s with
  | At t => Some t
  | _ => None
  end.

(** ** Errors *)

Inductive UserError : Type :=
| ErrNoSuchUser | ErrNotAdmin | ErrLastAdmin | ErrNotSuper | ErrTargetIsSuper | ErrTargetNotAdmin
| ErrAccountDisabled | ErrFolderShared | ErrPurgeIncomplete | ErrAdminExists | ErrUserExists
| ErrUserFolderExists | ErrReservedUsername | ErrWindowsDeviceName | ErrInvalidUsername
| ErrNoPersonalKey | ErrNoEscrowGrant | ErrEscrowMismatch | ErrPersonalKeyNotAttested
| ErrTakeoverPeriod | ErrTakeoverNotDue | ErrNotStandby | ErrTakeoverReason
| ErrTakeoverNoteRequired | ErrTakeoverNoteTooLong
| ProtectionError (username reason : string) (until : Time)
| ErrStandbyChanged | ErrNewKeyReasonRequired | ErrNewKeyReasonTooLong | ErrHoldsEscrowKey
| KeyHeldError (holder : string) (standby : bool)
| ErrNoRecoveryCode | ErrInvalidEscrowRecoveryCode
| ErrAccessReasonRequired | ErrAccessReasonTooLong | ErrSelfAccess | ErrNotEnrolled
| ErrAcknowledgeUnknownAccess | ErrUnknownAction (action : string)
| ErrStaleCredentials | ErrAccountIdentity | ErrSignInContended
| ErrPasswordTooShort | ErrPasswordChangedElsewhere | ErrPasswordWrapCorrupt
| ErrInvalidRecoveryCode | ErrLegacyRecoveryCode | ErrRecoveryCodesChanged
| ErrNoRows            (* sql.ErrNoRows *)
| ErrSql               (* any other failure of a statement *)
| ErrFolder            (* a file-system failure *)
| ErrEntropy           (* crypto/rand *)
| ErrCrypto (e : CryptoError)
| ErrAuth (e : AuthError).

#[export] Instance UserError_eq_dec : EqDecision UserError.
Proof. solve_decision. Defined.

(** ** Rows *)

Record User : Type := mkUser {
  display_name : string;
  password_hash : string;
  data_dir : string;
  created_at : Stamp;
  last_login : Stamp;
  is_admin : bool;
  disabled : bool;
  wrapped_dek_pw : string
}.

Record AccountEvent : Type := mkEvent {
  ev_ID : Z;
  ev_OccurredAt : Stamp;
  ev_Actor : string;
  ev_Username : string;
  ev_Action : string;
  ev_Detail : string
}.

Record SuccessionRow : Type := mkSuccession {
  standby : option string;
  takeover_days : Z;
  changed_at : Stamp;
  standby_named_at : Stamp
}.

Record ProtectionRow : Type := mkProtection {
  pr_reason : string;
  pr_note : string;
  protected_until : Stamp;
  taken_over_by : string;
  pr_created_at : Stamp
}.

Record EscrowKeyRow : Type := mkEscrowKey {
  ek_public_key : string;
  ek_created_at : Stamp;
  retired_at : Stamp
}.

Record PersonalKeyRow : Type := mkPersonalKey {
  pk_public_key : string;
  wrapped_private_key : string;
  attestation : string;
  attested_escrow_key_id : string;
  pk_created_at : Stamp
}.

Record SealedRow : Type := mkSealed {
  sd_key_id : string;
  sd_sealed : string;
  sealed_at : Stamp
}.

Record PinRow : Type := mkPin {
  pin_key_id : string;
  pin_mac : string
}.

Record GrantRow : Type := mkGrant {
  gr_key_id : string;
  gr_sealed : string;
  granted_at : Stamp
}.

Record RecoveryRow : Type := mkRecovery {
  rc_wrapped : string;
  rc_confirmed : bool;
  rc_created_at : Stamp;
  rc_created_by : string
}.

(** A one-time recovery code of an account; [code_wrap] is empty for a code
    issued before the account had a data key. *)
Record CodeRow : Type := mkCode {
  code_id : Z;
  code_user : string;
  code_hash : string;
  code_used : bool;
  used_at : Stamp;
  code_wrap : string;
  code_created_at : Stamp
}.

(** An identity: the account it is bound to with its authorization
    generation, or [None] once retired. *)
Notation Identity := (option (string * Z)) (only parsing).

(** ** The database

    Tables keyed by their primary key.  [account_events] and [recovery_codes] are
    in insertion order, [event_seq] and [code_seq] their AUTOINCREMENT counters. *)

Record SystemDB : Type := mkDB {
  users : gmap string User;
  account_identity_registry : gmap string Identity;
  account_events : list AccountEvent;
  event_seq : Z;
  super_admin : option (string * Stamp);
  super_succession : option SuccessionRow;
  takeover_protection : gmap string ProtectionRow;
  escrow_keys : gmap string EscrowKeyRow;
  personal_keys : gmap string PersonalKeyRow;
  sealed_deks : gmap string SealedRow;
  escrow_pins : gmap string PinRow;
  escrow_grants : gmap string GrantRow;
  access_notices : gmap string Z;
  escrow_rotation_pending : option (string * Stamp);
  escrow_recovery : gmap string RecoveryRow;
  recovery_codes : list CodeRow;
  code_seq : Z
}.

(** A database just created by [migrate]. *)
Definition empty_db : SystemDB := mkDB ∅ ∅ [] 0 None None ∅ ∅ ∅ ∅ ∅ ∅ ∅ None ∅ [] 0.

Definition eta_db (d : SystemDB) : SystemDB :=
  mkDB (users d) (account_identity_registry d) (account_events d) (event_seq d) (super_admin d)
       (super_succession d) (takeover_protection d) (escrow_keys d) (personal_keys d)
       (sealed_deks d) (escrow_pins d) (escrow_grants d) (access_notices d)
       (escrow_rotation_pending d) (escrow_recovery d) (recovery_codes d) (code_seq d).

Definition set_users v (d : SystemDB) : SystemDB := ltac:(record_set eta_db users v d).
Definition set_registry v (d : SystemDB) : SystemDB :=
  ltac:(record_set eta_db account_identity_registry v d).
Definition set_super v (d : SystemDB) : SystemDB := ltac:(record_set eta_db super_admin v d).
Definition set_succession v (d : SystemDB) : SystemDB :=
  ltac:(record_set eta_db super_succession v d).
Definition set_protection v (d : SystemDB) : SystemDB :=
  ltac:(record_set eta_db takeover_protection v d).
Definition set_keys v (d : SystemDB) : SystemDB := ltac:(record_set eta_db escrow_keys v d).
Definition set_personal v (d : SystemDB) : SystemDB := ltac:(record_set eta_db personal_keys v d).
Definition set_sealed v (d : SystemDB) : SystemDB := ltac:(record_set eta_db sealed_deks v d).
Definition set_pins v (d : SystemDB) : SystemDB := ltac:(record_set eta_db escrow_pins v d).
Definition set_grants v (d : SystemDB) : SystemDB := ltac:(record_set eta_db escrow_grants v d).
Definition set_notices v (d : SystemDB) : SystemDB := ltac:(record_set eta_db access_notices v d).
Definition set_pending v (d : SystemDB) : SystemDB :=
  ltac:(record_set eta_db escrow_rotation_pending v d).
Definition set_recovery v (d : SystemDB) : SystemDB := ltac:(record_set eta_db escrow_recovery v d).

Definition set_codes v (d : SystemDB) : SystemDB := ltac:(record_set eta_db recovery_codes v d).
Definition set_code_seq v (d : SystemDB) : SystemDB := ltac:(record_set eta_db code_seq v d).

(** Append to the history; the id is the next one of the AUTOINCREMENT counter. *)
Definition add_event (at_ : Stamp) (actor username action detail : string) (d : SystemDB)
    : SystemDB :=
  mkDB (users d) (account_identity_registry d)
       (account_events d ++ [mkEvent (event_seq d + 1) at_ actor username action detail])
       (event_seq d + 1) (super_admin d)
       (super_succession d) (takeover_protection d) (escrow_keys d) (personal_keys d)
       (sealed_deks d) (escrow_pins d) (escrow_grants d) (access_notices d)
       (escrow_rotation_pending d) (escrow_recovery d) (recovery_codes d) (code_seq d).

(** ** The environment

    The readings of the clock, the bytes crypto/rand returns (asked for with
    their number), the statements that fail for a reason outside the model, and
    the file-system operations that do. *)

Class Env := {
  clock : nat -> Time;
  entropy : nat -> nat -> option string;
  entropy_length k n s : entropy k n = Some s -> String.length s = n;
  statement_fails : nat -> bool;
  folder_fails : nat -> bool
}.

(** A connection: the database as the transaction sees it, the folders of the
    data root, how much of the environment has been used, and [captured], the
    Go local a transaction body assigns (acc.DataDir of an account creation),
    which a rollback leaves alone. *)
Record Conn : Type := mkConn {
  db : SystemDB;
  folders : gset string;
  ticks : nat;
  draws : nat;
  statements : nat;
  folder_ops : nat;
  captured : string
}.

Definition Tx (A : Type) : Type := Conn -> result UserError A * Conn.

Definition set_db (v : SystemDB) (c : Conn) : Conn :=
  mkConn v (folders c) (ticks c) (draws c) (statements c) (folder_ops c) (captured c).
Definition set_folders (v : gset string) (c : Conn) : Conn :=
  mkConn (db c) v (ticks c) (draws c) (statements c) (folder_ops c) (captured c).

Definition set_captured (v : string) (c : Conn) : Conn :=
  mkConn (db c) (folders c) (ticks c) (draws c) (statements c) (folder_ops c) v.

Definition tx_ret {A} (a : A) : Tx A := fun c => (Ok a, c).
Definition tx_fail {A} (e : UserError) : Tx A := fun c => (Err e, c).

Definition tx_bind {A B} (m : Tx A) (k : A -> Tx B) : Tx B := fun c =>
  match m c with
  | (Ok a, c') => k a c'
  | (Err e, c') => (Err e, c')
  end.

(** Run [m] and hand its error to [k] as a value: [v, err := m]. *)
Definition tx_try {A B} (m : Tx A) (k : result UserError A -> Tx B) : Tx B := fun c =>
  let (r, c') := m c in k r c'.

Notation "x <-- m ;; k" := (tx_bind m (fun x => k))
  (at level 100, m at next level, right associativity) : gopm_scope.
Notation "'do!' m ;; k" := (tx_bind m (fun _ => k))
  (at level 100, m at next level, right associativity) : gopm_scope.

Definition tx_guard (b : bool) (e : UserError) : Tx unit := if b then tx_ret () else tx_fail e.

Definition tx_when (b : bool) (m : Tx unit) : Tx unit := if b then m else tx_ret ().

(** A loop whose body may fail. *)
Fixpoint tx_each {A} (l : list A) (body : A -> Tx unit) : Tx unit :=
  match l with
  | [] => tx_ret ()
  | x :: l' => do! body x ;; tx_each l' body
  end.

Fixpoint tx_fold {A B} (body : A -> B -> Tx A) (a : A) (l : list B) : Tx A :=
  match l with
  | [] => tx_ret a
  | x :: l' => a' <-- body a x ;; tx_fold body a' l'
  end.

Definition tx_of {A} (r : result UserError A) : Tx A := fun c => (r, c).

(** A result of package auth. *)
Definition tx_auth {A} (r : result AuthError A) : Tx A :=
  match r with
  | Ok a => tx_ret a
  | Err e => tx_fail (ErrAuth e)
  end.

(** A result of package crypto. *)
Definition tx_crypto {A} (r : result CryptoError A) : Tx A :=
  match r with
  | Ok a => tx_ret a
  | Err e => tx_fail (ErrCrypto e)
  end.

Section transactions.
Context `{Env}.

(** [time.Now().UTC()], and the same formatted as RFC 3339 text. *)
Definition tx_now : Tx Time := fun c =>
  (Ok (clock (ticks c)),
   mkConn (db c) (folders c) (S (ticks c)) (draws c) (statements c) (folder_ops c) (captured c)).

Definition nowStamp : Tx Stamp := t <-- tx_now ;; tx_ret (At t).

(** [io.ReadFull(rand.Reader, b)] with [len(b) = n]. *)
Definition tx_rand (n : nat) : Tx string := fun c =>
  let c' := mkConn (db c) (folders c) (ticks c) (S (draws c)) (statements c) (folder_ops c) (captured c) in
  match entropy (draws c) n with
  | Some s => (Ok s, c')
  | None => (Err ErrEntropy, c')
  end.

Definition count_statement (c : Conn) : Conn :=
  mkConn (db c) (folders c) (ticks c) (draws c) (S (statements c)) (folder_ops c)
    (captured c).

(** One SQL statement: it fails for an outside reason, violates a constraint
    ([None]: no effect), or returns its rows and the new database. *)
Definition statement {A} (f : SystemDB -> option (A * SystemDB)) : Tx A := fun c =>
  let c' := count_statement c in
  if statement_fails (statements c) then (Err ErrSql, c')
  else match f (db c) with
       | Some (a, d) => (Ok a, set_db d c')
       | None => (Err ErrSql, c')
       end.

(** [ExecContext] whose result is ignored, and [QueryContext]. *)
Definition exec (f : SystemDB -> option SystemDB) : Tx unit :=
  statement (fun d => (fun d' => ((), d')) <$> f d).

Definition query {A} (f : SystemDB -> A) : Tx A := statement (fun d => Some (f d, d)).

(** [QueryRowContext(...).Scan]: [ErrNoRows] when there is no row. *)
Definition query_row {A} (f : SystemDB -> option A) : Tx A :=
  r <-- query f ;;
  match r with
  | Some a => tx_ret a
  | None => tx_fail ErrNoRows
  end.

(** [COMMIT]: the deferred foreign key of account_identity_registry is checked. *)
Definition has_user (u : string) (d : SystemDB) : bool := bool_decide (is_Some (users d !! u)).

Definition identities_name_users (d : SystemDB) : bool :=
  forallb (fun ki => match ki.2 with
                     | Some (u, _) => has_user u d
                     | None => true
                     end) (map_to_list (account_identity_registry d)).

Definition commit_ok (d : SystemDB) : option SystemDB :=
  if identities_name_users d then Some d else None.

(** [inWriteTx]: BEGIN IMMEDIATE, the body, COMMIT; anything that fails is
    rolled back.  A ROLLBACK that fails closes the connection, which rolls back
    too; its error is joined to the first one. *)
Definition inWriteTx {A} (fn : Tx A) : Tx A := fun c =>
  match exec Some c with
  | (Err e, c1) => (Err e, c1)
  | (Ok _, c1) =>
      match (a <-- fn ;; do! exec commit_ok ;; tx_ret a) c1 with
      | (Ok a, c2) => (Ok a, c2)
      | (Err e, c2) => (Err e, set_db (db c) (count_statement c2))
      end
  end.

(** How the statements of a savepoint ended. *)
Inductive SavepointEnd : Type :=
| SpDone
| SpRollbackFailed
| SpReleaseFailed.

Definition release : Tx SavepointEnd :=
  tx_try (exec Some) (fun e => tx_ret (match e with Ok _ => SpDone | Err _ => SpReleaseFailed end)).

(** [SAVEPOINT]; the body; [ROLLBACK TO] when it failed; [RELEASE]. *)
Definition in_savepoint {A} (body : Tx A) : Tx (result UserError A * SavepointEnd) :=
  saved <-- query (fun d => d) ;;
  tx_try body (fun r =>
    match r with
    | Ok _ => e <-- release ;; tx_ret (r, e)
    | Err _ =>
        tx_try (exec (fun _ => Some saved)) (fun rb =>
          match rb with
          | Err _ => tx_ret (r, SpRollbackFailed)
          | Ok _ => e <-- release ;; tx_ret (r, e)
          end)
    end).

End transactions.

Definition guard_db (b : bool) (d : SystemDB) : option SystemDB := if b then Some d else None.

(** ** Account identities (account_identity.go)

    Every account is bound to one identity of the registry; the triggers keep
    identities from being reused, renamed or reset, and count the changes of an
    account's role, status and credentials in its generation. *)

Definition max_generation : Z := max_int64.

Definition bound_to (u : string) (i : Identity) : bool :=
  match i with
  | Some (v, _) => String.eqb v u
  | None => false
  end.

Definition has_identity (u : string) (d : SystemDB) : bool :=
  existsb (fun ki => bound_to u ki.2) (map_to_list (account_identity_registry d)).

(** The identity and generation an account is bound to. *)
Definition identity_of (u : string) (d : SystemDB) : option (string * Z) :=
  list_find (fun ki => bound_to u ki.2 = true) (map_to_list (account_identity_registry d))
    ≫= fun iki => (fun ug => (iki.2.1, ug.2)) <$> iki.2.2.

Definition hex_digit (c : ascii) : bool :=
  let b := byte_val c in ((48 <=? b) && (b <=? 57)) || ((97 <=? b) && (b <=? 102)).

(** 'ac1:' followed by 64 lower-case hexadecimal digits. *)
Definition identity_id (id : string) : bool :=
  (String.length id =? 68)%nat && String.prefix "ac1:" id
  && forallb hex_digit (bytes_of (string_drop 4 id)).

(** INSERT INTO account_identity_registry(id,username,generation) VALUES(?,?,1) *)
Definition sql_insert_identity (id u : string) (d : SystemDB) : option SystemDB :=
  guard_db (identity_id id && bool_decide (account_identity_registry d !! id = None)
            && negb (has_identity u d))
           (set_registry (<[id := Some (u, 1)]> (account_identity_registry d)) d).

(** Trigger account_identity_users_state, with account_identity_registry_update. *)
Definition bump_generation (u : string) (d : SystemDB) : option SystemDB :=
  let old := account_identity_registry d in
  guard_db (has_identity u d
            && forallb (fun ki => negb (bound_to u ki.2)
                         || match ki.2 with Some (_, g) => g <? max_generation | None => true end)
                       (map_to_list old))
           (set_registry ((fun i : Identity => if bound_to u i
                                    then (fun vg => (vg.1, vg.2 + 1)) <$> i else i) <$> old) d).

(** ** Accounts *)

Definition state_changed (old new : User) : bool :=
  negb (Bool.eqb (is_admin old) (is_admin new) && Bool.eqb (disabled old) (disabled new)
        && String.eqb (password_hash old) (password_hash new)
        && String.eqb (wrapped_dek_pw old) (wrapped_dek_pw new)).

(** UPDATE users SET ... WHERE username = u, with the state trigger. *)
Definition sql_update_user (u : string) (f : User -> User) (d : SystemDB) : option SystemDB :=
  match users d !! u with
  | None => Some d
  | Some row =>
      let d' := set_users (<[u := f row]> (users d)) d in
      if state_changed row (f row) then bump_generation u d' else Some d'
  end.

Definition with_admin (b : bool) (r : User) : User :=
  mkUser (display_name r) (password_hash r) (data_dir r) (created_at r) (last_login r) b
         (disabled r) (wrapped_dek_pw r).
Definition with_disabled (b : bool) (r : User) : User :=
  mkUser (display_name r) (password_hash r) (data_dir r) (created_at r) (last_login r)
         (is_admin r) b (wrapped_dek_pw r).
Definition with_wrap (w : string) (r : User) : User :=
  mkUser (display_name r) (password_hash r) (data_dir r) (created_at r) (last_login r)
         (is_admin r) (disabled r) w.
Definition with_hash (h : string) (r : User) : User :=
  mkUser (display_name r) h (data_dir r) (created_at r) (last_login r)
         (is_admin r) (disabled r) (wrapped_dek_pw r).
Definition with_last_login (t : Stamp) (r : User) : User :=
  mkUser (display_name r) (password_hash r) (data_dir r) (created_at r) t
         (is_admin r) (disabled r) (wrapped_dek_pw r).

(** The same with a further condition on the row, with the number of rows. *)
Definition sql_update_user_if (cond : User -> bool) (u : string) (f : User -> User) (d : SystemDB)
    : option (Z * SystemDB) :=
  match users d !! u with
  | Some row => if cond row then (fun d' => (1, d')) <$> sql_update_user u f d else Some (0, d)
  | None => Some (0, d)
  end.

(** INSERT INTO users, with trigger account_identity_users_insert. *)
Definition sql_insert_user (u : string) (row : User) (d : SystemDB) : option SystemDB :=
  guard_db (negb (has_user u d)
            && bool_decide ((fun ig => ig.2) <$> identity_of u d = Some 1))
           (set_users (<[u := row]> (users d)) d).

(** DELETE FROM users WHERE username = u: the identity is retired, the
    account's rows cascade, the standby is set to NULL; super_admin's foreign
    key refuses the deletion of the super administrator. *)
Definition sql_delete_user (u : string) (d : SystemDB) : option SystemDB :=
  guard_db (negb (has_user u d && bool_decide (fst <$> super_admin d = Some u)))
    (if has_user u d then
       mkDB (delete u (users d))
            ((fun i : Identity => if bound_to u i then None else i) <$> account_identity_registry d)
            (account_events d) (event_seq d) (super_admin d)
            ((fun s => if bool_decide (standby s = Some u)
                       then mkSuccession None (takeover_days s) (changed_at s) (standby_named_at s)
                       else s) <$> super_succession d)
            (delete u (takeover_protection d)) (escrow_keys d) (delete u (personal_keys d))
            (delete u (sealed_deks d)) (delete u (escrow_pins d)) (delete u (escrow_grants d))
            (delete u (access_notices d)) (escrow_rotation_pending d) (escrow_recovery d)
            (List.filter (fun c => negb (String.eqb (code_user c) u)) (recovery_codes d)) (code_seq d)
     else d).

Definition enabled_admin (r : User) : bool := is_admin r && negb (disabled r).

(** SELECT COUNT( * ) FROM users WHERE is_admin = 1 AND disabled = 0 *)
Definition sql_count_admins (d : SystemDB) : Z :=
  Z.of_nat (length (List.filter (fun ur => enabled_admin ur.2) (map_to_list (users d)))).

(** ** The history *)

Definition sql_insert_event (t : Stamp) (actor u action detail : string) (d : SystemDB)
    : option SystemDB := Some (add_event t actor u action detail d).

(** ** The super administrator and the succession *)

(** INSERT ... ON CONFLICT(id) DO UPDATE *)
Definition sql_upsert_super (u : string) (t : Stamp) (d : SystemDB) : option SystemDB :=
  guard_db (has_user u d) (set_super (Some (u, t)) d).

(** UPDATE super_admin SET username = ?, assigned_at = ? WHERE id = 1 *)
Definition sql_update_super (u : string) (t : Stamp) (d : SystemDB) : option SystemDB :=
  match super_admin d with
  | None => Some d
  | Some _ => sql_upsert_super u t d
  end.

Definition sql_upsert_succession (row : SuccessionRow) (d : SystemDB) : option SystemDB :=
  guard_db (match standby row with Some u => has_user u d | None => true end)
           (set_succession (Some row) d).

(** UPDATE super_succession SET standby = NULL, changed_at = ? WHERE id = 1 AND
    standby = ?, with the number of rows. *)
Definition sql_clear_standby (u : string) (t : Stamp) (d : SystemDB) : Z * SystemDB :=
  match super_succession d with
  | Some s =>
      if bool_decide (standby s = Some u)
      then (1, set_succession (Some (mkSuccession None (takeover_days s) t (standby_named_at s))) d)
      else (0, d)
  | None => (0, d)
  end.

Definition sql_delete_protection (u : string) (d : SystemDB) : option SystemDB :=
  Some (set_protection (delete u (takeover_protection d)) d).

Definition sql_upsert_protection (u : string) (row : ProtectionRow) (d : SystemDB)
    : option SystemDB :=
  guard_db (has_user u d) (set_protection (<[u := row]> (takeover_protection d)) d).

(** ** Escrow keys *)

Definition active (k : EscrowKeyRow) : bool := bool_decide (retired_at k = Blank).

(** SELECT id, public_key FROM escrow_keys WHERE retired_at = '' *)
Definition sql_active_key (d : SystemDB) : option (string * string) :=
  (fun k => (k.1, ek_public_key k.2)) <$>
    head (List.filter (fun k => active k.2) (map_to_list (escrow_keys d))).

Definition has_key (id : string) (d : SystemDB) : bool :=
  bool_decide (is_Some (escrow_keys d !! id)).

(** INSERT INTO escrow_keys, retired_at defaulting to ''; index
    escrow_keys_one_active. *)
Definition sql_insert_key (id public : string) (t : Stamp) (d : SystemDB) : option SystemDB :=
  guard_db (negb (has_key id d) && bool_decide (sql_active_key d = None))
           (set_keys (<[id := mkEscrowKey public t Blank]> (escrow_keys d)) d).

Definition retire (t : Stamp) (k : EscrowKeyRow) : EscrowKeyRow :=
  mkEscrowKey (ek_public_key k) (ek_created_at k) t.

(** UPDATE escrow_keys SET retired_at = ? WHERE id = ? *)
Definition sql_retire_key (id : string) (t : Stamp) (d : SystemDB) : option SystemDB :=
  Some (set_keys (alter (retire t) id (escrow_keys d)) d).

(** UPDATE escrow_keys SET retired_at = ? WHERE retired_at = '' *)
Definition sql_retire_active (t : Stamp) (d : SystemDB) : option SystemDB :=
  Some (set_keys ((fun k => if active k then retire t k else k) <$> escrow_keys d) d).

(** ** Personal keys *)

Definition sql_insert_personal (u public wrapped : string) (t : Stamp) (d : SystemDB)
    : option SystemDB :=
  guard_db (has_user u d && bool_decide (personal_keys d !! u = None))
    (set_personal (<[u := mkPersonalKey public wrapped EmptyString EmptyString t]> (personal_keys d)) d).

Definition sql_delete_personal (u : string) (d : SystemDB) : option SystemDB :=
  Some (set_personal (delete u (personal_keys d)) d).

(** UPDATE personal_keys SET public_key = ?, attestation = x'',
    attested_escrow_key_id = '' WHERE username = ? *)
Definition sql_repair_personal (u public : string) (d : SystemDB) : option SystemDB :=
  Some (set_personal (alter (fun k => mkPersonalKey public (wrapped_private_key k) EmptyString
    EmptyString (pk_created_at k)) u (personal_keys d)) d).

(** UPDATE personal_keys SET attestation = ?, attested_escrow_key_id = ? *)
Definition sql_attest (u a id : string) (d : SystemDB) : option SystemDB :=
  Some (set_personal (alter (fun k => mkPersonalKey (pk_public_key k) (wrapped_private_key k) a id
    (pk_created_at k)) u (personal_keys d)) d).

(** UPDATE personal_keys SET attested_escrow_key_id = ? *)
Definition sql_mark_attested (u id : string) (d : SystemDB) : option SystemDB :=
  Some (set_personal (alter (fun k => mkPersonalKey (pk_public_key k) (wrapped_private_key k)
    (attestation k) id (pk_created_at k)) u (personal_keys d)) d).

(** ** Pins, sealed keys and grants *)

Definition sql_insert_pin (u id mac : string) (d : SystemDB) : option SystemDB :=
  guard_db (has_user u d && has_key id d && bool_decide (escrow_pins d !! u = None))
           (set_pins (<[u := mkPin id mac]> (escrow_pins d)) d).

Definition sql_upsert_pin (u id mac : string) (d : SystemDB) : option SystemDB :=
  guard_db (has_user u d && has_key id d) (set_pins (<[u := mkPin id mac]> (escrow_pins d)) d).

Definition sql_delete_pin (u : string) (d : SystemDB) : option SystemDB :=
  Some (set_pins (delete u (escrow_pins d)) d).

(** DELETE FROM escrow_pins WHERE username <> ? *)
Definition sql_delete_other_pins (u : string) (d : SystemDB) : option SystemDB :=
  Some (set_pins (filter (fun kv => kv.1 = u) (escrow_pins d)) d).

(** DELETE FROM escrow_pins WHERE escrow_key_id <> ?, with the number of rows. *)
Definition sql_delete_stale_pins (id : string) (d : SystemDB) : Z * SystemDB :=
  let kept := filter (fun kv => pin_key_id kv.2 = id) (escrow_pins d) in
  (Z.of_nat (size (escrow_pins d)) - Z.of_nat (size kept), set_pins kept d).

Definition sql_upsert_sealed (u id sealed : string) (t : Stamp) (d : SystemDB) : option SystemDB :=
  guard_db (has_user u d && has_key id d)
           (set_sealed (<[u := mkSealed id sealed t]> (sealed_deks d)) d).

(** UPDATE sealed_deks SET escrow_key_id = ?, sealed = ?, sealed_at = ? *)
Definition sql_update_sealed (u id sealed : string) (t : Stamp) (d : SystemDB) : option SystemDB :=
  guard_db (has_key id d || bool_decide (sealed_deks d !! u = None))
           (set_sealed (alter (fun _ => mkSealed id sealed t) u (sealed_deks d)) d).

Definition sql_delete_sealed (u : string) (d : SystemDB) : option SystemDB :=
  Some (set_sealed (delete u (sealed_deks d)) d).

Definition sql_delete_stale_sealed (id : string) (d : SystemDB) : option SystemDB :=
  Some (set_sealed (filter (fun kv => sd_key_id kv.2 = id) (sealed_deks d)) d).

Definition sql_delete_all_sealed (d : SystemDB) : option SystemDB := Some (set_sealed ∅ d).

Definition sql_upsert_grant (u id sealed : string) (t : Stamp) (d : SystemDB) : option SystemDB :=
  guard_db (has_user u d && has_key id d)
           (set_grants (<[u := mkGrant id sealed t]> (escrow_grants d)) d).

(** DELETE FROM escrow_grants WHERE admin_username = ?, with the number of rows. *)
Definition sql_delete_grant (u : string) (d : SystemDB) : Z * SystemDB :=
  (if bool_decide (is_Some (escrow_grants d !! u)) then 1 else 0,
   set_grants (delete u (escrow_grants d)) d).

Definition sql_delete_all_grants (d : SystemDB) : option SystemDB := Some (set_grants ∅ d).

(** SELECT COUNT( * ) FROM escrow_grants JOIN escrow_keys ... retired_at = '' *)
Definition sql_holds_active_grant (u : string) (d : SystemDB) : bool :=
  match escrow_grants d !! u with
  | Some g => match escrow_keys d !! gr_key_id g with Some k => active k | None => false end
  | None => false
  end.

(** ** Pending rotation, recovery codes, notices *)

Definition sql_upsert_pending (reason : string) (t : Stamp) (d : SystemDB) : option SystemDB :=
  Some (set_pending (Some (reason, t)) d).

Definition sql_delete_pending (d : SystemDB) : option SystemDB := Some (set_pending None d).

(** DELETE FROM escrow_recovery, with the number of rows. *)
Definition sql_delete_recovery (d : SystemDB) : Z * SystemDB :=
  (Z.of_nat (size (escrow_recovery d)), set_recovery ∅ d).

Definition sql_insert_recovery (id : string) (row : RecoveryRow) (d : SystemDB) : option SystemDB :=
  guard_db (has_key id d && bool_decide (escrow_recovery d !! id = None))
           (set_recovery (<[id := row]> (escrow_recovery d)) d).

(** UPDATE escrow_recovery SET confirmed = 1 WHERE escrow_key_id = ? *)
Definition sql_confirm_recovery (id : string) (d : SystemDB) : option SystemDB :=
  Some (set_recovery (alter (fun r => mkRecovery (rc_wrapped r) true (rc_created_at r)
    (rc_created_by r)) id (escrow_recovery d)) d).

Definition sql_upsert_notice (u : string) (through : Z) (d : SystemDB) : option SystemDB :=
  guard_db (has_user u d) (set_notices (<[u := through]> (access_notices d)) d).

(** ** Recovery codes of accounts *)

Definition sql_delete_codes (u : string) (d : SystemDB) : option SystemDB :=
  Some (set_codes (List.filter (fun c => negb (String.eqb (code_user c) u)) (recovery_codes d)) d).

Definition sql_insert_code (u hash wrap : string) (t : Stamp) (d : SystemDB) : option SystemDB :=
  guard_db (has_user u d)
    (set_code_seq (code_seq d + 1)
      (set_codes (recovery_codes d ++ [mkCode (code_seq d + 1) u hash false Blank wrap t]) d)).

(** UPDATE recovery_codes SET used = 1, used_at = ? WHERE id = ? *)
Definition use_code (t : Stamp) (c : CodeRow) : CodeRow :=
  mkCode (code_id c) (code_user c) (code_hash c) true t (code_wrap c) (code_created_at c).

Definition sql_use_code (id : Z) (t : Stamp) (d : SystemDB) : option SystemDB :=
  Some (set_codes ((fun c => if code_id c =? id then use_code t c else c) <$> recovery_codes d) d).

Definition codes_of (u : string) (d : SystemDB) : list CodeRow :=
  List.filter (fun c => String.eqb (code_user c) u) (recovery_codes d).

Definition unused_codes (u : string) (d : SystemDB) : list CodeRow :=
  List.filter (fun c => negb (code_used c)) (codes_of u d).

(** SELECT COUNT( * ), COALESCE(MAX(id), 0), COALESCE(SUM(used), 0) *)
Definition sql_codes_basis (u : string) (d : SystemDB) : Z * Z * Z :=
  let cs := codes_of u d in
  (Z.of_nat (length cs), foldr (fun c m => Z.max (code_id c) m) 0 cs,
   Z.of_nat (length (List.filter code_used cs))).
