(* ===== verification/Accounts.v ===== *)
(** * Roles, status and history of accounts (users/account_status.go,
      users/super_admin.go, parts of users/store.go, users/succession.go and
      users/escrow_rotation.go)

    The checks every operation starts with, the super administrator and the
    standby, the protection after a takeover, and the operations that change an
    account's role or status.  Every operation is a transaction on system.db. *)

From S2P Require Import Prelude GoFloat GoStrings GoTime EscrowCrypto SystemDb.

Local Open Scope string_scope.
Local Open Scope Z_scope.

(** ** The history *)

Definition AccountCreated : string := "created".
Definition AccountPromoted : string := "promoted".
Definition AccountDemoted : string := "demoted".
Definition AccountDisabled : string := "disabled".
Definition AccountEnabled : string := "enabled".
Definition AccountPurged : string := "purged".
Definition AccountFolderNotRemoved : string := "folder_not_removed".
Definition AccountAdminAccess : string := "admin_access".
Definition AccountEscrowKeyMismatch : string := "escrow_key_mismatch".
Definition AccountEscrowReenrolled : string := "escrow_reenrolled".
Definition AccountPersonalKeyRepaired : string := "personal_key_repaired".
Definition AccountEscrowRotated : string := "escrow_rotated".
Definition AccountPersonalKeyTrusted : string := "personal_key_trusted".
Definition AccountAccessNoticeRead : string := "access_notice_read".
Definition AccountEscrowRecoveryCreated : string := "escrow_recovery_code_created".
Definition AccountEscrowRecovered : string := "escrow_key_recovered".
Definition AccountEscrowKeyNew : string := "escrow_key_new".
Definition AccountSuperAssigned : string := "super_admin_assigned".
Definition AccountSuperHandedOver : string := "super_admin_handed_over".
Definition AccountStandbyNamed : string := "super_standby_named".
Definition AccountStandbyRemoved : string := "super_standby_removed".
Definition AccountTakeoverPeriodChanged : string := "super_takeover_period_changed".
Definition AccountSuperTakenOver : string := "super_admin_taken_over".

Definition accountEventActions : list string :=
  [AccountCreated; AccountPromoted; AccountDemoted; AccountDisabled; AccountEnabled;
   AccountPurged; AccountFolderNotRemoved; AccountAdminAccess; AccountEscrowKeyMismatch;
   AccountEscrowReenrolled; AccountPersonalKeyRepaired; AccountEscrowRotated;
   AccountPersonalKeyTrusted; AccountAccessNoticeRead; AccountEscrowRecoveryCreated;
   AccountEscrowRecovered; AccountEscrowKeyNew; AccountSuperAssigned; AccountSuperHandedOver;
   AccountStandbyNamed; AccountStandbyRemoved; AccountTakeoverPeriodChanged;
   AccountSuperTakenOver].

(** ** Usernames *)

Definition username_byte (c : ascii) : bool :=
  let b := byte_val c in
  ((65 <=? b) && (b <=? 90)) || ((97 <=? b) && (b <=? 122)) || ((48 <=? b) && (b <=? 57))
  || (b =? 95) || (b =? 45).

(** [usernameRE]: 3 to 32 letters, digits, _ and -. *)
Definition ValidateUsername (name : string) : bool :=
  (3 <=? String.length name)%nat && (String.length name <=? 32)%nat
  && forallb username_byte (bytes_of name).

Definition reservedFolderNames : list string := ["logs"].

Definition windowsDeviceNames : list string :=
  ["con"; "prn"; "aux"; "nul";
   "com0"; "com1"; "com2"; "com3"; "com4"; "com5"; "com6"; "com7"; "com8"; "com9";
   "lpt0"; "lpt1"; "lpt2"; "lpt3"; "lpt4"; "lpt5"; "lpt6"; "lpt7"; "lpt8"; "lpt9"].

(** ** Takeover constants *)

Definition DefaultTakeoverDays : Z := 30.
Definition MinTakeoverDays : Z := 7.
Definition MaxTakeoverDays : Z := 365.

Record TakeoverReason : Type := mkReason { Code : string; Label : string; Days : Z }.

Definition TakeoverReasons : list TakeoverReason :=
  [mkReason "vacation" "Vacation" 30;
   mkReason "parental_leave" "Parental leave (maternity or paternity)" 180;
   mkReason "medical_leave" "Medical or convalescence leave" 90;
   mkReason "left_employment" "No longer an employee" 7;
   mkReason "other" "Other" 30].

Definition MaxTakeoverNoteLength : Z := 500.

Definition takeoverReason (code : string) : option TakeoverReason :=
  List.find (fun r => String.eqb (Code r) code) TakeoverReasons.

Definition reasonLabel (code : string) : string :=
  match takeoverReason code with
  | Some r => Label r
  | None => code
  end.

(** ** Times *)

(** The latest of the stamps that parse, or the zero time. *)
Definition laterStamp (stamps : list Stamp) : Time :=
  foldl (fun latest s => match parse_stamp s with
                         | Some t => if Before latest t then t else latest
                         | None => latest
                         end) zero_time stamps.

Definition hour_ns : Z := 3600 * 10 ^ 9.

(** [now.Sub(t)] saturates at the ends of [time.Duration]. *)
Definition time_Sub (a b : Time) : Z := Z.max min_int64 (Z.min max_int64 (a - b)).

Definition Hours (d : Z) : f64 :=
  f_of_Z (Z.quot d hour_ns) ⊕ (f_of_Z (Z.rem d hour_ns) ⊘ f_of_Z hour_ns).

Definition wholeDaysSince (t now : Time) : Z :=
  if (t =? zero_time) || negb (Before t now) then 0
  else f_to_int (Hours (time_Sub now t) ⊘ f_of_Z 24).

Section accounts.
Context `{Env} `{RangeOrder}.

Definition recordAccountEvent (actor username action detail : string) : Tx unit :=
  do! tx_guard (bool_decide (action ∈ accountEventActions)) (ErrUnknownAction action) ;;
  t <-- nowStamp ;;
  exec (sql_insert_event t actor username action detail).

(** ** Roles *)

Definition enabledAdminCount : Tx Z := query sql_count_admins.

(** [is_admin, disabled] of [username]. *)
Definition accountRole (username : string) : Tx (bool * bool) :=
  tx_try (query_row (fun d => (fun r => (is_admin r, disabled r)) <$> users d !! username))
    (fun r => match r with
              | Err ErrNoRows => tx_fail ErrNoSuchUser
              | r => tx_of r
              end).

Definition guardLastEnabledAdmin (isAdmin off : bool) : Tx unit :=
  if negb isAdmin || off then tx_ret ()
  else n <-- enabledAdminCount ;; tx_guard (negb (n <=? 1)) ErrLastAdmin.

Definition requireEnabledAdmin (actor : string) : Tx unit :=
  tx_try (accountRole actor) (fun r =>
    match r with
    | Err ErrNoSuchUser => tx_fail ErrNotAdmin
    | Err e => tx_fail e
    | Ok (isAdmin, off) => tx_guard (negb (negb isAdmin || off)) ErrNotAdmin
    end).

(** The loop over the enabled administrators' rows. *)
Definition earlier_admin (best : string * Time) (row : string * User) : string * Time :=
  let at_ := default zero_time (parse_stamp (created_at row.2)) in
  if String.eqb best.1 EmptyString || Before at_ best.2
     || ((at_ =? best.2) && String.ltb row.1 best.1)
  then (row.1, at_) else best.

(** Range site 16: the rows come in an unspecified order. *)
Definition earliestEnabledAdmin : Tx string :=
  rows <-- query (fun d => List.filter (fun ur => enabled_admin ur.2) (range 16 (users d))) ;;
  tx_ret (foldl earlier_admin (EmptyString, zero_time) rows).1.

Definition assign_super (current : string) : Tx string :=
  chosen <-- earliestEnabledAdmin ;;
  if String.eqb chosen EmptyString then tx_ret EmptyString
  else
    t <-- nowStamp ;;
    do! exec (sql_upsert_super chosen t) ;;
    do! recordAccountEvent chosen chosen AccountSuperAssigned
      (if String.eqb current EmptyString then "the earliest administrator"
       else "the earliest administrator, since " +:+ current
            +:+ " is no longer an administrator who can sign in") ;;
    tx_ret chosen.

Definition ensureSuperTx : Tx string :=
  current <-- tx_try (query_row (fun d => fst <$> super_admin d)) (fun r =>
    match r with
    | Err ErrNoRows => tx_ret EmptyString
    | r => tx_of r
    end) ;;
  if String.eqb current EmptyString then assign_super current
  else tx_try (requireEnabledAdmin current) (fun r =>
    match r with
    | Ok _ => tx_ret current
    | Err ErrNotAdmin => assign_super current
    | Err e => tx_fail e
    end).

Definition requireSuperTx (actor : string) : Tx unit :=
  do! requireEnabledAdmin actor ;;
  super <-- ensureSuperTx ;;
  tx_guard (String.eqb super actor) ErrNotSuper.

Definition requireAccountActionTx (actor username : string) (targetIsAdmin : bool) : Tx unit :=
  if negb targetIsAdmin then requireEnabledAdmin actor
  else
    do! requireSuperTx actor ;;
    tx_guard (negb (String.eqb username actor)) ErrTargetIsSuper.

Definition RequireSuper (actor : string) : Tx unit := inWriteTx (requireSuperTx actor).

(** ** The administrator key: who holds it, and its pending replacement *)

Definition activeEscrowKey : Tx (option (string * string)) := query sql_active_key.

Definition markRotationPendingTx (reason : string) : Tx unit :=
  key <-- activeEscrowKey ;;
  match key with
  | None => tx_ret ()
  | Some _ => t <-- nowStamp ;; exec (sql_upsert_pending reason t)
  end.

Definition rotationPendingTx : Tx string :=
  tx_try (query_row (fun d => fst <$> escrow_rotation_pending d)) (fun r =>
    match r with
    | Err ErrNoRows => tx_ret EmptyString
    | r => tx_of r
    end).

Definition holdsAnyGrantTx (username : string) : Tx bool :=
  query (fun d => bool_decide (is_Some (escrow_grants d !! username))).

Definition holdsActiveGrantTx (username : string) : Tx bool := query (sql_holds_active_grant username).

Definition removeGrantTx (admin : string) : Tx unit :=
  exec (fun d => Some (sql_delete_grant admin d).2).

Definition revokeGrantTx (username reason : string) : Tx unit :=
  held <-- holdsAnyGrantTx username ;;
  if negb held then tx_ret ()
  else do! removeGrantTx username ;; markRotationPendingTx reason.

(** ** The standby and the protection after a takeover *)

Definition clearStandbyTx (actor username detail : string) : Tx unit :=
  t <-- nowStamp ;;
  n <-- statement (fun d => Some (sql_clear_standby username t d)) ;;
  tx_when (0 <? n) (recordAccountEvent actor username AccountStandbyRemoved detail).

(** The protection of [username] that has not ended at [now]. *)
Definition protectionTx (username : string) (now : Time) : Tx (option (string * string * Time)) :=
  tx_try (query_row (fun d => (fun r => (pr_reason r, protected_until r)) <$>
                                takeover_protection d !! username)) (fun r =>
    match r with
    | Err ErrNoRows => tx_ret None
    | Err e => tx_fail e
    | Ok (reason, until) =>
        tx_ret (match parse_stamp until with
                | Some t => if Before now t then Some (username, reasonLabel reason, t) else None
                | None => None
                end)
    end).

Definition requireUnprotectedTx (username : string) : Tx unit :=
  now <-- tx_now ;;
  p <-- protectionTx username now ;;
  match p with
  | Some (u, reason, until) => tx_fail (ProtectionError u reason until)
  | None => tx_ret ()
  end.

Definition clearProtectionTx (username : string) : Tx unit :=
  exec (sql_delete_protection username).

Record successionState : Type := mkSuccessionState {
  ss_super : string;
  ss_standby : string;
  ss_days : Z;
  ss_lastActive : Time;
  ss_standbyLastActive : Time;
  ss_standbyNamedAt : Stamp
}.

Definition last_login_of (u : string) (d : SystemDB) : option Stamp := last_login <$> users d !! u.

(** The standby of the row, cleared when it is the super administrator or no
    enabled administrator; its last activity otherwise. *)
Definition read_standby (super standby : string) (namedAt : Stamp) : Tx (string * Time) :=
  if String.eqb standby EmptyString then tx_ret (EmptyString, zero_time)
  else tx_try (requireEnabledAdmin standby) (fun r =>
    if String.eqb standby super then
      do! clearStandbyTx super super "became the super administrator" ;;
      tx_ret (EmptyString, zero_time)
    else match r with
    | Err ErrNotAdmin =>
        do! revokeGrantTx standby (standby +:+ " is no longer an administrator who can sign in") ;;
        do! clearStandbyTx super standby "no longer an administrator who can sign in" ;;
        tx_ret (EmptyString, zero_time)
    | Err e => tx_fail e
    | Ok _ =>
        lastLogin <-- query_row (last_login_of standby) ;;
        tx_ret (standby, laterStamp [lastLogin; namedAt])
    end).

(** Last activity of the super administrator. *)
Definition read_super_activity (super : string) : Tx Time :=
  if String.eqb super EmptyString then tx_ret zero_time
  else
    la <-- query_row (fun d =>
      match super_admin d with
      | Some (u, assigned) => (fun l => (l, assigned)) <$> last_login_of u d
      | None => None
      end) ;;
    tx_ret (laterStamp [la.1; la.2]).

Definition readSuccessionTx : Tx successionState :=
  super <-- ensureSuperTx ;;
  row <-- tx_try (query_row super_succession) (fun r =>
    match r with
    | Err ErrNoRows => tx_ret (EmptyString, DefaultTakeoverDays, Blank)
    | Err e => tx_fail e
    | Ok s => tx_ret (default EmptyString (standby s), takeover_days s, standby_named_at s)
    end) ;;
  let days := Z.min (Z.max row.1.2 MinTakeoverDays) MaxTakeoverDays in
  sb <-- read_standby super row.1.1 row.2 ;;
  lastActive <-- read_super_activity super ;;
  tx_ret (mkSuccessionState super sb.1 days lastActive sb.2 row.2).

(** Why [actor], an enabled administrator, cannot take over at [now]. *)
Definition takeoverRefusal (st : successionState) (actor : string) (now : Time)
    : option UserError :=
  if String.eqb (ss_super st) EmptyString || String.eqb actor (ss_super st) then Some ErrTargetIsSuper
  else if negb (String.eqb (ss_standby st) EmptyString) && negb (String.eqb actor (ss_standby st))
          && Before now (AddDays (ss_standbyLastActive st) (ss_days st)) then Some ErrNotStandby
  else if Before now (AddDays (ss_lastActive st) (ss_days st)) then Some ErrTakeoverNotDue
  else None.

Definition requirePersonalKeyTx (username : string) : Tx unit :=
  has <-- query (fun d => bool_decide (is_Some (personal_keys d !! username))) ;;
  tx_guard has ErrNoPersonalKey.

(** ** Changing roles and status *)

Definition setDisabledTx (actor username : string) (off : bool) : Tx unit :=
  do! requireEnabledAdmin actor ;;
  role <-- accountRole username ;;
  let (isAdmin, current) := role in
  do! requireAccountActionTx actor username isAdmin ;;
  if Bool.eqb current off then tx_ret ()
  else
    do! tx_when off (
      do! requireUnprotectedTx username ;;
      do! guardLastEnabledAdmin isAdmin current ;;
      do! revokeGrantTx username (username +:+ " was disabled") ;;
      clearStandbyTx actor username "disabled") ;;
    do! exec (sql_update_user username (with_disabled off)) ;;
    recordAccountEvent actor username (if off then AccountDisabled else AccountEnabled) EmptyString.

Definition SetDisabled (actor username : string) (off : bool) : Tx unit :=
  inWriteTx (setDisabledTx actor username off).

Definition SetAdmin (actor username : string) (isAdmin : bool) : Tx unit :=
  inWriteTx (
    do! requireEnabledAdmin actor ;;
    role <-- accountRole username ;;
    let (targetIsAdmin, targetDisabled) := role in
    if Bool.eqb targetIsAdmin isAdmin then tx_ret ()
    else
      do! requireAccountActionTx actor username true ;;
      do! tx_when (negb isAdmin) (
        do! requireUnprotectedTx username ;;
        do! guardLastEnabledAdmin targetIsAdmin targetDisabled ;;
        do! revokeGrantTx username (username +:+ " is no longer an administrator") ;;
        clearStandbyTx actor username "no longer an administrator") ;;
      do! exec (sql_update_user username (with_admin isAdmin)) ;;
      recordAccountEvent actor username (if isAdmin then AccountPromoted else AccountDemoted)
        EmptyString).

Definition ClaimAdmin (username : string) : Tx unit :=
  inWriteTx (
    n <-- enabledAdminCount ;;
    do! tx_guard (negb (0 <? n)) ErrAdminExists ;;
    role <-- accountRole username ;;
    do! tx_guard (negb role.2) ErrAccountDisabled ;;
    do! exec (sql_update_user username (with_admin true)) ;;
    do! recordAccountEvent username username AccountPromoted
      "claimed with no administrator on the machine" ;;
    do! ensureSuperTx ;;
    tx_ret ()).

Definition PromoteAdmin (actor username : string) : Tx unit :=
  inWriteTx (
    do! requireSuperTx actor ;;
    role <-- accountRole username ;;
    if role.1 : bool then tx_ret ()
    else
      do! requirePersonalKeyTx username ;;
      do! exec (sql_update_user username (with_admin true)) ;;
      recordAccountEvent actor username AccountPromoted EmptyString).

(** ** Deleting an account *)

(** SELECT COUNT( * ) FROM users WHERE lower(username) = lower(?) AND username <> ? *)
Definition case_variants (username : string) (d : SystemDB) : bool :=
  existsb (fun ur => String.eqb (sqlite_lower ur.1) (sqlite_lower username)
                     && negb (String.eqb ur.1 username)) (map_to_list (users d)).

(** A file-system operation, which may fail. *)
Definition tx_folder (f : gset string -> gset string) : Tx unit := fun c =>
  let c' := mkConn (db c) (folders c) (ticks c) (draws c) (statements c) (S (folder_ops c))
                   (captured c) in
  if folder_fails (folder_ops c) then (Err ErrFolder, c') else (Ok (), set_folders (f (folders c)) c').

(** [os.RemoveAll] of the account's folder. *)
Definition tx_RemoveAll (username : string) : Tx unit := tx_folder (fun fs => fs ∖ {[username]}).

Definition purgeAccountTx (actor username : string) : Tx unit :=
  do! requireEnabledAdmin actor ;;
  role <-- accountRole username ;;
  let (isAdmin, off) := role in
  do! requireAccountActionTx actor username isAdmin ;;
  variants <-- query (case_variants username) ;;
  do! tx_guard (negb variants) ErrFolderShared ;;
  do! requireUnprotectedTx username ;;
  do! guardLastEnabledAdmin isAdmin off ;;
  do! clearStandbyTx actor username "deleted" ;;
  do! revokeGrantTx username (username +:+ " was deleted") ;;
  do! exec (sql_delete_user username) ;;
  recordAccountEvent actor username AccountPurged EmptyString.

(** [detail] is the text of the file-system error. *)
Definition PurgeAccount (actor username detail : string) : Tx unit :=
  if existsb (EqualFold username) reservedFolderNames then tx_fail ErrReservedUsername
  else if negb (ValidateUsername username) then tx_fail ErrNoSuchUser
  else
    do! inWriteTx (purgeAccountTx actor username) ;;
    tx_try (tx_RemoveAll username) (fun r =>
      match r with
      | Ok _ => tx_ret ()
      | Err _ =>
          tx_try (inWriteTx (recordAccountEvent actor username AccountFolderNotRemoved detail))
            (fun _ => tx_fail ErrPurgeIncomplete)
      end).

End accounts.
