(* ===== verification/Escrow.v ===== *)
(** * Administrator escrow: enrollment, grants and rotation
      (users/escrow_enroll.go, users/escrow_rotation.go, users/escrow_new_key.go)

    An account enrolls with a personal key pair, a pin of the escrow key and its
    data key (DEK) sealed to that key; a grant is the escrow private key sealed
    to an administrator's personal key.  Rotation replaces the escrow key. *)

From S2P Require Import Prelude GoStrings GoTime EscrowCrypto SystemDb Accounts.

Local Open Scope string_scope.
Local Open Scope Z_scope.

Record EscrowSession : Type := mkSession {
  es_id : string;
  es_public : string;
  es_private : string
}.

Section escrow_ops.
Context `{Env} `{RangeOrder} `{Primitives}.

(** A random 32-byte seed for the key-pair generator or a seal. *)
Definition tx_seed : Tx string := tx_rand 32.

Definition tx_keypair : Tx (string * string) :=
  seed <-- tx_seed ;; tx_crypto (GenerateEscrowKeyPair seed).

Definition NewEscrowKeyID : Tx string := b <-- tx_rand 16 ;; tx_ret (hex_encode b).

(** A row that may be missing. *)
Definition optional_row {A} (f : SystemDB -> option A) : Tx (option A) :=
  tx_try (query_row f) (fun r =>
    match r with
    | Ok a => tx_ret (Some a)
    | Err ErrNoRows => tx_ret None
    | Err e => tx_fail e
    end).

(** ** Personal keys *)

Definition new_personal_key (username dek : string) (existed : bool) : Tx (bool * string) :=
  pair <-- tx_keypair ;;
  nonce <-- tx_rand nonceSize ;;
  wrapped <-- tx_crypto (WrapPersonalKey nonce dek username pair.1) ;;
  t <-- nowStamp ;;
  do! exec (sql_insert_personal username pair.2 wrapped t) ;;
  tx_ret (existed, pair.2).

(** Whether a key existed before, and the public key. *)
Definition ensurePersonalKey (username dek : string) : Tx (bool * string) :=
  row <-- optional_row (fun d => personal_keys d !! username) ;;
  match row with
  | None => new_personal_key username dek false
  | Some k =>
      match UnwrapPersonalKey dek username (wrapped_private_key k) with
      | Ok private =>
          derived <-- tx_crypto (EscrowPublicKey private) ;;
          do! tx_when (negb (String.eqb derived (pk_public_key k))) (
            do! exec (sql_repair_personal username derived) ;;
            recordAccountEvent username username AccountPersonalKeyRepaired EmptyString) ;;
          tx_ret (true, derived)
      | Err _ =>
          do! exec (sql_delete_personal username) ;;
          do! recordAccountEvent username username AccountPersonalKeyRepaired
            "the stored key could not be opened, so a new one was made" ;;
          new_personal_key username dek true
      end
  end.

Definition attestTx (session : EscrowSession) (username personalPublic : string) : Tx unit :=
  a <-- tx_crypto (Attestation (es_private session) username personalPublic) ;;
  exec (sql_attest username a (es_id session)).

(** ** Enrollment *)

(** Seal the DEK to [key] unless it is sealed to it already, and attest. *)
Definition enroll_seal (username dek : string) (key : string * string)
    (session : option EscrowSession) (personalPublic : string) : Tx (option string) :=
  sealed <-- optional_row (fun d => sd_key_id <$> sealed_deks d !! username) ;;
  do! tx_when (negb (String.eqb (default EmptyString sealed) key.1)) (
    seed <-- tx_seed ;;
    s <-- tx_crypto (SealDEK seed key.2 key.1 username dek) ;;
    t <-- nowStamp ;;
    exec (sql_upsert_sealed username key.1 s t)) ;;
  do! match session with
      | Some ses => attestTx ses username personalPublic
      | None => tx_ret ()
      end ;;
  tx_ret (Some personalPublic).

(** The account's personal public key, or [None] when nothing was enrolled. *)
Definition enrollTx (username dek : string) (session : option EscrowSession)
    : Tx (option string) :=
  active <-- activeEscrowKey ;;
  match active with
  | None => tx_ret None
  | Some act =>
      let session := match session with
                     | Some s => if String.eqb (es_id s) act.1 then Some s else None
                     | None => None
                     end in
      let key := match session with
                 | Some s => (es_id s, es_public s)
                 | None => act
                 end in
      pk <-- ensurePersonalKey username dek ;;
      pin <-- optional_row (fun d => escrow_pins d !! username) ;;
      match pin with
      | Some p =>
          ok <-- (if String.eqb (pin_key_id p) key.1
                  then tx_crypto (VerifyEscrowPin dek username key.1 key.2 (pin_mac p))
                  else tx_ret false) ;;
          if negb ok then
            do! recordAccountEvent username username AccountEscrowKeyMismatch
              "the administrator key in system.db is not the one this account trusts, so nothing was sealed" ;;
            tx_ret None
          else
            do! tx_when (negb pk.1)
              (recordAccountEvent username username AccountEscrowReenrolled EmptyString) ;;
            enroll_seal username dek key session pk.2
      | None =>
          mac <-- tx_crypto (EscrowPin dek username key.1 key.2) ;;
          do! exec (sql_insert_pin username key.1 mac) ;;
          do! tx_when pk.1
            (recordAccountEvent username username AccountEscrowReenrolled EmptyString) ;;
          enroll_seal username dek key session pk.2
      end
  end.

(** A failed enrollment is rolled back to the savepoint and reported. *)
Definition enrollInSavepoint (username dek : string) (session : option EscrowSession) : Tx unit :=
  out <-- in_savepoint (enrollTx username dek session) ;;
  match out with
  | (Err e, _) => tx_fail e
  | (Ok _, SpDone) => tx_ret ()
  | (Ok _, _) => tx_fail ErrSql
  end.

Definition EnrollSession (username dek : string) : Tx unit :=
  inWriteTx (do! enrollTx username dek None ;; tx_ret ()).

(** ** Grants *)

Definition grantTx (session : EscrowSession) (admin personalPublic : string) : Tx unit :=
  if String.eqb personalPublic EmptyString then tx_fail ErrNoPersonalKey
  else
    seed <-- tx_seed ;;
    sealed <-- tx_crypto (SealGrant seed personalPublic (es_id session) admin (es_private session)) ;;
    t <-- nowStamp ;;
    exec (sql_upsert_grant admin (es_id session) sealed t).

Definition unusable_grant {A} (admin detail : string) : Tx A :=
  do! exec (fun d => Some (sql_delete_grant admin d).2) ;;
  do! recordAccountEvent admin admin AccountEscrowKeyMismatch detail ;;
  tx_fail ErrEscrowMismatch.

Definition verified (r : result CryptoError bool) : bool :=
  match r with
  | Ok ok => ok
  | Err _ => false
  end.

(** The escrow key a grant opens to, when the administrator's pin trusts it. *)
Definition pinned_session (dek admin activeID private : string) (pin : PinRow)
    : option EscrowSession :=
  match EscrowPublicKey private with
  | Ok public =>
      if String.eqb (pin_key_id pin) activeID
         && verified (VerifyEscrowPin dek admin activeID public (pin_mac pin))
      then Some (mkSession activeID public private) else None
  | Err _ => None
  end.

(** SELECT sealed FROM escrow_grants WHERE admin_username = ? AND escrow_key_id = ? *)
Definition grant_for (admin id : string) (d : SystemDB) : option string :=
  match escrow_grants d !! admin with
  | Some g => if String.eqb (gr_key_id g) id then Some (gr_sealed g) else None
  | None => None
  end.

Definition openGrantTx (admin dek : string) : Tx EscrowSession :=
  active <-- activeEscrowKey ;;
  match active with
  | None => tx_fail ErrNoEscrowGrant
  | Some act =>
      rows <-- optional_row (fun d => sealed ← grant_for admin act.1 d;
        personal ← personal_keys d !! admin; pin ← escrow_pins d !! admin;
        Some (sealed, wrapped_private_key personal, pin)) ;;
      match rows with
      | None => tx_fail ErrNoEscrowGrant
      | Some (grant, wrapped, pin) =>
          match UnwrapPersonalKey dek admin wrapped with
          | Err _ => unusable_grant admin
              "this administrator's account key does not open, so their copy of the administrator key was removed"
          | Ok personal =>
              match OpenGrant personal act.1 admin grant with
              | Err _ => unusable_grant admin
                  "this administrator's copy of the administrator key does not open and was removed"
              | Ok private =>
                  match pinned_session dek admin act.1 private pin with
                  | Some session => tx_ret session
                  | None => unusable_grant admin
                      "this administrator's copy of the administrator key is not the real one and was removed"
                  end
              end
          end
      end
  end.

(** [openGrantTx] of a caller that goes on without the key: [None] when there is
    no grant or it cannot be used. *)
Definition try_open_grant (admin dek : string) : Tx (option EscrowSession) :=
  tx_try (openGrantTx admin dek) (fun r =>
    match r with
    | Ok session => tx_ret (Some session)
    | Err ErrNoEscrowGrant | Err ErrEscrowMismatch => tx_ret None
    | Err e => tx_fail e
    end).

(** The mismatch is committed with the transaction, then reported. *)
Definition OpenEscrow (admin dek : string) : Tx EscrowSession :=
  tx_try (inWriteTx (tx_try (openGrantTx admin dek) (fun r =>
      match r with
      | Err ErrEscrowMismatch => tx_ret (Err ErrEscrowMismatch)
      | Err e => tx_fail e
      | Ok session => tx_ret (Ok session)
      end))) (fun r =>
    match r with
    | Ok out => tx_of out
    | Err e => tx_fail e
    end).

Definition attestAndGrantTx (session : EscrowSession) (actor username public a attestedKeyID : string)
    : Tx unit :=
  do! (if String.eqb attestedKeyID (es_id session) then
         ok <-- tx_crypto (VerifyAttestation (es_private session) username public a) ;;
         tx_guard ok ErrPersonalKeyNotAttested
       else
         do! attestTx session username public ;;
         recordAccountEvent actor username AccountPersonalKeyTrusted EmptyString) ;;
  grantTx session username public.

Definition passKeyTx (actor actorDEK target : string) : Tx bool :=
  active <-- activeEscrowKey ;;
  match active with
  | None => tx_ret false
  | Some _ =>
      opened <-- try_open_grant actor actorDEK ;;
      match opened with
      | None => tx_ret false
      | Some session =>
          k <-- query_row (fun d => personal_keys d !! target) ;;
          do! attestAndGrantTx session actor target (pk_public_key k) (attestation k)
                               (attested_escrow_key_id k) ;;
          tx_ret true
      end
  end.

Definition removeSubordinateGrantTx (admin : string) : Tx unit :=
  n <-- statement (fun d => Some (sql_delete_grant admin d)) ;;
  tx_when (0 <? n) (
    do! recordAccountEvent admin admin AccountEscrowKeyMismatch
      "a subordinate administrator held the administrator key; it was removed" ;;
    markRotationPendingTx ("a subordinate administrator, " +:+ admin
      +:+ ", held the administrator key")).

(** ** Rotation *)

Definition sealed_mismatch : string :=
  "the account's sealed key does not open with the administrator key; it is sealed again at the account's next sign-in".

Definition attest_mismatch : string :=
  "the account key is not the one an administrator checked".

(** One row of the re-sealing loop; counts the accounts sealed to the new key. *)
Definition reseal_row (old next : EscrowSession) (now : Stamp) (resealed : Z)
    (row : string * SealedRow) : Tx Z :=
  match OpenDEK (es_private old) (es_id old) row.1 (sd_sealed row.2) with
  | Err _ =>
      do! recordAccountEvent row.1 row.1 AccountEscrowKeyMismatch sealed_mismatch ;;
      tx_ret resealed
  | Ok dek =>
      seed <-- tx_seed ;;
      sealed <-- tx_crypto (SealDEK seed (es_public next) (es_id next) row.1 dek) ;;
      mac <-- tx_crypto (EscrowPin dek row.1 (es_id next) (es_public next)) ;;
      do! exec (sql_update_sealed row.1 (es_id next) sealed now) ;;
      do! exec (sql_upsert_pin row.1 (es_id next) mac) ;;
      tx_ret (resealed + 1)
  end.

(** The accounts re-sealed, and those that enroll again (range site 17). *)
Definition resealTx (old next : EscrowSession) : Tx (Z * Z) :=
  rows <-- query (fun d => List.filter (fun us => String.eqb (sd_key_id us.2) (es_id old))
                                       (range 17 (sealed_deks d))) ;;
  now <-- nowStamp ;;
  resealed <-- tx_fold (reseal_row old next now) 0 rows ;;
  stale <-- statement (fun d => Some (sql_delete_stale_pins (es_id next) d)) ;;
  do! exec (sql_delete_stale_sealed (es_id next)) ;;
  tx_ret (resealed, stale).

Definition reattest_row (old next : EscrowSession) (row : string * PersonalKeyRow) : Tx unit :=
  ok <-- tx_crypto (VerifyAttestation (es_private old) row.1 (pk_public_key row.2)
                                      (attestation row.2)) ;;
  if negb ok then
    do! recordAccountEvent row.1 row.1 AccountEscrowKeyMismatch attest_mismatch ;;
    exec (sql_mark_attested row.1 (es_id next))
  else attestTx next row.1 (pk_public_key row.2).

(** Rows of the personal keys attested by [id] (range sites 18 and 19). *)
Definition attested_rows (site : nat) (id : string) (d : SystemDB) : list (string * PersonalKeyRow) :=
  List.filter (fun uk => String.eqb (attested_escrow_key_id uk.2) id) (range site (personal_keys d)).

Definition reattestTx (old next : EscrowSession) : Tx unit :=
  rows <-- query (attested_rows 18 (es_id old)) ;;
  tx_each rows (reattest_row old next).

Definition add_recipient (recipients : list string) (name : string) : list string :=
  if negb (String.eqb name EmptyString) && negb (bool_decide (name ∈ recipients))
  then recipients ++ [name] else recipients.

Definition grant_recipient (next : EscrowSession) (actor name : string) : Tx unit :=
  row <-- optional_row (fun d => personal_keys d !! name) ;;
  match row with
  | None => if String.eqb name actor then tx_fail ErrNoPersonalKey else tx_ret ()
  | Some k =>
      tx_try (attestAndGrantTx next actor name (pk_public_key k) (attestation k)
                               (attested_escrow_key_id k)) (fun r =>
        match r with
        | Ok _ => tx_ret ()
        | Err ErrPersonalKeyNotAttested =>
            if String.eqb name actor then tx_fail ErrPersonalKeyNotAttested
            else recordAccountEvent actor name AccountEscrowKeyMismatch
              "the account key is not the one an administrator checked, so it was not given the new administrator key"
        | Err e => tx_fail e
        end)
  end.

Definition rotated_detail (reason : string) (res : Z * Z) : string :=
  reason +:+ "; " +:+ Itoa res.1 +:+ " accounts sealed to the new key"
  +:+ (if 0 <? res.2 then "; " +:+ Itoa res.2 +:+ " sealed again at their next sign-in"
       else EmptyString).

Definition rotateTx (old : EscrowSession) (actor actorDEK : string) (keep : list string)
    (reason : string) : Tx (EscrowSession * (Z * Z)) :=
  id <-- NewEscrowKeyID ;;
  pair <-- tx_keypair ;;
  let next := mkSession id pair.2 pair.1 in
  now <-- tx_now ;;
  do! exec (sql_retire_key (es_id old) (At now)) ;;
  do! exec (sql_insert_key id pair.2 (At now)) ;;
  res <-- resealTx old next ;;
  do! reattestTx old next ;;
  do! exec sql_delete_all_grants ;;
  do! tx_each (foldl add_recipient [actor] keep) (grant_recipient next actor) ;;
  do! openGrantTx actor actorDEK ;;
  do! exec sql_delete_pending ;;
  do! exec (fun d => Some (sql_delete_recovery d).2) ;;
  do! recordAccountEvent actor actor AccountEscrowRotated (rotated_detail reason res) ;;
  tx_ret (next, res).

(** A rotation that fails is rolled back to the savepoint and stays pending. *)
Definition rotateInSavepointTx (old : EscrowSession) (actor actorDEK : string) (keep : list string)
    (reason : string) : Tx (option EscrowSession) :=
  out <-- in_savepoint (rotateTx old actor actorDEK keep reason) ;;
  match out with
  | (Ok (next, _), SpDone) => tx_ret (Some next)
  | (Ok _, _) => tx_fail ErrSql
  | (Err _, SpDone) => do! markRotationPendingTx reason ;; tx_ret None
  | (Err e, _) => tx_fail e
  end.

Definition rotateWithOwnKeyTx (actor actorDEK : string) (keep : list string) (reason : string)
    : Tx unit :=
  opened <-- try_open_grant actor actorDEK ;;
  match opened with
  | None => markRotationPendingTx reason
  | Some session => do! rotateInSavepointTx session actor actorDEK keep reason ;; tx_ret ()
  end.

Definition rotatorTx (actor : string) : Tx bool :=
  st <-- readSuccessionTx ;;
  if String.eqb actor (ss_super st) then tx_ret true
  else if negb (String.eqb actor (ss_standby st)) || String.eqb (ss_super st) EmptyString
  then tx_ret false
  else superHolds <-- holdsAnyGrantTx (ss_super st) ;; tx_ret (negb superHolds).

(** The session to use afterwards. *)
Definition runPendingRotationTx (session : EscrowSession) (actor actorDEK : string)
    : Tx EscrowSession :=
  reason <-- rotationPendingTx ;;
  if String.eqb reason EmptyString then tx_ret session
  else
    ok <-- rotatorTx actor ;;
    if negb ok then tx_ret session
    else next <-- rotateInSavepointTx session actor actorDEK [] reason ;; tx_ret (default session next).

Definition RunPendingRotation (actor dek : string) : Tx unit :=
  inWriteTx (
    reason <-- rotationPendingTx ;;
    if String.eqb reason EmptyString then tx_ret ()
    else
      opened <-- try_open_grant actor dek ;;
      match opened with
      | None => tx_ret ()
      | Some session => do! runPendingRotationTx session actor dek ;; tx_ret ()
      end).

(** A call that found no usable key commits what it recorded, then reports
    [ErrNoEscrowGrant]. *)
Definition or_no_grant {A} (m : Tx (option A)) : Tx A :=
  out <-- inWriteTx m ;;
  match out with
  | Some a => tx_ret a
  | None => tx_fail ErrNoEscrowGrant
  end.

Definition ReplaceEscrowKey (actor dek keepStandby : string) : Tx (Z * Z) :=
  or_no_grant (
    do! requireSuperTx actor ;;
    do! (if negb (String.eqb keepStandby EmptyString) then
           st <-- readSuccessionTx ;;
           tx_guard (String.eqb keepStandby (ss_standby st)) ErrStandbyChanged
         else tx_ret ()) ;;
    opened <-- try_open_grant actor dek ;;
    match opened with
    | None => tx_ret None
    | Some session =>
        out <-- rotateTx session actor dek [keepStandby] "replaced by the super administrator" ;;
        tx_ret (Some out.2)
    end).

(** ** An administrator's session *)

Definition bootstrapTx (admin dek : string) : Tx unit :=
  id <-- NewEscrowKeyID ;;
  pair <-- tx_keypair ;;
  let session := mkSession id pair.2 pair.1 in
  t <-- nowStamp ;;
  do! exec (sql_insert_key id pair.2 t) ;;
  personal <-- enrollTx admin dek (Some session) ;;
  grantTx session admin (default EmptyString personal).

Definition check_attested (session : EscrowSession) (row : string * PersonalKeyRow) : Tx unit :=
  ok <-- tx_crypto (VerifyAttestation (es_private session) row.1 (pk_public_key row.2)
                                      (attestation row.2)) ;;
  tx_when (negb ok) (recordAccountEvent row.1 row.1 AccountEscrowKeyMismatch attest_mismatch).

Definition drop_sealed (username : string) : Tx unit :=
  do! exec (sql_delete_sealed username) ;;
  do! exec (sql_delete_pin username) ;;
  recordAccountEvent username username AccountEscrowKeyMismatch sealed_mismatch.

(** Accounts whose DEK does not open with the session's key (range site 20). *)
Definition unopened (session : EscrowSession) (d : SystemDB) : list string :=
  fst <$> List.filter (fun us => String.eqb (sd_key_id us.2) (es_id session)
                        && negb (is_ok (OpenDEK (es_private session) (es_id session) us.1
                                                (sd_sealed us.2))))
                      (range 20 (sealed_deks d)).

Definition checkSealedDEKsTx (session : EscrowSession) : Tx unit :=
  bad <-- query (unopened session) ;;
  tx_each bad drop_sealed.

Definition adminDutiesTx (session : EscrowSession) : Tx unit :=
  rows <-- query (attested_rows 19 (es_id session)) ;;
  do! tx_each rows (check_attested session) ;;
  checkSealedDEKsTx session.

(** The super administrator's part of a sign-in. *)
Definition super_session (admin dek : string) : Tx unit :=
  keys <-- query (fun d => Z.of_nat (size (escrow_keys d))) ;;
  if keys =? 0 then bootstrapTx admin dek
  else
    active <-- activeEscrowKey ;;
    match active with
    | None => recordAccountEvent admin admin AccountEscrowKeyMismatch
        "system.db has no current administrator key"
    | Some _ =>
        do! enrollTx admin dek None ;;
        opened <-- try_open_grant admin dek ;;
        match opened with
        | None => tx_ret ()
        | Some session =>
            session <-- runPendingRotationTx session admin dek ;;
            adminDutiesTx session
        end
    end.

(** The standby's part. *)
Definition standby_session (admin dek : string) : Tx unit :=
  do! enrollTx admin dek None ;;
  opened <-- try_open_grant admin dek ;;
  match opened with
  | None => tx_ret ()
  | Some session => do! runPendingRotationTx session admin dek ;; tx_ret ()
  end.

Definition enrollAdminSessionTx (admin dek : string) : Tx unit :=
  tx_try (requireEnabledAdmin admin) (fun r =>
    match r with
    | Err ErrNotAdmin => do! enrollTx admin dek None ;; tx_ret ()
    | Err e => tx_fail e
    | Ok _ =>
        st <-- readSuccessionTx ;;
        if String.eqb admin (ss_standby st) then standby_session admin dek
        else if negb (String.eqb admin (ss_super st)) then
          do! removeSubordinateGrantTx admin ;;
          do! enrollTx admin dek None ;;
          tx_ret ()
        else super_session admin dek
    end).

Definition EnrollAdminSession (admin dek : string) : Tx unit :=
  inWriteTx (enrollAdminSessionTx admin dek).

(** ** A new key when nobody holds the old one *)

Definition MaxNewKeyReasonLength : Z := 500.

(** The first other enabled administrator holding a grant of the active key. *)
Definition other_holder (actor : string) (d : SystemDB) : option string :=
  head (sort_strings (List.filter (fun u => negb (String.eqb u actor)
    && sql_holds_active_grant u d
    && match users d !! u with Some r => enabled_admin r | None => false end)
    (map_to_list (escrow_grants d)).*1)).

Definition newEscrowKeyTx (actor dek reason : string) : Tx Z :=
  id <-- NewEscrowKeyID ;;
  pair <-- tx_keypair ;;
  let session := mkSession id pair.2 pair.1 in
  now <-- tx_now ;;
  do! exec (sql_retire_active (At now)) ;;
  do! exec (sql_insert_key id pair.2 (At now)) ;;
  do! exec sql_delete_all_grants ;;
  do! exec sql_delete_all_sealed ;;
  do! exec (fun d => Some (sql_delete_recovery d).2) ;;
  do! exec sql_delete_pending ;;
  do! exec (sql_delete_other_pins actor) ;;
  mac <-- tx_crypto (EscrowPin dek actor id pair.2) ;;
  do! exec (sql_upsert_pin actor id mac) ;;
  personal <-- enrollTx actor dek (Some session) ;;
  do! grantTx session actor (default EmptyString personal) ;;
  others <-- query (fun d => sort_strings (List.filter (fun u => negb (String.eqb u actor))
                                                       (map_to_list (users d)).*1)) ;;
  do! tx_each others (fun name => recordAccountEvent actor name AccountEscrowKeyNew reason) ;;
  let n := Z.of_nat (length others) in
  do! recordAccountEvent actor actor AccountEscrowKeyNew
    (if n =? 1 then reason +:+ "; 1 account sealed to it at its next sign-in"
     else reason +:+ "; " +:+ Itoa n +:+ " accounts sealed to it at their next sign-in") ;;
  tx_ret n.

Definition CreateNewEscrowKey (actor dek reason0 : string) : Tx Z :=
  let reason := TrimSpace reason0 in
  if String.eqb reason EmptyString then tx_fail ErrNewKeyReasonRequired
  else if MaxNewKeyReasonLength <? RuneCountInString reason then tx_fail ErrNewKeyReasonTooLong
  else inWriteTx (
    do! requireSuperTx actor ;;
    keys <-- query (fun d => Z.of_nat (size (escrow_keys d))) ;;
    do! tx_guard (negb (keys =? 0)) ErrNoEscrowGrant ;;
    opened <-- try_open_grant actor dek ;;
    do! match opened with
        | Some _ => tx_fail ErrHoldsEscrowKey
        | None => tx_ret ()
        end ;;
    holder <-- query (other_holder actor) ;;
    match holder with
    | Some h => st <-- readSuccessionTx ;; tx_fail (KeyHeldError h (String.eqb h (ss_standby st)))
    | None => newEscrowKeyTx actor dek reason
    end).

End escrow_ops.
