(* ===== verification/RecoveryCode.v ===== *)
(** * Administrator key recovery codes (users/escrow_recovery.go)

    The code's base32 text and how a typed one is read back; the transactions
    that make, check and confirm a code and restore the key from it. *)

From S2P Require Import Prelude GoStrings GoTime EscrowCrypto SystemDb Accounts Escrow.

Local Open Scope string_scope.
Local Open Scope Z_scope.

(** ** Base32 without padding *)

Definition base32_digit (n : Z) : ascii := byte_of (if n <? 26 then 65 + n else 24 + n).

Definition base32_value (c : ascii) : option Z :=
  let b := byte_val c in
  if (65 <=? b) && (b <=? 90) then Some (b - 65)
  else if (50 <=? b) && (b <=? 55) then Some (b - 24)
  else None.

(** Five bytes are eight digits, most significant first. *)
Definition encode_group (b : list ascii) : list ascii :=
  let n := foldl (fun acc c => acc * 256 + byte_val c) 0 b in
  (fun k => base32_digit (n / 32 ^ k mod 32)) <$> [7; 6; 5; 4; 3; 2; 1; 0].

Definition decode_group (b : list ascii) : option (list ascii) :=
  n ← foldl (fun acc c => a ← acc; v ← base32_value c; Some (a * 32 + v)) (Some 0) b;
  Some ((fun k => byte_of (n / 256 ^ k mod 256)) <$> [4; 3; 2; 1; 0]).

Definition encode_code (raw : string) : list ascii :=
  let b := bytes_of raw in
  (encode_group (take 5 b) ++ encode_group (take 5 (drop 5 b))
   ++ encode_group (take 5 (drop 10 b)) ++ encode_group (drop 15 b))%list.

Definition decode_code (l : list ascii) : option (list ascii) :=
  a ← decode_group (take 8 l); b ← decode_group (take 8 (drop 8 l));
  c ← decode_group (take 8 (drop 16 l)); d ← decode_group (drop 24 l);
  Some (a ++ b ++ c ++ d)%list.

(** How a code is shown: four groups of eight characters. *)
Definition display_code (raw : string) : string :=
  let e := encode_code raw in
  string_of (take 8 e ++ "-"%char :: take 8 (drop 8 e) ++ "-"%char :: take 8 (drop 16 e)
             ++ "-"%char :: drop 24 e)%list.

(** ** Reading a typed code *)

Definition upper_byte (c : ascii) : ascii :=
  if (97 <=? byte_val c) && (byte_val c <=? 122) then byte_of (byte_val c - 32) else c.

(** [canonicalise]: white space and dashes go, letters become upper case (with
    the two non-ASCII runes whose upper case is ASCII, U+0131 and U+017F).
    Other runes stay as they are: no code contains them. *)
Fixpoint canonical_bytes (fuel : nat) (l : list ascii) : list ascii :=
  match fuel, l with
  | S fuel', a :: rest =>
      match space_len l with
      | S n => canonical_bytes fuel' (drop n rest)
      | O =>
          if byte_val a =? 45 then canonical_bytes fuel' rest
          else match rest with
          | b :: rest' =>
              if (byte_val a =? 196) && (byte_val b =? 177) then "I"%char :: canonical_bytes fuel' rest'
              else if (byte_val a =? 197) && (byte_val b =? 191)
              then "S"%char :: canonical_bytes fuel' rest'
              else upper_byte a :: canonical_bytes fuel' rest
          | [] => [upper_byte a]
          end
      end
  | _, _ => []
  end.

Definition canonicalise (s : string) : list ascii := canonical_bytes (String.length s) (bytes_of s).

(** The replacer: digits a code never contains are read as letters. *)
Definition replace_digit (c : ascii) : ascii :=
  let b := byte_val c in
  if b =? 48 then "O"%char else if b =? 49 then "I"%char else if b =? 56 then "B"%char else c.

Definition parseEscrowRecoveryCode (typed : string) : option string :=
  let c := replace_digit <$> canonicalise typed in
  if negb (length c =? 32)%nat then None else string_of <$> decode_code c.

Section recovery.
Context `{Env} `{RangeOrder} `{Primitives}.

(** ** The recovery row of the active key *)

Definition recoveryStateTx : Tx (bool * bool) :=
  active <-- activeEscrowKey ;;
  match active with
  | None => tx_ret (false, false)
  | Some act =>
      row <-- optional_row (fun d => rc_confirmed <$> escrow_recovery d !! act.1) ;;
      tx_ret (match row with Some c => (true, c) | None => (false, false) end)
  end.

Definition CreateEscrowRecoveryCode (actor dek : string) : Tx string :=
  or_no_grant (
    do! requireSuperTx actor ;;
    opened <-- try_open_grant actor dek ;;
    match opened with
    | None => tx_ret None
    | Some session =>
        raw <-- tx_rand EscrowRecoveryCodeSize ;;
        nonce <-- tx_rand nonceSize ;;
        wrapped <-- tx_crypto (WrapEscrowRecovery nonce raw (es_id session) (es_private session)) ;;
        n <-- statement (fun d => Some (sql_delete_recovery d)) ;;
        t <-- nowStamp ;;
        do! exec (sql_insert_recovery (es_id session) (mkRecovery wrapped false t actor)) ;;
        do! recordAccountEvent actor actor AccountEscrowRecoveryCreated
          (if 0 <? n then "replaces the earlier one" else EmptyString) ;;
        tx_ret (Some (display_code raw))
    end).

(** The active key and the private key [typed] opens. *)
Definition openRecoveryTx (typed : string) : Tx ((string * string) * string) :=
  active <-- activeEscrowKey ;;
  match active with
  | None => tx_fail ErrNoRecoveryCode
  | Some act =>
      row <-- optional_row (fun d => rc_wrapped <$> escrow_recovery d !! act.1) ;;
      match row with
      | None => tx_fail ErrNoRecoveryCode
      | Some wrapped =>
          match parseEscrowRecoveryCode typed with
          | None => tx_fail ErrInvalidEscrowRecoveryCode
          | Some raw =>
              match OpenEscrowRecovery raw act.1 wrapped with
              | Ok private => tx_ret (act, private)
              | Err _ => tx_fail ErrInvalidEscrowRecoveryCode
              end
          end
      end
  end.

Definition CheckEscrowRecoveryCode (actor typed : string) : Tx unit :=
  inWriteTx (do! requireSuperTx actor ;; do! openRecoveryTx typed ;; tx_ret ()).

Definition ConfirmEscrowRecoveryCode (actor typed : string) : Tx unit :=
  inWriteTx (
    do! requireSuperTx actor ;;
    opened <-- openRecoveryTx typed ;;
    exec (sql_confirm_recovery opened.1.1)).

(** The refusal a recovery commits, [None] when the key was restored. *)
Definition recovery_mismatch (actor detail : string) : Tx (option UserError) :=
  do! recordAccountEvent actor actor AccountEscrowKeyMismatch detail ;;
  tx_ret (Some ErrEscrowMismatch).

Definition restore_key (actor dek : string) (session : EscrowSession) : Tx (option UserError) :=
  pk <-- ensurePersonalKey actor dek ;;
  do! attestTx session actor pk.2 ;;
  do! grantTx session actor pk.2 ;;
  do! recordAccountEvent actor actor AccountEscrowRecovered EmptyString ;;
  do! runPendingRotationTx session actor dek ;;
  tx_ret None.

Definition recover_with (actor dek : string) (act : string * string) (private : string)
    : Tx (option UserError) :=
  match EscrowPublicKey private with
  | Err _ => recovery_mismatch actor
      "the recovery code opened something that is not an administrator key"
  | Ok derived =>
      pin <-- optional_row (fun d => escrow_pins d !! actor) ;;
      match pin with
      | Some p =>
          if negb (String.eqb (pin_key_id p) act.1) then recovery_mismatch actor
            "the super administrator's account does not yet trust this administrator key; sign in again, then use the recovery code"
          else
            ok <-- tx_crypto (VerifyEscrowPin dek actor act.1 derived (pin_mac p)) ;;
            if negb ok then recovery_mismatch actor
              "the key the recovery code opened is not the administrator key this account trusts"
            else if negb (String.eqb derived act.2) then recovery_mismatch actor
              "system.db's record of the administrator key was changed outside GoPMgr"
            else restore_key actor dek (mkSession act.1 derived private)
      | None => recovery_mismatch actor
          "the super administrator's account does not yet trust this administrator key; sign in again, then use the recovery code"
      end
  end.

Definition RecoverEscrowKey (actor dek typed : string) : Tx unit :=
  refused <-- inWriteTx (
    do! requireSuperTx actor ;;
    tx_try (openRecoveryTx typed) (fun r =>
      match r with
      | Err ErrInvalidEscrowRecoveryCode =>
          do! recordAccountEvent actor actor AccountEscrowKeyMismatch
            "a recovery code that does not open the administrator key was entered" ;;
          tx_ret (Some ErrInvalidEscrowRecoveryCode)
      | Err e => tx_fail e
      | Ok (act, private) => recover_with actor dek act private
      end)) ;;
  match refused with
  | Some e => tx_fail e
  | None => tx_ret ()
  end.

End recovery.
