(* ===== verification/Succession.v ===== *)
(** * Hand-over, standby and takeover (users/super_admin.go, users/succession.go) *)

From S2P Require Import Prelude GoStrings GoTime EscrowCrypto SystemDb Accounts Escrow.
From S2P Require Import RecoveryCode.

Local Open Scope string_scope.
Local Open Scope Z_scope.

Definition keyDetail (passed : bool) (yes no : string) : string := if passed then yes else no.

Section succession.
Context `{Env} `{RangeOrder} `{Primitives}.

(** A failure of this record is only logged. *)
Definition recordAttestationFailure (actor username : string) : Tx unit :=
  tx_try (inWriteTx (recordAccountEvent actor username AccountEscrowKeyMismatch attest_mismatch))
    (fun _ => tx_ret ()).

(** A refusal for a personal key that fails its attestation is recorded in a
    transaction of its own. *)
Definition recording_attestation_failure {A} (actor username : string) (m : Tx A) : Tx A :=
  tx_try m (fun r =>
    match r with
    | Err ErrPersonalKeyNotAttested =>
        do! recordAttestationFailure actor username ;; tx_fail ErrPersonalKeyNotAttested
    | r => tx_of r
    end).

(** [ErrTargetNotAdmin] unless [target] is an enabled administrator. *)
Definition requireTargetAdmin (target : string) : Tx unit :=
  tx_try (requireEnabledAdmin target) (fun r =>
    match r with
    | Err ErrNotAdmin => tx_fail ErrTargetNotAdmin
    | r => tx_of r
    end).

(** ** Hand-over *)

Definition handOverTx (actor actorDEK target : string) : Tx bool :=
  do! requireSuperTx actor ;;
  do! tx_guard (negb (String.eqb target actor)) ErrTargetIsSuper ;;
  do! requireTargetAdmin target ;;
  do! requirePersonalKeyTx target ;;
  do! passKeyTx actor actorDEK target ;;
  keyPassed <-- holdsActiveGrantTx target ;;
  t <-- nowStamp ;;
  do! exec (sql_update_super target t) ;;
  do! clearStandbyTx actor target "became the super administrator" ;;
  do! clearProtectionTx target ;;
  do! removeGrantTx actor ;;
  do! markRotationPendingTx ("the super administrator role was handed to " +:+ target) ;;
  do! recordAccountEvent actor target AccountSuperHandedOver
    (keyDetail keyPassed "administrator key passed" "the administrator key could not be passed") ;;
  tx_ret keyPassed.

Definition HandOverSuper (actor actorDEK target : string) : Tx bool :=
  recording_attestation_failure actor target (inWriteTx (handOverTx actor actorDEK target)).

(** ** The standby *)

(** The checks of a named standby. *)
Definition require_standby (actor standby : string) : Tx unit :=
  if String.eqb standby EmptyString then tx_ret ()
  else
    do! tx_guard (negb (String.eqb standby actor)) ErrTargetIsSuper ;;
    do! requireTargetAdmin standby ;;
    requirePersonalKeyTx standby.

(** Remove the standby [old] in favour of [new]; whether they held the key. *)
Definition replace_standby (actor old new : string) : Tx bool :=
  if negb (String.eqb old EmptyString) && negb (String.eqb old new) then
    held <-- holdsAnyGrantTx old ;;
    do! removeGrantTx old ;;
    do! clearStandbyTx actor old
      (if String.eqb new EmptyString then "removed by the super administrator"
       else "replaced by " +:+ new) ;;
    tx_ret held
  else tx_ret false.

Definition store_standby (st : successionState) (standby : string) (days : Z) : Tx unit :=
  namedAt <-- (if String.eqb standby EmptyString then tx_ret Blank
               else if negb (String.eqb standby (ss_standby st)) then nowStamp
               else tx_ret (ss_standbyNamedAt st)) ;;
  t <-- nowStamp ;;
  exec (sql_upsert_succession
    (mkSuccession (if String.eqb standby EmptyString then None else Some standby) days t namedAt)).

Definition setStandbyTx (actor actorDEK standby : string) (days : Z) : Tx bool :=
  do! requireSuperTx actor ;;
  st <-- readSuccessionTx ;;
  do! require_standby actor standby ;;
  oldStandbyHeld <-- replace_standby actor (ss_standby st) standby ;;
  do! (if String.eqb standby EmptyString then tx_ret false else passKeyTx actor actorDEK standby) ;;
  do! store_standby st standby days ;;
  do! tx_when oldStandbyHeld (rotateWithOwnKeyTx actor actorDEK [standby]
    ("the standby " +:+ ss_standby st
     +:+ if String.eqb standby EmptyString then " was removed" else " was replaced")) ;;
  if negb (String.eqb standby EmptyString) then
    keyPassed <-- holdsActiveGrantTx standby ;;
    do! recordAccountEvent actor standby AccountStandbyNamed
      ("takes over after " +:+ Itoa days +:+ " days without a sign-in by the super administrator; "
       +:+ keyDetail keyPassed "administrator key passed"
                     "the administrator key could not be passed") ;;
    tx_ret keyPassed
  else
    do! tx_when (negb (days =? ss_days st))
      (recordAccountEvent actor actor AccountTakeoverPeriodChanged (Itoa days +:+ " days")) ;;
    tx_ret false.

Definition SetStandby (actor actorDEK standby : string) (days : Z) : Tx bool :=
  if (days <? MinTakeoverDays) || (MaxTakeoverDays <? days) then tx_fail ErrTakeoverPeriod
  else recording_attestation_failure actor standby (inWriteTx (setStandbyTx actor actorDEK standby days)).

(** ** Takeover *)

Definition takeover_detail (st : successionState) (actor : string) (reason : TakeoverReason)
    (note : string) (now : Time) (keyHeld : bool) : string :=
  Join ([if ss_lastActive st =? zero_time then "no sign-in on record"
         else "no sign-in for at least " +:+ Itoa (wholeDaysSince (ss_lastActive st) now) +:+ " days"]
    ++ (if negb (String.eqb (ss_standby st) EmptyString) && negb (String.eqb actor (ss_standby st))
        then ["the standby, " +:+ ss_standby st +:+ ", had no sign-in for at least "
              +:+ Itoa (wholeDaysSince (ss_standbyLastActive st) now) +:+ " days"]
        else [])
    ++ ["reason: " +:+ Label reason
        +:+ (if String.eqb note EmptyString then EmptyString else ": " +:+ note);
        keyDetail keyHeld "administrator key held"
          "the new super administrator does not hold the administrator key"])%list "; ".

(** The rotation after a takeover from a former super administrator who held
    the key. *)
Definition takeover_rotation (opened : option EscrowSession) (actor actorDEK former : string)
    : Tx unit :=
  let rotation := "the super administrator role was taken over from " +:+ former in
  match opened with
  | None => markRotationPendingTx rotation
  | Some session => do! rotateInSavepointTx session actor actorDEK [] rotation ;; tx_ret ()
  end.

Definition takeOverTx (actor actorDEK : string) (reason : TakeoverReason) (note : string) : Tx bool :=
  do! requireEnabledAdmin actor ;;
  st <-- readSuccessionTx ;;
  now <-- tx_now ;;
  do! match takeoverRefusal st actor now with
      | Some e => tx_fail e
      | None => tx_ret ()
      end ;;
  do! exec (sql_update_super actor (At now)) ;;
  do! clearStandbyTx actor actor "became the super administrator" ;;
  formerHeld <-- holdsAnyGrantTx (ss_super st) ;;
  do! removeGrantTx (ss_super st) ;;
  do! clearProtectionTx actor ;;
  do! exec (sql_upsert_protection (ss_super st)
    (mkProtection (Code reason) note (At (AddDays now (Days reason))) actor (At now))) ;;
  opened <-- try_open_grant actor actorDEK ;;
  let keyHeld := match opened with Some _ => true | None => false end in
  do! recordAccountEvent actor (ss_super st) AccountSuperTakenOver
    (takeover_detail st actor reason note now keyHeld) ;;
  do! tx_when formerHeld (takeover_rotation opened actor actorDEK (ss_super st)) ;;
  tx_ret keyHeld.

Definition TakeOverSuper (actor actorDEK reasonCode note0 : string) : Tx bool :=
  match takeoverReason reasonCode with
  | None => tx_fail ErrTakeoverReason
  | Some reason =>
      let note := TrimSpace note0 in
      if MaxTakeoverNoteLength <? RuneCountInString note then tx_fail ErrTakeoverNoteTooLong
      else if String.eqb (Code reason) "other" && String.eqb note EmptyString
      then tx_fail ErrTakeoverNoteRequired
      else inWriteTx (takeOverTx actor actorDEK reason note)
  end.

(** ** What an administrator is shown *)

Record Succession : Type := mkSuccessionView {
  Super : string;
  Standby : string;
  StandbyHoldsKey : bool;
  TakeoverDays : Z;
  SuperInactiveDays : Z;
  StandbyInactiveDays : Z;
  Protections : list (string * string * Time);
  CanTakeOver : bool;
  SuperHoldsKey : bool;
  RotationPending : bool;
  RecoveryCodeExists : bool;
  RecoveryCodeConfirmed : bool
}.

Definition activeProtectionsTx (now : Time) : Tx (list (string * string * Time)) :=
  names <-- query (fun d => sort_strings (map_to_list (takeover_protection d)).*1) ;;
  tx_fold (fun out name =>
    p <-- protectionTx name now ;;
    tx_ret (match p with Some x => (out ++ [x])%list | None => out end)) [] names.

Definition holds_key (username : string) : Tx bool :=
  if String.eqb username EmptyString then tx_ret false else holdsActiveGrantTx username.

Definition SuccessionFor (actor : string) : Tx Succession :=
  inWriteTx (
    do! requireEnabledAdmin actor ;;
    st <-- readSuccessionTx ;;
    now <-- tx_now ;;
    standbyHolds <-- holds_key (ss_standby st) ;;
    superHolds <-- holds_key (ss_super st) ;;
    reason <-- rotationPendingTx ;;
    recovery <-- recoveryStateTx ;;
    protections <-- activeProtectionsTx now ;;
    tx_ret (mkSuccessionView (ss_super st) (ss_standby st) standbyHolds (ss_days st)
      (wholeDaysSince (ss_lastActive st) now) (wholeDaysSince (ss_standbyLastActive st) now)
      protections (match takeoverRefusal st actor now with None => true | Some _ => false end)
      superHolds (negb (String.eqb reason EmptyString)) recovery.1 recovery.2)).

End succession.
