(* ===== verification/Access.v ===== *)
(** * Creating, opening and signing in to accounts (users/store.go,
      users/escrow_access.go, users/access_notice.go, users/credentials.go) *)

From S2P Require Import Prelude GoStrings GoTime EscrowCrypto SystemDb Accounts Escrow.

Local Open Scope string_scope.
Local Open Scope Z_scope.

(** The account incarnation a sign-in verified. *)
Record Principal : Type := mkPrincipal {
  principal_id : string;
  principal_username : string;
  principal_generation : Z
}.

Definition MaxAccessReasonLength : Z := 500.

(** ** Sign-in notices *)

Definition noticeFilter (e : AccountEvent) : bool :=
  String.eqb (ev_Action e) AccountAdminAccess
  || (String.eqb (ev_Action e) AccountEscrowKeyNew && negb (String.eqb (ev_Actor e) (ev_Username e))).

Definition acknowledged (username : string) (d : SystemDB) : Z :=
  default 0 (access_notices d !! username).

(** The notices of [username] not acknowledged yet, newest first. *)
Definition unread_notices (username : string) (d : SystemDB) : list AccountEvent :=
  reverse (List.filter (fun e => String.eqb (ev_Username e) username && noticeFilter e
                                 && (acknowledged username d <? ev_ID e)) (account_events d)).

(** Every recorded administrator access to [username]'s data, newest first. *)
Definition access_history (username : string) (d : SystemDB) : list AccountEvent :=
  reverse (List.filter (fun e => String.eqb (ev_Username e) username
                                 && String.eqb (ev_Action e) AccountAdminAccess) (account_events d)).

(** How many of [username]'s notices after [current] and up to [through] have
    this action. *)
Definition count_notices (username action : string) (current through : Z) (d : SystemDB) : Z :=
  Z.of_nat (length (List.filter (fun e => String.eqb (ev_Username e) username && noticeFilter e
    && (current <? ev_ID e) && (ev_ID e <=? through) && String.eqb (ev_Action e) action)
    (account_events d))).

Definition noticeReadDetail (accesses keys : Z) : string :=
  Join ((if accesses =? 1 then ["1 access"]
         else if 1 <? accesses then [Itoa accesses +:+ " accesses"] else [])
     ++ (if keys =? 1 then ["1 new administrator key"]
         else if 1 <? keys then [Itoa keys +:+ " new administrator keys"] else []))%list " and ".

Section access.
Context `{Env} `{RangeOrder} `{Primitives}.

Definition AccessHistory (username : string) : Tx (list AccountEvent) :=
  query (access_history username).

Definition UnreadAccessNotices (username : string) : Tx (list AccountEvent) :=
  query (unread_notices username).

Definition AcknowledgeAccessNotices (username : string) (throughID : Z) : Tx unit :=
  inWriteTx (
    exists_ <-- query (fun d => existsb (fun e => (ev_ID e =? throughID)
      && String.eqb (ev_Username e) username && noticeFilter e) (account_events d)) ;;
    do! tx_guard exists_ ErrAcknowledgeUnknownAccess ;;
    current <-- query (acknowledged username) ;;
    if throughID <=? current then tx_ret ()
    else
      counts <-- query (fun d => (count_notices username AccountAdminAccess current throughID d,
                                  count_notices username AccountEscrowKeyNew current throughID d)) ;;
      do! exec (sql_upsert_notice username throughID) ;;
      recordAccountEvent username username AccountAccessNoticeRead
        (noticeReadDetail counts.1 counts.2)).

(** ** Recorded administrator access *)

(** The grant of the caller, with a mismatch to be committed as a value. *)
Definition grant_or_refusal (actor dek : string) : Tx (option EscrowSession) :=
  tx_try (openGrantTx actor dek) (fun r =>
    match r with
    | Ok session => tx_ret (Some session)
    | Err ErrEscrowMismatch => tx_ret None
    | Err e => tx_fail e
    end).

(** The target's DEK, or [None] for a refusal that is recorded. *)
Definition openUserTx (actor actorDEK target reason : string) : Tx (option string) :=
  do! requireSuperTx actor ;;
  do! accountRole target ;;
  active <-- activeEscrowKey ;;
  match active with
  | None => tx_fail ErrNotEnrolled
  | Some act =>
      row <-- optional_row (fun d => s ← sealed_deks d !! target;
                              if String.eqb (sd_key_id s) act.1 then Some (sd_sealed s) else None) ;;
      match row with
      | None => tx_fail ErrNotEnrolled
      | Some sealed =>
          opened <-- grant_or_refusal actor actorDEK ;;
          match opened with
          | None => tx_ret None
          | Some session =>
              match OpenDEK (es_private session) (es_id session) target sealed with
              | Err _ =>
                  do! exec (sql_delete_sealed target) ;;
                  do! exec (sql_delete_pin target) ;;
                  do! recordAccountEvent target target AccountEscrowKeyMismatch sealed_mismatch ;;
                  tx_ret None
              | Ok dek =>
                  do! recordAccountEvent actor target AccountAdminAccess reason ;;
                  tx_ret (Some dek)
              end
          end
      end
  end.

Definition OpenUserForAdmin (actor actorDEK target reason0 : string) : Tx string :=
  let reason := TrimSpace reason0 in
  if String.eqb reason EmptyString then tx_fail ErrAccessReasonRequired
  else if MaxAccessReasonLength <? RuneCountInString reason then tx_fail ErrAccessReasonTooLong
  else if EqualFold actor target then tx_fail ErrSelfAccess
  else
    out <-- inWriteTx (openUserTx actor actorDEK target reason) ;;
    match out with
    | Some dek => tx_ret dek
    | None => tx_fail ErrEscrowMismatch
    end.

(** ** Folders of new accounts *)

Definition userSubfolders : list string := ["projects"; "certs"; "exports"].

(** [os.Remove] refuses a folder that is not empty: the account's folder goes
    only when every removal works. *)
Definition removeNewUserFolder (username : string) : Tx unit := fun c =>
  let n := folder_ops c in
  let ok := forallb (fun k => negb (folder_fails (n + k))) (seq 0 (S (length userSubfolders))) in
  (Ok (), mkConn (db c) (if ok then folders c ∖ {[username]} else folders c) (ticks c) (draws c)
                 (statements c) (n + S (length userSubfolders))%nat (captured c)).

(** Run [m]; undo the folder when it fails. *)
Definition or_remove_folder {A} (username : string) (m : Tx A) : Tx A :=
  tx_try m (fun r =>
    match r with
    | Ok a => tx_ret a
    | Err e => do! removeNewUserFolder username ;; tx_fail e
    end).

Definition tx_folder_exists (username : string) : Tx bool := fun c =>
  (Ok (bool_decide (username ∈ folders c)), c).

(** [os.Mkdir], then the mode and the subfolders. *)
Definition createUserFolder (username : string) : Tx unit :=
  taken <-- tx_folder_exists username ;;
  do! tx_guard (negb taken) ErrUserFolderExists ;;
  do! tx_folder (fun fs => {[username]} ∪ fs) ;;
  do! or_remove_folder username (tx_folder (fun fs => fs)) ;;
  tx_each userSubfolders (fun _ => or_remove_folder username (tx_folder (fun fs => fs))).

(** ** Account creation *)

Definition allocateAccountIdentity (username : string) : Tx unit :=
  b <-- tx_rand 32 ;; exec (sql_insert_identity ("ac1:" +:+ hex_encode b) username).

Definition filepath_Join (root name : string) : string := root +:+ "/" +:+ name.

(** SELECT COUNT( * ) FROM users WHERE lower(username) = lower(?) *)
Definition username_taken (username : string) (d : SystemDB) : bool :=
  existsb (fun ur => String.eqb (sqlite_lower ur.1) (sqlite_lower username)) (map_to_list (users d)).

Definition insertAccount (root username displayName hash : string) (isAdmin : bool) : Tx User :=
  taken <-- query (username_taken username) ;;
  do! tx_guard (negb taken) ErrUserExists ;;
  do! tx_guard (negb (existsb (EqualFold username) reservedFolderNames)) ErrReservedUsername ;;
  do! tx_guard (negb (existsb (EqualFold username) windowsDeviceNames)) ErrWindowsDeviceName ;;
  do! createUserFolder username ;;
  do! or_remove_folder username (allocateAccountIdentity username) ;;
  t <-- nowStamp ;;
  let row := mkUser (TrimSpace displayName) hash (filepath_Join root username) t Blank isAdmin false
                    EmptyString in
  do! or_remove_folder username (exec (sql_insert_user username row)) ;;
  tx_ret row.

Definition tx_capture (v : string) : Tx unit := fun c => (Ok (), set_captured v c).
Definition tx_captured : Tx string := fun c => (Ok (captured c), c).

(** The account-creation rule: the first account is an administrator; later
    ones are created by an administrator, administrators by the super
    administrator.  The role of the new account. *)
Definition creation_rule (caller : string) (isAdmin : bool) (existing : Z) : Tx bool :=
  if existing =? 0 then tx_ret true
  else
    do! tx_try (accountRole caller) (fun r =>
      match r with
      | Err ErrNoSuchUser => tx_fail ErrNotAdmin
      | Err e => tx_fail e
      | Ok (callerIsAdmin, callerDisabled) =>
          tx_guard (negb (negb callerIsAdmin || callerDisabled)) ErrNotAdmin
      end) ;;
    do! tx_when isAdmin (requireSuperTx caller) ;;
    tx_ret isAdmin.

Definition createAccountTx (root caller username displayName hash dek wrapped : string)
    (isAdmin0 : bool) (session : option EscrowSession) : Tx (User * Principal) :=
  existing <-- query (fun d => Z.of_nat (size (users d))) ;;
  isAdmin <-- creation_rule caller isAdmin0 existing ;;
  created <-- insertAccount root username displayName hash isAdmin ;;
  do! tx_capture (data_dir created) ;;
  do! recordAccountEvent (if existing =? 0 then username else caller) username AccountCreated
    (if is_admin created then "administrator" else "standard") ;;
  do! exec (sql_update_user username (with_wrap wrapped)) ;;
  do! tx_try (enrollInSavepoint username dek session) (fun _ => tx_ret ()) ;;
  ig <-- query_row (identity_of username) ;;
  tx_ret (created, mkPrincipal ig.1 username ig.2).

(** The transaction of an account creation and the removal of its folder when
    that fails; [hash], [dek] and [wrapped] were made before. *)
Definition storeAccount (root caller username displayName hash dek wrapped : string)
    (isAdmin : bool) (session : option EscrowSession) : Tx (User * Principal) :=
  do! tx_capture EmptyString ;;
  tx_try (inWriteTx (createAccountTx root caller username displayName hash dek wrapped isAdmin
                                     session)) (fun r =>
    match r with
    | Ok p => tx_ret p
    | Err e =>
        dir <-- tx_captured ;;
        do! tx_when (negb (String.eqb dir EmptyString)) (removeNewUserFolder username) ;;
        tx_fail e
    end).

End access.
