(* ===== verification/Credentials.v ===== *)
(** * Passwords, keys and recovery codes of accounts (users/credentials.go,
      users/password_change.go, users/recovery.go, users/recovery_rotation.go, users/dek.go)

    Sign-in with its snapshot, password work and committing transaction; account
    creation with its hash and key; password changes, the issue and rotation of
    recovery codes and the reset with one.  What other processes do between the
    reads of an operation and its transaction is the argument [others]. *)

From S2P Require Import Prelude GoStrings GoTime EscrowCrypto Passwords SystemDb Accounts.
From S2P Require Import Escrow RecoveryCode Access.

Local Open Scope string_scope.
Local Open Scope Z_scope.

Definition MinPasswordLength : nat := 8.
Definition RecoveryCodeCount : nat := 8.
Definition rawCodeBytes : nat := 10.
Definition signInAttempts : nat := 3.

(** A set of codes: the text shown once, and what is stored. *)
Record recoveryCodeSet : Type := mkCodeSet {
  plain_codes : list string;
  code_hashes : list string;
  code_wraps : list string
}.

(** A prepared set that is not stored yet. *)
Record PendingRecoveryCodes : Type := mkPending {
  pend_username : string;
  pend_set : recoveryCodeSet;
  pend_basis : string
}.

Section credentials.
Context `{Env} `{RangeOrder} `{Primitives}.

(** ** Password and key work *)

Definition ValidatePassword (password : string) : Tx unit :=
  tx_guard (negb (String.length password <? MinPasswordLength)%nat) ErrPasswordTooShort.

(** [auth.HashPassword], drawing its salt. *)
Definition tx_HashPassword (password : string) : Tx string :=
  if String.eqb password EmptyString then tx_fail (ErrAuth ErrEmptyPassword)
  else salt <-- tx_rand pwSaltLen ;; tx_auth (HashPassword salt password).

(** [crypto.GenerateDEK]. *)
Definition GenerateDEK : Tx string := tx_rand DEKSize.

(** [crypto.WrapKey], drawing salt and nonce. *)
Definition tx_WrapKey (dek secret : string) : Tx string :=
  do! tx_guard (String.length dek =? DEKSize)%nat (ErrCrypto ErrBadDEK) ;;
  do! tx_guard (negb (String.eqb secret EmptyString)) (ErrCrypto ErrKey) ;;
  salt <-- tx_rand saltLen ;;
  nonce <-- tx_rand nonceSize ;;
  tx_crypto (WrapKey salt nonce dek secret).

(** Whatever others do, their failures are not ours. *)
Definition interleave (others : Tx unit) : Tx unit := tx_try others (fun _ => tx_ret ()).

(** ** Sign-in *)

(** One read of an account and its identity. *)
Record credentialRow : Type := mkCredential {
  cr_account : User;
  cr_id : string;
  cr_generation : Z
}.

Definition readCredentialRow (username : string) : Tx credentialRow :=
  tx_try (query_row (fun d => r ← users d !! username;
    Some (match identity_of username d with
          | Some (id, g) => mkCredential r id g
          | None => mkCredential r EmptyString 0
          end))) (fun r =>
    match r with
    | Err ErrNoRows => tx_fail ErrNoSuchUser
    | r => tx_of r
    end).

(** The unlocked key, and the new hash and key wrap to store, if any. *)
Record credentialWork : Type := mkWork {
  work_dek : string;
  newHash : string;
  newWrap : string
}.

Definition requireSameCredentialsTx (username : string) (snapshot : credentialRow)
    : Tx credentialRow :=
  now <-- readCredentialRow username ;;
  do! tx_guard (String.eqb (cr_id now) (cr_id snapshot)) ErrNoSuchUser ;;
  do! tx_guard (String.eqb (password_hash (cr_account now)) (password_hash (cr_account snapshot))
                && String.eqb (wrapped_dek_pw (cr_account now)) (wrapped_dek_pw (cr_account snapshot)))
               ErrStaleCredentials ;;
  do! tx_guard (negb (disabled (cr_account now))) ErrAccountDisabled ;;
  tx_ret now.

Definition storeCredentialWorkTx (username : string) (snapshot : credentialRow) (w : credentialWork)
    : Tx unit :=
  do! tx_when (negb (String.eqb (newHash w) EmptyString)) (
    n <-- statement (sql_update_user_if
      (fun r => String.eqb (password_hash r) (password_hash (cr_account snapshot)))
      username (with_hash (newHash w))) ;;
    tx_guard (n =? 1) ErrStaleCredentials) ;;
  tx_when (negb (String.eqb (newWrap w) EmptyString)) (
    n <-- statement (sql_update_user_if (fun r => String.eqb (wrapped_dek_pw r) EmptyString)
      username (with_wrap (newWrap w))) ;;
    tx_guard (n =? 1) ErrStaleCredentials).

(** The enrollment of a sign-in: a failure is rolled back and only logged. *)
Definition enrollInSignInSavepoint (enroll : Tx unit) : Tx unit :=
  out <-- in_savepoint enroll ;;
  match out with
  | (_, SpDone) => tx_ret ()
  | (_, SpReleaseFailed) => tx_fail ErrSql
  | (Err e, SpRollbackFailed) => tx_fail e
  | (Ok _, SpRollbackFailed) => tx_fail ErrSql
  end.

Definition signInTx (username : string) (snapshot : credentialRow) (w : credentialWork)
    (adminSession : bool) : Tx (User * Principal) :=
  now <-- requireSameCredentialsTx username snapshot ;;
  stamp <-- nowStamp ;;
  do! exec (sql_update_user username (with_last_login stamp)) ;;
  do! storeCredentialWorkTx username snapshot w ;;
  do! (if adminSession then
         enrollInSignInSavepoint (enrollAdminSessionTx username (work_dek w))
       else tx_when (negb (String.eqb (newWrap w) EmptyString))
         (enrollInSignInSavepoint (do! enrollTx username (work_dek w) None ;; tx_ret ()))) ;;
  ig <-- query_row (identity_of username) ;;
  tx_ret (cr_account now, mkPrincipal (cr_id now) username ig.2).

(** The committing step of [signIn], after the password was verified against
    [snapshot]. *)
Definition SignInCommit (username : string) (snapshot : credentialRow) (w : credentialWork)
    (adminSession : bool) : Tx (User * Principal) :=
  inWriteTx (signInTx username snapshot w adminSession).

(** ** The work before a sign-in's transaction *)

Definition checkPassword (snapshot : credentialRow) (password : string) : Tx unit :=
  do! tx_auth (VerifyPassword password (password_hash (cr_account snapshot))) ;;
  tx_guard (negb (String.eqb (cr_id snapshot) EmptyString)) ErrAccountIdentity.

(** The stored key, or a new one for an account that has none. *)
Definition unlockKey (snapshot : credentialRow) (password : string) : Tx credentialWork :=
  let wrapped := wrapped_dek_pw (cr_account snapshot) in
  if negb (String.eqb wrapped EmptyString)
  then dek <-- tx_crypto (UnwrapKey wrapped password) ;; tx_ret (mkWork dek EmptyString EmptyString)
  else
    dek <-- GenerateDEK ;;
    wrap <-- tx_WrapKey dek password ;;
    tx_ret (mkWork dek EmptyString wrap).

Definition prepareSignIn (snapshot : credentialRow) (password : string) : Tx credentialWork :=
  do! checkPassword snapshot password ;;
  do! tx_guard (negb (disabled (cr_account snapshot))) ErrAccountDisabled ;;
  newhash <-- (if NeedsRehash (password_hash (cr_account snapshot))
               then tx_HashPassword password else tx_ret EmptyString) ;;
  w <-- unlockKey snapshot password ;;
  tx_ret (mkWork (work_dek w) newhash (newWrap w)).

(** The attempts: [errStaleCredentials] starts the next one. *)
Fixpoint signIn_loop (attempts : nat) (others : nat -> Tx unit) (username password : string)
    (adminSession : bool) : Tx (User * Principal * string) :=
  match attempts with
  | O => tx_fail ErrSignInContended
  | S remaining =>
      snapshot <-- readCredentialRow username ;;
      work <-- prepareSignIn snapshot password ;;
      do! interleave (others remaining) ;;
      tx_try (SignInCommit username snapshot work adminSession) (fun r =>
        match r with
        | Ok ap => tx_ret (ap, work_dek work)
        | Err ErrStaleCredentials => signIn_loop remaining others username password adminSession
        | Err e => tx_fail e
        end)
  end.

Definition signIn (others : nat -> Tx unit) (username password : string) (adminSession : bool)
    : Tx (User * Principal * string) :=
  if negb (ValidateUsername username) then tx_fail ErrNoSuchUser
  else signIn_loop signInAttempts others username password adminSession.

Definition SignIn (others : nat -> Tx unit) (username password : string)
    : Tx (User * Principal * string) := signIn others username password true.

Definition SignInHeadless (others : nat -> Tx unit) (username password : string)
    : Tx (User * Principal * string) := signIn others username password false.

(** ** Account creation *)

Definition CreateAccountWithPrincipal (root caller username displayName password : string)
    (isAdmin : bool) (session : option EscrowSession) : Tx (User * Principal * string) :=
  if negb (ValidateUsername username) then tx_fail ErrInvalidUsername
  else
    do! ValidatePassword password ;;
    hash <-- tx_HashPassword password ;;
    dek <-- GenerateDEK ;;
    wrapped <-- tx_WrapKey dek password ;;
    ap <-- storeAccount root caller username displayName hash dek wrapped isAdmin session ;;
    tx_ret (ap, dek).

(** ** Changing the password *)

(** The compare-and-swap of a password change, with the number of rows. *)
Definition sql_swap_password (username hash wrapped newHash newWrap : string) (d : SystemDB)
    : option (Z * SystemDB) :=
  sql_update_user_if (fun r => String.eqb (password_hash r) hash
                               && String.eqb (wrapped_dek_pw r) wrapped)
    username (fun r => with_wrap newWrap (with_hash newHash r)) d.

Definition swapPassword (username hash wrapped newHash newWrap : string) : Tx unit :=
  n <-- statement (sql_swap_password username hash wrapped newHash newWrap) ;;
  tx_guard (n =? 1) ErrPasswordChangedElsewhere.

(** SELECT password_hash, wrapped_dek_pw FROM users WHERE username = ? *)
Definition read_password (username : string) : Tx (string * string) :=
  tx_try (query_row (fun d => (fun r => (password_hash r, wrapped_dek_pw r)) <$> users d !! username))
    (fun r => match r with
              | Err ErrNoRows => tx_fail ErrNoSuchUser
              | r => tx_of r
              end).

(** The stored DEK, opened by a verified password. *)
Definition verified_dek (hw : string * string) (password : string) : Tx string :=
  do! tx_auth (VerifyPassword password hw.1) ;;
  do! tx_guard (negb (String.eqb hw.2 EmptyString)) ErrPasswordWrapCorrupt ;;
  match UnwrapKey hw.2 password with
  | Ok dek => tx_ret dek
  | Err _ => tx_fail ErrPasswordWrapCorrupt
  end.

Definition ChangePassword (others : Tx unit) (username currentPassword newPassword : string)
    : Tx unit :=
  if negb (ValidateUsername username) then tx_fail ErrNoSuchUser
  else
    do! ValidatePassword newPassword ;;
    hw <-- read_password username ;;
    dek <-- verified_dek hw currentPassword ;;
    newWrap <-- tx_WrapKey dek newPassword ;;
    newHash <-- tx_HashPassword newPassword ;;
    do! interleave others ;;
    swapPassword username hw.1 hw.2 newHash newWrap.

(** ** Recovery codes *)

(** Sixteen base32 characters with a dash in the middle. *)
Definition format_code (raw : string) : string :=
  let b := bytes_of raw in
  string_of (encode_group (take 5 b) ++ "-"%char :: encode_group (drop 5 b))%list.

Definition generateCode : Tx string := raw <-- tx_rand rawCodeBytes ;; tx_ret (format_code raw).

Definition canonical (s : string) : string := string_of (canonicalise s).

(** One more code of a set; with a DEK, wrapped under it. *)
Definition add_code (dek : option string) (set : recoveryCodeSet) (_ : nat) : Tx recoveryCodeSet :=
  code <-- generateCode ;;
  hash <-- tx_HashPassword (canonical code) ;;
  wrap <-- match dek with
           | Some k => tx_WrapKey k (canonical code)
           | None => tx_ret EmptyString
           end ;;
  tx_ret (mkCodeSet (plain_codes set ++ [code]) (code_hashes set ++ [hash])
                    (code_wraps set ++ [wrap])).

Definition newRecoveryCodeSet (dek : option string) : Tx recoveryCodeSet :=
  tx_fold (add_code dek) (mkCodeSet [] [] []) (seq 0 RecoveryCodeCount).

Definition replaceRecoveryCodes (username : string) (set : recoveryCodeSet) : Tx unit :=
  do! exec (sql_delete_codes username) ;;
  now <-- nowStamp ;;
  tx_each (zip (code_hashes set) (code_wraps set)) (fun hw =>
    exec (sql_insert_code username hw.1 hw.2 now)).

Definition IssueRecoveryCodes (username : string) (dek : option string) : Tx (list string) :=
  if negb (ValidateUsername username) then tx_fail ErrInvalidUsername
  else
    exists_ <-- query (has_user username) ;;
    do! tx_guard exists_ ErrNoSuchUser ;;
    set <-- newRecoveryCodeSet dek ;;
    do! inWriteTx (replaceRecoveryCodes username set) ;;
    tx_ret (plain_codes set).

(** The transaction of IssueRecoveryCodesWithPassword. *)
Definition issueCodesTx (actor username : string) (snapshot : credentialRow) (work : credentialWork)
    (set : recoveryCodeSet) : Tx unit :=
  do! requireEnabledAdmin actor ;;
  now <-- readCredentialRow username ;;
  do! tx_guard (String.eqb (cr_id now) (cr_id snapshot)) ErrNoSuchUser ;;
  do! tx_guard (String.eqb (password_hash (cr_account now)) (password_hash (cr_account snapshot))
                && String.eqb (wrapped_dek_pw (cr_account now)) (wrapped_dek_pw (cr_account snapshot)))
               ErrStaleCredentials ;;
  do! tx_when (is_admin (cr_account now)) (requireSuperTx actor) ;;
  do! storeCredentialWorkTx username snapshot work ;;
  do! tx_when (negb (String.eqb (newWrap work) EmptyString))
    (enrollInSignInSavepoint (do! enrollTx username (work_dek work) None ;; tx_ret ())) ;;
  replaceRecoveryCodes username set.

Fixpoint issueCodes_loop (attempts : nat) (others : nat -> Tx unit) (actor username password : string)
    : Tx (list string) :=
  match attempts with
  | O => tx_fail ErrSignInContended
  | S remaining =>
      snapshot <-- readCredentialRow username ;;
      do! checkPassword snapshot password ;;
      work <-- tx_try (unlockKey snapshot password) (fun r =>
        match r with
        | Ok w => tx_ret w
        | Err e => tx_fail (if negb (String.eqb (wrapped_dek_pw (cr_account snapshot)) EmptyString)
                            then ErrPasswordWrapCorrupt else e)
        end) ;;
      set <-- newRecoveryCodeSet (Some (work_dek work)) ;;
      do! interleave (others remaining) ;;
      tx_try (inWriteTx (issueCodesTx actor username snapshot work set)) (fun r =>
        match r with
        | Ok _ => tx_ret (plain_codes set)
        | Err ErrStaleCredentials => issueCodes_loop remaining others actor username password
        | Err e => tx_fail e
        end)
  end.

Definition IssueRecoveryCodesWithPassword (others : nat -> Tx unit)
    (actor username password : string) : Tx (list string) :=
  if negb (ValidateUsername username) then tx_fail ErrNoSuchUser
  else issueCodes_loop signInAttempts others actor username password.

(** *** Rotating them in two steps *)

(** [fmt.Sprintf("%d/%d/%d", ...)] *)
Definition recoveryCodesBasis (username : string) : Tx string :=
  b <-- query (sql_codes_basis username) ;;
  tx_ret (Itoa b.1.1 +:+ "/" +:+ Itoa b.1.2 +:+ "/" +:+ Itoa b.2).

Definition PrepareRecoveryCodes (username currentPassword : string) : Tx PendingRecoveryCodes :=
  if negb (ValidateUsername username) then tx_fail ErrNoSuchUser
  else
    hw <-- read_password username ;;
    dek <-- verified_dek hw currentPassword ;;
    basis <-- recoveryCodesBasis username ;;
    set <-- newRecoveryCodeSet (Some dek) ;;
    tx_ret (mkPending username set basis).

Definition ConfirmRecoveryCodes (p : PendingRecoveryCodes) : Tx unit :=
  inWriteTx (
    basis <-- recoveryCodesBasis (pend_username p) ;;
    do! tx_guard (String.eqb basis (pend_basis p)) ErrRecoveryCodesChanged ;;
    replaceRecoveryCodes (pend_username p) (pend_set p)).

(** *** Resetting the password with one *)

(** The first unused code that verifies (range site 30). *)
Definition matching_code (username canon : string) (d : SystemDB) : option CodeRow :=
  List.find (fun c => is_ok (VerifyPassword canon (code_hash c))) (arrange 30 (unused_codes username d)).

(** The new wrap of the key a code holds; empty for an account without one. *)
Definition rewrap_key (username canon newPassword : string) (code : CodeRow) : Tx string :=
  if negb (String.eqb (code_wrap code) EmptyString)
  then dek <-- tx_crypto (UnwrapKey (code_wrap code) canon) ;; tx_WrapKey dek newPassword
  else
    currentWrap <-- query_row (fun d => wrapped_dek_pw <$> users d !! username) ;;
    do! tx_guard (String.eqb currentWrap EmptyString) ErrLegacyRecoveryCode ;;
    tx_ret EmptyString.

Definition resetTx (username canon newPassword : string) : Tx unit :=
  found <-- query (matching_code username canon) ;;
  match found with
  | None => tx_fail ErrInvalidRecoveryCode
  | Some code =>
      newWrapPW <-- rewrap_key username canon newPassword code ;;
      now <-- nowStamp ;;
      do! exec (sql_use_code (code_id code) now) ;;
      newHash <-- tx_HashPassword newPassword ;;
      if negb (String.eqb (code_wrap code) EmptyString)
      then exec (sql_update_user username (fun r => with_wrap newWrapPW (with_hash newHash r)))
      else
        n <-- statement (sql_update_user_if (fun r => String.eqb (wrapped_dek_pw r) EmptyString)
                           username (with_hash newHash)) ;;
        tx_guard (n =? 1) ErrLegacyRecoveryCode
  end.

(** The transaction is BEGIN ... COMMIT, rolled back on every error. *)
Definition ResetWithRecoveryCode (username code newPassword : string) : Tx unit :=
  if negb (ValidateUsername username) then tx_fail ErrInvalidRecoveryCode
  else
    do! ValidatePassword newPassword ;;
    inWriteTx (resetTx username (canonical code) newPassword).

(** *** What an account has *)

Definition RemainingRecoveryCodes (username : string) : Tx Z :=
  if negb (ValidateUsername username) then tx_fail ErrInvalidUsername
  else query (fun d => Z.of_nat (length (unused_codes username d))).

Definition HasLegacyRecoveryCodeWraps (username : string) : Tx bool :=
  if negb (ValidateUsername username) then tx_fail ErrInvalidUsername
  else query (fun d => existsb (fun c => String.eqb (code_wrap c) EmptyString)
                               (unused_codes username d)).

Definition RecoveryCodeStatus (username : string) : Tx (Z * bool) :=
  unused <-- RemainingRecoveryCodes username ;;
  legacy <-- HasLegacyRecoveryCodeWraps username ;;
  tx_ret (unused, legacy).

End credentials.
