(* ===== verification/AccountsDemo.v ===== *)
(** * Concrete environments and a sample history

    Primitives that satisfy the laws (a seal is its own bound fields followed by
    the text), environments with a clock, and a sequence of operations on
    them; the witnesses evaluate on these. *)

From S2P Require Import Prelude GoStrings GoTime EscrowCrypto SystemDb Accounts Escrow.
From S2P Require Import RecoveryCode Succession Access Credentials.

Local Open Scope string_scope.
Local Open Scope Z_scope.

(** ** Transparent primitives *)

Definition strip_prefix (p s : string) : option string :=
  if String.prefix p s then Some (string_drop (String.length p) s) else None.

#[export] Instance toy_primitives : Primitives := {|
  kem_generate := fun seed => Some ("k" +:+ seed);
  kem_public := fun priv => if String.eqb priv EmptyString then None else Some ("P" +:+ priv);
  hpke_Seal := fun _ pub info text => Some (bindFields pub [info] +:+ text);
  hpke_Open := fun priv info sealed => strip_prefix (bindFields ("P" +:+ priv) [info]) sealed;
  hkdf_Key := fun secret info => bindFields secret [info];
  gcm_Seal := fun key nonce ad text => bindFields key [nonce; ad; EmptyString] +:+ text;
  gcm_Open := fun key nonce text ad => strip_prefix (bindFields key [nonce; ad; EmptyString]) text;
  hmac_Sum := fun key msg => bindFields key [msg];
  argon2_IDKey := fun password salt _ _ _ n =>
    string_of (take (Z.to_nat n) (bytes_of (bindFields password [salt]) ++ repeat zero (Z.to_nat n)))
|}.

Lemma strip_prefix_app p s : strip_prefix p (p +:+ s) = Some s.
Proof.
  unfold strip_prefix, string_drop.
  assert (Hp : String.prefix p (p +:+ s) = true).
  { induction p as [|c p IH]; simpl; [by destruct s|]. by destruct (ascii_dec c c). }
  rewrite Hp.
  rewrite bytes_of_app, <- length_bytes_of, drop_app_length. by rewrite string_of_bytes_of.
Qed.

Lemma toy_overhead key nonce ad :
  (16 <= String.length (bindFields key [nonce; ad; EmptyString]))%nat.
Proof.
  rewrite <- length_bytes_of, bindFields_encode, bytes_of_string_of. cbn [encode_fields].
  rewrite !length_app. cbn [length be32]. lia.
Qed.

#[export] Instance toy_laws : PrimitiveLaws toy_primitives.
Proof.
  split.
  - intros seed priv Hp. simpl in *. injection Hp as <-. by eexists.
  - intros seed priv pub info text sealed Hp Hs. simpl in *. injection Hs as <-.
    destruct (String.eqb priv EmptyString); [done|]. injection Hp as <-. apply strip_prefix_app.
  - intros. apply strip_prefix_app.
  - intros. cbn [gcm_Seal toy_primitives].
    rewrite <- (length_bytes_of (_ +:+ _)), bytes_of_app, length_app, !length_bytes_of.
    pose proof (toy_overhead key nonce ad). lia.
  - intros password salt t m p n Hn. cbn [argon2_IDKey toy_primitives]. rewrite <- length_bytes_of, bytes_of_string_of, length_take,
      length_app, repeat_length. lia.
Qed.

(** ** Environments *)

(** A string of [n] bytes that depends on the draw. *)
Definition demo_bytes (k n : nat) : string :=
  string_of (repeat (byte_of (Z.of_nat k mod 256)) n).

Lemma demo_bytes_length k n s : Some (demo_bytes k n) = Some s -> String.length s = n.
Proof.
  intros H. injection H as <-. unfold demo_bytes.
  rewrite <- length_bytes_of, bytes_of_string_of. apply repeat_length.
Qed.

(** A clock that ticks every second from [start] on; nothing fails. *)
Definition demo_env (start : Time) : Env := {|
  clock := fun k => start + Z.of_nat k * 10 ^ 9;
  entropy := fun k n => Some (demo_bytes k n);
  entropy_length := demo_bytes_length;
  statement_fails := fun _ => false;
  folder_fails := fun _ => false
|}.

Definition open_conn (d : SystemDB) : Conn := mkConn d ∅ 0 0 0 0 EmptyString.

(** Run one transaction at a given time, starting the random source at [k]. *)
Definition at_time {A} (start : Time) (k : nat) (m : forall _ : Env, Tx A) (d : SystemDB)
    : result UserError A * SystemDB :=
  let (r, c) := m (demo_env start) (mkConn d ∅ 0 k 0 0 EmptyString) in (r, db c).

Definition day0 : Time := 20000 * day_ns.

(** The data keys the creations below draw, after the salt of the hash. *)
Definition dek_a : string := demo_bytes 1 DEKSize.
Definition dek_b : string := demo_bytes 41 DEKSize.

Existing Instance key_order.

Definition demo1 := at_time day0 0 (fun _ =>
  CreateAccountWithPrincipal "/root" EmptyString "alice" "Alice" "alice-pw" true None) empty_db.
Definition demo2 := at_time day0 20 (fun _ => EnrollAdminSession "alice" dek_a) demo1.2.
Definition demo3 := at_time day0 40 (fun _ =>
  CreateAccountWithPrincipal "/root" "alice" "bob" "Bob" "bob-pass" true None) demo2.2.
Definition demo4 := at_time day0 60 (fun _ => SetStandby "alice" dek_a "bob" 30) demo3.2.
Definition demo5 := at_time (day0 + 31 * day_ns) 80 (fun _ =>
  TakeOverSuper "bob" dek_b "vacation" EmptyString) demo4.2.
