(* ===== verification/TxLogic.v ===== *)
(** * Reasoning about transactions

    [respects R m]: whatever the environment does and whether [m] succeeds or
    fails, the database before and after are related by the preorder [R].  Every
    operation of the account store respects a relation as soon as the statements
    it is made of do ([EscrowStatements], [RoleStatements]); inversion lemmas for
    successful runs. *)

From S2P Require Import Prelude GoStrings GoTime EscrowCrypto Passwords SystemDb Accounts Escrow.
From S2P Require Import RecoveryCode Succession Access Credentials.

Local Open Scope Z_scope.

Create HintDb tx.

Definition respects (R : SystemDB -> SystemDB -> Prop) {A} (m : Tx A) : Prop :=
  forall c, R (db c) (db (m c).2).

(** A statement that only makes [R]-steps. *)
Definition moves (R : SystemDB -> SystemDB -> Prop) (f : SystemDB -> option SystemDB) : Prop :=
  forall d d', f d = Some d' -> R d d'.

Section rules.
Context `{Env} (R : SystemDB -> SystemDB -> Prop) `{!PreOrder R}.

Lemma respects_ret {A} (a : A) : respects R (tx_ret a).
Proof. intros c. reflexivity. Qed.

Lemma respects_fail {A} e : respects R (@tx_fail A e).
Proof. intros c. reflexivity. Qed.

Lemma respects_of {A} (r : result UserError A) : respects R (tx_of r).
Proof. intros c. reflexivity. Qed.

Lemma respects_bind {A B} (m : Tx A) (k : A -> Tx B) :
  respects R m -> (forall a, respects R (k a)) -> respects R (tx_bind m k).
Proof.
  intros Hm Hk c. unfold tx_bind. specialize (Hm c).
  destruct (m c) as [[a|e] c']; simpl in *; [|done]. etransitivity; [apply Hm|apply Hk].
Qed.

Lemma respects_try {A B} (m : Tx A) (k : result UserError A -> Tx B) :
  respects R m -> (forall r, respects R (k r)) -> respects R (tx_try m k).
Proof.
  intros Hm Hk c. unfold tx_try. specialize (Hm c).
  destruct (m c) as [r c']; simpl in *. etransitivity; [apply Hm|apply Hk].
Qed.

Lemma respects_guard b e : respects R (tx_guard b e).
Proof. destruct b; [apply respects_ret|apply respects_fail]. Qed.

Lemma respects_when b m : respects R m -> respects R (tx_when b m).
Proof. destruct b; [done|]. intros _. apply respects_ret. Qed.

Lemma respects_each_in {A} (l : list A) body :
  (forall x, x ∈ l -> respects R (body x)) -> respects R (tx_each l body).
Proof.
  induction l as [|x l IH]; intros Hb; [apply respects_ret|].
  apply respects_bind; [apply Hb; constructor|]. intros _. apply IH. intros y Hy. apply Hb.
  by constructor.
Qed.

Lemma respects_each {A} (l : list A) body :
  (forall x, respects R (body x)) -> respects R (tx_each l body).
Proof. intros Hb. by apply respects_each_in. Qed.

Lemma respects_fold {A B} (body : A -> B -> Tx A) l : forall a,
  (forall a x, respects R (body a x)) -> respects R (tx_fold body a l).
Proof.
  induction l as [|x l IH]; intros a Hb; [apply respects_ret|].
  apply respects_bind; [done|]. intros a'. by apply IH.
Qed.

Lemma respects_crypto {A} (r : result CryptoError A) : respects R (tx_crypto r).
Proof. destruct r; [apply respects_ret|apply respects_fail]. Qed.

Lemma respects_auth {A} (r : result AuthError A) : respects R (tx_auth r).
Proof. destruct r; [apply respects_ret|apply respects_fail]. Qed.

Lemma respects_now : respects R tx_now.
Proof. intros c. reflexivity. Qed.

Lemma respects_stamp : respects R nowStamp.
Proof. apply respects_bind; [apply respects_now|]. intros. apply respects_ret. Qed.

Lemma respects_rand n : respects R (tx_rand n).
Proof. intros c. unfold tx_rand. destruct (entropy _ _); reflexivity. Qed.

Lemma respects_statement {A} (f : SystemDB -> option (A * SystemDB)) :
  (forall d a d', f d = Some (a, d') -> R d d') -> respects R (statement f).
Proof.
  intros Hf c. unfold statement. destruct (statement_fails _); [reflexivity|].
  destruct (f (db c)) as [[a d]|] eqn:Hd; simpl; [by apply (Hf _ a)|reflexivity].
Qed.

Lemma respects_exec f : moves R f -> respects R (exec f).
Proof.
  intros Hf. apply respects_statement. intros d a d' Hd.
  destruct (f d) as [x|] eqn:Hx; simpl in Hd; [|done]. injection Hd as _ <-. by apply Hf.
Qed.

Lemma respects_query {A} (f : SystemDB -> A) : respects R (query f).
Proof. apply respects_statement. intros d a d' Hd. injection Hd as _ <-. reflexivity. Qed.

Lemma respects_query_row {A} (f : SystemDB -> option A) : respects R (query_row f).
Proof.
  apply respects_bind; [apply respects_query|].
  intros [a|]; [apply respects_ret|apply respects_fail].
Qed.

Lemma respects_optional {A} (f : SystemDB -> option A) : respects R (optional_row f).
Proof.
  apply respects_try; [apply respects_query_row|].
  intros [a|e]; [apply respects_ret|]. destruct e; first [apply respects_ret|apply respects_fail].
Qed.

Lemma respects_folder f : respects R (tx_folder f).
Proof. intros c. unfold tx_folder. destruct (folder_fails _); reflexivity. Qed.

Lemma respects_remove_folder u : respects R (removeNewUserFolder u).
Proof. intros c. reflexivity. Qed.

Lemma respects_folder_exists u : respects R (tx_folder_exists u).
Proof. intros c. reflexivity. Qed.

Lemma respects_capture v : respects R (tx_capture v).
Proof. intros c. reflexivity. Qed.

Lemma respects_captured : respects R tx_captured.
Proof. intros c. reflexivity. Qed.

Lemma respects_savepoint {A} (body : Tx A) : respects R body -> respects R (in_savepoint body).
Proof.
  intros Hb c. unfold in_savepoint, tx_bind, query, statement.
  destruct (statement_fails _); [reflexivity|].
  set (c1 := set_db (db c) (count_statement c)).
  change (R (db c1) (db (tx_try body (fun r => match r with
    | Ok _ => tx_bind release (fun e => tx_ret (r, e))
    | Err _ => tx_try (exec (fun _ => Some (db c))) (fun rb => match rb with
        | Err _ => tx_ret (r, SpRollbackFailed)
        | Ok _ => tx_bind release (fun e => tx_ret (r, e))
        end)
    end) c1).2)).
  unfold tx_try. specialize (Hb c1). destruct (body c1) as [r c2]. simpl in Hb.
  assert (Hrel : forall c', db (tx_bind release (fun e => tx_ret (r, e)) c').2 = db c').
  { intros c'. unfold release, tx_bind, tx_try, exec, statement.
    destruct (statement_fails _); reflexivity. }
  destruct r as [a|e].
  - by rewrite Hrel.
  - unfold exec at 1, statement at 1. destruct (statement_fails _); [done|]. simpl.
    rewrite Hrel. simpl. reflexivity.
Qed.

Lemma respects_commit : moves R commit_ok.
Proof.
  intros d d'. unfold commit_ok. destruct (identities_name_users d); [|done].
  intros Hd. injection Hd as <-. reflexivity.
Qed.

Lemma respects_inWriteTx {A} (m : Tx A) : respects R m -> respects R (inWriteTx m).
Proof.
  intros Hm c. unfold inWriteTx.
  assert (Hb : respects R (tx_bind m (fun a => tx_bind (exec commit_ok) (fun _ => tx_ret a)))).
  { apply respects_bind; [done|]. intros a.
    apply respects_bind; [apply respects_exec, respects_commit|]. intros _. apply respects_ret. }
  unfold exec at 1, statement at 1. destruct (statement_fails _); [reflexivity|]. simpl.
  set (c1 := set_db (db c) (count_statement c)). specialize (Hb c1).
  destruct (tx_bind m _ c1) as [[a|e] c2]; [done|]. simpl. reflexivity.
Qed.

End rules.

#[export] Hint Resolve respects_ret respects_fail respects_of respects_guard respects_crypto respects_auth
  respects_now respects_stamp respects_rand respects_query respects_query_row respects_optional
  respects_folder respects_remove_folder respects_folder_exists respects_capture
  respects_captured : tx.

(** Take a transaction apart; the leaves are closed by the [tx] hints. *)
Ltac tx_step :=
  first
  [ solve [eauto with tx typeclass_instances]
  | apply respects_savepoint; [exact _|]
  | apply respects_inWriteTx; [exact _|]
  | apply respects_bind; [exact _| |intros ?]
  | apply respects_try; [exact _| |intros ?]
  | apply respects_when; [exact _|]
  | apply respects_each; [exact _|intros ?]
  | apply respects_fold; [exact _|intros ? ?]
  | match goal with
    | |- respects _ (match ?x with _ => _ end) => destruct x
    | |- respects _ (let (_, _) := ?x in _) => destruct x
    end ].

Ltac tx_respects := repeat tx_step.

(** ** The statements an operation is made of *)

(** Statements of an enrollment: the history, personal keys, pins and seals. *)
Class EnrollStatements (R : SystemDB -> SystemDB -> Prop) : Prop := {
  mv_event t a u x y : moves R (sql_insert_event t a u x y);
  mv_insert_personal u p w t : moves R (sql_insert_personal u p w t);
  mv_repair_personal u p : moves R (sql_repair_personal u p);
  mv_delete_personal u : moves R (sql_delete_personal u);
  mv_attest u a i : moves R (sql_attest u a i);
  mv_insert_pin u i m : moves R (sql_insert_pin u i m);
  mv_upsert_sealed u i s t : moves R (sql_upsert_sealed u i s t)
}.

(** Statements of rotation, grants and recovery codes; grants are given to
    accounts of [S] only. *)
Class EscrowStatements (S : string -> Prop) (R : SystemDB -> SystemDB -> Prop) : Prop := {
  es_enroll :: EnrollStatements R;
  mv_upsert_grant u i s t : S u -> moves R (sql_upsert_grant u i s t);
  mv_upsert_pending r t : moves R (sql_upsert_pending r t);
  mv_delete_pending : moves R sql_delete_pending;
  mv_delete_grant u d : R d (sql_delete_grant u d).2;
  mv_delete_all_grants : moves R sql_delete_all_grants;
  mv_mark_attested u i : moves R (sql_mark_attested u i);
  mv_upsert_pin u i m : moves R (sql_upsert_pin u i m);
  mv_delete_pin u : moves R (sql_delete_pin u);
  mv_delete_other_pins u : moves R (sql_delete_other_pins u);
  mv_delete_stale_pins i d : R d (sql_delete_stale_pins i d).2;
  mv_update_sealed u i s t : moves R (sql_update_sealed u i s t);
  mv_delete_sealed u : moves R (sql_delete_sealed u);
  mv_delete_stale_sealed i : moves R (sql_delete_stale_sealed i);
  mv_delete_all_sealed : moves R sql_delete_all_sealed;
  mv_insert_key i p t : moves R (sql_insert_key i p t);
  mv_retire_key i t : moves R (sql_retire_key i (At t));
  mv_retire_active t : moves R (sql_retire_active (At t));
  mv_delete_recovery d : R d (sql_delete_recovery d).2;
  mv_insert_recovery i r : moves R (sql_insert_recovery i r);
  mv_confirm_recovery i : moves R (sql_confirm_recovery i)
}.

(** Everyone may receive a grant; the accounts of [S] and the empty name may be
    kept at a rotation. *)
Definition anyone (u : string) : Prop := True.

Lemma anyone_any u : anyone u.
Proof. exact I. Qed.

Definition may_keep (S : string -> Prop) (keep : list string) : Prop :=
  Forall (fun u => u = EmptyString \/ S u) keep.

Lemma may_keep_nil S : may_keep S [].
Proof. constructor. Qed.

Lemma may_keep_anyone k : may_keep anyone k.
Proof. apply Forall_forall. intros. by right. Qed.

Lemma may_keep_one S u : u = EmptyString \/ S u -> may_keep S [u].
Proof. intros Hu. apply Forall_cons. split; [done|constructor]. Qed.

#[export] Hint Resolve anyone_any may_keep_nil may_keep_anyone : tx.

(** The statements of the checks: a vacant super administrator's role is
    assigned, a standby who is no longer one is cleared. *)
Class AssignStatements (R : SystemDB -> SystemDB -> Prop) : Prop := {
  mv_upsert_super u t : moves R (sql_upsert_super u t);
  mv_clear_standby u t d : R d (sql_clear_standby u t d).2
}.

(** Statements on accounts, their identities, the roles and the protections. *)
Class RoleStatements (R : SystemDB -> SystemDB -> Prop) : Prop := {
  mv_update_user u f : moves R (sql_update_user u f);
  mv_insert_user u r : moves R (sql_insert_user u r);
  mv_delete_user u : moves R (sql_delete_user u);
  mv_insert_identity i u : moves R (sql_insert_identity i u);
  rl_assign :: AssignStatements R;
  mv_upsert_succession r : moves R (sql_upsert_succession r);
  mv_delete_protection u : moves R (sql_delete_protection u);
  mv_upsert_protection u r : moves R (sql_upsert_protection u r);
  mv_upsert_notice u n : moves R (sql_upsert_notice u n);
  mv_delete_codes u : moves R (sql_delete_codes u);
  mv_insert_code u h w t : moves R (sql_insert_code u h w t);
  mv_use_code i t : moves R (sql_use_code i t)
}.

#[export] Hint Resolve respects_exec : tx.
#[export] Hint Resolve mv_event mv_upsert_pending mv_delete_pending mv_upsert_grant
  mv_delete_all_grants mv_insert_personal mv_repair_personal mv_delete_personal mv_attest
  mv_mark_attested mv_insert_pin mv_upsert_pin mv_delete_pin mv_delete_other_pins
  mv_upsert_sealed mv_update_sealed mv_delete_sealed mv_delete_stale_sealed
  mv_delete_all_sealed mv_insert_key mv_retire_key mv_retire_active mv_insert_recovery
  mv_confirm_recovery : tx.
#[export] Hint Resolve mv_update_user mv_insert_user mv_delete_user mv_insert_identity
  mv_upsert_super mv_upsert_succession mv_delete_protection mv_upsert_protection
  mv_upsert_notice mv_delete_codes mv_insert_code mv_use_code : tx.

Section operations.
Context `{Env} `{RangeOrder} `{Primitives} (R : SystemDB -> SystemDB -> Prop) `{!PreOrder R}.

(** A statement that returns its number of rows. *)
Lemma respects_rows {A} (f : SystemDB -> A * SystemDB) :
  (forall d, R d (f d).2) -> respects R (statement (fun d => Some (f d))).
Proof.
  intros Hf. apply respects_statement; [done|]. intros d a d' Hd. injection Hd as Hd.
  rewrite <- (f_equal snd Hd : (f d).2 = d'). apply Hf.
Qed.

Lemma respects_exec_rows {A} (f : SystemDB -> A * SystemDB) :
  (forall d, R d (f d).2) -> respects R (exec (fun d => Some (f d).2)).
Proof.
  intros Hf. apply respects_exec; [done|]. intros d d' Hd. injection Hd as <-. apply Hf.
Qed.

(** ** Reads *)

Lemma respects_enabledAdminCount : respects R enabledAdminCount.
Proof. unfold enabledAdminCount. tx_respects. Qed.
Hint Resolve respects_enabledAdminCount : tx.

Lemma respects_accountRole u : respects R (accountRole u).
Proof. unfold accountRole. tx_respects. Qed.
Hint Resolve respects_accountRole : tx.

Lemma respects_requireEnabledAdmin u : respects R (requireEnabledAdmin u).
Proof. unfold requireEnabledAdmin. tx_respects. Qed.
Hint Resolve respects_requireEnabledAdmin : tx.

Lemma respects_guardLastEnabledAdmin a b : respects R (guardLastEnabledAdmin a b).
Proof. unfold guardLastEnabledAdmin. tx_respects. Qed.
Hint Resolve respects_guardLastEnabledAdmin : tx.

Lemma respects_activeEscrowKey : respects R activeEscrowKey.
Proof. unfold activeEscrowKey. tx_respects. Qed.
Hint Resolve respects_activeEscrowKey : tx.

Lemma respects_rotationPendingTx : respects R rotationPendingTx.
Proof. unfold rotationPendingTx. tx_respects. Qed.
Hint Resolve respects_rotationPendingTx : tx.

Lemma respects_requireUnprotectedTx u : respects R (requireUnprotectedTx u).
Proof. unfold requireUnprotectedTx, protectionTx. tx_respects. Qed.
Hint Resolve respects_requireUnprotectedTx : tx.

Lemma respects_requirePersonalKeyTx u : respects R (requirePersonalKeyTx u).
Proof. unfold requirePersonalKeyTx. tx_respects. Qed.
Hint Resolve respects_requirePersonalKeyTx : tx.

Lemma respects_HashPassword p : respects R (tx_HashPassword p).
Proof. unfold tx_HashPassword. tx_respects. Qed.
Hint Resolve respects_HashPassword : tx.

Lemma respects_WrapKey k s : respects R (tx_WrapKey k s).
Proof. unfold tx_WrapKey. tx_respects. Qed.
Hint Resolve respects_WrapKey : tx.

Lemma respects_ValidatePassword p : respects R (ValidatePassword p).
Proof. unfold ValidatePassword. tx_respects. Qed.
Hint Resolve respects_ValidatePassword : tx.

Lemma respects_readCredentialRow u : respects R (readCredentialRow u).
Proof. unfold readCredentialRow. tx_respects. Qed.
Hint Resolve respects_readCredentialRow : tx.

Lemma respects_read_password u : respects R (read_password u).
Proof. unfold read_password. tx_respects. Qed.
Hint Resolve respects_read_password : tx.

Lemma respects_verified_dek hw p : respects R (verified_dek hw p).
Proof. unfold verified_dek. tx_respects. Qed.
Hint Resolve respects_verified_dek : tx.

Lemma respects_unlockKey s p : respects R (unlockKey s p).
Proof. unfold unlockKey, GenerateDEK. tx_respects. Qed.
Hint Resolve respects_unlockKey : tx.

Lemma respects_checkPassword s p : respects R (checkPassword s p).
Proof. unfold checkPassword. tx_respects. Qed.
Hint Resolve respects_checkPassword : tx.

Lemma respects_prepareSignIn s p : respects R (prepareSignIn s p).
Proof. unfold prepareSignIn. tx_respects. Qed.
Hint Resolve respects_prepareSignIn : tx.

Lemma respects_newRecoveryCodeSet k : respects R (newRecoveryCodeSet k).
Proof. unfold newRecoveryCodeSet, add_code, generateCode. tx_respects. Qed.
Hint Resolve respects_newRecoveryCodeSet : tx.

Lemma respects_interleave m : respects R m -> respects R (interleave m).
Proof. intros Hm. unfold interleave. tx_respects. Qed.

Lemma respects_keypair : respects R tx_keypair.
Proof. unfold tx_keypair, tx_seed. tx_respects. Qed.
Hint Resolve respects_keypair : tx.

Lemma respects_NewEscrowKeyID : respects R NewEscrowKeyID.
Proof. unfold NewEscrowKeyID. tx_respects. Qed.
Hint Resolve respects_NewEscrowKeyID : tx.

Lemma respects_openRecoveryTx x : respects R (openRecoveryTx x).
Proof. unfold openRecoveryTx. tx_respects. Qed.
Hint Resolve respects_openRecoveryTx : tx.

Lemma respects_recoveryStateTx : respects R recoveryStateTx.
Proof. unfold recoveryStateTx. tx_respects. Qed.
Hint Resolve respects_recoveryStateTx : tx.

(** ** Enrollment *)

Section enroll.
Context `{!EnrollStatements R}.

Lemma respects_event a u x y : respects R (recordAccountEvent a u x y).
Proof. unfold recordAccountEvent. tx_respects. Qed.
Hint Resolve respects_event : tx.

Lemma respects_new_personal_key u d b : respects R (new_personal_key u d b).
Proof. unfold new_personal_key. tx_respects. Qed.
Hint Resolve respects_new_personal_key : tx.

Lemma respects_ensurePersonalKey u d : respects R (ensurePersonalKey u d).
Proof. unfold ensurePersonalKey. tx_respects. Qed.
Hint Resolve respects_ensurePersonalKey : tx.

Lemma respects_attestTx s u p : respects R (attestTx s u p).
Proof. unfold attestTx. tx_respects. Qed.
Hint Resolve respects_attestTx : tx.

Lemma respects_enroll_seal u d k s p : respects R (enroll_seal u d k s p).
Proof. unfold enroll_seal, tx_seed. tx_respects. Qed.
Hint Resolve respects_enroll_seal : tx.

Lemma respects_enrollTx u d s : respects R (enrollTx u d s).
Proof. unfold enrollTx. tx_respects. Qed.
Hint Resolve respects_enrollTx : tx.

Lemma respects_enrollInSavepoint u d s : respects R (enrollInSavepoint u d s).
Proof. unfold enrollInSavepoint. tx_respects. Qed.
Hint Resolve respects_enrollInSavepoint : tx.

End enroll.

#[local] Hint Resolve respects_event respects_new_personal_key respects_ensurePersonalKey respects_attestTx respects_enroll_seal respects_enrollTx respects_enrollInSavepoint : tx.

(** ** Grants, rotation and recovery *)

Section escrow.
Context (S : string -> Prop) `{!EscrowStatements S R}.

Lemma respects_markRotationPendingTx r : respects R (markRotationPendingTx r).
Proof. unfold markRotationPendingTx. tx_respects. Qed.
Hint Resolve respects_markRotationPendingTx : tx.

Lemma respects_removeGrantTx u : respects R (removeGrantTx u).
Proof. unfold removeGrantTx. apply respects_exec_rows, mv_delete_grant. Qed.
Hint Resolve respects_removeGrantTx : tx.

Lemma respects_revokeGrantTx u r : respects R (revokeGrantTx u r).
Proof. unfold revokeGrantTx, holdsAnyGrantTx. tx_respects. Qed.
Hint Resolve respects_revokeGrantTx : tx.

Lemma respects_grantTx s u p :
  S u -> respects R (grantTx s u p).
Proof. intros Hu. unfold grantTx, tx_seed. tx_respects. Qed.
Hint Resolve respects_grantTx : tx.

Lemma respects_unusable_grant {A} u x : respects R (@unusable_grant _ A u x).
Proof.
  unfold unusable_grant. apply respects_bind; [done| |intros ?; tx_respects].
  apply respects_exec_rows, mv_delete_grant.
Qed.
Hint Resolve respects_unusable_grant : tx.

Lemma respects_openGrantTx u d : respects R (openGrantTx u d).
Proof. unfold openGrantTx. tx_respects. Qed.
Hint Resolve respects_openGrantTx : tx.

Lemma respects_try_open_grant u d : respects R (try_open_grant u d).
Proof. unfold try_open_grant. tx_respects. Qed.
Hint Resolve respects_try_open_grant : tx.

Lemma respects_attestAndGrantTx s a u p x i :
  S u -> respects R (attestAndGrantTx s a u p x i).
Proof. intros Hu. unfold attestAndGrantTx. tx_respects. Qed.
Hint Resolve respects_attestAndGrantTx : tx.

Lemma respects_passKeyTx a d t :
  S t -> respects R (passKeyTx a d t).
Proof. intros Ht. unfold passKeyTx. tx_respects. Qed.
Hint Resolve respects_passKeyTx : tx.

Lemma respects_removeSubordinateGrantTx u : respects R (removeSubordinateGrantTx u).
Proof.
  unfold removeSubordinateGrantTx. apply respects_bind; [done| |intros ?; tx_respects].
  apply respects_rows, mv_delete_grant.
Qed.
Hint Resolve respects_removeSubordinateGrantTx : tx.

Lemma respects_resealTx o n : respects R (resealTx o n).
Proof.
  unfold resealTx. apply respects_bind; [done|tx_respects|intros rows].
  apply respects_bind; [done|tx_respects|intros now].
  apply respects_bind; [done| |intros ?].
  { apply respects_fold; [done|]. intros a x. unfold reseal_row, tx_seed. tx_respects. }
  apply respects_bind; [done| |intros ?; tx_respects].
  apply respects_rows, mv_delete_stale_pins.
Qed.
Hint Resolve respects_resealTx : tx.

Lemma respects_reattestTx o n : respects R (reattestTx o n).
Proof. unfold reattestTx, reattest_row. tx_respects. Qed.
Hint Resolve respects_reattestTx : tx.

Lemma respects_grant_recipient s a n :
  S n -> respects R (grant_recipient s a n).
Proof. intros Hn. unfold grant_recipient. tx_respects. Qed.
Hint Resolve respects_grant_recipient : tx.

Lemma respects_delete_recovery : respects R (exec (fun d => Some (sql_delete_recovery d).2)).
Proof. apply respects_exec_rows, mv_delete_recovery. Qed.
Hint Resolve respects_delete_recovery : tx.

(** Whoever may receive the new key: the actor and the names kept. *)
Lemma recipients_in a k x : S a -> may_keep S k -> x ∈ foldl add_recipient [a] k -> S x.
Proof.
  intros Ha Hk. assert (Hg : forall l, Forall S l -> Forall S (foldl add_recipient l k)).
  { induction Hk as [|y k Hy _ IH]; intros l Hl; [done|]. simpl. apply IH.
    unfold add_recipient. destruct (String.eqb_spec y EmptyString); [done|]. simpl.
    case_bool_decide; [done|]. simpl. apply Forall_app. split; [done|]. constructor; [|done].
    by destruct Hy. }
  intros Hx. assert (Hl : Forall S (foldl add_recipient [a] k)) by (apply Hg; by constructor).
  by eapply Forall_forall in Hl.
Qed.

Lemma respects_rotateTx o a d k r :
  S a -> may_keep S k -> respects R (rotateTx o a d k r).
Proof.
  intros Ha Hk. unfold rotateTx. do 8 (apply respects_bind; [done|solve [tx_respects]|intros ?]).
  apply respects_bind; [done| |intros ?; tx_respects].
  apply respects_each_in; [done|]. intros x Hx. apply respects_grant_recipient.
  by eapply recipients_in.
Qed.
Hint Resolve respects_rotateTx : tx.

Lemma respects_rotateInSavepointTx o a d k r :
  S a -> may_keep S k -> respects R (rotateInSavepointTx o a d k r).
Proof. intros Ha Hk. unfold rotateInSavepointTx. tx_respects. Qed.
Hint Resolve respects_rotateInSavepointTx : tx.

Lemma respects_rotateWithOwnKeyTx a d k r :
  S a -> may_keep S k -> respects R (rotateWithOwnKeyTx a d k r).
Proof. intros Ha Hk. unfold rotateWithOwnKeyTx. tx_respects. Qed.
Hint Resolve respects_rotateWithOwnKeyTx : tx.

Lemma respects_bootstrapTx a d :
  S a -> respects R (bootstrapTx a d).
Proof. intros Ha. unfold bootstrapTx. tx_respects. Qed.
Hint Resolve respects_bootstrapTx : tx.

Lemma respects_adminDutiesTx s : respects R (adminDutiesTx s).
Proof. unfold adminDutiesTx, check_attested, checkSealedDEKsTx, drop_sealed. tx_respects. Qed.
Hint Resolve respects_adminDutiesTx : tx.

Lemma respects_newEscrowKeyTx a d r :
  S a -> respects R (newEscrowKeyTx a d r).
Proof. intros Ha. unfold newEscrowKeyTx. tx_respects. Qed.
Hint Resolve respects_newEscrowKeyTx : tx.

Lemma respects_takeover_rotation o a d f :
  S a -> respects R (takeover_rotation o a d f).
Proof. intros Ha. unfold takeover_rotation. tx_respects. Qed.
Hint Resolve respects_takeover_rotation : tx.

End escrow.

#[local] Hint Resolve respects_event respects_enabledAdminCount respects_accountRole
  respects_requireEnabledAdmin respects_guardLastEnabledAdmin respects_activeEscrowKey
  respects_markRotationPendingTx respects_rotationPendingTx respects_removeGrantTx
  respects_revokeGrantTx respects_requireUnprotectedTx respects_requirePersonalKeyTx
  respects_ensurePersonalKey respects_attestTx respects_enrollTx respects_enrollInSavepoint
  respects_grantTx respects_openGrantTx respects_try_open_grant respects_passKeyTx
  respects_removeSubordinateGrantTx respects_rotateTx respects_rotateInSavepointTx
  respects_rotateWithOwnKeyTx respects_bootstrapTx respects_adminDutiesTx
  respects_newEscrowKeyTx respects_openRecoveryTx respects_recoveryStateTx
  respects_takeover_rotation respects_delete_recovery : tx.

(** ** Checks of the super administrator and the session of an administrator *)

Section assign.
Context `{!EscrowStatements anyone R} `{!AssignStatements R}.

Lemma respects_assign_super u : respects R (assign_super u).
Proof. unfold assign_super, earliestEnabledAdmin. tx_respects. Qed.
Hint Resolve respects_assign_super : tx.

Lemma respects_ensureSuperTx : respects R ensureSuperTx.
Proof. unfold ensureSuperTx. tx_respects. Qed.
Hint Resolve respects_ensureSuperTx : tx.

Lemma respects_requireSuperTx u : respects R (requireSuperTx u).
Proof. unfold requireSuperTx. tx_respects. Qed.
Hint Resolve respects_requireSuperTx : tx.

Lemma respects_clearStandbyTx a u x : respects R (clearStandbyTx a u x).
Proof.
  unfold clearStandbyTx. apply respects_bind; [done|tx_respects|intros t].
  apply respects_bind; [done| |intros ?; tx_respects].
  apply respects_rows. intros d. apply mv_clear_standby.
Qed.
Hint Resolve respects_clearStandbyTx : tx.

Lemma respects_readSuccessionTx : respects R readSuccessionTx.
Proof. unfold readSuccessionTx, read_standby, read_super_activity. tx_respects. Qed.
Hint Resolve respects_readSuccessionTx : tx.

Lemma respects_runPendingRotationTx s a d : respects R (runPendingRotationTx s a d).
Proof. unfold runPendingRotationTx, rotatorTx, holdsAnyGrantTx. tx_respects. Qed.
Hint Resolve respects_runPendingRotationTx : tx.

Lemma respects_enrollAdminSessionTx a d : respects R (enrollAdminSessionTx a d).
Proof. unfold enrollAdminSessionTx, standby_session, super_session. tx_respects. Qed.
Hint Resolve respects_enrollAdminSessionTx : tx.

End assign.

#[local] Hint Resolve respects_assign_super respects_ensureSuperTx respects_requireSuperTx
  respects_clearStandbyTx respects_readSuccessionTx respects_runPendingRotationTx respects_enrollAdminSessionTx : tx.

Section roles.
Context `{!EscrowStatements anyone R} `{!RoleStatements R}.

Lemma respects_requireAccountActionTx a u b : respects R (requireAccountActionTx a u b).
Proof. unfold requireAccountActionTx. tx_respects. Qed.
Hint Resolve respects_requireAccountActionTx : tx.

Lemma respects_update_super u t : respects R (exec (sql_update_super u t)).
Proof.
  apply respects_exec; [done|]. intros d d'. unfold sql_update_super.
  destruct (super_admin d); [apply mv_upsert_super|]. intros Hd. injection Hd as <-. reflexivity.
Qed.
Hint Resolve respects_update_super : tx.

Lemma respects_update_user_if p u f : respects R (statement (sql_update_user_if p u f)).
Proof.
  apply respects_statement; [done|]. intros d n d'. unfold sql_update_user_if.
  destruct (users d !! u); [|intros Hd; injection Hd as _ <-; reflexivity].
  destruct (p u0); [|intros Hd; injection Hd as _ <-; reflexivity].
  destruct (sql_update_user u f d) as [x|] eqn:Hx; [|done]. intros Hd. injection Hd as _ <-.
  by apply (mv_update_user u f).
Qed.
Hint Resolve respects_update_user_if : tx.

Lemma respects_recover_with a d k p : respects R (recover_with a d k p).
Proof. unfold recover_with, recovery_mismatch, restore_key. tx_respects. Qed.
Hint Resolve respects_recover_with : tx.

Lemma respects_insertAccount r u n h b : respects R (insertAccount r u n h b).
Proof.
  unfold insertAccount, createUserFolder, or_remove_folder, allocateAccountIdentity. tx_respects.
Qed.
Hint Resolve respects_insertAccount : tx.

Lemma respects_creation_rule c b n : respects R (creation_rule c b n).
Proof. unfold creation_rule. tx_respects. Qed.
Hint Resolve respects_creation_rule : tx.

(** ** The operations of the store *)

Lemma respects_SetDisabled a u b : respects R (SetDisabled a u b).
Proof. unfold SetDisabled, setDisabledTx. tx_respects. Qed.

Lemma respects_SetAdmin a u b : respects R (SetAdmin a u b).
Proof. unfold SetAdmin. tx_respects. Qed.

Lemma respects_ClaimAdmin u : respects R (ClaimAdmin u).
Proof. unfold ClaimAdmin. tx_respects. Qed.

Lemma respects_PromoteAdmin a u : respects R (PromoteAdmin a u).
Proof. unfold PromoteAdmin. tx_respects. Qed.

Lemma respects_PurgeAccount a u x : respects R (PurgeAccount a u x).
Proof. unfold PurgeAccount, purgeAccountTx, tx_RemoveAll. tx_respects. Qed.

Lemma respects_RequireSuper a : respects R (RequireSuper a).
Proof. unfold RequireSuper. tx_respects. Qed.

Lemma respects_HandOverSuper a d t : respects R (HandOverSuper a d t).
Proof.
  unfold HandOverSuper, recording_attestation_failure, recordAttestationFailure, handOverTx,
    requireTargetAdmin, holdsActiveGrantTx, clearProtectionTx. tx_respects.
Qed.

Lemma respects_SetStandby a d u n : respects R (SetStandby a d u n).
Proof.
  unfold SetStandby, recording_attestation_failure, recordAttestationFailure, setStandbyTx,
    require_standby, requireTargetAdmin, replace_standby, store_standby, holdsActiveGrantTx,
    holdsAnyGrantTx. tx_respects.
Qed.

Lemma respects_TakeOverSuper a d r n : respects R (TakeOverSuper a d r n).
Proof.
  unfold TakeOverSuper, takeOverTx, holdsAnyGrantTx, clearProtectionTx. tx_respects.
Qed.

Lemma respects_SuccessionFor a : respects R (SuccessionFor a).
Proof.
  unfold SuccessionFor, holds_key, holdsActiveGrantTx, activeProtectionsTx, protectionTx.
  tx_respects.
Qed.

Lemma respects_EnrollSession u d : respects R (EnrollSession u d).
Proof. unfold EnrollSession. tx_respects. Qed.

Lemma respects_OpenEscrow u d : respects R (OpenEscrow u d).
Proof. unfold OpenEscrow. tx_respects. Qed.

Lemma respects_EnrollAdminSession u d : respects R (EnrollAdminSession u d).
Proof. unfold EnrollAdminSession. tx_respects. Qed.

Lemma respects_RunPendingRotation u d : respects R (RunPendingRotation u d).
Proof. unfold RunPendingRotation. tx_respects. Qed.

Lemma respects_ReplaceEscrowKey a d k : respects R (ReplaceEscrowKey a d k).
Proof. unfold ReplaceEscrowKey, or_no_grant. tx_respects. Qed.

Lemma respects_CreateNewEscrowKey a d r : respects R (CreateNewEscrowKey a d r).
Proof. unfold CreateNewEscrowKey. tx_respects. Qed.

Lemma respects_CreateEscrowRecoveryCode a d : respects R (CreateEscrowRecoveryCode a d).
Proof.
  unfold CreateEscrowRecoveryCode, or_no_grant.
  apply respects_bind; [done| |intros ?; tx_respects]. apply respects_inWriteTx; [done|].
  apply respects_bind; [done|tx_respects|intros ?].
  apply respects_bind; [done|tx_respects|intros [?|]]; [|tx_respects].
  do 3 (apply respects_bind; [done|tx_respects|intros ?]).
  apply respects_bind; [done| |intros ?; tx_respects].
  apply respects_rows. apply mv_delete_recovery.
Qed.

Lemma respects_CheckEscrowRecoveryCode a x : respects R (CheckEscrowRecoveryCode a x).
Proof. unfold CheckEscrowRecoveryCode. tx_respects. Qed.

Lemma respects_ConfirmEscrowRecoveryCode a x : respects R (ConfirmEscrowRecoveryCode a x).
Proof. unfold ConfirmEscrowRecoveryCode. tx_respects. Qed.

Lemma respects_RecoverEscrowKey a d x : respects R (RecoverEscrowKey a d x).
Proof. unfold RecoverEscrowKey. tx_respects. Qed.

Lemma respects_AcknowledgeAccessNotices u n : respects R (AcknowledgeAccessNotices u n).
Proof. unfold AcknowledgeAccessNotices. tx_respects. Qed.

Lemma respects_OpenUserForAdmin a d t r : respects R (OpenUserForAdmin a d t r).
Proof. unfold OpenUserForAdmin, openUserTx, grant_or_refusal. tx_respects. Qed.

Lemma respects_storeAccount r c u n h d w b s : respects R (storeAccount r c u n h d w b s).
Proof. unfold storeAccount, createAccountTx. tx_respects. Qed.
Hint Resolve respects_storeAccount : tx.

Lemma respects_CreateAccountWithPrincipal r c u n p b s :
  respects R (CreateAccountWithPrincipal r c u n p b s).
Proof. unfold CreateAccountWithPrincipal. tx_respects. Qed.

Lemma respects_storeCredentialWorkTx u s w : respects R (storeCredentialWorkTx u s w).
Proof. unfold storeCredentialWorkTx. tx_respects. Qed.
Hint Resolve respects_storeCredentialWorkTx : tx.

Lemma respects_enrollInSignInSavepoint m : respects R m -> respects R (enrollInSignInSavepoint m).
Proof. intros Hm. unfold enrollInSignInSavepoint. tx_respects. Qed.
Hint Resolve respects_enrollInSignInSavepoint : tx.

Lemma respects_SignInCommit u s w b : respects R (SignInCommit u s w b).
Proof.
  unfold SignInCommit, signInTx, requireSameCredentialsTx.
  tx_respects; apply respects_enrollInSignInSavepoint; tx_respects.
Qed.

Lemma respects_swapPassword u h w h' w' : respects R (swapPassword u h w h' w').
Proof. unfold swapPassword, sql_swap_password. tx_respects. Qed.

Lemma respects_replaceRecoveryCodes u s : respects R (replaceRecoveryCodes u s).
Proof. unfold replaceRecoveryCodes. tx_respects. Qed.
Hint Resolve respects_replaceRecoveryCodes : tx.

Lemma respects_issueCodesTx a u c w s : respects R (issueCodesTx a u c w s).
Proof.
  unfold issueCodesTx. tx_respects; apply respects_enrollInSignInSavepoint; tx_respects.
Qed.

Lemma respects_ConfirmRecoveryCodes p : respects R (ConfirmRecoveryCodes p).
Proof. unfold ConfirmRecoveryCodes, recoveryCodesBasis. tx_respects. Qed.

Lemma respects_ResetWithRecoveryCode u x p : respects R (ResetWithRecoveryCode u x p).
Proof. unfold ResetWithRecoveryCode, resetTx, rewrap_key. tx_respects. Qed.

End roles.
End operations.
