(* ===== verification/AccountsMachine.v ===== *)
(** * The account store as a state machine

    The operations of the store, one step of the database under any environment,
    and what holds of every step and every reachable database: the history only
    grows, and the tables stay consistent. *)

From S2P Require Import Prelude GoStrings GoTime EscrowCrypto Passwords SystemDb Accounts.
From S2P Require Import Escrow RecoveryCode Succession Access Credentials TxLogic.

Local Open Scope Z_scope.

(** ** Operations *)

Inductive Operation : Type :=
| OpCreateAccount (root caller username displayName password : string) (isAdmin : bool)
    (session : option EscrowSession)
| OpSignIn (username : string) (snapshot : credentialRow) (w : credentialWork) (adminSession : bool)
| OpSetDisabled (actor username : string) (off : bool)
| OpSetAdmin (actor username : string) (isAdmin : bool)
| OpClaimAdmin (username : string)
| OpPromoteAdmin (actor username : string)
| OpPurgeAccount (actor username detail : string)
| OpRequireSuper (actor : string)
| OpHandOverSuper (actor dek target : string)
| OpSetStandby (actor dek standby : string) (days : Z)
| OpTakeOverSuper (actor dek reason note : string)
| OpSuccession (actor : string)
| OpEnrollSession (username dek : string)
| OpEnrollAdminSession (username dek : string)
| OpOpenEscrow (username dek : string)
| OpRunPendingRotation (actor dek : string)
| OpReplaceEscrowKey (actor dek keepStandby : string)
| OpCreateNewEscrowKey (actor dek reason : string)
| OpCreateRecoveryCode (actor dek : string)
| OpCheckRecoveryCode (actor typed : string)
| OpConfirmRecoveryCode (actor typed : string)
| OpRecoverEscrowKey (actor dek typed : string)
| OpOpenUserForAdmin (actor dek target reason : string)
| OpAcknowledge (username : string) (throughID : Z)
| OpSwapPassword (username hash wrapped newHash newWrap : string)
| OpStoreCodes (username : string) (set : recoveryCodeSet)
| OpIssueCodes (actor username : string) (snapshot : credentialRow) (w : credentialWork)
    (set : recoveryCodeSet)
| OpConfirmCodes (pending : PendingRecoveryCodes)
| OpReset (username code newPassword : string).

Definition forget {A} (m : Tx A) : Tx unit := tx_bind m (fun _ => tx_ret ()).

Definition run `{Env} `{RangeOrder} `{Primitives} (op : Operation) : Tx unit :=
  match op with
  | OpCreateAccount r c u n p b s => forget (CreateAccountWithPrincipal r c u n p b s)
  | OpSignIn u s w b => forget (SignInCommit u s w b)
  | OpSetDisabled a u b => SetDisabled a u b
  | OpSetAdmin a u b => SetAdmin a u b
  | OpClaimAdmin u => ClaimAdmin u
  | OpPromoteAdmin a u => PromoteAdmin a u
  | OpPurgeAccount a u x => PurgeAccount a u x
  | OpRequireSuper a => RequireSuper a
  | OpHandOverSuper a d t => forget (HandOverSuper a d t)
  | OpSetStandby a d u n => forget (SetStandby a d u n)
  | OpTakeOverSuper a d r n => forget (TakeOverSuper a d r n)
  | OpSuccession a => forget (SuccessionFor a)
  | OpEnrollSession u d => EnrollSession u d
  | OpEnrollAdminSession u d => EnrollAdminSession u d
  | OpOpenEscrow u d => forget (OpenEscrow u d)
  | OpRunPendingRotation a d => RunPendingRotation a d
  | OpReplaceEscrowKey a d k => forget (ReplaceEscrowKey a d k)
  | OpCreateNewEscrowKey a d r => forget (CreateNewEscrowKey a d r)
  | OpCreateRecoveryCode a d => forget (CreateEscrowRecoveryCode a d)
  | OpCheckRecoveryCode a x => CheckEscrowRecoveryCode a x
  | OpConfirmRecoveryCode a x => ConfirmEscrowRecoveryCode a x
  | OpRecoverEscrowKey a d x => RecoverEscrowKey a d x
  | OpOpenUserForAdmin a d t r => forget (OpenUserForAdmin a d t r)
  | OpAcknowledge u n => AcknowledgeAccessNotices u n
  | OpSwapPassword u h w h' w' => swapPassword u h w h' w'
  | OpStoreCodes u s => inWriteTx (replaceRecoveryCodes u s)
  | OpIssueCodes a u c w s => inWriteTx (issueCodesTx a u c w s)
  | OpConfirmCodes p => ConfirmRecoveryCodes p
  | OpReset u x p => ResetWithRecoveryCode u x p
  end.

(** One operation, succeeding or failing, in any environment. *)
Inductive step `{Primitives} : SystemDB -> SystemDB -> Prop :=
| step_run (E : Env) (O : RangeOrder) (op : Operation) (c : Conn) :
    step (db c) (db (run op c).2).

Definition reachable `{Primitives} : SystemDB -> Prop := rtc step empty_db.

Section generic.
Context `{Primitives} (R : SystemDB -> SystemDB -> Prop) `{!PreOrder R}.

Lemma respects_forget {A} (m : Tx A) : respects R m -> respects R (forget m).
Proof. intros Hm. apply respects_bind; [done..|]. intros _. by apply respects_ret. Qed.

Lemma run_respects `{!EscrowStatements anyone R} `{!RoleStatements R} (E : Env) (O : RangeOrder) op :
  respects R (run op).
Proof.
  destruct op; simpl; try apply respects_forget.
  - by apply respects_CreateAccountWithPrincipal.
  - by apply respects_SignInCommit.
  - by apply respects_SetDisabled.
  - by apply respects_SetAdmin.
  - by apply respects_ClaimAdmin.
  - by apply respects_PromoteAdmin.
  - by apply respects_PurgeAccount.
  - by apply respects_RequireSuper.
  - by apply respects_HandOverSuper.
  - by apply respects_SetStandby.
  - by apply respects_TakeOverSuper.
  - by apply respects_SuccessionFor.
  - by apply respects_EnrollSession.
  - by apply respects_EnrollAdminSession.
  - by apply respects_OpenEscrow.
  - by apply respects_RunPendingRotation.
  - by apply respects_ReplaceEscrowKey.
  - by apply respects_CreateNewEscrowKey.
  - by apply respects_CreateEscrowRecoveryCode.
  - by apply respects_CheckEscrowRecoveryCode.
  - by apply respects_ConfirmEscrowRecoveryCode.
  - by apply respects_RecoverEscrowKey.
  - by apply respects_OpenUserForAdmin.
  - by apply respects_AcknowledgeAccessNotices.
  - by apply respects_swapPassword.
  - by apply respects_inWriteTx, respects_replaceRecoveryCodes.
  - by apply respects_inWriteTx, respects_issueCodesTx.
  - by apply respects_ConfirmRecoveryCodes.
  - by apply respects_ResetWithRecoveryCode.
Qed.

Lemma step_respects `{!EscrowStatements anyone R} `{!RoleStatements R} d d' : step d d' -> R d d'.
Proof. intros []. by apply run_respects. Qed.

End generic.

(** ** The history is append-only *)

(** [d'] has the history of [d], then new events numbered on from its counter. *)
Definition history_grows (d d' : SystemDB) : Prop :=
  exists new, account_events d' = account_events d ++ new
    /\ ev_ID <$> new = seqZ (event_seq d + 1) (Z.of_nat (length new))
    /\ event_seq d' = event_seq d + Z.of_nat (length new).

#[export] Instance history_preorder : PreOrder history_grows.
Proof.
  split.
  - intros d. exists []. rewrite app_nil_r. simpl. split_and!; [done|done|lia].
  - intros d1 d2 d3 (n1 & H1 & I1 & S1) (n2 & H2 & I2 & S2). exists (n1 ++ n2).
    rewrite H2, H1, fmap_app, I1, I2, length_app, S2, S1, Nat2Z.inj_add. split_and!.
    + by rewrite app_assoc.
    + rewrite seqZ_app by lia. f_equal. f_equal. lia.
    + lia.
Qed.

Lemma history_same d d' :
  account_events d' = account_events d -> event_seq d' = event_seq d -> history_grows d d'.
Proof.
  intros H1 H2. exists []. rewrite app_nil_r, H1, H2. simpl. split_and!; [done|done|lia].
Qed.

(** Unfold one statement and close it by its effect. *)
Ltac sql_cases :=
  repeat (simpl in *; match goal with
  | H : guard_db ?b _ = Some _ |- _ =>
      let E := fresh "Hguard" in destruct b eqn:E; simpl in H; [|discriminate H]
  | H : Some _ = Some _ |- _ => injection H as H; subst
  | H : context [match ?x with _ => _ end] |- _ => destruct x eqn:?; try discriminate H
  | |- context [match ?x with _ => _ end] => destruct x eqn:?
  end).

#[export] Instance history_enroll : EnrollStatements history_grows.
Proof.
  split; try (intros; intros d d' Hd; apply history_same;
    unfold sql_insert_personal, sql_repair_personal, sql_delete_personal, sql_attest,
      sql_insert_pin, sql_upsert_sealed in Hd; sql_cases; done).
  intros t a u x y d d' Hd. injection Hd as <-.
  exists [mkEvent (event_seq d + 1) t a u x y]. simpl. split_and!; [done|done|lia].
Qed.

#[export] Instance history_escrow : EscrowStatements anyone history_grows.
Proof.
  split; [exact _|..]; try (intros; intros d d' Hd; apply history_same;
    unfold sql_upsert_pending, sql_delete_pending, sql_upsert_grant, sql_delete_all_grants,
      sql_mark_attested, sql_upsert_pin, sql_delete_pin, sql_delete_other_pins,
      sql_update_sealed, sql_delete_sealed, sql_delete_stale_sealed, sql_delete_all_sealed,
      sql_insert_key, sql_retire_key, sql_retire_active, sql_insert_recovery,
      sql_confirm_recovery in Hd; sql_cases; done).
  all: intros; by apply history_same.
Qed.

#[export] Instance history_assign : AssignStatements history_grows.
Proof.
  split.
  - intros u t d d' Hd. apply history_same; unfold sql_upsert_super in Hd; sql_cases; done.
  - intros u t d. unfold sql_clear_standby. apply history_same; sql_cases; done.
Qed.

#[export] Instance history_roles : RoleStatements history_grows.
Proof.
  split; try exact _; intros; intros d d' Hd; apply history_same;
    unfold sql_update_user, bump_generation, sql_insert_user, sql_delete_user, sql_insert_identity,
      sql_upsert_succession, sql_delete_protection, sql_upsert_protection,
      sql_upsert_notice, sql_delete_codes, sql_insert_code, sql_use_code in Hd; sql_cases; done.
Qed.

(** The history of system.db is append-only: whatever operation runs,
    whatever statement of it fails, its earlier rows stay as they are and the new
    ones are numbered on. *)
Theorem step_history_append_only `{Primitives} d d' :
  step d d' ->
  exists new, account_events d' = account_events d ++ new
    /\ ev_ID <$> new = seqZ (event_seq d + 1) (Z.of_nat (length new)).
Proof.
  intros Hs. destruct (step_respects history_grows _ _ Hs) as (new & He & Hi & _).
  by exists new.
Qed.

(** ** The tables are consistent *)

(** What the schema, its foreign keys, its unique index and its triggers keep. *)
Record well_formed (d : SystemDB) : Prop := {
  wf_super u t : super_admin d = Some (u, t) -> is_Some (users d !! u);
  wf_standby s u : super_succession d = Some s -> standby s = Some u -> is_Some (users d !! u);
  wf_protection u r : takeover_protection d !! u = Some r -> is_Some (users d !! u);
  wf_personal u r : personal_keys d !! u = Some r -> is_Some (users d !! u);
  wf_notices u n : access_notices d !! u = Some n -> is_Some (users d !! u);
  wf_sealed u r : sealed_deks d !! u = Some r ->
    is_Some (users d !! u) /\ is_Some (escrow_keys d !! sd_key_id r);
  wf_pins u r : escrow_pins d !! u = Some r ->
    is_Some (users d !! u) /\ is_Some (escrow_keys d !! pin_key_id r);
  wf_grants u r : escrow_grants d !! u = Some r ->
    is_Some (users d !! u) /\ is_Some (escrow_keys d !! gr_key_id r);
  wf_recovery i r : escrow_recovery d !! i = Some r -> is_Some (escrow_keys d !! i);
  wf_one_active i j k l :
    escrow_keys d !! i = Some k -> active k = true ->
    escrow_keys d !! j = Some l -> active l = true -> i = j;
  wf_identity u r : users d !! u = Some r ->
    exists id g, account_identity_registry d !! id = Some (Some (u, g));
  wf_one_identity i j u g h :
    account_identity_registry d !! i = Some (Some (u, g)) ->
    account_identity_registry d !! j = Some (Some (u, h)) -> i = j;
  wf_generation i u g :
    account_identity_registry d !! i = Some (Some (u, g)) -> 1 <= g <= max_generation;
  wf_codes c : c ∈ recovery_codes d -> is_Some (users d !! code_user c);
  wf_code_ids : NoDup (code_id <$> recovery_codes d);
  wf_code_seq c : c ∈ recovery_codes d -> code_id c <= code_seq d
}.

Definition keeps_wf (d d' : SystemDB) : Prop := well_formed d -> well_formed d'.

#[export] Instance keeps_wf_preorder : PreOrder keeps_wf.
Proof. split; unfold keeps_wf; repeat intro; eauto. Qed.

Lemma well_formed_empty : well_formed empty_db.
Proof. split; simpl; intros; simplify_map_eq; try by apply not_elem_of_nil in H. constructor. Qed.

Lemma has_user_true u d : has_user u d = true <-> is_Some (users d !! u).
Proof. unfold has_user. apply bool_decide_eq_true. Qed.

Lemma has_key_true i d : has_key i d = true <-> is_Some (escrow_keys d !! i).
Proof. unfold has_key. apply bool_decide_eq_true. Qed.

Lemma sql_active_key_None d i k :
  sql_active_key d = None -> escrow_keys d !! i = Some k -> active k = false.
Proof.
  unfold sql_active_key. intros Hn Hk. destruct (active k) eqn:Ha; [|done].
  assert (Hin : In (i, k) (List.filter (fun k => active k.2) (map_to_list (escrow_keys d)))).
  { apply filter_In. split; [|done]. by apply list_elem_of_In, elem_of_map_to_list. }
  destruct (List.filter _ _); [done|]. done.
Qed.

Lemma sql_active_key_Some d i p :
  sql_active_key d = Some (i, p) ->
  exists k, escrow_keys d !! i = Some k /\ active k = true /\ ek_public_key k = p.
Proof.
  unfold sql_active_key. intros Hn.
  destruct (List.filter _ _) as [|[j k] l] eqn:Hf; [done|]. injection Hn as <- <-.
  exists k. assert (Hin : In (j, k) (List.filter (fun k => active k.2) (map_to_list (escrow_keys d)))).
  { rewrite Hf. by left. }
  apply filter_In in Hin as [Hin Ha]. split; [|done].
  by apply elem_of_map_to_list, list_elem_of_In.
Qed.

Lemma has_identity_true u d :
  has_identity u d = true <->
  exists id g, account_identity_registry d !! id = Some (Some (u, g)).
Proof.
  unfold has_identity. rewrite existsb_exists. split.
  - intros ([id i] & Hin & Hb). apply list_elem_of_In, elem_of_map_to_list in Hin.
    destruct i as [[v g]|]; [|done]. apply String.eqb_eq in Hb as ->. by exists id, g.
  - intros (id & g & Hi). exists (id, Some (u, g)). split.
    + by apply list_elem_of_In, elem_of_map_to_list.
    + simpl. apply String.eqb_refl.
Qed.

(** A row that stays when its table gains a row, is changed in place or mapped. *)
Lemma is_Some_insert {A} (m : gmap string A) i j x : is_Some (m !! j) -> is_Some (<[i := x]> m !! j).
Proof. intros. apply lookup_insert_is_Some. destruct (decide (i = j)); auto. Qed.

Lemma is_Some_alter {A} (m : gmap string A) f i j : is_Some (m !! j) -> is_Some (alter f i m !! j).
Proof. by rewrite lookup_alter_is_Some. Qed.

Lemma is_Some_fmap {A B} (f : A -> B) (m : gmap string A) j :
  is_Some (m !! j) -> is_Some ((f <$> m) !! j).
Proof. rewrite lookup_fmap. by rewrite fmap_is_Some. Qed.

#[local] Hint Resolve is_Some_insert is_Some_alter is_Some_fmap : core.

(** Replace a lookup in an updated table by what it was looked up in. *)
Ltac lookup_cases :=
  repeat match goal with
  | H : <[_:=_]> _ !! _ = Some _ |- _ => apply lookup_insert_Some in H as [[? ?]|[? H]]; subst
  | H : delete _ _ !! _ = Some _ |- _ => apply lookup_delete_Some in H as [? H]
  | H : filter _ _ !! _ = Some _ |- _ => apply map_lookup_filter_Some in H as [H ?]
  | H : alter _ _ _ !! _ = Some _ |- _ =>
      apply lookup_alter_Some in H as [[? (? & H & ?)]|[? H]]; subst
  | H : (_ <$> _) !! _ = Some _ |- _ => rewrite lookup_fmap in H; apply fmap_Some in H as (? & H & ?)
  | H : ∅ !! _ = Some _ |- _ => rewrite lookup_empty in H; discriminate H
  | H : has_user _ _ = true |- _ => apply has_user_true in H
  | H : has_key _ _ = true |- _ => apply has_key_true in H
  | H : _ && _ = true |- _ => apply andb_true_iff in H as [? ?]
  | H : bool_decide _ = true |- _ => apply bool_decide_eq_true in H
  end.

(** The foreign keys of a row into users and escrow_keys. *)
Ltac key_rows :=
  match goal with
  | Hu : forall _ _, ?m !! _ = Some _ -> is_Some _ /\ is_Some _, Hl : ?m !! _ = Some _
    |- is_Some _ /\ is_Some _ => apply Hu in Hl; destruct Hl; eauto
  end.

#[export] Instance wf_enroll : EnrollStatements keeps_wf.
Proof.
  split; intros; intros d d' Hd [];
    unfold sql_insert_event, sql_insert_personal, sql_repair_personal, sql_delete_personal,
      sql_attest, sql_insert_pin, sql_upsert_sealed in Hd; sql_cases;
    split; simpl; intros; lookup_cases; simpl in *; eauto; done.
Qed.

#[export] Instance wf_escrow : EscrowStatements anyone keeps_wf.
Proof.
  split; [exact _|..]; try (intros; intros d d' Hd [];
    unfold sql_upsert_pending, sql_delete_pending, sql_upsert_grant,
      sql_delete_all_grants, sql_mark_attested, sql_upsert_pin, sql_delete_pin,
      sql_delete_other_pins, sql_delete_sealed, sql_delete_stale_sealed, sql_delete_all_sealed,
      sql_insert_recovery, sql_confirm_recovery in Hd; sql_cases;
    split; simpl; intros; lookup_cases; simpl in *; eauto; done).
  all: try (intros; intros []; split; simpl; intros; lookup_cases; simpl in *; eauto; done).
  - intros u i x t d d' Hd []. unfold sql_update_sealed in Hd. sql_cases.
    split; simpl; intros; lookup_cases; simpl in *; eauto.
    split; [by eapply wf_sealed0|]. apply orb_true_iff in Hguard as [Hg|Hg]; lookup_cases; [done|].
    by rewrite Hg in *.
  - intros i p t d d' Hd []. unfold sql_insert_key in Hd. sql_cases. lookup_cases.
    split; simpl; intros; eauto; try by key_rows.
    lookup_cases; try done; try by eapply wf_one_active0.
    all: match goal with Hk : escrow_keys _ !! _ = Some _ |- _ =>
           eapply sql_active_key_None in Hk; [|done]; congruence end.
  - intros i t d d' Hd []. unfold sql_retire_key in Hd. sql_cases.
    split; simpl; intros; eauto; try by key_rows.
    lookup_cases; try done. by eapply wf_one_active0.
  - intros t d d' Hd []. unfold sql_retire_active in Hd. sql_cases.
    split; simpl; intros; eauto; try by key_rows.
    lookup_cases; subst.
    match goal with Ha : active (if active ?x then _ else _) = true |- _ =>
      destruct (active x) eqn:E; [done|congruence] end.
Qed.

Lemma identity_of_lookup u d id g :
  identity_of u d = Some (id, g) -> account_identity_registry d !! id = Some (Some (u, g)).
Proof.
  unfold identity_of. intros Hi. apply bind_Some in Hi as ([k [i b]] & Hf & Hi). simpl in Hi.
  destruct b as [[v h]|]; [|done]. injection Hi as -> ->.
  apply list_find_Some in Hf as (Hk & Hb & _). simpl in Hb. apply String.eqb_eq in Hb as ->.
  apply elem_of_map_to_list. by eapply list_elem_of_lookup_2.
Qed.

Lemma bound_to_true u i : bound_to u i = true <-> exists g, i = Some (u, g).
Proof.
  unfold bound_to. destruct i as [[v g]|]; [|split; [done|by intros [? ?]]].
  rewrite String.eqb_eq. split; [intros ->; by eexists|]. intros [h Hh]. by injection Hh.
Qed.

(** Raising the generation of one account keeps the bindings. *)
Lemma bump_generation_wf u : moves keeps_wf (bump_generation u).
Proof.
  intros d d' Hd []. unfold bump_generation in Hd. sql_cases.
  apply andb_true_iff in Hguard as [_ Hg].
  assert (Hmap : forall i v g, (fun i : Identity => if bound_to u i
      then (fun vg => (vg.1, vg.2 + 1)) <$> i else i) <$> account_identity_registry d !! i
      = Some (Some (v, g)) ->
    exists h, account_identity_registry d !! i = Some (Some (v, h)) /\ 1 <= g <= max_generation).
  { intros i v g Hi. apply fmap_Some in Hi as (x & Hx & Hi).
    destruct (bound_to u x) eqn:Hb; [|subst x; eauto].
    apply bound_to_true in Hb as [h ->]. injection Hi as -> ->. exists h. split; [done|].
    rewrite forallb_forall in Hg. specialize (Hg (i, Some (u, h))). simpl in Hg.
    rewrite String.eqb_refl in Hg. simpl in Hg. apply wf_generation0 in Hx as ?.
    assert (Hlt : (h <? max_generation) = true).
    { apply Hg, list_elem_of_In. by apply elem_of_map_to_list. }
    lia. }
  split; simpl; eauto.
  - intros v r Hv. apply wf_identity0 in Hv as (id & g & Hid).
    exists id, (if String.eqb u v then g + 1 else g). rewrite lookup_fmap, Hid. simpl.
    rewrite (String.eqb_sym u v). by destruct (String.eqb v u).
  - intros i j v g h. rewrite !lookup_fmap. intros Hi Hj.
    apply Hmap in Hi as (? & Hi & _). apply Hmap in Hj as (? & Hj & _). eauto.
  - intros i v g. rewrite lookup_fmap. intros Hi. by apply Hmap in Hi as (? & _ & ?).
Qed.

Lemma set_user_wf u row row' d :
  users d !! u = Some row -> keeps_wf d (set_users (<[u := row']> (users d)) d).
Proof.
  intros Hu []. split; simpl; intros; eauto; try by key_rows.
  lookup_cases; eauto.
Qed.

Lemma is_Some_delete {A} (m : gmap string A) i j : i <> j -> is_Some (m !! j) -> is_Some (delete i m !! j).
Proof. intros. by rewrite lookup_delete_ne. Qed.

Lemma elem_of_other_codes c u l :
  c ∈ List.filter (fun c => negb (String.eqb (code_user c) u)) l <-> c ∈ l /\ code_user c <> u.
Proof.
  rewrite !list_elem_of_In, filter_In. by rewrite negb_true_iff, String.eqb_neq.
Qed.

Lemma NoDup_other_codes u l :
  NoDup (code_id <$> l) ->
  NoDup (code_id <$> List.filter (fun c => negb (String.eqb (code_user c) u)) l).
Proof.
  induction l as [|c l IH]; [done|]. simpl. rewrite NoDup_cons. intros [Hc Hl].
  destruct (negb _); [|by apply IH]. simpl. rewrite NoDup_cons. split; [|by apply IH].
  intros (x & Hid & [Hx _]%elem_of_other_codes)%list_elem_of_fmap. apply Hc.
  apply list_elem_of_fmap. eauto.
Qed.

(** Deleting an account takes its rows with it and retires its identity. *)
Lemma delete_user_wf u : moves keeps_wf (sql_delete_user u).
Proof.
  intros d d' Hd []. unfold sql_delete_user in Hd.
  destruct (has_user u d) eqn:Hu; simpl in Hd; [|by injection Hd as <-].
  sql_cases. apply negb_true_iff, bool_decide_eq_false in Hguard.
  assert (Hkeep : forall i v g, (fun b : Identity => if bound_to u b then None else b)
      <$> account_identity_registry d !! i = Some (Some (v, g)) ->
    account_identity_registry d !! i = Some (Some (v, g))).
  { intros i v g Hi. apply fmap_Some in Hi as (b & Hb & Hi). destruct (bound_to u b); congruence. }
  split; simpl.
  - intros v t Hv. apply is_Some_delete; [|by eapply wf_super0]. intros ->. apply Hguard.
    by rewrite Hv.
  - intros s v Hs Hv. apply fmap_Some in Hs as (s0 & Hs0 & ->).
    case_bool_decide; [done|]. apply is_Some_delete; [congruence|eauto].
  - intros v r Hv. lookup_cases. apply is_Some_delete; eauto.
  - intros v r Hv. lookup_cases. apply is_Some_delete; eauto.
  - intros v r Hv. lookup_cases. apply is_Some_delete; eauto.
  - intros v r Hv. lookup_cases. apply wf_sealed0 in Hv as []. split; [by apply is_Some_delete|done].
  - intros v r Hv. lookup_cases. apply wf_pins0 in Hv as []. split; [by apply is_Some_delete|done].
  - intros v r Hv. lookup_cases. apply wf_grants0 in Hv as []. split; [by apply is_Some_delete|done].
  - done.
  - done.
  - intros v r Hv. lookup_cases. apply wf_identity0 in Hv as (id & g & Hid). exists id, g.
    rewrite lookup_fmap, Hid. simpl. destruct (String.eqb_spec v u); congruence.
  - intros i j v g h. rewrite !lookup_fmap. intros Hi%Hkeep Hj%Hkeep. eauto.
  - intros i v g. rewrite lookup_fmap. intros Hi%Hkeep. eauto.
  - intros x [Hx Hne]%elem_of_other_codes. apply is_Some_delete; [congruence|eauto].
  - by apply NoDup_other_codes.
  - intros x [Hx _]%elem_of_other_codes. eauto.
Qed.

(** A code of a table that gained one. *)
Ltac code_added :=
  match goal with
  | Hc : _ ∈ (_ ++ [_])%list |- _ =>
      apply elem_of_app in Hc as [Hc|Hc]; [|apply list_elem_of_singleton in Hc; subst; simpl]
  end.

#[export] Instance wf_assign : AssignStatements keeps_wf.
Proof.
  split.
  - intros u t d d' Hd []. unfold sql_upsert_super in Hd. sql_cases. lookup_cases.
    split; simpl; intros; simplify_eq; eauto.
  - intros u t d []. unfold sql_clear_standby. sql_cases; split; simpl; intros; simplify_eq; eauto.
Qed.

#[export] Instance wf_roles : RoleStatements keeps_wf.
Proof.
  split.
  - intros u f d d' Hd. unfold sql_update_user in Hd. destruct (users d !! u) as [row|] eqn:Hu.
    + assert (Hset : keeps_wf d (set_users (<[u := f row]> (users d)) d)).
      { by apply (set_user_wf u row). }
      cbv zeta in Hd. destruct (state_changed _ _); [|by injection Hd as <-].
      etransitivity; [exact Hset|]. by apply (bump_generation_wf u).
    + by injection Hd as <-.
  - intros u r d d' Hd []. unfold sql_insert_user in Hd. sql_cases. lookup_cases.
    split; simpl; intros; eauto; try by key_rows.
    lookup_cases; [|by eapply wf_identity0].
    match goal with Hi : _ <$> identity_of _ _ = Some _ |- _ =>
      apply fmap_Some in Hi as ([id g] & Hi & _); apply identity_of_lookup in Hi; eauto end.
  - apply delete_user_wf.
  - intros i u d d' Hd []. unfold sql_insert_identity in Hd. sql_cases. lookup_cases.
    assert (Hno : forall id g, account_identity_registry d !! id <> Some (Some (u, g))).
    { intros id g Hid. match goal with Hn : negb (has_identity u d) = true |- _ =>
        apply negb_true_iff, not_true_iff_false in Hn; apply Hn end.
      apply has_identity_true. by exists id, g. }
    split; simpl; intros; eauto.
    + match goal with Hu : users d !! _ = Some _ |- _ =>
        apply wf_identity0 in Hu as (id & g & Hid) end.
      exists id, g. rewrite lookup_insert_ne; congruence.
    + lookup_cases; simplify_eq; eauto; exfalso; by eapply Hno.
    + lookup_cases; simplify_eq; eauto. unfold max_generation, max_int64. lia.
  - exact _.
  - intros r d d' Hd []. unfold sql_upsert_succession in Hd. sql_cases; lookup_cases;
      split; simpl; intros; simplify_eq; eauto; lookup_cases; done.
  - intros u d d' Hd []. unfold sql_delete_protection in Hd. sql_cases.
    split; simpl; intros; lookup_cases; eauto.
  - intros u r d d' Hd []. unfold sql_upsert_protection in Hd. sql_cases. lookup_cases.
    split; simpl; intros; lookup_cases; eauto.
  - intros u n d d' Hd []. unfold sql_upsert_notice in Hd. sql_cases. lookup_cases.
    split; simpl; intros; lookup_cases; eauto.
  - intros u d d' Hd []. unfold sql_delete_codes in Hd. sql_cases.
    split; simpl; intros; eauto; [|by apply NoDup_other_codes|].
    all: match goal with Hc : _ ∈ _ |- _ => apply elem_of_other_codes in Hc as [? _]; eauto end.
  - intros u h w t d d' Hd []. unfold sql_insert_code in Hd. sql_cases. lookup_cases.
    split; simpl; intros; eauto.
    + code_added; [eauto|done].
    + rewrite fmap_app. apply NoDup_app. split_and!; [done| |apply NoDup_singleton].
      intros i (x & -> & Hx)%list_elem_of_fmap Hi%list_elem_of_singleton.
      apply wf_code_seq0 in Hx. simpl in Hi. lia.
    + code_added; [|simpl; lia]. match goal with Hc : _ ∈ _ |- _ => apply wf_code_seq0 in Hc end. lia.
  - intros i t d d' Hd []. unfold sql_use_code in Hd. sql_cases.
    assert (Hids : code_id <$> ((fun c => if code_id c =? i then use_code t c else c)
                                <$> recovery_codes d) = code_id <$> recovery_codes d).
    { rewrite <- list_fmap_compose. apply list_fmap_ext. intros _ c _. simpl. by case_match. }
    split; simpl; intros; eauto; [|by rewrite Hids|].
    all: match goal with Hc : _ ∈ _ |- _ =>
      apply list_elem_of_fmap in Hc as (? & -> & Hc); case_match; simpl; eauto end.
Qed.

(** ** Committed databases *)

(** The deferred foreign key: every bound identity names an account. *)
Definition keeps_committed (d d' : SystemDB) : Prop :=
  identities_name_users d = true -> identities_name_users d' = true.

#[export] Instance keeps_committed_preorder : PreOrder keeps_committed.
Proof. split; unfold keeps_committed; repeat intro; eauto. Qed.

(** A transaction ends committed, whatever its body does. *)
Lemma inWriteTx_committed `{Env} {A} (m : Tx A) : respects keeps_committed (inWriteTx m).
Proof.
  intros c Hc. unfold inWriteTx. unfold exec at 1, statement at 1.
  destruct (statement_fails _); [done|]. simpl.
  set (c1 := set_db (db c) (count_statement c)). unfold tx_bind at 1.
  destruct (m c1) as [[a|e] c2]; simpl; [|done].
  unfold tx_bind, exec, statement. destruct (statement_fails _); simpl; [done|].
  unfold commit_ok. by destruct (identities_name_users (db c2)) eqn:Hi.
Qed.

Lemma identities_name_users_true d :
  identities_name_users d = true <->
  forall i u g, account_identity_registry d !! i = Some (Some (u, g)) -> is_Some (users d !! u).
Proof.
  unfold identities_name_users. rewrite forallb_forall. split.
  - intros Hf i u g Hi. specialize (Hf (i, Some (u, g))). apply has_user_true, Hf.
    by apply list_elem_of_In, elem_of_map_to_list.
  - intros Hf [i [[u g]|]] Hin; [|done]. apply has_user_true. apply (Hf i u g).
    by apply elem_of_map_to_list, list_elem_of_In.
Qed.

(** An update of a row keeps its name, and at most renumbers identities. *)
Lemma update_user_committed u f : moves keeps_committed (sql_update_user u f).
Proof.
  intros d d' Hd. unfold keeps_committed. rewrite !identities_name_users_true.
  unfold sql_update_user, bump_generation in Hd. sql_cases; simpl; eauto.
  intros Hd0 i v g Hi. rewrite lookup_fmap in Hi. apply fmap_Some in Hi as (x & Hx & Hi).
  destruct x as [[w h]|]; simpl in Hi; [|done]. unfold bound_to in Hi.
  assert (v = w) as -> by (destruct (String.eqb w u); simpl in Hi; congruence). eauto.
Qed.

Lemma swapPassword_committed `{Env} u h w h' w' : respects keeps_committed (swapPassword u h w h' w').
Proof.
  unfold swapPassword. apply respects_bind; [exact _| |intros; apply respects_guard; exact _].
  apply respects_statement; [exact _|]. intros d n d' Hd.
  unfold sql_swap_password, sql_update_user_if in Hd.
  destruct (users d !! u); [|by injection Hd as _ <-].
  case_match; [|by injection Hd as _ <-].
  destruct (sql_update_user _ _ _) as [x|] eqn:Hx; [|done]. injection Hd as _ <-.
  by eapply update_user_committed.
Qed.

#[local] Hint Resolve inWriteTx_committed swapPassword_committed : tx.

Lemma run_committed `{Primitives} (E : Env) (O : RangeOrder) op :
  respects keeps_committed (run op).
Proof.
  destruct op; cbn [run]; try (apply respects_forget; [exact _|]);
    unfold CreateAccountWithPrincipal, tx_HashPassword, tx_WrapKey, ValidatePassword, GenerateDEK,
      storeAccount, SignInCommit, ConfirmRecoveryCodes,
      ResetWithRecoveryCode, SetDisabled, SetAdmin, ClaimAdmin, PromoteAdmin,
      PurgeAccount, tx_RemoveAll, RequireSuper, HandOverSuper, SetStandby,
      recording_attestation_failure, recordAttestationFailure, TakeOverSuper, SuccessionFor,
      EnrollSession, EnrollAdminSession, OpenEscrow, RunPendingRotation, ReplaceEscrowKey,
      or_no_grant, CreateNewEscrowKey, CreateEscrowRecoveryCode, CheckEscrowRecoveryCode,
      ConfirmEscrowRecoveryCode, RecoverEscrowKey, OpenUserForAdmin, AcknowledgeAccessNotices;
    tx_respects.
Qed.

Lemma reachable_well_formed `{Primitives} d : reachable d -> well_formed d.
Proof.
  unfold reachable. intros Hr. generalize well_formed_empty.
  induction Hr as [|d1 d2 d3 Hs _ IH]; [done|]. intros Hw. apply IH.
  by apply (step_respects keeps_wf _ _ Hs).
Qed.

Lemma reachable_committed `{Primitives} d : reachable d -> identities_name_users d = true.
Proof.
  unfold reachable. intros Hr. assert (H0 : identities_name_users empty_db = true) by done.
  revert H0. induction Hr as [|d1 d2 d3 Hs _ IH]; [done|]. intros Hw. apply IH.
  destruct Hs. by apply run_committed.
Qed.

(** C23. Whatever the operations do and wherever they fail, the tables stay
    consistent: every row of a dependent table belongs to an existing account and
    an existing escrow key, at most one escrow key is active, and the accounts
    and the identities in use are in one-to-one correspondence, with generations
    that fit the column. *)
Theorem reachable_consistent `{Primitives} d :
  reachable d ->
  well_formed d
  /\ (forall u, is_Some (users d !! u) <->
        exists id g, account_identity_registry d !! id = Some (Some (u, g))).
Proof.
  intros Hr. pose proof (reachable_well_formed d Hr) as Hw. split; [done|].
  intros u. split.
  - intros [r Hu]. by apply (wf_identity d Hw u r).
  - intros (id & g & Hid). apply reachable_committed in Hr.
    by apply (proj1 (identities_name_users_true d) Hr id u g).
Qed.
