(* ===== verification/RolesSpec.v ===== *)
(** * The roles of a machine: abstract specification

    Who is an administrator, who is disabled, who is the super administrator and
    the standby, and who holds the administrator key, without the tables,
    transactions and cryptography.  The transitions are what the documentation
    of the account store (ADR-004, ADR-005) promises; their invariant is proved
    here, and Roles.v shows that every operation of the store is one of them. *)

From S2P Require Import Prelude.

Local Open Scope string_scope.

Record Role : Type := mkRole { admin : bool; off : bool }.

Record Roles : Type := mkRoles {
  accounts : gmap string Role;
  super : option string;
  standby_of : option string;
  holders : gset string
}.

#[export] Instance Role_eq_dec : EqDecision Role.
Proof. solve_decision. Defined.

Definition can_administer (s : Roles) (u : string) : Prop :=
  accounts s !! u = Some (mkRole true false).

(** Only the super administrator acts on administrators, and never on
    themselves; any administrator acts on standard accounts. *)
Definition may_act (s : Roles) (a u : string) (targetIsAdmin : bool) : Prop :=
  can_administer s a /\ (targetIsAdmin = true -> super s = Some a /\ u <> a).

Definition without (x : option string) (u : string) : option string :=
  if decide (x = Some u) then None else x.

(** [u] gets role [r], and stops being the standby and a holder when [leave]. *)
Definition set_role (u : string) (r : Role) (leave : bool) (s : Roles) : Roles :=
  mkRoles (<[u := r]> (accounts s)) (super s)
          (if leave then without (standby_of s) u else standby_of s)
          (if leave then holders s ∖ {[u]} else holders s).

Definition as_set (x : option string) : gset string :=
  match x with
  | Some u => {[u]}
  | None => ∅
  end.

Inductive role_step (s : Roles) : Roles -> Prop :=
| rs_first u :
    accounts s = ∅ -> u <> EmptyString ->
    role_step s (set_role u (mkRole true false) false s)
| rs_create a u b :
    can_administer s a -> (b = true -> super s = Some a) ->
    accounts s !! u = None -> u <> EmptyString ->
    role_step s (set_role u (mkRole b false) false s)
| rs_claim u b :
    (forall v, ~ can_administer s v) -> accounts s !! u = Some (mkRole b false) ->
    role_step s (set_role u (mkRole true false) false s)
| rs_assign u :
    super s = None -> can_administer s u ->
    role_step s (mkRoles (accounts s) (Some u) (standby_of s) (holders s))
| rs_status a u b x x' :
    may_act s a u b -> accounts s !! u = Some (mkRole b x) ->
    role_step s (set_role u (mkRole b x') x' s)
| rs_promote a u x :
    can_administer s a -> super s = Some a -> accounts s !! u = Some (mkRole false x) ->
    role_step s (set_role u (mkRole true x) false s)
| rs_demote a u x :
    may_act s a u true -> accounts s !! u = Some (mkRole true x) ->
    role_step s (set_role u (mkRole false x) true s)
| rs_purge a u b x :
    may_act s a u b -> accounts s !! u = Some (mkRole b x) -> super s <> Some u ->
    role_step s (mkRoles (delete u (accounts s)) (super s) (without (standby_of s) u)
                         (holders s ∖ {[u]}))
| rs_hand_over a t K :
    super s = Some a -> can_administer s t -> t <> a ->
    K ⊆ (holders s ∪ {[t]}) ∖ {[a]} ->
    role_step s (mkRoles (accounts s) (Some t) (without (standby_of s) t) K)
| rs_standby a n K :
    super s = Some a -> (forall v, n = Some v -> can_administer s v /\ v <> a) ->
    K ⊆ (holders s ∖ as_set (standby_of s)) ∪ {[a]} ∪ as_set n ->
    role_step s (mkRoles (accounts s) (Some a) n K)
| rs_take_over a f K :
    can_administer s a -> super s = Some f -> f <> a ->
    K ⊆ (holders s ∖ {[f]}) ∪ {[a]} ->
    role_step s (mkRoles (accounts s) (Some a) (without (standby_of s) a) K)
| rs_keys K :
    K ⊆ holders s ∪ as_set (super s) ∪ as_set (standby_of s) ->
    role_step s (mkRoles (accounts s) (super s) (standby_of s) K).

(** What holds of the roles at all times: somebody can administer the machine
    as soon as it has accounts, the super administrator can, the standby is
    another administrator who can, and nobody else holds the administrator key. *)
Record roles_ok (s : Roles) : Prop := {
  ro_names : accounts s !! EmptyString = None;
  ro_admin u r : accounts s !! u = Some r -> exists v, can_administer s v;
  ro_super u : super s = Some u -> can_administer s u;
  ro_standby v : standby_of s = Some v ->
    can_administer s v /\ exists u, super s = Some u /\ u <> v;
  ro_holders u : u ∈ holders s -> super s = Some u \/ standby_of s = Some u
}.

Definition no_roles : Roles := mkRoles ∅ None None ∅.

Lemma no_roles_ok : roles_ok no_roles.
Proof. split; simpl; intros; try set_solver; simplify_map_eq. Qed.

Lemma without_Some x u v : without x u = Some v <-> x = Some v /\ v <> u.
Proof.
  unfold without. destruct (decide (x = Some u)) as [->|Hn].
  - split; [done|]. intros [He Hne]. congruence.
  - split; [|by intros []]. intros ->. split; [done|]. congruence.
Qed.

Lemma without_idem x u : without (without x u) u = without x u.
Proof. unfold without. repeat case_decide; congruence. Qed.

Lemma difference_idem (K : gset string) u : K ∖ {[u]} ∖ {[u]} = K ∖ {[u]}.
Proof. set_solver. Qed.

Lemma can_administer_set s u r leave v :
  can_administer (set_role u r leave s) v <->
  (v = u /\ r = mkRole true false) \/ (v <> u /\ can_administer s v).
Proof.
  unfold can_administer, set_role. simpl. rewrite lookup_insert_Some. naive_solver.
Qed.

(** Nobody can administer an empty machine or be super administrator of it. *)
Lemma roles_ok_empty s : roles_ok s -> accounts s = ∅ ->
  super s = None /\ standby_of s = None /\ holders s = ∅.
Proof.
  intros [] He. unfold can_administer in *. rewrite He in *.
  assert (Hs : super s = None).
  { destruct (super s) as [u|] eqn:Hu; [|done]. specialize (ro_super0 u eq_refl).
    by rewrite lookup_empty in ro_super0. }
  assert (Hb : standby_of s = None).
  { destruct (standby_of s) as [u|] eqn:Hu; [|done].
    destruct (ro_standby0 u eq_refl) as [Hv _]. by rewrite lookup_empty in Hv. }
  split_and!; [done..|]. apply set_eq. intros u. split; [|set_solver].
  intros Hu. destruct (ro_holders0 u Hu) as [|]; congruence.
Qed.

(** Changing the role of somebody who is not the super administrator. *)
Lemma set_role_ok u r leave s :
  roles_ok s -> u <> EmptyString -> super s <> Some u ->
  (exists v, can_administer (set_role u r leave s) v) ->
  (leave = false -> standby_of s = Some u -> r = mkRole true false) ->
  roles_ok (set_role u r leave s).
Proof.
  intros [] Hu Hs Hex Hl. split.
  - simpl. rewrite lookup_insert_ne; done.
  - intros. exact Hex.
  - intros v Hv. apply can_administer_set. right. simpl in Hv. split; [congruence|auto].
  - intros v Hv. simpl in Hv. rewrite can_administer_set. destruct leave.
    + apply without_Some in Hv as [Hv Hne]. destruct (ro_standby0 v Hv) as [? ?]. auto.
    + destruct (ro_standby0 v Hv) as [? ?]. split; [|done].
      destruct (decide (v = u)) as [->|]; [left|right]; auto.
  - intros v Hv. simpl in *. destruct leave.
    + apply elem_of_difference in Hv as [Hv Hne]. rewrite not_elem_of_singleton in Hne.
      rewrite without_Some. destruct (ro_holders0 v Hv); auto.
    + by apply ro_holders0.
Qed.

(** The invariant is kept by every transition. *)
Lemma role_step_ok s s' : role_step s s' -> roles_ok s -> roles_ok s'.
Proof.
  intros Hs Hok. pose proof Hok as []. destruct Hs.
  - destruct (roles_ok_empty s Hok) as (Hs & Hb & _); [done|].
    apply set_role_ok; [done..|congruence| |done].
    exists u. apply can_administer_set. by left.
  - apply set_role_ok; [done..| | |].
    + intros Hu. apply ro_super0 in Hu. unfold can_administer in Hu. congruence.
    + exists a. apply can_administer_set. right. split; [|done]. unfold can_administer in *. congruence.
    + intros _ Hv. destruct (ro_standby0 u Hv) as [Hc _]. unfold can_administer in Hc. congruence.
  - exfalso. destruct (ro_admin0 u _ H0) as [v Hv]. by apply (H v).
  - split; simpl; auto.
    + intros v Hv. by injection Hv as <-.
    + intros v Hv. destruct (ro_standby0 v Hv) as (_ & w & Hw & _). congruence.
    + intros v Hv. destruct (ro_holders0 v Hv) as [|]; [congruence|auto].
  - destruct H as [Ha Hact]. apply set_role_ok; [done|congruence| | |].
    + intros Hu. pose proof (ro_super0 u Hu) as Hc. unfold can_administer in Hc.
      assert (b = true) as -> by congruence. destruct (Hact eq_refl); congruence.
    + exists a. apply can_administer_set. destruct (decide (a = u)) as [->|]; [|auto].
      unfold can_administer in Ha. assert (b = true) as -> by congruence. by destruct (Hact eq_refl).
    + intros -> Hv. destruct (ro_standby0 u Hv) as [Hc _]. unfold can_administer in Hc. congruence.
  - apply set_role_ok; [done|congruence| | |].
    + intros Hu. apply ro_super0 in Hu. unfold can_administer in Hu. congruence.
    + exists a. apply can_administer_set. right. split; [|done]. unfold can_administer in *. congruence.
    + intros _ Hv. destruct (ro_standby0 u Hv) as [Hc _]. unfold can_administer in Hc. congruence.
  - destruct H as [Ha Hact]. destruct (Hact eq_refl) as [Hsa Hne].
    apply set_role_ok; [done|congruence|congruence| |done].
    exists a. apply can_administer_set. right. auto.
  - destruct H as [Ha Hact].
    assert (Hd : forall v, v <> u -> can_administer s v ->
      delete u (accounts s) !! v = Some (mkRole true false)).
    { intros v Hv Hc. by rewrite lookup_delete_ne. }
    split; unfold can_administer; simpl.
    + apply lookup_delete_None. by right.
    + intros v r Hv. exists a. apply Hd; [|done]. intros <-. unfold can_administer in Ha.
      assert (b = true) as -> by congruence. by destruct (Hact eq_refl).
    + intros v Hv. apply Hd; [congruence|auto].
    + intros v Hv. apply without_Some in Hv as [Hv Hne]. destruct (ro_standby0 v Hv). split; [|done].
      by apply Hd.
    + intros v Hv. apply elem_of_difference in Hv as [Hv Hne]. rewrite not_elem_of_singleton in Hne.
      rewrite without_Some. destruct (ro_holders0 v Hv); auto.
  - split; simpl; auto.
    + intros v Hv. by injection Hv as <-.
    + intros v Hv. apply without_Some in Hv as [Hv Hne]. split; [by apply ro_standby0|]. eauto.
    + intros v Hv. rewrite without_Some. apply H2 in Hv.
      destruct (decide (v = t)) as [->|]; [auto|]. right. split; [|done].
      destruct (ro_holders0 v) as [Hv'|]; [set_solver| |done]. set_solver.
  - split; simpl; auto.
    + intros v Hv. injection Hv as <-. exact (ro_super0 a H).
    + intros v Hv. destruct (H0 v Hv). eauto.
    + intros v Hv. apply H1 in Hv. rewrite !elem_of_union, elem_of_singleton in Hv.
      destruct Hv as [[Hv| ->]|Hv]; [|auto|].
      * apply elem_of_difference in Hv as [Hv Hne]. destruct (ro_holders0 v Hv) as [|Hb]; [left; congruence|].
        rewrite Hb in Hne. simpl in Hne. set_solver.
      * destruct n as [w|]; [|set_solver]. simpl in Hv. apply elem_of_singleton in Hv as ->. auto.
  - split; simpl; auto.
    + intros v Hv. by injection Hv as <-.
    + intros v Hv. apply without_Some in Hv as [Hv Hne]. split; [by apply ro_standby0|]. eauto.
    + intros v Hv. rewrite without_Some. apply H2 in Hv.
      destruct (decide (v = a)) as [->|]; [auto|]. right. split; [|done].
      destruct (ro_holders0 v) as [Hv'|]; [set_solver| |done]. set_solver.
  - split; simpl; auto. intros v Hv. apply H in Hv.
    rewrite !elem_of_union in Hv. destruct Hv as [[Hv|Hv]|Hv]; [auto| |].
    + left. destruct (super s); [|set_solver]. simpl in Hv. f_equal. set_solver.
    + right. destruct (standby_of s); [|set_solver]. simpl in Hv. f_equal. set_solver.
Qed.
