(* ===== verification/Roles.v ===== *)
(** * The account store implements the specification of roles

    [roles_of] reads the abstract roles off system.db.  Every operation of the
    store, successful or not and in any environment, leaves the roles as they
    were or makes one transition of RolesSpec, after assigning the super
    administrator if there was none. *)

From S2P Require Import Prelude GoStrings GoTime EscrowCrypto Passwords SystemDb Accounts Escrow.
From S2P Require Import RecoveryCode Succession Access Credentials TxLogic AccountsMachine RolesSpec.

Local Open Scope string_scope.
Local Open Scope Z_scope.

Definition role_of (r : User) : Role := mkRole (is_admin r) (disabled r).

Definition roles_of (d : SystemDB) : Roles :=
  mkRoles (role_of <$> users d) (fst <$> super_admin d) (super_succession d ≫= standby)
          (dom (escrow_grants d)).

(** ** Runs of a transaction, as seen by the database *)

Definition runs {A} (m : Tx A) (d : SystemDB) (r : result UserError A) (d' : SystemDB) : Prop :=
  exists c, db c = d /\ (m c).1 = r /\ db (m c).2 = d'.

Section runs.
Context `{Env}.

Lemma runs_respects R `{!PreOrder R} {A} (m : Tx A) d r d' :
  respects R m -> runs m d r d' -> R d d'.
Proof. intros Hm (c & <- & _ & <-). apply Hm. Qed.

Lemma runs_ret {A} (a : A) d r d' : runs (tx_ret a) d r d' -> r = Ok a /\ d' = d.
Proof. by intros (c & <- & <- & <-). Qed.

Lemma runs_fail {A} e d (a : A) d' : runs (tx_fail e) d (Ok a) d' -> False.
Proof. by intros (c & _ & ? & _). Qed.

Lemma runs_of {A} (r0 r : result UserError A) d d' : runs (tx_of r0) d r d' -> r = r0 /\ d' = d.
Proof. by intros (c & <- & <- & <-). Qed.

Lemma runs_bind_Ok {A B} (m : Tx A) (k : A -> Tx B) d b d' :
  runs (tx_bind m k) d (Ok b) d' ->
  exists a d1, runs m d (Ok a) d1 /\ runs (k a) d1 (Ok b) d'.
Proof.
  intros (c & Hc & Hr & Hd). unfold tx_bind in *. destruct (m c) as [[a|e] c1] eqn:Hm; [|done].
  exists a, (db c1). split; [exists c; by rewrite Hm|by exists c1].
Qed.

Lemma runs_try {A B} (m : Tx A) (k : result UserError A -> Tx B) d r d' :
  runs (tx_try m k) d r d' -> exists r1 d1, runs m d r1 d1 /\ runs (k r1) d1 r d'.
Proof.
  intros (c & Hc & Hr & Hd). unfold tx_try in *. destruct (m c) as [r1 c1] eqn:Hm.
  exists r1, (db c1). split; [exists c; by rewrite Hm|by exists c1].
Qed.

Lemma runs_guard b e d u d' : runs (tx_guard b e) d (Ok u) d' -> b = true /\ d' = d.
Proof. destruct b; intros Hr; [by apply runs_ret in Hr as [_ ->]|by apply runs_fail in Hr]. Qed.

Lemma runs_statement {A} (f : SystemDB -> option (A * SystemDB)) d a d' :
  runs (statement f) d (Ok a) d' -> f d = Some (a, d').
Proof.
  intros (c & <- & Hr & Hd). unfold statement in *. destruct (statement_fails _); [done|].
  destruct (f (db c)) as [[x y]|]; simpl in *; [|done]. congruence.
Qed.

Lemma runs_exec f d u d' : runs (exec f) d (Ok u) d' -> f d = Some d'.
Proof.
  intros Hr%runs_statement. destruct (f d); simpl in Hr; [|done]. by injection Hr as _ ->.
Qed.

Lemma runs_query {A} (f : SystemDB -> A) d a d' : runs (query f) d (Ok a) d' -> a = f d /\ d' = d.
Proof. intros Hr%runs_statement. by injection Hr as <- <-. Qed.

Lemma runs_query_row {A} (f : SystemDB -> option A) d a d' :
  runs (query_row f) d (Ok a) d' -> f d = Some a /\ d' = d.
Proof.
  intros (o & d1 & [-> ->]%runs_query & Hr)%runs_bind_Ok.
  destruct (f d); [by apply runs_ret in Hr as [[= ->] ->]|by apply runs_fail in Hr].
Qed.

(** A row that is missing, or a failure, leaves the database alone. *)
Lemma runs_query_row_Err {A} (f : SystemDB -> option A) d e d' :
  runs (query_row f) d (Err e) d' -> d' = d /\ (e = ErrNoRows /\ f d = None \/ e = ErrSql).
Proof.
  intros (c & <- & Hr & <-). unfold query_row, tx_bind, query, statement in *.
  destruct (statement_fails _); simpl in *; [injection Hr as <-; auto|].
  destruct (f (db c)); simpl in *; [done|]. injection Hr as <-. auto.
Qed.

Lemma runs_optional {A} (f : SystemDB -> option A) d a d' :
  runs (optional_row f) d (Ok a) d' -> a = f d /\ d' = d.
Proof.
  intros (r & d1 & H1 & H2)%runs_try. destruct r as [x|e].
  - apply runs_query_row in H1 as [-> ->]. by apply runs_ret in H2 as [[= ->] ->].
  - apply runs_query_row_Err in H1 as [-> [[-> He]| ->]]; [|by apply runs_fail in H2].
    apply runs_ret in H2 as [[= ->] ->]. by rewrite He.
Qed.

Lemma runs_now d t d' : runs tx_now d (Ok t) d' -> d' = d.
Proof. by intros (c & <- & _ & <-). Qed.

Lemma runs_stamp d t d' : runs nowStamp d (Ok t) d' -> d' = d.
Proof.
  intros (x & d1 & ->%runs_now & Hr)%runs_bind_Ok. by apply runs_ret in Hr as [_ ->].
Qed.

Lemma inWriteTx_outcome {A} (m : Tx A) c :
  match inWriteTx m c with
  | (Ok a, c') => exists c1 c2, db c1 = db c /\ m c1 = (Ok a, c2) /\ db c' = db c2
  | (Err _, c') => db c' = db c
  end.
Proof.
  unfold inWriteTx. unfold exec at 1, statement at 1.
  destruct (statement_fails _); simpl; [done|].
  set (c1 := set_db (db c) (count_statement c)). unfold tx_bind.
  destruct (m c1) as [[a|e] c2] eqn:Hm; simpl; [|done].
  unfold exec, statement. destruct (statement_fails _); simpl; [done|].
  unfold commit_ok. destruct (identities_name_users (db c2)); simpl; [|done].
  exists c1, c2. by rewrite Hm.
Qed.

Lemma runs_inWriteTx {A} (m : Tx A) d r d' :
  runs (inWriteTx m) d r d' ->
  match r with
  | Ok a => runs m d (Ok a) d'
  | Err _ => d' = d
  end.
Proof.
  intros (c & <- & <- & <-). pose proof (inWriteTx_outcome m c) as Ho.
  destruct (inWriteTx m c) as [[a|e] c']; simpl; [|done].
  destruct Ho as (c1 & c2 & Hc & Hm & ->). exists c1. by rewrite Hm.
Qed.

End runs.

(** Take a successful run apart. *)
Ltac inv_runs :=
  repeat match goal with
  | H : runs (tx_bind _ _) _ (Ok _) _ |- _ => apply runs_bind_Ok in H as (? & ? & ? & ?)
  | H : runs (tx_ret _) _ _ _ |- _ => apply runs_ret in H as [? ?]; simplify_eq
  | H : runs (tx_fail _) _ (Ok _) _ |- _ => destruct (runs_fail _ _ _ _ H)
  | H : runs (tx_guard _ _) _ (Ok _) _ |- _ => apply runs_guard in H as [? ?]; subst
  | H : runs (exec _) _ (Ok _) _ |- _ => apply runs_exec in H
  | H : runs (query _) _ (Ok _) _ |- _ => apply runs_query in H as [? ?]; subst
  | H : runs (query_row _) _ (Ok _) _ |- _ => apply runs_query_row in H as [? ?]; subst
  | H : runs (optional_row _) _ (Ok _) _ |- _ => apply runs_optional in H as [? ?]; subst
  | H : runs tx_now _ (Ok _) _ |- _ => apply runs_now in H; subst
  | H : runs nowStamp _ (Ok _) _ |- _ => apply runs_stamp in H; subst
  end.

(** ** What statements do to the roles *)

Definition same_roles (d d' : SystemDB) : Prop := roles_of d' = roles_of d.

#[export] Instance same_roles_preorder : PreOrder same_roles.
Proof. split; unfold same_roles; repeat intro; congruence. Qed.

#[export] Instance same_roles_enroll : EnrollStatements same_roles.
Proof.
  split; intros; intros d d' Hd; unfold sql_insert_event, sql_insert_personal,
    sql_repair_personal, sql_delete_personal, sql_attest, sql_insert_pin, sql_upsert_sealed in Hd;
    sql_cases; done.
Qed.

(** The accounts and their identities stay the same. *)
Definition same_accounts (d d' : SystemDB) : Prop :=
  users d' = users d /\ account_identity_registry d' = account_identity_registry d.

#[export] Instance same_accounts_preorder : PreOrder same_accounts.
Proof. split; unfold same_accounts; repeat intro; naive_solver congruence. Qed.

#[export] Instance same_accounts_enroll : EnrollStatements same_accounts.
Proof.
  split; intros; intros d d' Hd; unfold sql_insert_event, sql_insert_personal, sql_repair_personal,
    sql_delete_personal, sql_attest, sql_insert_pin, sql_upsert_sealed in Hd; sql_cases; done.
Qed.

#[export] Instance same_accounts_escrow S : EscrowStatements S same_accounts.
Proof.
  split; [exact _|..]; try (intros; intros d d' Hd; unfold sql_upsert_pending,
      sql_delete_pending, sql_upsert_grant, sql_delete_all_grants, sql_mark_attested,
      sql_upsert_pin, sql_delete_pin, sql_delete_other_pins, sql_update_sealed, sql_delete_sealed,
      sql_delete_stale_sealed, sql_delete_all_sealed, sql_insert_key, sql_retire_key,
      sql_retire_active, sql_insert_recovery, sql_confirm_recovery in Hd; sql_cases; done).
  all: intros; done.
Qed.

#[export] Instance same_accounts_assign : AssignStatements same_accounts.
Proof.
  split.
  - intros u t d d' Hd. unfold sql_upsert_super in Hd. sql_cases. done.
  - intros u t d. unfold sql_clear_standby. by sql_cases.
Qed.

(** Only accounts of [S] become holders; the rest of the roles stays. *)
Definition key_frame (S : string -> Prop) (d d' : SystemDB) : Prop :=
  exists K, roles_of d' = mkRoles (accounts (roles_of d)) (super (roles_of d))
                                  (standby_of (roles_of d)) K
    /\ forall u, u ∈ K -> u ∈ holders (roles_of d) \/ S u.

Lemma key_frame_same S d d' : same_roles d d' -> key_frame S d d'.
Proof. intros Hs. exists (holders (roles_of d)). split; [by rewrite Hs|auto]. Qed.

#[export] Instance key_frame_preorder S : PreOrder (key_frame S).
Proof.
  split.
  - intros d. by apply key_frame_same.
  - intros d1 d2 d3 (K1 & E1 & H1) (K2 & E2 & H2). exists K2. rewrite E2, E1. split; [done|].
    intros u Hu. destruct (H2 u Hu) as [Hk|]; [|auto]. rewrite E1 in Hk. by apply H1.
Qed.

Lemma key_frame_holders S d d' :
  users d' = users d -> super_admin d' = super_admin d ->
  super_succession d' = super_succession d ->
  (forall u, u ∈ dom (escrow_grants d') -> u ∈ dom (escrow_grants d) \/ S u) -> key_frame S d d'.
Proof.
  intros E1 E2 E3 Hk. exists (dom (escrow_grants d')). split; [|done].
  unfold roles_of. by rewrite E1, E2, E3.
Qed.

#[export] Instance key_frame_enroll S : EnrollStatements (key_frame S).
Proof.
  destruct same_roles_enroll. unfold moves in *.
  split; intros; intros d d' Hd; apply key_frame_same; eauto.
Qed.

#[export] Instance key_frame_escrow S : EscrowStatements S (key_frame S).
Proof.
  split; [exact _|..]; try (intros; intros d d' Hd; unfold sql_upsert_pending,
      sql_delete_pending, sql_upsert_grant, sql_delete_all_grants, sql_mark_attested,
      sql_upsert_pin, sql_delete_pin, sql_delete_other_pins, sql_update_sealed, sql_delete_sealed,
      sql_delete_stale_sealed, sql_delete_all_sealed, sql_insert_key, sql_retire_key,
      sql_retire_active, sql_insert_recovery, sql_confirm_recovery in Hd; sql_cases;
    apply key_frame_holders; try done; set_solver).
  all: intros; apply key_frame_holders; try done; set_solver.
Qed.

(** Apply a rule of TxLogic to a [key_frame] goal; [S] is found by its instance. *)
Tactic Notation "frames" uconstr(rule) :=
  eapply rule; try exact _.

(** The database without the super administrator's row and the history: what
    the checks that open an operation never change. *)
Definition unchecked (d : SystemDB) : SystemDB :=
  mkDB (users d) (account_identity_registry d) [] 0 None (super_succession d)
       (takeover_protection d) (escrow_keys d) (personal_keys d) (sealed_deks d) (escrow_pins d)
       (escrow_grants d) (access_notices d) (escrow_rotation_pending d) (escrow_recovery d)
       (recovery_codes d) (code_seq d).

Definition checked (d d' : SystemDB) : Prop := unchecked d' = unchecked d.

#[export] Instance checked_preorder : PreOrder checked.
Proof. split; unfold checked; repeat intro; congruence. Qed.

(** The super administrator was assigned if there was none. *)
Definition assigned (s s' : Roles) : Prop :=
  s' = s \/ exists u, super s = None /\ can_administer s u
                    /\ s' = mkRoles (accounts s) (Some u) (standby_of s) (holders s).

Lemma assigned_ok s s' : assigned s s' -> roles_ok s -> roles_ok s'.
Proof.
  intros [->|(u & Hn & Hu & ->)] Hok; [done|]. by apply (role_step_ok s); [constructor|].
Qed.

Lemma assigned_Some s s' u : assigned s s' -> super s = Some u -> s' = s.
Proof. intros [->|(v & Hn & _)] Hs; [done|congruence]. Qed.

Lemma assigned_can s s' u : assigned s s' -> can_administer s' u <-> can_administer s u.
Proof. by intros [->|(v & _ & _ & ->)]. Qed.

(** ** The earliest administrator *)

(** Creation time, then name. *)
Definition admin_key (ur : string * User) : string * Time :=
  (ur.1, default zero_time (parse_stamp (created_at ur.2))).

Definition admin_le (x y : string * Time) : Prop := x.2 < y.2 \/ (x.2 = y.2 /\ String.le x.1 y.1).

Lemma string_ltb_le u v : String.ltb u v = false -> String.le v u.
Proof.
  unfold String.le, String.leb, String.ltb. rewrite String.compare_antisym.
  by destruct (String.compare v u).
Qed.

Lemma string_le_ltb u v : String.ltb u v = true -> String.le u v.
Proof. unfold String.le, String.leb, String.ltb. by destruct (String.compare u v). Qed.

Lemma admin_le_trans x y z : admin_le x y -> admin_le y z -> admin_le x z.
Proof.
  intros [Hx|[Hx Hlx]] [Hy|[Hy Hly]]; [left; lia..|right]. split; [lia|]. by transitivity y.1.
Qed.

Lemma earlier_admin_fold rows : forall best,
  (forall ur, In ur rows -> ur.1 <> EmptyString) ->
  let res := foldl earlier_admin best rows in
  (best.1 <> EmptyString -> (res = best \/ In res (admin_key <$> rows)) /\ admin_le res best)
  /\ (best.1 = EmptyString -> rows <> [] -> In res (admin_key <$> rows))
  /\ (rows = [] -> res = best)
  /\ (forall x, In x (admin_key <$> rows) -> admin_le res x).
Proof.
  induction rows as [|row rows IH]; intros best Hne; cbn zeta.
  { simpl. split_and!; try done. intros _. split; [by left|]. right. split; done. }
  simpl foldl. simpl fmap.
  assert (Hrow : row.1 <> EmptyString) by (apply Hne; by left).
  destruct (IH (earlier_admin best row)) as (I1 & _ & _ & I4); [intros; apply Hne; by right|].
  set (res := foldl earlier_admin (earlier_admin best row) rows) in *.
  assert (Hstep : (earlier_admin best row = admin_key row
      /\ (best.1 <> EmptyString -> admin_le (admin_key row) best))
    \/ (earlier_admin best row = best /\ best.1 <> EmptyString /\ admin_le best (admin_key row))).
  { unfold earlier_admin, admin_key, Before.
    set (at_ := default zero_time (parse_stamp (created_at row.2))).
    destruct (String.eqb_spec best.1 EmptyString); simpl; [by left|].
    destruct (Z.ltb_spec at_ best.2); simpl; [left; split; [done|]; intros _; left; simpl; lia|].
    destruct (Z.eqb_spec at_ best.2); simpl.
    - destruct (String.ltb row.1 best.1) eqn:Hlt; simpl.
      + left. split; [done|]. intros _. right. split; [done|]. by apply string_le_ltb.
      + right. split_and!; [done..|]. right. split; [done|]. by apply string_ltb_le.
    - right. split_and!; [done..|]. left. simpl. lia. }
  assert (Hne' : (earlier_admin best row).1 <> EmptyString).
  { destruct Hstep as [[-> _]|(-> & ? & _)]; done. }
  destruct (I1 Hne') as [Hin Hle]. split_and!; try done.
  - intros Hb. destruct Hstep as [[E Hle']|(E & _ & _)]; rewrite E in *.
    + split; [right; destruct Hin as [->|]; [by left|by right]|].
      eapply admin_le_trans; [exact Hle|auto].
    + split; [destruct Hin as [->|]; [by left|by right; right]|done].
  - intros Hb _. destruct Hstep as [[E _]|(_ & ? & _)]; [rewrite E in *|done].
    destruct Hin as [->|]; [by left|by right].
  - intros x [<-|Hx]; [|by apply I4].
    destruct Hstep as [[E _]|(E & _ & Hle')]; rewrite E in *; [done|].
    eapply admin_le_trans; [exact Hle|done].
Qed.

Section helpers.
Context `{Env} `{RangeOrder} `{Primitives}.

Lemma event_roles a u x y d r d' : runs (recordAccountEvent a u x y) d r d' -> same_roles d d'.
Proof. apply (runs_respects same_roles), respects_event; exact _. Qed.

Lemma accountRole_Ok u d b x d' :
  runs (accountRole u) d (Ok (b, x)) d' -> d' = d /\ accounts (roles_of d) !! u = Some (mkRole b x).
Proof.
  intros (r & d1 & Hx & Hy)%runs_try. destruct r as [[b' x']|e].
  - apply runs_query_row in Hx as [Hx ->]. apply runs_of in Hy as [[= <- <-] ->].
    split; [done|]. simpl. rewrite lookup_fmap. destruct (users d !! u); [|done].
    simpl in *. injection Hx as <- <-. done.
  - destruct e; try (by apply runs_of in Hy as [? _]); inv_runs.
Qed.

Lemma accountRole_Err u d e d' :
  runs (accountRole u) d (Err e) d' ->
  d' = d /\ (e = ErrNoSuchUser /\ users d !! u = None \/ e = ErrSql).
Proof.
  intros (r & d1 & Hx & Hy)%runs_try. destruct r as [a|e'].
  - by apply runs_of in Hy as [? _].
  - apply runs_query_row_Err in Hx as [-> [[-> Hn]| ->]].
    + destruct Hy as (c & <- & [= <-] & <-). split; [done|]. left.
      by destruct (users (db c) !! u).
    + apply runs_of in Hy as [[= ->] ->]. auto.
Qed.

Lemma requireEnabledAdmin_Ok u d v d' :
  runs (requireEnabledAdmin u) d (Ok v) d' -> d' = d /\ can_administer (roles_of d) u.
Proof.
  intros (r & d1 & Hx & Hy)%runs_try. destruct r as [[b x]|e].
  - apply accountRole_Ok in Hx as [-> Hx]. inv_runs. split; [done|].
    destruct b, x; try done.
  - destruct e; inv_runs.
Qed.

Lemma requireEnabledAdmin_Err u d e d' :
  runs (requireEnabledAdmin u) d (Err e) d' ->
  d' = d /\ (e = ErrNotAdmin /\ ~ can_administer (roles_of d) u \/ e = ErrSql).
Proof.
  intros (r & d1 & Hx & Hy)%runs_try. destruct r as [[b x]|e'].
  - apply accountRole_Ok in Hx as [-> Hx].
    destruct (negb (negb b || x)) eqn:Hb; destruct Hy as (c & <- & Hr & <-); [done|].
    injection Hr as <-. split; [done|]. left. split; [done|].
    unfold can_administer. rewrite Hx. intros [= -> ->]. done.
  - apply accountRole_Err in Hx as [-> [[-> Hn]| ->]];
      destruct Hy as (c & <- & [= <-] & <-); [|auto].
    split; [done|]. left. split; [done|]. unfold can_administer. simpl.
    by rewrite lookup_fmap, Hn.
Qed.

Lemma in_enabled_rows d u r :
  In (u, r) (List.filter (fun ur => enabled_admin ur.2) (range 16 (users d))) <->
  users d !! u = Some r /\ enabled_admin r = true.
Proof. rewrite filter_In, <- list_elem_of_In, elem_of_range. done. Qed.

Lemma can_administer_user d u :
  can_administer (roles_of d) u <-> exists r, users d !! u = Some r /\ enabled_admin r = true.
Proof.
  unfold can_administer, enabled_admin. simpl. rewrite lookup_fmap, fmap_Some. split.
  - intros (r & Hu & Hr). exists r. split; [done|]. injection Hr as <- <-. done.
  - intros (r & Hu & Hr). exists r. split; [done|]. unfold role_of.
    destruct (is_admin r), (disabled r); done.
Qed.

(** The enabled administrator created first, names breaking ties. *)
Definition earliest (d : SystemDB) (u : string) : Prop :=
  exists r, users d !! u = Some r /\ enabled_admin r = true
    /\ forall v x, users d !! v = Some x -> enabled_admin x = true ->
         admin_le (admin_key (u, r)) (admin_key (v, x)).

Lemma earliestEnabledAdmin_Ok d u d' :
  accounts (roles_of d) !! EmptyString = None ->
  runs earliestEnabledAdmin d (Ok u) d' ->
  d' = d /\ (u = EmptyString /\ (forall v, ~ can_administer (roles_of d) v)
             \/ u <> EmptyString /\ earliest d u).
Proof.
  intros Hno Hr. unfold earliestEnabledAdmin in Hr. inv_runs. split; [done|].
  set (rows := List.filter _ _).
  assert (Hne : forall ur, In ur rows -> ur.1 <> EmptyString).
  { intros [v r] Hin. apply in_enabled_rows in Hin as [Hv _]. simpl. intros ->.
    simpl in Hno. by rewrite lookup_fmap, Hv in Hno. }
  destruct (earlier_admin_fold rows (EmptyString, zero_time) Hne) as (_ & F2 & F3 & F4).
  destruct rows as [|row rows'] eqn:Erows.
  - left. split; [done|]. intros v [r Hv]%can_administer_user. apply in_enabled_rows in Hv.
    fold rows in Hv. by rewrite Erows in Hv.
  - right. rewrite <- Erows in *. clear F3.
    assert (Hin : In (foldl earlier_admin (EmptyString, zero_time) rows) (admin_key <$> rows)).
    { apply F2; [done|]. by rewrite Erows. }
    apply list_elem_of_In, list_elem_of_fmap in Hin as ([v r] & E & Hin). rewrite E in *. simpl.
    apply list_elem_of_In in Hin. split; [by apply (Hne (v, r))|].
    apply in_enabled_rows in Hin as [Hv Hr]. exists r. split_and!; [done..|].
    intros w x Hw Hx. apply F4. apply list_elem_of_In, list_elem_of_fmap. exists (w, x).
    split; [done|]. apply list_elem_of_In, in_enabled_rows. done.
Qed.

Lemma runs_event a u x y d v d' :
  runs (recordAccountEvent a u x y) d (Ok v) d' -> exists t, d' = add_event t a u x y d.
Proof.
  intros Hr. unfold recordAccountEvent in Hr. inv_runs.
  match goal with Hs : sql_insert_event _ _ _ _ _ _ = Some _ |- _ => injection Hs as <- end.
  by eexists.
Qed.

(** What an assignment writes: the role and one event. *)
Definition super_written (u : string) (d d' : SystemDB) : Prop :=
  exists t t' x, d' = add_event t' u u AccountSuperAssigned x (set_super (Some (u, t)) d).

Lemma assign_super_Ok cur d u d' :
  accounts (roles_of d) !! EmptyString = None ->
  runs (assign_super cur) d (Ok u) d' ->
  (u = EmptyString /\ d' = d /\ forall v, ~ can_administer (roles_of d) v)
  \/ (u <> EmptyString /\ earliest d u /\ super_written u d d').
Proof.
  intros Hno Hr. unfold assign_super in Hr. apply runs_bind_Ok in Hr as (v & d1 & Hv & Hr).
  apply earliestEnabledAdmin_Ok in Hv as [-> Hv]; [|done].
  destruct (String.eqb_spec v EmptyString) as [->|Hne].
  - inv_runs. left. destruct Hv as [[_ Hv]|[? _]]; done.
  - destruct Hv as [[? _]|[_ Hv]]; [done|]. inv_runs.
    match goal with Hs : sql_upsert_super _ _ _ = Some _ |- _ =>
      unfold sql_upsert_super in Hs; sql_cases end.
    all: match goal with Hs : runs (recordAccountEvent _ _ _ _) _ _ _ |- _ =>
      apply runs_event in Hs as [t ->] end.
    all: right; split_and!; [done..|]; by eexists _, _, _.
Qed.

Lemma earliest_can d u : earliest d u -> can_administer (roles_of d) u.
Proof. intros (r & Hu & Hr & _). apply can_administer_user. by exists r. Qed.

Lemma super_written_roles u d d' :
  super_written u d d' ->
  checked d d' /\ roles_of d' = mkRoles (accounts (roles_of d)) (Some u)
                                       (standby_of (roles_of d)) (holders (roles_of d)).
Proof. by intros (t & t' & x & ->). Qed.

(** The super administrator of consistent roles is returned as they are; else
    the earliest enabled administrator is assigned, if there is one. *)
Lemma ensureSuperTx_cases d u d' :
  roles_ok (roles_of d) -> runs ensureSuperTx d (Ok u) d' ->
  (super (roles_of d) = Some u /\ d' = d)
  \/ (super (roles_of d) = None /\ u = EmptyString /\ d' = d
      /\ forall v, ~ can_administer (roles_of d) v)
  \/ (super (roles_of d) = None /\ u <> EmptyString /\ earliest d u /\ super_written u d d').
Proof.
  intros Hok Hr. unfold ensureSuperTx in Hr. apply runs_bind_Ok in Hr as (cur & d1 & Hc & Hr).
  assert (Hcur : d1 = d /\ (super (roles_of d) = Some cur \/
    (super (roles_of d) = None /\ cur = EmptyString))).
  { apply runs_try in Hc as (r & d2 & Hx & Hy). destruct r as [a|e].
    - apply runs_query_row in Hx as [Hx ->]. apply runs_of in Hy as [[= ->] ->]. auto.
    - apply runs_query_row_Err in Hx as [-> [[-> Hx]| ->]]; [|by apply runs_of in Hy as [? _]].
      apply runs_ret in Hy as [[= ->] ->]. auto. }
  destruct Hcur as [-> [Hs|[Hs ->]]].
  - pose proof (ro_super _ Hok cur Hs) as Hcan.
    destruct (String.eqb_spec cur EmptyString) as [Heq|Hne].
    { unfold can_administer in Hcan. by rewrite Heq, (ro_names _ Hok) in Hcan. }
    apply runs_try in Hr as (r & d2 & Hx & Hy). destruct r as [a|e].
    + apply requireEnabledAdmin_Ok in Hx as [-> _]. inv_runs. auto.
    + apply requireEnabledAdmin_Err in Hx as [-> [[-> Hx]| ->]]; [done|].
      by apply runs_fail in Hy.
  - simpl in Hr. apply assign_super_Ok in Hr; [|apply Hok]. right. destruct Hr as [(?&?&?)|(?&?&?)]; auto.
Qed.

Lemma ensureSuperTx_Ok d u d' :
  roles_ok (roles_of d) -> runs ensureSuperTx d (Ok u) d' ->
  assigned (roles_of d) (roles_of d') /\ checked d d'
  /\ super (roles_of d') = (if String.eqb u EmptyString then None else Some u).
Proof.
  intros Hok Hr. destruct (ensureSuperTx_cases d u d' Hok Hr)
    as [[Hs ->]|[(Hs & -> & -> & _)|(Hs & Hne & He & Hw)]].
  - split_and!; [by left|done|]. destruct (String.eqb_spec u EmptyString) as [->|]; [|done].
    apply (ro_super _ Hok) in Hs. unfold can_administer in Hs. by rewrite (ro_names _ Hok) in Hs.
  - split_and!; [by left|done|done].
  - apply super_written_roles in Hw as [Hch Hw]. rewrite Hw. split_and!; [|done|].
    + right. exists u. split_and!; [done|by apply earliest_can|done].
    + by destruct (String.eqb_spec u EmptyString).
Qed.

Lemma requireSuperTx_Ok a d v d' :
  roles_ok (roles_of d) -> runs (requireSuperTx a) d (Ok v) d' ->
  assigned (roles_of d) (roles_of d') /\ checked d d'
  /\ super (roles_of d') = Some a /\ can_administer (roles_of d') a.
Proof.
  intros Hok Hr. unfold requireSuperTx in Hr. apply runs_bind_Ok in Hr as (? & d1 & Hx & Hr).
  apply requireEnabledAdmin_Ok in Hx as [-> Hcan].
  apply runs_bind_Ok in Hr as (s & d2 & Hs & Hr).
  apply ensureSuperTx_Ok in Hs as (Has & Hch & Hs); [|done]. inv_runs.
  match goal with Hb : String.eqb _ _ = true |- _ => apply String.eqb_eq in Hb as -> end.
  split_and!; [done..| |].
  - destruct (String.eqb_spec a EmptyString) as [->|]; [|done].
    unfold can_administer in Hcan. by rewrite (ro_names _ Hok) in Hcan.
  - by apply (assigned_can _ _ a Has).
Qed.

Lemma requireAccountActionTx_Ok a u b d v d' :
  roles_ok (roles_of d) -> runs (requireAccountActionTx a u b) d (Ok v) d' ->
  assigned (roles_of d) (roles_of d') /\ checked d d' /\ may_act (roles_of d') a u b.
Proof.
  intros Hok Hr. unfold requireAccountActionTx in Hr. destruct b; simpl in Hr.
  - apply runs_bind_Ok in Hr as (? & d1 & Hx & Hr).
    apply requireSuperTx_Ok in Hx as (Has & Hch & Hs & Hcan); [|done]. inv_runs.
    split_and!; [done..|]. split; [done|]. intros _. split; [done|].
    match goal with Hb : negb _ = true |- _ => apply negb_true_iff, String.eqb_neq in Hb end. done.
  - apply requireEnabledAdmin_Ok in Hr as [-> Hcan]. split_and!; [by left|done|]. by split.
Qed.

Lemma clearStandbyTx_Ok a u x d v d' :
  runs (clearStandbyTx a u x) d (Ok v) d' ->
  roles_of d' = mkRoles (accounts (roles_of d)) (super (roles_of d))
                        (without (standby_of (roles_of d)) u) (holders (roles_of d))
  /\ takeover_protection d' = takeover_protection d
  /\ (without (standby_of (roles_of d)) u = standby_of (roles_of d) -> d' = d).
Proof.
  intros Hr. unfold clearStandbyTx in Hr. inv_runs.
  match goal with Hs : runs (statement _) _ _ _ |- _ => apply runs_statement in Hs; rename Hs into Hst end.
  unfold sql_clear_standby in Hst. unfold without. simpl.
  destruct (super_succession d) as [s|] eqn:Es; simpl in *.
  - destruct (decide (standby s = Some u)) as [Eu|Eu].
    + rewrite bool_decide_eq_true_2 in Hst by done. injection Hst as <- <-. simpl in *.
      match goal with Hs : runs (recordAccountEvent _ _ _ _) _ _ _ |- _ =>
        apply runs_event in Hs as [t' ->] end.
      split_and!; [done..|]. intros He. congruence.
    + rewrite bool_decide_eq_false_2 in Hst by done. injection Hst as <- <-. simpl in *. inv_runs.
      unfold roles_of. rewrite Es. done.
  - injection Hst as <- <-. simpl in *. inv_runs. unfold roles_of. by rewrite Es.
Qed.

Lemma markRotationPendingTx_frames x d r d' :
  runs (markRotationPendingTx x) d r d' ->
  same_roles d d' /\ takeover_protection d' = takeover_protection d.
Proof.
  intros (c & <- & _ & <-). unfold markRotationPendingTx, activeEscrowKey, tx_bind, query,
    nowStamp, exec, statement.
  destruct (statement_fails _); [done|]. simpl. destruct (sql_active_key (db c)); [|done].
  simpl. destruct (statement_fails _); done.
Qed.

Lemma removeGrantTx_Ok u d v d' :
  runs (removeGrantTx u) d (Ok v) d' ->
  d' = set_grants (delete u (escrow_grants d)) d.
Proof. intros Hr. unfold removeGrantTx in Hr. apply runs_exec in Hr. by injection Hr as <-. Qed.

Lemma removeGrantTx_roles u d v d' :
  runs (removeGrantTx u) d (Ok v) d' ->
  roles_of d' = mkRoles (accounts (roles_of d)) (super (roles_of d)) (standby_of (roles_of d))
                        (holders (roles_of d) ∖ {[u]})
  /\ takeover_protection d' = takeover_protection d.
Proof. intros ->%removeGrantTx_Ok. unfold roles_of. simpl. by rewrite dom_delete_L. Qed.

Lemma revokeGrantTx_Ok u x d v d' :
  runs (revokeGrantTx u x) d (Ok v) d' ->
  roles_of d' = mkRoles (accounts (roles_of d)) (super (roles_of d)) (standby_of (roles_of d))
                        (holders (roles_of d) ∖ {[u]})
  /\ takeover_protection d' = takeover_protection d.
Proof.
  intros Hr. unfold revokeGrantTx, holdsAnyGrantTx in Hr. inv_runs.
  case_bool_decide as Hu; simpl in *.
  - inv_runs. match goal with Hg : runs (removeGrantTx _) _ _ _, Hm : runs (markRotationPendingTx _) _ _ _ |- _ =>
      apply removeGrantTx_roles in Hg as [Eg Pg]; apply markRotationPendingTx_frames in Hm as [Em Pm] end.
    rewrite Em, Pm. done.
  - inv_runs. split; [|done]. unfold roles_of at 1. f_equal. simpl.
    assert (u ∉ dom (escrow_grants d)) by (by rewrite elem_of_dom). set_solver.
Qed.

Lemma sql_update_user_roles u f d d' row :
  sql_update_user u f d = Some d' -> users d !! u = Some row ->
  roles_of d' = mkRoles (<[u := role_of (f row)]> (accounts (roles_of d))) (super (roles_of d))
                        (standby_of (roles_of d)) (holders (roles_of d))
  /\ takeover_protection d' = takeover_protection d.
Proof.
  intros Hd Hu. unfold sql_update_user in Hd. rewrite Hu in Hd.
  set (d1 := set_users (<[u := f row]> (users d)) d) in *.
  assert (E : users d' = users d1 /\ super_admin d' = super_admin d1
    /\ super_succession d' = super_succession d1 /\ escrow_grants d' = escrow_grants d1
    /\ takeover_protection d' = takeover_protection d1).
  { destruct (state_changed row (f row)); [|by injection Hd as <-].
    unfold bump_generation in Hd. by sql_cases. }
  destruct E as (E1 & E2 & E3 & E4 & E5). unfold roles_of. rewrite E1, E2, E3, E4. simpl.
  by rewrite fmap_insert.
Qed.

(** A change of an account's row that is not of its role. *)
Lemma sql_update_user_same u f d d' :
  (forall r, role_of (f r) = role_of r) -> sql_update_user u f d = Some d' -> same_roles d d'.
Proof.
  intros Hf Hd. destruct (users d !! u) as [row|] eqn:Hu.
  - destruct (sql_update_user_roles u f d d' row Hd Hu) as [E _].
    unfold same_roles. rewrite E, Hf. unfold roles_of. simpl. f_equal.
    apply insert_id. by rewrite lookup_fmap, Hu.
  - unfold sql_update_user in Hd. rewrite Hu in Hd. by injection Hd as <-.
Qed.

(** *** The succession as it is read *)

Definition activity (d : SystemDB) (u : string) (since : Stamp) : Time :=
  laterStamp [default Blank (last_login_of u d); since].

Definition super_last_active (d : SystemDB) : Time :=
  match super_admin d with
  | Some (u, t) => activity d u t
  | None => zero_time
  end.

Definition standby_last_active (d : SystemDB) : Time :=
  match super_succession d with
  | Some s => match standby s with Some v => activity d v (standby_named_at s) | None => zero_time end
  | None => zero_time
  end.

Definition takeover_period (d : SystemDB) : Z :=
  Z.min (Z.max (match super_succession d with Some s => takeover_days s | None => DefaultTakeoverDays end)
               MinTakeoverDays) MaxTakeoverDays.

Definition named (u : string) : option string := if String.eqb u EmptyString then None else Some u.

Lemma can_not_empty s u : roles_ok s -> can_administer s u -> u <> EmptyString.
Proof. intros Hok Hc ->. unfold can_administer in Hc. by rewrite (ro_names _ Hok) in Hc. Qed.

Lemma read_standby_Ok sup sb t d st d' :
  roles_ok (roles_of d) -> named sup = super (roles_of d) ->
  (sb = EmptyString \/ standby_of (roles_of d) = Some sb) ->
  runs (read_standby sup sb t) d (Ok st) d' ->
  d' = d /\ st = (sb, if String.eqb sb EmptyString then zero_time else activity d sb t).
Proof.
  intros Hok Hsup Hsb Hr. unfold read_standby in Hr.
  destruct (String.eqb_spec sb EmptyString) as [->|Hne]; [by inv_runs|].
  destruct Hsb as [|Hsb]; [done|].
  destruct (ro_standby _ Hok sb Hsb) as (Hc & w & Hw & Hwne).
  apply runs_try in Hr as (r & d1 & Hx & Hy).
  assert (Hns : String.eqb sb sup = false).
  { apply String.eqb_neq. intros ->. rewrite Hw in Hsup. unfold named in Hsup.
    destruct (String.eqb sup EmptyString); congruence. }
  rewrite Hns in Hy. destruct r as [a|e].
  - apply requireEnabledAdmin_Ok in Hx as [-> _]. inv_runs. split; [done|].
    unfold activity. by match goal with Hl : last_login_of _ _ = Some _ |- _ => rewrite Hl end.
  - apply requireEnabledAdmin_Err in Hx as [-> [[-> Hx]| ->]]; [done|]. by apply runs_fail in Hy.
Qed.

Lemma read_super_activity_Ok sup d t d' :
  named sup = super (roles_of d) -> runs (read_super_activity sup) d (Ok t) d' ->
  d' = d /\ t = super_last_active d.
Proof.
  intros Hs Hr. unfold read_super_activity in Hr. unfold named in Hs.
  unfold super_last_active. simpl in Hs.
  destruct (String.eqb sup EmptyString); inv_runs; (split; [done|]).
  - by destruct (super_admin _).
  - destruct (super_admin _) as [[u s]|]; [|done]. simpl in *.
    unfold activity. destruct (last_login_of u _) as [l|]; simpl in *; [|done].
    by match goal with Hl : Some _ = Some _ |- _ => injection Hl as <- end.
Qed.

Lemma readSuccessionTx_Ok d st d' :
  roles_ok (roles_of d) -> runs readSuccessionTx d (Ok st) d' ->
  assigned (roles_of d) (roles_of d') /\ checked d d'
  /\ named (ss_super st) = super (roles_of d')
  /\ named (ss_standby st) = standby_of (roles_of d')
  /\ ss_days st = takeover_period d'
  /\ ss_lastActive st = super_last_active d'
  /\ (ss_standby st <> EmptyString -> ss_standbyLastActive st = standby_last_active d')
  /\ (super (roles_of d) <> None -> d' = d).
Proof.
  intros Hok Hr. unfold readSuccessionTx in Hr. apply runs_bind_Ok in Hr as (sup & d1 & Hs & Hr).
  assert (Heq : super (roles_of d) <> None -> d1 = d).
  { intros Hne. by destruct (ensureSuperTx_cases d sup d1 Hok Hs) as [[_ ->]|[(? & _)|(? & _)]]. }
  apply ensureSuperTx_Ok in Hs as (Has & Hch & Hs); [|done].
  pose proof (assigned_ok _ _ Has Hok) as Hok1.
  apply runs_bind_Ok in Hr as (row & d2 & Hrow & Hr).
  assert (Hd2 : d2 = d1 /\ match super_succession d1 with
    | Some s => row = (default EmptyString (standby s), takeover_days s, standby_named_at s)
    | None => row = (EmptyString, DefaultTakeoverDays, Blank)
    end).
  { apply runs_try in Hrow as (r & d3 & Hx & Hy). destruct r as [s|e].
    - apply runs_query_row in Hx as [-> ->]. by inv_runs.
    - apply runs_query_row_Err in Hx as [-> [[-> ->]| ->]]; by inv_runs. }
  destruct Hd2 as [-> Hrow'].
  apply runs_bind_Ok in Hr as (sb & d3 & Hsb & Hr).
  assert (Hstand : row.1.1 = EmptyString /\ standby_of (roles_of d1) = None
                   \/ standby_of (roles_of d1) = Some row.1.1).
  { simpl. destruct (super_succession d1) as [s|]; rewrite Hrow'; simpl; [|auto].
    destruct (standby s); auto. }
  apply read_standby_Ok in Hsb as [-> ->]; [|done|by rewrite Hs|naive_solver].
  apply runs_bind_Ok in Hr as (la & d4 & Hla & Hr).
  apply read_super_activity_Ok in Hla as [-> ->]; [|by rewrite Hs]. inv_runs. simpl.
  split_and!; try done.
  - destruct Hstand as [[E1 E2]|Hst]; [rewrite E1; symmetry; exact E2|]. unfold named.
    destruct (String.eqb_spec row.1.1 EmptyString) as [E|]; [|symmetry; exact Hst].
    destruct (ro_standby _ Hok1 _ Hst) as [Hc _]. by apply can_not_empty in Hc.
  - unfold takeover_period. destruct (super_succession _); by rewrite Hrow'.
  - intros Hne. destruct (String.eqb_spec row.1.1 EmptyString); [done|].
    destruct Hstand as [[? _]|Hst]; [done|]. unfold standby_last_active. simpl in Hst.
    destruct (super_succession _) as [s|]; [|done]. simpl in Hst.
    rewrite Hrow' in *. simpl in *. rewrite Hst. simpl. done.
Qed.

End helpers.
