(* ===== verification/RolesRefine.v ===== *)
(** * Every operation is a transition of the specification

    One lemma per operation of the account store, then the refinement theorem
    and what it gives for reachable databases. *)

From S2P Require Import Prelude GoStrings GoTime EscrowCrypto Passwords SystemDb Accounts Escrow.
From S2P Require Import RecoveryCode Succession Access Credentials TxLogic AccountsMachine RolesSpec Roles.

Local Open Scope string_scope.
Local Open Scope Z_scope.

(** The super administrator is assigned if there was none, then nothing or one
    transition. *)
Definition op_step (s s' : Roles) : Prop :=
  exists s1, assigned s s1 /\ (s' = s1 \/ role_step s1 s').

Lemma op_step_refl s : op_step s s.
Proof. exists s. split; [by left|by left]. Qed.

Lemma op_step_assigned s s' : assigned s s' -> op_step s s'.
Proof. intros Ha. exists s'. auto. Qed.

Lemma op_step_role s s1 s' : assigned s s1 -> role_step s1 s' -> op_step s s'.
Proof. intros Ha Hr. exists s1. auto. Qed.

Lemma op_step_ok s s' : op_step s s' -> roles_ok s -> roles_ok s'.
Proof.
  intros (s1 & Ha & [->|Hr]) Hok; [by apply (assigned_ok s)|].
  apply (role_step_ok s1); [done|]. by apply (assigned_ok s).
Qed.

Definition ok_refines {A} (m : Tx A) : Prop :=
  forall d a d', roles_ok (roles_of d) -> runs m d (Ok a) d' -> op_step (roles_of d) (roles_of d').

Definition refines {A} (m : Tx A) : Prop :=
  forall d r d', roles_ok (roles_of d) -> runs m d r d' -> op_step (roles_of d) (roles_of d').

(** New holders among the super administrator and the standby. *)
Lemma key_frame_op S d d1 d2 :
  assigned (roles_of d) (roles_of d1) -> key_frame S d1 d2 ->
  (forall u, S u -> super (roles_of d1) = Some u \/ standby_of (roles_of d1) = Some u) ->
  op_step (roles_of d) (roles_of d2).
Proof.
  intros Ha (K & -> & HK) HS. apply (op_step_role _ _ _ Ha). apply rs_keys. intros u Hu.
  destruct (HK u Hu) as [|Hs]; [set_solver|].
  destruct (HS u Hs) as [E|E]; rewrite E; simpl; set_solver.
Qed.

Section refine.
Context `{Env} `{RangeOrder} `{Primitives}.

Lemma refines_inWriteTx {A} (m : Tx A) : ok_refines m -> refines (inWriteTx m).
Proof.
  intros Hm d r d' Hok Hr%runs_inWriteTx. destruct r; [by eapply Hm|]. rewrite Hr.
  apply op_step_refl.
Qed.

Lemma refines_bind {A B} (m : Tx A) (k : A -> Tx B) :
  refines m -> (forall a, respects same_roles (k a)) -> refines (tx_bind m k).
Proof.
  intros Hm Hk d r d' Hok (c & <- & <- & <-). unfold tx_bind in *.
  specialize (Hm (db c) (m c).1 (db (m c).2) Hok (ex_intro _ c (conj eq_refl (conj eq_refl eq_refl)))).
  destruct (m c) as [[a|e] c1]; [|done]. simpl in *. specialize (Hk a c1). unfold same_roles in Hk.
  by rewrite Hk.
Qed.

Lemma refines_try {A B} (m : Tx A) (k : result UserError A -> Tx B) :
  refines m -> (forall a, respects same_roles (k a)) -> refines (tx_try m k).
Proof.
  intros Hm Hk d r d' Hok (r1 & d1 & Hx & Hy)%runs_try.
  specialize (Hm _ _ _ Hok Hx). apply (runs_respects same_roles) in Hy; [|apply Hk].
  by rewrite Hy.
Qed.

Lemma refines_same {A} (m : Tx A) : respects same_roles m -> refines m.
Proof.
  intros Hm d r d' _ Hr. apply (runs_respects same_roles) in Hr; [|done]. rewrite Hr.
  apply op_step_refl.
Qed.

Lemma same_roles_inWriteTx {A} (m : Tx A) : respects same_roles m -> respects same_roles (inWriteTx m).
Proof. intros Hm. apply respects_inWriteTx; [exact _|exact Hm]. Qed.

(** ** Roles and status *)

(** Leaving the administrators, or being disabled: the grant is revoked and the
    standby cleared. *)
Lemma leave_roles actor u x y d d1 d2 v w :
  runs (revokeGrantTx u x) d (Ok v) d1 -> runs (clearStandbyTx actor u y) d1 (Ok w) d2 ->
  roles_of d2 = mkRoles (accounts (roles_of d)) (super (roles_of d))
                        (without (standby_of (roles_of d)) u) (holders (roles_of d) ∖ {[u]}).
Proof.
  intros [E1 _]%revokeGrantTx_Ok (E2 & _)%clearStandbyTx_Ok. by rewrite E2, E1.
Qed.

Lemma checked_users d d' : checked d d' -> users d' = users d.
Proof. intros Hc. by apply (f_equal users) in Hc. Qed.

(** The row behind an abstract role. *)
Lemma account_row d u b x :
  accounts (roles_of d) !! u = Some (mkRole b x) ->
  exists row, users d !! u = Some row /\ is_admin row = b /\ disabled row = x.
Proof.
  simpl. rewrite lookup_fmap. destruct (users d !! u) as [row|]; [|done]. simpl.
  intros [= <- <-]. by exists row.
Qed.

Lemma roles_users d d' : users d' = users d -> accounts (roles_of d') = accounts (roles_of d).
Proof. intros E. simpl. by rewrite E. Qed.

(** The update of a role and its event, once the checks are passed. *)
Lemma update_role u f actor x y d row v w d1 d2 :
  users d !! u = Some row ->
  runs (exec (sql_update_user u f)) d (Ok v) d1 ->
  runs (recordAccountEvent actor u x y) d1 (Ok w) d2 ->
  roles_of d2 = mkRoles (<[u := role_of (f row)]> (accounts (roles_of d))) (super (roles_of d))
                        (standby_of (roles_of d)) (holders (roles_of d)).
Proof.
  intros Hu Hx%runs_exec Hy%event_roles. unfold same_roles in Hy. rewrite Hy.
  by destruct (sql_update_user_roles _ _ _ _ _ Hx Hu) as [-> _].
Qed.

Lemma requireUnprotected_reads u : respects eq (requireUnprotectedTx u).
Proof. apply respects_requireUnprotectedTx; exact _. Qed.

Lemma guardLast_reads a b : respects eq (guardLastEnabledAdmin a b).
Proof. apply respects_guardLastEnabledAdmin; exact _. Qed.

Lemma requirePersonal_reads u : respects eq (requirePersonalKeyTx u).
Proof. apply respects_requirePersonalKeyTx; exact _. Qed.

(** Drop the calls that only read. *)
Ltac drop_reads :=
  repeat match goal with
  | Hr : runs (requireUnprotectedTx _) _ _ _ |- _ =>
      apply (runs_respects eq) in Hr; [match type of Hr with _ = ?v => subst v end|apply requireUnprotected_reads]
  | Hr : runs (guardLastEnabledAdmin _ _) _ _ _ |- _ =>
      apply (runs_respects eq) in Hr; [match type of Hr with _ = ?v => subst v end|apply guardLast_reads]
  | Hr : runs (requirePersonalKeyTx _) _ _ _ |- _ =>
      apply (runs_respects eq) in Hr; [match type of Hr with _ = ?v => subst v end|apply requirePersonal_reads]
  end.

Lemma setDisabledTx_refines actor u x : ok_refines (setDisabledTx actor u x).
Proof.
  intros d a d' Hok Hr. unfold setDisabledTx in Hr.
  apply runs_bind_Ok in Hr as (? & d1 & Hx & Hr). apply requireEnabledAdmin_Ok in Hx as [-> _].
  apply runs_bind_Ok in Hr as ([b cur] & d1 & Hx & Hr). apply accountRole_Ok in Hx as [-> Hrole].
  apply runs_bind_Ok in Hr as (? & d1 & Hx & Hr).
  apply requireAccountActionTx_Ok in Hx as (Has & Hch & Hact); [|done].
  assert (Hrole1 : accounts (roles_of d1) !! u = Some (mkRole b cur)).
  { by rewrite (roles_users d d1) by by apply checked_users. }
  destruct (Bool.eqb cur x); [inv_runs; by apply op_step_assigned|].
  apply runs_bind_Ok in Hr as (? & d2 & Hleave & Hr).
  apply runs_bind_Ok in Hr as (? & d3 & Hupd & Hev).
  apply (op_step_role _ _ _ Has).
  assert (Hd2 : roles_of d2 = mkRoles (accounts (roles_of d1)) (super (roles_of d1))
    (if x then without (standby_of (roles_of d1)) u else standby_of (roles_of d1))
    (if x then holders (roles_of d1) ∖ {[u]} else holders (roles_of d1))).
  { destruct x; simpl in Hleave.
    - apply runs_bind_Ok in Hleave as (? & ? & Hu & Hleave).
      apply runs_bind_Ok in Hleave as (? & ? & Hg & Hleave).
      apply runs_bind_Ok in Hleave as (? & ? & Hrev & Hclr). drop_reads.
      by eapply leave_roles.
    - by inv_runs. }
  destruct (account_row d2 u b cur) as (row & Hu & Hb & Hc); [by rewrite Hd2|].
  rewrite (update_role _ _ _ _ _ _ _ _ _ _ _ Hu Hupd Hev), Hd2. simpl.
  change (role_of (with_disabled x row)) with (mkRole (is_admin row) x). rewrite Hb.
  exact (rs_status _ actor u b cur x Hact Hrole1).
Qed.

Lemma SetDisabled_refines actor u x : refines (SetDisabled actor u x).
Proof. apply refines_inWriteTx, setDisabledTx_refines. Qed.

Lemma runs_same {A} (m : Tx A) d r d' : respects same_roles m -> runs m d r d' ->
  roles_of d' = roles_of d.
Proof. intros Hm Hr. exact (runs_respects same_roles m d r d' Hm Hr). Qed.

Lemma SetAdmin_refines actor u b : refines (SetAdmin actor u b).
Proof.
  apply refines_inWriteTx. intros d a d' Hok Hr.
  apply runs_bind_Ok in Hr as ([] & d1 & Hx & Hr). apply requireEnabledAdmin_Ok in Hx as [-> _].
  apply runs_bind_Ok in Hr as ([b0 x] & d1 & Hx & Hr). apply accountRole_Ok in Hx as [-> Hrole].
  destruct (Bool.eqb b0 b) eqn:Heq; [inv_runs; apply op_step_refl|]. apply eqb_false_iff in Heq.
  apply runs_bind_Ok in Hr as ([] & d1 & Hx & Hr).
  apply requireAccountActionTx_Ok in Hx as (Has & Hch & Hact); [|done].
  assert (Hrole1 : accounts (roles_of d1) !! u = Some (mkRole b0 x)).
  { by rewrite (roles_users d d1) by by apply checked_users. }
  apply runs_bind_Ok in Hr as ([] & d2 & Hleave & Hr).
  apply runs_bind_Ok in Hr as ([] & d3 & Hupd & Hev).
  apply (op_step_role _ _ _ Has).
  assert (Hd2 : roles_of d2 = mkRoles (accounts (roles_of d1)) (super (roles_of d1))
    (if b then standby_of (roles_of d1) else without (standby_of (roles_of d1)) u)
    (if b then holders (roles_of d1) else holders (roles_of d1) ∖ {[u]})).
  { destruct b; simpl in Hleave.
    - by inv_runs.
    - apply runs_bind_Ok in Hleave as (? & ? & Hu & Hleave).
      apply runs_bind_Ok in Hleave as (? & ? & Hg & Hleave).
      apply runs_bind_Ok in Hleave as (? & ? & Hrev & Hclr). drop_reads.
      by eapply leave_roles. }
  destruct (account_row d2 u b0 x) as (row & Hu & Hb & Hc); [by rewrite Hd2|].
  rewrite (update_role _ _ _ _ _ _ _ _ _ _ _ Hu Hupd Hev), Hd2. simpl.
  change (role_of (with_admin b row)) with (mkRole b (disabled row)). rewrite Hc.
  destruct b, b0; try done.
  - destruct Hact as [Hcan Hact]. destruct (Hact eq_refl) as [Hs _].
    exact (rs_promote (roles_of d1) actor u x Hcan Hs Hrole1).
  - exact (rs_demote (roles_of d1) actor u x Hact Hrole1).
Qed.

Lemma count_admins_pos d u :
  can_administer (roles_of d) u -> 0 < sql_count_admins d.
Proof.
  intros (r & Hu & Hr)%can_administer_user. unfold sql_count_admins.
  assert (Hin : In (u, r) (List.filter (fun ur => enabled_admin ur.2) (map_to_list (users d)))).
  { apply filter_In. split; [|done]. by apply list_elem_of_In, elem_of_map_to_list. }
  destruct (List.filter _ _); [done|]. simpl. lia.
Qed.

(** Somebody can administer any machine that has accounts, so nobody can claim
    one that a reachable history made. *)
Lemma ClaimAdmin_refines u : refines (ClaimAdmin u).
Proof.
  apply refines_inWriteTx. intros d a d' Hok Hr. unfold enabledAdminCount in Hr.
  apply runs_bind_Ok in Hr as (n & d1 & Hx & Hr). apply runs_query in Hx as [-> ->].
  apply runs_bind_Ok in Hr as ([] & d1 & Hx & Hr). apply runs_guard in Hx as [Hn ->].
  apply runs_bind_Ok in Hr as ([b x] & d1 & Hx & Hr). apply accountRole_Ok in Hx as [-> Hrole].
  destruct (ro_admin _ Hok u _ Hrole) as [v Hv]. apply count_admins_pos in Hv.
  destruct (Z.ltb_spec 0 (sql_count_admins d)); [done|lia].
Qed.

Lemma PromoteAdmin_refines actor u : refines (PromoteAdmin actor u).
Proof.
  apply refines_inWriteTx. intros d a d' Hok Hr.
  apply runs_bind_Ok in Hr as ([] & d1 & Hx & Hr).
  apply requireSuperTx_Ok in Hx as (Has & Hch & Hs & Hcan); [|done].
  apply runs_bind_Ok in Hr as ([b x] & d2 & Hx & Hr). apply accountRole_Ok in Hx as [-> Hrole].
  simpl in Hr. destruct b; [inv_runs; by apply op_step_assigned|].
  apply runs_bind_Ok in Hr as ([] & d2 & Hx & Hr). drop_reads.
  apply runs_bind_Ok in Hr as ([] & d3 & Hupd & Hev).
  apply (op_step_role _ _ _ Has).
  destruct (account_row d1 u false x Hrole) as (row & Hu & _ & Hc).
  rewrite (update_role _ _ _ _ _ _ _ _ _ _ _ Hu Hupd Hev).
  change (role_of (with_admin true row)) with (mkRole true (disabled row)). rewrite Hc.
  exact (rs_promote (roles_of d1) actor u x Hcan Hs Hrole).
Qed.

Lemma sql_delete_user_roles u d d' row :
  sql_delete_user u d = Some d' -> users d !! u = Some row ->
  super (roles_of d) <> Some u
  /\ roles_of d' = mkRoles (delete u (accounts (roles_of d))) (super (roles_of d))
                           (without (standby_of (roles_of d)) u) (holders (roles_of d) ∖ {[u]}).
Proof.
  intros Hd Hu. unfold sql_delete_user in Hd.
  assert (Hh : has_user u d = true) by by apply has_user_true. rewrite Hh in Hd.
  destruct (negb _) eqn:Hg; [|done]. simpl in Hd. injection Hd as <-.
  apply negb_true_iff in Hg. simpl in Hg. apply bool_decide_eq_false in Hg. split; [done|].
  unfold roles_of. simpl. rewrite fmap_delete, dom_delete_L. f_equal.
  unfold without. destruct (super_succession d) as [s|]; simpl; [|done].
  repeat case_decide; try done; case_bool_decide; done.
Qed.

Lemma purgeAccountTx_refines actor u : ok_refines (purgeAccountTx actor u).
Proof.
  intros d a d' Hok Hr. unfold purgeAccountTx in Hr.
  apply runs_bind_Ok in Hr as ([] & d1 & Hx & Hr). apply requireEnabledAdmin_Ok in Hx as [-> _].
  apply runs_bind_Ok in Hr as ([b x] & d1 & Hx & Hr). apply accountRole_Ok in Hx as [-> Hrole].
  apply runs_bind_Ok in Hr as ([] & d1 & Hx & Hr).
  apply requireAccountActionTx_Ok in Hx as (Has & Hch & Hact); [|done].
  assert (Hrole1 : accounts (roles_of d1) !! u = Some (mkRole b x)).
  { by rewrite (roles_users d d1) by by apply checked_users. }
  apply (op_step_role _ _ _ Has). clear Has Hch Hrole Hok.
  apply runs_bind_Ok in Hr as (? & ? & [-> ->]%runs_query & Hr).
  apply runs_bind_Ok in Hr as (? & ? & [_ ->]%runs_guard & Hr).
  apply runs_bind_Ok in Hr as (? & ? & Hu & Hr).
  apply runs_bind_Ok in Hr as (? & ? & Hg & Hr). drop_reads.
  apply runs_bind_Ok in Hr as ([] & d2 & [E2 _]%clearStandbyTx_Ok & Hr).
  apply runs_bind_Ok in Hr as ([] & d3 & [E3 _]%revokeGrantTx_Ok & Hr).
  apply runs_bind_Ok in Hr as ([] & d4 & Hdel%runs_exec & Hev%event_roles).
  destruct (account_row d3 u b x) as (row & Hu & _ & _); [by rewrite E3, E2|].
  destruct (sql_delete_user_roles _ _ _ _ Hdel Hu) as [Hs E4]. unfold same_roles in Hev.
  rewrite E3, E2 in Hs. simpl in Hs.
  rewrite Hev, E4, E3, E2. simpl.
  rewrite without_idem, difference_idem.
  exact (rs_purge (roles_of d1) actor u b x Hact Hrole1 Hs).
Qed.

Lemma folder_same_roles f : respects same_roles (tx_folder f).
Proof. apply respects_folder. exact _. Qed.

Lemma event_same_roles a u x y : respects same_roles (recordAccountEvent a u x y).
Proof. apply respects_event; exact _. Qed.

Lemma PurgeAccount_refines actor u x : refines (PurgeAccount actor u x).
Proof.
  unfold PurgeAccount. destruct (existsb _ _); [apply refines_same, respects_fail; exact _|].
  destruct (negb _); [apply refines_same, respects_fail; exact _|].
  apply refines_bind; [apply refines_inWriteTx, purgeAccountTx_refines|]. intros _.
  apply respects_try; [exact _|apply folder_same_roles|]. intros [|e]; [apply respects_ret; exact _|].
  apply respects_try; [exact _|apply same_roles_inWriteTx, event_same_roles|].
  intros _. apply respects_fail; exact _.
Qed.

(** ** The succession *)

Lemma runs_key_frame S {A} (m : Tx A) d r d' :
  respects (key_frame S) m -> runs m d r d' -> key_frame S d d'.
Proof. intros Hm Hr. exact (runs_respects (key_frame S) m d r d' Hm Hr). Qed.

Lemma requireTargetAdmin_Ok u d v d' :
  runs (requireTargetAdmin u) d (Ok v) d' -> d' = d /\ can_administer (roles_of d) u.
Proof.
  intros (r & d1 & Hx & Hy)%runs_try. destruct r as [a|e].
  - apply requireEnabledAdmin_Ok in Hx as [-> Hc]. by apply runs_of in Hy as [_ ->].
  - destruct e; by (apply runs_of in Hy as [? _] || apply runs_fail in Hy).
Qed.

Lemma sql_update_super_roles u t d d' v :
  sql_update_super u t d = Some d' -> super (roles_of d) = Some v ->
  roles_of d' = mkRoles (accounts (roles_of d)) (Some u) (standby_of (roles_of d))
                        (holders (roles_of d))
  /\ takeover_protection d' = takeover_protection d /\ users d' = users d.
Proof.
  intros Hd Hs. unfold sql_update_super in Hd. simpl in Hs.
  destruct (super_admin d); [|done]. unfold sql_upsert_super in Hd. by sql_cases.
Qed.

Lemma clearProtectionTx_roles u d v d' : runs (clearProtectionTx u) d (Ok v) d' -> same_roles d d'.
Proof. intros Hr%runs_exec. by injection Hr as <-. Qed.

Lemma recording_refines {A} a u (m : Tx A) : refines m -> refines (recording_attestation_failure a u m).
Proof.
  intros Hm. apply refines_try; [done|]. intros [x|e]; [apply respects_of; exact _|].
  destruct e; try (apply respects_of; exact _).
  apply respects_bind; [exact _| |intros _; apply respects_fail; exact _].
  apply respects_try; [exact _| |intros _; apply respects_ret; exact _].
  apply same_roles_inWriteTx, event_same_roles.
Qed.

Lemma handOverTx_refines a k t : ok_refines (handOverTx a k t).
Proof.
  intros d x d' Hok Hr. unfold handOverTx in Hr.
  apply runs_bind_Ok in Hr as ([] & d1 & Hx & Hr).
  apply requireSuperTx_Ok in Hx as (Has & _ & Hs & _); [|done].
  apply (op_step_role _ _ _ Has). clear Has Hok d.
  apply runs_bind_Ok in Hr as ([] & d2 & [Hne ->]%runs_guard & Hr).
  apply negb_true_iff, String.eqb_neq in Hne.
  apply runs_bind_Ok in Hr as ([] & d2 & [-> Ht]%requireTargetAdmin_Ok & Hr).
  apply runs_bind_Ok in Hr as ([] & d2 & Hx & Hr). drop_reads.
  apply runs_bind_Ok in Hr as (b & d3 & Hx & Hr).
  apply (runs_key_frame (eq t)) in Hx as (K & E3 & HK); [|by frames respects_passKeyTx].
  apply runs_bind_Ok in Hr as (b' & d4 & [_ ->]%runs_query & Hr).
  apply runs_bind_Ok in Hr as (s & d4 & ->%runs_stamp & Hr).
  apply runs_bind_Ok in Hr as ([] & d4 & Hx%runs_exec & Hr).
  apply (sql_update_super_roles _ _ _ _ a) in Hx as [E4 _]; [|by rewrite E3].
  apply runs_bind_Ok in Hr as ([] & d5 & [E5 _]%clearStandbyTx_Ok & Hr).
  apply runs_bind_Ok in Hr as ([] & d6 & E6%clearProtectionTx_roles & Hr).
  apply runs_bind_Ok in Hr as ([] & d7 & [E7 _]%removeGrantTx_roles & Hr).
  apply runs_bind_Ok in Hr as ([] & d8 & [E8 _]%markRotationPendingTx_frames & Hr).
  apply runs_bind_Ok in Hr as ([] & d9 & E9%event_roles & Hr). inv_runs.
  unfold same_roles in *. rewrite E9, E8, E7, E6, E5, E4, E3. simpl.
  apply (rs_hand_over (roles_of d1) a t); [done..|]. intros u Hu. simpl in *.
  apply elem_of_difference in Hu as [Hu Hna]. destruct (HK u Hu); set_solver.
Qed.

Lemma HandOverSuper_refines a k t : refines (HandOverSuper a k t).
Proof. apply recording_refines, refines_inWriteTx, handOverTx_refines. Qed.

(** The standby a request names: nobody, or another administrator. *)
Lemma require_standby_Ok a u d v d' :
  runs (require_standby a u) d (Ok v) d' ->
  d' = d /\ forall w, named u = Some w -> can_administer (roles_of d) w /\ w <> a.
Proof.
  intros Hr. unfold require_standby in Hr. unfold named.
  destruct (String.eqb u EmptyString); [by inv_runs|].
  apply runs_bind_Ok in Hr as ([] & d1 & [Hne ->]%runs_guard & Hr).
  apply negb_true_iff, String.eqb_neq in Hne.
  apply runs_bind_Ok in Hr as ([] & d1 & [-> Ht]%requireTargetAdmin_Ok & Hr). drop_reads.
  split; [done|]. intros w Hw. injection Hw as <-. done.
Qed.

Lemma replace_standby_Ok a o n d b d' :
  named o = standby_of (roles_of d) ->
  runs (replace_standby a o n) d (Ok b) d' ->
  exists x, roles_of d' = mkRoles (accounts (roles_of d)) (super (roles_of d)) x
      (if String.eqb o n then holders (roles_of d)
       else holders (roles_of d) ∖ as_set (standby_of (roles_of d)))
    /\ b = negb (String.eqb o EmptyString) && negb (String.eqb o n)
           && bool_decide (o ∈ holders (roles_of d)).
Proof.
  intros Ho Hr. unfold replace_standby in Hr. rewrite <- Ho. unfold named in *.
  destruct (String.eqb o EmptyString) eqn:Eo; simpl in *.
  { inv_runs. exists (standby_of (roles_of d)). split; [|done]. unfold roles_of at 1. f_equal. simpl.
    destruct (String.eqb o n); [done|]. set_solver. }
  destruct (String.eqb o n); simpl in *.
  { inv_runs. by exists (standby_of (roles_of d)). }
  apply runs_bind_Ok in Hr as (h & d1 & [-> ->]%runs_query & Hr).
  apply runs_bind_Ok in Hr as ([] & d2 & [E2 _]%removeGrantTx_roles & Hr).
  apply runs_bind_Ok in Hr as ([] & d3 & [E3 _]%clearStandbyTx_Ok & Hr). inv_runs.
  rewrite E3, E2. simpl. eexists. split; [done|]. apply bool_decide_ext. by rewrite elem_of_dom.
Qed.

Lemma store_standby_Ok st u n d v d' :
  runs (store_standby st u n) d (Ok v) d' ->
  roles_of d' = mkRoles (accounts (roles_of d)) (super (roles_of d)) (named u)
                        (holders (roles_of d)).
Proof.
  intros Hr. unfold store_standby in Hr.
  apply runs_bind_Ok in Hr as (t & d1 & Hx & Hr).
  assert (d1 = d) as ->.
  { destruct (String.eqb u EmptyString); [by apply runs_ret in Hx as [_ ->]|].
    destruct (negb _); [by apply runs_stamp in Hx|by apply runs_ret in Hx as [_ ->]]. }
  apply runs_bind_Ok in Hr as (t' & d1 & ->%runs_stamp & Hr%runs_exec).
  unfold sql_upsert_succession in Hr. unfold named.
  destruct (String.eqb u EmptyString); simpl in Hr; by sql_cases.
Qed.

Lemma setStandbyTx_refines a k u n : ok_refines (setStandbyTx a k u n).
Proof.
  intros d x d' Hok Hr. unfold setStandbyTx in Hr.
  apply runs_bind_Ok in Hr as ([] & d1 & Hx & Hr).
  apply requireSuperTx_Ok in Hx as (Has & _ & Hs & _); [|done].
  apply (op_step_role _ _ _ Has). pose proof (assigned_ok _ _ Has Hok) as Hok1. clear Has Hok d.
  apply runs_bind_Ok in Hr as (st & d2 & Hx & Hr).
  apply readSuccessionTx_Ok in Hx as (Has & _ & _ & Hst & _); [|done].
  apply (assigned_Some _ _ a) in Has; [|done]. rewrite Has in Hst.
  apply runs_bind_Ok in Hr as ([] & d3 & [-> Hu]%require_standby_Ok & Hr). rewrite Has in Hu.
  apply runs_bind_Ok in Hr as (held & d3 & Hx & Hr).
  apply replace_standby_Ok in Hx as (y & E3 & _); [|by rewrite Has]. rewrite Has in E3.
  apply runs_bind_Ok in Hr as (p & d4 & Hx & Hr).
  apply (runs_key_frame (fun v => v = u /\ u <> EmptyString)) in Hx as (K & E4 & HK).
  2: { destruct (String.eqb_spec u EmptyString); [apply respects_ret; exact _|].
       by frames respects_passKeyTx. }
  apply runs_bind_Ok in Hr as ([] & d5 & E5%store_standby_Ok & Hr).
  apply runs_bind_Ok in Hr as ([] & d6 & Hx & Hr).
  apply (runs_key_frame (fun v => v = a \/ (v = u /\ u <> EmptyString))) in Hx as (K6 & E6 & HK6).
  2: { apply respects_when; [exact _|]. frames respects_rotateWithOwnKeyTx; [by left|].
       apply may_keep_one. destruct (decide (u = EmptyString)); auto. }
  assert (E : roles_of d' = roles_of d6).
  { destruct (negb (String.eqb u EmptyString)).
    - apply runs_bind_Ok in Hr as (b & d7 & [_ ->]%runs_query & Hr).
      apply runs_bind_Ok in Hr as ([] & d7 & Hev%event_roles & Hr). by inv_runs.
    - apply runs_bind_Ok in Hr as ([] & d7 & Hev & Hr). inv_runs.
      apply (runs_same _ _ _ _) in Hev; [done|]. apply respects_when; [exact _|].
      apply event_same_roles. }
  rewrite E, E6, E5, E4, E3. simpl. rewrite E5, E4, E3 in HK6. rewrite E3 in HK. simpl in HK, HK6.
  change (fst <$> super_admin d1) with (super (roles_of d1)). rewrite Hs.
  apply (rs_standby (roles_of d1) a); [done..|].
  intros v Hv. rewrite !elem_of_union, elem_of_singleton.
  assert (Hnamed : u <> EmptyString -> u ∈ as_set (named u)).
  { intros Hne. unfold named. destruct (String.eqb_spec u EmptyString); [done|]. simpl. set_solver. }
  destruct (HK6 v Hv) as [Hv'|[->|[-> Hne]]]; [|by auto..].
  destruct (HK v Hv') as [Hk|[-> Hne]]; [|by auto].
  change (super_succession d1 ≫= standby) with (standby_of (roles_of d1)) in Hk.
  rewrite <- Hst in Hk |- *. destruct (String.eqb_spec (ss_standby st) u) as [<-|]; [|auto].
  destruct (decide (v ∈ as_set (named (ss_standby st)))); [auto|]. left. left. set_solver.
Qed.

Lemma SetStandby_refines a k u n : refines (SetStandby a k u n).
Proof.
  unfold SetStandby. destruct (_ || _); [apply refines_same, respects_fail; exact _|].
  apply recording_refines, refines_inWriteTx, setStandbyTx_refines.
Qed.

(** The protections of former super administrators, which no key operation
    changes. *)
Definition same_protections (d d' : SystemDB) : Prop := takeover_protection d' = takeover_protection d.

Instance same_protections_preorder : PreOrder same_protections.
Proof. split; unfold same_protections; repeat intro; congruence. Qed.

Instance same_protections_enroll : EnrollStatements same_protections.
Proof.
  split; intros; intros d d' Hd; unfold sql_insert_event, sql_insert_personal, sql_repair_personal,
    sql_delete_personal, sql_attest, sql_insert_pin, sql_upsert_sealed in Hd; sql_cases; done.
Qed.

Instance same_protections_escrow S : EscrowStatements S same_protections.
Proof.
  split; [exact _|..]; try (intros; intros d d' Hd; unfold sql_upsert_pending,
      sql_delete_pending, sql_upsert_grant, sql_delete_all_grants, sql_mark_attested,
      sql_upsert_pin, sql_delete_pin, sql_delete_other_pins, sql_update_sealed, sql_delete_sealed,
      sql_delete_stale_sealed, sql_delete_all_sealed, sql_insert_key, sql_retire_key,
      sql_retire_active, sql_insert_recovery, sql_confirm_recovery in Hd; sql_cases; done).
  all: intros; done.
Qed.

Lemma runs_reading d t d' : runs tx_now d (Ok t) d' -> d' = d /\ exists n, t = clock n.
Proof. intros (c & <- & Ht & <-). injection Ht as <-. split; [done|by eexists]. Qed.

Lemma upsert_protection_Ok u r d d' : sql_upsert_protection u r d = Some d' ->
  d' = set_protection (<[u := r]> (takeover_protection d)) d.
Proof. intros Hd. unfold sql_upsert_protection in Hd. by sql_cases. Qed.

(** What a takeover read and what it leaves behind. *)
Record taken_over (a : string) (r : TakeoverReason) (note : string) (d d' : SystemDB) : Prop :=
  mkTakenOver {
  to_state : successionState;
  to_now : Time;
  to_read : SystemDB;
  to_clock : exists n, to_now = clock n;
  to_assigned : assigned (roles_of d) (roles_of to_read);
  to_unchanged : super (roles_of d) <> None -> to_read = d;
  to_can : can_administer (roles_of to_read) a;
  to_super : super (roles_of to_read) = Some (ss_super to_state);
  to_standby : named (ss_standby to_state) = standby_of (roles_of to_read);
  to_days : ss_days to_state = takeover_period to_read;
  to_active : ss_lastActive to_state = super_last_active to_read;
  to_standby_active : ss_standby to_state <> EmptyString ->
    ss_standbyLastActive to_state = standby_last_active to_read;
  to_due : takeoverRefusal to_state a to_now = None;
  to_other : a <> ss_super to_state;
  to_holders : exists K, roles_of d' = mkRoles (accounts (roles_of to_read)) (Some a)
      (without (standby_of (roles_of to_read)) a) K
    /\ K ⊆ (holders (roles_of to_read) ∖ {[ss_super to_state]}) ∪ {[a]};
  to_protection : takeover_protection d' !! ss_super to_state
    = Some (mkProtection (Code r) note (At (AddDays to_now (Days r))) a (At to_now))
}.

Lemma takeOverTx_Ok a k r n d x d' :
  roles_ok (roles_of d) -> runs (takeOverTx a k r n) d (Ok x) d' -> taken_over a r n d d'.
Proof.
  intros Hok Hr. unfold takeOverTx in Hr.
  apply runs_bind_Ok in Hr as ([] & d1 & [-> Hcan]%requireEnabledAdmin_Ok & Hr).
  apply runs_bind_Ok in Hr as (st & d1 & Hx & Hr).
  apply readSuccessionTx_Ok in Hx as (Has & Hch & Hsup & Hsb & Hdays & Hact & Hsact & Heq); [|done].
  apply (assigned_can _ _ a Has) in Hcan.
  apply runs_bind_Ok in Hr as (now & d2 & [-> Hclock]%runs_reading & Hr).
  apply runs_bind_Ok in Hr as ([] & d2 & Hx & Hr).
  destruct (takeoverRefusal st a now) eqn:Href; [by apply runs_fail in Hx|].
  apply runs_ret in Hx as [_ ->].
  assert (Hs : super (roles_of d1) = Some (ss_super st) /\ a <> ss_super st).
  { unfold takeoverRefusal in Href. rewrite <- Hsup. unfold named.
    destruct (String.eqb_spec (ss_super st) EmptyString); [done|]. simpl in Href.
    by destruct (String.eqb_spec a (ss_super st)). }
  destruct Hs as [Hs Hne].
  apply runs_bind_Ok in Hr as ([] & d2 & Hx%runs_exec & Hr).
  apply (sql_update_super_roles _ _ _ _ (ss_super st)) in Hx as (E2 & _); [|done].
  apply runs_bind_Ok in Hr as ([] & d3 & [E3 _]%clearStandbyTx_Ok & Hr).
  apply runs_bind_Ok in Hr as (h & d4 & [_ ->]%runs_query & Hr).
  apply runs_bind_Ok in Hr as ([] & d4 & [E4 _]%removeGrantTx_roles & Hr).
  apply runs_bind_Ok in Hr as ([] & d5 & E5%clearProtectionTx_roles & Hr).
  apply runs_bind_Ok in Hr as ([] & d6 & E6%runs_exec%upsert_protection_Ok & Hr).
  apply runs_bind_Ok in Hr as (o & d7 & H7 & Hr).
  apply runs_bind_Ok in Hr as ([] & d8 & H8 & Hr).
  apply runs_bind_Ok in Hr as ([] & d9 & H9 & Hr). apply runs_ret in Hr as [_ ->].
  assert (Hframe : forall R, PreOrder R -> EscrowStatements (eq a) R -> R d6 d9).
  { intros R HR HE. transitivity d7; [|transitivity d8].
    - exact (runs_respects R _ _ _ _ (respects_try_open_grant R (eq a) _ _) H7).
    - exact (runs_respects R _ _ _ _ (respects_event R _ _ _ _) H8).
    - refine (runs_respects R _ _ _ _ (respects_when R _ _ _) H9).
      by apply (respects_takeover_rotation R (eq a)). }
  destruct (Hframe (key_frame (eq a)) _ _) as (K & E & HK).
  assert (E6' : roles_of d6 = roles_of d5) by by rewrite E6.
  unfold same_roles in *. rewrite E6', E5, E4, E3, E2 in E, HK. simpl in E, HK.
  refine (mkTakenOver _ _ _ _ _ st now d1 Hclock Has Heq Hcan Hs Hsb Hdays Hact Hsact Href Hne _ _).
  - exists K. split; [exact E|]. intros v Hv. destruct (HK v Hv) as [Hk| ->]; set_solver.
  - assert (Hp : same_protections d6 d9).
    { apply Hframe; exact _. }
    rewrite Hp, E6. simpl. by rewrite lookup_insert_eq.
Qed.

Lemma takeOverTx_refines a k r n : ok_refines (takeOverTx a k r n).
Proof.
  intros d x d' Hok Hr.
  apply takeOverTx_Ok in Hr as [st now d1 _ Has _ Hcan Hs _ _ _ _ _ Hne (K & -> & HK) _]; [|done].
  apply (op_step_role _ _ _ Has).
  apply (rs_take_over (roles_of d1) a (ss_super st)); [done..|congruence|done].
Qed.

Lemma TakeOverSuper_refines a k r n : refines (TakeOverSuper a k r n).
Proof.
  unfold TakeOverSuper. destruct (takeoverReason r); [|apply refines_same, respects_fail; exact _].
  repeat case_match; try (apply refines_same, respects_fail; exact _).
  apply refines_inWriteTx, takeOverTx_refines.
Qed.

End refine.
