(* ===== verification/RolesKeys.v ===== *)
(** * The operations that move the administrator key are transitions of the
      specification

    They leave accounts, super administrator and standby as they are (after the
    super administrator is assigned if there was none) and give the key to the
    super administrator and the standby only.
    The last part, [yields m d P], is for transactions that must succeed. *)

From S2P Require Import Prelude GoStrings GoTime EscrowCrypto Passwords SystemDb Accounts Escrow RecoveryCode Succession Access Credentials TxLogic AccountsMachine RolesSpec Roles RolesRefine.

Local Open Scope string_scope.
Local Open Scope Z_scope.

(** Who may hold the administrator key. *)
Definition chief (s : Roles) (u : string) : Prop := super s = Some u \/ standby_of s = Some u.

Record keyed (s s' : Roles) : Prop := {
  ky_accounts : accounts s' = accounts s;
  ky_standby : standby_of s' = standby_of s;
  ky_super : super s' = super s
    \/ (super s = None /\ exists u, super s' = Some u /\ can_administer s u);
  ky_holders u : u ∈ holders s' -> u ∈ holders s \/ chief s' u
}.

#[export] Instance keyed_preorder : PreOrder keyed.
Proof.
  split.
  - intros s. split; auto.
  - intros s1 s2 s3 [A1 B1 C1 D1] [A2 B2 C2 D2]. unfold can_administer in *.
    assert (Hchief : forall u, chief s2 u -> chief s3 u).
    { intros u [Hu|Hu]; [left|right; congruence]. destruct C2 as [|[]]; congruence. }
    split; [congruence..| |].
    + destruct C2 as [C2|(C2 & v & Cv & Hv)]; [rewrite C2; exact C1|].
      destruct C1 as [C1|(_ & u & Cu & _)]; [|congruence].
      rewrite C1 in C2. rewrite A1 in Hv. right. split; [done|]. by exists v.
    + intros u Hu. destruct (D2 u Hu) as [Hu'|]; [|auto]. destruct (D1 u Hu'); auto.
Qed.

Lemma keyed_op s s' : keyed s s' -> op_step s s'.
Proof.
  intros [A B C D]. exists (mkRoles (accounts s) (super s') (standby_of s) (holders s)). split.
  - destruct C as [->|(C & u & -> & Hu)]; [left; by destruct s|right; eauto].
  - right. destruct s' as [? ? ? K]. simpl in *. subst. apply (rs_keys (mkRoles _ _ _ _)).
    intros u Hu. simpl. destruct (D u Hu) as [|[E|E]]; [set_solver|..]; simpl in E; rewrite E; set_solver.
Qed.

Lemma keyed_ok s s' : keyed s s' -> roles_ok s -> roles_ok s'.
Proof. intros Hk. by apply op_step_ok, keyed_op. Qed.

Lemma assigned_keyed s s' : assigned s s' -> keyed s s'.
Proof.
  intros [->|(u & Hn & Hu & ->)]; [done|]. split; simpl; auto. right. eauto.
Qed.

Lemma key_frame_keyed S d d' :
  key_frame S d d' -> (forall u, S u -> chief (roles_of d) u) -> keyed (roles_of d) (roles_of d').
Proof.
  intros (K & -> & HK) HS. split; simpl; auto. intros u Hu. destruct (HK u Hu) as [|Hs]; [auto|].
  right. exact (HS u Hs).
Qed.

Definition nobody (u : string) : Prop := False.

(** A transaction that only moves the key, when it succeeds. *)
Definition keys `{Env} {A} (m : Tx A) : Prop :=
  forall d a d', roles_ok (roles_of d) -> runs m d (Ok a) d' -> keyed (roles_of d) (roles_of d').

Section keys.
Context `{Env} `{RangeOrder} `{Primitives}.

Lemma keys_refines {A} (m : Tx A) : keys m -> refines (inWriteTx m).
Proof. intros Hm. apply refines_inWriteTx. intros d a d' Hok Hr. by eapply keyed_op, Hm. Qed.

Lemma keys_frame {A} (m : Tx A) : respects (key_frame nobody) m -> keys m.
Proof.
  intros Hm d a d' _ Hr. apply (key_frame_keyed nobody); [|done]. by eapply runs_key_frame.
Qed.

Lemma keys_bind {A B} (m : Tx A) (k : A -> Tx B) :
  keys m -> (forall a, keys (k a)) -> keys (tx_bind m k).
Proof.
  intros Hm Hk d b d' Hok (a & d1 & Hx & Hy)%runs_bind_Ok.
  pose proof (Hm _ _ _ Hok Hx) as K1. etransitivity; [exact K1|].
  eapply Hk; [|exact Hy]. by eapply keyed_ok.
Qed.

Lemma keys_requireSuper a : keys (requireSuperTx a).
Proof.
  intros d v d' Hok Hr. apply requireSuperTx_Ok in Hr as [Has _]; [|done]. by apply assigned_keyed.
Qed.

Lemma keys_readSuccession : keys readSuccessionTx.
Proof.
  intros d v d' Hok Hr. apply readSuccessionTx_Ok in Hr as [Has _]; [|done]. by apply assigned_keyed.
Qed.

Lemma keys_ret {A} (a : A) : keys (tx_ret a).
Proof. apply keys_frame, respects_ret. exact _. Qed.

(** A savepoint that fails and is rolled back, or succeeds. *)
Lemma runs_savepoint {A} (body : Tx A) d r e d' :
  runs (in_savepoint body) d (Ok (r, e)) d' -> e = SpDone ->
  match r with
  | Ok a => runs body d (Ok a) d'
  | Err _ => d' = d
  end.
Proof.
  intros Hr ->. unfold in_savepoint in Hr.
  assert (Hrel : forall d1 x d2, runs release d1 x d2 -> d2 = d1).
  { intros d1 x d2 (r1 & d3 & Hx & Hy)%runs_try. apply runs_ret in Hy as [_ ->].
    destruct Hx as (c & <- & _ & <-). unfold exec, statement. by destruct (statement_fails _). }
  apply runs_bind_Ok in Hr as (s & d1 & [-> ->]%runs_query & Hr).
  apply runs_try in Hr as (r1 & d1 & Hx & Hr). destruct r1 as [a|x].
  - apply runs_bind_Ok in Hr as (e & d2 & ->%Hrel & Hr). by apply runs_ret in Hr as [[= -> _] ->].
  - apply runs_try in Hr as (rb & d2 & Hb & Hr). destruct rb as [u|y].
    + apply runs_exec in Hb. injection Hb as <-.
      apply runs_bind_Ok in Hr as (e & d3 & ->%Hrel & Hr). by apply runs_ret in Hr as [[= -> _] ->].
    + by apply runs_ret in Hr as [[=] _].
Qed.

(** ** Rotation *)

Lemma chief_not_empty s u : roles_ok s -> chief s u -> u <> EmptyString.
Proof.
  intros Hok [Hu|Hu]; apply (can_not_empty s); try done; [by apply (ro_super _ Hok)|].
  by apply (ro_standby _ Hok).
Qed.

(** Whoever opens their grant holds one, and nothing is changed. *)
Lemma try_open_grant_Some a k d ses d' :
  runs (try_open_grant a k) d (Ok (Some ses)) d' -> d' = d /\ a ∈ holders (roles_of d).
Proof.
  intros (r & d1 & Hx & Hy)%runs_try. destruct r as [s|e].
  2: { destruct e; by (apply runs_ret in Hy as [[=] _] || apply runs_fail in Hy). }
  apply runs_ret in Hy as [_ ->]. unfold openGrantTx in Hx.
  apply runs_bind_Ok in Hx as ([act|] & d2 & [Hact ->]%runs_query & Hx); [|by apply runs_fail in Hx].
  apply runs_bind_Ok in Hx as (rows & d2 & [-> ->]%runs_optional & Hx).
  destruct (grant_for a act.1 d) as [g|] eqn:Hg; simpl in Hx; [|by apply runs_fail in Hx].
  assert (Hh : a ∈ holders (roles_of d)).
  { unfold grant_for in Hg. simpl. apply elem_of_dom. by destruct (escrow_grants d !! a). }
  assert (Hbad : forall x d0 s0 d3, runs (unusable_grant (A:=EscrowSession) a x) d0 (Ok s0) d3 -> False).
  { intros x d0 s0 d3 Hr. unfold unusable_grant in Hr. inv_runs. }
  destruct (personal_keys d !! a), (escrow_pins d !! a); simpl in Hx; try by apply runs_fail in Hx.
  repeat case_match; by (apply Hbad in Hx || apply runs_ret in Hx as [_ ->]).
Qed.

Lemma rotatorTx_Ok a d b d' :
  roles_ok (roles_of d) -> a <> EmptyString -> runs (rotatorTx a) d (Ok b) d' ->
  keyed (roles_of d) (roles_of d') /\ (b = true -> chief (roles_of d') a).
Proof.
  intros Hok Hne Hr. unfold rotatorTx in Hr. apply runs_bind_Ok in Hr as (st & d1 & Hx & Hr).
  apply readSuccessionTx_Ok in Hx as (Has & _ & Hs & Hb & _); [|done]. apply assigned_keyed in Has.
  unfold named in Hs, Hb. destruct (String.eqb_spec a (ss_super st)) as [->|].
  { apply runs_ret in Hr as [[= ->] ->]. split; [done|]. intros _. left.
    by destruct (String.eqb_spec (ss_super st) EmptyString). }
  destruct (String.eqb_spec a (ss_standby st)) as [->|]; simpl in Hr.
  2: { by apply runs_ret in Hr as [[= ->] ->]. }
  destruct (String.eqb_spec (ss_super st) EmptyString); simpl in Hr.
  { by apply runs_ret in Hr as [[= ->] ->]. }
  apply runs_bind_Ok in Hr as (h & d2 & [_ ->]%runs_query & Hr). apply runs_ret in Hr as [_ ->].
  split; [done|]. intros _. right. by destruct (String.eqb_spec (ss_standby st) EmptyString).
Qed.

Lemma runPendingRotationTx_keyed ses a k d x d' :
  roles_ok (roles_of d) -> a <> EmptyString -> runs (runPendingRotationTx ses a k) d (Ok x) d' ->
  keyed (roles_of d) (roles_of d').
Proof.
  intros Hok Hne Hr. unfold runPendingRotationTx in Hr.
  apply runs_bind_Ok in Hr as (reason & d1 & Hx & Hr).
  apply (runs_respects eq) in Hx; [subst d1|apply respects_rotationPendingTx; exact _].
  destruct (String.eqb reason EmptyString); [by apply runs_ret in Hr as [_ ->]|].
  apply runs_bind_Ok in Hr as (b & d1 & [Hk Hb]%rotatorTx_Ok & Hr); [|done..].
  destruct b; simpl in Hr; [|by apply runs_ret in Hr as [_ ->]].
  apply runs_bind_Ok in Hr as (n & d2 & Hx & Hr). apply runs_ret in Hr as [_ ->].
  apply (runs_key_frame (eq a)) in Hx.
  2: { frames respects_rotateInSavepointTx; [done|apply may_keep_nil]. }
  etransitivity; [exact Hk|]. apply (key_frame_keyed (eq a)); [done|]. intros u <-. by apply Hb.
Qed.

Lemma runs_keyed S {A} (m : Tx A) d r d' :
  respects (key_frame S) m -> (forall u, S u -> chief (roles_of d) u) -> runs m d r d' ->
  keyed (roles_of d) (roles_of d').
Proof. intros Hm HS Hr. apply (key_frame_keyed S); [|done]. by eapply runs_key_frame. Qed.

Lemma refines_frame {A} (m : Tx A) : respects (key_frame nobody) m -> refines m.
Proof. intros Hm d r d' _ Hr. apply keyed_op. by eapply (runs_keyed nobody). Qed.

(** A call that reads, or only moves the key, whatever its result. *)
Lemma keys_try_frame {A B} (m : Tx A) (k : result UserError A -> Tx B) :
  respects (key_frame nobody) m -> (forall r, keys (k r)) -> keys (tx_try m k).
Proof.
  intros Hm Hk d b d' Hok (r & d1 & Hx & Hy)%runs_try.
  assert (K1 : keyed (roles_of d) (roles_of d1)) by by eapply (runs_keyed nobody).
  etransitivity; [exact K1|]. eapply Hk; [|exact Hy]. by eapply keyed_ok.
Qed.

Lemma keys_fail {A} e : keys (@tx_fail A e).
Proof. intros d a d' _ Hr. by apply runs_fail in Hr. Qed.

Hint Resolve keys_ret keys_fail keys_requireSuper keys_readSuccession : tx.

(** Close the transactions that never name a new holder. *)
Ltac keys_step :=
  first
  [ solve [eauto with tx]
  | apply keys_frame; solve [tx_respects]
  | apply keys_bind; [|intros ?]
  | apply keys_try_frame; [solve [tx_respects]|intros ?]
  | match goal with
    | |- keys (match ?x with _ => _ end) => destruct x
    | |- keys (let (_, _) := ?x in _) => destruct x
    end ].

Hint Resolve respects_try_open_grant respects_openGrantTx respects_event respects_enrollTx
  respects_requireEnabledAdmin respects_accountRole respects_activeEscrowKey
  respects_rotationPendingTx respects_recoveryStateTx respects_openRecoveryTx
  respects_requirePersonalKeyTx respects_removeSubordinateGrantTx respects_adminDutiesTx
  respects_delete_recovery respects_ensurePersonalKey respects_attestTx : tx.

Lemma OpenEscrow_refines u k : refines (OpenEscrow u k).
Proof. apply refines_frame. unfold OpenEscrow. tx_respects. Qed.

Lemma EnrollSession_refines u k : refines (EnrollSession u k).
Proof. apply refines_frame. unfold EnrollSession. tx_respects. Qed.

Lemma RequireSuper_refines a : refines (RequireSuper a).
Proof. apply keys_refines. eauto with tx. Qed.

Lemma SuccessionFor_refines a : refines (SuccessionFor a).
Proof.
  apply keys_refines. unfold holds_key, activeProtectionsTx, holdsActiveGrantTx, protectionTx.
  repeat keys_step.
Qed.

Lemma CreateEscrowRecoveryCode_refines a k : refines (CreateEscrowRecoveryCode a k).
Proof.
  apply refines_bind; [apply keys_refines|intros [x|]; [apply respects_ret|apply respects_fail]; exact _].
  repeat keys_step. apply keys_frame, respects_rows; [exact _|]. intros d. apply mv_delete_recovery.
Qed.

Lemma CheckEscrowRecoveryCode_refines a x : refines (CheckEscrowRecoveryCode a x).
Proof. apply keys_refines. repeat keys_step. Qed.

Lemma ConfirmEscrowRecoveryCode_refines a x : refines (ConfirmEscrowRecoveryCode a x).
Proof. apply keys_refines. repeat keys_step. Qed.

Lemma AcknowledgeAccessNotices_refines u n : refines (AcknowledgeAccessNotices u n).
Proof.
  apply refines_frame. unfold AcknowledgeAccessNotices. tx_respects.
  apply respects_exec; [exact _|]. intros d d' Hd. apply key_frame_same.
  unfold sql_upsert_notice in Hd. by sql_cases.
Qed.

Lemma OpenUserForAdmin_refines a k t r : refines (OpenUserForAdmin a k t r).
Proof.
  unfold OpenUserForAdmin. repeat case_match; try (apply refines_same, respects_fail; exact _).
  apply refines_bind; [apply keys_refines|intros [x|]; [apply respects_ret|apply respects_fail]; exact _].
  unfold openUserTx, grant_or_refusal. repeat keys_step.
Qed.

(** ** Rotations *)

Lemma RunPendingRotation_refines a k : refines (RunPendingRotation a k).
Proof.
  apply keys_refines. intros d x d' Hok Hr.
  apply runs_bind_Ok in Hr as (reason & d1 & Hx & Hr).
  apply (runs_respects eq) in Hx; [subst d1|apply respects_rotationPendingTx; exact _].
  destruct (String.eqb reason EmptyString); [by apply runs_ret in Hr as [_ ->]|].
  apply runs_bind_Ok in Hr as ([ses|] & d1 & Hx & Hr).
  - apply try_open_grant_Some in Hx as [-> Hh]. apply (ro_holders _ Hok) in Hh.
    apply runs_bind_Ok in Hr as (s & d2 & Hx & Hr). apply runs_ret in Hr as [_ ->].
    eapply runPendingRotationTx_keyed; [done| |exact Hx]. by apply (chief_not_empty (roles_of d)).
  - apply runs_ret in Hr as [_ ->]. eapply (runs_keyed nobody); [|done|exact Hx]. tx_respects.
Qed.

Lemma ReplaceEscrowKey_refines a k s : refines (ReplaceEscrowKey a k s).
Proof.
  apply refines_bind; [apply keys_refines|intros [x|]; [apply respects_ret|apply respects_fail]; exact _].
  intros d x d' Hok Hr.
  apply runs_bind_Ok in Hr as ([] & d1 & Hx & Hr).
  apply requireSuperTx_Ok in Hx as (Has & _ & Hsup & _); [|done].
  pose proof (assigned_keyed _ _ Has) as Hk. pose proof (assigned_ok _ _ Has Hok) as Hok1.
  etransitivity; [exact Hk|]. clear Has Hk.
  apply runs_bind_Ok in Hr as ([] & d2 & Hx & Hr).
  assert (Hkeep : roles_of d2 = roles_of d1
                  /\ (s <> EmptyString -> standby_of (roles_of d1) = Some s)).
  { destruct (String.eqb_spec s EmptyString) as [->|Hne]; simpl in Hx; [by apply runs_ret in Hx as [_ ->]|].
    apply runs_bind_Ok in Hx as (st & d3 & Hx & Hy). apply runs_guard in Hy as [Hs%String.eqb_eq ->].
    apply readSuccessionTx_Ok in Hx as (Has & _ & _ & Hst & _); [|done].
    apply (assigned_Some _ _ a) in Has; [|done]. rewrite Has in Hst. split; [done|]. intros _.
    rewrite <- Hst, <- Hs. unfold named. by destruct (String.eqb_spec s EmptyString). }
  destruct Hkeep as [E2 Hkeep]. rewrite <- E2 in *. clear Hx.
  apply runs_bind_Ok in Hr as ([ses|] & d3 & Hx & Hr).
  - apply try_open_grant_Some in Hx as [-> _].
    apply runs_bind_Ok in Hr as (out & d4 & Hx & Hr). apply runs_ret in Hr as [_ ->].
    eapply (runs_keyed (chief (roles_of d2))); [|done|exact Hx].
    frames respects_rotateTx; [by left|]. apply may_keep_one.
    destruct (decide (s = EmptyString)); [by left|]. right. right. auto.
  - apply runs_ret in Hr as [_ ->]. eapply (runs_keyed nobody); [|done|exact Hx]. tx_respects.
Qed.

Lemma CreateNewEscrowKey_refines a k r : refines (CreateNewEscrowKey a k r).
Proof.
  unfold CreateNewEscrowKey. repeat case_match; try (apply refines_same, respects_fail; exact _).
  apply keys_refines. intros d x d' Hok Hr.
  apply runs_bind_Ok in Hr as ([] & d1 & Hx & Hr).
  apply requireSuperTx_Ok in Hx as (Has & _ & Hsup & _); [|done].
  etransitivity; [by apply assigned_keyed|].
  apply runs_bind_Ok in Hr as (n & d2 & [_ ->]%runs_query & Hr).
  apply runs_bind_Ok in Hr as ([] & d2 & [_ ->]%runs_guard & Hr).
  apply runs_bind_Ok in Hr as (o & d2 & Hx & Hr).
  assert (Hk : keyed (roles_of d1) (roles_of d2)).
  { eapply (runs_keyed nobody); [|done|exact Hx]. tx_respects. }
  etransitivity; [exact Hk|].
  apply runs_bind_Ok in Hr as ([] & d3 & Hy & Hr).
  destruct o; [by apply runs_fail in Hy|]. apply runs_ret in Hy as [_ ->].
  apply runs_bind_Ok in Hr as (h & d3 & [_ ->]%runs_query & Hr).
  destruct h as [h|].
  { apply runs_bind_Ok in Hr as (st & d3 & _ & Hr). by apply runs_fail in Hr. }
  eapply (runs_keyed (eq a)); [by frames respects_newEscrowKeyTx| |exact Hr].
  intros u <-. left. destruct (ky_super _ _ Hk) as [->|[Hn _]]; [done|congruence].
Qed.

Lemma event_keyed a u x y d r d' :
  runs (recordAccountEvent a u x y) d r d' -> roles_of d' = roles_of d.
Proof. apply event_roles. Qed.

Lemma restore_key_keyed a k s d x d' :
  roles_ok (roles_of d) -> super (roles_of d) = Some a -> runs (restore_key a k s) d (Ok x) d' ->
  keyed (roles_of d) (roles_of d').
Proof.
  intros Hok Hs Hr. unfold restore_key in Hr.
  assert (Ha : chief (roles_of d) a) by by left.
  apply runs_bind_Ok in Hr as (pk & d1 & Hx & Hr).
  apply (runs_key_frame (eq a)) in Hx; [rename Hx into F1|tx_respects].
  apply runs_bind_Ok in Hr as ([] & d2 & Hx & Hr).
  apply (runs_key_frame (eq a)) in Hx; [rename Hx into F2|tx_respects].
  apply runs_bind_Ok in Hr as ([] & d3 & Hx & Hr).
  apply (runs_key_frame (eq a)) in Hx; [rename Hx into F3|by frames respects_grantTx].
  apply runs_bind_Ok in Hr as ([] & d4 & Hx & Hr).
  apply (runs_key_frame (eq a)) in Hx; [rename Hx into F4|tx_respects].
  assert (F : key_frame (eq a) d d4) by (do 3 (etransitivity; [eassumption|]); done).
  apply runs_bind_Ok in Hr as (s' & d5 & Hx & Hr). apply runs_ret in Hr as [_ ->].
  assert (K : keyed (roles_of d) (roles_of d4)) by (apply (key_frame_keyed (eq a)); [done|by intros ? <-]).
  etransitivity; [exact K|]. eapply runPendingRotationTx_keyed; [by eapply keyed_ok| |exact Hx].
  by apply (chief_not_empty (roles_of d)).
Qed.

Lemma recover_with_keyed a k act p d x d' :
  roles_ok (roles_of d) -> super (roles_of d) = Some a -> runs (recover_with a k act p) d (Ok x) d' ->
  keyed (roles_of d) (roles_of d').
Proof.
  intros Hok Hs Hr. unfold recover_with in Hr.
  assert (Hbad : forall y d1, runs (recovery_mismatch a y) d1 (Ok x) d' ->
                   keyed (roles_of d1) (roles_of d')).
  { intros y d1 Hm. unfold recovery_mismatch in Hm.
    apply runs_bind_Ok in Hm as ([] & d2 & E%event_keyed & Hm). apply runs_ret in Hm as [_ ->].
    by rewrite E. }
  destruct (EscrowPublicKey p) as [q|]; [|by eapply Hbad].
  apply runs_bind_Ok in Hr as (pin & d1 & [_ ->]%runs_optional & Hr).
  destruct pin as [pin|]; [|by eapply Hbad].
  destruct (negb _); [by eapply Hbad|].
  apply runs_bind_Ok in Hr as (b & d1 & Hx & Hr).
  assert (d1 = d) as ->.
  { destruct (VerifyEscrowPin _ _ _ _ _); simpl in Hx; [by apply runs_ret in Hx as [_ ->]|].
    by apply runs_fail in Hx. }
  repeat case_match; try by eapply Hbad. by eapply restore_key_keyed.
Qed.

Lemma RecoverEscrowKey_refines a k x : refines (RecoverEscrowKey a k x).
Proof.
  apply refines_bind; [apply keys_refines|intros [y|]; [apply respects_fail|apply respects_ret]; exact _].
  intros d y d' Hok Hr. apply runs_bind_Ok in Hr as ([] & d1 & Hx & Hr).
  apply requireSuperTx_Ok in Hx as (Has & _ & Hsup & _); [|done].
  pose proof (assigned_ok _ _ Has Hok). etransitivity; [by apply assigned_keyed|].
  apply runs_try in Hr as (r & d2 & Hx & Hr).
  apply (runs_respects eq) in Hx; [subst d2|apply respects_openRecoveryTx; exact _].
  destruct r as [[act p]|e]; [by eapply recover_with_keyed|].
  destruct e; try by apply runs_fail in Hr.
  apply runs_bind_Ok in Hr as ([] & d2 & E%event_keyed & Hr). apply runs_ret in Hr as [_ ->].
  by rewrite E.
Qed.

(** ** An administrator's session *)

Lemma super_session_keyed a k d x d' :
  roles_ok (roles_of d) -> super (roles_of d) = Some a -> runs (super_session a k) d (Ok x) d' ->
  keyed (roles_of d) (roles_of d').
Proof.
  intros Hok Hs Hr. unfold super_session in Hr.
  assert (Ha : chief (roles_of d) a) by by left.
  apply runs_bind_Ok in Hr as (n & d1 & [_ ->]%runs_query & Hr).
  destruct (n =? 0).
  { eapply (runs_keyed (eq a)); [by frames respects_bootstrapTx|by intros ? <-|exact Hr]. }
  apply runs_bind_Ok in Hr as (act & d1 & [_ ->]%runs_query & Hr).
  destruct act as [act|]; [|by rewrite (event_keyed _ _ _ _ _ _ _ Hr)].
  apply runs_bind_Ok in Hr as (p & d1 & Hx & Hr).
  assert (K1 : keyed (roles_of d) (roles_of d1)).
  { eapply (runs_keyed nobody); [|done|exact Hx]. tx_respects. }
  etransitivity; [exact K1|]. pose proof (keyed_ok _ _ K1 Hok) as Hok1. clear Hx.
  apply runs_bind_Ok in Hr as ([ses|] & d2 & Hx & Hr).
  - apply try_open_grant_Some in Hx as [-> _].
    apply runs_bind_Ok in Hr as (s & d3 & Hx & Hr).
    apply runPendingRotationTx_keyed in Hx; [|done|by apply (chief_not_empty (roles_of d))].
    etransitivity; [exact Hx|]. eapply (runs_keyed nobody); [|done|exact Hr]. tx_respects.
  - apply runs_ret in Hr as [_ ->]. eapply (runs_keyed nobody); [|done|exact Hx]. tx_respects.
Qed.

Lemma standby_session_keyed a k d x d' :
  roles_ok (roles_of d) -> a <> EmptyString -> runs (standby_session a k) d (Ok x) d' ->
  keyed (roles_of d) (roles_of d').
Proof.
  intros Hok Hne Hr. unfold standby_session in Hr.
  apply runs_bind_Ok in Hr as (p & d1 & Hx & Hr).
  assert (K1 : keyed (roles_of d) (roles_of d1)).
  { eapply (runs_keyed nobody); [|done|exact Hx]. tx_respects. }
  etransitivity; [exact K1|]. pose proof (keyed_ok _ _ K1 Hok) as Hok1. clear Hx.
  apply runs_bind_Ok in Hr as ([ses|] & d2 & Hx & Hr).
  - apply try_open_grant_Some in Hx as [-> _].
    apply runs_bind_Ok in Hr as (s & d3 & Hx & Hr). apply runs_ret in Hr as [_ ->].
    by eapply runPendingRotationTx_keyed.
  - apply runs_ret in Hr as [_ ->]. eapply (runs_keyed nobody); [|done|exact Hx]. tx_respects.
Qed.

Lemma keys_enrollAdminSession a k : keys (enrollAdminSessionTx a k).
Proof.
  intros d x d' Hok Hr. unfold enrollAdminSessionTx in Hr.
  apply runs_try in Hr as (r & d1 & Hx & Hr). destruct r as [u|e].
  2: { apply requireEnabledAdmin_Err in Hx as [-> _].
       eapply (runs_keyed nobody); [|done|exact Hr]. destruct e; tx_respects. }
  apply requireEnabledAdmin_Ok in Hx as [-> Hcan].
  assert (Hne : a <> EmptyString) by by eapply can_not_empty.
  apply runs_bind_Ok in Hr as (st & d1 & Hx & Hr).
  apply readSuccessionTx_Ok in Hx as (Has & _ & Hs & Hb & _); [|done].
  pose proof (assigned_ok _ _ Has Hok) as Hok1. etransitivity; [by apply assigned_keyed|].
  destruct (String.eqb a (ss_standby st)); [by eapply standby_session_keyed|].
  destruct (String.eqb_spec a (ss_super st)) as [->|]; simpl in Hr.
  - eapply super_session_keyed; [done| |exact Hr]. rewrite <- Hs. unfold named.
    by destruct (String.eqb_spec (ss_super st) EmptyString).
  - eapply (runs_keyed nobody); [|done|exact Hr]. tx_respects.
Qed.

Lemma EnrollAdminSession_refines a k : refines (EnrollAdminSession a k).
Proof. apply keys_refines, keys_enrollAdminSession. Qed.

(** ** Sign-in *)

Lemma keys_signInSavepoint (m : Tx unit) : keys m -> keys (enrollInSignInSavepoint m).
Proof.
  intros Hm d x d' Hok Hr. unfold enrollInSignInSavepoint in Hr.
  apply runs_bind_Ok in Hr as ([r e] & d1 & Hx & Hr).
  destruct e; [|destruct r; by apply runs_fail in Hr..].
  assert (d' = d1) as -> by (destruct r; by apply runs_ret in Hr as [_ ->]).
  apply runs_savepoint in Hx; [|done]. destruct r; [by eapply Hm|by subst].
Qed.

(** A change of an account's row that is not of its role. *)
Lemma update_same_keyed u f : (forall r, role_of (f r) = role_of r) -> keys (exec (sql_update_user u f)).
Proof.
  intros Hf d x d' _ Hr%runs_exec. apply sql_update_user_same in Hr; [|done].
  by rewrite Hr.
Qed.

Lemma update_if_keyed p u f : (forall r, role_of (f r) = role_of r) ->
  keys (statement (sql_update_user_if p u f)).
Proof.
  intros Hf d x d' _ Hr%runs_statement. unfold sql_update_user_if in Hr.
  destruct (users d !! u); [|by injection Hr as _ <-]. destruct (p u0); [|by injection Hr as _ <-].
  destruct (sql_update_user u f d) as [d1|] eqn:E; simpl in Hr; [|done]. injection Hr as _ <-.
  apply sql_update_user_same in E; [|done]. by rewrite E.
Qed.

(** Passwords and recovery codes are not part of the roles. *)
Lemma keys_storeCredentialWork u s w : keys (storeCredentialWorkTx u s w).
Proof.
  unfold storeCredentialWorkTx. apply keys_bind; [|intros []];
    unfold tx_when; match goal with |- keys (if ?c then _ else _) => destruct c end;
    repeat keys_step; by apply update_if_keyed.
Qed.

Lemma SignInCommit_refines u s w b : refines (SignInCommit u s w b).
Proof.
  apply keys_refines. unfold signInTx.
  apply keys_bind; [unfold requireSameCredentialsTx, readCredentialRow; repeat keys_step|intros now].
  apply keys_bind; [repeat keys_step|intros stamp].
  apply keys_bind; [by apply update_same_keyed|intros []].
  apply keys_bind; [apply keys_storeCredentialWork|intros []].
  apply keys_bind; [|intros []; repeat keys_step].
  destruct b; [apply keys_signInSavepoint, keys_enrollAdminSession|].
  unfold tx_when. destruct (negb _); [|apply keys_ret].
  apply keys_signInSavepoint. repeat keys_step.
Qed.

Lemma swapPassword_refines u h w h' w' : refines (swapPassword u h w h' w').
Proof.
  apply refines_same. unfold swapPassword.
  apply respects_bind; [exact _| |intros; apply respects_guard; exact _].
  apply respects_statement; [exact _|]. intros d n d' Hr.
  unfold sql_swap_password, sql_update_user_if in Hr.
  destruct (users d !! u) as [r|]; [|by injection Hr as _ <-].
  case_match; [|by injection Hr as _ <-].
  destruct (sql_update_user _ _ _) as [x|] eqn:E; [|done]. injection Hr as _ <-.
  by apply sql_update_user_same in E.
Qed.

Lemma replaceRecoveryCodes_same u s : respects same_roles (replaceRecoveryCodes u s).
Proof.
  unfold replaceRecoveryCodes. tx_respects.
  - apply respects_exec; [exact _|]. intros d d' Hd. unfold sql_delete_codes in Hd. by sql_cases.
  - apply respects_exec; [exact _|]. intros d d' Hd. unfold sql_insert_code in Hd. by sql_cases.
Qed.

Lemma keys_same {A} (m : Tx A) : respects same_roles m -> keys m.
Proof. intros Hm d a d' _ Hr. by apply (runs_same _ _ _ _) in Hr as ->. Qed.

Lemma issueCodes_refines a u c w s : refines (inWriteTx (issueCodesTx a u c w s)).
Proof.
  apply keys_refines. unfold issueCodesTx.
  apply keys_bind; [repeat keys_step|intros []].
  apply keys_bind; [unfold readCredentialRow; repeat keys_step|intros now].
  do 2 (apply keys_bind; [repeat keys_step|intros []]).
  apply keys_bind; [unfold tx_when; case_match; [apply keys_requireSuper|apply keys_ret]|intros []].
  apply keys_bind; [apply keys_storeCredentialWork|intros []].
  apply keys_bind; [|intros []; apply keys_same, replaceRecoveryCodes_same].
  unfold tx_when. destruct (negb _); [|apply keys_ret].
  apply keys_signInSavepoint. repeat keys_step.
Qed.

Lemma ConfirmRecoveryCodes_refines p : refines (ConfirmRecoveryCodes p).
Proof.
  apply refines_same, respects_inWriteTx; [exact _|]. unfold recoveryCodesBasis.
  do 2 (apply respects_bind; [exact _|tx_respects|intros ?]). apply replaceRecoveryCodes_same.
Qed.

Lemma ResetWithRecoveryCode_refines u x p : refines (ResetWithRecoveryCode u x p).
Proof.
  unfold ResetWithRecoveryCode. destruct (negb _); [apply refines_same, respects_fail; exact _|].
  apply refines_same. unfold resetTx, rewrap_key, tx_HashPassword, tx_WrapKey, ValidatePassword.
  assert (Hu : forall u f, (forall r, role_of (f r) = role_of r) -> moves same_roles (sql_update_user u f)).
  { intros v f Hf d d' Hd. by apply sql_update_user_same in Hd. }
  tx_respects.
  - apply respects_exec; [exact _|]. intros d d' Hd. unfold sql_use_code in Hd. by sql_cases.
  - apply respects_statement; [exact _|]. intros d n d' Hd. unfold sql_update_user_if in Hd.
    destruct (users d !! u); [|by injection Hd as _ <-]. case_match; [|by injection Hd as _ <-].
    destruct (sql_update_user _ _ _) as [y|] eqn:E; [|done]. injection Hd as _ <-.
    by apply (Hu u (with_hash a3)).
Qed.

End keys.

Create HintDb yields.

Definition yields {A} (m : Tx A) (d : SystemDB) (P : result UserError A -> SystemDB -> Prop) : Prop :=
  forall c, db c = d -> P (m c).1 (db (m c).2).

(** Success with a result and a database satisfying [Q]. *)
Definition ok {A} (Q : A -> SystemDB -> Prop) (r : result UserError A) (d : SystemDB) : Prop :=
  exists a, r = Ok a /\ Q a d.

Section yields.
Context `{Env}.

Lemma yields_mono {A} (m : Tx A) d (P P' : result UserError A -> SystemDB -> Prop) :
  yields m d P -> (forall r d', P r d' -> P' r d') -> yields m d P'.
Proof. intros Hm Hp c Hc. apply Hp, Hm, Hc. Qed.

Lemma yields_ok {A} (m : Tx A) d (Q Q' : A -> SystemDB -> Prop) :
  yields m d (ok Q) -> (forall a d', Q a d' -> Q' a d') -> yields m d (ok Q').
Proof. intros Hm HQ. eapply yields_mono; [exact Hm|]. intros r d' (a & -> & Ha). exists a. auto. Qed.

Lemma yields_respects R {A} (m : Tx A) d (P : result UserError A -> SystemDB -> Prop) :
  respects R m -> yields m d P -> yields m d (fun r d' => P r d' /\ R d d').
Proof. intros Hr Hm c Hc. split; [by apply Hm|]. rewrite <- Hc. apply Hr. Qed.

Lemma yields_ok_respects R {A} (m : Tx A) d (Q : A -> SystemDB -> Prop) :
  respects R m -> yields m d (ok Q) -> yields m d (ok (fun a d' => Q a d' /\ R d d')).
Proof.
  intros Hr Hm. eapply yields_mono; [by apply (yields_respects R)|].
  intros r d' [(a & -> & Ha) Hd]. exists a. auto.
Qed.

Lemma yields_runs {A} (m : Tx A) d (P : result UserError A -> SystemDB -> Prop) r d' :
  yields m d P -> runs m d r d' -> P r d'.
Proof. intros Hm (c & Hc & <- & <-). by apply Hm. Qed.

Lemma yields_ret {A} (a : A) d (P : result UserError A -> SystemDB -> Prop) :
  P (Ok a) d -> yields (tx_ret a) d P.
Proof. intros Hp c <-. exact Hp. Qed.

Lemma yields_fail {A} e d (P : result UserError A -> SystemDB -> Prop) :
  P (Err e) d -> yields (tx_fail e) d P.
Proof. intros Hp c <-. exact Hp. Qed.

Lemma yields_bind {A B} (m : Tx A) (k : A -> Tx B) d Q P :
  yields m d (ok Q) -> (forall a d', Q a d' -> yields (k a) d' P) -> yields (tx_bind m k) d P.
Proof.
  intros Hm Hk c Hc. destruct (Hm c Hc) as (a & Ha & Hq). unfold tx_bind.
  destruct (m c) as [r c1]. simpl in *. subst r. by apply (Hk a (db c1)).
Qed.

(** The rule for a call that may fail: an error ends the transaction. *)
Lemma yields_bind_any {A B} (m : Tx A) (k : A -> Tx B) d P0 (P : result UserError B -> SystemDB -> Prop) :
  yields m d P0 -> (forall a d', P0 (Ok a) d' -> yields (k a) d' P) ->
  (forall e d', P0 (Err e) d' -> P (Err e) d') -> yields (tx_bind m k) d P.
Proof.
  intros Hm Hk He c Hc. specialize (Hm c Hc). unfold tx_bind.
  destruct (m c) as [[a|e] c1]; simpl in *; [by apply (Hk a (db c1))|auto].
Qed.

Lemma yields_try {A B} (m : Tx A) (k : result UserError A -> Tx B) d P0 P :
  yields m d P0 -> (forall r d', P0 r d' -> yields (k r) d' P) -> yields (tx_try m k) d P.
Proof.
  intros Hm Hk c Hc. specialize (Hm c Hc). unfold tx_try.
  destruct (m c) as [r c1]. simpl in *. by apply (Hk r (db c1)).
Qed.

Lemma yields_now d : yields tx_now d (ok (fun t d' => d' = d /\ exists n, t = clock n)).
Proof. intros c <-. eexists. split; [done|]. split; [done|]. by eexists. Qed.

Lemma yields_stamp d : yields nowStamp d (ok (fun t d' => d' = d)).
Proof. intros c <-. by eexists. Qed.

(** *** Nothing fails for an outside reason *)

Context (no_faults : forall n, statement_fails n = false).

Lemma yields_statement {A} (f : SystemDB -> option (A * SystemDB)) d a d' :
  f d = Some (a, d') -> yields (statement f) d (ok (fun b e => b = a /\ e = d')).
Proof.
  intros Hf c <-. unfold statement. rewrite no_faults. rewrite Hf. simpl. by eexists.
Qed.

Lemma yields_exec f d d' : f d = Some d' -> yields (exec f) d (ok (fun _ e => e = d')).
Proof.
  intros Hf. eapply yields_ok; [apply (yields_statement _ _ () d'); by rewrite Hf|]. by intros ? ? [].
Qed.

Lemma yields_query {A} (f : SystemDB -> A) d : yields (query f) d (ok (fun a e => a = f d /\ e = d)).
Proof. by apply yields_statement. Qed.

Lemma yields_query_row {A} (f : SystemDB -> option A) d a :
  f d = Some a -> yields (query_row f) d (ok (fun b e => b = a /\ e = d)).
Proof.
  intros Hf. eapply yields_bind; [apply yields_query|]. simpl. intros o d' [-> ->]. rewrite Hf.
  apply yields_ret. by eexists.
Qed.

(** A row that may be missing. *)
Lemma yields_row {A} (f : SystemDB -> option A) d :
  yields (query_row f) d (fun r e => e = d /\
    match f d with
    | Some a => r = Ok a
    | None => r = Err ErrNoRows
    end).
Proof.
  eapply yields_bind; [apply yields_query|]. simpl. intros o d' [-> ->].
  destruct (f d); [by apply yields_ret|by apply yields_fail].
Qed.

Lemma yields_optional {A} (f : SystemDB -> option A) d :
  yields (optional_row f) d (ok (fun o e => o = f d /\ e = d)).
Proof.
  eapply yields_try; [apply yields_row|]. simpl. intros r d' [-> Hr].
  destruct (f d); subst r; apply yields_ret; by eexists.
Qed.

Lemma yields_event a u x y d :
  x ∈ accountEventActions ->
  yields (recordAccountEvent a u x y) d (ok (fun _ e => exists t, e = add_event t a u x y d)).
Proof.
  intros Hx. unfold recordAccountEvent. rewrite bool_decide_eq_true_2 by done. simpl.
  eapply yields_bind; [apply (yields_ret () d (ok (fun _ e => e = d))); by exists ()|].
  intros [] d1 ->. eapply yields_bind; [apply yields_stamp|]. intros t d2 ->.
  eapply yields_ok; [by apply yields_exec|]. intros _ e ->. by eexists.
Qed.

End yields.

(** Close the membership of an event action. *)
Ltac event_action := repeat constructor.
