(* ===== verification/RolesTheorems.v ===== *)
(** * The account store implements the specification of roles

    Account creation, then the refinement theorem over all operations and the
    invariant it gives for every reachable database. *)

From S2P Require Import Prelude GoStrings GoTime EscrowCrypto Passwords SystemDb Accounts Escrow.
From S2P Require Import RecoveryCode Succession Access Credentials TxLogic AccountsMachine AccountsDemo.
From S2P Require Import RolesSpec Roles RolesRefine RolesKeys.

Local Open Scope string_scope.
Local Open Scope Z_scope.

Section create.
Context `{Env} `{RangeOrder} `{Primitives}.

Lemma runs_or_remove_folder {A} u (m : Tx A) d a d' :
  runs (or_remove_folder u m) d (Ok a) d' -> runs m d (Ok a) d'.
Proof.
  intros (r & d1 & Hx & Hr)%runs_try. destruct r as [b|e].
  - by apply runs_ret in Hr as [[= ->] ->].
  - apply runs_bind_Ok in Hr as (? & ? & _ & Hr). by apply runs_fail in Hr.
Qed.

Lemma createUserFolder_reads u : respects eq (createUserFolder u).
Proof. unfold createUserFolder, or_remove_folder. tx_respects. Qed.

Lemma insert_identity_roles i u d d' : sql_insert_identity i u d = Some d' ->
  roles_of d' = roles_of d /\ users d' = users d.
Proof. intros Hd. unfold sql_insert_identity in Hd. by sql_cases. Qed.

Lemma insertAccount_Ok root u n h b d row d' :
  runs (insertAccount root u n h b) d (Ok row) d' ->
  accounts (roles_of d) !! u = None /\ is_admin row = b
  /\ roles_of d' = set_role u (mkRole b false) false (roles_of d).
Proof.
  intros Hr. unfold insertAccount in Hr.
  apply runs_bind_Ok in Hr as (tk & d1 & [_ ->]%runs_query & Hr).
  do 3 apply runs_bind_Ok in Hr as ([] & d1 & [_ ->]%runs_guard & Hr).
  apply runs_bind_Ok in Hr as ([] & d1 & Hx & Hr).
  apply (runs_respects eq) in Hx; [subst d1|apply createUserFolder_reads].
  apply runs_bind_Ok in Hr as ([] & d1 & Hx%runs_or_remove_folder & Hr).
  assert (E1 : roles_of d1 = roles_of d /\ users d1 = users d).
  { unfold allocateAccountIdentity in Hx. apply runs_bind_Ok in Hx as (s & d2 & Hx & Hy%runs_exec).
    apply (runs_respects eq) in Hx; [subst d2|apply respects_rand; exact _].
    by eapply insert_identity_roles. }
  destruct E1 as [E1 U1]. clear Hx.
  apply runs_bind_Ok in Hr as (t & d2 & ->%runs_stamp & Hr).
  apply runs_bind_Ok in Hr as ([] & d2 & Hy%runs_or_remove_folder%runs_exec & Hr).
  apply runs_ret in Hr as [Hrow ->]. injection Hrow as ->.
  unfold sql_insert_user in Hy. sql_cases. lookup_cases. split_and!; [|done|].
  - rewrite <- U1, lookup_fmap. unfold has_user in *.
    match goal with Hn : negb _ = true |- _ =>
      apply negb_true_iff, bool_decide_eq_false, eq_None_not_Some in Hn; by rewrite Hn end.
  - rewrite <- E1. unfold roles_of, set_role. simpl. by rewrite fmap_insert.
Qed.

(** Who creates which account: the first one makes itself an administrator. *)
Lemma creation_rule_Ok caller b n d b' d' :
  roles_ok (roles_of d) -> runs (creation_rule caller b n) d (Ok b') d' ->
  (n = 0 /\ b' = true /\ d' = d)
  \/ (n <> 0 /\ b' = b /\ assigned (roles_of d) (roles_of d') /\ checked d d'
      /\ can_administer (roles_of d') caller
      /\ (b = true -> super (roles_of d') = Some caller)).
Proof.
  intros Hok Hr. unfold creation_rule in Hr. destruct (Z.eqb_spec n 0).
  { left. by apply runs_ret in Hr as [[= ->] ->]. }
  right. apply runs_bind_Ok in Hr as ([] & d1 & Hx & Hr).
  assert (Hc : d1 = d /\ can_administer (roles_of d) caller).
  { apply runs_try in Hx as (r & d2 & Hx & Hy). destruct r as [[x y]|e].
    - apply accountRole_Ok in Hx as [-> Hrole]. apply runs_guard in Hy as [Hg ->].
      split; [done|]. unfold can_administer. rewrite Hrole. by destruct x, y.
    - destruct e; by apply runs_fail in Hy. }
  destruct Hc as [-> Hcan]. clear Hx.
  apply runs_bind_Ok in Hr as ([] & d2 & Hx & Hr). apply runs_ret in Hr as [[= ->] ->].
  destruct b; simpl in Hx.
  - apply requireSuperTx_Ok in Hx as (Has & Hch & Hs & Hc); [|done]. by split_and!.
  - apply runs_ret in Hx as [_ ->]. split_and!; try done. by left.
Qed.

Lemma createAccountTx_refines root c u n h k w b s :
  u <> EmptyString -> ok_refines (createAccountTx root c u n h k w b s).
Proof.
  intros Hu d x d' Hok Hr. unfold createAccountTx in Hr.
  apply runs_bind_Ok in Hr as (ex & d1 & [-> ->]%runs_query & Hr).
  apply runs_bind_Ok in Hr as (b' & d1 & Hrule%creation_rule_Ok & Hr); [|done].
  apply runs_bind_Ok in Hr as (row & d2 & (Hnone & _ & E2)%insertAccount_Ok & Hr).
  assert (E : roles_of d' = roles_of d2).
  { apply runs_bind_Ok in Hr as ([] & d3 & Hx & Hr).
    apply (runs_respects eq) in Hx; [subst d3|apply respects_capture; exact _].
    apply runs_bind_Ok in Hr as ([] & d3 & E3%event_roles & Hr).
    apply runs_bind_Ok in Hr as ([] & d4 & Hx%runs_exec & Hr).
    apply sql_update_user_same in Hx; [|done].
    apply runs_bind_Ok in Hr as ([] & d5 & Hy & Hr).
    apply (runs_same _ _ _ _) in Hy.
    2: { apply respects_try; [exact _|apply respects_enrollInSavepoint; exact _|].
         intros. apply respects_ret; exact _. }
    apply runs_bind_Ok in Hr as (ig & d6 & [_ ->]%runs_query_row & Hr). apply runs_ret in Hr as [_ ->].
    unfold same_roles in *. congruence. }
  rewrite E, E2. destruct Hrule as [(Hn & -> & ->)|(Hn & -> & Has & Hch & Hcan & Hsup)].
  - apply (op_step_role _ (roles_of d)); [by left|]. apply rs_first; [|done]. simpl.
    apply map_eq. intros i. rewrite lookup_fmap, lookup_empty.
    assert (Hs : size (users d) = 0%nat) by lia. apply map_size_empty_inv in Hs. by rewrite Hs.
  - apply (op_step_role _ _ _ Has). by apply (rs_create _ c).
Qed.

Lemma storeAccount_refines root c u n h k w b s :
  u <> EmptyString -> refines (storeAccount root c u n h k w b s).
Proof.
  intros Hu d r d' Hok Hr. unfold storeAccount in Hr.
  assert (Hd : runs (tx_try (inWriteTx (createAccountTx root c u n h k w b s)) (fun r =>
      match r with
      | Ok p => tx_ret p
      | Err e =>
          dir <-- tx_captured ;;
          do! tx_when (negb (String.eqb dir EmptyString)) (removeNewUserFolder u) ;;
          tx_fail e
      end)) d r d').
  { destruct Hr as (c0 & Hc & <- & <-). by exists (set_captured EmptyString c0). }
  eapply refines_try; [apply refines_inWriteTx, createAccountTx_refines, Hu| |exact Hok|exact Hd].
  intros [p|e]; [apply respects_ret; exact _|]. tx_respects.
Qed.

(** A prefix that does not touch the database. *)
Lemma refines_after {A B} (m : Tx A) (k : A -> Tx B) :
  respects eq m -> (forall a, refines (k a)) -> refines (tx_bind m k).
Proof.
  intros Hm Hk d r d' Hok (c & Hc & Hr & Hd). pose proof (Hm c) as He.
  unfold tx_bind in Hr, Hd. destruct (m c) as [[a|e] c1]; simpl in *.
  - apply (Hk a d r d' Hok). exists c1. by rewrite <- He.
  - subst d d'. rewrite <- He. apply op_step_refl.
Qed.

Lemma CreateAccount_refines root c u n p b s :
  refines (CreateAccountWithPrincipal root c u n p b s).
Proof.
  unfold CreateAccountWithPrincipal. destruct (ValidateUsername u) eqn:Hv; simpl;
    [|apply refines_same, respects_fail; exact _].
  assert (Hu : u <> EmptyString) by by intros ->.
  apply refines_after; [unfold ValidatePassword; tx_respects|intros []].
  apply refines_after; [unfold tx_HashPassword; tx_respects|intros h].
  apply refines_after; [unfold GenerateDEK; tx_respects|intros k].
  apply refines_after; [unfold tx_WrapKey; tx_respects|intros w].
  apply refines_bind; [by apply storeAccount_refines|]. intros ap. apply respects_ret; exact _.
Qed.

Lemma refines_forget {A} (m : Tx A) : refines m -> refines (forget m).
Proof. intros Hm. apply refines_bind; [done|]. intros _. apply respects_ret; exact _. Qed.

Lemma run_refines op : refines (run op).
Proof.
  destruct op; simpl; try apply refines_forget.
  - apply CreateAccount_refines.
  - apply SignInCommit_refines.
  - apply SetDisabled_refines.
  - apply SetAdmin_refines.
  - apply ClaimAdmin_refines.
  - apply PromoteAdmin_refines.
  - apply PurgeAccount_refines.
  - apply RequireSuper_refines.
  - apply HandOverSuper_refines.
  - apply SetStandby_refines.
  - apply TakeOverSuper_refines.
  - apply SuccessionFor_refines.
  - apply EnrollSession_refines.
  - apply EnrollAdminSession_refines.
  - apply OpenEscrow_refines.
  - apply RunPendingRotation_refines.
  - apply ReplaceEscrowKey_refines.
  - apply CreateNewEscrowKey_refines.
  - apply CreateEscrowRecoveryCode_refines.
  - apply CheckEscrowRecoveryCode_refines.
  - apply ConfirmEscrowRecoveryCode_refines.
  - apply RecoverEscrowKey_refines.
  - apply OpenUserForAdmin_refines.
  - apply AcknowledgeAccessNotices_refines.
  - apply swapPassword_refines.
  - apply refines_same, respects_inWriteTx; [exact _|apply replaceRecoveryCodes_same].
  - apply issueCodes_refines.
  - apply ConfirmRecoveryCodes_refines.
  - apply ResetWithRecoveryCode_refines.
Qed.

End create.

Lemma step_op_step `{Primitives} d d' :
  step d d' -> roles_ok (roles_of d) -> op_step (roles_of d) (roles_of d').
Proof.
  intros [E O op c] Hok. eapply (run_refines op); [exact Hok|]. by exists c.
Qed.

Lemma reachable_roles `{Primitives} d : reachable d -> roles_ok (roles_of d).
Proof.
  unfold reachable. intros Hr. assert (H0 : roles_ok (roles_of empty_db)) by exact no_roles_ok.
  revert H0. induction Hr as [|d1 d2 d3 Hs _ IH]; [done|]. intros Hok. apply IH.
  eapply op_step_ok; [by apply step_op_step|done].
Qed.

(** ** The theorems *)

(** C2. Every operation of the account store, succeeding or failing, under any
    clock, random source, map order and failing statements, either leaves the
    roles of the machine alone or makes one transition of their specification,
    after the super administrator is assigned if there was none. *)
Theorem store_refines_roles `{Primitives} d d' :
  reachable d -> step d d' ->
  exists s, (s = roles_of d \/ role_step (roles_of d) s)
    /\ (roles_of d' = s \/ role_step s (roles_of d')).
Proof.
  intros Hr Hs. destruct (step_op_step d d' Hs (reachable_roles d Hr)) as (s & Ha & Hstep).
  exists s. split; [|done]. destruct Ha as [->|(u & Hn & Hu & ->)]; [by left|].
  right. by constructor.
Qed.

(** C19. In every reachable database the roles are in order: the machine has an
    administrator who can sign in as soon as it has an account, the super
    administrator is one, the standby is another one, and nobody else holds a
    grant of the administrator key. *)
Theorem reachable_roles_in_order `{Primitives} d :
  reachable d ->
  (users d <> ∅ -> exists v r, users d !! v = Some r /\ enabled_admin r = true)
  /\ (forall u t, super_admin d = Some (u, t) ->
        exists r, users d !! u = Some r /\ enabled_admin r = true)
  /\ (forall s v, super_succession d = Some s -> standby s = Some v ->
        (exists r, users d !! v = Some r /\ enabled_admin r = true)
        /\ exists u t, super_admin d = Some (u, t) /\ u <> v)
  /\ (forall u g, escrow_grants d !! u = Some g ->
        fst <$> super_admin d = Some u \/ super_succession d ≫= standby = Some u).
Proof.
  intros Hr. apply reachable_roles in Hr as [Hnames Hadmin Hsuper Hstandby Hholders]. split_and!.
  - intros Hne. destruct (map_choose _ Hne) as (u & r & Hu).
    destruct (Hadmin u (role_of r)) as [v Hv]; [simpl; by rewrite lookup_fmap, Hu|].
    exists v. by apply can_administer_user.
  - intros u t Hu. apply can_administer_user, Hsuper. simpl. by rewrite Hu.
  - intros s v Hs Hv. destruct (Hstandby v) as (Hc & u & Hu & Hne); [simpl; by rewrite Hs|].
    split; [by apply can_administer_user|]. simpl in Hu. destruct (super_admin d) as [[w t]|]; [|done].
    injection Hu as ->. by exists u, t.
  - intros u g Hu. apply Hholders. simpl. apply elem_of_dom. by exists g.
Qed.

(** When the machine has no super administrator, the role goes to the
    enabled administrator who was created first, the smaller name breaking ties,
    whatever order the rows come in; the choice is recorded.  It is taken from
    nobody. *)
Theorem ensureSuperTx_chooses_earliest `{Env} `{RangeOrder} `{Primitives} c u c' :
  reachable (db c) -> ensureSuperTx c = (Ok u, c') ->
  (fst <$> super_admin (db c) = Some u /\ db c' = db c)
  \/ (super_admin (db c) = None /\ u = EmptyString /\ db c' = db c
      /\ forall v r, users (db c) !! v = Some r -> enabled_admin r = false)
  \/ (super_admin (db c) = None /\ earliest (db c) u
      /\ fst <$> super_admin (db c') = Some u
      /\ exists e, account_events (db c') = (account_events (db c) ++ [e])%list
           /\ ev_Action e = AccountSuperAssigned /\ ev_Username e = u).
Proof.
  intros Hreach Hr. pose proof (reachable_roles _ Hreach) as Hok.
  assert (Hx : runs ensureSuperTx (db c) (Ok u) (db c')) by (exists c; by rewrite Hr).
  assert (Hnone : super (roles_of (db c)) = None -> super_admin (db c) = None).
  { simpl. by destruct (super_admin (db c)). }
  destruct (ensureSuperTx_cases _ _ _ Hok Hx) as [[Hs He]|[(Hs & -> & He & Hno)|(Hs & _ & He & Hw)]].
  - by left.
  - right. left. split_and!; [auto..|]. intros v r Hv. apply not_true_is_false. intros Hr'.
    apply (Hno v), can_administer_user. by exists r.
  - right. right. split_and!; [auto..| |]; destruct Hw as (t & t' & x & ->); [done|]. by eexists.
Qed.
