(* ===== verification/SuccessionTheorems.v ===== *)
(** * Takeover and protection

    When a takeover happens, that it succeeds when it is due, and what the
    protection of the former super administrator prevents. *)

From S2P Require Import Prelude GoStrings GoTime EscrowCrypto Passwords SystemDb Accounts Escrow.
From S2P Require Import RecoveryCode Succession Access Credentials TxLogic AccountsMachine RolesSpec Roles.
From S2P Require Import RolesRefine RolesKeys RolesTheorems.

Local Open Scope string_scope.
Local Open Scope Z_scope.

Lemma same_accounts_committed d d' :
  same_accounts d d' -> identities_name_users d = true -> identities_name_users d' = true.
Proof.
  intros [Hu Hr]. rewrite !identities_name_users_true. rewrite Hu, Hr. done.
Qed.

Lemma can_has_user d u : can_administer (roles_of d) u -> has_user u d = true.
Proof. intros (r & Hu & _)%can_administer_user. apply has_user_true. by exists r. Qed.

Section total.
Context `{Env} `{RangeOrder} `{Primitives}.
Context (no_faults : forall n, statement_fails n = false).

Notation done_with R d := (ok (fun _ e => R d e)).

(** Add what any successful run satisfies. *)
Lemma yields_and_runs {A} (m : Tx A) d (Q Q' : A -> SystemDB -> Prop) :
  yields m d (ok Q) -> (forall a d', runs m d (Ok a) d' -> Q' a d') ->
  yields m d (ok (fun a d' => Q a d' /\ Q' a d')).
Proof.
  intros Hm Hr c Hc. destruct (Hm c Hc) as (a & Ha & Hq). exists a. split; [done|]. split; [done|].
  apply Hr. by exists c.
Qed.

Lemma yields_inWriteTx {A} (m : Tx A) d (Q : A -> SystemDB -> Prop) :
  yields m d (ok (fun a d' => Q a d' /\ identities_name_users d' = true)) ->
  yields (inWriteTx m) d (ok Q).
Proof.
  intros Hm c <-.
  set (c1 := set_db (db c) (count_statement c)).
  destruct (Hm c1 eq_refl) as (a & Ha & Hq & Hi).
  assert (Hend : exists c', inWriteTx m c = (Ok a, c') /\ db c' = db (m c1).2).
  { unfold inWriteTx. unfold exec at 1, statement at 1. rewrite no_faults. cbn [fmap option_fmap option_map].
    change (set_db (db c) (count_statement c)) with c1. unfold tx_bind.
    destruct (m c1) as [r c2]. simpl in *. subst r. unfold exec, statement. rewrite no_faults.
    unfold commit_ok. rewrite Hi. by eexists. }
  destruct Hend as (c' & -> & Hd). simpl. rewrite Hd. by exists a.
Qed.

Lemma yields_requireEnabledAdmin d u :
  can_administer (roles_of d) u -> yields (requireEnabledAdmin u) d (ok (fun _ e => e = d)).
Proof.
  intros (r & Hu & Hr)%can_administer_user. unfold requireEnabledAdmin, accountRole.
  unfold enabled_admin in Hr.
  assert (Hrole : yields (tx_try (query_row (fun d => (fun r => (is_admin r, disabled r)) <$> users d !! u))
      (fun r => match r with Err ErrNoRows => tx_fail ErrNoSuchUser | r => tx_of r end)) d
      (fun x e => e = d /\ x = Ok (is_admin r, disabled r))).
  { eapply yields_try; [by apply yields_row|]. simpl. rewrite Hu. simpl. intros x e [-> ->].
    intros c <-. done. }
  eapply yields_try; [exact Hrole|]. intros x e [-> ->]. simpl.
  destruct (is_admin r), (disabled r); try done. apply yields_ret. by exists ().
Qed.

Lemma yields_ensureSuper d f :
  roles_ok (roles_of d) -> super (roles_of d) = Some f ->
  yields ensureSuperTx d (ok (fun u e => u = f /\ e = d)).
Proof.
  intros Hok Hs. pose proof (ro_super _ Hok f Hs) as Hcan. unfold ensureSuperTx.
  eapply (yields_bind _ _ _ (fun u e => u = f /\ e = d)).
  { eapply yields_try; [by apply yields_row|]. simpl. simpl in Hs. rewrite Hs. intros x e [-> ->].
    intros c <-. by exists f. }
  intros u e [-> ->]. assert (Hne : f <> EmptyString) by by eapply can_not_empty.
  destruct (String.eqb_spec f EmptyString); [done|].
  eapply yields_try; [by apply yields_requireEnabledAdmin|]. intros r e ([] & -> & ->).
  apply yields_ret. by exists f.
Qed.

Lemma yields_readSuccession d f :
  roles_ok (roles_of d) -> super (roles_of d) = Some f ->
  yields readSuccessionTx d (ok (fun st e => e = d /\ runs readSuccessionTx d (Ok st) d)).
Proof.
  intros Hok Hs.
  assert (Hy : yields readSuccessionTx d (ok (fun _ _ => True))).
  { unfold readSuccessionTx. eapply yields_bind; [by apply (yields_ensureSuper d f)|].
    intros u e [-> ->].
    eapply (yields_bind _ _ _ (fun row e => e = d /\ (row.1.1 = EmptyString \/
       standby_of (roles_of d) = Some row.1.1))).
    { eapply yields_try; [by apply yields_row|]. simpl. intros x e [-> Hx].
      destruct (super_succession d) as [s|]; subst x; apply yields_ret; eexists; (split; [done|]); simpl.
      - split; [done|]. destruct (standby s); auto.
      - auto. }
    intros [[sb days] named_at] e [-> Hsb]. simpl in *.
    eapply (yields_bind _ _ _ (fun _ e => e = d)).
    { unfold read_standby. destruct (String.eqb_spec sb EmptyString); [apply yields_ret; by eexists|].
      destruct Hsb as [|Hsb]; [done|]. destruct (ro_standby _ Hok sb Hsb) as (Hc & w & Hw & Hne).
      eapply yields_try; [by apply yields_requireEnabledAdmin|]. intros r e ([] & -> & ->).
      destruct (String.eqb_spec sb f) as [->|]; [simpl in *; congruence|].
      apply can_administer_user in Hc as (row & Hu & _).
      eapply yields_bind; [apply (yields_query_row no_faults _ _ (last_login row))|].
      - unfold last_login_of. by rewrite Hu.
      - intros l e [-> ->]. apply yields_ret. by eexists. }
    intros x e ->. eapply (yields_bind _ _ _ (fun _ e => e = d)).
    { unfold read_super_activity. destruct (String.eqb f EmptyString); [apply yields_ret; by eexists|].
      pose proof (ro_super _ Hok f Hs) as Hc.
      apply can_administer_user in Hc as (row & Hu & _). simpl in Hs.
      destruct (super_admin d) as [[g t]|] eqn:Hsa; [|done]. injection Hs as ->.
      eapply yields_bind; [apply (yields_query_row no_faults _ _ (last_login row, t))|].
      - rewrite Hsa. unfold last_login_of. by rewrite Hu.
      - intros l e [-> ->]. apply yields_ret. by eexists. }
    intros y e ->. apply yields_ret. by eexists. }
  eapply yields_ok; [apply (yields_and_runs _ _ _ (fun st e => e = d /\ runs readSuccessionTx d (Ok st) e) Hy)|].
  - intros st e Hr. split; [|done]. apply readSuccessionTx_Ok in Hr as (_ & _ & _ & _ & _ & _ & _ & He); [|done].
    apply He. congruence.
  - intros st e [_ [-> Hr]]. done.
Qed.

Lemma yields_clearStandby a u x d :
  yields (clearStandbyTx a u x) d (ok (fun _ e => same_accounts d e)).
Proof.
  unfold clearStandbyTx. eapply yields_bind; [apply yields_stamp|]. intros t e ->.
  destruct (sql_clear_standby u t d) as [n d1] eqn:Hc.
  eapply yields_bind; [apply (yields_statement no_faults _ d n d1); by rewrite Hc|].
  intros m e [-> ->].
  assert (Hd1 : same_accounts d d1).
  { unfold sql_clear_standby in Hc. destruct (super_succession d); [case_bool_decide|];
      injection Hc as <- <-; done. }
  unfold tx_when. destruct (0 <? n); [|apply yields_ret; by eexists].
  eapply yields_ok; [apply yields_event; [done|event_action]|]. intros _ e (t' & ->). done.
Qed.

Lemma yields_markPending x d :
  yields (markRotationPendingTx x) d (ok (fun _ e => same_accounts d e)).
Proof.
  unfold markRotationPendingTx, activeEscrowKey.
  eapply yields_bind; [by apply yields_query|]. intros k e [-> ->].
  destruct (sql_active_key d); [|apply yields_ret; by eexists].
  eapply yields_bind; [apply yields_stamp|]. intros t e ->.
  eapply yields_ok; [by apply yields_exec|]. intros _ e ->. done.
Qed.

(** Opening a grant always ends with the key, without one, or in a recorded
    mismatch. *)
Lemma yields_openGrant a k d :
  yields (openGrantTx a k) d
    (fun r _ => is_ok r = true \/ r = Err ErrNoEscrowGrant \/ r = Err ErrEscrowMismatch).
Proof.
  assert (Hbad : forall x d0, yields (unusable_grant (A:=EscrowSession) a x) d0
    (fun r _ => is_ok r = true \/ r = Err ErrNoEscrowGrant \/ r = Err ErrEscrowMismatch)).
  { intros x d0. unfold unusable_grant. eapply yields_bind; [by apply yields_exec|]. intros _ d1 ->.
    eapply yields_bind; [apply yields_event; [done|event_action]|]. intros _ d2 _.
    apply yields_fail. auto. }
  unfold openGrantTx, activeEscrowKey. eapply yields_bind; [by apply yields_query|].
  intros [act|] e [_ ->]; [|apply yields_fail; auto].
  eapply yields_bind; [by apply yields_optional|]. intros [[[g w] pin]|] e [_ ->]; [|apply yields_fail; auto].
  repeat case_match; auto. apply yields_ret. auto.
Qed.

Lemma yields_try_open_grant a k d :
  yields (try_open_grant a k) d (ok (fun _ e => same_accounts d e)).
Proof.
  eapply yields_ok; [apply (yields_ok_respects same_accounts _ _ (fun _ _ => True))|].
  - by apply (respects_try_open_grant same_accounts anyone).
  - eapply yields_try; [apply yields_openGrant|]. intros r e [Hr|[->| ->]];
      [destruct r; [|done]|..]; apply yields_ret; by eexists.
  - intros o e [_ He]. done.
Qed.

Lemma yields_savepoint {A} (body : Tx A) d :
  yields (in_savepoint body) d (ok (fun re _ => re.2 = SpDone)).
Proof.
  assert (Hrel : forall d1, yields release d1 (ok (fun e d2 => e = SpDone /\ d2 = d1))).
  { intros d1. unfold release. eapply yields_try; [by apply yields_exec|].
    intros r e ([] & -> & ->). apply yields_ret. by eexists. }
  unfold in_savepoint. eapply yields_bind; [by apply yields_query|]. intros s e [-> ->].
  eapply (yields_try _ _ _ (fun _ _ => True)); [by intros c Hc|]. intros r e _. destruct r as [a|x].
  - eapply yields_bind; [apply Hrel|]. intros y e' [-> ->]. apply yields_ret. by eexists.
  - eapply yields_try; [by apply yields_exec|]. intros rb e' (u & -> & ->).
    eapply yields_bind; [apply Hrel|]. intros y e' [-> ->]. apply yields_ret. by eexists.
Qed.

(** A rotation in a savepoint never fails the transaction: it stays pending. *)
Lemma yields_rotateInSavepoint s a k keep x d :
  yields (rotateInSavepointTx s a k keep x) d (ok (fun _ _ => True)).
Proof.
  unfold rotateInSavepointTx. eapply yields_bind; [apply yields_savepoint|].
  intros [r y] e Hy. simpl in Hy. subst y. destruct r as [[next res]|z].
  - apply yields_ret. by eexists.
  - eapply yields_bind; [apply yields_markPending|]. intros _ e' _. apply yields_ret. by eexists.
Qed.

Lemma yields_takeover_rotation o a k f d :
  yields (takeover_rotation o a k f) d (ok (fun _ e => same_accounts d e)).
Proof.
  eapply yields_ok; [apply (yields_ok_respects same_accounts _ _ (fun _ _ => True))|].
  - by apply (respects_takeover_rotation same_accounts anyone).
  - unfold takeover_rotation. destruct o as [s|].
    + eapply yields_bind; [apply yields_rotateInSavepoint|]. intros n e _. apply yields_ret. by eexists.
    + eapply yields_ok; [apply yields_markPending|]. done.
  - intros u e [_ He]. done.
Qed.

Lemma takeOverTx_yields a k r note d f :
  roles_ok (roles_of d) -> super (roles_of d) = Some f -> can_administer (roles_of d) a -> a <> f ->
  (forall n, AddDays (super_last_active d) (takeover_period d) <= clock n) ->
  (forall v n, standby_of (roles_of d) = Some v -> v <> a ->
     AddDays (standby_last_active d) (takeover_period d) <= clock n) ->
  yields (takeOverTx a k r note) d (ok (fun _ e => same_accounts d e)).
Proof.
  intros Hok Hs Hcan Hne Hdue Hdue'. unfold takeOverTx.
  eapply yields_bind; [by apply yields_requireEnabledAdmin|]. intros _ e ->.
  eapply yields_bind; [by apply (yields_readSuccession d f)|]. intros st e [-> Hr].
  apply readSuccessionTx_Ok in Hr as (_ & _ & Hsup & Hsb & Hdays & Hact & Hsact & _); [|done].
  assert (Hf : ss_super st = f /\ f <> EmptyString).
  { rewrite Hs in Hsup. unfold named in Hsup. destruct (String.eqb_spec (ss_super st) EmptyString); [done|].
    injection Hsup as Hsup. by subst f. }
  destruct Hf as [Hf Hfne].
  eapply yields_bind; [apply yields_now|]. intros now e (-> & n & ->).
  assert (Href : takeoverRefusal st a (clock n) = None).
  { unfold takeoverRefusal, Before. rewrite Hf, Hact, Hdays.
    destruct (String.eqb_spec f EmptyString); [done|]. destruct (String.eqb_spec a f); [done|]. simpl.
    specialize (Hdue n). destruct (Z.ltb_spec (clock n) (AddDays (super_last_active d) (takeover_period d))); [lia|].
    destruct (String.eqb_spec (ss_standby st) EmptyString) as [|Hb]; [done|]. simpl.
    destruct (String.eqb_spec a (ss_standby st)) as [|Hab]; [done|]. simpl.
    rewrite Hsact by done. unfold named in Hsb.
    destruct (String.eqb_spec (ss_standby st) EmptyString); [done|].
    specialize (Hdue' _ n (eq_sym Hsb) (not_eq_sym Hab)).
    by destruct (Z.ltb_spec (clock n) (AddDays (standby_last_active d) (takeover_period d))); [lia|]. }
  rewrite Href. eapply yields_bind; [apply (yields_ret () d (ok (fun _ e => e = d))); by eexists|].
  intros _ e ->. pose proof (ro_super _ Hok f Hs) as Hfcan.
  eapply (yields_bind _ _ _ (fun _ e => same_accounts d e)).
  { destruct (super_admin d) as [p|] eqn:Hsa; [|simpl in Hs; by rewrite Hsa in Hs].
    eapply yields_ok; [apply yields_exec; [done|]|].
    - unfold sql_update_super. rewrite Hsa. unfold sql_upsert_super. by rewrite (can_has_user d a Hcan).
    - intros _ e ->. done. }
  intros v2 d2 H2. eapply yields_bind; [apply yields_clearStandby|]. intros v3 d3 H3.
  eapply yields_bind; [by apply yields_query|]. intros h e [_ ->].
  eapply yields_bind; [by apply yields_exec|]. intros v4 d4 H4.
  eapply yields_bind; [by apply yields_exec|]. intros v5 d5 H5.
  assert (Hd5 : same_accounts d d5).
  { transitivity d2; [done|]. transitivity d3; [done|]. simpl in H4, H5. by subst d5 d4. }
  eapply (yields_bind _ _ _ (fun _ e => same_accounts d e)).
  { eapply yields_ok; [apply yields_exec; [done|]|].
    - unfold sql_upsert_protection. rewrite Hf.
      assert (Hu : has_user f d5 = true).
      { apply has_user_true. rewrite (proj1 Hd5). by apply has_user_true, can_has_user. }
      by rewrite Hu.
    - intros _ e ->. done. }
  intros v6 d6 H6. eapply yields_bind; [apply yields_try_open_grant|]. intros o d7 H7.
  eapply yields_bind; [apply yields_event; [done|event_action]|]. intros v8 d8 (t & H8).
  eapply (yields_bind _ _ _ (fun _ e => same_accounts d8 e)).
  { unfold tx_when. destruct h; [apply yields_takeover_rotation|apply yields_ret; by eexists]. }
  intros v9 d9 H9. apply yields_ret. eexists. split; [done|].
  transitivity d6; [done|]. transitivity d7; [done|]. subst d8. done.
Qed.

End total.

(** ** Protection *)

(** [u] is protected until [t]. *)
Definition protected (d : SystemDB) (u : string) (t : Time) : Prop :=
  exists row, takeover_protection d !! u = Some row /\ protected_until row = At t.

Section protection.
Context `{Env} `{RangeOrder} `{Primitives}.

Lemma requireUnprotectedTx_Ok u t d v d' :
  protected d u t -> runs (requireUnprotectedTx u) d (Ok v) d' -> exists n, t <= clock n.
Proof.
  intros (row & Hrow & Hu) Hr. unfold requireUnprotectedTx in Hr.
  apply runs_bind_Ok in Hr as (now & d1 & [-> (n & ->)]%runs_reading & Hr).
  apply runs_bind_Ok in Hr as (p & d2 & Hp & Hr). unfold protectionTx in Hp.
  apply runs_try in Hp as (r & d3 & Hx & Hy). destruct r as [[reason until]|e].
  - apply runs_query_row in Hx as [Hx ->]. rewrite Hrow in Hx. simpl in Hx. injection Hx as <- <-.
    rewrite Hu in Hy. simpl in Hy. apply runs_ret in Hy as [[= ->] ->]. unfold Before in Hr.
    destruct (Z.ltb_spec (clock n) t); [by apply runs_fail in Hr|]. by exists n.
  - apply runs_query_row_Err in Hx as [-> [[-> Hx]| ->]]; [|by apply runs_fail in Hy].
    by rewrite Hrow in Hx.
Qed.

Lemma checked_protected d d' u t : checked d d' -> protected d u t -> protected d' u t.
Proof.
  intros Hc Hp. unfold protected. by rewrite (f_equal takeover_protection Hc : takeover_protection d' = _).
Qed.

Context (u : string) (t : Time) (before : forall n, clock n < t).

Lemma not_unprotected d v d' : protected d u t -> runs (requireUnprotectedTx u) d (Ok v) d' -> False.
Proof. intros Hp Hr. destruct (requireUnprotectedTx_Ok _ _ _ _ _ Hp Hr) as [n Hn]. specialize (before n). lia. Qed.

Lemma assigned_accounts s s' : assigned s s' -> accounts s' = accounts s.
Proof. by intros [->|(v & _ & _ & ->)]. Qed.

Lemma setDisabledTx_protected a d v d' :
  roles_ok (roles_of d) -> protected d u t -> runs (setDisabledTx a u true) d (Ok v) d' ->
  accounts (roles_of d') = accounts (roles_of d).
Proof.
  intros Hok Hp Hr. unfold setDisabledTx in Hr.
  apply runs_bind_Ok in Hr as ([] & d1 & [-> _]%requireEnabledAdmin_Ok & Hr).
  apply runs_bind_Ok in Hr as ([b cur] & d1 & [-> _]%accountRole_Ok & Hr).
  apply runs_bind_Ok in Hr as ([] & d1 & (Has & Hch & _)%requireAccountActionTx_Ok & Hr); [|done].
  destruct (Bool.eqb cur true).
  - apply runs_ret in Hr as [_ ->]. by apply assigned_accounts.
  - apply runs_bind_Ok in Hr as ([] & d2 & Hx & _). simpl in Hx.
    apply runs_bind_Ok in Hx as ([] & d3 & Hx & _). exfalso.
    eapply not_unprotected; [|exact Hx]. by eapply checked_protected.
Qed.

Lemma purgeAccountTx_protected a d v d' :
  roles_ok (roles_of d) -> protected d u t -> runs (purgeAccountTx a u) d (Ok v) d' -> False.
Proof.
  intros Hok Hp Hr. unfold purgeAccountTx in Hr.
  apply runs_bind_Ok in Hr as ([] & d1 & [-> _]%requireEnabledAdmin_Ok & Hr).
  apply runs_bind_Ok in Hr as ([b cur] & d1 & [-> _]%accountRole_Ok & Hr).
  apply runs_bind_Ok in Hr as ([] & d1 & (Has & Hch & _)%requireAccountActionTx_Ok & Hr); [|done].
  apply runs_bind_Ok in Hr as (? & ? & [_ ->]%runs_query & Hr).
  apply runs_bind_Ok in Hr as ([] & ? & [_ ->]%runs_guard & Hr).
  apply runs_bind_Ok in Hr as ([] & d3 & Hx & _).
  eapply not_unprotected; [|exact Hx]. by eapply checked_protected.
Qed.

Lemma demote_protected a d v d' :
  roles_ok (roles_of d) -> protected d u t -> runs (SetAdmin a u false) d (Ok v) d' ->
  accounts (roles_of d') = accounts (roles_of d).
Proof.
  intros Hok Hp Hr. apply runs_inWriteTx in Hr.
  apply runs_bind_Ok in Hr as ([] & d1 & [-> _]%requireEnabledAdmin_Ok & Hr).
  apply runs_bind_Ok in Hr as ([b cur] & d1 & [-> _]%accountRole_Ok & Hr).
  destruct (Bool.eqb b false); [by apply runs_ret in Hr as [_ ->]|].
  apply runs_bind_Ok in Hr as ([] & d1 & (Has & Hch & _)%requireAccountActionTx_Ok & Hr); [|done].
  apply runs_bind_Ok in Hr as ([] & d2 & Hx & _). simpl in Hx.
  apply runs_bind_Ok in Hx as ([] & d3 & Hx & _). exfalso.
  eapply not_unprotected; [|exact Hx]. by eapply checked_protected.
Qed.

End protection.

(** ** The theorems *)

(** C13. A takeover happens only when it is due: the actor is another enabled
    administrator, the super administrator has been inactive for the takeover
    period and so has the standby, unless the actor is the standby.  Afterwards the
    actor is the super administrator, the former one holds no grant of the
    administrator key and is protected for the days of the reason. *)
Theorem takeover_only_when_due `{Env} `{RangeOrder} `{Primitives} a k code note held former c c' :
  reachable (db c) -> super (roles_of (db c)) = Some former ->
  TakeOverSuper a k code note c = (Ok held, c') ->
  exists reason n,
    takeoverReason code = Some reason
    /\ can_administer (roles_of (db c)) a /\ a <> former
    /\ AddDays (super_last_active (db c)) (takeover_period (db c)) <= clock n
    /\ (forall v, standby_of (roles_of (db c)) = Some v ->
          v = a \/ AddDays (standby_last_active (db c)) (takeover_period (db c)) <= clock n)
    /\ super (roles_of (db c')) = Some a
    /\ former ∉ holders (roles_of (db c'))
    /\ protected (db c') former (AddDays (clock n) (Days reason)).
Proof.
  intros Hreach Hs Hr. pose proof (reachable_roles _ Hreach) as Hok. unfold TakeOverSuper in Hr.
  destruct (takeoverReason code) as [reason|]; [|done].
  destruct (_ <? _); [done|]. destruct (_ && _); [done|].
  assert (Hx : runs (inWriteTx (takeOverTx a k reason (TrimSpace note))) (db c) (Ok held) (db c')).
  { exists c. by rewrite Hr. }
  apply runs_inWriteTx, takeOverTx_Ok in Hx
    as [st now d1 (n & ->) _ Heq Hcan Hsup Hsb Hdays Hact Hsact Href Hne (K & HK & Hsub) Hp]; [|done].
  rewrite Heq in * by congruence. clear Heq d1.
  assert (Hf : ss_super st = former) by congruence. subst former.
  assert (Hdue : AddDays (super_last_active (db c)) (takeover_period (db c)) <= clock n
    /\ forall v, standby_of (roles_of (db c)) = Some v ->
       v = a \/ AddDays (standby_last_active (db c)) (takeover_period (db c)) <= clock n).
  { unfold takeoverRefusal, Before in Href. rewrite Hact, Hdays in Href.
    destruct (_ || _); [done|].
    destruct (negb _ && negb _ && _) eqn:E2; [done|].
    destruct (Z.ltb_spec (clock n) (AddDays (super_last_active (db c)) (takeover_period (db c)))); [done|].
    split; [done|]. intros v Hv. rewrite Hv in Hsb. unfold named in Hsb.
    destruct (String.eqb_spec (ss_standby st) EmptyString) as [|Hb]; [done|]. injection Hsb as <-.
    rewrite (Hsact Hb) in E2. destruct (String.eqb_spec a (ss_standby st)); [by left|]. right.
    destruct (Z.ltb_spec (clock n) (AddDays (standby_last_active (db c)) (takeover_period (db c)))); [done|lia]. }
  exists reason, n. destruct Hdue as [Hd1 Hd2]. split_and!; try done.
  - by rewrite HK.
  - rewrite HK. simpl. intros Hin. apply Hsub in Hin. set_solver.
  - by eexists.
Qed.

(** C24. A takeover that is due succeeds: whatever keys and seals the database
    holds, an enabled administrator other than the super administrator gets the
    role with a known reason once the period has passed, provided no statement
    fails for an outside reason.  The machine cannot be locked out. *)
Theorem takeover_succeeds_when_due `{Env} `{RangeOrder} `{Primitives} a k code reason former c :
  reachable (db c) -> (forall n, statement_fails n = false) ->
  super (roles_of (db c)) = Some former ->
  can_administer (roles_of (db c)) a -> a <> former ->
  takeoverReason code = Some reason -> Code reason <> "other" ->
  (forall n, AddDays (super_last_active (db c)) (takeover_period (db c)) <= clock n) ->
  (forall v n, standby_of (roles_of (db c)) = Some v -> v <> a ->
     AddDays (standby_last_active (db c)) (takeover_period (db c)) <= clock n) ->
  exists held, (TakeOverSuper a k code EmptyString c).1 = Ok held.
Proof.
  intros Hreach Hnf Hs Hcan Hne Hreason Hother Hdue Hdue'.
  pose proof (reachable_roles _ Hreach) as Hok. pose proof (reachable_committed _ Hreach) as Hcom.
  unfold TakeOverSuper. rewrite Hreason.
  assert (Hb : String.eqb (Code reason) "other" = false) by by apply String.eqb_neq.
  rewrite Hb. simpl.
  assert (Hy : yields (inWriteTx (takeOverTx a k reason EmptyString)) (db c) (ok (fun _ _ => True))).
  { apply yields_inWriteTx; [done|]. eapply yields_ok; [by apply (takeOverTx_yields Hnf _ _ _ _ _ former)|].
    intros h e He. split; [done|]. exact (same_accounts_committed _ _ He Hcom). }
  destruct (Hy c eq_refl) as (held & Hheld & _). by exists held.
Qed.

(** While the protection of a former super administrator lasts, nobody
    can disable, demote or delete them: whatever such an operation returns, the
    account keeps its role and status. *)
Theorem protected_account_stays `{Env} `{RangeOrder} `{Primitives} a u t detail op c :
  reachable (db c) -> protected (db c) u t -> (forall n, clock n < t) ->
  op ∈ [OpSetDisabled a u true; OpSetAdmin a u false; OpPurgeAccount a u detail] ->
  accounts (roles_of (db (run op c).2)) !! u = accounts (roles_of (db c)) !! u.
Proof.
  intros Hreach Hp Hbefore Hop. pose proof (reachable_roles _ Hreach) as Hok.
  rewrite !elem_of_cons, elem_of_nil in Hop. destruct Hop as [->|[->|[->|[]]]]; simpl.
  - pose proof (inWriteTx_outcome (setDisabledTx a u true) c) as Ho. unfold SetDisabled.
    destruct (inWriteTx (setDisabledTx a u true) c) as [[v|e] c']; simpl; [|by rewrite Ho].
    destruct Ho as (c1 & c2 & Hc & Hm & ->).
    assert (Hx : runs (setDisabledTx a u true) (db c) (Ok v) (db c2)) by (exists c1; by rewrite Hm).
    pose proof (setDisabledTx_protected u t Hbefore a _ v _ Hok Hp Hx) as E. simpl in E. by rewrite E.
  - destruct (SetAdmin a u false c) as [[v|e] c'] eqn:Hr; simpl.
    + assert (Hx : runs (SetAdmin a u false) (db c) (Ok v) (db c')) by (exists c; by rewrite Hr).
      pose proof (demote_protected u t Hbefore a _ v _ Hok Hp Hx) as E. simpl in E. by rewrite E.
    + assert (Hx : runs (SetAdmin a u false) (db c) (Err e) (db c')) by (exists c; by rewrite Hr).
      apply runs_inWriteTx in Hx. by rewrite Hx.
  - unfold PurgeAccount. destruct (existsb _ _); [done|]. destruct (negb _); [done|].
    unfold tx_bind. pose proof (inWriteTx_outcome (purgeAccountTx a u) c) as Ho.
    destruct (inWriteTx (purgeAccountTx a u) c) as [[v|e] c']; simpl; [|by rewrite Ho].
    destruct Ho as (c1 & c2 & Hc & Hm & _). exfalso.
    eapply (purgeAccountTx_protected u t Hbefore a (db c) v); [done..|]. exists c1. by rewrite Hm.
Qed.
