(* ===== verification/AccountsHistory.v ===== *)
(** * A sample history of a machine

    The scenario of AccountsDemo as steps of the account store: alice creates the
    first account and signs in, creates bob as an administrator and names him her
    standby; a month later bob takes over.  The witnesses of the theorems about
    steps and reachable databases are evaluated on it. *)

From S2P Require Import Prelude GoStrings GoTime EscrowCrypto Passwords SystemDb Accounts Escrow.
From S2P Require Import RecoveryCode Succession Access Credentials AccountsDemo TxLogic AccountsMachine RolesSpec Roles.
From S2P Require Import RolesRefine RolesKeys RolesTheorems SuccessionTheorems.

Local Open Scope string_scope.
Local Open Scope Z_scope.

Existing Instance key_order.

(** One operation, from the time [start] on. *)
Definition after (start : Time) (k : nat) (op : Operation) (d : SystemDB) : SystemDB :=
  db (@run (demo_env start) key_order _ op (mkConn d ∅ 0 k 0 0 EmptyString)).2.

Lemma after_step start k op d : step d (after start k op d).
Proof. exact (step_run (demo_env start) key_order op (mkConn d ∅ 0 k 0 0 EmptyString)). Qed.

Definition month_later : Time := day0 + 31 * day_ns.

Definition hist1 : SystemDB := after day0 0
  (OpCreateAccount "/root" EmptyString "alice" "Alice" "alice-pw" true None) empty_db.
Definition hist2 : SystemDB := after day0 20 (OpEnrollAdminSession "alice" dek_a) hist1.
Definition hist3 : SystemDB := after day0 40
  (OpCreateAccount "/root" "alice" "bob" "Bob" "bob-pass" true None) hist2.
Definition hist4 : SystemDB := after day0 60 (OpSetStandby "alice" dek_a "bob" 30) hist3.
Definition hist5 : SystemDB := after month_later 80
  (OpTakeOverSuper "bob" dek_b "vacation" EmptyString) hist4.

Lemma reachable_after start k op d : reachable d -> reachable (after start k op d).
Proof. intros Hd. eapply rtc_r; [exact Hd|apply after_step]. Qed.

Lemma hist3_reachable : reachable hist3.
Proof. unfold hist3, hist2, hist1. do 3 apply reachable_after. apply rtc_refl. Qed.

Lemma hist4_reachable : reachable hist4.
Proof. unfold hist4. apply reachable_after, hist3_reachable. Qed.

Lemma hist5_reachable : reachable hist5.
Proof. unfold hist5. apply reachable_after, hist4_reachable. Qed.

(** ** Witnesses *)

Lemma hist4_to_hist5 : step hist4 hist5.
Proof. apply after_step. Qed.

#[local] Opaque hist1 hist2 hist3 hist4 hist5.

Lemma step_history_append_only_witness :
  length (account_events hist4) <> length (account_events hist5)
  /\ exists new, account_events hist5 = (account_events hist4 ++ new)%list
    /\ ev_ID <$> new = seqZ (event_seq hist4 + 1) (Z.of_nat (length new)).
Proof. split; [by vm_compute|]. apply step_history_append_only, hist4_to_hist5. Defined.

Lemma reachable_consistent_witness :
  is_Some (users hist5 !! "bob") /\ well_formed hist5
  /\ (forall u, is_Some (users hist5 !! u) <->
        exists id g, account_identity_registry hist5 !! id = Some (Some (u, g))).
Proof. split; [by vm_compute; eexists|]. apply reachable_consistent, hist5_reachable. Defined.

Lemma store_refines_roles_witness :
  super (roles_of hist4) = Some "alice" /\ super (roles_of hist5) = Some "bob"
  /\ exists s, (s = roles_of hist4 \/ role_step (roles_of hist4) s)
    /\ (roles_of hist5 = s \/ role_step s (roles_of hist5)).
Proof.
  split; [by vm_compute|]. split; [by vm_compute|].
  apply store_refines_roles; [apply hist4_reachable|apply hist4_to_hist5].
Defined.

Lemma reachable_roles_in_order_witness :
  (exists t, super_admin hist4 = Some ("alice", t))
  /\ exists r, users hist4 !! "alice" = Some r /\ enabled_admin r = true.
Proof.
  split; [by vm_compute; eexists|].
  destruct (reachable_roles_in_order hist4 hist4_reachable) as (_ & Hs & _).
  apply (Hs "alice" (At day0)). by vm_compute.
Defined.

Lemma pair_eta {A B} (x : A * B) a : x.1 = a -> x = (a, x.2).
Proof. destruct x. simpl. by intros ->. Qed.

Definition conn_of (d : SystemDB) (k : nat) : Conn := mkConn d ∅ 0 k 0 0 EmptyString.

Lemma db_conn_of d k : db (conn_of d k) = d.
Proof. done. Qed.

Lemma ensureSuperTx_chooses_earliest_witness :
  let E := demo_env day0 in
  (ensureSuperTx (conn_of hist3 0)).1 = Ok "alice"
  /\ exists u, fst <$> super_admin hist3 = Some u.
Proof.
  cbv zeta. split; [by vm_compute|].
  destruct (@ensureSuperTx_chooses_earliest (demo_env day0) key_order _ (conn_of hist3 0) "alice"
    (@ensureSuperTx (demo_env day0) key_order (conn_of hist3 0)).2) as [[Hs _]|[(Hn & _)|(Hn & _)]].
  - exact hist3_reachable.
  - apply pair_eta. by vm_compute.
  - by exists "alice".
  - exfalso. rewrite db_conn_of in Hn. revert Hn. by vm_compute.
  - exfalso. rewrite db_conn_of in Hn. revert Hn. by vm_compute.
Defined.

Lemma takeover_only_when_due_witness :
  let E := demo_env month_later in
  let c := conn_of hist4 80 in
  (TakeOverSuper "bob" dek_b "vacation" EmptyString c).1 = Ok true
  /\ exists reason n, takeoverReason "vacation" = Some reason
    /\ protected (db (TakeOverSuper "bob" dek_b "vacation" EmptyString c).2) "alice"
                 (AddDays (clock n) (Days reason)).
Proof.
  cbv zeta. split; [by vm_compute|].
  destruct (@takeover_only_when_due (demo_env month_later) key_order _ "bob" dek_b "vacation"
    EmptyString true "alice" (conn_of hist4 80)
    (@TakeOverSuper (demo_env month_later) key_order _ "bob" dek_b "vacation" EmptyString
       (conn_of hist4 80)).2) as (reason & n & Hr & _ & _ & _ & _ & _ & _ & Hp).
  - exact hist4_reachable.
  - by vm_compute.
  - apply pair_eta. by vm_compute.
  - by exists reason, n.
Defined.

Lemma takeover_succeeds_when_due_witness :
  exists held, (@TakeOverSuper (demo_env month_later) key_order _ "bob" EmptyString "vacation"
                  EmptyString (conn_of hist4 80)).1 = Ok held.
Proof.
  assert (Hlast : AddDays (super_last_active hist4) (takeover_period hist4) = day0 + 30 * day_ns)
    by by vm_compute.
  apply (@takeover_succeeds_when_due (demo_env month_later) key_order _ "bob" EmptyString "vacation"
    (mkReason "vacation" "Vacation" 30) "alice" (conn_of hist4 80)).
  - exact hist4_reachable.
  - done.
  - by vm_compute.
  - by vm_compute.
  - done.
  - done.
  - done.
  - intros n. rewrite db_conn_of, Hlast.
    change (clock n) with (month_later + Z.of_nat n * 10 ^ 9). unfold month_later, day_ns. lia.
  - intros v n Hv Hne. exfalso. assert (Hb : standby_of (roles_of hist4) = Some "bob") by by vm_compute.
    rewrite db_conn_of in Hv. congruence.
Defined.

(** A clock that stands still. *)
Definition still_env (start : Time) : Env := {|
  clock := fun _ => start;
  entropy := fun k n => Some (demo_bytes k n);
  entropy_length := demo_bytes_length;
  statement_fails := fun _ => false;
  folder_fails := fun _ => false
|}.

(** The new super administrator cannot disable the one just replaced. *)
Lemma protected_account_stays_witness :
  let E := still_env (month_later + 29 * day_ns) in
  let out := @run E key_order _ (OpSetDisabled "bob" "alice" true) (conn_of hist5 0) in
  accounts (roles_of (db out.2)) !! "alice" = Some (mkRole true false).
Proof.
  cbv zeta.
  rewrite (@protected_account_stays (still_env (month_later + 29 * day_ns)) key_order _ "bob" "alice"
    (month_later + 30 * day_ns) EmptyString (OpSetDisabled "bob" "alice" true)
    (conn_of hist5 0)).
  - by vm_compute.
  - exact hist5_reachable.
  - eexists. split; by vm_compute.
  - intros n. change (clock n) with (month_later + 29 * day_ns). unfold day_ns. lia.
  - constructor.
Defined.
