(* ===== verification/CredentialsTheorems.v ===== *)
(** * Sign-in, password change and recovery keep the data key

    What the operations of Credentials do to the password hash, the wrapped data
    key and the recovery codes of an account, whatever other processes do
    between their reads and their writes. *)

From S2P Require Import Prelude GoStrings GoTime EscrowCrypto Passwords SystemDb Accounts Escrow.
From S2P Require Import RecoveryCode Succession Access Credentials TxLogic AccountsMachine Roles.

Local Open Scope string_scope.
Local Open Scope Z_scope.

Section credentials.
Context `{Env} `{RangeOrder} `{PrimitiveLaws}.

(** ** Steps of the password and key work *)

Lemma runs_crypto {A} (r : result CryptoError A) d a d' :
  runs (tx_crypto r) d (Ok a) d' -> r = Ok a /\ d' = d.
Proof. destruct r; intros Hr; [apply runs_ret in Hr as [[= ->] ->]|apply runs_fail in Hr]; done. Qed.

Lemma runs_auth {A} (r : result AuthError A) d a d' :
  runs (tx_auth r) d (Ok a) d' -> r = Ok a /\ d' = d.
Proof. destruct r; intros Hr; [apply runs_ret in Hr as [[= ->] ->]|apply runs_fail in Hr]; done. Qed.

Lemma runs_rand n d s d' : runs (tx_rand n) d (Ok s) d' -> String.length s = n /\ d' = d.
Proof.
  intros (c & <- & Hr & <-). unfold tx_rand in *.
  destruct (entropy (draws c) n) as [x|] eqn:He; [|done]. simpl in *. injection Hr as ->.
  split; [by eapply entropy_length|done].
Qed.

Lemma runs_HashPassword p d h d' :
  runs (tx_HashPassword p) d (Ok h) d' -> VerifyPassword p h = Ok () /\ d' = d.
Proof.
  unfold tx_HashPassword. destruct (String.eqb p EmptyString); intros Hr; [by apply runs_fail in Hr|].
  apply runs_bind_Ok in Hr as (salt & d1 & [Hl ->]%runs_rand & [Hh ->]%runs_auth).
  split; [by eapply VerifyPassword_own|done].
Qed.

Lemma runs_WrapKey k p d w d' :
  runs (tx_WrapKey k p) d (Ok w) d' -> UnwrapKey w p = Ok k /\ d' = d.
Proof.
  intros Hr. unfold tx_WrapKey in Hr. inv_runs.
  repeat match goal with Hx : runs (tx_rand _) _ _ _ |- _ => apply runs_rand in Hx as [? ->] end.
  match goal with Hx : runs (tx_crypto _) _ _ _ |- _ => apply runs_crypto in Hx as [? ->] end.
  split; [by eapply UnwrapKey_own|done].
Qed.

(** What the work before a sign-in's transaction establishes. *)
Record prepared (snapshot : credentialRow) (password : string) (w : credentialWork) : Prop := {
  pp_verified : VerifyPassword password (password_hash (cr_account snapshot)) = Ok ();
  pp_identity : cr_id snapshot <> EmptyString;
  pp_hash : newHash w = EmptyString \/ VerifyPassword password (newHash w) = Ok ();
  pp_stored : wrapped_dek_pw (cr_account snapshot) <> EmptyString ->
    newWrap w = EmptyString
    /\ UnwrapKey (wrapped_dek_pw (cr_account snapshot)) password = Ok (work_dek w);
  pp_new : wrapped_dek_pw (cr_account snapshot) = EmptyString ->
    UnwrapKey (newWrap w) password = Ok (work_dek w)
}.

Lemma unlockKey_Ok snapshot p d w d' :
  runs (unlockKey snapshot p) d (Ok w) d' ->
  newHash w = EmptyString
  /\ (wrapped_dek_pw (cr_account snapshot) <> EmptyString -> newWrap w = EmptyString
      /\ UnwrapKey (wrapped_dek_pw (cr_account snapshot)) p = Ok (work_dek w))
  /\ (wrapped_dek_pw (cr_account snapshot) = EmptyString -> UnwrapKey (newWrap w) p = Ok (work_dek w)).
Proof.
  unfold unlockKey. destruct (String.eqb_spec (wrapped_dek_pw (cr_account snapshot)) EmptyString) as [He|He];
    simpl; intros Hr; apply runs_bind_Ok in Hr as (k & d1 & Hx & Hr).
  - apply runs_bind_Ok in Hr as (x & d2 & [Hw _]%runs_WrapKey & Hr). by apply runs_ret in Hr as [[= ->] _].
  - apply runs_crypto in Hx as [Hu _]. by apply runs_ret in Hr as [[= ->] _].
Qed.

Lemma prepareSignIn_Ok snapshot p d w d' :
  runs (prepareSignIn snapshot p) d (Ok w) d' ->
  prepared snapshot p w /\ disabled (cr_account snapshot) = false.
Proof.
  intros Hr. unfold prepareSignIn, checkPassword in Hr. inv_runs.
  match goal with Hx : runs (tx_auth _) _ _ _ |- _ => apply runs_auth in Hx as [Hv ->] end.
  match goal with Hx : runs (unlockKey _ _) _ _ _ |- _ =>
    apply unlockKey_Ok in Hx as (Hn & Hs & Hw) end.
  repeat match goal with x : unit |- _ => destruct x end.
  split; [|by apply negb_true_iff].
  split; simpl; try done.
  - by apply String.eqb_neq, negb_true_iff.
  - destruct (NeedsRehash _).
    + match goal with Hx : runs (tx_HashPassword _) _ _ _ |- _ => apply runs_HashPassword in Hx as [? _] end.
      by right.
    + inv_runs. by left.
Qed.

(** ** Updates of one account *)

Definition binds (d : SystemDB) (id u : string) : Prop :=
  exists g, account_identity_registry d !! id = Some (Some (u, g)).

(** The row of [u] is [r], the other accounts and the recovery codes stay, and so
    do the identities up to their generation. *)
Record row_set (u : string) (r : User) (d d' : SystemDB) : Prop := {
  rset_users : users d' = <[u := r]> (users d);
  rset_codes : recovery_codes d' = recovery_codes d;
  rset_binds id v : binds d id v -> binds d' id v
}.

Lemma row_set_trans u r1 r2 d1 d2 d3 : row_set u r1 d1 d2 -> row_set u r2 d2 d3 -> row_set u r2 d1 d3.
Proof.
  intros [U1 C1 B1] [U2 C2 B2]. split; [|congruence|auto].
  by rewrite U2, U1, insert_insert_eq.
Qed.

Lemma row_set_lookup u r d d' : row_set u r d d' -> users d' !! u = Some r.
Proof. intros [-> _ _]. apply lookup_insert_eq. Qed.

Lemma update_user_row u f row d d' :
  sql_update_user u f d = Some d' -> users d !! u = Some row -> row_set u (f row) d d'.
Proof.
  intros Hd Hu. unfold sql_update_user, bump_generation in Hd. rewrite Hu in Hd.
  cbv zeta in Hd. sql_cases; split; simpl; try done.
  intros id v [g Hg]. unfold binds. simpl. rewrite lookup_fmap, Hg. simpl.
  destruct (String.eqb v u); simpl; by eexists.
Qed.

Lemma runs_update_user u f row d d' :
  users d !! u = Some row -> runs (exec (sql_update_user u f)) d (Ok ()) d' -> row_set u (f row) d d'.
Proof. intros Hu Hr%runs_exec. by apply update_user_row. Qed.

Lemma runs_update_if cond u f row d n d' :
  users d !! u = Some row -> runs (statement (sql_update_user_if cond u f)) d (Ok n) d' ->
  (n =? 1) = true -> cond row = true /\ row_set u (f row) d d'.
Proof.
  intros Hu Hr%runs_statement Hn. unfold sql_update_user_if in Hr. rewrite Hu in Hr.
  destruct (cond row); [|by injection Hr as <- _].
  destruct (sql_update_user u f d) as [x|] eqn:Hx; [|done]. injection Hr as _ <-.
  split; [done|by apply update_user_row].
Qed.

Lemma identity_binds u d id g : identity_of u d = Some (id, g) -> binds d id u.
Proof. intros Hi%identity_of_lookup. by exists g. Qed.

Lemma runs_readCredentialRow u d r d' :
  runs (readCredentialRow u) d (Ok r) d' ->
  d' = d /\ users d !! u = Some (cr_account r) /\ (cr_id r <> EmptyString -> binds d (cr_id r) u).
Proof.
  intros (x & d1 & Hx & Hr)%runs_try. destruct x as [x|e].
  2: { destruct e; by (apply runs_fail in Hr || apply runs_of in Hr as [[=] _]). }
  apply runs_of in Hr as [[= ->] ->]. apply runs_query_row in Hx as [Hx ->].
  destruct (users d !! u) as [row|] eqn:Hu; [|done]. simpl in Hx.
  destruct (identity_of u d) as [[id g]|] eqn:Hi; injection Hx as <-; simpl; split_and!; try done.
  intros _. by eapply identity_binds.
Qed.

(** The new hash and the new wrap replace the stored ones. *)
Lemma storeCredentialWork_Ok u snap w row d d' :
  users d !! u = Some row -> runs (storeCredentialWorkTx u snap w) d (Ok ()) d' ->
  row_set u (with_wrap (if String.eqb (newWrap w) EmptyString then wrapped_dek_pw row else newWrap w)
    (with_hash (if String.eqb (newHash w) EmptyString then password_hash row else newHash w) row)) d d'.
Proof.
  intros Hu Hr. unfold storeCredentialWorkTx in Hr. apply runs_bind_Ok in Hr as ([] & d1 & R1 & R2).
  assert (S1 : row_set u (with_hash (if String.eqb (newHash w) EmptyString then password_hash row
                                     else newHash w) row) d d1).
  { destruct (String.eqb (newHash w) EmptyString); simpl in R1.
    - apply runs_ret in R1 as [_ ->]. split; [|done..]. rewrite insert_id; [done|].
      rewrite Hu. by destruct row.
    - apply runs_bind_Ok in R1 as (n & d2 & Hx & [Hn ->]%runs_guard).
      by apply (runs_update_if _ _ _ row) in Hx as [_ ?]. }
  pose proof (row_set_lookup _ _ _ _ S1) as Hu1. eapply row_set_trans; [exact S1|].
  destruct (String.eqb (newWrap w) EmptyString); simpl in R2.
  - apply runs_ret in R2 as [_ ->]. split; [|done..]. rewrite insert_id; [done|].
    rewrite Hu1. by destruct row.
  - apply runs_bind_Ok in R2 as (n & d2 & Hx & [Hn ->]%runs_guard).
    by apply (runs_update_if _ _ _ _ _ _ _ Hu1) in Hx as [_ ?].
Qed.

(** ** The transaction of a sign-in *)

Lemma requireSameCredentials_Ok u snap d r d' :
  runs (requireSameCredentialsTx u snap) d (Ok r) d' ->
  d' = d /\ users d !! u = Some (cr_account r) /\ cr_id r = cr_id snap
  /\ (cr_id r <> EmptyString -> binds d (cr_id r) u)
  /\ password_hash (cr_account r) = password_hash (cr_account snap)
  /\ wrapped_dek_pw (cr_account r) = wrapped_dek_pw (cr_account snap)
  /\ disabled (cr_account r) = false.
Proof.
  intros (x & d1 & (-> & Hu & Hb)%runs_readCredentialRow & Hr)%runs_bind_Ok. inv_runs.
  repeat match goal with
  | Hg : String.eqb _ _ = true |- _ => apply String.eqb_eq in Hg
  | Hg : _ && _ = true |- _ => apply andb_true_iff in Hg as [? ?]
  | Hg : negb _ = true |- _ => apply negb_true_iff in Hg
  end. by split_and!.
Qed.

Lemma respects_signin_enroll u w (b : bool) :
  respects same_accounts
    (if b then enrollInSignInSavepoint (enrollAdminSessionTx u (work_dek w))
     else tx_when (negb (String.eqb (newWrap w) EmptyString))
       (enrollInSignInSavepoint (do! enrollTx u (work_dek w) None ;; tx_ret ()))).
Proof.
  destruct b.
  - apply respects_enrollInSignInSavepoint; [exact _|]. apply respects_enrollAdminSessionTx; exact _.
  - apply respects_when; [exact _|]. apply respects_enrollInSignInSavepoint; [exact _|].
    apply respects_bind; [exact _|apply respects_enrollTx; exact _|].
    intros. apply respects_ret; exact _.
Qed.

(** What a sign-in that committed did, from the database its transaction found. *)
Record signed_in (u password : string) (acc : User) (p : Principal) (dek : string)
    (d d' : SystemDB) : Prop := {
  si_account : users d !! u = Some acc;
  si_enabled : disabled acc = false;
  si_verified : VerifyPassword password (password_hash acc) = Ok ();
  si_key : wrapped_dek_pw acc <> EmptyString -> UnwrapKey (wrapped_dek_pw acc) password = Ok dek;
  si_identity : principal_username p = u /\ binds d (principal_id p) u;
  si_generation : exists id, account_identity_registry d' !! id = Some (Some (u, principal_generation p));
  si_after : exists t acc', users d' !! u = Some acc' /\ last_login acc' = t /\ t <> Blank
    /\ is_admin acc' = is_admin acc /\ disabled acc' = false
    /\ VerifyPassword password (password_hash acc') = Ok ()
    /\ UnwrapKey (wrapped_dek_pw acc') password = Ok dek;
  si_others v : v <> u -> users d' !! v = users d !! v;
  si_binds id v : binds d id v -> binds d' id v
}.

Lemma runs_stamp_At d t d' : runs nowStamp d (Ok t) d' -> t <> Blank /\ d' = d.
Proof.
  intros (x & d1 & ->%runs_now & Hr)%runs_bind_Ok. by apply runs_ret in Hr as [[= ->] ->].
Qed.

Lemma SignInCommit_Ok u snap w b password acc p d d' :
  prepared snap password w -> runs (SignInCommit u snap w b) d (Ok (acc, p)) d' ->
  signed_in u password acc p (work_dek w) d d'.
Proof.
  intros Hp Hr%runs_inWriteTx. unfold signInTx in Hr.
  apply runs_bind_Ok in Hr as (now & d1 & (-> & Hu & Hid & Hb & Eh & Ew & Hdis)%requireSameCredentials_Ok & Hr).
  apply runs_bind_Ok in Hr as (t & d1 & [Ht ->]%runs_stamp_At & Hr).
  apply runs_bind_Ok in Hr as ([] & d1 & S1%(runs_update_user _ _ _ _ _ Hu) & Hr).
  pose proof (row_set_lookup _ _ _ _ S1) as Hu1.
  apply runs_bind_Ok in Hr as ([] & d2 & S2%(storeCredentialWork_Ok _ _ _ _ _ _ Hu1) & Hr).
  pose proof (row_set_trans _ _ _ _ _ _ S1 S2) as S12. clear S1 S2 Hu1.
  apply runs_bind_Ok in Hr as ([] & d3 & Henr & Hr).
  apply (runs_respects same_accounts) in Henr as [U3 R3]; [|apply respects_signin_enroll].
  apply runs_bind_Ok in Hr as (ig & d4 & [Hig ->]%runs_query_row & Hr).
  apply runs_ret in Hr as [[= -> ->] ->]. destruct ig as [id g]. apply identity_of_lookup in Hig.
  destruct Hp as [P1 P2 P3 P4 P5]. destruct S12 as [SU SC SB].
  split; simpl; try done.
  - by rewrite Eh.
  - rewrite Ew. intros Hw. by apply P4.
  - split; [done|]. rewrite <- Hid in P2. by apply Hb.
  - by exists id.
  - exists t. eexists. rewrite U3, SU, lookup_insert_eq. split; [reflexivity|]. simpl.
    split_and!; try done.
    + destruct (String.eqb_spec (newHash w) EmptyString) as [E|E]; [by rewrite Eh|].
      by destruct P3.
    + destruct (String.eqb_spec (newWrap w) EmptyString) as [E|E].
      * rewrite Ew. apply P4. intros E'. specialize (P5 E'). rewrite E in P5.
        by apply UnwrapKey_nonempty in P5.
      * apply P5. destruct (String.eqb_spec (wrapped_dek_pw (cr_account snap)) EmptyString) as [E'|E'];
          [done|]. by destruct (P4 E').
  - intros v Hv. rewrite U3, SU. by rewrite lookup_insert_ne.
  - intros i v Hi. apply SB in Hi. unfold binds in *. by rewrite R3.
Qed.

(** ** Sign-in *)

Lemma run_forget {A} (m : Tx A) op d a d' :
  run op = forget m -> runs m d (Ok a) d' -> step d d'.
Proof.
  intros Hop (c & <- & Hr & <-).
  replace (db (m c).2) with (db (run op c).2); [apply step_run|].
  rewrite Hop. unfold forget, tx_bind. destruct (m c) as [[x|e] c1]; [done|done].
Qed.

Lemma signIn_loop_Ok n others u password b d acc p dek d' :
  (forall k, respects (rtc step) (others k)) ->
  runs (signIn_loop n others u password b) d (Ok (acc, p, dek)) d' ->
  exists d0, rtc step d d0 /\ step d0 d' /\ signed_in u password acc p dek d0 d'.
Proof.
  intros Ho. revert d. induction n as [|n IH]; intros d Hr; [by apply runs_fail in Hr|].
  simpl in Hr. apply runs_bind_Ok in Hr as (snap & d1 & (-> & _)%runs_readCredentialRow & Hr).
  apply runs_bind_Ok in Hr as (w & d1 & Hw & Hr).
  apply (runs_respects eq) in Hw as Hd; [subst d1|apply respects_prepareSignIn; exact _].
  destruct (prepareSignIn_Ok _ _ _ _ _ Hw) as [Hp _].
  apply runs_bind_Ok in Hr as ([] & d1 & Hx & Hr).
  apply (runs_respects (rtc step)) in Hx; [|apply respects_interleave; [exact _|apply Ho]].
  apply runs_try in Hr as (r & d2 & Hc & Hr). destruct r as [[acc0 p0]|e].
  - apply runs_ret in Hr as [[= -> -> ->] ->]. exists d1. split_and!; [done| |by eapply SignInCommit_Ok].
    eapply (run_forget (SignInCommit u snap w b) (OpSignIn u snap w b)); [done|exact Hc].
  - apply runs_inWriteTx in Hc as ->. destruct e; try by apply runs_fail in Hr.
    destruct (IH _ Hr) as (d0 & R1 & R2 & R3). exists d0. split_and!; [by etrans|done|done].
Qed.

(** C35. A successful sign-in is one step of the store from a database in which
    the account, enabled, had the returned identity and a hash the password
    verifies against, and whose data key, if it had one, is the one returned.
    Afterwards the password still verifies and unwraps that key, the sign-in is
    recorded, and no other account changed, whatever other processes did during
    the attempts. *)
Theorem signIn_one_incarnation others u password b c acc p dek c' :
  reachable (db c) -> (forall k, respects (rtc step) (others k)) ->
  signIn others u password b c = (Ok (acc, p, dek), c') ->
  exists d, reachable d /\ step d (db c')
    /\ signed_in u password acc p dek d (db c')
    /\ account_identity_registry (db c') !! principal_id p = Some (Some (u, principal_generation p)).
Proof.
  intros Hre Ho Hr. unfold signIn in Hr. destruct (negb _); [done|].
  destruct (signIn_loop_Ok signInAttempts others u password b (db c) acc p dek (db c')) as (d & R1 & R2 & R3);
    [done|exists c; by rewrite Hr|].
  assert (Hd : reachable d) by (unfold reachable; by etrans).
  exists d. split_and!; try done. destruct (si_generation _ _ _ _ _ _ _ R3) as [id Hid].
  destruct (si_identity _ _ _ _ _ _ _ R3) as [_ Hb].
  apply (si_binds _ _ _ _ _ _ _ R3) in Hb as [g Hg].
  assert (Hw : well_formed (db c')) by (apply reachable_well_formed; by eapply rtc_r).
  by rewrite (wf_one_identity _ Hw _ _ _ _ _ Hg Hid).
Qed.

(** ** Changing the password *)

(** A prefix that only reads: it fails and nothing changed, or the rest runs. *)
Lemma runs_reads {A B} (m : Tx A) (k : A -> Tx B) d r d' :
  respects eq m -> runs (tx_bind m k) d r d' ->
  (is_ok r = false /\ d' = d) \/ exists a, runs m d (Ok a) d /\ runs (k a) d r d'.
Proof.
  intros Hm (c & <- & Hr & Hd). pose proof (Hm c) as He. unfold tx_bind in *.
  destruct (m c) as [[a|e] c1] eqn:Hc; simpl in *.
  - right. exists a. split; [exists c; by rewrite Hc|]. by exists c1.
  - left. by subst.
Qed.

Lemma runs_interleave {A} others (k : unit -> Tx A) d r d' :
  runs (tx_bind (interleave others) k) d r d' ->
  exists c0, db c0 = d /\ runs (k ()) (db (others c0).2) r d'.
Proof.
  intros (c & <- & Hr & Hd). unfold tx_bind, interleave, tx_try in *.
  exists c. split; [done|]. destruct (others c) as [x c1]. simpl in *. by exists c1.
Qed.

(** An update of an account's row and nothing else, up to the generation of its
    identity. *)
Definition row_replaced (u : string) (row : User) (d d' : SystemDB) : Prop := exists reg,
  d' = set_registry reg (set_users (<[u := row]> (users d)) d)
  /\ forall id, fmap fst <$> reg !! id = fmap fst <$> account_identity_registry d !! id.

Lemma update_user_replaces u f row d d' :
  sql_update_user u f d = Some d' -> users d !! u = Some row -> row_replaced u (f row) d d'.
Proof.
  intros Hd Hu. unfold sql_update_user in Hd. rewrite Hu in Hd. cbv zeta in Hd.
  destruct (state_changed _ _); [unfold bump_generation, guard_db in Hd; destruct (_ && _); [|done]|];
    injection Hd as <-; eexists; (split; [reflexivity|]); intros id; [|done].
  cbn. rewrite lookup_fmap. destruct (account_identity_registry d !! id) as [[[v g]|]|]; [|done..].
  cbn. by destruct (String.eqb v u).
Qed.

Lemma swapPassword_runs u h w h' w' d r d' :
  runs (swapPassword u h w h' w') d r d' ->
  match r with
  | Ok _ => exists row, users d !! u = Some row /\ password_hash row = h /\ wrapped_dek_pw row = w
      /\ row_replaced u (with_wrap w' (with_hash h' row)) d d'
  | Err _ => d' = d
  end.
Proof.
  intros (c & <- & Hr & Hd). unfold swapPassword, tx_bind, statement, sql_swap_password in *.
  destruct (statement_fails _); [by subst|]. unfold sql_update_user_if in *.
  destruct (users (db c) !! u) as [row|] eqn:Hu; [|by subst].
  destruct (String.eqb (password_hash row) h && String.eqb (wrapped_dek_pw row) w) eqn:Hg; [|by subst].
  apply andb_true_iff in Hg as [Hh%String.eqb_eq Hw%String.eqb_eq].
  destruct (sql_update_user _ _ _) as [x|] eqn:Hx; simpl in *; subst; [|done].
  exists row. split_and!; try done. by apply (update_user_replaces _ _ _ _ _ Hx) in Hu.
Qed.

Lemma verified_dek_Ok hw p d dek d' :
  runs (verified_dek hw p) d (Ok dek) d' ->
  VerifyPassword p hw.1 = Ok () /\ UnwrapKey hw.2 p = Ok dek.
Proof.
  intros Hr. unfold verified_dek in Hr. inv_runs.
  match goal with Hx : runs (tx_auth _) _ _ _ |- _ => apply runs_auth in Hx as [Hv ->] end.
  repeat match goal with x : unit |- _ => destruct x end.
  destruct (UnwrapKey hw.2 p); inv_runs; done.
Qed.

(** C36. A password change that succeeds found the account, after whatever others
    did, with the hash and wrap it had checked the old password against, and
    replaced these two of the fields of its row: the new password verifies and
    unwraps the same data key; the other fields of the row, the time of the last
    sign-in among them, every other account and every other table are as they were,
    up to the generation of the account's identity.  A refused change writes
    nothing. *)
Theorem ChangePassword_keeps_key others u old new c r c' :
  ChangePassword others u old new c = (r, c') ->
  match r with
  | Ok _ => exists c0 row hash wrap dek reg,
      let d := db (others c0).2 in
      db c0 = db c /\ users d !! u = Some row
      /\ VerifyPassword old (password_hash row) = Ok () /\ UnwrapKey (wrapped_dek_pw row) old = Ok dek
      /\ VerifyPassword new hash = Ok () /\ UnwrapKey wrap new = Ok dek
      /\ db c' = set_registry reg (set_users (<[u := mkUser (display_name row) hash (data_dir row) (created_at row)
           (last_login row) (is_admin row) (disabled row) wrap]> (users d)) d)
      /\ forall id, fmap fst <$> reg !! id = fmap fst <$> account_identity_registry d !! id
  | Err _ => db c' = db c \/ exists c0, db c0 = db c /\ db c' = db (others c0).2
  end.
Proof.
  intros Hc. assert (Hr : runs (ChangePassword others u old new) (db c) r (db c'))
    by (exists c; by rewrite Hc).
  clear Hc. revert Hr. generalize (db c) (db c'). intros d d' Hr. unfold ChangePassword in Hr.
  destruct (negb _); [destruct Hr as (? & <- & <- & <-); by left|].
  apply runs_reads in Hr as [[He ->]|([] & _ & Hr)]; [by destruct r; [|left]| |].
  2: apply respects_ValidatePassword; exact _.
  apply runs_reads in Hr as [[He ->]|(hw & _ & Hr)]; [by destruct r; [|left]| |].
  2: apply respects_read_password; exact _.
  apply runs_reads in Hr as [[He ->]|(dek & Hdek%verified_dek_Ok & Hr)]; [by destruct r; [|left]| |].
  2: apply respects_verified_dek; exact _.
  apply runs_reads in Hr as [[He ->]|(w' & [Hw' _]%runs_WrapKey & Hr)]; [by destruct r; [|left]| |].
  2: apply respects_WrapKey; exact _.
  apply runs_reads in Hr as [[He ->]|(h' & [Hh' _]%runs_HashPassword & Hr)]; [by destruct r; [|left]| |].
  2: apply respects_HashPassword; exact _.
  apply runs_interleave in Hr as (c0 & <- & Hr%swapPassword_runs). destruct Hdek as [Hv Hk].
  destruct r as [[]|e]; [|right; eauto].
  destruct Hr as (row & Hu & Eh & Ew & (reg & Ed & Hreg)).
  exists c0, row, h', w', dek, reg. cbv zeta. rewrite Eh, Ew. by split_and!.
Qed.

(** ** Resetting the password with a recovery code *)

Lemma matching_code_Some u canon d code :
  matching_code u canon d = Some code ->
  code ∈ recovery_codes d /\ code_user code = u /\ code_used code = false
  /\ VerifyPassword canon (code_hash code) = Ok ().
Proof.
  unfold matching_code. intros [Hin Hv]%find_some.
  apply list_elem_of_In in Hin. rewrite (arrange_perm 30) in Hin. apply list_elem_of_In in Hin.
  unfold unused_codes, codes_of in Hin. apply filter_In in Hin as [[Hin Hu]%filter_In Hn].
  split_and!; [by apply list_elem_of_In|by apply String.eqb_eq|by apply negb_true_iff|].
  by destruct (VerifyPassword canon (code_hash code)) as [[]|].
Qed.

Lemma rewrap_key_Ok u canon new code d w d' :
  runs (rewrap_key u canon new code) d (Ok w) d' ->
  d' = d
  /\ if String.eqb (code_wrap code) EmptyString
     then w = EmptyString /\ exists row, users d !! u = Some row /\ wrapped_dek_pw row = EmptyString
     else exists dek, UnwrapKey (code_wrap code) canon = Ok dek /\ UnwrapKey w new = Ok dek.
Proof.
  unfold rewrap_key. destruct (String.eqb (code_wrap code) EmptyString); simpl; intros Hr;
    apply runs_bind_Ok in Hr as (x & d1 & Hx & Hr).
  - apply runs_query_row in Hx as [Hx ->]. apply runs_bind_Ok in Hr as ([] & d1 & [Hg ->]%runs_guard & Hr).
    apply runs_ret in Hr as [[= ->] ->]. apply String.eqb_eq in Hg as ->.
    destruct (users d !! u) as [row|] eqn:Hu; [|done]. simpl in Hx. split_and!; [done..|].
    exists row. split; [done|congruence].
  - apply runs_crypto in Hx as [Hu ->]. apply runs_WrapKey in Hr as [Hw ->]. by split; [|exists x].
Qed.

(** A reset that succeeds used up one unused code of the account whose hash
    the typed code verifies against.  The new password verifies; the data key it
    unwraps is the one wrapped in that code.  A code without a wrapped key is
    accepted only for an account that has no key either, which keeps none.  A
    refused reset changes nothing. *)
Theorem ResetWithRecoveryCode_keeps_key u typed new c r c' :
  reachable (db c) -> ResetWithRecoveryCode u typed new c = (r, c') ->
  match r with
  | Ok _ => exists code row row' t,
      code ∈ recovery_codes (db c) /\ code_user code = u /\ code_used code = false
      /\ VerifyPassword (canonical typed) (code_hash code) = Ok ()
      /\ recovery_codes (db c')
         = (fun x => if code_id x =? code_id code then use_code t x else x) <$> recovery_codes (db c)
      /\ users (db c) !! u = Some row /\ users (db c') = <[u := row']> (users (db c))
      /\ role_of row' = role_of row /\ VerifyPassword new (password_hash row') = Ok ()
      /\ (code_wrap code <> EmptyString -> exists dek,
           UnwrapKey (code_wrap code) (canonical typed) = Ok dek
           /\ UnwrapKey (wrapped_dek_pw row') new = Ok dek)
      /\ (code_wrap code = EmptyString ->
           wrapped_dek_pw row = EmptyString /\ wrapped_dek_pw row' = EmptyString)
  | Err _ => db c' = db c
  end.
Proof.
  intros Hre%reachable_well_formed Hc.
  assert (Hr : runs (ResetWithRecoveryCode u typed new) (db c) r (db c')) by (exists c; by rewrite Hc).
  clear Hc. revert Hre Hr. generalize (db c) (db c'). intros d d' Hw Hr.
  unfold ResetWithRecoveryCode in Hr. destruct (negb _); [destruct Hr as (? & <- & <- & <-); done|].
  apply runs_reads in Hr as [[He ->]|([] & _ & Hr%runs_inWriteTx)]; [by destruct r| |].
  2: apply respects_ValidatePassword; exact _.
  destruct r as [[]|e]; [|done]. unfold resetTx in Hr.
  apply runs_bind_Ok in Hr as (found & d1 & [Hf ->]%runs_query & Hr).
  destruct found as [code|]; [|by apply runs_fail in Hr].
  destruct (matching_code_Some _ _ _ _ (eq_sym Hf)) as (Hin & Hcu & Hnu & Hv).
  destruct (wf_codes _ Hw _ Hin) as [row Hu]. rewrite Hcu in Hu.
  apply runs_bind_Ok in Hr as (w & d1 & [-> Hwrap]%rewrap_key_Ok & Hr).
  apply runs_bind_Ok in Hr as (t & d1 & ->%runs_stamp & Hr).
  apply runs_bind_Ok in Hr as ([] & d1 & Hx%runs_exec & Hr). injection Hx as <-.
  apply runs_bind_Ok in Hr as (h & d2 & [Hh ->]%runs_HashPassword & Hr).
  destruct (String.eqb_spec (code_wrap code) EmptyString) as [E|E]; simpl in Hr.
  - apply runs_bind_Ok in Hr as (n & d2 & Hx & [Hn ->]%runs_guard).
    apply (runs_update_if _ _ _ row) in Hx as [Hempty [RU RC _]]; [|done..].
    apply String.eqb_eq in Hempty.
    exists code, row, (with_hash h row), t. by split_and!.
  - apply (runs_update_user _ _ row) in Hr as [RU RC _]; [|done].
    exists code, row, (with_wrap w (with_hash h row)), t. by split_and!.
Qed.

End credentials.
