(* ===== verification/CredentialsHistory.v ===== *)
(** * Sample runs of sign-in, password change and recovery

    The history of AccountsHistory continued: alice changes her password and
    recovers with a code; bob is deleted and created again between the two steps
    of a rotation of his codes.  The witnesses of CredentialsTheorems are
    evaluated on it. *)

From S2P Require Import Prelude GoStrings GoTime EscrowCrypto Passwords SystemDb Accounts Escrow.
From S2P Require Import RecoveryCode Succession Access Credentials AccountsDemo TxLogic AccountsMachine.
From S2P Require Import CredentialsTheorems AccountsHistory.

Local Open Scope string_scope.
Local Open Scope Z_scope.

Existing Instance key_order.

Definition nothing (k : nat) : Tx unit := tx_ret ().

(** The set of codes alice is issued and the first of them. *)
Definition alice_codes : result UserError (list string) :=
  (@IssueRecoveryCodes (demo_env day0) _ "alice" (Some dek_a) (conn_of hist3 100)).1.
Definition first_code (r : result UserError (list string)) : string :=
  match r with
  | Ok (x :: _) => x
  | _ => EmptyString
  end.

(** The rotation bob prepared. *)
Definition bob_pending : result UserError PendingRecoveryCodes :=
  (@PrepareRecoveryCodes (demo_env day0) _ "bob" "bob-pass" (conn_of hist3 200)).1.
Definition pending_of (r : result UserError PendingRecoveryCodes) : PendingRecoveryCodes :=
  match r with
  | Ok p => p
  | Err _ => mkPending EmptyString (mkCodeSet [] [] []) EmptyString
  end.

Definition bob_deleted : SystemDB := after day0 300 (OpPurgeAccount "alice" "bob" EmptyString) hist3.
Definition bob_again : SystemDB := after day0 400
  (OpCreateAccount "/root" "alice" "bob" "Bob" "bob-pw-2" false None) bob_deleted.
Definition bob_confirmed : SystemDB := after day0 500
  (OpConfirmCodes (pending_of bob_pending)) bob_again.
Definition bob_reset : SystemDB := after day0 600
  (OpReset "bob" (first_code (Ok (plain_codes (pend_set (pending_of bob_pending))))) "bob-pw-3")
  bob_confirmed.

Definition stored_key (u password : string) (d : SystemDB) : option string :=
  r ← users d !! u;
  match VerifyPassword password (password_hash r), UnwrapKey (wrapped_dek_pw r) password with
  | Ok _, Ok dek => Some dek
  | _, _ => None
  end.

(** A prepared set of recovery codes is bound to the account's name and to a
    summary of its codes, not to the account: prepared for an account without
    codes, it is stored for another account created under the same name after
    the first was deleted.  A reset with such a code then replaces the new
    account's data key by the deleted account's. *)
Theorem ConfirmRecoveryCodes_of_another_account :
  exists p code,
    bob_pending = Ok p /\ head (plain_codes (pend_set p)) = Some code
    /\ stored_key "bob" "bob-pass" hist3 = Some dek_b
    /\ stored_key "bob" "bob-pw-2" bob_again = Some (demo_bytes 401 DEKSize)
    /\ identity_of "bob" bob_again <> identity_of "bob" hist3
    /\ (@ConfirmRecoveryCodes (demo_env day0) p (conn_of bob_again 500)).1 = Ok ()
    /\ (@ResetWithRecoveryCode (demo_env day0) _ _ "bob" code "bob-pw-3"
          (conn_of bob_confirmed 600)).1 = Ok ()
    /\ stored_key "bob" "bob-pw-3" bob_reset = Some dek_b
    /\ dek_b <> demo_bytes 401 DEKSize.
Proof.
  eexists _, _. split; [by vm_compute|]. split; [by vm_compute|].
  split_and!; by vm_compute.
Qed.

(** ** Witnesses *)

Lemma HashPassword_demo : exists h, HashPassword (demo_bytes 7 16) "alice-pw" = Ok h.
Proof. eexists. reflexivity. Qed.

Lemma VerifyPassword_HashPassword_witness :
  exists h, HashPassword (demo_bytes 7 16) "alice-pw" = Ok h
  /\ VerifyPassword "alice-pw" h = Ok () /\ VerifyPassword "alice-px" h = Err ErrMismatch.
Proof.
  destruct HashPassword_demo as [h Hh]. exists h. split; [done|].
  destruct (VerifyPassword_HashPassword (demo_bytes 7 16) "alice-pw" "alice-px" h Hh eq_refl)
    as (H1 & _ & H2).
  split; [exact H1|]. rewrite H2. by vm_compute.
Defined.

Lemma UnwrapKey_WrapKey_witness :
  exists w, WrapKey (demo_bytes 1 16) (demo_bytes 2 12) dek_a "alice-pw" = Ok w
  /\ UnwrapKey w "alice-pw" = Ok dek_a.
Proof.
  eexists. split; [vm_compute; reflexivity|].
  refine (proj1 (UnwrapKey_WrapKey (demo_bytes 1 16) (demo_bytes 2 12) dek_a "alice-pw" _ _ _ _));
    by vm_compute.
Defined.

Definition alice_signs_in : result UserError (User * Principal * string) * Conn :=
  @signIn (demo_env day0) key_order _ nothing "alice" "alice-pw" false (conn_of hist3 700).

Lemma alice_signs_in_Ok :
  exists acc p, alice_signs_in = (Ok (acc, p, dek_a), alice_signs_in.2).
Proof. eexists _, _. apply pair_eta. by vm_compute. Qed.

#[local] Opaque hist3.

Lemma signIn_one_incarnation_witness :
  exists acc p, alice_signs_in = (Ok (acc, p, dek_a), alice_signs_in.2)
  /\ exists d, reachable d /\ step d (db alice_signs_in.2)
     /\ signed_in "alice" "alice-pw" acc p dek_a d (db alice_signs_in.2).
Proof.
  destruct alice_signs_in_Ok as (acc & p & Hs). exists acc, p. split; [exact Hs|].
  destruct (@signIn_one_incarnation (demo_env day0) key_order _ toy_laws nothing "alice" "alice-pw"
    false (conn_of hist3 700) acc p dek_a alice_signs_in.2) as (d & Hd & Hst & Hsi & _).
  - exact hist3_reachable.
  - intros k. apply respects_ret. exact _.
  - exact Hs.
  - exists d. split; [exact Hd|]. split; [exact Hst|exact Hsi].
Defined.

Definition alice_changes : result UserError unit * Conn :=
  @ChangePassword (demo_env day0) _ (nothing 0) "alice" "alice-pw" "new-pass" (conn_of hist3 800).

Lemma ChangePassword_keeps_key_witness :
  alice_changes.1 = Ok ()
  /\ exists row' dek, users (db alice_changes.2) !! "alice" = Some row'
     /\ VerifyPassword "new-pass" (password_hash row') = Ok ()
     /\ UnwrapKey (wrapped_dek_pw row') "new-pass" = Ok dek.
Proof.
  assert (Hok : alice_changes.1 = Ok ()) by by vm_compute. split; [exact Hok|].
  destruct (@ChangePassword_keeps_key (demo_env day0) _ toy_laws (nothing 0) "alice" "alice-pw"
    "new-pass" (conn_of hist3 800) (Ok ()) alice_changes.2)
    as (c0 & row & hash & wrap & dek & reg & _ & _ & _ & _ & Hv & Hk & Hu & _).
  - apply pair_eta. exact Hok.
  - exists (mkUser (display_name row) hash (data_dir row) (created_at row) (last_login row) (is_admin row)
      (disabled row) wrap), dek.
    split; [|split; [exact Hv|exact Hk]].
    etransitivity; [exact (f_equal (fun d => users d !! "alice"%string) Hu)|]. apply lookup_insert_eq.
Defined.

Definition with_codes : SystemDB := after day0 900
  (OpStoreCodes "alice" (mkCodeSet ["AAAAAAAA-AAAAAAAA"]
     [match (@tx_HashPassword (demo_env day0) _ (canonical "AAAAAAAA-AAAAAAAA") (conn_of hist3 0)).1 with
      | Ok h => h | Err _ => EmptyString end]
     [match WrapKey (demo_bytes 1 16) (demo_bytes 2 12) dek_a (canonical "AAAAAAAA-AAAAAAAA") with
      | Ok w => w | Err _ => EmptyString end])) hist3.

Lemma with_codes_reachable : reachable with_codes.
Proof. unfold with_codes. apply reachable_after, hist3_reachable. Qed.

Definition alice_resets : result UserError unit * Conn :=
  @ResetWithRecoveryCode (demo_env day0) key_order _ "alice" "aaaaaaaa aaaaaaaa" "new-pass"
    (conn_of with_codes 950).

Lemma ResetWithRecoveryCode_keeps_key_witness :
  alice_resets.1 = Ok ()
  /\ exists row', users (db alice_resets.2) !! "alice" = Some row'
     /\ VerifyPassword "new-pass" (password_hash row') = Ok ().
Proof.
  assert (Hok : alice_resets.1 = Ok ()) by by vm_compute. split; [exact Hok|].
  destruct (@ResetWithRecoveryCode_keeps_key (demo_env day0) key_order _ toy_laws "alice"
    "aaaaaaaa aaaaaaaa" "new-pass" (conn_of with_codes 950) (Ok ()) alice_resets.2)
    as (code & row & row' & t & _ & _ & _ & _ & _ & _ & Hu & _ & Hv & _).
  - exact with_codes_reachable.
  - apply pair_eta. exact Hok.
  - exists row'. split; [|exact Hv].
    etransitivity; [exact (f_equal (lookup "alice") Hu)|]. apply lookup_insert_eq.
Defined.
