(* ===== verification/ProjectDb.v ===== *)
(** * The tables of a project file and its transactions (db/sqlite.go, db/*.go)

    The rows of the tables that the modelled operations use, as the structs of
    db/*.go have them, and the state of one file.  The environment of the statements
    and the transaction monad: a statement may fail, a commit may fail with or
    without having become durable, rows without an ORDER BY come in any order, and a
    transaction that nobody ends keeps its locks. *)

From S2P Require Import Prelude GoFloat GoStrings GoTime Money Wbs.

Local Open Scope Z_scope.

(** ** Rows *)

Record AuditEvent : Type := mkAuditEvent {
  ae_ID : string;
  ae_ProjectID : string;
  ae_SequenceNumber : Z;
  ae_PreviousEventHash : string;
  ae_EventHash : string;
  ae_EventType : string;
  ae_EntityType : string;
  ae_EntityID : string;
  ae_BeforeCanonicalJSON : string;
  ae_AfterCanonicalJSON : string;
  ae_UserID : string;
  ae_SessionID : string;
  ae_TimestampUTC : string;
  ae_SignatureStatus : string;
  ae_SignatureBlobOptional : string
}.

Record LogRow : Type := mkLogRow {
  log_id : Z;
  log_ts : string;
  log_actor : string;
  log_action : string;
  log_target : string;
  log_details : string
}.

(** A row with the numeric keys of its creation and of its last change. *)
Record Timed (A : Type) : Type := mkTimed {
  row : A;
  created_unixnano : Z;
  updated_unixnano : Z
}.

Arguments mkTimed {A}.
Arguments row {A}.
Arguments created_unixnano {A}.
Arguments updated_unixnano {A}.

Record Project : Type := mkProject {
  pr_ID : string;
  pr_Name : string;
  pr_Description : string;
  pr_Status : string;
  pr_Phase : string;
  pr_StartDate : string;
  pr_EndDate : string;
  pr_Budget : f64;
  pr_BudgetMinorUnits : Z;
  pr_CurrencyCode : string;
  pr_Owner : string;
  pr_Industry : string;
  pr_SubCategory : string;
  pr_Methodology : string;
  pr_CountryCode : string;
  pr_TimeZone : string;
  pr_CreatedAt : string;
  pr_UpdatedAt : string
}.

Record Chart : Type := mkChart {
  ch_ID : string;
  ch_ProjectID : string;
  ch_Kind : string;
  ch_Title : string;
  ch_Data : string;
  ch_Config : string;
  ch_TemplateID : string;
  ch_CreatedAt : string;
  ch_UpdatedAt : string
}.

(** A snapshot of a chart's schedule.  [created_at] and its numeric key are two
    texts of one instant, [time.Parse] inverting the layout of the first. *)
Record Baseline : Type := mkBaseline {
  bl_ID : string;
  bl_ProjectID : string;
  bl_ChartID : string;
  bl_Name : string;
  bl_Data : string;
  bl_CreatedAt : Time
}.

Record Document : Type := mkDocument {
  doc_ID : string;
  doc_ProjectID : string;
  doc_Kind : string;
  doc_Title : string;
  doc_Content : string;
  doc_TemplateID : string;
  doc_Version : Z;
  doc_Status : string;
  doc_CreatedAt : string;
  doc_UpdatedAt : string
}.

Record Scenario : Type := mkScenario {
  sc_ID : string;
  sc_ProjectID : string;
  sc_Name : string;
  sc_SourceBaselineID : string;
  sc_Description : string;
  sc_IsActive : bool;
  sc_CreatedAt : string;
  sc_UpdatedAt : string
}.

Record ScenarioChart : Type := mkScenarioChart {
  scc_ID : string;
  scc_ScenarioID : string;
  scc_ProjectID : string;
  scc_SourceChartID : string;
  scc_SourceBaselineID : string;
  scc_Kind : string;
  scc_Title : string;
  scc_Data : string;
  scc_Config : string;
  scc_BaselineData : string;
  scc_CreatedAt : string;
  scc_UpdatedAt : string
}.

Record CostType : Type := mkCostType {
  ct_ID : string;
  ct_ProjectID : string;
  ct_Code : string;
  ct_Name : string;
  ct_Attribution : string;
  ct_Behavior : string;
  ct_Treatment : string;
  ct_Active : bool
}.

Record CostEntry : Type := mkCostEntry {
  ce_ID : string;
  ce_ProjectID : string;
  ce_CostTypeID : string;
  ce_Kind : string;
  ce_CostDate : string;
  ce_Description : string;
  ce_AmountMinorUnits : Z;
  ce_QuantityMilliUnits : Z;
  ce_Unit : string;
  ce_ItemName : string;
  ce_SKU : string;
  ce_SupplierName : string;
  ce_InvoiceReference : string;
  ce_CreatedAt : string;
  ce_UpdatedAt : string
}.

Record CostEntryAttachment : Type := mkAttachment {
  at_ID : string;
  at_ProjectID : string;
  at_CostEntryID : string;
  at_Filename : string;
  at_ContentType : string;
  at_SizeBytes : Z;
  at_SHA256 : string;
  at_CreatedAt : string
}.

Record CostReserve : Type := mkCostReserve {
  cr_ID : string;
  cr_ProjectID : string;
  cr_Kind : string;
  cr_AmountMinorUnits : Z;
  cr_Description : string
}.

Record CostBaselineSnapshot : Type := mkCostSnapshot {
  cs_ID : string;
  cs_ProjectID : string;
  cs_Version : Z;
  cs_CurrencyCode : string;
  cs_PlannedMinorUnits : Z;
  cs_ContingencyMinorUnits : Z;
  cs_ManagementReserveMinorUnits : Z;
  cs_ApprovedBy : string;
  cs_ApprovalNote : string;
  cs_ApprovedAt : string
}.

(** The rows of the agile pack (agile/agile.go).  A time that is not set is
    [zero_time]; its column is empty. *)

Record Board : Type := mkBoard {
  bd_ID : string;
  bd_ProjectID : string;
  bd_Name : string;
  bd_IsDefault : bool;
  bd_CreatedAt : Time;
  bd_UpdatedAt : Time
}.

Record Column : Type := mkColumn {
  col_ID : string;
  col_BoardID : string;
  col_Name : string;
  col_OrderIdx : Z;
  col_WIPLimit : Z
}.

Record WorkItem : Type := mkItem {
  wi_ID : string;
  wi_ProjectID : string;
  wi_Type : string;
  wi_Title : string;
  wi_Description : string;
  wi_State : string;
  wi_Points : f64;
  wi_Assignee : string;
  wi_SprintID : string;
  wi_Priority : string;
  wi_OrderIdx : Z;
  wi_CreatedAt : Time;
  wi_UpdatedAt : Time;
  wi_ClosedAt : Time
}.

Record Sprint : Type := mkSprint {
  sp_ID : string;
  sp_ProjectID : string;
  sp_Name : string;
  sp_Goal : string;
  sp_Status : string;
  sp_StartDate : string;
  sp_EndDate : string;
  sp_Capacity : f64;
  sp_CreatedAt : Time
}.

Record Deployment : Type := mkDeployment {
  dp_ID : string;
  dp_ProjectID : string;
  dp_TS : Time;
  dp_Version : string;
  dp_Successful : bool;
  dp_LeadTimeHours : f64;
  dp_RestoreTimeHours : f64;
  dp_Notes : string
}.

Record Stakeholder : Type := mkStakeholder {
  st_ID : string;
  st_ProjectID : string;
  st_Name : string;
  st_Role : string;
  st_Organisation : string;
  st_Email : string;
  st_Phone : string;
  st_Category : string;
  st_HourlyRate : f64;
  st_HourlyRateMinorUnits : Z;
  st_ContractValue : f64;
  st_ContractValueMinorUnits : Z;
  st_Availability : f64;
  st_Notes : string;
  st_CreatedAt : string;
  st_UpdatedAt : string
}.

Record ReceiptRow : Type := mkReceiptRow {
  rr_fingerprint : string;
  rr_revision : string;
  rr_audit_id : string
}.

(** ** Tables *)

(** A table that a file need not have: the text of its definition in
    [sqlite_master], and its rows. *)
Record Table (A : Type) : Type := mkTable { table_sql : string; table_rows : A }.

Arguments mkTable {A}.
Arguments table_sql {A}.
Arguments table_rows {A}.

(** Documents and what-if scenarios. *)
Record PlanTables : Type := mkPlans {
  documents : gmap string (Timed Document);
  scenarios : gmap string (Timed Scenario);
  scenario_charts : gmap string (Timed ScenarioChart)
}.

(** Cost control.  An attachment is stored with its bytes. *)
Record CostTables : Type := mkCosts {
  cost_types : gmap string CostType;
  cost_entries : gmap string CostEntry;
  cost_entry_attachments : gmap string (CostEntryAttachment * string);
  cost_reserves : gmap string CostReserve;
  cost_baseline_snapshots : gmap string CostBaselineSnapshot
}.

Record AgileTables : Type := mkAgile {
  agile_boards : gmap string Board;
  agile_columns : gmap string Column;
  agile_work_items : gmap string WorkItem;
  agile_sprints : gmap string Sprint;
  agile_deployments : gmap string Deployment
}.

(** [audit_events] is [None] in a file that predates the table.  The rows of
    [project] are in their order of insertion, the one that an unordered query
    returns first in front.  The row of [wbs_copy] has the id 1; a receipt's key
    is its chart and its request. *)
Record ProjectDB : Type := mkProjectDB {
  audit_events : option (list AuditEvent);
  audit_log : list LogRow;
  log_seq : Z;
  project : list (Timed Project);
  charts : gmap string (Timed Chart);
  baselines : gmap string Baseline;
  plans : PlanTables;
  costs : CostTables;
  agile : AgileTables;
  stakeholders : gmap string Stakeholder;
  wbs_copy : option (Table (option (string * string)));
  wbs_records : option (Table (gmap string string));
  wbs_receipts : option (Table (gmap (string * string) ReceiptRow))
}.

Definition empty_plans : PlanTables := mkPlans ∅ ∅ ∅.
Definition empty_agile : AgileTables := mkAgile ∅ ∅ ∅ ∅ ∅.
Definition empty_costs : CostTables := mkCosts ∅ ∅ ∅ ∅ ∅.

(** A migrated file without any row. *)
Definition empty_project : ProjectDB :=
  mkProjectDB (Some []) [] 0 [] ∅ ∅ empty_plans empty_costs empty_agile ∅ None None None.

(** The ids of the rows of [project]. *)
Definition projects (d : ProjectDB) : list string := (fun r => pr_ID (row r)) <$> project d.

(** ** Updates of one table *)

Definition set_audit_events (v : list AuditEvent) (d : ProjectDB) : ProjectDB :=
  mkProjectDB (Some v) (audit_log d) (log_seq d) (project d) (charts d) (baselines d)
    (plans d) (costs d) (agile d) (stakeholders d)
    (wbs_copy d) (wbs_records d) (wbs_receipts d).

Definition add_log_row (ts actor action target details : string) (d : ProjectDB) : ProjectDB :=
  mkProjectDB (audit_events d)
    (audit_log d ++ [mkLogRow (log_seq d + 1) ts actor action target details]) (log_seq d + 1)
    (project d) (charts d) (baselines d) (plans d) (costs d) (agile d) (stakeholders d)
    (wbs_copy d) (wbs_records d) (wbs_receipts d).

Definition set_project (v : list (Timed Project)) (d : ProjectDB) : ProjectDB :=
  mkProjectDB (audit_events d) (audit_log d) (log_seq d) v (charts d) (baselines d)
    (plans d) (costs d) (agile d) (stakeholders d)
    (wbs_copy d) (wbs_records d) (wbs_receipts d).

Definition set_charts (v : gmap string (Timed Chart)) (d : ProjectDB) : ProjectDB :=
  mkProjectDB (audit_events d) (audit_log d) (log_seq d) (project d) v (baselines d)
    (plans d) (costs d) (agile d) (stakeholders d)
    (wbs_copy d) (wbs_records d) (wbs_receipts d).

Definition set_baselines (v : gmap string Baseline) (d : ProjectDB) : ProjectDB :=
  mkProjectDB (audit_events d) (audit_log d) (log_seq d) (project d) (charts d) v
    (plans d) (costs d) (agile d) (stakeholders d)
    (wbs_copy d) (wbs_records d) (wbs_receipts d).

Definition set_plans (v : PlanTables) (d : ProjectDB) : ProjectDB :=
  mkProjectDB (audit_events d) (audit_log d) (log_seq d) (project d) (charts d) (baselines d)
    v (costs d) (agile d) (stakeholders d)
    (wbs_copy d) (wbs_records d) (wbs_receipts d).

Definition set_costs (v : CostTables) (d : ProjectDB) : ProjectDB :=
  mkProjectDB (audit_events d) (audit_log d) (log_seq d) (project d) (charts d) (baselines d)
    (plans d) v (agile d) (stakeholders d)
    (wbs_copy d) (wbs_records d) (wbs_receipts d).

Definition set_wbs_copy (v : Table (option (string * string))) (d : ProjectDB) : ProjectDB :=
  mkProjectDB (audit_events d) (audit_log d) (log_seq d) (project d) (charts d) (baselines d)
    (plans d) (costs d) (agile d) (stakeholders d)
    (Some v) (wbs_records d) (wbs_receipts d).

Definition set_wbs_records (v : Table (gmap string string)) (d : ProjectDB) : ProjectDB :=
  mkProjectDB (audit_events d) (audit_log d) (log_seq d) (project d) (charts d) (baselines d)
    (plans d) (costs d) (agile d) (stakeholders d)
    (wbs_copy d) (Some v) (wbs_receipts d).

Definition set_wbs_receipts (v : Table (gmap (string * string) ReceiptRow)) (d : ProjectDB) : ProjectDB :=
  mkProjectDB (audit_events d) (audit_log d) (log_seq d) (project d) (charts d) (baselines d)
    (plans d) (costs d) (agile d) (stakeholders d)
    (wbs_copy d) (wbs_records d) (Some v).

Definition set_agile (v : AgileTables) (d : ProjectDB) : ProjectDB :=
  mkProjectDB (audit_events d) (audit_log d) (log_seq d) (project d) (charts d) (baselines d)
    (plans d) (costs d) v (stakeholders d) (wbs_copy d) (wbs_records d) (wbs_receipts d).

Definition set_stakeholders (v : gmap string Stakeholder) (d : ProjectDB) : ProjectDB :=
  mkProjectDB (audit_events d) (audit_log d) (log_seq d) (project d) (charts d) (baselines d)
    (plans d) (costs d) (agile d) v (wbs_copy d) (wbs_records d) (wbs_receipts d).

Definition set_boards (v : gmap string Board) (d : ProjectDB) : ProjectDB :=
  let a := agile d in
  set_agile (mkAgile v (agile_columns a) (agile_work_items a) (agile_sprints a) (agile_deployments a)) d.

Definition set_columns (v : gmap string Column) (d : ProjectDB) : ProjectDB :=
  let a := agile d in
  set_agile (mkAgile (agile_boards a) v (agile_work_items a) (agile_sprints a) (agile_deployments a)) d.

Definition set_work_items (v : gmap string WorkItem) (d : ProjectDB) : ProjectDB :=
  let a := agile d in
  set_agile (mkAgile (agile_boards a) (agile_columns a) v (agile_sprints a) (agile_deployments a)) d.

Definition set_sprints (v : gmap string Sprint) (d : ProjectDB) : ProjectDB :=
  let a := agile d in
  set_agile (mkAgile (agile_boards a) (agile_columns a) (agile_work_items a) v (agile_deployments a)) d.

Definition set_deployments (v : gmap string Deployment) (d : ProjectDB) : ProjectDB :=
  let a := agile d in
  set_agile (mkAgile (agile_boards a) (agile_columns a) (agile_work_items a) (agile_sprints a) v) d.

Definition set_documents (v : gmap string (Timed Document)) (d : ProjectDB) : ProjectDB :=
  set_plans (mkPlans v (scenarios (plans d)) (scenario_charts (plans d))) d.

Definition set_scenarios (v : gmap string (Timed Scenario)) (d : ProjectDB) : ProjectDB :=
  set_plans (mkPlans (documents (plans d)) v (scenario_charts (plans d))) d.

Definition set_scenario_charts (v : gmap string (Timed ScenarioChart)) (d : ProjectDB) : ProjectDB :=
  set_plans (mkPlans (documents (plans d)) (scenarios (plans d)) v) d.

Definition set_cost_types (v : gmap string CostType) (d : ProjectDB) : ProjectDB :=
  let c := costs d in
  set_costs (mkCosts v (cost_entries c) (cost_entry_attachments c) (cost_reserves c)
               (cost_baseline_snapshots c)) d.

Definition set_cost_entries (v : gmap string CostEntry) (d : ProjectDB) : ProjectDB :=
  let c := costs d in
  set_costs (mkCosts (cost_types c) v (cost_entry_attachments c) (cost_reserves c)
               (cost_baseline_snapshots c)) d.

Definition set_cost_entry_attachments (v : gmap string (CostEntryAttachment * string)) (d : ProjectDB)
    : ProjectDB :=
  let c := costs d in
  set_costs (mkCosts (cost_types c) (cost_entries c) v (cost_reserves c)
               (cost_baseline_snapshots c)) d.

Definition set_cost_reserves (v : gmap string CostReserve) (d : ProjectDB) : ProjectDB :=
  let c := costs d in
  set_costs (mkCosts (cost_types c) (cost_entries c) (cost_entry_attachments c) v
               (cost_baseline_snapshots c)) d.

Definition set_cost_baseline_snapshots (v : gmap string CostBaselineSnapshot) (d : ProjectDB) : ProjectDB :=
  let c := costs d in
  set_costs (mkCosts (cost_types c) (cost_entries c) (cost_entry_attachments c) (cost_reserves c) v) d.

(** ** Errors *)

Inductive DbError : Type :=
| ErrAuditProjectRequired
| ErrAuditTypeRequired
| ErrAuditEntityRequired
| ErrBadJSON
| ErrDbEntropy
| ErrDbStatement
| ErrDbCommit
| ErrNoChart
| ErrWBSBinding
| ErrWBSRequestReuse
| ErrWBSAssociations
| ErrWBSProtected
| ErrWBSIndeterminate
| ErrWbs (e : WbsError)
| ErrNoProject
| ErrUnsupportedCurrency
| ErrCurrencyLocked
| ErrNotEncodable
| ErrNoDocument
| ErrNoBaseline
| ErrBaselineInUse (scenario : string)
| ErrNoScenario
| ErrNoScenarioChart
| ErrScenarioProjectRequired
| ErrScenarioNameRequired
| ErrScenarioChartRequired
| ErrChartOutsideProject
| ErrBaselineOutsideProject
| ErrBaselineOfOtherChart
| ErrPromotionName
| ErrPromotionOutsideProject
| ErrNoCostType
| ErrCostFieldsRequired
| ErrCostAmountZero
| ErrCostKind
| ErrCostDate
| ErrCostFieldLength
| ErrCostQuantityRange
| ErrCostQuantityUnit
| ErrCostTypeArchived
| ErrCostReserveInput
| ErrCostApprovalFields
| ErrCostNotPositive
| ErrCostSearchLength
| ErrCostMoney (e : MoneyError)
| ErrAttachmentFields
| ErrAttachmentFilenameInvalid
| ErrAttachmentEmpty
| ErrAttachmentTooLarge
| ErrAttachmentEntryFull
| ErrAttachmentProjectBudget
| ErrCostEntryNotFound
| ErrAttachmentNotFound
| ErrColumnName
| ErrColumnWIPLimit
| ErrColumnNotOnBoard
| ErrBuiltInColumn
| ColumnNotEmptyError (items : Z)
| ErrNoWorkItem
| ErrNoSprint
| ErrNoDeployment
| ErrNoStakeholder.

#[export] Instance DbError_eq_dec : EqDecision DbError.
Proof. solve_decision. Defined.

(** ** The environment *)

Inductive CommitOutcome : Type :=
| Committed
| RolledBack        (* an error, and nothing was written *)
| CommitUncertain.  (* an error, and everything was written *)

Class DbEnv := {
  db_clock : nat -> Time;
  db_entropy : nat -> nat -> option string;
  db_entropy_length k n s : db_entropy k n = Some s -> String.length s = n;
  db_statement_fails : nat -> bool;
  db_rows {A : Type} : nat -> list A -> list A;
  db_rows_perm {A : Type} k (l : list A) : db_rows k l ≡ₚ l;
  db_rows_cut : nat -> option nat;
  db_commit : nat -> CommitOutcome
}.

(** The file, what was consumed of the environment, and whether a transaction
    that was never ended holds the lock on writing. *)
Record Session : Type := mkSession {
  file : ProjectDB;
  clock_reads : nat;
  random_reads : nat;
  statements_run : nat;
  commits_run : nat;
  write_locked : bool
}.

Definition DbTx (A : Type) : Type := Session -> result DbError A * Session.

Definition dtx_ret {A} (a : A) : DbTx A := fun c => (Ok a, c).
Definition dtx_fail {A} (e : DbError) : DbTx A := fun c => (Err e, c).

Definition dtx_bind {A B} (m : DbTx A) (k : A -> DbTx B) : DbTx B := fun c =>
  match m c with
  | (Ok a, c') => k a c'
  | (Err e, c') => (Err e, c')
  end.

Declare Scope dbtx_scope.
Delimit Scope dbtx_scope with dbtx.

Notation "x <== m ;; k" := (dtx_bind m (fun x => k))
  (at level 100, m at next level, right associativity) : dbtx_scope.

Open Scope dbtx_scope.

Definition dtx_guard (b : bool) (e : DbError) : DbTx unit := if b then dtx_ret () else dtx_fail e.

Definition dtx_of_option {A} (o : option A) (e : DbError) : DbTx A :=
  match o with
  | Some a => dtx_ret a
  | None => dtx_fail e
  end.

Definition set_file (d : ProjectDB) (c : Session) : Session :=
  mkSession d (clock_reads c) (random_reads c) (statements_run c) (commits_run c) (write_locked c).

(** The session after one more statement. *)
Definition statement_run (c : Session) : Session :=
  mkSession (file c) (clock_reads c) (random_reads c) (S (statements_run c)) (commits_run c)
    (write_locked c).

(** How the body of a transaction ends: with [tx.Commit], or returning its result
    and leaving the rest to the deferred Rollback, or returning an error that the
    deferred function does not see, so that the transaction stays open, with the
    lock on writing when it has written. *)
Inductive TxEnd (A : Type) : Type :=
| Commit (a : A)
| Return (a : A)
| Leave (e : DbError) (wrote : bool).

Arguments Commit {A}.
Arguments Return {A}.
Arguments Leave {A}.

Section session.
Context `{DbEnv}.

Definition dtx_now : DbTx Time := fun c =>
  (Ok (db_clock (clock_reads c)),
   mkSession (file c) (S (clock_reads c)) (random_reads c) (statements_run c) (commits_run c)
     (write_locked c)).

Definition dtx_rand (n : nat) : DbTx string := fun c =>
  let c' := mkSession (file c) (clock_reads c) (S (random_reads c)) (statements_run c)
              (commits_run c) (write_locked c) in
  match db_entropy (random_reads c) n with
  | Some s => (Ok s, c')
  | None => (Err ErrDbEntropy, c')
  end.

(** One SQL statement; [None] is a violated constraint or a missing table. *)
Definition dtx_statement {A} (f : ProjectDB -> option (A * ProjectDB)) : DbTx A := fun c =>
  let c' := statement_run c in
  if db_statement_fails (statements_run c) then (Err ErrDbStatement, c')
  else match f (file c) with
       | Some (a, d) => (Ok a, set_file d c')
       | None => (Err ErrDbStatement, c')
       end.

(** A statement that writes fails while another transaction holds the lock. *)
Definition dtx_exec (f : ProjectDB -> option ProjectDB) : DbTx unit := fun c =>
  if write_locked c then (Err ErrDbStatement, statement_run c)
  else dtx_statement (fun d => (fun d' => ((), d')) <$> f d) c.

(** The same with the number of rows the statement changed. *)
Definition dtx_affected (f : ProjectDB -> option (nat * ProjectDB)) : DbTx nat := fun c =>
  if write_locked c then (Err ErrDbStatement, statement_run c) else dtx_statement f c.

Definition dtx_query {A} (f : ProjectDB -> option A) : DbTx A :=
  dtx_statement (fun d => (fun a => (a, d)) <$> f d).

(** A query without a total ORDER BY: its rows come in some order. *)
Definition dtx_rows {A} (f : ProjectDB -> option (list A)) : DbTx (list A) := fun c =>
  match dtx_query f c with
  | (Ok l, c') => (Ok (db_rows (statements_run c) l), c')
  | (Err e, c') => (Err e, c')
  end.

(** The same read by a loop that does not ask [rows.Err]: when the rows stop
    arriving, those that came are taken for all. *)
Definition dtx_rows_unchecked {A} (f : ProjectDB -> option (list A)) : DbTx (list A) := fun c =>
  match dtx_rows f c with
  | (Ok l, c') => (Ok (match db_rows_cut (statements_run c) with Some n => take n l | None => l end), c')
  | (Err e, c') => (Err e, c')
  end.

(** [db.Conn.Begin] up to the end of the body: a failure of the body leaves the
    file as it was, a failed commit, reported as [failed], may or may not. *)
Definition run_tx {A} (failed : DbError) (body : DbTx (TxEnd A)) : DbTx A := fun c =>
  let c0 := statement_run c in
  if db_statement_fails (statements_run c) then (Err ErrDbStatement, c0)
  else
    match body c0 with
    | (Err e, c1) => (Err e, set_file (file c) c1)
    | (Ok (Return a), c1) => (Ok a, set_file (file c) c1)
    | (Ok (Leave e wrote), c1) =>
        (Err e, mkSession (file c) (clock_reads c1) (random_reads c1) (statements_run c1)
                  (commits_run c1) (write_locked c1 || wrote))
    | (Ok (Commit a), c1) =>
        let c2 := mkSession (file c1) (clock_reads c1) (random_reads c1) (statements_run c1)
                    (S (commits_run c1)) (write_locked c1) in
        match db_commit (commits_run c1) with
        | Committed => (Ok a, c2)
        | RolledBack => (Err failed, set_file (file c) c2)
        | CommitUncertain => (Err failed, c2)
        end
    end.

(** A transaction that ends with [tx.Commit]. *)
Definition in_tx {A} (body : DbTx A) : DbTx A :=
  run_tx ErrDbCommit (a <== body ;; dtx_ret (Commit a)).

End session.

(** ** Identifiers and times (ids.go, timestamps.go) *)

(** [timestampLayout]: RFC 3339 in UTC with nine digits of fraction. *)
Definition timestampLayout (t : Time) : string :=
  let ns := t mod day_ns in
  let secs := ns / 10 ^ 9 in
  string_of (bytes_of (FormatDate t) ++ "T"%char
    :: appendInt (secs / 3600) 2 ++ ":"%char :: appendInt (secs / 60 mod 60) 2
    ++ ":"%char :: appendInt (secs mod 60) 2 ++ "."%char :: appendInt (ns mod 10 ^ 9) 9
    ++ ["Z"%char]).

Example timestamp_example :
  timestampLayout (1780000000500000000) = "2026-05-28T20:26:40.500000000Z"%string.
Proof. vm_compute. reflexivity. Qed.

Section ids.
Context `{DbEnv}.

(** [captureTimestamp]: the text and the sort key of one reading of the clock. *)
Definition captureTimestamp : DbTx (string * Z) :=
  t <== dtx_now ;; dtx_ret (timestampLayout t, t).

Definition nowTimestamp : DbTx string := c <== captureTimestamp ;; dtx_ret c.1.

(** [newID]: the prefix and four random bytes in hexadecimal. *)
Definition newID (prefix : string) : DbTx string :=
  buf <== dtx_rand 4 ;; dtx_ret (prefix +:+ "_" +:+ hex_encode buf)%string.

End ids.

(** ** What a successful computation did *)

Lemma dtx_bind_Ok {A B} (m : DbTx A) (k : A -> DbTx B) c b c' :
  dtx_bind m k c = (Ok b, c') -> exists a c1, m c = (Ok a, c1) /\ k a c1 = (Ok b, c').
Proof. unfold dtx_bind. destruct (m c) as [[a|e] c1]; [by exists a, c1|done]. Qed.

Lemma dtx_guard_Ok b e c u c' : dtx_guard b e c = (Ok u, c') -> b = true /\ c' = c.
Proof. unfold dtx_guard. destruct b; [|done]. intros H. by injection H. Qed.

Lemma dtx_of_option_Ok {A} (o : option A) e c a c' :
  dtx_of_option o e c = (Ok a, c') -> o = Some a /\ c' = c.
Proof. unfold dtx_of_option. destruct o; [|done]. intros H. by injection H as -> ->. Qed.

Section session_lemmas.
Context `{DbEnv}.

Lemma dtx_query_Ok {A} (f : ProjectDB -> option A) c a c' :
  dtx_query f c = (Ok a, c') -> f (file c) = Some a /\ file c' = file c.
Proof.
  unfold dtx_query, dtx_statement. destruct (db_statement_fails _); [done|].
  destruct (f (file c)) as [x|] eqn:E; [|done]. simpl. intros Hr. by injection Hr as -> <-.
Qed.

Lemma dtx_exec_Ok f c u c' :
  dtx_exec f c = (Ok u, c') -> f (file c) = Some (file c').
Proof.
  unfold dtx_exec, dtx_statement. destruct (write_locked c); [done|].
  destruct (db_statement_fails _); [done|].
  destruct (f (file c)) as [x|] eqn:E; [|done]. simpl. intros Hr. by injection Hr as _ <-.
Qed.

(** A statement that writes has its effect or none. *)
Lemma dtx_exec_effect f c r c' :
  dtx_exec f c = (r, c') -> (r = Ok () /\ f (file c) = Some (file c')) \/ (is_ok r = false /\ file c' = file c).
Proof.
  unfold dtx_exec, dtx_statement. destruct (write_locked c); [intros Hr; injection Hr as <- <-; by right|].
  destruct (db_statement_fails _); [intros Hr; injection Hr as <- <-; by right|].
  destruct (f (file c)) as [x|] eqn:E; intros Hr; injection Hr as <- <-; [by left|by right].
Qed.

Lemma dtx_affected_effect f c r c' : dtx_affected f c = (r, c') ->
  (exists n, r = Ok n /\ f (file c) = Some (n, file c')) \/ (is_ok r = false /\ file c' = file c).
Proof.
  unfold dtx_affected, dtx_statement. destruct (write_locked c); [intros Hr; injection Hr as <- <-; by right|].
  destruct (db_statement_fails _); [intros Hr; injection Hr as <- <-; by right|].
  destruct (f (file c)) as [[n d]|] eqn:E; intros Hr; injection Hr as <- <-; [left; by exists n|by right].
Qed.

Lemma newID_Ok prefix c s c' : newID prefix c = (Ok s, c') -> file c' = file c.
Proof.
  unfold newID, dtx_bind, dtx_rand. destruct (db_entropy _ _); [|done].
  intros Hr. by injection Hr as _ <-.
Qed.

Lemma nowTimestamp_Ok c s c' : nowTimestamp c = (Ok s, c') -> file c' = file c.
Proof. intros Hr. by injection Hr as _ <-. Qed.

(** A transaction has the effect of its body or none; only a commit whose
    outcome is unknown reports an error for the first. *)
Lemma run_tx_effect {A} failed (body : DbTx (TxEnd A)) c r c' :
  run_tx failed body c = (r, c') ->
  (exists a c0 c1, file c0 = file c /\ body c0 = (Ok (Commit a), c1) /\ file c' = file c1
     /\ (r = Ok a \/ r = Err failed))
  \/ (exists a c0 c1, file c0 = file c /\ body c0 = (Ok (Return a), c1) /\ file c' = file c /\ r = Ok a)
  \/ (is_ok r = false /\ file c' = file c).
Proof.
  unfold run_tx. destruct (db_statement_fails _).
  { intros Hr. injection Hr as <- <-. auto. }
  destruct (body _) as [[[a|a|e wrote]|e] c1] eqn:Eb; cycle 1.
  { intros Hr. injection Hr as <- <-. right. left. eexists a, _, c1. by split_and!; [|exact Eb| |]. }
  { intros Hr. injection Hr as <- <-. auto. }
  { intros Hr. injection Hr as <- <-. auto. }
  destruct (db_commit _); intros Hr; injection Hr as <- <-.
  - left. eexists a, _, c1. split_and!; [|exact Eb|done|by left]. done.
  - auto.
  - left. eexists a, _, c1. split_and!; [|exact Eb|done|by right]. done.
Qed.

Lemma in_tx_effect {A} (body : DbTx A) c r c' :
  in_tx body c = (r, c') ->
  (exists a c0 c1, file c0 = file c /\ body c0 = (Ok a, c1) /\ file c' = file c1
     /\ (r = Ok a \/ r = Err ErrDbCommit))
  \/ (is_ok r = false /\ file c' = file c).
Proof.
  intros [(a & c0 & c1 & F0 & Hb & F1 & Hr)|[(a & c0 & c1 & F0 & Hb & _)|Hf]]%run_tx_effect; [| |by right].
  - apply dtx_bind_Ok in Hb as (a' & c2 & Hb & Hr'). injection Hr' as -> ->. left. by eexists a, c0, c1.
  - apply dtx_bind_Ok in Hb as (a' & c2 & Hb & Hr'). by injection Hr'.
Qed.

Lemma dtx_rows_Ok {A} (f : ProjectDB -> option (list A)) c l c' :
  dtx_rows f c = (Ok l, c') -> exists l0, f (file c) = Some l0 /\ l ≡ₚ l0 /\ file c' = file c.
Proof.
  unfold dtx_rows. destruct (dtx_query f c) as [[l0|e] c1] eqn:E; [|done]. intros Hr. injection Hr as <- <-.
  apply dtx_query_Ok in E as [Hf Hc]. exists l0. split_and!; [done|apply db_rows_perm|done].
Qed.

End session_lemmas.
