(* ===== verification/AuditChain.v ===== *)
(** * The audit chain of a project (db/audit.go, db/audit_checkpoints.go)

    Appending an event with the hash of its predecessor, verifying a chain,
    approval checkpoints and the plain action log.  JSON and SHA-256 are the
    executable ones of [GoJson] and [GoSha256]. *)

From S2P Require Import Prelude GoStrings GoTime GoSha256 GoJson ProjectDb.

Local Open Scope Z_scope.

(** [canonicalJSON]. *)
Definition canonicalJSON (raw : string) : option string :=
  if String.eqb raw "" then Some "null"%string
  else match Unmarshal raw with
       | Some v => Some (Marshal v)
       | None => None
       end.

(** ** Hashes *)

(** The struct [eventHash] marshals: every field of the event but its id and
    its own hash. *)
Definition hash_fields (e : AuditEvent) : list (string * field) :=
  [("project_id", FString (ae_ProjectID e));
   ("sequence_number", FInt (ae_SequenceNumber e));
   ("previous_event_hash", FString (ae_PreviousEventHash e));
   ("event_type", FString (ae_EventType e));
   ("entity_type", FString (ae_EntityType e));
   ("entity_id", FString (ae_EntityID e));
   ("before_canonical_json", FString (ae_BeforeCanonicalJSON e));
   ("after_canonical_json", FString (ae_AfterCanonicalJSON e));
   ("user_id", FString (ae_UserID e));
   ("session_id", FString (ae_SessionID e));
   ("timestamp_utc", FString (ae_TimestampUTC e));
   ("signature_status", FString (ae_SignatureStatus e));
   ("signature_blob_optional", FString (ae_SignatureBlobOptional e))]%string.

(** The bytes that are hashed. *)
Definition hash_input (e : AuditEvent) : string :=
  (ae_PreviousEventHash e +:+ string_of (print_struct (hash_fields e)))%string.

Definition eventHash (e : AuditEvent) : string := HexSum256 (hash_input e).

(** ** The rows of a project *)

Definition seq_le (a b : AuditEvent) : Prop := ae_SequenceNumber a <= ae_SequenceNumber b.

#[export] Instance seq_le_dec a b : Decision (seq_le a b).
Proof. unfold seq_le. apply _. Defined.

Definition events_of (pid : string) (l : list AuditEvent) : list AuditEvent :=
  filter (fun e => ae_ProjectID e = pid) l.

(** [WHERE project_id = ? ORDER BY sequence_number ASC]; the pair is UNIQUE. *)
Definition rows_asc (pid : string) (l : list AuditEvent) : list AuditEvent :=
  merge_sort seq_le (events_of pid l).

Definition sql_audit_rows (pid : string) (d : ProjectDB) : option (list AuditEvent) :=
  rows_asc pid <$> audit_events d.

(** [ORDER BY sequence_number DESC LIMIT 1]. *)
Definition sql_last_event (pid : string) (d : ProjectDB) : option (option (Z * string)) :=
  (fun l => (fun e => (ae_SequenceNumber e, ae_EventHash e)) <$> last (rows_asc pid l))
    <$> audit_events d.

(** The id is the primary key; project and number are UNIQUE together. *)
Definition sql_insert_audit (e : AuditEvent) (d : ProjectDB) : option ProjectDB :=
  match audit_events d with
  | Some l =>
      if existsb (fun x => String.eqb (ae_ID x) (ae_ID e)
                           || String.eqb (ae_ProjectID x) (ae_ProjectID e)
                              && (ae_SequenceNumber x =? ae_SequenceNumber e)) l
      then None
      else Some (set_audit_events (l ++ [e]) d)
  | None => None
  end.

(** ** Appending *)

Record AuditEventInput : Type := mkInput {
  in_ProjectID : string;
  in_EventType : string;
  in_EntityType : string;
  in_EntityID : string;
  in_BeforeJSON : string;
  in_AfterJSON : string;
  in_UserID : string;
  in_SessionID : string;
  in_SignatureStatus : string;
  in_SignatureBlobOptional : string
}.

Definition hashed_event (e : AuditEvent) : AuditEvent :=
  mkAuditEvent (ae_ID e) (ae_ProjectID e) (ae_SequenceNumber e) (ae_PreviousEventHash e)
    (eventHash e) (ae_EventType e) (ae_EntityType e) (ae_EntityID e) (ae_BeforeCanonicalJSON e)
    (ae_AfterCanonicalJSON e) (ae_UserID e) (ae_SessionID e) (ae_TimestampUTC e)
    (ae_SignatureStatus e) (ae_SignatureBlobOptional e).

Definition default_string (s d : string) : string := if String.eqb s "" then d else s.

(** The event built from the input, the canonical values, the last row of the
    project and the time. *)
Definition next_event (i : AuditEventInput) (id before after : string)
    (prev : option (Z * string)) (now : string) : AuditEvent :=
  hashed_event
    (mkAuditEvent id (in_ProjectID i)
       (match prev with Some (n, _) => wrap64 (n + 1) | None => 1 end)
       (match prev with Some (_, h) => h | None => ""%string end)
       "" (in_EventType i) (in_EntityType i) (in_EntityID i) before after (in_UserID i)
       (in_SessionID i) now (default_string (in_SignatureStatus i) "unsigned")
       (in_SignatureBlobOptional i)).

Section operations.
Context `{DbEnv}.

Definition appendAuditEventTx (i : AuditEventInput) : DbTx AuditEvent :=
  _ <== dtx_guard (negb (String.eqb (in_ProjectID i) "")) ErrAuditProjectRequired ;;
  _ <== dtx_guard (negb (String.eqb (in_EventType i) "")) ErrAuditTypeRequired ;;
  _ <== dtx_guard (negb (String.eqb (in_EntityType i) "")) ErrAuditEntityRequired ;;
  before <== dtx_of_option (canonicalJSON (in_BeforeJSON i)) ErrBadJSON ;;
  after <== dtx_of_option (canonicalJSON (in_AfterJSON i)) ErrBadJSON ;;
  id <== newID "audit" ;;
  prev <== dtx_query (sql_last_event (in_ProjectID i)) ;;
  now <== nowTimestamp ;;
  let event := next_event i id before after prev now in
  _ <== dtx_exec (sql_insert_audit event) ;;
  dtx_ret event.

Definition AppendAuditEvent (i : AuditEventInput) : DbTx AuditEvent :=
  in_tx (appendAuditEventTx i).

(** ** Verification *)

Record AuditVerification : Type := mkReport {
  av_ProjectID : string;
  CheckedEvents : Z;
  Valid : bool;
  FirstInvalidSequence : Z;
  FirstInvalidEventID : string;
  FirstInvalidReason : string;
  TerminalEventHash : string
}.

Definition fresh_report (pid : string) : AuditVerification := mkReport pid 0 true 0 "" "" "".

Definition invalidAudit (r : AuditVerification) (e : AuditEvent) (reason : string)
    : AuditVerification :=
  mkReport (av_ProjectID r) (CheckedEvents r) false (ae_SequenceNumber e) (ae_ID e) reason
    (TerminalEventHash r).

Definition count_event (r : AuditVerification) : AuditVerification :=
  mkReport (av_ProjectID r) (CheckedEvents r + 1) (Valid r) (FirstInvalidSequence r)
    (FirstInvalidEventID r) (FirstInvalidReason r) (TerminalEventHash r).

Definition with_terminal (r : AuditVerification) (h : string) : AuditVerification :=
  mkReport (av_ProjectID r) (CheckedEvents r) (Valid r) (FirstInvalidSequence r)
    (FirstInvalidEventID r) (FirstInvalidReason r) h.

(** The loop over the rows. *)
Fixpoint verify_rows (r : AuditVerification) (previousHash : string) (expectedSeq : Z)
    (rows : list AuditEvent) : AuditVerification :=
  match rows with
  | [] => r
  | e :: rest =>
      let r := count_event r in
      if negb (ae_SequenceNumber e =? expectedSeq) then invalidAudit r e "sequence gap"
      else if negb (String.eqb (ae_PreviousEventHash e) previousHash)
      then invalidAudit r e "previous hash mismatch"
      else if negb (String.eqb (eventHash e) (ae_EventHash e))
      then invalidAudit r e "event hash mismatch"
      else verify_rows (with_terminal r (ae_EventHash e)) (ae_EventHash e)
             (wrap64 (expectedSeq + 1)) rest
  end.

Definition verify (pid : string) (rows : list AuditEvent) : AuditVerification :=
  verify_rows (fresh_report pid) "" 1 rows.

Definition VerifyAuditChain (pid : string) : DbTx AuditVerification :=
  rows <== dtx_query (sql_audit_rows pid) ;; dtx_ret (verify pid rows).

(** [ReadAuditChain]: a file without the table has an empty, valid chain. *)
Definition ReadAuditChain (pid : string) : DbTx AuditVerification :=
  present <== dtx_query (fun d => Some (bool_decide (is_Some (audit_events d)))) ;;
  if (present : bool) then VerifyAuditChain pid else dtx_ret (fresh_report pid).

Definition ListAuditEvents (pid : string) : DbTx (list AuditEvent) :=
  dtx_query (sql_audit_rows pid).

(** ** The action log and approval checkpoints *)

(** The [strftime] default of the column: milliseconds. *)
Definition sqlite_stamp (t : Time) : string :=
  string_of (take 23 (bytes_of (timestampLayout t)) ++ ["Z"%char]).

Definition LogAction (actor action targetID details : string) : DbTx unit :=
  t <== dtx_now ;;
  dtx_exec (fun d => Some (add_log_row (sqlite_stamp t) actor action targetID details d)).

Definition approval_payload (approvalType entityType entityID payloadHash now : string) : string :=
  string_of (print_struct
    [("approval_type", FString approvalType); ("entity_type", FString entityType);
     ("entity_id", FString entityID); ("payload_hash", FString payloadHash);
     ("timestamp_utc", FString now)]%string).

Definition approval_signature (payloadHash now : string) : string :=
  string_of (print_struct
    [("algorithm", FString "SHA-256"); ("checkpoint_type", FString "approval");
     ("payload_hash", FString payloadHash); ("signed_at_utc", FString now)]%string).

Definition appendApprovalCheckpointForUserTx
    (projectID entityType entityID approvalType approvedJSON userID : string) : DbTx AuditEvent :=
  canonicalApproved <== dtx_of_option (canonicalJSON approvedJSON) ErrBadJSON ;;
  let payloadHash := HexSum256 canonicalApproved in
  now <== nowTimestamp ;;
  appendAuditEventTx
    (mkInput projectID (entityType +:+ ".approval_checkpoint") entityType entityID ""
       (approval_payload approvalType entityType entityID payloadHash now) userID ""
       "signed" (approval_signature payloadHash now))%string.

Definition appendApprovalCheckpointTx
    (projectID entityType entityID approvalType approvedJSON : string) : DbTx AuditEvent :=
  appendApprovalCheckpointForUserTx projectID entityType entityID approvalType approvedJSON "".

End operations.
