(* ===== verification/AuditTheorems.v ===== *)
(** * What the audit chain guarantees

    The report of a verification, the evidence of tampering, the effect of an
    append, and the chains of every reachable project file. *)

From S2P Require Import Prelude GoStrings GoTime GoSha256 GoJson ProjectDb AuditChain.

Local Open Scope Z_scope.

(** ** Chains *)

(** [e] may follow a row with hash [prev] as row number [n]. *)
Definition linked (prev : string) (n : Z) (e : AuditEvent) : Prop :=
  ae_SequenceNumber e = n /\ ae_PreviousEventHash e = prev /\ eventHash e = ae_EventHash e.

Fixpoint chain (prev : string) (n : Z) (rows : list AuditEvent) : Prop :=
  match rows with
  | [] => True
  | e :: rest => linked prev n e /\ chain (ae_EventHash e) (n + 1) rest
  end.

Fixpoint last_hash (prev : string) (rows : list AuditEvent) : string :=
  match rows with
  | [] => prev
  | e :: rest => last_hash (ae_EventHash e) rest
  end.

#[export] Instance linked_dec prev n e : Decision (linked prev n e).
Proof. unfold linked. apply _. Defined.

Lemma chain_snoc rows : forall prev n e,
  chain prev n (rows ++ [e])
  <-> chain prev n rows /\ linked (last_hash prev rows) (n + Z.of_nat (length rows)) e.
Proof.
  induction rows as [|x rows IH]; intros prev n e; cbn [chain last_hash length app].
  - rewrite Z.add_0_r. tauto.
  - rewrite IH. replace (n + 1 + Z.of_nat (length rows)) with (n + Z.of_nat (S (length rows))) by lia.
    tauto.
Qed.

Lemma last_hash_snoc rows : forall prev e, last_hash prev (rows ++ [e]) = ae_EventHash e.
Proof. induction rows as [|x rows IH]; intros prev e; [done|apply IH]. Qed.

Lemma last_hash_last rows : forall prev,
  last_hash prev rows = from_option ae_EventHash prev (last rows).
Proof.
  induction rows as [|x rows IH] using rev_ind; intros prev; [done|].
  by rewrite last_hash_snoc, last_snoc.
Qed.

Lemma chain_numbers rows : forall prev n,
  chain prev n rows -> ae_SequenceNumber <$> rows = seqZ n (Z.of_nat (length rows)).
Proof.
  induction rows as [|e rows IH]; intros prev n H; [done|].
  destruct H as ((Hs & _) & H). rewrite fmap_cons, (IH _ _ H), Hs. simpl length.
  rewrite (seqZ_cons n) by lia. do 2 f_equal; lia.
Qed.

(** ** The report of a verification *)

Definition sized (rows : list AuditEvent) : Prop := Z.of_nat (length rows) < max_int64.

(** [r'] is the report, started from [r], on rows to be linked to [prev] as
    numbers [n] on: either all are linked, or the first that is not is named. *)
Definition reported (r r' : AuditVerification) (prev : string) (n : Z) (rows : list AuditEvent)
    : Prop :=
  exists good bad, rows = good ++ bad /\ chain prev n good
    /\ TerminalEventHash r' = last_hash prev good
    /\ match bad with
       | [] => Valid r' = true /\ CheckedEvents r' = CheckedEvents r + Z.of_nat (length rows)
       | e :: _ => ~ linked (last_hash prev good) (n + Z.of_nat (length good)) e
                   /\ Valid r' = false
                   /\ CheckedEvents r' = CheckedEvents r + Z.of_nat (length good) + 1
                   /\ FirstInvalidSequence r' = ae_SequenceNumber e
                   /\ FirstInvalidEventID r' = ae_ID e
       end.

Lemma reported_stop r prev n e rows reason :
  TerminalEventHash r = prev -> ~ linked prev n e ->
  reported r (invalidAudit (count_event r) e reason) prev n (e :: rows).
Proof.
  intros Ht Hn. exists [], (e :: rows). split_and!; try done; simpl; rewrite ?Z.add_0_r; done.
Qed.

Lemma reported_next r r' prev n e rows :
  linked prev n e ->
  reported (with_terminal (count_event r) (ae_EventHash e)) r' (ae_EventHash e) (n + 1) rows ->
  reported r r' prev n (e :: rows).
Proof.
  intros He (good & bad & -> & Hc & Hlast & Hrep). exists (e :: good), bad.
  split_and!; try done. simpl length.
  replace (n + Z.of_nat (S (length good))) with (n + 1 + Z.of_nat (length good)) by lia.
  destruct bad as [|e' bad].
  - destruct Hrep as [H1 H2]. simpl in H2. split; [done|]. lia.
  - destruct Hrep as (H1 & H2 & H3 & H4). simpl in H3. split_and!; try done; try tauto. lia.
Qed.

Lemma verify_rows_reported rows : forall r prev n,
  Valid r = true -> TerminalEventHash r = prev -> 0 <= n -> n + Z.of_nat (length rows) <= max_int64 ->
  reported r (verify_rows r prev n rows) prev n rows.
Proof.
  induction rows as [|e rows IH]; intros r prev n Hv Ht Hn Hl.
  { exists [], []. split_and!; try done. simpl. lia. }
  simpl length in Hl. cbn [verify_rows].
  destruct (Z.eqb_spec (ae_SequenceNumber e) n) as [Hs|Hs]; cbn [negb];
    [|by apply reported_stop; [|intros (? & _)]].
  destruct (String.eqb_spec (ae_PreviousEventHash e) prev) as [Hp|Hp]; cbn [negb];
    [|by apply reported_stop; [|intros (_ & ? & _)]].
  destruct (String.eqb_spec (eventHash e) (ae_EventHash e)) as [Hh|Hh]; cbn [negb];
    [|by apply reported_stop; [|intros (_ & _ & ?)]].
  rewrite wrap64_id by (unfold max_int64 in *; lia).
  apply reported_next; [done|]. apply IH; try done; lia.
Qed.

Lemma verify_reported pid rows :
  sized rows -> reported (fresh_report pid) (verify pid rows) "" 1 rows.
Proof. intros Hs. apply verify_rows_reported; try done. unfold sized in Hs. lia. Qed.

Lemma verify_Valid pid rows : sized rows ->
  Valid (verify pid rows) = true <-> chain "" 1 rows.
Proof.
  intros Hs. destruct (verify_reported pid rows Hs) as (good & bad & -> & Hc & _ & Hrep).
  destruct bad as [|e bad].
  - destruct Hrep as [-> _]. rewrite app_nil_r. by split.
  - destruct Hrep as (Hn & -> & _). split; [done|]. intros H. exfalso. apply Hn. clear Hs Hn Hc.
    revert H. generalize ""%string 1. induction good as [|x good IH]; intros p n H.
    + rewrite Z.add_0_r. by destruct H.
    + destruct H as [_ H]. apply IH in H. simpl length. cbn [last_hash].
      by replace (n + Z.of_nat (S (length good))) with (n + 1 + Z.of_nat (length good)) by lia.
Qed.

Lemma verify_terminal pid rows : sized rows -> Valid (verify pid rows) = true ->
  TerminalEventHash (verify pid rows) = last_hash "" rows
  /\ CheckedEvents (verify pid rows) = Z.of_nat (length rows).
Proof.
  intros Hs Hv. destruct (verify_reported pid rows Hs) as (good & bad & -> & _ & Ht & Hrep).
  destruct bad as [|e bad]; [|destruct Hrep as (_ & Hf & _); congruence].
  rewrite app_nil_r in *. split; [done|]. destruct Hrep as [_ ->]. done.
Qed.

(** A verification accepts exactly the chains whose rows are numbered from
    1 without a gap, name the hash of the row before and carry their own; then
    it has counted every row and reports the hash of the last.  Otherwise it
    stops at the first row that does not fit: it has counted the rows up to
    that one, names its number and id, and reports the hash of the last row
    before it. *)
Theorem VerifyAuditChain_report pid rows :
  sized rows ->
  (Valid (verify pid rows) = true <-> chain "" 1 rows)
  /\ if Valid (verify pid rows)
     then CheckedEvents (verify pid rows) = Z.of_nat (length rows)
          /\ TerminalEventHash (verify pid rows) = from_option ae_EventHash "" (last rows)
     else exists good e rest, rows = good ++ e :: rest /\ chain "" 1 good
          /\ ~ chain "" 1 (good ++ [e])
          /\ CheckedEvents (verify pid rows) = Z.of_nat (length good) + 1
          /\ FirstInvalidSequence (verify pid rows) = ae_SequenceNumber e
          /\ FirstInvalidEventID (verify pid rows) = ae_ID e
          /\ TerminalEventHash (verify pid rows) = from_option ae_EventHash "" (last good).
Proof.
  intros Hs. split; [by apply verify_Valid|]. rewrite <- last_hash_last.
  destruct (Valid (verify pid rows)) eqn:Hv; [by destruct (verify_terminal pid rows Hs Hv)|].
  destruct (verify_reported pid rows Hs) as (good & bad & -> & Hc & Ht & Hrep).
  destruct bad as [|e bad]; [destruct Hrep; congruence|].
  destruct Hrep as (Hn & _ & H3 & H4 & H5). exists good, e, bad.
  rewrite <- last_hash_last. split_and!; try done. rewrite chain_snoc. tauto.
Qed.

(** ** Evidence of tampering *)

(** Text that is valid UTF-8, as SQLite's TEXT is meant to be. *)
Definition valid_text (e : AuditEvent) : Prop :=
  Forall (fun s => ValidString s = true)
    [ae_ProjectID e; ae_PreviousEventHash e; ae_EventType e; ae_EntityType e; ae_EntityID e;
     ae_BeforeCanonicalJSON e; ae_AfterCanonicalJSON e; ae_UserID e; ae_SessionID e;
     ae_TimestampUTC e; ae_SignatureStatus e; ae_SignatureBlobOptional e].

(** Everything but the id. *)
Definition without_id (e : AuditEvent) : AuditEvent :=
  mkAuditEvent "" (ae_ProjectID e) (ae_SequenceNumber e) (ae_PreviousEventHash e) (ae_EventHash e)
    (ae_EventType e) (ae_EntityType e) (ae_EntityID e) (ae_BeforeCanonicalJSON e)
    (ae_AfterCanonicalJSON e) (ae_UserID e) (ae_SessionID e) (ae_TimestampUTC e)
    (ae_SignatureStatus e) (ae_SignatureBlobOptional e).

(** Two different inputs of the hash, one from each side, with one SHA-256 sum. *)
Definition collision (rows1 rows2 : list AuditEvent) : Prop :=
  exists e1 e2, e1 ∈ rows1 /\ e2 ∈ rows2
    /\ hash_input e1 <> hash_input e2 /\ Sum256 (hash_input e1) = Sum256 (hash_input e2).

Lemma collision_mono l1 l2 k1 k2 : collision l1 l2 -> collision (l1 ++ k1) (l2 ++ k2).
Proof.
  intros (e1 & e2 & H1 & H2 & H). exists e1, e2. rewrite !elem_of_app. tauto.
Qed.

Lemma hash_fields_ok e : valid_text e -> in_int64 (ae_SequenceNumber e) = true ->
  struct_ok (hash_fields e).
Proof.
  intros Hv Hs. unfold valid_text in Hv. rewrite !Forall_cons in Hv. unfold struct_ok, hash_fields.
  rewrite !Forall_cons, Forall_nil. cbn [snd field_ok]. tauto.
Qed.

(** The two forms a previous hash has in a chain. *)
Definition hash_form (h : string) : Prop := h = ""%string \/ exists m, h = HexSum256 m.

Lemma hex_head s c r : bytes_of (hex_encode s) = c :: r -> c <> "{"%char.
Proof.
  unfold hex_encode. rewrite bytes_of_string_of. destruct s as [|x s]; [done|]. simpl.
  intros H. injection H as <- _. intros H. apply (f_equal byte_val) in H.
  destruct (byte_halves x) as (Hx & _). unfold hex_byte in H.
  destruct (byte_val x / 16 <? 10) eqn:E; rewrite byte_val_of in H by lia;
    change (byte_val "{") with 123 in H; lia.
Qed.

Lemma hash_form_split h1 h2 r1 r2 : hash_form h1 -> hash_form h2 ->
  bytes_of h1 ++ "{"%char :: r1 = bytes_of h2 ++ "{"%char :: r2 -> h1 = h2 /\ r1 = r2.
Proof.
  assert (Hlen : forall m, length (bytes_of (HexSum256 m)) = 64%nat).
  { intros m. by rewrite length_bytes_of, length_HexSum256. }
  assert (Hne : forall m k k', bytes_of (HexSum256 m) ++ k = "{"%char :: k' -> False).
  { intros m k k' H. pose proof (Hlen m). destruct (bytes_of (HexSum256 m)) as [|c l] eqn:E; [done|].
    injection H as -> _. by apply hex_head in E. }
  intros [->|[m1 ->]] [->|[m2 ->]] H.
  - simpl in H. by injection H as ->.
  - exfalso. symmetry in H. by apply Hne in H.
  - exfalso. by apply Hne in H.
  - apply app_inj_1 in H as [H1 H2]; [|by rewrite !Hlen]. injection H2 as ->.
    split; [|done]. by rewrite <- (string_of_bytes_of (HexSum256 m1)), H1, string_of_bytes_of.
Qed.

Lemma hash_input_inj e1 e2 :
  valid_text e1 -> valid_text e2 ->
  in_int64 (ae_SequenceNumber e1) = true -> in_int64 (ae_SequenceNumber e2) = true ->
  hash_form (ae_PreviousEventHash e1) -> hash_form (ae_PreviousEventHash e2) ->
  hash_input e1 = hash_input e2 -> hash_fields e1 = hash_fields e2.
Proof.
  intros Hv1 Hv2 Hs1 Hs2 Hp1 Hp2 H. apply (f_equal bytes_of) in H.
  unfold hash_input in H. rewrite !bytes_of_app, !bytes_of_string_of in H.
  assert (Hb : forall e, exists r, print_struct (hash_fields e) = "{"%char :: r) by (by eexists).
  destruct (Hb e1) as [r1 E1], (Hb e2) as [r2 E2]. rewrite E1, E2 in H.
  apply hash_form_split in H as [_ ->]; [|done..].
  apply print_struct_inj; [done|by apply hash_fields_ok..|congruence].
Qed.

Lemma same_fields e1 e2 :
  hash_fields e1 = hash_fields e2 -> ae_EventHash e1 = ae_EventHash e2 -> without_id e1 = without_id e2.
Proof. intros H Hh. unfold without_id. injection H. intros. f_equal; congruence. Qed.

Lemma last_hash_form rows : forall prev n, hash_form prev -> chain prev n rows -> hash_form (last_hash prev rows).
Proof.
  induction rows as [|e rows IH]; intros prev n Hp H; [done|].
  destruct H as ((_ & _ & He) & H). apply IH in H; [done|]. right. exists (hash_input e). done.
Qed.

Lemma chains_agree rows1 : forall rows2,
  sized rows1 -> sized rows2 -> Forall valid_text rows1 -> Forall valid_text rows2 ->
  chain "" 1 rows1 -> chain "" 1 rows2 -> last_hash "" rows1 = last_hash "" rows2 ->
  without_id <$> rows1 = without_id <$> rows2 \/ collision rows1 rows2.
Proof.
  assert (Hempty : forall l e, chain "" 1 (l ++ [e]) -> last_hash "" (l ++ [e]) <> ""%string).
  { intros l e H. rewrite last_hash_snoc. apply chain_snoc in H as (_ & _ & _ & <-).
    apply HexSum256_nonempty. }
  induction rows1 as [|e1 l1 IH] using rev_ind; intros rows2 Hs1 Hs2 Hv1 Hv2 Hc1 Hc2 Hl;
    destruct rows2 as [|e2 l2 _] using rev_ind.
  - by left.
  - by edestruct Hempty; [|rewrite <- Hl].
  - by edestruct Hempty; [|rewrite Hl].
  - rewrite !last_hash_snoc in Hl. unfold sized in *. rewrite length_app in Hs1, Hs2. simpl in Hs1, Hs2.
    apply Forall_app in Hv1 as [Hv1 He1], Hv2 as [Hv2 He2].
    rewrite Forall_singleton in He1, He2.
    apply chain_snoc in Hc1 as (Hc1 & N1 & P1 & H1), Hc2 as (Hc2 & N2 & P2 & H2).
    assert (Hh : eventHash e1 = eventHash e2) by congruence.
    apply hex_encode_inj in Hh.
    destruct (decide (hash_input e1 = hash_input e2)) as [Hi|Hi].
    + apply hash_input_inj in Hi; [|done|done|apply in_int64_spec; unfold max_int64 in *; lia..| |].
      * destruct (IH l2) as [IH'|IH']; try done; try lia.
        { rewrite <- P1, <- P2. unfold hash_fields in Hi. congruence. }
        { left. rewrite !fmap_app, IH'. simpl. by rewrite (same_fields e1 e2). }
        right. by apply collision_mono.
      * rewrite P1. eapply last_hash_form; [by left|done].
      * rewrite P2. eapply last_hash_form; [by left|done].
    + right. exists e1, e2. split_and!; try done; apply elem_of_app; right; by constructor.
Qed.

(** C4. Two tables of fewer than 2^63 - 1 events, all of whose texts are valid UTF-8, that
    verify and report the same terminal hash hold the same events: number, hashes,
    project, type, entity, values, user, session, time and signature agree row by
    row, so nothing was changed, inserted, removed or reordered, unless two of their
    own hash inputs collide under SHA-256.  Only the ids are not bound. *)
Theorem VerifyAuditChain_tamper_evident pid1 pid2 rows1 rows2 :
  sized rows1 -> sized rows2 -> Forall valid_text rows1 -> Forall valid_text rows2 ->
  Valid (verify pid1 rows1) = true -> Valid (verify pid2 rows2) = true ->
  TerminalEventHash (verify pid1 rows1) = TerminalEventHash (verify pid2 rows2) ->
  without_id <$> rows1 = without_id <$> rows2 \/ collision rows1 rows2.
Proof.
  intros Hs1 Hs2 Hv1 Hv2 H1 H2 Ht.
  destruct (verify_terminal _ _ Hs1 H1) as [T1 _], (verify_terminal _ _ Hs2 H2) as [T2 _].
  apply chains_agree; try done; [by apply verify_Valid in H1|by apply verify_Valid in H2|congruence].
Qed.

(** ** Appending *)

Lemma rows_asc_perm pid l : rows_asc pid l ≡ₚ events_of pid l.
Proof. apply merge_sort_Permutation. Qed.

#[local] Instance seq_le_total : Total seq_le.
Proof. intros x y. unfold seq_le. lia. Qed.

#[local] Instance seq_le_trans : Transitive seq_le.
Proof. intros x y z. unfold seq_le. lia. Qed.

Lemma rows_asc_sorted pid l : StronglySorted seq_le (rows_asc pid l).
Proof. apply (StronglySorted_merge_sort _). Qed.

Lemma rows_asc_other pid l e : ae_ProjectID e <> pid -> rows_asc pid (l ++ [e]) = rows_asc pid l.
Proof.
  intros Hne. unfold rows_asc, events_of. rewrite filter_app, filter_cons_False by done.
  by rewrite app_nil_r.
Qed.

Lemma StronglySorted_seq_snoc l e :
  StronglySorted seq_le l -> (forall x, x ∈ l -> ae_SequenceNumber x < ae_SequenceNumber e) ->
  StronglySorted seq_le (l ++ [e]).
Proof.
  induction 1 as [|x l Hs IH Hx]; intros Hl; simpl; [repeat constructor|].
  constructor; [apply IH; intros y Hy; apply Hl; by constructor|].
  apply Forall_app. split; [done|]. constructor; [|done]. unfold seq_le.
  specialize (Hl x ltac:(constructor)). lia.
Qed.

(** A row numbered above all others is the last. *)
Lemma rows_asc_snoc l e :
  NoDup (ae_SequenceNumber <$> rows_asc (ae_ProjectID e) l) ->
  (forall x, x ∈ rows_asc (ae_ProjectID e) l -> ae_SequenceNumber x < ae_SequenceNumber e) ->
  rows_asc (ae_ProjectID e) (l ++ [e]) = rows_asc (ae_ProjectID e) l ++ [e].
Proof.
  set (pid := ae_ProjectID e). intros Hnd Hlt.
  assert (Hp : rows_asc pid (l ++ [e]) ≡ₚ rows_asc pid l ++ [e]).
  { rewrite !rows_asc_perm. unfold events_of. rewrite filter_app, filter_cons_True by done. done. }
  assert (Hnd' : NoDup (ae_SequenceNumber <$> rows_asc pid l ++ [e])).
  { rewrite fmap_app. apply NoDup_app. split_and!; [done| |apply NoDup_singleton].
    intros n Hn Hn'. apply list_elem_of_fmap in Hn as (x & -> & Hx). specialize (Hlt x Hx).
    apply list_elem_of_singleton in Hn'. lia. }
  apply (StronglySorted_unique_strong seq_le); [|apply rows_asc_sorted| |done].
  - intros x y Hx Hy Hxy Hyx. rewrite Hp in Hx.
    assert (He : ae_SequenceNumber x = ae_SequenceNumber y) by (unfold seq_le in *; lia).
    apply list_elem_of_lookup in Hx as [i Hi]. apply list_elem_of_lookup in Hy as [j Hj].
    assert (i = j) as ->; [|congruence].
    eapply NoDup_lookup; [exact Hnd'|by rewrite list_lookup_fmap, Hi|].
    by rewrite list_lookup_fmap, Hj, He.
  - apply StronglySorted_seq_snoc; [apply rows_asc_sorted|done].
Qed.

(** Appending [e] after the last row of a chain keeps the chain. *)
Lemma chain_append pid l i id before after now :
  in_ProjectID i = pid -> chain "" 1 (rows_asc pid l) -> sized (rows_asc pid l) ->
  let e := next_event i id before after
             ((fun e => (ae_SequenceNumber e, ae_EventHash e)) <$> last (rows_asc pid l)) now in
  rows_asc pid (l ++ [e]) = rows_asc pid l ++ [e] /\ chain "" 1 (rows_asc pid l ++ [e]).
Proof.
  intros Hi Hc Hs e. set (rows := rows_asc pid l) in *.
  assert (Hnum : ae_SequenceNumber e = 1 + Z.of_nat (length rows)).
  { subst e. destruct rows as [|x rows' _] using rev_ind; [done|].
    rewrite last_snoc. apply chain_snoc in Hc as (_ & Hx & _).
    unfold sized in Hs. rewrite length_app in *. simpl in *. unfold next_event. simpl.
    rewrite Hx, wrap64_id; unfold max_int64 in *; lia. }
  assert (Hprev : ae_PreviousEventHash e = last_hash "" rows).
  { subst e. rewrite last_hash_last. destruct (last rows); done. }
  split.
  - assert (Hpid : ae_ProjectID e = pid) by done. subst rows. revert Hc Hs Hnum. rewrite <- Hpid.
    intros Hc Hs Hnum. apply rows_asc_snoc; rewrite ?(chain_numbers _ _ _ Hc).
    + apply NoDup_seqZ.
    + intros x Hx. apply (list_elem_of_fmap_2 ae_SequenceNumber) in Hx.
      rewrite (chain_numbers _ _ _ Hc) in Hx. apply elem_of_seqZ in Hx. lia.
  - apply chain_snoc. split; [done|]. split_and!; [done|done|]. done.
Qed.

Section appending.
Context `{DbEnv}.

Lemma appendAuditEventTx_Ok i c e c' :
  appendAuditEventTx i c = (Ok e, c') ->
  exists l id before after now,
    audit_events (file c) = Some l
    /\ e = next_event i id before after
             ((fun x => (ae_SequenceNumber x, ae_EventHash x)) <$> last (rows_asc (in_ProjectID i) l)) now
    /\ canonicalJSON (in_BeforeJSON i) = Some before /\ canonicalJSON (in_AfterJSON i) = Some after
    /\ file c' = set_audit_events (l ++ [e]) (file c).
Proof.
  unfold appendAuditEventTx. intros Hr.
  apply dtx_bind_Ok in Hr as (u1 & c1 & [_ ->]%dtx_guard_Ok & Hr).
  apply dtx_bind_Ok in Hr as (u2 & c1 & [_ ->]%dtx_guard_Ok & Hr).
  apply dtx_bind_Ok in Hr as (u3 & c1 & [_ ->]%dtx_guard_Ok & Hr).
  apply dtx_bind_Ok in Hr as (before & c1 & [Hb ->]%dtx_of_option_Ok & Hr).
  apply dtx_bind_Ok in Hr as (after & c1 & [Ha ->]%dtx_of_option_Ok & Hr).
  apply dtx_bind_Ok in Hr as (id & c1 & F1%newID_Ok & Hr).
  apply dtx_bind_Ok in Hr as (prev & c2 & [Hq F2]%dtx_query_Ok & Hr).
  apply dtx_bind_Ok in Hr as (now & c3 & F3%nowTimestamp_Ok & Hr).
  apply dtx_bind_Ok in Hr as (u4 & c4 & F4%dtx_exec_Ok & Hr). injection Hr as <- <-.
  rewrite F1 in Hq. rewrite F3, F2, F1 in F4. unfold sql_last_event in Hq.
  unfold sql_insert_audit in F4. destruct (audit_events (file c)) as [l|]; [|done].
  injection Hq as <-. destruct (existsb _ _); [done|]. injection F4 as <-.
  by exists l, id, before, after, now.
Qed.

End appending.

(** [d'] holds one event more than [d], which continues its project's chain and
    leaves the other projects' rows alone. *)
Definition one_more (i : AuditEventInput) (l : list AuditEvent) (e : AuditEvent) (d d' : ProjectDB)
    : Prop :=
  d' = set_audit_events (l ++ [e]) d
  /\ ae_ProjectID e = in_ProjectID i
  /\ rows_asc (in_ProjectID i) (l ++ [e]) = rows_asc (in_ProjectID i) l ++ [e]
  /\ Valid (verify (in_ProjectID i) (rows_asc (in_ProjectID i) (l ++ [e]))) = true
  /\ TerminalEventHash (verify (in_ProjectID i) (rows_asc (in_ProjectID i) (l ++ [e]))) = ae_EventHash e
  /\ forall pid, pid <> in_ProjectID i -> rows_asc pid (l ++ [e]) = rows_asc pid l.

Lemma chain_append_one pid l i id before after now d :
  in_ProjectID i = pid -> chain "" 1 (rows_asc pid l) -> Z.of_nat (length (rows_asc pid l)) + 1 < max_int64 ->
  let e := next_event i id before after
             ((fun e => (ae_SequenceNumber e, ae_EventHash e)) <$> last (rows_asc pid l)) now in
  one_more i l e d (set_audit_events (l ++ [e]) d).
Proof.
  intros <- Hc Hs e. assert (Hs' : sized (rows_asc (in_ProjectID i) l)) by (unfold sized; lia).
  destruct (chain_append _ l i id before after now eq_refl Hc Hs') as [Hr Hc'].
  assert (Hsz : sized (rows_asc (in_ProjectID i) l ++ [e])).
  { unfold sized. rewrite length_app. simpl. lia. }
  assert (Hv : Valid (verify (in_ProjectID i) (rows_asc (in_ProjectID i) l ++ [e])) = true)
    by (by apply verify_Valid).
  split_and!; try done; fold e in Hr; rewrite ?Hr; try done.
  - destruct (verify_terminal _ _ Hsz Hv) as [-> _]. apply last_hash_snoc.
  - intros pid Hne. apply rows_asc_other. cbn. done.
Qed.

Section appending_theorems.
Context `{DbEnv}.

(** Appending to a chain that verifies adds one event, which carries the
    next number and the hash of the row before, and the longer chain verifies
    with the new hash as terminal; the rows of other projects stay.  When it
    fails nothing was written, unless the commit itself reported the failure. *)
Theorem AppendAuditEvent_extends i c r c' l :
  audit_events (file c) = Some l ->
  Valid (verify (in_ProjectID i) (rows_asc (in_ProjectID i) l)) = true ->
  Z.of_nat (length (rows_asc (in_ProjectID i) l)) + 1 < max_int64 ->
  AppendAuditEvent i c = (r, c') ->
  match r with
  | Ok e => one_more i l e (file c) (file c')
  | Err ErrDbCommit => file c' = file c \/ exists e, one_more i l e (file c) (file c')
  | Err _ => file c' = file c
  end.
Proof.
  intros Hl Hv Hs Hr. apply verify_Valid in Hv; [|unfold sized; lia].
  unfold AppendAuditEvent in Hr.
  apply in_tx_effect in Hr as [(e & c0 & c1 & F0 & Hb & F1 & Hr)|[Hr F]].
  - apply appendAuditEventTx_Ok in Hb as (l' & id & before & after & now & Hl' & He & _ & _ & F2).
    rewrite F0 in Hl', F2. rewrite Hl in Hl'. injection Hl' as <-.
    assert (Hone : one_more i l e (file c) (file c')).
    { rewrite F1, F2, He. by apply chain_append_one. }
    destruct Hr as [->| ->]; [done|right; by exists e].
  - destruct r as [e|er]; [done|]. destruct er; first [done|by left].
Qed.

End appending_theorems.

(** ** Reachable project files *)

(** One audited operation, under any environment. *)
Inductive audit_step : ProjectDB -> ProjectDB -> Prop :=
| step_append (E : DbEnv) i c r c' :
    AppendAuditEvent i c = (r, c') -> audit_step (file c) (file c')
| step_approve (E : DbEnv) pid kind id approval json user c r c' :
    in_tx (appendApprovalCheckpointForUserTx pid kind id approval json user) c = (r, c') ->
    audit_step (file c) (file c')
| step_log (E : DbEnv) actor action target details c r c' :
    LogAction actor action target details c = (r, c') -> audit_step (file c) (file c').

(** Every chain whose numbers fit an int64 verifies. *)
Definition chains_valid (l : list AuditEvent) : Prop :=
  forall pid, sized (rows_asc pid l) -> chain "" 1 (rows_asc pid l).

Lemma chains_valid_append i l id before after now :
  chains_valid l ->
  chains_valid (l ++ [next_event i id before after
    ((fun e => (ae_SequenceNumber e, ae_EventHash e)) <$> last (rows_asc (in_ProjectID i) l)) now]).
Proof.
  intros Hl pid Hs. destruct (decide (in_ProjectID i = pid)) as [<-|Hne].
  - assert (Hs' : sized (rows_asc (in_ProjectID i) l)).
    { unfold sized in *. rewrite rows_asc_perm in *. unfold events_of in Hs.
      rewrite filter_app, length_app in Hs. unfold events_of. lia. }
    destruct (chain_append _ l i id before after now eq_refl (Hl _ Hs') Hs') as [-> Hc]. done.
  - rewrite rows_asc_other in * by done. by apply Hl.
Qed.

Lemma appendAuditEventTx_step (E : DbEnv) i c0 e c1 l :
  appendAuditEventTx i c0 = (Ok e, c1) -> audit_events (file c0) = Some l -> chains_valid l ->
  exists l', audit_events (file c1) = Some l' /\ l `prefix_of` l' /\ chains_valid l'.
Proof.
  intros Hb Hl Hv.
  apply appendAuditEventTx_Ok in Hb as (l' & id & before & after & now & Hl' & He & _ & _ & ->).
  rewrite Hl in Hl'. injection Hl' as <-. exists (l ++ [e]). split_and!; [done|by eexists|].
  rewrite He. by apply chains_valid_append.
Qed.

Lemma audit_step_chains d d' l :
  audit_step d d' -> audit_events d = Some l -> chains_valid l ->
  exists l', audit_events d' = Some l' /\ l `prefix_of` l' /\ chains_valid l'.
Proof.
  intros Hst Hl Hv.
  destruct Hst as [E i c r c' Hr|E pid kind id ap json user c r c' Hr|E a1 a2 a3 a4 c r c' Hr].
  - apply in_tx_effect in Hr as [(e & c0 & c1 & F0 & Hb & F1 & _)|[_ F]].
    + rewrite F1. rewrite <- F0 in Hl. by eapply appendAuditEventTx_step.
    + rewrite F. by exists l.
  - apply in_tx_effect in Hr as [(e & c0 & c1 & F0 & Hb & F1 & _)|[_ F]]; [|rewrite F; by exists l].
    rewrite F1. rewrite <- F0 in Hl.
    apply dtx_bind_Ok in Hb as (can & c2 & [_ ->]%dtx_of_option_Ok & Hb).
    apply dtx_bind_Ok in Hb as (now & c3 & F3%nowTimestamp_Ok & Hb). rewrite <- F3 in Hl.
    by eapply appendAuditEventTx_step.
  - exists l. split_and!; [|done|done].
    unfold LogAction, dtx_bind, dtx_now in Hr.
    by apply dtx_exec_effect in Hr as [[_ [= <-]]|[_ ->]].
Qed.

Lemma audit_steps_chains d d' : rtc audit_step d d' -> forall l,
  audit_events d = Some l -> chains_valid l ->
  exists l', audit_events d' = Some l' /\ l `prefix_of` l' /\ chains_valid l'.
Proof.
  induction 1 as [d|d d1 d2 Hst _ IH]; intros l Hl Hv; [by exists l|].
  destruct (audit_step_chains _ _ _ Hst Hl Hv) as (l1 & Hl1 & Hp1 & Hv1).
  destruct (IH l1 Hl1 Hv1) as (l2 & Hl2 & Hp2 & Hv2). exists l2. split_and!; [done| |done].
  by etrans.
Qed.

(** In every project file that audited operations can reach from a new one,
    with any statement or commit failing, the chain of every project verifies;
    and whatever is done later keeps every event there is, in order. *)
Theorem reachable_chains_verify d d' :
  rtc audit_step empty_project d -> rtc audit_step d d' ->
  exists l l', audit_events d = Some l /\ audit_events d' = Some l' /\ l `prefix_of` l'
    /\ forall pid, sized (rows_asc pid l') -> Valid (verify pid (rows_asc pid l')) = true.
Proof.
  intros H1 H2. destruct (audit_steps_chains _ _ H1 []) as (l & Hl & _ & Hv); [done|done|].
  destruct (audit_steps_chains _ _ H2 l Hl Hv) as (l' & Hl' & Hp & Hv').
  exists l, l'. split_and!; try done. intros pid Hs. apply verify_Valid; [done|]. by apply Hv'.
Qed.
