(* ===== verification/AuditHistory.v ===== *)
(** * The audit chain on a concrete project file

    A short history computed with the real hash, the instances of the theorems
    on it, and what a verification does not see. *)

From S2P Require Import Prelude GoStrings GoTime GoSha256 GoJson ProjectDb AuditChain AuditTheorems.

Local Open Scope Z_scope.

(** ** An environment and a history *)

Definition demo_entropy (k n : nat) : option string :=
  Some (string_of (replicate n (byte_of (Z.of_nat k mod 256)))).

Lemma demo_entropy_length k n s : demo_entropy k n = Some s -> String.length s = n.
Proof.
  intros H. injection H as <-. rewrite <- length_bytes_of, bytes_of_string_of. apply length_replicate.
Qed.

(** The clock ticks once a second; [outcome] is the fate of the commits. *)
Definition demo_env (outcome : nat -> CommitOutcome) : DbEnv :=
  {| db_clock := fun k => (1780000000 + Z.of_nat k) * 10 ^ 9;
     db_entropy := demo_entropy;
     db_entropy_length := demo_entropy_length;
     db_statement_fails := fun _ => false;
     db_rows := fun _ _ l => l;
     db_rows_perm := fun _ _ _ => reflexivity _;
     db_rows_cut := fun _ => None;
     db_commit := outcome |}.

Definition input (entity after : string) : AuditEventInput :=
  mkInput "p1" "chart.update" "chart" entity "" after "alice" "s1" "" "".

Definition start : Session := mkSession empty_project 0 0 0 0 false.

Definition json_of (l : list (string * field)) : string := string_of (print_struct l).

Definition demo1 : Session :=
  (@AppendAuditEvent (demo_env (fun _ => Committed)) (input "c1" (json_of [("b", FInt 2); ("a", FString "x<y")]%string)) start).2.
Definition demo2 : Session :=
  (@AppendAuditEvent (demo_env (fun _ => Committed)) (input "c2" "") demo1).2.
Definition demo3 : Session :=
  (@AppendAuditEvent (demo_env (fun _ => CommitUncertain)) (input "c3" "[1.0]") demo2).2.

Definition demo_rows (c : Session) : list AuditEvent :=
  match audit_events (file c) with Some l => rows_asc "p1" l | None => [] end.

Example demo3_verifies :
  verify "p1" (demo_rows demo3)
  = mkReport "p1" 3 true 0 "" "" (from_option ae_EventHash "" (last (demo_rows demo3))).
Proof. vm_compute. reflexivity. Qed.

(** ** Instances *)

Lemma VerifyAuditChain_report_witness :
  sized (demo_rows demo3) /\ Valid (verify "p1" (demo_rows demo3)) = true
  /\ CheckedEvents (verify "p1" (demo_rows demo3)) = Z.of_nat (length (demo_rows demo3)).
Proof.
  assert (Hs : sized (demo_rows demo3)) by by_decide.
  assert (Hv : Valid (verify "p1" (demo_rows demo3)) = true) by (by vm_compute).
  destruct (VerifyAuditChain_report "p1" (demo_rows demo3) Hs) as [_ H]. rewrite Hv in H.
  split; [exact Hs|]. split; [exact Hv|]. exact (proj1 H).
Defined.

Definition set_id (id : string) (e : AuditEvent) : AuditEvent :=
  mkAuditEvent id (ae_ProjectID e) (ae_SequenceNumber e) (ae_PreviousEventHash e) (ae_EventHash e)
    (ae_EventType e) (ae_EntityType e) (ae_EntityID e) (ae_BeforeCanonicalJSON e)
    (ae_AfterCanonicalJSON e) (ae_UserID e) (ae_SessionID e) (ae_TimestampUTC e)
    (ae_SignatureStatus e) (ae_SignatureBlobOptional e).

#[local] Instance valid_text_dec e : Decision (valid_text e).
Proof. unfold valid_text. apply _. Defined.

#[local] Instance sized_dec rows : Decision (sized rows).
Proof. unfold sized. apply _. Defined.

Lemma VerifyAuditChain_tamper_evident_witness :
  let rows := demo_rows demo2 in
  Valid (verify "p1" rows) = true
  /\ (without_id <$> rows = without_id <$> (set_id "x" <$> rows)
      \/ collision rows (set_id "x" <$> rows)).
Proof.
  split; [by vm_compute|].
  apply (VerifyAuditChain_tamper_evident "p1" "p1"); first [by_decide|by vm_compute].
Defined.

Lemma AppendAuditEvent_extends_witness :
  let l := default [] (audit_events (file demo1)) in
  file demo2 = file demo1 \/ exists e, one_more (input "c2" "") l e (file demo1) (file demo2).
Proof.
  intros l. right.
  destruct (@AppendAuditEvent (demo_env (fun _ => Committed)) (input "c2" "") demo1) as [[e|er] c'] eqn:E.
  - exists e. replace (file demo2) with (file c') by (unfold demo2; by rewrite E).
    apply (@AppendAuditEvent_extends (demo_env (fun _ => Committed)) (input "c2" "") demo1 (Ok e) c' l);
      [by vm_compute|by vm_compute|by_decide|exact E].
  - exfalso. apply (f_equal (fun p => is_ok p.1)) in E. by vm_compute in E.
Defined.

Lemma reachable_chains_verify_witness :
  rtc audit_step empty_project (file demo3)
  /\ exists l l', audit_events (file demo1) = Some l /\ audit_events (file demo3) = Some l'
     /\ l `prefix_of` l'
     /\ forall pid, sized (rows_asc pid l') -> Valid (verify pid (rows_asc pid l')) = true.
Proof.
  assert (H1 : audit_step empty_project (file demo1)).
  { exact (step_append (demo_env (fun _ => Committed)) _ start _ _ (surjective_pairing _)). }
  assert (H2 : audit_step (file demo1) (file demo2)).
  { exact (step_append (demo_env (fun _ => Committed)) _ demo1 _ _ (surjective_pairing _)). }
  assert (H3 : audit_step (file demo2) (file demo3)).
  { exact (step_append (demo_env (fun _ => CommitUncertain)) _ demo2 _ _ (surjective_pairing _)). }
  split.
  - eapply rtc_l; [exact H1|]. eapply rtc_l; [exact H2|]. by apply rtc_once.
  - apply (reachable_chains_verify (file demo1) (file demo3)); [by apply rtc_once|].
    eapply rtc_l; [exact H2|]. by apply rtc_once.
Defined.

(** ** What a verification does not see *)

Lemma verify_rows_ids f rows : forall r1 r2 prev n,
  Valid r1 = Valid r2 -> CheckedEvents r1 = CheckedEvents r2 ->
  TerminalEventHash r1 = TerminalEventHash r2 ->
  let r1' := verify_rows r1 prev n rows in
  let r2' := verify_rows r2 prev n ((fun e => set_id (f e) e) <$> rows) in
  Valid r1' = Valid r2' /\ CheckedEvents r1' = CheckedEvents r2'
  /\ TerminalEventHash r1' = TerminalEventHash r2'.
Proof.
  induction rows as [|e rows IH]; intros r1 r2 prev n Hv Hc Ht; [done|].
  cbn [fmap list_fmap verify_rows].
  change (eventHash (set_id (f e) e)) with (eventHash e). cbn [set_id ae_SequenceNumber ae_PreviousEventHash ae_EventHash].
  repeat case_match; try (apply IH; simpl; congruence); simpl; split_and!; congruence.
Qed.

(** Two events that differ in a byte that is not UTF-8: [json.Marshal] writes
    U+FFFD for both. *)
Definition latin1_event (b : Z) : AuditEvent :=
  hashed_event (mkAuditEvent "audit_1" "p1" 1 "" "" "document.update" "document"
               (string_of [byte_of b]) "null" "null" "alice" "" "2026-05-28T20:26:40.000000000Z"
               "unsigned" "").

(** The ids of events are not part of what is hashed: any table keeps its
    verdict, count and terminal hash when its ids are replaced.  Nor are bytes
    that are not UTF-8 told apart: two events that differ in one verify with
    the same hash. *)
Theorem VerifyAuditChain_blind_spots :
  (forall pid rows f,
     let r := verify pid rows in
     let r' := verify pid ((fun e => set_id (f e) e) <$> rows) in
     Valid r = Valid r' /\ CheckedEvents r = CheckedEvents r'
     /\ TerminalEventHash r = TerminalEventHash r')
  /\ ae_EntityID (latin1_event 233) <> ae_EntityID (latin1_event 232)
  /\ Valid (verify "p1" [latin1_event 233]) = true /\ Valid (verify "p1" [latin1_event 232]) = true
  /\ TerminalEventHash (verify "p1" [latin1_event 233])
     = TerminalEventHash (verify "p1" [latin1_event 232]).
Proof.
  split; [intros pid rows f; by apply verify_rows_ids|].
  split; [intros H; by vm_compute in H|]. split_and!; by vm_compute.
Qed.
