(* ===== verification/Charts.v ===== *)
(** * Charts of a project file (db/charts.go)

    Saving, reading and deleting charts, with their audit events, in a file whose
    tables are migrated; the payloads and charts that only the store of the work
    breakdown structure may write (protectedWBSPayload and protectedWBSChartTx of
    db/wbs_store.go). *)

From S2P Require Import Prelude GoStrings GoTime GoJson Wbs ProjectDb AuditChain.

Local Open Scope Z_scope.

Definition chart_fields (c : Chart) : list (string * field) :=
  [("id", FString (ch_ID c)); ("project_id", FString (ch_ProjectID c)); ("kind", FString (ch_Kind c));
   ("title", FString (ch_Title c)); ("data", FString (ch_Data c)); ("config", FString (ch_Config c));
   ("template_id", FString (ch_TemplateID c)); ("created_at", FString (ch_CreatedAt c));
   ("updated_at", FString (ch_UpdatedAt c))]%string.

(** [json.Marshal] of the struct cannot fail. *)
Definition chartAuditJSON (c : Chart) : string := string_of (print_struct (chart_fields c)).

(** [name, ok := envelope[key]]. *)
Definition has_member (k : string) (l : list (string * json)) : bool :=
  existsb (fun kv => String.eqb kv.1 k) l.

Definition protectedWBSPayload (kind data : string) : bool :=
  if String.eqb kind "wbs_v2" then true
  else match UnmarshalMembers data with
       | None => false
       | Some envelope => has_member "root" envelope && has_member "schema_version" envelope
       end.

(** ** Statements *)

Definition sql_chart (id : string) (d : ProjectDB) : option (option Chart) :=
  Some (row <$> charts d !! id).

(** A chart's project must exist. *)
Definition sql_insert_chart (c : Chart) (created updated : Z) (d : ProjectDB) : option ProjectDB :=
  match charts d !! ch_ID c with
  | Some _ => None
  | None =>
      if bool_decide (ch_ProjectID c ∈ projects d)
      then Some (set_charts (<[ch_ID c := mkTimed c created updated]> (charts d)) d)
      else None
  end.

(** [ON CONFLICT(id) DO UPDATE]: the project and the creation stay. *)
Definition updated_chart (old c : Chart) : Chart :=
  mkChart (ch_ID old) (ch_ProjectID old) (ch_Kind c) (ch_Title c) (ch_Data c) (ch_Config c)
    (ch_TemplateID c) (ch_CreatedAt old) (ch_UpdatedAt c).

Definition sql_upsert_chart (c : Chart) (now : Z) (d : ProjectDB) : option ProjectDB :=
  match charts d !! ch_ID c with
  | None => sql_insert_chart c now now d
  | Some old =>
      Some (set_charts (<[ch_ID c := mkTimed (updated_chart (row old) c) (created_unixnano old) now]>
                          (charts d)) d)
  end.

Definition records_of (d : ProjectDB) : gmap string string :=
  match wbs_records d with Some t => table_rows t | None => ∅ end.

(** Baselines go with their chart; a record of [wbs_records] keeps it. *)
Definition sql_delete_chart (id : string) (d : ProjectDB) : option ProjectDB :=
  if bool_decide (is_Some (records_of d !! id)) then None
  else Some (set_baselines (filter (fun kv => bl_ChartID kv.2 <> id) (baselines d))
               (set_charts (delete id (charts d)) d)).

(** Newest first, in any order among charts of one instant. *)
Definition newer_first (a b : Timed Chart) : Prop := updated_unixnano b <= updated_unixnano a.

#[export] Instance newer_first_dec a b : Decision (newer_first a b).
Proof. unfold newer_first. apply _. Defined.

Definition listed (projectID kind : string) (r : Timed Chart) : Prop :=
  ch_ProjectID (row r) = projectID /\ (kind = ""%string \/ ch_Kind (row r) = kind).

#[export] Instance listed_dec p k r : Decision (listed p k r).
Proof. unfold listed. apply _. Defined.

(** ** Operations *)

(** The error of a call as a value. *)
Definition dtx_catch {A} (m : DbTx A) : DbTx (result DbError A) := fun c =>
  let (r, c') := m c in (Ok r, c').

Section operations.
Context `{DbEnv}.

Definition getChartTx (id : string) : DbTx Chart :=
  r <== dtx_query (sql_chart id) ;; dtx_of_option r ErrNoChart.

Definition protectedWBSChartTx (c : Chart) : DbTx bool :=
  if protectedWBSPayload (ch_Kind c) (ch_Data c) then dtx_ret true
  else
    table <== dtx_query (fun d => Some (bool_decide (is_Some (wbs_records d)))) ;;
    if negb table then dtx_ret false
    else dtx_query (fun d => t ← wbs_records d; Some (bool_decide (is_Some (table_rows t !! ch_ID c)))).

(** The event of a change of a chart. *)
Definition chart_event (eventType projectID id before after user session : string) : AuditEventInput :=
  mkInput projectID eventType "chart" id before after user session "" "".

Definition SaveChart (c : Chart) : DbTx Chart :=
  if protectedWBSPayload (ch_Kind c) (ch_Data c) then dtx_fail ErrWBSProtected
  else
    id <== (if String.eqb (ch_ID c) "" then newID "chart" else dtx_ret (ch_ID c)) ;;
    let data := default_string (ch_Data c) "{}" in
    let config := default_string (ch_Config c) "{}" in
    now <== captureTimestamp ;;
    in_tx (
      found <== dtx_catch (getChartTx id) ;;
      before <== match found with
                 | Err ErrNoChart => dtx_ret None
                 | Err e => dtx_fail e
                 | Ok b =>
                     protected <== protectedWBSChartTx b ;;
                     if (protected : bool) then dtx_fail ErrWBSProtected else dtx_ret (Some b)
                 end ;;
      _ <== dtx_exec (sql_upsert_chart
              (mkChart id (ch_ProjectID c) (ch_Kind c) (ch_Title c) data config (ch_TemplateID c)
                 now.1 now.1) now.2) ;;
      after <== getChartTx id ;;
      _ <== appendAuditEventTx
              (chart_event (match before with Some _ => "chart.update" | None => "chart.create" end)
                 (ch_ProjectID after) (ch_ID after)
                 (match before with Some b => chartAuditJSON b | None => "" end)
                 (chartAuditJSON after) "" "") ;;
      dtx_ret after).

Definition GetChart (id : string) : DbTx Chart := getChartTx id.

(** In a migrated file, which has the numeric columns. *)
Definition ListCharts (projectID kind : string) : DbTx (list Chart) :=
  rows <== dtx_rows (fun d => Some (filter (listed projectID kind) (snd <$> map_to_list (charts d)))) ;;
  dtx_ret (row <$> merge_sort newer_first rows).

Definition DeleteChart (id : string) : DbTx unit :=
  in_tx (
    found <== dtx_catch (getChartTx id) ;;
    match found with
    | Err ErrNoChart => dtx_ret ()
    | Err e => dtx_fail e
    | Ok before =>
        protected <== protectedWBSChartTx before ;;
        _ <== dtx_guard (negb protected) ErrWBSProtected ;;
        _ <== dtx_exec (sql_delete_chart id) ;;
        _ <== appendAuditEventTx
                (chart_event "chart.delete" (ch_ProjectID before) (ch_ID before)
                   (chartAuditJSON before) "" "" "") ;;
        dtx_ret ()
    end).

End operations.
