(* ===== verification/Projects.v ===== *)
(** * The project row of a file (db/project.go)

    Reading and writing the metadata of the project, the defaults of its columns
    and the lock on its reporting currency (CanonicalProjectCurrency of
    db/cost_control.go). *)

From S2P Require Import Prelude GoFloat GoStrings GoTime GoJson Money Wbs ProjectDb AuditChain Charts.

Local Open Scope Z_scope.
Local Open Scope gopm_scope.

(** ** Currencies *)

Definition supportedProjectCurrencies : list string :=
  ["AUD"; "CAD"; "CHF"; "EUR"; "GBP"; "JPY"; "USD"]%string.

Definition validCurrencyCode (code : string) : bool := bool_decide (code ∈ supportedProjectCurrencies).

Definition normaliseCurrencyCode (code : string) : string := ToUpper (TrimSpace code).

Definition CanonicalProjectCurrency (code : string) : option string :=
  let code := default_string (normaliseCurrencyCode code) "USD" in
  if validCurrencyCode code then Some code else None.

(** ** Rows *)

(** Both amounts of the budget, the minor units first where they are given. *)
Definition budget_minor (budget : f64) (minor : Z) : Z :=
  if (minor =? 0) && negb (budget ==. fzero) then MinorUnits (FromMajorFloat budget) else minor.

Definition with_budget (p : Project) (budget : f64) (minor : Z) : Project :=
  mkProject (pr_ID p) (pr_Name p) (pr_Description p) (pr_Status p) (pr_Phase p) (pr_StartDate p)
    (pr_EndDate p) budget minor (pr_CurrencyCode p) (pr_Owner p) (pr_Industry p)
    (pr_SubCategory p) (pr_Methodology p) (pr_CountryCode p) (pr_TimeZone p) (pr_CreatedAt p)
    (pr_UpdatedAt p).

Definition with_places (p : Project) (country currency zone : string) : Project :=
  mkProject (pr_ID p) (pr_Name p) (pr_Description p) (pr_Status p) (pr_Phase p) (pr_StartDate p)
    (pr_EndDate p) (pr_Budget p) (pr_BudgetMinorUnits p) currency (pr_Owner p) (pr_Industry p)
    (pr_SubCategory p) (pr_Methodology p) country zone (pr_CreatedAt p) (pr_UpdatedAt p).

Definition with_row (p : Project) (id created updated : string) : Project :=
  mkProject id (pr_Name p) (pr_Description p) (pr_Status p) (pr_Phase p) (pr_StartDate p)
    (pr_EndDate p) (pr_Budget p) (pr_BudgetMinorUnits p) (pr_CurrencyCode p) (pr_Owner p)
    (pr_Industry p) (pr_SubCategory p) (pr_Methodology p) (pr_CountryCode p) (pr_TimeZone p)
    created updated.

Definition normalizeProject (p : Project) : Project :=
  let p := with_places p (default_string (pr_CountryCode p) "US")
             (default_string (pr_CurrencyCode p) "USD")
             (default_string (pr_TimeZone p) "America/New_York") in
  if (pr_BudgetMinorUnits p =? 0) && negb (pr_Budget p ==. fzero)
  then with_budget p (pr_Budget p) (MinorUnits (FromMajorFloat (pr_Budget p)))
  else with_budget p (MajorFloat (mkAmount (pr_BudgetMinorUnits p))) (pr_BudgetMinorUnits p).

(** The minor units are left out when they are 0. *)
Definition project_fields (p : Project) : list (string * field) :=
  [("id", FString (pr_ID p)); ("name", FString (pr_Name p));
   ("description", FString (pr_Description p)); ("status", FString (pr_Status p));
   ("phase", FString (pr_Phase p)); ("start_date", FString (pr_StartDate p));
   ("end_date", FString (pr_EndDate p)); ("budget", FFloat (pr_Budget p))]%string
  ++ (if pr_BudgetMinorUnits p =? 0 then []
      else [("budget_minor_units"%string, FInt (pr_BudgetMinorUnits p))])
  ++ [("currency_code", FString (pr_CurrencyCode p)); ("owner", FString (pr_Owner p));
   ("industry", FString (pr_Industry p)); ("sub_category", FString (pr_SubCategory p));
   ("methodology", FString (pr_Methodology p)); ("country_code", FString (pr_CountryCode p));
   ("time_zone", FString (pr_TimeZone p)); ("created_at", FString (pr_CreatedAt p));
   ("updated_at", FString (pr_UpdatedAt p))]%string.

Definition projectAuditJSON (p : Project) : option string :=
  if is_nan (pr_Budget p) || is_inf (pr_Budget p) then None
  else Some (string_of (print_struct (project_fields p))).

(** ** Statements *)

Definition project_row (id : string) (d : ProjectDB) : option (Timed Project) :=
  snd <$> list_find (fun r => pr_ID (row r) = id) (project d).

Definition sql_project (id : string) (d : ProjectDB) : option (option Project) :=
  Some (row <$> project_row id d).

(** [ON CONFLICT(id) DO UPDATE]: the creation stays. *)
Definition updated_project (old : Timed Project) (p : Project) (now : Z) : Timed Project :=
  mkTimed (with_row p (pr_ID (row old)) (pr_CreatedAt (row old)) (pr_UpdatedAt p))
    (created_unixnano old) now.

Definition sql_upsert_project (p : Project) (now : Z) (d : ProjectDB) : option ProjectDB :=
  Some (set_project
    (if bool_decide (pr_ID p ∈ projects d)
     then (fun r => if String.eqb (pr_ID (row r)) (pr_ID p) then updated_project r p now else r) <$> project d
     else project d ++ [mkTimed p now now]) d).

(** Whether money in the project's currency has been recorded outside its row. *)
Definition entries_of (pid : string) (d : ProjectDB) : gmap string CostEntry :=
  filter (fun kv => ce_ProjectID kv.2 = pid) (cost_entries (costs d)).

Definition reserves_of (pid : string) (d : ProjectDB) : gmap string CostReserve :=
  filter (fun kv => cr_ProjectID kv.2 = pid /\ cr_AmountMinorUnits kv.2 <> 0) (cost_reserves (costs d)).

Definition snapshots_of (pid : string) (d : ProjectDB) : gmap string CostBaselineSnapshot :=
  filter (fun kv => cs_ProjectID kv.2 = pid) (cost_baseline_snapshots (costs d)).

(** ** Operations *)

Definition project_event (eventType id before after : string) : AuditEventInput :=
  mkInput id eventType "project" id before after "" "" "" "".

(** The values [UpsertProject] completes before it opens the transaction. *)
Definition completed (p : Project) (currency : string) : Project :=
  let p := with_places p (default_string (pr_CountryCode p) "US") currency
             (default_string (pr_TimeZone p) "America/New_York") in
  let minor := budget_minor (pr_Budget p) (pr_BudgetMinorUnits p) in
  with_budget p (MajorFloat (mkAmount minor)) minor.

Section operations.
Context `{DbEnv}.

Definition getProjectByIDTx (id : string) : DbTx Project :=
  r <== dtx_query (sql_project id) ;;
  p <== dtx_of_option r ErrNoProject ;;
  dtx_ret (normalizeProject p).

(** In a migrated file, which has every column. *)
Definition GetProject : DbTx Project :=
  r <== dtx_query (fun d => Some (head (project d))) ;;
  t <== dtx_of_option r ErrNoProject ;;
  dtx_ret (normalizeProject (row t)).

Definition UpsertProject (p : Project) : DbTx Project :=
  id <== (if String.eqb (pr_ID p) "" then newID "prj" else dtx_ret (pr_ID p)) ;;
  currencyCode <== dtx_of_option (CanonicalProjectCurrency (pr_CurrencyCode p)) ErrUnsupportedCurrency ;;
  let p := completed p currencyCode in
  now <== captureTimestamp ;;
  in_tx (
    found <== dtx_catch (getProjectByIDTx id) ;;
    before <== match found with
               | Err ErrNoProject => dtx_ret None
               | Err e => dtx_fail e
               | Ok b => dtx_ret (Some b)
               end ;;
    _ <== match before with
          | Some b =>
              if String.eqb (pr_CurrencyCode b) currencyCode then dtx_ret ()
              else
                count <== dtx_query (fun d => Some (size (entries_of id d))) ;;
                reserveCount <== dtx_query (fun d => Some (size (reserves_of id d))) ;;
                baselineCount <== dtx_query (fun d => Some (size (snapshots_of id d))) ;;
                dtx_guard ((count =? 0)%nat && (reserveCount =? 0)%nat && (baselineCount =? 0)%nat
                           && (pr_BudgetMinorUnits b =? 0)) ErrCurrencyLocked
          | None => dtx_ret ()
          end ;;
    _ <== dtx_exec (sql_upsert_project (with_row p id now.1 now.1) now.2) ;;
    after <== getProjectByIDTx id ;;
    afterJSON <== dtx_of_option (projectAuditJSON after) ErrNotEncodable ;;
    beforeJSON <== match before with
                   | Some b => dtx_of_option (projectAuditJSON b) ErrNotEncodable
                   | None => dtx_ret ""%string
                   end ;;
    _ <== appendAuditEventTx
            (project_event (match before with Some _ => "project.update" | None => "project.create" end)
               (pr_ID after) beforeJSON afterJSON) ;;
    dtx_ret after).

End operations.
