(* ===== verification/Documents.v ===== *)
(** * Documents of a project file (db/documents.go)

    Saving, reading, listing and deleting documents, with their audit events and
    the checkpoint of an approval, in a file whose tables are migrated. *)

From S2P Require Import Prelude GoStrings GoTime GoJson Wbs ProjectDb AuditChain Charts.

Local Open Scope Z_scope.

Definition document_fields (d : Document) : list (string * field) :=
  [("id", FString (doc_ID d)); ("project_id", FString (doc_ProjectID d)); ("kind", FString (doc_Kind d));
   ("title", FString (doc_Title d)); ("content", FString (doc_Content d));
   ("template_id", FString (doc_TemplateID d)); ("version", FInt (doc_Version d));
   ("status", FString (doc_Status d)); ("created_at", FString (doc_CreatedAt d));
   ("updated_at", FString (doc_UpdatedAt d))]%string.

Definition documentAuditJSON (d : Document) : string := string_of (print_struct (document_fields d)).

(** ** Statements *)

Definition document_row (id : string) (f : ProjectDB) : option Document :=
  row <$> documents (plans f) !! id.

Definition sql_document (id : string) (f : ProjectDB) : option (option Document) :=
  Some (document_row id f).

(** [ON CONFLICT(id) DO UPDATE]: the project and the creation stay, the version
    grows by one; SQLite's sum leaves the integers when it overflows, and the row
    can then not be read. *)
Definition updated_document (old d : Document) : Document :=
  mkDocument (doc_ID old) (doc_ProjectID old) (doc_Kind d) (doc_Title d) (doc_Content d)
    (doc_TemplateID d) (doc_Version old + 1) (doc_Status d) (doc_CreatedAt old) (doc_UpdatedAt d).

Definition sql_upsert_document (d : Document) (now : Z) (f : ProjectDB) : option ProjectDB :=
  match documents (plans f) !! doc_ID d with
  | None =>
      if bool_decide (doc_ProjectID d ∈ projects f)
      then Some (set_documents (<[doc_ID d := mkTimed d now now]> (documents (plans f))) f)
      else None
  | Some old =>
      let new := updated_document (row old) d in
      if in_int64 (doc_Version new)
      then Some (set_documents (<[doc_ID d := mkTimed new (created_unixnano old) now]> (documents (plans f))) f)
      else None
  end.

Definition sql_delete_document (id : string) (f : ProjectDB) : option ProjectDB :=
  Some (set_documents (delete id (documents (plans f))) f).

Definition newer_document (a b : Timed Document) : Prop := updated_unixnano b <= updated_unixnano a.

#[export] Instance newer_document_dec a b : Decision (newer_document a b).
Proof. unfold newer_document. apply _. Defined.

Definition listed_document (projectID kind : string) (r : Timed Document) : Prop :=
  doc_ProjectID (row r) = projectID /\ (kind = ""%string \/ doc_Kind (row r) = kind).

#[export] Instance listed_document_dec p k r : Decision (listed_document p k r).
Proof. unfold listed_document. apply _. Defined.

(** ** Operations *)

Definition document_event (eventType : string) (d : Document) (before after : string) : AuditEventInput :=
  mkInput (doc_ProjectID d) eventType "document" (doc_ID d) before after "" "" "" "".

Section operations.
Context `{DbEnv}.

Definition getDocumentTx (id : string) : DbTx Document :=
  r <== dtx_query (sql_document id) ;; dtx_of_option r ErrNoDocument.

Definition GetDocument (id : string) : DbTx Document := getDocumentTx id.

Definition SaveDocument (d : Document) : DbTx Document :=
  id <== (if String.eqb (doc_ID d) "" then newID "doc" else dtx_ret (doc_ID d)) ;;
  let content := default_string (doc_Content d) "{}" in
  let status := default_string (doc_Status d) "draft" in
  let version := if doc_Version d =? 0 then 1 else doc_Version d in
  now <== captureTimestamp ;;
  in_tx (
    found <== dtx_catch (getDocumentTx id) ;;
    before <== match found with
               | Err ErrNoDocument => dtx_ret None
               | Err e => dtx_fail e
               | Ok b => dtx_ret (Some b)
               end ;;
    _ <== dtx_exec (sql_upsert_document
            (mkDocument id (doc_ProjectID d) (doc_Kind d) (doc_Title d) content (doc_TemplateID d)
               version status now.1 now.1) now.2) ;;
    after <== getDocumentTx id ;;
    let afterJSON := documentAuditJSON after in
    _ <== appendAuditEventTx
            (document_event (match before with Some _ => "document.update" | None => "document.create" end)
               after (match before with Some b => documentAuditJSON b | None => "" end) afterJSON) ;;
    _ <== (if String.eqb (doc_Status after) "approved"
              && match before with Some b => negb (String.eqb (doc_Status b) "approved") | None => true end
           then
             _ <== appendApprovalCheckpointTx (doc_ProjectID after) "document" (doc_ID after)
                     "document_status_approved" afterJSON ;;
             dtx_ret ()
           else dtx_ret ()) ;;
    dtx_ret after).

(** In a migrated file, which has the numeric columns. *)
Definition ListDocuments (projectID kind : string) : DbTx (list Document) :=
  rows <== dtx_rows (fun f =>
             Some (filter (listed_document projectID kind) (snd <$> map_to_list (documents (plans f))))) ;;
  dtx_ret (row <$> merge_sort newer_document rows).

Definition DeleteDocument (id : string) : DbTx unit :=
  in_tx (
    found <== dtx_catch (getDocumentTx id) ;;
    match found with
    | Err ErrNoDocument => dtx_ret ()
    | Err e => dtx_fail e
    | Ok before =>
        _ <== dtx_exec (sql_delete_document id) ;;
        _ <== appendAuditEventTx (document_event "document.delete" before (documentAuditJSON before) "") ;;
        dtx_ret ()
    end).

End operations.
