(* ===== verification/Baselines.v ===== *)
(** * Schedule baselines of a project file (db/baselines.go)

    Saving, reading, listing and deleting the snapshots of a chart's schedule. *)

From S2P Require Import Prelude GoStrings GoTime GoJson Wbs ProjectDb AuditChain Charts.

Local Open Scope Z_scope.

Definition baseline_fields (b : Baseline) : list (string * field) :=
  [("id", FString (bl_ID b)); ("project_id", FString (bl_ProjectID b));
   ("chart_id", FString (bl_ChartID b)); ("name", FString (bl_Name b)); ("data", FString (bl_Data b));
   ("created_at", FString (RFC3339Nano (bl_CreatedAt b)))]%string.

Definition baselineAuditJSON (b : Baseline) : string := string_of (print_struct (baseline_fields b)).

(** ** Statements *)

Definition sql_baseline (id : string) (d : ProjectDB) : option (option Baseline) :=
  Some (baselines d !! id).

(** The key is new; the project and the chart exist. *)
Definition sql_insert_baseline (b : Baseline) (d : ProjectDB) : option ProjectDB :=
  match baselines d !! bl_ID b with
  | Some _ => None
  | None =>
      if bool_decide (bl_ProjectID b ∈ projects d) && bool_decide (is_Some (charts d !! bl_ChartID b))
      then Some (set_baselines (<[bl_ID b := b]> (baselines d)) d)
      else None
  end.

Definition sql_delete_baseline (id : string) (d : ProjectDB) : option ProjectDB :=
  Some (set_baselines (delete id (baselines d)) d).

Definition newer_baseline (a b : Baseline) : Prop := bl_CreatedAt b <= bl_CreatedAt a.

#[export] Instance newer_baseline_dec a b : Decision (newer_baseline a b).
Proof. unfold newer_baseline. apply _. Defined.

(** The scenarios that name a baseline as their source. *)
Definition scenarios_from (id : string) (d : ProjectDB) : list Scenario :=
  filter (fun s => sc_SourceBaselineID s = id) (row ∘ snd <$> map_to_list (scenarios (plans d))).

(** [ORDER BY name LIMIT 1]. *)
Definition sql_using_scenario (id : string) (d : ProjectDB) : option (option string) :=
  Some (head (merge_sort String.le (sc_Name <$> scenarios_from id d))).

(** ** Operations *)

Definition baseline_event (eventType : string) (b : Baseline) (before after : string) : AuditEventInput :=
  mkInput (bl_ProjectID b) eventType "baseline" (bl_ID b) before after "" "" "" "".

Section operations.
Context `{DbEnv}.

(** [scanBaseline] reports every error as a missing baseline. *)
Definition getBaselineTx (id : string) : DbTx Baseline :=
  r <== dtx_catch (dtx_query (sql_baseline id)) ;;
  match r with
  | Ok (Some b) => dtx_ret b
  | Ok None | Err _ => dtx_fail ErrNoBaseline
  end.

Definition GetBaseline (id : string) : DbTx Baseline := getBaselineTx id.

Definition ListBaselines (chartID : string) : DbTx (list Baseline) :=
  rows <== dtx_rows (fun d =>
             Some (filter (fun b => bl_ChartID b = chartID) (snd <$> map_to_list (baselines d)))) ;;
  dtx_ret (merge_sort newer_baseline rows).

Definition saveBaselineTx (b : Baseline) : DbTx (Baseline * string) :=
  id <== (if String.eqb (bl_ID b) "" then newID "baseline" else dtx_ret (bl_ID b)) ;;
  let data := default_string (bl_Data b) "{}" in
  now <== captureTimestamp ;;
  _ <== dtx_exec (sql_insert_baseline
          (mkBaseline id (bl_ProjectID b) (bl_ChartID b) (bl_Name b) data now.2)) ;;
  saved <== getBaselineTx id ;;
  let afterJSON := baselineAuditJSON saved in
  _ <== appendAuditEventTx (baseline_event "baseline.create" saved "" afterJSON) ;;
  dtx_ret (saved, afterJSON).

Definition SaveBaseline (b : Baseline) : DbTx Baseline :=
  in_tx (saved <== saveBaselineTx b ;; dtx_ret saved.1).

Definition DeleteBaseline (id : string) : DbTx unit :=
  in_tx (
    found <== dtx_catch (getBaselineTx id) ;;
    match found with
    | Err ErrNoBaseline => dtx_ret ()
    | Err e => dtx_fail e
    | Ok before =>
        scenario <== dtx_query (sql_using_scenario id) ;;
        _ <== match scenario with
              | Some name => dtx_fail (ErrBaselineInUse name)
              | None => dtx_ret ()
              end ;;
        _ <== dtx_exec (sql_delete_baseline id) ;;
        _ <== appendAuditEventTx (baseline_event "baseline.delete" before (baselineAuditJSON before) "") ;;
        dtx_ret ()
    end).

End operations.
