(* ===== verification/Scenarios.v ===== *)
(** * What-if scenarios of a project file (db/scenarios.go)

    Scenarios, at most one of them active in a project, and the isolated copies of
    charts they own: branching a chart, editing the copy, promoting it to a
    baseline of its source. *)

From S2P Require Import Prelude GoStrings GoTime GoJson Wbs ProjectDb AuditChain Charts Baselines.

Local Open Scope Z_scope.

Definition scenario_fields (s : Scenario) : list (string * field) :=
  [("id", FString (sc_ID s)); ("project_id", FString (sc_ProjectID s)); ("name", FString (sc_Name s));
   ("source_baseline_id", FString (sc_SourceBaselineID s));
   ("description", FString (sc_Description s)); ("is_active", FBool (sc_IsActive s));
   ("created_at", FString (sc_CreatedAt s)); ("updated_at", FString (sc_UpdatedAt s))]%string.

Definition scenarioAuditJSON (s : Scenario) : string := string_of (print_struct (scenario_fields s)).

Definition scenario_chart_fields (c : ScenarioChart) : list (string * field) :=
  [("id", FString (scc_ID c)); ("scenario_id", FString (scc_ScenarioID c));
   ("project_id", FString (scc_ProjectID c)); ("source_chart_id", FString (scc_SourceChartID c));
   ("source_baseline_id", FString (scc_SourceBaselineID c)); ("kind", FString (scc_Kind c));
   ("title", FString (scc_Title c)); ("data", FString (scc_Data c)); ("config", FString (scc_Config c));
   ("baseline_data", FString (scc_BaselineData c)); ("created_at", FString (scc_CreatedAt c));
   ("updated_at", FString (scc_UpdatedAt c))]%string.

Definition scenarioChartAuditJSON (c : ScenarioChart) : string :=
  string_of (print_struct (scenario_chart_fields c)).

(** ** Statements on scenarios *)

Definition sql_scenario (id : string) (d : ProjectDB) : option (option Scenario) :=
  Some (row <$> scenarios (plans d) !! id).

(** The active scenarios of a project but one. *)
Definition active_except (projectID exceptID : string) (kv : string * Timed Scenario) : Prop :=
  sc_ProjectID (row kv.2) = projectID /\ kv.1 <> exceptID /\ sc_IsActive (row kv.2) = true.

#[export] Instance active_except_dec p e kv : Decision (active_except p e kv).
Proof. unfold active_except. apply _. Defined.

Definition sql_active_except (projectID exceptID : string) (d : ProjectDB) : option (list (Timed Scenario)) :=
  Some (map_to_list (filter (active_except projectID exceptID) (scenarios (plans d)))).*2.

Definition older_scenario (a b : Timed Scenario) : Prop := created_unixnano a <= created_unixnano b.

#[export] Instance older_scenario_dec a b : Decision (older_scenario a b).
Proof. unfold older_scenario. apply _. Defined.

(** [SET is_active = 0] with the time of the change. *)
Definition deactivate (text : string) (now : Z) (r : Timed Scenario) : Timed Scenario :=
  let s := row r in
  mkTimed (mkScenario (sc_ID s) (sc_ProjectID s) (sc_Name s) (sc_SourceBaselineID s)
             (sc_Description s) false (sc_CreatedAt s) text) (created_unixnano r) now.

Definition sql_deactivate (text : string) (now : Z) (projectID exceptID : string) (d : ProjectDB)
    : option ProjectDB :=
  Some (set_scenarios
    (map_imap (fun id r => Some (if bool_decide (active_except projectID exceptID (id, r))
                                 then deactivate text now r else r)) (scenarios (plans d))) d).

(** [ON CONFLICT(id) DO UPDATE]: the creation stays. *)
Definition updated_scenario (old s : Scenario) : Scenario :=
  mkScenario (sc_ID old) (sc_ProjectID s) (sc_Name s) (sc_SourceBaselineID s) (sc_Description s)
    (sc_IsActive s) (sc_CreatedAt old) (sc_UpdatedAt s).

(** The project exists, and the index [idx_scenarios_one_active] admits one active
    scenario of each. *)
Definition sql_upsert_scenario (s : Scenario) (now : Z) (d : ProjectDB) : option ProjectDB :=
  let new := match scenarios (plans d) !! sc_ID s with
             | None => mkTimed s now now
             | Some old => mkTimed (updated_scenario (row old) s) (created_unixnano old) now
             end in
  if bool_decide (sc_ProjectID s ∈ projects d)
     && (negb (sc_IsActive s)
         || bool_decide (filter (active_except (sc_ProjectID s) (sc_ID s)) (scenarios (plans d)) = ∅))
  then Some (set_scenarios (<[sc_ID s := new]> (scenarios (plans d))) d)
  else None.

(** The copies of charts go with their scenario. *)
Definition sql_delete_scenario (id : string) (d : ProjectDB) : option ProjectDB :=
  Some (set_scenario_charts (filter (fun kv => scc_ScenarioID (row kv.2) <> id) (scenario_charts (plans d)))
          (set_scenarios (delete id (scenarios (plans d))) d)).

(** Active first, then the newest, then by name. *)
Definition scenario_order (a b : Timed Scenario) : Prop :=
  (sc_IsActive (row a) = true /\ sc_IsActive (row b) = false)
  \/ (sc_IsActive (row a) = sc_IsActive (row b)
      /\ (created_unixnano b < created_unixnano a
          \/ (created_unixnano a = created_unixnano b /\ String.le (sc_Name (row a)) (sc_Name (row b))))).

#[export] Instance scenario_order_dec a b : Decision (scenario_order a b).
Proof. unfold scenario_order. apply _. Defined.

(** ** Statements on the copies of charts *)

Definition sql_scenario_chart (id : string) (d : ProjectDB) : option (option ScenarioChart) :=
  Some (row <$> scenario_charts (plans d) !! id).

Definition sql_insert_scenario_chart (c : ScenarioChart) (now : Z) (d : ProjectDB) : option ProjectDB :=
  match scenario_charts (plans d) !! scc_ID c with
  | Some _ => None
  | None =>
      if bool_decide (is_Some (scenarios (plans d) !! scc_ScenarioID c))
         && bool_decide (scc_ProjectID c ∈ projects d)
      then Some (set_scenario_charts (<[scc_ID c := mkTimed c now now]> (scenario_charts (plans d))) d)
      else None
  end.

Definition edited_chart (title data config updated : string) (c : ScenarioChart) : ScenarioChart :=
  mkScenarioChart (scc_ID c) (scc_ScenarioID c) (scc_ProjectID c) (scc_SourceChartID c)
    (scc_SourceBaselineID c) (scc_Kind c) title data config (scc_BaselineData c) (scc_CreatedAt c) updated.

Definition sql_update_scenario_chart (title data config text : string) (now : Z) (id : string) (d : ProjectDB)
    : option ProjectDB :=
  Some (set_scenario_charts
    (alter (fun r => mkTimed (edited_chart title data config text (row r)) (created_unixnano r) now) id
       (scenario_charts (plans d))) d).

(** The last change first, then by title. *)
Definition scenario_chart_order (a b : Timed ScenarioChart) : Prop :=
  updated_unixnano b < updated_unixnano a
  \/ (updated_unixnano a = updated_unixnano b /\ String.le (scc_Title (row a)) (scc_Title (row b))).

#[export] Instance scenario_chart_order_dec a b : Decision (scenario_chart_order a b).
Proof. unfold scenario_chart_order. apply _. Defined.

(** ** Operations *)

Definition scenario_event (eventType : string) (s : Scenario) (before after : string) : AuditEventInput :=
  mkInput (sc_ProjectID s) eventType "scenario" (sc_ID s) before after "" "" "" "".

Definition scenario_chart_event (eventType : string) (c : ScenarioChart) (before after : string)
    : AuditEventInput :=
  mkInput (scc_ProjectID c) eventType "scenario_chart" (scc_ID c) before after "" "" "" "".

Section operations.
Context `{DbEnv}.

Definition getScenarioTx (id : string) : DbTx Scenario :=
  r <== dtx_query (sql_scenario id) ;; dtx_of_option r ErrNoScenario.

Definition GetScenario (id : string) : DbTx Scenario := getScenarioTx id.

Definition listActiveScenariosExceptTx (projectID exceptID : string) : DbTx (list Scenario) :=
  rows <== dtx_rows (sql_active_except projectID exceptID) ;;
  dtx_ret (row <$> merge_sort older_scenario rows).

(** The events of the scenarios that another one replaces as the active one. *)
Fixpoint audit_deactivated (l : list Scenario) : DbTx unit :=
  match l with
  | [] => dtx_ret ()
  | changed :: l' =>
      deactivatedAfter <== getScenarioTx (sc_ID changed) ;;
      _ <== appendAuditEventTx
              (scenario_event "scenario.update" deactivatedAfter (scenarioAuditJSON changed)
                 (scenarioAuditJSON deactivatedAfter)) ;;
      audit_deactivated l'
  end.

(** The loop over the deactivated scenarios declares an error of its own: the
    deferred function does not see it, and the transaction stays open. *)
Definition SaveScenario (s : Scenario) : DbTx Scenario :=
  _ <== dtx_guard (negb (String.eqb (sc_ProjectID s) "")) ErrScenarioProjectRequired ;;
  _ <== dtx_guard (negb (String.eqb (sc_Name s) "")) ErrScenarioNameRequired ;;
  id <== (if String.eqb (sc_ID s) "" then newID "scn" else dtx_ret (sc_ID s)) ;;
  now <== captureTimestamp ;;
  run_tx ErrDbCommit (
    found <== dtx_catch (getScenarioTx id) ;;
    before <== match found with
               | Err ErrNoScenario => dtx_ret None
               | Err e => dtx_fail e
               | Ok b => dtx_ret (Some b)
               end ;;
    deactivated <== (if sc_IsActive s then
                       l <== listActiveScenariosExceptTx (sc_ProjectID s) id ;;
                       _ <== dtx_exec (sql_deactivate now.1 now.2 (sc_ProjectID s) id) ;;
                       dtx_ret l
                     else dtx_ret []) ;;
    _ <== dtx_exec (sql_upsert_scenario
            (mkScenario id (sc_ProjectID s) (sc_Name s) (sc_SourceBaselineID s) (sc_Description s)
               (sc_IsActive s) now.1 now.1) now.2) ;;
    after <== getScenarioTx id ;;
    audited <== dtx_catch (audit_deactivated deactivated) ;;
    match audited with
    | Err e => dtx_ret (Leave e true)
    | Ok _ =>
        _ <== appendAuditEventTx
                (scenario_event (match before with Some _ => "scenario.update" | None => "scenario.create" end)
                   after (match before with Some b => scenarioAuditJSON b | None => "" end)
                   (scenarioAuditJSON after)) ;;
        dtx_ret (Commit after)
    end).

Definition ListScenarios (projectID : string) : DbTx (list Scenario) :=
  rows <== dtx_rows (fun d =>
             Some (filter (fun r => sc_ProjectID (row r) = projectID) (map_to_list (scenarios (plans d))).*2)) ;;
  dtx_ret (row <$> merge_sort scenario_order rows).

Definition DeleteScenario (id : string) : DbTx unit :=
  in_tx (
    found <== dtx_catch (getScenarioTx id) ;;
    match found with
    | Err ErrNoScenario => dtx_ret ()
    | Err e => dtx_fail e
    | Ok before =>
        _ <== dtx_exec (sql_delete_scenario id) ;;
        _ <== appendAuditEventTx (scenario_event "scenario.delete" before (scenarioAuditJSON before) "") ;;
        dtx_ret ()
    end).

Definition getScenarioChartTx (id : string) : DbTx ScenarioChart :=
  r <== dtx_query (sql_scenario_chart id) ;; dtx_of_option r ErrNoScenarioChart.

Definition GetScenarioChart (id : string) : DbTx ScenarioChart := getScenarioChartTx id.

(** The baseline a branch starts from: its identifier and its data. *)
Definition source_baseline (scenario : Scenario) (chart : Chart) (baselineID : string)
    : DbTx (string * string) :=
  let baselineID := default_string baselineID (sc_SourceBaselineID scenario) in
  if String.eqb baselineID "" then dtx_ret (baselineID, "{}"%string)
  else
    baseline <== GetBaseline baselineID ;;
    _ <== dtx_guard (String.eqb (bl_ProjectID baseline) (sc_ProjectID scenario)) ErrBaselineOutsideProject ;;
    _ <== dtx_guard (String.eqb (bl_ChartID baseline) (ch_ID chart)) ErrBaselineOfOtherChart ;;
    dtx_ret (baselineID, bl_Data baseline).

(** No other connection writes between the reads and the transaction. *)
Definition BranchScenarioChart (scenarioID chartID baselineID : string) : DbTx ScenarioChart :=
  scenario <== GetScenario scenarioID ;;
  chart <== GetChart chartID ;;
  _ <== dtx_guard (String.eqb (ch_ProjectID chart) (sc_ProjectID scenario)) ErrChartOutsideProject ;;
  source <== source_baseline scenario chart baselineID ;;
  id <== newID "schart" ;;
  now <== captureTimestamp ;;
  in_tx (
    _ <== dtx_exec (sql_insert_scenario_chart
            (mkScenarioChart id (sc_ID scenario) (sc_ProjectID scenario) (ch_ID chart) source.1
               (ch_Kind chart) (ch_Title chart) (ch_Data chart) (ch_Config chart) source.2 now.1 now.1)
            now.2) ;;
    branched <== getScenarioChartTx id ;;
    _ <== appendAuditEventTx
            (scenario_chart_event "scenario_chart.create" branched "" (scenarioChartAuditJSON branched)) ;;
    dtx_ret branched).

Definition ListScenarioCharts (scenarioID : string) : DbTx (list ScenarioChart) :=
  rows <== dtx_rows (fun d =>
             Some (filter (fun r => scc_ScenarioID (row r) = scenarioID)
                     (map_to_list (scenario_charts (plans d))).*2)) ;;
  dtx_ret (row <$> merge_sort scenario_chart_order rows).

Definition SaveScenarioChart (c : ScenarioChart) : DbTx ScenarioChart :=
  _ <== dtx_guard (negb (String.eqb (scc_ID c) "")) ErrScenarioChartRequired ;;
  in_tx (
    existing <== getScenarioChartTx (scc_ID c) ;;
    let title := default_string (TrimSpace (scc_Title c)) (scc_Title existing) in
    let data := default_string (TrimSpace (scc_Data c)) "{}" in
    let config := default_string (TrimSpace (scc_Config c)) "{}" in
    now <== captureTimestamp ;;
    _ <== dtx_exec (sql_update_scenario_chart title data config now.1 now.2 (scc_ID c)) ;;
    saved <== getScenarioChartTx (scc_ID c) ;;
    _ <== appendAuditEventTx
            (scenario_chart_event "scenario_chart.update" saved (scenarioChartAuditJSON existing)
               (scenarioChartAuditJSON saved)) ;;
    dtx_ret saved).

(** The error of a source chart in another project is returned without being the
    one the deferred function looks at: the transaction stays open, but it has
    only read. *)
Definition PromoteScenarioChartToBaseline (scenarioChartID name : string) : DbTx Baseline :=
  let name := TrimSpace name in
  _ <== dtx_guard (negb (String.eqb name "")) ErrPromotionName ;;
  run_tx ErrDbCommit (
    scenarioChart <== getScenarioChartTx scenarioChartID ;;
    sourceChart <== getChartTx (scc_SourceChartID scenarioChart) ;;
    if negb (String.eqb (ch_ProjectID sourceChart) (scc_ProjectID scenarioChart))
    then dtx_ret (Leave ErrPromotionOutsideProject false)
    else
      saved <== saveBaselineTx (mkBaseline "" (scc_ProjectID scenarioChart) (scc_SourceChartID scenarioChart)
                                  name (scc_Data scenarioChart) 0) ;;
      _ <== appendApprovalCheckpointTx (bl_ProjectID saved.1) "baseline" (bl_ID saved.1)
              "scenario_promoted_to_baseline" saved.2 ;;
      dtx_ret (Commit saved.1)).

End operations.
