(* ===== verification/CostControl.v ===== *)
(** * Cost control of a project (db/cost_control.go)

    Cost types, the ledger of cost entries, reserves and approved cost baselines,
    in a file whose tables are migrated. *)

From S2P Require Import Prelude GoFloat GoStrings GoTime GoJson SqliteLike Money Wbs ProjectDb AuditChain Charts.

Local Open Scope Z_scope.

(** ** JSON *)

Definition cost_type_fields (c : CostType) : list (string * field) :=
  [("id", FString (ct_ID c)); ("project_id", FString (ct_ProjectID c)); ("code", FString (ct_Code c));
   ("name", FString (ct_Name c)); ("attribution", FString (ct_Attribution c));
   ("behavior", FString (ct_Behavior c)); ("treatment", FString (ct_Treatment c));
   ("active", FBool (ct_Active c))]%string.

Definition cost_entry_fields (e : CostEntry) : list (string * field) :=
  [("id", FString (ce_ID e)); ("project_id", FString (ce_ProjectID e));
   ("cost_type_id", FString (ce_CostTypeID e)); ("kind", FString (ce_Kind e));
   ("cost_date", FString (ce_CostDate e)); ("description", FString (ce_Description e));
   ("amount_minor_units", FInt (ce_AmountMinorUnits e));
   ("quantity_milli_units", FInt (ce_QuantityMilliUnits e)); ("unit", FString (ce_Unit e));
   ("item_name", FString (ce_ItemName e)); ("sku", FString (ce_SKU e));
   ("supplier_name", FString (ce_SupplierName e));
   ("invoice_reference", FString (ce_InvoiceReference e)); ("created_at", FString (ce_CreatedAt e));
   ("updated_at", FString (ce_UpdatedAt e))]%string.

Definition cost_reserve_fields (r : CostReserve) : list (string * field) :=
  [("id", FString (cr_ID r)); ("project_id", FString (cr_ProjectID r)); ("kind", FString (cr_Kind r));
   ("amount_minor_units", FInt (cr_AmountMinorUnits r));
   ("description", FString (cr_Description r))]%string.

Definition snapshot_fields (s : CostBaselineSnapshot) : list (string * field) :=
  [("id", FString (cs_ID s)); ("project_id", FString (cs_ProjectID s)); ("version", FInt (cs_Version s));
   ("currency_code", FString (cs_CurrencyCode s));
   ("planned_minor_units", FInt (cs_PlannedMinorUnits s));
   ("contingency_minor_units", FInt (cs_ContingencyMinorUnits s));
   ("management_reserve_minor_units", FInt (cs_ManagementReserveMinorUnits s));
   ("approved_by", FString (cs_ApprovedBy s)); ("approval_note", FString (cs_ApprovalNote s));
   ("approved_at", FString (cs_ApprovedAt s))]%string.

Definition json_text (l : list (string * field)) : string := string_of (print_struct l).

(** ** Cost types *)

Definition seed (code name attribution behavior treatment : string) : CostType :=
  mkCostType "" "" code name attribution behavior treatment false.

Definition seeds : list CostType :=
  [seed "labor" "Labor & human resources" "direct" "variable" "opex";
   seed "materials" "Materials & equipment" "direct" "variable" "opex";
   seed "software" "Software & technology" "direct" "fixed" "opex";
   seed "travel" "Travel & on-site" "direct" "variable" "opex";
   seed "facilities" "Facilities & utilities" "indirect" "fixed" "opex";
   seed "shared_support" "Administrative & shared support" "indirect" "fixed" "opex";
   seed "quality" "Quality, compliance & training" "direct" "variable" "opex";
   seed "capital" "Capital equipment & licensing" "direct" "fixed" "capex"].

Definition types_of (pid : string) (d : ProjectDB) : gmap string CostType :=
  filter (fun kv => ct_ProjectID kv.2 = pid) (cost_types (costs d)).

(** [ON CONFLICT(project_id, code) DO NOTHING]; the key is new and the project
    exists. *)
Definition sql_seed_type (id pid : string) (s : CostType) (d : ProjectDB) : option ProjectDB :=
  if bool_decide (map_Exists (fun _ c => ct_Code c = ct_Code s) (types_of pid d)) then Some d
  else match cost_types (costs d) !! id with
       | Some _ => None
       | None =>
           if bool_decide (pid ∈ projects d)
           then Some (set_cost_types
                  (<[id := mkCostType id pid (ct_Code s) (ct_Name s) (ct_Attribution s) (ct_Behavior s)
                             (ct_Treatment s) true]> (cost_types (costs d))) d)
           else None
       end.

Definition type_order (a b : CostType) : Prop := String.le (ct_Code a) (ct_Code b).

#[export] Instance type_order_dec a b : Decision (type_order a b).
Proof. unfold type_order. apply _. Defined.

(** ** The ledger *)

Definition maxLedgerFieldLength : Z := 200.
Definition maxQuantityMajorUnits : Z := 999999999.
Definition maxQuantityMilliUnits : Z := maxQuantityMajorUnits * 1000.
Definition maxSearchLength : Z := 200.
Definition maxSearchResults : nat := 200.

Definition go_len (s : string) : Z := Z.of_nat (String.length s).

Definition ledgerFieldTooLong (values : list string) : bool :=
  existsb (fun v => maxLedgerFieldLength <? go_len v) values.

Definition trimmed_entry (e : CostEntry) : CostEntry :=
  mkCostEntry (ce_ID e) (ce_ProjectID e) (ce_CostTypeID e) (ce_Kind e) (ce_CostDate e)
    (ce_Description e) (ce_AmountMinorUnits e) (ce_QuantityMilliUnits e) (TrimSpace (ce_Unit e))
    (TrimSpace (ce_ItemName e)) (TrimSpace (ce_SKU e)) (TrimSpace (ce_SupplierName e))
    (TrimSpace (ce_InvoiceReference e)) (ce_CreatedAt e) (ce_UpdatedAt e).

Definition validateCostEntryProcurementDetail (entry : CostEntry) : result DbError CostEntry :=
  let e := trimmed_entry entry in
  if ledgerFieldTooLong [ce_Unit e; ce_ItemName e; ce_SKU e; ce_SupplierName e; ce_InvoiceReference e]
  then Err ErrCostFieldLength
  else if (ce_QuantityMilliUnits e <? 0) || (maxQuantityMilliUnits <? ce_QuantityMilliUnits e)
  then Err ErrCostQuantityRange
  else if (0 <? ce_QuantityMilliUnits e) && String.eqb (ce_Unit e) ""
  then Err ErrCostQuantityUnit
  else Ok e.

Definition cost_kinds : list string := ["planned"; "commitment"; "actual"]%string.

(** The checks of [SaveCostEntry] before its transaction, in their order. *)
Definition check_entry (e : CostEntry) : result DbError CostEntry :=
  if String.eqb (ce_ProjectID e) "" || String.eqb (ce_CostTypeID e) ""
     || String.eqb (ce_Description e) "" || String.eqb (ce_CostDate e) ""
  then Err ErrCostFieldsRequired
  else if ce_AmountMinorUnits e =? 0 then Err ErrCostAmountZero
  else if negb (bool_decide (ce_Kind e ∈ cost_kinds)) then Err ErrCostKind
  else match ParseDate (ce_CostDate e) with
       | None => Err ErrCostDate
       | Some _ => validateCostEntryProcurementDetail e
       end.

Definition dtx_of_result {A} (r : result DbError A) : DbTx A :=
  match r with
  | Ok a => dtx_ret a
  | Err e => dtx_fail e
  end.

Definition sql_type_active (id pid : string) (d : ProjectDB) : option (option bool) :=
  Some (ct_Active <$> types_of pid d !! id).

(** The key is new; the project and the cost type exist. *)
Definition sql_insert_entry (e : CostEntry) (d : ProjectDB) : option ProjectDB :=
  match cost_entries (costs d) !! ce_ID e with
  | Some _ => None
  | None =>
      if bool_decide (ce_ProjectID e ∈ projects d)
         && bool_decide (is_Some (cost_types (costs d) !! ce_CostTypeID e))
         && bool_decide (ce_Kind e ∈ cost_kinds)
      then Some (set_cost_entries (<[ce_ID e := e]> (cost_entries (costs d))) d)
      else None
  end.

Definition written_entry (e : CostEntry) (id text : string) : CostEntry :=
  mkCostEntry id (ce_ProjectID e) (ce_CostTypeID e) (ce_Kind e) (ce_CostDate e) (ce_Description e)
    (ce_AmountMinorUnits e) (ce_QuantityMilliUnits e) (ce_Unit e) (ce_ItemName e) (ce_SKU e)
    (ce_SupplierName e) (ce_InvoiceReference e) text text.

(** [ORDER BY cost_date DESC, created_at DESC]. *)
Definition entry_order (a b : CostEntry) : Prop :=
  (ce_CostDate a <> ce_CostDate b /\ String.le (ce_CostDate b) (ce_CostDate a))
  \/ (ce_CostDate a = ce_CostDate b /\ String.le (ce_CreatedAt b) (ce_CreatedAt a)).

#[export] Instance entry_order_dec a b : Decision (entry_order a b).
Proof. unfold entry_order. apply _. Defined.

Definition ledger_of (pid : string) (d : ProjectDB) : list CostEntry :=
  filter (fun e => ce_ProjectID e = pid) (map_to_list (cost_entries (costs d))).*2.

(** ** Searching the ledger *)

(** [strings.NewReplacer] on single bytes. *)
Definition escape_like (c : ascii) : list ascii :=
  if Ascii.eqb c "\" || Ascii.eqb c "%" || Ascii.eqb c "_" then ["\"%char; c] else [c].

Definition ledgerSearchNeedle (query : string) : string :=
  string_of ("%"%char :: flat_map escape_like (bytes_of query) ++ ["%"%char]).

Definition entry_matches (needle : string) (e : CostEntry) : bool :=
  Like (ce_Description e) needle || Like (ce_ItemName e) needle || Like (ce_SKU e) needle
  || Like (ce_SupplierName e) needle || Like (ce_InvoiceReference e) needle.

Example search_examples :
  Like "Steel, 50% off" (ledgerSearchNeedle "50%") = true
  /\ Like "Steel, 500" (ledgerSearchNeedle "50%") = false
  /\ Like "unit_price" (ledgerSearchNeedle "T_P") = true
  /\ Like "unit price" (ledgerSearchNeedle "t_p") = false.
Proof. vm_compute. done. Qed.

(** ** Quantities *)

Record CostQuantityAggregate : Type := mkAggregateRow {
  qa_ItemName : string;
  qa_Unit : string;
  qa_TotalQuantityMilliUnits : Z;
  qa_EntryCount : Z
}.

(** A row of the query: item, unit and quantity. *)
Definition quantity_row : Type := string * string * Z.

Definition quantity_rows (pid : string) (d : ProjectDB) : list quantity_row :=
  (fun e => (ce_ItemName e, ce_Unit e, ce_QuantityMilliUnits e)) <$>
  filter (fun e => ce_ItemName e <> ""%string /\ ce_Unit e <> ""%string /\ 0 < ce_QuantityMilliUnits e)
    (ledger_of pid d).

(** [ORDER BY item_name, unit]. *)
Definition quantity_order (a b : quantity_row) : Prop :=
  (a.1.1 <> b.1.1 /\ String.le a.1.1 b.1.1) \/ (a.1.1 = b.1.1 /\ String.le a.1.2 b.1.2).

#[export] Instance quantity_order_dec a b : Decision (quantity_order a b).
Proof. unfold quantity_order. apply _. Defined.

Record bucket : Type := mkBucket {
  bk_itemName : string;
  bk_unit : string;
  bk_total : Accumulator;
  bk_count : Z
}.

Definition bucket_key (item unit : string) : string :=
  (item +:+ String (byte_of 0) "" +:+ unit)%string.

(** The keys in the order of their first row, and the buckets. *)
Definition add_quantity (acc : list string * gmap string bucket) (r : quantity_row)
    : list string * gmap string bucket :=
  let key := bucket_key r.1.1 r.1.2 in
  let (order, b) :=
    match acc.2 !! key with
    | Some b => (acc.1, b)
    | None => (acc.1 ++ [key], mkBucket r.1.1 r.1.2 zero_Accumulator 0)
    end in
  (order, <[key := mkBucket (bk_itemName b) (bk_unit b) (Accumulator_Add (bk_total b) (mkAmount r.2))
                     (bk_count b + 1)]> acc.2).

(** The totals in order; [None] is a missing bucket, which would be a nil pointer. *)
Fixpoint aggregate_rows (order : list string) (byKey : gmap string bucket)
    : option (result DbError (list CostQuantityAggregate)) :=
  match order with
  | [] => Some (Ok [])
  | key :: order' =>
      b ← byKey !! key;
      match Accumulator_Amount (bk_total b) with
      | Err e => Some (Err (ErrCostMoney e))
      | Ok total =>
          rest ← aggregate_rows order' byKey;
          Some (match rest with
                | Ok l => Ok (mkAggregateRow (bk_itemName b) (bk_unit b) (MinorUnits total) (bk_count b) :: l)
                | Err e => Err e
                end)
      end
  end.

Definition aggregate_quantities (rows : list quantity_row) : option (result DbError (list CostQuantityAggregate)) :=
  let acc := foldl add_quantity ([], ∅) rows in aggregate_rows acc.1 acc.2.

(** ** Reserves and baselines *)

(** The row of a project and a kind, with its key. *)
Definition reserve_of (pid kind : string) (d : ProjectDB) : option (string * CostReserve) :=
  snd <$> list_find (fun kv => cr_ProjectID kv.2 = pid /\ cr_Kind kv.2 = kind)
            (map_to_list (cost_reserves (costs d))).

(** [ON CONFLICT(project_id, kind) DO UPDATE]: the id stays.  Otherwise the key is
    new and the project exists. *)
Definition sql_upsert_reserve (r : CostReserve) (d : ProjectDB) : option ProjectDB :=
  match reserve_of (cr_ProjectID r) (cr_Kind r) d with
  | Some (id, _) =>
      Some (set_cost_reserves
        (<[id := mkCostReserve id (cr_ProjectID r) (cr_Kind r) (cr_AmountMinorUnits r)
                          (cr_Description r)]> (cost_reserves (costs d))) d)
  | None =>
      match cost_reserves (costs d) !! cr_ID r with
      | Some _ => None
      | None =>
          if bool_decide (cr_ProjectID r ∈ projects d)
          then Some (set_cost_reserves (<[cr_ID r := r]> (cost_reserves (costs d))) d)
          else None
      end
  end.

Definition reserve_order (a b : CostReserve) : Prop := String.le (cr_Kind a) (cr_Kind b).

#[export] Instance reserve_order_dec a b : Decision (reserve_order a b).
Proof. unfold reserve_order. apply _. Defined.

Definition reserve_list (pid : string) (d : ProjectDB) : list CostReserve :=
  filter (fun r => cr_ProjectID r = pid) (map_to_list (cost_reserves (costs d))).*2.

(** [WHERE project_id=? AND kind='planned']. *)
Definition planned_amounts (pid : string) (d : ProjectDB) : list Z :=
  ce_AmountMinorUnits <$> filter (fun e => ce_Kind e = "planned"%string) (ledger_of pid d).

Definition sum_planned (l : list Z) : Accumulator :=
  foldl (fun a n => Accumulator_Add a (mkAmount n)) zero_Accumulator l.

(** The last reserve of each kind. *)
Definition reserve_amounts (l : list CostReserve) : Z * Z :=
  foldl (fun acc r =>
    if String.eqb (cr_Kind r) "contingency" then (cr_AmountMinorUnits r, acc.2)
    else if String.eqb (cr_Kind r) "management" then (acc.1, cr_AmountMinorUnits r)
    else acc) (0, 0) l.

Definition snapshot_list (pid : string) (d : ProjectDB) : list CostBaselineSnapshot :=
  filter (fun s => cs_ProjectID s = pid) (map_to_list (cost_baseline_snapshots (costs d))).*2.

(** [COALESCE(MAX(version),0)+1]; a sum that overflows is not an integer. *)
Definition sql_next_version (pid : string) (d : ProjectDB) : option Z :=
  let v := match cs_Version <$> snapshot_list pid d with
           | [] => 0
           | x :: l => foldr Z.max x l
           end + 1 in
  if in_int64 v then Some v else None.

(** The key and the version are new; the project exists. *)
Definition sql_insert_snapshot (s : CostBaselineSnapshot) (d : ProjectDB) : option ProjectDB :=
  match cost_baseline_snapshots (costs d) !! cs_ID s with
  | Some _ => None
  | None =>
      if bool_decide (cs_ProjectID s ∈ projects d)
         && negb (bool_decide (cs_Version s ∈ cs_Version <$> snapshot_list (cs_ProjectID s) d))
      then Some (set_cost_baseline_snapshots (<[cs_ID s := s]> (cost_baseline_snapshots (costs d))) d)
      else None
  end.

Definition snapshot_order (a b : CostBaselineSnapshot) : Prop := cs_Version b <= cs_Version a.

#[export] Instance snapshot_order_dec a b : Decision (snapshot_order a b).
Proof. unfold snapshot_order. apply _. Defined.

Definition project_currency (pid : string) (d : ProjectDB) : option string :=
  pr_CurrencyCode ∘ row ∘ snd <$> list_find (fun r => pr_ID (row r) = pid) (project d).

(** ** Operations *)

Definition cost_event (pid eventType entityType id after user : string) : AuditEventInput :=
  mkInput pid eventType entityType id "" after user "" "" "".

Section operations.
Context `{DbEnv}.

Fixpoint insert_seeds (pid : string) (l : list CostType) : DbTx unit :=
  match l with
  | [] => dtx_ret ()
  | s :: l' =>
      id <== newID "ctype" ;;
      _ <== dtx_exec (sql_seed_type id pid s) ;;
      insert_seeds pid l'
  end.

Definition EnsureCostTypes (projectID : string) : DbTx unit :=
  in_tx (
    existing <== dtx_query (fun d => Some (size (types_of projectID d))) ;;
    _ <== insert_seeds projectID seeds ;;
    if (existing =? 0)%nat then
      _ <== appendAuditEventTx
              (cost_event projectID "cost_type.seed" "cost_type" ""
                 (string_of (print_structs (cost_type_fields <$> seeds))) "") ;;
      dtx_ret ()
    else dtx_ret ()).

Definition ListCostTypes (projectID : string) : DbTx (list CostType) :=
  _ <== EnsureCostTypes projectID ;;
  rows <== dtx_rows (fun d => Some (map_to_list (types_of projectID d)).*2) ;;
  dtx_ret (merge_sort type_order rows).

Definition SaveCostEntry (entry : CostEntry) : DbTx CostEntry :=
  entry <== dtx_of_result (check_entry entry) ;;
  in_tx (
    active <== dtx_query (sql_type_active (ce_CostTypeID entry) (ce_ProjectID entry)) ;;
    active <== dtx_of_option active ErrNoCostType ;;
    _ <== dtx_guard active ErrCostTypeArchived ;;
    id <== (if String.eqb (ce_ID entry) "" then newID "cost" else dtx_ret (ce_ID entry)) ;;
    now <== captureTimestamp ;;
    let entry := written_entry entry id now.1 in
    _ <== dtx_exec (sql_insert_entry entry) ;;
    _ <== appendAuditEventTx
            (cost_event (ce_ProjectID entry) "cost_entry.create" "cost_entry" (ce_ID entry)
               (json_text (cost_entry_fields entry)) "") ;;
    dtx_ret entry).

Definition ListCostEntries (projectID : string) : DbTx (list CostEntry) :=
  rows <== dtx_rows (fun d => Some (ledger_of projectID d)) ;;
  dtx_ret (merge_sort entry_order rows).

Definition SearchCostEntries (projectID query : string) : DbTx (list CostEntry) :=
  let query := TrimSpace query in
  if String.eqb query "" then ListCostEntries projectID
  else
    _ <== dtx_guard (negb (maxSearchLength <? go_len query)) ErrCostSearchLength ;;
    let needle := ledgerSearchNeedle query in
    rows <== dtx_rows (fun d => Some (filter (fun e => entry_matches needle e = true) (ledger_of projectID d))) ;;
    dtx_ret (take maxSearchResults (merge_sort entry_order rows)).

(** The result is [None] where the code would follow a nil pointer. *)
Definition AggregateCostEntryQuantities (projectID : string)
    : DbTx (option (result DbError (list CostQuantityAggregate))) :=
  rows <== dtx_rows (fun d => Some (quantity_rows projectID d)) ;;
  dtx_ret (aggregate_quantities (merge_sort quantity_order rows)).

Definition ListCostReserves (projectID : string) : DbTx (list CostReserve) :=
  rows <== dtx_rows (fun d => Some (reserve_list projectID d)) ;;
  dtx_ret (merge_sort reserve_order rows).

Definition SaveCostReserve (r : CostReserve) : DbTx CostReserve :=
  _ <== dtx_guard (negb (String.eqb (cr_ProjectID r) ""
                         || negb (String.eqb (cr_Kind r) "contingency" || String.eqb (cr_Kind r) "management")
                         || (cr_AmountMinorUnits r <? 0) || String.eqb (TrimSpace (cr_Description r)) ""))
          ErrCostReserveInput ;;
  in_tx (
    existing <== dtx_query (fun d => Some (fst <$> reserve_of (cr_ProjectID r) (cr_Kind r) d)) ;;
    id <== match existing with
           | Some id => dtx_ret id
           | None => if String.eqb (cr_ID r) "" then newID "reserve" else dtx_ret (cr_ID r)
           end ;;
    now <== captureTimestamp ;;
    _ <== dtx_exec (sql_upsert_reserve
            (mkCostReserve id (cr_ProjectID r) (cr_Kind r) (cr_AmountMinorUnits r) (cr_Description r))) ;;
    id <== dtx_query (fun d => fst <$> reserve_of (cr_ProjectID r) (cr_Kind r) d) ;;
    let r := mkCostReserve id (cr_ProjectID r) (cr_Kind r) (cr_AmountMinorUnits r) (cr_Description r) in
    _ <== appendAuditEventTx
            (cost_event (cr_ProjectID r) "cost_reserve.save" "cost_reserve" (cr_ID r)
               (json_text (cost_reserve_fields r)) "") ;;
    dtx_ret r).

Definition dtx_of_money {A} (r : result MoneyError A) : DbTx A :=
  match r with
  | Ok a => dtx_ret a
  | Err e => dtx_fail (ErrCostMoney e)
  end.

(** Both loops over rows take those that arrive for all. *)
Definition ApproveCostBaseline (projectID actor note : string) : DbTx CostBaselineSnapshot :=
  _ <== dtx_guard (negb (String.eqb projectID "" || String.eqb (TrimSpace actor) ""
                         || String.eqb (TrimSpace note) "")) ErrCostApprovalFields ;;
  in_tx (
    currency <== dtx_query (project_currency projectID) ;;
    amounts <== dtx_rows_unchecked (fun d => Some (planned_amounts projectID d)) ;;
    pl <== dtx_of_money (Accumulator_Amount (sum_planned amounts)) ;;
    rows <== dtx_rows_unchecked (fun d => Some (reserve_list projectID d)) ;;
    let (contingency, management) := reserve_amounts rows in
    base <== dtx_of_money (Amount_Add pl (mkAmount contingency)) ;;
    _ <== dtx_guard (0 <? MinorUnits base) ErrCostNotPositive ;;
    _ <== dtx_of_money (Amount_Add base (mkAmount management)) ;;
    version <== dtx_query (sql_next_version projectID) ;;
    id <== newID "costbase" ;;
    now <== captureTimestamp ;;
    let s := mkCostSnapshot id projectID version currency (MinorUnits pl) contingency management
               (TrimSpace actor) (TrimSpace note) now.1 in
    _ <== dtx_exec (sql_insert_snapshot s) ;;
    let payload := json_text (snapshot_fields s) in
    _ <== appendAuditEventTx
            (cost_event projectID "cost_baseline_snapshot.create" "cost_baseline_snapshot" (cs_ID s)
               payload (cs_ApprovedBy s)) ;;
    _ <== appendApprovalCheckpointForUserTx projectID "cost_baseline_snapshot" (cs_ID s)
            "cost_baseline_approved" payload (cs_ApprovedBy s) ;;
    dtx_ret s).

Definition ListCostBaselines (projectID : string) : DbTx (list CostBaselineSnapshot) :=
  rows <== dtx_rows (fun d => Some (snapshot_list projectID d)) ;;
  dtx_ret (merge_sort snapshot_order rows).

End operations.
