(* ===== verification/CostAttachments.v ===== *)
(** * Attachments of ledger entries (db/cost_control_attachments.go)

    The bounds on names, files, entries and the project, and the digest of the
    stored bytes; path/filepath as it is on Unix. *)

From S2P Require Import Prelude GoStrings GoTime GoSha256 GoJson Money Wbs ProjectDb AuditChain Charts CostControl.

Local Open Scope Z_scope.

Definition maxAttachmentBytes : Z := Z.shiftl 10 20.
Definition maxAttachmentsPerEntry : nat := 10.
Definition maxAttachmentFilenameLength : Z := 255.
Definition maxAttachmentTotalBytesPerProject : Z := Z.shiftl 200 20.

Definition MaxAttachmentBytes : Z := maxAttachmentBytes.

Definition attachment_fields (a : CostEntryAttachment) : list (string * field) :=
  [("id", FString (at_ID a)); ("project_id", FString (at_ProjectID a));
   ("cost_entry_id", FString (at_CostEntryID a)); ("filename", FString (at_Filename a));
   ("content_type", FString (at_ContentType a)); ("size_bytes", FInt (at_SizeBytes a));
   ("sha256", FString (at_SHA256 a)); ("created_at", FString (at_CreatedAt a))]%string.

(** ** Names *)

Definition is_slash (c : ascii) : bool := Ascii.eqb c "/".

Fixpoint drop_slashes (l : list ascii) : list ascii :=
  match l with
  | c :: r => if is_slash c then drop_slashes r else l
  | [] => []
  end.

(** The bytes up to the first slash. *)
Fixpoint until_slash (l : list ascii) : list ascii :=
  match l with
  | c :: r => if is_slash c then [] else c :: until_slash r
  | [] => []
  end.

(** [filepath.Base]: the trailing slashes go, then everything up to the last one. *)
Definition filepath_Base (path : string) : string :=
  if String.eqb path "" then "."%string
  else match until_slash (drop_slashes (reverse (bytes_of path))) with
       | [] => "/"%string
       | l => string_of (reverse l)
       end.

Example Base_examples :
  filepath_Base "../../etc/passwd" = "passwd"%string /\ filepath_Base "a/b//" = "b"%string
  /\ filepath_Base "///" = "/"%string /\ filepath_Base "" = "."%string.
Proof. vm_compute. done. Qed.

Definition sanitizeAttachmentFilename (name : string) : option string :=
  let name := TrimSpace (filepath_Base (TrimSpace name)) in
  if String.eqb name "" || String.eqb name "." || String.eqb name ".." || String.eqb name "/" then None
  else if maxAttachmentFilenameLength <? go_len name then None
  else Some name.

(** ** Statements *)

Definition attachments_of_entry (entry : string) (d : ProjectDB) : list CostEntryAttachment :=
  filter (fun a => at_CostEntryID a = entry) (fst <$> (map_to_list (cost_entry_attachments (costs d))).*2).

Definition attachments_of_project (pid : string) (d : ProjectDB) : list CostEntryAttachment :=
  filter (fun a => at_ProjectID a = pid) (fst <$> (map_to_list (cost_entry_attachments (costs d))).*2).

(** [COALESCE(SUM(size_bytes),0)]; SQLite reports an overflow as an error. *)
Definition sql_attached_bytes (pid : string) (d : ProjectDB) : option Z :=
  let total := sum_Z (at_SizeBytes <$> attachments_of_project pid d) in
  if in_int64 total then Some total else None.

Definition sql_insert_attachment (a : CostEntryAttachment) (data : string) (d : ProjectDB) : option ProjectDB :=
  match cost_entry_attachments (costs d) !! at_ID a with
  | Some _ => None
  | None =>
      if bool_decide (at_ProjectID a ∈ projects d)
         && bool_decide (is_Some (cost_entries (costs d) !! at_CostEntryID a))
      then Some (set_cost_entry_attachments (<[at_ID a := (a, data)]> (cost_entry_attachments (costs d))) d)
      else None
  end.

(** [ORDER BY created_at ASC]. *)
Definition attachment_order (a b : CostEntryAttachment) : Prop := String.le (at_CreatedAt a) (at_CreatedAt b).

#[export] Instance attachment_order_dec a b : Decision (attachment_order a b).
Proof. unfold attachment_order. apply _. Defined.

(** ** Operations *)

Section operations.
Context `{DbEnv}.

Definition SaveCostEntryAttachment (projectID costEntryID filename contentType data : string)
    : DbTx CostEntryAttachment :=
  _ <== dtx_guard (negb (String.eqb projectID "" || String.eqb costEntryID "")) ErrAttachmentFields ;;
  filename <== dtx_of_option (sanitizeAttachmentFilename filename) ErrAttachmentFilenameInvalid ;;
  _ <== dtx_guard (negb (go_len data =? 0)) ErrAttachmentEmpty ;;
  _ <== dtx_guard (negb (maxAttachmentBytes <? go_len data)) ErrAttachmentTooLarge ;;
  let contentType := TrimSpace contentType in
  let contentType := if maxLedgerFieldLength <? go_len contentType
                     then string_of (take (Z.to_nat maxLedgerFieldLength) (bytes_of contentType))
                     else contentType in
  in_tx (
    entryProjectID <== dtx_query (fun d => Some (ce_ProjectID <$> cost_entries (costs d) !! costEntryID)) ;;
    entryProjectID <== dtx_of_option entryProjectID ErrCostEntryNotFound ;;
    _ <== dtx_guard (String.eqb entryProjectID projectID) ErrCostEntryNotFound ;;
    entryCount <== dtx_query (fun d => Some (length (attachments_of_entry costEntryID d))) ;;
    _ <== dtx_guard (entryCount <? maxAttachmentsPerEntry)%nat ErrAttachmentEntryFull ;;
    projectTotal <== dtx_query (sql_attached_bytes projectID) ;;
    _ <== dtx_guard (negb (maxAttachmentTotalBytesPerProject <? wrap64 (projectTotal + go_len data)))
            ErrAttachmentProjectBudget ;;
    id <== newID "attachment" ;;
    now <== captureTimestamp ;;
    let a := mkAttachment id projectID costEntryID filename contentType (go_len data) (HexSum256 data) now.1 in
    _ <== dtx_exec (sql_insert_attachment a data) ;;
    _ <== appendAuditEventTx
            (cost_event projectID "cost_entry_attachment.create" "cost_entry_attachment" (at_ID a)
               (json_text (attachment_fields a)) "") ;;
    dtx_ret a).

Definition ListCostEntryAttachments (projectID costEntryID : string) : DbTx (list CostEntryAttachment) :=
  rows <== dtx_rows (fun d =>
             Some (filter (fun a => at_ProjectID a = projectID) (attachments_of_entry costEntryID d))) ;;
  dtx_ret (merge_sort attachment_order rows).

Definition ListCostEntryAttachmentsForProject (projectID : string) : DbTx (list CostEntryAttachment) :=
  rows <== dtx_rows (fun d => Some (attachments_of_project projectID d)) ;;
  dtx_ret (merge_sort attachment_order rows).

Definition GetCostEntryAttachmentBlob (projectID attachmentID : string)
    : DbTx (CostEntryAttachment * string) :=
  r <== dtx_query (fun d =>
          Some (match cost_entry_attachments (costs d) !! attachmentID with
                | Some (a, data) => if String.eqb (at_ProjectID a) projectID then Some (a, data) else None
                | None => None
                end)) ;;
  dtx_of_option r ErrAttachmentNotFound.

End operations.
