(* ===== verification/Dora.v ===== *)
(** * DORA metrics (agile/dora.go)

    Deployment frequency, lead time, change failure rate and time to restore over a
    rolling window, with their bands, labels and the daily trend.  Every instant is
    in UTC, as the caller's is. *)

From S2P Require Import Prelude GoFloat GoStrings GoTime GoDecimal ProjectDb MonteCarlo MonteCarloTheorems.

Local Open Scope Z_scope.

Inductive DORAClass : Type :=
| DORAClassElite | DORAClassHigh | DORAClassMedium | DORAClassLow | DORAClassUnknown.

#[export] Instance DORAClass_eq_dec : EqDecision DORAClass.
Proof. solve_decision. Defined.

Record DORAMetric : Type := mkMetric {
  m_Value : f64;
  m_Class : DORAClass;
  m_Label : string;
  m_Caption : string
}.

Record DailyPoint : Type := mkPoint {
  pt_Date : string;
  pt_Count : Z
}.

Record DORAResult : Type := mkDORA {
  WindowDays : Z;
  From_ : Time;
  To_ : Time;
  TotalDeploys : Z;
  Successful : Z;
  Failed : Z;
  DeployFrequency : DORAMetric;
  LeadTime : DORAMetric;
  ChangeFailureRate : DORAMetric;
  MTTR : DORAMetric;
  DailyDeployTrend : list DailyPoint
}.

(** ** Bands *)

Definition f_half : f64 := fone ⊘ f_of_Z 2.
Definition per_week : f64 := fone ⊘ f_of_Z 7.
Definition per_month : f64 := fone ⊘ f_of_Z 30.

Definition classifyDeployFrequency (perDay : f64) (n : Z) : DORAClass :=
  if n =? 0 then DORAClassUnknown
  else if fone <=. perDay then DORAClassElite
  else if per_week <=. perDay then DORAClassHigh
  else if per_month <=. perDay then DORAClassMedium
  else DORAClassLow.

Definition classifyLeadTime (hours : f64) (n : Z) : DORAClass :=
  if n =? 0 then DORAClassUnknown
  else if hours <=. f_of_Z 24 then DORAClassElite
  else if hours <=. f_of_Z (24 * 7) then DORAClassHigh
  else if hours <=. f_of_Z (24 * 30) then DORAClassMedium
  else DORAClassLow.

Definition classifyCFR (rate : f64) (n : Z) : DORAClass :=
  if n =? 0 then DORAClassUnknown
  else if rate <=. round_decimal false 15 (-2) then DORAClassElite
  else if rate <=. round_decimal false 30 (-2) then DORAClassMedium
  else DORAClassLow.

Definition classifyMTTR (hours : f64) (n : Z) : DORAClass :=
  if n =? 0 then DORAClassUnknown
  else if hours <=. fone then DORAClassElite
  else if hours <=. f_of_Z 24 then DORAClassHigh
  else if hours <=. f_of_Z (24 * 7) then DORAClassMedium
  else DORAClassLow.

(** ** Labels *)

(** The loop of itoaW, which fills a buffer from its end: [None] is an index out
    of range. *)
Fixpoint itoa_loop (i : nat) (n : Z) (acc : list ascii) : option (list ascii) :=
  if n <=? 0 then Some acc
  else match i with
       | O => None
       | S i' => itoa_loop i' (n / 10) (byte_of (48 + n mod 10) :: acc)
       end.

Definition itoaW (n : Z) : option string :=
  if n =? 0 then Some "0"%string else string_of <$> itoa_loop 20 n [].

Definition itoaWindow (days : Z) : option string := (fun s => s +:+ " days")%string <$> itoaW days.

(** One decimal place, trimmed; Go's quotient and remainder truncate. *)
Definition formatFloat1 (v : f64) : option string :=
  if v ==. fzero then Some "0"%string
  else
    let neg := v <. fzero in
    let v := if neg then SFopp v else v in
    let scaled := f_to_int ((v ⊗ f_of_Z 10) ⊕ f_half) in
    let whole := Z.quot scaled 10 in
    let frac := Z.rem scaled 10 in
    let sign := if neg then "-"%string else ""%string in
    if frac =? 0 then (fun w => sign +:+ w)%string <$> itoaW whole
    else match itoaW whole, itoaW frac with
         | Some w, Some f => Some (sign +:+ w +:+ "." +:+ f)%string
         | _, _ => None
         end.

Definition suffixed (s : string) (t : option string) : option string := (fun x => x +:+ s)%string <$> t.

Definition formatPerDay (v : f64) : option string :=
  if fone <=. v then suffixed "/day" (formatFloat1 v)
  else if per_week <=. v then suffixed "/wk" (formatFloat1 (v ⊗ f_of_Z 7))
  else if per_month <=. v then suffixed "/mo" (formatFloat1 (v ⊗ f_of_Z 30))
  else suffixed "/yr" (formatFloat1 (v ⊗ f_of_Z 365)).

Definition formatHours (v : f64) : option string :=
  if v <=. fzero then Some "—"%string
  else if v <. fone then suffixed " min" (formatFloat1 (v ⊗ f_of_Z 60))
  else if v <. f_of_Z 48 then suffixed " h" (formatFloat1 v)
  else
    let days := v ⊘ f_of_Z 24 in
    if days <. f_of_Z 30 then suffixed " d" (formatFloat1 days)
    else suffixed " wk" (formatFloat1 (days ⊘ f_of_Z 7)).

Definition formatPct (v : f64) : option string := suffixed "%" (formatFloat1 (v ⊗ f_of_Z 100)).

(** ** Computation *)

(** [None]: an index out of range. *)
Definition median (xs : list f64) : option f64 :=
  match xs with
  | [] => Some fzero
  | _ =>
      let s := Float64s xs in
      let mid := Z.quot (Z.of_nat (length s)) 2 in
      if Z.rem (Z.of_nat (length s)) 2 =? 1 then index s mid
      else match index s (mid - 1), index s mid with
           | Some x, Some y => Some ((x ⊕ y) ⊘ f_of_Z 2)
           | _, _ => None
           end
  end.

Definition in_window (from now : Time) (d : Deployment) : bool :=
  negb (Before (dp_TS d) from) && negb (Before now (dp_TS d)).

(** The counts and the two lists of hours after one more deployment. *)
Record tally : Type := mkTally {
  t_total : Z;
  t_successful : Z;
  t_failed : Z;
  t_lead : list f64;
  t_restore : list f64
}.

Definition count_deployment (t : tally) (d : Deployment) : tally :=
  if dp_Successful d
  then mkTally (t_total t + 1) (t_successful t + 1) (t_failed t)
         (if fzero <. dp_LeadTimeHours d then t_lead t ++ [dp_LeadTimeHours d] else t_lead t) (t_restore t)
  else mkTally (t_total t + 1) (t_successful t) (t_failed t + 1) (t_lead t)
         (if fzero <. dp_RestoreTimeHours d then t_restore t ++ [dp_RestoreTimeHours d] else t_restore t).

Definition count_day (bucket : gmap string Z) (d : Deployment) : gmap string Z :=
  let k := FormatDate (dp_TS d) in
  <[k := default 0 (bucket !! k) + 1]> bucket.

(** The days of the window, one round per day; [None] is out of fuel. *)
Fixpoint trend_days (fuel : nat) (bucket : gmap string Z) (day to : Time) : option (list DailyPoint) :=
  if Before to day then Some []
  else match fuel with
       | O => None
       | S fuel' =>
           let k := FormatDate day in
           cons (mkPoint k (default 0 (bucket !! k))) <$> trend_days fuel' bucket (AddDays day 1) to
       end.

Definition buildDailyTrend (fuel : nat) (window : list Deployment) (from to : Time) : option (list DailyPoint) :=
  trend_days fuel (foldl count_day ∅ window) from to.

(** [clock] is what [time.Now] returns when [now] is the zero time; the fuel has a
    round for every day of the window. *)
Definition ComputeDORA (deployments : list Deployment) (windowDays : Z) (now clock : Time) : option DORAResult :=
  let windowDays := if windowDays <=? 0 then 30 else windowDays in
  let now := if now =? zero_time then clock else now in
  let from := AddDays now (- windowDays) in
  let window := List.filter (in_window from now) deployments in
  let t := foldl count_deployment (mkTally 0 0 0 [] []) window in
  let freqPerDay := if 0 <? windowDays then f_of_Z (t_total t) ⊘ f_of_Z windowDays else fzero in
  let rate := if 0 <? t_total t then f_of_Z (t_failed t) ⊘ f_of_Z (t_total t) else fzero in
  freqLabel ← formatPerDay freqPerDay;
  days ← itoaWindow windowDays;
  leadMedian ← median (t_lead t);
  leadLabel ← formatHours leadMedian;
  rateLabel ← formatPct rate;
  mttr ← median (t_restore t);
  mttrLabel ← formatHours mttr;
  trend ← buildDailyTrend (S (Z.to_nat windowDays)) window from now;
  Some (mkDORA windowDays from now (t_total t) (t_successful t) (t_failed t)
    (mkMetric freqPerDay (classifyDeployFrequency freqPerDay (t_total t)) freqLabel
       ("Deployments per day across the last " +:+ days)%string)
    (mkMetric leadMedian (classifyLeadTime leadMedian (Z.of_nat (length (t_lead t)))) leadLabel
       "Median time from commit to production"%string)
    (mkMetric rate (classifyCFR rate (t_total t)) rateLabel
       "Share of deployments that required a rollback or hotfix"%string)
    (mkMetric mttr (classifyMTTR mttr (Z.of_nat (length (t_restore t)))) mttrLabel
       "Median time from failure to restoration"%string)
    trend).

(** ** Printing *)

Lemma itoa_loop_Some i n acc : n < 10 ^ Z.of_nat i -> is_Some (itoa_loop i n acc).
Proof.
  revert n acc. induction i as [|i IH]; intros n acc Hn; cbn [itoa_loop].
  - replace (n <=? 0) with true by (cbn in Hn; lia). by eexists.
  - destruct (n <=? 0); [by eexists|]. apply IH.
    rewrite Nat2Z.inj_succ, Z.pow_succ_r in Hn by lia. apply Z.div_lt_upper_bound; lia.
Qed.

Lemma itoaW_Some n : n <= 2 ^ 63 -> is_Some (itoaW n).
Proof.
  intros Hn. unfold itoaW. destruct (n =? 0); [by eexists|].
  destruct (itoa_loop_Some 20 n []) as [l ->]; [cbn; lia|by eexists].
Qed.

(** No label overruns the buffer, whatever the value. *)
Lemma formatFloat1_Some v : is_Some (formatFloat1 v).
Proof.
  unfold formatFloat1. destruct (v ==. fzero); [by eexists|].
  set (x := f_to_int _). assert (Hx : - 2 ^ 63 <= x < 2 ^ 63).
  { apply in_int64_spec. unfold x, f_to_int. destruct (f_trunc _) as [n|]; [|done]. by destruct (in_int64 n) eqn:E. }
  clearbody x. assert (Z.quot x 10 <= 2 ^ 63) by div_lia. assert (Z.rem x 10 <= 2 ^ 63) by div_lia.
  destruct (itoaW_Some (Z.quot x 10)) as [a ->]; [done|]. destruct (itoaW_Some (Z.rem x 10)) as [b ->]; [done|].
  destruct (_ =? 0); by eexists.
Qed.

Lemma suffixed_Some s t : is_Some t -> is_Some (suffixed s t).
Proof. intros [x ->]. by eexists. Qed.

Lemma labels_Some v : is_Some (formatPerDay v) /\ is_Some (formatHours v) /\ is_Some (formatPct v).
Proof.
  unfold formatPerDay, formatHours, formatPct. cbn zeta.
  split_and!; repeat case_match; eauto using suffixed_Some, formatFloat1_Some.
Qed.

(** ** The median *)

Definition positive (x : f64) : Prop := fzero <. x = true.

Lemma positive_no_minus_zero x : positive x -> no_minus_zero x.
Proof. intros H ->. done. Qed.

Lemma median_Some xs : is_Some (median xs).
Proof.
  destruct xs as [|x xs]; [by eexists|]. unfold median. set (s := Float64s (x :: xs)).
  assert (Hl : length s = S (length xs)) by (unfold s; by rewrite Float64s_perm).
  assert (Hi : forall i, 0 <= i < Z.of_nat (length s) -> is_Some (index s i)).
  { intros i Hi. unfold index. replace (i <? 0) with false by lia. apply lookup_lt_is_Some_2. lia. }
  destruct (_ =? 1) eqn:E; [apply Hi; div_lia|].
  destruct (Hi (Z.quot (Z.of_nat (length s)) 2 - 1)) as [a ->]; [div_lia|].
  destruct (Hi (Z.quot (Z.of_nat (length s)) 2)) as [b ->]; [div_lia|]. by eexists.
Qed.

Lemma median_perm l l' : Forall positive l -> l ≡ₚ l' -> median l = median l'.
Proof.
  intros Hl Hp. assert (E : Float64s l = Float64s l')
    by (apply Float64s_unique; [eapply Forall_impl; [exact Hl|apply positive_no_minus_zero]|done]).
  destruct l as [|x l], l' as [|y l']; [done|by apply Permutation_nil in Hp|
    by symmetry in Hp; apply Permutation_nil in Hp|].
  unfold median. by rewrite E.
Qed.

(** ** The counts *)

Definition lead_times (l : list Deployment) : list f64 :=
  dp_LeadTimeHours <$> List.filter (fun d => dp_Successful d && (fzero <. dp_LeadTimeHours d)) l.

Definition restore_times (l : list Deployment) : list f64 :=
  dp_RestoreTimeHours <$> List.filter (fun d => negb (dp_Successful d) && (fzero <. dp_RestoreTimeHours d)) l.

Definition number (p : Deployment -> bool) (l : list Deployment) : Z := Z.of_nat (length (List.filter p l)).

Lemma count_deployments l : forall t, foldl count_deployment t l
  = mkTally (t_total t + Z.of_nat (length l)) (t_successful t + number dp_Successful l)
      (t_failed t + number (fun d => negb (dp_Successful d)) l)
      (t_lead t ++ lead_times l) (t_restore t ++ restore_times l).
Proof.
  unfold number. induction l as [|d l IH]; intros t.
  - destruct t. cbn. by rewrite !Z.add_0_r, !app_nil_r.
  - cbn [foldl]. rewrite IH. unfold count_deployment, lead_times, restore_times. cbn [List.filter].
    destruct (dp_Successful d); cbn [negb andb t_total t_successful t_failed t_lead t_restore];
      (destruct (fzero <. dp_LeadTimeHours d), (fzero <. dp_RestoreTimeHours d));
      cbn [length fmap list_fmap]; f_equal; try lia; by rewrite <- app_assoc.
Qed.

Lemma filter_permutation {A} (p : A -> bool) l l' : l ≡ₚ l' -> List.filter p l ≡ₚ List.filter p l'.
Proof. induction 1; cbn [List.filter]; repeat case_match; eauto using perm_swap. by etrans. Qed.

Lemma hours_positive l : Forall positive (lead_times l) /\ Forall positive (restore_times l).
Proof.
  unfold lead_times, restore_times. split; apply Forall_fmap, List.Forall_forall; intros d [_ Hd]%filter_In;
    cbn; by apply andb_prop in Hd as [_ Hd].
Qed.

(** ** The trend *)

Definition days_on (k : string) (l : list Deployment) : Z := number (fun d => String.eqb (FormatDate (dp_TS d)) k) l.

Lemma bucket_spec l k : forall b, default 0 (foldl count_day b l !! k) = default 0 (b !! k) + days_on k l.
Proof.
  unfold days_on, number. induction l as [|d l IH]; intros b; [cbn; lia|]. cbn [foldl List.filter]. rewrite IH.
  unfold count_day. destruct (String.eqb_spec (FormatDate (dp_TS d)) k) as [->|Hn].
  - rewrite lookup_insert_eq. cbn [from_option id]. rewrite length_cons. lia.
  - rewrite lookup_insert_ne by done. lia.
Qed.

Lemma Before_AddDays t i j : Before (AddDays t i) (AddDays t j) = (i <? j).
Proof. unfold Before, AddDays, day_ns. lia. Qed.

Lemma Before_later t i : Before (AddDays t i) t = (i <? 0).
Proof. unfold Before, AddDays, day_ns. lia. Qed.

Lemma Before_earlier t i : Before t (AddDays t i) = (0 <? i).
Proof. unfold Before, AddDays, day_ns. lia. Qed.

Definition trend_point (count : string -> Z) (day : Time) (i : Z) : DailyPoint :=
  mkPoint (FormatDate (AddDays day i)) (count (FormatDate (AddDays day i))).

Lemma trend_days_spec b n : forall day,
  trend_days (S n) b day (AddDays day (Z.of_nat n))
  = Some (trend_point (fun k => default 0 (b !! k)) day <$> seqZ 0 (Z.of_nat n + 1)).
Proof.
  induction n as [|n IH]; intros day.
  - cbn [trend_days]. change (Z.of_nat 0) with 0. rewrite Before_later, AddDays_0, Before_earlier.
    change (seqZ 0 (0 + 1)) with [0]. change (0 <? 0) with false. change (0 <? 1) with true.
    cbn [fmap list_fmap option_fmap option_map]. unfold trend_point. by rewrite AddDays_0.
  - cbn [trend_days]. rewrite Before_later. rewrite (proj2 (Z.ltb_ge (Z.of_nat (S n)) 0)) by lia.
    replace (AddDays day (Z.of_nat (S n))) with (AddDays (AddDays day 1) (Z.of_nat n))
      by (rewrite AddDays_add; f_equal; lia).
    specialize (IH (AddDays day 1)). cbn [trend_days] in IH. rewrite IH.
    rewrite (seqZ_cons 0 (Z.of_nat (S n) + 1)) by lia. cbn [fmap list_fmap option_fmap option_map].
    unfold trend_point at 2. rewrite AddDays_0. do 2 f_equal.
    replace (Z.pred (Z.of_nat (S n) + 1)) with (Z.of_nat n + 1) by lia.
    change (Z.succ 0) with (1 + 0). rewrite <- (fmap_add_seqZ 1 0), <- list_fmap_compose.
    apply list_fmap_ext. intros _ i _. unfold trend_point, compose. by rewrite AddDays_add.
Qed.

Lemma FormatDate_day a b : day_number a = day_number b -> FormatDate a = FormatDate b.
Proof. intros E. unfold FormatDate. by rewrite E. Qed.

Lemma FormatDate_inj a b : four_digit_year a -> four_digit_year b -> FormatDate a = FormatDate b -> day_number a = day_number b.
Proof.
  intros Ha Hb E. pose proof (ParseDate_FormatDate a Ha) as Pa. rewrite E, ParseDate_FormatDate in Pa by done.
  injection Pa as Pa. unfold midnight, day_ns in Pa. lia.
Qed.

(** The days between two days of four-digit years are of four-digit years. *)
Lemma four_digit_between a t b : four_digit_year a -> four_digit_year b ->
  day_number a <= day_number t <= day_number b -> four_digit_year t.
Proof.
  unfold four_digit_year. intros Ha Hb [H1 H2].
  assert (Hle : forall x y, x <= y -> (civil_from_days x).1.1 <= (civil_from_days y).1.1).
  { intros x y Hxy. destruct (Z.eq_dec x y) as [->|Hn]; [done|].
    pose proof (civil_order x y ltac:(lia)) as Ho. destruct (civil_from_days x) as [[]], (civil_from_days y) as [[]].
    cbn [fst]. lia. }
  pose proof (Hle _ _ H1). pose proof (Hle _ _ H2). lia.
Qed.

(** Every deployment is on one of the days. *)
Lemma sum_days (l : list Deployment) keys : NoDup keys ->
  (forall d, In d l -> FormatDate (dp_TS d) ∈ keys) ->
  sum_Z ((fun k => days_on k l) <$> keys) = Z.of_nat (length l).
Proof.
  intros Hnd. induction l as [|d l IH]; intros Hin.
  - clear. unfold days_on, number. cbn [List.filter length]. induction keys as [|k keys IH]; [done|].
    rewrite fmap_cons, sum_Z_cons. lia.
  - rewrite length_cons, Nat2Z.inj_succ, <- IH by (intros; apply Hin; by right). clear IH.
    specialize (Hin d (or_introl eq_refl)). revert Hnd Hin. induction keys as [|k keys IH]; [by intros _ ?%not_elem_of_nil|].
    intros [Hk Hnd]%NoDup_cons Hin. rewrite !fmap_cons, !sum_Z_cons. unfold days_on at 1 3, number. cbn [List.filter].
    destruct (String.eqb_spec (FormatDate (dp_TS d)) k) as [E|Hn].
    + assert (Hr : (fun k => days_on k (d :: l)) <$> keys = (fun k => days_on k l) <$> keys).
      { apply list_fmap_ext. intros i k' Hk'. unfold days_on, number. cbn [List.filter].
        destruct (String.eqb_spec (FormatDate (dp_TS d)) k') as [E'|]; [|done].
        destruct Hk. rewrite <- E, E'. by eapply list_elem_of_lookup_2. }
      rewrite Hr, length_cons. lia.
    + apply elem_of_cons in Hin as [?|Hin]; [done|]. rewrite IH by done. lia.
Qed.

Lemma trend_keys_nodup from n : four_digit_year from -> four_digit_year (AddDays from n) -> 0 <= n ->
  NoDup ((fun i => FormatDate (AddDays from i)) <$> seqZ 0 (n + 1)).
Proof.
  intros Ha Hb Hn.
  assert (Hp : forall i, 0 <= i <= n -> four_digit_year (AddDays from i)).
  { intros i Hi. apply (four_digit_between from _ (AddDays from n)); [exact Ha|exact Hb|].
    rewrite !day_number_AddDays. lia. }
  apply NoDup_fmap_2_strong; [|apply NoDup_seqZ].
  intros i j Hi%elem_of_seqZ Hj%elem_of_seqZ E. apply FormatDate_inj in E; [|apply Hp; lia..].
  rewrite !day_number_AddDays in E. lia.
Qed.

Lemma in_window_day from w d : in_window from (AddDays from w) d = true ->
  0 <= day_number (dp_TS d) - day_number from <= w.
Proof.
  unfold in_window, Before. intros [H1 H2]%andb_prop. pose proof (day_number_AddDays from w) as E.
  assert (from <= dp_TS d <= AddDays from w) as [L1 L2] by lia. clear H1 H2.
  assert (Hm : forall a b, a <= b -> day_number a <= day_number b)
    by (intros; unfold day_number; apply Z.div_le_mono; [done|lia]).
  apply Hm in L1, L2. lia.
Qed.

Lemma number_perm p l l' : l ≡ₚ l' -> number p l = number p l'.
Proof. intros Hp. unfold number. f_equal. by apply Permutation_length, filter_permutation. Qed.

Lemma trend_spec l from n : 0 <= n ->
  buildDailyTrend (S (Z.to_nat n)) l from (AddDays from n)
  = Some (trend_point (fun k => days_on k l) from <$> seqZ 0 (n + 1)).
Proof.
  intros Hn. unfold buildDailyTrend. replace n with (Z.of_nat (Z.to_nat n)) at 2 3 by lia.
  rewrite trend_days_spec. f_equal. apply list_fmap_ext. intros _ i _. unfold trend_point.
  rewrite bucket_spec, lookup_empty. done.
Qed.

(** The result as a function of the deployments of the window. *)
Definition dora_of (w : Z) (now from : Time) (window : list Deployment) : option DORAResult :=
  let total := Z.of_nat (length window) in
  let failed := number (fun d => negb (dp_Successful d)) window in
  let freqPerDay := f_of_Z total ⊘ f_of_Z w in
  let rate := if 0 <? total then f_of_Z failed ⊘ f_of_Z total else fzero in
  freqLabel ← formatPerDay freqPerDay;
  days ← itoaWindow w;
  leadMedian ← median (lead_times window);
  leadLabel ← formatHours leadMedian;
  rateLabel ← formatPct rate;
  mttr ← median (restore_times window);
  mttrLabel ← formatHours mttr;
  Some (mkDORA w from now total (number dp_Successful window) failed
    (mkMetric freqPerDay (classifyDeployFrequency freqPerDay total) freqLabel
       ("Deployments per day across the last " +:+ days)%string)
    (mkMetric leadMedian (classifyLeadTime leadMedian (Z.of_nat (length (lead_times window)))) leadLabel
       "Median time from commit to production"%string)
    (mkMetric rate (classifyCFR rate total) rateLabel
       "Share of deployments that required a rollback or hotfix"%string)
    (mkMetric mttr (classifyMTTR mttr (Z.of_nat (length (restore_times window)))) mttrLabel
       "Median time from failure to restoration"%string)
    (trend_point (fun k => days_on k window) from <$> seqZ 0 (w + 1))).

Definition window_days (windowDays : Z) : Z := if windowDays <=? 0 then 30 else windowDays.

Lemma window_days_pos n : 0 < window_days n.
Proof. unfold window_days. destruct (Z.leb_spec n 0); lia. Qed.

Lemma ComputeDORA_eq ds windowDays now clock : now <> zero_time ->
  let w := window_days windowDays in
  let from := AddDays now (- w) in
  ComputeDORA ds windowDays now clock = dora_of w now from (List.filter (in_window from now) ds).
Proof.
  intros Hnow. cbn zeta. unfold ComputeDORA. fold (window_days windowDays).
  pose proof (window_days_pos windowDays) as Hw. set (w := window_days windowDays) in *. clearbody w.
  rewrite (proj2 (Z.eqb_neq now zero_time)) by done. cbn zeta. set (from := AddDays now (- w)).
  assert (En : now = AddDays from w) by (unfold from; rewrite AddDays_add, Z.add_opp_diag_l, AddDays_0; done).
  clearbody from. subst now. set (window := List.filter _ ds). clearbody window.
  rewrite count_deployments. cbn [t_total t_successful t_failed t_lead t_restore app]. rewrite !Z.add_0_l.
  rewrite trend_spec by lia. rewrite (proj2 (Z.ltb_lt 0 w)) by done. unfold dora_of.
  repeat (apply option_bind_ext_fun; intros ?). done.
Qed.

Lemma dora_of_perm w now from l l' : l ≡ₚ l' -> dora_of w now from l = dora_of w now from l'.
Proof.
  intros Hp. unfold dora_of. rewrite (Permutation_length Hp), !(number_perm _ _ _ Hp).
  assert (Hlead : lead_times l ≡ₚ lead_times l') by (by apply fmap_Permutation, filter_permutation).
  assert (Hrest : restore_times l ≡ₚ restore_times l') by (by apply fmap_Permutation, filter_permutation).
  rewrite (median_perm _ _ (proj1 (hours_positive l)) Hlead), (median_perm _ _ (proj2 (hours_positive l)) Hrest).
  rewrite (Permutation_length Hlead), (Permutation_length Hrest).
  replace (trend_point (fun k => days_on k l) from <$> seqZ 0 (w + 1))
    with (trend_point (fun k => days_on k l') from <$> seqZ 0 (w + 1)); [done|].
  apply list_fmap_ext. intros _ i _. unfold trend_point, days_on. by rewrite (number_perm _ _ _ Hp).
Qed.

Lemma ComputeDORA_perm ds ds' windowDays now clock : now <> zero_time -> ds ≡ₚ ds' ->
  ComputeDORA ds windowDays now clock = ComputeDORA ds' windowDays now clock.
Proof. intros Hn Hp. rewrite !ComputeDORA_eq by done. by apply dora_of_perm, filter_permutation. Qed.

Lemma number_split p l : number p l + number (fun d => negb (p d)) l = Z.of_nat (length l).
Proof.
  unfold number. induction l as [|d l IH]; [done|]. cbn [List.filter]. destruct (p d); cbn [negb]; rewrite !length_cons; lia.
Qed.

(** ** What the metrics are *)

(** [m] is the median of [l], 0 of none: the middle of its values in order, or the
    half sum of the two middle ones. *)
Definition is_median (l : list f64) (m : f64) : Prop :=
  l = [] /\ m = fzero
  \/ exists s, s ≡ₚ l /\ Sorted (fun x y => (y <. x) = false) s
     /\ ((exists a b, s = a ++ m :: b /\ length a = length b)
         \/ exists a x y b, s = a ++ x :: y :: b /\ length a = length b /\ m = (x ⊕ y) ⊘ f_of_Z 2).

(** The band of a metric that has data, by the bounds it keeps to. *)
Definition band (data elite high medium : bool) : DORAClass :=
  if data then if elite then DORAClassElite else if high then DORAClassHigh
    else if medium then DORAClassMedium else DORAClassLow
  else DORAClassUnknown.

Lemma Float64s_sorted l : Sorted (fun x y => (y <. x) = false) (Float64s l).
Proof.
  pose proof (Sorted_merge_sort float_le l) as Hs. fold (Float64s l) in Hs. revert Hs. generalize (Float64s l).
  intros s. induction 1 as [|x s _ IH Hd]; constructor; [done|]. destruct Hd as [|y s Hxy]; constructor.
  unfold float_le, float_less in Hxy. by apply orb_false_elim in Hxy as [_ Hxy].
Qed.

Lemma index_split {A} (s : list A) i x : index s i = Some x ->
  0 <= i /\ exists a b, s = a ++ x :: b /\ Z.of_nat (length a) = i.
Proof.
  unfold index. destruct (Z.ltb_spec i 0) as [|Hi]; [done|]. intros Hx. split; [done|].
  exists (take (Z.to_nat i) s), (drop (S (Z.to_nat i)) s). split; [by rewrite take_drop_middle|].
  apply lookup_lt_Some in Hx. rewrite length_take. lia.
Qed.

Lemma median_spec l m : median l = Some m -> is_median l m.
Proof.
  destruct l as [|x0 l]; [intros [= <-]; by left|]. intros Hm. right. exists (Float64s (x0 :: l)).
  split; [apply Float64s_perm|]. split; [apply Float64s_sorted|].
  unfold median in Hm. set (s := Float64s (x0 :: l)) in *. clearbody s. cbv zeta in Hm.
  set (mid := Z.quot (Z.of_nat (length s)) 2) in *. destruct (_ =? 1) eqn:E.
  - left. apply index_split in Hm as (Hi & a & b & -> & Ha). exists a, b. split; [done|].
    subst mid. rewrite length_app in E, Ha. cbn [length] in E, Ha. div_lia.
  - right. destruct (index s (mid - 1)) as [x|] eqn:Ex; [|done]. destruct (index s mid) as [y|] eqn:Ey; [|done].
    injection Hm as <-. apply index_split in Ex as (Hi & a & b & Es & Ha).
    assert (Hb : b !! 0%nat = Some y).
    { unfold index in Ey. destruct (mid <? 0); [done|]. rewrite Es, lookup_app_r in Ey by lia.
      replace (Z.to_nat mid - length a)%nat with 1%nat in Ey by lia. exact Ey. }
    destruct b as [|z b]; [done|]. injection Hb as ->. exists a, x, y, b. split; [done|]. split; [|done].
    subst mid. rewrite Es, length_app in E, Ha. cbn [length] in E, Ha. div_lia.
Qed.

Lemma bands v n : 0 <= n ->
  classifyDeployFrequency v n = band (0 <? n) (fone <=. v) ((fone ⊘ f_of_Z 7) <=. v) ((fone ⊘ f_of_Z 30) <=. v)
  /\ classifyLeadTime v n = band (0 <? n) (v <=. f_of_Z 24) (v <=. f_of_Z 168) (v <=. f_of_Z 720)
  /\ classifyCFR v n = band (0 <? n) (v <=. (f_of_Z 15 ⊘ f_of_Z 100)) false (v <=. (f_of_Z 30 ⊘ f_of_Z 100))
  /\ classifyMTTR v n = band (0 <? n) (v <=. fone) (v <=. f_of_Z 24) (v <=. f_of_Z 168).
Proof.
  intros Hn.
  assert (E1 : round_decimal false 15 (-2) = f_of_Z 15 ⊘ f_of_Z 100) by (vm_compute; reflexivity).
  assert (E2 : round_decimal false 30 (-2) = f_of_Z 30 ⊘ f_of_Z 100) by (vm_compute; reflexivity).
  unfold classifyDeployFrequency, classifyLeadTime, classifyCFR, classifyMTTR, band, per_week, per_month. rewrite E1, E2.
  assert (E0 : (0 <? n) = negb (n =? 0)) by (destruct (Z.eqb_spec n 0); cbn [negb]; [apply Z.ltb_ge|apply Z.ltb_lt]; lia).
  rewrite E0. change (24 * 7) with 168. change (24 * 30) with 720.
  destruct (n =? 0); cbn [negb]; repeat split.
Qed.

Lemma dora_of_Some w now from window : w <= max_int64 -> is_Some (dora_of w now from window).
Proof.
  intros Hw. unfold dora_of. destruct (labels_Some (f_of_Z (Z.of_nat (length window)) ⊘ f_of_Z w)) as [[a ->] _].
  destruct (itoaW_Some w) as [b Hb]; [unfold max_int64 in Hw; lia|].
  unfold itoaWindow. rewrite Hb. destruct (median_Some (lead_times window)) as [x ->].
  destruct (labels_Some x) as (_ & [c Hc] & _). cbn [mbind option_bind fmap option_fmap option_map]. rewrite Hc.
  destruct (labels_Some (if 0 <? Z.of_nat (length window)
    then f_of_Z (number (fun d => negb (dp_Successful d)) window) ⊘ f_of_Z (Z.of_nat (length window)) else fzero))
    as (_ & _ & [e He]). cbn [mbind option_bind]. rewrite He. destruct (median_Some (restore_times window)) as [y ->].
  destruct (labels_Some y) as (_ & [g Hg] & _). cbn [mbind option_bind]. rewrite Hg. by eexists.
Qed.

(** The points of the trend count every deployment of the window once. *)
Lemma trend_total w from window : 0 < w -> four_digit_year from -> four_digit_year (AddDays from w) ->
  (forall d, In d window -> in_window from (AddDays from w) d = true) ->
  sum_Z (pt_Count <$> (trend_point (fun k => days_on k window) from <$> seqZ 0 (w + 1))) = Z.of_nat (length window).
Proof.
  intros Hw Hfrom Hto Hin. rewrite <- list_fmap_compose. unfold compose, trend_point. cbn [pt_Count].
  rewrite <- (sum_days window ((fun i => FormatDate (AddDays from i)) <$> seqZ 0 (w + 1))).
  - by rewrite <- list_fmap_compose.
  - apply trend_keys_nodup; [done|done|lia].
  - intros d Hd%Hin%in_window_day. apply list_elem_of_fmap. exists (day_number (dp_TS d) - day_number from). split.
    + apply FormatDate_day. rewrite day_number_AddDays. lia.
    + apply elem_of_seqZ. lia.
Qed.

(** C27. The metrics of a window between two days of four-digit years, asked for with
    a clock that is not the zero time, are computed without a panic for every list of
    deployments: the counts; the deployments per day, the share of failures and the
    medians of the positive hours of the successful and of the failed ones, each with
    its band; and one point for each day from the first of the window to today, which
    together count every deployment once.  The order of the deployments does not
    matter. *)
Theorem ComputeDORA_spec ds windowDays now clock :
  windowDays <= max_int64 -> now <> zero_time ->
  let w := if windowDays <=? 0 then 30 else windowDays in
  let from := AddDays now (- w) in
  let window := List.filter (fun d => (from <=? dp_TS d) && (dp_TS d <=? now)) ds in
  let lead := dp_LeadTimeHours <$> List.filter (fun d => dp_Successful d && (fzero <. dp_LeadTimeHours d)) window in
  let restore := dp_RestoreTimeHours
    <$> List.filter (fun d => negb (dp_Successful d) && (fzero <. dp_RestoreTimeHours d)) window in
  let count p := Z.of_nat (length (List.filter p window)) in
  four_digit_year from -> four_digit_year now ->
  exists r, ComputeDORA ds windowDays now clock = Some r
    /\ (WindowDays r = w /\ From_ r = from /\ To_ r = now)
    /\ TotalDeploys r = Z.of_nat (length window) /\ Successful r = count dp_Successful
    /\ Failed r = count (fun d => negb (dp_Successful d)) /\ Successful r + Failed r = TotalDeploys r
    /\ (let v := f_of_Z (TotalDeploys r) ⊘ f_of_Z w in m_Value (DeployFrequency r) = v
        /\ m_Class (DeployFrequency r) = band (0 <? TotalDeploys r) (fone <=. v) ((fone ⊘ f_of_Z 7) <=. v) ((fone ⊘ f_of_Z 30) <=. v))
    /\ (let v := if 0 <? TotalDeploys r then f_of_Z (Failed r) ⊘ f_of_Z (TotalDeploys r) else fzero in
        m_Value (ChangeFailureRate r) = v
        /\ m_Class (ChangeFailureRate r)
           = band (0 <? TotalDeploys r) (v <=. (f_of_Z 15 ⊘ f_of_Z 100)) false (v <=. (f_of_Z 30 ⊘ f_of_Z 100)))
    /\ (let v := m_Value (LeadTime r) in is_median lead v
        /\ m_Class (LeadTime r) = band (0 <? Z.of_nat (length lead)) (v <=. f_of_Z 24) (v <=. f_of_Z 168) (v <=. f_of_Z 720))
    /\ (let v := m_Value (MTTR r) in is_median restore v
        /\ m_Class (MTTR r) = band (0 <? Z.of_nat (length restore)) (v <=. fone) (v <=. f_of_Z 24) (v <=. f_of_Z 168))
    /\ DailyDeployTrend r = (fun i => let day := FormatDate (AddDays from i) in
          mkPoint day (count (fun d => String.eqb (FormatDate (dp_TS d)) day))) <$> seqZ 0 (w + 1)
    /\ sum_Z (pt_Count <$> DailyDeployTrend r) = TotalDeploys r
    /\ forall ds', ds' ≡ₚ ds -> ComputeDORA ds' windowDays now clock = Some r.
Proof.
  intros Hmax Hnow w from window lead restore count Hfrom Hto. pose proof (window_days_pos windowDays) as Hw.
  assert (Hn : now = AddDays from w) by (unfold from; by rewrite AddDays_add, Z.add_opp_diag_l, AddDays_0).
  assert (Ewin : List.filter (in_window from now) ds = window).
  { apply List.filter_ext. intros d. unfold in_window, Before. by rewrite !Z.leb_antisym. }
  destruct (dora_of_Some w now from window) as [r Hr].
  { unfold w, max_int64 in *. destruct (windowDays <=? 0); lia. }
  exists r. pose proof (ComputeDORA_eq ds windowDays now clock Hnow) as E. cbv zeta in E.
  change (window_days windowDays) with w in *. fold from in E. rewrite Ewin, Hr in E.
  split; [exact E|]. assert (Hperm : forall ds', ds' ≡ₚ ds -> ComputeDORA ds' windowDays now clock = Some r)
    by (intros ds' Hp; by rewrite (ComputeDORA_perm ds' ds)).
  assert (Htrend : sum_Z (pt_Count <$> (trend_point (fun k => days_on k window) from <$> seqZ 0 (w + 1)))
    = Z.of_nat (length window)).
  { apply trend_total; [exact Hw|exact Hfrom|by rewrite <- Hn|]. rewrite <- Hn, <- Ewin. intros d Hd. by apply filter_In in Hd as [_ Hd]. }
  clear E Hn Ewin. unfold dora_of in Hr.
  repeat match type of Hr with (_ ≫= _ = Some _) => apply bind_Some in Hr as (? & ? & Hr) end.
  injection Hr as <-. pose proof (number_split dp_Successful window) as Hsplit.
  cbn [WindowDays From_ To_ TotalDeploys Successful Failed DeployFrequency LeadTime ChangeFailureRate MTTR DailyDeployTrend
    m_Value m_Class]. cbv zeta.
  repeat match goal with H : median _ = Some _ |- _ => apply median_spec in H end.
  split; [done|]. repeat (split; [first [reflexivity|exact Hsplit]|]).
  split; [split; [reflexivity|apply bands, Nat2Z.is_nonneg]|].
  split; [split; [reflexivity|apply bands, Nat2Z.is_nonneg]|].
  split; [split; [assumption|apply bands, Nat2Z.is_nonneg]|].
  split; [split; [assumption|apply bands, Nat2Z.is_nonneg]|].
  split; [reflexivity|]. split; [exact Htrend|exact Hperm].
Qed.

(** ** An example *)

Definition demo_deployment (id : string) (t : Time) (ok : bool) (lead restore : Z) : Deployment :=
  mkDeployment id "p1" t "1.0" ok (f_of_Z lead) (f_of_Z restore) "".

Definition demo_now : Time := midnight 20600 + 10 ^ 9.

Definition demo_deployments : list Deployment :=
  [demo_deployment "d1" (midnight 20599) true 30 0; demo_deployment "d2" (midnight 20593 + 10 ^ 9) false 0 5;
   demo_deployment "d3" (midnight 20600) true 10 0; demo_deployment "d4" (midnight 20592) true 10 0]%string.

Lemma ComputeDORA_spec_witness : exists r, ComputeDORA demo_deployments 7 demo_now 0 = Some r
  /\ TotalDeploys r = 3 /\ m_Value (DeployFrequency r) = f_of_Z 3 ⊘ f_of_Z 7
  /\ m_Value (ChangeFailureRate r) = f_of_Z 1 ⊘ f_of_Z 3 /\ sum_Z (pt_Count <$> DailyDeployTrend r) = 3.
Proof.
  destruct (ComputeDORA_spec demo_deployments 7 demo_now 0)
    as (r & Hr & _ & Ht & _ & Hf & _ & [Hq _] & [Hc _] & _ & _ & _ & Hs & _).
  - discriminate.
  - discriminate.
  - vm_compute. split; [discriminate|reflexivity].
  - vm_compute. split; [discriminate|reflexivity].
  - assert (E : TotalDeploys r = 3) by (rewrite Ht; vm_compute; reflexivity).
    assert (Ef : Failed r = 1) by (rewrite Hf; vm_compute; reflexivity).
    exists r. split; [exact Hr|]. rewrite E in *. split; [reflexivity|]. split; [exact Hq|].
    split; [rewrite Hc, Ef; reflexivity|exact Hs].
Defined.
