(* ===== verification/Agile.v ===== *)
(** * The agile pack of a project file (agile/agile.go, agile/store.go)

    Boards with their columns, work items, sprints and deployments of one project,
    and the metrics the desktop computes from the deployments (ComputeDORA of
    desktop/app_agile.go).  Times are in UTC. *)

From S2P Require Import Prelude GoFloat GoStrings GoTime GoJson Wbs ProjectDb AuditChain Charts Dora.

Local Open Scope Z_scope.

(** ** Columns of the tables *)

(** A REAL column: SQLite has no NaN and stores NULL for it, which NOT NULL refuses;
    it stores the zeros alike. *)
Definition real_column (x : f64) : option f64 :=
  if is_nan x then None else Some (if x ==. fzero then fzero else x).

(** strftime('%Y-%m-%dT%H:%M:%fZ','now'): milliseconds. *)
Definition strftime_now (t : Time) : Time := t / 10 ^ 6 * 10 ^ 6.

(** ** Boards and columns *)

Definition DefaultColumns (boardID : string) : list Column :=
  [mkColumn "todo" boardID "To Do" 0 0; mkColumn "doing" boardID "In Progress" 1 3;
   mkColumn "review" boardID "Review" 2 3; mkColumn "done" boardID "Done" 3 0]%string.

Definition isBuiltInColumn (id : string) : bool :=
  existsb (fun c => String.eqb (col_ID c) id) (DefaultColumns "").

Definition default_boards (pid : string) (d : ProjectDB) : list Board :=
  filter (fun b => bd_ProjectID b = pid /\ bd_IsDefault b = true) (map_to_list (agile_boards (agile d))).*2.

Definition sql_insert_board (b : Board) (d : ProjectDB) : option ProjectDB :=
  match agile_boards (agile d) !! bd_ID b with
  | Some _ => None
  | None =>
      if bool_decide (bd_ProjectID b ∈ projects d)
      then Some (set_boards (<[bd_ID b := b]> (agile_boards (agile d))) d)
      else None
  end.

(** [ON CONFLICT(id) DO NOTHING]. *)
Definition sql_seed_column (c : Column) (d : ProjectDB) : option ProjectDB :=
  match agile_columns (agile d) !! col_ID c with
  | Some _ => Some d
  | None =>
      match agile_boards (agile d) !! col_BoardID c with
      | Some _ => Some (set_columns (<[col_ID c := c]> (agile_columns (agile d))) d)
      | None => None
      end
  end.

Definition owned_board (boardID pid : string) (d : ProjectDB) : bool :=
  match agile_boards (agile d) !! boardID with
  | Some b => String.eqb (bd_ProjectID b) pid
  | None => false
  end.

(** The board must exist; an existing column keeps it, and the update of another
    board's column changes no row. *)
Definition sql_upsert_column (c : Column) (d : ProjectDB) : option (nat * ProjectDB) :=
  match agile_columns (agile d) !! col_ID c with
  | None =>
      match agile_boards (agile d) !! col_BoardID c with
      | Some _ => Some (1%nat, set_columns (<[col_ID c := c]> (agile_columns (agile d))) d)
      | None => None
      end
  | Some old =>
      if String.eqb (col_BoardID old) (col_BoardID c)
      then Some (1%nat, set_columns (<[col_ID c := c]> (agile_columns (agile d))) d)
      else Some (0%nat, d)
  end.

(** The work items of a project in a state. *)
Definition items_in (pid state : string) (d : ProjectDB) : list WorkItem :=
  filter (fun w => wi_ProjectID w = pid /\ wi_State w = state) (map_to_list (agile_work_items (agile d))).*2.

Definition sql_delete_column (id pid : string) (d : ProjectDB) : option (nat * ProjectDB) :=
  match agile_columns (agile d) !! id with
  | Some c =>
      if owned_board (col_BoardID c) pid d && bool_decide (items_in pid id d = [])
      then Some (1%nat, set_columns (delete id (agile_columns (agile d))) d)
      else Some (0%nat, d)
  | None => Some (0%nat, d)
  end.

Definition column_order (a b : Column) : Prop := col_OrderIdx a <= col_OrderIdx b.

#[export] Instance column_order_dec a b : Decision (column_order a b).
Proof. unfold column_order. apply _. Defined.

Section boards.
Context `{DbEnv}.

Definition requireOneRow (n : nat) (notFound : DbError) : DbTx unit := dtx_guard (negb (Nat.eqb n 0)) notFound.

Fixpoint seed_columns (l : list Column) : DbTx unit :=
  match l with
  | [] => dtx_ret ()
  | c :: l' => _ <== dtx_exec (sql_seed_column c) ;; seed_columns l'
  end.

Definition ensureDefaultColumns (boardID : string) : DbTx unit := seed_columns (DefaultColumns boardID).

(** One call; [again] is the recursive one.  Columns of a board that exists are
    inserted one by one, those of a new board in its transaction. *)
Definition ensure_board (pid : string) (again : DbTx Board) : DbTx Board :=
  rows <== dtx_rows (fun d => Some (default_boards pid d)) ;;
  match rows with
  | b :: _ => _ <== ensureDefaultColumns (bd_ID b) ;; dtx_ret b
  | [] =>
      boardID <== newID "board" ;;
      _ <== in_tx (
        now <== dtx_now ;;
        let now := strftime_now now in
        _ <== dtx_exec (sql_insert_board (mkBoard boardID pid "Main board" true now now)) ;;
        ensureDefaultColumns boardID) ;;
      again
  end.

(** Out of fuel is an error of its own that no run reaches with two rounds. *)
Fixpoint EnsureDefaultBoard_fuel (fuel : nat) (pid : string) : DbTx Board :=
  match fuel with
  | O => dtx_fail ErrNotEncodable
  | S fuel' => ensure_board pid (EnsureDefaultBoard_fuel fuel' pid)
  end.

Definition EnsureDefaultBoard (pid : string) : DbTx Board := EnsureDefaultBoard_fuel 2 pid.

Definition ListColumns (pid boardID : string) : DbTx (list Column) :=
  rows <== dtx_rows (fun d =>
             Some (filter (fun c => col_BoardID c = boardID /\ owned_board boardID pid d = true)
                     (map_to_list (agile_columns (agile d))).*2)) ;;
  dtx_ret (merge_sort column_order rows).

Definition SaveColumn (pid : string) (c : Column) : DbTx unit :=
  id <== (if String.eqb (col_ID c) "" then newID "col" else dtx_ret (col_ID c)) ;;
  let name := TrimSpace (col_Name c) in
  _ <== dtx_guard (negb (String.eqb name "")) ErrColumnName ;;
  _ <== dtx_guard (0 <=? col_WIPLimit c) ErrColumnWIPLimit ;;
  owned <== dtx_query (fun d => Some (owned_board (col_BoardID c) pid d)) ;;
  _ <== dtx_guard owned ErrColumnNotOnBoard ;;
  n <== dtx_affected (sql_upsert_column
          (mkColumn id (col_BoardID c) name (col_OrderIdx c) (col_WIPLimit c))) ;;
  requireOneRow n ErrColumnNotOnBoard.

Definition DeleteColumn (pid id : string) : DbTx unit :=
  _ <== dtx_guard (negb (isBuiltInColumn id)) ErrBuiltInColumn ;;
  n <== dtx_affected (sql_delete_column id pid) ;;
  if (0 <? n)%nat then dtx_ret ()
  else
    items <== dtx_query (fun d => Some (Z.of_nat (length (items_in pid id d)))) ;;
    dtx_guard (negb (0 <? items)) (ColumnNotEmptyError items).

End boards.

(** ** Work items *)

Definition sql_work_item (id pid : string) (d : ProjectDB) : option (option WorkItem) :=
  Some (match agile_work_items (agile d) !! id with
        | Some w => if String.eqb (wi_ProjectID w) pid then Some w else None
        | None => None
        end).

(** [ON CONFLICT(id) DO UPDATE ... WHERE project_id = excluded.project_id]. *)
Definition updated_item (old w : WorkItem) : WorkItem :=
  mkItem (wi_ID old) (wi_ProjectID old) (wi_Type w) (wi_Title w) (wi_Description w) (wi_State w) (wi_Points w)
    (wi_Assignee w) (wi_SprintID w) (wi_Priority w) (wi_OrderIdx w) (wi_CreatedAt old) (wi_UpdatedAt w)
    (wi_ClosedAt w).

Definition sql_upsert_work_item (w : WorkItem) (d : ProjectDB) : option (nat * ProjectDB) :=
  match real_column (wi_Points w) with
  | None => None
  | Some points =>
      let w := mkItem (wi_ID w) (wi_ProjectID w) (wi_Type w) (wi_Title w) (wi_Description w) (wi_State w) points
                 (wi_Assignee w) (wi_SprintID w) (wi_Priority w) (wi_OrderIdx w) (wi_CreatedAt w)
                 (wi_UpdatedAt w) (wi_ClosedAt w) in
      match agile_work_items (agile d) !! wi_ID w with
      | None =>
          if bool_decide (wi_ProjectID w ∈ projects d)
          then Some (1%nat, set_work_items (<[wi_ID w := w]> (agile_work_items (agile d))) d)
          else None
      | Some old =>
          if String.eqb (wi_ProjectID old) (wi_ProjectID w)
          then Some (1%nat, set_work_items (<[wi_ID w := updated_item old w]> (agile_work_items (agile d))) d)
          else Some (0%nat, d)
      end
  end.

Definition sql_delete_work_item (id pid : string) (d : ProjectDB) : option ProjectDB :=
  match agile_work_items (agile d) !! id with
  | Some w =>
      if String.eqb (wi_ProjectID w) pid
      then Some (set_work_items (delete id (agile_work_items (agile d))) d) else Some d
  | None => Some d
  end.

Definition moved_item (state : string) (order : Z) (now closed : Time) (w : WorkItem) : WorkItem :=
  mkItem (wi_ID w) (wi_ProjectID w) (wi_Type w) (wi_Title w) (wi_Description w) state (wi_Points w)
    (wi_Assignee w) (wi_SprintID w) (wi_Priority w) order (wi_CreatedAt w) now
    (if String.eqb state "done" then closed else wi_ClosedAt w).

Definition sql_move_work_item (id pid state : string) (order : Z) (now closed : Time) (d : ProjectDB)
    : option ProjectDB :=
  match agile_work_items (agile d) !! id with
  | Some w =>
      if String.eqb (wi_ProjectID w) pid
      then Some (set_work_items (<[id := moved_item state order now closed w]> (agile_work_items (agile d))) d)
      else Some d
  | None => Some d
  end.

(** [order_idx ASC, created_at ASC]; the creation times are compared as text. *)
Definition item_order (a b : WorkItem) : Prop :=
  wi_OrderIdx a < wi_OrderIdx b
  \/ (wi_OrderIdx a = wi_OrderIdx b /\ String.le (RFC3339Nano (wi_CreatedAt a)) (RFC3339Nano (wi_CreatedAt b))).

#[export] Instance item_order_dec a b : Decision (item_order a b).
Proof. unfold item_order. apply _. Defined.

(** An empty filter admits every value. *)
Definition admits (wanted value : string) : Prop := wanted = ""%string \/ value = wanted.

#[export] Instance admits_dec wanted value : Decision (admits wanted value).
Proof. unfold admits. apply _. Defined.

Definition count_state (m : gmap string Z) (w : WorkItem) : gmap string Z :=
  <[wi_State w := default 0 (m !! wi_State w) + 1]> m.

Section items.
Context `{DbEnv}.

Definition GetWorkItem (pid id : string) : DbTx WorkItem :=
  r <== dtx_query (sql_work_item id pid) ;; dtx_of_option r ErrNoWorkItem.

Definition SaveWorkItem (pid : string) (wi : WorkItem) : DbTx WorkItem :=
  id <== (if String.eqb (wi_ID wi) "" then newID "wi" else dtx_ret (wi_ID wi)) ;;
  let type := default_string (wi_Type wi) "story" in
  let priority := default_string (wi_Priority wi) "medium" in
  let state := default_string (wi_State wi) "backlog" in
  closed <== (if String.eqb state "done"
              then (if wi_ClosedAt wi =? zero_time then dtx_now else dtx_ret (wi_ClosedAt wi))
              else dtx_ret zero_time) ;;
  now <== dtx_now ;;
  in_tx (
    n <== dtx_affected (sql_upsert_work_item
            (mkItem id pid type (wi_Title wi) (wi_Description wi) state (wi_Points wi) (wi_Assignee wi)
               (wi_SprintID wi) priority (wi_OrderIdx wi) now now closed)) ;;
    _ <== requireOneRow n ErrNoWorkItem ;;
    GetWorkItem pid id).

Definition ListWorkItems (pid sprintID state assignee : string) : DbTx (list WorkItem) :=
  rows <== dtx_rows (fun d =>
             Some (filter (fun w => wi_ProjectID w = pid /\ admits sprintID (wi_SprintID w)
                                    /\ admits state (wi_State w) /\ admits assignee (wi_Assignee w))
                     (map_to_list (agile_work_items (agile d))).*2)) ;;
  dtx_ret (merge_sort item_order rows).

Definition DeleteWorkItem (pid id : string) : DbTx unit := dtx_exec (sql_delete_work_item id pid).

Definition MoveWorkItem (pid id newState : string) (newOrder : Z) : DbTx unit :=
  closed <== (if String.eqb newState "done" then dtx_now else dtx_ret zero_time) ;;
  now <== dtx_now ;;
  dtx_exec (sql_move_work_item id pid newState newOrder (strftime_now now) closed).

Definition WIPCountByColumn (pid : string) : DbTx (gmap string Z) :=
  rows <== dtx_rows (fun d =>
             Some (filter (fun w => wi_ProjectID w = pid) (map_to_list (agile_work_items (agile d))).*2)) ;;
  dtx_ret (foldl count_state ∅ rows).

End items.

(** ** Sprints *)

Definition sql_sprint (id pid : string) (d : ProjectDB) : option (option Sprint) :=
  Some (match agile_sprints (agile d) !! id with
        | Some s => if String.eqb (sp_ProjectID s) pid then Some s else None
        | None => None
        end).

Definition sql_upsert_sprint (s : Sprint) (d : ProjectDB) : option (nat * ProjectDB) :=
  match real_column (sp_Capacity s) with
  | None => None
  | Some capacity =>
      let put created :=
        <[sp_ID s := mkSprint (sp_ID s) (sp_ProjectID s) (sp_Name s) (sp_Goal s) (sp_Status s) (sp_StartDate s)
                       (sp_EndDate s) capacity created]> (agile_sprints (agile d)) in
      match agile_sprints (agile d) !! sp_ID s with
      | None =>
          if bool_decide (sp_ProjectID s ∈ projects d)
          then Some (1%nat, set_sprints (put (sp_CreatedAt s)) d) else None
      | Some old =>
          if String.eqb (sp_ProjectID old) (sp_ProjectID s)
          then Some (1%nat, set_sprints (put (sp_CreatedAt old)) d) else Some (0%nat, d)
      end
  end.

(** [UPDATE agile_work_items SET sprint_id = '' WHERE sprint_id = ? AND project_id = ?]. *)
Definition leave_sprint (id pid : string) (w : WorkItem) : WorkItem :=
  if String.eqb (wi_SprintID w) id && String.eqb (wi_ProjectID w) pid
  then mkItem (wi_ID w) (wi_ProjectID w) (wi_Type w) (wi_Title w) (wi_Description w) (wi_State w) (wi_Points w)
         (wi_Assignee w) "" (wi_Priority w) (wi_OrderIdx w) (wi_CreatedAt w) (wi_UpdatedAt w) (wi_ClosedAt w)
  else w.

Definition sql_clear_sprint (id pid : string) (d : ProjectDB) : option ProjectDB :=
  Some (set_work_items (leave_sprint id pid <$> agile_work_items (agile d)) d).

Definition sql_delete_sprint (id pid : string) (d : ProjectDB) : option ProjectDB :=
  match agile_sprints (agile d) !! id with
  | Some s =>
      if String.eqb (sp_ProjectID s) pid
      then Some (set_sprints (delete id (agile_sprints (agile d))) d) else Some d
  | None => Some d
  end.

(** [created_at DESC]: texts of one width, in the order of the times. *)
Definition sprint_order (a b : Sprint) : Prop := sp_CreatedAt b <= sp_CreatedAt a.

#[export] Instance sprint_order_dec a b : Decision (sprint_order a b).
Proof. unfold sprint_order. apply _. Defined.

Section sprints.
Context `{DbEnv}.

Definition GetSprint (pid id : string) : DbTx Sprint :=
  r <== dtx_query (sql_sprint id pid) ;; dtx_of_option r ErrNoSprint.

Definition SaveSprint (pid : string) (sp : Sprint) : DbTx Sprint :=
  id <== (if String.eqb (sp_ID sp) "" then newID "sprint" else dtx_ret (sp_ID sp)) ;;
  let status := default_string (sp_Status sp) "planning" in
  in_tx (
    now <== dtx_now ;;
    n <== dtx_affected (sql_upsert_sprint
            (mkSprint id pid (sp_Name sp) (sp_Goal sp) status (sp_StartDate sp) (sp_EndDate sp) (sp_Capacity sp)
               (strftime_now now))) ;;
    _ <== requireOneRow n ErrNoSprint ;;
    GetSprint pid id).

Definition ListSprints (pid : string) : DbTx (list Sprint) :=
  rows <== dtx_rows (fun d =>
             Some (filter (fun s => sp_ProjectID s = pid) (map_to_list (agile_sprints (agile d))).*2)) ;;
  dtx_ret (merge_sort sprint_order rows).

Definition DeleteSprint (pid id : string) : DbTx unit :=
  in_tx (
    _ <== dtx_exec (sql_clear_sprint id pid) ;;
    dtx_exec (sql_delete_sprint id pid)).

End sprints.

(** ** Deployments *)

Definition sql_upsert_deployment (x : Deployment) (d : ProjectDB) : option (nat * ProjectDB) :=
  match real_column (dp_LeadTimeHours x), real_column (dp_RestoreTimeHours x) with
  | Some lead, Some restore =>
      let put := Some (1%nat, set_deployments (<[dp_ID x :=
                   mkDeployment (dp_ID x) (dp_ProjectID x) (dp_TS x) (dp_Version x) (dp_Successful x) lead restore
                     (dp_Notes x)]> (agile_deployments (agile d))) d) in
      match agile_deployments (agile d) !! dp_ID x with
      | None => if bool_decide (dp_ProjectID x ∈ projects d) then put else None
      | Some old => if String.eqb (dp_ProjectID old) (dp_ProjectID x) then put else Some (0%nat, d)
      end
  | _, _ => None
  end.

Definition sql_delete_deployment (id pid : string) (d : ProjectDB) : option ProjectDB :=
  match agile_deployments (agile d) !! id with
  | Some x =>
      if String.eqb (dp_ProjectID x) pid
      then Some (set_deployments (delete id (agile_deployments (agile d))) d) else Some d
  | None => Some d
  end.

(** [ts >= ?] and [ts DESC] on the texts of the times. *)
Definition text_since (since t : Time) : Prop := String.le (RFC3339Nano since) (RFC3339Nano t).

#[export] Instance text_since_dec since t : Decision (text_since since t).
Proof. unfold text_since. apply _. Defined.

(** No lower limit when [since] is the zero time. *)
Definition since_or_all (since : Time) (x : Deployment) : bool :=
  (since =? zero_time) || bool_decide (text_since since (dp_TS x)).

Definition deployment_order (a b : Deployment) : Prop := text_since (dp_TS b) (dp_TS a).

#[export] Instance deployment_order_dec a b : Decision (deployment_order a b).
Proof. unfold deployment_order. apply _. Defined.

Definition deployments_of (pid : string) (d : ProjectDB) : list Deployment :=
  filter (fun x => dp_ProjectID x = pid) (map_to_list (agile_deployments (agile d))).*2.

Section deployments.
Context `{DbEnv}.

(** The saved struct is returned, not read back. *)
Definition SaveDeployment (pid : string) (x : Deployment) : DbTx Deployment :=
  id <== (if String.eqb (dp_ID x) "" then newID "deploy" else dtx_ret (dp_ID x)) ;;
  ts <== (if dp_TS x =? zero_time then dtx_now else dtx_ret (dp_TS x)) ;;
  let x := mkDeployment id pid ts (dp_Version x) (dp_Successful x) (dp_LeadTimeHours x) (dp_RestoreTimeHours x)
             (dp_Notes x) in
  n <== dtx_affected (sql_upsert_deployment x) ;;
  _ <== requireOneRow n ErrNoDeployment ;;
  dtx_ret x.

Definition ListDeployments (pid : string) (since : Time) : DbTx (list Deployment) :=
  rows <== dtx_rows (fun d =>
             Some (List.filter (since_or_all since) (deployments_of pid d))) ;;
  dtx_ret (merge_sort deployment_order rows).

Definition DeleteDeployment (pid id : string) : DbTx unit := dtx_exec (sql_delete_deployment id pid).

(** [App.ComputeDORA]: the clock is read once for the query and the metrics. *)
Definition App_ComputeDORA (pid : string) (windowDays : Z) : DbTx (option DORAResult) :=
  let windowDays := if windowDays <=? 0 then 30 else windowDays in
  now <== dtx_now ;;
  let since := AddDays now (- windowDays) in
  deploys <== ListDeployments pid since ;;
  dtx_ret (ComputeDORA deploys windowDays now now).

End deployments.
