(* ===== verification/Stakeholders.v ===== *)
(** * The address book of a project (db/stakeholders.go)

    Saving, reading, listing and deleting stakeholders, with their rates in minor
    units and as floats, in a migrated file. *)

From S2P Require Import Prelude GoFloat GoStrings GoTime GoJson Money Wbs ProjectDb AuditChain Charts Dora Agile.

Local Open Scope Z_scope.

(** The minor units of an amount given in either form. *)
Definition either_units (minor : Z) (major : f64) : Z :=
  if (minor =? 0) && negb (major ==. fzero) then MinorUnits (FromMajorFloat major) else minor.

(** The defaults and both forms of the amounts, before the row is written. *)
Definition completed_stakeholder (id text : string) (s : Stakeholder) : Stakeholder :=
  let rate := either_units (st_HourlyRateMinorUnits s) (st_HourlyRate s) in
  let contract := either_units (st_ContractValueMinorUnits s) (st_ContractValue s) in
  mkStakeholder id (st_ProjectID s) (st_Name s) (st_Role s) (st_Organisation s) (st_Email s) (st_Phone s)
    (default_string (st_Category s) "team")
    (MajorFloat (mkAmount rate)) rate (MajorFloat (mkAmount contract)) contract
    (if st_Availability s <=. fzero then fone else st_Availability s)
    (st_Notes s) text text.

(** [scanStakeholder]: a row without minor units has them computed. *)
Definition scanStakeholder (s : Stakeholder) : Stakeholder :=
  let scan minor major :=
    if (minor =? 0) && negb (major ==. fzero) then (major, MinorUnits (FromMajorFloat major))
    else (MajorFloat (mkAmount minor), minor) in
  let rate := scan (st_HourlyRateMinorUnits s) (st_HourlyRate s) in
  let contract := scan (st_ContractValueMinorUnits s) (st_ContractValue s) in
  mkStakeholder (st_ID s) (st_ProjectID s) (st_Name s) (st_Role s) (st_Organisation s) (st_Email s) (st_Phone s)
    (st_Category s) rate.1 rate.2 contract.1 contract.2 (st_Availability s) (st_Notes s) (st_CreatedAt s)
    (st_UpdatedAt s).

(** ** Statements *)

(** [ON CONFLICT(id) DO UPDATE]: the project and the creation stay. *)
Definition updated_stakeholder (old s : Stakeholder) : Stakeholder :=
  mkStakeholder (st_ID old) (st_ProjectID old) (st_Name s) (st_Role s) (st_Organisation s) (st_Email s)
    (st_Phone s) (st_Category s) (st_HourlyRate s) (st_HourlyRateMinorUnits s) (st_ContractValue s)
    (st_ContractValueMinorUnits s) (st_Availability s) (st_Notes s) (st_CreatedAt old) (st_UpdatedAt s).

Definition sql_upsert_stakeholder (s : Stakeholder) (d : ProjectDB) : option ProjectDB :=
  match real_column (st_Availability s) with
  | None => None
  | Some _ =>
      match stakeholders d !! st_ID s with
      | None =>
          if bool_decide (st_ProjectID s ∈ projects d)
          then Some (set_stakeholders (<[st_ID s := s]> (stakeholders d)) d) else None
      | Some old => Some (set_stakeholders (<[st_ID s := updated_stakeholder old s]> (stakeholders d)) d)
      end
  end.

Definition sql_stakeholder (id : string) (d : ProjectDB) : option (option Stakeholder) :=
  Some (stakeholders d !! id).

Definition sql_saved_stakeholder (id pid : string) (d : ProjectDB) : option (option Stakeholder) :=
  Some (match stakeholders d !! id with
        | Some s => if String.eqb (st_ProjectID s) pid then Some s else None
        | None => None
        end).

Definition sql_delete_stakeholder (id : string) (d : ProjectDB) : option ProjectDB :=
  Some (set_stakeholders (delete id (stakeholders d)) d).

Definition stakeholder_order (a b : Stakeholder) : Prop := String.le (st_Name a) (st_Name b).

#[export] Instance stakeholder_order_dec a b : Decision (stakeholder_order a b).
Proof. unfold stakeholder_order. apply _. Defined.

(** ** Operations *)

Section operations.
Context `{DbEnv}.

Definition SaveStakeholder (s : Stakeholder) : DbTx Stakeholder :=
  id <== (if String.eqb (st_ID s) "" then newID "stk" else dtx_ret (st_ID s)) ;;
  now <== captureTimestamp ;;
  in_tx (
    _ <== dtx_exec (sql_upsert_stakeholder (completed_stakeholder id now.1 s)) ;;
    r <== dtx_query (sql_saved_stakeholder id (st_ProjectID s)) ;;
    saved <== dtx_of_option r ErrNoStakeholder ;;
    dtx_ret (scanStakeholder saved)).

Definition GetStakeholder (id : string) : DbTx Stakeholder :=
  r <== dtx_query (sql_stakeholder id) ;;
  s <== dtx_of_option r ErrNoStakeholder ;;
  dtx_ret (scanStakeholder s).

Definition ListStakeholders (projectID category : string) : DbTx (list Stakeholder) :=
  rows <== dtx_rows (fun d =>
             Some (filter (fun s => st_ProjectID s = projectID /\ admits category (st_Category s))
                     (map_to_list (stakeholders d)).*2)) ;;
  dtx_ret (scanStakeholder <$> merge_sort stakeholder_order rows).

Definition DeleteStakeholder (id : string) : DbTx unit := dtx_exec (sql_delete_stakeholder id).

End operations.
