(* ===== verification/DeletionLog.v ===== *)
(** * The deletion log of a user (deletionlog/log.go) and the recorded removal of a
      project (desktop/app_projects.go)

    The table of events behind the encrypted file, the operations on it, the replay of
    its events that the listing is compared with, and the end of DeleteProject, which
    removes files only after the request is in the log. Opening and migrating the file
    are not modelled: a migrated log starts with an empty table. *)

From S2P Require Import Prelude GoStrings GoTime ProjectDb.

Local Open Scope Z_scope.

(** ** Data *)

Definition KindRequested : string := "requested".
Definition OutcomeDeleted : string := "deleted".
Definition OutcomeFailed : string := "failed".

Record Request : Type := mkRequest {
  rq_Actor : string;
  rq_ProjectID : string;
  rq_ProjectName : string;
  rq_Location : string;
  rq_AuditEvents : Z;
  rq_AuditValid : bool;
  rq_AuditTerminalHash : string
}.

Record Deletion : Type := mkDeletion {
  del_ID : string;
  del_Actor : string;
  del_ProjectID : string;
  del_ProjectName : string;
  del_Location : string;
  del_AuditEvents : Z;
  del_AuditValid : bool;
  del_AuditTerminalHash : string;
  del_RequestedAt : string;
  del_Outcome : string;
  del_OutcomeAt : string;
  del_Detail : string
}.

(** A row of [deletion_events]; its columns about the project are those of a request. *)
Record DeletionEvent : Type := mkEvent {
  de_seq : Z;
  de_deletion_id : string;
  de_kind : string;
  de_at : string;
  de_request : Request;
  de_detail : string
}.

(** The rows in the order they were inserted and the counter of AUTOINCREMENT. *)
Record DeletionTable : Type := mkDeletionTable {
  de_rows : list DeletionEvent;
  de_counter : Z
}.

Definition empty_deletions : DeletionTable := mkDeletionTable [] 0.

(** The defaults of the columns an outcome leaves out. *)
Definition no_request : Request := mkRequest "" "" "" "" 0 false "".

Inductive LogError : Type :=
| ErrLogEntropy
| ErrLogRequest
| ErrLogOutcome (kind : string)
| ErrNoOpenRequest (kind id : string)
| ErrLogList
| ErrRemove (text : string).

(** ** Statements *)

Definition is_kind (k : string) (e : DeletionEvent) : bool := String.eqb (de_kind e) k.
Definition is_outcome (e : DeletionEvent) : bool := is_kind OutcomeDeleted e || is_kind OutcomeFailed e.
Definition of_deletion (id : string) (e : DeletionEvent) : bool := String.eqb (de_deletion_id e) id.

(** The CHECK on the kind, the unique index and the counter. *)
Definition sql_insert_deletion_event (id kind at_ : string) (r : Request) (detail : string) (t : DeletionTable)
    : option DeletionTable :=
  let seq := de_counter t + 1 in
  let e := mkEvent seq id kind at_ r detail in
  if (is_kind KindRequested e || is_outcome e)
     && negb (existsb (fun e' => of_deletion id e' && is_kind kind e') (de_rows t))
     && (de_counter t <? max_int64)
  then Some (mkDeletionTable (de_rows t ++ [e]) seq) else None.

(** INSERT … SELECT … WHERE EXISTS … AND NOT EXISTS …, with the rows it inserted. *)
Definition sql_insert_outcome (id kind at_ detail : string) (t : DeletionTable) : option (nat * DeletionTable) :=
  if existsb (fun e => of_deletion id e && is_kind KindRequested e) (de_rows t)
     && negb (existsb (fun e => of_deletion id e && is_outcome e) (de_rows t))
  then (fun t' => (1%nat, t')) <$> sql_insert_deletion_event id kind at_ no_request detail t
  else Some (0%nat, t).

Definition seq_desc (a b : DeletionEvent) : Prop := de_seq b <= de_seq a.

#[export] Instance seq_desc_dec a b : Decision (seq_desc a b).
Proof. unfold seq_desc. apply _. Defined.

Definition deletion_of (e : DeletionEvent) (outcome at_ detail : string) : Deletion :=
  let r := de_request e in
  mkDeletion (de_deletion_id e) (rq_Actor r) (rq_ProjectID r) (rq_ProjectName r) (rq_Location r)
    (rq_AuditEvents r) (rq_AuditValid r) (rq_AuditTerminalHash r) (de_at e) outcome at_ detail.

(** The LEFT JOIN with the outcomes of one request. *)
Definition outcomes_of (id : string) (rows : list DeletionEvent) : list DeletionEvent :=
  List.filter (fun o => of_deletion id o && is_outcome o) rows.

Definition join_outcomes (rows : list DeletionEvent) (e : DeletionEvent) : list Deletion :=
  match outcomes_of (de_deletion_id e) rows with
  | [] => [deletion_of e "" "" ""]
  | os => (fun o => deletion_of e (de_kind o) (de_at o) (de_detail o)) <$> os
  end.

Definition requests (rows : list DeletionEvent) : list DeletionEvent := List.filter (is_kind KindRequested) rows.

Definition sql_deletions (t : DeletionTable) : list Deletion :=
  flat_map (join_outcomes (de_rows t))
    (merge_sort seq_desc (requests (de_rows t))).

(** ** Operations

    The clock, the random source, how each commit ends, the queries that fail, and for
    each call of the operating system the paths it cannot remove and its message. *)

Class LogEnv := {
  log_clock : nat -> Time;
  log_entropy : nat -> option string;
  log_commit : nat -> CommitOutcome;
  log_query_fails : nat -> bool;
  os_keeps : nat -> string -> bool;
  os_error : nat -> string
}.

Record LogWorld : Type := mkLogWorld {
  lw_log : DeletionTable;
  lw_files : gset string;
  lw_clock : nat;
  lw_random : nat;
  lw_statements : nat;
  lw_syscalls : nat
}.

Definition set_log (t : DeletionTable) (w : LogWorld) : LogWorld :=
  mkLogWorld t (lw_files w) (lw_clock w) (lw_random w) (lw_statements w) (lw_syscalls w).

Section operations.
Context `{LogEnv}.

Definition log_now (w : LogWorld) : string * LogWorld :=
  (RFC3339Nano (log_clock (lw_clock w)),
   mkLogWorld (lw_log w) (lw_files w) (S (lw_clock w)) (lw_random w) (lw_statements w) (lw_syscalls w)).

(** [newID]: sixteen random bytes in hexadecimal. *)
Definition log_newID (w : LogWorld) : result LogError string * LogWorld :=
  (match log_entropy (lw_random w) with
   | Some b => Ok ("deletion_" +:+ hex_encode b)%string
   | None => Err ErrLogEntropy
   end,
   mkLogWorld (lw_log w) (lw_files w) (lw_clock w) (S (lw_random w)) (lw_statements w) (lw_syscalls w)).

(** One statement in a transaction of its own. *)
Definition log_exec {A} (f : DeletionTable -> option (A * DeletionTable)) (failed : LogError) (w : LogWorld)
    : result LogError A * LogWorld :=
  let w1 := mkLogWorld (lw_log w) (lw_files w) (lw_clock w) (lw_random w) (S (lw_statements w)) (lw_syscalls w) in
  match f (lw_log w) with
  | None => (Err failed, w1)
  | Some (a, t) =>
      match log_commit (lw_statements w) with
      | Committed => (Ok a, set_log t w1)
      | RolledBack => (Err failed, w1)
      | CommitUncertain => (Err failed, set_log t w1)
      end
  end.

Definition Requested (r : Request) (w : LogWorld) : result LogError string * LogWorld :=
  match log_newID w with
  | (Err e, w1) => (Err e, w1)
  | (Ok id, w1) =>
      let '(now, w2) := log_now w1 in
      log_exec (fun t => (fun t' => (id, t')) <$> sql_insert_deletion_event id KindRequested now r "" t) ErrLogRequest w2
  end.

Definition outcome (id kind detail : string) (w : LogWorld) : result LogError unit * LogWorld :=
  let '(now, w1) := log_now w in
  match log_exec (sql_insert_outcome id kind now detail) (ErrLogOutcome kind) w1 with
  | (Err e, w2) => (Err e, w2)
  | (Ok n, w2) => if Nat.eqb n 1 then (Ok (), w2) else (Err (ErrNoOpenRequest kind id), w2)
  end.

Definition Deleted (id : string) : LogWorld -> result LogError unit * LogWorld := outcome id OutcomeDeleted "".

(** [cause] is the text of the error, when there is one. *)
Definition Failed (id : string) (cause : option string) : LogWorld -> result LogError unit * LogWorld :=
  outcome id OutcomeFailed (default "" cause).

(** [Log.List]. *)
Definition ListDeletions (w : LogWorld) : result LogError (list Deletion) * LogWorld :=
  (if log_query_fails (lw_statements w) then Err ErrLogList else Ok (sql_deletions (lw_log w)),
   mkLogWorld (lw_log w) (lw_files w) (lw_clock w) (lw_random w) (S (lw_statements w)) (lw_syscalls w)).

(** ** Removing the files of a project *)

(** [filepath.Dir] of a path that [filepath.Clean] leaves as it is. *)
Fixpoint drop_base (l : list ascii) : list ascii :=
  match l with
  | [] => []
  | c :: l' => if Ascii.eqb c "/" then l' else drop_base l'
  end.

Definition filepath_Dir (path : string) : string :=
  if existsb (Ascii.eqb "/") (bytes_of path) then
    match drop_base (rev (bytes_of path)) with
    | [] => "/"
    | l => string_of (rev l)
    end
  else ".".

Definition under (dir path : string) : bool := String.eqb path dir || HasPrefix path (dir +:+ "/").

Definition set_files (s : gset string) (w : LogWorld) : LogWorld :=
  mkLogWorld (lw_log w) s (lw_clock w) (lw_random w) (lw_statements w) (S (lw_syscalls w)).

(** [os.RemoveAll]: everything below that the system lets go; an error when something
    stays. *)
Definition os_RemoveAll (dir : string) (w : LogWorld) : result LogError unit * LogWorld :=
  let stays p := negb (under dir p) || os_keeps (lw_syscalls w) p in
  let s := filter (fun p => stays p = true) (lw_files w) in
  (if bool_decide (filter (fun p => under dir p = true) s = ∅) then Ok () else Err (ErrRemove (os_error (lw_syscalls w))),
   set_files s w).

(** [os.Remove] of a file, where an error of a missing one is no error. *)
Definition os_Remove (p : string) (w : LogWorld) : result LogError unit * LogWorld :=
  if bool_decide (p ∈ lw_files w) && os_keeps (lw_syscalls w) p
  then (Err (ErrRemove (os_error (lw_syscalls w))), set_files (lw_files w) w)
  else (Ok (), set_files (lw_files w ∖ {[p]}) w).

Fixpoint remove_each (ps : list string) (w : LogWorld) : result LogError unit * LogWorld :=
  match ps with
  | [] => (Ok (), w)
  | p :: ps' =>
      match os_Remove p w with
      | (Err e, w1) => (Err e, w1)
      | (Ok _, w1) => remove_each ps' w1
      end
  end.

Definition removeProjectFiles (path projectsDir : string) (w : LogWorld) : result LogError unit * LogWorld :=
  let parent := filepath_Dir path in
  if negb (String.eqb parent projectsDir) then os_RemoveAll parent w
  else remove_each [path; path +:+ "-wal"; path +:+ "-shm"]%string w.

Definition error_text (e : LogError) : option string :=
  match e with ErrRemove text => Some text | _ => None end.

(** [DeleteProject] from the record of the request on: nothing is removed without it. *)
Definition delete_recorded (req : Request) (path projectsDir : string) (w : LogWorld)
    : result LogError unit * LogWorld :=
  match Requested req w with
  | (Err e, w1) => (Err e, w1)
  | (Ok id, w1) =>
      match removeProjectFiles path projectsDir w1 with
      | (Err e, w2) => (Err e, (Failed id (error_text e) w2).2)
      | (Ok _, w2) => (Ok (), (Deleted id w2).2)
      end
  end.

End operations.

Example filepath_Dir_examples :
  filepath_Dir "/home/u/projects/x_1/project.gopmgr" = "/home/u/projects/x_1"%string
  /\ filepath_Dir "/a" = "/"%string /\ filepath_Dir "a" = "."%string.
Proof. by vm_compute. Qed.

(** ** The log as a sequence of deletions

    What a log promises: a list of deletions, newest first, each open until it gets one
    outcome, that only the operations below change. *)

Definition spec_request (id at_ : string) (r : Request) (l : list Deletion) : list Deletion :=
  deletion_of (mkEvent 0 id KindRequested at_ r "") "" "" "" :: l.

Definition close_deletion (id kind at_ detail : string) (d : Deletion) : Deletion :=
  if String.eqb (del_ID d) id then
    mkDeletion (del_ID d) (del_Actor d) (del_ProjectID d) (del_ProjectName d) (del_Location d) (del_AuditEvents d)
      (del_AuditValid d) (del_AuditTerminalHash d) (del_RequestedAt d) kind at_ detail
  else d.

Definition is_open (id : string) (l : list Deletion) : bool :=
  existsb (fun d => String.eqb (del_ID d) id && String.eqb (del_Outcome d) "") l.

Definition spec_outcome (id kind at_ detail : string) (l : list Deletion) : option (list Deletion) :=
  if is_open id l then Some (close_deletion id kind at_ detail <$> l) else None.

(** The state of the log, by replaying its events. *)
Definition replay_event (l : list Deletion) (e : DeletionEvent) : list Deletion :=
  if is_kind KindRequested e then spec_request (de_deletion_id e) (de_at e) (de_request e) l
  else close_deletion (de_deletion_id e) (de_kind e) (de_at e) (de_detail e) <$> l.

Definition replay (rows : list DeletionEvent) : list Deletion := fold_left replay_event rows [].

(** ** The rows a log can hold *)

(** A request has a new identifier; an outcome follows the request it ends, once. *)
Inductive log_rows : list DeletionEvent -> Prop :=
| rows_empty : log_rows []
| rows_request rows id at_ r :
    log_rows rows -> (forall e, e ∈ rows -> de_deletion_id e <> id) ->
    log_rows (rows ++ [mkEvent (Z.of_nat (length rows) + 1) id KindRequested at_ r ""])
| rows_outcome rows id kind at_ detail :
    log_rows rows -> kind = OutcomeDeleted \/ kind = OutcomeFailed ->
    (exists e, e ∈ rows /\ de_deletion_id e = id /\ de_kind e = KindRequested) ->
    (forall e, e ∈ rows -> de_deletion_id e = id -> de_kind e = KindRequested) ->
    log_rows (rows ++ [mkEvent (Z.of_nat (length rows) + 1) id kind at_ no_request detail]).

Definition log_ok (t : DeletionTable) : Prop :=
  log_rows (de_rows t) /\ de_counter t = Z.of_nat (length (de_rows t)).

Lemma is_kind_spec k e : is_kind k e = true <-> de_kind e = k.
Proof. apply String.eqb_eq. Qed.

Lemma of_deletion_spec id e : of_deletion id e = true <-> de_deletion_id e = id.
Proof. apply String.eqb_eq. Qed.

Lemma is_outcome_spec e : is_outcome e = true <-> de_kind e = OutcomeDeleted \/ de_kind e = OutcomeFailed.
Proof. unfold is_outcome. by rewrite orb_true_iff, !is_kind_spec. Qed.

Lemma existsb_false {A} (f : A -> bool) l : existsb f l = false <-> forall x, x ∈ l -> f x = false.
Proof.
  induction l as [|x l IH]; cbn; [split; [intros _ y Hy; by apply not_elem_of_nil in Hy|done]|].
  rewrite orb_false_iff, IH. setoid_rewrite elem_of_cons. split; [intros [H1 H2] y [->|Hy]; auto|auto].
Qed.

Lemma existsb_true {A} (f : A -> bool) l : existsb f l = true <-> exists x, x ∈ l /\ f x = true.
Proof. rewrite existsb_exists. by setoid_rewrite list_elem_of_In. Qed.

Lemma log_rows_seq rows : log_rows rows ->
  forall i e, rows !! i = Some e -> de_seq e = Z.of_nat i + 1.
Proof.
  induction 1 as [|rows id at_ r _ IH|rows id kind at_ detail _ IH]; intros i e He; [done| |];
    (apply lookup_app_Some in He as [He|[Hl He]]; [by apply IH|]); apply list_lookup_singleton_Some in He as [E <-]; cbn; lia.
Qed.

(** Every row of an identifier with no request is absent; an identifier has a request
    when it has any row. *)
Lemma log_rows_requested rows : log_rows rows ->
  forall e, e ∈ rows -> exists q, q ∈ rows /\ de_deletion_id q = de_deletion_id e /\ de_kind q = KindRequested.
Proof.
  induction 1 as [|rows id at_ r _ IH _|rows id kind at_ detail _ IH _ (q & Hq & Hqi & Hqk) _]; intros e He;
    [by apply not_elem_of_nil in He| |]; apply elem_of_app in He as [He|He].
  - destruct (IH _ He) as (q & Hq & H). exists q. split; [by apply elem_of_app; left|done].
  - apply list_elem_of_singleton in He as ->. eexists. split; [apply elem_of_app; right; by apply list_elem_of_singleton|done].
  - destruct (IH _ He) as (q' & Hq' & H). exists q'. split; [by apply elem_of_app; left|done].
  - apply list_elem_of_singleton in He as ->. exists q. split; [by apply elem_of_app; left|done].
Qed.

Lemma log_rows_kind rows : log_rows rows -> forall e, e ∈ rows -> is_kind KindRequested e = negb (is_outcome e).
Proof.
  induction 1 as [|rows id at_ r _ IH _|rows id kind at_ detail _ IH Hk _ _]; intros e He;
    [by apply not_elem_of_nil in He| |]; (apply elem_of_app in He as [He|He]; [by apply IH|]);
    apply list_elem_of_singleton in He as ->; [done|by destruct Hk as [->| ->]].
Qed.

(** ** Statements keep it *)

Lemma insert_request_ok id at_ r t t' : log_ok t ->
  sql_insert_deletion_event id KindRequested at_ r "" t = Some t' ->
  log_ok t' /\ replay (de_rows t') = spec_request id at_ r (replay (de_rows t))
  /\ exists e, de_rows t' = de_rows t ++ [e].
Proof.
  intros [Hr Hc]. unfold sql_insert_deletion_event. cbn zeta.
  destruct (existsb _ (de_rows t)) eqn:Ex; cbn [negb]; [rewrite andb_false_r; done|].
  destruct (_ && _ && _); [|done]. intros [= <-]. rewrite Hc. cbn [de_rows].
  split_and!.
  - split; cbn [de_rows de_counter]; [|rewrite length_app; cbn; lia]. apply rows_request; [exact Hr|].
    intros e He Hi. destruct (log_rows_requested _ Hr _ He) as (q & Hq & Hqi & Hqk).
    rewrite existsb_false in Ex. specialize (Ex _ Hq).
    rewrite (proj2 (of_deletion_spec id q)), (proj2 (is_kind_spec _ q) Hqk) in Ex; [done|congruence].
  - unfold replay. rewrite fold_left_app. done.
  - by eexists.
Qed.

Lemma insert_outcome_ok id kind at_ detail t n t' : kind = OutcomeDeleted \/ kind = OutcomeFailed -> log_ok t ->
  sql_insert_outcome id kind at_ detail t = Some (n, t') ->
  log_ok t' /\ (n = 0%nat /\ t' = t \/ n = 1%nat /\ (exists e, de_rows t' = de_rows t ++ [e])
     /\ replay (de_rows t') = close_deletion id kind at_ detail <$> replay (de_rows t)).
Proof.
  intros Hk [Hr Hc]. unfold sql_insert_outcome. destruct (existsb _ _ && negb _) eqn:Eg.
  2: { intros [= <- <-]. split; [by split|by left]. }
  apply andb_true_iff in Eg as [Hq%existsb_true Ho%negb_true_iff]. rewrite existsb_false in Ho.
  unfold sql_insert_deletion_event. cbn zeta. destruct (_ && _ && _); [|done]. intros [= <- <-]. rewrite Hc. cbn [de_rows].
  split; [|right; split_and!; [done|by eexists|]].
  - split; cbn [de_rows de_counter]; [|rewrite length_app; cbn; lia]. apply rows_outcome; [exact Hr|exact Hk| |].
    + destruct Hq as (e & He & [Hi%of_deletion_spec Hk'%is_kind_spec]%andb_true_iff). by exists e.
    + intros e He Hi. apply is_kind_spec. rewrite (log_rows_kind _ Hr _ He). specialize (Ho _ He).
      rewrite (proj2 (of_deletion_spec _ _) Hi) in Ho. cbn [andb] in Ho. by rewrite Ho.
  - unfold replay. rewrite fold_left_app. cbn. unfold replay_event, is_kind. cbn. by destruct Hk as [-> | ->].
Qed.

(** ** The listing is the replay *)

#[export] Instance seq_desc_total : Total seq_desc.
Proof. intros a b. unfold seq_desc. lia. Qed.

#[export] Instance seq_desc_trans : Transitive seq_desc.
Proof. intros a b c. unfold seq_desc. lia. Qed.

Lemma requests_elem rows e : e ∈ requests rows <-> e ∈ rows /\ de_kind e = KindRequested.
Proof. unfold requests. rewrite !list_elem_of_In, filter_In. by rewrite is_kind_spec. Qed.

Lemma log_rows_snoc rows e : log_rows (rows ++ [e]) -> log_rows rows.
Proof.
  inversion 1 as [E|rows' id at_ r Hr _ E|rows' id kind at_ detail Hr _ _ _ E]; [by destruct rows| |];
    by apply app_inj_tail in E as [<- _].
Qed.

Lemma requests_sorted rows : log_rows rows -> StronglySorted seq_desc (rev (requests rows)).
Proof.
  induction rows as [|e rows IH] using rev_ind; [constructor|]. intros Hr. pose proof (log_rows_snoc _ _ Hr) as Hr'.
  unfold requests. rewrite List.filter_app. cbn [List.filter]. destruct (is_kind _ e); [|by rewrite app_nil_r; apply IH].
  rewrite rev_app_distr. cbn [rev app]. constructor; [by apply IH|]. apply Forall_forall. intros x Hx.
  rewrite list_elem_of_In, <- in_rev, <- list_elem_of_In in Hx. apply requests_elem in Hx as [Hx _].
  apply list_elem_of_lookup in Hx as [i Hi]. pose proof (lookup_lt_Some _ _ _ Hi) as Hlt. unfold seq_desc.
  rewrite (log_rows_seq _ Hr' _ _ Hi).
  rewrite (log_rows_seq _ Hr (length rows) e) by (by rewrite lookup_app_r, Nat.sub_diag). lia.
Qed.

Lemma sorted_requests rows : log_rows rows -> merge_sort seq_desc (requests rows) = rev (requests rows).
Proof.
  intros Hr. apply (StronglySorted_unique_strong seq_desc).
  - intros x y Hx Hy H1 H2. rewrite merge_sort_Permutation in Hx. rewrite <- Permutation_rev in Hy.
    apply requests_elem in Hx as [[i Hi]%list_elem_of_lookup _], Hy as [[j Hj]%list_elem_of_lookup _].
    unfold seq_desc in *. rewrite (log_rows_seq _ Hr _ _ Hi), (log_rows_seq _ Hr _ _ Hj) in *.
    assert (i = j) as -> by lia. congruence.
  - apply StronglySorted_merge_sort; apply _.
  - by apply requests_sorted.
  - rewrite merge_sort_Permutation. apply Permutation_rev.
Qed.

Definition listing (rows : list DeletionEvent) : list Deletion := flat_map (join_outcomes rows) (rev (requests rows)).

Lemma outcomes_none id rows :
  (forall e, e ∈ rows -> de_deletion_id e = id -> de_kind e = KindRequested) -> outcomes_of id rows = [].
Proof.
  intros Hn. unfold outcomes_of. induction rows as [|e rows IH]; [done|]. cbn [List.filter].
  rewrite IH by (intros e' He'; apply Hn; by apply elem_of_cons; right).
  destruct (of_deletion id e) eqn:E; [|done]. apply of_deletion_spec in E. cbn [andb].
  unfold is_outcome, is_kind. by rewrite (Hn e) by (done || by apply elem_of_cons; left).
Qed.

Lemma join_other rows e q : of_deletion (de_deletion_id q) e && is_outcome e = false ->
  join_outcomes (rows ++ [e]) q = join_outcomes rows q.
Proof. intros He. unfold join_outcomes, outcomes_of. rewrite List.filter_app. cbn [List.filter]. by rewrite He, app_nil_r. Qed.

Lemma flat_map_ext_elem {A B} (f g : A -> list B) l : (forall x, x ∈ l -> f x = g x) -> flat_map f l = flat_map g l.
Proof.
  induction l as [|x l IH]; intros H; [done|]. cbn. rewrite (H x), IH; [done|..].
  - intros y Hy. apply H. by apply elem_of_cons; right.
  - by apply elem_of_cons; left.
Qed.

Lemma flat_map_fmap {A B C} (f : A -> list B) (g : B -> C) l : g <$> flat_map f l = flat_map (fun x => g <$> f x) l.
Proof. induction l as [|x l IH]; [done|]. cbn. by rewrite fmap_app, IH. Qed.

Lemma join_ids rows q d : d ∈ join_outcomes rows q -> del_ID d = de_deletion_id q.
Proof.
  unfold join_outcomes. destruct (outcomes_of _ rows) as [|o os]; [by intros ->%list_elem_of_singleton|].
  by intros (o' & -> & _)%list_elem_of_fmap.
Qed.

Lemma listing_replay rows : log_rows rows -> listing rows = replay rows.
Proof.
  induction 1 as [|rows id at_ r Hr IH Hnew|rows id kind at_ detail Hr IH Hk Hq Ho]; [done| |];
    unfold listing, replay, requests; rewrite List.filter_app, fold_left_app; cbn [List.filter fold_left].
  - change (is_kind KindRequested _) with true. rewrite rev_app_distr. cbn [rev app flat_map].
    change (fold_left replay_event rows []) with (replay rows). rewrite <- IH.
    set (e := mkEvent _ _ _ _ _ _).
    assert (He : forall q, join_outcomes (rows ++ [e]) q = join_outcomes rows q).
    { intros q. apply join_other. by rewrite andb_false_r. }
    rewrite He. unfold join_outcomes at 1. change (de_deletion_id e) with id.
    rewrite outcomes_none by (intros e' H1 H2; by destruct (Hnew e')).
    unfold listing, requests. by erewrite flat_map_ext.
  - assert (Hkind : is_kind KindRequested (mkEvent (Z.of_nat (length rows) + 1) id kind at_ no_request detail) = false)
      by (by destruct Hk as [-> | ->]).
    rewrite Hkind, app_nil_r. change (fold_left replay_event rows []) with (replay rows). rewrite <- IH.
    unfold replay_event. rewrite Hkind. cbn [de_deletion_id de_kind de_at de_detail]. unfold listing, requests.
    rewrite flat_map_fmap. apply flat_map_ext_elem. intros q _.
    destruct (String.eqb_spec (de_deletion_id q) id) as [Eq|Eq].
    + unfold join_outcomes. rewrite Eq. unfold outcomes_of at 1. rewrite List.filter_app.
      change (List.filter (fun o => of_deletion id o && is_outcome o) rows) with (outcomes_of id rows).
      rewrite outcomes_none by exact Ho. cbn [List.filter app]. unfold of_deletion. cbn [de_deletion_id].
      rewrite String.eqb_refl. rewrite (proj2 (is_outcome_spec (mkEvent _ _ _ _ _ _))) by exact Hk. cbn.
      unfold close_deletion. cbn. by rewrite (proj2 (String.eqb_eq _ _) Eq).
    + rewrite join_other by (unfold of_deletion; cbn; by rewrite (proj2 (String.eqb_neq _ _)) by congruence).
      rewrite <- (list_fmap_id (join_outcomes rows q)) at 1. apply list_fmap_ext. intros i d Hd.
      apply list_elem_of_lookup_2, join_ids in Hd. unfold close_deletion. by rewrite Hd, (proj2 (String.eqb_neq _ _) Eq).
Qed.

Lemma sql_deletions_replay t : log_ok t -> sql_deletions t = replay (de_rows t).
Proof.
  intros [Hr _]. unfold sql_deletions. rewrite sorted_requests by done. by apply listing_replay.
Qed.

(** ** The life of a log *)

Inductive log_step : DeletionTable -> DeletionTable -> Prop :=
| step_requested (E : LogEnv) r w x w' : Requested r w = (x, w') -> log_step (lw_log w) (lw_log w')
| step_deleted (E : LogEnv) id w x w' : Deleted id w = (x, w') -> log_step (lw_log w) (lw_log w')
| step_failed (E : LogEnv) id cause w x w' : Failed id cause w = (x, w') -> log_step (lw_log w) (lw_log w').

Definition reachable_log (t : DeletionTable) : Prop := rtc log_step empty_deletions t.

Section runs.
Context `{LogEnv}.

Lemma log_exec_effect {A} (f : DeletionTable -> option (A * DeletionTable)) failed w x w' :
  log_exec f failed w = (x, w') ->
  lw_files w' = lw_files w
  /\ ((exists a, f (lw_log w) = Some (a, lw_log w') /\ (x = Ok a \/ x = Err failed))
      \/ (x = Err failed /\ lw_log w' = lw_log w)).
Proof.
  unfold log_exec. destruct (f (lw_log w)) as [[a t]|]; [|intros [= <- <-]; auto].
  destruct (log_commit _); intros [= <- <-]; (split; [done|]); [left|by right|left]; exists a; auto.
Qed.

(** [Requested] appends one open deletion, or changes nothing. *)
Lemma Requested_effect r w x w' : log_ok (lw_log w) -> Requested r w = (x, w') ->
  lw_files w' = lw_files w /\ log_ok (lw_log w')
  /\ ((exists id at_, replay (de_rows (lw_log w')) = spec_request id at_ r (replay (de_rows (lw_log w)))
         /\ (forall e, e ∈ de_rows (lw_log w) -> de_deletion_id e <> id)
         /\ (exists e, de_rows (lw_log w') = de_rows (lw_log w) ++ [e]) /\ (x = Ok id \/ x = Err ErrLogRequest))
      \/ (is_ok x = false /\ lw_log w' = lw_log w)).
Proof.
  intros Hok. unfold Requested, log_newID, log_now. destruct (log_entropy _) as [b|].
  2: { intros [= <- <-]. auto. }
  intros [F Hx]%log_exec_effect. split; [exact F|]. destruct Hx as [(a & Hs & Hx)|[-> Hl]]; cbn [lw_log] in *.
  2: { rewrite Hl. auto. }
  destruct (sql_insert_deletion_event _ _ _ _ _ _) as [t|] eqn:Ei; [|done]. injection Hs as <- Ht. subst t.
  pose proof Ei as Ei'. apply insert_request_ok in Ei as (Hok' & Hrep & He); [|exact Hok]. split; [exact Hok'|].
  left. eexists _, _. split_and!; [exact Hrep| |exact He|exact Hx].
  intros e Hel Hi. destruct He as [e0 He0]. destruct Hok as [Hr Hc].
  destruct (log_rows_requested _ Hr _ Hel) as (q & Hq & Hqi & Hqk). unfold sql_insert_deletion_event in Ei'. cbn zeta in Ei'.
  destruct (existsb _ (de_rows (lw_log w))) eqn:Ex; [by rewrite andb_false_r in Ei'|].
  rewrite existsb_false in Ex. specialize (Ex _ Hq).
  rewrite (proj2 (of_deletion_spec _ q) (eq_trans Hqi Hi)), (proj2 (is_kind_spec _ q) Hqk) in Ex. done.
Qed.

(** An outcome closes the open deletion, or changes nothing. *)
Lemma outcome_effect id kind detail w x w' : kind = OutcomeDeleted \/ kind = OutcomeFailed -> log_ok (lw_log w) ->
  outcome id kind detail w = (x, w') ->
  lw_files w' = lw_files w /\ log_ok (lw_log w')
  /\ (((x = Ok () \/ x = Err (ErrLogOutcome kind)) /\ (exists e, de_rows (lw_log w') = de_rows (lw_log w) ++ [e])
       /\ existsb (fun e => of_deletion id e && is_kind KindRequested e) (de_rows (lw_log w))
          && negb (existsb (fun e => of_deletion id e && is_outcome e) (de_rows (lw_log w))) = true
       /\ exists at_, replay (de_rows (lw_log w')) = close_deletion id kind at_ detail <$> replay (de_rows (lw_log w)))
      \/ (lw_log w' = lw_log w
          /\ (x = Err (ErrLogOutcome kind)
              \/ x = Err (ErrNoOpenRequest kind id)
                 /\ existsb (fun e => of_deletion id e && is_kind KindRequested e) (de_rows (lw_log w))
                    && negb (existsb (fun e => of_deletion id e && is_outcome e) (de_rows (lw_log w))) = false))).
Proof.
  intros Hk Hok. unfold outcome, log_now. destruct (log_exec _ _ _) as [y w2] eqn:E.
  apply log_exec_effect in E as [F Hy]. cbn [lw_files lw_log] in *. destruct Hy as [(n & Hs & Hy)|[-> Hl]].
  2: { intros [= <- <-]. rewrite Hl. split; [exact F|split; [exact Hok|right; auto]]. }
  pose proof Hs as Hs'. apply insert_outcome_ok in Hs as (Hok' & Hn); [|exact Hk|exact Hok].
  assert (Hg : Nat.eqb n 1 = existsb (fun e => of_deletion id e && is_kind KindRequested e) (de_rows (lw_log w))
    && negb (existsb (fun e => of_deletion id e && is_outcome e) (de_rows (lw_log w)))).
  { unfold sql_insert_outcome in Hs'. destruct (_ && _); [|by injection Hs' as <- _].
    destruct (sql_insert_deletion_event _ _ _ _ _ _); [by injection Hs' as <- _|done]. }
  destruct Hn as [[-> Hl]|(-> & He & Hrep)]; destruct Hy as [-> | ->]; cbn [Nat.eqb] in *; intros [= <- <-];
    (split_and!; [exact F|exact Hok'|]); [right|right|left|left]; auto; split_and!; eauto.
Qed.

End runs.

Lemma log_step_ok t t' : log_step t t' -> log_ok t -> log_ok t'.
Proof.
  intros [E r w x w' Hr|E id w x w' Hr|E id cause w x w' Hr] Hok.
  - by apply Requested_effect in Hr as (_ & ? & _).
  - unfold Deleted in Hr. apply outcome_effect in Hr as (_ & ? & _); [done|by left|done].
  - unfold Failed in Hr. apply outcome_effect in Hr as (_ & ? & _); [done|by right|done].
Qed.

Lemma reachable_log_ok t : reachable_log t -> log_ok t.
Proof.
  apply (rtc_ind_r (fun t => log_ok t)); [by split; [constructor|]|]. intros t1 t2 _ Hs Hok. by eapply log_step_ok.
Qed.

(** What is open in the replay is a request with no outcome. *)
Lemma outcomes_of_nil id rows : existsb (fun e => of_deletion id e && is_outcome e) rows = false <-> outcomes_of id rows = [].
Proof.
  unfold outcomes_of. induction rows as [|e rows IH]; [done|]. cbn [existsb List.filter].
  destruct (of_deletion id e && is_outcome e); [split; done|exact IH].
Qed.

Lemma is_open_listing id rows : is_open id (listing rows) =
  existsb (fun e => of_deletion id e && is_kind KindRequested e) rows
  && negb (existsb (fun e => of_deletion id e && is_outcome e) rows).
Proof.
  apply eq_true_iff_eq. rewrite andb_true_iff, negb_true_iff, outcomes_of_nil. unfold is_open. rewrite !existsb_true.
  unfold listing. setoid_rewrite andb_true_iff. setoid_rewrite list_elem_of_In. setoid_rewrite in_flat_map.
  setoid_rewrite <- in_rev. setoid_rewrite <- list_elem_of_In. setoid_rewrite requests_elem. split.
  - intros (d & (q & [Hq Hk] & Hd) & Hi%String.eqb_eq & Ho%String.eqb_eq).
    pose proof (join_ids _ _ _ Hd) as Hid. assert (Hqi : de_deletion_id q = id) by congruence.
    split; [exists q; by rewrite of_deletion_spec, is_kind_spec|]. unfold join_outcomes in Hd. rewrite Hqi in Hd.
    destruct (outcomes_of id rows) as [|o os] eqn:Eo; [done|]. exfalso.
    apply list_elem_of_fmap in Hd as (o' & -> & Ho'). cbn in Ho. rewrite <- Eo in Ho'. unfold outcomes_of in Ho'.
    rewrite list_elem_of_In, filter_In in Ho'. destruct Ho' as [_ [_ [Hk'|Hk']%is_outcome_spec]%andb_true_iff]; by rewrite Hk' in Ho.
  - intros [(q & Hq & [Hqi%of_deletion_spec Hk%is_kind_spec]) Ho]. exists (deletion_of q "" "" "").
    split; [|by rewrite !String.eqb_eq]. exists q. split; [done|]. unfold join_outcomes. rewrite Hqi, Ho.
    by apply list_elem_of_singleton.
Qed.

Lemma is_open_log id t : log_ok t -> is_open id (sql_deletions t) =
  existsb (fun e => of_deletion id e && is_kind KindRequested e) (de_rows t)
  && negb (existsb (fun e => of_deletion id e && is_outcome e) (de_rows t)).
Proof. intros Hok. rewrite sql_deletions_replay by done. rewrite <- listing_replay by apply Hok. apply is_open_listing. Qed.

(** The identifiers of the deletions are those of the rows, each once. *)
Lemma close_ids id kind at_ detail (l : list Deletion) : del_ID <$> (close_deletion id kind at_ detail <$> l) = del_ID <$> l.
Proof.
  rewrite <- list_fmap_compose. apply list_fmap_ext. intros i d _. unfold compose, close_deletion.
  by destruct (String.eqb _ _).
Qed.

Lemma replay_ids_rows rows : log_rows rows ->
  NoDup (del_ID <$> replay rows)
  /\ forall id, id ∈ del_ID <$> replay rows -> exists e, e ∈ rows /\ de_deletion_id e = id.
Proof.
  induction 1 as [|rows id at_ r Hr [N I] Hnew|rows id kind at_ detail Hr [N I] Hk Hq Ho].
  - split; [by constructor|]. intros id Hid. by apply not_elem_of_nil in Hid.
  - unfold replay. rewrite fold_left_app. change (fold_left replay_event rows []) with (replay rows).
    cbn. split.
    + constructor; [|exact N]. intros (e & He & Hi)%I. by destruct (Hnew _ He).
    + intros id' [-> |Hi]%elem_of_cons.
      * eexists. split; [apply elem_of_app; right; by apply list_elem_of_singleton|done].
      * destruct (I _ Hi) as (e & He & ?). exists e. split; [by apply elem_of_app; left|done].
  - unfold replay. rewrite fold_left_app. change (fold_left replay_event rows []) with (replay rows).
    cbn [fold_left]. unfold replay_event.
    assert (Hkind : is_kind KindRequested (mkEvent (Z.of_nat (length rows) + 1) id kind at_ no_request detail) = false)
      by (by destruct Hk as [-> | ->]).
    rewrite Hkind, close_ids. split; [exact N|]. intros id' Hi. destruct (I _ Hi) as (e & He & ?). exists e.
    split; [by apply elem_of_app; left|done].
Qed.

Lemma replay_ids rows id d : log_rows rows -> (forall e, e ∈ rows -> de_deletion_id e <> id) ->
  d ∈ replay rows -> del_ID d <> id.
Proof.
  intros Hr Hn Hd Hi. destruct (replay_ids_rows _ Hr) as [_ I].
  destruct (I id) as (e & He & Hie); [apply list_elem_of_fmap; by exists d|]. by destruct (Hn _ He).
Qed.

(** C11. Every operation on a reachable log does to the listed deletions what the log
    promises: a request puts a new open deletion first, an outcome closes the one open
    deletion of its identifier, and is refused with the list unchanged when there is
    none; a statement that failed did all of that or nothing. *)
Theorem deletion_log_refines {E : LogEnv} w : reachable_log (lw_log w) ->
  let l := sql_deletions (lw_log w) in
  (forall r x w', Requested r w = (x, w') ->
     match x with
     | Ok id => (exists at_, sql_deletions (lw_log w') = spec_request id at_ r l) /\ forall d, d ∈ l -> del_ID d <> id
     | Err e => sql_deletions (lw_log w') = l
         \/ e = ErrLogRequest /\ exists id at_, sql_deletions (lw_log w') = spec_request id at_ r l
     end)
  /\ (forall id kind detail x w', kind = OutcomeDeleted \/ kind = OutcomeFailed -> outcome id kind detail w = (x, w') ->
     match x with
     | Ok _ => exists at_, spec_outcome id kind at_ detail l = Some (sql_deletions (lw_log w'))
     | Err (ErrNoOpenRequest _ _) => sql_deletions (lw_log w') = l /\ is_open id l = false
     | Err e => e = ErrLogOutcome kind /\ (sql_deletions (lw_log w') = l
         \/ exists at_, spec_outcome id kind at_ detail l = Some (sql_deletions (lw_log w')))
     end).
Proof.
  intros Hok%reachable_log_ok. cbn zeta. split.
  - intros r x w' Hr. apply Requested_effect in Hr as (_ & Hok' & Hx); [|exact Hok].
    rewrite !sql_deletions_replay by done. destruct Hx as [(id & at_ & Hs & Hnew & _ & [-> | ->])|[Hx ->]].
    + split; [by eexists|]. intros d Hd. by eapply replay_ids; [apply Hok|exact Hnew|].
    + right. eauto.
    + destruct x; [done|]. by left.
  - intros id kind detail x w' Hk Hr. apply outcome_effect in Hr as (_ & Hok' & Hx); [|exact Hk|exact Hok].
    unfold spec_outcome. rewrite (is_open_log id _ Hok). rewrite !sql_deletions_replay by done.
    destruct Hx as [(Hx & _ & Ho & at_ & Hs)|[-> [-> |[-> Ho]]]].
    + rewrite Ho, Hs. destruct Hx as [-> | ->]; [by exists at_|]. split; [done|right]. by exists at_.
    + split; [done|by left].
    + by split.
Qed.

(** ** What stays *)

(** A deletion later: itself, or closed when it was open. *)
Definition later_deletion (d d' : Deletion) : Prop :=
  d' = d \/ del_Outcome d = ""%string /\ exists kind at_ detail,
    kind <> ""%string /\ d' = close_deletion (del_ID d) kind at_ detail d.

Lemma later_id d d' : later_deletion d d' -> del_ID d' = del_ID d.
Proof.
  intros [-> |(_ & kind & at_ & detail & _ & ->)]; [done|]. unfold close_deletion. by rewrite String.eqb_refl.
Qed.

Lemma later_trans d1 d2 d3 : later_deletion d1 d2 -> later_deletion d2 d3 -> later_deletion d1 d3.
Proof.
  intros [-> |(Ho & k & a & t & Hk & ->)] H2; [done|]. destruct H2 as [-> |(Ho2 & _)].
  - right. split; [done|]. by exists k, a, t.
  - unfold close_deletion in Ho2. by rewrite String.eqb_refl in Ho2.
Qed.

(** The rows only grow and no listed deletion disappears. *)
Definition grows (t t' : DeletionTable) : Prop :=
  (exists more, de_rows t' = de_rows t ++ more)
  /\ forall d, d ∈ replay (de_rows t) -> exists d', d' ∈ replay (de_rows t') /\ later_deletion d d'.

Lemma grows_refl t : grows t t.
Proof. split; [exists []; by rewrite app_nil_r|]. intros d Hd. exists d. split; [done|by left]. Qed.

Lemma grows_trans t1 t2 t3 : grows t1 t2 -> grows t2 t3 -> grows t1 t3.
Proof.
  intros [[m1 E1] H1] [[m2 E2] H2]. split; [exists (m1 ++ m2); by rewrite E2, E1, app_assoc|].
  intros d (d2 & (d3 & Hd3 & L2)%H2 & L1)%H1. exists d3. split; [done|by eapply later_trans].
Qed.

Lemma close_grows id kind at_ detail t t' e : log_ok t -> kind <> ""%string ->
  is_open id (sql_deletions t) = true -> de_rows t' = de_rows t ++ [e] ->
  replay (de_rows t') = close_deletion id kind at_ detail <$> replay (de_rows t) -> grows t t'.
Proof.
  intros Hok Hk Ho He Hrep. split; [by exists [e]|]. intros d Hd. rewrite Hrep.
  exists (close_deletion id kind at_ detail d). split; [apply list_elem_of_fmap; by exists d|].
  destruct (String.eqb_spec (del_ID d) id) as [Ed|Ed].
  - subst id. right. split; [|by exists kind, at_, detail]. rewrite sql_deletions_replay in Ho by done.
    unfold is_open in Ho. apply existsb_true in Ho as (d' & Hd' & [Hi%String.eqb_eq Hopen%String.eqb_eq]%andb_true_iff).
    destruct (replay_ids_rows _ (proj1 Hok)) as [N _].
    apply list_elem_of_lookup in Hd as [i Hi1], Hd' as [j Hj].
    assert (i = j) as ->; [|congruence]. eapply NoDup_lookup; [exact N| |]; rewrite list_lookup_fmap; [by rewrite Hi1|].
    rewrite Hj. cbn. by rewrite Hi.
  - left. unfold close_deletion. by rewrite (proj2 (String.eqb_neq _ _) Ed).
Qed.

Lemma outcome_grows `{LogEnv} id kind detail w x w' : kind = OutcomeDeleted \/ kind = OutcomeFailed ->
  log_ok (lw_log w) -> outcome id kind detail w = (x, w') -> grows (lw_log w) (lw_log w').
Proof.
  intros Hk Hok Hr. apply outcome_effect in Hr as (_ & Hok' & Hx); [|exact Hk|exact Hok].
  destruct Hx as [(_ & [e He] & Ho & at_ & Hs)|[-> _]]; [|apply grows_refl].
  eapply close_grows; [exact Hok| |rewrite is_open_log; [exact Ho|exact Hok]|exact He|exact Hs].
  by destruct Hk as [-> | ->].
Qed.

Lemma log_step_grows t t' : log_ok t -> log_step t t' -> grows t t'.
Proof.
  intros Hok Hs. revert Hok. destruct Hs as [E r w x w' Hr|E id w x w' Hr|E id cause w x w' Hr]; intros Hok.
  - apply Requested_effect in Hr as (_ & _ & Hx); [|exact Hok].
    destruct Hx as [(id & at_ & Hs & _ & [e He] & _)|[_ ->]]; [|apply grows_refl].
    split; [by exists [e]|]. intros d Hd. exists d. split; [|by left]. rewrite Hs. by apply elem_of_cons; right.
  - eapply outcome_grows; [left; reflexivity|exact Hok|exact Hr].
  - eapply outcome_grows; [right; reflexivity|exact Hok|exact Hr].
Qed.

(** C16. Whatever is done to a reachable log, its rows stay, in their order; every listed
    deletion stays listed, as it was unless it was open, and once it has an outcome it
    never changes; no two deletions share an identifier. *)
Theorem deletion_log_append_only t t' : reachable_log t -> rtc log_step t t' ->
  (exists more, de_rows t' = de_rows t ++ more)
  /\ NoDup (del_ID <$> sql_deletions t')
  /\ forall d, d ∈ sql_deletions t -> exists d', d' ∈ sql_deletions t' /\ later_deletion d d'
       /\ (del_Outcome d <> ""%string -> d' = d).
Proof.
  intros Hreach Hs. pose proof (reachable_log_ok _ Hreach) as Hok.
  pose proof (reachable_log_ok t' (transitivity Hreach Hs)) as Hok'.
  assert (Hg : grows t t').
  { clear Hok'. revert Hok. clear Hreach. induction Hs as [t|t t1 t2 H1 _ IH]; intros Hok; [apply grows_refl|].
    eapply grows_trans; [by apply log_step_grows|]. apply IH. by eapply log_step_ok. }
  rewrite !sql_deletions_replay by done. destruct Hg as [Hm Hd]. split_and!; [exact Hm|apply replay_ids_rows, Hok'|].
  intros d (d' & Hd' & L)%Hd. exists d'. split_and!; [done|done|]. by destruct L as [-> |[? _]].
Qed.

(** ** Removing a project *)

Section removal.
Context `{LogEnv}.

(** What a removal is about: the folder of the project, or its three files. *)
Definition removed_paths (path projectsDir p : string) : bool :=
  if negb (String.eqb (filepath_Dir path) projectsDir) then under (filepath_Dir path) p
  else existsb (String.eqb p) [path; path +:+ "-wal"; path +:+ "-shm"]%string.

Lemma os_Remove_effect p w x w' : os_Remove p w = (x, w') ->
  lw_log w' = lw_log w /\ (forall q, q ∈ lw_files w' <-> q ∈ lw_files w /\ (q = p -> is_ok x = false)).
Proof.
  unfold os_Remove. destruct (_ && _); intros [= <- <-]; (split; [done|]); intros q; cbn; [tauto|]. set_solver.
Qed.

Lemma remove_each_effect ps : forall w x w', remove_each ps w = (x, w') ->
  lw_log w' = lw_log w
  /\ (forall q, q ∈ lw_files w' -> q ∈ lw_files w)
  /\ (forall q, q ∈ lw_files w -> q ∉ lw_files w' -> q ∈ ps)
  /\ (is_ok x = true -> forall q, q ∈ ps -> q ∉ lw_files w').
Proof.
  induction ps as [|p ps IH]; intros w x w'; cbn [remove_each].
  { intros [= <- <-]. split_and!; [done|done|done|]. intros _ q Hq. by apply not_elem_of_nil in Hq. }
  destruct (os_Remove p w) as [[[]|e] w1] eqn:E; apply os_Remove_effect in E as [L F]; cbn [is_ok] in F.
  - intros (L' & F1 & F2 & F3)%IH. split_and!; [congruence|set_solver| |].
    + intros q Hq Hn. destruct (decide (q = p)) as [-> |]; [by apply elem_of_cons; left|]. apply elem_of_cons; right.
      apply F2; [|exact Hn]. apply F. split; [done|]. congruence.
    + intros Hx q [-> |Hq]%elem_of_cons; [|by apply F3]. intros [_ Hp]%F1%F. by specialize (Hp eq_refl).
  - intros [= <- <-]. split_and!; [done|set_solver| |done]. intros q Hq []. apply F. by split.
Qed.

Lemma removeProjectFiles_effect path dir w x w' : removeProjectFiles path dir w = (x, w') ->
  lw_log w' = lw_log w
  /\ (forall q, q ∈ lw_files w' -> q ∈ lw_files w)
  /\ (forall q, q ∈ lw_files w -> q ∉ lw_files w' -> removed_paths path dir q = true)
  /\ (is_ok x = true -> forall q, removed_paths path dir q = true -> q ∉ lw_files w').
Proof.
  unfold removeProjectFiles, removed_paths. destruct (negb _).
  - unfold os_RemoveAll. intros [= <- <-]. cbn [lw_log lw_files set_files]. split_and!; [done|set_solver| |].
    + intros q Hq Hn. destruct (under _ q) eqn:Eu; [done|]. destruct Hn. apply elem_of_filter. by rewrite Eu.
    + case_bool_decide as He; [|done]. intros _ q Hu Hq. apply (not_elem_of_empty (C := gset string) q). rewrite <- He.
      by apply elem_of_filter.
  - intros (L & F1 & F2 & F3)%remove_each_effect. split_and!; [done|done| |].
    + intros q Hq Hn. apply existsb_true. exists q. split; [by apply F2|apply String.eqb_refl].
    + intros Hx q (p & Hp & ->%String.eqb_eq)%existsb_true. by apply F3.
Qed.

End removal.

(** C9. From the record of the request on, deleting a project removes nothing but the
    folder of the project, or its three files; and whenever something was removed, or
    success is reported, a new deletion with what the request said is first in the
    log, with the outcome that was reported or with none. After success nothing of the
    project is left. *)
Theorem delete_recorded_spec {E : LogEnv} req path projectsDir w x w' : reachable_log (lw_log w) ->
  delete_recorded req path projectsDir w = (x, w') ->
  (forall p, p ∈ lw_files w' -> p ∈ lw_files w)
  /\ (forall p, p ∈ lw_files w -> p ∉ lw_files w' -> removed_paths path projectsDir p = true)
  /\ (is_ok x = true -> forall p, removed_paths path projectsDir p = true -> p ∉ lw_files w')
  /\ (is_ok x = true \/ lw_files w' <> lw_files w ->
      exists id at_ out out_at detail,
        sql_deletions (lw_log w') = deletion_of (mkEvent 0 id KindRequested at_ req "") out out_at detail
                                      :: sql_deletions (lw_log w)
        /\ (forall d, d ∈ sql_deletions (lw_log w) -> del_ID d <> id)
        /\ (out = "" \/ out = if is_ok x then OutcomeDeleted else OutcomeFailed)%string).
Proof.
  intros Hok%reachable_log_ok. unfold delete_recorded. destruct (Requested req w) as [[id|e] w1] eqn:Er.
  2: { intros [= <- <-]. apply Requested_effect in Er as (F & _); [|exact Hok]. rewrite F.
       split_and!; [done|done|done|]. by intros [?|?]. }
  apply Requested_effect in Er as (F1 & Hok1 & Hx); [|exact Hok]. destruct Hx as [Hreq|[? _]]; [|done].
  destruct Hreq as (id' & at_ & Hs & Hnew & _ & [[= ->]|?]); [|done].
  destruct (removeProjectFiles path projectsDir w1) as [y w2] eqn:Erm.
  apply removeProjectFiles_effect in Erm as (L2 & R1 & R2 & R3). rewrite F1 in *.
  set (kind := if is_ok y then OutcomeDeleted else OutcomeFailed).
  assert (Hout : forall detail (o : result LogError unit * LogWorld), outcome id' kind detail w2 = o ->
    lw_files o.2 = lw_files w2 /\ log_ok (lw_log o.2)
    /\ exists out out_at det, (out = "" \/ out = kind)%string
      /\ replay (de_rows (lw_log o.2)) =
         deletion_of (mkEvent 0 id' KindRequested at_ req "") out out_at det :: replay (de_rows (lw_log w))).
  { intros detail [z w3] Ho. apply outcome_effect in Ho as (F3 & Hok3 & Hx3);
      [|subst kind; destruct (is_ok y); auto|by rewrite L2].
    split; [exact F3|]. split; [exact Hok3|]. destruct Hx3 as [(_ & _ & _ & at2 & Hc)|[Hl _]]; cbn [snd].
    - exists kind, at2, detail. split; [by right|]. rewrite Hc, L2, Hs. unfold spec_request. cbn [fmap list_fmap].
      f_equal; [unfold close_deletion; cbn; by rewrite String.eqb_refl|].
      transitivity (id <$> replay (de_rows (lw_log w))); [|by rewrite list_fmap_id]. apply list_fmap_ext.
      intros i d Hd. apply list_elem_of_lookup_2 in Hd. unfold close_deletion.
      rewrite (proj2 (String.eqb_neq _ _)); [done|]. eapply replay_ids; [apply Hok|exact Hnew|exact Hd].
    - exists "", "", "". split; [by left|]. by rewrite Hl, L2, Hs. }
  intros Hx. assert (Hend : exists detail, w' = (outcome id' kind detail w2).2 /\ is_ok x = is_ok y).
  { destruct y as [u|e]; injection Hx as <- <-; [by exists ""|by exists (default "" (error_text e))]. }
  clear Hx. destruct Hend as (detail & Ew & Ex). rewrite Ex.
  destruct (Hout detail _ eq_refl) as (F3 & Hok3 & out & out_at & det & Hkind & Hrep). rewrite Ew, F3.
  split_and!; [exact R1|exact R2|exact R3|]. intros _. exists id', at_, out, out_at, det.
  rewrite !sql_deletions_replay by done. split_and!; [exact Hrep| |exact Hkind].
  intros d Hd. eapply replay_ids; [apply Hok|exact Hnew|exact Hd].
Qed.

(** ** A concrete history

    Two projects are deleted; the second folder keeps a file. *)

#[local] Instance quiet : LogEnv := {|
  log_clock n := 1780000000500000000 + Z.of_nat n;
  log_entropy n := Some ("0123456789abcde" +:+ String (ascii_of_nat n) "")%string;
  log_commit _ := Committed;
  log_query_fails _ := false;
  os_keeps _ p := String.eqb p "/u/projects/b/project.gopmgr-wal";
  os_error _ := "permission denied"
|}.

Definition demo_files : gset string :=
  list_to_set ["/u/projects/a/project.gopmgr"; "/u/projects/a/project.gopmgr-wal"; "/u/projects/b/project.gopmgr";
               "/u/projects/b/project.gopmgr-wal"]%string.

Definition demo_world : LogWorld := mkLogWorld empty_deletions demo_files 0 0 0 0.
Definition demo_request (name : string) : Request := mkRequest "ada" name name (name +:+ "/project.gopmgr") 3 true "ff".

Definition demo_deleted : LogWorld :=
  (delete_recorded (demo_request "a") "/u/projects/a/project.gopmgr" "/u/projects" demo_world).2.
Definition demo_kept : result LogError unit * LogWorld :=
  delete_recorded (demo_request "b") "/u/projects/b/project.gopmgr" "/u/projects" demo_deleted.

Example demo_listed :
  (fun d => (del_ProjectID d, del_Outcome d, del_Detail d)) <$> sql_deletions (lw_log demo_kept.2)
    = [("b", "failed", "permission denied"); ("a", "deleted", "")]%string
  /\ elements (lw_files demo_kept.2) = ["/u/projects/b/project.gopmgr-wal"]%string.
Proof. split; vm_compute; reflexivity. Qed.

Lemma demo_world_reachable : reachable_log (lw_log demo_world).
Proof. constructor. Qed.

(** A run on the log: a request, the removal, which leaves the log, and the outcome. *)
Lemma demo_run name path w (W := (Requested (demo_request name) w).2) (V := (removeProjectFiles path "/u/projects" W).2)
    id t : t = lw_log (Deleted id V).2 \/ (exists detail, t = lw_log (Failed id detail V).2) -> rtc log_step (lw_log w) t.
Proof.
  intros Ht. eapply rtc_l; [exact (step_requested quiet (demo_request name) w _ _ (surjective_pairing _))|].
  fold W. destruct (removeProjectFiles_effect path "/u/projects" W _ _ (surjective_pairing _)) as (<- & _). fold V.
  apply rtc_once. destruct Ht as [-> |[detail ->]].
  - exact (step_deleted quiet id V _ _ (surjective_pairing _)).
  - exact (step_failed quiet id detail V _ _ (surjective_pairing _)).
Qed.

Lemma demo_deleted_reachable : reachable_log (lw_log demo_deleted).
Proof.
  apply (demo_run "a" "/u/projects/a/project.gopmgr" demo_world "deletion_30313233343536373839616263646500").
  left. vm_compute. reflexivity.
Qed.

Lemma demo_kept_run : rtc log_step (lw_log demo_deleted) (lw_log demo_kept.2).
Proof.
  apply (demo_run "b" "/u/projects/b/project.gopmgr" demo_deleted "deletion_30313233343536373839616263646501").
  right. exists (Some "permission denied"%string). vm_compute. reflexivity.
Qed.

Lemma deletion_log_refines_witness :
  is_open "deletion_30313233343536373839616263646500" (sql_deletions (lw_log (Requested (demo_request "a") demo_world).2)) = true
  /\ sql_deletions (lw_log (Deleted "unknown" demo_world).2) = [].
Proof.
  destruct (deletion_log_refines (E := quiet) demo_world demo_world_reachable) as [H1 H2]. split.
  - specialize (H1 (demo_request "a") _ _ (surjective_pairing _)).
    assert (E : (Requested (demo_request "a") demo_world).1 = Ok "deletion_30313233343536373839616263646500"%string)
      by (vm_compute; reflexivity).
    rewrite E in H1. destruct H1 as [[at_ H1] _]. rewrite H1. reflexivity.
  - specialize (H2 "unknown"%string OutcomeDeleted ""%string _ _ (or_introl eq_refl) (surjective_pairing _)).
    assert (E : (outcome "unknown" OutcomeDeleted "" demo_world).1 = Err (ErrNoOpenRequest OutcomeDeleted "unknown"))
      by (vm_compute; reflexivity).
    rewrite E in H2. exact (proj1 H2).
Defined.

Lemma deletion_log_append_only_witness : exists d, d ∈ sql_deletions (lw_log demo_deleted) /\ del_Outcome d = OutcomeDeleted
  /\ d ∈ sql_deletions (lw_log demo_kept.2).
Proof.
  destruct (deletion_log_append_only _ _ demo_deleted_reachable demo_kept_run) as (_ & _ & H).
  assert (E : del_Outcome <$> head (sql_deletions (lw_log demo_deleted)) = Some OutcomeDeleted) by (vm_compute; reflexivity).
  destruct (sql_deletions (lw_log demo_deleted)) as [|d l] eqn:El; [discriminate E|]. injection E as E.
  exists d. destruct (H d) as (d' & Hd' & _ & Heq); [by apply elem_of_cons; left|].
  rewrite Heq in Hd' by (rewrite E; discriminate). split; [by apply elem_of_cons; left|]. by split.
Defined.

Lemma delete_recorded_spec_witness : exists d,
  head (sql_deletions (lw_log demo_kept.2)) = Some d /\ del_ProjectID d = "b"%string
  /\ (del_Outcome d = "" \/ del_Outcome d = OutcomeFailed)%string.
Proof.
  destruct (delete_recorded_spec (E := quiet) (demo_request "b") "/u/projects/b/project.gopmgr" "/u/projects"
    demo_deleted _ _ demo_deleted_reachable (surjective_pairing _)) as (_ & _ & _ & H).
  assert (Hf : bool_decide (lw_files demo_kept.2 <> lw_files demo_deleted) = true) by (vm_compute; reflexivity).
  apply bool_decide_eq_true in Hf. destruct (H (or_intror Hf)) as (id & at_ & out & out_at & det & Hl & _ & Ho).
  assert (E : is_ok demo_kept.1 = false) by (vm_compute; reflexivity).
  change (is_ok _) with (is_ok demo_kept.1) in Ho. rewrite E in Ho.
  change (sql_deletions _) with (sql_deletions (lw_log demo_kept.2)) in Hl at 1. rewrite Hl.
  eexists. split; [reflexivity|]. by split.
Defined.
