(* ===== verification/ChartsTheorems.v ===== *)
(** * What the operations on charts do

    Each writes a chart and its audit event together or nothing; none of them
    touches a scope of the work breakdown structure. *)

From S2P Require Import Prelude GoStrings GoTime GoJson Wbs ProjectDb AuditChain AuditTheorems Charts.

Local Open Scope Z_scope.

(** ** The parts of the operations *)

(** [d'] is [d] with the next event of the input's project. *)
Definition appends (i : AuditEventInput) (d d' : ProjectDB) (e : AuditEvent) : Prop :=
  exists l id before after now, audit_events d = Some l
  /\ e = next_event i id before after
           ((fun x => (ae_SequenceNumber x, ae_EventHash x)) <$> last (rows_asc (in_ProjectID i) l)) now
  /\ canonicalJSON (in_BeforeJSON i) = Some before /\ canonicalJSON (in_AfterJSON i) = Some after
  /\ d' = set_audit_events (l ++ [e]) d.

(** Whether only the dedicated store may write a chart. *)
Definition protected_chart (d : ProjectDB) (c : Chart) : bool :=
  protectedWBSPayload (ch_Kind c) (ch_Data c) || bool_decide (is_Some (records_of d !! ch_ID c)).

Section parts.
Context `{DbEnv}.

Lemma append_appends i c e c' : appendAuditEventTx i c = (Ok e, c') -> appends i (file c) (file c') e.
Proof. apply appendAuditEventTx_Ok. Qed.

Lemma dtx_if_Ok {A} (b : bool) (m1 m2 : DbTx A) c r : (if b then m1 else m2) c = r ->
  (b = true /\ m1 c = r) \/ (b = false /\ m2 c = r).
Proof. destruct b; auto. Qed.

Lemma captureTimestamp_Ok c s c' : captureTimestamp c = (Ok s, c') -> file c' = file c.
Proof. intros Hr. by injection Hr as _ <-. Qed.

Lemma dtx_rand_Ok n c s c' : dtx_rand n c = (Ok s, c') -> file c' = file c.
Proof. unfold dtx_rand. destruct (db_entropy _ _); [|done]. intros Hr. by injection Hr as _ <-. Qed.

Lemma getChartTx_Ok id c ch c' : getChartTx id c = (Ok ch, c') ->
  file c' = file c /\ exists t, charts (file c) !! id = Some t /\ row t = ch.
Proof.
  intros (r & c1 & [Hq F]%dtx_query_Ok & [Hr ->]%dtx_of_option_Ok)%dtx_bind_Ok.
  injection Hq as <-. split; [done|]. destruct (charts (file c) !! id) as [t|]; [|done].
  injection Hr as <-. by exists t.
Qed.

(** Without a fault the only error is that there is no chart. *)
Lemma getChartTx_catch id c r c' : dtx_catch (getChartTx id) c = (Ok r, c') -> file c' = file c
  /\ match r with
     | Ok ch => exists t, charts (file c) !! id = Some t /\ row t = ch
     | Err ErrNoChart => charts (file c) !! id = None
     | Err _ => True
     end.
Proof.
  unfold dtx_catch. destruct (getChartTx id c) as [r0 c1] eqn:E. intros Hr. injection Hr as -> <-.
  destruct r as [ch|e].
  - by apply getChartTx_Ok.
  - unfold getChartTx, dtx_bind, dtx_query, dtx_statement, sql_chart in E.
    destruct (db_statement_fails _); [by injection E as <- <-|]. cbn in E.
    destruct (charts (file c) !! id) as [t|] eqn:Hl; cbn in E; [done|]. injection E as <- <-. done.
Qed.

Lemma protectedWBSChartTx_Ok ch c b c' : protectedWBSChartTx ch c = (Ok b, c') ->
  file c' = file c /\ b = protected_chart (file c) ch.
Proof.
  unfold protectedWBSChartTx, protected_chart, records_of.
  destruct (protectedWBSPayload _ _); [intros Hr; by injection Hr as <- <-|].
  intros (table & c1 & [Ht F]%dtx_query_Ok & Hr)%dtx_bind_Ok. injection Ht as <-.
  destruct (wbs_records (file c)) as [t|] eqn:E; cbn in Hr.
  - apply dtx_query_Ok in Hr as [Hq F2]. rewrite F, E in Hq. injection Hq as <-. split; [congruence|done].
  - by injection Hr as <- <-.
Qed.

End parts.

Lemma protectedWBSPayload_default kind data :
  protectedWBSPayload kind data = false -> protectedWBSPayload kind (default_string data "{}") = false.
Proof.
  unfold default_string, protectedWBSPayload. destruct (String.eqb_spec data ""); [|done]. subst.
  destruct (String.eqb kind "wbs_v2"); [done|]. intros _. by vm_compute.
Qed.

(** ** The operations *)

(** The chart that is written for [c] under the identifier [id]. *)
Definition chart_written (c : Chart) (id : string) (text : string) : Chart :=
  mkChart id (ch_ProjectID c) (ch_Kind c) (ch_Title c) (default_string (ch_Data c) "{}")
    (default_string (ch_Config c) "{}") (ch_TemplateID c) text text.

(** [d'] is [d] with [c] inserted or updated, and its event. *)
Definition chart_saved (c : Chart) (d d' : ProjectDB) (after : Chart) : Prop :=
  exists id text now d1 i e,
    protectedWBSPayload (ch_Kind c) (ch_Data c) = false
    /\ (ch_ID c = ""%string \/ ch_ID c = id)
    /\ (forall t, charts d !! id = Some t -> protected_chart d (row t) = false)
    /\ sql_upsert_chart (chart_written c id text) now d = Some d1
    /\ row <$> charts d1 !! id = Some after
    /\ in_ProjectID i = ch_ProjectID after /\ in_EntityID i = ch_ID after
    /\ in_BeforeJSON i = default ""%string (chartAuditJSON ∘ row <$> charts d !! id)
    /\ in_AfterJSON i = chartAuditJSON after
    /\ appends i d1 d' e.

(** [d'] is [d] without the chart and its baselines, and with the event. *)
Definition chart_deleted (id : string) (d d' : ProjectDB) : Prop :=
  exists t d1 i e,
    charts d !! id = Some t /\ protected_chart d (row t) = false
    /\ sql_delete_chart id d = Some d1 /\ in_ProjectID i = ch_ProjectID (row t)
    /\ in_BeforeJSON i = chartAuditJSON (row t) /\ appends i d1 d' e.

Section operations.
Context `{DbEnv}.

Lemma SaveChart_effect c s r s' : SaveChart c s = (r, s') ->
  (exists after, chart_saved c (file s) (file s') after /\ (r = Ok after \/ r = Err ErrDbCommit))
  \/ (is_ok r = false /\ file s' = file s).
Proof.
  unfold SaveChart. destruct (protectedWBSPayload _ _) eqn:Hp; [intros Hr; injection Hr as <- <-; by right|].
  intros Hr. unfold dtx_bind at 1 in Hr.
  destruct ((if String.eqb (ch_ID c) "" then newID "chart" else dtx_ret (ch_ID c)) s) as [[id|e] s1] eqn:Hid.
  2: { injection Hr as <- <-. right. split; [done|].
       destruct (String.eqb (ch_ID c) ""); [|done]. unfold newID, dtx_bind, dtx_rand in Hid.
       destruct (db_entropy _ _); [done|]. by injection Hid as _ <-. }
  assert (Hs1 : file s1 = file s /\ (ch_ID c = ""%string \/ ch_ID c = id)).
  { destruct (String.eqb_spec (ch_ID c) ""); [split; [by eapply newID_Ok|by left]|].
    injection Hid as <- <-. auto. }
  destruct Hs1 as [F1 Hid']. unfold dtx_bind at 1 in Hr. cbn [captureTimestamp dtx_now dtx_bind dtx_ret] in Hr.
  set (now := (timestampLayout _, _)) in Hr. set (s2 := mkSession _ _ _ _ _ _) in Hr.
  apply in_tx_effect in Hr as [(after & c0 & c1 & F0 & Hb & F & Hr)|[Hr F]]; [|right; split; [done|by rewrite F]].
  left. exists after. split; [|done]. change (file s2) with (file s1) in F0. rewrite F1 in F0.
  apply dtx_bind_Ok in Hb as (found & c2 & [F2 Hf]%getChartTx_catch & Hb).
  apply dtx_bind_Ok in Hb as (before & c3 & Hbef & Hb).
  assert (Hbef' : file c3 = file s /\ before = row <$> charts (file s) !! id
                  /\ forall t, charts (file s) !! id = Some t -> protected_chart (file s) (row t) = false).
  { rewrite F0 in *. destruct found as [b|e'].
    - destruct Hf as (t & Ht & <-). rewrite Ht.
      apply dtx_bind_Ok in Hbef as (p & c4 & [F3 Hpp]%protectedWBSChartTx_Ok & Hbef).
      destruct p; [done|]. injection Hbef as <- <-. rewrite F2 in *. split_and!; [congruence|done|].
      intros t' [= <-]. done.
    - destruct e'; try done. injection Hbef as <- <-. rewrite Hf. split_and!; [congruence|done|done]. }
  destruct Hbef' as (F3 & -> & Hnp).
  apply dtx_bind_Ok in Hb as (u & c4 & Hup%dtx_exec_Ok & Hb). rewrite F3 in Hup.
  apply dtx_bind_Ok in Hb as (after' & c5 & [F5 (t' & Ht' & Hrow)]%getChartTx_Ok & Hb).
  apply dtx_bind_Ok in Hb as (e & c6 & He%append_appends & Hb). injection Hb as -> <-.
  rewrite F5 in He. rewrite F. eexists id, now.1, now.2, (file c4), _, e.
  split_and!; [done|done|exact Hnp|exact Hup| | | | | |exact He]; try done.
  - by rewrite Ht', <- Hrow.
  - by destruct (charts (file s) !! id).
Qed.

Lemma DeleteChart_effect id s r s' : DeleteChart id s = (r, s') ->
  (chart_deleted id (file s) (file s') /\ (r = Ok () \/ r = Err ErrDbCommit))
  \/ (file s' = file s /\ (is_ok r = true -> charts (file s) !! id = None)).
Proof.
  unfold DeleteChart. intros [(u & c0 & c1 & F0 & Hb & F & Hr)|[Hr F]]%in_tx_effect;
    [|right; split; [done|by rewrite Hr]].
  apply dtx_bind_Ok in Hb as (found & c2 & [F2 Hf]%getChartTx_catch & Hb).
  destruct found as [before|e];
    [|destruct e; try done; injection Hb as _ <-; right; split; [congruence|by rewrite <- F0]].
  destruct Hf as (t & Ht & <-). rewrite F0 in *.
  apply dtx_bind_Ok in Hb as (p & c3 & [F3 ->]%protectedWBSChartTx_Ok & Hb).
  apply dtx_bind_Ok in Hb as (v & c4 & [Hp ->]%dtx_guard_Ok & Hb).
  apply dtx_bind_Ok in Hb as (w & c5 & Hdel%dtx_exec_Ok & Hb).
  apply dtx_bind_Ok in Hb as (e & c6 & He%append_appends & Hb). injection Hb as <-. subst c6.
  left. split; [|exact Hr]. rewrite F3, F2 in Hdel. rewrite F2 in Hp.
  rewrite F. eexists t, (file c5), _, e. split_and!; [done| |done| | |exact He]; [|done..].
  by apply negb_true_iff in Hp.
Qed.

End operations.
