(* ===== verification/ProjectKeeps.v ===== *)
(** * Relations that operations on a project file keep

    A computation keeps a preorder on files when the file it ends with, whatever
    its result, is related to the one it started from.  Computations that only
    read keep every preorder; the tactic [keeps] follows the structure of an
    operation down to its statements. *)

From S2P Require Import Prelude GoStrings GoTime GoSha256 GoJson Wbs ProjectDb AuditChain AuditTheorems Charts ChartsTheorems.

Local Open Scope Z_scope.

Section keeps.
Context `{DbEnv} (R : relation ProjectDB).

Definition Keeps {A} (m : DbTx A) : Prop :=
  forall c r c', m c = (r, c') -> R (file c) (file c').

Context `{!PreOrder R}.

Lemma keeps_same {A} (m : DbTx A) : (forall c r c', m c = (r, c') -> file c' = file c) -> Keeps m.
Proof. intros Hm c r c' Hr. by rewrite (Hm c r c' Hr). Qed.

Lemma keeps_ret {A} (a : A) : Keeps (dtx_ret a).
Proof. apply keeps_same. intros c r c' Hr. by injection Hr as _ <-. Qed.

Lemma keeps_fail {A} e : Keeps (@dtx_fail A e).
Proof. apply keeps_same. intros c r c' Hr. by injection Hr as _ <-. Qed.

Lemma keeps_bind {A B} (m : DbTx A) (k : A -> DbTx B) :
  Keeps m -> (forall a, Keeps (k a)) -> Keeps (dtx_bind m k).
Proof.
  intros Hm Hk c r c'. unfold dtx_bind. destruct (m c) as [[a|e] c1] eqn:E.
  - intros Hr. etrans; [by eapply Hm|by eapply Hk].
  - intros Hr. injection Hr as _ <-. by eapply Hm.
Qed.

Lemma keeps_guard b e : Keeps (dtx_guard b e).
Proof. unfold dtx_guard. destruct b; [apply keeps_ret|apply keeps_fail]. Qed.

Lemma keeps_of_option {A} (o : option A) e : Keeps (dtx_of_option o e).
Proof. unfold dtx_of_option. destruct o; [apply keeps_ret|apply keeps_fail]. Qed.

Lemma keeps_now : Keeps dtx_now.
Proof. apply keeps_same. intros c r c' Hr. by injection Hr as _ <-. Qed.

Lemma keeps_rand n : Keeps (dtx_rand n).
Proof.
  apply keeps_same. intros c r c'. unfold dtx_rand.
  destruct (db_entropy _ _); intros Hr; by injection Hr as _ <-.
Qed.

Lemma keeps_newID prefix : Keeps (newID prefix).
Proof. apply keeps_bind; [apply keeps_rand|intros; apply keeps_ret]. Qed.

Lemma keeps_captureTimestamp : Keeps captureTimestamp.
Proof. apply keeps_bind; [apply keeps_now|intros; apply keeps_ret]. Qed.

Lemma query_same {A} (f : ProjectDB -> option A) c r c' : dtx_query f c = (r, c') -> file c' = file c.
Proof.
  unfold dtx_query, dtx_statement. destruct (db_statement_fails _); [intros Hr; by injection Hr as _ <-|].
  destruct (f (file c)); intros Hr; by injection Hr as _ <-.
Qed.

Lemma rows_same {A} (f : ProjectDB -> option (list A)) c r c' : dtx_rows f c = (r, c') -> file c' = file c.
Proof.
  unfold dtx_rows. destruct (dtx_query f c) as [[l|e] c1] eqn:E; apply query_same in E;
    intros Hr; by injection Hr as _ <-.
Qed.

Lemma keeps_query {A} (f : ProjectDB -> option A) : Keeps (dtx_query f).
Proof. apply keeps_same. intros c r c'. apply query_same. Qed.

Lemma keeps_rows {A} (f : ProjectDB -> option (list A)) : Keeps (dtx_rows f).
Proof. apply keeps_same. intros c r c'. apply rows_same. Qed.

Lemma keeps_rows_unchecked {A} (f : ProjectDB -> option (list A)) : Keeps (dtx_rows_unchecked f).
Proof.
  apply keeps_same. intros c r c'. unfold dtx_rows_unchecked.
  destruct (dtx_rows f c) as [[l|e] c1] eqn:E; apply rows_same in E; intros Hr; by injection Hr as _ <-.
Qed.

Lemma keeps_catch {A} (m : DbTx A) : Keeps m -> Keeps (dtx_catch m).
Proof.
  intros Hm c r c'. unfold dtx_catch. destruct (m c) as [r0 c1] eqn:E. intros Hr. injection Hr as _ <-.
  by eapply Hm.
Qed.

Lemma keeps_exec f : (forall d d', f d = Some d' -> R d d') -> Keeps (dtx_exec f).
Proof. intros Hf c r c' [[_ Hd]|[_ ->]]%dtx_exec_effect; [by apply Hf|done]. Qed.

Lemma keeps_affected f : (forall d n d', f d = Some (n, d') -> R d d') -> Keeps (dtx_affected f).
Proof. intros Hf c r c' [(n & _ & Hd)|[_ ->]]%dtx_affected_effect; [by eapply Hf|done]. Qed.

Lemma keeps_run_tx {A} failed (body : DbTx (TxEnd A)) : Keeps body -> Keeps (run_tx failed body).
Proof.
  intros Hb c r c' [(a & c0 & c1 & F0 & E & F & _)|[(a & c0 & c1 & F0 & E & F & _)|[_ F]]]%run_tx_effect;
    rewrite F; [|done..]. rewrite <- F0. by eapply Hb.
Qed.

Lemma keeps_in_tx {A} (body : DbTx A) : Keeps body -> Keeps (in_tx body).
Proof. intros Hb. apply keeps_run_tx, keeps_bind; [done|intros; apply keeps_ret]. Qed.

End keeps.

(** A computation whose failure leaves the file as it was: one that reads and
    then writes once. *)
Definition fails_clean {A} (m : DbTx A) : Prop :=
  forall c e c', m c = (Err e, c') -> file c' = file c.

Lemma fails_clean_keeps {A} (m : DbTx A) : Keeps eq m -> fails_clean m.
Proof. intros Hm c e c' Hr. symmetry. by eapply Hm. Qed.

Lemma fails_clean_bind {A B} (m : DbTx A) (k : A -> DbTx B) :
  Keeps eq m -> (forall a, fails_clean (k a)) -> fails_clean (dtx_bind m k).
Proof.
  intros Hm Hk c e c'. unfold dtx_bind. destruct (m c) as [[a|e'] c1] eqn:E; apply Hm in E.
  - rewrite E. apply Hk.
  - intros Hr. by injection Hr as _ <-.
Qed.

Lemma fails_clean_exec `{DbEnv} {A} f (a : A) : fails_clean (u <== dtx_exec f ;; dtx_ret a).
Proof.
  intros c e c'. unfold dtx_bind. destruct (dtx_exec f c) as [[u|e'] c1] eqn:E; [done|].
  intros Hr. injection Hr as _ <-. by apply dtx_exec_effect in E as [[? _]|[_ ?]].
Qed.

(** An appended event, or nothing. *)
Lemma append_effect `{DbEnv} i c r c' : appendAuditEventTx i c = (r, c') ->
  (exists e, r = Ok e /\ appends i (file c) (file c') e) \/ (is_ok r = false /\ file c' = file c).
Proof.
  intros Hr. destruct r as [e|e]; [left; exists e; split; [done|by apply append_appends]|right; split; [done|]].
  revert Hr. apply (fun F : fails_clean (appendAuditEventTx i) => F c e c'). unfold appendAuditEventTx.
  do 3 (apply fails_clean_bind; [apply (keeps_guard eq)|intros]).
  do 2 (apply fails_clean_bind; [apply (keeps_of_option eq)|intros]).
  apply fails_clean_bind; [apply (keeps_newID eq)|intros].
  apply fails_clean_bind; [apply (keeps_query eq)|intros].
  apply fails_clean_bind; [|intros; apply fails_clean_exec].
  apply keeps_bind; [apply _|apply (keeps_captureTimestamp eq)|intros; apply (keeps_ret eq)].
Qed.

(** ** Steps that the operations share *)

Section steps.
Context `{DbEnv}.

(** Reading one row by its key. *)
Definition row_or {A} (f : ProjectDB -> option A) (e : DbError) : DbTx A :=
  r <== dtx_query (fun d => Some (f d)) ;; dtx_of_option r e.

Lemma row_or_Ok {A} (f : ProjectDB -> option A) e c a c' :
  row_or f e c = (Ok a, c') -> file c' = file c /\ f (file c) = Some a.
Proof.
  intros (r & c1 & [Hq F]%dtx_query_Ok & [Hr ->]%dtx_of_option_Ok)%dtx_bind_Ok. injection Hq as <-. done.
Qed.

(** Its failures: there is no such row, or a fault. *)
Lemma row_or_catch {A} (f : ProjectDB -> option A) e c r c' :
  dtx_catch (row_or f e) c = (Ok r, c') -> file c' = file c
  /\ match r with
     | Ok a => f (file c) = Some a
     | Err e' => (e' = e /\ f (file c) = None) \/ e' = ErrDbStatement
     end.
Proof.
  unfold dtx_catch. destruct (row_or f e c) as [r0 c1] eqn:E. intros Hr. injection Hr as -> <-.
  destruct r as [a|e']; [by apply row_or_Ok in E|].
  unfold row_or, dtx_bind, dtx_query, dtx_statement in E.
  destruct (db_statement_fails _); [injection E as <- <-; auto|]. cbn in E.
  destruct (f (file c)) as [a|] eqn:Hf; cbn in E; [done|]. injection E as <- <-. auto.
Qed.

(** What comes before the transaction of an operation reads only. *)
Lemma reads_then {A B} (m : DbTx A) (k : A -> DbTx B) c r c' : Keeps eq m -> dtx_bind m k c = (r, c') ->
  (exists a c1, m c = (Ok a, c1) /\ file c1 = file c /\ k a c1 = (r, c'))
  \/ (is_ok r = false /\ file c' = file c).
Proof.
  intros Hm. unfold dtx_bind. destruct (m c) as [[a|e] c1] eqn:E; apply Hm in E as Hf.
  - intros Hr. left. by exists a, c1.
  - intros Hr. injection Hr as <- <-. by right.
Qed.

(** An identifier that is given or drawn. *)
Definition id_or_new (given prefix : string) : DbTx string :=
  if String.eqb given "" then newID prefix else dtx_ret given.

Lemma id_or_new_effect given prefix c r c' : id_or_new given prefix c = (r, c') ->
  file c' = file c /\ match r with Ok id => given = ""%string \/ given = id | Err _ => True end.
Proof.
  unfold id_or_new. destruct (String.eqb_spec given ""); intros Hr.
  - split; [symmetry; by eapply (keeps_newID eq)|]. destruct r; auto.
  - injection Hr as <- <-. auto.
Qed.

End steps.

(** ** Relations that hold across an audit event *)

(** A preorder that an appended event keeps, and a new log row. *)
Class Audited (R : relation ProjectDB) : Prop := {
  audited_preorder :: PreOrder R;
  audited_append i d d' e : appends i d d' e -> R d d'
}.

Section audited.
Context `{DbEnv} (R : relation ProjectDB) `{!Audited R}.

Lemma keeps_append i : Keeps R (appendAuditEventTx i).
Proof.
  intros c r c' [(e & _ & He)|[_ ->]]%append_effect; [by eapply audited_append|done].
Qed.

Lemma keeps_checkpoint pid kind id ap json user :
  Keeps R (appendApprovalCheckpointForUserTx pid kind id ap json user).
Proof.
  unfold appendApprovalCheckpointForUserTx. apply keeps_bind; [apply _|apply keeps_of_option; apply _|intros a].
  apply keeps_bind; [apply _| |intros now; apply keeps_append].
  apply keeps_bind; [apply _|apply keeps_captureTimestamp; apply _|intros; apply keeps_ret; apply _].
Qed.

End audited.

(** One step down the structure of an operation. *)
Ltac keeps_step :=
  match goal with
  | |- Keeps _ (dtx_bind _ _) => apply keeps_bind; [apply _| |intros]
  | |- Keeps _ (in_tx _) => apply keeps_in_tx; [apply _|]
  | |- Keeps _ (run_tx _ _) => apply keeps_run_tx; [apply _|]
  | |- Keeps _ (dtx_catch _) => apply keeps_catch
  | |- Keeps _ (dtx_ret _) => apply keeps_ret; apply _
  | |- Keeps _ (dtx_fail _) => apply keeps_fail; apply _
  | |- Keeps _ (dtx_guard _ _) => apply keeps_guard; apply _
  | |- Keeps _ (dtx_of_option _ _) => apply keeps_of_option; apply _
  | |- Keeps _ (newID _) => apply keeps_newID; apply _
  | |- Keeps _ (dtx_rand _) => apply keeps_rand; apply _
  | |- Keeps _ dtx_now => apply keeps_now; apply _
  | |- Keeps _ captureTimestamp => apply keeps_captureTimestamp; apply _
  | |- Keeps _ nowTimestamp => unfold nowTimestamp
  | |- Keeps _ (dtx_query _) => apply keeps_query; apply _
  | |- Keeps _ (dtx_rows _) => apply keeps_rows; apply _
  | |- Keeps _ (dtx_rows_unchecked _) => apply keeps_rows_unchecked; apply _
  | |- Keeps _ (appendAuditEventTx _) => apply keeps_append; apply _
  | |- Keeps _ (appendApprovalCheckpointTx _ _ _ _ _) => apply keeps_checkpoint; apply _
  | |- Keeps _ (appendApprovalCheckpointForUserTx _ _ _ _ _ _) => apply keeps_checkpoint; apply _
  | |- Keeps _ (dtx_exec _) => apply keeps_exec; [apply _|intros]
  | |- Keeps _ (dtx_affected _) => apply keeps_affected; [apply _|intros]
  | |- Keeps _ (match ?x with _ => _ end) => destruct x
  end.

Ltac keeps := repeat keeps_step.
