(* ===== verification/PlanTheorems.v ===== *)
(** * What the operations on the project row, documents and scenarios do

    The effects of the operations of [Projects], [Documents], [Baselines] and
    [Scenarios], and the lock that an unfinished transaction keeps. *)

From S2P Require Import Prelude GoFloat GoStrings GoTime GoJson Money Wbs ProjectDb AuditChain AuditTheorems Charts ChartsTheorems Projects ProjectKeeps GoSha256 Documents Baselines Scenarios.

Local Open Scope Z_scope.

(** ** Rows *)

Lemma project_row_Some id d r : project_row id d = Some r -> r ∈ project d /\ pr_ID (row r) = id.
Proof.
  unfold project_row. destruct (list_find _ _) as [[k x]|] eqn:E; [|done]. intros [= ->].
  apply list_find_Some in E as (Hk & Hid & _). split; [by eapply list_elem_of_lookup_2|done].
Qed.

Lemma project_row_None id d : project_row id d = None <-> id ∉ projects d.
Proof.
  unfold project_row, projects. rewrite fmap_None, list_find_None, Forall_forall, list_elem_of_fmap. split.
  - intros Hn (r & -> & Hr). by apply (Hn r Hr).
  - intros Hn r Hr Hid. apply Hn. exists r. done.
Qed.

Lemma sql_upsert_ids p now d d1 : sql_upsert_project p now d = Some d1 ->
  projects d1 = if bool_decide (pr_ID p ∈ projects d) then projects d else projects d ++ [pr_ID p].
Proof.
  intros Hu. injection Hu as <-. unfold projects at 1. cbn [project set_project].
  case_bool_decide; [|by rewrite fmap_app].
  rewrite <- list_fmap_compose. unfold projects. apply list_fmap_ext. intros k r _. cbn.
  by destruct (String.eqb_spec (pr_ID (row r)) (pr_ID p)).
Qed.

(** The rows of the other tables. *)
Lemma sql_upsert_rest p now d d1 : sql_upsert_project p now d = Some d1 ->
  exists l, d1 = set_project l d.
Proof. intros Hu. injection Hu as <-. by eexists. Qed.

(** The row that is written. *)
Definition upserted (p : Project) (now : Z) (d : ProjectDB) : Timed Project :=
  match project_row (pr_ID p) d with
  | Some old => updated_project old p now
  | None => mkTimed p now now
  end.

Lemma list_find_fmap_same {A} (P : A -> Prop) `{!forall x, Decision (P x)} (f : A -> A) l :
  (forall x, P (f x) <-> P x) -> snd <$> list_find P (f <$> l) = f <$> (snd <$> list_find P l).
Proof.
  intros Hf. induction l as [|x l IH]; [done|]. cbn. destruct (decide (P x)) as [Hx|Hx].
  - by rewrite decide_True by (by apply Hf).
  - rewrite decide_False by (by rewrite Hf).
    destruct (list_find P l) as [[]|], (list_find P (f <$> l)) as [[]|]; cbn in *; simplify_eq; done.
Qed.

Lemma project_row_upsert p now d d1 id : sql_upsert_project p now d = Some d1 ->
  project_row id d1 = if String.eqb id (pr_ID p) then Some (upserted p now d) else project_row id d.
Proof.
  intros Hu. injection Hu as <-. unfold project_row at 1. cbn [project set_project].
  case_bool_decide as Hin.
  - rewrite list_find_fmap_same; cycle 1.
    { intros r. cbn. by destruct (String.eqb_spec (pr_ID (row r)) (pr_ID p)). }
    change (snd <$> list_find _ (project d)) with (project_row id d).
    destruct (project_row id d) as [r|] eqn:E; cbn.
    + pose proof (project_row_Some _ _ _ E) as [_ Hid]. rewrite Hid.
      destruct (String.eqb_spec id (pr_ID p)) as [->|]; [|done]. unfold upserted. by rewrite E.
    + destruct (String.eqb_spec id (pr_ID p)) as [->|]; [|done]. by apply project_row_None in E.
  - assert (Hn : project_row (pr_ID p) d = None) by by apply project_row_None.
    unfold upserted. rewrite Hn. unfold project_row in *.
    destruct (list_find (fun r => pr_ID (row r) = id) (project d)) as [[k x]|] eqn:E.
    + rewrite (list_find_app_l _ _ _ k x) by done. cbn.
      destruct (String.eqb_spec id (pr_ID p)) as [->|]; [|done]. exfalso. by rewrite E in Hn.
    + rewrite list_find_app_r by done. cbn.
      destruct (String.eqb_spec id (pr_ID p)) as [->|Hne]; [by rewrite decide_True|by rewrite decide_False].
Qed.

(** ** The operation *)

Definition project_saved (p : Project) (d d' : ProjectDB) (after : Project) : Prop :=
  exists id currency text now d1 i e,
    CanonicalProjectCurrency (pr_CurrencyCode p) = Some currency
    /\ (pr_ID p = ""%string \/ pr_ID p = id)
    /\ (forall b, project_row id d = Some b -> pr_CurrencyCode (normalizeProject (row b)) <> currency ->
          entries_of id d = ∅ /\ reserves_of id d = ∅ /\ snapshots_of id d = ∅
          /\ pr_BudgetMinorUnits (normalizeProject (row b)) = 0)
    /\ sql_upsert_project (with_row (completed p currency) id text text) now d = Some d1
    /\ normalizeProject ∘ row <$> project_row id d1 = Some after
    /\ in_ProjectID i = pr_ID after /\ Some (in_AfterJSON i) = projectAuditJSON after
    /\ appends i d1 d' e.

Section upsert.
Context `{DbEnv}.

Lemma getProjectByIDTx_Ok id c p c' : getProjectByIDTx id c = (Ok p, c') ->
  file c' = file c /\ exists r, project_row id (file c) = Some r /\ normalizeProject (row r) = p.
Proof.
  intros (r & c1 & [Hq F]%dtx_query_Ok & Hr)%dtx_bind_Ok.
  apply dtx_bind_Ok in Hr as (p0 & c2 & [Hp ->]%dtx_of_option_Ok & Hr). injection Hr as <- <-.
  injection Hq as <-. split; [done|]. destruct (project_row id (file c)) as [t|]; [|done].
  injection Hp as <-. by exists t.
Qed.

Lemma getProjectByIDTx_catch id c r c' : dtx_catch (getProjectByIDTx id) c = (Ok r, c') ->
  file c' = file c
  /\ match r with
     | Ok p => exists t, project_row id (file c) = Some t /\ normalizeProject (row t) = p
     | Err ErrNoProject => project_row id (file c) = None
     | Err _ => True
     end.
Proof.
  unfold dtx_catch. destruct (getProjectByIDTx id c) as [r0 c1] eqn:E. intros Hr. injection Hr as -> <-.
  destruct r as [p|e]; [by apply getProjectByIDTx_Ok|].
  unfold getProjectByIDTx, dtx_bind, dtx_query, dtx_statement, sql_project in E.
  destruct (db_statement_fails _); [by injection E as <- <-|]. cbn in E.
  destruct (project_row id (file c)) as [t|] eqn:Hl; cbn in E; [done|]. injection E as <- <-. done.
Qed.

Lemma UpsertProject_effect p s r s' : UpsertProject p s = (r, s') ->
  (exists after, project_saved p (file s) (file s') after /\ (r = Ok after \/ r = Err ErrDbCommit))
  \/ (is_ok r = false /\ file s' = file s).
Proof.
  unfold UpsertProject. intros Hr. unfold dtx_bind at 1 in Hr.
  destruct ((if String.eqb (pr_ID p) "" then newID "prj" else dtx_ret (pr_ID p)) s) as [[id|e] s1] eqn:Hid.
  2: { injection Hr as <- <-. right. split; [done|]. destruct (String.eqb (pr_ID p) ""); [|done].
       symmetry. by eapply (keeps_newID eq). }
  assert (Hs1 : file s1 = file s /\ (pr_ID p = ""%string \/ pr_ID p = id)).
  { destruct (String.eqb_spec (pr_ID p) ""); [split; [by eapply newID_Ok|by left]|].
    injection Hid as <- <-. auto. }
  destruct Hs1 as [F1 Hid']. unfold dtx_bind at 1, dtx_of_option in Hr.
  destruct (CanonicalProjectCurrency _) as [currency|] eqn:Hcur; [|injection Hr as <- <-; by right].
  cbn [dtx_ret] in Hr. unfold dtx_bind at 1 in Hr. cbn [captureTimestamp dtx_now dtx_bind dtx_ret] in Hr.
  set (now := (timestampLayout _, _)) in Hr. set (s2 := mkSession _ _ _ _ _ _) in Hr.
  apply in_tx_effect in Hr as [(after & c0 & c1 & F0 & Hb & F & Hr)|[Hr F]]; [|right; split; [done|by rewrite F]].
  left. exists after. split; [|done]. change (file s2) with (file s1) in F0. rewrite F1 in F0.
  apply dtx_bind_Ok in Hb as (found & c2 & [F2 Hf]%getProjectByIDTx_catch & Hb). rewrite F0 in *.
  apply dtx_bind_Ok in Hb as (before & c3 & Hbef & Hb).
  assert (Hbef' : c3 = c2 /\ before = normalizeProject ∘ row <$> project_row id (file s)).
  { destruct found as [b|e']; [destruct Hf as (t & -> & <-); by injection Hbef as <- <-|].
    destruct e'; try done. rewrite Hf. by injection Hbef as <- <-. }
  destruct Hbef' as [-> ->]. apply dtx_bind_Ok in Hb as (u & c4 & Hlock & Hb).
  assert (Hlock' : file c4 = file s /\ forall b, project_row id (file s) = Some b ->
    pr_CurrencyCode (normalizeProject (row b)) <> currency ->
    entries_of id (file s) = ∅ /\ reserves_of id (file s) = ∅ /\ snapshots_of id (file s) = ∅
    /\ pr_BudgetMinorUnits (normalizeProject (row b)) = 0).
  { destruct (project_row id (file s)) as [b|] eqn:Eb; cbn [fmap option_fmap option_map compose] in Hlock;
      [|injection Hlock as _ <-; split; [congruence|done]].
    destruct (String.eqb_spec (pr_CurrencyCode (normalizeProject (row b))) currency) as [E|E].
    - injection Hlock as _ <-. split; [congruence|]. intros b' [= <-]. done.
    - apply dtx_bind_Ok in Hlock as (n1 & c5 & [Hn1 F5]%dtx_query_Ok & Hlock).
      apply dtx_bind_Ok in Hlock as (n2 & c6 & [Hn2 F6]%dtx_query_Ok & Hlock).
      apply dtx_bind_Ok in Hlock as (n3 & c7 & [Hn3 F7]%dtx_query_Ok & [Hg ->]%dtx_guard_Ok).
      rewrite F6, F5, F2 in Hn3. rewrite F5, F2 in Hn2. rewrite F2 in Hn1. simplify_eq.
      apply andb_prop in Hg as [[[G1%Nat.eqb_eq G2%Nat.eqb_eq]%andb_prop G3%Nat.eqb_eq]%andb_prop G4%Z.eqb_eq].
      split; [congruence|]. intros b' [= <-] _. by rewrite <- !map_size_empty_iff. }
  destruct Hlock' as [F4 Hlock'].
  apply dtx_bind_Ok in Hb as (u2 & c5 & Hup%dtx_exec_Ok & Hb). rewrite F4 in Hup.
  apply dtx_bind_Ok in Hb as (after' & c6 & [F6 (t & Ht & Hrow)]%getProjectByIDTx_Ok & Hb).
  apply dtx_bind_Ok in Hb as (aj & c7 & [Haj ->]%dtx_of_option_Ok & Hb).
  apply dtx_bind_Ok in Hb as (bj & c8 & Hbj & Hb).
  assert (F8 : file c8 = file c6).
  { destruct (_ <$> project_row id (file s)); [by apply dtx_of_option_Ok in Hbj as [_ ->]|by injection Hbj as _ <-]. }
  apply dtx_bind_Ok in Hb as (e & c9 & He%append_appends & Hb). injection Hb as -> <-.
  rewrite F8, F6 in He. rewrite F. eexists id, currency, now.1, now.2, (file c5), _, e.
  split_and!; [done|done|exact Hlock'|exact Hup| | | |exact He]; try done.
  rewrite Ht. cbn. by rewrite Hrow.
Qed.

End upsert.

(** ** The effect of a save *)

(** The document that is written for [x]. *)
Definition document_written (x : Document) (id text : string) : Document :=
  mkDocument id (doc_ProjectID x) (doc_Kind x) (doc_Title x) (default_string (doc_Content x) "{}")
    (doc_TemplateID x) (if doc_Version x =? 0 then 1 else doc_Version x)
    (default_string (doc_Status x) "draft") text text.

(** Whether a save is an approval: the status becomes approved. *)
Definition approval (before : option Document) (after : Document) : bool :=
  String.eqb (doc_Status after) "approved"
  && match before with Some b => negb (String.eqb (doc_Status b) "approved") | None => true end.

(** The checkpoint of an approved value. *)
Definition checkpoint_input (pid kind id approvalType canonical now user : string) : AuditEventInput :=
  mkInput pid (kind +:+ ".approval_checkpoint")%string kind id ""
    (approval_payload approvalType kind id (HexSum256 canonical) now) user ""
    "signed" (approval_signature (HexSum256 canonical) now).

(** [d'] is [d] with the checkpoint of the value [json]. *)
Definition checkpointed (pid kind id approvalType json user : string) (d d' : ProjectDB) : Prop :=
  exists canonical now e, canonicalJSON json = Some canonical
    /\ appends (checkpoint_input pid kind id approvalType canonical now user) d d' e.

Lemma checkpoint_Ok `{DbEnv} pid kind id ap json user c e c' :
  appendApprovalCheckpointForUserTx pid kind id ap json user c = (Ok e, c') ->
  checkpointed pid kind id ap json user (file c) (file c').
Proof.
  unfold appendApprovalCheckpointForUserTx.
  intros (canonical & c1 & [Hc ->]%dtx_of_option_Ok & Hr)%dtx_bind_Ok.
  apply dtx_bind_Ok in Hr as (now & c2 & F%nowTimestamp_Ok & He%append_appends).
  rewrite F in He. by exists canonical, now, e.
Qed.

Definition document_saved (x : Document) (d d' : ProjectDB) (after : Document) : Prop :=
  exists id text now d1 d2 i e,
    (doc_ID x = ""%string \/ doc_ID x = id)
    /\ sql_upsert_document (document_written x id text) now d = Some d1
    /\ document_row id d1 = Some after
    /\ i = document_event (match document_row id d with Some _ => "document.update" | None => "document.create" end)
             after (default ""%string (documentAuditJSON <$> document_row id d)) (documentAuditJSON after)
    /\ appends i d1 d2 e
    /\ if approval (document_row id d) after
       then checkpointed (doc_ProjectID after) "document" (doc_ID after) "document_status_approved"
              (documentAuditJSON after) "" d2 d'
       else d' = d2.

Definition document_deleted (id : string) (d d' : ProjectDB) : Prop :=
  exists before d1 e, document_row id d = Some before /\ sql_delete_document id d = Some d1
    /\ appends (document_event "document.delete" before (documentAuditJSON before) "") d1 d' e.

Section operations.
Context `{DbEnv}.

Lemma SaveDocument_effect x s r s' : SaveDocument x s = (r, s') ->
  (exists after, document_saved x (file s) (file s') after /\ (r = Ok after \/ r = Err ErrDbCommit))
  \/ (is_ok r = false /\ file s' = file s).
Proof.
  unfold SaveDocument. change (if String.eqb (doc_ID x) "" then newID "doc" else dtx_ret (doc_ID x))
    with (id_or_new (doc_ID x) "doc"). intros Hr. unfold dtx_bind at 1 in Hr.
  destruct (id_or_new (doc_ID x) "doc" s) as [[id|e] s1] eqn:Hid; apply id_or_new_effect in Hid as [F1 Hid];
    [|injection Hr as <- <-; by right].
  unfold dtx_bind at 1 in Hr. cbn [captureTimestamp dtx_now dtx_bind dtx_ret] in Hr.
  set (now := (timestampLayout _, _)) in Hr. set (s2 := mkSession _ _ _ _ _ _) in Hr.
  apply in_tx_effect in Hr as [(after & c0 & c1 & F0 & Hb & F & Hr)|[Hr F]]; [|right; split; [done|by rewrite F]].
  left. exists after. split; [|done]. change (file s2) with (file s1) in F0. rewrite F1 in F0.
  apply dtx_bind_Ok in Hb as (found & c2 & [F2 Hf]%row_or_catch & Hb). rewrite F0 in *.
  apply dtx_bind_Ok in Hb as (before & c3 & Hbef & Hb).
  assert (Hbef' : c3 = c2 /\ before = document_row id (file s)).
  { destruct found as [b|e'].
    - injection Hbef as <- <-. by rewrite Hf.
    - destruct Hf as [[-> Hf]| ->]; [|done]. injection Hbef as <- <-. by rewrite Hf. }
  destruct Hbef' as [-> ->]. apply dtx_bind_Ok in Hb as (u & c4 & Hup%dtx_exec_Ok & Hb). rewrite F2 in Hup.
  apply dtx_bind_Ok in Hb as (after' & c5 & [F5 Ht]%row_or_Ok & Hb).
  apply dtx_bind_Ok in Hb as (e & c6 & He%append_appends & Hb). rewrite F5 in He.
  apply dtx_bind_Ok in Hb as (u2 & c7 & Hap & Hb). injection Hb as -> <-.
  eexists id, now.1, now.2, (file c4), (file c6), _, e. split_and!; [exact Hid|exact Hup|exact Ht|reflexivity| |].
  - destruct (document_row id (file s)); exact He.
  - rewrite F. unfold approval. destruct (_ && _).
    + apply dtx_bind_Ok in Hap as (e2 & c8 & Hcp%checkpoint_Ok & Hap). by injection Hap as _ <-.
    + by injection Hap as _ <-.
Qed.

Lemma DeleteDocument_effect id s r s' : DeleteDocument id s = (r, s') ->
  (document_deleted id (file s) (file s') /\ (r = Ok () \/ r = Err ErrDbCommit))
  \/ (file s' = file s /\ (is_ok r = true -> document_row id (file s) = None)).
Proof.
  unfold DeleteDocument. intros [(u & c0 & c1 & F0 & Hb & F & Hr)|[Hr F]]%in_tx_effect;
    [|right; split; [done|by rewrite Hr]].
  apply dtx_bind_Ok in Hb as (found & c2 & [F2 Hf]%row_or_catch & Hb). rewrite F0 in *.
  destruct found as [before|e].
  - left. split; [|by destruct u].
    apply dtx_bind_Ok in Hb as (u1 & c3 & Hd%dtx_exec_Ok & Hb). rewrite F2 in Hd.
    apply dtx_bind_Ok in Hb as (e & c4 & He%append_appends & Hb). injection Hb as _ <-.
    rewrite F. by exists before, (file c3), e.
  - right. destruct Hf as [[-> Hf]| ->]; [|done]. injection Hb as _ <-. split; [congruence|done].
Qed.

End operations.

(** ** Rows *)

Lemma upserted_document x now d d1 : sql_upsert_document x now d = Some d1 ->
  exists t, documents (plans d1) = <[doc_ID x := t]> (documents (plans d))
  /\ document_row (doc_ID x) d1 = Some (row t) /\ audit_events d1 = audit_events d
  /\ match document_row (doc_ID x) d with
     | Some old => row t = updated_document old x
     | None => row t = x /\ doc_ProjectID x ∈ projects d
     end.
Proof.
  unfold sql_upsert_document, document_row. destruct (documents (plans d) !! doc_ID x) as [old|] eqn:E; cbv zeta; intros Hu.
  - destruct (in_int64 _); [|done]. injection Hu as <-. eexists. cbn. by rewrite lookup_insert_eq.
  - case_bool_decide; [|done]. injection Hu as <-. eexists. cbn. by rewrite lookup_insert_eq.
Qed.

Lemma appends_events i d d' e : appends i d d' e ->
  exists l, audit_events d = Some l /\ audit_events d' = Some (l ++ [e])
  /\ plans d' = plans d /\ baselines d' = baselines d /\ charts d' = charts d /\ costs d' = costs d
  /\ project d' = project d.
Proof. intros (l & id & b & a & now & Hl & -> & _ & _ & ->). by exists l. Qed.

(** An event that is the checkpoint of a value. *)
Definition checkpoint_of (e : AuditEvent) (pid kind id approvalType json : string) : Prop :=
  ae_ProjectID e = pid /\ ae_EventType e = (kind +:+ ".approval_checkpoint")%string /\ ae_EntityID e = id
  /\ ae_SignatureStatus e = "signed"%string
  /\ exists canonical now, canonicalJSON json = Some canonical
     /\ canonicalJSON (approval_payload approvalType kind id (HexSum256 canonical) now)
        = Some (ae_AfterCanonicalJSON e).

Lemma checkpointed_event pid kind id ap json user d d' : checkpointed pid kind id ap json user d d' ->
  exists l e, audit_events d = Some l /\ audit_events d' = Some (l ++ [e]) /\ plans d' = plans d
  /\ baselines d' = baselines d /\ charts d' = charts d /\ costs d' = costs d /\ project d' = project d
  /\ checkpoint_of e pid kind id ap json /\ ae_UserID e = user.
Proof.
  intros (canonical & now & e & Hc & He). pose proof (appends_events _ _ _ _ He) as (l & Hl & Hl' & ? & ? & ? & ? & ?).
  exists l, e. split_and!; [done..| |]; destruct He as (l0 & id0 & b & a & now0 & _ & -> & _ & Ha & _).
  - split_and!; [done..|]. by exists canonical, now.
  - done.
Qed.

(** ** Baselines *)

Definition baseline_saved (b : Baseline) (d d' : ProjectDB) (saved : Baseline) : Prop :=
  exists id now d1 e,
    (bl_ID b = ""%string \/ bl_ID b = id)
    /\ saved = mkBaseline id (bl_ProjectID b) (bl_ChartID b) (bl_Name b) (default_string (bl_Data b) "{}") now
    /\ sql_insert_baseline saved d = Some d1
    /\ appends (baseline_event "baseline.create" saved "" (baselineAuditJSON saved)) d1 d' e.

Definition baseline_deleted (id : string) (d d' : ProjectDB) : Prop :=
  exists before d1 e, baselines d !! id = Some before
    /\ Forall (fun s => sc_SourceBaselineID s <> id) (row <$> (map_to_list (scenarios (plans d))).*2)
    /\ sql_delete_baseline id d = Some d1
    /\ appends (baseline_event "baseline.delete" before (baselineAuditJSON before) "") d1 d' e.

Lemma sql_insert_baseline_Some b d d1 : sql_insert_baseline b d = Some d1 ->
  d1 = set_baselines (<[bl_ID b := b]> (baselines d)) d /\ baselines d !! bl_ID b = None
  /\ bl_ProjectID b ∈ projects d /\ is_Some (charts d !! bl_ChartID b).
Proof.
  unfold sql_insert_baseline. destruct (baselines d !! bl_ID b); [done|].
  destruct (bool_decide (bl_ProjectID b ∈ _)) eqn:E1, (bool_decide (is_Some _)) eqn:E2; try done.
  apply bool_decide_eq_true in E1, E2. intros Hi. by injection Hi as <-.
Qed.

Section baselines.
Context `{DbEnv}.

Lemma getBaselineTx_effect id c r c' : getBaselineTx id c = (r, c') -> file c' = file c
  /\ match r with Ok b => baselines (file c) !! id = Some b | Err e => e = ErrNoBaseline end.
Proof.
  unfold getBaselineTx, dtx_catch, dtx_bind. destruct (dtx_query (sql_baseline id) c) as [[r0|e] c1] eqn:E.
  - apply dtx_query_Ok in E as [Hq F]. injection Hq as <-.
    destruct (baselines (file c) !! id); intros Hr; injection Hr as <- <-; done.
  - apply query_same in E. intros Hr. injection Hr as <- <-. done.
Qed.

Lemma saveBaselineTx_Ok b c x c' : saveBaselineTx b c = (Ok x, c') ->
  baseline_saved b (file c) (file c') x.1 /\ x.2 = baselineAuditJSON x.1.
Proof.
  unfold saveBaselineTx. change (if String.eqb (bl_ID b) "" then newID "baseline" else dtx_ret (bl_ID b))
    with (id_or_new (bl_ID b) "baseline").
  intros (id & c1 & [F1 Hid]%id_or_new_effect & Hr)%dtx_bind_Ok.
  apply dtx_bind_Ok in Hr as (now & c2 & F2%captureTimestamp_Ok & Hr).
  apply dtx_bind_Ok in Hr as (u & c3 & Hi%dtx_exec_Ok & Hr). rewrite F2, F1 in Hi.
  pose proof (sql_insert_baseline_Some _ _ _ Hi) as (Ed & _).
  apply dtx_bind_Ok in Hr as (saved & c4 & [F4 Hs]%getBaselineTx_effect & Hr).
  rewrite Ed in Hs. cbn [bl_ID baselines set_baselines] in Hs. rewrite lookup_insert_eq in Hs. injection Hs as <-.
  apply dtx_bind_Ok in Hr as (e & c5 & He%append_appends & Hr). injection Hr as <- <-. rewrite F4 in He.
  split; [|done]. by exists id, now.2, (file c3), e.
Qed.

Lemma SaveBaseline_effect b c r c' : SaveBaseline b c = (r, c') ->
  (exists saved, baseline_saved b (file c) (file c') saved /\ (r = Ok saved \/ r = Err ErrDbCommit))
  \/ (is_ok r = false /\ file c' = file c).
Proof.
  intros [(saved & c0 & c1 & F0 & Hb & F & Hr)|[Hr F]]%in_tx_effect; [left|by right].
  apply dtx_bind_Ok in Hb as (x & c2 & [Hs _]%saveBaselineTx_Ok & Hb). injection Hb as <- <-.
  exists x.1. rewrite F, <- F0. done.
Qed.

Lemma head_None_sort l : head (merge_sort String.le l) = None -> l = [].
Proof.
  intros Hh. pose proof (merge_sort_Permutation String.le l) as Hp.
  destruct (merge_sort String.le l); [by apply Permutation_nil in Hp|done].
Qed.

(** Nothing is deleted while a scenario names the baseline; a baseline that cannot
    be read is taken for one that is not there. *)
Lemma DeleteBaseline_effect id c r c' : DeleteBaseline id c = (r, c') ->
  (baseline_deleted id (file c) (file c') /\ (r = Ok () \/ r = Err ErrDbCommit))
  \/ file c' = file c.
Proof.
  unfold DeleteBaseline. intros [(u & c0 & c1 & F0 & Hb & F & Hr)|[Hr F]]%in_tx_effect; [|by right].
  apply dtx_bind_Ok in Hb as (found & c2 & Hf & Hb).
  assert (Hf' : file c2 = file c0 /\ match found with
    Ok b => baselines (file c0) !! id = Some b | Err e => e = ErrNoBaseline end).
  { unfold dtx_catch in Hf. destruct (getBaselineTx id c0) as [r0 c3] eqn:E. injection Hf as <- <-.
    by apply getBaselineTx_effect in E. }
  destruct Hf' as [F2 Hf']. rewrite F0 in *. destruct found as [before|e]; [left|right].
  2: { rewrite Hf' in Hb. injection Hb as _ <-. congruence. }
  split; [|by destruct u].
  apply dtx_bind_Ok in Hb as (s & c3 & [Hq F3]%dtx_query_Ok & Hb).
  apply dtx_bind_Ok in Hb as (u1 & c4 & Hu & Hb). destruct s as [name|]; [done|]. injection Hu as _ <-.
  apply dtx_bind_Ok in Hb as (u2 & c5 & Hd%dtx_exec_Ok & Hb). rewrite F3, F2 in Hd.
  apply dtx_bind_Ok in Hb as (e & c6 & He%append_appends & Hb). injection Hb as _ <-.
  exists before, (file c5), e. rewrite F. split_and!; [done| |done|done].
  rewrite F2 in Hq. injection Hq as Hq. apply head_None_sort, fmap_nil_inv in Hq. unfold scenarios_from in Hq.
  apply Forall_forall. intros s Hs Hid. assert (Hin : s ∈ filter (fun s => sc_SourceBaselineID s = id)
    (row ∘ snd <$> map_to_list (scenarios (plans (file c))))).
  { apply list_elem_of_filter. split; [done|]. by rewrite list_fmap_compose. }
  rewrite Hq in Hin. by apply elem_of_nil in Hin.
Qed.

End baselines.

(** ** Saving a scenario *)

(** The events of the scenarios that were deactivated, one each. *)
Fixpoint replaced_events (l : list Scenario) (d d' : ProjectDB) : Prop :=
  match l with
  | [] => d' = d
  | s :: l' => exists t d1 e, scenarios (plans d) !! sc_ID s = Some t
      /\ appends (scenario_event "scenario.update" (row t) (scenarioAuditJSON s) (scenarioAuditJSON (row t)))
           d d1 e
      /\ replaced_events l' d1 d'
  end.

(** The scenario that is written for [s]. *)
Definition scenario_written (s : Scenario) (id text : string) : Scenario :=
  mkScenario id (sc_ProjectID s) (sc_Name s) (sc_SourceBaselineID s) (sc_Description s) (sc_IsActive s)
    text text.

Definition scenario_saved (s : Scenario) (d d' : ProjectDB) (after : Scenario) : Prop :=
  exists id text now l d1 d2 d3 e,
    (sc_ID s = ""%string \/ sc_ID s = id)
    /\ (if sc_IsActive s
        then l ≡ₚ row <$> (map_to_list (filter (active_except (sc_ProjectID s) id) (scenarios (plans d)))).*2
             /\ sql_deactivate text now (sc_ProjectID s) id d = Some d1
        else l = [] /\ d1 = d)
    /\ sql_upsert_scenario (scenario_written s id text) now d1 = Some d2
    /\ row <$> scenarios (plans d2) !! id = Some after
    /\ replaced_events l d2 d3
    /\ appends (scenario_event
                  (match scenarios (plans d) !! id with Some _ => "scenario.update" | None => "scenario.create" end)
                  after (default ""%string (scenarioAuditJSON ∘ row <$> scenarios (plans d) !! id))
                  (scenarioAuditJSON after)) d3 d' e.

Definition scenario_deleted (id : string) (d d' : ProjectDB) : Prop :=
  exists t d1 e, scenarios (plans d) !! id = Some t /\ sql_delete_scenario id d = Some d1
    /\ appends (scenario_event "scenario.delete" (row t) (scenarioAuditJSON (row t)) "") d1 d' e.

Definition scenario_row (id : string) (d : ProjectDB) : option Scenario := row <$> scenarios (plans d) !! id.

Definition scenario_chart_row (id : string) (d : ProjectDB) : option ScenarioChart :=
  row <$> scenario_charts (plans d) !! id.

Section scenarios.
Context `{DbEnv}.

Lemma getScenarioTx_Ok id c s c' : getScenarioTx id c = (Ok s, c') ->
  file c' = file c /\ scenario_row id (file c) = Some s.
Proof. apply (row_or_Ok (scenario_row id)). Qed.

Lemma getScenarioTx_catch id c r c' : dtx_catch (getScenarioTx id) c = (Ok r, c') -> file c' = file c
  /\ match r with
     | Ok s => scenario_row id (file c) = Some s
     | Err e => (e = ErrNoScenario /\ scenario_row id (file c) = None) \/ e = ErrDbStatement
     end.
Proof. apply (row_or_catch (scenario_row id)). Qed.

Lemma audit_deactivated_Ok l c u c' : audit_deactivated l c = (Ok u, c') ->
  replaced_events l (file c) (file c').
Proof.
  revert c. induction l as [|s l IH]; intros c; cbn [audit_deactivated]; [intros Hr; by injection Hr as _ <-|].
  intros (after & c1 & [F1 Ht]%getScenarioTx_Ok & Hr)%dtx_bind_Ok.
  apply dtx_bind_Ok in Hr as (e & c2 & He%append_appends & Hr). rewrite F1 in He.
  unfold scenario_row in Ht. destruct (scenarios (plans (file c)) !! sc_ID s) as [t|] eqn:Et; [|done]. injection Ht as <-.
  exists t, (file c2), e. split_and!; [exact Et|done|by apply IH].
Qed.

Lemma listActive_Ok p x c l c' : listActiveScenariosExceptTx p x c = (Ok l, c') -> file c' = file c
  /\ l ≡ₚ row <$> (map_to_list (filter (active_except p x) (scenarios (plans (file c))))).*2.
Proof.
  intros (rows & c1 & (l0 & Hl0 & Hp & F)%dtx_rows_Ok & Hr)%dtx_bind_Ok. injection Hr as <- <-.
  injection Hl0 as <-. split; [done|]. by rewrite merge_sort_Permutation, Hp.
Qed.

Lemma SaveScenario_effect s c r c' : SaveScenario s c = (r, c') ->
  (exists after, scenario_saved s (file c) (file c') after /\ (r = Ok after \/ r = Err ErrDbCommit))
  \/ (is_ok r = false /\ file c' = file c).
Proof.
  unfold SaveScenario. intros Hr. unfold dtx_bind at 1, dtx_guard at 1 in Hr.
  destruct (negb _); [cbn [dtx_ret] in Hr|injection Hr as <- <-; by right].
  unfold dtx_bind at 1, dtx_guard at 1 in Hr.
  destruct (negb _); [cbn [dtx_ret] in Hr|injection Hr as <- <-; by right].
  change (if String.eqb (sc_ID s) "" then newID "scn" else dtx_ret (sc_ID s))
    with (id_or_new (sc_ID s) "scn") in Hr. unfold dtx_bind at 1 in Hr.
  destruct (id_or_new (sc_ID s) "scn" c) as [[id|e] c1] eqn:Hid; apply id_or_new_effect in Hid as [F1 Hid];
    [|injection Hr as <- <-; by right].
  unfold dtx_bind at 1 in Hr. cbn [captureTimestamp dtx_now dtx_bind dtx_ret] in Hr.
  set (now := (timestampLayout _, _)) in Hr. set (c2 := mkSession _ _ _ _ _ _) in Hr.
  assert (F2 : file c2 = file c) by exact F1.
  apply run_tx_effect in Hr as [(after & c0 & c3 & F0 & Hb & F & Hr)|[(after & c0 & c3 & F0 & Hb & _)|[Hr F]]];
    [| |right; split; [done|congruence]].
  - left. exists after. split; [|done]. rewrite F2 in F0. rewrite F. clear F F1 F2.
    apply dtx_bind_Ok in Hb as (found & c4 & [F4 Hf]%getScenarioTx_catch & Hb). rewrite F0 in *.
    apply dtx_bind_Ok in Hb as (before & c5 & Hbef & Hb).
    assert (Hbef' : c5 = c4 /\ before = scenario_row id (file c)).
    { destruct found as [b|e'].
      - injection Hbef as <- <-. by rewrite Hf.
      - destruct Hf as [[-> Hf]| ->]; [|done]. injection Hbef as <- <-. by rewrite Hf. }
    destruct Hbef' as [-> ->]. apply dtx_bind_Ok in Hb as (l & c6 & Hl & Hb).
    assert (Hl' : if sc_IsActive s
      then l ≡ₚ row <$> (map_to_list (filter (active_except (sc_ProjectID s) id) (scenarios (plans (file c))))).*2
           /\ sql_deactivate now.1 now.2 (sc_ProjectID s) id (file c) = Some (file c6)
      else l = [] /\ file c6 = file c).
    { destruct (sc_IsActive s); [|injection Hl as <- <-; done].
      apply dtx_bind_Ok in Hl as (l1 & c7 & [F7 Hl1]%listActive_Ok & Hl).
      apply dtx_bind_Ok in Hl as (u & c8 & Hd%dtx_exec_Ok & Hl). injection Hl as <- <-.
      rewrite F7, F4 in Hd. rewrite F4 in Hl1. done. }
    apply dtx_bind_Ok in Hb as (u & c7 & Hup%dtx_exec_Ok & Hb).
    apply dtx_bind_Ok in Hb as (after' & c8 & [F8 Ha]%getScenarioTx_Ok & Hb).
    apply dtx_bind_Ok in Hb as (audited & c9 & Hau & Hb). unfold dtx_catch in Hau.
    destruct (audit_deactivated l c8) as [ra c10] eqn:Eau. injection Hau as <- <-.
    destruct ra as [u2|e2]; [|by injection Hb]. apply audit_deactivated_Ok in Eau. rewrite F8 in Eau.
    apply dtx_bind_Ok in Hb as (e & c11 & He%append_appends & Hb). injection Hb as -> <-.
    exists id, now.1, now.2, l, (file c6), (file c7), (file c10), e.
    split_and!; [exact Hid|by destruct (sc_IsActive s)|exact Hup|exact Ha|exact Eau|].
    unfold scenario_row in He. by destruct (scenarios (plans (file c)) !! id).
  - exfalso. apply dtx_bind_Ok in Hb as (? & ? & _ & Hb). apply dtx_bind_Ok in Hb as (? & ? & _ & Hb).
    apply dtx_bind_Ok in Hb as (? & ? & _ & Hb). apply dtx_bind_Ok in Hb as (? & ? & _ & Hb).
    apply dtx_bind_Ok in Hb as (? & ? & _ & Hb). apply dtx_bind_Ok in Hb as (audited & ? & _ & Hb).
    destruct audited; [|by injection Hb]. apply dtx_bind_Ok in Hb as (? & ? & _ & Hb). by injection Hb.
Qed.

Lemma DeleteScenario_effect id s r s' : DeleteScenario id s = (r, s') ->
  (scenario_deleted id (file s) (file s') /\ (r = Ok () \/ r = Err ErrDbCommit))
  \/ file s' = file s.
Proof.
  unfold DeleteScenario. intros [(u & c0 & c1 & F0 & Hb & F & Hr)|[Hr F]]%in_tx_effect; [|by right].
  apply dtx_bind_Ok in Hb as (found & c2 & [F2 Hf]%getScenarioTx_catch & Hb). rewrite F0 in *.
  destruct found as [before|e].
  - left. split; [|by destruct u].
    apply dtx_bind_Ok in Hb as (u1 & c3 & Hd%dtx_exec_Ok & Hb). rewrite F2 in Hd.
    apply dtx_bind_Ok in Hb as (e & c4 & He%append_appends & Hb). injection Hb as _ <-.
    unfold scenario_row in Hf. destruct (scenarios (plans (file s)) !! id) as [t|] eqn:Et; [|done]. injection Hf as <-.
    exists t, (file c3), e. by rewrite F.
  - right. destruct Hf as [[-> Hf]| ->]; [|done]. injection Hb as _ <-. congruence.
Qed.

End scenarios.

(** ** Copies of charts *)

(** The source of a branch: the baseline that is asked for, or the scenario's own,
    or none. *)
Definition branch_source (scenario : Scenario) (chart : Chart) (baselineID : string) (d : ProjectDB)
    (id data : string) : Prop :=
  id = default_string baselineID (sc_SourceBaselineID scenario)
  /\ if String.eqb id "" then data = "{}"%string
     else exists b, baselines d !! id = Some b /\ bl_ProjectID b = sc_ProjectID scenario
          /\ bl_ChartID b = ch_ID chart /\ data = bl_Data b.

(** The copy of [chart] that a branch makes. *)
Definition chart_copy (id : string) (scenario : Scenario) (chart : Chart) (source data text : string)
    : ScenarioChart :=
  mkScenarioChart id (sc_ID scenario) (sc_ProjectID scenario) (ch_ID chart) source (ch_Kind chart)
    (ch_Title chart) (ch_Data chart) (ch_Config chart) data text text.

Definition chart_branched (scenarioID chartID baselineID : string) (d d' : ProjectDB) (c : ScenarioChart) : Prop :=
  exists scenario chart source data id text now d1 e,
    scenario_row scenarioID d = Some scenario /\ row <$> charts d !! chartID = Some chart
    /\ ch_ProjectID chart = sc_ProjectID scenario
    /\ branch_source scenario chart baselineID d source data
    /\ c = chart_copy id scenario chart source data text
    /\ sql_insert_scenario_chart c now d = Some d1
    /\ appends (scenario_chart_event "scenario_chart.create" c "" (scenarioChartAuditJSON c)) d1 d' e.

Definition copy_saved (c : ScenarioChart) (d d' : ProjectDB) (saved : ScenarioChart) : Prop :=
  exists existing text now d1 e,
    scenario_chart_row (scc_ID c) d = Some existing
    /\ saved = edited_chart (default_string (TrimSpace (scc_Title c)) (scc_Title existing))
                 (default_string (TrimSpace (scc_Data c)) "{}") (default_string (TrimSpace (scc_Config c)) "{}")
                 text existing
    /\ sql_update_scenario_chart (scc_Title saved) (scc_Data saved) (scc_Config saved) text now (scc_ID c) d
       = Some d1
    /\ appends (scenario_chart_event "scenario_chart.update" saved (scenarioChartAuditJSON existing)
                  (scenarioChartAuditJSON saved)) d1 d' e.

(** The baseline of a promotion, with the checkpoint of its approval. *)
Definition copy_promoted (id name : string) (d d' : ProjectDB) (b : Baseline) : Prop :=
  exists c chart d1,
    scenario_chart_row id d = Some c /\ row <$> charts d !! scc_SourceChartID c = Some chart
    /\ ch_ProjectID chart = scc_ProjectID c /\ TrimSpace name <> ""%string
    /\ baseline_saved (mkBaseline "" (scc_ProjectID c) (scc_SourceChartID c) (TrimSpace name) (scc_Data c) 0)
         d d1 b
    /\ checkpointed (bl_ProjectID b) "baseline" (bl_ID b) "scenario_promoted_to_baseline"
         (baselineAuditJSON b) "" d1 d'.

Section copies.
Context `{DbEnv}.

Lemma getScenarioChartTx_Ok id c s c' : getScenarioChartTx id c = (Ok s, c') ->
  file c' = file c /\ scenario_chart_row id (file c) = Some s.
Proof. apply (row_or_Ok (scenario_chart_row id)). Qed.

Lemma getChartTx_row id c s c' : getChartTx id c = (Ok s, c') ->
  file c' = file c /\ row <$> charts (file c) !! id = Some s.
Proof. apply (row_or_Ok (fun d => row <$> charts d !! id)). Qed.

Lemma source_baseline_Ok scenario chart baselineID c x c' :
  source_baseline scenario chart baselineID c = (Ok x, c') ->
  file c' = file c /\ branch_source scenario chart baselineID (file c) x.1 x.2.
Proof.
  unfold source_baseline, branch_source. cbv zeta.
  destruct (String.eqb_spec (default_string baselineID (sc_SourceBaselineID scenario)) "") as [E|E].
  - intros Hr. injection Hr as <- <-. cbn [fst snd]. split_and!; [done|done|]. by rewrite E.
  - intros (b & c1 & [F1 Hb]%getBaselineTx_effect & Hr)%dtx_bind_Ok.
    apply dtx_bind_Ok in Hr as (u1 & c2 & [Hp%String.eqb_eq ->]%dtx_guard_Ok & Hr).
    apply dtx_bind_Ok in Hr as (u2 & c3 & [Hc%String.eqb_eq ->]%dtx_guard_Ok & Hr). injection Hr as <- <-.
    cbn [fst snd]. split_and!; [done|done|]. destruct (String.eqb_spec (default_string baselineID (sc_SourceBaselineID scenario)) "");
      [done|]. by exists b.
Qed.

Lemma insert_scenario_chart_row x now d d1 : sql_insert_scenario_chart x now d = Some d1 ->
  scenario_chart_row (scc_ID x) d1 = Some x.
Proof.
  unfold sql_insert_scenario_chart, scenario_chart_row. destruct (scenario_charts (plans d) !! scc_ID x); [done|].
  destruct (_ && _); [|done]. intros Hi. injection Hi as <-. cbn. by rewrite lookup_insert_eq.
Qed.

Lemma BranchScenarioChart_effect a b i c r c' : BranchScenarioChart a b i c = (r, c') ->
  (exists copy, chart_branched a b i (file c) (file c') copy /\ (r = Ok copy \/ r = Err ErrDbCommit))
  \/ (is_ok r = false /\ file c' = file c).
Proof.
  unfold BranchScenarioChart, GetScenario, GetChart. intros Hr.
  apply reads_then in Hr as [(s & c1 & [F1 Hs]%getScenarioTx_Ok & _ & Hr)|?]; [|by right|unfold getScenarioTx; keeps].
  apply reads_then in Hr as [(ch & c2 & [F2 Hch]%getChartTx_row & _ & Hr)|[? F]];
    [|right; split; [done|congruence]|unfold getChartTx; keeps].
  apply reads_then in Hr as [(u & c3 & [Hp%String.eqb_eq ->]%dtx_guard_Ok & _ & Hr)|[? F]];
    [|right; split; [done|congruence]|keeps].
  apply reads_then in Hr as [(src & c4 & [F4 Hsrc]%source_baseline_Ok & _ & Hr)|[? F]];
    [|right; split; [done|congruence]|unfold source_baseline, GetBaseline, getBaselineTx; keeps].
  apply reads_then in Hr as [(id & c5 & F5%newID_Ok & _ & Hr)|[? F]];
    [|right; split; [done|congruence]|keeps].
  apply reads_then in Hr as [(now & c6 & F6%captureTimestamp_Ok & _ & Hr)|[? F]];
    [|right; split; [done|congruence]|keeps].
  apply in_tx_effect in Hr as [(copy & c0 & c7 & F0 & Hb & F & Hr)|[? F]]; [left|right; split; [done|congruence]].
  exists copy. split; [|done]. rewrite F. clear F Hr.
  apply dtx_bind_Ok in Hb as (u2 & c8 & Hi%dtx_exec_Ok & Hb). rewrite F0, F6, F5, F4, F2, F1 in Hi.
  apply dtx_bind_Ok in Hb as (x & c9 & [F9 Hx]%getScenarioChartTx_Ok & Hb).
  pose proof (insert_scenario_chart_row _ _ _ _ Hi) as Hrow. cbn [scc_ID] in Hrow. rewrite Hrow in Hx.
  injection Hx as <-. apply dtx_bind_Ok in Hb as (e & c10 & He%append_appends & Hb). injection Hb as <- <-.
  rewrite F9 in He. rewrite F2, F1 in Hsrc. rewrite F1 in Hch.
  by exists s, ch, src.1, src.2, id, now.1, now.2, (file c8), e.
Qed.

Lemma SaveScenarioChart_effect x c r c' : SaveScenarioChart x c = (r, c') ->
  (exists saved, copy_saved x (file c) (file c') saved /\ (r = Ok saved \/ r = Err ErrDbCommit))
  \/ (is_ok r = false /\ file c' = file c).
Proof.
  unfold SaveScenarioChart. intros Hr.
  apply reads_then in Hr as [(u & c1 & [_ ->]%dtx_guard_Ok & _ & Hr)|[? F]]; [|by right|keeps].
  apply in_tx_effect in Hr as [(saved & c0 & c7 & F0 & Hb & F & Hr)|[? F]]; [left|by right].
  exists saved. split; [|done]. rewrite F. clear F Hr.
  apply dtx_bind_Ok in Hb as (existing & c2 & [F2 Hx]%getScenarioChartTx_Ok & Hb). rewrite F0 in *.
  apply dtx_bind_Ok in Hb as (now & c3 & F3%captureTimestamp_Ok & Hb).
  apply dtx_bind_Ok in Hb as (u2 & c4 & Hup%dtx_exec_Ok & Hb). rewrite F3, F2 in Hup.
  apply dtx_bind_Ok in Hb as (y & c5 & [F5 Hy]%getScenarioChartTx_Ok & Hb).
  apply dtx_bind_Ok in Hb as (e & c6 & He%append_appends & Hb). injection Hb as -> <-. rewrite F5 in He.
  assert (Hsaved : saved = edited_chart (default_string (TrimSpace (scc_Title x)) (scc_Title existing))
    (default_string (TrimSpace (scc_Data x)) "{}") (default_string (TrimSpace (scc_Config x)) "{}") now.1 existing).
  { injection Hup as Hup. unfold scenario_chart_row in *. rewrite <- Hup in Hy. cbn in Hy.
    rewrite lookup_alter_eq in Hy. destruct (scenario_charts (plans (file c)) !! scc_ID x) as [t|]; [|done].
    cbn in Hx, Hy. injection Hx as <-. by injection Hy as <-. }
  exists existing, now.1, now.2, (file c4), e. by rewrite Hsaved in *.
Qed.

Lemma PromoteScenarioChartToBaseline_effect id name c r c' : PromoteScenarioChartToBaseline id name c = (r, c') ->
  (exists b, copy_promoted id name (file c) (file c') b /\ (r = Ok b \/ r = Err ErrDbCommit))
  \/ (is_ok r = false /\ file c' = file c).
Proof.
  unfold PromoteScenarioChartToBaseline. intros Hr.
  apply reads_then in Hr as [(u & c1 & [Hn ->]%dtx_guard_Ok & _ & Hr)|[? F]]; [|by right|keeps].
  apply negb_true_iff, String.eqb_neq in Hn.
  assert (Hleave : forall A e w c0 (x : A) c1, dtx_ret (Leave e w) c0 = (Ok (Return x), c1) -> False)
    by (intros ?????? Hx; by injection Hx).
  apply run_tx_effect in Hr as [(b & c0 & c7 & F0 & Hb & F & Hr)|[(b & c0 & c7 & F0 & Hb & _)|[? F]]];
    [left|exfalso|by right].
  - exists b. split; [|done]. rewrite F. clear F Hr.
    apply dtx_bind_Ok in Hb as (x & c2 & [F2 Hx]%getScenarioChartTx_Ok & Hb). rewrite F0 in *.
    apply dtx_bind_Ok in Hb as (ch & c3 & [F3 Hch]%getChartTx_row & Hb). rewrite F2 in *.
    apply dtx_if_Ok in Hb as [[_ Hb]|[Hp%negb_false_iff%String.eqb_eq Hb]]; [by injection Hb|].
    apply dtx_bind_Ok in Hb as (saved & c4 & [Hs Hj]%saveBaselineTx_Ok & Hb).
    apply dtx_bind_Ok in Hb as (e & c5 & Hcp%checkpoint_Ok & Hb). injection Hb as <- <-.
    rewrite F3 in Hs. rewrite Hj in Hcp. by exists x, ch, (file c4).
  - apply dtx_bind_Ok in Hb as (x & c2 & _ & Hb). apply dtx_bind_Ok in Hb as (ch & c3 & _ & Hb).
    apply dtx_if_Ok in Hb as [[_ Hb]|[_ Hb]]; [by eapply Hleave|].
    apply dtx_bind_Ok in Hb as (? & ? & _ & Hb). apply dtx_bind_Ok in Hb as (? & ? & _ & Hb). by injection Hb.
Qed.

End copies.
