(* ===== verification/CostTheorems.v ===== *)
(** * What the operations of cost control do

    The effects of the operations of [CostControl] and [CostAttachments] on the
    tables, and the sums they compute. *)

From S2P Require Import Prelude GoStrings GoTime GoSha256 GoJson Money Wbs ProjectDb AuditChain AuditTheorems Charts ChartsTheorems ProjectKeeps PlanTheorems CostControl CostAttachments.

Local Open Scope Z_scope.

(** ** Entries *)

Definition entry_event (e : CostEntry) : AuditEventInput :=
  cost_event (ce_ProjectID e) "cost_entry.create" "cost_entry" (ce_ID e)
    (json_text (cost_entry_fields e)) "".

Definition entry_saved (x : CostEntry) (d d' : ProjectDB) (e : CostEntry) : Prop :=
  exists x' ty id text d1 ev,
    check_entry x = Ok x'
    /\ types_of (ce_ProjectID x') d !! ce_CostTypeID x' = Some ty /\ ct_Active ty = true
    /\ (ce_ID x' = ""%string \/ ce_ID x' = id) /\ e = written_entry x' id text
    /\ sql_insert_entry e d = Some d1 /\ appends (entry_event e) d1 d' ev.

(** ** Reserves *)

Definition reserve_input (r : CostReserve) : bool :=
  negb (String.eqb (cr_ProjectID r) ""
        || negb (String.eqb (cr_Kind r) "contingency" || String.eqb (cr_Kind r) "management")
        || (cr_AmountMinorUnits r <? 0) || String.eqb (TrimSpace (cr_Description r)) "").

Definition reserve_with (id : string) (r : CostReserve) : CostReserve :=
  mkCostReserve id (cr_ProjectID r) (cr_Kind r) (cr_AmountMinorUnits r) (cr_Description r).

Definition reserve_saved (x : CostReserve) (d d' : ProjectDB) (r : CostReserve) : Prop :=
  exists id0 id d1 ev,
    reserve_input x = true
    /\ sql_upsert_reserve (reserve_with id0 x) d = Some d1
    /\ fst <$> reserve_of (cr_ProjectID x) (cr_Kind x) d1 = Some id /\ r = reserve_with id x
    /\ appends (cost_event (cr_ProjectID r) "cost_reserve.save" "cost_reserve" (cr_ID r)
                  (json_text (cost_reserve_fields r)) "") d1 d' ev.

(** ** Baselines *)

(** The rows a loop that does not ask [rows.Err] takes for all of [l0]. *)
Definition received `{DbEnv} {A} (l0 l : list A) : Prop :=
  exists l1, l1 ≡ₚ l0 /\ (l = l1 \/ exists k n, db_rows_cut k = Some n /\ l = take n l1).

Definition snapshot_event (s : CostBaselineSnapshot) : AuditEventInput :=
  cost_event (cs_ProjectID s) "cost_baseline_snapshot.create" "cost_baseline_snapshot" (cs_ID s)
    (json_text (snapshot_fields s)) (cs_ApprovedBy s).

Definition cost_approved `{DbEnv} (pid actor note : string) (d d' : ProjectDB) (s : CostBaselineSnapshot) : Prop :=
  exists currency amounts rows pl base whole version id text d1 d2 ev,
    pid <> ""%string /\ TrimSpace actor <> ""%string /\ TrimSpace note <> ""%string
    /\ project_currency pid d = Some currency
    /\ received (planned_amounts pid d) amounts /\ Accumulator_Amount (sum_planned amounts) = Ok pl
    /\ received (reserve_list pid d) rows
    /\ Amount_Add pl (mkAmount (reserve_amounts rows).1) = Ok base /\ 0 < MinorUnits base
    /\ Amount_Add base (mkAmount (reserve_amounts rows).2) = Ok whole
    /\ sql_next_version pid d = Some version
    /\ s = mkCostSnapshot id pid version currency (MinorUnits pl) (reserve_amounts rows).1
             (reserve_amounts rows).2 (TrimSpace actor) (TrimSpace note) text
    /\ sql_insert_snapshot s d = Some d1 /\ appends (snapshot_event s) d1 d2 ev
    /\ checkpointed pid "cost_baseline_snapshot" (cs_ID s) "cost_baseline_approved"
         (json_text (snapshot_fields s)) (cs_ApprovedBy s) d2 d'.

(** ** Attachments *)

Definition attachment_event (a : CostEntryAttachment) : AuditEventInput :=
  cost_event (at_ProjectID a) "cost_entry_attachment.create" "cost_entry_attachment" (at_ID a)
    (json_text (attachment_fields a)) "".

Definition attachment_saved (pid entry filename data : string) (d d' : ProjectDB) (a : CostEntryAttachment) : Prop :=
  exists name kind id text e n d1 ev,
    sanitizeAttachmentFilename filename = Some name /\ go_len data <> 0 /\ go_len data <= maxAttachmentBytes
    /\ cost_entries (costs d) !! entry = Some e /\ ce_ProjectID e = pid
    /\ (length (attachments_of_entry entry d) < maxAttachmentsPerEntry)%nat
    /\ sql_attached_bytes pid d = Some n /\ wrap64 (n + go_len data) <= maxAttachmentTotalBytesPerProject
    /\ a = mkAttachment id pid entry name kind (go_len data) (HexSum256 data) text
    /\ sql_insert_attachment a data d = Some d1 /\ appends (attachment_event a) d1 d' ev.

Section operations.
Context `{DbEnv}.

Lemma dtx_of_result_Ok {A} (r : result DbError A) c a c' : dtx_of_result r c = (Ok a, c') -> r = Ok a /\ c' = c.
Proof. destruct r; [|done]. intros Hr. by injection Hr as -> ->. Qed.

Lemma dtx_of_money_Ok {A} (r : result MoneyError A) c a c' : dtx_of_money r c = (Ok a, c') -> r = Ok a /\ c' = c.
Proof. destruct r; [|done]. intros Hr. by injection Hr as -> ->. Qed.

Lemma dtx_rows_unchecked_Ok {A} (f : ProjectDB -> option (list A)) c l c' :
  dtx_rows_unchecked f c = (Ok l, c') -> exists l0, f (file c) = Some l0 /\ received l0 l /\ file c' = file c.
Proof.
  unfold dtx_rows_unchecked. destruct (dtx_rows f c) as [[l1|e] c1] eqn:E; [|done]. intros Hr. injection Hr as <- <-.
  apply dtx_rows_Ok in E as (l0 & Hf & Hp & F). exists l0. split_and!; [done| |done]. exists l1. split; [done|].
  destruct (db_rows_cut (statements_run c)) as [n|] eqn:Ec; [right|by left]. by exists (statements_run c), n.
Qed.

Lemma SaveCostEntry_effect x c r c' : SaveCostEntry x c = (r, c') ->
  (exists e, entry_saved x (file c) (file c') e /\ (r = Ok e \/ r = Err ErrDbCommit))
  \/ (is_ok r = false /\ file c' = file c).
Proof.
  unfold SaveCostEntry. intros Hr.
  apply reads_then in Hr as [(x' & c1 & [Hx ->]%dtx_of_result_Ok & _ & Hr)|[? F]]; [|by right|unfold dtx_of_result; keeps].
  apply in_tx_effect in Hr as [(e & c0 & c7 & F0 & Hb & F & Hr)|[? F]]; [left|by right].
  exists e. split; [|done]. rewrite F. clear F Hr.
  apply dtx_bind_Ok in Hb as (a0 & c2 & [Hq F2]%dtx_query_Ok & Hb). rewrite F0 in *. injection Hq as <-.
  apply dtx_bind_Ok in Hb as (active & c3 & [Ha ->]%dtx_of_option_Ok & Hb).
  apply dtx_bind_Ok in Hb as (u & c3 & [Hg ->]%dtx_guard_Ok & Hb).
  apply dtx_bind_Ok in Hb as (id & c4 & [F4 Hid]%id_or_new_effect & Hb).
  apply dtx_bind_Ok in Hb as (now & c5 & F5%captureTimestamp_Ok & Hb).
  apply dtx_bind_Ok in Hb as (u2 & c6 & Hi%dtx_exec_Ok & Hb). rewrite F5, F4, F2 in Hi.
  apply dtx_bind_Ok in Hb as (ev & c8 & He%append_appends & Hb). injection Hb as <- <-.
  destruct (types_of _ _ !! _) as [ty|] eqn:Ety; [|done]. injection Ha as <-.
  by exists x', ty, id, now.1, (file c6), ev.
Qed.

Lemma SaveCostReserve_effect x c r c' : SaveCostReserve x c = (r, c') ->
  (exists y, reserve_saved x (file c) (file c') y /\ (r = Ok y \/ r = Err ErrDbCommit))
  \/ (is_ok r = false /\ file c' = file c).
Proof.
  unfold SaveCostReserve. intros Hr.
  apply reads_then in Hr as [(u & c1 & [Hx ->]%dtx_guard_Ok & _ & Hr)|[? F]]; [|by right|keeps].
  apply in_tx_effect in Hr as [(y & c0 & c7 & F0 & Hb & F & Hr)|[? F]]; [left|by right].
  exists y. split; [|done]. rewrite F. clear F Hr.
  apply dtx_bind_Ok in Hb as (existing & c2 & [_ F2]%dtx_query_Ok & Hb). rewrite F0 in *.
  apply dtx_bind_Ok in Hb as (id0 & c3 & Hid & Hb).
  assert (F3 : file c3 = file c).
  { rewrite <- F2. destruct existing; [by injection Hid as _ <-|]. by apply (id_or_new_effect _ "reserve") in Hid as [? _]. }
  apply dtx_bind_Ok in Hb as (now & c4 & F4%captureTimestamp_Ok & Hb).
  apply dtx_bind_Ok in Hb as (u2 & c5 & Hi%dtx_exec_Ok & Hb). rewrite F4, F3 in Hi.
  apply dtx_bind_Ok in Hb as (id & c6 & [Hq F6]%dtx_query_Ok & Hb).
  apply dtx_bind_Ok in Hb as (ev & c8 & He%append_appends & Hb). injection Hb as <- <-. rewrite F6 in He.
  by exists id0, id, (file c5), ev.
Qed.

Lemma ApproveCostBaseline_effect pid actor note c r c' : ApproveCostBaseline pid actor note c = (r, c') ->
  (exists s, cost_approved pid actor note (file c) (file c') s /\ (r = Ok s \/ r = Err ErrDbCommit))
  \/ (is_ok r = false /\ file c' = file c).
Proof.
  unfold ApproveCostBaseline. intros Hr.
  apply reads_then in Hr as [(u & c1 & [Hx ->]%dtx_guard_Ok & _ & Hr)|[? F]]; [|by right|keeps].
  apply negb_true_iff in Hx. repeat (apply orb_false_elim in Hx as [Hx ?Hn]).
  rewrite String.eqb_neq in Hx, Hn, Hn0.
  apply in_tx_effect in Hr as [(s & c0 & c7 & F0 & Hb & F & Hr)|[? F]]; [left|by right].
  exists s. split; [|done]. rewrite F. clear F Hr.
  apply dtx_bind_Ok in Hb as (currency & c2 & [Hcur F2]%dtx_query_Ok & Hb). rewrite F0 in *.
  apply dtx_bind_Ok in Hb as (amounts & c3 & (l0 & Hl0 & Ham & F3)%dtx_rows_unchecked_Ok & Hb). injection Hl0 as <-.
  apply dtx_bind_Ok in Hb as (pl & c4 & [Hpl ->]%dtx_of_money_Ok & Hb).
  apply dtx_bind_Ok in Hb as (rows & c4 & (l1 & Hl1 & Hrows & F4)%dtx_rows_unchecked_Ok & Hb). injection Hl1 as <-.
  rewrite F3, F2 in Hrows, F4. rewrite F2 in Ham. destruct (reserve_amounts rows) as [ct mg] eqn:Er.
  apply dtx_bind_Ok in Hb as (base & c5 & [Hbase ->]%dtx_of_money_Ok & Hb).
  apply dtx_bind_Ok in Hb as (u2 & c5 & [Hpos%Z.ltb_lt ->]%dtx_guard_Ok & Hb).
  apply dtx_bind_Ok in Hb as (whole & c5 & [Hwhole ->]%dtx_of_money_Ok & Hb).
  apply dtx_bind_Ok in Hb as (version & c5 & [Hv F5]%dtx_query_Ok & Hb). rewrite F4 in Hv.
  apply dtx_bind_Ok in Hb as (id & c6 & F6%newID_Ok & Hb).
  apply dtx_bind_Ok in Hb as (now & c8 & F8%captureTimestamp_Ok & Hb).
  apply dtx_bind_Ok in Hb as (u3 & c9 & Hi%dtx_exec_Ok & Hb). rewrite F8, F6, F5, F4 in Hi.
  apply dtx_bind_Ok in Hb as (ev & c10 & He%append_appends & Hb).
  apply dtx_bind_Ok in Hb as (ev2 & c11 & Hc%checkpoint_Ok & Hb). injection Hb as <- <-.
  exists currency, amounts, rows, pl, base, whole, version, id, now.1, (file c9), (file c10), ev.
  rewrite Er. split_and!; try done.
Qed.

Lemma SaveCostEntryAttachment_effect pid entry name kind data c r c' :
  SaveCostEntryAttachment pid entry name kind data c = (r, c') ->
  (exists a, attachment_saved pid entry name data (file c) (file c') a /\ (r = Ok a \/ r = Err ErrDbCommit))
  \/ (is_ok r = false /\ file c' = file c).
Proof.
  unfold SaveCostEntryAttachment. intros Hr.
  apply reads_then in Hr as [(u & c1 & [_ ->]%dtx_guard_Ok & _ & Hr)|[? F]]; [|by right|keeps].
  apply reads_then in Hr as [(n & c1 & [Hn ->]%dtx_of_option_Ok & _ & Hr)|[? F]]; [|by right|keeps].
  apply reads_then in Hr as [(u1 & c1 & [Hz%negb_true_iff%Z.eqb_neq ->]%dtx_guard_Ok & _ & Hr)|[? F]]; [|by right|keeps].
  apply reads_then in Hr as [(u2 & c1 & [Hm%negb_true_iff%Z.ltb_ge ->]%dtx_guard_Ok & _ & Hr)|[? F]]; [|by right|keeps].
  apply in_tx_effect in Hr as [(a & c0 & c7 & F0 & Hb & F & Hr)|[? F]]; [left|by right].
  exists a. split; [|done]. rewrite F. clear F Hr.
  apply dtx_bind_Ok in Hb as (o & c2 & [Hq F2]%dtx_query_Ok & Hb). rewrite F0 in *. injection Hq as <-.
  apply dtx_bind_Ok in Hb as (p & c3 & [Hp ->]%dtx_of_option_Ok & Hb).
  apply dtx_bind_Ok in Hb as (u3 & c3 & [->%String.eqb_eq ->]%dtx_guard_Ok & Hb).
  apply dtx_bind_Ok in Hb as (count & c3 & [Hcount F3]%dtx_query_Ok & Hb). injection Hcount as <-.
  apply dtx_bind_Ok in Hb as (u4 & c4 & [Hlt%Nat.ltb_lt ->]%dtx_guard_Ok & Hb).
  apply dtx_bind_Ok in Hb as (total & c4 & [Ht F4]%dtx_query_Ok & Hb).
  apply dtx_bind_Ok in Hb as (u5 & c5 & [Hb2%negb_true_iff%Z.ltb_ge ->]%dtx_guard_Ok & Hb).
  apply dtx_bind_Ok in Hb as (id & c5 & F5%newID_Ok & Hb).
  apply dtx_bind_Ok in Hb as (now & c6 & F6%captureTimestamp_Ok & Hb).
  apply dtx_bind_Ok in Hb as (u6 & c8 & Hi%dtx_exec_Ok & Hb). rewrite F6, F5, F4, F3, F2 in Hi.
  apply dtx_bind_Ok in Hb as (ev & c9 & He%append_appends & Hb). injection Hb as <- <-.
  rewrite F2 in Hlt. rewrite F3, F2 in Ht.
  destruct (cost_entries (costs (file c)) !! entry) as [e|] eqn:Ee; [|done]. injection Hp as <-.
  eexists n, _, id, now.1, e, total, (file c8), ev. split_and!; done.
Qed.

End operations.
