(* ===== verification/WbsStore.v ===== *)
(** * The store of the work breakdown structure (db/wbs_store.go)

    Opening the store on a project file, reading and saving scopes under
    optimistic revisions, with receipts that make a retried request harmless. *)

From S2P Require Import Prelude GoStrings GoTime GoSha256 GoJson GoJsonV2 Wbs ProjectDb AuditChain Charts.

Local Open Scope Z_scope.

Definition WBSReceiptLimit : nat := 256.

(** ** The schema *)

Definition wbsStorageSchema : string :=
  "CREATE TABLE wbs_copy(id INTEGER PRIMARY KEY CHECK(id=1),copy_id TEXT NOT NULL,project_id TEXT NOT NULL);
CREATE TABLE wbs_records(chart_id TEXT PRIMARY KEY REFERENCES charts(id),revision TEXT NOT NULL);
CREATE TABLE wbs_receipts(chart_id TEXT NOT NULL REFERENCES wbs_records(chart_id),request_id TEXT NOT NULL,fingerprint TEXT NOT NULL,revision TEXT NOT NULL,audit_id TEXT NOT NULL,PRIMARY KEY(chart_id,request_id));".

(** [strings.Split(wbsStorageSchema, ";")], trimmed, without the empty ones. *)
Definition definitions : list string :=
  filter (fun s => s <> ""%string)
    ((fun l => TrimSpace (string_of l)) <$> split_bytes ";" (bytes_of wbsStorageSchema)).

(** The name after [CREATE TABLE] and before the parenthesis. *)
Definition definition_name (definition : string) : string :=
  match split_bytes "(" (bytes_of (string_drop 13 definition)) with
  | name :: _ => string_of name
  | [] => ""
  end.

(** [SELECT sql FROM sqlite_master WHERE type='table' AND name=?]. *)
Definition sqlite_master (name : string) (d : ProjectDB) : option string :=
  if String.eqb name "wbs_copy" then table_sql <$> wbs_copy d
  else if String.eqb name "wbs_records" then table_sql <$> wbs_records d
  else if String.eqb name "wbs_receipts" then table_sql <$> wbs_receipts d
  else None.

(** How many of the three tables there are. *)
Definition wbs_tables (d : ProjectDB) : nat :=
  length (filter (fun name => is_Some (sqlite_master name d))
            ["wbs_copy"; "wbs_records"; "wbs_receipts"]%string).

(** Running the schema: three new, empty tables; one that exists is an error. *)
Definition sql_create_wbs (d : ProjectDB) : option ProjectDB :=
  match definitions, wbs_copy d, wbs_records d, wbs_receipts d with
  | [copy; records; receipts], None, None, None =>
      Some (set_wbs_copy (mkTable copy None)
              (set_wbs_records (mkTable records ∅) (set_wbs_receipts (mkTable receipts ∅) d)))
  | _, _, _, _ => None
  end.

Example definitions_read : definition_name <$> definitions = ["wbs_copy"; "wbs_records"; "wbs_receipts"]%string.
Proof. vm_compute. reflexivity. Qed.

(** ** Statements *)

Definition sql_insert_copy (copyID projectID : string) (d : ProjectDB) : option ProjectDB :=
  match wbs_copy d with
  | Some (mkTable sql None) => Some (set_wbs_copy (mkTable sql (Some (copyID, projectID))) d)
  | _ => None
  end.

(** No row is an error of [Scan]. *)
Definition sql_copy (d : ProjectDB) : option (string * string) := t ← wbs_copy d; table_rows t.

Definition sql_revision (id : string) (d : ProjectDB) : option string :=
  t ← wbs_records d; table_rows t !! id.

Definition sql_receipt (id request : string) (d : ProjectDB) : option (option ReceiptRow) :=
  t ← wbs_receipts d; Some (table_rows t !! (id, request)).

Definition sql_scope_ids (d : ProjectDB) : option (list string) :=
  t ← wbs_records d;
  Some (elements (dom (filter (fun kv => ch_Kind (row kv.2) = "wbs_v2"%string) (charts d)) ∪ dom (table_rows t))).

Definition sql_insert_record (id revision : string) (d : ProjectDB) : option ProjectDB :=
  t ← wbs_records d;
  match table_rows t !! id, charts d !! id with
  | None, Some _ => Some (set_wbs_records (mkTable (table_sql t) (<[id := revision]> (table_rows t))) d)
  | _, _ => None
  end.

(** [UPDATE charts ... WHERE id=? AND project_id=? AND kind='wbs_v2']. *)
Definition sql_update_scope (id projectID title data text : string) (now : Z) (d : ProjectDB)
    : option ProjectDB :=
  match charts d !! id with
  | Some r =>
      if bool_decide (ch_ProjectID (row r) = projectID /\ ch_Kind (row r) = "wbs_v2"%string) then
        let c := row r in
        Some (set_charts (<[id := mkTimed (mkChart (ch_ID c) (ch_ProjectID c) (ch_Kind c) title data
                                             (ch_Config c) (ch_TemplateID c) (ch_CreatedAt c) text)
                                    (created_unixnano r) now]> (charts d)) d)
      else Some d
  | None => Some d
  end.

(** [UPDATE wbs_records SET revision=? WHERE chart_id=? AND revision=?]. *)
Definition sql_update_revision (id next current : string) (d : ProjectDB) : option ProjectDB :=
  t ← wbs_records d;
  if bool_decide (table_rows t !! id = Some current)
  then Some (set_wbs_records (mkTable (table_sql t) (<[id := next]> (table_rows t))) d)
  else Some d.

Definition sql_insert_receipt (id request : string) (r : ReceiptRow) (d : ProjectDB) : option ProjectDB :=
  t ← wbs_receipts d;
  match table_rows t !! (id, request), records_of d !! id with
  | None, Some _ =>
      Some (set_wbs_receipts (mkTable (table_sql t) (<[(id, request) := r]> (table_rows t))) d)
  | _, _ => None
  end.

(** [ORDER BY length(revision) DESC, revision COLLATE BINARY DESC]. *)
Definition newer_receipt (a b : (string * string) * ReceiptRow) : Prop :=
  (String.length (rr_revision b.2) < String.length (rr_revision a.2))%nat
  \/ String.length (rr_revision b.2) = String.length (rr_revision a.2)
     /\ String.le (rr_revision b.2) (rr_revision a.2).

#[export] Instance newer_receipt_dec a b : Decision (newer_receipt a b).
Proof. unfold newer_receipt. apply _. Defined.

(** The requests of a chart that are kept; [order] is the one of equal revisions. *)
Definition kept_requests (order : forall A : Type, list A -> list A) (id : string)
    (rows : gmap (string * string) ReceiptRow) : list string :=
  take WBSReceiptLimit
    ((fun kv => kv.1.2) <$>
       merge_sort newer_receipt
         (order _ (map_to_list (filter (fun kv => kv.1.1 = id) rows)))).

Definition sql_prune_receipts (order : forall A : Type, list A -> list A) (id : string) (d : ProjectDB)
    : option ProjectDB :=
  t ← wbs_receipts d;
  let kept := kept_requests order id (table_rows t) in
  Some (set_wbs_receipts
          (mkTable (table_sql t) (filter (fun kv => kv.1.1 <> id \/ kv.1.2 ∈ kept) (table_rows t))) d).

(** ** The store *)

Record WBSBinding : Type := mkBinding {
  b_ProjectID : string;
  b_ActorID : string;
  b_LifetimeID : string
}.

Record WBSStore : Type := mkStore {
  s_binding : WBSBinding;
  s_copyID : string;
  s_closed : bool
}.

Record WBSWrite : Type := mkWrite {
  w_CopyID : string;
  w_ChartID : string;
  w_LifetimeID : string;
  w_RequestID : string;
  w_ExpectedRevision : string;
  w_Create : bool;
  w_Title : string;
  w_Data : string
}.

Record WBSReceipt : Type := mkReceipt {
  r_RequestID : string;
  r_Revision : string;
  r_AuditID : string;
  r_Replayed : bool
}.

Record WBSSnapshot : Type := mkSnapshot {
  sn_CopyID : string;
  sn_LifetimeID : string;
  sn_Chart : Chart
}.

Definition wbsIdentifier (v : string) : bool :=
  ValidString v && (byte_len v <=? MaxIdentifierBytes) && negb (String.eqb (TrimSpace v) "").

Definition dtx_of_wbs {A} (r : result WbsError A) : DbTx A :=
  match r with
  | Ok a => dtx_ret a
  | Err e => dtx_fail (ErrWbs e)
  end.

(** The struct whose JSON is hashed into the fingerprint of a request. *)
Definition fingerprint_fields (s : WBSStore) (r : WBSWrite) (data : string) : list (string * field) :=
  [("Version", FInt 1); ("Copy", FString (s_copyID s)); ("Project", FString (b_ProjectID (s_binding s)));
   ("Chart", FString (w_ChartID r)); ("Actor", FString (b_ActorID (s_binding s)));
   ("Expected", FString (w_ExpectedRevision r)); ("Title", FString (w_Title r)); ("Data", FString data);
   ("Create", FBool (w_Create r))]%string.

Definition request_fingerprint (s : WBSStore) (r : WBSWrite) (data : string) : string :=
  HexSum256 (string_of (print_struct (fingerprint_fields s r data))).

Definition with_revision (a : Aggregate (option Node)) (revision : string) : Aggregate (option Node) :=
  mkAggregate (SchemaVersion a) revision (Root a) (ActivityLinks a) (CostLinks a).

Definition Close (s : WBSStore) : WBSStore := mkStore (s_binding s) (s_copyID s) true.

Section operations.
Context `{DbEnv}.

Definition readWBSRecord (id projectID : string) : DbTx (Chart * string) :=
  c <== getChartTx id ;;
  _ <== dtx_guard (String.eqb (ch_ProjectID c) projectID && String.eqb (ch_Kind c) "wbs_v2")
          ErrWBSBinding ;;
  revision <== dtx_query (sql_revision id) ;;
  a <== dtx_of_wbs (Parse (ch_Data c)) ;;
  _ <== dtx_guard (String.eqb (Revision a) revision) ErrWBSBinding ;;
  dtx_ret (c, revision).

Fixpoint read_all (ids : list string) (projectID : string) : DbTx unit :=
  match ids with
  | [] => dtx_ret ()
  | id :: r => _ <== readWBSRecord id projectID ;; read_all r projectID
  end.

(** The definitions are compared one after the other. *)
Fixpoint check_definitions (l : list string) : DbTx unit :=
  match l with
  | [] => dtx_ret ()
  | definition :: r =>
      actual <== dtx_query (sqlite_master (definition_name definition)) ;;
      _ <== dtx_guard (String.eqb actual definition) ErrWBSBinding ;;
      check_definitions r
  end.

Definition first_project (d : ProjectDB) : option string := head (projects d).

Definition wbs_charts (d : ProjectDB) : nat :=
  size (filter (fun kv => ch_Kind (row kv.2) = "wbs_v2"%string) (charts d)).

(** [UPDATE project SET id=id WHERE id=?]: nothing changes, but it is a write, which
    waits for the lock. *)
Definition sql_lock_project (id : string) (d : ProjectDB) : option (nat * ProjectDB) :=
  Some (if bool_decide (id ∈ projects d) then 1%nat else 0%nat, d).

Definition OpenWBSStore (binding : WBSBinding) : DbTx WBSStore :=
  let projectID := b_ProjectID binding in
  if negb (wbsIdentifier projectID && wbsIdentifier (b_ActorID binding)
           && wbsIdentifier (b_LifetimeID binding)) then dtx_fail ErrWBSBinding
  else
    run_tx ErrWBSIndeterminate (
      matched <== dtx_affected (sql_lock_project projectID) ;;
      _ <== dtx_guard (matched =? 1)%nat ErrWBSBinding ;;
      count <== dtx_query (fun d => Some (wbs_tables d)) ;;
      _ <== dtx_guard ((count =? 0)%nat || (count =? 3)%nat) ErrWBSBinding ;;
      _ <== (if (count =? 0)%nat then
               protected <== dtx_query (fun d => Some (wbs_charts d)) ;;
               _ <== dtx_guard (protected =? 0)%nat ErrWBSBinding ;;
               _ <== dtx_exec sql_create_wbs ;;
               entropy <== dtx_rand 16 ;;
               dtx_exec (sql_insert_copy (hex_encode entropy) projectID)
             else dtx_ret ()) ;;
      _ <== check_definitions definitions ;;
      copy <== dtx_query sql_copy ;;
      actualProject <== dtx_query first_project ;;
      _ <== dtx_guard (wbsIdentifier copy.1 && String.eqb copy.2 projectID
                       && String.eqb actualProject projectID) ErrWBSBinding ;;
      ids <== dtx_rows sql_scope_ids ;;
      _ <== read_all ids projectID ;;
      dtx_ret (Commit (mkStore binding copy.1 false))).

Definition is_copy (s : WBSStore) (c : string * string) : bool :=
  String.eqb c.1 (s_copyID s) && String.eqb c.2 (b_ProjectID (s_binding s)).

(** [UPDATE wbs_copy SET copy_id=copy_id WHERE id=1 AND copy_id=? AND project_id=?]. *)
Definition sql_lock_copy (s : WBSStore) (d : ProjectDB) : option (nat * ProjectDB) :=
  t ← wbs_copy d;
  Some (match table_rows t with Some c => if is_copy s c then 1%nat else 0%nat | None => 0%nat end, d).

Definition checkCopy (s : WBSStore) (write : bool) : DbTx unit :=
  _ <== (if write then
           n <== dtx_affected (sql_lock_copy s) ;;
           dtx_guard (n =? 1)%nat ErrWBSBinding
         else dtx_ret ()) ;;
  copy <== dtx_query sql_copy ;;
  _ <== dtx_guard (is_copy s copy) ErrWBSBinding ;;
  actualProject <== dtx_query first_project ;;
  dtx_guard (String.eqb actualProject copy.2) ErrWBSBinding.

Definition Read (s : WBSStore) (chartID : string) : DbTx WBSSnapshot :=
  if s_closed s || negb (wbsIdentifier chartID) then dtx_fail ErrWBSBinding
  else
    run_tx ErrDbCommit (
      _ <== checkCopy s false ;;
      c <== readWBSRecord chartID (b_ProjectID (s_binding s)) ;;
      dtx_ret (Return (mkSnapshot (s_copyID s) (b_LifetimeID (s_binding s)) c.1))).

(** The checks of a request before the database. *)
Definition refused_request (s : WBSStore) (r : WBSWrite) : bool :=
  s_closed s || negb (String.eqb (w_CopyID r) (s_copyID s))
  || negb (String.eqb (w_LifetimeID r) (b_LifetimeID (s_binding s)))
  || negb (wbsIdentifier (w_ChartID r)) || negb (wbsIdentifier (w_RequestID r))
  || negb (ValidString (w_Title r)) || (MaxTextBytes <? byte_len (w_Title r)).

(** The chart before the change, none when the scope is created, and its revision. *)
Definition current_scope (s : WBSStore) (r : WBSWrite) : DbTx (option Chart * string) :=
  if w_Create r then
    n <== dtx_query (sql_chart (w_ChartID r)) ;;
    _ <== dtx_guard (bool_decide (n = None)) (ErrWbs ErrRevisionConflict) ;;
    dtx_ret (None, "0"%string)
  else
    c <== readWBSRecord (w_ChartID r) (b_ProjectID (s_binding s)) ;;
    dtx_ret (Some c.1, c.2).

(** The rows of the scope itself. *)
Definition write_scope (s : WBSStore) (r : WBSWrite) (data current next : string) (now : string * Z)
    : DbTx unit :=
  let projectID := b_ProjectID (s_binding s) in
  if w_Create r then
    _ <== dtx_exec (sql_insert_chart
            (mkChart (w_ChartID r) projectID "wbs_v2" (w_Title r) data "{}" "" now.1 now.1) now.2 now.2) ;;
    dtx_exec (sql_insert_record (w_ChartID r) next)
  else
    _ <== dtx_exec (sql_update_scope (w_ChartID r) projectID (w_Title r) data now.1 now.2) ;;
    dtx_exec (sql_update_revision (w_ChartID r) next current).

(** One more revision of a scope, with its event and its receipt. *)
Definition advance (s : WBSStore) (r : WBSWrite) (a : Aggregate (option Node)) (fingerprint : string)
    : DbTx WBSReceipt :=
  let id := w_ChartID r in
  _ <== dtx_guard (is_nil (ActivityLinks a) && is_nil (CostLinks a)) ErrWBSAssociations ;;
  before <== current_scope s r ;;
  let current := before.2 in
  _ <== dtx_guard (String.eqb current (w_ExpectedRevision r)) (ErrWbs ErrRevisionConflict) ;;
  next <== dtx_of_wbs (NextRevision current) ;;
  let data := Marshal (with_revision a next) in
  _ <== dtx_of_wbs (Parse data) ;;
  now <== captureTimestamp ;;
  _ <== write_scope s r data current next now ;;
  after <== getChartTx id ;;
  event <== appendAuditEventTx
    (chart_event (if w_Create r then "chart.create" else "chart.update") (b_ProjectID (s_binding s)) id
       (match before.1 with Some c => chartAuditJSON c | None => "" end) (chartAuditJSON after)
       (b_ActorID (s_binding s)) (b_LifetimeID (s_binding s))) ;;
  _ <== dtx_exec (sql_insert_receipt id (w_RequestID r) (mkReceiptRow fingerprint next (ae_ID event))) ;;
  _ <== (fun c => dtx_exec (sql_prune_receipts (fun A => db_rows (statements_run c)) id) c) ;;
  dtx_ret (mkReceipt (w_RequestID r) next (ae_ID event) false).

Definition Save (s : WBSStore) (r : WBSWrite) : DbTx WBSReceipt :=
  if refused_request s r then dtx_fail ErrWBSBinding
  else
    parsed <== dtx_of_wbs (Parse (w_Data r)) ;;
    _ <== dtx_guard (String.eqb (Revision parsed) (w_ExpectedRevision r)
                     && (negb (w_Create r) || String.eqb (w_ExpectedRevision r) "0"))
            (ErrWbs ErrRevision) ;;
    let a := normalize parsed in
    let fingerprint := request_fingerprint s r (Marshal a) in
    run_tx ErrWBSIndeterminate (
      _ <== checkCopy s true ;;
      retained <== dtx_query (sql_receipt (w_ChartID r) (w_RequestID r)) ;;
      match retained with
      | Some row =>
          _ <== dtx_guard (String.eqb (rr_fingerprint row) fingerprint) ErrWBSRequestReuse ;;
          dtx_ret (Return (mkReceipt (w_RequestID r) (rr_revision row) (rr_audit_id row) true))
      | None => receipt <== advance s r a fingerprint ;; dtx_ret (Commit receipt)
      end).

End operations.
