(* ===== verification/WbsStoreTheorems.v ===== *)
(** * What the operations of the scope store do

    The effect of each operation of [WbsStore] on the file, and the order in which
    the receipts of a scope are pruned. *)

From S2P Require Import Prelude GoStrings GoTime GoJson GoJsonV2 Wbs WbsTheorems ProjectDb AuditChain AuditTheorems Charts ChartsTheorems WbsStore GoDecimal.

Local Open Scope Z_scope.

(** ** The parts of the operations *)

(** [readWBSRecord] succeeds on the scope of a chart, at a revision. *)
Definition readable (d : ProjectDB) (pid id : string) (t : Timed Chart) (rev : string) : Prop :=
  charts d !! id = Some t /\ ch_ProjectID (row t) = pid /\ ch_Kind (row t) = "wbs_v2"%string
  /\ sql_revision id d = Some rev /\ exists a, Parse (ch_Data (row t)) = Ok a /\ Revision a = rev.

Definition own_copy (s : WBSStore) (d : ProjectDB) : Prop :=
  sql_copy d = Some (s_copyID s, b_ProjectID (s_binding s))
  /\ first_project d = Some (b_ProjectID (s_binding s)).

(** The rows [write_scope] writes. *)
Definition sql_write_scope (s : WBSStore) (r : WBSWrite) (data current next text : string) (now : Z)
    (d : ProjectDB) : option ProjectDB :=
  let projectID := b_ProjectID (s_binding s) in
  if w_Create r then
    d1 ← sql_insert_chart (mkChart (w_ChartID r) projectID "wbs_v2" (w_Title r) data "{}" "" text text)
           now now d;
    sql_insert_record (w_ChartID r) next d1
  else
    d1 ← sql_update_scope (w_ChartID r) projectID (w_Title r) data text now d;
    sql_update_revision (w_ChartID r) next current d1.

(** The scope of the request before it, as [current_scope] finds it. *)
Definition scope_before (s : WBSStore) (r : WBSWrite) (d : ProjectDB) (current : string) : Prop :=
  if w_Create r then charts d !! w_ChartID r = None /\ current = "0"%string
  else exists t, readable d (b_ProjectID (s_binding s)) (w_ChartID r) t current.

(** A request accepted before the database: what it submits. *)
Definition submitted (s : WBSStore) (r : WBSWrite) (parsed : Aggregate (option Node)) : Prop :=
  refused_request s r = false /\ Parse (w_Data r) = Ok parsed /\ Revision parsed = w_ExpectedRevision r
  /\ (w_Create r = true -> w_ExpectedRevision r = "0"%string).

(** [d'] is [d] with one more revision of the scope. *)
Definition advanced (s : WBSStore) (r : WBSWrite) (d d' : ProjectDB) (receipt : WBSReceipt) : Prop :=
  exists parsed next text now i e d1 d2 d3 order,
    submitted s r parsed /\ own_copy s d
    /\ sql_receipt (w_ChartID r) (w_RequestID r) d = Some None
    /\ ActivityLinks parsed = [] /\ CostLinks parsed = []
    /\ scope_before s r d (w_ExpectedRevision r)
    /\ NextRevision (w_ExpectedRevision r) = Ok next
    /\ is_ok (Parse (Marshal (with_revision (normalize parsed) next))) = true
    /\ sql_write_scope s r (Marshal (with_revision (normalize parsed) next)) (w_ExpectedRevision r) next
         text now d = Some d1
    /\ in_ProjectID i = b_ProjectID (s_binding s) /\ in_EntityID i = w_ChartID r
    /\ in_UserID i = b_ActorID (s_binding s) /\ in_SessionID i = b_LifetimeID (s_binding s)
    /\ (fun t => chartAuditJSON (row t)) <$> charts d1 !! w_ChartID r = Some (in_AfterJSON i)
    /\ appends i d1 d2 e
    /\ sql_insert_receipt (w_ChartID r) (w_RequestID r)
         (mkReceiptRow (request_fingerprint s r (Marshal (normalize parsed))) next (ae_ID e)) d2 = Some d3
    /\ (forall A l, order A l ≡ₚ l) /\ sql_prune_receipts order (w_ChartID r) d3 = Some d'
    /\ receipt = mkReceipt (w_RequestID r) next (ae_ID e) false.

(** The receipt of the request is still there. *)
Definition replayed (s : WBSStore) (r : WBSWrite) (d : ProjectDB) (receipt : WBSReceipt) : Prop :=
  exists parsed rr, submitted s r parsed /\ own_copy s d
  /\ sql_receipt (w_ChartID r) (w_RequestID r) d = Some (Some rr)
  /\ rr_fingerprint rr = request_fingerprint s r (Marshal (normalize parsed))
  /\ receipt = mkReceipt (w_RequestID r) (rr_revision rr) (rr_audit_id rr) true.

Section parts.
Context `{DbEnv}.

Lemma dtx_of_wbs_Ok {A} (x : result WbsError A) c a c' : dtx_of_wbs x c = (Ok a, c') -> x = Ok a /\ c' = c.
Proof. destruct x; [|done]. intros Hr. by injection Hr as -> ->. Qed.

Lemma readWBSRecord_Ok id pid c ch rev c' : readWBSRecord id pid c = (Ok (ch, rev), c') ->
  file c' = file c /\ exists t, readable (file c) pid id t rev /\ row t = ch.
Proof.
  intros (ch' & c1 & [F1 (t & Ht & <-)]%getChartTx_Ok & Hr)%dtx_bind_Ok.
  apply dtx_bind_Ok in Hr as (u & c2 & [[Hp%String.eqb_eq Hk%String.eqb_eq]%andb_prop ->]%dtx_guard_Ok & Hr).
  apply dtx_bind_Ok in Hr as (rev' & c3 & [Hq F3]%dtx_query_Ok & Hr).
  apply dtx_bind_Ok in Hr as (a & c4 & [Ha ->]%dtx_of_wbs_Ok & Hr).
  apply dtx_bind_Ok in Hr as (v & c5 & [Hv%String.eqb_eq ->]%dtx_guard_Ok & Hr).
  injection Hr as <- <- <-. split; [congruence|]. exists t. split; [|done]. rewrite F1 in Hq.
  split_and!; try done. by exists a.
Qed.

Lemma lock_copy_same s c n c' : dtx_affected (sql_lock_copy s) c = (Ok n, c') -> file c' = file c.
Proof.
  intros [(m & _ & Hs)|[_ F]]%dtx_affected_effect; [|done]. unfold sql_lock_copy in Hs.
  apply bind_Some in Hs as (t & _ & Hs). injection Hs as _ <-. done.
Qed.

Lemma lock_project_same pid c n c' : dtx_affected (sql_lock_project pid) c = (Ok n, c') -> file c' = file c.
Proof. intros [(m & _ & Hs)|[_ F]]%dtx_affected_effect; [|done]. by injection Hs as _ <-. Qed.

Lemma checkCopy_Ok s w c u c' : checkCopy s w c = (Ok u, c') -> file c' = file c /\ own_copy s (file c).
Proof.
  intros (v & c1 & H1 & Hr)%dtx_bind_Ok.
  assert (F1 : file c1 = file c).
  { destruct w; [|by injection H1 as _ <-].
    apply dtx_bind_Ok in H1 as (n & c2 & Hn & [_ ->]%dtx_guard_Ok). by eapply lock_copy_same. }
  apply dtx_bind_Ok in Hr as (copy & c2 & [Hq F2]%dtx_query_Ok & Hr).
  apply dtx_bind_Ok in Hr as (x & c3 & [[Hc%String.eqb_eq Hp%String.eqb_eq]%andb_prop ->]%dtx_guard_Ok & Hr).
  apply dtx_bind_Ok in Hr as (p & c4 & [Hf F4]%dtx_query_Ok & [Hg%String.eqb_eq ->]%dtx_guard_Ok).
  rewrite F1 in Hq. rewrite F2, F1 in Hf. split; [congruence|]. destruct copy as [a b]. cbn in *. subst.
  split; done.
Qed.

Lemma current_scope_Ok s r c before cur c' : current_scope s r c = (Ok (before, cur), c') ->
  file c' = file c /\ scope_before s r (file c) cur.
Proof.
  unfold current_scope, scope_before. destruct (w_Create r).
  - intros (n & c1 & [Hq F]%dtx_query_Ok & Hr)%dtx_bind_Ok.
    apply dtx_bind_Ok in Hr as (u & c2 & [Hb ->]%dtx_guard_Ok & Hr). injection Hr as <- <- <-.
    split; [done|]. split; [|done]. apply bool_decide_eq_true in Hb. subst.
    injection Hq as Hq. by destruct (charts (file c) !! w_ChartID r).
  - intros ([ch rev] & c1 & [F (t & Ht & _)]%readWBSRecord_Ok & Hr)%dtx_bind_Ok. injection Hr as _ <- <-.
    split; [done|by exists t].
Qed.

Lemma write_scope_Ok s r data cur next now c u c' : write_scope s r data cur next now c = (Ok u, c') ->
  sql_write_scope s r data cur next now.1 now.2 (file c) = Some (file c').
Proof.
  unfold write_scope, sql_write_scope. destruct (w_Create r);
    intros (v & c1 & H1%dtx_exec_Ok & H2%dtx_exec_Ok)%dtx_bind_Ok; by rewrite H1.
Qed.

End parts.

(** ** The operations *)

Section operations.
Context `{DbEnv}.

Lemma Save_effect s r c res c' : Save s r c = (res, c') ->
  (exists receipt, advanced s r (file c) (file c') receipt
     /\ (res = Ok receipt \/ res = Err ErrWBSIndeterminate))
  \/ (exists receipt, replayed s r (file c) receipt /\ res = Ok receipt /\ file c' = file c)
  \/ (is_ok res = false /\ file c' = file c).
Proof.
  unfold Save. destruct (refused_request s r) eqn:Href; [intros Hr; injection Hr as <- <-; auto|].
  unfold dtx_bind at 1. destruct (Parse (w_Data r)) as [parsed|e] eqn:Hparse; cbn [dtx_of_wbs];
    [|intros Hr; injection Hr as <- <-; auto].
  cbn [dtx_ret]. unfold dtx_bind at 1, dtx_guard at 1.
  destruct (String.eqb (Revision parsed) (w_ExpectedRevision r)
            && (negb (w_Create r) || String.eqb (w_ExpectedRevision r) "0")) eqn:Hg;
    [|intros Hr; injection Hr as <- <-; auto].
  apply andb_prop in Hg as [Hrev%String.eqb_eq Hcreate].
  assert (Hsub : submitted s r parsed).
  { split_and!; try done. intros Hc. rewrite Hc in Hcreate. by apply String.eqb_eq in Hcreate. }
  cbn [dtx_ret]. set (fp := request_fingerprint s r (Marshal (normalize parsed))).
  intros [(receipt & c0 & c1 & F0 & Hb & F & Hr)|[(receipt & c0 & c1 & F0 & Hb & F & Hr)|Hf]]%run_tx_effect;
    [| |by auto].
  - left. exists receipt. split; [|done].
    apply dtx_bind_Ok in Hb as (u & c2 & [F2 Hcopy]%checkCopy_Ok & Hb).
    apply dtx_bind_Ok in Hb as (ret & c3 & [Hret F3]%dtx_query_Ok & Hb).
    destruct ret as [rr|];
      [by apply dtx_bind_Ok in Hb as (v & c4 & _ & Hb); injection Hb|].
    apply dtx_bind_Ok in Hb as (receipt' & c4 & Hb & Hend). injection Hend as -> ->.
    apply dtx_bind_Ok in Hb as (u1 & c5 & [[Hl1 Hl2]%andb_prop ->]%dtx_guard_Ok & Hb).
    apply dtx_bind_Ok in Hb as ([before cur] & c6 & [F6 Hbef]%current_scope_Ok & Hb).
    apply dtx_bind_Ok in Hb as (u2 & c7 & [Hcur%String.eqb_eq ->]%dtx_guard_Ok & Hb). cbn [snd] in Hcur. subst cur.
    apply dtx_bind_Ok in Hb as (next & c8 & [Hnext ->]%dtx_of_wbs_Ok & Hb). cbn [snd fst] in *.
    apply dtx_bind_Ok in Hb as (b & c9 & [Hp2 ->]%dtx_of_wbs_Ok & Hb).
    apply dtx_bind_Ok in Hb as (now & c10 & F10%captureTimestamp_Ok & Hb).
    apply dtx_bind_Ok in Hb as (u3 & c11 & Hw%write_scope_Ok & Hb).
    apply dtx_bind_Ok in Hb as (after & c12 & [F12 (t & Hafter & Hrow)]%getChartTx_Ok & Hb).
    apply dtx_bind_Ok in Hb as (e & c13 & He%append_appends & Hb). rewrite F12 in He.
    apply dtx_bind_Ok in Hb as (u4 & c14 & Hins%dtx_exec_Ok & Hb).
    apply dtx_bind_Ok in Hb as (u5 & c15 & Hprune%dtx_exec_Ok & Hb). injection Hb as <- <-.
    rewrite F0 in *. rewrite F2 in *. rewrite F3 in *. rewrite F10, F6 in Hw. rewrite F.
    exists parsed, next, now.1, now.2. eexists _, e, (file c11), (file c13), (file c14), _.
    split_and!; try eassumption; try done.
    + cbn in Hl1. by destruct (ActivityLinks parsed).
    + cbn in Hl2. by destruct (CostLinks parsed).
    + by rewrite Hp2.
    + by rewrite Hafter, <- Hrow.
    + intros A l. apply db_rows_perm.
  - right. left. exists receipt. split_and!; [|done|done].
    apply dtx_bind_Ok in Hb as (u & c2 & [F2 Hcopy]%checkCopy_Ok & Hb).
    apply dtx_bind_Ok in Hb as (ret & c3 & [Hret F3]%dtx_query_Ok & Hb).
    destruct ret as [rr|]; [|by apply dtx_bind_Ok in Hb as (v & c4 & _ & Hb); injection Hb].
    apply dtx_bind_Ok in Hb as (v & c4 & [Hfp%String.eqb_eq ->]%dtx_guard_Ok & Hb). injection Hb as <- _.
    rewrite F2, F0 in *. by exists parsed, rr.
Qed.

Lemma Read_effect s id c res c' : Read s id c = (res, c') ->
  file c' = file c /\ match res with
                      | Ok sn => own_copy s (file c) /\ sn_CopyID sn = s_copyID s
                          /\ sn_LifetimeID sn = b_LifetimeID (s_binding s)
                          /\ exists t rev, readable (file c) (b_ProjectID (s_binding s)) id t rev /\ sn_Chart sn = row t
                      | Err _ => True
                      end.
Proof.
  unfold Read. destruct (_ || _); [intros Hr; by injection Hr as <- <-|].
  intros [(sn & c0 & c1 & F0 & Hb & F & Hr)|[(sn & c0 & c1 & F0 & Hb & F & ->)|[Hf F]]]%run_tx_effect.
  - apply dtx_bind_Ok in Hb as (u & c2 & _ & Hb). apply dtx_bind_Ok in Hb as (p & c3 & _ & Hb). by injection Hb.
  - split; [done|].
    apply dtx_bind_Ok in Hb as (u & c2 & [F2 Hcopy]%checkCopy_Ok & Hb).
    apply dtx_bind_Ok in Hb as ([ch rev] & c3 & [F3 (t & Ht & Hrow)]%readWBSRecord_Ok & Hb).
    injection Hb as <- _. rewrite F2, F0 in *. split_and!; try done. exists t, rev. by split.
  - split; [done|]. by destruct res.
Qed.

End operations.

(** ** The order of canonical decimals *)

Lemma digits_value_cons c l :
  digits_value (c :: l) = (byte_val c - 48) * 10 ^ Z.of_nat (length l) + digits_value l.
Proof. change (c :: l) with ([c] ++ l). rewrite digits_value_app. unfold digits_value at 1. simpl. lia. Qed.

Lemma digits_value_bound l : all_digits l -> 0 <= digits_value l < 10 ^ Z.of_nat (length l).
Proof.
  induction 1 as [|c l Hc _ IH]; [done|]. rewrite digits_value_cons. cbn [length].
  rewrite Nat2Z.inj_succ, Z.pow_succ_r by lia. unfold is_digit in Hc. nia.
Qed.

Lemma ascii_compare_val c d : Ascii.compare c d = (byte_val c ?= byte_val d).
Proof. unfold Ascii.compare, byte_val. by rewrite N2Z.inj_compare. Qed.

Lemma compare_digits l1 : forall l2, all_digits l1 -> all_digits l2 -> length l1 = length l2 ->
  String.compare (string_of l1) (string_of l2) = (digits_value l1 ?= digits_value l2).
Proof.
  induction l1 as [|c l1 IH]; intros [|d l2] H1 H2 Hl; try done.
  apply Forall_cons in H1 as [Hc H1]. apply Forall_cons in H2 as [Hd H2]. injection Hl as Hl.
  change (match Ascii.compare c d with Eq => String.compare (string_of l1) (string_of l2) | o => o end
          = (digits_value (c :: l1) ?= digits_value (d :: l2))).
  rewrite ascii_compare_val, IH, !digits_value_cons by done.
  pose proof (digits_value_bound l1 H1) as B1. pose proof (digits_value_bound l2 H2) as B2. rewrite Hl in *.
  unfold is_digit in Hc, Hd.
  destruct (Z.compare_spec (byte_val c) (byte_val d)) as [E|E|E].
  - rewrite E. destruct (Z.compare_spec (digits_value l1) (digits_value l2)); symmetry;
      [apply Z.compare_eq_iff|apply Z.compare_lt_iff|apply Z.compare_gt_iff]; lia.
  - symmetry. apply Z.compare_lt_iff. nia.
  - symmetry. apply Z.compare_gt_iff. nia.
Qed.

Lemma format_lower n : 0 <= n <= max_uint64 ->
  n = 0 \/ 10 ^ (Z.of_nat (length (FormatUint n)) - 1) <= n.
Proof.
  intros Hn. destruct (Z.eq_dec n 0) as [|Hne]; [by left|right].
  pose proof (FormatUint_no_leading_zero n Hn) as Hz. pose proof (digits_value_format n Hn) as Hv.
  pose proof (FormatUint_digits n ltac:(lia)) as Hd. pose proof (FormatUint_nonempty n).
  destruct (FormatUint n) as [|c [|c' l]]; [done|change (10 ^ (Z.of_nat (length [c]) - 1)) with 1; lia|]. cbn in Hz.
  apply Forall_cons in Hd as [Hc Hd]. pose proof (digits_value_bound _ Hd). rewrite digits_value_cons in Hv.
  replace (Z.of_nat (length (c :: c' :: l)) - 1) with (Z.of_nat (length (c' :: l))) by (cbn [length]; lia).
  assert (byte_val c <> 48). { intros E. apply Hz. by apply byte_val_inj. }
  unfold is_digit in Hc. nia.
Qed.

Lemma format_length_mono n m : 0 <= n -> n <= m -> m <= max_uint64 ->
  (length (FormatUint n) <= length (FormatUint m))%nat.
Proof.
  intros Hn Hnm Hm. destruct (format_lower n ltac:(lia)) as [->|Hl].
  - pose proof (FormatUint_nonempty m). change (length (FormatUint 0)) with 1%nat.
    destruct (FormatUint m); [done|cbn [length]; lia].
  - pose proof (digits_value_bound _ (FormatUint_digits m ltac:(lia))) as Hb.
    rewrite digits_value_format in Hb by lia.
    destruct (le_gt_dec (length (FormatUint n)) (length (FormatUint m))) as [|Hg]; [done|exfalso].
    assert (10 ^ Z.of_nat (length (FormatUint m)) <= 10 ^ (Z.of_nat (length (FormatUint n)) - 1))
      by (apply Z.pow_le_mono_r; lia). lia.
Qed.

Lemma newer_revision s1 s2 n1 n2 : is_revision s1 n1 -> is_revision s2 n2 ->
  ((String.length s2 < String.length s1)%nat
   \/ String.length s2 = String.length s1 /\ String.le s2 s1) <-> n2 <= n1.
Proof.
  intros [H1 ->] [H2 ->]. rewrite <- !length_bytes_of, !bytes_of_string_of.
  unfold String.le, String.leb.
  destruct (Nat.eq_dec (length (FormatUint n2)) (length (FormatUint n1))) as [E|E].
  - rewrite compare_digits by (try apply FormatUint_digits; lia).
    rewrite !digits_value_format by done. destruct (Z.compare_spec n2 n1); cbn [Is_true]; (split; [intros [?|[? ?]]; [lia|lia || done]|intros; first [by right|lia]]).
  - pose proof (format_length_mono n1 n2). pose proof (format_length_mono n2 n1). lia.
Qed.

Lemma is_revision_inj s n m : is_revision s n -> is_revision s m -> n = m.
Proof.
  intros [Hn ->] [Hm E]. apply (f_equal bytes_of) in E. rewrite !bytes_of_string_of in E.
  apply (f_equal ParseUint) in E. rewrite !ParseUint_FormatUint in E by done. by injection E.
Qed.

Lemma is_revision_string s1 s2 n : is_revision s1 n -> is_revision s2 n -> s1 = s2.
Proof. intros [_ ->] [_ ->]. done. Qed.

Lemma NextRevision_Ok cur next n : is_revision cur n -> NextRevision cur = Ok next ->
  n < max_uint64 /\ is_revision next (n + 1).
Proof.
  intros Hn. unfold NextRevision. rewrite (proj2 (revisionValue_Ok cur n) Hn). cbn [rbind].
  destruct Hn as [Hb _]. destruct (Z.eqb_spec n max_uint64); [done|]. intros [= <-]. split; [lia|]. split; [lia|done].
Qed.

(** ** What the pruning keeps *)

(** The number of a receipt's revision. *)
Definition rev_number (s : string) : Z := default 0 (ParseUint (bytes_of s)).

Lemma rev_number_is s n : is_revision s n -> rev_number s = n.
Proof. intros [Hn ->]. unfold rev_number. by rewrite bytes_of_string_of, ParseUint_FormatUint. Qed.

(** The receipts of a chart: one for every revision from [lo] to [hi]. *)
Record receipts_span (rows : gmap (string * string) ReceiptRow) (id : string) (lo hi : Z) : Prop := {
  span_bounds q rr : rows !! (id, q) = Some rr -> exists k, is_revision (rr_revision rr) k /\ lo <= k <= hi;
  span_all k : lo <= k <= hi -> exists q rr, rows !! (id, q) = Some rr /\ is_revision (rr_revision rr) k;
  span_unique q1 q2 r1 r2 : rows !! (id, q1) = Some r1 -> rows !! (id, q2) = Some r2 ->
    rr_revision r1 = rr_revision r2 -> q1 = q2
}.

Definition row_number (kv : (string * string) * ReceiptRow) : Z := rev_number (rr_revision kv.2).

#[local] Instance newer_receipt_total : Total newer_receipt.
Proof.
  intros a b. unfold newer_receipt.
  destruct (Nat.lt_trichotomy (String.length (rr_revision a.2)) (String.length (rr_revision b.2))) as [|[E|]];
    [right; by left| |left; by left].
  destruct (total String.le (rr_revision a.2) (rr_revision b.2)); [right|left]; right; by split.
Qed.

#[local] Instance newer_receipt_trans : Transitive newer_receipt.
Proof.
  intros a b c. unfold newer_receipt. intros [H1|[H1 H1']] [H2|[H2 H2']]; [left; lia..|].
  right. split; [lia|]. by transitivity (rr_revision b.2).
Qed.

Lemma numbers_descend l : StronglySorted newer_receipt l ->
  Forall (fun kv => exists k, is_revision (rr_revision kv.2) k) l ->
  StronglySorted (fun x y => y <= x) (row_number <$> l).
Proof.
  intros Hs. induction Hs as [|a l _ IH Ha]; intros Hl; [constructor|].
  apply Forall_cons in Hl as [[k Hk] Hl]. rewrite fmap_cons. constructor; [by apply IH|].
  apply Forall_fmap. rewrite Forall_forall in *. intros b Hb. destruct (Hl b Hb) as [k' Hk'].
  specialize (Ha b Hb). unfold compose, row_number. rewrite (rev_number_is (rr_revision a.2) k), (rev_number_is (rr_revision b.2) k') by done.
  by apply (newer_revision (rr_revision a.2) (rr_revision b.2)).
Qed.

#[local] Instance ge_antisymm : AntiSymm eq (fun x y => y <= x).
Proof. intros x y. lia. Qed.

Lemma seqZ_descends lo n : StronglySorted (fun x y => y <= x) (reverse (seqZ lo (Z.of_nat n))).
Proof.
  induction n as [|n IH]; [constructor|]. rewrite seqZ_S, reverse_snoc. constructor; [done|].
  apply Forall_forall. intros x Hx. rewrite elem_of_reverse, elem_of_seqZ in Hx. lia.
Qed.

(** The receipts of a chart, newest first. *)
Definition sorted_receipts (order : forall A : Type, list A -> list A) (id : string)
    (rows : gmap (string * string) ReceiptRow) : list ((string * string) * ReceiptRow) :=
  merge_sort newer_receipt (order _ (map_to_list (filter (fun kv => kv.1.1 = id) rows))).

Section pruning.
Context (order : forall A : Type, list A -> list A) (Horder : forall A l, order A l ≡ₚ l).
Context (rows : gmap (string * string) ReceiptRow) (id : string) (lo hi : Z).
Context (Hspan : receipts_span rows id lo hi) (Hlo : lo <= hi + 1).

Lemma elem_sorted kv : kv ∈ sorted_receipts order id rows <-> kv.1.1 = id /\ rows !! kv.1 = Some kv.2.
Proof.
  unfold sorted_receipts. rewrite merge_sort_Permutation, Horder. destruct kv as [k rr].
  rewrite elem_of_map_to_list, map_lookup_filter_Some. cbn. tauto.
Qed.

Lemma sorted_revisions : Forall (fun kv => exists k, is_revision (rr_revision kv.2) k /\ lo <= k <= hi)
  (sorted_receipts order id rows).
Proof.
  apply Forall_forall. intros [[i q] rr] [Hi Hl]%elem_sorted. cbn in *. subst. by eapply span_bounds.
Qed.

Lemma sorted_NoDup : NoDup (sorted_receipts order id rows).
Proof.
  unfold sorted_receipts. rewrite merge_sort_Permutation, Horder. apply NoDup_map_to_list.
Qed.

(** The numbers in order. *)
Lemma sorted_numbers :
  row_number <$> sorted_receipts order id rows = reverse (seqZ lo (Z.of_nat (Z.to_nat (hi + 1 - lo)))).
Proof.
  pose proof sorted_revisions as Hrev. rewrite Forall_forall in Hrev.
  apply (StronglySorted_unique (fun x y => y <= x)).
  - apply numbers_descend; [apply StronglySorted_merge_sort; apply _|]. apply Forall_forall.
    intros kv Hkv. destruct (Hrev kv Hkv) as (k & Hk & _). by exists k.
  - apply seqZ_descends.
  - apply NoDup_Permutation.
    + apply NoDup_fmap_2_strong; [|apply sorted_NoDup]. intros [[i1 q1] r1] [[i2 q2] r2] H1 H2 E.
      destruct (Hrev _ H1) as (k1 & Hk1 & _), (Hrev _ H2) as (k2 & Hk2 & _).
      unfold row_number in E. rewrite (rev_number_is _ _ Hk1), (rev_number_is _ _ Hk2) in E. subst.
      apply elem_sorted in H1 as [H1 H1'], H2 as [H2 H2']. cbn in *. subst.
      assert (q1 = q2) as ->; [|congruence].
      eapply span_unique; [exact Hspan|exact H1'|exact H2'|]. by eapply is_revision_string.
    + rewrite reverse_Permutation. apply NoDup_seqZ.
    + intros k. rewrite elem_of_reverse, elem_of_seqZ, list_elem_of_fmap. split.
      * intros (kv & -> & Hkv). destruct (Hrev kv Hkv) as (k & Hk & Hb). unfold row_number.
        rewrite (rev_number_is _ k) by done. lia.
      * intros Hk. destruct (span_all _ _ _ _ Hspan k) as (q & rr & Hl & Hr); [lia|].
        exists ((id, q), rr). split; [unfold row_number; cbn; by rewrite (rev_number_is _ k)|].
        by apply elem_sorted.
Qed.

Lemma kept_requests_sorted : kept_requests order id rows
  = (fun kv => kv.1.2) <$> take WBSReceiptLimit (sorted_receipts order id rows).
Proof. unfold kept_requests. by rewrite <- fmap_take. Qed.

(** A request is kept exactly when its revision is one of the newest. *)
Lemma kept_newest q rr : rows !! (id, q) = Some rr ->
  q ∈ kept_requests order id rows <-> hi - Z.of_nat WBSReceiptLimit < rev_number (rr_revision rr).
Proof.
  intros Hq. rewrite kept_requests_sorted, list_elem_of_fmap.
  assert (Hat : forall i kv, sorted_receipts order id rows !! i = Some kv -> row_number kv = hi - Z.of_nat i).
  { intros i kv Hi. pose proof sorted_numbers as E. apply (f_equal (fun l => l !! i)) in E.
    rewrite list_lookup_fmap, Hi in E. cbn [fmap option_fmap option_map] in E.
    symmetry in E. pose proof (lookup_lt_Some _ _ _ E) as Hlt. rewrite length_reverse, length_seqZ in Hlt.
    rewrite reverse_lookup in E by (rewrite length_seqZ; lia). apply lookup_seqZ in E as [-> _].
    rewrite length_seqZ. lia. }
  split.
  - intros ([[i q'] rr'] & E & Hin). cbn in E. subst q'. apply list_elem_of_lookup in Hin as [j Hj].
    apply lookup_take_Some in Hj as [Hj Hlt]. specialize (Hat j _ Hj). unfold row_number in Hat. cbn in Hat.
    apply list_elem_of_lookup_2, elem_sorted in Hj as [Hi Hl]. cbn in *. subst. simplify_eq. lia.
  - intros Hn. assert (Hin : ((id, q), rr) ∈ sorted_receipts order id rows) by (by apply elem_sorted).
    apply list_elem_of_lookup in Hin as [j Hj]. specialize (Hat j _ Hj). unfold row_number in Hat. cbn in Hat.
    exists ((id, q), rr). split; [done|]. apply list_elem_of_lookup. exists j. apply lookup_take_Some. split; [done|lia].
Qed.
End pruning.
