(* ===== verification/WbsInvariant.v ===== *)
(** * The invariant of the stored scopes

    What every operation on a project file keeps: every record of a scope has its
    chart, whose payload parses at the recorded revision, and one receipt for each
    of the newest revisions. *)

From S2P Require Import Prelude GoStrings GoTime GoJson GoJsonV2 Wbs WbsTheorems WbsRoundTrip ProjectDb AuditChain AuditTheorems Charts ChartsTheorems WbsStore WbsStoreTheorems.

Local Open Scope Z_scope.

Definition receipts_of (d : ProjectDB) : gmap (string * string) ReceiptRow :=
  match wbs_receipts d with Some t => table_rows t | None => ∅ end.

(** One receipt for each of the newest [WBSReceiptLimit] revisions up to [n]. *)
Definition retained (rows : gmap (string * string) ReceiptRow) (id : string) (n : Z) : Prop :=
  receipts_span rows id (Z.max 1 (n + 1 - Z.of_nat WBSReceiptLimit)) n.

(** The scope of a chart at its number. *)
Definition scope_at (d : ProjectDB) (pid id rev : string) (n : Z) : Prop :=
  is_revision rev n /\ 1 <= n /\ (exists t, readable d pid id t rev) /\ retained (receipts_of d) id n.

Record store_open (d : ProjectDB) (cp : Table (option (string * string))) (rc : Table (gmap string string))
    (rp : Table (gmap (string * string) ReceiptRow)) (copyID pid : string) : Prop := {
  so_definitions : [table_sql cp; table_sql rc; table_sql rp] = definitions;
  so_copy : table_rows cp = Some (copyID, pid);
  so_copyID : wbsIdentifier copyID = true;
  so_charts id t : charts d !! id = Some t -> ch_Kind (row t) = "wbs_v2"%string ->
    is_Some (table_rows rc !! id);
  so_scopes id rev : table_rows rc !! id = Some rev -> exists n, scope_at d pid id rev n;
  so_receipts id q rr : table_rows rp !! (id, q) = Some rr -> is_Some (table_rows rc !! id)
}.

Definition store_ok (d : ProjectDB) : Prop :=
  match wbs_copy d, wbs_records d, wbs_receipts d with
  | None, None, None => forall id t, charts d !! id = Some t -> ch_Kind (row t) <> "wbs_v2"%string
  | Some cp, Some rc, Some rp => exists copyID pid, store_open d cp rc rp copyID pid
  | _, _, _ => False
  end.

Definition charts_ok (d : ProjectDB) : Prop := forall id t,
  charts d !! id = Some t -> ch_ID (row t) = id /\ ch_ProjectID (row t) ∈ projects d.

Definition file_ok (d : ProjectDB) : Prop := charts_ok d /\ store_ok d.

(** What stays between two states of a file. *)
Record evolves (d d' : ProjectDB) : Prop := {
  ev_projects : projects d = [] \/ projects d' = projects d;
  ev_copy x : sql_copy d = Some x -> sql_copy d' = Some x;
  ev_scopes id rev n : records_of d !! id = Some rev -> is_revision rev n ->
    exists rev' n', records_of d' !! id = Some rev' /\ is_revision rev' n' /\ n <= n'
      /\ (n' = n -> charts d' !! id = charts d !! id);
  ev_receipts id q rr k rev' n' : receipts_of d !! (id, q) = Some rr -> is_revision (rr_revision rr) k ->
    records_of d' !! id = Some rev' -> is_revision rev' n' -> n' - Z.of_nat WBSReceiptLimit < k ->
    receipts_of d' !! (id, q) = Some rr
}.

Lemma store_ok_record d id rev : store_ok d -> records_of d !! id = Some rev ->
  exists pid copyID n, sql_copy d = Some (copyID, pid) /\ scope_at d pid id rev n.
Proof.
  unfold store_ok, records_of, sql_copy. destruct (wbs_copy d) as [cp|], (wbs_records d) as [rc|], (wbs_receipts d);
    try done. intros (copyID & pid & Ho) Hr. destruct (so_scopes _ _ _ _ _ _ Ho id rev Hr) as [n Hn].
  exists pid, copyID, n. split; [|done]. cbn. by rewrite (so_copy _ _ _ _ _ _ Ho).
Qed.

Lemma evolves_refl d : store_ok d -> evolves d d.
Proof.
  intros Hd. split; [by right|done| |].
  - intros id rev n Hr Hn. exists rev, n. split_and!; done || lia.
  - intros id q rr k rev' n' Hq _ _ _ _. done.
Qed.

Lemma store_ok_receipt d id q rr : store_ok d -> receipts_of d !! (id, q) = Some rr ->
  exists rev n, records_of d !! id = Some rev /\ is_revision rev n.
Proof.
  intros Hd Hq. pose proof Hd as Hd'. unfold store_ok, records_of, receipts_of in *.
  destruct (wbs_copy d) as [cp|], (wbs_records d) as [rc|] eqn:Erc, (wbs_receipts d); try done.
  destruct Hd as (copyID & pid & Ho). destruct (so_receipts _ _ _ _ _ _ Ho id q rr Hq) as [rev Hrev].
  destruct (so_scopes _ _ _ _ _ _ Ho id rev Hrev) as (n & Hn & _). by exists rev, n.
Qed.

Lemma evolves_trans d1 d2 d3 : store_ok d1 -> evolves d1 d2 -> evolves d2 d3 -> evolves d1 d3.
Proof.
  intros Hok [P1 C1 S1 R1] [P2 C2 S2 R2].
  split; [destruct P1 as [|<-]; [by left|done]|auto| |].
  - intros id rev n Hr Hn. destruct (S1 id rev n Hr Hn) as (rev2 & n2 & Hr2 & Hn2 & Hle & Hc).
    destruct (S2 id rev2 n2 Hr2 Hn2) as (rev3 & n3 & Hr3 & Hn3 & Hle3 & Hc3).
    exists rev3, n3. split_and!; [done|done|lia|]. intros ->. rewrite Hc3 by lia. apply Hc. lia.
  - intros id q rr k rev3 n3 Hq Hk Hr3 Hn3 Hlt.
    destruct (store_ok_receipt d1 id q rr Hok Hq) as (rev & n & Hr & Hn).
    destruct (S1 id rev n Hr Hn) as (rev2 & n2 & Hr2 & Hn2 & _).
    destruct (S2 id rev2 n2 Hr2 Hn2) as (rev3' & n3' & Hr3' & Hn3' & Hle & _).
    assert (rev3' = rev3) as -> by congruence. pose proof (is_revision_inj _ _ _ Hn3 Hn3') as <-.
    eapply R2; [eapply R1; [exact Hq|exact Hk|exact Hr2|exact Hn2|lia]|done..].
Qed.

(** ** Changes that leave the scopes alone *)

(** Another set of rows of charts, in a file that is otherwise the same, as far as
    scopes are concerned. *)
Record same_scopes (d d' : ProjectDB) : Prop := {
  ss_projects : projects d = [] \/ projects d' = projects d;
  ss_copy : wbs_copy d' = wbs_copy d;
  ss_records : wbs_records d' = wbs_records d;
  ss_receipts : wbs_receipts d' = wbs_receipts d;
  ss_charts id : is_Some (records_of d !! id) -> charts d' !! id = charts d !! id;
  ss_kinds id t : charts d' !! id = Some t -> records_of d !! id = None ->
    ch_Kind (row t) <> "wbs_v2"%string
}.

Lemma readable_same d d' pid id t rev : same_scopes d d' -> readable d pid id t rev -> readable d' pid id t rev.
Proof.
  intros Hs (Hc & Hp & Hk & Hr & Ha). split_and!; try done.
  - rewrite (ss_charts _ _ Hs); [done|]. unfold sql_revision, records_of in *.
    destruct (wbs_records d); [|done]. cbn in Hr. by exists rev.
  - unfold sql_revision. by rewrite (ss_records _ _ Hs).
Qed.

Lemma same_scopes_ok d d' : same_scopes d d' -> store_ok d -> store_ok d'.
Proof.
  intros Hs. pose proof Hs as [Hp Hc Hr Hq Hch Hk]. unfold store_ok. rewrite Hc, Hr, Hq.
  destruct (wbs_copy d) as [cp|] eqn:Ecp, (wbs_records d) as [rc|] eqn:Erc, (wbs_receipts d) as [rp|] eqn:Erp; try done.
  - intros (copyID & pid & [H1 H2 H3 H4 H5 H6]). exists copyID, pid.
    assert (Er : records_of d = table_rows rc) by (unfold records_of; by rewrite Erc).
    rewrite Er in *. split; try done.
    + intros id t Ht Hkind. destruct (table_rows rc !! id) as [rev|] eqn:E; [by exists rev|].
      by destruct (Hk id t Ht E).
    + intros id rev Hrev. destruct (H5 id rev Hrev) as (n & Hn & H1n & (t & Ht) & Hret). exists n.
      split_and!; [done|done|exists t; by eapply readable_same|].
      unfold receipts_of in *. rewrite Hq. by rewrite Erp in Hret.
  - intros _ id t Ht. apply (Hk id t Ht). unfold records_of. by rewrite Erc.
Qed.

Lemma same_scopes_evolves d d' : same_scopes d d' -> evolves d d'.
Proof.
  intros [Hp Hc Hr Hq Hch Hk]. split; [done| | |].
  - intros x. unfold sql_copy. by rewrite Hc.
  - intros id rev n Hrev Hn. exists rev, n. unfold records_of in *. rewrite Hr. split_and!; [done|done|lia|].
    intros _. apply Hch. by exists rev.
  - intros id q rr k rev' n' Hrr _ _ _ _. unfold receipts_of in *. by rewrite Hq.
Qed.

(** Without a record there is no scope among the charts. *)
Lemma unrecorded_kind d id t : store_ok d -> charts d !! id = Some t -> records_of d !! id = None ->
  ch_Kind (row t) <> "wbs_v2"%string.
Proof.
  unfold store_ok, records_of. destruct (wbs_copy d), (wbs_records d), (wbs_receipts d); try done.
  - intros (copyID & pid & [_ _ _ H4 _ _]) Ht Hn Hk. destruct (H4 id t Ht Hk) as [x Hx]. congruence.
  - intros H Ht _. by eapply H.
Qed.

Lemma same_scopes_refl d d' : store_ok d -> projects d = [] \/ projects d' = projects d -> charts d' = charts d ->
  wbs_copy d' = wbs_copy d -> wbs_records d' = wbs_records d -> wbs_receipts d' = wbs_receipts d ->
  same_scopes d d'.
Proof.
  intros Hok Hp Hch Hc Hr Hq. split; try done.
  - intros id _. by rewrite Hch.
  - intros id t. rewrite Hch. by apply unrecorded_kind.
Qed.

Lemma record_has_chart d id : store_ok d -> is_Some (records_of d !! id) -> is_Some (charts d !! id).
Proof.
  intros Hd [rev Hr]. destruct (store_ok_record d id rev Hd Hr) as (pid & copyID & n & _ & _ & _ & (t & Ht & _) & _).
  by exists t.
Qed.

(** [d'] is [d] with an event. *)
Lemma appends_same i d d' e : appends i d d' e -> audit_events d' <> None
  /\ projects d' = projects d /\ charts d' = charts d /\ wbs_copy d' = wbs_copy d
  /\ wbs_records d' = wbs_records d /\ wbs_receipts d' = wbs_receipts d.
Proof. by intros (l & id & b & a & now & _ & _ & _ & _ & ->). Qed.

Lemma file_ok_same d d' : file_ok d -> projects d' = projects d -> charts d' = charts d ->
  wbs_copy d' = wbs_copy d -> wbs_records d' = wbs_records d -> wbs_receipts d' = wbs_receipts d ->
  file_ok d' /\ evolves d d'.
Proof.
  intros [Hc Hs] Hp Hch Hcp Hr Hq. assert (Hsame : same_scopes d d') by (apply same_scopes_refl; auto).
  split; [split|by apply same_scopes_evolves]; [|by eapply same_scopes_ok].
  intros id t Ht. rewrite Hch in Ht. rewrite Hp. by apply Hc.
Qed.

(** ** Charts *)

Lemma protected_chart_false d t : protected_chart d (row t) = false ->
  protectedWBSPayload (ch_Kind (row t)) (ch_Data (row t)) = false /\ records_of d !! ch_ID (row t) = None.
Proof.
  unfold protected_chart. intros [H1 H2]%orb_false_iff. split; [done|].
  apply bool_decide_eq_false in H2. by apply eq_None_not_Some.
Qed.

Lemma protected_kind kind data : protectedWBSPayload kind data = false -> kind <> "wbs_v2"%string.
Proof. unfold protectedWBSPayload. destruct (String.eqb_spec kind "wbs_v2"); done. Qed.

Lemma chart_saved_ok c d d' after : file_ok d -> chart_saved c d d' after -> file_ok d' /\ evolves d d'.
Proof.
  intros [Hch Hst] (id & text & now & d1 & i & e & Hp & _ & Hnp & Hup & _ & _ & _ & _ & _ & He).
  apply protected_kind in Hp as Hkind.
  assert (Hrec : records_of d !! id = None).
  { destruct (records_of d !! id) as [rev|] eqn:E; [|done].
    destruct (record_has_chart d id Hst) as [t Ht]; [by exists rev|].
    pose proof (protected_chart_false d t (Hnp t Ht)) as [_ Hn]. destruct (Hch id t Ht) as [Hid _].
    congruence. }
  assert (Hd1 : exists t, d1 = set_charts (<[id := t]> (charts d)) d /\ ch_ID (row t) = id
                /\ ch_ProjectID (row t) ∈ projects d /\ ch_Kind (row t) = ch_Kind c).
  { unfold sql_upsert_chart in Hup. cbn [ch_ID chart_written] in Hup. destruct (charts d !! id) as [t|] eqn:E.
    - injection Hup as <-. destruct (Hch id t E) as [H1 H2]. by eexists.
    - unfold sql_insert_chart in Hup. cbn [ch_ID chart_written] in Hup. rewrite E in Hup.
      case_bool_decide as Hpr; [|done]. injection Hup as <-. by eexists. }
  destruct Hd1 as (t & -> & Hid & Hpr & Hk). apply appends_same in He as (_ & E1 & E2 & E3 & E4 & E5).
  cbn in E1, E2, E3, E4, E5.
  assert (Hs : same_scopes d d').
  { split; try done; [by right|..].
    - intros id' [rev Hrev]. rewrite E2. rewrite lookup_insert_ne; [done|]. intros <-. congruence.
    - intros id' t' Ht' Hn. rewrite E2 in Ht'. destruct (decide (id = id')) as [<-|Hne].
      + rewrite lookup_insert_eq in Ht'. simplify_eq. congruence.
      + rewrite lookup_insert_ne in Ht' by done. by eapply unrecorded_kind. }
  split; [split|by apply same_scopes_evolves]; [|by eapply same_scopes_ok].
  intros id' t' Ht'. rewrite E2 in Ht'. rewrite E1. destruct (decide (id = id')) as [<-|Hne].
  - rewrite lookup_insert_eq in Ht'. by simplify_eq.
  - rewrite lookup_insert_ne in Ht' by done. by apply Hch.
Qed.

Lemma chart_deleted_ok id d d' : file_ok d -> chart_deleted id d d' -> file_ok d' /\ evolves d d'.
Proof.
  intros [Hch Hst] (t & d1 & i & e & Ht & Hnp & Hdel & _ & _ & He).
  apply protected_chart_false in Hnp as [_ Hrec]. destruct (Hch id t Ht) as [Hid _]. rewrite Hid in Hrec.
  unfold sql_delete_chart in Hdel. case_bool_decide; [done|]. injection Hdel as <-.
  apply appends_same in He as (_ & E1 & E2 & E3 & E4 & E5). cbn in E1, E2, E3, E4, E5.
  assert (Hs : same_scopes d d').
  { split; try done; [by right|..].
    - intros id' [rev Hrev]. rewrite E2. rewrite lookup_delete_ne; [done|]. intros <-. congruence.
    - intros id' t' Ht' Hn. rewrite E2 in Ht'. apply lookup_delete_Some in Ht' as [_ Ht'].
      by eapply unrecorded_kind. }
  split; [split|by apply same_scopes_evolves]; [|by eapply same_scopes_ok].
  intros id' t' Ht'. rewrite E2 in Ht'. rewrite E1. apply lookup_delete_Some in Ht' as [_ Ht']. by apply Hch.
Qed.

(** ** Saving *)

Lemma in_order_revision a t next n : in_order a t -> is_revision next n -> in_order (with_revision a next) t.
Proof. intros (Hs & _ & Hr & Ht & Hl) Hn. split_and!; try done. by exists n. Qed.

Lemma normalizeWBSNode_idemp n : normalizeWBSNode (normalizeWBSNode n) = normalizeWBSNode n.
Proof.
  induction n as [f cs IH] using node_ind'. cbn [normalizeWBSNode]. f_equal.
  - destruct f as [a b c e g h i dict]. unfold normalize_fields. cbn. f_equal.
    destruct dict as [dict|]; [|done]. unfold normalize_dictionary.
    case_bool_decide as E; [done|]. by rewrite bool_decide_eq_false_2.
  - rewrite map_map. apply map_ext_in. intros c Hc%list_elem_of_In. rewrite Forall_forall in IH. by apply IH.
Qed.

Lemma normalize_with_revision a rev : normalize (with_revision a rev) = with_revision (normalize a) rev.
Proof. done. Qed.

Lemma normalize_idemp a : normalize (normalize a) = normalize a.
Proof.
  unfold normalize, with_root. cbn. destruct (Root a); [|done]. cbn. by rewrite normalizeWBSNode_idemp.
Qed.

(** The payload that is stored carries the new revision. *)
Lemma stored_payload raw parsed next n : Parse raw = Ok parsed -> is_revision next n ->
  is_ok (Parse (Marshal (with_revision (normalize parsed) next))) = true ->
  Parse (Marshal (with_revision (normalize parsed) next)) = Ok (with_revision (normalize parsed) next).
Proof.
  intros Hp Hn Hok. apply Parse_Ok in Hp as [Hv (t & Hr & Hx)].
  apply Validate_in_order in Hv as (t' & Ht & _). assert (t' = t) as -> by (destruct Ht as (_ & _ & E & _); congruence).
  apply in_order_normalize in Ht. apply (in_order_revision _ _ next n) in Ht; [|done].
  assert (Hx' : efforts_finite (normalizeWBSNode t)).
  { unfold efforts_finite in *. rewrite node_all_normalize. apply List.Forall_map.
    eapply Forall_impl; [exact Hx|]. intros m Hm. by rewrite normalize_node_fields. }
  rewrite (Parse_encoding _ _ Ht Hx') in *. destruct (_ <? _); [done|]. by rewrite normalize_with_revision, normalize_idemp.
Qed.

(** The rows of a scope after a write, created or updated. *)
Lemma write_scope_rows s r data cur next text now d d1 : sql_write_scope s r data cur next text now d = Some d1 ->
  scope_before s r d cur ->
  exists rc t, wbs_records d = Some rc /\ ch_ID (row t) = match charts d !! w_ChartID r with
                                                          | Some t0 => ch_ID (row t0) | None => w_ChartID r end
  /\ ch_ProjectID (row t) = b_ProjectID (s_binding s) /\ ch_Kind (row t) = "wbs_v2"%string
  /\ ch_Data (row t) = data /\ ch_Title (row t) = w_Title r
  /\ (charts d !! w_ChartID r = None -> b_ProjectID (s_binding s) ∈ projects d)
  /\ d1 = set_wbs_records (mkTable (table_sql rc) (<[w_ChartID r := next]> (table_rows rc)))
            (set_charts (<[w_ChartID r := t]> (charts d)) d).
Proof.
  unfold sql_write_scope, scope_before. destruct (w_Create r).
  - unfold sql_insert_chart, sql_insert_record. cbn [ch_ID ch_ProjectID]. intros Hw [Hn ->]. rewrite Hn in *.
    case_bool_decide as Hp; [|done]. cbn in Hw. destruct (wbs_records d) as [rc|]; [|done]. cbn in Hw.
    destruct (table_rows rc !! w_ChartID r); [done|]. rewrite lookup_insert_eq in Hw. injection Hw as <-.
    eexists rc, _. split_and!; [done|..|reflexivity]; done.
  - intros Hw (t & Ht & Hp & Hk & Hr & _). unfold sql_update_scope in Hw. rewrite Ht in Hw.
    rewrite bool_decide_eq_true_2 in Hw by done. cbn in Hw. unfold sql_update_revision, sql_revision in *. cbn in Hw.
    destruct (wbs_records d) as [rc|]; [|done]. cbn in *. rewrite bool_decide_eq_true_2 in Hw by done.
    injection Hw as <-. rewrite Ht. eexists rc, _. split_and!; [done|..|reflexivity]; done.
Qed.

(** The receipts of a chart after the insertion and the pruning. *)
Lemma span_insert rows id lo n req rr : receipts_span rows id lo n -> rows !! (id, req) = None ->
  is_revision (rr_revision rr) (n + 1) -> lo <= n + 1 -> receipts_span (<[(id, req) := rr]> rows) id lo (n + 1).
Proof.
  intros [H1 H2 H3] Hn Hrev Hlo. split.
  - intros q r [[E ->]|[Hne Hq]]%lookup_insert_Some; [exists (n + 1); split; [done|lia]|].
    destruct (H1 q r Hq) as (k & Hk & Hb). exists k. split; [done|lia].
  - intros k Hk. destruct (Z.eq_dec k (n + 1)) as [->|Hne].
    + exists req, rr. by rewrite lookup_insert_eq.
    + destruct (H2 k) as (q & r & Hq & Hr); [lia|]. exists q, r. split; [|done].
      rewrite lookup_insert_ne; [done|]. intros [= ->]. congruence.
  - intros q1 q2 r1 r2 [[E1 ->]|[N1 L1]]%lookup_insert_Some [[E2 ->]|[N2 L2]]%lookup_insert_Some E; try congruence.
    + destruct (H1 _ _ L2) as (k & Hk & Hb). rewrite <- E in Hk. pose proof (is_revision_inj _ _ _ Hrev Hk). lia.
    + destruct (H1 _ _ L1) as (k & Hk & Hb). rewrite E in Hk. pose proof (is_revision_inj _ _ _ Hrev Hk). lia.
    + by eapply H3.
Qed.

Lemma span_prune (order : forall A : Type, list A -> list A) rows id lo n :
  (forall A l, order A l ≡ₚ l) -> receipts_span rows id lo n -> lo <= n + 1 ->
  receipts_span (filter (fun kv => kv.1.1 <> id \/ kv.1.2 ∈ kept_requests order id rows) rows) id
    (Z.max lo (n + 1 - Z.of_nat WBSReceiptLimit)) n.
Proof.
  intros Ho Hs Hlo. pose proof Hs as [H1 H2 H3].
  assert (Hk : forall q rr, filter (fun kv : (string * string) * ReceiptRow => kv.1.1 <> id \/ kv.1.2 ∈ kept_requests order id rows) rows !! (id, q) = Some rr
    <-> rows !! (id, q) = Some rr /\ n - Z.of_nat WBSReceiptLimit < rev_number (rr_revision rr)).
  { intros q rr. rewrite map_lookup_filter_Some. cbn [fst snd]. split.
    - intros [Hq [Hn|Hin]]; [done|]. split; [done|]. by apply (kept_newest order Ho rows id lo n Hs q rr Hq).
    - intros [Hq Hlt]. split; [done|]. right. by apply (kept_newest order Ho rows id lo n Hs q rr Hq). }
  split.
  - intros q rr [Hq Hlt]%Hk. destruct (H1 q rr Hq) as (k & Hrk & Hb). rewrite (rev_number_is _ k Hrk) in Hlt.
    exists k. split; [done|lia].
  - intros k Hkb. destruct (H2 k) as (q & rr & Hq & Hr); [lia|]. exists q, rr. split; [|done]. apply Hk.
    split; [done|]. rewrite (rev_number_is _ k Hr). lia.
  - intros q1 q2 r1 r2 [Hq1 _]%Hk [Hq2 _]%Hk. by apply H3.
Qed.

Lemma span_ext rows rows' id lo hi : (forall q, rows' !! (id, q) = rows !! (id, q)) ->
  receipts_span rows id lo hi -> receipts_span rows' id lo hi.
Proof.
  intros E [H1 H2 H3]. split.
  - intros q rr. rewrite E. apply H1.
  - intros k Hk. destruct (H2 k Hk) as (q & rr & Hq & Hr). exists q, rr. by rewrite E.
  - intros q1 q2 r1 r2. rewrite !E. apply H3.
Qed.

(** The number of the scope before a request. *)
Lemma scope_before_number s r d cur : file_ok d -> scope_before s r d cur ->
  exists n, is_revision cur n /\ 0 <= n /\ retained (receipts_of d) (w_ChartID r) n
    /\ (forall rev, records_of d !! w_ChartID r = Some rev -> rev = cur /\ 1 <= n)
    /\ (n <> 0 -> is_Some (records_of d !! w_ChartID r)).
Proof.
  intros [_ Hst] Hb. unfold scope_before in Hb. destruct (w_Create r).
  - destruct Hb as [Hn ->].
    assert (Hrec : forall rev, records_of d !! w_ChartID r <> Some rev).
    { intros rev Hrev. destruct (record_has_chart d (w_ChartID r) Hst) as [t Ht]; [by exists rev|]. congruence. }
    assert (Hrows : forall q rr, receipts_of d !! (w_ChartID r, q) <> Some rr).
    { intros q rr Hq. destruct (store_ok_receipt _ _ _ _ Hst Hq) as (rev & k & Hrev & _). by apply (Hrec rev). }
    exists 0. split_and!; [done|done| | |done].
    + split; [intros q rr Hq; by destruct (Hrows q rr)|lia|intros q1 q2 r1 r2 Hq; by destruct (Hrows q1 r1)].
    + intros rev Hrev. by destruct (Hrec rev).
  - destruct Hb as (t & Ht & Hp & Hk & Hr & Ha).
    assert (Hrev : records_of d !! w_ChartID r = Some cur).
    { unfold sql_revision, records_of in *. by destruct (wbs_records d). }
    destruct (store_ok_record d _ _ Hst Hrev) as (pid & copyID & n & _ & Hn & H1 & _ & Hret).
    exists n. split_and!; [done|lia|done| |intros; by exists cur]. intros rev E. split; [congruence|done].
Qed.

(** A save, row by row. *)
Lemma advanced_rows s r d d' receipt : file_ok d -> advanced s r d d' receipt ->
  exists rc rp t n next fp (order : forall A : Type, list A -> list A),
    wbs_records d = Some rc /\ wbs_receipts d = Some rp
    /\ is_revision (w_ExpectedRevision r) n /\ 0 <= n /\ retained (receipts_of d) (w_ChartID r) n
    /\ (forall rev, records_of d !! w_ChartID r = Some rev -> rev = w_ExpectedRevision r /\ 1 <= n)
    /\ is_revision next (n + 1) /\ receipt = mkReceipt (w_RequestID r) next (rr_audit_id fp) false
    /\ rr_revision fp = next /\ table_rows rp !! (w_ChartID r, w_RequestID r) = None
    /\ (forall parsed, submitted s r parsed -> rr_fingerprint fp = request_fingerprint s r (Marshal (normalize parsed)))
    /\ sql_copy d = Some (s_copyID s, b_ProjectID (s_binding s))
    /\ ch_ID (row t) = w_ChartID r /\ ch_ProjectID (row t) = b_ProjectID (s_binding s)
    /\ ch_ProjectID (row t) ∈ projects d
    /\ ch_Kind (row t) = "wbs_v2"%string
    /\ (exists a, Parse (ch_Data (row t)) = Ok a /\ Revision a = next)
    /\ (forall A l, order A l ≡ₚ l)
    /\ projects d' = projects d /\ charts d' = <[w_ChartID r := t]> (charts d) /\ wbs_copy d' = wbs_copy d
    /\ wbs_records d' = Some (mkTable (table_sql rc) (<[w_ChartID r := next]> (table_rows rc)))
    /\ (let rows := <[(w_ChartID r, w_RequestID r) := fp]> (table_rows rp) in
        wbs_receipts d' = Some (mkTable (table_sql rp)
          (filter (fun kv => kv.1.1 <> w_ChartID r \/ kv.1.2 ∈ kept_requests order (w_ChartID r) rows) rows))).
Proof.
  intros Hok (parsed & next & text & now & i & e & d1 & d2 & d3 & order & Hsub & Hcopy & Hrec & _ & _ & Hb & Hnext
    & Hp & Hw & _ & _ & _ & _ & _ & He & Hins & Hord & Hprune & ->).
  remember (request_fingerprint s r (Marshal (normalize parsed))) as fpr eqn:Hfpr.
  pose proof Hok as [Hch Hst].
  destruct (scope_before_number s r d _ Hok Hb) as (n & Hn & H0 & Hret & Hrev & _).
  destruct (NextRevision_Ok _ _ _ Hn Hnext) as [_ Hn1].
  destruct (write_scope_rows _ _ _ _ _ _ _ _ _ Hw Hb) as (rc & t & Erc & Hid & Hpr & Hk & Hdata & _ & Hproj & ->).
  destruct Hsub as (Href & Hparse & Hrv & Hcr).
  pose proof (stored_payload _ _ _ _ Hparse Hn1 Hp) as Ha.
  apply appends_same in He as (_ & E1 & E2 & E3 & E4 & E5). cbn in E1, E2, E3, E4, E5.
  unfold sql_insert_receipt in Hins. rewrite E5 in Hins. unfold sql_receipt in Hrec.
  destruct (wbs_receipts d) as [rp|] eqn:Erp; [|done]. cbn [mbind option_bind] in Hins, Hrec.
  injection Hrec as Hrec. rewrite Hrec in Hins. destruct (records_of d2 !! w_ChartID r); [|done]. injection Hins as <-.
  unfold sql_prune_receipts in Hprune. cbn [mbind option_bind wbs_receipts set_wbs_receipts table_rows] in Hprune. injection Hprune as <-.
  assert (Hpin : b_ProjectID (s_binding s) ∈ projects d).
  { destruct (charts d !! w_ChartID r) as [t0|] eqn:E; [|by apply Hproj].
    unfold scope_before in Hb. destruct (w_Create r); [destruct Hb; congruence|].
    destruct Hb as (t1 & Ht1 & Hp1 & _). destruct (Hch _ _ Ht1) as [_ Hin]. by rewrite Hp1 in Hin. }
  assert (Hid' : ch_ID (row t) = w_ChartID r).
  { rewrite Hid. destruct (charts d !! w_ChartID r) as [t0|] eqn:E; [by destruct (Hch _ _ E)|done]. }
  exists rc, rp, t, n, next, (mkReceiptRow fpr next (ae_ID e)), order. 
  split_and!; [exact Erc|reflexivity|exact Hn|exact H0|exact Hret|exact Hrev|exact Hn1|reflexivity|reflexivity
    |exact Hrec| |apply Hcopy|exact Hid'|exact Hpr|by rewrite Hpr|exact Hk|eexists; rewrite Hdata; split; [exact Ha|reflexivity]
    |exact Hord|exact E1|exact E2|exact E3|exact E4|reflexivity].
  intros p (_ & Hp2 & _). rewrite Hfpr. cbn [rr_fingerprint]. by assert (p = parsed) as -> by congruence.
Qed.

Section saved.
Context (s : WBSStore) (r : WBSWrite) (d d' : ProjectDB) (receipt : WBSReceipt).
Context (Hok : file_ok d) (Hadv : advanced s r d d' receipt).

(** The file after a save: the scope has one more revision, the receipts of the
    newest revisions are kept, everything else stays. *)
Lemma advanced_state : exists t n next fp,
    is_revision (w_ExpectedRevision r) n /\ 0 <= n /\ is_revision next (n + 1)
    /\ (forall rev, records_of d !! w_ChartID r = Some rev -> rev = w_ExpectedRevision r /\ 1 <= n)
    /\ charts d' = <[w_ChartID r := t]> (charts d) /\ records_of d' = <[w_ChartID r := next]> (records_of d)
    /\ receipt = mkReceipt (w_RequestID r) next (rr_audit_id fp) false /\ rr_revision fp = next
    /\ (forall parsed, submitted s r parsed -> rr_fingerprint fp = request_fingerprint s r (Marshal (normalize parsed)))
    /\ receipts_of d' !! (w_ChartID r, w_RequestID r) = Some fp
    /\ (forall id q, id <> w_ChartID r -> receipts_of d' !! (id, q) = receipts_of d !! (id, q))
    /\ (forall q rr, receipts_of d !! (w_ChartID r, q) = Some rr ->
          n + 1 - Z.of_nat WBSReceiptLimit < rev_number (rr_revision rr) ->
          receipts_of d' !! (w_ChartID r, q) = Some rr)
    /\ scope_at d' (b_ProjectID (s_binding s)) (w_ChartID r) next (n + 1)
    /\ file_ok d' /\ projects d' = projects d /\ sql_copy d' = sql_copy d.
Proof.
  destruct (advanced_rows s r d d' receipt Hok Hadv)
    as (rc & rp & t & n & next & fp & order & Erc & Erp & Hn & H0 & Hret & Hrev & Hn1 & Hrcpt & Hfrev & Hnone
        & Hfp & Hcopy & Hid & Hpr & Hpin & Hk & (a & Ha & Hra) & Hord & E1 & E2 & E3 & E4 & E5).
  pose proof Hok as [Hch Hst]. set (id := w_ChartID r) in *. set (req := w_RequestID r) in *. cbv zeta in E5.
  set (rows := <[(id, req) := fp]> (table_rows rp)) in *.
  assert (Er : records_of d = table_rows rc) by (unfold records_of; by rewrite Erc).
  assert (Er' : records_of d' = <[id := next]> (records_of d)) by (unfold records_of; by rewrite E4, Erc).
  assert (Eq : receipts_of d = table_rows rp) by (unfold receipts_of; by rewrite Erp).
  set (pruned := filter _ rows) in *.
  assert (Eq' : receipts_of d' = pruned) by (unfold receipts_of; by rewrite E5).
  assert (Hspan : receipts_span rows id (Z.max 1 (n + 1 - Z.of_nat WBSReceiptLimit)) (n + 1)).
  { apply span_insert; [by rewrite <- Eq|done|by rewrite Hfrev|lia]. }
  assert (Hret' : retained (receipts_of d') id (n + 1)).
  { rewrite Eq'. pose proof (span_prune order rows id _ (n + 1) Hord Hspan ltac:(lia)) as Hp.
    unfold retained. by replace (Z.max 1 (n + 1 + 1 - Z.of_nat WBSReceiptLimit)) with
      (Z.max (Z.max 1 (n + 1 - Z.of_nat WBSReceiptLimit)) (n + 1 + 1 - Z.of_nat WBSReceiptLimit)) by lia. }
  assert (Hother : forall id' q, id' <> id -> receipts_of d' !! (id', q) = receipts_of d !! (id', q)).
  { intros id' q Hne. rewrite Eq', Eq. unfold pruned, rows. apply option_eq. intros rr.
    rewrite map_lookup_filter_Some, lookup_insert_ne by congruence. cbn [fst snd]. split; [by intros []|]. by auto. }
  assert (Hkept : forall q rr, rows !! (id, q) = Some rr ->
            n + 1 - Z.of_nat WBSReceiptLimit < rev_number (rr_revision rr) -> receipts_of d' !! (id, q) = Some rr).
  { intros q rr Hq Hlt. rewrite Eq'. unfold pruned. apply map_lookup_filter_Some. split; [done|]. right. cbn [fst snd].
    by apply (kept_newest order Hord rows id _ (n + 1) Hspan q rr Hq). }
  assert (Hscope : scope_at d' (b_ProjectID (s_binding s)) id next (n + 1)).
  { split_and!; [done|lia| |done]. exists t. split_and!; [by rewrite E2, lookup_insert_eq|done|done| |].
    - unfold sql_revision. rewrite E4. cbn [mbind option_bind table_rows]. by rewrite lookup_insert_eq.
    - by exists a. }
  exists t, n, next, fp. split_and!; try done.
  - apply Hkept; [by unfold rows; rewrite lookup_insert_eq|]. rewrite Hfrev, (rev_number_is _ _ Hn1). unfold WBSReceiptLimit. lia.
  - intros q rr Hq Hlt. apply Hkept; [|done]. rewrite Eq in Hq. unfold rows. rewrite lookup_insert_ne; [done|].
    intros [= <-]. congruence.
  - split.
    + intros id' t' Ht'. rewrite E2 in Ht'. rewrite E1. apply lookup_insert_Some in Ht' as [[<- <-]|[_ Ht']]; [done|].
      by apply Hch.
    + unfold store_ok in *. rewrite E3, E4, E5. rewrite Erc, Erp in Hst.
      destruct (wbs_copy d) as [cp|] eqn:Ecp; [|done]. destruct Hst as (copyID & pid & [D1 D2 D3 D4 D5 D6]).
      assert (Hc : sql_copy d = Some (copyID, pid)) by (unfold sql_copy; rewrite Ecp; exact D2).
      rewrite Hcopy in Hc. injection Hc as <- <-. exists (s_copyID s), (b_ProjectID (s_binding s)). split; try done.
      * intros id' t' Ht' Hk'. cbn [table_rows]. rewrite E2 in Ht'.
        apply lookup_insert_Some in Ht' as [[<- <-]|[Hne Ht']]; [by rewrite lookup_insert_eq|].
        rewrite lookup_insert_ne by done. by eapply D4.
      * intros id' rev'. cbn [table_rows]. intros [[<- <-]|[Hne Hl]]%lookup_insert_Some; [by exists (n + 1)|].
        destruct (D5 id' rev' Hl) as (n' & Hn' & Hle & (t' & Ht' & Hp' & Hk' & Hr' & Ha') & Hret2). exists n'.
        split_and!; [done|done| |].
        -- exists t'. split_and!; try done; [by rewrite E2, lookup_insert_ne|].
          unfold sql_revision. rewrite E4. cbn [mbind option_bind table_rows]. by rewrite lookup_insert_ne.
        -- eapply span_ext; [|exact Hret2]. intros q. by apply Hother.
      * intros id' q rr. cbn [table_rows]. intros [Hl _]%map_lookup_filter_Some. unfold rows in Hl.
        apply lookup_insert_is_Some. destruct (decide (id = id')) as [|Hne]; [by left|right]. split; [done|].
        rewrite lookup_insert_ne in Hl by congruence. by eapply D6.
  - unfold sql_copy. by rewrite E3.
Qed.

Lemma advanced_ok : file_ok d' /\ evolves d d'.
Proof.
  destruct advanced_state as (t & n & next & fp & Hn & H0 & Hn1 & Hrev & E2 & Er & _ & _ & _ & _ & Hother & Hkept & Hscope
    & Hok' & E1 & E3). split; [done|]. split; [by right|by rewrite E3| |].
  - intros id rev m Hr Hm. rewrite Er, E2. destruct (decide (w_ChartID r = id)) as [<-|Hne].
    + exists next, (n + 1). rewrite lookup_insert_eq. destruct (Hrev rev Hr) as [-> _].
      pose proof (is_revision_inj _ _ _ Hn Hm) as ->. split_and!; [done|done|lia|intros; lia].
    + exists rev, m. rewrite !lookup_insert_ne by done. split_and!; done || lia.
  - intros id q rr k rev' n' Hq Hk Hr' Hn' Hlt. destruct (decide (id = w_ChartID r)) as [->|Hne].
    + rewrite Er, lookup_insert_eq in Hr'. injection Hr' as <-. pose proof (is_revision_inj _ _ _ Hn1 Hn') as <-.
      apply Hkept; [done|]. by rewrite (rev_number_is _ k Hk).
    + by rewrite Hother.
Qed.
End saved.
