(* ===== verification/ProjectFrames.v ===== *)
(** * What each operation on a project file can touch

    The tables an operation may change, found by following its statements; the
    events it adds to the audit chains.  An invariant of some tables is kept by
    every operation that touches none of them. *)

From S2P Require Import Prelude GoStrings GoTime GoSha256 GoJson GoJsonV2 Money Wbs ProjectDb AuditChain AuditTheorems Charts ChartsTheorems ProjectKeeps Projects Documents Baselines Scenarios CostControl CostAttachments WbsStore Agile Stakeholders.

Local Open Scope Z_scope.

(** ** Footprints *)

Inductive table : Set :=
| TProject | TCharts | TBaselines | TDocuments | TScenarios | TScenarioCharts
| TCostTypes | TCostEntries | TAttachments | TReserves | TSnapshots | TWbs
| TBoards | TColumns | TItems | TSprints | TDeployments | TStakeholders.

#[export] Instance table_eq_dec : EqDecision table.
Proof. solve_decision. Defined.

(** The events grow at the end, and chains stay valid. *)
Definition events_extend (d d' : ProjectDB) : Prop := forall l, audit_events d = Some l ->
  exists l', audit_events d' = Some l' /\ l `prefix_of` l' /\ (chains_valid l -> chains_valid l').

(** Nothing but the tables of [T] and the events differ. *)
Record touches (T : list table) (d d' : ProjectDB) : Prop := {
  touches_events : events_extend d d';
  touches_project : TProject ∉ T -> project d' = project d;
  touches_charts : TCharts ∉ T -> charts d' = charts d;
  touches_baselines : TBaselines ∉ T -> baselines d' = baselines d;
  touches_documents : TDocuments ∉ T -> documents (plans d') = documents (plans d);
  touches_scenarios : TScenarios ∉ T -> scenarios (plans d') = scenarios (plans d);
  touches_scenario_charts : TScenarioCharts ∉ T -> scenario_charts (plans d') = scenario_charts (plans d);
  touches_cost_types : TCostTypes ∉ T -> cost_types (costs d') = cost_types (costs d);
  touches_cost_entries : TCostEntries ∉ T -> cost_entries (costs d') = cost_entries (costs d);
  touches_attachments : TAttachments ∉ T ->
    cost_entry_attachments (costs d') = cost_entry_attachments (costs d);
  touches_reserves : TReserves ∉ T -> cost_reserves (costs d') = cost_reserves (costs d);
  touches_snapshots : TSnapshots ∉ T ->
    cost_baseline_snapshots (costs d') = cost_baseline_snapshots (costs d);
  touches_wbs : TWbs ∉ T ->
    wbs_copy d' = wbs_copy d /\ wbs_records d' = wbs_records d /\ wbs_receipts d' = wbs_receipts d;
  touches_boards : TBoards ∉ T -> agile_boards (agile d') = agile_boards (agile d);
  touches_columns : TColumns ∉ T -> agile_columns (agile d') = agile_columns (agile d);
  touches_items : TItems ∉ T -> agile_work_items (agile d') = agile_work_items (agile d);
  touches_sprints : TSprints ∉ T -> agile_sprints (agile d') = agile_sprints (agile d);
  touches_deployments : TDeployments ∉ T -> agile_deployments (agile d') = agile_deployments (agile d);
  touches_stakeholders : TStakeholders ∉ T -> stakeholders d' = stakeholders d
}.

Lemma events_extend_same d d' : audit_events d' = audit_events d -> events_extend d d'.
Proof. intros E l Hl. exists l. by rewrite E. Qed.

#[export] Instance events_extend_preorder : PreOrder events_extend.
Proof.
  split; [intros d; by apply events_extend_same|].
  intros d1 d2 d3 H12 H23 l Hl. destruct (H12 l Hl) as (l2 & Hl2 & P2 & V2).
  destruct (H23 l2 Hl2) as (l3 & Hl3 & P3 & V3). exists l3. split_and!; [done|by etrans|auto].
Qed.

Lemma appends_extend i d d' e : appends i d d' e -> events_extend d d'.
Proof.
  intros (l0 & id & before & after & now & Hl0 & -> & _ & _ & ->) l Hl. rewrite Hl in Hl0. injection Hl0 as <-.
  eexists. split_and!; [reflexivity|by eexists|]. intros. by apply chains_valid_append.
Qed.

#[export] Instance touches_preorder T : PreOrder (touches T).
Proof.
  split; [intros d; split; done|].
  intros d1 d2 d3 [E1 P1 C1 B1 D1 S1 SC1 CT1 CE1 A1 R1 SN1 W1 AB1 AC1 AI1 AS1 AD1 ST1] [E2 P2 C2 B2 D2 S2 SC2 CT2 CE2 A2 R2 SN2 W2 AB2 AC2 AI2 AS2 AD2 ST2].
  split; [by etrans|..]; intros Hn;
    repeat match goal with Hi : _ ∉ T -> _ |- _ => first [specialize (Hi Hn)|clear Hi] end; intuition congruence.
Qed.

#[export] Instance touches_audited T : Audited (touches T).
Proof.
  split; [apply _|]. intros i d d' e He. pose proof (appends_extend i d d' e He).
  destruct He as (l & id & b & a & now & _ & _ & _ & _ & ->). by split.
Qed.

(** ** Updates of one table *)

Ltac touch_set := intros; split; try done; by apply events_extend_same.

Lemma touch_project T v d : TProject ∈ T -> touches T d (set_project v d). Proof. touch_set. Qed.
Lemma touch_charts T v d : TCharts ∈ T -> touches T d (set_charts v d). Proof. touch_set. Qed.
Lemma touch_baselines T v d : TBaselines ∈ T -> touches T d (set_baselines v d). Proof. touch_set. Qed.
Lemma touch_documents T v d : TDocuments ∈ T -> touches T d (set_documents v d). Proof. touch_set. Qed.
Lemma touch_scenarios T v d : TScenarios ∈ T -> touches T d (set_scenarios v d). Proof. touch_set. Qed.
Lemma touch_scenario_charts T v d : TScenarioCharts ∈ T -> touches T d (set_scenario_charts v d).
Proof. touch_set. Qed.
Lemma touch_cost_types T v d : TCostTypes ∈ T -> touches T d (set_cost_types v d). Proof. touch_set. Qed.
Lemma touch_cost_entries T v d : TCostEntries ∈ T -> touches T d (set_cost_entries v d). Proof. touch_set. Qed.
Lemma touch_attachments T v d : TAttachments ∈ T -> touches T d (set_cost_entry_attachments v d).
Proof. touch_set. Qed.
Lemma touch_reserves T v d : TReserves ∈ T -> touches T d (set_cost_reserves v d). Proof. touch_set. Qed.
Lemma touch_snapshots T v d : TSnapshots ∈ T -> touches T d (set_cost_baseline_snapshots v d).
Proof. touch_set. Qed.
Lemma touch_wbs_copy T v d : TWbs ∈ T -> touches T d (set_wbs_copy v d). Proof. touch_set. Qed.
Lemma touch_wbs_records T v d : TWbs ∈ T -> touches T d (set_wbs_records v d). Proof. touch_set. Qed.
Lemma touch_wbs_receipts T v d : TWbs ∈ T -> touches T d (set_wbs_receipts v d). Proof. touch_set. Qed.
Lemma touch_boards T v d : TBoards ∈ T -> touches T d (set_boards v d). Proof. touch_set. Qed.
Lemma touch_columns T v d : TColumns ∈ T -> touches T d (set_columns v d). Proof. touch_set. Qed.
Lemma touch_items T v d : TItems ∈ T -> touches T d (set_work_items v d). Proof. touch_set. Qed.
Lemma touch_sprints T v d : TSprints ∈ T -> touches T d (set_sprints v d). Proof. touch_set. Qed.
Lemma touch_deployments T v d : TDeployments ∈ T -> touches T d (set_deployments v d). Proof. touch_set. Qed.
Lemma touch_stakeholders T v d : TStakeholders ∈ T -> touches T d (set_stakeholders v d). Proof. touch_set. Qed.
Lemma touch_log T a b c e f d : touches T d (add_log_row a b c e f d). Proof. touch_set. Qed.

#[export] Hint Resolve touch_project touch_charts touch_baselines touch_documents touch_scenarios
  touch_scenario_charts touch_cost_types touch_cost_entries touch_attachments touch_reserves
  touch_snapshots touch_wbs_copy touch_wbs_records touch_wbs_receipts touch_boards touch_columns
  touch_items touch_sprints touch_deployments touch_stakeholders touch_log : touches.

(** A table is in the list that is written out. *)
#[export] Hint Extern 1 (_ ∈ _) => by_decide : touches.

(** ** Statements *)

Ltac touch_statement f :=
  let Hr := fresh "Hr" in
  intros ? Hr; unfold f in Hr; cbv zeta in Hr; simplify_option_eq;
  repeat (case_match; simplify_option_eq); eauto 3 with touches; reflexivity.

Section statements.
Context (T : list table) (d d' : ProjectDB).

Lemma touch_upsert_project p now :
  TProject ∈ T -> sql_upsert_project p now d = Some d' -> touches T d d'.
Proof. intros ? Hr. injection Hr as <-. auto with touches. Qed.

Lemma touch_insert_chart c n1 n2 : TCharts ∈ T -> sql_insert_chart c n1 n2 d = Some d' -> touches T d d'.
Proof. touch_statement sql_insert_chart. Qed.

Lemma touch_upsert_chart c now : TCharts ∈ T -> sql_upsert_chart c now d = Some d' -> touches T d d'.
Proof.
  intros ? Hr. unfold sql_upsert_chart in Hr. destruct (charts d !! ch_ID c).
  - injection Hr as <-. auto with touches.
  - by eapply touch_insert_chart.
Qed.

Lemma touch_delete_chart id :
  TCharts ∈ T -> TBaselines ∈ T -> sql_delete_chart id d = Some d' -> touches T d d'.
Proof.
  intros ?? Hr. unfold sql_delete_chart in Hr. case_match; simplify_eq.
  etrans; [|by apply touch_baselines]. by apply touch_charts.
Qed.

Lemma touch_upsert_document x now :
  TDocuments ∈ T -> sql_upsert_document x now d = Some d' -> touches T d d'.
Proof. touch_statement sql_upsert_document. Qed.

Lemma touch_delete_document id : TDocuments ∈ T -> sql_delete_document id d = Some d' -> touches T d d'.
Proof. intros ? Hr. injection Hr as <-. auto with touches. Qed.

Lemma touch_insert_baseline b : TBaselines ∈ T -> sql_insert_baseline b d = Some d' -> touches T d d'.
Proof. touch_statement sql_insert_baseline. Qed.

Lemma touch_delete_baseline id : TBaselines ∈ T -> sql_delete_baseline id d = Some d' -> touches T d d'.
Proof. intros ? Hr. injection Hr as <-. auto with touches. Qed.

Lemma touch_deactivate text now p e :
  TScenarios ∈ T -> sql_deactivate text now p e d = Some d' -> touches T d d'.
Proof. intros ? Hr. injection Hr as <-. auto with touches. Qed.

Lemma touch_upsert_scenario x now :
  TScenarios ∈ T -> sql_upsert_scenario x now d = Some d' -> touches T d d'.
Proof. intros ? Hr. unfold sql_upsert_scenario in Hr. case_match; simplify_eq. auto with touches. Qed.

Lemma touch_delete_scenario id :
  TScenarios ∈ T -> TScenarioCharts ∈ T -> sql_delete_scenario id d = Some d' -> touches T d d'.
Proof. intros ?? Hr. injection Hr as <-.
  etrans; [|by apply touch_scenario_charts]. by apply touch_scenarios. Qed.

Lemma touch_insert_scenario_chart x now :
  TScenarioCharts ∈ T -> sql_insert_scenario_chart x now d = Some d' -> touches T d d'.
Proof. touch_statement sql_insert_scenario_chart. Qed.

Lemma touch_update_scenario_chart t a c x now id :
  TScenarioCharts ∈ T -> sql_update_scenario_chart t a c x now id d = Some d' -> touches T d d'.
Proof. intros ? Hr. injection Hr as <-. auto with touches. Qed.

Lemma touch_seed_type id pid x : TCostTypes ∈ T -> sql_seed_type id pid x d = Some d' -> touches T d d'.
Proof. touch_statement sql_seed_type. Qed.

Lemma touch_insert_entry x : TCostEntries ∈ T -> sql_insert_entry x d = Some d' -> touches T d d'.
Proof. touch_statement sql_insert_entry. Qed.

Lemma touch_upsert_reserve x : TReserves ∈ T -> sql_upsert_reserve x d = Some d' -> touches T d d'.
Proof. touch_statement sql_upsert_reserve. Qed.

Lemma touch_insert_snapshot x : TSnapshots ∈ T -> sql_insert_snapshot x d = Some d' -> touches T d d'.
Proof. touch_statement sql_insert_snapshot. Qed.

Lemma touch_insert_attachment x data :
  TAttachments ∈ T -> sql_insert_attachment x data d = Some d' -> touches T d d'.
Proof. touch_statement sql_insert_attachment. Qed.

Lemma touch_create_wbs : TWbs ∈ T -> sql_create_wbs d = Some d' -> touches T d d'.
Proof.
  intros ? Hr. unfold sql_create_wbs in Hr. destruct definitions as [|x [|y [|z [|]]]]; try done.
  destruct (wbs_copy d), (wbs_records d), (wbs_receipts d); try done. injection Hr as <-.
  split; try done. by apply events_extend_same.
Qed.

Lemma touch_insert_copy a b : TWbs ∈ T -> sql_insert_copy a b d = Some d' -> touches T d d'.
Proof. touch_statement sql_insert_copy. Qed.

Lemma touch_insert_record id rev : TWbs ∈ T -> sql_insert_record id rev d = Some d' -> touches T d d'.
Proof. touch_statement sql_insert_record. Qed.

Lemma touch_update_scope id p t a x now :
  TCharts ∈ T -> sql_update_scope id p t a x now d = Some d' -> touches T d d'.
Proof. touch_statement sql_update_scope. Qed.

Lemma touch_update_revision id n c : TWbs ∈ T -> sql_update_revision id n c d = Some d' -> touches T d d'.
Proof. touch_statement sql_update_revision. Qed.

Lemma touch_insert_receipt id q r : TWbs ∈ T -> sql_insert_receipt id q r d = Some d' -> touches T d d'.
Proof. touch_statement sql_insert_receipt. Qed.

Lemma touch_prune_receipts o id : TWbs ∈ T -> sql_prune_receipts o id d = Some d' -> touches T d d'.
Proof. touch_statement sql_prune_receipts. Qed.

Lemma touch_insert_board b : TBoards ∈ T -> sql_insert_board b d = Some d' -> touches T d d'.
Proof. touch_statement sql_insert_board. Qed.

Lemma touch_seed_column c : TColumns ∈ T -> sql_seed_column c d = Some d' -> touches T d d'.
Proof. touch_statement sql_seed_column. Qed.

Lemma touch_upsert_column c n : TColumns ∈ T -> sql_upsert_column c d = Some (n, d') -> touches T d d'.
Proof. touch_statement sql_upsert_column. Qed.

Lemma touch_delete_column id pid n :
  TColumns ∈ T -> sql_delete_column id pid d = Some (n, d') -> touches T d d'.
Proof. touch_statement sql_delete_column. Qed.

Lemma touch_upsert_work_item w n : TItems ∈ T -> sql_upsert_work_item w d = Some (n, d') -> touches T d d'.
Proof. touch_statement sql_upsert_work_item. Qed.

Lemma touch_delete_work_item id pid : TItems ∈ T -> sql_delete_work_item id pid d = Some d' -> touches T d d'.
Proof. touch_statement sql_delete_work_item. Qed.

Lemma touch_move_work_item id pid state order now closed :
  TItems ∈ T -> sql_move_work_item id pid state order now closed d = Some d' -> touches T d d'.
Proof. touch_statement sql_move_work_item. Qed.

Lemma touch_upsert_sprint s n : TSprints ∈ T -> sql_upsert_sprint s d = Some (n, d') -> touches T d d'.
Proof. touch_statement sql_upsert_sprint. Qed.

Lemma touch_clear_sprint id pid : TItems ∈ T -> sql_clear_sprint id pid d = Some d' -> touches T d d'.
Proof. intros ? Hr. injection Hr as <-. auto with touches. Qed.

Lemma touch_delete_sprint id pid : TSprints ∈ T -> sql_delete_sprint id pid d = Some d' -> touches T d d'.
Proof. touch_statement sql_delete_sprint. Qed.

Lemma touch_upsert_deployment x n :
  TDeployments ∈ T -> sql_upsert_deployment x d = Some (n, d') -> touches T d d'.
Proof. touch_statement sql_upsert_deployment. Qed.

Lemma touch_delete_deployment id pid :
  TDeployments ∈ T -> sql_delete_deployment id pid d = Some d' -> touches T d d'.
Proof. touch_statement sql_delete_deployment. Qed.

Lemma touch_upsert_stakeholder s : TStakeholders ∈ T -> sql_upsert_stakeholder s d = Some d' -> touches T d d'.
Proof. touch_statement sql_upsert_stakeholder. Qed.

Lemma touch_delete_stakeholder id : TStakeholders ∈ T -> sql_delete_stakeholder id d = Some d' -> touches T d d'.
Proof. intros ? Hr. injection Hr as <-. auto with touches. Qed.

End statements.

#[export] Hint Resolve touch_upsert_project touch_insert_chart touch_upsert_chart touch_delete_chart
  touch_upsert_document touch_delete_document touch_insert_baseline touch_delete_baseline
  touch_deactivate touch_upsert_scenario touch_delete_scenario touch_insert_scenario_chart
  touch_update_scenario_chart touch_seed_type touch_insert_entry touch_upsert_reserve
  touch_insert_snapshot touch_insert_attachment touch_create_wbs touch_insert_copy touch_insert_record
  touch_update_scope touch_update_revision touch_insert_receipt touch_prune_receipts touch_insert_board
  touch_seed_column touch_upsert_column touch_delete_column touch_upsert_work_item touch_delete_work_item
  touch_move_work_item touch_upsert_sprint touch_clear_sprint touch_delete_sprint touch_upsert_deployment
  touch_delete_deployment touch_upsert_stakeholder touch_delete_stakeholder : touches.

(** ** Operations

    An operation with the tables it may touch. *)
Inductive project_op `{DbEnv} : list table -> forall A : Type, DbTx A -> Prop :=
| op_append i : project_op [] _ (AppendAuditEvent i)
| op_approve pid kind id approval json user :
    project_op [] _ (in_tx (appendApprovalCheckpointForUserTx pid kind id approval json user))
| op_log actor action target details : project_op [] _ (LogAction actor action target details)
| op_save_chart c : project_op [TCharts] _ (SaveChart c)
| op_delete_chart id : project_op [TCharts; TBaselines] _ (DeleteChart id)
| op_open b : project_op [TWbs] _ (OpenWBSStore b)
| op_save s w : project_op [TCharts; TWbs] _ (Save s w)
| op_upsert_project p : project_op [TProject] _ (UpsertProject p)
| op_save_document d : project_op [TDocuments] _ (SaveDocument d)
| op_delete_document id : project_op [TDocuments] _ (DeleteDocument id)
| op_save_baseline b : project_op [TBaselines] _ (SaveBaseline b)
| op_delete_baseline id : project_op [TBaselines] _ (DeleteBaseline id)
| op_save_scenario s : project_op [TScenarios] _ (SaveScenario s)
| op_delete_scenario id : project_op [TScenarios; TScenarioCharts] _ (DeleteScenario id)
| op_branch s c b : project_op [TScenarioCharts] _ (BranchScenarioChart s c b)
| op_save_scenario_chart c : project_op [TScenarioCharts] _ (SaveScenarioChart c)
| op_promote id name : project_op [TBaselines] _ (PromoteScenarioChartToBaseline id name)
| op_cost_types pid : project_op [TCostTypes] _ (ListCostTypes pid)
| op_save_entry e : project_op [TCostEntries] _ (SaveCostEntry e)
| op_save_reserve r : project_op [TReserves] _ (SaveCostReserve r)
| op_approve_baseline pid actor note : project_op [TSnapshots] _ (ApproveCostBaseline pid actor note)
| op_attach pid entry name kind data :
    project_op [TAttachments] _ (SaveCostEntryAttachment pid entry name kind data)
| op_board pid : project_op [TBoards; TColumns] _ (EnsureDefaultBoard pid)
| op_save_column pid c : project_op [TColumns] _ (SaveColumn pid c)
| op_delete_column pid id : project_op [TColumns] _ (DeleteColumn pid id)
| op_save_item pid w : project_op [TItems] _ (SaveWorkItem pid w)
| op_delete_item pid id : project_op [TItems] _ (DeleteWorkItem pid id)
| op_move_item pid id state order : project_op [TItems] _ (MoveWorkItem pid id state order)
| op_save_sprint pid s : project_op [TSprints] _ (SaveSprint pid s)
| op_delete_sprint pid id : project_op [TItems; TSprints] _ (DeleteSprint pid id)
| op_save_deployment pid x : project_op [TDeployments] _ (SaveDeployment pid x)
| op_delete_deployment pid id : project_op [TDeployments] _ (DeleteDeployment pid id)
| op_save_stakeholder s : project_op [TStakeholders] _ (SaveStakeholder s)
| op_delete_stakeholder id : project_op [TStakeholders] _ (DeleteStakeholder id).

Section operations.
Context `{DbEnv} (T : list table).

Lemma touches_insert_seeds pid l : TCostTypes ∈ T -> Keeps (touches T) (insert_seeds pid l).
Proof. intros Hin. induction l as [|s l IH]; cbn [insert_seeds]; keeps; eauto with touches. Qed.

Lemma touches_audit_deactivated l : Keeps (touches T) (audit_deactivated l).
Proof. induction l as [|s l IH]; cbn [audit_deactivated]; unfold getScenarioTx; keeps; done. Qed.

Lemma touches_check_definitions l : Keeps (touches T) (check_definitions l).
Proof. induction l as [|x l IH]; cbn [check_definitions]; keeps; done. Qed.

Lemma touches_read_all l pid : Keeps (touches T) (read_all l pid).
Proof.
  induction l as [|x l IH]; cbn [read_all]; unfold readWBSRecord, getChartTx, dtx_of_wbs; keeps; done.
Qed.

Lemma touches_saveBaselineTx b : TBaselines ∈ T -> Keeps (touches T) (saveBaselineTx b).
Proof. intros Hin. unfold saveBaselineTx, getBaselineTx. keeps; eauto with touches. Qed.

Lemma touches_advance s w a f : TCharts ∈ T -> TWbs ∈ T -> Keeps (touches T) (advance s w a f).
Proof.
  intros H1 H2. unfold advance, current_scope, write_scope, readWBSRecord, getChartTx, dtx_of_wbs.
  keeps; eauto with touches.
  intros c r c' Hr. eapply keeps_exec; [apply _| |exact Hr]. intros. eauto with touches.
Qed.

Lemma touches_ensureDefaultColumns id : TColumns ∈ T -> Keeps (touches T) (ensureDefaultColumns id).
Proof.
  intros Hin. unfold ensureDefaultColumns. induction (DefaultColumns id); cbn [seed_columns]; keeps;
    eauto with touches.
Qed.

End operations.

#[export] Hint Resolve touches_insert_seeds touches_audit_deactivated touches_check_definitions
  touches_read_all touches_saveBaselineTx touches_advance touches_ensureDefaultColumns : touches.

(** The updates that only take the lock. *)
Lemma touches_lock_project T pid d n d' : sql_lock_project pid d = Some (n, d') -> touches T d d'.
Proof. intros [= _ <-]. reflexivity. Qed.

Lemma touches_lock_copy T s d n d' : sql_lock_copy s d = Some (n, d') -> touches T d d'.
Proof. unfold sql_lock_copy. intros (t & _ & [= _ <-])%bind_Some. reflexivity. Qed.

(** Every operation touches its tables at most. *)
Lemma project_op_touches `{DbEnv} T A (m : DbTx A) : project_op T A m -> Keeps (touches T) m.
Proof.
  intros []; unfold AppendAuditEvent, LogAction, SaveChart, DeleteChart, OpenWBSStore, Save,
    UpsertProject, SaveDocument, DeleteDocument, SaveBaseline, DeleteBaseline, SaveScenario, DeleteScenario,
    BranchScenarioChart, SaveScenarioChart, PromoteScenarioChartToBaseline, ListCostTypes, EnsureCostTypes,
    SaveCostEntry, SaveCostReserve, ApproveCostBaseline, SaveCostEntryAttachment, EnsureDefaultBoard,
    EnsureDefaultBoard_fuel, ensure_board, SaveColumn, DeleteColumn, SaveWorkItem, GetWorkItem, DeleteWorkItem,
    MoveWorkItem, SaveSprint, GetSprint, DeleteSprint, SaveDeployment, DeleteDeployment, SaveStakeholder,
    DeleteStakeholder, requireOneRow, GetScenario, GetChart,
    GetBaseline, source_baseline, checkCopy, getChartTx, protectedWBSChartTx, getProjectByIDTx, getDocumentTx,
    getBaselineTx, getScenarioTx, listActiveScenariosExceptTx, getScenarioChartTx, dtx_of_wbs, dtx_of_money,
    dtx_of_result; keeps; eauto with touches;
    [simplify_eq; apply touch_log|by eapply touches_lock_project|by eapply touches_lock_copy|].
  unfold GetBaseline, getBaselineTx. keeps.
Qed.
