(* ===== verification/WriteLock.v ===== *)
(** * A transaction that nobody ends

    While a transaction that has written stays open, no other one writes: every
    operation on the file leaves it as it is, and the lock stays. *)

From S2P Require Import Prelude GoStrings GoTime GoSha256 GoJson GoJsonV2 Money Wbs ProjectDb AuditChain AuditTheorems Charts ChartsTheorems ProjectKeeps Projects Documents Baselines Scenarios PlanTheorems CostControl CostAttachments WbsStore Agile Stakeholders ProjectFrames.

Local Open Scope Z_scope.

Section frozen.
Context `{DbEnv}.

Definition Frozen {A} (m : DbTx A) : Prop := forall c r c', write_locked c = true -> m c = (r, c') ->
  file c' = file c /\ write_locked c' = true.

Lemma frozen_ret {A} (a : A) : Frozen (dtx_ret a).
Proof. intros c r c' Hl Hr. by injection Hr as _ <-. Qed.

Lemma frozen_fail {A} e : Frozen (@dtx_fail A e).
Proof. intros c r c' Hl Hr. by injection Hr as _ <-. Qed.

Lemma frozen_bind {A B} (m : DbTx A) (k : A -> DbTx B) :
  Frozen m -> (forall a, Frozen (k a)) -> Frozen (dtx_bind m k).
Proof.
  intros Hm Hk c r c' Hl. unfold dtx_bind. destruct (m c) as [[a|e] c1] eqn:E; apply Hm in E as [F L]; try done.
  - intros Hr. apply Hk in Hr as [F2 L2]; [|done]. split; [congruence|done].
  - intros Hr. by injection Hr as _ <-.
Qed.

Lemma frozen_guard b e : Frozen (dtx_guard b e).
Proof. unfold dtx_guard. destruct b; [apply frozen_ret|apply frozen_fail]. Qed.

Lemma frozen_of_option {A} (o : option A) e : Frozen (dtx_of_option o e).
Proof. unfold dtx_of_option. destruct o; [apply frozen_ret|apply frozen_fail]. Qed.

Lemma frozen_now : Frozen dtx_now.
Proof. intros c r c' Hl Hr. by injection Hr as _ <-. Qed.

Lemma frozen_rand n : Frozen (dtx_rand n).
Proof. intros c r c' Hl. unfold dtx_rand. destruct (db_entropy _ _); intros Hr; by injection Hr as _ <-. Qed.

Lemma frozen_query {A} (f : ProjectDB -> option A) : Frozen (dtx_query f).
Proof.
  intros c r c' Hl Hr. split; [by eapply query_same|]. revert Hr. unfold dtx_query, dtx_statement.
  destruct (db_statement_fails _); [intros Hr; by injection Hr as _ <-|].
  destruct (f (file c)); intros Hr; by injection Hr as _ <-.
Qed.

Lemma frozen_rows {A} (f : ProjectDB -> option (list A)) : Frozen (dtx_rows f).
Proof.
  intros c r c' Hl. unfold dtx_rows. destruct (dtx_query f c) as [[l|e] c1] eqn:E; apply frozen_query in E; try done;
    intros Hr; by injection Hr as _ <-.
Qed.

Lemma frozen_rows_unchecked {A} (f : ProjectDB -> option (list A)) : Frozen (dtx_rows_unchecked f).
Proof.
  intros c r c' Hl. unfold dtx_rows_unchecked. destruct (dtx_rows f c) as [[l|e] c1] eqn:E; apply frozen_rows in E;
    try done; intros Hr; by injection Hr as _ <-.
Qed.

Lemma frozen_catch {A} (m : DbTx A) : Frozen m -> Frozen (dtx_catch m).
Proof.
  intros Hm c r c' Hl. unfold dtx_catch. destruct (m c) as [r0 c1] eqn:E. intros Hr. injection Hr as _ <-.
  by apply Hm in E.
Qed.

Lemma frozen_exec f : Frozen (dtx_exec f).
Proof. intros c r c' Hl. unfold dtx_exec. rewrite Hl. intros Hr. by injection Hr as _ <-. Qed.

Lemma frozen_affected f : Frozen (dtx_affected f).
Proof. intros c r c' Hl. unfold dtx_affected. rewrite Hl. intros Hr. by injection Hr as _ <-. Qed.

Lemma frozen_run_tx {A} failed (body : DbTx (TxEnd A)) : Frozen body -> Frozen (run_tx failed body).
Proof.
  intros Hb c r c' Hl. unfold run_tx. destruct (db_statement_fails _); [intros Hr; by injection Hr as _ <-|].
  destruct (body (statement_run c)) as [[[a|a|e w]|e] c1] eqn:E; apply Hb in E as [F L]; try done.
  - destruct (db_commit _); intros Hr; injection Hr as _ <-; done.
  - intros Hr. by injection Hr as _ <-.
  - intros Hr. injection Hr as _ <-. cbn. by rewrite L.
  - intros Hr. by injection Hr as _ <-.
Qed.

End frozen.

Ltac frozen_step :=
  match goal with
  | |- Frozen (dtx_bind _ _) => apply frozen_bind; [|intros]
  | |- Frozen (in_tx _) => apply frozen_run_tx, frozen_bind; [|intros; apply frozen_ret]
  | |- Frozen (run_tx _ _) => apply frozen_run_tx
  | |- Frozen (dtx_catch _) => apply frozen_catch
  | |- Frozen (dtx_ret _) => apply frozen_ret
  | |- Frozen (dtx_fail _) => apply frozen_fail
  | |- Frozen (dtx_guard _ _) => apply frozen_guard
  | |- Frozen (dtx_of_option _ _) => apply frozen_of_option
  | |- Frozen dtx_now => apply frozen_now
  | |- Frozen (dtx_rand _) => apply frozen_rand
  | |- Frozen (dtx_query _) => apply frozen_query
  | |- Frozen (dtx_rows _) => apply frozen_rows
  | |- Frozen (dtx_rows_unchecked _) => apply frozen_rows_unchecked
  | |- Frozen (dtx_exec _) => apply frozen_exec
  | |- Frozen (dtx_affected _) => apply frozen_affected
  | |- Frozen (newID _) => unfold newID
  | |- Frozen captureTimestamp => unfold captureTimestamp
  | |- Frozen nowTimestamp => unfold nowTimestamp
  | |- Frozen (appendAuditEventTx _) => unfold appendAuditEventTx
  | |- Frozen (appendApprovalCheckpointTx _ _ _ _ _) => unfold appendApprovalCheckpointTx
  | |- Frozen (appendApprovalCheckpointForUserTx _ _ _ _ _ _) => unfold appendApprovalCheckpointForUserTx
  | |- Frozen (match ?x with _ => _ end) => destruct x
  | |- Frozen (fun c => dtx_exec _ c) => intros ? ? ? ?; apply frozen_exec
  | |- Frozen _ => assumption
  end.

Ltac frozen := repeat frozen_step.

(** ** Loops *)

Section loops.
Context `{DbEnv}.

Lemma frozen_insert_seeds pid l : Frozen (insert_seeds pid l).
Proof. induction l; cbn [insert_seeds]; frozen. Qed.

Lemma frozen_audit_deactivated l : Frozen (audit_deactivated l).
Proof. induction l; cbn [audit_deactivated]; unfold getScenarioTx; frozen. Qed.

Lemma frozen_check_definitions l : Frozen (check_definitions l).
Proof. induction l; cbn [check_definitions]; frozen. Qed.

Lemma frozen_read_all l pid : Frozen (read_all l pid).
Proof. induction l; cbn [read_all]; unfold readWBSRecord, getChartTx, dtx_of_wbs; frozen. Qed.

Lemma frozen_ensureDefaultColumns id : Frozen (ensureDefaultColumns id).
Proof. unfold ensureDefaultColumns. induction (DefaultColumns id); cbn [seed_columns]; frozen. Qed.

End loops.

#[export] Hint Resolve frozen_insert_seeds frozen_audit_deactivated frozen_check_definitions
  frozen_read_all frozen_ensureDefaultColumns : frozen.

Lemma project_op_frozen `{DbEnv} T A (m : DbTx A) : project_op T A m -> Frozen m.
Proof.
  intros []; unfold AppendAuditEvent, LogAction, SaveChart, DeleteChart, OpenWBSStore, Save,
    UpsertProject, SaveDocument, DeleteDocument, SaveBaseline, DeleteBaseline, SaveScenario, DeleteScenario,
    BranchScenarioChart, SaveScenarioChart, PromoteScenarioChartToBaseline, ListCostTypes, EnsureCostTypes,
    SaveCostEntry, SaveCostReserve, ApproveCostBaseline, SaveCostEntryAttachment, EnsureDefaultBoard,
    EnsureDefaultBoard_fuel, ensure_board, SaveColumn, DeleteColumn, SaveWorkItem, GetWorkItem, DeleteWorkItem,
    MoveWorkItem, SaveSprint, GetSprint, DeleteSprint, SaveDeployment, DeleteDeployment, SaveStakeholder,
    DeleteStakeholder, requireOneRow, GetScenario, GetChart,
    GetBaseline, source_baseline, checkCopy, protectedWBSChartTx, getProjectByIDTx, getDocumentTx,
    listActiveScenariosExceptTx, getScenarioChartTx, saveBaselineTx, advance, current_scope, write_scope,
    readWBSRecord, getChartTx, dtx_of_wbs, getBaselineTx, GetBaseline, getScenarioTx, dtx_of_money, dtx_of_result;
    frozen; auto with frozen.
  unfold getBaselineTx. frozen.
Qed.

(** Any operation, with what it touches and returns, and its run. *)
Definition any_op `{DbEnv} : Type := { T & { A & { m : DbTx A | project_op T A m } } }.

Definition run_op `{DbEnv} (c : Session) (op : any_op) : Session :=
  (proj1_sig (projT2 (projT2 op)) c).2.

(** Once a transaction of the session has been left open with the lock, whatever
    the operations after it report, the file stays as it is. *)
Lemma locked_forever `{DbEnv} (l : list any_op) c :
  write_locked c = true -> file (foldl run_op c l) = file c.
Proof.
  revert c. induction l as [|op l IH]; intros c Hl; [done|]. cbn [foldl].
  destruct op as (T & A & m & Hop). unfold run_op at 2. cbn [projT2 proj1_sig].
  destruct (m c) as [r c1] eqn:E. apply (project_op_frozen _ _ _ Hop) in E as [F L]; [|done]. cbn [snd].
  by rewrite IH.
Qed.

(** ** Who takes the lock

    Nothing inside a transaction takes or gives back the lock; only ending one with
    [Leave] does. *)

Section quiet.
Context `{DbEnv}.

Definition Quiet {A} (m : DbTx A) : Prop := forall c r c', m c = (r, c') -> write_locked c' = write_locked c.

Lemma quiet_bind {A B} (m : DbTx A) (k : A -> DbTx B) :
  Quiet m -> (forall a, Quiet (k a)) -> Quiet (dtx_bind m k).
Proof.
  intros Hm Hk c r c'. unfold dtx_bind. destruct (m c) as [[a|e] c1] eqn:E; apply Hm in E.
  - intros Hr. apply Hk in Hr. congruence.
  - intros Hr. by injection Hr as _ <-.
Qed.

Lemma quiet_ret {A} (a : A) : Quiet (dtx_ret a).
Proof. intros c r c' Hr. by injection Hr as _ <-. Qed.

Lemma quiet_fail {A} e : Quiet (@dtx_fail A e).
Proof. intros c r c' Hr. by injection Hr as _ <-. Qed.

Lemma quiet_now : Quiet dtx_now.
Proof. intros c r c' Hr. by injection Hr as _ <-. Qed.

Lemma quiet_rand n : Quiet (dtx_rand n).
Proof. intros c r c'. unfold dtx_rand. destruct (db_entropy _ _); intros Hr; by injection Hr as _ <-. Qed.

Lemma quiet_statement {A} (f : ProjectDB -> option (A * ProjectDB)) : Quiet (dtx_statement f).
Proof.
  intros c r c'. unfold dtx_statement. destruct (db_statement_fails _); [intros Hr; by injection Hr as _ <-|].
  destruct (f (file c)) as [[a d]|]; intros Hr; by injection Hr as _ <-.
Qed.

Lemma quiet_exec f : Quiet (dtx_exec f).
Proof.
  intros c r c'. unfold dtx_exec. destruct (write_locked c) eqn:L; [|rewrite <- L; apply quiet_statement].
  intros Hr. by injection Hr as _ <-.
Qed.

Lemma quiet_rows {A} (f : ProjectDB -> option (list A)) : Quiet (dtx_rows f).
Proof.
  intros c r c'. unfold dtx_rows. destruct (dtx_query f c) as [[l|e] c1] eqn:E; apply quiet_statement in E;
    intros Hr; by injection Hr as _ <-.
Qed.

Lemma quiet_catch {A} (m : DbTx A) : Quiet m -> Quiet (dtx_catch m).
Proof.
  intros Hm c r c'. unfold dtx_catch. destruct (m c) as [r0 c1] eqn:E. intros Hr. injection Hr as _ <-.
  by apply Hm in E.
Qed.

Lemma quiet_guard b e : Quiet (dtx_guard b e).
Proof. unfold dtx_guard. destruct b; [apply quiet_ret|apply quiet_fail]. Qed.

Lemma quiet_of_option {A} (o : option A) e : Quiet (dtx_of_option o e).
Proof. unfold dtx_of_option. destruct o; [apply quiet_ret|apply quiet_fail]. Qed.

(** A transaction takes the lock only by being left open after writing. *)
Lemma run_tx_lock {A} failed (body : DbTx (TxEnd A)) c r c' : Quiet body ->
  run_tx failed body c = (r, c') -> write_locked c = false -> write_locked c' = true ->
  is_ok r = false /\ file c' = file c /\ exists e c1, body (statement_run c) = (Ok (Leave e true), c1).
Proof.
  intros Hq Hr Hl Hl'. unfold run_tx in Hr. destruct (db_statement_fails _); [injection Hr as _ <-; cbn in Hl'; congruence|].
  destruct (body (statement_run c)) as [[[a|a|e w]|e] c1] eqn:E; apply Hq in E as L; cbn in L; rewrite Hl in L;
    try (destruct (db_commit _)); injection Hr as <- <-; cbn in Hl'; try congruence.
  rewrite L in Hl'. cbn in Hl'. subst w. split_and!; [done..|]. by exists e, c1.
Qed.

End quiet.

Ltac quiet_step :=
  match goal with
  | |- Quiet (dtx_bind _ _) => apply quiet_bind; [|intros]
  | |- Quiet (dtx_catch _) => apply quiet_catch
  | |- Quiet (dtx_ret _) => apply quiet_ret
  | |- Quiet (dtx_fail _) => apply quiet_fail
  | |- Quiet (dtx_guard _ _) => apply quiet_guard
  | |- Quiet (dtx_of_option _ _) => apply quiet_of_option
  | |- Quiet dtx_now => apply quiet_now
  | |- Quiet (dtx_rand _) => apply quiet_rand
  | |- Quiet (dtx_query _) => apply quiet_statement
  | |- Quiet (dtx_rows _) => apply quiet_rows
  | |- Quiet (dtx_exec _) => apply quiet_exec
  | |- Quiet (newID _) => unfold newID
  | |- Quiet captureTimestamp => unfold captureTimestamp
  | |- Quiet nowTimestamp => unfold nowTimestamp
  | |- Quiet (appendAuditEventTx _) => unfold appendAuditEventTx
  | |- Quiet (match ?x with _ => _ end) => destruct x
  | |- Quiet (fun c => dtx_exec _ c) => intros ? ? ?; apply quiet_exec
  | |- Quiet _ => assumption
  end.

Ltac quiet := repeat quiet_step.

Lemma quiet_audit_deactivated `{DbEnv} l : Quiet (audit_deactivated l).
Proof. induction l; cbn [audit_deactivated]; unfold getScenarioTx; quiet. Qed.

Lemma quiet_id_or_new `{DbEnv} given prefix : Quiet (id_or_new given prefix).
Proof. unfold id_or_new. quiet. Qed.

(** Saving a scenario takes it only after the save of an active scenario has
    deactivated others. *)
Lemma SaveScenario_lock_effect `{DbEnv} s c r c' :
  SaveScenario s c = (r, c') -> write_locked c = false -> write_locked c' = true ->
  is_ok r = false /\ file c' = file c /\ sc_IsActive s = true
  /\ exists id, filter (active_except (sc_ProjectID s) id) (scenarios (plans (file c))) <> ∅.
Proof.
  unfold SaveScenario. intros Hr Hl Hl'. unfold dtx_bind at 1, dtx_guard at 1 in Hr.
  destruct (negb _); [cbn [dtx_ret] in Hr|injection Hr as _ <-; congruence].
  unfold dtx_bind at 1, dtx_guard at 1 in Hr.
  destruct (negb _); [cbn [dtx_ret] in Hr|injection Hr as _ <-; congruence].
  change (if String.eqb (sc_ID s) "" then newID "scn" else dtx_ret (sc_ID s))
    with (id_or_new (sc_ID s) "scn") in Hr. unfold dtx_bind at 1 in Hr.
  destruct (id_or_new (sc_ID s) "scn" c) as [[id|e] c1] eqn:Hid; pose proof (quiet_id_or_new _ _ _ _ _ Hid) as L;
    apply id_or_new_effect in Hid as [F1 _]; [|injection Hr as _ <-; congruence].
  unfold dtx_bind at 1 in Hr. cbn [captureTimestamp dtx_now dtx_bind dtx_ret] in Hr.
  set (now := (timestampLayout _, _)) in Hr. set (c2 := mkSession _ _ _ _ _ _) in Hr.
  apply run_tx_lock in Hr as (Hok & F & e & c3 & Hb); [|unfold getScenarioTx, listActiveScenariosExceptTx; quiet;
    apply quiet_audit_deactivated|cbn; congruence|exact Hl'].
  split; [exact Hok|]. split; [by rewrite F|].
  apply dtx_bind_Ok in Hb as (found & c4 & [F4 _]%getScenarioTx_catch & Hb).
  apply dtx_bind_Ok in Hb as (before & c5 & Hbef & Hb).
  assert (F5 : file c5 = file c).
  { transitivity (file c4); [|by rewrite F4]. destruct found as [b|[]]; try done; by injection Hbef as _ <-. }
  apply dtx_bind_Ok in Hb as (l & c6 & Hla & Hb).
  apply dtx_bind_Ok in Hb as (u & c7 & _ & Hb). apply dtx_bind_Ok in Hb as (after & c8 & _ & Hb).
  apply dtx_bind_Ok in Hb as (audited & c9 & Hau & Hb).
  assert (Hne : l <> []).
  { intros ->. injection Hau as <- _. apply dtx_bind_Ok in Hb as (? & ? & _ & Hb). by injection Hb. }
  destruct (sc_IsActive s); [|by injection Hla as <- _]. split; [done|]. exists id. intros Hf.
  apply dtx_bind_Ok in Hla as (l1 & c10 & [_ Hl1]%listActive_Ok & Hla).
  apply dtx_bind_Ok in Hla as (u2 & c11 & _ & Hla). injection Hla as -> _.
  rewrite F5, Hf, map_to_list_empty in Hl1. by apply Permutation_nil_r in Hl1.
Qed.
