(* ===== verification/ProjectMachine.v ===== *)
(** * Histories of a project file

    The step relation of the modelled operations on a project file, under any
    environment, and what holds in every file it reaches: the audit chains, the
    charts and the stored scopes.  Invariants of other tables are in the files of
    their components. *)

From S2P Require Import Prelude GoStrings GoTime GoJson GoJsonV2 Wbs WbsTheorems WbsRoundTrip ProjectDb AuditChain AuditTheorems Charts ChartsTheorems Projects ProjectKeeps PlanTheorems WbsStore WbsStoreTheorems WbsInvariant ProjectFrames.

Local Open Scope Z_scope.

(** ** Opening the store *)

(** The store that is opened, on a file that has the tables or gets them. *)
Definition opened (b : WBSBinding) (d d' : ProjectDB) (s : WBSStore) : Prop :=
  exists copyID,
    s = mkStore b copyID false /\ wbsIdentifier copyID = true
    /\ sql_copy d' = Some (copyID, b_ProjectID b) /\ first_project d' = Some (b_ProjectID b)
    /\ (d' = d
        \/ wbs_charts d = 0%nat
           /\ exists d1, sql_create_wbs d = Some d1 /\ sql_insert_copy copyID (b_ProjectID b) d1 = Some d').

Section opening.
Context `{DbEnv}.

Lemma check_definitions_Ok l c u c' : check_definitions l c = (Ok u, c') -> file c' = file c.
Proof.
  revert c. induction l as [|x l IH]; intros c; [intros Hr; by injection Hr as _ <-|].
  intros (a & c1 & [_ F]%dtx_query_Ok & Hr)%dtx_bind_Ok.
  apply dtx_bind_Ok in Hr as (v & c2 & [_ ->]%dtx_guard_Ok & Hr). by rewrite (IH c1 Hr).
Qed.

Lemma read_all_Ok l pid c u c' : read_all l pid c = (Ok u, c') -> file c' = file c.
Proof.
  revert c. induction l as [|x l IH]; intros c; [intros Hr; by injection Hr as _ <-|].
  intros ([ch rev] & c1 & [F _]%readWBSRecord_Ok & Hr)%dtx_bind_Ok. by rewrite (IH c1 Hr).
Qed.

Lemma OpenWBSStore_effect b c res c' : OpenWBSStore b c = (res, c') ->
  (exists s, opened b (file c) (file c') s /\ (res = Ok s \/ res = Err ErrWBSIndeterminate))
  \/ (is_ok res = false /\ file c' = file c).
Proof.
  unfold OpenWBSStore. destruct (negb _); [intros Hr; injection Hr as <- <-; by right|].
  assert (Hret : forall (s : WBSStore) c0 c1 s', dtx_ret (Commit s) c0 = (Ok (Return s'), c1) -> False)
    by (intros ???? Hr; by injection Hr).
  intros [(s & c0 & c1 & F0 & Hb & F & Hr)|[(s & c0 & c1 & F0 & Hb & F & Hr)|Hf]]%run_tx_effect; [|exfalso|by right].
  - left. exists s. split; [|done].
    apply dtx_bind_Ok in Hb as (m & c2 & F2%lock_project_same & Hb).
    apply dtx_bind_Ok in Hb as (u1 & c3 & [_ ->]%dtx_guard_Ok & Hb).
    apply dtx_bind_Ok in Hb as (count & c3 & [Hcount F3]%dtx_query_Ok & Hb).
    apply dtx_bind_Ok in Hb as (u2 & c4 & [_ ->]%dtx_guard_Ok & Hb).
    apply dtx_bind_Ok in Hb as (u3 & c5 & Hcreate & Hb).
    apply dtx_bind_Ok in Hb as (u4 & c6 & F6%check_definitions_Ok & Hb).
    apply dtx_bind_Ok in Hb as (copy & c7 & [Hcopy F7]%dtx_query_Ok & Hb).
    apply dtx_bind_Ok in Hb as (ap & c8 & [Hap F8]%dtx_query_Ok & Hb).
    apply dtx_bind_Ok in Hb as (u5 & c9 & [Hg ->]%dtx_guard_Ok & Hb).
    apply dtx_bind_Ok in Hb as (ids & c10 & (l0 & _ & _ & F10)%dtx_rows_Ok & Hb).
    apply dtx_bind_Ok in Hb as (u6 & c11 & F11%read_all_Ok & Hb). injection Hb as <- <-.
    apply andb_prop in Hg as [[Hid Hp%String.eqb_eq]%andb_prop Ha%String.eqb_eq].
    destruct copy as [copyID pid]. cbn [fst snd] in *. subst pid ap. exists copyID.
    assert (E' : file c' = file c6) by congruence. rewrite E', F7 in *.
    split_and!; [done|done|done|done|]. assert (F3' : file c3 = file c) by congruence.
    destruct (count =? 0)%nat; [right|left; injection Hcreate as _ <-; congruence].
    apply dtx_bind_Ok in Hcreate as (pr & c12 & [Hpr F12]%dtx_query_Ok & Hcreate).
    apply dtx_bind_Ok in Hcreate as (v1 & c13 & [Hz%Nat.eqb_eq ->]%dtx_guard_Ok & Hcreate).
    apply dtx_bind_Ok in Hcreate as (v2 & c14 & Hc%dtx_exec_Ok & Hcreate).
    apply dtx_bind_Ok in Hcreate as (en & c15 & F15%dtx_rand_Ok & Hins%dtx_exec_Ok).
    injection Hpr as Hpr. rewrite F12, F3' in Hc. rewrite F15 in Hins. rewrite F3' in Hpr.
    split; [congruence|]. exists (file c14). split; [done|]. rewrite F6 in *.
    unfold sql_insert_copy in *. destruct (wbs_copy (file c14)) as [[sql rows]|] eqn:E; [|done].
    destruct rows; [done|]. injection Hins as Hins. rewrite <- Hins in Hcopy. cbn in Hcopy.
    injection Hcopy as <-. by rewrite Hins.
  - do 11 (apply dtx_bind_Ok in Hb as (? & ? & _ & Hb)). by eapply Hret.
Qed.

End opening.

Lemma opened_ok b d d' s : file_ok d -> opened b d d' s -> file_ok d' /\ evolves d d'.
Proof.
  intros [Hch Hst] (copyID & _ & Hid & Hcopy & _ & [->|(Hnone & d1 & Hcreate & Hins)]);
    [split; [done|by apply evolves_refl]|].
  unfold sql_create_wbs in Hcreate. destruct definitions as [|x [|y [|z [|]]]] eqn:Edef; try done.
  destruct (wbs_copy d) eqn:E1, (wbs_records d) eqn:E2, (wbs_receipts d) eqn:E3; try done.
  injection Hcreate as <-. injection Hins as <-. unfold store_ok in Hst. rewrite E1, E2, E3 in Hst.
  split; [split|split].
  - exact Hch.
  - exists copyID, (b_ProjectID b). split.
    + symmetry. exact Edef.
    + reflexivity.
    + exact Hid.
    + intros id t Ht Hk. by destruct (Hst id t Ht).
    + intros id rev Hr. cbn [table_rows] in Hr. by rewrite lookup_empty in Hr.
    + intros id q rr Hr. cbn [table_rows] in Hr. by rewrite lookup_empty in Hr.
  - by right.
  - intros p Hp. unfold sql_copy in Hp. by rewrite E1 in Hp.
  - intros id rev n Hr. unfold records_of in Hr. by rewrite E2 in Hr.
  - intros id q rr k rev' n' Hq. unfold receipts_of in Hq. by rewrite E3 in Hq.
Qed.

(** ** Histories *)

(** A file gets one project, by the first operation that writes its row. *)
Definition one_project (d d' : ProjectDB) : Prop := projects d = [] \/ projects d' = projects d.

(** One operation, under any environment. *)
Inductive project_step : ProjectDB -> ProjectDB -> Prop :=
| step_op (E : DbEnv) T A (m : DbTx A) c r c' :
    project_op T A m -> m c = (r, c') -> one_project (file c) (file c') ->
    project_step (file c) (file c').

Lemma step_other (E : DbEnv) T A (m : DbTx A) c r c' :
  project_op T A m -> TProject ∉ T -> m c = (r, c') -> project_step (file c) (file c').
Proof.
  intros Hop Hn Hr. eapply step_op; [exact Hop|exact Hr|]. right.
  apply project_op_touches in Hop. unfold projects. by rewrite (touches_project _ _ _ (Hop _ _ _ Hr) Hn).
Qed.

(** A file after its migration, before any operation. *)
Definition reachable (d : ProjectDB) : Prop := rtc project_step empty_project d.

Lemma empty_project_ok : file_ok empty_project.
Proof. split; intros id t Ht; cbn [empty_project charts] in Ht; by rewrite lookup_empty in Ht. Qed.

(** ** The scopes *)

Lemma upserted_ok p d d' after : one_project d d' -> project_saved p d d' after -> file_ok d ->
  file_ok d' /\ evolves d d'.
Proof.
  intros Hone (id & currency & text & now & d1 & i & e & _ & _ & _ & Hup & _ & _ & _ & He) [Hch Hst].
  pose proof (sql_upsert_ids _ _ _ _ Hup) as Hids. destruct (sql_upsert_rest _ _ _ _ Hup) as [l Ed1].
  pose proof He as (_ & Hpr & E2 & E3 & E4 & E5)%appends_same. rewrite Ed1 in E2, E3, E4, E5. cbn in E2, E3, E4, E5.
  split; [split|split].
  - intros id' t Ht. rewrite E2 in Ht. destruct (Hch id' t Ht) as [H1 H2]. split; [done|].
    rewrite Hpr, Hids. case_bool_decide; [done|]. apply elem_of_app. by left.
  - eapply same_scopes_ok; [|exact Hst]. by apply same_scopes_refl.
  - exact Hone.
  - intros x. unfold sql_copy. by rewrite E3.
  - intros id' rev n Hr Hn. exists rev, n. unfold records_of in *. rewrite E4, E2. split_and!; done || lia.
  - intros id' q rr k rev' n' Hq _ _ _ _. unfold receipts_of in *. by rewrite E5.
Qed.

Lemma untouched_ok T d d' : TProject ∉ T -> TCharts ∉ T -> TWbs ∉ T -> touches T d d' -> file_ok d ->
  file_ok d' /\ evolves d d'.
Proof.
  intros H1 H2 H3 Ht Hok. destruct (touches_wbs _ _ _ Ht H3) as (E1 & E2 & E3).
  apply file_ok_same; try done; [|by apply Ht]. unfold projects. by rewrite (touches_project _ _ _ Ht H1).
Qed.

Lemma project_step_ok d d' : project_step d d' -> file_ok d -> file_ok d' /\ evolves d d'.
Proof.
  intros [E T A m c r c' Hop Hr Hone] Hok.
  assert (Hsame : file_ok (file c) /\ evolves (file c) (file c)) by (split; [exact Hok|apply evolves_refl, Hok]).
  pose proof (project_op_touches _ _ _ Hop _ _ _ Hr) as Ht.
  destruct Hop; try (refine (untouched_ok _ _ _ _ _ _ Ht Hok); by_decide).
  - apply SaveChart_effect in Hr as [(after & Hs & _)|[_ ->]]; [|done]. by eapply chart_saved_ok.
  - apply DeleteChart_effect in Hr as [[Hs _]|[-> _]]; [|done]. by eapply chart_deleted_ok.
  - apply OpenWBSStore_effect in Hr as [(s & Hs & _)|[_ ->]]; [|done]. by eapply opened_ok.
  - apply Save_effect in Hr as [(rc & Hs & _)|[(rc & _ & _ & ->)|[_ ->]]]; [|done..]. by eapply advanced_ok.
  - apply UpsertProject_effect in Hr as [(after & Hs & _)|[_ ->]]; [|done]. by eapply upserted_ok.
Qed.

Lemma project_steps_ok d d' : rtc project_step d d' -> file_ok d -> file_ok d' /\ evolves d d'.
Proof.
  induction 1 as [d|d d1 d2 Hst _ IH]; intros Hok; [split; [done|apply evolves_refl, Hok]|].
  destruct (project_step_ok _ _ Hst Hok) as [Hok1 He1]. destruct (IH Hok1) as [Hok2 He2]. split; [done|].
  eapply evolves_trans; [apply Hok|done|done].
Qed.

Lemma reachable_ok d : reachable d -> file_ok d.
Proof. intros H. by destruct (project_steps_ok _ _ H empty_project_ok). Qed.

(** ** The audit chains *)

Lemma project_step_events d d' : project_step d d' -> events_extend d d'.
Proof. intros [E T A m c r c' Hop Hr _]. by eapply touches_events, project_op_touches. Qed.

Lemma project_steps_events d d' : rtc project_step d d' -> events_extend d d'.
Proof.
  induction 1 as [d|d d1 d2 Hst _ IH]; [done|]. etrans; [by apply project_step_events|exact IH].
Qed.

(** ** Invariants of a few tables

    What holds of an empty file and is kept by the operations that touch the tables
    it is about holds of every reachable file. *)
Lemma reachable_invariant (P : ProjectDB -> Prop) :
  P empty_project -> (forall d d', project_step d d' -> P d -> P d') -> forall d, reachable d -> P d.
Proof.
  intros H0 Hs d Hd. assert (H : forall d1, rtc project_step d1 d -> P d1 -> P d); [|by apply (H empty_project)].
  clear Hd. induction 1 as [d2|d2 d3 d4 Hst _ IH]; [done|]. intros HP. by apply IH, (Hs d2).
Qed.
