(* ===== verification/WbsHistory.v ===== *)
(** * What the store of the work breakdown structure promises

    In every reachable project file: saving advances a scope by one revision or
    changes nothing, no update is lost, a retried request is harmless, the store
    reopens, and other writers cannot touch a scope; with a concrete history. *)

From S2P Require Import Prelude GoFloat GoStrings GoTime GoJson GoJsonV2 Wbs WbsTheorems WbsRoundTrip ProjectDb AuditChain AuditTheorems AuditHistory Charts ChartsTheorems Projects ProjectKeeps PlanTheorems WbsStore WbsStoreTheorems WbsInvariant ProjectFrames ProjectMachine.

Local Open Scope Z_scope.

(** ** Runs without faults *)

(** No statement and no commit fails. *)
Class Faultless `(E : DbEnv) : Prop := {
  statements_succeed k : @db_statement_fails E k = false;
  commits_succeed k : @db_commit E k = Committed
}.

(** A session on the file [d] while no other transaction holds the lock on writing. *)
Definition free_on (d : ProjectDB) (c : Session) : Prop := file c = d /\ write_locked c = false.

(** A computation that gives [a] on the file [d], while the lock on writing is free, and
    leaves both as they are. *)
Definition reads `{DbEnv} {A} (m : DbTx A) (d : ProjectDB) (a : A) : Prop :=
  forall c, free_on d c -> exists c', m c = (Ok a, c') /\ free_on d c'.

Section faultless.
Context `{E : DbEnv, !Faultless E}.

Lemma reads_bind {A B} (m : DbTx A) (k : A -> DbTx B) d a b :
  reads m d a -> reads (k a) d b -> reads (dtx_bind m k) d b.
Proof.
  intros Hm Hk c Hc. destruct (Hm c Hc) as (c1 & E1 & F1). destruct (Hk c1 F1) as (c2 & E2 & F2).
  exists c2. unfold dtx_bind. by rewrite E1.
Qed.

Lemma reads_ret {A} (a : A) d : reads (dtx_ret a) d a.
Proof. intros c Hc. by exists c. Qed.

Lemma reads_guard b e d : b = true -> reads (dtx_guard b e) d ().
Proof. intros ->. apply reads_ret. Qed.

Lemma reads_wbs {A} (x : result WbsError A) a d : x = Ok a -> reads (dtx_of_wbs x) d a.
Proof. intros ->. apply reads_ret. Qed.

Lemma reads_query {A} (f : ProjectDB -> option A) d a : f d = Some a -> reads (dtx_query f) d a.
Proof.
  intros Hf c [Hc Hl]. unfold dtx_query, dtx_statement. rewrite statements_succeed, Hc, Hf. by eexists.
Qed.

Lemma reads_lock (f : ProjectDB -> option (nat * ProjectDB)) d n : f d = Some (n, d) -> reads (dtx_affected f) d n.
Proof.
  intros Hf c [Hc Hl]. unfold dtx_affected, dtx_statement. rewrite Hl, statements_succeed, Hc, Hf. by eexists.
Qed.

Lemma reads_run_tx {A} failed (body : DbTx (TxEnd A)) d a :
  reads body d (Return a) \/ reads body d (Commit a) -> reads (run_tx failed body) d a.
Proof.
  intros Hb c [Hc Hl]. unfold run_tx. rewrite statements_succeed.
  set (c0 := statement_run c). assert (F0 : free_on d c0) by done.
  destruct Hb as [Hb|Hb]; destruct (Hb c0 F0) as (c1 & -> & [F1 L1]); [by eexists|].
  rewrite commits_succeed. by eexists.
Qed.

Lemma reads_checkCopy s w d : own_copy s d -> reads (checkCopy s w) d ().
Proof.
  intros [Hc Hf]. unfold checkCopy. eapply (reads_bind _ _ _ ()).
  - destruct w; [|apply reads_ret]. eapply (reads_bind _ _ _ 1%nat); [|by apply reads_guard].
    apply reads_lock. unfold sql_lock_copy, is_copy. unfold sql_copy in Hc. destruct (wbs_copy d) as [t|]; [|done].
    cbn [mbind option_bind] in *. rewrite Hc. cbn [fst snd]. by rewrite !String.eqb_refl.
  - eapply reads_bind; [by apply reads_query|]. eapply reads_bind; [apply reads_guard; unfold is_copy; cbn [fst snd]; by rewrite !String.eqb_refl|].
    eapply reads_bind; [by apply reads_query|]. apply reads_guard. cbn [snd]. by rewrite String.eqb_refl.
Qed.

Lemma reads_record d pid id t rev : readable d pid id t rev -> reads (readWBSRecord id pid) d (row t, rev).
Proof.
  intros (Ht & Hp & Hk & Hr & a & Ha & Hra). unfold readWBSRecord, getChartTx.
  eapply reads_bind.
  { eapply reads_bind; [apply reads_query; unfold sql_chart; by rewrite Ht|]. cbn [fmap option_fmap option_map].
    apply reads_ret. }
  eapply reads_bind; [apply reads_guard; by rewrite Hp, Hk, !String.eqb_refl|].
  eapply reads_bind; [by apply reads_query|]. eapply reads_bind; [by apply reads_wbs|].
  eapply reads_bind; [apply reads_guard; rewrite Hra; apply String.eqb_refl|]. apply reads_ret.
Qed.

(** A retained receipt is replayed. *)
Lemma Save_replays s r parsed rr d : submitted s r parsed -> own_copy s d ->
  sql_receipt (w_ChartID r) (w_RequestID r) d = Some (Some rr) ->
  rr_fingerprint rr = request_fingerprint s r (Marshal (normalize parsed)) ->
  reads (Save s r) d (mkReceipt (w_RequestID r) (rr_revision rr) (rr_audit_id rr) true).
Proof.
  intros (Href & Hp & Hrev & Hcr) Hcopy Hrr Hfp. unfold Save. rewrite Href.
  eapply reads_bind; [by apply reads_wbs|]. eapply reads_bind.
  { apply reads_guard. rewrite Hrev, String.eqb_refl. destruct (w_Create r); [|done].
    cbn [negb orb andb]. by apply String.eqb_eq, Hcr. }
  cbv zeta. apply reads_run_tx. left.
  eapply reads_bind; [by apply reads_checkCopy|]. eapply reads_bind; [by apply reads_query|]. cbv beta iota.
  eapply reads_bind; [apply reads_guard; by apply String.eqb_eq|]. apply reads_ret.
Qed.

End faultless.

Section reopening.
Context `{E : DbEnv, !Faultless E}.

Lemma reads_rows_bind {A B} (f : ProjectDB -> option (list A)) (k : list A -> DbTx B) d l0 b :
  f d = Some l0 -> (forall l, l ≡ₚ l0 -> reads (k l) d b) -> reads (dtx_bind (dtx_rows f) k) d b.
Proof.
  intros Hf Hk c Hc. unfold dtx_bind, dtx_rows. destruct (reads_query f d l0 Hf c Hc) as (c1 & -> & F1).
  by apply Hk; [apply db_rows_perm|].
Qed.

Lemma reads_all l pid d : Forall (fun id => exists t rev, readable d pid id t rev) l -> reads (read_all l pid) d ().
Proof.
  induction 1 as [|id l (t & rev & Hr) _ IH]; [apply reads_ret|].
  cbn [read_all]. eapply reads_bind; [by eapply reads_record|exact IH].
Qed.

Lemma reads_definitions l d : Forall (fun x => sqlite_master (definition_name x) d = Some x) l ->
  reads (check_definitions l) d ().
Proof.
  induction 1 as [|x l Hx _ IH]; [apply reads_ret|]. cbn [check_definitions].
  eapply reads_bind; [by apply reads_query|]. eapply reads_bind; [apply reads_guard, String.eqb_refl|exact IH].
Qed.

Lemma open_tables d cp rc rp copyID pid : store_open d cp rc rp copyID pid ->
  wbs_copy d = Some cp -> wbs_records d = Some rc -> wbs_receipts d = Some rp ->
  wbs_tables d = 3%nat /\ Forall (fun x => sqlite_master (definition_name x) d = Some x) definitions.
Proof.
  intros Ho E1 E2 E3. pose proof (so_definitions _ _ _ _ _ _ Ho) as Hd. pose proof definitions_read as Hn.
  rewrite <- Hd in *. cbn [fmap list_fmap] in Hn. injection Hn as N1 N2 N3.
  split.
  - unfold wbs_tables. rewrite !filter_cons_True; [done|..];
      unfold sqlite_master; cbn [String.eqb Ascii.eqb Bool.eqb]; rewrite ?E1, ?E2, ?E3; by eexists.
  - repeat apply Forall_cons_2; [rewrite N1|rewrite N2|rewrite N3|constructor];
      unfold sqlite_master; cbn [String.eqb Ascii.eqb Bool.eqb]; by rewrite ?E1, ?E2, ?E3.
Qed.

Lemma scopes_readable d cp rc rp copyID pid ids : store_open d cp rc rp copyID pid ->
  wbs_records d = Some rc -> sql_scope_ids d = Some ids ->
  Forall (fun id => exists t rev, readable d pid id t rev) ids.
Proof.
  intros Ho E2 Hids. unfold sql_scope_ids in Hids. rewrite E2 in Hids. cbn [mbind option_bind] in Hids.
  injection Hids as <-. apply Forall_forall. intros id Hid. rewrite elem_of_elements, elem_of_union, !elem_of_dom in Hid.
  assert (Hrec : is_Some (table_rows rc !! id)).
  { destruct Hid as [[t [Ht Hk]%map_lookup_filter_Some]|]; [|done]. by eapply so_charts. }
  destruct Hrec as [rev Hrev]. destruct (so_scopes _ _ _ _ _ _ Ho id rev Hrev) as (n & _ & _ & (t & Ht) & _).
  by exists t, rev.
Qed.

Lemma OpenWBSStore_reads b d copyID : file_ok d -> sql_copy d = Some (copyID, b_ProjectID b) ->
  first_project d = Some (b_ProjectID b) ->
  wbsIdentifier (b_ProjectID b) && wbsIdentifier (b_ActorID b) && wbsIdentifier (b_LifetimeID b) = true ->
  reads (OpenWBSStore b) d (mkStore b copyID false).
Proof.
  intros [_ Hst] Hcopy Hfirst Hb. unfold store_ok, sql_copy in *.
  destruct (wbs_copy d) as [cp|] eqn:E1, (wbs_records d) as [rc|] eqn:E2, (wbs_receipts d) as [rp|] eqn:E3; try done.
  destruct Hst as (copyID' & pid & Ho). pose proof (so_copy _ _ _ _ _ _ Ho) as Hc. cbn [mbind option_bind] in Hcopy.
  rewrite Hcopy in Hc. injection Hc as <- <-. destruct (open_tables _ _ _ _ _ _ Ho E1 E2 E3) as [Htables Hdefs].
  unfold OpenWBSStore. rewrite Hb. cbn [negb]. apply reads_run_tx. right.
  eapply (reads_bind _ _ _ 1%nat).
  { apply reads_lock. unfold sql_lock_project. rewrite bool_decide_eq_true_2; [done|]. unfold first_project in Hfirst.
    destruct (projects d) as [|x l]; [done|]. injection Hfirst as ->. by left. }
  eapply reads_bind; [by apply reads_guard|].
  eapply reads_bind; [by apply reads_query|]. rewrite Htables. eapply reads_bind; [by apply reads_guard|].
  cbn [Nat.eqb]. eapply reads_bind; [apply reads_ret|]. eapply reads_bind; [by apply reads_definitions|].
  eapply reads_bind; [apply reads_query; unfold sql_copy; by rewrite E1|].
  eapply reads_bind; [by apply reads_query|]. cbn [fst snd].
  eapply reads_bind.
  { apply reads_guard. rewrite (so_copyID _ _ _ _ _ _ Ho). by rewrite !String.eqb_refl. }
  destruct (sql_scope_ids d) as [ids|] eqn:Eids; [|unfold sql_scope_ids in Eids; by rewrite E2 in Eids].
  eapply reads_rows_bind; [done|]. intros l Hl.
  eapply reads_bind; [|apply reads_ret]. apply reads_all. rewrite Hl. by eapply scopes_readable.
Qed.

End reopening.

(** ** A concrete history

    Alice gives a new file its project, opens the store, creates a scope and updates it; the
    second update's commit is uncertain but durable. *)

Definition alice : WBSBinding := mkBinding "p1" "alice" "life".

#[local] Instance calm : DbEnv := demo_env (fun _ => Committed).

#[local] Instance calm_faultless : Faultless calm.
Proof. by split. Qed.

Definition uncertain : DbEnv := demo_env (fun _ => CommitUncertain).

(** A migrated file that gets its project. *)
Definition demo_project (name : string) (minor : Z) (currency : string) : Project :=
  mkProject "p1" name "" "planning" "initiation" "" "" fzero minor currency "alice" "" "" "" "" "" "" "".

Definition fresh : Session := (UpsertProject (demo_project "House" 0 "usd") start).2.

Definition demo_copy : string := "01010101010101010101010101010101".
Definition demo_store : WBSStore := mkStore alice demo_copy false.

Definition demo_payload (rev title : string) : string :=
  Marshal (mkAggregate 2 rev (Some (mkNode (mkFields "w0" title "1" "" "" fzero "" (Some empty_dictionary)) [])) [] []).

Definition demo_write (req rev title : string) (create : bool) : WBSWrite :=
  mkWrite demo_copy "c1" "life" req rev create title (demo_payload rev title).

Definition after_open : Session := (OpenWBSStore alice fresh).2.
Definition after_create : Session := (Save demo_store (demo_write "q1" "0" "House" true) after_open).2.
Definition after_update : Session :=
  (@Save uncertain demo_store (demo_write "q2" "1" "Villa" false) after_create).2.

Lemma fresh_reachable : reachable (file fresh).
Proof.
  apply rtc_once.
  refine (step_op calm _ _ _ start _ fresh (op_upsert_project (demo_project "House" 0 "usd")) (surjective_pairing _) _).
  by left.
Qed.

Lemma after_open_reachable : reachable (file after_open).
Proof.
  unfold reachable. etrans; [exact fresh_reachable|]. apply rtc_once.
  refine (step_other calm _ _ _ fresh _ after_open (op_open alice) _ (surjective_pairing _)). by_decide.
Qed.

Lemma after_create_reachable : reachable (file after_create).
Proof.
  unfold reachable. etrans; [exact after_open_reachable|]. apply rtc_once.
  refine (step_other calm _ _ _ after_open _ after_create
            (op_save demo_store (demo_write "q1" "0" "House" true)) _ (surjective_pairing _)). by_decide.
Qed.

Lemma after_update_steps : rtc project_step (file after_create) (file after_update).
Proof.
  apply rtc_once.
  refine (step_other uncertain _ _ _ after_create _ after_update
            (op_save demo_store (demo_write "q2" "1" "Villa" false)) _ (surjective_pairing _)). by_decide.
Qed.

(** ** The properties *)

Lemma sql_write_scope_events s r data cur next text now d d1 :
  sql_write_scope s r data cur next text now d = Some d1 -> audit_events d1 = audit_events d.
Proof.
  unfold sql_write_scope, sql_insert_chart, sql_insert_record, sql_update_scope, sql_update_revision.
  intros Hw. repeat (case_match || simplify_option_eq); done.
Qed.

Lemma sql_receipt_events id req rr order d d1 d2 : sql_insert_receipt id req rr d = Some d1 ->
  sql_prune_receipts order id d1 = Some d2 -> audit_events d2 = audit_events d.
Proof.
  unfold sql_insert_receipt, sql_prune_receipts. destruct (wbs_receipts d) as [t|]; [|done].
  cbn [mbind option_bind]. destruct (table_rows t !! (id, req)); [done|]. destruct (records_of d !! id); [|done].
  intros Hi. injection Hi as <-. cbn [mbind option_bind wbs_receipts set_wbs_receipts].
  intros Hp. by injection Hp as <-.
Qed.

(** One more revision of the scope of a request, and nothing else but its event
    and the receipts. *)
Definition revision_saved (s : WBSStore) (r : WBSWrite) (d d' : ProjectDB) (receipt : WBSReceipt) : Prop :=
  exists parsed n next t e l,
    submitted s r parsed /\ ActivityLinks parsed = [] /\ CostLinks parsed = []
    /\ is_revision (w_ExpectedRevision r) n /\ is_revision next (n + 1)
    /\ records_of d !! w_ChartID r = (if w_Create r then None else Some (w_ExpectedRevision r))
    /\ records_of d' = <[w_ChartID r := next]> (records_of d)
    /\ charts d' = <[w_ChartID r := t]> (charts d) /\ ch_Title (row t) = w_Title r
    /\ Parse (ch_Data (row t)) = Ok (with_revision (normalize parsed) next)
    /\ audit_events d = Some l /\ audit_events d' = Some (l ++ [e])
    /\ ae_ProjectID e = b_ProjectID (s_binding s) /\ ae_EntityID e = w_ChartID r
    /\ ae_UserID e = b_ActorID (s_binding s) /\ ae_SessionID e = b_LifetimeID (s_binding s)
    /\ receipt = mkReceipt (w_RequestID r) next (ae_ID e) false.

Lemma advanced_revision_saved s r d d' receipt : file_ok d -> advanced s r d d' receipt ->
  revision_saved s r d d' receipt.
Proof.
  intros Hok Hadv. pose proof (advanced_state s r d d' receipt Hok Hadv) as
    (t' & n' & next' & fp & Hn' & _ & Hn1 & Hrev & _ & Erec & Hrcpt & _).
  destruct Hadv as (parsed & next & text & now & i & e & d1 & d2 & d3 & order & Hsub & _ & Hrec & Hal & Hcl & Hb & Hnext
    & Hp & Hw & I1 & I2 & I3 & I4 & _ & He & Hins & _ & Hprune & Hr).
  rewrite Hr in Hrcpt. injection Hrcpt as <- _. clear fp.
  destruct (write_scope_rows _ _ _ _ _ _ _ _ _ Hw Hb) as (rc & t & Erc & _ & _ & _ & Hdata & Htitle & _ & Ed1).
  pose proof (sql_write_scope_events _ _ _ _ _ _ _ _ _ Hw) as Ev1.
  pose proof (sql_receipt_events _ _ _ _ _ _ _ Hins Hprune) as Ev2.
  pose proof Hsub as (_ & Hparse & _).
  pose proof (stored_payload _ _ _ _ Hparse Hn1 Hp) as Ha.
  destruct He as (l & eid & before & after & time & Hl & Hee & _ & _ & Ed2). rewrite Ev1 in Hl.
  exists parsed, n', next, t, e, l.
  assert (Hrecords : records_of d !! w_ChartID r = if w_Create r then None else Some (w_ExpectedRevision r)).
  { unfold scope_before in Hb. destruct (w_Create r).
    - destruct Hb as [Hnone _]. destruct (records_of d !! w_ChartID r) as [rev|] eqn:E; [|done].
      destruct (record_has_chart d (w_ChartID r) (proj2 Hok)) as [x Hx]; [by exists rev|congruence].
    - destruct Hb as (t0 & _ & _ & _ & Hrv & _). unfold sql_revision, records_of in *. by destruct (wbs_records d). }
  assert (Hcharts : charts d' = charts d1).
  { clear -Hins Hprune Ed2. unfold sql_insert_receipt, sql_prune_receipts in *.
    destruct (wbs_receipts d2) as [rp|]; [|done]. cbn [mbind option_bind] in Hins.
    destruct (table_rows rp !! _); [done|]. destruct (records_of d2 !! _); [|done]. injection Hins as <-.
    cbn [mbind option_bind wbs_receipts set_wbs_receipts] in Hprune. injection Hprune as <-. by rewrite Ed2. }
  split_and!; try eassumption; try reflexivity.
  - rewrite Hcharts, Ed1. reflexivity.
  - by rewrite Hdata.
  - rewrite Ev2, Ed2. reflexivity.
  - by rewrite Hee.
  - by rewrite Hee.
  - by rewrite Hee.
  - by rewrite Hee.
Qed.

(** C25. Saving a scope in a reachable file either adds one revision, with the
    chart, one audit event of the actor and the session, and a receipt; or replays
    an earlier receipt and changes nothing; or fails and changes nothing, unless
    the commit itself reported the failure. *)
Theorem Save_spec {E : DbEnv} s r c res c' :
  reachable (file c) -> Save s r c = (res, c') ->
  match res with
  | Ok receipt => if r_Replayed receipt then file c' = file c
                  else revision_saved s r (file c) (file c') receipt
  | Err ErrWBSIndeterminate => file c' = file c \/ exists receipt, revision_saved s r (file c) (file c') receipt
  | Err _ => file c' = file c
  end.
Proof.
  intros Hreach%reachable_ok. intros [(rc & Hadv & Hres)|[(rc & (p & rr & Hrep) & -> & F)|[Hf F]]]%Save_effect.
  - assert (Hnr : r_Replayed rc = false)
      by (destruct (advanced_state _ _ _ _ _ Hreach Hadv) as (? & ? & ? & ? & ? & ? & ? & ? & ? & ? & -> & _); done).
    apply advanced_revision_saved in Hadv; [|done].
    destruct Hres as [->| ->]; [by rewrite Hnr|right; by exists rc].
  - destruct Hrep as (_ & _ & _ & _ & ->). cbn. exact F.
  - destruct res as [rc|e]; [done|]. destruct e; first [exact F|by left].
Qed.

(** C8. A request that was written, whether its answer arrived or was lost with the
    commit, can be sent again later, whatever was done in between: while its revision
    is among the newest 256, a run without faults, during which no other transaction
    holds the lock on writing, answers with the same revision and audit event and
    changes nothing. *)
Theorem Save_retry {E1 E2 : DbEnv} {HE : Faultless E2} s r c res c' c2 rev k n :
  reachable (file c) -> @Save E1 s r c = (res, c') -> file c' <> file c ->
  rtc project_step (file c') (file c2) ->
  records_of (file c2) !! w_ChartID r = Some rev -> is_revision rev n ->
  is_revision (w_ExpectedRevision r) k -> n <= k + Z.of_nat WBSReceiptLimit -> write_locked c2 = false ->
  exists receipt, (res = Ok receipt \/ res = Err ErrWBSIndeterminate)
    /\ exists c3, @Save E2 s r c2
         = (Ok (mkReceipt (r_RequestID receipt) (r_Revision receipt) (r_AuditID receipt) true), c3)
       /\ file c3 = file c2.
Proof.
  intros Hreach%reachable_ok [(rc & Hadv & Hres)|[(? & _ & _ & ?)|[_ ?]]]%Save_effect Hne Hsteps Hr Hn Hk Hle Hl;
    [|done..].
  exists rc. split; [exact Hres|].
  destruct (advanced_state _ _ _ _ _ Hreach Hadv) as (t & k' & next & fp & Hk' & _ & Hn1 & _ & _ & _ & -> & Hfrev & Hfp
    & Hq & _ & _ & _ & Hok' & Hpr & Hcopy).
  pose proof (is_revision_inj _ _ _ Hk Hk') as <-.
  destruct (project_steps_ok _ _ Hsteps Hok') as [Hok2 [P C S R]].
  assert (Hq2 : receipts_of (file c2) !! (w_ChartID r, w_RequestID r) = Some fp).
  { eapply R; [exact Hq|by rewrite Hfrev|exact Hr|exact Hn|lia]. }
  destruct Hadv as (parsed & _ & _ & _ & _ & _ & _ & _ & _ & _ & Hsub & [Hown1 Hown2] & _).
  cbn [r_RequestID r_Revision r_AuditID]. rewrite <- Hfrev.
  cut (reads (Save s r) (file c2) (mkReceipt (w_RequestID r) (rr_revision fp) (rr_audit_id fp) true)).
  { intros Hreads. destruct (Hreads c2 (conj eq_refl Hl)) as (c3 & E3 & F3 & _). by exists c3. }
  refine (Save_replays s r parsed fp (file c2) Hsub _ _ (Hfp parsed Hsub)).
  - split; [apply C; by rewrite Hcopy|]. unfold first_project in *.
    destruct P as [P|P]; [rewrite Hpr in P; by rewrite P in Hown2|by rewrite P, Hpr].
  - unfold sql_receipt, receipts_of in *. destruct (wbs_receipts (file c2)) as [rp|]; [|by rewrite lookup_empty in Hq2].
    cbn [mbind option_bind]. by rewrite Hq2.
Qed.

(** No update is lost: of two saves of one scope that were written one after
    the other, the second expected a later revision than the first. *)
Theorem Save_no_lost_update {E1 E2 : DbEnv} s1 r1 c1 res1 c1' s2 r2 c2 res2 c2' :
  reachable (file c1) -> @Save E1 s1 r1 c1 = (res1, c1') -> file c1' <> file c1 ->
  rtc project_step (file c1') (file c2) ->
  @Save E2 s2 r2 c2 = (res2, c2') -> file c2' <> file c2 -> w_ChartID r2 = w_ChartID r1 ->
  exists k1 k2, is_revision (w_ExpectedRevision r1) k1 /\ is_revision (w_ExpectedRevision r2) k2 /\ k1 < k2.
Proof.
  intros Hreach%reachable_ok [(rc1 & Hadv1 & _)|[(? & _ & _ & ?)|[_ ?]]]%Save_effect Hne1 Hsteps
    [(rc2 & Hadv2 & _)|[(? & _ & _ & ?)|[_ ?]]]%Save_effect Hne2 Hid; try done.
  destruct (advanced_state _ _ _ _ _ Hreach Hadv1) as (t & k1 & next & fp & Hk1 & _ & Hn1 & _ & _ & Erec & _ & _ & _
    & _ & _ & _ & _ & Hok' & _).
  destruct (project_steps_ok _ _ Hsteps Hok') as [Hok2 [_ _ S _]].
  destruct (S (w_ChartID r1) next (k1 + 1)) as (rev & k & Hrev & Hk & Hle & _);
    [by rewrite Erec, lookup_insert_eq|done|].
  destruct (advanced_state _ _ _ _ _ Hok2 Hadv2) as (_ & k2 & _ & _ & Hk2 & _ & _ & Hb & _).
  rewrite Hid in Hb. destruct (Hb rev Hrev) as [-> _]. pose proof (is_revision_inj _ _ _ Hk Hk2) as ->.
  exists k1, k2. split_and!; [done|done|lia].
Qed.

(** C10. In every reachable file a chart is of kind wbs_v2 exactly when it has a
    record; its payload parses to a scope that Validate accepts, at the recorded
    revision; and its receipts are exactly one for each of its newest 256
    revisions. *)
Theorem reachable_scopes d : reachable d -> forall id,
  ((exists t, charts d !! id = Some t /\ ch_Kind (row t) = "wbs_v2"%string) <-> is_Some (records_of d !! id))
  /\ forall rev, records_of d !! id = Some rev ->
     exists n t a, is_revision rev n /\ 1 <= n /\ charts d !! id = Some t /\ ch_Kind (row t) = "wbs_v2"%string
     /\ Parse (ch_Data (row t)) = Ok a /\ Revision a = rev /\ Validate tree_deref a = Ok ()
     /\ (forall q rr, receipts_of d !! (id, q) = Some rr ->
           exists k, is_revision (rr_revision rr) k /\ n - Z.of_nat WBSReceiptLimit < k <= n)
     /\ (forall k, 1 <= k -> n - Z.of_nat WBSReceiptLimit < k <= n ->
           exists! q, exists rr, receipts_of d !! (id, q) = Some rr /\ is_revision (rr_revision rr) k).
Proof.
  intros [_ Hst]%reachable_ok id.
  assert (Hscope : forall rev, records_of d !! id = Some rev -> exists p n, scope_at d p id rev n).
  { intros rev Hrev. destruct (store_ok_record d id rev Hst Hrev) as (p & ? & n & _ & Hs). by exists p, n. }
  split; [split|].
  - intros (t & Ht & Hk). destruct (records_of d !! id) eqn:E; [by eexists|].
    exfalso. by apply (unrecorded_kind d id t Hst Ht E).
  - intros [rev Hrev]. destruct (Hscope rev Hrev) as (p & n & _ & _ & (t & Ht & _ & Hk & _) & _). by exists t.
  - intros rev Hrev. destruct (Hscope rev Hrev) as (p & n & Hn & H1 & (t & Ht & _ & Hk & _ & a & Ha & Hra) & [R1 R2 R3]).
    exists n, t, a. split_and!; try done.
    + by apply Parse_Ok in Ha as [Hv _].
    + intros q rr Hq. destruct (R1 q rr Hq) as (k & Hk' & Hb). exists k. split; [done|lia].
    + intros k Hk1 Hk2. destruct (R2 k) as (q & rr & Hq & Hr); [lia|]. exists q. split; [by exists rr|].
      intros q' (rr' & Hq' & Hr'). eapply R3; [exact Hq|exact Hq'|]. by eapply is_revision_string.
Qed.

(** Only the store writes scopes: in a reachable file no saved or deleted chart
    changes one; saving a chart under the identifier of a scope and deleting it
    fail, and so does saving any payload that looks like a scope. *)
Theorem chart_writers_spare_scopes {E : DbEnv} d id rev :
  reachable d -> records_of d !! id = Some rev ->
  (forall ch c r c', file c = d -> SaveChart ch c = (r, c') ->
     charts (file c') !! id = charts d !! id
     /\ (ch_ID ch = id -> id <> ""%string -> is_ok r = false /\ file c' = d))
  /\ (forall id' c r c', file c = d -> DeleteChart id' c = (r, c') ->
     charts (file c') !! id = charts d !! id /\ (id' = id -> is_ok r = false /\ file c' = d))
  /\ (forall ch c, protectedWBSPayload (ch_Kind ch) (ch_Data ch) = true ->
        SaveChart ch c = (Err ErrWBSProtected, c)).
Proof.
  intros [Hch Hst]%reachable_ok Hrev. destruct (record_has_chart d id Hst) as [t Ht]; [by exists rev|].
  destruct (Hch id t Ht) as [Hid _].
  assert (Hprot : protected_chart d (row t) = true).
  { unfold protected_chart. rewrite Hid, Hrev, bool_decide_eq_true_2 by (by eexists). apply orb_true_r. }
  split_and!.
  - intros ch c r c' <- [(after & Hs & _)|[Hr ->]]%SaveChart_effect; [|done].
    destruct Hs as (id' & text & now & d1 & i & e & _ & Hid' & Hnp & Hup & _ & _ & _ & _ & _ & He).
    assert (Hne : id' <> id) by (intros ->; specialize (Hnp t Ht); congruence).
    split; [|intros <- Hn; by destruct Hid']. apply appends_same in He as (_ & _ & -> & _).
    unfold sql_upsert_chart, sql_insert_chart in Hup. cbn [ch_ID chart_written] in Hup.
    destruct (charts (file c) !! id') as [t0|] eqn:Et0.
    + injection Hup as <-. cbn [charts set_charts]. by rewrite lookup_insert_ne.
    + case_bool_decide; [|done]. injection Hup as <-. cbn [charts set_charts]. by rewrite lookup_insert_ne.
  - intros id' c r c' <- [[Hdel _]|[-> Hr]]%DeleteChart_effect.
    + destruct Hdel as (t' & d1 & i & e & Ht' & Hnp & Hd & _ & _ & He).
      assert (Hne : id' <> id) by (intros ->; congruence). split; [|done].
      apply appends_same in He as (_ & _ & -> & _). unfold sql_delete_chart in Hd. case_bool_decide; [done|].
      injection Hd as <-. cbn [charts set_charts set_baselines]. by rewrite lookup_delete_ne.
    + split; [done|]. intros ->. split; [|done]. destruct r as [[]|]; [|done]. rewrite Hr in Ht by done. done.
  - intros ch c Hp. unfold SaveChart. by rewrite Hp.
Qed.

(** The store of a reachable file that has one opens again: without faults,
    for a binding to the file's project and while the lock on writing is free, it
    returns the copy's identity and leaves the file as it is, whatever scopes there
    are. *)
Theorem OpenWBSStore_reopens {E : DbEnv} {HE : Faultless E} b c copyID :
  reachable (file c) -> sql_copy (file c) = Some (copyID, b_ProjectID b) ->
  first_project (file c) = Some (b_ProjectID b) ->
  wbsIdentifier (b_ProjectID b) && wbsIdentifier (b_ActorID b) && wbsIdentifier (b_LifetimeID b) = true ->
  write_locked c = false ->
  exists c', OpenWBSStore b c = (Ok (mkStore b copyID false), c') /\ file c' = file c.
Proof.
  intros Hr%reachable_ok Hc Hf Hb Hl.
  destruct (OpenWBSStore_reads b (file c) copyID Hr Hc Hf Hb c (conj eq_refl Hl)) as (c' & E' & F & _). by exists c'.
Qed.

(** C3. In every project file that the modelled operations reach (audited
    operations, charts, opening and saving scopes), with any statement or commit
    failing, the chain of every project verifies; and whatever is done later keeps
    every event there is, in order. *)
Theorem project_chains_verify d d' :
  reachable d -> rtc project_step d d' ->
  exists l l', audit_events d = Some l /\ audit_events d' = Some l' /\ l `prefix_of` l'
    /\ forall p, sized (rows_asc p l') -> Valid (verify p (rows_asc p l')) = true.
Proof.
  intros H1 H2. destruct (project_steps_events _ _ H1 []) as (l & Hl & _ & Hv); [done|].
  destruct (project_steps_events _ _ H2 l Hl) as (l' & Hl' & Hp & Hv').
  exists l, l'. split_and!; try done. intros p Hs. apply verify_Valid; [done|]. apply Hv'; [|done].
  apply Hv. by intros q.
Qed.

(** ** Instances *)

Example demo_history :
  (OpenWBSStore alice fresh).1 = Ok demo_store
  /\ (Save demo_store (demo_write "q1" "0" "House" true) after_open).1
     = Ok (mkReceipt "q1" "1" "audit_02020202" false)
  /\ (@Save uncertain demo_store (demo_write "q2" "1" "Villa" false) after_create).1 = Err ErrWBSIndeterminate
  /\ (Save demo_store (demo_write "q3" "1" "Hut" false) after_update).1 = Err (ErrWbs ErrRevisionConflict)
  /\ (Save demo_store (demo_write "q2" "1" "Hut" false) after_update).1 = Err ErrWBSRequestReuse.
Proof. vm_compute. split_and!; reflexivity. Qed.

Definition create_request : WBSWrite := demo_write "q1" "0" "House" true.
Definition update_request : WBSWrite := demo_write "q2" "1" "Villa" false.

Lemma record_changed d d' id : records_of d' !! id <> records_of d !! id -> d' <> d.
Proof. congruence. Qed.

Lemma create_written : file after_create <> file after_open.
Proof. apply (record_changed _ _ "c1"). by vm_compute. Qed.

Lemma update_written : file after_update <> file after_create.
Proof. apply (record_changed _ _ "c1"). by vm_compute. Qed.

Lemma Save_spec_witness : exists receipt,
  revision_saved demo_store create_request (file after_open) (file after_create) receipt.
Proof.
  pose proof (Save_spec demo_store create_request after_open _ _ after_open_reachable (surjective_pairing _)) as H.
  assert (E : (Save demo_store create_request after_open).1 = Ok (mkReceipt "q1" "1" "audit_02020202" false))
    by (vm_compute; reflexivity).
  rewrite E in H. cbn [r_Replayed] in H. eexists. exact H.
Defined.

Lemma Save_retry_witness : exists receipt c3,
  @Save calm demo_store update_request after_update
  = (Ok (mkReceipt (r_RequestID receipt) (r_Revision receipt) (r_AuditID receipt) true), c3)
  /\ file c3 = file after_update.
Proof.
  destruct (Save_retry (E1 := uncertain) (E2 := calm) demo_store update_request after_create _ _ after_update
    "2" 1 2 after_create_reachable (surjective_pairing _) update_written (rtc_refl _ _)) as (receipt & _ & c3 & H).
  - vm_compute. reflexivity.
  - split; [by compute|reflexivity].
  - split; [by compute|reflexivity].
  - unfold WBSReceiptLimit. lia.
  - vm_compute. reflexivity.
  - exists receipt, c3. exact H.
Defined.

Lemma Save_no_lost_update_witness : exists k1 k2,
  is_revision "0" k1 /\ is_revision "1" k2 /\ k1 < k2.
Proof.
  apply (Save_no_lost_update (E1 := calm) (E2 := uncertain) demo_store create_request after_open _ _ demo_store
    update_request after_create _ _ after_open_reachable (surjective_pairing _) create_written (rtc_refl _ _)
    (surjective_pairing _) update_written).
  reflexivity.
Defined.

Lemma reachable_scopes_witness : exists n t a, is_revision "2" n /\ charts (file after_update) !! "c1"%string = Some t
  /\ Parse (ch_Data (row t)) = Ok a /\ Revision a = "2"%string.
Proof.
  assert (Hr : reachable (file after_update)) by (unfold reachable; etrans; [exact after_create_reachable|exact after_update_steps]).
  destruct (reachable_scopes (file after_update) Hr "c1") as [_ H].
  destruct (H "2"%string) as (n & t & a & Hn & _ & Ht & _ & Ha & Hra & _); [vm_compute; reflexivity|].
  exists n, t, a. split; [exact Hn|]. split; [exact Ht|]. split; [exact Ha|exact Hra].
Defined.

Lemma chart_writers_spare_scopes_witness :
  is_ok (DeleteChart "c1" after_create).1 = false.
Proof.
  assert (Hrev : records_of (file after_create) !! "c1"%string = Some "1"%string) by (vm_compute; reflexivity).
  destruct (chart_writers_spare_scopes (E := calm) (file after_create) "c1" "1" after_create_reachable Hrev)
    as (_ & H & _).
  exact (proj1 (proj2 (H "c1"%string after_create _ _ eq_refl (surjective_pairing _)) eq_refl)).
Defined.

Lemma OpenWBSStore_reopens_witness : exists c',
  OpenWBSStore alice after_create = (Ok demo_store, c') /\ file c' = file after_create.
Proof.
  apply (OpenWBSStore_reopens alice after_create demo_copy after_create_reachable); vm_compute; reflexivity.
Defined.

Lemma project_chains_verify_witness : exists l l', audit_events (file after_create) = Some l
  /\ audit_events (file after_update) = Some l' /\ l `prefix_of` l'.
Proof.
  destruct (project_chains_verify (file after_create) (file after_update) after_create_reachable after_update_steps)
    as (l & l' & H1 & H2 & H3 & _).
  exists l, l'. split; [exact H1|]. split; [exact H2|exact H3].
Defined.
