(* ===== verification/PlanHistory.v ===== *)
(** * Documents, baselines and scenarios over the life of a file

    What holds of them in every reachable file, what their operations promise, and
    the faults that break a promise. *)

From S2P Require Import Prelude GoFloat GoStrings GoTime GoSha256 GoJson GoJsonV2 Money Wbs ProjectDb AuditChain AuditTheorems AuditHistory Charts ChartsTheorems ProjectKeeps Projects PlanTheorems Documents Baselines Scenarios CostControl CostAttachments WbsStore WbsInvariant ProjectFrames WriteLock ProjectMachine WbsHistory.

Local Open Scope Z_scope.

(** ** Approved documents *)

(** Among the events is the checkpoint of a version of [x] that was approved; if it
    is of the current version, it is of [x] itself. *)
Definition approval_recorded (l : list AuditEvent) (x : Document) : Prop :=
  exists e x0, e ∈ l
    /\ checkpoint_of e (doc_ProjectID x) "document" (doc_ID x) "document_status_approved" (documentAuditJSON x0)
    /\ doc_ID x0 = doc_ID x /\ doc_Status x0 = "approved"%string
    /\ doc_Version x0 <= doc_Version x /\ (doc_Version x0 = doc_Version x -> x0 = x).

Definition approvals_ok (d : ProjectDB) : Prop := forall id t, documents (plans d) !! id = Some t ->
  doc_ID (row t) = id
  /\ (doc_Status (row t) = "approved"%string ->
        exists l, audit_events d = Some l /\ approval_recorded l (row t)).

Lemma approval_recorded_mono l l' x : l `prefix_of` l' -> approval_recorded l x -> approval_recorded l' x.
Proof.
  intros [k ->] (e & x0 & He & Hx). exists e, x0. split; [|exact Hx]. apply elem_of_app. by left.
Qed.

Lemma approvals_ok_same d d' : documents (plans d') = documents (plans d) -> events_extend d d' ->
  approvals_ok d -> approvals_ok d'.
Proof.
  intros E He Hok id t Ht. rewrite E in Ht. destruct (Hok id t Ht) as [Hid Hap]. split; [done|].
  intros Hs. destruct (Hap Hs) as (l & Hl & Hr). destruct (He l Hl) as (l' & Hl' & Hp & _).
  exists l'. split; [done|]. by eapply approval_recorded_mono.
Qed.

(** Deleting a document, or saving it without approving it. *)
Lemma approvals_ok_kept d d' : events_extend d d' ->
  (forall id t, documents (plans d') !! id = Some t -> doc_ID (row t) = id
     /\ (doc_Status (row t) = "approved"%string ->
          (exists l, audit_events d' = Some l /\ approval_recorded l (row t))
          \/ exists t0, documents (plans d) !! id = Some t0 /\ doc_Status (row t0) = "approved"%string
             /\ doc_ProjectID (row t) = doc_ProjectID (row t0)
             /\ (row t = row t0 \/ doc_Version (row t0) < doc_Version (row t)))) ->
  approvals_ok d -> approvals_ok d'.
Proof.
  intros He Hrows Hok id t Ht. destruct (Hrows id t Ht) as [Hid Hap]. split; [done|]. intros Hs.
  destruct (Hap Hs) as [|(t0 & Ht0 & Hs0 & Hpr & Hv)]; [done|]. destruct (Hok id t0 Ht0) as [Hid0 Hap0].
  destruct (Hap0 Hs0) as (l & Hl & Hrec). destruct (He l Hl) as (l' & Hl' & Hp & _).
  exists l'. split; [done|]. apply (approval_recorded_mono _ _ _ Hp).
  destruct Hv as [->|Hv]; [done|]. destruct Hrec as (e & x0 & Hin & Hc & Hid1 & Hst & Hle & Heq).
  exists e, x0. rewrite Hpr, Hid, <- Hid0. split_and!; [done|done|done|done|lia|lia].
Qed.

(** The last event is the checkpoint of the approved document [x]. *)
Definition approved_last (d : ProjectDB) (x : Document) : Prop :=
  exists l e, audit_events d = Some (l ++ [e])
    /\ checkpoint_of e (doc_ProjectID x) "document" (doc_ID x) "document_status_approved" (documentAuditJSON x).

Lemma approved_last_recorded d x : approved_last d x -> doc_Status x = "approved"%string ->
  exists l, audit_events d = Some l /\ approval_recorded l x.
Proof.
  intros (l & e & Hl & Hc) Hs. exists (l ++ [e]). split; [exact Hl|]. exists e, x.
  split_and!; [|exact Hc|done|exact Hs|lia|done]. apply elem_of_app. right. by constructor.
Qed.

(** A saved document: the other ones stay; its version is the first one or one
    more; one event, and one more when it is approved. *)
Definition document_outcome (x : Document) (d d' : ProjectDB) (after : Document) : Prop :=
  (doc_ID x = ""%string \/ doc_ID x = doc_ID after)
  /\ document_row (doc_ID after) d' = Some after
  /\ (forall id, id <> doc_ID after -> documents (plans d') !! id = documents (plans d) !! id)
  /\ doc_Kind after = doc_Kind x /\ doc_Title after = doc_Title x
  /\ doc_Content after = default_string (doc_Content x) "{}"
  /\ doc_Status after = default_string (doc_Status x) "draft"
  /\ match document_row (doc_ID after) d with
     | None => doc_ProjectID after = doc_ProjectID x
               /\ doc_Version after = (if doc_Version x =? 0 then 1 else doc_Version x)
     | Some old => doc_ProjectID after = doc_ProjectID old /\ doc_CreatedAt after = doc_CreatedAt old
                   /\ doc_Version after = doc_Version old + 1
     end
  /\ (approval (document_row (doc_ID after) d) after = true -> approved_last d' after)
  /\ exists l k, audit_events d = Some l /\ audit_events d' = Some (l ++ k)
       /\ length k = if approval (document_row (doc_ID after) d) after then 2%nat else 1%nat.

Lemma document_saved_outcome x d d' after : approvals_ok d -> document_saved x d d' after ->
  document_outcome x d d' after.
Proof.
  intros Hok (id & text & now & d1 & d2 & i & e & Hid & Hup & Hrow & _ & He & Hap).
  destruct (upserted_document _ _ _ _ Hup) as (t & Et & Hrow' & Ev & Hcase). cbn [doc_ID document_written] in *.
  rewrite Hrow in Hrow'. injection Hrow' as E. subst after.
  assert (Hk : doc_ID (row t) = id).
  { unfold document_row in Hcase. destruct (documents (plans d) !! id) as [t0|] eqn:E0; cbn in Hcase.
    - rewrite Hcase. by apply (Hok id t0 E0).
    - by destruct Hcase as [-> _]. }
  apply appends_events in He as (l & Hl & Hl2 & Hpl & _). rewrite Ev in Hl.
  assert (Hfinal : plans d' = plans d1 /\ (approval (document_row id d) (row t) = true -> approved_last d' (row t))
    /\ exists k, audit_events d' = Some (l ++ k)
    /\ length k = if approval (document_row id d) (row t) then 2%nat else 1%nat).
  { destruct (approval _ _).
    - apply checkpointed_event in Hap as (l' & e' & Hl' & Hl3 & Hpl' & _ & _ & _ & _ & Hc & _). split; [congruence|].
      split; [intros _; by exists l', e'|].
      rewrite Hl' in Hl2. injection Hl2 as ->. exists [e; e']. split; [|done]. by rewrite <- app_assoc in Hl3.
    - subst d'. split_and!; [done|done|]. by exists [e]. }
  destruct Hfinal as (Hp' & Hcp & k & Hk1 & Hk2). unfold document_outcome. rewrite Hk, Hp'.
  split_and!; try done.
  { unfold document_row in *. by rewrite Hp'. }
  { intros id' Hne. rewrite Et. by rewrite lookup_insert_ne. }
  all: try (destruct (document_row id d); [by rewrite Hcase|by destruct Hcase as [-> _]]).
  by exists l, k.
Qed.

Lemma document_saved_approvals x d d' after : document_saved x d d' after -> events_extend d d' ->
  approvals_ok d -> approvals_ok d'.
Proof.
  intros Hs Hext Hok. apply document_saved_outcome in Hs; [|exact Hok].
  destruct Hs as (_ & Hrow & Hrest & _ & _ & _ & _ & Hcase & Hap & _).
  apply (approvals_ok_kept d d' Hext); [|exact Hok]. intros id' t' Ht'.
  destruct (decide (id' = doc_ID after)) as [->|Hne].
  - unfold document_row in Hrow. rewrite Ht' in Hrow. injection Hrow as ->. split; [done|]. intros Hs.
    destruct (approval (document_row (doc_ID after) d) after) eqn:Ea; [left; apply approved_last_recorded; auto|right].
    unfold approval in Ea. rewrite Hs, String.eqb_refl in Ea. cbn [andb] in Ea.
    unfold document_row in Ea, Hcase. destruct (documents (plans d) !! doc_ID after) as [t0|]; [|done].
    apply negb_false_iff, String.eqb_eq in Ea. destruct Hcase as (Hp & _ & Hv). exists t0.
    split_and!; [done|exact Ea|exact Hp|right; cbn in Hv; lia].
  - rewrite (Hrest id' Hne) in Ht'. split; [by apply (Hok id' t' Ht')|]. intros Hs. right. exists t'. auto.
Qed.

Lemma document_deleted_approvals id d d' : document_deleted id d d' -> events_extend d d' ->
  approvals_ok d -> approvals_ok d'.
Proof.
  intros (before & d1 & e & _ & Hd & He) Hext Hok. apply (approvals_ok_kept d d' Hext); [|exact Hok].
  apply appends_events in He as (l & _ & _ & -> & _). injection Hd as <-. cbn [plans documents set_documents set_plans].
  intros id' t [_ Ht]%lookup_delete_Some. split; [by apply (Hok id' t Ht)|]. intros Hs. right. exists t. auto.
Qed.

Lemma project_step_approvals d d' : project_step d d' -> approvals_ok d -> approvals_ok d'.
Proof.
  intros Hst Hok. pose proof (project_step_events _ _ Hst) as Hext. destruct Hst as [E T A m c r c' Hop Hr _].
  pose proof (project_op_touches _ _ _ Hop _ _ _ Hr) as Ht.
  destruct Hop; try (refine (approvals_ok_same _ _ (touches_documents _ _ _ Ht _) Hext Hok); by_decide).
  - apply SaveDocument_effect in Hr as [(after & Hs & _)|[_ ->]]; [|done]. by eapply document_saved_approvals.
  - apply DeleteDocument_effect in Hr as [[Hs _]|[-> _]]; [|done]. by eapply document_deleted_approvals.
Qed.

Lemma reachable_approvals_ok d : reachable d -> approvals_ok d.
Proof.
  apply reachable_invariant; [|apply project_step_approvals].
  intros id t Ht. cbn [empty_project plans documents] in Ht. by simplify_map_eq.
Qed.

(** ** Scenarios *)

(** At most one active scenario of each project. *)
Definition scenarios_ok (m : gmap string (Timed Scenario)) : Prop :=
  (forall id t, m !! id = Some t -> sc_ID (row t) = id)
  /\ forall id1 id2 t1 t2, m !! id1 = Some t1 -> m !! id2 = Some t2 ->
       sc_IsActive (row t1) = true -> sc_IsActive (row t2) = true ->
       sc_ProjectID (row t1) = sc_ProjectID (row t2) -> id1 = id2.

(** A map with fewer active scenarios. *)
Lemma scenarios_ok_weaken m m' : (forall id t, m' !! id = Some t -> exists t0, m !! id = Some t0
    /\ sc_ID (row t) = sc_ID (row t0) /\ sc_ProjectID (row t) = sc_ProjectID (row t0)
    /\ (sc_IsActive (row t) = true -> sc_IsActive (row t0) = true)) ->
  scenarios_ok m -> scenarios_ok m'.
Proof.
  intros Hm [Hid Hone]. split.
  - intros id t Ht. destruct (Hm id t Ht) as (t0 & Ht0 & -> & _). by apply Hid.
  - intros id1 id2 t1 t2 H1 H2 A1 A2 Hp. destruct (Hm id1 t1 H1) as (u1 & U1 & _ & P1 & B1).
    destruct (Hm id2 t2 H2) as (u2 & U2 & _ & P2 & B2). apply (Hone id1 id2 u1 u2 U1 U2); auto; congruence.
Qed.

Lemma deactivated_row text now p x d d1 id : sql_deactivate text now p x d = Some d1 ->
  scenarios (plans d1) !! id
  = (fun r => if bool_decide (active_except p x (id, r)) then deactivate text now r else r)
      <$> scenarios (plans d) !! id.
Proof.
  intros Hd. injection Hd as <-. cbn [plans scenarios set_scenarios set_plans]. rewrite map_lookup_imap.
  by destruct (scenarios (plans d) !! id).
Qed.

Lemma deactivate_ok text now p x d d1 : sql_deactivate text now p x d = Some d1 ->
  scenarios_ok (scenarios (plans d)) -> scenarios_ok (scenarios (plans d1)).
Proof.
  intros Hd. apply scenarios_ok_weaken. intros id t. rewrite (deactivated_row _ _ _ _ _ _ _ Hd).
  destruct (scenarios (plans d) !! id) as [t0|]; [|done]. intros Ht. injection Ht as <-. exists t0.
  by case_bool_decide.
Qed.

Lemma upsert_scenario_ok s now d d1 : sql_upsert_scenario s now d = Some d1 ->
  scenarios_ok (scenarios (plans d)) -> scenarios_ok (scenarios (plans d1)).
Proof.
  unfold sql_upsert_scenario. intros Hu [Hid Hone].
  destruct (bool_decide _ && _) eqn:Hg; [|done]. apply andb_prop in Hg as [_ Hg]. injection Hu as <-.
  set (new := match _ with None => _ | Some _ => _ end).
  assert (Hn : sc_ID (row new) = sc_ID s /\ sc_ProjectID (row new) = sc_ProjectID s
    /\ sc_IsActive (row new) = sc_IsActive s).
  { unfold new. destruct (scenarios (plans d) !! sc_ID s) as [old|] eqn:E; [|done]. cbn. split_and!; [|done..].
    by apply Hid. }
  destruct Hn as (Hn1 & Hn2 & Hn3). cbn [plans scenarios set_scenarios set_plans].
  assert (Hother : forall id t, scenarios (plans d) !! id = Some t -> id <> sc_ID s ->
    sc_IsActive s = true -> sc_IsActive (row t) = true -> sc_ProjectID (row t) <> sc_ProjectID s).
  { intros id t Ht Hne Hs Ha Hp. rewrite Hs in Hg. cbn [negb orb] in Hg. apply bool_decide_eq_true in Hg.
    assert (Hf : filter (active_except (sc_ProjectID s) (sc_ID s)) (scenarios (plans d)) !! id = Some t)
      by (apply map_lookup_filter_Some; done).
    rewrite Hg in Hf. by rewrite lookup_empty in Hf. }
  split.
  - intros id t [[<- <-]|[_ Ht]]%lookup_insert_Some; [done|by apply Hid].
  - intros id1 id2 t1 t2 [[<- <-]|[N1 H1]]%lookup_insert_Some [[<- <-]|[N2 H2]]%lookup_insert_Some A1 A2 Hp; [done| | |by eapply Hone].
    + exfalso. rewrite Hn3 in A1. eapply (Hother id2 t2); auto; congruence.
    + exfalso. rewrite Hn3 in A2. eapply (Hother id1 t1); auto; congruence.
Qed.

Lemma replaced_plans l d d' : replaced_events l d d' -> plans d' = plans d.
Proof.
  revert d. induction l as [|s l IH]; intros d; cbn [replaced_events]; [by intros ->|].
  intros (t & d1 & e & _ & (? & _ & _ & <- & _)%appends_events & H). by apply IH.
Qed.

(** The scenarios after a save: the others deactivated, then the row written. *)
Lemma scenario_saved_plans s d d' after : scenario_saved s d d' after ->
  exists id text now d1 d2, (sc_ID s = ""%string \/ sc_ID s = id)
    /\ (if sc_IsActive s then sql_deactivate text now (sc_ProjectID s) id d = Some d1 else d1 = d)
    /\ sql_upsert_scenario (scenario_written s id text) now d1 = Some d2
    /\ row <$> scenarios (plans d2) !! id = Some after /\ plans d' = plans d2.
Proof.
  intros (id & text & now & l & d1 & d2 & d3 & e & Hid & Hd & Hup & Hrow & Hrep & He).
  exists id, text, now, d1, d2. apply appends_events in He as (? & _ & _ & Hpl & _).
  apply replaced_plans in Hrep. split_and!; [done| |done|done|congruence]. destruct (sc_IsActive s); by destruct Hd.
Qed.

Lemma scenario_saved_ok s d d' after : scenario_saved s d d' after ->
  scenarios_ok (scenarios (plans d)) -> scenarios_ok (scenarios (plans d')).
Proof.
  intros (id & text & now & d1 & d2 & _ & Hd & Hup & _ & ->)%scenario_saved_plans Hok.
  eapply upsert_scenario_ok; [exact Hup|]. destruct (sc_IsActive s); [by eapply deactivate_ok|by subst d1].
Qed.

Lemma scenario_deleted_ok id d d' : scenario_deleted id d d' ->
  scenarios_ok (scenarios (plans d)) -> scenarios_ok (scenarios (plans d')).
Proof.
  intros (t & d1 & e & _ & Hd & (? & _ & _ & -> & _)%appends_events). injection Hd as <-. apply scenarios_ok_weaken.
  cbn [plans scenarios set_scenario_charts set_scenarios set_plans]. intros id' t' [_ Ht]%lookup_delete_Some.
  by exists t'.
Qed.

Lemma reachable_scenarios_ok d : reachable d -> scenarios_ok (scenarios (plans d)).
Proof.
  apply (reachable_invariant (fun d => scenarios_ok (scenarios (plans d)))).
  { split; intros id; cbn [empty_project plans scenarios]; intros; simplify_map_eq. }
  clear d. intros d d' [E T A m c r c' Hop Hr _] Hok. pose proof (project_op_touches _ _ _ Hop _ _ _ Hr) as Ht.
  destruct Hop; try (rewrite (touches_scenarios _ _ _ Ht); [exact Hok|by_decide]).
  - apply SaveScenario_effect in Hr as [(after & Hs & _)|[_ ->]]; [|done]. by eapply scenario_saved_ok.
  - apply DeleteScenario_effect in Hr as [[Hs _]| ->]; [|done]. by eapply scenario_deleted_ok.
Qed.

(** ** What saving a scenario promises *)

(** A saved scenario: an active one replaces the other active ones of its project,
    which change only in that and in their time, with an event each; the rest stay. *)
Definition scenario_outcome (s : Scenario) (d d' : ProjectDB) (after : Scenario) : Prop :=
  (sc_ID s = ""%string \/ sc_ID s = sc_ID after)
  /\ scenario_row (sc_ID after) d' = Some after
  /\ sc_ProjectID after = sc_ProjectID s /\ sc_Name after = sc_Name s /\ sc_IsActive after = sc_IsActive s
  /\ (forall old, scenario_row (sc_ID after) d = Some old -> sc_CreatedAt after = sc_CreatedAt old)
  /\ exists text now,
       (forall id, id <> sc_ID after -> scenarios (plans d') !! id
          = (fun t => if sc_IsActive s && bool_decide (active_except (sc_ProjectID s) (sc_ID after) (id, t))
                      then deactivate text now t else t) <$> scenarios (plans d) !! id)
       /\ exists l k e, audit_events d = Some l /\ audit_events d' = Some (l ++ k ++ [e])
            /\ ae_EntityID e = sc_ID after
            /\ ae_EntityID <$> k ≡ₚ (if sc_IsActive s then
                 (map_to_list (filter (active_except (sc_ProjectID s) (sc_ID after)) (scenarios (plans d)))).*1
               else []).

Lemma replaced_log l d d' l0 : replaced_events l d d' -> audit_events d = Some l0 ->
  (forall s, s ∈ l -> forall t, scenarios (plans d) !! sc_ID s = Some t -> sc_ID (row t) = sc_ID s) ->
  exists k, audit_events d' = Some (l0 ++ k) /\ ae_EntityID <$> k = sc_ID <$> l.
Proof.
  revert d l0. induction l as [|s l IH]; intros d l0; cbn [replaced_events].
  - intros -> Hl _. exists []. by rewrite app_nil_r.
  - intros (t & d1 & e & Ht & He & Hr) Hl Hid. pose proof He as (l1 & Hl1 & Hl2 & Hpl & _)%appends_events.
    rewrite Hl in Hl1. injection Hl1 as <-.
    destruct (IH d1 _ Hr Hl2) as (k & Hk1 & Hk2).
    { intros s' Hs'. rewrite Hpl. apply Hid. by right. }
    exists (e :: k). split; [by rewrite <- app_assoc in Hk1|]. cbn [fmap list_fmap]. rewrite Hk2. f_equal.
    destruct He as (? & ? & ? & ? & ? & _ & -> & _). cbn. apply (Hid s); [by left|done].
Qed.

Lemma replaced_base l d d' : replaced_events l d d' -> is_Some (audit_events d') -> is_Some (audit_events d).
Proof.
  destruct l as [|s l]; cbn [replaced_events]; [by intros ->|].
  intros (t & d1 & e & _ & (l0 & -> & _)%appends_events & _) _. by eexists.
Qed.

Lemma scenario_keys (m : gmap string (Timed Scenario)) : (forall id t, m !! id = Some t -> sc_ID (row t) = id) ->
  sc_ID <$> (row <$> (map_to_list m).*2) = (map_to_list m).*1.
Proof.
  intros Hid. rewrite <- !list_fmap_compose. apply list_fmap_ext. intros i [k t] Hx%list_elem_of_lookup_2.
  cbn. apply Hid. by apply elem_of_map_to_list.
Qed.

Lemma upserted_scenario s now d d1 : sql_upsert_scenario s now d = Some d1 ->
  (forall id t, scenarios (plans d) !! id = Some t -> sc_ID (row t) = id) ->
  audit_events d1 = audit_events d
  /\ exists t, scenarios (plans d1) = <[sc_ID s := t]> (scenarios (plans d))
     /\ sc_ID (row t) = sc_ID s /\ sc_ProjectID (row t) = sc_ProjectID s /\ sc_Name (row t) = sc_Name s
     /\ sc_IsActive (row t) = sc_IsActive s
     /\ (forall old, scenario_row (sc_ID s) d = Some old -> sc_CreatedAt (row t) = sc_CreatedAt old).
Proof.
  unfold sql_upsert_scenario, scenario_row. intros Hu Hid. destruct (_ && _); [|done]. injection Hu as <-.
  split; [done|]. eexists. split; [reflexivity|].
  destruct (scenarios (plans d) !! sc_ID s) as [t|] eqn:E; cbn; [|done].
  split_and!; [by apply Hid|done..|]. intros old Ho. by injection Ho as <-.
Qed.

Lemma scenario_saved_outcome s d d' after : scenarios_ok (scenarios (plans d)) -> scenario_saved s d d' after ->
  scenario_outcome s d d' after.
Proof.
  intros Hok Hs. pose proof Hs as Hs0. destruct Hs as (id & text & now & l & d1 & d2 & d3 & e & Hid & Hd & Hup & Hrow & Hrep & He).
  set (P := active_except (sc_ProjectID s) id) in *.
  assert (Hd1 : audit_events d1 = audit_events d /\ scenarios_ok (scenarios (plans d1))
    /\ (forall id', scenarios (plans d1) !! id' = (fun t => if sc_IsActive s && bool_decide (P (id', t))
           then deactivate text now t else t) <$> scenarios (plans d) !! id')
    /\ l ≡ₚ if sc_IsActive s then row <$> (map_to_list (filter P (scenarios (plans d)))).*2 else []).
  { destruct (sc_IsActive s); cbn [andb].
    - destruct Hd as [Hl Hd]. split_and!; [by injection Hd as <-|by eapply deactivate_ok| |done].
      intros id'. by rewrite (deactivated_row _ _ _ _ _ _ _ Hd).
    - destruct Hd as [-> ->]. split_and!; [done..| |done]. intros id'. by destruct (scenarios (plans d) !! id'). }
  destruct Hd1 as (Ev & Hok1 & Hrows & Hl).
  destruct (upserted_scenario _ _ _ _ Hup) as (Ev2 & t & Et & H1 & H2 & H3 & H4 & H5); [apply Hok1|].
  pose proof (upsert_scenario_ok _ _ _ _ Hup Hok1) as [Hok2 _].
  cbn [sc_ID scenario_written sc_ProjectID sc_Name sc_IsActive] in H1, H2, H3, H4, H5, Et, Hrow.
  rewrite Et, lookup_insert_eq in Hrow. cbn in Hrow. injection Hrow as E. subst after.
  pose proof He as (l2 & Hl2 & Hl3 & Hpl3 & _)%appends_events. pose proof (replaced_plans _ _ _ Hrep) as Hpl2.
  destruct (replaced_base _ _ _ Hrep) as [l0 Hl0]; [by eexists|].
  destruct (replaced_log _ _ _ _ Hrep Hl0) as (k & Hk1 & Hk2); [intros; by apply Hok2|].
  unfold scenario_outcome. rewrite H1. split_and!; [exact Hid| |done..| |].
  - unfold scenario_row. by rewrite Hpl3, Hpl2, Et, lookup_insert_eq.
  - intros old Ho. apply H5. unfold scenario_row in *. rewrite Hrows.
    destruct (scenarios (plans d) !! id) as [t0|]; [|done]. cbn in Ho. injection Ho as <-. cbn.
    destruct (_ && _) eqn:Ea; [|done]. apply andb_prop in Ea as [_ Ea%bool_decide_eq_true]. by destruct Ea as (_ & ? & _).
  - exists text, now. fold P. split.
    { intros id' Hne. by rewrite Hpl3, Hpl2, Et, lookup_insert_ne, Hrows. }
    exists l0, k, e. rewrite Hk1 in Hl2. injection Hl2 as <-. rewrite <- app_assoc in Hl3.
    split_and!; [congruence|exact Hl3| |].
    + destruct He as (? & ? & ? & ? & ? & _ & -> & _). cbn. exact H1.
    + rewrite Hk2. rewrite (fmap_Permutation sc_ID _ _ Hl). destruct (sc_IsActive s); [|done].
      rewrite scenario_keys; [done|]. intros id' t' [Ht' _]%map_lookup_filter_Some. by apply Hok.
Qed.

(** A promotion: a new baseline of the source chart with the data of the copy, its
    event and the checkpoint of its approval; charts and copies stay. *)
Definition promotion (id name : string) (d d' : ProjectDB) (b : Baseline) : Prop :=
  (exists x, scenario_chart_row id d = Some x /\ bl_ProjectID b = scc_ProjectID x
     /\ bl_ChartID b = scc_SourceChartID x /\ bl_Name b = TrimSpace name
     /\ bl_Data b = default_string (scc_Data x) "{}"
     /\ exists ch, row <$> charts d !! bl_ChartID b = Some ch /\ ch_ProjectID ch = bl_ProjectID b)
  /\ baselines d !! bl_ID b = None /\ baselines d' = <[bl_ID b := b]> (baselines d)
  /\ charts d' = charts d /\ plans d' = plans d
  /\ exists l e1 e2, audit_events d = Some l /\ audit_events d' = Some (l ++ [e1; e2])
       /\ checkpoint_of e2 (bl_ProjectID b) "baseline" (bl_ID b) "scenario_promoted_to_baseline"
            (baselineAuditJSON b).

Lemma copy_promotion id name d d' b : copy_promoted id name d d' b -> promotion id name d d' b.
Proof.
  intros (x & ch & d1 & Hx & Hch & Hp & _ & Hs & Hc).
  destruct Hs as (id' & now & d2 & e & _ & -> & Hi & He). cbn [bl_ProjectID bl_ChartID bl_Name bl_Data bl_ID] in *.
  apply sql_insert_baseline_Some in Hi as (-> & Hn & _ & _).
  apply appends_events in He as (l & Hl & Hl2 & P2 & B2 & C2 & _).
  apply checkpointed_event in Hc as (l' & e2 & Hl' & Hl3 & P3 & B3 & C3 & _ & _ & Hc & _).
  rewrite Hl' in Hl2. injection Hl2 as ->. rewrite <- app_assoc in Hl3.
  split_and!; [exists x|exact Hn| | | |].
  - split_and!; [exact Hx|done..|]. by exists ch.
  - by rewrite B3, B2.
  - by rewrite C3, C2.
  - by rewrite P3, P2.
  - exists l, e, e2. split_and!; [exact Hl|exact Hl3|exact Hc].
Qed.

(** ** The properties *)

(** C7. In every reachable file, under any faults, an approved document has among the
    events of the file a signed checkpoint of one of its versions that was approved;
    if that version is the current one, the digest is of the document as it is. *)
Theorem reachable_approvals d : reachable d -> forall id t, documents (plans d) !! id = Some t ->
  doc_Status (row t) = "approved"%string ->
  exists l, audit_events d = Some l /\ approval_recorded l (row t).
Proof. intros Hr id t Ht. by apply (reachable_approvals_ok d Hr id t Ht). Qed.

(** Saving a document in a reachable file writes one row, at its first version or at
    the next one, with one event, or two when it becomes approved; or it fails and
    changes nothing, unless the commit itself reported the failure. *)
Theorem SaveDocument_spec {E : DbEnv} x c r c' : reachable (file c) -> SaveDocument x c = (r, c') ->
  match r with
  | Ok after => document_outcome x (file c) (file c') after
  | Err ErrDbCommit => file c' = file c \/ exists after, document_outcome x (file c) (file c') after
  | Err _ => file c' = file c
  end.
Proof.
  intros Hr%reachable_approvals_ok [(after & Hs & Hres)|[Hf F]]%SaveDocument_effect.
  - apply document_saved_outcome in Hs; [|exact Hr]. destruct Hres as [->| ->]; [done|]. right. by exists after.
  - destruct r as [y|e]; [done|]. destruct e; first [exact F|by left].
Qed.

(** C17. In every reachable file each project has at most one active scenario. *)
Theorem reachable_one_active d id1 t1 : reachable d ->
  scenarios (plans d) !! id1 = Some t1 -> sc_IsActive (row t1) = true ->
  forall id2 t2, scenarios (plans d) !! id2 = Some t2 -> id2 <> id1 ->
  sc_ProjectID (row t2) = sc_ProjectID (row t1) -> sc_IsActive (row t2) = false.
Proof.
  intros [_ Hone]%reachable_scenarios_ok H1 A1 id2 t2 H2 Hn Hp.
  destruct (sc_IsActive (row t2)) eqn:A2; [|done]. by destruct Hn, (Hone id2 id1 t2 t1).
Qed.

(** C32. Saving a scenario in a reachable file deactivates the other active scenario of
    its project when it is active itself, with an event for each change, and leaves
    every other row; or it fails and changes nothing, unless the commit itself
    reported the failure. *)
Theorem SaveScenario_spec {E : DbEnv} s c r c' : reachable (file c) -> SaveScenario s c = (r, c') ->
  match r with
  | Ok after => scenario_outcome s (file c) (file c') after
  | Err ErrDbCommit => file c' = file c \/ exists after, scenario_outcome s (file c) (file c') after
  | Err _ => file c' = file c
  end.
Proof.
  intros Hr%reachable_scenarios_ok [(after & Hs & Hres)|[Hf F]]%SaveScenario_effect.
  - apply scenario_saved_outcome in Hs; [|exact Hr]. destruct Hres as [->| ->]; [done|]. right. by exists after.
  - destruct r as [y|e]; [done|]. destruct e; first [exact F|by left].
Qed.

(** C30. A save of a scenario that returns with the lock on writing taken has failed
    after it deactivated another scenario, and written nothing; whatever operations
    follow on the file, they leave it as it is. *)
Theorem SaveScenario_lock {E : DbEnv} s c r c' (l : list any_op) :
  SaveScenario s c = (r, c') -> write_locked c = false -> write_locked c' = true ->
  is_ok r = false /\ sc_IsActive s = true
  /\ (exists id, filter (active_except (sc_ProjectID s) id) (scenarios (plans (file c))) <> ∅)
  /\ file (foldl run_op c' l) = file c.
Proof.
  intros Hr Hl Hl'. destruct (SaveScenario_lock_effect _ _ _ _ Hr Hl Hl') as (Hok & F & Ha & Hid).
  split_and!; [done..|]. rewrite locked_forever; done.
Qed.

(** When the read of a baseline that is to be deleted fails, the deletion reports
    success and the file keeps the baseline. *)
Theorem DeleteBaseline_misreports {E : DbEnv} id c :
  db_statement_fails (statements_run c) = false -> db_statement_fails (S (statements_run c)) = true ->
  db_commit (commits_run c) = Committed ->
  exists c', DeleteBaseline id c = (Ok (), c') /\ file c' = file c.
Proof.
  intros H1 H2 H3. unfold DeleteBaseline, in_tx, run_tx. rewrite H1.
  unfold dtx_bind at 1, dtx_bind at 1, dtx_catch at 1, getBaselineTx, dtx_bind at 1, dtx_catch, dtx_query, dtx_statement.
  cbn [statements_run statement_run]. rewrite H2. cbn. rewrite H3. by eexists.
Qed.

(** C15. No operation changes a baseline: it stays as it was saved or goes, and it goes
    with its chart, or when no scenario names it. *)
Theorem baselines_immutable d d' : project_step d d' -> forall id b, baselines d !! id = Some b ->
  baselines d' !! id = Some b
  \/ baselines d' !! id = None
     /\ (charts d' !! bl_ChartID b = None
         \/ forall k t, scenarios (plans d) !! k = Some t -> sc_SourceBaselineID (row t) <> id).
Proof.
  intros [E T A m c r c' Hop Hr _] id b Hb. pose proof (project_op_touches _ _ _ Hop _ _ _ Hr) as Ht.
  assert (Hsaved : forall x d1 d2 y, baseline_saved x d1 d2 y -> baselines d1 !! id = Some b -> baselines d2 !! id = Some b).
  { intros x d1 d2 y (id' & now & d3 & e & _ & _ & Hi & He) Hx.
    apply sql_insert_baseline_Some in Hi as (-> & Hn & _). apply appends_events in He as (? & _ & _ & _ & -> & _).
    cbn [baselines set_baselines]. rewrite lookup_insert_ne; [done|congruence]. }
  destruct Hop; try (left; rewrite (touches_baselines _ _ _ Ht); [exact Hb|by_decide]).
  - apply DeleteChart_effect in Hr as [[(t & d1 & i & e & _ & _ & Hd & _ & _ & He) _]|[-> _]]; [|by left].
    apply appends_events in He as (? & _ & _ & _ & -> & -> & _). unfold sql_delete_chart in Hd.
    case_bool_decide; [done|]. injection Hd as <-. cbn [baselines set_baselines charts set_charts].
    rewrite map_lookup_filter, Hb. cbn. case_guard as Hc; [by left|right]. split; [done|left].
    destruct (decide (bl_ChartID b = id0)) as [->|Hn]; [by rewrite lookup_delete_eq|by destruct Hc].
  - apply SaveBaseline_effect in Hr as [(y & Hs & _)|[_ ->]]; [|by left]. left. by eapply Hsaved.
  - apply DeleteBaseline_effect in Hr as [[(x & d1 & e & Hx & Hall & Hd & He) _]| ->]; [|by left].
    apply appends_events in He as (? & _ & _ & _ & -> & _). injection Hd as <-. cbn [baselines set_baselines].
    destruct (decide (id0 = id)) as [->|Hn]; [right|left; by rewrite lookup_delete_ne].
    rewrite lookup_delete_eq. split; [done|right]. intros k t Hk. rewrite Forall_forall in Hall. apply Hall.
    apply list_elem_of_fmap. exists t. split; [done|]. apply list_elem_of_fmap. exists (k, t).
    split; [done|by apply elem_of_map_to_list].
  - apply PromoteScenarioChartToBaseline_effect in Hr as [(y & Hs & _)|[_ ->]]; [|by left]. left.
    destruct Hs as (x & ch & d1 & _ & _ & _ & _ & Hs & Hc). apply checkpointed_event in Hc as (? & ? & _ & _ & _ & -> & _).
    by eapply Hsaved.
Qed.

(** Promoting a scenario's copy of a chart adds a baseline of its source chart with
    the data of the copy, and leaves the chart and the copy; or it fails and changes
    nothing, unless the commit itself reported the failure. *)
Theorem PromoteScenarioChartToBaseline_spec {E : DbEnv} id name c r c' :
  PromoteScenarioChartToBaseline id name c = (r, c') ->
  match r with
  | Ok b => promotion id name (file c) (file c') b
  | Err ErrDbCommit => file c' = file c \/ exists b, promotion id name (file c) (file c') b
  | Err _ => file c' = file c
  end.
Proof.
  intros [(b & Hs%copy_promotion & Hres)|[Hf F]]%PromoteScenarioChartToBaseline_effect.
  - destruct Hres as [->| ->]; [done|]. right. by exists b.
  - destruct r as [y|e]; [done|]. destruct e; first [exact F|by left].
Qed.

(** ** A concrete history

    A chart, and with it an approved document; or two scenarios, the second of which
    replaces the first as the active one, and a copy of the chart, promoted to a
    baseline. *)

Definition demo_chart : Session :=
  (@SaveChart calm (mkChart "c1" "p1" "gantt" "Plan" "{}" "{}" "" "" "") fresh).2.

Definition demo_document : Document := mkDocument "d1" "p1" "charter" "Charter" "" "" 0 "approved" "" "".
Definition demo_approved : Session := (@SaveDocument calm demo_document demo_chart).2.

Definition demo_scenario (id : string) : Scenario := mkScenario id "p1" id "" "" true "" "".
Definition demo_first : Session := (@SaveScenario calm (demo_scenario "s1") demo_chart).2.
Definition demo_second : Session := (@SaveScenario calm (demo_scenario "s2") demo_first).2.
Definition demo_branched : Session := (@BranchScenarioChart calm "s2" "c1" "" demo_second).2.

Definition demo_copy_id : string := default "" (fst <$> head (map_to_list (scenario_charts (plans (file demo_branched))))).
Definition demo_promoted : Session := (@PromoteScenarioChartToBaseline calm demo_copy_id " Re-plan " demo_branched).2.

(** One statement fails. *)
Definition fault_at (k : nat) : DbEnv :=
  {| db_clock := @db_clock calm; db_entropy := @db_entropy calm; db_entropy_length := @db_entropy_length calm;
     db_statement_fails := Nat.eqb k; db_rows := @db_rows calm; db_rows_perm := @db_rows_perm calm;
     db_rows_cut := fun _ => None; db_commit := fun _ => Committed |}.

Lemma calm_step T A (m : DbTx A) c : @project_op calm T A m -> TProject ∉ T -> reachable (file c) ->
  reachable (file (m c).2).
Proof.
  intros Hop Hn Hr. unfold reachable. etrans; [exact Hr|]. apply rtc_once.
  exact (step_other calm T A m c (m c).1 (m c).2 Hop Hn (surjective_pairing _)).
Qed.

Lemma demo_chart_reachable : reachable (file demo_chart).
Proof. refine (calm_step _ _ _ fresh (op_save_chart _) _ fresh_reachable). by_decide. Qed.

Lemma demo_approved_reachable : reachable (file demo_approved).
Proof. refine (calm_step _ _ _ demo_chart (op_save_document _) _ demo_chart_reachable). by_decide. Qed.

Lemma demo_first_reachable : reachable (file demo_first).
Proof. refine (calm_step _ _ _ demo_chart (op_save_scenario _) _ demo_chart_reachable). by_decide. Qed.

Lemma demo_second_reachable : reachable (file demo_second).
Proof. refine (calm_step _ _ _ demo_first (op_save_scenario _) _ demo_first_reachable). by_decide. Qed.

Lemma demo_branched_reachable : reachable (file demo_branched).
Proof. refine (calm_step _ _ _ demo_second (op_branch _ _ _) _ demo_second_reachable). by_decide. Qed.

Lemma reachable_approvals_witness : exists t l, documents (plans (file demo_approved)) !! "d1"%string = Some t
  /\ audit_events (file demo_approved) = Some l /\ approval_recorded l (row t).
Proof.
  assert (Hs : match documents (plans (file demo_approved)) !! "d1"%string with
               | Some t => String.eqb (doc_Status (row t)) "approved" | None => false end = true)
    by (vm_compute; reflexivity).
  pose proof (reachable_approvals _ demo_approved_reachable "d1") as H.
  destruct (documents (plans (file demo_approved)) !! "d1"%string) as [t|]; [|discriminate Hs].
  destruct (H t eq_refl) as (l & Hl & Ha); [apply String.eqb_eq; exact Hs|].
  exists t, l. split; [reflexivity|]. split; [exact Hl|exact Ha].
Defined.

Lemma SaveDocument_spec_witness : exists after,
  document_outcome demo_document (file demo_chart) (file demo_approved) after /\ doc_Version after = 1.
Proof.
  pose proof (SaveDocument_spec (E := calm) demo_document demo_chart _ _ demo_chart_reachable (surjective_pairing _)) as H.
  assert (Hv : match (@SaveDocument calm demo_document demo_chart).1 with
               | Ok x => doc_Version x =? 1 | Err _ => false end = true) by (vm_compute; reflexivity).
  destruct ((@SaveDocument calm demo_document demo_chart).1) as [after|e]; [|discriminate Hv].
  exists after. split; [exact H|apply Z.eqb_eq; exact Hv].
Defined.

Definition demo_row (id : string) : Timed Scenario :=
  default (mkTimed (demo_scenario "") 0 0) (scenarios (plans (file demo_second)) !! id).

Lemma reachable_one_active_witness :
  sc_IsActive (row (demo_row "s2")) = true /\ sc_IsActive (row (demo_row "s1")) = false.
Proof.
  assert (A : sc_IsActive (row (demo_row "s2")) = true) by (vm_compute; reflexivity).
  split; [exact A|].
  refine (reachable_one_active (file demo_second) "s2" (demo_row "s2") demo_second_reachable _ A
            "s1" (demo_row "s1") _ _ _); [vm_compute; reflexivity..|discriminate|vm_compute; reflexivity].
Defined.

Lemma SaveScenario_spec_witness : exists after,
  scenario_outcome (demo_scenario "s2") (file demo_first) (file demo_second) after.
Proof.
  pose proof (SaveScenario_spec (E := calm) (demo_scenario "s2") demo_first _ _ demo_first_reachable
                (surjective_pairing _)) as H.
  assert (Hok : is_ok (@SaveScenario calm (demo_scenario "s2") demo_first).1 = true) by (vm_compute; reflexivity).
  destruct ((@SaveScenario calm (demo_scenario "s2") demo_first).1) as [after|e]; [|discriminate Hok].
  exists after. exact H.
Defined.

(** The insertion of the event of the replaced scenario fails. *)
Definition demo_locked : Session := (@SaveScenario (fault_at 28) (demo_scenario "s2") demo_first).2.

Definition demo_save : @any_op (fault_at 28) :=
  existT _ (existT _ (exist _ _ (@op_save_document (fault_at 28) demo_document))).

Lemma SaveScenario_lock_witness :
  file (foldl (@run_op (fault_at 28)) demo_locked [demo_save; demo_save]) = file demo_first.
Proof.
  pose proof (SaveScenario_lock (E := fault_at 28) (demo_scenario "s2") demo_first _ demo_locked
    [demo_save; demo_save] (surjective_pairing _)) as H.
  assert (H1 : write_locked demo_first = false) by (vm_compute; reflexivity).
  assert (H2 : write_locked demo_locked = true) by (vm_compute; reflexivity).
  exact (proj2 (proj2 (proj2 (H H1 H2)))).
Defined.

Lemma DeleteBaseline_misreports_witness : exists c',
  @DeleteBaseline (fault_at (S (statements_run demo_promoted))) "baseline_07070707" demo_promoted = (Ok (), c')
  /\ file c' = file demo_promoted /\ is_Some (baselines (file demo_promoted) !! "baseline_07070707"%string).
Proof.
  destruct (DeleteBaseline_misreports (E := fault_at (S (statements_run demo_promoted))) "baseline_07070707"
              demo_promoted) as (c' & H1 & H2).
  - vm_compute. reflexivity.
  - vm_compute. reflexivity.
  - reflexivity.
  - exists c'. split; [exact H1|]. split; [exact H2|]. by_decide.
Defined.

Lemma baselines_immutable_witness : exists b,
  baselines (file demo_promoted) !! "baseline_07070707"%string = Some b
  /\ baselines (file (@DeleteScenario calm "s2" demo_promoted).2) !! "baseline_07070707"%string = Some b.
Proof.
  assert (Hst : project_step (file demo_promoted) (file (@DeleteScenario calm "s2" demo_promoted).2)).
  { refine (step_other calm _ _ _ demo_promoted _ _ (op_delete_scenario "s2") _ (surjective_pairing _)). by_decide. }
  assert (H1 : bool_decide (is_Some (baselines (file demo_promoted) !! "baseline_07070707"%string)) = true)
    by (vm_compute; reflexivity).
  assert (H2 : bool_decide (is_Some (baselines (file (@DeleteScenario calm "s2" demo_promoted).2)
                                       !! "baseline_07070707"%string)) = true) by (vm_compute; reflexivity).
  apply bool_decide_eq_true in H1, H2. destruct H1 as [b Hb]. exists b. split; [exact Hb|].
  destruct (baselines_immutable _ _ Hst "baseline_07070707" b Hb) as [H|[H _]]; [exact H|exfalso].
  rewrite H in H2. exact (is_Some_None H2).
Defined.

Lemma PromoteScenarioChartToBaseline_spec_witness : exists b,
  promotion demo_copy_id " Re-plan " (file demo_branched) (file demo_promoted) b.
Proof.
  pose proof (PromoteScenarioChartToBaseline_spec (E := calm) demo_copy_id " Re-plan " demo_branched _ _
                (surjective_pairing _)) as H.
  assert (Hok : is_ok (@PromoteScenarioChartToBaseline calm demo_copy_id " Re-plan " demo_branched).1 = true)
    by (vm_compute; reflexivity).
  destruct ((@PromoteScenarioChartToBaseline calm demo_copy_id " Re-plan " demo_branched).1) as [b|e];
    [|discriminate Hok].
  exists b. exact H.
Defined.
