(* ===== verification/AgileHistory.v ===== *)
(** * The agile pack over the life of a file

    The board and its columns in every reachable file, what deleting a column does,
    and the deployments the metrics count. *)

From S2P Require Import Prelude GoFloat GoStrings GoTime GoSha256 GoJson GoJsonV2 Money Wbs ProjectDb AuditChain AuditTheorems AuditHistory Charts ChartsTheorems ProjectKeeps Projects PlanTheorems Documents Baselines Scenarios CostControl CostAttachments WbsStore WbsInvariant Dora Agile Stakeholders ProjectFrames WriteLock ProjectMachine WbsHistory PlanHistory.

Local Open Scope Z_scope.

(** ** The board *)

(** One board at most, with its built-in columns; every column is of that board. *)
Record board_ok (boards : gmap string Board) (columns : gmap string Column) (ps : list string) : Prop := {
  board_default : forall id b, boards !! id = Some b ->
    bd_ID b = id /\ bd_IsDefault b = true /\ bd_ProjectID b ∈ ps;
  board_only : forall id b id' b', boards !! id = Some b -> boards !! id' = Some b' -> id = id';
  board_builtin : forall id b, boards !! id = Some b -> forall c, c ∈ DefaultColumns id ->
    exists c', columns !! col_ID c = Some c' /\ col_BoardID c' = id;
  board_column : forall id c, columns !! id = Some c -> col_ID c = id /\ is_Some (boards !! col_BoardID c)
    /\ col_Name c <> ""%string /\ 0 <= col_WIPLimit c
}.

Definition agile_ok (d : ProjectDB) : Prop :=
  (length (projects d) <= 1)%nat
  /\ board_ok (agile_boards (agile d)) (agile_columns (agile d)) (projects d)
  /\ (forall id w, agile_work_items (agile d) !! id = Some w -> wi_ID w = id /\ wi_ProjectID w ∈ projects d).

(** *** Operations that keep it *)

Definition preserves (P : ProjectDB -> Prop) (d d' : ProjectDB) : Prop := P d -> P d'.

#[export] Instance preserves_preorder P : PreOrder (preserves P).
Proof. split; [intros d H; exact H|intros d1 d2 d3 H1 H2 H; by apply H2, H1]. Qed.

Lemma default_column_board id c : c ∈ DefaultColumns id ->
  col_BoardID c = id /\ col_Name c <> ""%string /\ 0 <= col_WIPLimit c /\ isBuiltInColumn (col_ID c) = true.
Proof.
  unfold DefaultColumns. rewrite !elem_of_cons, elem_of_nil. intros [->|[->|[->|[->|[]]]]]; by split_and!.
Qed.

Lemma seed_column_ok c d d' id b : agile_boards (agile d) !! id = Some b -> c ∈ DefaultColumns id ->
  sql_seed_column c d = Some d' -> agile_ok d -> agile_ok d' /\ agile_boards (agile d') = agile_boards (agile d).
Proof.
  intros Hb Hc Hs Hok. unfold sql_seed_column in Hs. destruct Hok as (Hp & [B1 B2 B3 B4] & Hi).
  destruct (B3 _ _ Hb _ Hc) as (c' & Hc' & _). rewrite Hc' in Hs. injection Hs as <-. by split_and!.
Qed.

Lemma upsert_column_ok c d n d' : col_Name c <> ""%string -> 0 <= col_WIPLimit c ->
  sql_upsert_column c d = Some (n, d') -> agile_ok d -> agile_ok d'.
Proof.
  intros Hn Hw Hs (Hp & [B1 B2 B3 B4] & Hi). unfold sql_upsert_column in Hs.
  assert (Hput : is_Some (agile_boards (agile d) !! col_BoardID c) ->
    (forall old, agile_columns (agile d) !! col_ID c = Some old -> col_BoardID old = col_BoardID c) ->
    agile_ok (set_columns (<[col_ID c := c]> (agile_columns (agile d))) d)).
  { intros Hb Hold. split_and!; [exact Hp|split|exact Hi]; cbn.
    - exact B1.
    - exact B2.
    - intros id b Hb0 c0 Hc0. destruct (B3 _ _ Hb0 _ Hc0) as (c' & Hc' & Hb').
      destruct (decide (col_ID c = col_ID c0)) as [E|Hne].
      + exists c. rewrite E, lookup_insert_eq. split; [done|]. rewrite <- Hb'. symmetry. apply Hold. by rewrite E.
      + exists c'. by rewrite lookup_insert_ne.
    - intros id c0 [[<- <-]|[_ H0]]%lookup_insert_Some; [by split_and!|by apply B4]. }
  destruct (agile_columns (agile d) !! col_ID c) as [old|] eqn:Eo.
  - destruct (String.eqb_spec (col_BoardID old) (col_BoardID c)) as [E|]; injection Hs as _ <-.
    + apply Hput; [|intros ? [= <-]; done]. rewrite <- E. by apply (B4 _ _ Eo).
    + by split_and!.
  - destruct (agile_boards (agile d) !! col_BoardID c) eqn:Eb; [|done]. injection Hs as _ <-.
    apply Hput; [by eexists|done].
Qed.

Lemma delete_column_ok id pid d n d' : isBuiltInColumn id = false ->
  sql_delete_column id pid d = Some (n, d') -> agile_ok d -> agile_ok d'.
Proof.
  intros Hn Hs Hok. unfold sql_delete_column in Hs.
  destruct (agile_columns (agile d) !! id) as [c|]; [|by injection Hs as _ <-].
  destruct (_ && _); injection Hs as _ <-; [|done]. destruct Hok as (Hp & [B1 B2 B3 B4] & Hi).
  split_and!; [exact Hp|split|exact Hi]; cbn.
  - exact B1.
  - exact B2.
  - intros id0 b Hb c0 Hc0. destruct (B3 _ _ Hb _ Hc0) as (c' & Hc' & Hb'). exists c'. split; [|done].
    rewrite lookup_delete_ne; [done|]. intros ->. destruct (default_column_board _ _ Hc0) as (_ & _ & _ & Hbi). congruence.
  - intros id0 c0 [_ H0]%lookup_delete_Some. by apply B4.
Qed.

(** Work items. *)
Lemma items_ok d d' (f : gmap string WorkItem) : d' = set_work_items f d ->
  (forall id w, f !! id = Some w -> wi_ID w = id /\ wi_ProjectID w ∈ projects d) -> agile_ok d -> agile_ok d'.
Proof. intros -> Hf (Hp & Hb & _). by split_and!. Qed.

Lemma upsert_item_ok w d n d' : sql_upsert_work_item w d = Some (n, d') -> agile_ok d -> agile_ok d'.
Proof.
  intros Hs Hok. unfold sql_upsert_work_item in Hs. destruct (real_column (wi_Points w)); [|done].
  cbn zeta in Hs. cbn [wi_ID wi_ProjectID] in Hs. pose proof Hok as (_ & _ & Hi).
  destruct (agile_work_items (agile d) !! wi_ID w) as [old|] eqn:Eo.
  - destruct (String.eqb _ _); injection Hs as _ <-; [|done]. eapply items_ok; [done| |done].
    intros id w0 [[<- <-]|[_ H0]]%lookup_insert_Some; [|by apply Hi]. by destruct (Hi _ _ Eo) as [<- ?].
  - case_bool_decide as Hp; [|done]. injection Hs as _ <-. eapply items_ok; [done| |done].
    intros id w0 [[<- <-]|[_ H0]]%lookup_insert_Some; [done|by apply Hi].
Qed.

Lemma delete_item_ok id pid d d' : sql_delete_work_item id pid d = Some d' -> agile_ok d -> agile_ok d'.
Proof.
  intros Hs Hok. unfold sql_delete_work_item in Hs. pose proof Hok as (_ & _ & Hi).
  destruct (_ !! id); [|by injection Hs as <-]. destruct (String.eqb _ _); injection Hs as <-; [|done].
  eapply items_ok; [done| |done]. intros id0 w0 [_ H0]%lookup_delete_Some. by apply Hi.
Qed.

Lemma move_item_ok id pid state order now closed d d' :
  sql_move_work_item id pid state order now closed d = Some d' -> agile_ok d -> agile_ok d'.
Proof.
  intros Hs Hok. unfold sql_move_work_item in Hs. pose proof Hok as (_ & _ & Hi).
  destruct (_ !! id) as [w|] eqn:Ew; [|by injection Hs as <-]. destruct (String.eqb _ _); injection Hs as <-; [|done].
  eapply items_ok; [done| |done]. intros id0 w0 [[<- <-]|[_ H0]]%lookup_insert_Some; [|by apply Hi].
  by apply (Hi _ _ Ew).
Qed.

Lemma clear_sprint_ok id pid d d' : sql_clear_sprint id pid d = Some d' -> agile_ok d -> agile_ok d'.
Proof.
  intros Hs Hok. injection Hs as <-. pose proof Hok as (_ & _ & Hi). eapply items_ok; [done| |done].
  intros id0 w0. rewrite lookup_fmap. destruct (agile_work_items (agile d) !! id0) as [w|] eqn:Ew; [|done].
  intros [= <-]. apply Hi in Ew. unfold leave_sprint. by destruct (_ && _).
Qed.

Definition default_columns_map (id : string) : gmap string Column :=
  foldl (fun m c => <[col_ID c := c]> m) ∅ (DefaultColumns id).

(** A new board, when the project has none. *)
Lemma insert_board_ok id pid name t1 t2 d d1 : default_boards pid d = [] -> agile_ok d ->
  sql_insert_board (mkBoard id pid name true t1 t2) d = Some d1 ->
  agile_columns (agile d) = ∅ /\ agile_boards (agile d1) !! id = Some (mkBoard id pid name true t1 t2)
  /\ agile_ok (set_columns (default_columns_map id) d1).
Proof.
  intros Hno (Hp & [B1 B2 B3 B4] & Hi) Hs. unfold sql_insert_board in Hs. cbn [bd_ID bd_ProjectID] in Hs.
  destruct (agile_boards (agile d) !! id) eqn:Eid; [done|]. case_bool_decide as Hin; [|done]. injection Hs as <-.
  assert (Hnone : agile_boards (agile d) = ∅).
  { apply map_empty. intros id0. destruct (agile_boards (agile d) !! id0) as [b|] eqn:Eb; [exfalso|done].
    destruct (B1 _ _ Eb) as (_ & Hdef & Hpr). assert (Epr : bd_ProjectID b = pid).
    { destruct (projects d) as [|p0 [|p1 ps]]; [by apply not_elem_of_nil in Hin| |cbn in Hp; lia].
      apply list_elem_of_singleton in Hin, Hpr. congruence. }
    apply (not_elem_of_nil b). rewrite <- Hno. apply list_elem_of_filter. split; [done|].
    apply list_elem_of_fmap. exists (id0, b). split; [done|by apply elem_of_map_to_list]. }
  assert (Hcols : agile_columns (agile d) = ∅).
  { apply map_empty. intros k. destruct (agile_columns (agile d) !! k) as [c|] eqn:Ec; [exfalso|done].
    destruct (B4 _ _ Ec) as (_ & [b Hb] & _). by rewrite Hnone, lookup_empty in Hb. }
  split; [done|]. split; [by cbn; rewrite lookup_insert_eq|]. split_and!; [exact Hp|split|exact Hi].
  - intros id0 b. cbn [agile_boards agile set_columns set_agile set_boards]. rewrite Hnone.
    intros [[<- <-]|[_ H0]]%lookup_insert_Some; [done|by rewrite lookup_empty in H0].
  - intros id0 b id1 b'. cbn [agile_boards agile set_columns set_agile set_boards]. rewrite Hnone.
    intros [[<- <-]|[_ H0]]%lookup_insert_Some [[<- <-]|[_ H1]]%lookup_insert_Some; [done|..];
      by rewrite ?lookup_empty in *.
  - intros id0 b. cbn [agile_boards agile_columns agile set_columns set_agile set_boards]. rewrite Hnone.
    intros [[<- <-]|[_ H0]]%lookup_insert_Some c Hc; [|by rewrite lookup_empty in H0].
    exists c. split; [|by apply default_column_board].
    unfold DefaultColumns in Hc. rewrite !elem_of_cons, elem_of_nil in Hc. by destruct Hc as [->|[->|[->|[->|[]]]]].
  - intros k c. cbn [agile_boards agile_columns agile set_columns set_agile set_boards].
    unfold default_columns_map, DefaultColumns. cbn [foldl col_ID].
    rewrite !lookup_insert_Some, lookup_empty. intros Hk.
    assert (Hc : col_ID c = k /\ col_BoardID c = id /\ col_Name c <> ""%string /\ 0 <= col_WIPLimit c)
      by (destruct Hk as [[<- <-]|[_ [[<- <-]|[_ [[<- <-]|[_ [[<- <-]|[_ ?]]]]]]]]; done).
    destruct Hc as (<- & -> & Hn & Hw). split_and!; [done| |done..]. rewrite lookup_insert_eq. by eexists.
Qed.

Section runs.
Context `{DbEnv}.

Lemma seed_columns_ok l id b : (forall x, x ∈ l -> x ∈ DefaultColumns id) -> forall c r c',
  agile_boards (agile (file c)) !! id = Some b -> seed_columns l c = (r, c') ->
  agile_ok (file c) -> agile_ok (file c').
Proof.
  intros Hl. induction l as [|x l IH]; intros c r c' Hb; cbn [seed_columns].
  { intros Hr. by injection Hr as _ <-. }
  intros Hr Hok. unfold dtx_bind in Hr. destruct (dtx_exec _ c) as [[u|e] c1] eqn:E;
    apply dtx_exec_effect in E as [[? He]|[? F]]; try done; [|injection Hr as _ <-; by rewrite F].
  destruct (seed_column_ok _ _ _ _ _ Hb (Hl x ltac:(left)) He Hok) as [Hok1 Eb].
  eapply IH; [|rewrite Eb; exact Hb|exact Hr|exact Hok1]. intros y Hy. apply Hl. by right.
Qed.

Lemma seed_new_columns id b c u c' : agile_columns (agile (file c)) = ∅ ->
  agile_boards (agile (file c)) !! id = Some b -> ensureDefaultColumns id c = (Ok u, c') ->
  file c' = set_columns (default_columns_map id) (file c).
Proof.
  intros Hn Hb. unfold ensureDefaultColumns, DefaultColumns. cbn [seed_columns].
  intros (u1 & c1 & H1%dtx_exec_Ok & Hr)%dtx_bind_Ok. apply dtx_bind_Ok in Hr as (u2 & c2 & H2%dtx_exec_Ok & Hr).
  apply dtx_bind_Ok in Hr as (u3 & c3 & H3%dtx_exec_Ok & Hr).
  apply dtx_bind_Ok in Hr as (u4 & c4 & H4%dtx_exec_Ok & Hr). injection Hr as _ <-.
  assert (Hone : forall x d d', agile_columns (agile d) !! col_ID x = None ->
    agile_boards (agile d) !! col_BoardID x = Some b -> sql_seed_column x d = Some d' ->
    d' = set_columns (<[col_ID x := x]> (agile_columns (agile d))) d).
  { intros x d d' E1 E2 Hs. unfold sql_seed_column in Hs. rewrite E1, E2 in Hs. by injection Hs as <-. }
  apply Hone in H1; [|by rewrite Hn|done]. rewrite Hn in H1. cbn [col_ID] in H1.
  apply Hone in H2; [|by rewrite H1|by rewrite H1]. rewrite H1 in H2. cbn in H2.
  apply Hone in H3; [|by rewrite H2|by rewrite H2]. rewrite H2 in H3. cbn in H3.
  apply Hone in H4; [|by rewrite H3|by rewrite H3]. by rewrite H3 in H4.
Qed.

Lemma default_board_found pid d b : agile_ok d -> b ∈ default_boards pid d ->
  agile_boards (agile d) !! bd_ID b = Some b /\ bd_ProjectID b = pid.
Proof.
  intros (_ & [B1 _ _ _] & _) [[Hp _] Hb]%list_elem_of_filter.
  apply list_elem_of_fmap in Hb as ([id b'] & -> & Hb%elem_of_map_to_list). cbn in *.
  by destruct (B1 _ _ Hb) as (-> & _).
Qed.

(** The transaction that creates a board. *)
Lemma create_board_ok pid id c r c' : default_boards pid (file c) = [] -> agile_ok (file c) ->
  in_tx (now <== dtx_now ;;
         let now := strftime_now now in
         _ <== dtx_exec (sql_insert_board (mkBoard id pid "Main board" true now now)) ;;
         ensureDefaultColumns id) c = (r, c') ->
  agile_ok (file c')
  /\ (is_ok r = true -> default_boards pid (file c') <> []).
Proof.
  intros Hno Hok [(u & c0 & c1 & F0 & Hb & F1 & _)|[Hf F]]%in_tx_effect; [|by rewrite F, Hf].
  apply dtx_bind_Ok in Hb as (now & c2 & Hnow & Hb). cbn zeta in Hb.
  assert (F2 : file c2 = file c0) by by injection Hnow as _ <-.
  apply dtx_bind_Ok in Hb as (u1 & c3 & Hi%dtx_exec_Ok & Hb). rewrite F2, F0 in Hi.
  destruct (insert_board_ok _ _ _ _ _ _ _ Hno Hok Hi) as (Hc & Hb0 & Hok').
  assert (Hc3 : agile_columns (agile (file c3)) = ∅).
  { unfold sql_insert_board in Hi. destruct (_ !! _); [done|]. case_bool_decide; [|done]. by injection Hi as <-. }
  rewrite F1, (seed_new_columns _ _ _ _ _ Hc3 Hb0 Hb). split; [done|]. intros _ Hnil.
  apply (not_elem_of_nil (mkBoard id pid "Main board" true (strftime_now now) (strftime_now now))).
  rewrite <- Hnil. apply list_elem_of_filter. split; [done|]. apply list_elem_of_fmap.
  eexists (_, _). split; [reflexivity|]. apply elem_of_map_to_list. exact Hb0.
Qed.

Lemma ensure_board_ok pid again c r c' :
  (forall c r c', agile_ok (file c) -> again c = (r, c') -> agile_ok (file c')) ->
  agile_ok (file c) -> ensure_board pid again c = (r, c') -> agile_ok (file c').
Proof.
  intros Hagain Hok. unfold ensure_board.
  intros [(rows & c1 & Hrows & F1 & Hr)|[_ F]]%reads_then; [|by rewrite F|apply keeps_rows; apply _].
  apply dtx_rows_Ok in Hrows as (l & [= <-] & Hperm & _). rewrite <- F1 in Hok. destruct rows as [|b rows].
  - apply Permutation_nil_l in Hperm. rewrite <- F1 in Hperm. revert Hr.
    intros [(id & c2 & _ & F2 & Hr)|[_ F]]%reads_then; [|by rewrite F|apply keeps_newID; apply _].
    assert (Hno : default_boards pid (file c2) = []) by by rewrite F2. assert (Hok2 : agile_ok (file c2)) by by rewrite F2.
    unfold dtx_bind at 1 in Hr. destruct (in_tx _ c2) as [[u|e] c3] eqn:E;
      (apply create_board_ok in E as [Hok3 _]; [|exact Hno|exact Hok2]); [exact (Hagain _ _ _ Hok3 Hr)|by injection Hr as _ <-].
  - assert (Hin : b ∈ default_boards pid (file c)) by (rewrite <- Hperm; by left). rewrite <- F1 in Hin.
    destruct (default_board_found _ _ _ Hok Hin) as [Hb _]. unfold dtx_bind at 1 in Hr.
    destruct (ensureDefaultColumns (bd_ID b) c1) as [[u|e] c2] eqn:E;
      (eapply seed_columns_ok in E; [|intros x Hx; exact Hx|exact Hb|exact Hok]); by injection Hr as _ <-.
Qed.

Lemma EnsureDefaultBoard_ok fuel pid c r c' :
  agile_ok (file c) -> EnsureDefaultBoard_fuel fuel pid c = (r, c') -> agile_ok (file c').
Proof.
  revert c r c'. induction fuel as [|fuel IH]; intros c r c' Hok; cbn [EnsureDefaultBoard_fuel].
  - intros Hr. by injection Hr as _ <-.
  - intros Hr. eapply ensure_board_ok; [exact IH|exact Hok|exact Hr].
Qed.

(** Two rounds are enough ([EnsureDefaultBoard_rounds]): after a board has been created
    it is found. *)
Lemma ensure_board_rounds pid again again' c : agile_ok (file c) ->
  (forall c1, agile_ok (file c1) -> default_boards pid (file c1) <> [] -> again c1 = again' c1) ->
  ensure_board pid again c = ensure_board pid again' c.
Proof.
  intros Hok Hagain. unfold ensure_board, dtx_bind at 1 7.
  destruct (dtx_rows _ c) as [[rows|e] c1] eqn:Hrows; [|done].
  apply dtx_rows_Ok in Hrows as (l & [= <-] & Hperm & F1). destruct rows as [|b rows]; [|done].
  apply Permutation_nil_l in Hperm. unfold dtx_bind at 1 5.
  destruct (newID "board" c1) as [[id|e] c2] eqn:Hid; [|done]. apply newID_Ok in Hid as F2.
  unfold dtx_bind at 1 4. destruct (in_tx _ c2) as [[u|e] c3] eqn:E; [|done].
  apply create_board_ok in E as [Hok3 Hne]; [by apply Hagain, Hne|by rewrite F2, F1|by rewrite F2, F1].
Qed.

Lemma ensure_board_found pid again again' c : default_boards pid (file c) <> [] ->
  ensure_board pid again c = ensure_board pid again' c.
Proof.
  intros Hne. unfold ensure_board, dtx_bind at 1 7. destruct (dtx_rows _ c) as [[rows|e] c1] eqn:Hrows; [|done].
  apply dtx_rows_Ok in Hrows as (l & [= <-] & Hperm & _). destruct rows as [|b rows]; [|done].
  by apply Permutation_nil_l in Hperm.
Qed.

Lemma EnsureDefaultBoard_rounds pid fuel c : agile_ok (file c) ->
  EnsureDefaultBoard_fuel (S (S fuel)) pid c = EnsureDefaultBoard pid c.
Proof.
  intros Hok. unfold EnsureDefaultBoard. cbn [EnsureDefaultBoard_fuel]. apply ensure_board_rounds; [exact Hok|].
  intros c1 _ Hne. by apply ensure_board_found.
Qed.

Lemma keeps_guard_bind {A} R `{!PreOrder R} b e (k : unit -> DbTx A) :
  (b = true -> Keeps R (k ())) -> Keeps R (dtx_bind (dtx_guard b e) k).
Proof.
  intros Hk. unfold dtx_guard. destruct b.
  - intros c r c' Hr. by eapply Hk.
  - intros c r c' Hr. by injection Hr as _ <-.
Qed.

Lemma keeps_SaveColumn pid x : Keeps (preserves agile_ok) (SaveColumn pid x).
Proof.
  unfold SaveColumn. apply keeps_bind; [apply _|keeps|intros id]. cbn zeta.
  apply keeps_guard_bind; [apply _|intros Hn%negb_true_iff]. apply keeps_guard_bind; [apply _|intros Hw].
  unfold requireOneRow. keeps. intros Hok. eapply upsert_column_ok; [| |done|exact Hok]; cbn [col_Name col_WIPLimit].
  - intros E. rewrite E in Hn. done.
  - lia.
Qed.

Lemma keeps_DeleteColumn pid id : Keeps (preserves agile_ok) (DeleteColumn pid id).
Proof.
  unfold DeleteColumn. apply keeps_guard_bind; [apply _|intros Hn%negb_true_iff]. keeps.
  intros Hok. by eapply delete_column_ok.
Qed.

Lemma keeps_items pid w id state order :
  Keeps (preserves agile_ok) (SaveWorkItem pid w) /\ Keeps (preserves agile_ok) (DeleteWorkItem pid id)
  /\ Keeps (preserves agile_ok) (MoveWorkItem pid id state order).
Proof.
  unfold SaveWorkItem, GetWorkItem, requireOneRow, DeleteWorkItem, MoveWorkItem. split_and!; keeps; intros Hok.
  - by eapply upsert_item_ok.
  - by eapply delete_item_ok.
  - by eapply move_item_ok.
Qed.

Lemma delete_sprint_ok id pid d d' : sql_delete_sprint id pid d = Some d' -> agile_ok d -> agile_ok d'.
Proof.
  unfold sql_delete_sprint. intros Hs Hok. destruct (_ !! id); [|by injection Hs as <-].
  destruct (String.eqb _ _); by injection Hs as <-.
Qed.

Lemma keeps_DeleteSprint pid id : Keeps (preserves agile_ok) (DeleteSprint pid id).
Proof. unfold DeleteSprint. keeps; intros Hok; [by eapply clear_sprint_ok|by eapply delete_sprint_ok]. Qed.

End runs.

Lemma agile_ok_same T d d' : touches T d d' -> TProject ∉ T -> TBoards ∉ T -> TColumns ∉ T -> TItems ∉ T ->
  agile_ok d -> agile_ok d'.
Proof.
  intros Ht H1 H2 H3 H4 (Hp & Hb & Hi). unfold agile_ok. unfold projects in *.
  rewrite (touches_project _ _ _ Ht H1), (touches_boards _ _ _ Ht H2), (touches_columns _ _ _ Ht H3),
    (touches_items _ _ _ Ht H4). by split_and!.
Qed.

Lemma project_step_agile d d' : project_step d d' -> agile_ok d -> agile_ok d'.
Proof.
  intros [E T A m c r c' Hop Hr Hone] Hok. pose proof (project_op_touches _ _ _ Hop _ _ _ Hr) as Ht.
  destruct Hop; try (refine (agile_ok_same _ _ _ Ht _ _ _ _ Hok); by_decide).
  - destruct Hok as (Hp & [B1 B2 B3 B4] & Hi).
    assert (Hmono : forall q, q ∈ projects (file c) -> q ∈ projects (file c')).
    { intros q Hq. destruct Hone as [E0|E0]; rewrite E0 in *; [by apply not_elem_of_nil in Hq|done]. }
    assert (Hlen : (length (projects (file c')) <= 1)%nat).
    { destruct Hone as [E0|E0]; [|by rewrite E0].
      apply UpsertProject_effect in Hr as [(after & Hs & _)|[_ ->]]; [|done].
      destruct Hs as (id & cur & text & now & d1 & i & e & _ & _ & _ & Hup & _ & _ & _ & He).
      apply appends_same in He as (_ & Hpr & _). rewrite Hpr, (sql_upsert_ids _ _ _ _ Hup), E0.
      case_bool_decide; cbn; lia. }
    unfold agile_ok. rewrite (touches_boards _ _ _ Ht), (touches_columns _ _ _ Ht), (touches_items _ _ _ Ht) by by_decide.
    split_and!; [exact Hlen|split|].
    + intros id b Hb. destruct (B1 _ _ Hb) as (? & ? & ?). auto.
    + exact B2.
    + exact B3.
    + exact B4.
    + intros id w Hw. destruct (Hi _ _ Hw). auto.
  - by eapply EnsureDefaultBoard_ok.
  - by eapply keeps_SaveColumn.
  - by eapply keeps_DeleteColumn.
  - destruct (keeps_items pid w "" "" 0) as (Hk & _). by eapply Hk.
  - destruct (keeps_items pid (mkItem "" "" "" "" "" "" fzero "" "" "" 0 0 0 0) id "" 0) as (_ & Hk & _). by eapply Hk.
  - destruct (keeps_items pid (mkItem "" "" "" "" "" "" fzero "" "" "" 0 0 0 0) id state order) as (_ & _ & Hk).
    by eapply Hk.
  - by eapply keeps_DeleteSprint.
Qed.

Lemma reachable_agile_ok d : reachable d -> agile_ok d.
Proof.
  apply reachable_invariant; [|apply project_step_agile].
  split_and!; [cbn; lia|split|]; cbn; intros; simplify_map_eq.
Qed.

(** ** Deleting a column *)

Lemma items_in_elem pid state d w :
  w ∈ items_in pid state d <-> exists k, agile_work_items (agile d) !! k = Some w /\ wi_ProjectID w = pid /\ wi_State w = state.
Proof.
  unfold items_in. rewrite list_elem_of_filter, list_elem_of_fmap. split.
  - intros [Hp ([k w'] & -> & Hk%elem_of_map_to_list)]. by exists k.
  - intros (k & Hk & Hp). split; [done|]. exists (k, w). split; [done|by apply elem_of_map_to_list].
Qed.

(** In a file with one project, no card names an emptied column of its board. *)
Lemma empty_column pid id d x : agile_ok d -> agile_columns (agile d) !! id = Some x ->
  owned_board (col_BoardID x) pid d = true -> items_in pid id d = [] ->
  forall k w, agile_work_items (agile d) !! k = Some w -> wi_State w <> id.
Proof.
  intros (Hp & [B1 _ _ _] & Hi) Hx Ho He k w Hw Hs. apply (not_elem_of_nil w). rewrite <- He.
  apply items_in_elem. exists k. split_and!; [done| |done]. destruct (Hi _ _ Hw) as [_ Hin].
  unfold owned_board in Ho. destruct (agile_boards (agile d) !! col_BoardID x) as [b|] eqn:Eb; [|done].
  apply String.eqb_eq in Ho. destruct (B1 _ _ Eb) as (_ & _ & Hb). rewrite Ho in Hb.
  destruct (projects d) as [|p0 [|p1 ps]]; [by apply not_elem_of_nil in Hb| |cbn in Hp; lia].
  apply list_elem_of_singleton in Hin, Hb. congruence.
Qed.

Lemma DeleteColumn_effect `{DbEnv} pid id c r c' : DeleteColumn pid id c = (r, c') ->
  (isBuiltInColumn id = true /\ r = Err ErrBuiltInColumn /\ file c' = file c)
  \/ isBuiltInColumn id = false
     /\ ((exists x, agile_columns (agile (file c)) !! id = Some x /\ owned_board (col_BoardID x) pid (file c) = true
            /\ items_in pid id (file c) = [] /\ r = Ok ()
            /\ file c' = set_columns (delete id (agile_columns (agile (file c)))) (file c))
         \/ file c' = file c
            /\ ((exists n, r = Err (ColumnNotEmptyError n) /\ n = Z.of_nat (length (items_in pid id (file c))) /\ 0 < n)
                \/ r = Err ErrDbStatement
                \/ (r = Ok () /\ items_in pid id (file c) = []
                    /\ forall x, agile_columns (agile (file c)) !! id = Some x ->
                         owned_board (col_BoardID x) pid (file c) = false))).
Proof.
  unfold DeleteColumn, dtx_bind at 1, dtx_guard at 1. destruct (isBuiltInColumn id); cbn [negb dtx_ret dtx_fail].
  { intros Hr. injection Hr as <- <-. by left. }
  intros Hr. right. split; [done|]. unfold dtx_bind at 1 in Hr. destruct (dtx_affected _ c) as [[n|e] c1] eqn:E; cycle 1.
  { injection Hr as <- <-. right. unfold dtx_affected, dtx_statement in E.
    destruct (write_locked c); [injection E as <- <-; auto|]. destruct (db_statement_fails _); [injection E as <- <-; auto|].
    destruct (sql_delete_column id pid (file c)) as [[]|]; [done|]. injection E as <- <-. auto. }
  apply dtx_affected_effect in E as [(n' & [= <-] & Hs)|[? _]]; [|done].
  assert (Hcase : (n = 1%nat /\ exists x, agile_columns (agile (file c)) !! id = Some x
      /\ owned_board (col_BoardID x) pid (file c) = true /\ items_in pid id (file c) = []
      /\ file c1 = set_columns (delete id (agile_columns (agile (file c)))) (file c))
    \/ (n = 0%nat /\ file c1 = file c /\ (items_in pid id (file c) = [] ->
         forall x, agile_columns (agile (file c)) !! id = Some x -> owned_board (col_BoardID x) pid (file c) = false))).
  { unfold sql_delete_column in Hs. destruct (agile_columns (agile (file c)) !! id) as [x|] eqn:Ex.
    - destruct (owned_board _ _ _) eqn:Eo, (bool_decide _) eqn:Eb; cbn [andb] in Hs; injection Hs as <- <-.
      + apply bool_decide_eq_true in Eb. left. split; [done|]. by exists x.
      + right. split_and!; [done..|]. intros Hn. by apply bool_decide_eq_false in Eb.
      + right. split_and!; [done..|]. intros _ y [= <-]. done.
      + right. split_and!; [done..|]. intros _ y [= <-]. done.
    - injection Hs as <- <-. right. split_and!; [done..|]. intros _ y ?. done. }
  destruct Hcase as [(-> & x & Hx)|(-> & F1 & Hnone)].
  - cbn in Hr. injection Hr as <- <-. left. exists x. destruct Hx as (? & ? & ? & ?). by split_and!.
  - cbn [Nat.ltb Nat.leb] in Hr. unfold dtx_bind in Hr. destruct (dtx_query _ c1) as [[n|e] c2] eqn:Eq.
    + apply dtx_query_Ok in Eq as [[= <-] F2]. rewrite F1 in *. right. unfold dtx_guard in Hr.
      destruct (Z.ltb_spec 0 (Z.of_nat (length (items_in pid id (file c))))); cbn [negb] in Hr;
        injection Hr as <- <-; (split; [exact F2|]).
      * left. eexists. split_and!; [done..|lia].
      * right. right. assert (He : items_in pid id (file c) = []) by (apply length_zero_iff_nil; lia). auto.
    + right. unfold dtx_query, dtx_statement in Eq. destruct (db_statement_fails _); [|done].
      injection Eq as <- <-. injection Hr as <- <-. cbn. auto.
Qed.

(** ** The deployments that are counted *)

Section dora.
Context `{DbEnv}.

Lemma ListDeployments_Ok pid since c l c' : ListDeployments pid since c = (Ok l, c') ->
  l ≡ₚ List.filter (since_or_all since) (deployments_of pid (file c)).
Proof.
  unfold ListDeployments. intros (rows & c1 & (l0 & [= <-] & Hp & _)%dtx_rows_Ok & Hr)%dtx_bind_Ok.
  injection Hr as <- _. by rewrite merge_sort_Permutation.
Qed.

Lemma filter_filter_ext {A} (p q q' : A -> bool) l :
  (forall x, In x l -> p x = true -> q x = q' x) -> List.filter p (List.filter q l) = List.filter p (List.filter q' l).
Proof.
  induction l as [|x l IH]; intros Hx; [done|]. cbn [List.filter].
  assert (IH' := IH (fun y Hy => Hx y (or_intror Hy))). specialize (Hx x (or_introl eq_refl)).
  destruct (p x) eqn:Ep.
  - rewrite (Hx eq_refl). destruct (q' x); cbn [List.filter]; rewrite ?Ep; congruence.
  - destruct (q x), (q' x); cbn [List.filter]; rewrite ?Ep; done.
Qed.

(** What the metrics count is the window of the deployments that [keep] keeps, if it
    agrees with the query on the window. *)
Lemma App_ComputeDORA_keeps pid windowDays keep c r c' : App_ComputeDORA pid windowDays c = (Ok r, c') ->
  let now := db_clock (clock_reads c) in
  let since := AddDays now (- window_days windowDays) in
  now <> zero_time ->
  (forall d, d ∈ deployments_of pid (file c) -> in_window since now d = true -> since_or_all since d = keep d) ->
  r = ComputeDORA (List.filter keep (deployments_of pid (file c))) windowDays now now.
Proof.
  intros Hr now since Hnow Hkeep. unfold App_ComputeDORA in Hr. fold (window_days windowDays) in Hr. cbn zeta in Hr.
  apply dtx_bind_Ok in Hr as (t & c1 & Ht & Hr). injection Ht as Ht Hc1. subst t c1. fold now since in Hr.
  apply dtx_bind_Ok in Hr as (l & c2 & Hl%ListDeployments_Ok & Hr). injection Hr as <- _. cbn [file] in Hl.
  pose proof (window_days_pos windowDays) as Hw.
  assert (Ew : forall ds, ComputeDORA ds (window_days windowDays) now now = ComputeDORA ds windowDays now now).
  { intros ds. rewrite !ComputeDORA_eq by done. unfold window_days at 1 3 5.
    by rewrite (proj2 (Z.leb_gt (window_days windowDays) 0)). }
  rewrite Ew, (ComputeDORA_perm _ _ _ _ _ Hnow Hl), !ComputeDORA_eq by done. f_equal. fold since.
  apply filter_filter_ext. intros d Hd Hin. apply Hkeep; [by apply list_elem_of_In|done].
Qed.

End dora.

(** Texts of one second, the first of them the whole second. *)
Lemma text_since_second since t : four_digit_year since -> four_digit_year t -> since / 10 ^ 9 < t / 10 ^ 9 -> text_since since t.
Proof.
  intros Hs Ht Hlt. unfold text_since, String.le, String.leb. by rewrite RFC3339Nano_second.
Qed.

Lemma text_before_second since t : four_digit_year since -> four_digit_year t -> t / 10 ^ 9 < since / 10 ^ 9 ->
  ~ text_since since t.
Proof.
  intros Hs Ht Hlt Hle. pose proof (RFC3339Nano_second t since Ht Hs Hlt) as Hc.
  unfold text_since, String.le, String.leb in Hle. rewrite String.compare_antisym, Hc in Hle. done.
Qed.

Lemma reverse_zeroes l : drop_zeroes (reverse l) = [] -> Forall (fun x => x = "0"%char) l.
Proof.
  intros Hd. assert (Hall : Forall (fun x => x = "0"%char) (reverse l)).
  { revert Hd. generalize (reverse l) as k. intros k. induction k as [|x k IH]; [constructor|].
    cbn [drop_zeroes]. destruct (Ascii.eqb_spec x "0"%char) as [->|]; [|done]. intros Hd. constructor; auto. }
  apply Forall_reverse in Hall. by rewrite reverse_involutive in Hall.
Qed.

Lemma zero_digits l a : Forall (fun x => x = "0"%char) l -> a = 0 -> parse_digits a l = Some 0.
Proof. intros Hl ->. induction Hl as [|x l -> _ IH]; [done|]. exact IH. Qed.

(** Only a whole second is printed without a fraction. *)
Lemma clock_tail_whole t : clock_tail t = ["Z"%char] <-> t mod 10 ^ 9 = 0.
Proof.
  assert (Hm : t mod day_ns mod 10 ^ 9 = t mod 10 ^ 9) by (unfold day_ns; div_lia).
  unfold clock_tail. rewrite Hm. set (n := t mod 10 ^ 9). assert (Hn : 0 <= n < 10 ^ 9) by (subst n; div_lia).
  clearbody n. clear t Hm. split.
  - destruct (reverse (drop_zeroes (reverse (appendInt n 9)))) as [|x l] eqn:E; [|intros [= ? ?]; by destruct l].
    intros _. apply (f_equal reverse) in E. rewrite reverse_involutive in E. apply reverse_zeroes in E.
    destruct (appendInt_spec n 8) as [_ Hp]; [done|unfold max_uint64; lia|].
    rewrite (zero_digits _ 0 E eq_refl) in Hp. by injection Hp.
  - intros ->. reflexivity.
Qed.

Lemma same_second_head s t : s / 10 ^ 9 = t / 10 ^ 9 -> clock_head s = clock_head t.
Proof.
  intros E. assert (Ed : day_number s = day_number t) by (unfold day_number, day_ns; div_lia).
  assert (Es : s mod day_ns / 10 ^ 9 = t mod day_ns / 10 ^ 9) by (unfold day_ns; div_lia).
  unfold clock_head. by rewrite Ed, Es.
Qed.

Lemma lex_refl l : lex l l = Eq.
Proof. induction l as [|x l IH]; [done|]. cbn. unfold Ascii.compare. by rewrite N.compare_refl. Qed.

(** After a whole second, the rest of it comes before it as text. *)
Lemma text_since_whole since t : since mod 10 ^ 9 = 0 -> t / 10 ^ 9 = since / 10 ^ 9 ->
  text_since since t <-> t = since.
Proof.
  intros H0 E. split; [|intros ->; unfold text_since; reflexivity]. intros Hle. apply dec_stable. intros Hne.
  unfold text_since, String.le, String.leb in Hle. rewrite !RFC3339Nano_parts, compare_lex in Hle.
  rewrite (same_second_head t since E), lex_app, lex_refl in Hle by done.
  rewrite (proj2 (clock_tail_whole since) H0) in Hle.
  assert (Ht : clock_tail t <> ["Z"%char]) by (rewrite clock_tail_whole; div_lia).
  unfold clock_tail in Hle, Ht. destruct (reverse _) as [|x l]; [done|]. cbn in Hle. done.
Qed.

Lemma built_in_column id : isBuiltInColumn id = true <-> id ∈ ["todo"; "doing"; "review"; "done"]%string.
Proof.
  unfold isBuiltInColumn. cbn [existsb DefaultColumns col_ID]. rewrite orb_false_r, !orb_true_iff, !String.eqb_eq.
  rewrite !elem_of_cons, elem_of_nil. naive_solver.
Qed.

Lemma owned_board_Some board pid d : owned_board board pid d = true
  <-> exists b, agile_boards (agile d) !! board = Some b /\ bd_ProjectID b = pid.
Proof.
  unfold owned_board. destruct (agile_boards (agile d) !! board) as [b|]; [|naive_solver].
  rewrite String.eqb_eq. naive_solver.
Qed.

(** ** The properties *)

(** C18. In every reachable file there is at most one board; it is the default one of the
    project, it has its four built-in columns, and every column is of that board, with
    a name and a limit that is not negative. *)
Theorem reachable_board d id b : reachable d -> agile_boards (agile d) !! id = Some b ->
  bd_IsDefault b = true /\ bd_ProjectID b ∈ projects d
  /\ (forall id' b', agile_boards (agile d) !! id' = Some b' -> id' = id)
  /\ (forall c, c ∈ DefaultColumns id ->
        exists c', agile_columns (agile d) !! col_ID c = Some c' /\ col_BoardID c' = id)
  /\ (forall k c, agile_columns (agile d) !! k = Some c ->
        col_ID c = k /\ col_BoardID c = id /\ col_Name c <> ""%string /\ 0 <= col_WIPLimit c).
Proof.
  intros (_ & [B1 B2 B3 B4] & _)%reachable_agile_ok Hb. destruct (B1 _ _ Hb) as (_ & H1 & H2).
  split_and!; [done|done|intros id' b' Hb'; by eapply B2|by eapply B3|].
  intros k c Hc. destruct (B4 _ _ Hc) as (? & [b' Hb'] & ? & ?). split_and!; [done|by eapply B2|done..].
Qed.

(** C26. Deleting a column in a reachable file is refused for a built-in column, and with
    the number of cards for a state in which the project has cards, a column or not.
    Otherwise it reports success: it removes the column, and that column alone, when
    a board of the project has it, no card of the file is in it then; and it changes
    nothing when no board of the project has it. *)
Theorem DeleteColumn_spec {E : DbEnv} pid id c r c' : reachable (file c) -> DeleteColumn pid id c = (r, c') ->
  let cards := filter (fun w => wi_ProjectID w = pid /\ wi_State w = id)
    (map_to_list (agile_work_items (agile (file c)))).*2 in
  let on_board b := exists col, agile_columns (agile (file c)) !! id = Some col
    /\ agile_boards (agile (file c)) !! col_BoardID col = Some b /\ bd_ProjectID b = pid in
  match r with
  | Ok _ =>
      id ∉ ["todo"; "doing"; "review"; "done"]%string /\ cards = []
      /\ ((exists b, on_board b)
           /\ file c' = set_columns (delete id (agile_columns (agile (file c)))) (file c)
           /\ (forall k w, agile_work_items (agile (file c)) !! k = Some w -> wi_State w <> id)
          \/ (forall b, ~ on_board b) /\ file c' = file c)
  | Err (ColumnNotEmptyError n) => file c' = file c /\ n = Z.of_nat (length cards) /\ 0 < n
  | Err ErrBuiltInColumn => file c' = file c /\ id ∈ ["todo"; "doing"; "review"; "done"]%string
  | Err e => file c' = file c /\ e = ErrDbStatement
  end.
Proof.
  intros Hok%reachable_agile_ok Hr cards on_board.
  apply DeleteColumn_effect in Hr as [(Hb%built_in_column & -> & F)|[Hb [(x & Hx & Ho & Hi & -> & F)|[F Hcase]]]].
  - done.
  - pose proof (empty_column _ _ _ _ Hok Hx Ho Hi) as He. rewrite <- not_true_iff_false, built_in_column in Hb.
    split_and!; [done|done|left]. split_and!; [|done|done]. apply owned_board_Some in Ho as (b & Hbd & Hp). by exists b, x.
  - rewrite <- not_true_iff_false, built_in_column in Hb.
    destruct Hcase as [(n & -> & Hn)|[->|(-> & Hi & Hno)]]; [done|done|].
    split_and!; [done|done|right]. split; [|done]. intros b (x & Hx & Hbd & Hp).
    assert (Ht : owned_board (col_BoardID x) pid (file c) = true) by (apply owned_board_Some; by exists b).
    by rewrite (Hno x Hx) in Ht.
Qed.

(** The metrics of the desktop are those of all the deployments of the project, as
    long as none of them is in the very second in which the window begins. *)
Theorem App_ComputeDORA_spec {E : DbEnv} pid windowDays c r c' : App_ComputeDORA pid windowDays c = (Ok r, c') ->
  let now := db_clock (clock_reads c) in
  let since := AddDays now (- window_days windowDays) in
  now <> zero_time -> four_digit_year since ->
  (forall d, d ∈ deployments_of pid (file c) -> four_digit_year (dp_TS d) /\ dp_TS d / 10 ^ 9 <> since / 10 ^ 9) ->
  r = ComputeDORA (deployments_of pid (file c)) windowDays now now.
Proof.
  intros Hr now since Hnow Hs Hds.
  assert (Hall : forall l, List.filter (fun _ : Deployment => true) l = l) by (induction l; cbn; congruence).
  rewrite <- (Hall (deployments_of pid (file c))). eapply App_ComputeDORA_keeps; [exact Hr|exact Hnow|].
  intros d Hd Hin. destruct (Hds d Hd) as [Ht Hne]. unfold since_or_all. apply orb_true_iff. right.
  fold now since in Hin |- *. clearbody since. unfold in_window, Before in Hin.
  apply bool_decide_eq_true, text_since_second; [exact Hs|exact Ht|].
  assert (since <= dp_TS d) by lia. assert (since / 10 ^ 9 <= dp_TS d / 10 ^ 9) by (apply Z.div_le_mono; lia). lia.
Qed.

(** C31. When the clock reads a whole second, the query compares times as text and loses
    the deployments of the first second of the window that are after its beginning:
    the metrics are those of the others. *)
Theorem App_ComputeDORA_misses {E : DbEnv} pid windowDays c r c' : App_ComputeDORA pid windowDays c = (Ok r, c') ->
  let now := db_clock (clock_reads c) in
  let since := AddDays now (- window_days windowDays) in
  let lost d := (dp_TS d / 10 ^ 9 =? since / 10 ^ 9) && negb (dp_TS d =? since) in
  now <> zero_time -> now mod 10 ^ 9 = 0 -> four_digit_year since -> since <> zero_time ->
  (forall d, d ∈ deployments_of pid (file c) -> four_digit_year (dp_TS d)) ->
  r = ComputeDORA (List.filter (fun d => negb (lost d)) (deployments_of pid (file c))) windowDays now now.
Proof.
  intros Hr now since lost Hnow Hwhole Hs Hz Hds. eapply App_ComputeDORA_keeps; [exact Hr|exact Hnow|].
  intros d Hd Hin. fold now since in Hin |- *. specialize (Hds d Hd). unfold since_or_all.
  rewrite (proj2 (Z.eqb_neq since zero_time) Hz). cbn [orb]. unfold lost, in_window, Before in *.
  assert (Hle : since <= dp_TS d) by lia.
  assert (since / 10 ^ 9 <= dp_TS d / 10 ^ 9) by (apply Z.div_le_mono; lia).
  assert (H0 : since mod 10 ^ 9 = 0).
  { unfold since, AddDays, day_ns. replace (now + - window_days windowDays * (86400 * 10 ^ 9))
      with (now + (- window_days windowDays * 86400) * 10 ^ 9) by lia. by rewrite Z.mod_add. }
  destruct (Z.eqb_spec (dp_TS d / 10 ^ 9) (since / 10 ^ 9)) as [Es|Es]; cbn [andb negb].
  - destruct (Z.eqb_spec (dp_TS d) since) as [Et|Et]; cbn [negb].
    + apply bool_decide_eq_true. by apply text_since_whole.
    + apply bool_decide_eq_false. intros Hts. apply text_since_whole in Hts; done.
  - apply bool_decide_eq_true, text_since_second; [exact Hs|exact Hds|lia].
Qed.

(** ** A concrete history

    A board with a column of the user's and a card in it, and two deployments, one of
    them half a second after the window of a week begins. *)

Definition demo_boarded : Session := (@EnsureDefaultBoard calm "p1" fresh).2.

Definition demo_board_id : string :=
  default "" (fst <$> head (map_to_list (agile_boards (agile (file demo_boarded))))).

Definition demo_column : Session :=
  (@SaveColumn calm "p1" (mkColumn "qa" demo_board_id " QA " 4 2) demo_boarded).2.

Definition demo_item : WorkItem := mkItem "w1" "" "" "Test" "" "qa" fone "" "" "" 0 0 0 0.
Definition demo_card : Session := (@SaveWorkItem calm "p1" demo_item demo_column).2.

Definition demo_week : Time := AddDays (@db_clock calm (clock_reads fresh)) (-7).

Definition demo_deployed (c : Session) (id : string) (ts : Time) : Session :=
  (@SaveDeployment calm "p1" (mkDeployment id "" ts "1.0" true fone fzero "") c).2.

Definition demo_first_deployed : Session := demo_deployed fresh "x1" (demo_week + 5 * 10 ^ 8).
Definition demo_deploys : Session := demo_deployed demo_first_deployed "x2" (AddDays demo_week 2).

Lemma demo_boarded_reachable : reachable (file demo_boarded).
Proof. refine (calm_step _ _ _ fresh (op_board _) _ fresh_reachable). by_decide. Qed.

Lemma demo_column_reachable : reachable (file demo_column).
Proof. refine (calm_step _ _ _ demo_boarded (op_save_column _ _) _ demo_boarded_reachable). by_decide. Qed.

Lemma demo_card_reachable : reachable (file demo_card).
Proof. refine (calm_step _ _ _ demo_column (op_save_item _ _) _ demo_column_reachable). by_decide. Qed.

Lemma demo_board_found : exists b, agile_boards (agile (file demo_boarded)) !! demo_board_id = Some b.
Proof.
  assert (H : bool_decide (is_Some (agile_boards (agile (file demo_boarded)) !! demo_board_id)) = true)
    by (vm_compute; reflexivity).
  apply bool_decide_eq_true in H. destruct H as [b Hb]. by exists b.
Qed.

Lemma reachable_board_witness :
  exists c, agile_columns (agile (file demo_boarded)) !! "done"%string = Some c /\ col_BoardID c = demo_board_id.
Proof.
  destruct demo_board_found as [b Hb].
  destruct (reachable_board (file demo_boarded) demo_board_id b demo_boarded_reachable Hb) as (_ & _ & _ & H & _).
  refine (H (mkColumn "done" demo_board_id "Done" 3 0) _). unfold DefaultColumns. by repeat constructor.
Defined.

Lemma DeleteColumn_spec_witness :
  (@DeleteColumn calm "p1" "qa" demo_card).1 = Err (ColumnNotEmptyError 1)
  /\ is_Some (agile_columns (agile (file demo_column)) !! "qa"%string)
  /\ file (@DeleteColumn calm "p1" "qa" demo_column).2
     = set_columns (delete "qa"%string (agile_columns (agile (file demo_column)))) (file demo_column).
Proof.
  assert (He : (@DeleteColumn calm "p1" "qa" demo_card).1 = Err (ColumnNotEmptyError 1)) by (vm_compute; reflexivity).
  assert (Hq : (@DeleteColumn calm "p1" "qa" demo_column).1 = Ok ()) by (vm_compute; reflexivity).
  pose proof (DeleteColumn_spec (E := calm) "p1" "qa" demo_column _ _ demo_column_reachable (surjective_pairing _)) as H.
  rewrite Hq in H. destruct H as (_ & _ & [((b & x & Hx & _) & F & _)|[H _]]).
  - split; [exact He|]. split; [by eexists|exact F].
  - exfalso. assert (Hb : match agile_columns (agile (file demo_column)) !! "qa"%string with
      | Some x => match agile_boards (agile (file demo_column)) !! col_BoardID x with
                  | Some b => String.eqb (bd_ProjectID b) "p1" | None => false end
      | None => false end = true) by (vm_compute; reflexivity).
    destruct (agile_columns (agile (file demo_column)) !! "qa"%string) as [x|] eqn:Ex; [|discriminate Hb].
    destruct (agile_boards (agile (file demo_column)) !! col_BoardID x) as [b|] eqn:Eb; [|discriminate Hb].
    apply String.eqb_eq in Hb. apply (H b). exists x. split; [reflexivity|]. split; [exact Eb|exact Hb].
Defined.

Definition demo_metrics : result DbError (option DORAResult) := (@App_ComputeDORA calm "p1" 7 demo_deploys).1.

Lemma demo_metrics_run : exists r c', @App_ComputeDORA calm "p1" 7 demo_deploys = (Ok r, c').
Proof.
  assert (H : is_ok demo_metrics = true) by (vm_compute; reflexivity).
  unfold demo_metrics in H. destruct (@App_ComputeDORA calm "p1" 7 demo_deploys) as [[r|e] c']; [by exists r, c'|done].
Qed.

Lemma demo_deploys_list (P : Deployment -> Prop) :
  Forall P (deployments_of "p1" (file demo_deploys)) -> forall d, d ∈ deployments_of "p1" (file demo_deploys) -> P d.
Proof. by rewrite Forall_forall. Qed.

(** The later deployment alone is counted. *)
Definition demo_later : Session := demo_deployed fresh "x2" (AddDays demo_week 2).

Lemma demo_later_run : exists r c', @App_ComputeDORA calm "p1" 7 demo_later = (Ok r, c').
Proof.
  assert (H : is_ok (@App_ComputeDORA calm "p1" 7 demo_later).1 = true) by (vm_compute; reflexivity).
  destruct (@App_ComputeDORA calm "p1" 7 demo_later) as [[r|e] c']; [by exists r, c'|done].
Qed.

Lemma demo_later_list (P : Deployment -> Prop) :
  Forall P (deployments_of "p1" (file demo_later)) -> forall d, d ∈ deployments_of "p1" (file demo_later) -> P d.
Proof. by rewrite Forall_forall. Qed.

Lemma App_ComputeDORA_spec_witness : exists o c',
  @App_ComputeDORA calm "p1" 7 demo_later = (Ok o, c') /\ TotalDeploys <$> o = Some 1.
Proof.
  destruct demo_later_run as (o & c' & Hr). exists o, c'. split; [exact Hr|].
  pose proof (App_ComputeDORA_spec (E := calm) "p1" 7 demo_later o c' Hr) as H. cbn zeta in H.
  rewrite H; [vm_compute; reflexivity|by_decide|by_decide|]. apply demo_later_list. by_decide.
Defined.

(** One of the two deployments of the week is lost. *)
Lemma App_ComputeDORA_misses_witness : exists r c' full,
  @App_ComputeDORA calm "p1" 7 demo_deploys = (Ok (Some r), c')
  /\ ComputeDORA (deployments_of "p1" (file demo_deploys)) 7 (@db_clock calm (clock_reads demo_deploys)) 0 = Some full
  /\ TotalDeploys r = 1 /\ TotalDeploys full = 2.
Proof.
  destruct demo_metrics_run as (o & c' & Hr).
  pose proof (App_ComputeDORA_misses (E := calm) "p1" 7 demo_deploys o c' Hr) as H. cbn zeta in H.
  assert (Ho : o = ComputeDORA (List.filter (fun d =>
      negb ((dp_TS d / 10 ^ 9 =? demo_week / 10 ^ 9) && negb (dp_TS d =? demo_week)))
      (deployments_of "p1" (file demo_deploys))) 7 (@db_clock calm (clock_reads demo_deploys))
      (@db_clock calm (clock_reads demo_deploys))).
  { apply H; [by_decide|by_decide|by_decide|by_decide|]. apply demo_deploys_list. by_decide. }
  assert (E1 : TotalDeploys <$> o = Some 1) by (rewrite Ho; vm_compute; reflexivity).
  assert (E2 : TotalDeploys <$> ComputeDORA (deployments_of "p1" (file demo_deploys)) 7
                 (@db_clock calm (clock_reads demo_deploys)) 0 = Some 2) by (vm_compute; reflexivity).
  destruct o as [r|]; [|discriminate E1].
  destruct (ComputeDORA (deployments_of "p1" (file demo_deploys)) 7 _ 0) as [full|] eqn:Ef; [|discriminate E2].
  exists r, c', full. injection E1 as E1. injection E2 as E2. split; [exact Hr|split; [reflexivity|split; [exact E1|exact E2]]].
Defined.
