(* ===== verification/StakeholderHistory.v ===== *)
(** * The address book over the life of a file

    The invariant of the stakeholders in every reachable file, and that a saved
    stakeholder is read back as it was returned. *)

From S2P Require Import Prelude GoFloat GoStrings GoTime Money Wbs ProjectDb AuditChain AuditTheorems AuditHistory Charts ChartsTheorems ProjectKeeps Projects PlanTheorems Dora Agile Stakeholders ProjectFrames WriteLock ProjectMachine WbsHistory PlanHistory AgileHistory.

Local Open Scope Z_scope.

(** A row names itself and the project of the file, has a category and an
    availability that is a positive number, and both forms of its amounts agree. *)
Definition stakeholder_ok (d : ProjectDB) (id : string) (s : Stakeholder) : Prop :=
  st_ID s = id /\ st_ProjectID s ∈ projects d /\ st_Category s <> ""%string
  /\ st_HourlyRate s = MajorFloat (mkAmount (st_HourlyRateMinorUnits s))
  /\ st_ContractValue s = MajorFloat (mkAmount (st_ContractValueMinorUnits s))
  /\ (st_Availability s <=. fzero) = false /\ is_nan (st_Availability s) = false.

Definition stakeholders_ok (d : ProjectDB) : Prop :=
  forall id s, stakeholders d !! id = Some s -> stakeholder_ok d id s.

Lemma default_string_nonempty s d : d <> ""%string -> default_string s d <> ""%string.
Proof. intros Hd. unfold default_string. by destruct (String.eqb_spec s ""). Qed.

Lemma completed_availability x : let y := if x <=. fzero then fone else x in
  is_nan y = false -> (y <=. fzero) = false /\ is_nan y = false.
Proof. cbn zeta. destruct (x <=. fzero) eqn:E; [by vm_compute|done]. Qed.

(** ** Statements *)

Lemma upsert_stakeholder_ok id text s d d' : stakeholders_ok d ->
  sql_upsert_stakeholder (completed_stakeholder id text s) d = Some d' ->
  stakeholders_ok d' /\ exists saved, d' = set_stakeholders (<[id := saved]> (stakeholders d)) d
    /\ (stakeholders d !! id = None /\ saved = completed_stakeholder id text s
        \/ exists old, stakeholders d !! id = Some old /\ saved = updated_stakeholder old (completed_stakeholder id text s)).
Proof.
  intros Hok Hs. unfold sql_upsert_stakeholder, real_column in Hs. set (s1 := completed_stakeholder id text s) in *.
  destruct (is_nan (st_Availability s1)) eqn:En; [done|]. change (st_ID s1) with id in Hs.
  destruct (completed_availability (st_Availability s) En) as [Ha Hn].
  assert (H1 : st_Category s1 <> ""%string) by by apply default_string_nonempty.
  destruct (stakeholders d !! id) as [old|] eqn:Eo.
  - injection Hs as <-. split; [|by exists (updated_stakeholder old s1); split; [|right; exists old]].
    intros id' s'; cbn [stakeholders set_stakeholders]; intros [[<- <-]|[_ H]]%lookup_insert_Some; [|by apply Hok].
    destruct (Hok _ _ Eo) as (Hi & Hp & _). by split_and!.
  - case_bool_decide as Hp; [|done]. injection Hs as <-. split; [|by exists s1; split; [|left]].
    intros id' s'; cbn [stakeholders set_stakeholders]; intros [[<- <-]|[_ H]]%lookup_insert_Some; [|by apply Hok]. by split_and!.
Qed.

Lemma delete_stakeholder_ok id d d' :
  sql_delete_stakeholder id d = Some d' -> stakeholders_ok d -> stakeholders_ok d'.
Proof. intros [= <-] Hok id' s'; cbn [stakeholders set_stakeholders]; intros [_ H]%lookup_delete_Some. by apply Hok. Qed.

(** ** Every reachable file *)

Lemma keeps_stakeholders `{DbEnv} s id :
  Keeps (preserves stakeholders_ok) (SaveStakeholder s) /\ Keeps (preserves stakeholders_ok) (DeleteStakeholder id).
Proof.
  unfold SaveStakeholder, DeleteStakeholder. split; keeps; intros Hok.
  - by eapply upsert_stakeholder_ok.
  - by eapply delete_stakeholder_ok.
Qed.

Lemma project_step_stakeholders d d' : project_step d d' -> stakeholders_ok d -> stakeholders_ok d'.
Proof.
  intros [E T A m c r c' Hop Hr Hone] Hok. pose proof (project_op_touches _ _ _ Hop _ _ _ Hr) as Ht.
  assert (Hframe : TStakeholders ∉ T -> stakeholders_ok (file c')).
  { intros Hn id s Hs. rewrite (touches_stakeholders _ _ _ Ht Hn) in Hs.
    destruct (Hok _ _ Hs) as (H1 & H2 & H3). split; [exact H1|split; [|exact H3]].
    destruct Hone as [E0|E0]; rewrite E0 in *; [by apply not_elem_of_nil in H2|done]. }
  destruct Hop; try (apply Hframe; by_decide).
  - destruct (keeps_stakeholders s "") as (Hk & _). by eapply Hk.
  - destruct (keeps_stakeholders (mkStakeholder "" "" "" "" "" "" "" "" fzero 0 fzero 0 fzero "" "" "") id) as (_ & Hk).
    by eapply Hk.
Qed.

Lemma reachable_stakeholders_ok d : reachable d -> stakeholders_ok d.
Proof. apply reachable_invariant; [|apply project_step_stakeholders]. intros id s Hs. simplify_map_eq. Qed.

(** Reading a row changes nothing in it. *)
Lemma scan_same minor : (minor =? 0) && negb (MajorFloat (mkAmount minor) ==. fzero) = false.
Proof. destruct (Z.eqb_spec minor 0) as [->|]; [by vm_compute|done]. Qed.

Lemma scanStakeholder_same d id s : stakeholder_ok d id s -> scanStakeholder s = s.
Proof.
  intros (_ & _ & _ & H1 & H2 & _). unfold scanStakeholder. rewrite H1, H2, !scan_same. cbn [fst snd].
  rewrite <- H1, <- H2. by destruct s.
Qed.

Lemma GetStakeholder_Ok `{DbEnv} id c s c' : stakeholders_ok (file c) -> GetStakeholder id c = (Ok s, c') ->
  stakeholders (file c) !! id = Some s.
Proof.
  intros Hok (o & c1 & [[= <-] F]%dtx_query_Ok & Hr)%dtx_bind_Ok.
  apply dtx_bind_Ok in Hr as (s1 & c2 & [Hs ->]%dtx_of_option_Ok & Hr). injection Hr as <- _.
  by rewrite (scanStakeholder_same (file c) id) by by apply Hok.
Qed.

(** A stakeholder that is saved is read back as it was returned, in any session on
    the file; nothing else in the file changes, what the row says of amounts agrees in
    both forms, and an update leaves the project and the creation as they were. *)
Theorem SaveStakeholder_reads_back {E : DbEnv} s c saved c' : reachable (file c) ->
  SaveStakeholder s c = (Ok saved, c') ->
  file c' = set_stakeholders (<[st_ID saved := saved]> (stakeholders (file c))) (file c)
  /\ (st_ID s <> "" -> st_ID saved = st_ID s)%string
  /\ st_ProjectID saved = st_ProjectID s
  /\ st_HourlyRateMinorUnits saved = either_units (st_HourlyRateMinorUnits s) (st_HourlyRate s)
  /\ st_HourlyRate saved = MajorFloat (mkAmount (st_HourlyRateMinorUnits saved))
  /\ st_ContractValue saved = MajorFloat (mkAmount (st_ContractValueMinorUnits saved))
  /\ (forall old, stakeholders (file c) !! st_ID saved = Some old -> st_CreatedAt saved = st_CreatedAt old)
  /\ forall (E2 : DbEnv) c2 read c3, file c2 = file c' -> @GetStakeholder E2 (st_ID saved) c2 = (Ok read, c3) -> read = saved.
Proof.
  intros Hok%reachable_stakeholders_ok (id & c1 & Hid & Hr)%dtx_bind_Ok.
  assert (Hid' : file c1 = file c /\ (st_ID s <> "" -> id = st_ID s)%string).
  { destruct (String.eqb_spec (st_ID s) "") as [E0|E0]; [by apply newID_Ok in Hid|by injection Hid as <- <-]. }
  destruct Hid' as [F1 Hsame]. clear Hid.
  apply dtx_bind_Ok in Hr as (now & c2 & F2%captureTimestamp_Ok & Hr).
  apply in_tx_effect in Hr as [(a & c3 & c4 & F3 & Hb & F4 & [[= <-]|?])|[? _]]; [|done..].
  apply dtx_bind_Ok in Hb as (u & c5 & Hup%dtx_exec_Ok & Hb). rewrite F3, F2, F1 in Hup.
  apply dtx_bind_Ok in Hb as (o & c6 & [[= <-] F6]%dtx_query_Ok & Hb).
  apply dtx_bind_Ok in Hb as (row & c7 & [Hrow ->]%dtx_of_option_Ok & Hb). injection Hb as <- <-.
  apply upsert_stakeholder_ok in Hup as (Hok' & row' & Hf & Hcase); [|exact Hok].
  assert (row' = row /\ st_ProjectID row = st_ProjectID s) as [-> Hp].
  { rewrite Hf in Hrow. cbn in Hrow. rewrite lookup_insert_eq in Hrow.
    destruct (String.eqb_spec (st_ProjectID row') (st_ProjectID s)) as [E1|]; [|done]. by injection Hrow as <-. }
  clear Hrow. assert (Hl : stakeholders (file c5) !! id = Some row) by (rewrite Hf; cbn; by rewrite lookup_insert_eq).
  pose proof (Hok' _ _ Hl) as Hrok. rewrite (scanStakeholder_same _ _ _ Hrok).
  destruct Hrok as (Hi & _ & _ & H1 & H2 & _). rewrite F4, F6, Hi.
  split_and!; [exact Hf|exact Hsame|exact Hp| |exact H1|exact H2| |].
  - by destruct Hcase as [[_ ->]|(old & _ & ->)].
  - intros old Ho. destruct Hcase as [[Hn _]|(old' & Ho' & ->)]; [congruence|cbn; congruence].
  - intros E2 cc read cc' Fc Hg. apply GetStakeholder_Ok in Hg; [rewrite Fc in Hg; congruence|].
    by rewrite Fc.
Qed.

(** ** A concrete history

    A stakeholder given by a rate in minor units and a contract as a float. *)

Definition demo_stakeholder : Stakeholder :=
  mkStakeholder "" "p1" "Ada" "Engineer" "" "" "" "" fzero 12345 fone 0 fzero "" "" "".

Lemma demo_saved_run : exists saved c', @SaveStakeholder calm demo_stakeholder fresh = (Ok saved, c').
Proof.
  assert (H : is_ok (@SaveStakeholder calm demo_stakeholder fresh).1 = true) by (vm_compute; reflexivity).
  destruct (@SaveStakeholder calm demo_stakeholder fresh) as [[r|e] c']; [by exists r, c'|done].
Qed.

Lemma SaveStakeholder_reads_back_witness : exists saved c',
  @SaveStakeholder calm demo_stakeholder fresh = (Ok saved, c') /\ st_ProjectID saved = "p1"%string
  /\ st_HourlyRateMinorUnits saved = 12345 /\ stakeholders (file c') !! st_ID saved = Some saved.
Proof.
  destruct demo_saved_run as (saved & c' & Hr). exists saved, c'.
  destruct (SaveStakeholder_reads_back (E := calm) demo_stakeholder fresh saved c' fresh_reachable Hr)
    as (Hf & _ & Hp & Hu & _).
  split; [exact Hr|]. split; [exact Hp|]. split; [rewrite Hu; by vm_compute|]. rewrite Hf.
  cbn [stakeholders set_stakeholders]. by rewrite lookup_insert_eq.
Defined.
