(* ===== verification/CostInvariant.v ===== *)
(** * The ledger over the life of a file

    The invariants of entries, reserves, approved baselines and attachments, and
    that every operation keeps them. *)

From S2P Require Import Prelude GoFloat GoStrings GoTime GoSha256 GoJson GoJsonV2 Money Wbs ProjectDb AuditChain AuditTheorems AuditHistory Charts ChartsTheorems ProjectKeeps Projects PlanTheorems Documents Baselines Scenarios CostControl CostAttachments CostTheorems WbsStore WbsInvariant ProjectFrames ProjectMachine WbsHistory.

Local Open Scope Z_scope.

(** ** What the ledger keeps *)

(** Entries, approved baselines and attachments are only added, and so are types. *)
Record ledger_grows (d d' : ProjectDB) : Prop := {
  lg_types : cost_types (costs d) ⊆ cost_types (costs d');
  lg_entries : cost_entries (costs d) ⊆ cost_entries (costs d');
  lg_attachments : cost_entry_attachments (costs d) ⊆ cost_entry_attachments (costs d');
  lg_snapshots : cost_baseline_snapshots (costs d) ⊆ cost_baseline_snapshots (costs d')
}.

#[export] Instance ledger_grows_preorder : PreOrder ledger_grows.
Proof.
  split; [intros d; by split|]. intros d1 d2 d3 [A1 B1 C1 D1] [A2 B2 C2 D2]. split; by etrans.
Qed.

#[export] Instance ledger_grows_audited : Audited ledger_grows.
Proof.
  split; [apply _|]. intros i d d' e (? & _ & _ & _ & _ & _ & E & _)%appends_events. split; by rewrite E.
Qed.

Lemma seed_type_grows id pid s d d' : sql_seed_type id pid s d = Some d' -> ledger_grows d d'.
Proof.
  unfold sql_seed_type. case_bool_decide; [intros Hs; by injection Hs as <-|].
  destruct (cost_types (costs d) !! id) eqn:E; [done|]. case_bool_decide; [|done]. intros Hs. injection Hs as <-.
  split; try done. by apply insert_subseteq.
Qed.

Lemma ListCostTypes_grows `{DbEnv} pid : Keeps ledger_grows (ListCostTypes pid).
Proof.
  assert (Hs : forall l, Keeps ledger_grows (insert_seeds pid l)).
  { induction l as [|s l IH]; cbn [insert_seeds]; keeps; [by eapply seed_type_grows|exact IH]. }
  unfold ListCostTypes, EnsureCostTypes. keeps; apply Hs.
Qed.

Lemma insert_entry_Some e d d' : sql_insert_entry e d = Some d' ->
  d' = set_cost_entries (<[ce_ID e := e]> (cost_entries (costs d))) d /\ cost_entries (costs d) !! ce_ID e = None
  /\ ce_ProjectID e ∈ projects d.
Proof.
  unfold sql_insert_entry. destruct (cost_entries (costs d) !! ce_ID e); [done|].
  destruct (_ && _ && _) eqn:Hg; [|done]. apply andb_prop in Hg as [[Hp%bool_decide_eq_true _]%andb_prop _].
  intros Hi. by injection Hi as <-.
Qed.

Lemma insert_snapshot_Some s d d' : sql_insert_snapshot s d = Some d' ->
  d' = set_cost_baseline_snapshots (<[cs_ID s := s]> (cost_baseline_snapshots (costs d))) d
  /\ cost_baseline_snapshots (costs d) !! cs_ID s = None
  /\ cs_Version s ∉ cs_Version <$> snapshot_list (cs_ProjectID s) d.
Proof.
  unfold sql_insert_snapshot. destruct (cost_baseline_snapshots (costs d) !! cs_ID s); [done|].
  destruct (_ && _) eqn:Hg; [|done]. apply andb_prop in Hg as [_ Hv%negb_true_iff%bool_decide_eq_false].
  intros Hi. by injection Hi as <-.
Qed.

Lemma insert_attachment_Some a data d d' : sql_insert_attachment a data d = Some d' ->
  d' = set_cost_entry_attachments (<[at_ID a := (a, data)]> (cost_entry_attachments (costs d))) d
  /\ cost_entry_attachments (costs d) !! at_ID a = None.
Proof.
  unfold sql_insert_attachment. destruct (cost_entry_attachments (costs d) !! at_ID a); [done|].
  destruct (_ && _); [|done]. intros Hi. by injection Hi as <-.
Qed.

Lemma untouched_ledger T d d' : touches T d d' -> TCostTypes ∉ T -> TCostEntries ∉ T -> TAttachments ∉ T ->
  TSnapshots ∉ T -> ledger_grows d d'.
Proof.
  intros Ht H1 H2 H3 H4. split.
  - by rewrite (touches_cost_types _ _ _ Ht H1).
  - by rewrite (touches_cost_entries _ _ _ Ht H2).
  - by rewrite (touches_attachments _ _ _ Ht H3).
  - by rewrite (touches_snapshots _ _ _ Ht H4).
Qed.

Lemma project_step_ledger d d' : project_step d d' -> ledger_grows d d'.
Proof.
  intros [E T A m c r c' Hop Hr _]. pose proof (project_op_touches _ _ _ Hop _ _ _ Hr) as Ht.
  destruct Hop; try (refine (untouched_ledger _ _ _ Ht _ _ _ _); by_decide).
  - by eapply ListCostTypes_grows.
  - apply SaveCostEntry_effect in Hr as [(y & Hs & _)|[_ ->]]; [|done].
    destruct Hs as (x & ty & id & text & d1 & ev & _ & _ & _ & _ & _ & Hi & He). etrans; [|by eapply audited_append].
    apply insert_entry_Some in Hi as (-> & Hn & _). split; try done. by apply insert_subseteq.
  - apply ApproveCostBaseline_effect in Hr as [(s & Hs & _)|[_ ->]]; [|done].
    destruct Hs as (cur & am & rows & pl & base & whole & v & id & text & d1 & d2 & ev & _ & _ & _ & _ & _ & _ & _
      & _ & _ & _ & _ & _ & Hi & He & Hc). etrans; [|etrans; [by eapply audited_append|]].
    + apply insert_snapshot_Some in Hi as (-> & Hn & _). split; try done. by apply insert_subseteq.
    + destruct Hc as (? & ? & e2 & _ & Hc). by eapply audited_append.
  - apply SaveCostEntryAttachment_effect in Hr as [(a & Hs & _)|[_ ->]]; [|done].
    destruct Hs as (n & k & id & text & e & z & d1 & ev & _ & _ & _ & _ & _ & _ & _ & _ & _ & Hi & He).
    etrans; [|by eapply audited_append].
    apply insert_attachment_Some in Hi as (-> & Hn). split; try done. by apply insert_subseteq.
Qed.

(** ** Entries *)

Definition field_fits (s : string) : Prop := go_len s <= maxLedgerFieldLength.

(** What the checks of an entry ensure. *)
Record entry_valid (e : CostEntry) : Prop := {
  ev_amount : ce_AmountMinorUnits e <> 0;
  ev_kind : ce_Kind e ∈ cost_kinds;
  ev_date : is_Some (ParseDate (ce_CostDate e));
  ev_quantity : 0 <= ce_QuantityMilliUnits e <= maxQuantityMilliUnits;
  ev_unit : 0 < ce_QuantityMilliUnits e -> ce_Unit e <> ""%string;
  ev_fields : Forall field_fits [ce_Unit e; ce_ItemName e; ce_SKU e; ce_SupplierName e; ce_InvoiceReference e]
}.

Lemma check_entry_valid x e id text : check_entry x = Ok e -> entry_valid (written_entry e id text).
Proof.
  unfold check_entry. destruct (_ || _ || _ || _); [done|].
  destruct (Z.eqb_spec (ce_AmountMinorUnits x) 0) as [|Ha]; [done|].
  destruct (bool_decide (ce_Kind x ∈ cost_kinds)) eqn:Hk; [|done]. apply bool_decide_eq_true in Hk. cbn [negb].
  destruct (ParseDate (ce_CostDate x)) as [t|] eqn:Hd; [|done].
  unfold validateCostEntryProcurementDetail. destruct (ledgerFieldTooLong _) eqn:Hl; [done|].
  destruct (_ || _) eqn:Hq; [done|]. apply orb_false_elim in Hq as [Hq1%Z.ltb_ge Hq2%Z.ltb_ge].
  destruct (_ && _) eqn:Hu; [done|]. intros He. injection He as <-. cbn in Hq1, Hq2, Hu. split.
  - exact Ha.
  - exact Hk.
  - by exists t.
  - done.
  - cbn. intros Hp%Z.ltb_lt. rewrite Hp in Hu. by apply String.eqb_neq in Hu.
  - unfold ledgerFieldTooLong in Hl. apply Forall_forall. intros v Hv. unfold field_fits.
    destruct (Z.le_gt_cases (go_len v) maxLedgerFieldLength) as [|Hgt%Z.ltb_lt]; [done|].
    exfalso. apply not_true_iff_false in Hl. apply Hl, existsb_exists. exists v. split; [by apply list_elem_of_In|done].
Qed.

Definition entries_ok (d : ProjectDB) : Prop := forall id e, cost_entries (costs d) !! id = Some e ->
  ce_ID e = id /\ entry_valid e /\ ce_ProjectID e ∈ projects d
  /\ exists ty, cost_types (costs d) !! ce_CostTypeID e = Some ty /\ ct_ProjectID ty = ce_ProjectID e.

Lemma one_project_mono d d' p : one_project d d' -> p ∈ projects d -> p ∈ projects d'.
Proof. intros [E|E]; rewrite E; [by intros ?%elem_of_nil|done]. Qed.

Lemma project_step_one d d' : project_step d d' -> one_project d d'.
Proof. by intros [E T A m c r c' _ _ Hone]. Qed.

(** An entry of [d'] is one of [d], or the one that was written. *)
Lemma entries_ok_step d d' : ledger_grows d d' -> one_project d d' ->
  (forall id e, cost_entries (costs d') !! id = Some e -> cost_entries (costs d) !! id = Some e
     \/ ce_ID e = id /\ entry_valid e /\ ce_ProjectID e ∈ projects d
        /\ exists ty, cost_types (costs d) !! ce_CostTypeID e = Some ty /\ ct_ProjectID ty = ce_ProjectID e) ->
  entries_ok d -> entries_ok d'.
Proof.
  intros Hg Hone Hrows Hok id e He. assert (H : ce_ID e = id /\ entry_valid e /\ ce_ProjectID e ∈ projects d
    /\ exists ty, cost_types (costs d) !! ce_CostTypeID e = Some ty /\ ct_ProjectID ty = ce_ProjectID e).
  { destruct (Hrows id e He) as [H|H]; [by apply Hok|exact H]. }
  destruct H as (H1 & H2 & H3 & ty & Hty & H4). split_and!; [done|done|by eapply one_project_mono|].
  exists ty. split; [|done]. by apply (lookup_weaken _ _ _ _ Hty (lg_types _ _ Hg)).
Qed.

Lemma reachable_entries_ok d : reachable d -> entries_ok d.
Proof.
  apply reachable_invariant.
  { intros id e He. cbn in He. by simplify_map_eq. }
  clear d. intros d d' Hst. apply (entries_ok_step _ _ (project_step_ledger _ _ Hst) (project_step_one _ _ Hst)).
  destruct Hst as [E T A m c r c' Hop Hr _]. pose proof (project_op_touches _ _ _ Hop _ _ _ Hr) as Ht.
  destruct Hop; try (intros id' x' Hx; left; rewrite <- (touches_cost_entries _ _ _ Ht); [exact Hx|by_decide]).
  apply SaveCostEntry_effect in Hr as [(y & Hs & _)|[_ ->]]; [|by left].
  destruct Hs as (x & ty & id & text & d1 & ev & Hx & Hty & _ & _ & -> & Hi & He).
  apply insert_entry_Some in Hi as (-> & Hn & Hp). apply appends_events in He as (? & _ & _ & _ & _ & _ & Ec & _).
  rewrite Ec. cbn [costs set_cost_entries set_costs cost_entries].
  intros id' x' [[<- <-]|[_ ?]]%lookup_insert_Some; [right|by left].
  split_and!; [done|by eapply check_entry_valid|done|].
  apply map_lookup_filter_Some in Hty as [Hty Hpr]. by exists ty.
Qed.

(** ** Reserves *)

Definition reserve_kinds : list string := ["contingency"; "management"]%string.

(** One reserve of each kind in a project. *)
Definition reserves_ok (m : gmap string CostReserve) : Prop :=
  (forall id r, m !! id = Some r -> 0 <= cr_AmountMinorUnits r /\ cr_Kind r ∈ reserve_kinds)
  /\ forall id1 id2 r1 r2, m !! id1 = Some r1 -> m !! id2 = Some r2 ->
       cr_ProjectID r1 = cr_ProjectID r2 -> cr_Kind r1 = cr_Kind r2 -> id1 = id2.

Lemma reserve_of_Some pid kind d id r : reserve_of pid kind d = Some (id, r) ->
  cost_reserves (costs d) !! id = Some r /\ cr_ProjectID r = pid /\ cr_Kind r = kind.
Proof.
  unfold reserve_of. destruct (list_find _ _) as [[i x]|] eqn:E; [|done]. intros Hx. injection Hx as ->.
  apply list_find_Some in E as (Hi & [Hp Hk] & _). split_and!; [|exact Hp|exact Hk].
  apply elem_of_map_to_list. by eapply list_elem_of_lookup_2.
Qed.

Lemma reserve_of_None pid kind d id r : reserve_of pid kind d = None ->
  cost_reserves (costs d) !! id = Some r -> ~ (cr_ProjectID r = pid /\ cr_Kind r = kind).
Proof.
  unfold reserve_of. rewrite fmap_None, list_find_None, Forall_forall. intros Hn Hr.
  apply (Hn (id, r)). by apply elem_of_map_to_list.
Qed.

Lemma upsert_reserve_ok x d d' : sql_upsert_reserve x d = Some d' -> 0 <= cr_AmountMinorUnits x ->
  cr_Kind x ∈ reserve_kinds -> reserves_ok (cost_reserves (costs d)) ->
  reserves_ok (cost_reserves (costs d')).
Proof.
  unfold sql_upsert_reserve. intros Hu Ha Hk [Hv Hone].
  assert (H : exists id y, costs d' = costs (set_cost_reserves (<[id := y]> (cost_reserves (costs d))) d)
    /\ cr_ProjectID y = cr_ProjectID x /\ cr_Kind y = cr_Kind x /\ cr_AmountMinorUnits y = cr_AmountMinorUnits x
    /\ forall id' r', cost_reserves (costs d) !! id' = Some r' -> cr_ProjectID r' = cr_ProjectID x ->
         cr_Kind r' = cr_Kind x -> id' = id).
  { destruct (reserve_of (cr_ProjectID x) (cr_Kind x) d) as [[id r]|] eqn:E.
    - injection Hu as <-. apply reserve_of_Some in E as (Hr & Hp & Hkr). eexists id, _. split_and!; [reflexivity|done..|].
      intros id' r' Hr' Hp' Hk'. apply (Hone id' id r' r Hr' Hr); congruence.
    - destruct (cost_reserves (costs d) !! cr_ID x); [done|]. case_bool_decide; [|done]. injection Hu as <-.
      eexists (cr_ID x), x. split_and!; [reflexivity|done..|]. intros id' r' Hr' Hp' Hk'.
      by destruct (reserve_of_None _ _ _ _ _ E Hr'). }
  destruct H as (id & y & -> & H1 & H2 & H3 & H4). cbn [costs set_cost_reserves set_costs cost_reserves]. split.
  - intros id' r [[<- <-]|[_ Hr]]%lookup_insert_Some; [by rewrite H2, H3|by eapply Hv].
  - intros id1 id2 r1 r2 [[<- <-]|[N1 R1]]%lookup_insert_Some [[<- <-]|[N2 R2]]%lookup_insert_Some Hp Hkk;
      [done| | |by eapply Hone].
    + symmetry. apply (H4 id2 r2 R2); congruence.
    + apply (H4 id1 r1 R1); congruence.
Qed.

Lemma reserve_input_valid x : reserve_input x = true -> 0 <= cr_AmountMinorUnits x /\ cr_Kind x ∈ reserve_kinds.
Proof.
  unfold reserve_input. intros Hx%negb_true_iff. repeat (apply orb_false_elim in Hx as [Hx ?H]).
  apply negb_false_iff in H1. apply Z.ltb_ge in H0. split; [done|]. unfold reserve_kinds.
  apply orb_prop in H1 as [->%String.eqb_eq| ->%String.eqb_eq]; repeat constructor.
Qed.

Lemma project_step_reserves d d' : project_step d d' ->
  reserves_ok (cost_reserves (costs d)) -> reserves_ok (cost_reserves (costs d')).
Proof.
  intros [E T A m c r c' Hop Hr _] Hok. pose proof (project_op_touches _ _ _ Hop _ _ _ Hr) as Ht.
  destruct Hop; try (rewrite (touches_reserves _ _ _ Ht); [exact Hok|by_decide]).
  apply SaveCostReserve_effect in Hr as [(y & Hs & _)|[_ ->]]; [|done].
  destruct Hs as (id0 & id & d1 & ev & [Ha Hk]%reserve_input_valid & Hu & _ & _ & He).
  apply appends_events in He as (? & _ & _ & _ & _ & _ & -> & _). by eapply upsert_reserve_ok.
Qed.

Lemma reachable_reserves_ok d : reachable d -> reserves_ok (cost_reserves (costs d)).
Proof.
  apply (reachable_invariant (fun d => reserves_ok (cost_reserves (costs d)))); [|apply project_step_reserves].
  split; intros id; cbn; intros; simplify_map_eq.
Qed.

(** The amount reserved in a project, 0 without a reserve of the kind. *)
Definition reserve_amount (pid kind : string) (d : ProjectDB) : Z :=
  default 0 (cr_AmountMinorUnits ∘ snd <$> reserve_of pid kind d).

Lemma reserve_amounts_fold l acc c m :
  (forall r, r ∈ l -> cr_Kind r = "contingency"%string -> cr_AmountMinorUnits r = c) ->
  ((exists r, r ∈ l /\ cr_Kind r = "contingency"%string) \/ acc.1 = c) ->
  (forall r, r ∈ l -> cr_Kind r = "management"%string -> cr_AmountMinorUnits r = m) ->
  ((exists r, r ∈ l /\ cr_Kind r = "management"%string) \/ acc.2 = m) ->
  foldl (fun acc r =>
    if String.eqb (cr_Kind r) "contingency" then (cr_AmountMinorUnits r, acc.2)
    else if String.eqb (cr_Kind r) "management" then (acc.1, cr_AmountMinorUnits r)
    else acc) acc l = (c, m).
Proof.
  revert acc. induction l as [|x l IH]; intros acc H1 H2 H3 H4; cbn [foldl].
  - destruct H2 as [(r & []%elem_of_nil & _)|H2], H4 as [(r & []%elem_of_nil & _)|H4]. destruct acc. cbn in *. congruence.
  - apply IH.
    + intros r Hr. apply H1. by right.
    + destruct (String.eqb_spec (cr_Kind x) "contingency") as [E|E]; [right; cbn; apply H1; [by left|done]|].
      destruct H2 as [(r & [->|Hr]%elem_of_cons & Hk)|H2]; [done|left; by exists r|right].
      by destruct (String.eqb _ _).
    + intros r Hr. apply H3. by right.
    + destruct (String.eqb_spec (cr_Kind x) "management") as [E|E].
      * right. rewrite E. cbn. apply H3; [by left|done].
      * destruct H4 as [(r & [->|Hr]%elem_of_cons & Hk)|H4]; [done|left; by exists r|right].
        by destruct (String.eqb _ _).
Qed.

Lemma elem_of_reserve_list pid d r : r ∈ reserve_list pid d <->
  cr_ProjectID r = pid /\ exists id, cost_reserves (costs d) !! id = Some r.
Proof.
  unfold reserve_list. rewrite list_elem_of_filter, list_elem_of_fmap. split.
  - intros [Hp ([id x] & -> & Hx%elem_of_map_to_list)]. split; [done|by exists id].
  - intros [Hp [id Hr]]. split; [done|]. exists (id, r). split; [done|by apply elem_of_map_to_list].
Qed.

Lemma reserve_amount_of d pid kind : reserves_ok (cost_reserves (costs d)) ->
  (forall r, r ∈ reserve_list pid d -> cr_Kind r = kind -> cr_AmountMinorUnits r = reserve_amount pid kind d)
  /\ ((exists r, r ∈ reserve_list pid d /\ cr_Kind r = kind) \/ 0 = reserve_amount pid kind d).
Proof.
  intros [_ Hone]. unfold reserve_amount. destruct (reserve_of pid kind d) as [[id x]|] eqn:E; cbn.
  - apply reserve_of_Some in E as (Hx & Hp & Hk). split.
    + intros r [Hpr [id' Hr]]%elem_of_reserve_list Hkr.
      assert (id' = id) as -> by (apply (Hone id' id r x Hr Hx); congruence). congruence.
    + left. exists x. split; [apply elem_of_reserve_list; split; [done|by exists id]|done].
  - split; [|by right]. intros r [Hpr [id' Hr]]%elem_of_reserve_list Hkr.
    by destruct (reserve_of_None _ _ _ _ _ E Hr).
Qed.

Lemma reserve_amounts_exact d pid rows : reserves_ok (cost_reserves (costs d)) -> rows ≡ₚ reserve_list pid d ->
  reserve_amounts rows = (reserve_amount pid "contingency" d, reserve_amount pid "management" d).
Proof.
  intros Hok Hp. destruct (reserve_amount_of d pid "contingency" Hok) as [H1 H2].
  destruct (reserve_amount_of d pid "management" Hok) as [H3 H4].
  apply reserve_amounts_fold; cbn [fst snd].
  - intros r. rewrite Hp. apply H1.
  - destruct H2 as [(r & Hr & Hk)|H2]; [left; exists r; by rewrite Hp|by right].
  - intros r. rewrite Hp. apply H3.
  - destruct H4 as [(r & Hr & Hk)|H4]; [left; exists r; by rewrite Hp|by right].
Qed.

Lemma sum_planned_total l : total (sum_planned l) = sum_Z l.
Proof.
  unfold sum_planned. assert (H : forall a, total (foldl (fun a n => Accumulator_Add a (mkAmount n)) a l) = total a + sum_Z l).
  { induction l as [|n l IH]; intros a; cbn [foldl]; [cbn; lia|]. rewrite IH, sum_Z_cons. cbn. lia. }
  by rewrite H.
Qed.

(** ** Approved baselines *)

Record snapshot_valid (s : CostBaselineSnapshot) : Prop := {
  sv_version : 1 <= cs_Version s;
  sv_contingency : 0 <= cs_ContingencyMinorUnits s;
  sv_management : 0 <= cs_ManagementReserveMinorUnits s;
  sv_positive : 0 < cs_PlannedMinorUnits s + cs_ContingencyMinorUnits s;
  sv_fits : cs_PlannedMinorUnits s + cs_ContingencyMinorUnits s + cs_ManagementReserveMinorUnits s <= max_int64
}.

(** The currency of a project as its row has it. *)
Definition row_currency (pid : string) (d : ProjectDB) : option string :=
  pr_CurrencyCode ∘ row <$> project_row pid d.

Record cost_baselines_ok (d : ProjectDB) : Prop := {
  cb_currencies : Forall (fun r => pr_CurrencyCode (row r) ∈ supportedProjectCurrencies) (project d);
  cb_rows id s : cost_baseline_snapshots (costs d) !! id = Some s ->
    cs_ID s = id /\ snapshot_valid s /\ row_currency (cs_ProjectID s) d = Some (cs_CurrencyCode s);
  cb_versions id1 id2 s1 s2 : cost_baseline_snapshots (costs d) !! id1 = Some s1 ->
    cost_baseline_snapshots (costs d) !! id2 = Some s2 -> cs_ProjectID s1 = cs_ProjectID s2 ->
    cs_Version s1 = cs_Version s2 -> id1 = id2
}.

Lemma cost_baselines_same d d' : project d' = project d ->
  cost_baseline_snapshots (costs d') = cost_baseline_snapshots (costs d) ->
  cost_baselines_ok d -> cost_baselines_ok d'.
Proof.
  intros E1 E2 [A B C]. split; [by rewrite E1| |rewrite E2; apply C].
  intros id s. rewrite E2. intros Hs. destruct (B id s Hs) as (H1 & H2 & H3). split_and!; [done..|].
  unfold row_currency, project_row in *. by rewrite E1.
Qed.

(** Writing a project row: a currency that changes had no baselines. *)
Lemma project_saved_baselines p d d' after : project_saved p d d' after -> cost_baselines_ok d -> cost_baselines_ok d'.
Proof.
  intros (id & currency & text & now & d1 & i & e & Hcur & _ & Hlock & Hup & _ & _ & _ & He) [A B C].
  apply appends_events in He as (? & _ & _ & _ & _ & _ & Ec & Ep).
  apply (cost_baselines_same d1 d' Ep); [by rewrite Ec|]. clear Ec Ep.
  assert (Hval : currency ∈ supportedProjectCurrencies).
  { unfold CanonicalProjectCurrency in Hcur. cbv zeta in Hcur. destruct (validCurrencyCode _) eqn:Hv; [|done].
    injection Hcur as <-. by apply bool_decide_eq_true in Hv. }
  pose proof (fun id' => project_row_upsert _ _ _ _ id' Hup) as Hrow. cbn [pr_ID with_row] in Hrow.
  assert (Hc : forall old, pr_CurrencyCode (row (updated_project old (with_row (completed p currency) id text text) now)) = currency)
    by done.
  destruct (sql_upsert_rest _ _ _ _ Hup) as [l Ed1].
  assert (Esnap : cost_baseline_snapshots (costs d1) = cost_baseline_snapshots (costs d)) by by rewrite Ed1.
  split; [| |rewrite Esnap; apply C].
  - injection Hup as <-. cbn [project set_project]. case_bool_decide.
    + apply Forall_fmap. eapply Forall_impl; [exact A|]. intros r Hr. cbn. by destruct (String.eqb _ _).
    + apply Forall_app. split; [exact A|]. by apply Forall_singleton.
  - intros k s. rewrite Esnap. intros Hs. destruct (B k s Hs) as (H1 & H2 & H3). split_and!; [done..|].
    unfold row_currency in *. rewrite Hrow. destruct (String.eqb_spec (cs_ProjectID s) id) as [Ei|]; [|exact H3].
    rewrite Ei in H3. unfold upserted. cbn [pr_ID with_row].
    destruct (project_row id d) as [old|] eqn:Eo; [|done]. cbn [fmap option_fmap option_map compose] in *.
    rewrite Hc. injection H3 as H3. f_equal. rewrite <- H3.
    assert (Hold : pr_CurrencyCode (row old) ∈ supportedProjectCurrencies).
    { rewrite Forall_forall in A. apply A. by apply project_row_Some in Eo as [? _]. }
    assert (Hnorm : pr_CurrencyCode (normalizeProject (row old)) = pr_CurrencyCode (row old)).
    { unfold normalizeProject. cbv zeta. destruct (_ && _); cbn [pr_CurrencyCode with_budget with_places];
        unfold default_string; destruct (String.eqb_spec (pr_CurrencyCode (row old)) "") as [E0|]; try done;
        rewrite E0 in Hold; by apply (bool_decide_eq_true_2 _) in Hold. }
    destruct (decide (pr_CurrencyCode (row old) = currency)) as [|Hne]; [done|exfalso].
    destruct (Hlock old eq_refl) as (_ & _ & Hnone & _); [by rewrite Hnorm|].
    assert (Hin : snapshots_of id d !! k = Some s) by (apply map_lookup_filter_Some; done).
    rewrite Hnone in Hin. by rewrite lookup_empty in Hin.
Qed.

Lemma elem_of_snapshot_list pid d s : s ∈ snapshot_list pid d <->
  cs_ProjectID s = pid /\ exists id, cost_baseline_snapshots (costs d) !! id = Some s.
Proof.
  unfold snapshot_list. rewrite list_elem_of_filter, list_elem_of_fmap. split.
  - intros [Hp ([id x] & -> & Hx%elem_of_map_to_list)]. split; [done|by exists id].
  - intros [Hp [id Hr]]. split; [done|]. exists (id, s). split; [done|by apply elem_of_map_to_list].
Qed.

Lemma foldr_max_ge x l : x <= foldr Z.max x l /\ forall y, y ∈ l -> y <= foldr Z.max x l.
Proof.
  induction l as [|z l [IH1 IH2]]; cbn; [split; [lia|by intros y ?%elem_of_nil]|].
  split; [lia|]. intros y [->|Hy]%elem_of_cons; [lia|]. specialize (IH2 y Hy). lia.
Qed.

(** The next version is above every version of the project. *)
Lemma next_version_above pid d v s : sql_next_version pid d = Some v -> s ∈ snapshot_list pid d -> cs_Version s < v.
Proof.
  unfold sql_next_version. cbv zeta. destruct (in_int64 _); [|done]. intros Hv Hs. injection Hv as <-.
  apply (list_elem_of_fmap_2 cs_Version) in Hs. destruct (cs_Version <$> snapshot_list pid d) as [|x l]; [by apply elem_of_nil in Hs|].
  destruct (foldr_max_ge x l) as [H1 H2]. apply elem_of_cons in Hs as [->|Hs]; [lia|]. specialize (H2 _ Hs). lia.
Qed.

Lemma next_version_first pid d v : sql_next_version pid d = Some v ->
  (forall s, s ∈ snapshot_list pid d -> 1 <= cs_Version s) -> 1 <= v.
Proof.
  intros Hv Hs. destruct (snapshot_list pid d) as [|s l] eqn:E.
  - unfold sql_next_version in Hv. rewrite E in Hv. cbn in Hv. injection Hv as <-. lia.
  - assert (Hin : s ∈ snapshot_list pid d) by (rewrite E; by left).
    pose proof (next_version_above _ _ _ _ Hv Hin). specialize (Hs s ltac:(by left)). lia.
Qed.

Lemma reserve_amounts_nonneg l : (forall r, r ∈ l -> 0 <= cr_AmountMinorUnits r) ->
  0 <= (reserve_amounts l).1 /\ 0 <= (reserve_amounts l).2.
Proof.
  unfold reserve_amounts. assert (H : forall acc : Z * Z, 0 <= acc.1 /\ 0 <= acc.2 ->
    (forall r, r ∈ l -> 0 <= cr_AmountMinorUnits r) ->
    let res := foldl (fun acc r => if String.eqb (cr_Kind r) "contingency" then (cr_AmountMinorUnits r, acc.2)
      else if String.eqb (cr_Kind r) "management" then (acc.1, cr_AmountMinorUnits r) else acc) acc l in
    0 <= res.1 /\ 0 <= res.2); [|intros Hl; by apply H].
  induction l as [|x l IH]; intros acc Ha Hl; cbn [foldl]; [exact Ha|].
  apply IH; [|intros r Hr; apply Hl; by right]. specialize (Hl x ltac:(by left)).
  repeat destruct (String.eqb _ _); cbn; lia.
Qed.

Lemma received_elem `{DbEnv} {A} (l0 l : list A) x : received l0 l -> x ∈ l -> x ∈ l0.
Proof.
  intros (l1 & Hp & [->|(k & n & _ & ->)]) Hx; rewrite <- Hp; [done|].
  rewrite <- (take_drop n l1). apply elem_of_app. by left.
Qed.

Lemma Amount_Add_Ok a b x : Amount_Add a b = Ok x ->
  MinorUnits x = MinorUnits a + MinorUnits b /\ in_int64 (MinorUnits a + MinorUnits b) = true.
Proof.
  unfold Amount_Add, Accumulator_Amount, amountFromBigInt. cbn. destruct (in_int64 _) eqn:E; [|done].
  intros Hx. by injection Hx as <-.
Qed.

Lemma Accumulator_Amount_Ok a x : Accumulator_Amount a = Ok x -> MinorUnits x = total a.
Proof. unfold Accumulator_Amount, amountFromBigInt. destruct (in_int64 _); [|done]. intros Hx. by injection Hx as <-. Qed.

Lemma approved_snapshot_valid `{DbEnv} pid actor note d d' s : reserves_ok (cost_reserves (costs d)) ->
  cost_baselines_ok d -> cost_approved pid actor note d d' s ->
  snapshot_valid s /\ (forall s', s' ∈ snapshot_list pid d -> cs_Version s' < cs_Version s)
  /\ row_currency pid d = Some (cs_CurrencyCode s).
Proof.
  intros [Hres _] [A B C] (cur & am & rows & pl & base & whole & v & id & text & d1 & d2 & ev & _ & _ & _ & Hcur & _
    & Hpl & Hrows & Hbase & Hpos & Hwhole & Hv & -> & _).
  apply Amount_Add_Ok in Hbase as [Hbase _], Hwhole as [_ Hw]. rewrite in_int64_spec in Hw.
  destruct (reserve_amounts_nonneg rows) as [N1 N2].
  { intros r Hr. apply (received_elem _ _ _ Hrows), elem_of_reserve_list in Hr as [_ [k Hk]]. by eapply Hres. }
  cbn [MinorUnits] in *. split_and!; [split; cbn|intros s'; by eapply next_version_above|].
  - eapply next_version_first; [exact Hv|]. intros s' [_ [k Hk]]%elem_of_snapshot_list. by apply (B k s' Hk).
  - done.
  - done.
  - lia.
  - unfold max_int64. lia.
  - unfold row_currency, project_currency, project_row in *. by destruct (list_find _ _).
Qed.

Lemma cost_approved_baselines `{DbEnv} pid actor note d d' s : reserves_ok (cost_reserves (costs d)) ->
  cost_baselines_ok d -> cost_approved pid actor note d d' s -> cost_baselines_ok d'.
Proof.
  intros Hres Hok Ha. destruct (approved_snapshot_valid _ _ _ _ _ _ Hres Hok Ha) as (Hv & Habove & Hcur).
  destruct Ha as (cur & am & rows & pl & base & whole & v & id & text & d1 & d2 & ev & _ & _ & _ & _ & _ & _ & _ & _ & _ & _ & _
    & Es & Hi & He & Hc).
  assert (Hpid : cs_ProjectID s = pid) by by rewrite Es.
  apply insert_snapshot_Some in Hi as (-> & Hn & _).
  apply appends_events in He as (? & _ & _ & _ & _ & _ & Ec & Ep).
  apply checkpointed_event in Hc as (? & ? & _ & _ & _ & _ & _ & Ec2 & Ep2 & _).
  destruct Hok as [A B C]. cbn [costs project set_cost_baseline_snapshots set_costs] in Ec, Ep. split.
  - by rewrite Ep2, Ep.
  - intros k y. rewrite Ec2, Ec. cbn [cost_baseline_snapshots].
    assert (Hrc : forall q, row_currency q d' = row_currency q d) by (intros q; unfold row_currency, project_row; by rewrite Ep2, Ep).
    rewrite Hrc. intros [[<- <-]|[_ Hx]]%lookup_insert_Some; [by rewrite Hpid|by apply B].
  - intros k1 k2 s1 s2. rewrite Ec2, Ec. cbn [cost_baseline_snapshots].
    intros [[<- <-]|[N1 H1]]%lookup_insert_Some [[<- <-]|[N2 H2]]%lookup_insert_Some Hp Hver; [done| | |by eapply C].
    + assert (Hlt : cs_Version s2 < cs_Version s) by (apply Habove, elem_of_snapshot_list; split; [congruence|by exists k2]). lia.
    + assert (Hlt : cs_Version s1 < cs_Version s) by (apply Habove, elem_of_snapshot_list; split; [congruence|by exists k1]). lia.
Qed.

Lemma reachable_cost_ok d : reachable d -> reserves_ok (cost_reserves (costs d)) /\ cost_baselines_ok d.
Proof.
  apply (reachable_invariant (fun d => reserves_ok (cost_reserves (costs d)) /\ cost_baselines_ok d)).
  { split; [split; intros id; cbn; intros; simplify_map_eq|]. split; [constructor|intros id; cbn; intros; simplify_map_eq..]. }
  clear d. intros d d' Hst [Hres Hok]. split; [by eapply project_step_reserves|].
  destruct Hst as [E T A m c r c' Hop Hr _]. pose proof (project_op_touches _ _ _ Hop _ _ _ Hr) as Ht.
  destruct Hop; try (refine (cost_baselines_same _ _ (touches_project _ _ _ Ht _) (touches_snapshots _ _ _ Ht _) Hok);
    by_decide).
  - apply UpsertProject_effect in Hr as [(after & Hs & _)|[_ ->]]; [|done]. by eapply project_saved_baselines.
  - apply ApproveCostBaseline_effect in Hr as [(s & Hs & _)|[_ ->]]; [|done]. by eapply cost_approved_baselines.
Qed.

(** ** Attachments *)

Lemma trim_while_elem len fuel l x : x ∈ trim_while len fuel l -> x ∈ l.
Proof.
  revert l. induction fuel as [|fuel IH]; intros l; cbn [trim_while]; [done|].
  destruct (len l) as [|n]; [done|]. intros Hx%IH. rewrite <- (take_drop (S n) l). apply elem_of_app. by right.
Qed.

Lemma TrimSpace_elem s x : x ∈ bytes_of (TrimSpace s) -> x ∈ bytes_of s.
Proof.
  unfold TrimSpace. rewrite bytes_of_string_of, elem_of_reverse.
  intros Hx%trim_while_elem. rewrite elem_of_reverse in Hx. by apply trim_while_elem in Hx.
Qed.

Lemma until_slash_none l : "/"%char ∉ until_slash l.
Proof.
  induction l as [|c l IH]; cbn [until_slash]; [by intros ?%elem_of_nil|].
  destruct (is_slash c) eqn:E; [by intros ?%elem_of_nil|].
  intros [<-|Hin]%elem_of_cons; [by vm_compute in E|by apply IH].
Qed.

(** A file name that names a file of its directory. *)
Definition filename_ok (name : string) : Prop :=
  name <> ""%string /\ name <> "."%string /\ name <> ".."%string /\ "/"%char ∉ bytes_of name
  /\ go_len name <= maxAttachmentFilenameLength.

Lemma sanitize_ok name n : sanitizeAttachmentFilename name = Some n -> filename_ok n.
Proof.
  unfold sanitizeAttachmentFilename. cbv zeta. destruct (_ || _ || _ || _) eqn:Hb; [done|].
  destruct (_ <? _) eqn:Hl; [done|]. intros Hn. injection Hn as <-.
  repeat (apply orb_false_elim in Hb as [Hb ?H]). rewrite String.eqb_neq in *. apply Z.ltb_ge in Hl.
  split_and!; try done. intros Hin%TrimSpace_elem. unfold filepath_Base in *.
  destruct (String.eqb (TrimSpace name) ""); [by apply (bool_decide_unpack _)|].
  set (u := until_slash _) in *. pose proof (until_slash_none (drop_slashes (reverse (bytes_of (TrimSpace name))))) as Hu.
  fold u in Hu. destruct u as [|c l]; [by vm_compute in H|]. rewrite bytes_of_string_of, elem_of_reverse in Hin. done.
Qed.

Record attachment_ok (d : ProjectDB) (id : string) (a : CostEntryAttachment) (data : string) : Prop := {
  ao_id : at_ID a = id;
  ao_size : at_SizeBytes a = go_len data;
  ao_bounds : 0 < go_len data <= maxAttachmentBytes;
  ao_digest : at_SHA256 a = HexSum256 data;
  ao_name : filename_ok (at_Filename a);
  ao_entry : exists e, cost_entries (costs d) !! at_CostEntryID a = Some e /\ ce_ProjectID e = at_ProjectID a
}.

Record attachments_ok (d : ProjectDB) : Prop := {
  as_rows id a data : cost_entry_attachments (costs d) !! id = Some (a, data) -> attachment_ok d id a data;
  as_count entry : (length (attachments_of_entry entry d) <= maxAttachmentsPerEntry)%nat;
  as_bytes pid : 0 <= sum_Z (at_SizeBytes <$> attachments_of_project pid d) <= maxAttachmentTotalBytesPerProject
}.

Lemma insert_values {A} (m : gmap string A) k x : m !! k = None ->
  (map_to_list (<[k := x]> m)).*2 ≡ₚ x :: (map_to_list m).*2.
Proof. intros Hk. by rewrite map_to_list_insert. Qed.

Lemma attachment_ok_grows d d' id a data : ledger_grows d d' -> attachment_ok d id a data -> attachment_ok d' id a data.
Proof.
  intros Hg [A B C D E (e & He & Hp)]. split; try done. exists e. split; [|done].
  by apply (lookup_weaken _ _ _ _ He (lg_entries _ _ Hg)).
Qed.

Lemma attachments_same d d' : ledger_grows d d' ->
  cost_entry_attachments (costs d') = cost_entry_attachments (costs d) -> attachments_ok d -> attachments_ok d'.
Proof.
  intros Hg E [A B C]. split.
  - intros id a data. rewrite E. intros Hx. eapply attachment_ok_grows; [exact Hg|by apply A].
  - intros entry. unfold attachments_of_entry. rewrite E. apply B.
  - intros pid. unfold attachments_of_project. rewrite E. apply C.
Qed.

Lemma attachment_saved_ok pid entry filename data d d' a : ledger_grows d d' ->
  attachment_saved pid entry filename data d d' a -> attachments_ok d -> attachments_ok d'.
Proof.
  intros Hg (n & k & id & text & e & total & d1 & ev & Hn & Hz & Hm & He & Hp & Hcount & Htotal & Hbudget & Ea & Hi & Happ).
  intros [A B C]. apply insert_attachment_Some in Hi as (-> & Hnone).
  apply appends_events in Happ as (? & _ & _ & _ & _ & _ & Ec & _). cbn [costs set_cost_entry_attachments set_costs] in Ec.
  assert (Hvals : (map_to_list (cost_entry_attachments (costs d'))).*2 ≡ₚ (a, data) :: (map_to_list (cost_entry_attachments (costs d))).*2).
  { rewrite Ec. cbn [cost_entry_attachments]. by apply insert_values. }
  assert (Hlen : 0 <= go_len data) by (unfold go_len; lia).
  assert (H64 : total = sum_Z (at_SizeBytes <$> attachments_of_project pid d) /\ 0 <= total <= maxAttachmentTotalBytesPerProject).
  { unfold sql_attached_bytes in Htotal. cbv zeta in Htotal. destruct (in_int64 _); [|done]. injection Htotal as <-.
    split; [done|apply C]. }
  destruct H64 as [-> Hrange]. set (total := sum_Z _) in *. split.
  - intros id' a' data'. rewrite Ec. cbn [cost_entry_attachments].
    intros [[<- E]|[_ Hx]]%lookup_insert_Some; [|eapply attachment_ok_grows; [exact Hg|by apply A]].
    injection E as E1 E2. subst a' data'. split; rewrite ?Ea; cbn; try done; [lia|by eapply sanitize_ok|].
    exists e. split; [|done]. by apply (lookup_weaken _ _ _ _ He (lg_entries _ _ Hg)).
  - intros entry'. unfold attachments_of_entry. rewrite (Permutation_length (filter_Permutation _ _ _ (fmap_Permutation fst _ _ Hvals))).
    rewrite fmap_cons. cbn [fst]. rewrite filter_cons. case_decide as Hd; [|apply B]. cbn [length].
    rewrite Ea in Hd. cbn in Hd. subst entry'. fold (attachments_of_entry entry d). lia.
  - intros pid'. unfold attachments_of_project.
    rewrite (sum_Z_perm _ _ (fmap_Permutation at_SizeBytes _ _ (filter_Permutation _ _ _ (fmap_Permutation fst _ _ Hvals)))).
    rewrite fmap_cons. cbn [fst]. rewrite filter_cons. case_decide as Hd; [|apply C]. rewrite fmap_cons, sum_Z_cons.
    rewrite Ea in Hd. cbn in Hd. subst pid'. fold (attachments_of_project pid d). change (sum_Z _) with total.
    assert (Ew : wrap64 (total + go_len data) = total + go_len data).
    { apply wrap64_id. change maxAttachmentBytes with 10485760 in Hm.
      change maxAttachmentTotalBytesPerProject with 209715200 in Hrange. lia. }
    rewrite Ew in Hbudget. rewrite Ea. cbn. lia.
Qed.

Lemma reachable_attachments_ok d : reachable d -> attachments_ok d.
Proof.
  apply reachable_invariant.
  { split; [intros id a data; cbn; intros; simplify_map_eq|intros entry; vm_compute; lia|intros pid; by vm_compute]. }
  clear d. intros d d' Hst Hok. pose proof (project_step_ledger _ _ Hst) as Hg.
  destruct Hst as [E T A m c r c' Hop Hr _]. pose proof (project_op_touches _ _ _ Hop _ _ _ Hr) as Ht.
  destruct Hop; try (refine (attachments_same _ _ Hg (touches_attachments _ _ _ Ht _) Hok); by_decide).
  apply SaveCostEntryAttachment_effect in Hr as [(a & Hs & _)|[_ E1]]; [by eapply attachment_saved_ok|].
  eapply attachments_same; [exact Hg|by rewrite E1|exact Hok].
Qed.
