(* ===== verification/CostSearch.v ===== *)
(** * Searching and totalling the ledger

    The pattern a search sends to SQLite against plain containment (with the lemmas
    of SqliteLike), and the loop
    that totals quantities against sums over groups of rows. *)

From S2P Require Import Prelude GoStrings SqliteLike Money ProjectDb CostControl CostTheorems.

Local Open Scope Z_scope.

(** ** Containment *)

Lemma escape_like_high l : Forall (fun c => 128 <= byte_val c) l -> flat_map escape_like l = l.
Proof.
  induction 1 as [|c l Hc _ IH]; [done|]. cbn [flat_map]. rewrite IH. unfold escape_like.
  destruct (Ascii.eqb c "\" || Ascii.eqb c "%" || Ascii.eqb c "_") eqn:E; [exfalso|done].
  rewrite !orb_true_iff, !Ascii.eqb_eq in E. destruct E as [[-> | ->]| ->]; by vm_compute in Hc.
Qed.

Lemma escape_like_runes Q l : Forall plain_rune Q -> byte_val <$> l = concat Q ->
  byte_val <$> flat_map escape_like l = concat (flat_map escape_rune Q).
Proof.
  intros HQ. revert l. induction HQ as [|q Q Hq HQ IH]; intros l E; [by destruct l|].
  cbn [concat] in E. apply fmap_app_inv in E as (l1 & l2 & E1 & E2 & ->).
  rewrite flat_map_app, fmap_app. cbn [flat_map]. rewrite concat_app, <- (IH l2) by done. f_equal. unfold escape_rune.
  destruct (decide (length q = 1%nat)) as [L|L].
  - destruct q as [|a [|? ?]]; try done. destruct l1 as [|c [|? ?]]; try done. injection E1 as ->. cbn [flat_map].
    rewrite app_nil_r. unfold escape_like.
    assert (Hs : Ascii.eqb c "\" || Ascii.eqb c "%" || Ascii.eqb c "_" = bool_decide ([byte_val c] ∈ [[92]; [37]; [95]])).
    { clear. by destruct c as [[] [] [] [] [] [] [] []]. }
    rewrite Hs. by case_bool_decide.
  - pose proof (multibyte_code q Hq L). rewrite bool_decide_false by (rewrite (special_code q Hq); lia).
    cbn [concat]. rewrite app_nil_r, E1, escape_like_high; [done|].
    pose proof (multibyte_high q Hq L) as Hh. rewrite E1, Forall_fmap in Hh. exact Hh.
Qed.

Lemma searchable_runes s : searchable s -> exists R, Forall plain_rune R /\ byte_val <$> bytes_of s = concat R.
Proof.
  intros [Hv Hr]. apply (searchable_plain (length (bytes_of s))); [done|exact Hv|].
  by rewrite <- length_bytes_of in Hr.
Qed.

Lemma plain_first Q l : Forall plain_rune Q -> byte_val <$> l = concat Q -> head Q = Some [194; 128] ->
  byte_val <$> take 2 l = [194; 128].
Proof.
  intros HQ E H. destruct Q as [|q Q]; [done|]. injection H as ->. rewrite fmap_take, E. done.
Qed.

Lemma Like_contains q text : searchable q -> no_control_head q -> searchable text ->
  Like text (ledgerSearchNeedle q) = true <-> contains q text.
Proof.
  intros (Q & HQ & EQ)%searchable_runes H80 (R & HR & ER)%searchable_runes.
  assert (Ep : byte_val <$> bytes_of (ledgerSearchNeedle q) = concat ([37] :: tail_pattern Q)).
  { unfold ledgerSearchNeedle, tail_pattern. rewrite bytes_of_string_of. cbn [concat]. rewrite concat_app.
    rewrite fmap_cons, fmap_app, (escape_like_runes Q) by done. done. }
  unfold Like. rewrite Ep, ER, (c_string_plain R HR), (c_string_plain ([37] :: tail_pattern Q)).
  2: { constructor; [exact plain_percent|by apply tail_pattern_plain]. }
  rewrite needle_occurs; [|done..|intros H; apply H80; by apply (plain_first Q)].
  transitivity (occurs Q R = true); [by destruct (occurs Q R)|]. rewrite occurs_bytes by done.
  rewrite <- ER, <- EQ. unfold contains. split.
  - intros (a & m & b & E & Hm). apply fmap_app_inv in E as (a' & l & -> & E & ->).
    symmetry in E; apply fmap_app_inv in E as (m' & b' & -> & -> & ->). exists a', m', b'. split; [done|]. by apply lower_bytes_val.
  - intros (a & m & b & -> & Hm%lower_bytes_val). exists (byte_val <$> a), (byte_val <$> m), (byte_val <$> b).
    by rewrite !fmap_app.
Qed.

(** An entry holds [q] in one of the texts that are searched. *)
Definition entry_contains (q : string) (e : CostEntry) : Prop :=
  Exists (contains q) [ce_Description e; ce_ItemName e; ce_SKU e; ce_SupplierName e; ce_InvoiceReference e].

Definition searched_texts (e : CostEntry) : list string :=
  [ce_Description e; ce_ItemName e; ce_SKU e; ce_SupplierName e; ce_InvoiceReference e].

Lemma entry_matches_contains q e : searchable q -> no_control_head q -> Forall searchable (searched_texts e) ->
  entry_matches (ledgerSearchNeedle q) e = true <-> entry_contains q e.
Proof.
  intros Hq H80 Hs. unfold searched_texts in Hs. rewrite !Forall_cons in Hs.
  unfold entry_matches, entry_contains. rewrite !orb_true_iff, !Like_contains, !Exists_cons, Exists_nil by tauto. tauto.
Qed.

Lemma filter_ext_in {A} (P Q : A -> Prop) `{forall x, Decision (P x), forall x, Decision (Q x)} (l : list A) :
  (forall x, x ∈ l -> P x <-> Q x) -> filter P l = filter Q l.
Proof.
  induction l as [|x l IH]; intros H'; [done|]. rewrite !filter_cons, IH by (intros; apply H'; by right).
  pose proof (H' x ltac:(by left)). repeat case_decide; tauto.
Qed.

#[export] Instance entry_order_total : Total entry_order.
Proof.
  intros a b. unfold entry_order. destruct (decide (ce_CostDate a = ce_CostDate b)) as [E|E].
  - destruct (base.total String.le (ce_CreatedAt a) (ce_CreatedAt b)); [right|left]; right; done.
  - destruct (base.total String.le (ce_CostDate a) (ce_CostDate b)); [right|left]; left; split; congruence || done.
Qed.

(** ** Totals *)

(** The rows of an item and a unit. *)
Definition group (k : string * string) (rows : list quantity_row) : list quantity_row :=
  filter (fun r => r.1 = k) rows.

Definition group_total (k : string * string) (rows : list quantity_row) : Z := sum_Z (snd <$> group k rows).

Definition group_count (k : string * string) (rows : list quantity_row) : Z := Z.of_nat (length (group k rows)).

(** A text without the byte that separates the two parts of a key. *)
Definition no_separator (s : string) : Prop := byte_of 0 ∉ bytes_of s.

Lemma app_separator_inj {A} (x : A) l1 l2 r1 r2 : x ∉ l1 -> x ∉ l2 -> l1 ++ x :: r1 = l2 ++ x :: r2 ->
  l1 = l2 /\ r1 = r2.
Proof.
  revert l2. induction l1 as [|a l1 IH]; intros [|b l2] H1 H2 E; cbn in E.
  - by injection E as ->.
  - injection E as -> _. destruct H2. by left.
  - injection E as -> _. destruct H1. by left.
  - injection E as -> E. apply IH in E as [-> ->]; [done| |]; intros Hx; [destruct H1|destruct H2]; by right.
Qed.

Lemma bucket_key_inj i1 u1 i2 u2 : no_separator i1 -> no_separator i2 ->
  bucket_key i1 u1 = bucket_key i2 u2 -> (i1, u1) = (i2, u2).
Proof.
  intros H1 H2 E. apply (f_equal bytes_of) in E. unfold bucket_key in E. rewrite !bytes_of_app in E.
  cbn [bytes_of String.list_ascii_of_string app] in E. apply app_separator_inj in E as [E1 E2]; [|done..].
  apply (f_equal string_of) in E1, E2. rewrite !string_of_bytes_of in *. by subst.
Qed.

(** The state of the loop after the rows [done]. *)
Record totalled (done : list quantity_row) (acc : list string * gmap string bucket) : Prop := {
  tt_nodup : NoDup acc.1;
  tt_order key : key ∈ acc.1 <-> is_Some (acc.2 !! key);
  tt_bucket key b : acc.2 !! key = Some b -> exists k, k ∈ fst <$> done /\ key = bucket_key k.1 k.2
    /\ b = mkBucket k.1 k.2 (mkAccumulator (group_total k done)) (group_count k done);
  tt_rows r : r ∈ done -> is_Some (acc.2 !! bucket_key r.1.1 r.1.2)
}.

Lemma group_snoc k l r : group k (l ++ [r]) = group k l ++ (if decide (r.1 = k) then [r] else []).
Proof. unfold group. by rewrite filter_app. Qed.

Lemma group_snoc_same l r : group_total r.1 (l ++ [r]) = group_total r.1 l + r.2
  /\ group_count r.1 (l ++ [r]) = group_count r.1 l + 1.
Proof.
  unfold group_total, group_count. rewrite group_snoc, decide_True by done.
  rewrite fmap_app, sum_Z_app, length_app.
  cbn. lia.
Qed.

Lemma group_snoc_other k l r : r.1 <> k -> group_total k (l ++ [r]) = group_total k l
  /\ group_count k (l ++ [r]) = group_count k l.
Proof. intros Hne. unfold group_total, group_count. by rewrite group_snoc, decide_False, app_nil_r. Qed.

Lemma group_new k l : k ∉ fst <$> l -> group_total k l = 0 /\ group_count k l = 0.
Proof.
  intros Hn. assert (E : group k l = []).
  { destruct (group k l) as [|x t] eqn:E; [done|exfalso].
    assert (Hx : x ∈ group k l) by (rewrite E; by left).
    apply list_elem_of_filter in Hx as [<- Hx]. by apply Hn, list_elem_of_fmap_2. }
  unfold group_total, group_count. by rewrite E.
Qed.

Lemma add_quantity_totalled l acc r : Forall (fun r => no_separator r.1.1) (l ++ [r]) ->
  totalled l acc -> totalled (l ++ [r]) (add_quantity acc r).
Proof.
  intros [Hl [Hr _]%Forall_cons]%Forall_app [N O B R]. destruct acc as [order m]. cbn [fst snd] in *.
  set (key := bucket_key r.1.1 r.1.2).
  assert (Hinj : forall k, k ∈ fst <$> l -> bucket_key k.1 k.2 = key -> k = r.1).
  { intros k (x & -> & Hx)%list_elem_of_fmap Hk. rewrite Forall_forall in Hl. specialize (Hl x Hx).
    unfold key in Hk. clear -Hl Hr Hk. destruct x as [[i u] n], r as [[i' u'] n']. cbn in *.
    by apply bucket_key_inj. }
  assert (Hold : forall key' b, m !! key' = Some b -> key' <> key -> exists k, k ∈ fst <$> l ++ [r]
    /\ key' = bucket_key k.1 k.2 /\ b = mkBucket k.1 k.2 (mkAccumulator (group_total k (l ++ [r]))) (group_count k (l ++ [r]))).
  { intros key' b Hb Hne. destruct (B key' b Hb) as (k & Hk & -> & ->). exists k.
    assert (Hrk : r.1 <> k) by (intros <-; done). destruct (group_snoc_other k l r Hrk) as [-> ->].
    split_and!; [|done..]. rewrite fmap_app, elem_of_app. by left. }
  assert (Hin : r.1 ∈ fst <$> l ++ [r]) by (rewrite fmap_app, elem_of_app; right; by left).
  destruct (group_snoc_same l r) as [Et Ec].
  unfold add_quantity. cbv zeta. cbn [fst snd]. fold key. destruct (m !! key) as [b|] eqn:E; cbn [bk_itemName bk_unit bk_total bk_count].
  - destruct (B key b E) as (k & Hk & Ek & ->). rewrite <- (Hinj k Hk (eq_sym Ek)) in *. cbn [bk_itemName bk_unit bk_total bk_count]. split; cbn [fst snd].
    + exact N.
    + intros key'. rewrite O, lookup_insert_is_Some. destruct (decide (key = key')) as [<-|]; [rewrite E; split; [by left|by eexists]|].
      split; [by right|]. by intros [|[_ ?]].
    + intros key' b' [[<- <-]|[Hne Hb]]%lookup_insert_Some; [|by apply Hold; [|intros ->]].
      exists k. split_and!; [done|done|]. unfold Accumulator_Add. cbn. by rewrite Et, Ec.
    + intros x [Hx| ->%list_elem_of_singleton]%elem_of_app; apply lookup_insert_is_Some; [|by left].
      destruct (decide (key = bucket_key x.1.1 x.1.2)); [by left|right; split; [done|by apply R]].
  - assert (Hnew : r.1 ∉ fst <$> l).
    { intros (x & Ex & Hx)%list_elem_of_fmap. destruct (R x Hx) as [b Hb]. rewrite <- Ex in Hb. fold key in Hb. congruence. }
    destruct (group_new _ _ Hnew) as [E0 C0]. rewrite E0 in Et. rewrite C0 in Ec.
    assert (Hno : key ∉ order) by (rewrite O, E; by intros [? ?]). split; cbn [fst snd].
    + apply NoDup_app. split_and!; [done| |by apply NoDup_singleton]. intros x Hx ->%list_elem_of_singleton. done.
    + intros key'. rewrite elem_of_app, O, lookup_insert_is_Some, list_elem_of_singleton.
      destruct (decide (key = key')) as [<-|]; [split; [by left|by right]|].
      split; [intros [?| ->]; [by right|done]|]. intros [?|[_ ?]]; [done|by left].
    + intros key' b' [[<- <-]|[Hne Hb]]%lookup_insert_Some; [|by apply Hold; [|intros ->]].
      exists r.1. split_and!; [done|done|]. unfold Accumulator_Add. cbn. by rewrite Et, Ec.
    + intros x [Hx| ->%list_elem_of_singleton]%elem_of_app; apply lookup_insert_is_Some; [|by left].
      destruct (decide (key = bucket_key x.1.1 x.1.2)); [by left|right; split; [done|by apply R]].
Qed.

Lemma all_totalled rows : Forall (fun r => no_separator r.1.1) rows -> totalled rows (foldl add_quantity ([], ∅) rows).
Proof.
  induction rows as [|r l IH] using rev_ind; intros Hs.
  - split; cbn [foldl fst snd].
    + constructor.
    + intros key. rewrite elem_of_nil, lookup_empty. split; [done|by intros [? ?]].
    + intros key b Hb. by rewrite lookup_empty in Hb.
    + by intros r ?%elem_of_nil.
  - rewrite foldl_app. cbn [foldl]. apply add_quantity_totalled; [done|]. apply IH. by apply Forall_app in Hs as [? _].
Qed.

Definition aggregate_of (rows : list quantity_row) (k : string * string) : CostQuantityAggregate :=
  mkAggregateRow k.1 k.2 (group_total k rows) (group_count k rows).

(** The totals of the groups [ks], or the overflow of one of them. *)
Definition aggregates (ks : list (string * string)) (rows : list quantity_row)
    : result DbError (list CostQuantityAggregate) :=
  if forallb (fun k => in_int64 (group_total k rows)) ks then Ok (aggregate_of rows <$> ks)
  else Err (ErrCostMoney ErrOverflow).

Lemma aggregate_rows_groups rows m order :
  (forall key, key ∈ order -> exists k, k ∈ fst <$> rows /\ key = bucket_key k.1 k.2
     /\ m !! key = Some (mkBucket k.1 k.2 (mkAccumulator (group_total k rows)) (group_count k rows))) ->
  exists ks, order = (fun k => bucket_key k.1 k.2) <$> ks /\ (forall k, k ∈ ks -> k ∈ fst <$> rows)
    /\ aggregate_rows order m = Some (aggregates ks rows).
Proof.
  induction order as [|key order IH]; intros Hm.
  - exists []. split_and!; [done|by intros k ?%elem_of_nil|done].
  - destruct IH as (ks & -> & Hks & Hagg); [intros; apply Hm; by right|].
    destruct (Hm key) as (k & Hk & -> & Hb); [by left|]. exists (k :: ks).
    split_and!; [done|by intros k' [->|?%Hks]%elem_of_cons|].
    cbn [fmap list_fmap aggregate_rows]. rewrite Hb. cbn [mbind option_bind bk_total].
    change (list_fmap ?A ?B ?f ?l) with (f <$> l). rewrite Hagg. unfold aggregates, Accumulator_Amount, amountFromBigInt.
    cbn [Money.total forallb]. destruct (in_int64 (group_total k rows)); [cbn [andb]|done].
    by destruct (forallb _ ks).
Qed.

Lemma aggregate_quantities_groups rows : Forall (fun r => no_separator r.1.1) rows ->
  exists ks, NoDup ks /\ (forall k, k ∈ ks <-> k ∈ fst <$> rows)
    /\ aggregate_quantities rows = Some (aggregates ks rows).
Proof.
  intros Hs. destruct (all_totalled rows Hs) as [N O B R]. unfold aggregate_quantities. cbv zeta.
  set (acc := foldl add_quantity ([], ∅) rows) in *.
  destruct (aggregate_rows_groups rows acc.2 acc.1) as (ks & Eo & Hks & Hagg).
  { intros key Hkey. apply O in Hkey as [b Hb]. destruct (B key b Hb) as (k & Hk & E & ->). exists k. done. }
  exists ks. rewrite Eo in N. split_and!; [by apply NoDup_fmap_1 in N| |exact Hagg].
  intros k. split; [apply Hks|]. intros (r & -> & Hr)%list_elem_of_fmap.
  assert (Hin : bucket_key r.1.1 r.1.2 ∈ acc.1) by (apply O, R, Hr).
  rewrite Eo in Hin. apply list_elem_of_fmap in Hin as (k & E & Hk).
  specialize (Hks k Hk) as (r' & -> & Hr')%list_elem_of_fmap. rewrite Forall_forall in Hs.
  pose proof (Hs r Hr). pose proof (Hs r' Hr'). apply bucket_key_inj in E; [|done..].
  destruct r as [[i u] n], r' as [[i' u'] n']. cbn in *. by rewrite E.
Qed.

(** Totals do not depend on the order of the rows. *)
Lemma aggregates_perm ks l1 l2 : l1 ≡ₚ l2 -> aggregates ks l1 = aggregates ks l2.
Proof.
  intros Hp. assert (Hg : forall k, group_total k l1 = group_total k l2 /\ group_count k l1 = group_count k l2).
  { intros k. pose proof (filter_Permutation (fun r : quantity_row => r.1 = k) _ _ Hp) as Hf.
    unfold group_total, group_count, group. split; [by apply sum_Z_perm; rewrite Hf|by rewrite Hf]. }
  unfold aggregates. rewrite (list_fmap_ext (aggregate_of l1) (aggregate_of l2)).
  - assert (E : forallb (fun k => in_int64 (group_total k l1)) ks = forallb (fun k => in_int64 (group_total k l2)) ks);
      [|by rewrite E]. induction ks as [|k ks IH]; [done|]. cbn. by rewrite IH, (proj1 (Hg k)).
  - intros _ k _. unfold aggregate_of. by destruct (Hg k) as [-> ->].
Qed.
