(* ===== verification/CostHistory.v ===== *)
(** * What cost control promises

    The ledger only grows and stays well formed, approved baselines record the sums
    they say, attachments stay within their bounds, and searches and totals are what
    they claim; with a concrete history. *)

From S2P Require Import Prelude GoFloat GoStrings GoTime GoSha256 GoJson GoJsonV2 SqliteLike Money Wbs ProjectDb AuditChain AuditTheorems AuditHistory Charts ChartsTheorems ProjectKeeps Projects PlanTheorems Documents Baselines Scenarios CostControl CostAttachments CostTheorems WbsStore WbsInvariant ProjectFrames ProjectMachine WbsHistory PlanHistory CostInvariant CostSearch.

Local Open Scope Z_scope.

(** ** The approval of a baseline *)

(** The planned amounts of the ledger of a project. *)
Definition planned_of (pid : string) (d : ProjectDB) : list Z :=
  ce_AmountMinorUnits <$> filter (fun e => ce_ProjectID e = pid /\ ce_Kind e = "planned"%string)
    (map_to_list (cost_entries (costs d))).*2.

(** [z] is the amount of the reserve of a kind, 0 without one. *)
Definition reserved (pid kind : string) (d : ProjectDB) (z : Z) : Prop :=
  let reserve r := (exists id, cost_reserves (costs d) !! id = Some r) /\ cr_ProjectID r = pid /\ cr_Kind r = kind in
  (forall r, reserve r -> z = cr_AmountMinorUnits r) /\ ((forall r, ~ reserve r) -> z = 0).

(** [v] follows the last version of the project, 1 without one. *)
Definition follows_versions (pid : string) (d : ProjectDB) (v : Z) : Prop :=
  let version w := exists id s, cost_baseline_snapshots (costs d) !! id = Some s /\ cs_ProjectID s = pid /\ cs_Version s = w in
  (forall w, version w -> w < v) /\ (v = 1 \/ version (v - 1)).

(** The baseline of an approval: the sums of the ledger and of the reserves, the
    next version, the currency of the project; one row, its event and the checkpoint
    signed for the approver. *)
Definition approved_exactly (pid actor note : string) (d d' : ProjectDB) (s : CostBaselineSnapshot) : Prop :=
  cs_ProjectID s = pid /\ cs_ApprovedBy s = TrimSpace actor /\ cs_ApprovalNote s = TrimSpace note
  /\ cs_PlannedMinorUnits s = sum_Z (planned_of pid d)
  /\ reserved pid "contingency" d (cs_ContingencyMinorUnits s)
  /\ reserved pid "management" d (cs_ManagementReserveMinorUnits s)
  /\ snapshot_valid s /\ row_currency pid d = Some (cs_CurrencyCode s)
  /\ follows_versions pid d (cs_Version s)
  /\ cost_baseline_snapshots (costs d) !! cs_ID s = None
  /\ exists l e1 e2, audit_events d = Some l
       /\ d' = set_audit_events (l ++ [e1; e2])
                 (set_cost_baseline_snapshots (<[cs_ID s := s]> (cost_baseline_snapshots (costs d))) d)
       /\ ae_UserID e1 = TrimSpace actor /\ ae_UserID e2 = TrimSpace actor
       /\ checkpoint_of e2 pid "cost_baseline_snapshot" (cs_ID s) "cost_baseline_approved"
            (json_text (snapshot_fields s)).

Lemma received_all `{DbEnv} {A} (l0 l : list A) : (forall k, db_rows_cut k = None) -> received l0 l -> l ≡ₚ l0.
Proof. intros Hcut (l1 & Hp & [->|(k & n & Hk & _)]); [done|]. by rewrite Hcut in Hk. Qed.

Lemma planned_of_amounts pid d : planned_amounts pid d = planned_of pid d.
Proof.
  unfold planned_amounts, planned_of, ledger_of. rewrite list_filter_filter. f_equal.
  apply list_filter_iff. intros e. tauto.
Qed.

Lemma reserved_amount pid kind d : reserves_ok (cost_reserves (costs d)) -> reserved pid kind d (reserve_amount pid kind d).
Proof.
  intros [H1 H2]%(reserve_amount_of d pid kind). split.
  - intros r (Hr & Hp & Hk). symmetry. by apply H1; [apply elem_of_reserve_list|].
  - intros Hn. destruct H2 as [(r & [Hp Hr]%elem_of_reserve_list & Hk)|H2]; [|done]. by destruct (Hn r).
Qed.

Lemma foldr_max_elem x l : foldr Z.max x l ∈ x :: l.
Proof.
  induction l as [|y l IH]; cbn; [by left|]. destruct (Z.max_spec y (foldr Z.max x l)) as [[_ ->]|[_ ->]].
  - apply elem_of_cons in IH as [->|IH]; [by left|by do 2 right].
  - right. by left.
Qed.

Lemma next_version_follows pid d v : sql_next_version pid d = Some v -> follows_versions pid d v.
Proof.
  intros Hv. split.
  - intros w (id & s & Hs & Hp & <-). eapply next_version_above; [exact Hv|].
    apply elem_of_snapshot_list. split; [done|by exists id].
  - revert Hv. unfold sql_next_version. cbv zeta. destruct (in_int64 _); [|done]. intros Hv. injection Hv as <-.
    destruct (cs_Version <$> snapshot_list pid d) as [|x l] eqn:E; [by left|right].
    assert (Hin : foldr Z.max x l ∈ cs_Version <$> snapshot_list pid d) by (rewrite E; apply foldr_max_elem).
    apply list_elem_of_fmap in Hin as (s & Es & [Hp [id Hs]]%elem_of_snapshot_list).
    exists id, s. split_and!; [done..|lia].
Qed.

Lemma cost_approved_exactly `{DbEnv} pid actor note d d' s : (forall k, db_rows_cut k = None) ->
  reserves_ok (cost_reserves (costs d)) -> cost_baselines_ok d -> cost_approved pid actor note d d' s ->
  approved_exactly pid actor note d d' s.
Proof.
  intros Hcut Hres Hok Ha. destruct (approved_snapshot_valid _ _ _ _ _ _ Hres Hok Ha) as (Hv & Habove & Hcur).
  destruct Ha as (cur & am & rows & pl & base & whole & v & id & text & d1 & d2 & ev & _ & _ & _ & _ & Ham & Hpl & Hrows
    & _ & _ & _ & Hnext & Es & Hi & He & Hc).
  apply next_version_follows in Hnext.
  pose proof (reserved_amount pid "contingency" d Hres) as R1.
  pose proof (reserved_amount pid "management" d Hres) as R2.
  apply received_all in Ham; [|done]. apply received_all in Hrows; [|done].
  apply Accumulator_Amount_Ok in Hpl. rewrite sum_planned_total, (sum_Z_perm _ _ Ham) in Hpl.
  rewrite (reserve_amounts_exact _ _ _ Hres Hrows) in Es. cbn [fst snd] in Es.
  apply insert_snapshot_Some in Hi as (-> & Hn & _).
  pose proof Hc as (l2 & e2 & Hl2 & Hl3 & _ & _ & _ & _ & _ & Hcp & Hu)%checkpointed_event.
  assert (Hlog : exists l e1 e2, audit_events d = Some l
    /\ d' = set_audit_events (l ++ [e1; e2])
              (set_cost_baseline_snapshots (<[cs_ID s := s]> (cost_baseline_snapshots (costs d))) d)
    /\ ae_UserID e1 = TrimSpace actor /\ ae_UserID e2 = TrimSpace actor
    /\ checkpoint_of e2 pid "cost_baseline_snapshot" (cs_ID s) "cost_baseline_approved" (json_text (snapshot_fields s))).
  { assert (Hu1 : cs_ApprovedBy s = TrimSpace actor) by (rewrite Es; reflexivity).
    destruct He as (l & id1 & b1 & a1 & now1 & Hl & Ee & _ & _ & Ed), Hc as (? & ? & e & _ & (l' & ? & ? & ? & ? & Hl' & _ & _ & _ & Ed')).
    rewrite Ed' in Hl3. injection Hl3 as Hl3. rewrite Hl2 in Hl'. injection Hl' as <-.
    apply app_inv_head in Hl3. injection Hl3 as ->. rewrite Ed in Hl2. injection Hl2 as <-.
    exists l, ev, e2. split; [exact Hl|]. split; [rewrite Ed', Ed, <- app_assoc; reflexivity|].
    rewrite Hu1 in Hu. split; [rewrite Ee; exact Hu1|]. split; [exact Hu|exact Hcp]. }
  rewrite planned_of_amounts in Hpl. clear -Es Hpl Hv Hcur Hnext Hn Hlog R1 R2.
  assert (Hf : cs_ProjectID s = pid /\ cs_ApprovedBy s = TrimSpace actor /\ cs_ApprovalNote s = TrimSpace note
    /\ cs_PlannedMinorUnits s = sum_Z (planned_of pid d)
    /\ reserved pid "contingency" d (cs_ContingencyMinorUnits s)
    /\ reserved pid "management" d (cs_ManagementReserveMinorUnits s)
    /\ follows_versions pid d (cs_Version s)) by (rewrite Es, <- Hpl; split_and!; done).
  destruct Hf as (H1 & H2 & H3 & H4 & H5 & H6 & H7). unfold approved_exactly.
  repeat (split; [assumption|]). exact Hlog.
Qed.

Lemma rows_failure `{DbEnv} {A} (f : ProjectDB -> option (list A)) c e c' :
  dtx_rows f c = (Err e, c') -> e = ErrDbStatement.
Proof.
  unfold dtx_rows, dtx_query, dtx_statement. destruct (db_statement_fails _); [congruence|].
  destruct (f (file c)); cbn [fmap option_fmap option_map]; congruence.
Qed.

(** ** The properties *)

(** C14. Whatever operations follow, under any faults, no entry of the ledger, no
    attachment and no approved baseline of a file is changed or lost. *)
Theorem ledger_append_only d d' : rtc project_step d d' ->
  cost_entries (costs d) ⊆ cost_entries (costs d')
  /\ cost_entry_attachments (costs d) ⊆ cost_entry_attachments (costs d')
  /\ cost_baseline_snapshots (costs d) ⊆ cost_baseline_snapshots (costs d').
Proof.
  intros Hst. assert (Hg : ledger_grows d d').
  { induction Hst as [d|d d1 d2 H _ IH]; [done|]. etrans; [by apply project_step_ledger|exact IH]. }
  by destruct Hg.
Qed.

(** In every reachable file each ledger entry is one that the checks accept: an
    amount that is not 0, one of the three kinds, a calendar date, a quantity in its
    bounds with a unit, texts in their length, of a project of the file, with a cost
    type of that project. *)
Theorem reachable_ledger d : reachable d -> forall id e, cost_entries (costs d) !! id = Some e ->
  ce_ID e = id /\ entry_valid e /\ ce_ProjectID e ∈ projects d
  /\ exists ty, cost_types (costs d) !! ce_CostTypeID e = Some ty /\ ct_ProjectID ty = ce_ProjectID e.
Proof. intros Hr. exact (reachable_entries_ok d Hr). Qed.

(** C6. In every reachable file each approved baseline has a positive sum that fits
    the integers, a version of its own in its project, and the currency that the
    project still has. *)
Theorem reachable_cost_baselines d : reachable d -> forall id s,
  cost_baseline_snapshots (costs d) !! id = Some s ->
  cs_ID s = id /\ snapshot_valid s /\ row_currency (cs_ProjectID s) d = Some (cs_CurrencyCode s)
  /\ forall id' s', cost_baseline_snapshots (costs d) !! id' = Some s' -> cs_ProjectID s' = cs_ProjectID s ->
       cs_Version s' = cs_Version s -> id' = id.
Proof.
  intros [_ [_ B C]]%reachable_cost_ok id s Hs. destruct (B id s Hs) as (H1 & H2 & H3).
  split_and!; [done..|]. intros id' s' Hs' Hp Hv. by apply (C id' id s' s).
Qed.

(** C21. While every row arrives, approving a baseline in a reachable file records the
    exact sum of the planned entries and the reserves of the project; or it fails
    and changes nothing, unless the commit itself reported the failure. *)
Theorem ApproveCostBaseline_spec {E : DbEnv} pid actor note c r c' : reachable (file c) ->
  (forall k, db_rows_cut k = None) -> ApproveCostBaseline pid actor note c = (r, c') ->
  match r with
  | Ok s => approved_exactly pid actor note (file c) (file c') s
  | Err ErrDbCommit => file c' = file c \/ exists s, approved_exactly pid actor note (file c) (file c') s
  | Err _ => file c' = file c
  end.
Proof.
  intros [Hres Hok]%reachable_cost_ok Hcut [(s & Hs & Hr)|[Hf F]]%ApproveCostBaseline_effect.
  - apply cost_approved_exactly in Hs; [|done..]. destruct Hr as [->| ->]; [done|]. right. by exists s.
  - destruct r as [y|e]; [done|]. destruct e; first [exact F|by left].
Qed.

(** C20. In every reachable file each attachment has the size and the SHA-256 digest of
    its bytes, at most 10 MiB of them, a name without a directory, and an entry of
    its project; an entry has at most 10, a project at most 200 MiB. *)
Theorem reachable_attachments d : reachable d ->
  (forall id a data, cost_entry_attachments (costs d) !! id = Some (a, data) -> attachment_ok d id a data)
  /\ (forall entry, (length (attachments_of_entry entry d) <= 10)%nat)
  /\ forall pid, sum_Z (at_SizeBytes <$> attachments_of_project pid d) <= 200 * 2 ^ 20.
Proof. intros [A B C]%reachable_attachments_ok. split_and!; [done|done|]. intros pid. apply C. Qed.

(** C29. A search for a text, valid UTF-8 without NUL as the five fields of the ledger
    are, finds the entries of the project that hold the trimmed text in one of them,
    whatever wildcards it holds and in either case of ASCII letters, the newest first
    and at most 200 of them; it changes nothing, and fails only when the text is too
    long or the statement fails.  SQLite takes U+FFFE and U+FFFF for U+FFFD and
    searches a leading U+0080 as a byte: texts with the former and queries that start
    with the latter are left out. *)
Theorem SearchCostEntries_spec {E : DbEnv} pid query c r c' :
  let q := TrimSpace query in
  searchable q -> no_control_head q ->
  (forall e, e ∈ ledger_of pid (file c) -> Forall searchable (searched_texts e)) ->
  SearchCostEntries pid query c = (r, c') ->
  file c' = file c
  /\ match r with
     | Ok l => exists found, Sorted entry_order found
         /\ (if String.eqb q "" then found ≡ₚ ledger_of pid (file c) /\ l = found
             else found ≡ₚ filter (entry_contains q) (ledger_of pid (file c)) /\ l = take 200 found)
     | Err e => e = ErrDbStatement \/ e = ErrCostSearchLength /\ 200 < go_len q
     end.
Proof.
  intros q Hq H80 Hs. unfold SearchCostEntries. cbv zeta. fold q.
  destruct (String.eqb q "").
  - unfold ListCostEntries, dtx_bind. destruct (dtx_rows _ c) as [[l|e] c1] eqn:El; intros Hr; injection Hr as <- <-.
    + apply dtx_rows_Ok in El as (l0 & Hl0 & Hp & F). injection Hl0 as <-. split; [exact F|].
      exists (merge_sort entry_order l). split; [apply Sorted_merge_sort, _|]. split; [|done].
      by rewrite merge_sort_Permutation.
    + split; [by eapply rows_same|]. left. by eapply rows_failure.
  - unfold dtx_bind at 1, dtx_guard. destruct (maxSearchLength <? go_len q) eqn:Hlen; cbn [negb].
    { intros Hr. injection Hr as <- <-. split; [done|right]. split; [done|]. by apply Z.ltb_lt in Hlen. }
    cbn [dtx_ret]. unfold dtx_bind. destruct (dtx_rows _ c) as [[l|e] c1] eqn:El; intros Hr; injection Hr as <- <-.
    + apply dtx_rows_Ok in El as (l0 & Hl0 & Hp & F). injection Hl0 as <-. split; [exact F|].
      exists (merge_sort entry_order l). split; [apply Sorted_merge_sort, _|]. split; [|done].
      rewrite merge_sort_Permutation, Hp. apply reflexive_eq, filter_ext_in. intros e He.
      apply entry_matches_contains; [done..|by apply Hs].
    + split; [by eapply rows_same|]. left. by eapply rows_failure.
Qed.

(** The quantity totals of a project whose item names hold no NUL byte: one for each
    item and unit among its entries with a quantity, the exact sum and the number of
    its rows; the code never follows a missing bucket, and fails only when a sum
    leaves the 64 bits or the statement fails. *)
Theorem AggregateCostEntryQuantities_spec {E : DbEnv} pid c r c' :
  Forall (fun x => no_separator x.1.1) (quantity_rows pid (file c)) ->
  AggregateCostEntryQuantities pid c = (r, c') ->
  file c' = file c
  /\ match r with
     | Ok None => False
     | Ok (Some res) => exists ks, NoDup ks /\ (forall k, k ∈ ks <-> k ∈ fst <$> quantity_rows pid (file c))
         /\ res = aggregates ks (quantity_rows pid (file c))
     | Err e => e = ErrDbStatement
     end.
Proof.
  intros Hs. unfold AggregateCostEntryQuantities, dtx_bind.
  destruct (dtx_rows _ c) as [[l|e] c1] eqn:El; intros Hr; injection Hr as <- <-.
  - apply dtx_rows_Ok in El as (l0 & Hl0 & Hp & F). injection Hl0 as <-. split; [exact F|].
    assert (Hp' : merge_sort quantity_order l ≡ₚ quantity_rows pid (file c)) by by rewrite merge_sort_Permutation.
    destruct (aggregate_quantities_groups (merge_sort quantity_order l)) as (ks & Hn & Hks & ->); [by rewrite Hp'|].
    exists ks. split_and!; [done| |by rewrite (aggregates_perm _ _ _ Hp')]. intros k. by rewrite Hks, Hp'.
  - split; [by eapply rows_same|by eapply rows_failure].
Qed.

Lemma query_count `{DbEnv} {A} (f : ProjectDB -> option A) c a c' : dtx_query f c = (Ok a, c') ->
  f (file c) = Some a /\ file c' = file c /\ statements_run c' = S (statements_run c).
Proof.
  intros Hr. pose proof (dtx_query_Ok _ _ _ _ Hr) as [Hf F]. split_and!; [done..|]. revert Hr.
  unfold dtx_query, dtx_statement. destruct (db_statement_fails _); [done|]. rewrite Hf. intros Hr. by injection Hr as <-.
Qed.

Lemma rows_unchecked_cut `{DbEnv} {A} (f : ProjectDB -> option (list A)) c l c' n :
  dtx_rows_unchecked f c = (Ok l, c') -> db_rows_cut (statements_run c) = Some n ->
  exists l0, f (file c) = Some l0 /\ l = take n (db_rows (statements_run c) l0).
Proof.
  intros Hr Hn. unfold dtx_rows_unchecked, dtx_rows in Hr. destruct (dtx_query f c) as [[l0|e] c1] eqn:E; [|done].
  injection Hr as <- _. apply query_count in E as (Hf & _). exists l0. by rewrite Hn.
Qed.

(** When the rows of the planned entries stop arriving after [n] of them, an approval
    that reports success has recorded and signed the sum of those [n] as the plan. *)
Theorem ApproveCostBaseline_misses_rows {E : DbEnv} pid actor note c s c' n :
  ApproveCostBaseline pid actor note c = (Ok s, c') -> db_rows_cut (2 + statements_run c) = Some n ->
  cs_PlannedMinorUnits s = sum_Z (take n (db_rows (2 + statements_run c) (planned_amounts pid (file c))))
  /\ cost_baseline_snapshots (costs (file c')) !! cs_ID s = Some s.
Proof.
  intros Hr Hn. unfold ApproveCostBaseline in Hr.
  apply dtx_bind_Ok in Hr as (u & c1 & [_ ->]%dtx_guard_Ok & Hr). unfold in_tx, run_tx in Hr.
  destruct (db_statement_fails _); [done|]. destruct (dtx_bind _ _ (statement_run c)) as [[[x|x|e w]|e] c7] eqn:Hb; try done;
    apply dtx_bind_Ok in Hb as (y & c8 & Hb & Hy); injection Hy as Hy Hc; try done. subst y c8.
  destruct (db_commit _); try done. injection Hr as -> <-. cbn [file].
  apply dtx_bind_Ok in Hb as (currency & c2 & (_ & F2 & N2)%query_count & Hb).
  apply dtx_bind_Ok in Hb as (amounts & c3 & Ham & Hb).
  pose proof (dtx_rows_unchecked_Ok _ _ _ _ Ham) as (_ & _ & _ & F3).
  change (2 + statements_run c)%nat with (S (statements_run (statement_run c))) in *. rewrite <- N2 in *.
  apply (rows_unchecked_cut _ _ _ _ n) in Ham as (l0 & Hl0 & ->); [|exact Hn]. rewrite F2 in Hl0.
  injection Hl0 as <-. apply dtx_bind_Ok in Hb as (pl & c4 & [Hpl%Accumulator_Amount_Ok ->]%dtx_of_money_Ok & Hb).
  rewrite sum_planned_total in Hpl.
  apply dtx_bind_Ok in Hb as (rows & c4 & _ & Hb). destruct (reserve_amounts rows) as [ct mg].
  do 6 (apply dtx_bind_Ok in Hb as (? & ? & _ & Hb)).
  apply dtx_bind_Ok in Hb as (u3 & c9 & Hi%dtx_exec_Ok & Hb).
  apply dtx_bind_Ok in Hb as (ev & c10 & He%append_appends & Hb).
  apply dtx_bind_Ok in Hb as (ev2 & c11 & Hc%checkpoint_Ok & Hb). injection Hb as <- <-. split; [exact Hpl|].
  apply checkpointed_event in Hc as (? & ? & _ & _ & _ & _ & _ & -> & _).
  apply appends_events in He as (? & _ & _ & _ & _ & _ & -> & _).
  apply insert_snapshot_Some in Hi as (-> & _). cbn [costs set_cost_baseline_snapshots set_costs cost_baseline_snapshots cs_ID].
  by rewrite lookup_insert_eq.
Qed.

(** ** A concrete history

    The cost types, two planned entries, a contingency reserve, an approved baseline
    and an attachment. *)

Definition demo_types : Session := (@ListCostTypes calm "p1" fresh).2.

Definition demo_type : string :=
  default "" (fst <$> head (map_to_list (cost_types (costs (file demo_types))))).

Definition demo_planned (id item : string) (amount quantity : Z) : CostEntry :=
  mkCostEntry id "p1" demo_type "planned" "2026-05-28" "Steel, 50% now" amount quantity " kg " item "" "" "" "" "".

Definition demo_entry1 : Session := (@SaveCostEntry calm (demo_planned "e1" "beam" 100000 2500) demo_types).2.
Definition demo_entry2 : Session := (@SaveCostEntry calm (demo_planned "e2" "beam" 50000 1500) demo_entry1).2.

Definition demo_contingency : CostReserve := mkCostReserve "r1" "p1" "contingency" 20000 "Weather".
Definition demo_reserve : Session := (@SaveCostReserve calm demo_contingency demo_entry2).2.
Definition demo_baseline : Session := (@ApproveCostBaseline calm "p1" "alice" "Go" demo_reserve).2.
Definition demo_attached : Session := (@SaveCostEntryAttachment calm "p1" "e1" "a/invoice.pdf" "" "bytes" demo_baseline).2.

Lemma demo_types_reachable : reachable (file demo_types).
Proof. refine (calm_step _ _ _ fresh (op_cost_types _) _ fresh_reachable). by_decide. Qed.

Lemma demo_entry1_reachable : reachable (file demo_entry1).
Proof. refine (calm_step _ _ _ demo_types (op_save_entry _) _ demo_types_reachable). by_decide. Qed.

Lemma demo_entry2_reachable : reachable (file demo_entry2).
Proof. refine (calm_step _ _ _ demo_entry1 (op_save_entry _) _ demo_entry1_reachable). by_decide. Qed.

Lemma demo_reserve_reachable : reachable (file demo_reserve).
Proof. refine (calm_step _ _ _ demo_entry2 (op_save_reserve _) _ demo_entry2_reachable). by_decide. Qed.

Lemma demo_baseline_reachable : reachable (file demo_baseline).
Proof. refine (calm_step _ _ _ demo_reserve (op_approve_baseline _ _ _) _ demo_reserve_reachable). by_decide. Qed.

Lemma demo_attached_steps : rtc project_step (file demo_baseline) (file demo_attached).
Proof.
  apply rtc_once.
  refine (step_other calm _ _ _ demo_baseline _ demo_attached (op_attach _ _ _ _ _) _ (surjective_pairing _)). by_decide.
Qed.

Lemma demo_attached_reachable : reachable (file demo_attached).
Proof. unfold reachable. etrans; [exact demo_baseline_reachable|exact demo_attached_steps]. Qed.

Lemma ledger_append_only_witness :
  is_Some (cost_entries (costs (file demo_attached)) !! "e1"%string).
Proof.
  destruct (ledger_append_only (file demo_baseline) (file demo_attached) demo_attached_steps) as (H & _).
  assert (Hb : bool_decide (is_Some (cost_entries (costs (file demo_baseline)) !! "e1"%string)) = true)
    by (vm_compute; reflexivity).
  apply bool_decide_eq_true in Hb. destruct Hb as [e He]. exists e. exact (lookup_weaken _ _ _ _ He H).
Defined.

Lemma reachable_ledger_witness : exists e, cost_entries (costs (file demo_entry2)) !! "e2"%string = Some e
  /\ entry_valid e.
Proof.
  assert (Hb : bool_decide (is_Some (cost_entries (costs (file demo_entry2)) !! "e2"%string)) = true)
    by (vm_compute; reflexivity).
  apply bool_decide_eq_true in Hb. destruct Hb as [e He]. exists e. split; [exact He|].
  exact (proj1 (proj2 (reachable_ledger (file demo_entry2) demo_entry2_reachable "e2" e He))).
Defined.

Lemma reachable_cost_baselines_witness : exists id s, cost_baseline_snapshots (costs (file demo_baseline)) !! id = Some s
  /\ row_currency "p1" (file demo_baseline) = Some (cs_CurrencyCode s) /\ 1 <= cs_Version s.
Proof.
  set (m := cost_baseline_snapshots (costs (file demo_baseline))).
  assert (Hb : match map_to_list m with
               | [(id, s)] => String.eqb (cs_ProjectID s) "p1" | _ => false end = true) by (vm_compute; reflexivity).
  assert (Hin : forall id s, (id, s) ∈ map_to_list m -> m !! id = Some s) by (intros id s; apply elem_of_map_to_list).
  destruct (map_to_list m) as [|[id s] [|]]; [discriminate Hb| |discriminate Hb].
  assert (Hs : m !! id = Some s) by (apply Hin; left).
  destruct (reachable_cost_baselines (file demo_baseline) demo_baseline_reachable id s Hs) as (_ & Hv & Hc & _).
  exists id, s. split; [exact Hs|]. apply String.eqb_eq in Hb. rewrite Hb in Hc. split; [exact Hc|]. apply Hv.
Defined.

Lemma ApproveCostBaseline_spec_witness : exists s,
  approved_exactly "p1" "alice" "Go" (file demo_reserve) (file demo_baseline) s
  /\ cs_PlannedMinorUnits s = 150000 /\ cs_ContingencyMinorUnits s = 20000.
Proof.
  pose proof (ApproveCostBaseline_spec (E := calm) "p1" "alice" "Go" demo_reserve _ _ demo_reserve_reachable
                (fun _ => eq_refl) (surjective_pairing _)) as H.
  assert (Hv : match (@ApproveCostBaseline calm "p1" "alice" "Go" demo_reserve).1 with
               | Ok s => (cs_PlannedMinorUnits s =? 150000) && (cs_ContingencyMinorUnits s =? 20000)
               | Err _ => false end = true) by (vm_compute; reflexivity).
  destruct ((@ApproveCostBaseline calm "p1" "alice" "Go" demo_reserve).1) as [s|e]; [|discriminate Hv].
  apply andb_prop in Hv as [H1%Z.eqb_eq H2%Z.eqb_eq].
  exists s. split; [exact H|]. split; [exact H1|exact H2].
Defined.

(** The second of the planned rows does not arrive. *)
Definition rows_cut_at (k n : nat) : DbEnv :=
  {| db_clock := @db_clock calm; db_entropy := @db_entropy calm; db_entropy_length := @db_entropy_length calm;
     db_statement_fails := fun _ => false; db_rows := @db_rows calm; db_rows_perm := @db_rows_perm calm;
     db_rows_cut := fun k' => if Nat.eqb k k' then Some n else None; db_commit := fun _ => Committed |}.

Lemma ApproveCostBaseline_misses_rows_witness : exists s,
  (@ApproveCostBaseline (rows_cut_at 37 1) "p1" "alice" "Go" demo_reserve).1 = Ok s
  /\ cs_PlannedMinorUnits s = sum_Z (take 1 (planned_amounts "p1" (file demo_reserve)))
  /\ cs_PlannedMinorUnits s <> sum_Z (planned_amounts "p1" (file demo_reserve)).
Proof.
  pose proof (ApproveCostBaseline_misses_rows (E := rows_cut_at 37 1) "p1" "alice" "Go" demo_reserve) as H.
  assert (Hn : @db_rows_cut (rows_cut_at 37 1) (2 + statements_run demo_reserve) = Some 1%nat) by (vm_compute; reflexivity).
  assert (Hok : is_ok (@ApproveCostBaseline (rows_cut_at 37 1) "p1" "alice" "Go" demo_reserve).1 = true)
    by (vm_compute; reflexivity).
  assert (Hsum : (sum_Z (take 1 (planned_amounts "p1" (file demo_reserve)))
                  =? sum_Z (planned_amounts "p1" (file demo_reserve))) = false) by (vm_compute; reflexivity).
  destruct (@ApproveCostBaseline (rows_cut_at 37 1) "p1" "alice" "Go" demo_reserve) as [[s|e] c'] eqn:Er;
    [|discriminate Hok].
  destruct (H s c' 1%nat eq_refl Hn) as [Hp _]. exists s. split; [reflexivity|]. split; [exact Hp|].
  apply Z.eqb_neq in Hsum. intros E. apply Hsum. rewrite <- E. symmetry. exact Hp.
Defined.

Lemma reachable_attachments_witness :
  exists id a, cost_entry_attachments (costs (file demo_attached)) !! id = Some (a, "bytes"%string)
  /\ at_SHA256 a = HexSum256 "bytes" /\ filename_ok (at_Filename a).
Proof.
  set (m := cost_entry_attachments (costs (file demo_attached))).
  assert (Hb : match map_to_list m with
               | [(id, (a, data))] => String.eqb data "bytes" | _ => false end = true) by (vm_compute; reflexivity).
  assert (Hin : forall id x, (id, x) ∈ map_to_list m -> m !! id = Some x) by (intros id x; apply elem_of_map_to_list).
  destruct (map_to_list m) as [|[id [a data]] [|]]; [discriminate Hb| |discriminate Hb].
  assert (Hs : m !! id = Some (a, data)) by (apply Hin; left). apply String.eqb_eq in Hb. rewrite Hb in Hs.
  destruct (reachable_attachments (file demo_attached) demo_attached_reachable) as (H & _).
  pose proof (H id a "bytes"%string Hs) as Ha. exists id, a. split; [exact Hs|]. split; [apply Ha|apply Ha].
Defined.

Lemma SearchCostEntries_spec_witness : exists l c',
  @SearchCostEntries calm "p1" " 50% " demo_entry2 = (Ok l, c') /\ length l = 2%nat /\ file c' = file demo_entry2.
Proof.
  assert (Hq : searchable (TrimSpace " 50% ")) by by_decide.
  assert (H80 : no_control_head (TrimSpace " 50% ")) by by_decide.
  assert (Hs : Forall (fun e => Forall searchable (searched_texts e)) (ledger_of "p1" (file demo_entry2))) by by_decide.
  pose proof (SearchCostEntries_spec (E := calm) "p1" " 50% " demo_entry2) as H.
  assert (Hl : match (@SearchCostEntries calm "p1" " 50% " demo_entry2).1 with
               | Ok l => Nat.eqb (length l) 2 | Err _ => false end = true) by (vm_compute; reflexivity).
  destruct (@SearchCostEntries calm "p1" " 50% " demo_entry2) as [[l|e] c'] eqn:Er; [|discriminate Hl].
  exists l, c'. split; [reflexivity|]. split; [apply Nat.eqb_eq; exact Hl|].
  refine (proj1 (H _ _ Hq H80 _ eq_refl)). intros e He. rewrite Forall_forall in Hs. exact (Hs e He).
Defined.

Lemma AggregateCostEntryQuantities_spec_witness : exists c',
  @AggregateCostEntryQuantities calm "p1" demo_entry2
  = (Ok (Some (Ok [mkAggregateRow "beam" "kg" 4000 2])), c') /\ file c' = file demo_entry2.
Proof.
  assert (Hs : Forall (fun x => no_separator x.1.1) (quantity_rows "p1" (file demo_entry2))) by by_decide.
  pose proof (AggregateCostEntryQuantities_spec (E := calm) "p1" demo_entry2) as H.
  assert (Hr : (@AggregateCostEntryQuantities calm "p1" demo_entry2).1
               = Ok (Some (Ok [mkAggregateRow "beam" "kg" 4000 2]))) by (vm_compute; reflexivity).
  destruct (@AggregateCostEntryQuantities calm "p1" demo_entry2) as [r c'] eqn:Er. cbn [fst] in Hr. subst r.
  exists c'. split; [reflexivity|]. exact (proj1 (H _ _ Hs eq_refl)).
Defined.
